(* ===== verification/_CoqProject ===== *)
-Q . S2P
Prelude.v
Sutf8.v
VipmNode.v
Vipm.v
VipmTrie.v
VipmMap.v
VipmFvip.v
Fltrmgr.v
FltrmgrSpec.v
Htl.v
BlockDev.v
HtlCache.v
HtlSectors.v
HtlLimits.v
Classpnp.v
ClasspnpSpec.v
ClasspnpArbiter.v
Sio.v
SioRing.v
SioSpec.v
SioLine.v
Owrp.v
OwrpSpec.v
Partmgr.v
PartmgrSpec.v
PartmgrScan.v
Owzip.v
OwzipSpec.v
OwzipCodec.v
Owheap.v
OwheapSeg.v
OwheapOps.v
OwheapClaims.v
Tcpcore.v
TcpSeg.v
TcpConn.v
TcpInput.v
TcpOps.v
TcpCalls.v
TcpRun.v
TcpStream.v
TcpClaims.v
Ipstack.v
IpFrame.v
IpSpec.v
IpInput.v
IpClaims.v
Udpcore.v
UdpSpec.v
UdpClaims.v
Pfwall.v
PfwClaims.v
Owpool.v
FreeList.v
OwpoolSpec.v
Owslab.v
OwslabSpec.v
Owbitmap.v
Owfifo.v
Owcache.v
Dhcpcli.v
DhcpWire.v
DhcpSpec.v
DhcpClaims.v
Dnscli.v
DnsWire.v
DnsSpec.v
DnsClaims.v
Owhash.v
HashSpec.v
HashSha2.v
Owcrypt.v
OwcryptSha.v
OwcryptAead.v
OwcryptPoly.v
OwcryptSeal.v
OwcryptFrame.v
OwcryptAes.v
AesSpec.v
AesGcm.v
