(* ===== verification/Prelude.v ===== *)
(** * OpenWindows Essentials: a verification library

    The program is a collection of freestanding C99 components of an operating
    system.  They use no dynamic allocation: every component keeps its state in
    a structure of fixed tables that the caller owns, and reaches other
    components through function pointers stored in that structure.  This
    library translates components into executable Rocq functions, one per C
    function, and proves what makes each of them correct.

    ** Components and files

    Each component has a model file, which holds the constants, the data and
    one definition per C function, and one or more files with its theorems.

    - Text: [Sutf8] models [Extensions/sucs_types.h] and [Extensions/sutf8.h],
      the code point space and the variable-length encoding that the volume
      index, the serial driver and the filter manager use for text.
    - Volume index, [Drivers/vipm]: [VipmNode] is the packed 16-way node,
      [Vipm] the rest of [vipm.c]; [VipmTrie] and [VipmMap] refine the trie to
      a finite map, [VipmFvip] does the path table on top of it.
    - Filter manager, [Drivers/fltrmgr]: [Fltrmgr], [FltrmgrSpec].
    - Hardware translation layer, [DLL/htl]: [Htl]; [BlockDev] is the interface
      to the block drivers below it; [HtlCache] and [HtlSectors] are the cached
      and the direct path; [HtlLimits] what the interface does not say.
    - PnP arbiter, [Drivers/classpnp]: [Classpnp], [ClasspnpSpec],
      [ClasspnpArbiter].
    - Serial driver, [Drivers/sio]: [Sio], [SioRing], [SioSpec], [SioLine].
    - Ring portal, [DLL/owrp]: [Owrp], [OwrpSpec]; it dispatches the gates that
      the serial driver publishes.
    - Partition manager, [Drivers/partmgr]: [Partmgr], [PartmgrSpec],
      [PartmgrScan].
    - Compression library, [DLL/owzip64]: [Owzip], [OwzipSpec], [OwzipCodec];
      its CRC-32 is proved to be the partition manager's.
    - Heap allocator, [DLL/owheap64]: [Owheap], [OwheapSeg], [OwheapOps],
      [OwheapClaims].
    - TCP core, [Drivers/tcpcore]: [Tcpcore], [TcpSeg], [TcpConn], [TcpInput],
      [TcpOps], [TcpCalls], [TcpRun], [TcpStream], [TcpClaims].
    - IP stack, [Drivers/ipstack]: [Ipstack]; [IpFrame] is the layout of frames
      and the checksum, [IpSpec] the cache, the routes, the invariant and
      sending, [IpInput] receiving, [IpClaims].
    - UDP core, [Drivers/udpcore]: [Udpcore], [UdpSpec], [UdpClaims]; the last
      also puts it on top of the IP stack.
    - Packet filter, [Drivers/pfwall]: [Pfwall], [PfwClaims].
    - DHCP client, [Drivers/dhcpcli]: [Dhcpcli]; [DhcpWire] is the layout of
      messages and options, [DhcpSpec] the protocol automaton, [DhcpClaims].
    - DNS resolver, [Drivers/dnscli]: [Dnscli]; [DnsWire] is strings, names and
      the reference parser, [DnsSpec] the cache, [DnsClaims].
    - Pool and slab allocators, [DLL/owpool64] and [DLL/owslab64]: [Owpool] and
      [Owslab]; [FreeList] is the theory of a free list threaded through free
      blocks, which both use; [OwpoolSpec], [OwslabSpec].
    - Bitmap allocator, [DLL/owbitmap64]: [Owbitmap], with its theorems.
    - Byte ring, [DLL/owfifo64]: [Owfifo], with its theorems.
    - Block cache library, [DLL/owcache64]: [Owcache], with its
      theorems.
    - Hash functions library, [DLL/owhash64]: [Owhash]; [HashSpec] is the
      octet arithmetic and the reference of the Merkle-Damgaard hashes,
      [HashSha2] SHA-256, MD5 and CRC32C against their definitions.
    - Encryption engine, [DLL/owcrypt]: [Owcrypt] models its hashes and HMAC,
      [OwcryptAead] ChaCha20, Poly1305, the authenticated cipher and the frame
      format, [OwcryptAes] the start and stop of the module, AES, GCM and the
      random generator.  [OwcryptSha] proves the hashes and HMAC, [OwcryptPoly]
      the authenticator, [OwcryptSeal] the cipher, [OwcryptFrame] the frames,
      [AesSpec] AES and [AesGcm] its counter mode with GHASH.

    This file holds what they share: machine integers, arrays, loops, record
    update, byte blocks, and the tactics.

    ** How C is modelled

    - An unsigned integer is a [Z]; [u8], [u16], [u32] and [u64] wrap a result
      exactly where its C type does.  A signed comparison of sequence numbers
      goes through an explicit reinterpretation.
    - An array is a list; [aget] and [aset] give [None] outside it.  [None] is
      undefined behaviour: a theorem that a call returns [Some] says that it
      stays inside every array.  A pointer argument that may be [NULL] is an
      option ([ptr]).
    - A structure is a record with the fields of the source; [c <| f := v |>]
      updates a field.  A structure passed by pointer is an argument and a
      result.  File-scope variables (the resource pools of [classpnp.c], the
      staging area of [partmgr.c]) are threaded the same way.
    - A loop with a counter is [for_up]; a search is [find_up].  Other loops are
      fixpoints with fuel, and running out of fuel is [None] as well, so that
      every theorem that gives [Some] also shows that the fuel was enough.
      The amounts: the trie has 11 levels; a path walk takes one step per byte;
      a polling loop of the serial driver is bounded by the iteration limit the
      code itself counts to; sector loops by the number of sectors; an extended
      partition chain by the 64 links the code allows; the LZSS loops by the
      lengths of the buffers; a block list of the heap by the size of its
      arena; folding the carries of a 32-bit sum takes at most three rounds;
      the double-free walk of the pool and slab allocators takes at most one
      step more than the free count plus one, the limit its own guard counts to;
      the search for a set bit takes at most 64; a walk over DHCP options or
      over a DNS name moves on by at least a byte, so the size of the field or
      message is enough, and a string loop ends within its buffer; a hash or
      cipher loop consumes at least a byte of its message in each round, so the
      length of the message is enough.
    - Memory with pointers into it is modelled at byte level where the code
      relies on it: the heap reads and writes its block headers through the
      bytes of the arena, the pool and slab allocators the links of their free
      lists through a finite map from addresses to bytes, the network protocols
      their headers through the bytes of the frame or segment.

    ** What is assumed of the outside

    Code behind a function pointer is a section variable that acts on a world
    of its own: filters and completion routines, block drivers, the UART, the
    system call, the sector reader, the link layer, the IP layer, the UDP layer
    and the callbacks of the protocols above them; the status of the kernel
    library and the time-stamp counter that the encryption engine reads are
    variables too.  Theorems hold for every such
    function, with two exceptions where the component relies on documented
    behaviour: [BlockDev.BlockDevice] (a successful read returns the block that
    was last written) and [PartmgrSpec.SectorReader] (a successful read fills
    the buffer with the sector of the medium).  Both are type classes, with a
    RAM disk and a disk image as instances.  A callback that calls back into
    its component is outside the model.

    ** What the theorems show

    - Refinement of an abstract specification: the volume index is a finite map
      from keys and from paths; a filter submission runs the chain of filters in
      priority order; the block cache is invisible as long as devices have
      blocks of its own size; the partitions found on a medium are those of its
      MBR and extended chain or of the first 16 slots of its GPT, which is
      checked with CRC-32 as polynomial division; the arbiter's devices follow their
      automaton; the heap and the pool are maps from live pointers to their
      contents, and the slab registry is a family of such maps; the TCP timers
      age each connection by itself; the UDP core is a table of mailboxes, the
      packet filter an ordered list of rules, the bitmap a set of numbers, the
      byte ring a bounded queue, the block cache library a list in order of use,
      the DHCP client an automaton on messages, the DNS resolver a table of names
      without case with a parser that works on the rest of a message; opening
      an encrypted frame is parsing it, checking its tag and decrypting.
    - Safety and invariants under every sequence of calls: exclusive resources
      are granted once; clients of the heap are always answered and never
      disturb each other; the filter manager stays well formed from its
      initialisation on; the TCP core returns on arbitrary input, has at most
      one unacknowledged segment per connection until the FIN is sent and then
      one data segment and the FIN, with a valid copy of the last one, and its
      accept queue counts are exact; the DHCP client holds only addresses that
      were acknowledged to it; the ring portal enters the kernel only through
      registered gates whose flags admit the caller; the IP stack returns on arbitrary frames and never holds two cache
      entries for one address; no packet passes the filter without a rule that
      allows it.
    - Round trips and delivery: the SUTF-8 forms of SUTR-1 that the decoder
      takes, LZSS, TCP segments on the wire, bytes through the serial rings, and
      the TCP byte stream, which from the moment the peer's initial sequence
      number is known is delivered in order whatever the network does; datagrams over UDP and IP, with the
      address resolution between two stacks, and UDP over IP as one system; a
      DHCP lease from discovery to expiry, and a DNS resolution from the query to
      the cached address.
    - Agreement with published definitions: SHA-256, MD5, HMAC, ChaCha20, AES
      and AES-GCM compute what FIPS 180-4, RFC 1321, RFC 2104, RFC 8439, FIPS 197
      and SP 800-38D define,
      Poly1305 does so except where its missing reduction shows.  What is sealed
      opens to the same text, and nothing opens with a wrong tag.
    - Equivalence: the two CRC-32 routines are the same function, and so are the
      two SHA-256 routines; the slab and the pool are the same allocator.
    - Errors, bounds and termination: which inputs each operation refuses and
      with which status, that refusal changes nothing, and that the loops end.

    The lemmas named in the findings of the manifest show where the code departs
    from its documentation.

    ** Not modelled

    Drivers that only program hardware registers, screen output, the loaders,
    the vendored graphics libraries and the software on top of them have no
    state that these theorems are about.  X25519 and Ed25519, the elliptic curve
    half of the encryption engine, need a theory of their field that is not part
    of this library.  The file system drivers, which would be clients of the
    translation layer, and the system libraries that no modelled component
    calls (the registry, the parsers, the scheduler) are left out for their
    size.  The random generator and BLAKE2b are modelled, but no theorem is stated
    about them. *)
From Stdlib Require Import ZArith Lia.
From stdpp Require Export base numbers option list gmap.

#[global] Open Scope Z_scope.

(** ** Machine integers

    A C unsigned integer of width [w] is a [Z] in [0, 2^w); every arithmetic
    operation that may leave the range is followed by the wrap-around of its
    type, exactly where the C conversion happens. *)
Definition wrap (w z : Z) : Z := z mod 2 ^ w.
Definition u8 (z : Z) : Z := wrap 8 z.
Definition u16 (z : Z) : Z := wrap 16 z.
Definition u32 (z : Z) : Z := wrap 32 z.
Definition u64 (z : Z) : Z := wrap 64 z.

Definition UINT32_MAX : Z := 4294967295.
Definition UINT64_MAX : Z := 18446744073709551615.

(** The value of a C comparison or of a [bool] flag test [x != 0]. *)
Definition nz (z : Z) : bool := negb (z =? 0).

(** ** Undefined behaviour and memory

    A C computation is an [option]: [None] is undefined behaviour (an access
    outside an object, a division by zero), [Some v] a result.  C status codes,
    the errors the program itself reports, are ordinary values. *)
Abbreviation UB := None (only parsing).

(** A pointer argument is [None] when it is [NULL]. *)
Abbreviation ptr := option (only parsing).
Abbreviation NULL := None (only parsing).

(** An array object: reads and writes outside it are undefined. *)
Definition aget {A} (l : list A) (i : Z) : option A :=
  if decide (0 ≤ i) then l !! Z.to_nat i else UB.

Definition aset {A} (l : list A) (i : Z) (x : A) : option (list A) :=
  if decide (0 ≤ i < Z.of_nat (length l)) then Some (<[Z.to_nat i := x]> l) else UB.

(** A NUL-terminated C string is the list of its bytes without the
    terminator; index [length s] reads the terminator. *)
Abbreviation cstr := (list Z) (only parsing).

Definition cget (s : cstr) (i : Z) : option Z := aget (s ++ [0]) i.

(** The bytes of a valid C string: non-zero octets. *)
Definition cstr_ok (s : cstr) : Prop := Forall (λ c, 1 ≤ c < 256) s.

(** ** Struct update

    [r <| f := v |>] is the C assignment [r.f = v].  A record declares its
    eta-expansion once ([Eta]); the setter of each field is found from it. *)
Class Eta (R : Type) := eta : R → R.
Class SetField {R E : Type} (f : R → E) := set_field : E → R → R.
Arguments set_field {R E} f {_} / _ _.

Ltac build_setter :=
  match goal with
  | |- @SetField ?R ?E ?f =>
      let v := fresh "v" in let r := fresh "r" in
      unfold SetField; intros v r;
      let i := constr:(ltac:(typeclasses eauto) : Eta R) in
      let e := eval hnf in i in
      let t := eval cbv beta in (e r) in
      let t' := eval pattern (f r) in t in
      match t' with
      | ?G _ => let b := eval cbv beta in (G v) in exact b
      end
  end.
#[export] Hint Extern 0 (SetField _) => build_setter : typeclass_instances.

Notation "r <| f := v |>" := (set_field f v r)
  (at level 1, left associativity, f at level 9, v at level 200).

(** ** Loops

    [for_up n i body s] runs [body i], [body (i+1)], ... ([n] iterations);
    [find_up] is the search loop that stops at the first index whose element
    satisfies the test. *)
Fixpoint for_up {S} (n : nat) (i : Z) (body : Z → S → option S) (s : S) : option S :=
  match n with
  | O => Some s
  | Datatypes.S n' => s' ← body i s; for_up n' (i + 1) body s'
  end.

Fixpoint find_up {A} (n : nat) (i : Z) (l : list A) (p : A → bool) : option (option Z) :=
  match n with
  | O => Some None
  | S n' => x ← aget l i;
            if p x then Some (Some i) else find_up n' (i + 1) l p
  end.

(** [while (i > pos) { l[i] = l[i-1]; i--; }] with [n = i - pos] iterations. *)
Fixpoint shift_right {A} (n : nat) (l : list A) (i : Z) : option (list A) :=
  match n with
  | O => Some l
  | S n' => x ← aget l (i - 1); l' ← aset l i x; shift_right n' l' (i - 1)
  end.

(** [while (i + 1 < end) { l[i] = l[i+1]; i++; }] with [n = end - 1 - i]
    iterations. *)
Fixpoint shift_left {A} (n : nat) (l : list A) (i : Z) : option (list A) :=
  match n with
  | O => Some l
  | S n' => x ← aget l (i + 1); l' ← aset l i x; shift_left n' l' (i + 1)
  end.

(** [for (i = 0; i < n; i++) dst[doff + i] = src[soff + i]] *)
Definition copy_at (n : Z) (src : list Z) (soff : Z) (dst : list Z) (doff : Z)
    : option (list Z) :=
  for_up (Z.to_nat n) 0 (λ i dst, c ← aget src (soff + i); aset dst (doff + i) c) dst.

(** [for (i = 0; i < n; i++) dst[i] = src[i]] *)
Definition copy_bytes (n : Z) (src dst : list Z) : option (list Z) :=
  for_up (Z.to_nat n) 0 (λ i dst, c ← aget src i; aset dst i c) dst.

(** The [n] elements at offset [off] of an array that another routine reads,
    and the array after another routine stored [data] there. *)
Definition aslice {A} (l : list A) (off n : Z) : option (list A) :=
  if decide (0 ≤ off ∧ 0 ≤ n ∧ off + n ≤ Z.of_nat (length l))
  then Some (take (Z.to_nat n) (drop (Z.to_nat off) l)) else UB.

Definition awrite {A} (l : list A) (off : Z) (data : list A) : option (list A) :=
  if decide (0 ≤ off ∧ off + Z.of_nat (length data) ≤ Z.of_nat (length l))
  then Some (take (Z.to_nat off) l ++ data ++ drop (Z.to_nat off + length data) l) else UB.

(** ** Automation *)

Create HintDb cmodel.
Create Rewrite HintDb cmodel.

(** Splits hypotheses and closes arithmetic side conditions. *)
Ltac zsolve := repeat (progress simpl in * || destruct_and!); try lia; try done.

(** [lia] for goals with division and remainder. *)
Ltac zdm := Z.to_euclidean_division_equations; lia.

(** Turns the boolean comparisons of translated conditions into arithmetic. *)
Ltac zbool :=
  repeat match goal with
  | H : (_ && _)%bool = true |- _ => apply andb_true_iff in H as [? ?]
  | H : (_ || _)%bool = false |- _ => apply orb_false_iff in H as [? ?]
  | H : negb _ = true |- _ => apply negb_true_iff in H
  | H : negb _ = false |- _ => apply negb_false_iff in H
  | H : nz _ = _ |- _ => unfold nz in H
  | H : (_ =? _) = true |- _ => apply Z.eqb_eq in H
  | H : (_ =? _) = false |- _ => apply Z.eqb_neq in H
  | H : (_ <? _) = true |- _ => apply Z.ltb_lt in H
  | H : (_ <? _) = false |- _ => apply Z.ltb_ge in H
  | H : (_ <=? _) = true |- _ => apply Z.leb_le in H
  | H : (_ <=? _) = false |- _ => apply Z.leb_gt in H
  end.

(** Case analysis on the outermost condition or match of the goal. *)
Ltac case_if :=
  match goal with
  | |- context [if ?b then _ else _] => destruct b eqn:?; zbool
  end.

(** Inverts one bind of a successful computation in hypothesis [H]. *)
Ltac bind_inv H :=
  let x := fresh "x" in let Hx := fresh "Hx" in
  apply bind_Some in H as (x & Hx & H).

(** Sequencing after a defined step, as a rewrite rule: rewriting keeps the
    rest of the computation folded. *)
Lemma obind_Some {A B} (x : A) (f : A → option B) : Some x ≫= f = f x.
Proof. done. Qed.

(** ** Wrap-around *)

Lemma wrap_range w z : 0 ≤ w → 0 ≤ wrap w z < 2 ^ w.
Proof. intros. apply Z.mod_pos_bound, Z.pow_pos_nonneg; lia. Qed.

Lemma wrap_small w z : 0 ≤ z < 2 ^ w → wrap w z = z.
Proof. apply Z.mod_small. Qed.

Lemma u8_small z : 0 ≤ z < 256 → u8 z = z.
Proof. apply (wrap_small 8). Qed.
Lemma u16_small z : 0 ≤ z < 65536 → u16 z = z.
Proof. apply (wrap_small 16). Qed.
Lemma u32_small z : 0 ≤ z < 4294967296 → u32 z = z.
Proof. apply (wrap_small 32). Qed.
Lemma u64_small z : 0 ≤ z < 18446744073709551616 → u64 z = z.
Proof. apply (wrap_small 64). Qed.
Lemma u8_range z : 0 ≤ u8 z < 256.
Proof. by apply (wrap_range 8). Qed.
Lemma u16_range z : 0 ≤ u16 z < 65536.
Proof. by apply (wrap_range 16). Qed.
Lemma u32_range z : 0 ≤ u32 z < 4294967296.
Proof. by apply (wrap_range 32). Qed.
Lemma u64_range z : 0 ≤ u64 z < 18446744073709551616.
Proof. by apply (wrap_range 64). Qed.

#[export] Hint Rewrite u8_small u16_small u32_small u64_small using lia : cmodel.
#[export] Hint Resolve u8_range u16_range u32_range u64_range : cmodel.

(** ** Array access *)

Section arrays.
Context {A : Type}.
Implicit Types (l : list A) (x y : A) (i j : Z).

Lemma aget_of_nat l (n : nat) : aget l (Z.of_nat n) = l !! n.
Proof. unfold aget. rewrite decide_True by lia. by rewrite Nat2Z.id. Qed.

Lemma aget_to_nat l i : 0 ≤ i → aget l i = l !! Z.to_nat i.
Proof. intros. unfold aget. by rewrite decide_True. Qed.

Lemma aget_Some l i x : aget l i = Some x ↔ 0 ≤ i ∧ l !! Z.to_nat i = Some x.
Proof. unfold aget. case_decide; naive_solver. Qed.

Lemma aget_lt l i x : aget l i = Some x → 0 ≤ i < Z.of_nat (length l).
Proof. intros [? H%lookup_lt_Some]%aget_Some. lia. Qed.

Lemma aget_is_Some l i : 0 ≤ i < Z.of_nat (length l) → ∃ x, aget l i = Some x.
Proof.
  intros. rewrite aget_to_nat by lia. apply lookup_lt_is_Some_2. lia.
Qed.

Lemma aget_ge l i : Z.of_nat (length l) ≤ i → aget l i = None.
Proof. intros. rewrite aget_to_nat by lia. apply lookup_ge_None_2. lia. Qed.

Lemma aset_in l i x :
  0 ≤ i < Z.of_nat (length l) → aset l i x = Some (<[Z.to_nat i := x]> l).
Proof. intros. unfold aset. by rewrite decide_True. Qed.

Lemma aset_Some l i x l' :
  aset l i x = Some l' ↔
  0 ≤ i < Z.of_nat (length l) ∧ l' = <[Z.to_nat i := x]> l.
Proof. unfold aset. case_decide; naive_solver. Qed.

Lemma aset_length l i x l' : aset l i x = Some l' → length l' = length l.
Proof. intros [_ ->]%aset_Some. apply length_insert. Qed.

Lemma aget_aset l i x l' j :
  aset l i x = Some l' →
  aget l' j = if decide (i = j) then Some x else aget l j.
Proof.
  intros [? ->]%aset_Some. unfold aget.
  destruct (decide (0 ≤ j)), (decide (i = j)); subst; try lia; try done.
  - rewrite list_lookup_insert_eq; [done|lia].
  - rewrite list_lookup_insert_ne; [done|lia].
Qed.

Lemma aget_insert l i x j :
  0 ≤ i < Z.of_nat (length l) →
  aget (<[Z.to_nat i := x]> l) j = if decide (i = j) then Some x else aget l j.
Proof. intros. apply aget_aset with (l := l). by apply aset_in. Qed.

(** The two array-shifting loops, element by element. *)
Lemma shift_right_spec n l i :
  0 ≤ i - Z.of_nat n → i < Z.of_nat (length l) →
  ∃ l', shift_right n l i = Some l' ∧ length l' = length l ∧
    ∀ j, aget l' j = if decide (i - Z.of_nat n < j ≤ i)
                     then aget l (j - 1) else aget l j.
Proof.
  revert l i. induction n as [|n IH]; intros l i Hlo Hhi.
  { exists l. split_and!; [done..|]. intros j. by rewrite decide_False by lia. }
  destruct (aget_is_Some l (i - 1)) as [x Hx]; [lia|].
  simpl. rewrite Hx. simpl. rewrite aset_in by lia. simpl.
  destruct (IH (<[Z.to_nat i:=x]> l) (i - 1)) as (l' & -> & Hlen & Hl');
    [lia|rewrite length_insert; lia|].
  rewrite length_insert in Hlen. exists l'. split_and!; [done..|].
  intros j. rewrite Hl', !aget_insert by lia.
  repeat case_decide; subst; try lia; try done.
Qed.

Lemma shift_left_spec n l i :
  0 ≤ i → i + Z.of_nat n < Z.of_nat (length l) →
  ∃ l', shift_left n l i = Some l' ∧ length l' = length l ∧
    ∀ j, aget l' j = if decide (i ≤ j < i + Z.of_nat n)
                     then aget l (j + 1) else aget l j.
Proof.
  revert l i. induction n as [|n IH]; intros l i Hlo Hhi.
  { exists l. split_and!; [done..|]. intros j. by rewrite decide_False by lia. }
  destruct (aget_is_Some l (i + 1)) as [x Hx]; [lia|].
  simpl. rewrite Hx. simpl. rewrite aset_in by lia. simpl.
  destruct (IH (<[Z.to_nat i:=x]> l) (i + 1)) as (l' & -> & Hlen & Hl');
    [lia|rewrite length_insert; lia|].
  rewrite length_insert in Hlen. exists l'. split_and!; [done..|].
  intros j. rewrite Hl', !aget_insert by lia.
  repeat case_decide; subst; try lia; try done.
Qed.

Lemma alist_eq l1 l2 : (∀ i, aget l1 i = aget l2 i) → l1 = l2.
Proof.
  intros H. apply list_eq. intros n. specialize (H (Z.of_nat n)).
  by rewrite !aget_of_nat in H.
Qed.

(** Opening a slot at [k] in the first [n] elements of an array. *)
Lemma shift_right_insert l (k n : nat) x :
  (k ≤ n)%nat → (n < length l)%nat →
  ∃ l1 l', shift_right (n - k) l (Z.of_nat n) = Some l1 ∧
    aset l1 (Z.of_nat k) x = Some l' ∧ length l' = length l ∧
    take (S n) l' = take k l ++ x :: drop k (take n l) ∧ drop (S n) l' = drop (S n) l.
Proof.
  intros Hk Hn.
  destruct (shift_right_spec (n - k) l (Z.of_nat n)) as (l1 & Hs & Hlen & Hl1); [lia..|].
  assert (∃ l', aset l1 (Z.of_nat k) x = Some l') as [l' Hl'].
  { eexists. apply aset_in. lia. }
  exists l1, l'. pose proof (aset_length _ _ _ _ Hl').
  assert (∀ i : nat, l' !! i = if decide (i = k) then Some x else
            if decide (k < i ≤ n)%nat then l !! (i - 1)%nat else l !! i) as Hget.
  { intros i. rewrite <-!aget_of_nat, (aget_aset _ _ _ _ _ Hl'), Hl1.
    destruct (decide (i = k)) as [->|]; [by rewrite decide_True|].
    rewrite decide_False by lia. repeat case_decide; try lia; [f_equal; lia|done]. }
  split_and!; [done..|lia| |].
  - apply list_eq. intros i. destruct (decide (i < S n)%nat).
    2:{ rewrite !lookup_ge_None_2; [done| |rewrite length_take; lia].
        rewrite length_app. cbn [length]. rewrite length_drop, !length_take. lia. }
    rewrite lookup_take_lt, Hget by done.
    destruct (decide (i < k)%nat).
    { rewrite lookup_app_l by (rewrite length_take; lia).
      rewrite decide_False, decide_False, lookup_take_lt by lia. done. }
    rewrite lookup_app_r, length_take by (rewrite length_take; lia).
    rewrite (Nat.min_l k) by lia. destruct (decide (i = k)) as [->|].
    { by rewrite Nat.sub_diag. }
    rewrite decide_True by lia. destruct (i - k)%nat as [|j] eqn:Ej; [lia|].
    simpl. rewrite lookup_drop, lookup_take_lt by lia. f_equal. lia.
  - apply list_eq. intros i. rewrite !lookup_drop, Hget, !decide_False by lia. done.
Qed.

(** Closing the slot [k] of the first [n] elements and clearing the last. *)
Lemma shift_left_delete l (k n : nat) x :
  (k < n)%nat → (n ≤ length l)%nat →
  ∃ l1 l', shift_left (n - 1 - k) l (Z.of_nat k) = Some l1 ∧
    aset l1 (Z.of_nat n - 1) x = Some l' ∧ length l' = length l ∧
    take (n - 1) l' = take k l ++ drop (S k) (take n l) ∧
    drop (n - 1) l' = x :: drop n l.
Proof.
  intros Hk Hn.
  destruct (shift_left_spec (n - 1 - k) l (Z.of_nat k)) as (l1 & Hs & Hlen & Hl1); [lia..|].
  assert (∃ l', aset l1 (Z.of_nat n - 1) x = Some l') as [l' Hl'].
  { eexists. apply aset_in. lia. }
  exists l1, l'. pose proof (aset_length _ _ _ _ Hl').
  assert (∀ i : nat, l' !! i = if decide (i = n - 1)%nat then Some x else
            if decide (k ≤ i < n - 1)%nat then l !! (i + 1)%nat else l !! i) as Hget.
  { intros i. rewrite <-!aget_of_nat, (aget_aset _ _ _ _ _ Hl'), Hl1.
    destruct (decide (i = n - 1)%nat) as [->|]; [by rewrite decide_True by lia|].
    rewrite decide_False by lia. repeat case_decide; try lia; [f_equal; lia|done]. }
  split_and!; [done..|lia| |].
  - apply list_eq. intros i. destruct (decide (i < n - 1)%nat).
    2:{ rewrite !lookup_ge_None_2; [done| |rewrite length_take; lia].
        rewrite length_app, length_drop, !length_take. lia. }
    rewrite lookup_take_lt, Hget, decide_False by lia.
    destruct (decide (i < k)%nat).
    + rewrite lookup_app_l by (rewrite length_take; lia).
      rewrite decide_False, lookup_take_lt by lia. done.
    + rewrite lookup_app_r, length_take by (rewrite length_take; lia).
      rewrite decide_True, lookup_drop, lookup_take_lt by lia. f_equal. lia.
  - apply list_eq. intros [|i]; rewrite lookup_drop, Hget.
    + rewrite decide_True by lia. done.
    + rewrite decide_False, decide_False by lia. simpl. rewrite lookup_drop. f_equal. lia.
Qed.

(** The search loop stays inside the array and finds the first match. *)
Lemma find_up_spec n i l (p : A → bool) :
  0 ≤ i → i + Z.of_nat n ≤ Z.of_nat (length l) →
  ∃ r, find_up n i l p = Some r ∧
    match r with
    | Some j => i ≤ j < i + Z.of_nat n ∧
                (∃ x, aget l j = Some x ∧ p x = true) ∧
                ∀ k y, i ≤ k < j → aget l k = Some y → p y = false
    | None => ∀ k y, i ≤ k < i + Z.of_nat n → aget l k = Some y → p y = false
    end.
Proof.
  revert i. induction n as [|n IH]; intros i Hi Hn.
  { exists None. split; [done|]. intros. lia. }
  destruct (aget_is_Some l i) as [x Hx]; [lia|].
  simpl. rewrite Hx. simpl. destruct (p x) eqn:Hp.
  { exists (Some i). split_and!; [done|lia|lia|eauto|intros; lia]. }
  destruct (IH (i + 1)) as (r & -> & Hr); [lia..|].
  exists r. split; [done|]. destruct r as [j|].
  - destruct Hr as (? & ? & Hlt). split_and!; [lia|lia|done|].
    intros k y Hk Hy. destruct (decide (k = i)) as [->|]; [congruence|].
    apply (Hlt k); [lia|done].
  - intros k y Hk Hy. destruct (decide (k = i)) as [->|]; [congruence|].
    apply (Hr k); [lia|done].
Qed.
End arrays.

(** Invariant rule for the counting loop: an invariant indexed by the loop
    variable that every iteration re-establishes without undefined behaviour. *)
Lemma for_up_inv {S} (I : Z → S → Prop) n i (body : Z → S → option S) s :
  I i s →
  (∀ j s, i ≤ j < i + Z.of_nat n → I j s → ∃ s', body j s = Some s' ∧ I (j + 1) s') →
  ∃ s', for_up n i body s = Some s' ∧ I (i + Z.of_nat n) s'.
Proof.
  revert i s. induction n as [|n IH]; intros i s HI Hstep.
  { exists s. split; [done|]. by rewrite Z.add_0_r. }
  destruct (Hstep i s) as (s1 & Hs1 & HI1); [lia|done|].
  simpl. rewrite Hs1. simpl.
  destruct (IH (i + 1) s1) as (s' & -> & HI'); [done|..].
  - intros j s2 Hj HI2. apply Hstep; [lia|done].
  - exists s'. split; [done|]. by replace (i + Z.of_nat (Datatypes.S n)) with
      (i + 1 + Z.of_nat n) by lia.
Qed.

(** The same for a loop that is known to have returned. *)
Lemma for_up_returned {S} (I : S → Prop) n (body : Z → S → option S) :
  (∀ j s s', I s → body j s = Some s' → I s') →
  ∀ i s s', I s → for_up n i body s = Some s' → I s'.
Proof.
  intros Hstep. induction n as [|n IH]; intros i s s' HI E; simpl in E; [congruence|].
  apply bind_Some in E as (s1 & E1 & E2). eauto.
Qed.

(** Loops whose bodies agree on the indices they visit. *)
Lemma for_up_ext {S} n i (body body' : Z → S → option S) s :
  (∀ j s, i ≤ j < i + Z.of_nat n → body j s = body' j s) → for_up n i body s = for_up n i body' s.
Proof.
  revert i s. induction n as [|n IH]; intros i s H; [done|]. simpl. rewrite H by lia.
  destruct (body' i s); [|done]. apply IH. intros. apply H. lia.
Qed.

(** Applies the rule to the loop of the goal and rewrites the loop away. *)
Tactic Notation "loop_inv" constr(I) "as" simple_intropattern(pat) :=
  lazymatch goal with
  | |- context [for_up ?n ?i ?b ?s] =>
      assert (∃ s', for_up n i b s = Some s' ∧ I (i + Z.of_nat n) s') as pat;
      [apply (for_up_inv I)|]
  end.

(** ** Blocks of bytes *)

Lemma aset_app_here {A} (p : list A) x y q :
  aset (p ++ x :: q) (Z.of_nat (length p)) y = Some (p ++ y :: q).
Proof.
  rewrite aset_in by (rewrite length_app; simpl; lia). rewrite Nat2Z.id.
  by rewrite insert_app_r_alt, Nat.sub_diag by lia.
Qed.

Lemma aset_app_at {A} (p : list A) x y q i :
  i = Z.of_nat (length p) → aset (p ++ x :: q) i y = Some (p ++ y :: q).
Proof. intros ->. apply aset_app_here. Qed.

Lemma aget_app_here {A} (p : list A) x q : aget (p ++ x :: q) (Z.of_nat (length p)) = Some x.
Proof. rewrite aget_of_nat. by rewrite lookup_app_r, Nat.sub_diag by lia. Qed.

Lemma drop_lookup_cons {A} (l : list A) (i : nat) x :
  l !! i = Some x → drop i l = x :: drop (S i) l.
Proof. intros H. by rewrite <-(drop_S l x i). Qed.

(** The copy loops copy a block and touch nothing else. *)
Lemma copy_at_spec (n soff doff : nat) src dst :
  (soff + n ≤ length src)%nat → (doff + n ≤ length dst)%nat →
  copy_at (Z.of_nat n) src (Z.of_nat soff) dst (Z.of_nat doff) =
    Some (take doff dst ++ take n (drop soff src) ++ drop (doff + n) dst).
Proof.
  intros Hs Hd. unfold copy_at. rewrite Nat2Z.id.
  destruct (for_up_inv (λ i d, ∃ k : nat, i = Z.of_nat k ∧
    d = take doff dst ++ take k (drop soff src) ++ drop (doff + k) dst)
    n 0 (λ i dst, c ← aget src (Z.of_nat soff + i); aset dst (Z.of_nat doff + i) c) dst)
    as (d & -> & k & Hk & ->).
  - exists 0%nat. split; [done|]. simpl. by rewrite Nat.add_0_r, take_drop.
  - intros j d Hj (k & -> & ->).
    destruct (lookup_lt_is_Some_2 src (soff + k)) as [c Hc]; [lia|].
    destruct (lookup_lt_is_Some_2 dst (doff + k)) as [x Hx]; [lia|].
    rewrite <-(Nat2Z.inj_add soff k), aget_of_nat, Hc, obind_Some.
    rewrite (drop_lookup_cons dst (doff + k) x Hx), app_assoc.
    replace (Z.of_nat doff + Z.of_nat k) with
      (Z.of_nat (length (take doff dst ++ take k (drop soff src)))).
    2:{ rewrite length_app, !length_take, length_drop. lia. }
    rewrite aset_app_here. eexists. split; [done|]. exists (S k). split; [lia|].
    rewrite (take_S_r (drop soff src) k c) by (by rewrite lookup_drop).
    rewrite <-!app_assoc. simpl. do 4 f_equal. lia.
  - do 3 f_equal; [f_equal|]; f_equal; lia.
Qed.

Lemma copy_bytes_spec (n : nat) src dst :
  (n ≤ length src)%nat → (n ≤ length dst)%nat →
  copy_bytes (Z.of_nat n) src dst = Some (take n src ++ drop n dst).
Proof.
  intros Hs Hd. change (copy_bytes (Z.of_nat n) src dst)
    with (copy_at (Z.of_nat n) src (Z.of_nat 0) dst (Z.of_nat 0)).
  by rewrite copy_at_spec by lia.
Qed.

Lemma copy_bytes_length n src dst d : copy_bytes n src dst = Some d → length d = length dst.
Proof.
  intros E. eapply (for_up_returned (λ d, length d = length dst)) in E; [done| |done].
  intros j s s' Hs (c & _ & Hset)%bind_Some. by rewrite (aset_length _ _ _ _ Hset).
Qed.

(** The same with the offsets as C integers. *)
Lemma copy_at_Z n soff doff src dst :
  0 ≤ n → 0 ≤ soff → 0 ≤ doff → soff + n ≤ Z.of_nat (length src) →
  doff + n ≤ Z.of_nat (length dst) →
  copy_at n src soff dst doff =
    Some (take (Z.to_nat doff) dst ++ take (Z.to_nat n) (drop (Z.to_nat soff) src) ++
          drop (Z.to_nat (doff + n)) dst).
Proof.
  intros. rewrite <-(Z2Nat.id n), <-(Z2Nat.id soff), <-(Z2Nat.id doff) at 1 by lia.
  rewrite copy_at_spec by lia. by rewrite Z2Nat.inj_add by lia.
Qed.

Lemma copy_bytes_Z n src dst :
  0 ≤ n → n ≤ Z.of_nat (length src) → n ≤ Z.of_nat (length dst) →
  copy_bytes n src dst = Some (take (Z.to_nat n) src ++ drop (Z.to_nat n) dst).
Proof. intros. rewrite <-(Z2Nat.id n) at 1 by lia. by rewrite copy_bytes_spec by lia. Qed.

Lemma aslice_in {A} (l : list A) off n :
  0 ≤ off → 0 ≤ n → off + n ≤ Z.of_nat (length l) →
  aslice l off n = Some (take (Z.to_nat n) (drop (Z.to_nat off) l)).
Proof. intros. unfold aslice. by rewrite decide_True by lia. Qed.

Lemma awrite_in {A} (l : list A) off data :
  0 ≤ off → off + Z.of_nat (length data) ≤ Z.of_nat (length l) →
  awrite l off data =
    Some (take (Z.to_nat off) l ++ data ++ drop (Z.to_nat off + length data) l).
Proof. intros. unfold awrite. by rewrite decide_True by lia. Qed.

Lemma seqZ_snoc i : 0 ≤ i → seqZ 0 (i + 1) = seqZ 0 i ++ [i].
Proof.
  intros. rewrite seqZ_app by lia. done.
Qed.

(** A finite map that sends distinct keys to distinct values. *)
Definition map_inj `{Countable K} {V} (m : gmap K V) : Prop :=
  ∀ k1 k2 v, m !! k1 = Some v → m !! k2 = Some v → k1 = k2.

Lemma map_inj_insert `{Countable K} {V} (m : gmap K V) k v :
  map_inj m → (∀ k', m !! k' ≠ Some v) → map_inj (<[k := v]> m).
Proof.
  intros Hinj Hfresh k1 k2 v'. rewrite !lookup_insert.
  repeat case_decide; subst; naive_solver.
Qed.

Lemma map_inj_delete `{Countable K} {V} (m : gmap K V) k :
  map_inj m → map_inj (delete k m).
Proof.
  intros Hinj k1 k2 v'. rewrite !lookup_delete.
  repeat case_decide; subst; naive_solver.
Qed.

(** ** Bit operations on non-negative integers *)

(** A shifted value and a value below the shift do not overlap. *)
Lemma lor_shiftl_add a b n :
  0 ≤ n → 0 ≤ b < 2 ^ n → Z.lor (Z.shiftl a n) b = a * 2 ^ n + b.
Proof.
  intros Hn Hb. rewrite <-Z.shiftl_mul_pow2 by done.
  symmetry. apply Z.add_nocarry_lor. apply Z.bits_inj'. intros i Hi.
  rewrite Z.land_spec, Z.bits_0, Z.shiftl_spec by done.
  destruct (decide (i < n)).
  - by rewrite Z.testbit_neg_r by lia.
  - rewrite <-(Z.mod_small b (2 ^ n)), Z.mod_pow2_bits_high by lia.
    apply andb_false_r.
Qed.

(** Exclusive or stays within 32 bits. *)
Definition u32_ok (x : Z) : Prop := 0 ≤ x < 2 ^ 32.

Lemma lxor_u32 x y : u32_ok x → u32_ok y → u32_ok (Z.lxor x y).
Proof.
  intros Hx Hy. split; [apply Z.lxor_nonneg; unfold u32_ok in *; lia|].
  destruct (decide (Z.lxor x y = 0)) as [->|]; [done|].
  assert (0 ≤ Z.lxor x y) by (apply Z.lxor_nonneg; unfold u32_ok in *; lia).
  apply Z.log2_lt_pow2; [lia|].
  pose proof (Z.log2_lxor x y ltac:(apply Hx) ltac:(apply Hy)).
  assert (∀ z, u32_ok z → Z.log2 z < 32) as Hlog.
  { intros z [Hz Hz2]. destruct (decide (z = 0)) as [->|]; [done|].
    apply Z.log2_lt_pow2; lia. }
  pose proof (Hlog x Hx). pose proof (Hlog y Hy). lia.
Qed.

(** Facts about one octet are settled by enumeration. *)
Definition all_below (n : nat) (p : Z → bool) : bool := forallb p (seqZ 0 (Z.of_nat n)).

Lemma all_below_spec n p z :
  all_below n p = true → 0 ≤ z < Z.of_nat n → p z = true.
Proof.
  unfold all_below. rewrite forallb_forall. intros H Hz.
  apply H, list_elem_of_In, elem_of_seqZ. lia.
Qed.

(** ** Octet strings *)

(** Octets and the little-endian number they spell. *)
Definition octets (l : list Z) : Prop := Forall (λ b, 0 ≤ b < 256) l.
Definition le (l : list Z) : Z := foldr (λ b a, b + 256 * a) 0 l.

Lemma le_range l : octets l → 0 ≤ le l < 256 ^ Z.of_nat (length l).
Proof.
  induction 1 as [|b l Hb _ IH]; [done|]. cbn [le foldr length].
  rewrite Nat2Z.inj_succ, Z.pow_succ_r by lia. fold (le l) in *. lia.
Qed.

Lemma le_inj l k : octets l → octets k → length l = length k → le l = le k → l = k.
Proof.
  intros Hl. revert k. induction Hl as [|b l Hb Hl IH]; intros k Hk Hlen E.
  { symmetry. by apply nil_length_inv. }
  destruct Hk as [|c k Hc Hk]; [done|]. cbn [le foldr] in E. fold (le l) (le k) in E.
  assert (b = c ∧ le l = le k) as [-> El] by lia. f_equal. apply IH; [done|naive_solver|done].
Qed.

(** The [n] octets of a number, least significant first. *)
Fixpoint le_bytes (n : nat) (v : Z) : list Z :=
  match n with O => [] | S n => v mod 256 :: le_bytes n (v / 256) end.

Lemma le_bytes_length n v : length (le_bytes n v) = n.
Proof. revert v. induction n; intros v; simpl; by rewrite ?IHn. Qed.

Lemma le_bytes_octets n v : octets (le_bytes n v).
Proof.
  revert v. induction n as [|n IH]; intros v; simpl; [constructor|].
  constructor; [by apply Z.mod_pos_bound|apply IH].
Qed.

Lemma le_le_bytes n v : 0 ≤ v < 256 ^ Z.of_nat n → le (le_bytes n v) = v.
Proof.
  revert v. induction n as [|n IH]; intros v Hv; [simpl in *; lia|].
  rewrite Nat2Z.inj_succ, Z.pow_succ_r in Hv by lia. cbn [le_bytes le foldr].
  fold (le (le_bytes n (v / 256))). rewrite IH; [zdm|]. split; [zdm|].
  apply Z.div_lt_upper_bound; lia.
Qed.

(** Big-endian numbers, as network and hash formats write them. *)
Definition be_bytes (n : nat) (v : Z) : list Z := rev (le_bytes n v).
Definition be_value (l : list Z) : Z := foldl (λ a b, 256 * a + b) 0 l.

Lemma be_bytes_octets n v : octets (be_bytes n v).
Proof. apply Forall_rev, le_bytes_octets. Qed.

Lemma be_bytes_length n v : length (be_bytes n v) = n.
Proof. unfold be_bytes. by rewrite length_rev, le_bytes_length. Qed.

Lemma be_value_bytes n v : 0 ≤ v < 256 ^ Z.of_nat n → be_value (be_bytes n v) = v.
Proof.
  revert v. induction n as [|n IH]; intros v Hv; [change (256 ^ Z.of_nat 0) with 1 in Hv; change (0 = v); lia|].
  unfold be_value, be_bytes in *. cbn [le_bytes rev]. rewrite foldl_app. cbn [foldl].
  rewrite Nat2Z.inj_succ, Z.pow_succ_r in Hv by lia. rewrite IH by zdm. zdm.
Qed.

(** A loop over the bytes of a buffer is a fold. *)
Lemma bytes_loop {S} (f : S → Z → S) data len s :
  0 ≤ len ≤ Z.of_nat (length data) →
  for_up (Z.to_nat len) 0 (λ i s, b ← aget data i; Some (f s b)) s =
    Some (foldl f s (take (Z.to_nat len) data)).
Proof.
  intros Hlen.
  loop_inv (λ i t, ∃ k : nat, i = Z.of_nat k ∧ t = foldl f s (take k data)) as (t & -> & k & Hk & ->).
  - by exists 0%nat.
  - intros j t Hj (k & -> & ->). rewrite aget_of_nat.
    destruct (lookup_lt_is_Some_2 data k) as [b Hb]; [lia|]. rewrite Hb. simpl.
    eexists. split; [done|]. exists (Datatypes.S k). split; [lia|].
    by rewrite (take_S_r _ _ _ Hb), foldl_snoc.
  - do 3 f_equal. lia.
Qed.
