(* ===== verification/Sutf8.v ===== *)
(** SUTF-8, the text transport shared by the volume index, the serial driver
    and the filter manager: [Extensions/sucs_types.h] (the code point space)
    and [Extensions/sutf8.h] (length, decode, encode, stream walk).

    Bytes are [Z] in [0, 256); a buffer is an array object ([list Z]) and an
    access outside it is undefined behaviour, so the theorems below are also
    statements about which bytes the codec touches. *)
From S2P Require Import Prelude.

(** ** Code point space ([sucs_types.h]) *)
Definition SUCS_INVALID_CODEPOINT : Z := 0x7FFFFFFF.
Definition SUCS_MAX_CODEPOINT : Z := 0x7FFFFFFF.
Definition SUCS_TRAP_RANGE_MIN : Z := 0x7FFFFFF0.
Definition SUCS_TRAP_RANGE_MAX : Z := 0x7FFFFFFE.

Definition sucs_is_valid (cp : Z) : bool :=
  if SUCS_MAX_CODEPOINT <? cp then false
  else if (SUCS_TRAP_RANGE_MIN <=? cp) && (cp <=? SUCS_TRAP_RANGE_MAX) then false
  else if cp =? SUCS_INVALID_CODEPOINT then false
  else true.

(** ** Codec ([sutf8.h]) *)
Definition sutf8_codepoint_length (cp : Z) : Z :=
  if negb (sucs_is_valid cp) then 0
  else if cp <=? 0x7F then 1
  else if cp <=? 0x7FF then 2
  else if cp <=? 0xFFFF then 3
  else if cp <=? 0x10FFFF then 4
  else if cp <=? 0x3FFFFFF then 5
  else 6.

(** The lead byte gives the payload bits and the length of the form. *)
Definition sutf8_lead (b0 : Z) : option (Z * Z) :=
  if b0 <? 0x80 then Some (b0, 1)
  else if Z.land b0 0xE0 =? 0xC0 then Some (Z.land b0 0x1F, 2)
  else if Z.land b0 0xF0 =? 0xE0 then Some (Z.land b0 0x0F, 3)
  else if Z.land b0 0xF8 =? 0xF0 then Some (Z.land b0 0x07, 4)
  else if Z.land b0 0xFC =? 0xF8 then Some (Z.land b0 0x03, 5)
  else if Z.land b0 0xFE =? 0xFC then Some (Z.land b0 0x01, 6)
  else None.

(** The continuation loop [for (i = 1; i < len; i++)]: [Some None] is the
    early return on a byte that is not a continuation byte. *)
Fixpoint sutf8_cont (buf : list Z) (n : nat) (i cp : Z) : option (option Z) :=
  match n with
  | O => Some (Some cp)
  | S n' =>
      bc ← aget buf i;
      if negb (Z.land bc 0xC0 =? 0x80) then Some None
      else sutf8_cont buf n' (i + 1)
             (u32 (Z.lor (Z.shiftl cp 6) (Z.land bc 0x3F)))
  end.

Definition sutf8_overlong (len cp : Z) : bool :=
  ((len =? 2) && (cp <? 0x80)) || ((len =? 3) && (cp <? 0x800)) ||
  ((len =? 4) && (cp <? 0x10000)) || ((len =? 5) && (cp <? 0x200000)) ||
  ((len =? 6) && (cp <? 0x4000000)).

(** The part of [sutf8_decode_char] after the null checks: bytes consumed and
    the code point stored through [out_cp]. *)
Definition sutf8_decode (buf : list Z) (buf_size : Z) : option (Z * Z) :=
  let fail := Some (0, SUCS_INVALID_CODEPOINT) in
  if buf_size =? 0 then fail
  else
    b0 ← aget buf 0;
    match sutf8_lead b0 with
    | None => fail
    | Some (cp, len) =>
        if buf_size <? len then fail
        else
          r ← sutf8_cont buf (Z.to_nat (len - 1)) 1 cp;
          match r with
          | None => fail
          | Some cp =>
              if sutf8_overlong len cp then fail
              else if (SUCS_MAX_CODEPOINT <? cp) || negb (sucs_is_valid cp) then fail
              else Some (len, cp)
          end
    end.

Definition sutf8_decode_char (in_buf : ptr (list Z)) (buf_size : Z)
    (out_cp : ptr Z) : option (Z * ptr Z) :=
  match in_buf, out_cp with
  | Some buf, Some _ => '(n, cp) ← sutf8_decode buf buf_size; Some (n, Some cp)
  | _, _ => Some (0, (λ _, SUCS_INVALID_CODEPOINT) <$> out_cp)
  end.

(** [groups[k]]: the [k]-th six-bit group, all but group 0 tagged [0x80]. *)
Definition sutf8_group (cp : Z) (k : Z) : Z :=
  let g := Z.land (Z.shiftr cp (6 * k)) 0x3F in
  if k =? 0 then g else Z.lor g 0x80.

(** The bytes the [switch] of [sutf8_encode_char] stores, in order. *)
Definition sutf8_frame (cp len : Z) : list Z :=
  let g := sutf8_group cp in
  if len =? 1 then [u8 cp]
  else if len =? 2 then
    [Z.lor 0xC0 (Z.land (Z.shiftr cp 6) 0x1F); g 0]
  else if len =? 3 then
    [Z.lor 0xE0 (Z.land (Z.shiftr cp 12) 0x0F); g 2; Z.lor (g 0) 0x80]
  else if len =? 4 then
    [Z.lor 0xF0 (Z.land (Z.shiftr cp 18) 0x07); g 3; g 2; Z.lor (g 0) 0x80]
  else if len =? 5 then
    [Z.lor 0xF8 (Z.land (Z.shiftr cp 24) 0x03); g 4; g 3; g 2; Z.lor (g 0) 0x80]
  else
    [Z.lor 0xFC (Z.land (Z.shiftr cp 30) 0x01); g 5; g 4; g 3; g 2; Z.lor (g 0) 0x80].

(** Storing a list of bytes from index [i] on. *)
Fixpoint store_bytes (buf : list Z) (i : Z) (bs : list Z) : option (list Z) :=
  match bs with
  | [] => Some buf
  | b :: bs => buf' ← aset buf i b; store_bytes buf' (i + 1) bs
  end.

Definition sutf8_encode_char (cp : Z) (out_buf : ptr (list Z)) (buf_size : Z)
    : option (Z * ptr (list Z)) :=
  match out_buf with
  | None => Some (0, None)
  | Some buf =>
      if negb (sucs_is_valid cp) then Some (0, Some buf)
      else
        let len := sutf8_codepoint_length cp in
        if (len =? 0) || (buf_size <? len) then Some (0, Some buf)
        else buf' ← store_bytes buf 0 (sutf8_frame cp len); Some (len, Some buf')
  end.

Definition sutf8_next_codepoint (stream : ptr (list Z)) (remaining : Z)
    (out_cp : ptr Z) : option (Z * ptr Z) :=
  let stop := Some (0, (λ _, SUCS_INVALID_CODEPOINT) <$> out_cp) in
  match stream, out_cp with
  | Some s, Some _ =>
      if remaining =? 0 then stop
      else
        c ← aget s 0;
        if c =? 0 then stop
        else
          '(adv, out) ← sutf8_decode_char stream remaining out_cp;
          if adv =? 0 then Some (1, out) else Some (adv, out)
  | _, _ => stop
  end.

(** The well-formed transport of a code point, the form the decoder's length
    and overlong tables describe: the specification of an encoder. *)
Definition sutf8_ref_encode (cp : Z) : list Z :=
  let c d := 0x80 + (cp / d) mod 64 in
  if cp <=? 0x7F then [cp]
  else if cp <=? 0x7FF then [0xC0 + cp / 64; c 1]
  else if cp <=? 0xFFFF then [0xE0 + cp / 4096; c 64; c 1]
  else if cp <=? 0x1FFFFF then [0xF0 + cp / 262144; c 4096; c 64; c 1]
  else if cp <=? 0x3FFFFFF then
    [0xF8 + cp / 16777216; c 262144; c 4096; c 64; c 1]
  else [0xFC + cp / 1073741824; c 16777216; c 262144; c 4096; c 64; c 1].

(** ** Bit-level lemmas *)

Lemma land_63 z : Z.land z 63 = z mod 64.
Proof. by apply (Z.land_ones z 6). Qed.

Lemma cont_byte r : 0 ≤ r < 64 →
  Z.land (0x80 + r) 0xC0 = 0x80 ∧ Z.land (0x80 + r) 0x3F = r.
Proof.
  intros Hr.
  assert (((Z.land (0x80 + r) 0xC0 =? 0x80) && (Z.land (0x80 + r) 0x3F =? r))%bool = true)
    as H%andb_true_iff; [|rewrite !Z.eqb_eq in H; done].
  apply (all_below_spec 64 (λ r, ((Z.land (0x80 + r) 0xC0 =? 0x80) &&
    (Z.land (0x80 + r) 0x3F =? r))%bool) r); [by vm_compute|lia].
Qed.

Lemma sutf8_cont_step buf n i cp r :
  aget buf i = Some (0x80 + r) → 0 ≤ r < 64 → 0 ≤ cp < 2 ^ 26 →
  sutf8_cont buf (S n) i cp = sutf8_cont buf n (i + 1) (cp * 64 + r).
Proof.
  intros Hget Hr Hcp. destruct (cont_byte r Hr) as [H1 H2].
  cbn [sutf8_cont]. rewrite Hget. cbn [mbind option_bind].
  rewrite H1, H2, lor_shiftl_add, u32_small by (simpl in *; lia). done.
Qed.

(** The lead bytes of the six forms. *)
Lemma sutf8_lead_forms h :
  (0 ≤ h < 128 → sutf8_lead h = Some (h, 1)) ∧
  (0 ≤ h < 32 → sutf8_lead (0xC0 + h) = Some (h, 2)) ∧
  (0 ≤ h < 16 → sutf8_lead (0xE0 + h) = Some (h, 3)) ∧
  (0 ≤ h < 8 → sutf8_lead (0xF0 + h) = Some (h, 4)) ∧
  (0 ≤ h < 4 → sutf8_lead (0xF8 + h) = Some (h, 5)) ∧
  (0 ≤ h < 2 → sutf8_lead (0xFC + h) = Some (h, 6)).
Proof.
  assert (∀ n off len, all_below n (λ h, bool_decide (sutf8_lead (off + h) = Some (h, len)))
      = true → 0 ≤ h < Z.of_nat n → sutf8_lead (off + h) = Some (h, len)) as H.
  { intros n off len Hall Hh. by apply (all_below_spec _ _ h) in Hall; [|done];
      apply bool_decide_eq_true in Hall. }
  split_and!; intros Hh;
    [apply (H 128%nat 0)|apply (H 32%nat)|apply (H 16%nat)|apply (H 8%nat)
    |apply (H 4%nat)|apply (H 2%nat)]; try lia; vm_compute; done.
Qed.

(** Every lead byte announces a form of 1 to 6 bytes. *)
Lemma sutf8_lead_len b cp len : sutf8_lead b = Some (cp, len) → 1 ≤ len ≤ 6.
Proof. unfold sutf8_lead. intros. repeat case_match; simplify_eq; lia. Qed.

Lemma sucs_is_valid_iff cp :
  0 ≤ cp → sucs_is_valid cp = true ↔ cp < SUCS_TRAP_RANGE_MIN.
Proof.
  unfold sucs_is_valid, SUCS_MAX_CODEPOINT, SUCS_TRAP_RANGE_MIN,
    SUCS_TRAP_RANGE_MAX, SUCS_INVALID_CODEPOINT. intros.
  repeat case_match; zbool; split; intros; try done; try lia.
Qed.

(** After the continuation loop only the range checks remain. *)
Lemma sutf8_decode_finish buf size b0 h len cp :
  aget buf 0 = Some b0 → sutf8_lead b0 = Some (h, len) →
  len ≤ size →
  sutf8_cont buf (Z.to_nat (len - 1)) 1 h = Some (Some cp) →
  sutf8_overlong len cp = false → 0 ≤ cp → sucs_is_valid cp = true →
  sutf8_decode buf size = Some (len, cp).
Proof.
  intros H0 Hl Hs Hc Ho Hcp Hv. unfold sutf8_decode.
  pose proof (sutf8_lead_len _ _ _ Hl).
  rewrite (proj2 (Z.eqb_neq size 0)) by lia. rewrite H0; cbn [mbind option_bind].
  rewrite Hl, (proj2 (Z.ltb_ge size len)) by lia.
  rewrite Hc; cbn [mbind option_bind]. rewrite Ho, Hv.
  apply sucs_is_valid_iff in Hv; [|done].
  rewrite (proj2 (Z.ltb_ge SUCS_MAX_CODEPOINT cp)); [done|].
  unfold SUCS_MAX_CODEPOINT, SUCS_TRAP_RANGE_MIN in *. lia.
Qed.

Lemma aget_app_l {A} (l k : list A) i x : aget l i = Some x → aget (l ++ k) i = Some x.
Proof. intros [? ?]%aget_Some. apply aget_Some. split; [done|]. by apply lookup_app_l_Some. Qed.

(** Runs the continuation loop over the concrete continuation bytes of a
    reference form; what is left is the recombination of the six-bit groups. *)
Ltac cont_loop :=
  match goal with
  | |- context [Z.to_nat ?e] =>
      let v := eval vm_compute in (Z.to_nat e) in change (Z.to_nat e) with v
  end;
  repeat (erewrite sutf8_cont_step;
    [|apply aget_app_l; reflexivity|apply Z.mod_pos_bound; lia|zdm]);
  cbn [sutf8_cont]; try done; do 2 f_equal.

(** Picks the form of a reference lead byte. *)
Ltac lead_form :=
  match goal with
  | |- sutf8_lead (_ + ?h) = _ =>
      let H2 := fresh in let H3 := fresh in let H4 := fresh in
      let H5 := fresh in let H6 := fresh in
      destruct (sutf8_lead_forms h) as (_ & H2 & H3 & H4 & H5 & H6);
      first [apply H2; zdm|apply H3; zdm|apply H4; zdm|apply H5; zdm|apply H6; zdm]
  | |- _ => apply sutf8_lead_forms; lia
  end.

(** The decoder consumes a reference form whole, whatever follows it. *)
Lemma sutf8_decode_ref_encode cp rest size :
  0 ≤ cp → sucs_is_valid cp = true →
  Z.of_nat (length (sutf8_ref_encode cp)) ≤ size →
  sutf8_decode (sutf8_ref_encode cp ++ rest) size =
    Some (Z.of_nat (length (sutf8_ref_encode cp)), cp).
Proof.
  intros Hcp Hv Hs. pose proof (proj1 (sucs_is_valid_iff cp Hcp) Hv) as Hlt.
  unfold SUCS_TRAP_RANGE_MIN in Hlt. unfold sutf8_ref_encode in *.
  repeat case_match; zbool; simpl length in *;
    (eapply sutf8_decode_finish;
     [apply aget_app_l; reflexivity|lead_form|lia|..|lia|done];
     [cont_loop; try zdm|unfold sutf8_overlong; simpl; lia]).
Qed.

(** ** Canonicity: the decoder accepts nothing but the reference form *)

Definition byte_ok (b : Z) : Prop := 0 ≤ b < 256.

(** A continuation byte is [0x80] plus six payload bits. *)
Lemma cont_byte_inv b : byte_ok b → Z.land b 0xC0 = 0x80 →
  0 ≤ Z.land b 0x3F < 64 ∧ b = 0x80 + Z.land b 0x3F.
Proof.
  intros Hb Hc. rewrite land_63. split; [apply Z.mod_pos_bound; lia|].
  assert ((implb (Z.land b 0xC0 =? 0x80) (b =? 0x80 + b mod 64)) = true) as H.
  { apply (all_below_spec 256 (λ b, implb (Z.land b 0xC0 =? 0x80) (b =? 0x80 + b mod 64)) b);
      [by vm_compute|unfold byte_ok in Hb; lia]. }
  rewrite Hc in H. simpl in H. lia.
Qed.

(** First byte and payload bound of the form of length [len]. *)
Definition lead_base (len : Z) : Z :=
  match len with 1 => 0 | 2 => 0xC0 | 3 => 0xE0 | 4 => 0xF0 | 5 => 0xF8 | _ => 0xFC end.
Definition lead_bound (len : Z) : Z :=
  match len with 1 => 128 | 2 => 32 | 3 => 16 | 4 => 8 | 5 => 4 | _ => 2 end.

Lemma sutf8_lead_inv b h len : byte_ok b → sutf8_lead b = Some (h, len) →
  1 ≤ len ≤ 6 ∧ b = lead_base len + h ∧ 0 ≤ h < lead_bound len.
Proof.
  intros Hb Hl. split; [by eapply sutf8_lead_len|].
  set (chk b := match sutf8_lead b with
                | Some (h, len) => ((b =? lead_base len + h) && (0 <=? h) && (h <? lead_bound len))%bool
                | None => true end).
  assert (chk b = true) as H.
  { apply (all_below_spec 256 chk b); [by vm_compute|unfold byte_ok in Hb; lia]. }
  unfold chk in H. rewrite Hl in H. zbool. lia.
Qed.

(** Reading the six-bit groups back from a successful continuation loop. *)
Lemma sutf8_cont_inv buf n i cp cp' :
  Forall byte_ok buf → 0 ≤ i → 0 ≤ cp → (cp + 1) * 64 ^ Z.of_nat n ≤ 2 ^ 32 →
  sutf8_cont buf n i cp = Some (Some cp') →
  ∃ rs, length rs = n ∧ Forall (λ r, 0 ≤ r < 64) rs ∧
    drop (Z.to_nat i) buf = ((λ r, 0x80 + r) <$> rs) ++ drop (Z.to_nat i + n) buf ∧
    cp' = foldl (λ c r, c * 64 + r) cp rs.
Proof.
  intros Hbuf. revert i cp. induction n as [|n IH]; intros i cp Hi Hcp Hbnd H.
  { simplify_eq/=. exists []. by rewrite Nat.add_0_r. }
  cbn [sutf8_cont] in H. bind_inv H. rename x into b.
  destruct (negb _) eqn:Hc; [done|]. zbool.
  pose proof (proj1 (aget_Some _ _ _) Hx) as [_ Hlk].
  assert (byte_ok b) as Hb by (by eapply Forall_lookup_1).
  destruct (cont_byte_inv b Hb Hc) as [Hr Hbr]. set (r := Z.land b 0x3F) in *.
  rewrite Nat2Z.inj_succ, Z.pow_succ_r in Hbnd by lia.
  rewrite lor_shiftl_add in H by (simpl; lia).
  change (2 ^ 6) with 64 in H.
  assert (1 ≤ 64 ^ Z.of_nat n) by (apply (Z.pow_le_mono_r 64 0); lia).
  rewrite u32_small in H by nia.
  apply IH in H as (rs & Hlen & HF & Hdrop & ->); [|lia|nia|nia].
  exists (r :: rs). split_and!; [by simpl; f_equal|by constructor| |done].
  rewrite (drop_S buf b) by done. rewrite fmap_cons, Hbr. cbn [app]. f_equal.
  replace (Z.to_nat (i + 1)) with (S (Z.to_nat i)) in Hdrop by lia.
  rewrite Hdrop. do 2 f_equal. lia.
Qed.

Lemma sutf8_decode_inv buf size n cp :
  sutf8_decode buf size = Some (n, cp) → n ≠ 0 →
  ∃ b0 h, aget buf 0 = Some b0 ∧ sutf8_lead b0 = Some (h, n) ∧ n ≤ size ∧
    sutf8_cont buf (Z.to_nat (n - 1)) 1 h = Some (Some cp) ∧
    sutf8_overlong n cp = false ∧ sucs_is_valid cp = true.
Proof.
  unfold sutf8_decode. intros H Hn. case_match; [simplify_eq|].
  bind_inv H. destruct (sutf8_lead x) as [[h len]|] eqn:Hl; [|simplify_eq].
  case_match; [simplify_eq|]. bind_inv H. destruct x0 as [c|]; [|simplify_eq].
  case_match; [simplify_eq|]. case_match; simplify_eq. zbool.
  exists x, h. by split_and!.
Qed.

(** The six forms, once the groups are explicit. *)
Lemma sutf8_ref_encode_groups h rs len :
  1 ≤ len ≤ 6 → 0 ≤ h < lead_bound len → Z.of_nat (length rs) = len - 1 →
  Forall (λ r, 0 ≤ r < 64) rs →
  sutf8_overlong len (foldl (λ c r, c * 64 + r) h rs) = false →
  sutf8_ref_encode (foldl (λ c r, c * 64 + r) h rs) =
    (lead_base len + h) :: ((λ r, 0x80 + r) <$> rs).
Proof.
  intros Hlen Hh Hrs HF Ho.
  assert (len = 1 ∨ len = 2 ∨ len = 3 ∨ len = 4 ∨ len = 5 ∨ len = 6) as Hc by lia.
  destruct_or! Hc; subst len; simpl in Hh;
    do 6 (try destruct rs as [|? rs]); simpl in Hrs; try lia; clear Hrs;
    decompose_Forall_hyps; unfold sutf8_overlong in Ho; simpl in *;
    unfold sutf8_ref_encode; repeat case_match; zbool; try lia;
    repeat (f_equal; try zdm).
Qed.

(** What the decoder accepts is the reference form of what it returns. *)
Lemma sutf8_decode_canonical buf size n cp :
  Forall byte_ok buf → sutf8_decode buf size = Some (n, cp) → n ≠ 0 →
  (∃ rest, buf = sutf8_ref_encode cp ++ rest) ∧
  n = Z.of_nat (length (sutf8_ref_encode cp)) ∧ n ≤ size ∧ sucs_is_valid cp = true.
Proof.
  intros Hbuf Hdec Hn.
  apply sutf8_decode_inv in Hdec as (b0 & h & H0 & Hl & Hsz & Hc & Ho & Hv); [|done].
  pose proof (proj1 (aget_Some _ _ _) H0) as [_ Hlk].
  assert (byte_ok b0) as Hb0 by (by eapply Forall_lookup_1).
  destruct (sutf8_lead_inv _ _ _ Hb0 Hl) as (Hlen & -> & Hh).
  apply sutf8_cont_inv in Hc as (rs & Hrs & HF & Hdrop & ->); [|done|lia|lia|].
  - rewrite (sutf8_ref_encode_groups h rs n) by (done || lia).
    split_and!; [|simpl; rewrite length_fmap; lia|done|done].
    exists (drop (1 + Z.to_nat (n - 1)) buf).
    rewrite <-(drop_0 buf) at 1. rewrite (drop_S buf _ 0 Hlk). cbn [app]. f_equal. exact Hdrop.
  - rewrite Z2Nat.id by lia.
    assert (lead_bound n * 64 ^ (n - 1) ≤ 2 ^ 32).
    { assert (n = 1 ∨ n = 2 ∨ n = 3 ∨ n = 4 ∨ n = 5 ∨ n = 6) as Hcs by lia.
      destruct_or! Hcs; subst n; by vm_compute. }
    assert (0 < 64 ^ (n - 1)) by (apply Z.pow_pos_nonneg; lia). nia.
Qed.

Lemma sutf8_decode_nonneg buf size n cp :
  Forall byte_ok buf → sutf8_decode buf size = Some (n, cp) → n ≠ 0 → 0 ≤ cp.
Proof.
  intros Hbuf Hd Hn. apply sutf8_decode_inv in Hd as (b0 & h & H0 & Hl & _ & Hc & _ & _);
    [|done].
  apply aget_Some in H0 as [_ Hlk].
  apply sutf8_lead_inv in Hl as (? & _ & Hh); [|by eapply Forall_lookup_1].
  assert (∀ k i c, 0 ≤ c → sutf8_cont buf k i c = Some (Some cp) → 0 ≤ cp) as Hpos.
  { intros k. induction k as [|k IH]; intros i c Hc0 H'; simpl in H'; [by simplify_eq|].
    bind_inv H'. case_match; [done|]. eapply IH; [apply u32_range|done]. }
  eapply Hpos; [|done]. lia.
Qed.

(** The decoder accepts exactly the encodings its own length and overlong
    tables describe: on any byte buffer it returns a non-zero length [n] and code point [cp] if and only if
    [cp] is a valid code point, the buffer starts with the (unique, minimal)
    reference form of [cp], and that form fits in the advertised size.  So
    every valid code point round-trips, and overlong forms, bad continuation
    bytes and the trap range are never accepted. *)
Theorem sutf8_decode_iff buf size n cp :
  Forall byte_ok buf →
  (sutf8_decode buf size = Some (n, cp) ∧ n ≠ 0) ↔
  (0 ≤ cp ∧ sucs_is_valid cp = true ∧ (∃ rest, buf = sutf8_ref_encode cp ++ rest) ∧
   n = Z.of_nat (length (sutf8_ref_encode cp)) ∧ n ≤ size).
Proof.
  intros Hbuf. split.
  - intros [Hd Hn]. pose proof (sutf8_decode_nonneg _ _ _ _ Hbuf Hd Hn).
    destruct (sutf8_decode_canonical _ _ _ _ Hbuf Hd Hn) as (? & ? & ? & ?). done.
  - intros (Hcp & Hv & [rest ->] & -> & Hsz).
    rewrite sutf8_decode_ref_encode by done. split; [done|].
    unfold sutf8_ref_encode. repeat case_match; simpl; lia.
Qed.

Lemma sutf8_decode_iff_witness :
  (sutf8_decode [0xE4; 0xB8; 0xAD; 65] 4 = Some (3, 0x4E2D) ∧ 3 ≠ 0) ↔
  (0 ≤ 0x4E2D ∧ sucs_is_valid 0x4E2D = true ∧
   (∃ rest, [0xE4; 0xB8; 0xAD; 65] = sutf8_ref_encode 0x4E2D ++ rest) ∧
   3 = Z.of_nat (length (sutf8_ref_encode 0x4E2D)) ∧ 3 ≤ 4).
Proof.
  apply (sutf8_decode_iff [0xE4; 0xB8; 0xAD; 65] 4 3 0x4E2D).
  repeat constructor; vm_compute; done.
Defined.

(** ** The framing table of SUTR-1

    Section 4.1 of SUTR-1 gives each code point the shortest form whose range
    holds it, with four bytes up to 0x10FFFF and five from 0x110000 on. *)
Definition sutr1_length (cp : Z) : nat :=
  if decide (cp ≤ 0x7F) then 1 else if decide (cp ≤ 0x7FF) then 2
  else if decide (cp ≤ 0xFFFF) then 3 else if decide (cp ≤ 0x10FFFF) then 4
  else if decide (cp ≤ 0x3FFFFFF) then 5 else 6.

(** A byte of a form: a tag, and the part of the code point behind [k] groups
    of six bits. *)
Definition sutr1_form (cp : Z) : list Z :=
  match sutr1_length cp with
  | 1%nat => [cp]
  | n => (lead_base (Z.of_nat n) + cp / 64 ^ Z.of_nat (n - 1)) ::
         ((λ k, 0x80 + (cp / 64 ^ Z.of_nat k) mod 64) <$> rev (seq 0 (n - 1)))
  end.

(** Where the decoder's tables differ from SUTR-1: it takes these code points
    in four bytes. *)
Definition sutr1_gap (cp : Z) : Prop := 0x110000 ≤ cp ≤ 0x1FFFFF.

Lemma sutr1_form_ref cp : ¬ sutr1_gap cp → sutr1_form cp = sutf8_ref_encode cp.
Proof.
  unfold sutr1_gap. intros Hg. unfold sutr1_form, sutr1_length, sutf8_ref_encode.
  repeat case_decide; rewrite ?(proj2 (Z.leb_le _ _)) by lia;
    rewrite ?(proj2 (Z.leb_gt _ _)) by lia; rewrite ?(proj2 (Z.leb_le _ _)) by lia; try done;
    cbn [lead_base Z.of_nat Nat.sub seq rev app fmap list_fmap]; rewrite ?Z.div_1_r; done.
Qed.

Lemma sutf8_cont_total buf n i cp :
  0 ≤ i → i + Z.of_nat n ≤ Z.of_nat (length buf) → is_Some (sutf8_cont buf n i cp).
Proof.
  revert i cp. induction n as [|n IH]; intros i cp Hi Hl; [by eexists|]. cbn [sutf8_cont].
  destruct (aget_is_Some buf i) as [b Hb]; [lia|]. rewrite Hb. cbn [mbind option_bind].
  case_if; [by eexists|]. apply IH; lia.
Qed.

(** Inside its buffer the decoder always returns, with 0 bytes only together
    with the invalid code point. *)
Lemma sutf8_decode_total buf size :
  0 ≤ size ≤ Z.of_nat (length buf) →
  ∃ n cp, sutf8_decode buf size = Some (n, cp) ∧ 0 ≤ n ≤ size ∧ (n = 0 → cp = SUCS_INVALID_CODEPOINT).
Proof.
  intros Hs. unfold sutf8_decode. destruct (Z.eqb_spec size 0) as [->|]; [by exists 0, SUCS_INVALID_CODEPOINT|].
  destruct (aget_is_Some buf 0) as [b0 Hb]; [lia|]. rewrite Hb. cbn [mbind option_bind].
  assert (∃ n cp, Some (0, SUCS_INVALID_CODEPOINT) = Some (n, cp) ∧ 0 ≤ n ≤ size ∧
    (n = 0 → cp = SUCS_INVALID_CODEPOINT)) as Hfail.
  { exists 0, SUCS_INVALID_CODEPOINT. split; [done|]. split; [lia|done]. }
  destruct (sutf8_lead b0) as [[h len]|] eqn:Hl; [|done]. pose proof (sutf8_lead_len _ _ _ Hl).
  destruct (Z.ltb_spec size len); [done|].
  destruct (sutf8_cont_total buf (Z.to_nat (len - 1)) 1 h) as [[cp|] ->]; [lia|lia|..]; cbn [mbind option_bind]; [|done].
  case_if; [done|]. case_if; [done|]. exists len, cp. split; [done|lia].
Qed.

(** [C39] The decoder and SUTR-1: on every byte buffer of at least [size] bytes
    [sutf8_decode_char] returns without touching a byte outside it, consumes at
    most [size] bytes and stores the invalid code point when it consumes none.
    For the code points outside 0x110000..0x1FFFFF it accepts exactly the
    forms of the framing table of SUTR-1 section 4.1: a buffer that starts with
    the form of a valid code point gives that code point and the length of the
    form, whatever follows, and whenever such a code point is returned the
    buffer starts with its form, so overlong forms, bad continuation bytes,
    truncated forms and the trap range are refused. *)
Theorem sutf8_decode_sutr1 buf size out :
  Forall byte_ok buf → 0 ≤ size ≤ Z.of_nat (length buf) →
  ∃ n cp, sutf8_decode_char (Some buf) size (Some out) = Some (n, Some cp) ∧ 0 ≤ n ≤ size ∧
    (n = 0 → cp = SUCS_INVALID_CODEPOINT) ∧
    (n ≠ 0 → ¬ sutr1_gap cp → 0 ≤ cp < SUCS_TRAP_RANGE_MIN ∧
       n = Z.of_nat (length (sutr1_form cp)) ∧ sutr1_form cp `prefix_of` buf) ∧
    (∀ x, 0 ≤ x < SUCS_TRAP_RANGE_MIN → ¬ sutr1_gap x → sutr1_form x `prefix_of` buf →
       Z.of_nat (length (sutr1_form x)) ≤ size → n = Z.of_nat (length (sutr1_form x)) ∧ cp = x).
Proof.
  intros Hbuf Hs. destruct (sutf8_decode_total buf size Hs) as (n & cp & E & Hn & H0). exists n, cp.
  unfold sutf8_decode_char. rewrite E. cbn [mbind option_bind]. split_and!; [done|lia|lia|done|..].
  - intros Hne Hg. pose proof (sutf8_decode_nonneg _ _ _ _ Hbuf E Hne).
    destruct (sutf8_decode_canonical _ _ _ _ Hbuf E Hne) as ([rest Hr] & Hl & _ & Hv).
    rewrite (sutr1_form_ref cp Hg). apply sucs_is_valid_iff in Hv; [|done]. split; [done|]. split; [done|]. by exists rest.
  - intros x Hx Hg [rest Hr] Hl. rewrite (sutr1_form_ref x Hg) in *. rewrite Hr in E.
    rewrite (sutf8_decode_ref_encode x rest size) in E; [|lia|by apply sucs_is_valid_iff; lia|done].
    by injection E as <- <-.
Qed.

(** A three-byte form with a byte behind it, and a five-byte form. *)
Lemma sutf8_decode_sutr1_witness :
  sutf8_decode_char (Some [0xE4; 0xB8; 0xAD; 65]) 4 (Some 0) = Some (3, Some 0x4E2D) ∧
  sutf8_decode_char (Some [0xF8; 0x88; 0x80; 0x80; 0x81]) 5 (Some 0) = Some (5, Some 0x200001).
Proof.
  split.
  - destruct (sutf8_decode_sutr1 [0xE4; 0xB8; 0xAD; 65] 4 0) as (n & cp & E & _ & _ & _ & H);
      [repeat constructor; vm_compute; done|simpl; lia|].
    destruct (H 0x4E2D) as [-> ->]; [vm_compute; done|unfold sutr1_gap; lia|by exists [65]|simpl; lia|exact E].
  - destruct (sutf8_decode_sutr1 [0xF8; 0x88; 0x80; 0x80; 0x81] 5 0) as (n & cp & E & _ & _ & _ & H);
      [repeat constructor; vm_compute; done|simpl; lia|].
    destruct (H 0x200001) as [-> ->]; [vm_compute; done|unfold sutr1_gap; lia|by exists []|simpl; lia|exact E].
Defined.

(** ** Memory behaviour on NUL-terminated streams *)

Lemma sutf8_cont_terminated s n i cp :
  0 ≤ i ≤ Z.of_nat (length s) → is_Some (sutf8_cont (s ++ [0]) n i cp).
Proof.
  revert i cp. induction n as [|n IH]; intros i cp Hi; [by eexists|].
  cbn [sutf8_cont]. destruct (aget_is_Some (s ++ [0]) i) as [b Hb];
    [rewrite length_app; simpl; lia|].
  rewrite Hb. cbn [mbind option_bind]. case_if; [by eexists|].
  destruct (decide (i = Z.of_nat (length s))) as [->|].
  - rewrite aget_of_nat, lookup_app_r, Nat.sub_diag in Hb by lia.
    simplify_eq/=.
  - apply IH. lia.
Qed.

(** On a NUL-terminated stream the walk never touches a byte past the
    terminator, whatever [remaining] the caller claims, and it advances by at
    least one byte and by no more than [remaining]. *)
Lemma sutf8_next_terminated s remaining c0 :
  cstr_ok s → s ≠ [] → 0 < remaining →
  ∃ adv cp, sutf8_next_codepoint (Some (s ++ [0])) remaining (Some c0) =
              Some (adv, Some cp) ∧ 1 ≤ adv ≤ remaining.
Proof.
  intros Hok Hne Hrem. destruct s as [|b s]; [done|].
  assert (1 ≤ b < 256) as Hb by (by inversion Hok).
  unfold sutf8_next_codepoint. rewrite (proj2 (Z.eqb_neq remaining 0)) by lia.
  cbn [aget]. change (aget ((b :: s) ++ [0]) 0) with (Some b). cbn [mbind option_bind].
  rewrite (proj2 (Z.eqb_neq b 0)) by lia. unfold sutf8_decode_char.
  assert (is_Some (sutf8_decode ((b :: s) ++ [0]) remaining)) as [[n cp] Hd].
  { unfold sutf8_decode. rewrite (proj2 (Z.eqb_neq remaining 0)) by lia.
    change (aget ((b :: s) ++ [0]) 0) with (Some b). cbn [mbind option_bind].
    destruct (sutf8_lead b) as [[h len]|]; [|by eexists].
    case_match; [by eexists|].
    destruct (sutf8_cont_terminated (b :: s) (Z.to_nat (len - 1)) 1 h) as [r ->];
      [simpl; lia|]. cbn [mbind option_bind].
    destruct r; repeat case_match; by eexists. }
  rewrite Hd. cbn [mbind option_bind]. case_if.
  - eexists _, _. split; [done|lia].
  - apply sutf8_decode_inv in Hd as (b0 & h & _ & Hl & Hsz & _); [|done].
    apply sutf8_lead_len in Hl. eexists _, _. split; [done|lia].
Qed.

(** ** The encoder *)

Lemma store_bytes_spec bs : ∀ buf i,
  0 ≤ i → i + Z.of_nat (length bs) ≤ Z.of_nat (length buf) →
  store_bytes buf i bs =
    Some (take (Z.to_nat i) buf ++ bs ++ drop (Z.to_nat i + length bs) buf).
Proof.
  induction bs as [|b bs IH]; intros buf i Hi Hlen; cbn [store_bytes].
  { by rewrite Nat.add_0_r, app_nil_l, take_drop. }
  simpl in Hlen. rewrite aset_in by lia. cbn [mbind option_bind].
  rewrite IH by (rewrite ?length_insert; lia). f_equal.
  replace (Z.to_nat (i + 1)) with (S (Z.to_nat i)) by lia.
  rewrite (take_S_r _ _ b) by (apply list_lookup_insert_eq; lia).
  rewrite take_insert_ge by lia. rewrite drop_insert_lt by lia.
  rewrite <-app_assoc. simpl. do 4 f_equal. lia.
Qed.

Lemma sutf8_frame_length cp :
  sucs_is_valid cp = true →
  Z.of_nat (length (sutf8_frame cp (sutf8_codepoint_length cp))) =
    sutf8_codepoint_length cp.
Proof.
  intros Hv. unfold sutf8_codepoint_length. rewrite Hv. simpl.
  by repeat case_match.
Qed.

(** Safety of the encoder: with an output object at least [buf_size]
    bytes long no access is out of range; it either declines (length 0, buffer
    untouched) or writes exactly its first [len] bytes. *)
Theorem sutf8_encode_safe cp buf size :
  0 ≤ size ≤ Z.of_nat (length buf) →
  ∃ n buf', sutf8_encode_char cp (Some buf) size = Some (n, Some buf') ∧
    0 ≤ n ≤ 6 ∧ n ≤ size ∧ (n = 0 → buf' = buf) ∧
    length buf' = length buf ∧ drop (Z.to_nat n) buf' = drop (Z.to_nat n) buf.
Proof.
  intros Hs. unfold sutf8_encode_char. case_if.
  { exists 0, buf. split_and!; (done || lia). }
  case_if. { exists 0, buf. split_and!; (done || lia). }
  pose proof (sutf8_frame_length cp ltac:(done)) as Hlen.
  set (len := sutf8_codepoint_length cp) in *. set (f := sutf8_frame cp len) in *.
  rewrite store_bytes_spec by lia. simpl.
  assert (len ≤ 6) by (unfold len, sutf8_codepoint_length; repeat case_match; lia).
  eexists len, _. split_and!; [done|lia..|done|lia| |].
  - rewrite length_app, length_drop. lia.
  - rewrite drop_app_length' by lia. f_equal. lia.
Qed.

Lemma sutf8_encode_safe_witness :
  ∃ n buf', sutf8_encode_char 0x41 (Some [0; 0; 7]) 2 = Some (n, Some buf') ∧
    0 ≤ n ≤ 6 ∧ n ≤ 2 ∧ (n = 0 → buf' = [0; 0; 7]) ∧
    length buf' = 3%nat ∧ drop (Z.to_nat n) buf' = drop (Z.to_nat n) [0; 0; 7].
Proof. apply (sutf8_encode_safe 0x41 [0; 0; 7] 2). simpl. lia. Defined.

(** Round trip of the encoder on the ASCII range: the byte written is
    decoded back to the same code point. *)
Theorem sutf8_encode_ascii_roundtrip cp buf size :
  0 ≤ cp ≤ 0x7F → 1 ≤ size ≤ Z.of_nat (length buf) →
  ∃ buf', sutf8_encode_char cp (Some buf) size = Some (1, Some buf') ∧
          sutf8_decode buf' size = Some (1, cp).
Proof.
  intros Hcp Hs.
  assert (sucs_is_valid cp = true) as Hv
    by (apply sucs_is_valid_iff; unfold SUCS_TRAP_RANGE_MIN; lia).
  assert (sutf8_codepoint_length cp = 1) as Hlen.
  { unfold sutf8_codepoint_length. rewrite Hv. simpl. case_match; zbool; [done|lia]. }
  unfold sutf8_encode_char. rewrite Hv, Hlen. simpl. case_if; [lia|].
  unfold sutf8_frame. simpl. rewrite aset_in, u8_small by lia. simpl.
  eexists. split; [done|]. destruct buf as [|b buf]; [simpl in Hs; lia|]. simpl.
  assert (sutf8_ref_encode cp = [cp]) as Href
    by (unfold sutf8_ref_encode; case_match; zbool; [done|lia]).
  assert (cp :: buf = sutf8_ref_encode cp ++ buf) as -> by (by rewrite Href).
  rewrite sutf8_decode_ref_encode by (done || lia || (rewrite Href; simpl; lia)).
  by rewrite Href.
Qed.

Lemma sutf8_encode_ascii_roundtrip_witness :
  ∃ buf', sutf8_encode_char 0x4B (Some [0; 0; 0; 0; 0; 0]) 6 = Some (1, Some buf') ∧
          sutf8_decode buf' 6 = Some (1, 0x4B).
Proof.
  apply (sutf8_encode_ascii_roundtrip 0x4B [0; 0; 0; 0; 0; 0] 6); simpl; lia.
Defined.

(** The two-byte form is broken: the second byte is [groups[0]], which
    carries no continuation tag, so every code point of [0x80..0x7FF] is
    encoded to two bytes that the decoder rejects. *)
Theorem sutf8_encode_two_byte_rejected cp b0 b1 :
  0x80 ≤ cp ≤ 0x7FF →
  ∃ buf', sutf8_encode_char cp (Some [b0; b1]) 2 = Some (2, Some buf') ∧
          sutf8_decode buf' 2 = Some (0, SUCS_INVALID_CODEPOINT).
Proof.
  intros Hcp.
  assert (sucs_is_valid cp = true) as Hv
    by (apply sucs_is_valid_iff; unfold SUCS_TRAP_RANGE_MIN; lia).
  assert (sutf8_codepoint_length cp = 2) as Hlen.
  { unfold sutf8_codepoint_length. rewrite Hv. simpl.
    repeat case_match; zbool; (done || lia). }
  unfold sutf8_encode_char. rewrite Hv, Hlen.
  exists (sutf8_frame cp 2). split; [reflexivity|].
  apply (bool_decide_eq_true_1 _).
  set (chk h := all_below 64 (λ l, let c := h * 64 + l in
    ((c <? 0x80) || bool_decide (sutf8_decode (sutf8_frame c 2) 2 =
                                 Some (0, SUCS_INVALID_CODEPOINT)))%bool)).
  assert (chk (cp / 64) = true) as Hc.
  { apply (all_below_spec 32 chk); [by vm_compute|zdm]. }
  apply (all_below_spec _ _ (cp mod 64)) in Hc; [|zdm]. cbv beta zeta in Hc.
  replace (cp / 64 * 64 + cp mod 64) with cp in Hc by zdm.
  apply orb_true_iff in Hc as [Hc|Hc]; [zbool; lia|exact Hc].
Qed.

Lemma sutf8_encode_two_byte_rejected_witness :
  ∃ buf', sutf8_encode_char 0xE9 (Some [0; 0]) 2 = Some (2, Some buf') ∧
          sutf8_decode buf' 2 = Some (0, SUCS_INVALID_CODEPOINT).
Proof. apply (sutf8_encode_two_byte_rejected 0xE9 0 0). lia. Defined.

(** A three-byte code point whose middle group is lost by the encoder. *)
Example sutf8_encode_three_byte_wrong :
  sutf8_encode_char 0x4E2D (Some [0; 0; 0]) 3 = Some (3, Some [0xE4; 0x84; 0xAD]) ∧
  sutf8_decode [0xE4; 0x84; 0xAD] 3 = Some (3, 0x412D).
Proof. vm_compute. done. Qed.
