(* ===== verification/VipmNode.v ===== *)
(** Sparse trie nodes of the volume index ([Drivers/vipm/vipm.c], the static
    helpers on [vipm_node_t]).

    A node keeps a 16-bit bitmap of its live nibbles and the child indices of
    the live nibbles packed at the front of [children], in nibble order; the
    position of nibble [k] is the number of live nibbles below [k].  The file
    proves that this packed representation implements a partial map from
    nibbles to child indices: [child]. *)
From S2P Require Import Prelude.

Definition VIPM_CHILDREN : Z := 16.
Definition VIPM_NULL_INDEX : Z := 0xFFFF.
Definition VIPM_NULL_PAYLOAD : Z := 0xFFFFFFFF.

Record vipm_node_t := mk_node {
  child_bitmap : Z;      (* uint16_t *)
  children : list Z;     (* uint16_t[VIPM_CHILDREN] *)
  payload : Z            (* uint32_t *)
}.

(** [while (v != 0) { c += v & 1; v >>= 1; }]; 32 iterations empty any
    [unsigned]. *)
Fixpoint vp_popcount_loop (fuel : nat) (v c : Z) : Z :=
  match fuel with
  | O => c
  | S fuel => if v =? 0 then c
              else vp_popcount_loop fuel (Z.shiftr v 1) (u32 (c + Z.land v 1))
  end.

Definition vp_popcount16 (v : Z) : Z := vp_popcount_loop 32 v 0.

Definition vp_node_get (n : vipm_node_t) (nib : Z) : option Z :=
  let bit := u16 (Z.shiftl 1 nib) in
  if Z.land (child_bitmap n) bit =? 0 then Some VIPM_NULL_INDEX
  else aget (children n) (vp_popcount16 (Z.land (child_bitmap n) (u16 (bit - 1)))).

Definition vp_node_set (n : vipm_node_t) (nib idx : Z) : option vipm_node_t :=
  let bit := u16 (Z.shiftl 1 nib) in
  let pos := vp_popcount16 (Z.land (child_bitmap n) (u16 (bit - 1))) in
  if Z.land (child_bitmap n) bit =? 0 then
    let i := vp_popcount16 (child_bitmap n) in
    ch ← shift_right (Z.to_nat (i - pos)) (children n) i;
    ch ← aset ch pos idx;
    Some (mk_node (u16 (Z.lor (child_bitmap n) bit)) ch (payload n))
  else
    ch ← aset (children n) pos idx;
    Some (mk_node (child_bitmap n) ch (payload n)).

Definition vp_node_unset (n : vipm_node_t) (nib : Z) : option vipm_node_t :=
  let bit := u16 (Z.shiftl 1 nib) in
  if Z.land (child_bitmap n) bit =? 0 then Some n
  else
    let pos := vp_popcount16 (Z.land (child_bitmap n) (u16 (bit - 1))) in
    let end_ := vp_popcount16 (child_bitmap n) in
    ch ← shift_left (Z.to_nat (end_ - 1 - pos)) (children n) pos;
    ch ← aset ch (end_ - 1) VIPM_NULL_INDEX;
    Some (mk_node (u16 (Z.land (child_bitmap n) (u16 (Z.lnot bit)))) ch (payload n)).

(** ** Rank: the number of set bits below a position *)

Fixpoint rank (k : nat) (b : Z) : Z :=
  match k with
  | O => 0
  | S k => rank k b + Z.b2z (Z.testbit b (Z.of_nat k))
  end.

Lemma rank_bounds k b : 0 ≤ rank k b ≤ Z.of_nat k.
Proof. induction k; cbn [rank]; [lia|]. destruct (Z.testbit _ _); simpl; lia. Qed.

Lemma rank_mono j k b : (j ≤ k)%nat → rank j b ≤ rank k b.
Proof.
  induction 1; [lia|]. cbn [rank]. destruct (Z.testbit _ _); simpl; lia.
Qed.

Lemma rank_lt j k b :
  (j < k)%nat → Z.testbit b (Z.of_nat j) = true → rank j b < rank k b.
Proof.
  intros Hjk Hb. pose proof (rank_mono (S j) k b ltac:(lia)) as H.
  cbn [rank] in H. rewrite Hb in H. simpl in H. lia.
Qed.

Lemma rank_ext k b b' :
  (∀ i, 0 ≤ i < Z.of_nat k → Z.testbit b i = Z.testbit b' i) → rank k b = rank k b'.
Proof.
  intros H. induction k as [|k IH]; [done|]. cbn [rank].
  rewrite IH by (intros; apply H; lia). rewrite H by lia. done.
Qed.

Lemma rank_low k b : rank (S k) b = Z.b2z (Z.testbit b 0) + rank k (Z.shiftr b 1).
Proof.
  induction k as [|k IH]; [cbn [rank]; simpl; lia|].
  cbn [rank] in *. rewrite IH, Z.shiftr_spec by lia.
  replace (Z.of_nat k + 1) with (Z.of_nat (S k)) by lia. lia.
Qed.

Lemma vp_popcount_loop_rank fuel : ∀ v c,
  0 ≤ v → 0 ≤ c → c + Z.of_nat fuel < 2 ^ 32 →
  vp_popcount_loop fuel v c = c + rank fuel v.
Proof.
  induction fuel as [|fuel IH]; intros v c Hv Hc Hb; [cbn [vp_popcount_loop rank]; lia|].
  cbn [vp_popcount_loop]. rewrite rank_low. case_if.
  - subst. rewrite (rank_ext _ (Z.shiftr 0 1) 0), Z.bits_0 by done.
    assert (∀ k, rank k 0 = 0) as ->; [|simpl; lia].
    intros k. induction k; cbn [rank]; rewrite ?Z.bits_0; simpl; lia.
  - assert (Z.land v 1 = Z.b2z (Z.testbit v 0)) as ->.
    { rewrite Z.bit0_mod. by apply (Z.land_ones v 1). }
    assert (0 ≤ Z.b2z (Z.testbit v 0) ≤ 1) by (destruct (Z.testbit _ _); simpl; lia).
    rewrite u32_small, IH by (try apply Z.shiftr_nonneg; lia). lia.
Qed.

Lemma testbit_high b i : 0 ≤ b < 2 ^ 16 → 16 ≤ i → Z.testbit b i = false.
Proof.
  intros Hb Hi. rewrite <-(Z.mod_small b (2 ^ 16)) by done.
  apply Z.mod_pow2_bits_high. lia.
Qed.

Lemma rank_saturate k b : 0 ≤ b < 2 ^ 16 → (16 ≤ k)%nat → rank k b = rank 16 b.
Proof.
  intros Hb. induction 1 as [|k Hk IH]; [done|]. cbn [rank].
  rewrite IH, testbit_high by (done || lia). simpl. lia.
Qed.

Lemma vp_popcount16_rank b : 0 ≤ b < 2 ^ 16 → vp_popcount16 b = rank 16 b.
Proof.
  intros Hb. unfold vp_popcount16.
  rewrite vp_popcount_loop_rank by (simpl; lia). rewrite rank_saturate by (done || lia). lia.
Qed.

(** ** The bit of a nibble *)

Section nibble.
Context (nib : Z) (Hnib : 0 ≤ nib < 16).
Implicit Types b i : Z.

Lemma nib_bit : u16 (Z.shiftl 1 nib) = 2 ^ nib ∧ 0 < 2 ^ nib < 2 ^ 16.
Proof.
  rewrite Z.shiftl_1_l.
  assert (0 < 2 ^ nib < 2 ^ 16)
    by (split; [apply Z.pow_pos_nonneg|apply Z.pow_lt_mono_r]; lia).
  by rewrite u16_small by (simpl in *; lia).
Qed.

Lemma bit_spec i : 0 ≤ i → Z.testbit (2 ^ nib) i = bool_decide (i = nib).
Proof.
  intros. rewrite Z.pow2_bits_eqb by lia. case_bool_decide; subst.
  - apply Z.eqb_refl.
  - apply Z.eqb_neq. lia.
Qed.

Lemma land_bit_zero b : Z.land b (2 ^ nib) = 0 ↔ Z.testbit b nib = false.
Proof.
  split; intros H.
  - apply (f_equal (λ z, Z.testbit z nib)) in H.
    rewrite Z.land_spec, bit_spec, bool_decide_true, andb_true_r, Z.bits_0 in H
      by lia. done.
  - apply Z.bits_inj'. intros i Hi. rewrite Z.land_spec, bit_spec, Z.bits_0 by done.
    case_bool_decide; subst; [by rewrite H|apply andb_false_r].
Qed.

(** The position of the nibble in the packed array. *)
Lemma popcount_below b :
  0 ≤ b < 2 ^ 16 →
  vp_popcount16 (Z.land b (u16 (u16 (Z.shiftl 1 nib) - 1))) = rank (Z.to_nat nib) b.
Proof.
  intros Hb. destruct nib_bit as [-> ?]. rewrite u16_small by (simpl in *; lia).
  assert (2 ^ nib - 1 = Z.ones nib) as -> by (rewrite Z.ones_equiv; lia).
  rewrite Z.land_ones by lia.
  assert (0 ≤ b mod 2 ^ nib < 2 ^ nib) by (apply Z.mod_pos_bound; lia).
  rewrite vp_popcount16_rank by lia.
  transitivity (rank (Z.to_nat nib) (b mod 2 ^ nib)).
  - assert (∀ k, (Z.to_nat nib ≤ k)%nat →
      rank k (b mod 2 ^ nib) = rank (Z.to_nat nib) (b mod 2 ^ nib)) as ->; [|done|lia].
    induction 1 as [|k Hk IH]; [done|]. cbn [rank].
    rewrite IH, Z.mod_pow2_bits_high by lia. simpl. lia.
  - apply rank_ext. intros i Hi. apply Z.mod_pow2_bits_low. lia.
Qed.

Lemma lor_bit_range b : 0 ≤ b < 2 ^ 16 → 0 ≤ Z.lor b (2 ^ nib) < 2 ^ 16.
Proof.
  intros Hb. destruct nib_bit as [_ ?]. split; [apply Z.lor_nonneg; lia|].
  assert (Z.lor b (2 ^ nib) = Z.lor b (2 ^ nib) mod 2 ^ 16) as ->;
    [|apply Z.mod_pos_bound; lia].
  apply Z.bits_inj'. intros i Hi. destruct (decide (i < 16)).
  - by rewrite Z.mod_pow2_bits_low by lia.
  - rewrite Z.mod_pow2_bits_high, Z.lor_spec, !testbit_high by lia. done.
Qed.

Lemma land_lnot_bit b :
  0 ≤ b < 2 ^ 16 → u16 (Z.land b (u16 (Z.lnot (2 ^ nib)))) = Z.ldiff b (2 ^ nib).
Proof.
  intros Hb. apply Z.bits_inj'. intros i Hi. unfold u16, wrap.
  destruct (decide (i < 16)).
  - rewrite Z.mod_pow2_bits_low, Z.land_spec, Z.mod_pow2_bits_low,
      Z.lnot_spec, Z.ldiff_spec by lia. done.
  - rewrite Z.mod_pow2_bits_high, Z.ldiff_spec, testbit_high by lia. done.
Qed.

Lemma ldiff_bit_range b : 0 ≤ b < 2 ^ 16 → 0 ≤ Z.ldiff b (2 ^ nib) < 2 ^ 16.
Proof. intros Hb. rewrite <-land_lnot_bit by done. apply u16_range. Qed.

Lemma rank_lor k b :
  Z.testbit b nib = false →
  rank k (Z.lor b (2 ^ nib)) = rank k b + Z.b2z (bool_decide (nib < Z.of_nat k)).
Proof.
  intros Hb. induction k as [|k IH]; cbn [rank].
  { rewrite bool_decide_false by lia. done. }
  rewrite IH, Z.lor_spec, bit_spec by lia.
  repeat case_bool_decide; subst; rewrite ?orb_true_r, ?orb_false_r, ?Hb; simpl; lia.
Qed.

Lemma rank_ldiff k b :
  Z.testbit b nib = true →
  rank k (Z.ldiff b (2 ^ nib)) = rank k b - Z.b2z (bool_decide (nib < Z.of_nat k)).
Proof.
  intros Hb. induction k as [|k IH]; cbn [rank].
  { rewrite bool_decide_false by lia. done. }
  rewrite IH, Z.ldiff_spec, bit_spec by lia.
  repeat case_bool_decide; subst; simpl; rewrite ?andb_true_r, ?andb_false_r, ?Hb;
    simpl; lia.
Qed.
End nibble.

(** ** The node as a map from nibbles to child indices *)

Definition child (n : vipm_node_t) (nib : Z) : option Z :=
  if Z.testbit (child_bitmap n) nib
  then aget (children n) (rank (Z.to_nat nib) (child_bitmap n)) else None.

Record node_wf (n : vipm_node_t) : Prop := {
  node_wf_bitmap : 0 ≤ child_bitmap n < 2 ^ 16;
  node_wf_children : length (children n) = 16%nat
}.

Lemma child_is_Some n nib :
  node_wf n → 0 ≤ nib < 16 →
  is_Some (child n nib) ↔ Z.testbit (child_bitmap n) nib = true.
Proof.
  intros [Hb Hc] Hnib. unfold child. destruct (Z.testbit _ _).
  - split; [done|]. intros _. apply aget_is_Some. rewrite Hc.
    pose proof (rank_bounds (Z.to_nat nib) (child_bitmap n)). lia.
  - split; [by intros [? ?]|done].
Qed.

Lemma bitmap_zero n :
  node_wf n → child_bitmap n = 0 ↔ ∀ nib, 0 ≤ nib < 16 → child n nib = None.
Proof.
  intros Hwf. pose proof Hwf as [Hb _]. split.
  - intros H0 nib _. unfold child. by rewrite H0, Z.bits_0.
  - intros Hall. apply Z.bits_inj'. intros i Hi. rewrite Z.bits_0.
    destruct (decide (i < 16)); [|apply testbit_high; (done || lia)].
    destruct (Z.testbit _ _) eqn:E; [|done].
    apply child_is_Some in E as [c Hc]; [|done|lia]. rewrite Hall in Hc by lia. done.
Qed.

Lemma vp_node_get_spec n nib :
  node_wf n → 0 ≤ nib < 16 →
  vp_node_get n nib = Some (default VIPM_NULL_INDEX (child n nib)).
Proof.
  intros Hwf Hnib. pose proof Hwf as [Hb Hc]. unfold vp_node_get.
  rewrite popcount_below by done. destruct (nib_bit nib Hnib) as [-> _].
  destruct (Z.testbit (child_bitmap n) nib) eqn:E.
  - rewrite (proj2 (Z.eqb_neq _ _)).
    + pose proof (proj2 (child_is_Some n nib Hwf Hnib) E) as [c Hch].
      rewrite Hch. simpl. unfold child in Hch. by rewrite E in Hch.
    + intros H%land_bit_zero; [congruence|done].
  - rewrite (proj2 (Z.eqb_eq _ _)) by (by apply land_bit_zero).
    unfold child. by rewrite E.
Qed.

(** Live nibbles occupy distinct positions, in nibble order. *)
Lemma rank_order b j k :
  0 ≤ j < k → Z.testbit b j = true → rank (Z.to_nat j) b < rank (Z.to_nat k) b.
Proof. intros Hjk Hj. apply rank_lt; [lia|]. by rewrite Z2Nat.id by lia. Qed.

Lemma rank_distinct b j k :
  0 ≤ j → 0 ≤ k → Z.testbit b j = true → Z.testbit b k = true → j ≠ k →
  rank (Z.to_nat j) b ≠ rank (Z.to_nat k) b.
Proof.
  intros Hj Hk Bj Bk Hne. destruct (decide (j < k)).
  - pose proof (rank_order b j k ltac:(lia) Bj). lia.
  - pose proof (rank_order b k j ltac:(lia) Bk). lia.
Qed.

(** The bounds every packed-array proof needs. *)
Lemma rank_facts b nib :
  0 ≤ nib < 16 →
  0 ≤ rank (Z.to_nat nib) b ≤ rank 16 b ∧ rank 16 b ≤ 16 ∧
  rank (Z.to_nat nib) b < 16 ∧
  (Z.testbit b nib = false → rank 16 b < 16) ∧
  (Z.testbit b nib = true → rank (Z.to_nat nib) b < rank 16 b).
Proof.
  intros Hnib. pose proof (rank_bounds (Z.to_nat nib) b).
  pose proof (rank_bounds 16 b).
  pose proof (rank_mono (Z.to_nat nib) 16 b ltac:(lia)).
  split_and!; [lia..| |].
  - intros Hb. pose proof (rank_lor nib Hnib 16 b Hb) as Hlor.
    rewrite bool_decide_true in Hlor by lia. cbn [Z.b2z] in Hlor.
    pose proof (rank_bounds 16 (Z.lor b (2 ^ nib))). lia.
  - intros Hb. apply (rank_order b nib 16); [lia|done].
Qed.

(** Inserting at the position of a dead nibble. *)
Lemma packed_insert b (ch : list Z) nib idx :
  0 ≤ b < 2 ^ 16 → length ch = 16%nat → 0 ≤ nib < 16 → Z.testbit b nib = false →
  ∃ ch1 ch2, shift_right (Z.to_nat (rank 16 b - rank (Z.to_nat nib) b)) ch (rank 16 b)
               = Some ch1 ∧
    aset ch1 (rank (Z.to_nat nib) b) idx = Some ch2 ∧ length ch2 = 16%nat ∧
    ∀ k, 0 ≤ k < 16 → Z.testbit (Z.lor b (2 ^ nib)) k = true →
      aget ch2 (rank (Z.to_nat k) (Z.lor b (2 ^ nib))) =
        if decide (k = nib) then Some idx else aget ch (rank (Z.to_nat k) b).
Proof.
  intros Hb Hc Hnib Hbit. destruct (rank_facts b nib Hnib) as (? & ? & ? & Hlt & _).
  specialize (Hlt Hbit).
  destruct (shift_right_spec (Z.to_nat (rank 16 b - rank (Z.to_nat nib) b)) ch (rank 16 b))
    as (ch1 & -> & Hl1 & Hch1); [lia|lia|].
  assert (∃ ch2, aset ch1 (rank (Z.to_nat nib) b) idx = Some ch2) as [ch2 Hch2]
    by (eexists; apply aset_in; lia).
  exists ch1, ch2. split_and!; [done..|by rewrite (aset_length _ _ _ _ Hch2); lia|].
  intros k Hk. rewrite Z.lor_spec, bit_spec, rank_lor by (done || lia).
  rewrite (aget_aset _ _ _ _ _ Hch2), Hch1.
  destruct (decide (k = nib)) as [->|Hne]; intros Bk.
  { rewrite bool_decide_false by lia. cbn [Z.b2z]. by rewrite Z.add_0_r, decide_True. }
  rewrite bool_decide_false, orb_false_r in Bk by done.
  destruct (rank_facts b k Hk) as (? & ? & ? & _ & Hkl). specialize (Hkl Bk).
  case_bool_decide; cbn [Z.b2z].
  - pose proof (rank_mono (Z.to_nat nib) (Z.to_nat k) b ltac:(lia)).
    rewrite decide_False, decide_True by lia. f_equal. lia.
  - pose proof (rank_order b k nib ltac:(lia) Bk).
    rewrite decide_False, decide_False by lia. f_equal. lia.
Qed.

(** Closing the gap left by a live nibble. *)
Lemma packed_remove b (ch : list Z) nib x :
  0 ≤ b < 2 ^ 16 → length ch = 16%nat → 0 ≤ nib < 16 → Z.testbit b nib = true →
  ∃ ch1 ch2, shift_left (Z.to_nat (rank 16 b - 1 - rank (Z.to_nat nib) b)) ch
               (rank (Z.to_nat nib) b) = Some ch1 ∧
    aset ch1 (rank 16 b - 1) x = Some ch2 ∧ length ch2 = 16%nat ∧
    ∀ k, 0 ≤ k < 16 → Z.testbit (Z.ldiff b (2 ^ nib)) k = true →
      aget ch2 (rank (Z.to_nat k) (Z.ldiff b (2 ^ nib))) = aget ch (rank (Z.to_nat k) b).
Proof.
  intros Hb Hc Hnib Hbit. destruct (rank_facts b nib Hnib) as (? & ? & ? & _ & Hlt).
  specialize (Hlt Hbit).
  destruct (shift_left_spec (Z.to_nat (rank 16 b - 1 - rank (Z.to_nat nib) b)) ch
    (rank (Z.to_nat nib) b)) as (ch1 & -> & Hl1 & Hch1); [lia|lia|].
  assert (∃ ch2, aset ch1 (rank 16 b - 1) x = Some ch2) as [ch2 Hch2]
    by (eexists; apply aset_in; lia).
  exists ch1, ch2. split_and!; [done..|by rewrite (aset_length _ _ _ _ Hch2); lia|].
  intros k Hk. rewrite Z.ldiff_spec, bit_spec, rank_ldiff by (done || lia).
  rewrite (aget_aset _ _ _ _ _ Hch2), Hch1. intros [Bk Hne]%andb_true_iff.
  apply negb_true_iff, bool_decide_eq_false in Hne.
  destruct (rank_facts b k Hk) as (? & ? & ? & _ & Hkl). specialize (Hkl Bk).
  case_bool_decide; cbn [Z.b2z].
  - pose proof (rank_order b nib k ltac:(lia) Hbit).
    rewrite decide_False, decide_True by lia. f_equal. lia.
  - pose proof (rank_order b k nib ltac:(lia) Bk).
    rewrite decide_False, decide_False by lia. f_equal. lia.
Qed.

(** Setting a nibble of a sparse node: the packed array is shifted without
    leaving its 16 slots, the nibble maps to the new index and every other
    nibble keeps its child. *)
Lemma vp_node_set_spec n nib idx :
  node_wf n → 0 ≤ nib < 16 →
  ∃ n', vp_node_set n nib idx = Some n' ∧ node_wf n' ∧ payload n' = payload n ∧
    ∀ k, 0 ≤ k < 16 → child n' k = if decide (k = nib) then Some idx else child n k.
Proof.
  intros Hwf Hnib. pose proof Hwf as [Hb Hc]. unfold vp_node_set.
  rewrite popcount_below, vp_popcount16_rank by done.
  destruct (nib_bit nib Hnib) as [-> Hbit]. case_if.
  - apply land_bit_zero in Heqb; [|done].
    destruct (packed_insert (child_bitmap n) (children n) nib idx)
      as (ch1 & ch2 & -> & Hset & Hl & Hch); [done..|]. rewrite obind_Some.
    rewrite Hset. rewrite obind_Some.
    pose proof (lor_bit_range nib Hnib _ Hb) as Hr.
    rewrite u16_small by (simpl in *; lia).
    eexists. split; [done|]. split_and!; [by constructor|done|].
    intros k Hk. specialize (Hch k Hk). unfold child; cbn [child_bitmap children].
    rewrite Z.lor_spec, bit_spec in Hch |- * by lia.
    destruct (decide (k = nib)) as [->|Hne].
    + rewrite bool_decide_true, orb_true_r in * by done. by apply Hch.
    + rewrite bool_decide_false, orb_false_r in * by done.
      destruct (Z.testbit _ k); [by apply Hch|done].
  - assert (Z.testbit (child_bitmap n) nib = true) as Et.
    { destruct (Z.testbit _ nib) eqn:E; [done|]. apply land_bit_zero in E; done. }
    destruct (rank_facts (child_bitmap n) nib Hnib) as (? & ? & ? & _).
    rewrite aset_in by lia. rewrite obind_Some.
    eexists. split; [done|]. split_and!; [by constructor; simpl; rewrite ?length_insert|done|].
    intros k Hk. unfold child; cbn [child_bitmap children].
    destruct (decide (k = nib)) as [->|Hne].
    + rewrite Et, aget_insert, decide_True by (done || lia). done.
    + destruct (Z.testbit _ k) eqn:Ek; [|done].
      rewrite aget_insert, decide_False; [done| |lia]. apply rank_distinct; (done || lia).
Qed.

(** Unsetting a nibble: the gap is closed, the vacated slot is reset to the
    null index, the nibble has no child any more and the others keep theirs. *)
Lemma vp_node_unset_spec n nib :
  node_wf n → 0 ≤ nib < 16 →
  ∃ n', vp_node_unset n nib = Some n' ∧ node_wf n' ∧ payload n' = payload n ∧
    ∀ k, 0 ≤ k < 16 → child n' k = if decide (k = nib) then None else child n k.
Proof.
  intros Hwf Hnib. pose proof Hwf as [Hb Hc]. unfold vp_node_unset.
  rewrite popcount_below, vp_popcount16_rank by done.
  destruct (nib_bit nib Hnib) as [-> Hbit]. case_if.
  - apply land_bit_zero in Heqb; [|done]. exists n. split_and!; try done.
    intros k Hk. case_decide; [|done]. subst. unfold child. by rewrite Heqb.
  - assert (Z.testbit (child_bitmap n) nib = true) as Et.
    { destruct (Z.testbit _ nib) eqn:E; [done|]. apply land_bit_zero in E; done. }
    rewrite (land_lnot_bit nib (child_bitmap n) Hb).
    destruct (packed_remove (child_bitmap n) (children n) nib VIPM_NULL_INDEX)
      as (ch1 & ch2 & -> & Hset & Hl & Hch); [done..|]. rewrite obind_Some.
    rewrite Hset. rewrite obind_Some.
    pose proof (ldiff_bit_range nib _ Hb).
    eexists. split; [done|]. split_and!; [by constructor|done|].
    intros k Hk. specialize (Hch k Hk). unfold child; cbn [child_bitmap children].
    rewrite Z.ldiff_spec, bit_spec in Hch |- * by lia.
    destruct (decide (k = nib)) as [->|Hne].
    + rewrite bool_decide_true by done. cbn [negb]. by rewrite andb_false_r.
    + rewrite bool_decide_false in Hch |- * by done. cbn [negb] in Hch |- *.
      rewrite andb_true_r in Hch |- *.
      destruct (Z.testbit _ k); [by apply Hch|done].
Qed.

(** The packed sparse node is a map from nibbles to child indices: after
    [vp_node_set] the nibble reads back the index and after [vp_node_unset] it
    reads the null index; all other nibbles read as before; no access leaves
    the 16-slot array and well-formedness is preserved. *)
Theorem vp_node_refines_map n nib idx :
  node_wf n → 0 ≤ nib < 16 →
  ∃ n1 n2, vp_node_set n nib idx = Some n1 ∧ node_wf n1 ∧
    vp_node_unset n nib = Some n2 ∧ node_wf n2 ∧
    vp_node_get n1 nib = Some idx ∧ vp_node_get n2 nib = Some VIPM_NULL_INDEX ∧
    ∀ k, 0 ≤ k < 16 → k ≠ nib →
      vp_node_get n1 k = vp_node_get n k ∧ vp_node_get n2 k = vp_node_get n k.
Proof.
  intros Hwf Hnib.
  destruct (vp_node_set_spec n nib idx Hwf Hnib) as (n1 & E1 & W1 & _ & H1).
  destruct (vp_node_unset_spec n nib Hwf Hnib) as (n2 & E2 & W2 & _ & H2).
  exists n1, n2. split_and!; [done..| | |].
  - rewrite vp_node_get_spec, H1, decide_True by done. done.
  - rewrite vp_node_get_spec, H2, decide_True by done. done.
  - intros k Hk Hne. rewrite (vp_node_get_spec n1), (vp_node_get_spec n2),
      (vp_node_get_spec n), H1, H2, !decide_False by done. done.
Qed.

Lemma vp_node_refines_map_witness :
  let n := mk_node 0x21 ([7; 9] ++ replicate 14 0xFFFF) 0xFFFFFFFF in
  ∃ n1 n2, vp_node_set n 3 8 = Some n1 ∧ node_wf n1 ∧
    vp_node_unset n 3 = Some n2 ∧ node_wf n2 ∧
    vp_node_get n1 3 = Some 8 ∧ vp_node_get n2 3 = Some VIPM_NULL_INDEX ∧
    ∀ k, 0 ≤ k < 16 → k ≠ 3 →
      vp_node_get n1 k = vp_node_get n k ∧ vp_node_get n2 k = vp_node_get n k.
Proof.
  intros n. apply (vp_node_refines_map n 3 8); [constructor; simpl; (done || lia)|lia].
Defined.
