(* ===== verification/Vipm.v ===== *)
(** The volume index manager, [Drivers/vipm/vipm.h] and [vipm.c]: the 44-bit
    hex trie over a fixed node pool, the volume registry, the FVIP path table
    and the integrity walk, one definition per C function.

    A [const char *] argument is the array object it points into, from the
    pointer on, terminator included; running off its end is undefined.  A
    function returns the updated manager, the updated out-parameters and the
    status. *)
From S2P Require Import Prelude Sutf8 VipmNode.

(** ** Constants and status codes ([vipm.h]) *)
Definition VIPM_KEY_BITS : Z := 44.
Definition VIPM_NIBBLES : Z := 11.
Definition VIPM_MAX_NODES : Z := 256.
Definition VIPM_MAX_VOLUMES : Z := 8.
Definition VIPM_FVIP_MAX_ENTRIES : Z := 64.
Definition VIPM_LABEL_MAX : Z := 48.
Definition VIPM_PATH_MAX : Z := 96.

Definition VIPM_OK : Z := 0.
Definition VIPM_BAN_TABLE_CORRUPT : Z := 0x0011A380.
Definition VIPM_BAN_NODE_CORRUPT : Z := 0x0011A381.
Definition VIPM_BAN_POOL_EXHAUSTED : Z := 0x0011A383.
Definition VIPM_BAN_ENTRY_CORRUPT : Z := 0x0011A384.
Definition VIPM_BAN_VOLUME_CORRUPT : Z := 0x0011A385.
Definition VIPM_BAN_HASH_MISMATCH : Z := 0x0011A386.
Definition VIPM_ERR_INDEX_STALE : Z := 0x0011AA81.
Definition VIPM_ERR_DUPLICATE_MAPPING : Z := 0x0011AA82.
Definition VIPM_ERR_NOT_INIT : Z := 0x0011AEC0.
Definition VIPM_ERR_NULL_POINTER : Z := 0x0011AEC1.
Definition VIPM_ERR_NOT_FOUND : Z := 0x0011AEC2.
Definition VIPM_ERR_ALREADY_EXISTS : Z := 0x0011AEC3.
Definition VIPM_ERR_TABLE_FULL : Z := 0x0011AEC4.
Definition VIPM_ERR_VOLUME_LIMIT : Z := 0x0011AEC5.
Definition VIPM_ERR_INVALID_SUTF8 : Z := 0x0011AEC6.
Definition VIPM_ERR_LABEL_TOO_LONG : Z := 0x0011AEC7.
Definition VIPM_ERR_PATH_TOO_LONG : Z := 0x0011AEC8.
Definition VIPM_ERR_INVALID_KEY : Z := 0x0011AEC9.

Definition VIPM_ENTRY_FILE : Z := 0x01.
Definition VIPM_ENTRY_CATALOG : Z := 0x02.
Definition VIPM_ENTRY_DELETED : Z := 0x80.
Definition VIPM_FLAG_FILE : Z := 0x0001.
Definition VIPM_FLAG_CATALOG : Z := 0x0002.
Definition VIPM_FLAG_HIDDEN : Z := 0x0004.
Definition VIPM_FLAG_READONLY : Z := 0x0008.
Definition VIPM_FLAG_ENCRYPTED : Z := 0x0010.
Definition VIPM_FLAG_SYSTEM : Z := 0x0020.
Definition VIPM_FLAG_DELETED : Z := 0x8000.

(** ** Data *)
Record vipm_fvip_entry_t := mk_entry {
  e_path : list Z;              (* char[VIPM_PATH_MAX] *)
  e_byte_offset : Z;            (* uint64_t *)
  e_flags : Z;                  (* uint32_t *)
  e_codepoint_meta : Z;         (* uint32_t *)
  e_path_hash : Z;              (* uint64_t *)
  e_volume_id : Z;              (* uint8_t *)
  e_occupied : bool
}.
#[export] Instance eta_entry : Eta vipm_fvip_entry_t := λ e,
  mk_entry (e_path e) (e_byte_offset e) (e_flags e) (e_codepoint_meta e)
    (e_path_hash e) (e_volume_id e) (e_occupied e).

Record vipm_volume_t := mk_volume {
  v_volume_id : Z;              (* uint8_t *)
  v_base_sector : Z;            (* uint64_t *)
  v_label : list Z;             (* char[VIPM_LABEL_MAX] *)
  v_label_codepoints : Z;       (* uint32_t *)
  v_registered : bool
}.
#[export] Instance eta_volume : Eta vipm_volume_t := λ v,
  mk_volume (v_volume_id v) (v_base_sector v) (v_label v) (v_label_codepoints v)
    (v_registered v).

Record vipm_manager_t := mk_manager {
  m_nodes : list vipm_node_t;   (* [VIPM_MAX_NODES] *)
  m_free_stack : list Z;        (* uint16_t[VIPM_MAX_NODES] *)
  m_free_top : Z;               (* uint16_t *)
  m_root : Z;                   (* uint16_t *)
  m_node_count : Z;             (* uint16_t *)
  m_volumes : list vipm_volume_t;
  m_volume_count : Z;           (* uint8_t *)
  m_entries : list vipm_fvip_entry_t;
  m_entry_count : Z;            (* uint16_t *)
  m_initialized : bool;
  m_trie_lookups : Z;           (* uint64_t telemetry *)
  m_trie_inserts : Z;
  m_trie_removes : Z;
  m_trie_max_depth : Z;
  m_fvip_hits : Z;
  m_fvip_misses : Z
}.
#[export] Instance eta_manager : Eta vipm_manager_t := λ m,
  mk_manager (m_nodes m) (m_free_stack m) (m_free_top m) (m_root m) (m_node_count m)
    (m_volumes m) (m_volume_count m) (m_entries m) (m_entry_count m)
    (m_initialized m) (m_trie_lookups m) (m_trie_inserts m) (m_trie_removes m)
    (m_trie_max_depth m) (m_fvip_hits m) (m_fvip_misses m).

(** ** Internal helpers *)
Definition vp_node_alloc (mgr : vipm_manager_t) : option (vipm_manager_t * Z) :=
  if m_free_top mgr =? 0 then Some (mgr, VIPM_NULL_INDEX)
  else
    let top := u16 (m_free_top mgr - 1) in
    idx ← aget (m_free_stack mgr) top;
    Some (mgr <| m_free_top := top |>, idx).

Definition vp_node_free (mgr : vipm_manager_t) (idx : Z) : option vipm_manager_t :=
  fs ← aset (m_free_stack mgr) (m_free_top mgr) idx;
  Some (mgr <| m_free_stack := fs |> <| m_free_top := u16 (m_free_top mgr + 1) |>).

Definition vp_nibble (key depth : Z) : Z :=
  let shift := u32 ((VIPM_NIBBLES - 1 - depth) * 4) in
  Z.land (Z.shiftr key shift) 0xF.

Fixpoint vp_fnv1a64_loop (s : list Z) (h : Z) : option Z :=
  match s with
  | [] => UB
  | c :: s => if c =? 0 then Some h
              else vp_fnv1a64_loop s (u64 (Z.lxor h (u8 c) * 0x100000001b3))
  end.
Definition vp_fnv1a64 (s : list Z) : option Z := vp_fnv1a64_loop s 0xcbf29ce484222325.

Fixpoint vp_path_equal (a b : list Z) : option bool :=
  match a, b with
  | x :: a, y :: b => if negb (x =? y) then Some false
                      else if x =? 0 then Some true
                      else vp_path_equal a b
  | _, _ => UB
  end.

(** [while (path[blen] != 0) blen++] *)
Fixpoint vp_strlen (s : list Z) : option Z :=
  match s with
  | [] => UB
  | c :: s => if c =? 0 then Some 0 else n ← vp_strlen s; Some (n + 1)
  end.

(** The code point scan of [vp_validate_path]; every iteration advances, so
    [blen] iterations suffice ([vp_validate_path_spec]). *)
Fixpoint vp_validate_loop (fuel : nat) (path : list Z) (blen pos cpcount : Z)
    : option (Z + Z) :=
  match fuel with
  | O => UB
  | S fuel =>
      if pos <? blen then
        '(adv, cp) ← sutf8_next_codepoint (Some (drop (Z.to_nat pos) path))
                       (blen - pos) (Some 0);
        if adv =? 0 then Some (inr cpcount)
        else if default 0 cp =? SUCS_INVALID_CODEPOINT then
          Some (inl VIPM_ERR_INVALID_SUTF8)
        else vp_validate_loop fuel path blen (pos + adv) (u32 (cpcount + 1))
      else Some (inr cpcount)
  end.

(** [inl status] on error, [inr (length, code points)] on [VIPM_OK]. *)
Definition vp_validate_path (path : list Z) : option (Z + Z * Z) :=
  blen ← vp_strlen path;
  if VIPM_PATH_MAX <=? blen then Some (inl VIPM_ERR_PATH_TOO_LONG)
  else
    r ← vp_validate_loop (S (Z.to_nat blen)) path blen 0 0;
    Some (match r with inl st => inl st | inr cps => inr (blen, cps) end).

(** ** Key geometry *)
Definition vipm_key_make (volume_id byte_offset : Z) : Z :=
  let top := Z.shiftl (Z.land volume_id 0x0F) 40 in
  Z.lor top (Z.land byte_offset 0xFFFFFFFFFF).

Definition vipm_key_valid (key : Z) : bool := Z.shiftr key VIPM_KEY_BITS =? 0.

(** ** Trie walks

    [for (d = d0; d < VIPM_NIBBLES; d++)] with [fuel = VIPM_NIBBLES - d0].
    [Some None]: a child on the path is missing. *)
Fixpoint vp_walk (fuel : nat) (mgr : vipm_manager_t) (key d cur : Z)
    : option (option Z) :=
  match fuel with
  | O => Some (Some cur)
  | S fuel =>
      n ← aget (m_nodes mgr) cur;
      nxt ← vp_node_get n (vp_nibble key d);
      if nxt =? VIPM_NULL_INDEX then Some None
      else vp_walk fuel mgr key (d + 1) nxt
  end.

(** [inl status] on error, [inr entry_index] on [VIPM_OK]. *)
Definition vp_trie_find (mgr : vipm_manager_t) (key : Z) : option (Z + Z) :=
  if negb (vipm_key_valid key) then Some (inl VIPM_ERR_INVALID_KEY)
  else
    r ← vp_walk (Z.to_nat VIPM_NIBBLES) mgr key 0 (m_root mgr);
    match r with
    | None => Some (inl VIPM_ERR_NOT_FOUND)
    | Some cur =>
        n ← aget (m_nodes mgr) cur;
        if payload n =? VIPM_NULL_PAYLOAD then Some (inl VIPM_ERR_NOT_FOUND)
        else Some (inr (payload n))
    end.

(** ** Manager lifecycle *)
Definition empty_node : vipm_node_t :=
  mk_node 0 (replicate (Z.to_nat VIPM_CHILDREN) VIPM_NULL_INDEX) VIPM_NULL_PAYLOAD.

Definition vipm_init_manager (mgr : ptr vipm_manager_t)
    : option (ptr vipm_manager_t * Z) :=
  match mgr with
  | None => Some (None, VIPM_ERR_NULL_POINTER)
  | Some m =>
      let m := m <| m_nodes := replicate (Z.to_nat VIPM_MAX_NODES) empty_node |>
                 <| m_free_stack := seqZ 0 VIPM_MAX_NODES |>
                 <| m_free_top := u16 VIPM_MAX_NODES |>
                 <| m_node_count := 0 |>
                 <| m_volume_count := 0 |>
                 <| m_entry_count := 0 |>
                 <| m_volumes := (λ v, v <| v_registered := false |>) <$> m_volumes m |>
                 <| m_entries := (λ e, e <| e_occupied := false |>) <$> m_entries m |>
                 <| m_trie_lookups := 0 |>
                 <| m_trie_inserts := 0 |>
                 <| m_trie_removes := 0 |>
                 <| m_trie_max_depth := 0 |>
                 <| m_fvip_hits := 0 |>
                 <| m_fvip_misses := 0 |> in
      '(m, r) ← vp_node_alloc m;
      let m := m <| m_root := r |> in
      if r =? VIPM_NULL_INDEX then Some (Some m, VIPM_BAN_POOL_EXHAUSTED)
      else Some (Some (m <| m_node_count := 1 |> <| m_initialized := true |>), VIPM_OK)
  end.

(** ** Volume registry *)

(** The slot scan of [vipm_volume_register]: [inl] when the id is already
    registered, [inr slot] otherwise ([None]: no free slot). *)
Fixpoint vp_volume_slot (vols : list vipm_volume_t) (i volume_id : Z)
    (slot : option Z) : Z + option Z :=
  match vols with
  | [] => inr slot
  | v :: vols =>
      if v_registered v then
        if v_volume_id v =? volume_id then inl VIPM_BAN_VOLUME_CORRUPT
        else vp_volume_slot vols (i + 1) volume_id slot
      else
        vp_volume_slot vols (i + 1) volume_id
          (match slot with None => Some i | Some s => Some s end)
  end.

Definition vipm_volume_register (mgr : ptr vipm_manager_t) (volume_id base_sector : Z)
    (label : ptr (list Z)) : option (ptr vipm_manager_t * Z) :=
  match mgr, label with
  | Some m, Some label =>
      if negb (m_initialized m) then Some (mgr, VIPM_ERR_NOT_INIT)
      else if VIPM_MAX_VOLUMES <=? volume_id then Some (mgr, VIPM_ERR_INVALID_KEY)
      else
        r ← vp_validate_path label;
        match r with
        | inl _ => Some (mgr, VIPM_ERR_LABEL_TOO_LONG)
        | inr (blen, cpcount) =>
            match vp_volume_slot (m_volumes m) 0 volume_id None with
            | inl st => Some (mgr, st)
            | inr None => Some (mgr, VIPM_ERR_VOLUME_LIMIT)
            | inr (Some slot) =>
                v ← aget (m_volumes m) slot;
                lbl ← copy_bytes blen label (v_label v);
                lbl ← aset lbl blen 0;
                let v := v <| v_label := lbl |> <| v_label_codepoints := cpcount |>
                           <| v_volume_id := volume_id |>
                           <| v_base_sector := base_sector |>
                           <| v_registered := true |> in
                vs ← aset (m_volumes m) slot v;
                Some (Some (m <| m_volumes := vs |>
                              <| m_volume_count := u8 (m_volume_count m + 1) |>), VIPM_OK)
            end
        end
  | _, _ => Some (mgr, VIPM_ERR_NULL_POINTER)
  end.

(** The registered entry of a volume id, by the linear scan. *)
Definition vp_volume_find (m : vipm_manager_t) (volume_id : Z) : option (option Z) :=
  find_up (Z.to_nat VIPM_MAX_VOLUMES) 0 (m_volumes m)
    (λ v, v_registered v && (v_volume_id v =? volume_id)).

Definition vipm_volume_resolve (mgr : ptr vipm_manager_t) (volume_id : Z)
    (out_base_sector : ptr Z) : option (ptr Z * Z) :=
  match mgr, out_base_sector with
  | Some m, Some _ =>
      if negb (m_initialized m) then Some (out_base_sector, VIPM_ERR_NOT_INIT)
      else
        r ← vp_volume_find m volume_id;
        match r with
        | None => Some (out_base_sector, VIPM_ERR_NOT_FOUND)
        | Some i => v ← aget (m_volumes m) i; Some (Some (v_base_sector v), VIPM_OK)
        end
  | _, _ => Some (out_base_sector, VIPM_ERR_NULL_POINTER)
  end.

(** ** Trie mapping *)

(** First loop of [vipm_mapping_put]: the nodes missing below [cur]. *)
Fixpoint vp_count_missing (fuel : nat) (mgr : vipm_manager_t) (key d cur : Z)
    : option Z :=
  match fuel with
  | O => Some 0
  | S fuel =>
      n ← aget (m_nodes mgr) cur;
      nxt ← vp_node_get n (vp_nibble key d);
      if nxt =? VIPM_NULL_INDEX then Some (VIPM_NIBBLES - d)
      else vp_count_missing fuel mgr key (d + 1) nxt
  end.

(** Body of the second loop when the child is missing: allocate, clear and
    link a node; [None] in the result when the pool is empty. *)
Definition vp_grow (mgr : vipm_manager_t) (cur nb : Z)
    : option (vipm_manager_t * option Z) :=
  '(mgr, nn) ← vp_node_alloc mgr;
  if nn =? VIPM_NULL_INDEX then Some (mgr, None)
  else
    ns ← aset (m_nodes mgr) nn empty_node;
    n ← aget ns cur;
    n ← vp_node_set n nb nn;
    ns ← aset ns cur n;
    Some (mgr <| m_nodes := ns |> <| m_node_count := u16 (m_node_count mgr + 1) |>, Some nn).

Fixpoint vp_put_walk (fuel : nat) (mgr : vipm_manager_t) (key d cur : Z)
    : option (vipm_manager_t * option Z) :=
  match fuel with
  | O => Some (mgr, Some cur)
  | S fuel =>
      n ← aget (m_nodes mgr) cur;
      nxt ← vp_node_get n (vp_nibble key d);
      if nxt =? VIPM_NULL_INDEX then
        '(mgr, nn) ← vp_grow mgr cur (vp_nibble key d);
        match nn with
        | None => Some (mgr, None)
        | Some nn => vp_put_walk fuel mgr key (d + 1) nn
        end
      else vp_put_walk fuel mgr key (d + 1) nxt
  end.

Definition set_payload (n : vipm_node_t) (p : Z) : vipm_node_t :=
  mk_node (child_bitmap n) (children n) p.

Definition vipm_mapping_put (mgr : ptr vipm_manager_t) (key entry_index : Z)
    : option (ptr vipm_manager_t * Z) :=
  match mgr with
  | None => Some (None, VIPM_ERR_NULL_POINTER)
  | Some m =>
      if negb (m_initialized m) then Some (mgr, VIPM_ERR_NOT_INIT)
      else if negb (vipm_key_valid key) then Some (mgr, VIPM_ERR_INVALID_KEY)
      else if VIPM_FVIP_MAX_ENTRIES <=? entry_index then Some (mgr, VIPM_ERR_INVALID_KEY)
      else
        missing ← vp_count_missing (Z.to_nat VIPM_NIBBLES) m key 0 (m_root m);
        if m_free_top m <? missing then Some (mgr, VIPM_BAN_POOL_EXHAUSTED)
        else
          '(m, cur) ← vp_put_walk (Z.to_nat VIPM_NIBBLES) m key 0 (m_root m);
          match cur with
          | None => Some (Some m, VIPM_BAN_POOL_EXHAUSTED)
          | Some cur =>
              n ← aget (m_nodes m) cur;
              let had_payload := negb (payload n =? VIPM_NULL_PAYLOAD) in
              ns ← aset (m_nodes m) cur (set_payload n entry_index);
              let m := m <| m_nodes := ns |>
                         <| m_trie_inserts := u64 (m_trie_inserts m + 1) |> in
              Some (Some m, if had_payload then VIPM_ERR_DUPLICATE_MAPPING else VIPM_OK)
          end
  end.

Definition vipm_mapping_get (mgr : ptr vipm_manager_t) (key : Z)
    (out_entry_index : ptr Z) : option (ptr vipm_manager_t * ptr Z * Z) :=
  match mgr, out_entry_index with
  | Some m, Some _ =>
      if negb (m_initialized m) then Some (mgr, out_entry_index, VIPM_ERR_NOT_INIT)
      else
        let m := m <| m_trie_lookups := u64 (m_trie_lookups m + 1) |> in
        r ← vp_trie_find m key;
        match r with
        | inl st => Some (Some m, out_entry_index, st)
        | inr p => Some (Some m, Some p, VIPM_OK)
        end
  | _, _ => Some (mgr, out_entry_index, VIPM_ERR_NULL_POINTER)
  end.

(** Descent of [vipm_mapping_remove]: [parents] and [pnibbles] are kept as one
    stack, deepest first. *)
Fixpoint vp_descend (fuel : nat) (mgr : vipm_manager_t) (key d cur : Z)
    (stack : list (Z * Z)) : option (option (list (Z * Z) * Z)) :=
  match fuel with
  | O => Some (Some (stack, cur))
  | S fuel =>
      let nb := vp_nibble key d in
      n ← aget (m_nodes mgr) cur;
      nxt ← vp_node_get n nb;
      if nxt =? VIPM_NULL_INDEX then Some None
      else vp_descend fuel mgr key (d + 1) nxt ((cur, nb) :: stack)
  end.

Definition set_bitmap (n : vipm_node_t) (b : Z) : vipm_node_t :=
  mk_node b (children n) (payload n).

(** One leaf-up pruning step. *)
Definition vp_prune_step (mgr : vipm_manager_t) (node parent nib : Z)
    : option vipm_manager_t :=
  n ← aget (m_nodes mgr) node;
  if (child_bitmap n =? 0) && (payload n =? VIPM_NULL_PAYLOAD) then
    pn ← aget (m_nodes mgr) parent;
    pn ← vp_node_unset pn nib;
    ns ← aset (m_nodes mgr) parent pn;
    n ← aget ns node;
    ns ← aset ns node (set_bitmap n 0);
    let mgr := mgr <| m_nodes := ns |> in
    let mgr := if 0 <? m_node_count mgr
               then mgr <| m_node_count := u16 (m_node_count mgr - 1) |> else mgr in
    vp_node_free mgr node
  else Some mgr.

(** [while (depth > 0)]: the stack is as deep as the loop counter. *)
Fixpoint vp_prune (stack : list (Z * Z)) (mgr : vipm_manager_t) (node : Z)
    : option vipm_manager_t :=
  match stack with
  | [] => Some mgr
  | (parent, nib) :: stack =>
      mgr ← vp_prune_step mgr node parent nib;
      vp_prune stack mgr parent
  end.

Definition vipm_mapping_remove (mgr : ptr vipm_manager_t) (key : Z)
    : option (ptr vipm_manager_t * Z) :=
  match mgr with
  | None => Some (None, VIPM_ERR_NULL_POINTER)
  | Some m =>
      if negb (m_initialized m) then Some (mgr, VIPM_ERR_NOT_INIT)
      else if negb (vipm_key_valid key) then Some (mgr, VIPM_ERR_INVALID_KEY)
      else
        r ← vp_descend (Z.to_nat VIPM_NIBBLES) m key 0 (m_root m) [];
        match r with
        | None => Some (mgr, VIPM_ERR_NOT_FOUND)
        | Some (stack, cur) =>
            n ← aget (m_nodes m) cur;
            if payload n =? VIPM_NULL_PAYLOAD then Some (mgr, VIPM_ERR_NOT_FOUND)
            else
              ns ← aset (m_nodes m) cur (set_payload n VIPM_NULL_PAYLOAD);
              let m := m <| m_nodes := ns |>
                         <| m_trie_removes := u64 (m_trie_removes m + 1) |> in
              m ← vp_prune stack m cur;
              Some (Some m, VIPM_OK)
        end
  end.

(** ** FVIP path table *)

(** The collision guard of [vipm_fvip_insert]: the first occupied entry of the
    volume at the same offset decides the status. *)
Fixpoint vp_collision (es : list vipm_fvip_entry_t) (volume_id byte_offset : Z)
    (path : list Z) : option (option Z) :=
  match es with
  | [] => Some None
  | e :: es =>
      if negb (e_occupied e) || negb (e_volume_id e =? volume_id)
      then vp_collision es volume_id byte_offset path
      else if negb (e_byte_offset e =? byte_offset)
      then vp_collision es volume_id byte_offset path
      else
        eq ← vp_path_equal (e_path e) path;
        Some (Some (if (eq : bool) then VIPM_ERR_ALREADY_EXISTS
                    else VIPM_ERR_DUPLICATE_MAPPING))
  end.

(** [path] copied and the rest of the field zero-filled. *)
Definition vp_store_path (blen : Z) (path dst : list Z) : option (list Z) :=
  dst ← copy_bytes blen path dst;
  for_up (Z.to_nat (VIPM_PATH_MAX - blen)) blen (λ i dst, aset dst i 0) dst.

Definition vipm_fvip_insert (mgr : ptr vipm_manager_t) (volume_id : Z)
    (path : ptr (list Z)) (byte_offset flags : Z) : option (ptr vipm_manager_t * Z) :=
  match mgr, path with
  | Some m, Some path =>
      if negb (m_initialized m) then Some (mgr, VIPM_ERR_NOT_INIT)
      else if negb (vipm_key_valid (vipm_key_make volume_id byte_offset))
      then Some (mgr, VIPM_ERR_INVALID_KEY)
      else
        vol ← vp_volume_find m volume_id;
        match vol with
        | None => Some (mgr, VIPM_ERR_NOT_FOUND)
        | Some _ =>
            coll ← vp_collision (m_entries m) volume_id byte_offset path;
            match coll with
            | Some st => Some (mgr, st)
            | None =>
                r ← vp_validate_path path;
                match r with
                | inl st => Some (mgr, st)
                | inr (blen, cpcount) =>
                    slot ← find_up (Z.to_nat VIPM_FVIP_MAX_ENTRIES) 0 (m_entries m)
                             (λ e, negb (e_occupied e));
                    match slot with
                    | None => Some (mgr, VIPM_ERR_TABLE_FULL)
                    | Some slot =>
                        e ← aget (m_entries m) slot;
                        stored ← vp_store_path blen path (e_path e);
                        h ← vp_fnv1a64 path;
                        let e := mk_entry stored byte_offset flags cpcount h volume_id true in
                        es ← aset (m_entries m) slot e;
                        let m := m <| m_entries := es |>
                                   <| m_entry_count := u16 (m_entry_count m + 1) |> in
                        let key := vipm_key_make volume_id byte_offset in
                        '(mgr, st) ← vipm_mapping_put (Some m) key slot;
                        m ← mgr;
                        if negb (st =? VIPM_OK) then
                          es ← aset (m_entries m) slot (e <| e_occupied := false |>);
                          Some (Some (m <| m_entries := es |>
                                        <| m_entry_count := u16 (m_entry_count m - 1) |>), st)
                        else Some (Some m, VIPM_OK)
                    end
                end
            end
        end
  | _, _ => Some (mgr, VIPM_ERR_NULL_POINTER)
  end.

(** The scan shared by lookup and remove: the first occupied entry of the
    volume whose path equals [path]. *)
Fixpoint vp_entry_find (es : list vipm_fvip_entry_t) (i volume_id : Z) (path : list Z)
    : option (option (Z * vipm_fvip_entry_t)) :=
  match es with
  | [] => Some None
  | e :: es =>
      if negb (e_occupied e) || negb (e_volume_id e =? volume_id)
      then vp_entry_find es (i + 1) volume_id path
      else
        eq ← vp_path_equal (e_path e) path;
        if negb eq then vp_entry_find es (i + 1) volume_id path
        else Some (Some (i, e))
  end.

Definition vipm_fvip_lookup (mgr : ptr vipm_manager_t) (volume_id : Z)
    (path : ptr (list Z)) (out_entry : ptr vipm_fvip_entry_t)
    : option (ptr vipm_manager_t * ptr vipm_fvip_entry_t * Z) :=
  match mgr, path, out_entry with
  | Some m, Some path, Some _ =>
      if negb (m_initialized m) then Some (mgr, out_entry, VIPM_ERR_NOT_INIT)
      else
        f ← vp_entry_find (m_entries m) 0 volume_id path;
        match f with
        | None => Some (Some (m <| m_fvip_misses := u64 (m_fvip_misses m + 1) |>),
                        out_entry, VIPM_ERR_NOT_FOUND)
        | Some (i, e) =>
            h ← vp_fnv1a64 path;
            if negb (e_path_hash e =? h) then Some (mgr, out_entry, VIPM_BAN_HASH_MISMATCH)
            else
              r ← vp_validate_path path;
              match r with
              | inl st => Some (mgr, out_entry, st)
              | inr (_, cps) =>
                  if negb (e_codepoint_meta e =? cps)
                  then Some (mgr, out_entry, VIPM_BAN_ENTRY_CORRUPT)
                  else
                    t ← vp_trie_find m (vipm_key_make volume_id (e_byte_offset e));
                    match t with
                    | inl _ => Some (mgr, out_entry, VIPM_ERR_INDEX_STALE)
                    | inr trie_idx =>
                        if negb (trie_idx =? i)
                        then Some (mgr, out_entry, VIPM_ERR_INDEX_STALE)
                        else Some (Some (m <| m_fvip_hits := u64 (m_fvip_hits m + 1) |>),
                                   Some e, VIPM_OK)
                    end
              end
        end
  | _, _, _ => Some (mgr, out_entry, VIPM_ERR_NULL_POINTER)
  end.

Definition vipm_fvip_remove (mgr : ptr vipm_manager_t) (volume_id : Z)
    (path : ptr (list Z)) : option (ptr vipm_manager_t * Z) :=
  match mgr, path with
  | Some m, Some path =>
      if negb (m_initialized m) then Some (mgr, VIPM_ERR_NOT_INIT)
      else
        f ← vp_entry_find (m_entries m) 0 volume_id path;
        match f with
        | None => Some (mgr, VIPM_ERR_NOT_FOUND)
        | Some (i, e) =>
            '(mgr, st) ← vipm_mapping_remove mgr (vipm_key_make volume_id (e_byte_offset e));
            m ← mgr;
            let blank := mk_entry (replicate (Z.to_nat VIPM_PATH_MAX) 0) 0 0 0 0 0 false in
            es ← aset (m_entries m) i blank;
            Some (Some (m <| m_entries := es |>
                          <| m_entry_count := u16 (m_entry_count m - 1) |>),
                  if negb (st =? VIPM_OK) then st else VIPM_OK)
        end
  | _, _ => Some (mgr, VIPM_ERR_NULL_POINTER)
  end.

(** ** Storage flags *)
Definition has (x bit : Z) : bool := negb (Z.land x bit =? 0).

Definition vipm_flags_from_storage (entry_type sec_flags : Z) : Z :=
  let f := if entry_type =? VIPM_ENTRY_CATALOG then VIPM_FLAG_CATALOG else VIPM_FLAG_FILE in
  let f := if has entry_type VIPM_ENTRY_DELETED then Z.lor f VIPM_FLAG_DELETED else f in
  let f := if has sec_flags 0x0001 then Z.lor f VIPM_FLAG_HIDDEN else f in
  let f := if has sec_flags 0x0002 then Z.lor f VIPM_FLAG_READONLY else f in
  let f := if has sec_flags 0x0004 then Z.lor f VIPM_FLAG_ENCRYPTED else f in
  if has sec_flags 0x0008 then Z.lor f VIPM_FLAG_SYSTEM else f.

Definition vipm_flags_to_storage (fvip_flags : Z) (out_entry_type out_sec_flags : ptr Z)
    : ptr Z * ptr Z :=
  match out_entry_type, out_sec_flags with
  | Some _, Some _ =>
      let etype := if has fvip_flags VIPM_FLAG_CATALOG then VIPM_ENTRY_CATALOG
                   else VIPM_ENTRY_FILE in
      let etype := if has fvip_flags VIPM_FLAG_DELETED
                   then u8 (Z.lor etype VIPM_ENTRY_DELETED) else etype in
      let sec := if has fvip_flags VIPM_FLAG_HIDDEN then Z.lor 0 0x0001 else 0 in
      let sec := if has fvip_flags VIPM_FLAG_READONLY then Z.lor sec 0x0002 else sec in
      let sec := if has fvip_flags VIPM_FLAG_ENCRYPTED then Z.lor sec 0x0004 else sec in
      let sec := if has fvip_flags VIPM_FLAG_SYSTEM then Z.lor sec 0x0008 else sec in
      (Some etype, Some sec)
  | _, _ => (out_entry_type, out_sec_flags)
  end.

(** ** Integrity verification *)

(** The children of one popped node are marked and pushed; [inl] is the status
    of an early return. The stack is a list, top first. *)
Fixpoint vp_verify_children (fuel : nat) (n : vipm_node_t) (nb : Z)
    (visited stack : list Z) : option (Z + list Z * list Z) :=
  match fuel with
  | O => Some (inr (visited, stack))
  | S fuel =>
      let bit := u16 (Z.shiftl 1 nb) in
      if Z.land (child_bitmap n) bit =? 0
      then vp_verify_children fuel n (nb + 1) visited stack
      else
        cidx ← vp_node_get n nb;
        if (cidx =? VIPM_NULL_INDEX) || (VIPM_MAX_NODES <=? cidx)
        then Some (inl VIPM_BAN_NODE_CORRUPT)
        else
          seen ← aget visited cidx;
          if negb (seen =? 0) then Some (inl VIPM_BAN_NODE_CORRUPT)
          else
            visited ← aset visited cidx 1;
            if VIPM_MAX_NODES <=? Z.of_nat (length stack)
            then Some (inl VIPM_BAN_NODE_CORRUPT)
            else vp_verify_children fuel n (nb + 1) visited (cidx :: stack)
  end.

(** The payload checks of one node; [None] when they pass. *)
Definition vp_verify_payload (mgr : vipm_manager_t) (n : vipm_node_t)
    : option (option Z) :=
  if payload n =? VIPM_NULL_PAYLOAD then Some None
  else if VIPM_FVIP_MAX_ENTRIES <=? payload n then Some (Some VIPM_BAN_NODE_CORRUPT)
  else
    e ← aget (m_entries mgr) (payload n);
    if negb (e_occupied e) then Some (Some VIPM_BAN_ENTRY_CORRUPT)
    else if negb (vipm_key_valid (vipm_key_make (e_volume_id e) (e_byte_offset e)))
    then Some (Some VIPM_BAN_ENTRY_CORRUPT)
    else
      h ← vp_fnv1a64 (e_path e);
      Some (if negb (e_path_hash e =? h) then Some VIPM_BAN_HASH_MISMATCH else None).

(** [while (sp > 0)]: every node is pushed at most once, so [VIPM_MAX_NODES]
    pops empty the stack. *)
Fixpoint vp_verify_dfs (fuel : nat) (mgr : vipm_manager_t) (visited stack : list Z)
    (reachable : Z) : option (Z + list Z * Z) :=
  match stack with
  | [] => Some (inr (visited, reachable))
  | cur :: stack =>
      match fuel with
      | O => UB
      | S fuel =>
          n ← aget (m_nodes mgr) cur;
          if VIPM_CHILDREN <? vp_popcount16 (child_bitmap n)
          then Some (inl VIPM_BAN_NODE_CORRUPT)
          else
            r ← vp_verify_children (Z.to_nat VIPM_CHILDREN) n 0 visited stack;
            match r with
            | inl st => Some (inl st)
            | inr (visited, stack) =>
                p ← vp_verify_payload mgr n;
                match p with
                | Some st => Some (inl st)
                | None => vp_verify_dfs fuel mgr visited stack (u32 (reachable + 1))
                end
            end
      end
  end.

(** [for (i = 0; i < free_top; i++)]: [None] when the free list is sane. *)
Fixpoint vp_verify_free (fuel : nat) (mgr : vipm_manager_t) (i : Z)
    (visited in_free : list Z) : option (option Z) :=
  match fuel with
  | O => Some None
  | S fuel =>
      fi ← aget (m_free_stack mgr) i;
      if VIPM_MAX_NODES <=? fi then Some (Some VIPM_BAN_TABLE_CORRUPT)
      else
        v ← aget visited fi;
        if negb (v =? 0) then Some (Some VIPM_BAN_TABLE_CORRUPT)
        else
          f ← aget in_free fi;
          if negb (f =? 0) then Some (Some VIPM_BAN_TABLE_CORRUPT)
          else
            in_free ← aset in_free fi 1;
            vp_verify_free fuel mgr (i + 1) visited in_free
  end.

(** The entry table pass: [inr] carries the number of occupied entries. *)
Fixpoint vp_verify_entries (es : list vipm_fvip_entry_t) (mgr : vipm_manager_t)
    (i occupied : Z) : option (Z + Z) :=
  match es with
  | [] => Some (inr occupied)
  | e :: es =>
      if negb (e_occupied e) then vp_verify_entries es mgr (i + 1) occupied
      else
        t ← vp_trie_find mgr (vipm_key_make (e_volume_id e) (e_byte_offset e));
        match t with
        | inl _ => Some (inl VIPM_BAN_ENTRY_CORRUPT)
        | inr trie_idx =>
            if negb (trie_idx =? i) then Some (inl VIPM_ERR_INDEX_STALE)
            else
              h ← vp_fnv1a64 (e_path e);
              if negb (e_path_hash e =? h) then Some (inl VIPM_BAN_HASH_MISMATCH)
              else vp_verify_entries es mgr (i + 1) (u32 (occupied + 1))
        end
  end.

(** Registry pass: no two registered volumes share an id. *)
Fixpoint vp_verify_volumes (vs : list vipm_volume_t) : bool :=
  match vs with
  | [] => true
  | v :: vs =>
      (negb (v_registered v) ||
       forallb (λ w, negb (v_registered w && (v_volume_id v =? v_volume_id w))) vs)
      && vp_verify_volumes vs
  end.

Definition vipm_integrity_verify (mgr : ptr vipm_manager_t) : option Z :=
  match mgr with
  | None => Some VIPM_ERR_NULL_POINTER
  | Some m =>
      if negb (m_initialized m) then Some VIPM_ERR_NOT_INIT
      else
        let zeros := replicate (Z.to_nat VIPM_MAX_NODES) 0 in
        visited ← aset zeros (m_root m) 1;
        d ← vp_verify_dfs (Z.to_nat VIPM_MAX_NODES) m visited [m_root m] 0;
        match d with
        | inl st => Some st
        | inr (visited, reachable) =>
            f ← vp_verify_free (Z.to_nat (m_free_top m)) m 0 visited zeros;
            match f with
            | Some st => Some st
            | None =>
                if negb (reachable =? m_node_count m) then Some VIPM_BAN_TABLE_CORRUPT
                else
                  es ← vp_verify_entries (m_entries m) m 0 0;
                  match es with
                  | inl st => Some st
                  | inr occupied =>
                      if negb (occupied =? m_entry_count m)
                      then Some VIPM_BAN_ENTRY_CORRUPT
                      else if negb (vp_verify_volumes (m_volumes m))
                      then Some VIPM_BAN_VOLUME_CORRUPT
                      else Some VIPM_OK
                  end
            end
        end
  end.

(** ** Telemetry *)
Definition vipm_get_telemetry (mgr : ptr vipm_manager_t)
    (lookups inserts depth hits misses : ptr Z)
    : ptr Z * ptr Z * ptr Z * ptr Z * ptr Z :=
  match mgr with
  | None => (lookups, inserts, depth, hits, misses)
  | Some m =>
      let store (out : ptr Z) (v : Z) : ptr Z := (λ _, v) <$> out in
      (store lookups (m_trie_lookups m), store inserts (m_trie_inserts m),
       store depth (m_trie_max_depth m), store hits (m_fvip_hits m),
       store misses (m_fvip_misses m))
  end.

(** ** A concrete manager, for the examples and witnesses *)
Definition blank_entry : vipm_fvip_entry_t :=
  mk_entry (replicate (Z.to_nat VIPM_PATH_MAX) 0) 0 0 0 0 0 false.
Definition blank_volume : vipm_volume_t :=
  mk_volume 0 0 (replicate (Z.to_nat VIPM_LABEL_MAX) 0) 0 false.
(** The manager before [vipm_init_manager]: zeroed storage. *)
Definition zero_manager : vipm_manager_t :=
  mk_manager (replicate 256 (mk_node 0 (replicate 16 0) 0)) (replicate 256 0) 0 0 0
    (replicate 8 blank_volume) 0 (replicate 64 blank_entry) 0 false 0 0 0 0 0 0.
