(* ===== verification/VipmTrie.v ===== *)
(** The 44-bit trie of the volume index refines a finite map.

    The ghost state of the proof is a finite map [P] from nibble prefixes to
    node indices: the trie is well formed when every prefix of [P] owns its
    own pool node, the children of a node are exactly the one-nibble extensions
    of its prefix, and the free stack holds exactly the other nodes.  Because
    [P] is flat, growing and pruning a path are a map insertion and a map
    deletion, and separation is injectivity of [P]. *)
From S2P Require Import Prelude Sutf8 VipmNode Vipm.

(** ** Keys *)
Definition nibbles (key : Z) : list Z := vp_nibble key <$> seqZ 0 VIPM_NIBBLES.

Definition key_ok (key : Z) : Prop := 0 ≤ key < 2 ^ 44.

Lemma length_nibbles key : length (nibbles key) = 11%nat.
Proof. unfold nibbles. by rewrite length_fmap, length_seqZ. Qed.

Lemma vp_nibble_range key d : 0 ≤ vp_nibble key d < 16.
Proof. unfold vp_nibble.
  change 0xF with (Z.ones 4). rewrite Z.land_ones by lia. apply Z.mod_pos_bound. lia.
Qed.

Lemma nibbles_lookup key (d : nat) :
  (d < 11)%nat → nibbles key !! d = Some (vp_nibble key (Z.of_nat d)).
Proof.
  intros. unfold nibbles. rewrite list_lookup_fmap, lookup_seqZ_lt; [done|].
  unfold VIPM_NIBBLES. lia.
Qed.

Lemma nibbles_take_S key (d : nat) :
  (d < 11)%nat →
  take (S d) (nibbles key) = take d (nibbles key) ++ [vp_nibble key (Z.of_nat d)].
Proof. intros. apply take_S_r. by apply nibbles_lookup. Qed.

Lemma vp_nibble_testbit key (d i : Z) :
  0 ≤ d < 11 → 0 ≤ i < 4 →
  Z.testbit (vp_nibble key d) i = Z.testbit key (i + (10 - d) * 4).
Proof.
  intros. unfold vp_nibble, VIPM_NIBBLES. rewrite u32_small by lia.
  change 0xF with (Z.ones 4).
  rewrite Z.land_spec, Z.shiftr_spec, Z.ones_spec_low, andb_true_r by lia. done.
Qed.

(** Distinct keys take distinct paths. *)
Lemma nibbles_inj k1 k2 : key_ok k1 → key_ok k2 → nibbles k1 = nibbles k2 → k1 = k2.
Proof.
  intros H1 H2 Heq. apply Z.bits_inj'. intros i Hi.
  destruct (decide (i < 44)).
  - assert (vp_nibble k1 (10 - i / 4) = vp_nibble k2 (10 - i / 4)) as Hn.
    { apply (f_equal (lookup (Z.to_nat (10 - i / 4)))) in Heq.
      rewrite !nibbles_lookup in Heq by zdm. simplify_eq.
      by rewrite Z2Nat.id in Heq by zdm. }
    apply (f_equal (λ z, Z.testbit z (i mod 4))) in Hn.
    rewrite !vp_nibble_testbit in Hn by zdm.
    replace (i mod 4 + (10 - (10 - i / 4)) * 4) with i in Hn by zdm. done.
  - unfold key_ok in *. rewrite <-(Z.mod_small k1 (2 ^ 44)), <-(Z.mod_small k2 (2 ^ 44)) by done.
    by rewrite !Z.mod_pow2_bits_high by lia.
Qed.

Lemma vipm_key_valid_iff key : 0 ≤ key → vipm_key_valid key = true ↔ key_ok key.
Proof.
  intros. unfold vipm_key_valid, VIPM_KEY_BITS, key_ok.
  rewrite Z.eqb_eq, Z.shiftr_div_pow2 by lia. split; intros.
  - split; [done|]. apply Z.div_small_iff in H0; lia.
  - apply Z.div_small. lia.
Qed.

(** ** The invariant *)

Definition free_nodes (m : vipm_manager_t) : list Z :=
  take (Z.to_nat (m_free_top m)) (m_free_stack m).

(** Node [n] of prefix [p]: its children are the extensions of [p], and only
    full-length prefixes carry a payload. *)
Record node_ok (P : gmap (list Z) Z) (p : list Z) (nd : vipm_node_t) : Prop := {
  no_wf : node_wf nd;
  no_child : ∀ x, 0 ≤ x < 16 → child nd x = P !! (p ++ [x]);
  no_inner : (length p < 11)%nat → payload nd = VIPM_NULL_PAYLOAD;
  no_payload : payload nd = VIPM_NULL_PAYLOAD ∨ 0 ≤ payload nd < VIPM_FVIP_MAX_ENTRIES
}.

Record trie_core (m : vipm_manager_t) (P : gmap (list Z) Z) : Prop := {
  tc_root : P !! [] = Some (m_root m);
  tc_inj : map_inj P;
  tc_bound : ∀ p n, P !! p = Some n → 0 ≤ n < VIPM_MAX_NODES ∧ (length p ≤ 11)%nat;
  tc_closed : ∀ p x c, P !! (p ++ [x]) = Some c → 0 ≤ x < 16 ∧ is_Some (P !! p);
  tc_node : ∀ p n, P !! p = Some n →
    ∃ nd, aget (m_nodes m) n = Some nd ∧ node_ok P p nd;
  tc_len : length (m_nodes m) = 256%nat ∧ length (m_free_stack m) = 256%nat;
  tc_free_top : 0 ≤ m_free_top m ∧ m_free_top m + Z.of_nat (size P) = VIPM_MAX_NODES;
  tc_count : m_node_count m = Z.of_nat (size P);
  tc_free_nodup : NoDup (free_nodes m);
  tc_free : ∀ i, i ∈ free_nodes m → 0 ≤ i < VIPM_MAX_NODES ∧ ∀ p, P !! p ≠ Some i
}.

(** No pool node is held for nothing: every node but the root, and but the one
    at [tip] while a path is being edited, has a child or a payload. *)
Definition trie_live (m : vipm_manager_t) (P : gmap (list Z) Z) (tip : list Z) : Prop :=
  ∀ p n nd, p ≠ [] → p ≠ tip → P !! p = Some n → aget (m_nodes m) n = Some nd →
    child_bitmap nd ≠ 0 ∨ payload nd ≠ VIPM_NULL_PAYLOAD.

(** The fields outside the trie. *)
Definition same_rest (m m' : vipm_manager_t) : Prop :=
  m_root m' = m_root m ∧ m_volumes m' = m_volumes m ∧
  m_volume_count m' = m_volume_count m ∧ m_entries m' = m_entries m ∧
  m_entry_count m' = m_entry_count m ∧ m_initialized m' = m_initialized m.

Lemma same_rest_refl m : same_rest m m.
Proof. by split_and!. Qed.
Lemma same_rest_trans m1 m2 m3 : same_rest m1 m2 → same_rest m2 m3 → same_rest m1 m3.
Proof. unfold same_rest. intuition congruence. Qed.
#[export] Hint Resolve same_rest_refl : cmodel.

Lemma tc_prefix m P p q :
  trie_core m P → is_Some (P !! (p ++ q)) → is_Some (P !! p).
Proof.
  intros Hc. revert p. induction q as [|x q IH] using rev_ind; intros p.
  { by rewrite app_nil_r. }
  rewrite app_assoc. intros [c Hx]. apply IH. by eapply tc_closed.
Qed.

(** What one step of a walk along [key] reads: the next node, or the null
    index when the path ends here. *)
Lemma tc_step m P key (d : nat) cur :
  trie_core m P → (d < 11)%nat → P !! take d (nibbles key) = Some cur →
  ∃ nd, aget (m_nodes m) cur = Some nd ∧ node_ok P (take d (nibbles key)) nd ∧
    vp_node_get nd (vp_nibble key (Z.of_nat d)) =
      Some (default VIPM_NULL_INDEX (P !! take (S d) (nibbles key))) ∧
    ∀ c, P !! take (S d) (nibbles key) = Some c → (c =? VIPM_NULL_INDEX) = false.
Proof.
  intros Hc Hd Hp. destruct (tc_node _ _ Hc _ cur Hp) as (nd & Hnd & Hok).
  pose proof (vp_nibble_range key (Z.of_nat d)) as Hx.
  exists nd. split_and!; [done..| |].
  - rewrite vp_node_get_spec by (done || apply Hok).
    by rewrite (no_child _ _ _ Hok), nibbles_take_S by done.
  - intros c E. destruct (tc_bound _ _ Hc _ _ E) as [Hr _].
    unfold VIPM_MAX_NODES, VIPM_NULL_INDEX in *. lia.
Qed.

Lemma tc_path_none m P key (d : nat) :
  trie_core m P → P !! take d (nibbles key) = None → P !! nibbles key = None.
Proof.
  intros Hc HN. destruct (P !! nibbles key) as [c|] eqn:E; [|done].
  rewrite <-(take_drop d (nibbles key)) in E.
  destruct (tc_prefix m P (take d (nibbles key)) (drop d (nibbles key)) Hc) as [? ?];
    [by eexists|congruence].
Qed.

(** The read-only walk computes the lookup of the full path. *)
Lemma vp_walk_spec m P key fuel : ∀ (d : nat) cur,
  trie_core m P → (d + fuel = 11)%nat → P !! take d (nibbles key) = Some cur →
  vp_walk fuel m key (Z.of_nat d) cur = Some (P !! nibbles key).
Proof.
  induction fuel as [|fuel IH]; intros d cur Hc Hd Hcur.
  - rewrite take_ge in Hcur by (rewrite length_nibbles; lia). simpl. by rewrite Hcur.
  - cbn [vp_walk].
    destruct (tc_step m P key d cur Hc ltac:(lia) Hcur) as (nd & Hnd & _ & Hget & Hne).
    rewrite Hnd, obind_Some, Hget, obind_Some.
    destruct (P !! take (S d) (nibbles key)) as [c|] eqn:E; simpl.
    + rewrite (Hne c eq_refl). replace (Z.of_nat d + 1) with (Z.of_nat (S d)) by lia.
      apply IH; [done|lia|done].
    + by rewrite (tc_path_none m P key (S d)).
Qed.

(** The payload stored under a key. *)
Definition trie_lookup (m : vipm_manager_t) (P : gmap (list Z) Z) (key : Z) : option Z :=
  n ← P !! nibbles key;
  nd ← aget (m_nodes m) n;
  if payload nd =? VIPM_NULL_PAYLOAD then None else Some (payload nd).

Lemma vp_trie_find_spec m P key :
  trie_core m P → key_ok key →
  vp_trie_find m key = Some (match trie_lookup m P key with
                             | Some v => inr v | None => inl VIPM_ERR_NOT_FOUND end).
Proof.
  intros Hc Hk. unfold vp_trie_find, trie_lookup.
  rewrite (proj2 (vipm_key_valid_iff key ltac:(by destruct Hk)) Hk). cbn [negb].
  rewrite (vp_walk_spec m P key _ 0) by (done || apply Hc). rewrite obind_Some.
  destruct (P !! nibbles key) as [n|] eqn:E; [|done].
  destruct (tc_node _ _ Hc _ _ E) as (nd & Hnd & _). simpl. rewrite Hnd. simpl.
  by destruct (payload nd =? VIPM_NULL_PAYLOAD).
Qed.

(** ** Growing a path *)

Lemma empty_node_child x : child empty_node x = None.
Proof. unfold child, empty_node; cbn [child_bitmap]. by rewrite Z.bits_0. Qed.

Lemma empty_node_wf : node_wf empty_node.
Proof. constructor; [vm_compute; split; congruence|done]. Qed.

Lemma app_snoc_neq (p q : list Z) x : length p = length q → p ++ [x] ≠ q.
Proof. intros H E. apply (f_equal length) in E. rewrite length_app in E. simpl in E. lia. Qed.

Lemma size_pos_lookup (P : gmap (list Z) Z) p n : P !! p = Some n → (0 < size P)%nat.
Proof.
  intros H. apply Nat.neq_0_lt_0. rewrite map_size_empty_iff. intros ->.
  by rewrite lookup_empty in H.
Qed.

Lemma vp_node_alloc_spec m P :
  trie_core m P → 0 < m_free_top m →
  ∃ i, vp_node_alloc m = Some (m <| m_free_top := m_free_top m - 1 |>, i) ∧
    free_nodes m = free_nodes (m <| m_free_top := m_free_top m - 1 |>) ++ [i].
Proof.
  intros Hc Htop. pose proof (tc_len _ _ Hc) as [_ Hlen].
  pose proof (tc_free_top _ _ Hc) as [_ Hsz]. unfold VIPM_MAX_NODES in Hsz.
  destruct (aget_is_Some (m_free_stack m) (m_free_top m - 1)) as [i Hi]; [lia|].
  exists i. unfold vp_node_alloc. case_if; [lia|].
  rewrite u16_small, Hi, obind_Some by lia. split; [done|].
  unfold free_nodes. simpl.
  replace (Z.to_nat (m_free_top m)) with (S (Z.to_nat (m_free_top m - 1))) by lia.
  apply take_S_r. apply aget_Some in Hi as [_ Hi]. done.
Qed.

(** The invariant after linking a free node under [p ++ [x]], from the new
    contents of the pool. *)
Section grow.
Context (m m' : vipm_manager_t) (P : gmap (list Z) Z) (p : list Z) (cur x nn : Z)
  (cn cn' : vipm_node_t).
Context (Hc : trie_core m P) (Hp : P !! p = Some cur) (Hlp : (length p < 11)%nat)
  (Hx : 0 ≤ x < 16) (Hnone : P !! (p ++ [x]) = None).
Context (Hcn : aget (m_nodes m) cur = Some cn) (Hwf' : node_wf cn')
  (Hpay : payload cn' = payload cn)
  (Hch : ∀ k, 0 ≤ k < 16 → child cn' k = if decide (k = x) then Some nn else child cn k).
Context (Hroot : m_root m' = m_root m) (Hlen : length (m_nodes m') = 256%nat)
  (Hfs : m_free_stack m' = m_free_stack m) (Hft : m_free_top m' = m_free_top m - 1)
  (Htop : 0 < m_free_top m) (Hcnt : m_node_count m' = m_node_count m + 1)
  (Hfree : free_nodes m = free_nodes m' ++ [nn])
  (Hns : ∀ i, aget (m_nodes m') i = if decide (cur = i) then Some cn' else
               if decide (nn = i) then Some empty_node else aget (m_nodes m) i).

Lemma grow_fresh : 0 ≤ nn < VIPM_MAX_NODES ∧ ∀ q, P !! q ≠ Some nn.
Proof. apply (tc_free _ _ Hc). rewrite Hfree. set_solver. Qed.

Lemma grow_node q n :
  <[p ++ [x] := nn]> P !! q = Some n →
  ∃ nd, aget (m_nodes m') n = Some nd ∧ node_ok (<[p ++ [x] := nn]> P) q nd.
Proof.
  destruct grow_fresh as [Hnnr Hnn]. intros Hq. rewrite Hns.
  rewrite lookup_insert in Hq. destruct (decide (p ++ [x] = q)) as [<-|Hpq].
  - simplify_eq. rewrite decide_False by (intros ->; by eapply Hnn).
    rewrite decide_True by done. exists empty_node. split; [done|].
    split; [apply empty_node_wf| |done|by left].
    intros y Hy. rewrite empty_node_child, lookup_insert_ne.
    + destruct (P !! ((p ++ [x]) ++ [y])) eqn:E; [|done].
      apply (tc_closed _ _ Hc) in E as [_ [? ?]]. congruence.
    + intros E. apply (f_equal length) in E. rewrite !length_app in E. simpl in E. lia.
  - destruct (tc_node _ _ Hc q n Hq) as (nd & Hnd & Hok).
    destruct (decide (cur = n)) as [<-|].
    + assert (q = p) as -> by (by eapply (tc_inj _ _ Hc)).
      assert (nd = cn) as -> by congruence. destruct Hok as [? Hc2 ? ?].
      exists cn'. split; [done|]. split; rewrite ?Hpay; try done.
      intros y Hy. rewrite Hch, lookup_insert by done.
      repeat case_decide; simplify_eq; try done. by apply Hc2.
    + rewrite decide_False by (intros ->; by eapply Hnn).
      exists nd. split; [done|]. destruct Hok as [? Hc2 ? ?]. split; try done.
      intros y Hy. rewrite lookup_insert_ne; [by apply Hc2|].
      intros [-> ->]%app_inj_tail. congruence.
Qed.

Lemma trie_core_grow : trie_core m' (<[p ++ [x] := nn]> P).
Proof.
  destruct grow_fresh as [Hnnr Hnn]. pose proof Hc as [Hrt Hinj Hb Hcl _ Hl Hfr Hct Hnd Hf].
  rewrite Hfree in Hnd. apply NoDup_app in Hnd as (Hnd & Hdisj & _).
  split.
  - rewrite lookup_insert_ne by (by destruct p). by rewrite Hroot.
  - by apply map_inj_insert.
  - intros q n. rewrite lookup_insert. case_decide; [|apply Hb].
    intros [= <-]. subst. rewrite length_app. simpl. split; [done|lia].
  - intros q y c. rewrite lookup_insert. case_decide as E.
    + apply app_inj_tail in E as [-> ->]. intros _. split; [done|].
      rewrite lookup_insert_ne by (by apply app_snoc_neq). by eexists.
    + intros [? ?]%Hcl. split; [done|]. rewrite lookup_insert.
      case_decide; [by eexists|done].
  - apply grow_node.
  - rewrite Hfs. split; [done|apply Hl].
  - rewrite map_size_insert_None by done. rewrite Hft. lia.
  - rewrite map_size_insert_None by done. lia.
  - done.
  - intros i Hi. destruct (Hf i) as [? Hni]; [rewrite Hfree; set_solver|].
    split; [done|]. intros q. rewrite lookup_insert. case_decide; [|apply Hni].
    intros [= <-]. eapply Hdisj; [exact Hi|]. set_solver.
Qed.
End grow.

(** [vp_grow] links a fresh, empty node under [p ++ [x]] and changes no other
    node. *)
Lemma vp_grow_spec m P p cur x :
  trie_core m P → P !! p = Some cur → (length p < 11)%nat → 0 ≤ x < 16 →
  P !! (p ++ [x]) = None → 0 < m_free_top m →
  ∃ m' nn, vp_grow m cur x = Some (m', Some nn) ∧
    trie_core m' (<[p ++ [x] := nn]> P) ∧ same_rest m m' ∧
    m_free_top m' = m_free_top m - 1 ∧ (∀ q, P !! q ≠ Some nn) ∧
    aget (m_nodes m') nn = Some empty_node ∧
    (∃ cn, aget (m_nodes m') cur = Some cn ∧ child_bitmap cn ≠ 0) ∧
    (∀ i, i ≠ nn → i ≠ cur → aget (m_nodes m') i = aget (m_nodes m) i).
Proof.
  intros Hc Hp Hlp Hx Hnone Htop.
  destruct (vp_node_alloc_spec m P Hc Htop) as (nn & Halloc & Hfree).
  destruct (tc_free _ _ Hc nn) as [Hnnr Hnn]; [rewrite Hfree; set_solver|].
  destruct (tc_node _ _ Hc p cur Hp) as (cn & Hcn & Hok).
  destruct (tc_len _ _ Hc) as [Hln Hlf].
  assert (cur ≠ nn) as Hne by (intros ->; by eapply Hnn).
  destruct (vp_node_set_spec cn x nn (no_wf _ _ _ Hok) Hx)
    as (cn' & Hset & Hwf' & Hpay & Hch).
  pose proof (aget_lt _ _ _ Hcn) as Hcur. unfold VIPM_MAX_NODES in Hnnr.
  destruct (aset (m_nodes m) nn empty_node) as [ns|] eqn:E1; [|rewrite aset_in in E1 by lia; done].
  pose proof (aset_length _ _ _ _ E1) as Hl1.
  destruct (aset ns cur cn') as [ns'|] eqn:E2; [|rewrite aset_in in E2 by lia; done].
  pose proof (aset_length _ _ _ _ E2) as Hl2.
  assert (∀ i, aget ns' i = if decide (cur = i) then Some cn' else
                 if decide (nn = i) then Some empty_node else aget (m_nodes m) i) as Hns.
  { intros i. by rewrite (aget_aset _ _ _ _ _ E2), (aget_aset _ _ _ _ _ E1). }
  pose proof (tc_free_top _ _ Hc) as [_ Hsz]. pose proof (tc_count _ _ Hc) as Hct.
  unfold VIPM_MAX_NODES in Hsz.
  eexists (m <| m_free_top := m_free_top m - 1 |> <| m_nodes := ns' |>
             <| m_node_count := m_node_count m + 1 |>), nn.
  split_and!; simpl.
  - unfold vp_grow. rewrite Halloc, obind_Some. cbv beta iota.
    rewrite (proj2 (Z.eqb_neq nn VIPM_NULL_INDEX)) by (unfold VIPM_NULL_INDEX; lia).
    simpl. rewrite E1, obind_Some, (aget_aset _ _ _ _ _ E1), decide_False, Hcn by done.
    rewrite obind_Some, Hset, obind_Some, E2, obind_Some, u16_small by lia. done.
  - eapply trie_core_grow with (m := m) (cn := cn) (cn' := cn') (cur := cur); try done.
    simpl. lia.
  - by split_and!.
  - done.
  - done.
  - rewrite Hns, decide_False, decide_True by done. done.
  - exists cn'. rewrite Hns, decide_True by done. split; [done|].
    rewrite bitmap_zero by done. intros HN. specialize (HN x Hx).
    rewrite Hch, decide_True in HN by done. done.
  - intros i ? ?. rewrite Hns, !decide_False by done. done.
Qed.

(** ** Walking and growing along a key *)

(** [m'], [P'] extend [m], [P] along the path of [key]: the new prefixes lie on
    that path, new nodes have no payload, old nodes keep theirs. *)
Record grown (key : Z) (m m' : vipm_manager_t) (P P' : gmap (list Z) Z) : Prop := {
  g_core : trie_core m' P';
  g_rest : same_rest m m';
  g_sub : P ⊆ P';
  g_new : ∀ q n, P' !! q = Some n → P !! q = None →
    (∃ j, q = take j (nibbles key)) ∧
    payload <$> aget (m_nodes m') n = Some VIPM_NULL_PAYLOAD;
  g_pay : ∀ q n, P !! q = Some n →
    payload <$> aget (m_nodes m') n = payload <$> aget (m_nodes m) n
}.

Lemma grown_refl key m P : trie_core m P → grown key m m P P.
Proof. intros Hc. split; try done. congruence. Qed.

Lemma grown_trans key m1 m2 m3 P1 P2 P3 :
  grown key m1 m2 P1 P2 → grown key m2 m3 P2 P3 → grown key m1 m3 P1 P3.
Proof.
  intros H1 H2. split.
  - apply H2.
  - eapply same_rest_trans; [apply H1|apply H2].
  - etrans; [apply H1|apply H2].
  - intros q n H3 HN. destruct (P2 !! q) as [n'|] eqn:E; [|by eapply g_new].
    pose proof (lookup_weaken _ _ _ _ E (g_sub _ _ _ _ _ H2)). simplify_eq.
    destruct (g_new _ _ _ _ _ H1 q n E HN) as [? Hp]. split; [done|].
    by rewrite (g_pay _ _ _ _ _ H2 q).
  - intros q n Hq. pose proof (lookup_weaken _ _ _ _ Hq (g_sub _ _ _ _ _ H1)).
    by rewrite (g_pay _ _ _ _ _ H2 q), (g_pay _ _ _ _ _ H1 q).
Qed.

Lemma vp_grow_key m P key (d : nat) cur :
  trie_core m P → (d < 11)%nat → P !! take d (nibbles key) = Some cur →
  P !! take (S d) (nibbles key) = None → 0 < m_free_top m →
  trie_live m P (take d (nibbles key)) →
  ∃ m' nn, vp_grow m cur (vp_nibble key (Z.of_nat d)) = Some (m', Some nn) ∧
    grown key m m' P (<[take (S d) (nibbles key) := nn]> P) ∧
    m_free_top m' = m_free_top m - 1 ∧ aget (m_nodes m') nn = Some empty_node ∧
    trie_live m' (<[take (S d) (nibbles key) := nn]> P) (take (S d) (nibbles key)).
Proof.
  intros Hc Hd Hcur Hnone Htop Hlive. rewrite nibbles_take_S in * by done.
  set (p := take d (nibbles key)) in *. set (x := vp_nibble key (Z.of_nat d)) in *.
  assert (length p = d) as Hlp by (unfold p; rewrite length_take, length_nibbles; lia).
  destruct (vp_grow_spec m P p cur x Hc Hcur ltac:(lia) (vp_nibble_range _ _) Hnone Htop)
    as (m' & nn & Hg & Hcore & Hrest & Hft & Hfresh & Hnn & (cn & Hcn & Hbm) & Hframe).
  exists m', nn. split_and!; try done.
  - split; try done.
    + by apply insert_subseteq.
    + intros q n Hq HN. rewrite lookup_insert in Hq. case_decide; [|congruence].
      simplify_eq. split; [|by rewrite Hnn].
      exists (S d). by rewrite nibbles_take_S.
    + intros q n Hq. destruct (decide (n = cur)) as [->|].
      * destruct (tc_node _ _ Hc q cur Hq) as (nd & Hnd & Hok).
        assert (<[p ++ [x] := nn]> P !! p = Some cur) as Hp'.
        { rewrite lookup_insert_ne; [done|]. by apply app_snoc_neq. }
        destruct (tc_node _ _ Hcore p cur Hp') as (nd' & Hnd' & Hok').
        assert (q = p) as -> by (by eapply (tc_inj _ _ Hc)).
        rewrite Hnd, Hnd'. simpl. f_equal.
        rewrite (no_inner _ _ _ Hok), (no_inner _ _ _ Hok') by lia. done.
      * rewrite Hframe; [done| |done]. intros ->. by eapply Hfresh.
  - intros q n nd Hq0 Hq1 Hq Hnd. rewrite lookup_insert_ne in Hq by done.
    destruct (decide (q = p)) as [->|].
    + left. congruence.
    + rewrite Hframe in Hnd; [by eapply Hlive| |].
      * intros ->. by eapply Hfresh.
      * intros ->. by eapply n0, (tc_inj _ _ Hc).
Qed.

(** A node with a child on the path is live, so the exception moves down. *)
Lemma trie_live_down m P key (d : nat) c :
  trie_core m P → (d < 11)%nat → P !! take (S d) (nibbles key) = Some c →
  trie_live m P (take d (nibbles key)) → trie_live m P (take (S d) (nibbles key)).
Proof.
  intros Hc Hd Hs Hlive q n nd Hq0 Hq1 Hq Hnd.
  destruct (decide (q = take d (nibbles key))) as [->|]; [|by eapply Hlive].
  left. destruct (tc_node _ _ Hc _ _ Hq) as (nd' & Hnd' & Hok). simplify_eq.
  rewrite bitmap_zero by apply Hok. intros HN.
  pose proof (vp_nibble_range key (Z.of_nat d)) as Hx.
  specialize (HN _ Hx). rewrite (no_child _ _ _ Hok) in HN by done.
  rewrite nibbles_take_S in Hs by done. congruence.
Qed.

Lemma vp_count_missing_empty m key fuel (d : nat) nn :
  (d + fuel = 11)%nat → aget (m_nodes m) nn = Some empty_node →
  vp_count_missing fuel m key (Z.of_nat d) nn = Some (11 - Z.of_nat d).
Proof.
  intros Hd Hnn. destruct fuel; cbn [vp_count_missing]; [f_equal; lia|].
  rewrite Hnn, obind_Some, vp_node_get_spec by (apply empty_node_wf || apply vp_nibble_range).
  by rewrite obind_Some, empty_node_child.
Qed.

Lemma vp_put_walk_spec key fuel : ∀ (d : nat) cur m P k,
  trie_core m P → (d + fuel = 11)%nat → P !! take d (nibbles key) = Some cur →
  trie_live m P (take d (nibbles key)) →
  vp_count_missing fuel m key (Z.of_nat d) cur = Some k → k ≤ m_free_top m →
  ∃ m' P' cur', vp_put_walk fuel m key (Z.of_nat d) cur = Some (m', Some cur') ∧
    grown key m m' P P' ∧ P' !! nibbles key = Some cur' ∧
    trie_live m' P' (nibbles key).
Proof.
  induction fuel as [|fuel IH]; intros d cur m P k Hc Hd Hcur Hlive Hk Hft.
  { rewrite take_ge in Hcur, Hlive by (rewrite length_nibbles; lia).
    exists m, P, cur. split_and!; try done. by apply grown_refl. }
  cbn [vp_put_walk]. cbn [vp_count_missing] in Hk.
  destruct (tc_step m P key d cur Hc ltac:(lia) Hcur) as (nd & Hnd & _ & Hget & Hne).
  rewrite Hnd, obind_Some, Hget, obind_Some in Hk.
  rewrite Hnd, obind_Some, Hget, obind_Some.
  replace (Z.of_nat d + 1) with (Z.of_nat (S d)) in * by lia.
  destruct (P !! take (S d) (nibbles key)) as [c|] eqn:E; simpl in Hk |- *.
  - rewrite (Hne c eq_refl) in Hk |- *. eapply IH; try done; [lia|].
    by eapply trie_live_down; [|lia|..].
  - simplify_eq. unfold VIPM_NIBBLES in Hft.
    destruct (vp_grow_key m P key d cur) as (m1 & nn & -> & Hg & Hft1 & Hnn & Hl1);
      try done; try lia. simpl.
    destruct (IH (S d) nn m1 (<[take (S d) (nibbles key) := nn]> P) (11 - Z.of_nat (S d)))
      as (m' & P' & cur' & -> & Hg' & ? & ?); try done; try lia.
    + apply Hg.
    + apply lookup_insert_eq.
    + by apply vp_count_missing_empty; [lia|].
    + exists m', P', cur'. split_and!; try done. by eapply grown_trans.
Qed.

(** The first loop of the insertion is total, counts at most the levels left,
    and counts nothing exactly when the whole path exists. *)
Lemma vp_count_missing_total m P key fuel : ∀ (d : nat) cur,
  trie_core m P → (d + fuel = 11)%nat → P !! take d (nibbles key) = Some cur →
  ∃ k, vp_count_missing fuel m key (Z.of_nat d) cur = Some k ∧
    0 ≤ k ≤ 11 - Z.of_nat d ∧ (0 < k → P !! nibbles key = None).
Proof.
  induction fuel as [|fuel IH]; intros d cur Hc Hd Hcur.
  { exists 0. split_and!; [done|lia..]. }
  cbn [vp_count_missing].
  destruct (tc_step m P key d cur Hc ltac:(lia) Hcur) as (nd & Hnd & _ & Hget & Hne).
  rewrite Hnd, obind_Some, Hget, obind_Some.
  destruct (P !! take (S d) (nibbles key)) as [c|] eqn:E; simpl.
  - rewrite (Hne c eq_refl). replace (Z.of_nat d + 1) with (Z.of_nat (S d)) by lia.
    destruct (IH (S d) c Hc) as (k & -> & ? & ?); [lia|done|].
    exists k. split_and!; [done|lia..|done].
  - exists (11 - Z.of_nat d). split_and!; [done|lia..|].
    intros _. by eapply (tc_path_none m P key (S d)).
Qed.

(** ** Pruning a path *)

(** The invariant after unlinking the empty node of [p ++ [x]]. *)
Section shrink.
Context (m m' : vipm_manager_t) (P : gmap (list Z) Z) (p : list Z) (par x node : Z)
  (pn pn' nd nd' : vipm_node_t).
Context (Hc : trie_core m P) (Hp : P !! p = Some par) (Hx : 0 ≤ x < 16)
  (Hq : P !! (p ++ [x]) = Some node).
Context (Hnd : aget (m_nodes m) node = Some nd) (Hempty : child_bitmap nd = 0)
  (Hpn : aget (m_nodes m) par = Some pn) (Hwf' : node_wf pn')
  (Hpay : payload pn' = payload pn)
  (Hch : ∀ k, 0 ≤ k < 16 → child pn' k = if decide (k = x) then None else child pn k).
Context (Hroot : m_root m' = m_root m) (Hlen : length (m_nodes m') = 256%nat)
  (Hfs : length (m_free_stack m') = 256%nat) (Hft : m_free_top m' = m_free_top m + 1)
  (Hcnt : m_node_count m' = m_node_count m - 1)
  (Hfree : free_nodes m' = free_nodes m ++ [node])
  (Hns : ∀ i, i ≠ node → aget (m_nodes m') i =
     if decide (par = i) then Some pn' else aget (m_nodes m) i).

Lemma shrink_leaf y : P !! ((p ++ [x]) ++ [y]) = None.
Proof.
  destruct (P !! ((p ++ [x]) ++ [y])) as [c|] eqn:E; [|done].
  destruct (tc_closed _ _ Hc _ _ _ E) as [Hy _].
  destruct (tc_node _ _ Hc _ _ Hq) as (nd0 & ? & Hok).
  assert (nd0 = nd) as -> by congruence.
  rewrite <-(no_child _ _ _ Hok) in E by done.
  rewrite (proj1 (bitmap_zero nd (no_wf _ _ _ Hok)) Hempty) in E by done. done.
Qed.

Lemma shrink_node q n :
  delete (p ++ [x]) P !! q = Some n →
  ∃ nd, aget (m_nodes m') n = Some nd ∧ node_ok (delete (p ++ [x]) P) q nd.
Proof.
  rewrite lookup_delete. case_decide as Hqp; [done|]. intros Hqn.
  assert (n ≠ node) as Hnn.
  { intros ->. by eapply Hqp, (tc_inj _ _ Hc). }
  rewrite Hns by done. destruct (tc_node _ _ Hc q n Hqn) as (nq & Hnq & Hok).
  destruct (decide (par = n)) as [<-|].
  - assert (q = p) as -> by (by eapply (tc_inj _ _ Hc)).
    assert (nq = pn) as -> by congruence. destruct Hok as [? Hc2 ? ?].
    exists pn'. split; [done|]. split; rewrite ?Hpay; try done.
    intros y Hy. rewrite Hch, lookup_delete by done.
    repeat case_decide; simplify_eq; try done. by apply Hc2.
  - exists nq. split; [done|]. destruct Hok as [? Hc2 ? ?]. split; try done.
    intros y Hy. rewrite lookup_delete_ne; [by apply Hc2|].
    intros [-> ->]%app_inj_tail. congruence.
Qed.

Lemma trie_core_shrink : trie_core m' (delete (p ++ [x]) P).
Proof.
  pose proof Hc as [Hrt Hinj Hb Hcl _ Hl Hfr Hct Hnd0 Hf].
  pose proof (size_pos_lookup _ _ _ Hq) as Hsz.
  assert (size (delete (p ++ [x]) P) = (size P - 1)%nat) as Hsd
    by (rewrite map_size_delete_Some by (by eexists); lia).
  assert (node ∉ free_nodes m) as Hnf by (intros Hin; by eapply (Hf node Hin)).
  split.
  - rewrite lookup_delete_ne by (by destruct p). by rewrite Hroot.
  - by apply map_inj_delete.
  - intros q n. rewrite lookup_delete. case_decide; [done|apply Hb].
  - intros q y c. rewrite !lookup_delete. case_decide as E; [done|].
    intros Hy. case_decide as E'; [|by eapply Hcl].
    subst q. by rewrite shrink_leaf in Hy.
  - apply shrink_node.
  - split; done.
  - rewrite Hsd, Hft. lia.
  - rewrite Hsd. lia.
  - rewrite Hfree. apply NoDup_app. split_and!; [done| |apply NoDup_singleton].
    intros i Hi Hi'. apply list_elem_of_singleton in Hi' as ->. done.
  - intros i Hi. rewrite Hfree in Hi.
    assert (0 ≤ i < VIPM_MAX_NODES ∧ ∀ q, delete (p ++ [x]) P !! q = Some i → False) as [? HH].
    { apply elem_of_app in Hi as [Hi|Hi]; [|apply list_elem_of_singleton in Hi as ->].
      - destruct (Hf i Hi) as [? Hni]. split; [done|]. intros q.
        rewrite lookup_delete. case_decide; [done|apply Hni].
      - split; [by eapply (Hb _ _ Hq)|]. intros q. rewrite lookup_delete. case_decide as E; [done|].
        intros Hqn. by eapply E, Hinj. }
    split; [done|]. intros q E. by eapply HH.
Qed.
End shrink.

(** [m'], [P'] are [m], [P] after removing empty nodes: a prefix disappears
    only if its node had no payload, and kept nodes keep theirs. *)
Record pruned (m m' : vipm_manager_t) (P P' : gmap (list Z) Z) : Prop := {
  p_core : trie_core m' P';
  p_rest : same_rest m m';
  p_sub : P' ⊆ P;
  p_gone : ∀ q n, P !! q = Some n → P' !! q = None →
    payload <$> aget (m_nodes m) n = Some VIPM_NULL_PAYLOAD;
  p_pay : ∀ q n, P' !! q = Some n →
    payload <$> aget (m_nodes m') n = payload <$> aget (m_nodes m) n
}.

Lemma pruned_refl m P : trie_core m P → pruned m m P P.
Proof. intros Hc. split; try done. congruence. Qed.

Lemma pruned_trans m1 m2 m3 P1 P2 P3 :
  pruned m1 m2 P1 P2 → pruned m2 m3 P2 P3 → pruned m1 m3 P1 P3.
Proof.
  intros H1 H2. split.
  - apply H2.
  - eapply same_rest_trans; [apply H1|apply H2].
  - etrans; [apply H2|apply H1].
  - intros q n Hq HN. destruct (P2 !! q) as [n'|] eqn:E.
    + pose proof (lookup_weaken _ _ _ _ E (p_sub _ _ _ _ H1)). simplify_eq.
      rewrite <-(p_pay _ _ _ _ H1 q n E). by eapply p_gone.
    + by eapply (p_gone _ _ _ _ H1).
  - intros q n Hq. pose proof (lookup_weaken _ _ _ _ Hq (p_sub _ _ _ _ H2)).
    by rewrite (p_pay _ _ _ _ H2 q), (p_pay _ _ _ _ H1 q).
Qed.

(** The computation of a pruning step on an empty node. *)
Lemma vp_prune_step_eq m P p par x node nd :
  trie_core m P → P !! p = Some par → 0 ≤ x < 16 → P !! (p ++ [x]) = Some node →
  aget (m_nodes m) node = Some nd → child_bitmap nd = 0 →
  payload nd = VIPM_NULL_PAYLOAD →
  ∃ m' pn pn', vp_prune_step m node par x = Some m' ∧
    aget (m_nodes m) par = Some pn ∧ node_wf pn' ∧ payload pn' = payload pn ∧
    (∀ k, 0 ≤ k < 16 → child pn' k = if decide (k = x) then None else child pn k) ∧
    same_rest m m' ∧ length (m_nodes m') = 256%nat ∧
    length (m_free_stack m') = 256%nat ∧ m_free_top m' = m_free_top m + 1 ∧
    m_node_count m' = m_node_count m - 1 ∧ free_nodes m' = free_nodes m ++ [node] ∧
    (∀ i, i ≠ node → aget (m_nodes m') i =
       if decide (par = i) then Some pn' else aget (m_nodes m) i).
Proof.
  intros Hc Hp Hx Hq Hnd Hbm Hpl.
  destruct (tc_node _ _ Hc p par Hp) as (pn & Hpn & Hok).
  destruct (vp_node_unset_spec pn x (no_wf _ _ _ Hok) Hx) as (pn' & Hun & Hwf & Hpay & Hch).
  destruct (tc_len _ _ Hc) as [Hln Hlf]. pose proof (tc_count _ _ Hc) as Hct.
  pose proof (tc_free_top _ _ Hc) as [Hft0 Hft]. unfold VIPM_MAX_NODES in Hft.
  pose proof (size_pos_lookup _ _ _ Hq) as Hsz.
  pose proof (aget_lt _ _ _ Hpn) as Hparl. pose proof (aget_lt _ _ _ Hnd) as Hndl.
  assert (par ≠ node) as Hne.
  { intros ->. pose proof (tc_inj _ _ Hc _ _ _ Hp Hq) as E.
    by apply (app_snoc_neq p p x). }
  destruct (aset (m_nodes m) par pn') as [ns|] eqn:E1; [|rewrite aset_in in E1 by lia; done].
  pose proof (aset_length _ _ _ _ E1) as Hl1.
  destruct (aset ns node (set_bitmap nd 0)) as [ns'|] eqn:E2;
    [|rewrite aset_in in E2 by lia; done].
  pose proof (aset_length _ _ _ _ E2) as Hl2.
  destruct (aset (m_free_stack m) (m_free_top m) node) as [fs|] eqn:E3;
    [|rewrite aset_in in E3 by lia; done].
  pose proof (aset_length _ _ _ _ E3) as Hl3.
  eexists (m <| m_nodes := ns' |> <| m_node_count := m_node_count m - 1 |>
             <| m_free_stack := fs |> <| m_free_top := m_free_top m + 1 |>), pn, pn'.
  split_and!; try done; simpl; try lia.
  - unfold vp_prune_step. rewrite Hnd, obind_Some, Hbm, Hpl, !Z.eqb_refl. cbn [andb].
    rewrite Hpn, obind_Some, Hun, obind_Some, E1, obind_Some.
    rewrite (aget_aset _ _ _ _ _ E1), decide_False, Hnd, obind_Some, E2, obind_Some by done.
    simpl. rewrite (proj2 (Z.ltb_lt 0 (m_node_count m))) by lia.
    unfold vp_node_free. simpl. rewrite E3, obind_Some, !u16_small by lia. done.
  - unfold free_nodes. simpl. apply aset_Some in E3 as [? ->].
    replace (Z.to_nat (m_free_top m + 1)) with (S (Z.to_nat (m_free_top m))) by lia.
    rewrite (take_S_r _ _ node) by (apply list_lookup_insert_eq; lia).
    by rewrite take_insert_ge by lia.
  - intros i Hi. rewrite (aget_aset _ _ _ _ _ E2), decide_False by done.
    apply (aget_aset _ _ _ _ _ E1).
Qed.

(** One step keeps the invariant; the exception to liveness moves to the
    parent. *)
Lemma vp_prune_step_spec m P p par x node :
  trie_core m P → P !! p = Some par → 0 ≤ x < 16 → P !! (p ++ [x]) = Some node →
  trie_live m P (p ++ [x]) →
  ∃ m' P', vp_prune_step m node par x = Some m' ∧ pruned m m' P P' ∧
    trie_live m' P' p ∧ (P' = P ∨ P' = delete (p ++ [x]) P).
Proof.
  intros Hc Hp Hx Hq Hlive.
  destruct (tc_node _ _ Hc _ _ Hq) as (nd & Hnd & Hok).
  destruct (decide (child_bitmap nd = 0 ∧ payload nd = VIPM_NULL_PAYLOAD)) as [[Hbm Hpl]|Hn].
  - destruct (vp_prune_step_eq m P p par x node nd) as (m' & pn & pn' & Hstep & Hpn & Hwf &
      Hpay & Hch & Hrest & Hlen & Hfs & Hft & Hct & Hfree & Hns); try done.
    exists m', (delete (p ++ [x]) P).
    assert (trie_core m' (delete (p ++ [x]) P)) as Hc'
      by (eapply (trie_core_shrink m); try done; by destruct Hrest).
    assert (∀ q n, delete (p ++ [x]) P !! q = Some n → n ≠ node ∧ P !! q = Some n) as Hkeep.
    { intros q n. rewrite lookup_delete. case_decide; [done|]. intros Hqn.
      split; [|done]. intros ->. by eapply H, (tc_inj _ _ Hc). }
    split_and!; [done| | |by right].
    + split; try done.
      * apply delete_subseteq.
      * intros q n Hqn. rewrite lookup_delete. case_decide; [|congruence].
        subst. intros _. simplify_eq. rewrite Hnd. simpl. by rewrite Hpl.
      * intros q n [Hnn Hqn]%Hkeep. rewrite Hns by done.
        case_decide; [|done]. subst. rewrite Hpn. simpl. by rewrite Hpay.
    + intros q n nq Hq0 Hqp [Hnn Hqn]%Hkeep Hnq. rewrite Hns in Hnq by done.
      case_decide; [subst; by destruct (Hqp (tc_inj _ _ Hc _ _ _ Hqn Hp))|].
      eapply (Hlive q); try done. intros ->. congruence.
  - exists m, P. split_and!; [|by apply pruned_refl| |by left].
    + unfold vp_prune_step. rewrite Hnd, obind_Some. case_if; [by destruct Hn|done].
    + intros q n nq Hq0 Hqp Hqn Hnq. destruct (decide (q = p ++ [x])) as [->|].
      * assert (nq = nd) as -> by congruence.
        destruct (decide (child_bitmap nd = 0)); [right|by left]. naive_solver.
      * by eapply Hlive.
Qed.

(** The stack of ancestors recorded by the descent. *)
Inductive path_stack (P : gmap (list Z) Z) : list Z → list (Z * Z) → Prop :=
  | path_stack_nil : path_stack P [] []
  | path_stack_cons p x par st :
      P !! p = Some par → 0 ≤ x < 16 → path_stack P p st →
      path_stack P (p ++ [x]) ((par, x) :: st).

Lemma path_stack_delete P p st q :
  path_stack P p st → (length p < length q)%nat → path_stack (delete q P) p st.
Proof.
  induction 1 as [|p x par st Hp Hx Hst IH]; intros Hl; [constructor|].
  rewrite length_app in Hl; simpl in Hl. constructor; [|done|apply IH; lia].
  rewrite lookup_delete_ne; [done|]. intros ->. lia.
Qed.

Lemma vp_prune_spec p st P : path_stack P p st → ∀ m P0 node,
  trie_core m P0 → path_stack P0 p st → P0 !! p = Some node → trie_live m P0 p →
  ∃ m' P', vp_prune st m node = Some m' ∧ pruned m m' P0 P' ∧ trie_live m' P' [].
Proof.
  intros Hst'. induction Hst' as [|p0 x par st0 _ Hx Hst IH]; intros m P0 node Hc Hst0 Hp Hl.
  - exists m, P0. split_and!; [done|by apply pruned_refl|done].
  - inversion Hst0 as [|p1 x1 par1 st1 Hpar Hx1 Hst1]; simplify_eq.
    match goal with H : _ ++ [_] = _ ++ [_] |- _ => apply app_inj_tail in H as [-> _] end.
    destruct (vp_prune_step_spec m P0 p0 par x node) as (m1 & P1 & Hstep & Hpr & Hl1 & HP1);
      try done.
    assert (path_stack P1 p0 st0 ∧ P1 !! p0 = Some par) as [Hst2 Hpar2].
    { destruct HP1 as [->| ->]; [done|]. split.
      - apply path_stack_delete; [done|]. rewrite length_app. simpl. lia.
      - rewrite lookup_delete_ne; [done|]. by apply app_snoc_neq. }
    destruct (IH m1 P1 par) as (m2 & P2 & Hpr2 & Hprd & Hl2); try done; [apply Hpr|].
    exists m2, P2. simpl. rewrite Hstep. simpl. split_and!; [done| |done].
    by eapply pruned_trans.
Qed.

Lemma vp_descend_spec m P key fuel : ∀ (d : nat) cur st,
  trie_core m P → (d + fuel = 11)%nat → P !! take d (nibbles key) = Some cur →
  path_stack P (take d (nibbles key)) st →
  ∃ r, vp_descend fuel m key (Z.of_nat d) cur st = Some r ∧
    match r with
    | None => P !! nibbles key = None
    | Some (st', cur') => P !! nibbles key = Some cur' ∧ path_stack P (nibbles key) st'
    end.
Proof.
  induction fuel as [|fuel IH]; intros d cur st Hc Hd Hcur Hst.
  { rewrite take_ge in Hcur, Hst by (rewrite length_nibbles; lia).
    exists (Some (st, cur)). by split_and!. }
  cbn [vp_descend].
  destruct (tc_step m P key d cur Hc ltac:(lia) Hcur) as (nd & Hnd & _ & Hget & Hne).
  rewrite Hnd, obind_Some, Hget, obind_Some.
  destruct (P !! take (S d) (nibbles key)) as [c|] eqn:E; simpl.
  - rewrite (Hne c eq_refl). replace (Z.of_nat d + 1) with (Z.of_nat (S d)) by lia.
    apply IH; [done|lia|done|]. rewrite nibbles_take_S by lia.
    constructor; [done|apply vp_nibble_range|done].
  - exists None. split; [done|]. by eapply (tc_path_none m P key (S d)).
Qed.
