(* ===== verification/VipmMap.v ===== *)
(** The trie operations of the volume index, [vipm_mapping_put],
    [vipm_mapping_get] and [vipm_mapping_remove], implement a finite map from
    44-bit keys to entry indices, and hold exactly the pool nodes the map needs. *)
From S2P Require Import Prelude Sutf8 VipmNode Vipm VipmTrie.

#[export] Instance key_ok_dec k : Decision (key_ok k).
Proof. unfold key_ok. apply _. Defined.

(** [m] stores the map [M]. *)
Record trie_rep (m : vipm_manager_t) (P : gmap (list Z) Z) (M : gmap Z Z) : Prop := {
  tr_core : trie_core m P;
  tr_live : trie_live m P [];
  tr_map : ∀ k, M !! k = if decide (key_ok k) then trie_lookup m P k else None
}.

Definition vipm_rep (m : vipm_manager_t) (M : gmap Z Z) : Prop :=
  m_initialized m = true ∧ ∃ P, trie_rep m P M.

Lemma tr_lookup m P M k : trie_rep m P M → key_ok k → trie_lookup m P k = M !! k.
Proof. intros Hr Hk. by rewrite (tr_map _ _ _ Hr), decide_True. Qed.

(** Invariants look only at the trie part of the manager. *)
Lemma trie_core_telemetry m P m' :
  m_nodes m' = m_nodes m → m_free_stack m' = m_free_stack m →
  m_free_top m' = m_free_top m → m_root m' = m_root m →
  m_node_count m' = m_node_count m → trie_core m P → trie_core m' P.
Proof.
  intros E1 E2 E3 E4 E5 [].
  split; rewrite ?E1, ?E2, ?E3, ?E4, ?E5; try done;
    unfold free_nodes in *; by rewrite E2, E3.
Qed.

(** ** Writing a payload *)
Section payload.
Context (m m' : vipm_manager_t) (P : gmap (list Z) Z) (key cur v : Z) (nd : vipm_node_t).
Context (Hc : trie_core m P) (Hk : key_ok key) (Hcur : P !! nibbles key = Some cur)
  (Hnd : aget (m_nodes m) cur = Some nd)
  (Hv : v = VIPM_NULL_PAYLOAD ∨ 0 ≤ v < VIPM_FVIP_MAX_ENTRIES)
  (Hns : aset (m_nodes m) cur (set_payload nd v) = Some (m_nodes m'))
  (E1 : m_free_stack m' = m_free_stack m) (E2 : m_free_top m' = m_free_top m)
  (E3 : m_root m' = m_root m) (E4 : m_node_count m' = m_node_count m).

Lemma payload_get i :
  aget (m_nodes m') i =
    if decide (cur = i) then Some (set_payload nd v) else aget (m_nodes m) i.
Proof. apply (aget_aset _ _ _ _ _ Hns). Qed.

Lemma payload_core : trie_core m' P.
Proof.
  pose proof Hc as [? Hinj ? ? Hn Hl ? ? ? ?].
  split; rewrite ?E1, ?E2, ?E3, ?E4; try done;
    try (unfold free_nodes in *; by rewrite E1, E2).
  - intros p n Hp. rewrite payload_get. destruct (Hn p n Hp) as (nq & Hnq & Hok).
    case_decide; [|by exists nq]. subst n. simplify_eq.
    eexists. split; [done|]. destruct Hok as [[? ?] ? ? ?].
    split; [by constructor|done| |done].
    assert (p = nibbles key) as -> by (by eapply Hinj).
    rewrite length_nibbles. lia.
  - by rewrite (aset_length _ _ _ _ Hns).
Qed.

Lemma payload_lookup k :
  key_ok k →
  trie_lookup m' P k =
    if decide (key = k) then (if v =? VIPM_NULL_PAYLOAD then None else Some v)
    else trie_lookup m P k.
Proof.
  intros Hk'. unfold trie_lookup. case_decide as E.
  - subst k. rewrite Hcur, obind_Some, payload_get, decide_True by done. done.
  - destruct (P !! nibbles k) as [n|] eqn:En; [|done]. simpl.
    rewrite payload_get, decide_False; [done|]. intros <-.
    apply E, nibbles_inj; [done..|]. by eapply (tc_inj _ _ Hc).
Qed.

Lemma payload_live tip :
  trie_live m P tip → tip = nibbles key →
  (v = VIPM_NULL_PAYLOAD → trie_live m' P tip) ∧
  (v ≠ VIPM_NULL_PAYLOAD → trie_live m' P []).
Proof.
  intros Hl ->. split.
  - intros _ p n np Hp0 Hp Hpn Hnp. rewrite payload_get in Hnp.
    case_decide; [|by eapply Hl]. subst n.
    destruct Hp. by eapply (tc_inj _ _ Hc).
  - intros Hne p n np Hp0 _ Hpn Hnp. rewrite payload_get in Hnp.
    case_decide; [simplify_eq; by right|]. eapply Hl; try done.
    intros ->. congruence.
Qed.
End payload.

(** Growing and pruning leave the stored map alone. *)
Lemma trie_lookup_payload m m' P P' k :
  (∀ n, P !! nibbles k = Some n → P' !! nibbles k = Some n ∧
     payload <$> aget (m_nodes m') n = payload <$> aget (m_nodes m) n) →
  (∀ n, P !! nibbles k = None → P' !! nibbles k = Some n →
     payload <$> aget (m_nodes m') n = Some VIPM_NULL_PAYLOAD) →
  trie_lookup m' P' k = trie_lookup m P k.
Proof.
  intros H1 H2. unfold trie_lookup. destruct (P !! nibbles k) as [n|] eqn:E.
  - destruct (H1 n eq_refl) as [-> Hp]. simpl.
    destruct (aget (m_nodes m) n) as [a|], (aget (m_nodes m') n) as [b|]; simpl in *;
      [|done..]. injection Hp as ->. done.
  - destruct (P' !! nibbles k) as [n|] eqn:E'; [|done]. simpl.
    specialize (H2 n eq_refl eq_refl). destruct (aget (m_nodes m') n); simpl in *; [|done].
    simplify_eq. by rewrite H2.
Qed.

Lemma grown_lookup key m m' P P' k :
  grown key m m' P P' → trie_lookup m' P' k = trie_lookup m P k.
Proof.
  intros Hg. apply trie_lookup_payload.
  - intros n Hn. split; [by eapply lookup_weaken, g_sub|by eapply g_pay].
  - intros n HN Hn. by eapply (g_new _ _ _ _ _ Hg).
Qed.

Lemma pruned_lookup m m' P P' k :
  pruned m m' P P' → trie_lookup m' P' k = trie_lookup m P k.
Proof.
  intros Hp. symmetry. apply trie_lookup_payload.
  - intros n Hn. split; [by eapply lookup_weaken, p_sub|]. symmetry. by eapply p_pay.
  - intros n HN Hn. by eapply (p_gone _ _ _ _ Hp).
Qed.

(** ** Initialisation *)
Definition init_prefixes : gmap (list Z) Z := {[ [] := 255 ]}.

Lemma vipm_init_manager_eq m :
  ∃ m', vipm_init_manager (Some m) = Some (Some m', VIPM_OK) ∧
    m_nodes m' = replicate 256 empty_node ∧ m_free_stack m' = seqZ 0 256 ∧
    m_free_top m' = 255 ∧ m_root m' = 255 ∧ m_node_count m' = 1 ∧
    m_initialized m' = true ∧
    m_volumes m' = (λ v, v <| v_registered := false |>) <$> m_volumes m ∧
    m_entries m' = (λ e, e <| e_occupied := false |>) <$> m_entries m ∧
    m_entry_count m' = 0 ∧ m_volume_count m' = 0.
Proof.
  unfold vipm_init_manager, vp_node_alloc.
  lazymatch goal with |- context [m_free_top ?r =? 0] => set (r0 := r) end.
  assert (m_free_top r0 = 256) as -> by done.
  assert (m_free_stack r0 = seqZ 0 256) as -> by done.
  assert (aget (seqZ 0 256) (u16 (256 - 1)) = Some 255) as -> by reflexivity.
  change (256 =? 0) with false. cbv iota. rewrite !obind_Some. cbv beta iota.
  change (255 =? VIPM_NULL_INDEX) with false. cbv iota.
  eexists. split; [reflexivity|]. by split_and!.
Qed.

Lemma init_free_nodes m' :
  m_free_stack m' = seqZ 0 256 → m_free_top m' = 255 → free_nodes m' = seqZ 0 255.
Proof. intros E1 E2. unfold free_nodes. rewrite E1, E2. reflexivity. Qed.

Lemma init_node m' (i : Z) :
  m_nodes m' = replicate 256 empty_node → 0 ≤ i < 256 →
  aget (m_nodes m') i = Some empty_node.
Proof.
  intros -> Hi. rewrite aget_to_nat by lia. apply lookup_replicate_2. lia.
Qed.

Lemma init_core m m' :
  vipm_init_manager (Some m) = Some (Some m', VIPM_OK) → trie_core m' init_prefixes.
Proof.
  destruct (vipm_init_manager_eq m) as (m0 & -> & Hns & Hfs & Hft & Hrt & Hct & _).
  intros [= <-]. unfold init_prefixes. split.
  - by rewrite lookup_singleton_eq, Hrt.
  - intros k1 k2 v. rewrite !lookup_singleton_Some. naive_solver.
  - intros p n [<- <-]%lookup_singleton_Some. simpl. unfold VIPM_MAX_NODES. lia.
  - intros p x c [E _]%lookup_singleton_Some. by destruct p.
  - intros p n [<- <-]%lookup_singleton_Some. exists empty_node.
    split; [apply init_node; (done || lia)|].
    split; [apply empty_node_wf| |done|by left].
    intros x Hx. by rewrite empty_node_child, lookup_singleton_ne.
  - by rewrite Hns, Hfs.
  - rewrite map_size_singleton, Hft. done.
  - by rewrite map_size_singleton, Hct.
  - rewrite init_free_nodes by done. apply NoDup_seqZ.
  - intros i. rewrite init_free_nodes by done. intros Hi%elem_of_seqZ.
    split; [unfold VIPM_MAX_NODES; lia|]. intros p [_ ?]%lookup_singleton_Some. lia.
Qed.

Lemma init_rep m m' :
  vipm_init_manager (Some m) = Some (Some m', VIPM_OK) → vipm_rep m' ∅.
Proof.
  intros Hi. pose proof (init_core m m' Hi) as Hc.
  destruct (vipm_init_manager_eq m) as (m0 & Hm0 & _ & _ & _ & _ & _ & Hin & _).
  assert (m0 = m') as <- by congruence. split; [done|].
  exists init_prefixes. split; [done| |].
  - intros p n nd Hp _ Hpn. unfold init_prefixes in Hpn.
    apply lookup_singleton_Some in Hpn as [<- _]. done.
  - intros k. rewrite lookup_empty. case_decide; [|done].
    unfold trie_lookup, init_prefixes.
    rewrite lookup_singleton_ne; [done|]. intros E%(f_equal length).
    by rewrite length_nibbles in E.
Qed.

(** A freshly initialised manager, for the witnesses. *)
Definition fresh_manager : vipm_manager_t :=
  match vipm_init_manager (Some zero_manager) with
  | Some (Some m, _) => m
  | _ => zero_manager
  end.

Lemma fresh_manager_rep : vipm_rep fresh_manager ∅.
Proof.
  destruct (vipm_init_manager_eq zero_manager) as (m' & Hi & _).
  apply (init_rep zero_manager). unfold fresh_manager. by rewrite Hi.
Qed.

(** [vipm_init_manager] on any storage yields the empty index: no key is
    mapped, 255 pool nodes are free, and no volume and no path is registered. *)
Theorem vipm_init_manager_empty m :
  ∃ m', vipm_init_manager (Some m) = Some (Some m', VIPM_OK) ∧ vipm_rep m' ∅ ∧
    m_free_top m' = 255 ∧ Forall (λ v, v_registered v = false) (m_volumes m') ∧
    Forall (λ e, e_occupied e = false) (m_entries m').
Proof.
  destruct (vipm_init_manager_eq m)
    as (m' & Hi & Hns & Hfs & Hft & Hrt & Hct & Hin & Hv & He & _).
  exists m'. split_and!; [done|by eapply init_rep|done|rewrite Hv|rewrite He];
    by apply Forall_fmap, Forall_true.
Qed.

(** ** Insertion *)

(** Storing a payload at the end of an existing path whose tip may be dead. *)
Lemma store_payload m P M key cur v nd ns :
  trie_core m P → trie_live m P (nibbles key) → key_ok key → 0 ≤ v < VIPM_FVIP_MAX_ENTRIES →
  (∀ k, M !! k = if decide (key_ok k) then trie_lookup m P k else None) →
  P !! nibbles key = Some cur → aget (m_nodes m) cur = Some nd →
  aset (m_nodes m) cur (set_payload nd v) = Some ns →
  trie_rep (m <| m_nodes := ns |> <| m_trie_inserts := u64 (m_trie_inserts m + 1) |>) P
    (<[key := v]> M).
Proof.
  intros Hc Hl Hk Hv Hmap Hcur Hnd Hns.
  set (m' := m <| m_nodes := ns |> <| m_trie_inserts := _ |>).
  assert (v ≠ VIPM_NULL_PAYLOAD) as Hne
    by (unfold VIPM_NULL_PAYLOAD, VIPM_FVIP_MAX_ENTRIES in *; lia).
  split.
  - by eapply (payload_core m m' P key cur v nd); try done; right.
  - eapply (payload_live m m' P key cur v nd); done.
  - intros k. rewrite lookup_insert, Hmap.
    destruct (decide (key_ok k)) as [Hk'|Hk'].
    + rewrite (payload_lookup m m' P key cur v nd) by done.
      by rewrite (proj2 (Z.eqb_neq _ _) Hne).
    + rewrite decide_False; [done|]. by intros ->.
Qed.

Lemma trie_lookup_eq m P key cur nd :
  P !! nibbles key = Some cur → aget (m_nodes m) cur = Some nd →
  trie_lookup m P key =
    if payload nd =? VIPM_NULL_PAYLOAD then None else Some (payload nd).
Proof. intros H1 H2. unfold trie_lookup. by rewrite H1, obind_Some, H2. Qed.

Lemma vipm_mapping_put_spec m P M key v :
  trie_rep m P M → m_initialized m = true → key_ok key → 0 ≤ v < VIPM_FVIP_MAX_ENTRIES →
  ∃ m' st, vipm_mapping_put (Some m) key v = Some (Some m', st) ∧ same_rest m m' ∧
    (st = VIPM_BAN_POOL_EXHAUSTED ∧ m' = m ∧ M !! key = None ∧ m_free_top m < VIPM_NIBBLES ∨
     st = (if M !! key is Some _ then VIPM_ERR_DUPLICATE_MAPPING else VIPM_OK) ∧
     ∃ P', trie_rep m' P' (<[key := v]> M)).
Proof.
  intros [Hc Hlive Hmap] Hi Hk Hv. unfold vipm_mapping_put. rewrite Hi. cbn [negb].
  rewrite (proj2 (vipm_key_valid_iff key ltac:(by destruct Hk)) Hk). cbn [negb].
  rewrite (proj2 (Z.leb_gt _ _)) by lia.
  destruct (vp_count_missing_total m P key 11 0 (m_root m) Hc) as (k & Hm & Hkr & Hmiss);
    [done|apply Hc|].
  change (Z.to_nat VIPM_NIBBLES) with 11%nat. change (Z.of_nat 0) with 0 in Hm.
  rewrite Hm, obind_Some.
  destruct (m_free_top m <? k) eqn:Hft; zbool.
  { exists m, VIPM_BAN_POOL_EXHAUSTED. split_and!; try done. left.
    split_and!; try done; [|unfold VIPM_NIBBLES; lia].
    pose proof (tc_free_top _ _ Hc) as [? _].
    rewrite Hmap, decide_True by done. unfold trie_lookup. by rewrite Hmiss by lia. }
  destruct (vp_put_walk_spec key 11 0 (m_root m) m P k)
    as (m' & P' & cur & Hw & Hg & Hcur & Hl'); try done; [apply Hc|].
  change (Z.of_nat 0) with 0 in Hw. rewrite Hw, obind_Some. cbv beta iota.
  pose proof (g_core _ _ _ _ _ Hg) as Hc'.
  destruct (tc_node _ _ Hc' _ _ Hcur) as (nd & Hnd & _). rewrite Hnd, obind_Some.
  destruct (aset (m_nodes m') cur (set_payload nd v)) as [ns|] eqn:Hns.
  2:{ rewrite aset_in in Hns by (by eapply aget_lt). done. }
  rewrite obind_Some. eexists _, _. split; [reflexivity|].
  split; [by destruct (g_rest _ _ _ _ _ Hg); split_and!; naive_solver|]. right. split.
  - rewrite Hmap, decide_True by done.
    rewrite <-(grown_lookup _ _ _ _ _ key Hg), (trie_lookup_eq _ _ _ _ _ Hcur Hnd).
    by destruct (payload nd =? VIPM_NULL_PAYLOAD).
  - exists P'. eapply store_payload; try done.
    intros k'. by rewrite Hmap, (grown_lookup _ _ _ _ _ k' Hg).
Qed.

(** [C1] Insertion refines the map update: on a well-formed index
    [vipm_mapping_put] never has undefined behaviour, and either reports the
    pool as exhausted and changes nothing, which is only possible for a new key
    with fewer than 11 free nodes, or maps the key to the index, reporting a
    duplicate exactly when the key was mapped before. Volumes and path entries
    are untouched. *)
Theorem vipm_mapping_put_refines m M key v :
  vipm_rep m M → key_ok key → 0 ≤ v < VIPM_FVIP_MAX_ENTRIES →
  ∃ m' st, vipm_mapping_put (Some m) key v = Some (Some m', st) ∧ same_rest m m' ∧
    (st = VIPM_BAN_POOL_EXHAUSTED ∧ m' = m ∧ M !! key = None ∧ m_free_top m < VIPM_NIBBLES ∨
     st = (if M !! key is Some _ then VIPM_ERR_DUPLICATE_MAPPING else VIPM_OK) ∧
     vipm_rep m' (<[key := v]> M)).
Proof.
  intros [Hi [P HP]] Hk Hv.
  destruct (vipm_mapping_put_spec m P M key v) as (m' & st & Hput & Hr & Hcase); try done.
  exists m', st. split_and!; try done.
  destruct Hcase as [?|[? ?]]; [by left|right]. split; [done|]. split; [|done].
  destruct Hr as (_ & _ & _ & _ & _ & ->). done.
Qed.

Lemma vipm_mapping_put_refines_witness :
  ∃ m' st, vipm_mapping_put (Some fresh_manager) 0x12345678901 7 = Some (Some m', st) ∧
    same_rest fresh_manager m' ∧
    (st = VIPM_BAN_POOL_EXHAUSTED ∧ m' = fresh_manager ∧ (∅ : gmap Z Z) !! 0x12345678901 = None ∧
       m_free_top fresh_manager < VIPM_NIBBLES ∨
     st = (if (∅ : gmap Z Z) !! 0x12345678901 is Some _
           then VIPM_ERR_DUPLICATE_MAPPING else VIPM_OK) ∧
     vipm_rep m' (<[0x12345678901 := 7]> ∅)).
Proof.
  apply (vipm_mapping_put_refines fresh_manager ∅ 0x12345678901 7);
    [apply fresh_manager_rep|unfold key_ok; lia|unfold VIPM_FVIP_MAX_ENTRIES; lia].
Defined.

(** ** Lookup *)

(** Lookup refines the map lookup: for a valid key [vipm_mapping_get]
    stores the mapped index and returns OK, or leaves the output alone and
    returns NOT_FOUND; the index itself is unchanged. *)
Theorem vipm_mapping_get_refines m M key out :
  vipm_rep m M → key_ok key →
  ∃ m', vipm_mapping_get (Some m) key (Some out) =
      Some (Some m', Some (default out (M !! key)),
            if M !! key is Some _ then VIPM_OK else VIPM_ERR_NOT_FOUND) ∧
    vipm_rep m' M ∧ same_rest m m'.
Proof.
  intros [Hi [P HP]] Hk. unfold vipm_mapping_get. rewrite Hi. cbn [negb].
  set (m' := m <| m_trie_lookups := _ |>).
  assert (trie_rep m' P M) as HP'.
  { destruct HP as [Hc ? ?]. split; [|done..].
    by eapply trie_core_telemetry; [..|exact Hc]. }
  rewrite (vp_trie_find_spec m' P key) by (done || apply HP').
  rewrite obind_Some, (tr_lookup _ _ _ _ HP' Hk).
  exists m'. split_and!; [by destruct (M !! key)|by split; eauto|by split_and!].
Qed.

Lemma vipm_mapping_get_refines_witness :
  ∃ m', vipm_mapping_get (Some fresh_manager) 5 (Some 0) =
      Some (Some m', Some (default 0 ((∅ : gmap Z Z) !! 5)),
            if (∅ : gmap Z Z) !! 5 is Some _ then VIPM_OK else VIPM_ERR_NOT_FOUND) ∧
    vipm_rep m' ∅ ∧ same_rest fresh_manager m'.
Proof.
  apply (vipm_mapping_get_refines fresh_manager ∅ 5 0);
    [apply fresh_manager_rep|unfold key_ok; lia].
Defined.

(** ** Removal *)
Lemma vipm_mapping_remove_spec m P M key :
  trie_rep m P M → m_initialized m = true → key_ok key →
  ∃ m', vipm_mapping_remove (Some m) key =
      Some (Some m', if M !! key is Some _ then VIPM_OK else VIPM_ERR_NOT_FOUND) ∧
    same_rest m m' ∧ (M !! key = None → m' = m) ∧ ∃ P', trie_rep m' P' (delete key M).
Proof.
  intros HP Hi Hk. pose proof HP as [Hc Hlive Hmap].
  unfold vipm_mapping_remove. rewrite Hi. cbn [negb].
  rewrite (proj2 (vipm_key_valid_iff key ltac:(by destruct Hk)) Hk). cbn [negb].
  destruct (vp_descend_spec m P key 11 0 (m_root m) [] Hc) as (r & Hd & Hr);
    [done|apply Hc|constructor|].
  change (Z.to_nat VIPM_NIBBLES) with 11%nat. change (Z.of_nat 0) with 0 in Hd.
  rewrite Hd, obind_Some.
  assert (M !! key = None → trie_rep m P (delete key M)) as Hsame.
  { intros HN. by rewrite delete_id. }
  destruct r as [[st cur]|].
  2:{ assert (M !! key = None) as HN.
      { rewrite <-(tr_lookup _ _ _ _ HP Hk). unfold trie_lookup. by rewrite Hr. }
      exists m. rewrite HN. split_and!; eauto with cmodel. }
  destruct Hr as [Hcur Hst]. destruct (tc_node _ _ Hc _ _ Hcur) as (nd & Hnd & _).
  pose proof (trie_lookup_eq _ _ _ _ _ Hcur Hnd) as Hl.
  rewrite (tr_lookup _ _ _ _ HP Hk) in Hl. rewrite Hnd, obind_Some.
  destruct (payload nd =? VIPM_NULL_PAYLOAD) eqn:Hp; rewrite Hl.
  { exists m. split_and!; eauto with cmodel. }
  destruct (aset (m_nodes m) cur (set_payload nd VIPM_NULL_PAYLOAD)) as [ns|] eqn:Hns.
  2:{ rewrite aset_in in Hns by (by eapply aget_lt). done. }
  rewrite obind_Some. set (m1 := m <| m_nodes := ns |> <| m_trie_removes := _ |>).
  assert (trie_core m1 P) as Hc1
    by (eapply (payload_core m m1 P key cur VIPM_NULL_PAYLOAD nd); try done; by left).
  assert (trie_live m1 P (nibbles key)) as Hl1.
  { eapply (payload_live m m1 P key cur VIPM_NULL_PAYLOAD nd); try done.
    intros p n np ? _. by apply Hlive. }
  destruct (vp_prune_spec (nibbles key) st P Hst m1 P cur)
    as (m2 & P2 & Hpr & Hprd & Hl2); try done.
  cbv zeta. rewrite Hpr, obind_Some. exists m2. split_and!; [done| |done|].
  { eapply same_rest_trans; [|apply Hprd]. by split_and!. }
  exists P2. split; [apply Hprd|done|]. intros k. rewrite lookup_delete, Hmap.
  destruct (decide (key_ok k)) as [Hk'|]; [|by case_decide].
  rewrite (pruned_lookup _ _ _ _ k Hprd).
  by rewrite (payload_lookup m m1 P key cur VIPM_NULL_PAYLOAD nd) by done.
Qed.

(** [C13] Removal refines the map deletion: [vipm_mapping_remove] returns OK
    when the key was mapped and NOT_FOUND, changing nothing, when it was not;
    afterwards exactly that key is gone. *)
Theorem vipm_mapping_remove_refines m M key :
  vipm_rep m M → key_ok key →
  ∃ m', vipm_mapping_remove (Some m) key =
      Some (Some m', if M !! key is Some _ then VIPM_OK else VIPM_ERR_NOT_FOUND) ∧
    same_rest m m' ∧ (M !! key = None → m' = m) ∧ vipm_rep m' (delete key M).
Proof.
  intros [Hi [P HP]] Hk.
  destruct (vipm_mapping_remove_spec m P M key) as (m' & Hrm & Hr & ? & HP'); try done.
  exists m'. split_and!; try done. split; [|done].
  destruct Hr as (_ & _ & _ & _ & _ & ->). done.
Qed.

Lemma vipm_mapping_remove_refines_witness :
  ∃ m', vipm_mapping_remove (Some fresh_manager) 5 =
      Some (Some m', if (∅ : gmap Z Z) !! 5 is Some _ then VIPM_OK else VIPM_ERR_NOT_FOUND) ∧
    same_rest fresh_manager m' ∧ ((∅ : gmap Z Z) !! 5 = None → m' = fresh_manager) ∧
    vipm_rep m' (delete 5 ∅).
Proof.
  apply (vipm_mapping_remove_refines fresh_manager ∅ 5);
    [apply fresh_manager_rep|unfold key_ok; lia].
Defined.

(** ** The pool holds exactly the nodes of the map *)

Definition of_nibbles (l : list Z) : Z := foldl (λ a x, 16 * a + x) 0 l.

Lemma of_nibbles_snoc l x : of_nibbles (l ++ [x]) = 16 * of_nibbles l + x.
Proof. unfold of_nibbles. by rewrite foldl_app. Qed.

Lemma of_nibbles_bound l :
  Forall (λ x, 0 ≤ x < 16) l → 0 ≤ of_nibbles l < 16 ^ Z.of_nat (length l).
Proof.
  induction l as [|x l IH] using rev_ind; [done|].
  intros [Hl Hx]%Forall_app. rewrite Forall_singleton in Hx. specialize (IH Hl).
  rewrite of_nibbles_snoc, length_app. simpl.
  replace (Z.of_nat (length l + 1)) with (Z.succ (Z.of_nat (length l))) by lia.
  rewrite Z.pow_succ_r by lia. lia.
Qed.

Lemma of_nibbles_digit l : Forall (λ x, 0 ≤ x < 16) l → ∀ (d : nat) x,
  l !! d = Some x →
  (of_nibbles l / 16 ^ (Z.of_nat (length l) - 1 - Z.of_nat d)) mod 16 = x.
Proof.
  induction l as [|y l IH] using rev_ind; [done|].
  intros [Hl Hy]%Forall_app d x Hd. rewrite Forall_singleton in Hy.
  rewrite of_nibbles_snoc, length_app. simpl.
  destruct (decide (d = length l)) as [->|Hne].
  - rewrite lookup_app_r, Nat.sub_diag in Hd by lia. simplify_eq/=.
    replace (_ - _ - _) with 0 by lia. rewrite Z.pow_0_r, Z.div_1_r. zdm.
  - assert (d < length l)%nat as Hlt.
    { apply lookup_lt_Some in Hd. rewrite length_app in Hd. simpl in Hd. lia. }
    rewrite lookup_app_l in Hd by done. rewrite <-(IH Hl d x Hd).
    replace (Z.of_nat (length l + 1) - 1 - Z.of_nat d)
      with (Z.succ (Z.of_nat (length l) - 1 - Z.of_nat d)) by lia.
    rewrite Z.pow_succ_r, <-Z.div_div by lia. do 2 f_equal. zdm.
Qed.

(** Every full-length nibble path is the path of a key. *)
Lemma nibbles_of_nibbles l :
  length l = 11%nat → Forall (λ x, 0 ≤ x < 16) l →
  key_ok (of_nibbles l) ∧ nibbles (of_nibbles l) = l.
Proof.
  intros Hlen Hl. pose proof (of_nibbles_bound l Hl) as Hb. rewrite Hlen in Hb.
  change (16 ^ Z.of_nat 11) with (2 ^ 44) in Hb. split; [done|]. apply list_eq. intros d.
  destruct (decide (d < 11)%nat).
  - rewrite nibbles_lookup by done. destruct (l !! d) as [x|] eqn:Hd.
    2:{ apply lookup_ge_None in Hd. lia. }
    f_equal. rewrite <-(of_nibbles_digit l Hl d x Hd), Hlen.
    unfold vp_nibble, VIPM_NIBBLES. rewrite u32_small by lia.
    change 0xF with (Z.ones 4). rewrite Z.land_ones, Z.shiftr_div_pow2 by lia.
    change 16 with (2 ^ 4). rewrite <-Z.pow_mul_r by lia. do 3 f_equal. lia.
  - rewrite !lookup_ge_None_2; rewrite ?length_nibbles; (done || lia).
Qed.

Lemma tc_forall m P p : trie_core m P → is_Some (P !! p) → Forall (λ x, 0 ≤ x < 16) p.
Proof.
  intros Hc. induction p as [|x p IH] using rev_ind; [constructor|].
  intros [c E]. destruct (tc_closed _ _ Hc _ _ _ E) as [? ?].
  apply Forall_app. split; [by apply IH|]. by apply Forall_singleton.
Qed.

(** Every node of the index lies on the path of a mapped key. *)
Lemma live_prefix m P M p : trie_rep m P M → is_Some (P !! p) → p ≠ [] →
  ∃ k, is_Some (M !! k) ∧ key_ok k ∧ p `prefix_of` nibbles k.
Proof.
  intros HP. pose proof HP as [Hc Hlive Hmap].
  remember (11 - length p)%nat as f eqn:Hf. revert p Hf.
  induction f as [f IH] using lt_wf_ind; intros p Hf [n Hn] Hp.
  destruct (tc_bound _ _ Hc _ _ Hn) as [_ Hlen].
  destruct (tc_node _ _ Hc _ _ Hn) as (nd & Hnd & Hok).
  destruct (decide (payload nd = VIPM_NULL_PAYLOAD)) as [Hpl|Hpl].
  - destruct (decide (child_bitmap nd = 0)) as [Hb|Hb].
    { by destruct (Hlive p n nd Hp Hp Hn Hnd). }
    assert (∃ x, 0 ≤ x < 16 ∧ is_Some (P !! (p ++ [x]))) as (x & Hx & Hc2).
    { destruct (decide (Forall (λ x, child nd x = None) (seqZ 0 16))) as [HF|HF].
      - exfalso. apply Hb, bitmap_zero; [apply Hok|]. intros x Hx.
        rewrite Forall_forall in HF. apply HF, elem_of_seqZ. lia.
      - apply not_Forall_Exists in HF; [|apply _]. apply Exists_exists in HF as (x & Hx & Hne).
        apply elem_of_seqZ in Hx. exists x. split; [lia|].
        rewrite <-(no_child _ _ _ Hok) by lia. by apply not_eq_None_Some. }
    assert (length (p ++ [x]) <= 11)%nat as Hl2
      by (destruct Hc2 as [c Hc2]; by eapply (tc_bound _ _ Hc)).
    rewrite length_app in Hl2. simpl in Hl2.
    destruct (IH (11 - length (p ++ [x]))%nat) with (p := p ++ [x]) as (k & ? & ? & Hpre);
      try done; [rewrite length_app; simpl; lia|by destruct p|].
    exists k. split_and!; try done. etrans; [|exact Hpre]. by apply prefix_app_r.
  - assert (length p = 11%nat) as Hl.
    { destruct (decide (length p < 11)%nat); [|lia]. by rewrite (no_inner _ _ _ Hok) in Hpl. }
    destruct (nibbles_of_nibbles p Hl) as [Hk Hnb]; [by eapply tc_forall|].
    exists (of_nibbles p). split_and!; [|done|by rewrite Hnb].
    rewrite <-(tr_lookup _ _ _ _ HP Hk), (trie_lookup_eq m P _ n nd) by (by rewrite ?Hnb).
    by rewrite (proj2 (Z.eqb_neq _ _) Hpl).
Qed.

Lemma rep_prefix m P M k p :
  trie_rep m P M → is_Some (M !! k) → p `prefix_of` nibbles k → is_Some (P !! p).
Proof.
  intros [Hc _ Hmap] [v Hv] [q Hq]. apply (tc_prefix m P p q Hc). rewrite <-Hq.
  rewrite Hmap in Hv. case_decide; [|done]. unfold trie_lookup in Hv.
  destruct (P !! nibbles k); [by eexists|done].
Qed.

Lemma rep_dom m1 m2 P1 P2 M :
  trie_rep m1 P1 M → trie_rep m2 P2 M → dom P1 = dom P2.
Proof.
  intros H1 H2. apply set_eq. intros p. rewrite !elem_of_dom.
  destruct (decide (p = [])) as [->|Hp].
  { split; intros _; eexists; [apply H2|apply H1]. }
  split; intros Hs; eapply live_prefix in Hs as (k & ? & _ & ?); try done;
    by eapply rep_prefix.
Qed.

Lemma rep_free_top m1 m2 M : vipm_rep m1 M → vipm_rep m2 M → m_free_top m1 = m_free_top m2.
Proof.
  intros [_ [P1 H1]] [_ [P2 H2]].
  pose proof (tc_free_top _ _ (tr_core _ _ _ H1)) as [_ E1].
  pose proof (tc_free_top _ _ (tr_core _ _ _ H2)) as [_ E2].
  rewrite <-(size_dom P1), (rep_dom _ _ _ _ _ H1 H2), size_dom in E1. lia.
Qed.

(** No pool node leaks: the number of free nodes depends only on the map
    the index stores, so adding a new key and removing it again, whatever
    nodes the two walks allocated and pruned, restores the free pool exactly. *)
Theorem vipm_put_remove_no_leak m M key v m1 :
  vipm_rep m M → key_ok key → 0 ≤ v < VIPM_FVIP_MAX_ENTRIES → M !! key = None →
  vipm_mapping_put (Some m) key v = Some (Some m1, VIPM_OK) →
  ∃ m2, vipm_mapping_remove (Some m1) key = Some (Some m2, VIPM_OK) ∧
    vipm_rep m2 M ∧ m_free_top m2 = m_free_top m.
Proof.
  intros Hm Hk Hv HN Hput. pose proof Hm as [Hi [P HP]].
  destruct (vipm_mapping_put_spec m P M key v) as (m' & st & Hput' & Hr & Hcase); try done.
  rewrite Hput in Hput'. simplify_eq. destruct Hcase as [(? & _)|(_ & P1 & HP1)]; [done|].
  assert (m_initialized m' = true) as Hi' by (by destruct Hr as (_ & _ & _ & _ & _ & ->)).
  destruct (vipm_mapping_remove_spec m' P1 (<[key := v]> M) key)
    as (m2 & Hrm & Hr2 & _ & P2 & HP2); try done.
  rewrite lookup_insert_eq in Hrm. rewrite delete_insert_id in HP2 by done.
  assert (vipm_rep m2 M).
  { split; [|by exists P2]. by destruct Hr2 as (_ & _ & _ & _ & _ & ->). }
  exists m2. split_and!; try done. by eapply rep_free_top.
Qed.

(** The fresh manager after mapping one key. *)
Definition one_key_manager : vipm_manager_t :=
  match vipm_mapping_put (Some fresh_manager) 0x12345678901 7 with
  | Some (Some m, _) => m
  | _ => fresh_manager
  end.

Lemma vipm_put_remove_no_leak_witness :
  ∃ m2, vipm_mapping_remove (Some one_key_manager) 0x12345678901 = Some (Some m2, VIPM_OK) ∧
    vipm_rep m2 ∅ ∧ m_free_top m2 = m_free_top fresh_manager.
Proof.
  apply (vipm_put_remove_no_leak fresh_manager ∅ 0x12345678901 7 one_key_manager);
    [apply fresh_manager_rep|unfold key_ok; lia|unfold VIPM_FVIP_MAX_ENTRIES; lia|
     apply lookup_empty|vm_compute; reflexivity].
Defined.
