(* ===== verification/VipmFvip.v ===== *)
(** Paths of the volume index (comparison, hashing, validation and storage of
    NUL-terminated names, the on-disk flag mapping) and the path table:
    [vipm_fvip_insert], [vipm_fvip_lookup] and [vipm_fvip_remove] keep the
    64-slot table and the trie in step, for byte offsets inside the 40-bit
    offset space. *)
From S2P Require Import Prelude Sutf8 VipmNode Vipm VipmTrie VipmMap.

(** ** Paths *)

(** ** Strings in buffers

    A path argument is a buffer [s ++ 0 :: y]: the string [s], its terminator
    and whatever follows it in memory. *)

Lemma vp_strlen_spec s y : cstr_ok s → vp_strlen (s ++ 0 :: y) = Some (Z.of_nat (length s)).
Proof.
  induction 1 as [|c s Hc Hs IH]; [done|]. cbn [app vp_strlen length].
  rewrite (proj2 (Z.eqb_neq c 0)) by lia. rewrite IH, obind_Some. f_equal. lia.
Qed.

(** The hash of a string. *)
Definition fnv1a64 (s : list Z) : Z :=
  foldl (λ h c, u64 (Z.lxor h (u8 c) * 0x100000001b3)) 0xcbf29ce484222325 s.

Lemma vp_fnv1a64_loop_spec s y : cstr_ok s → ∀ h, vp_fnv1a64_loop (s ++ 0 :: y) h =
  Some (foldl (λ h c, u64 (Z.lxor h (u8 c) * 0x100000001b3)) h s).
Proof.
  induction 1 as [|c s Hc Hs IH]; intros h; [done|]. cbn [app vp_fnv1a64_loop foldl].
  rewrite (proj2 (Z.eqb_neq c 0)) by lia. apply IH.
Qed.

Lemma vp_fnv1a64_spec s y : cstr_ok s → vp_fnv1a64 (s ++ 0 :: y) = Some (fnv1a64 s).
Proof. intros Hs. by apply vp_fnv1a64_loop_spec. Qed.

Lemma vp_path_equal_spec a x : cstr_ok a → ∀ b y, cstr_ok b →
  vp_path_equal (a ++ 0 :: x) (b ++ 0 :: y) = Some (bool_decide (a = b)).
Proof.
  induction 1 as [|c a Hc Ha IH]; intros b y Hb; (destruct Hb as [|d b Hd Hb]; cbn [app vp_path_equal]).
  - done.
  - rewrite (proj2 (Z.eqb_neq 0 d)) by lia. done.
  - rewrite (proj2 (Z.eqb_neq c 0)) by lia. done.
  - case_if.
    + by rewrite bool_decide_false by congruence.
    + subst d. rewrite (proj2 (Z.eqb_neq c 0)), IH by (done || lia). f_equal.
      apply bool_decide_ext. naive_solver.
Qed.

(** ** Validation *)

(** The decoder never looks past the terminator. *)
Lemma sutf8_cont_past s y n : ∀ i cp, 0 ≤ i ≤ Z.of_nat (length s) →
  sutf8_cont (s ++ 0 :: y) n i cp = sutf8_cont (s ++ [0]) n i cp.
Proof.
  induction n as [|n IH]; intros i cp Hi; [done|]. cbn [sutf8_cont].
  destruct (decide (i = Z.of_nat (length s))) as [->|Hne].
  - by rewrite !aget_app_here.
  - destruct (aget_is_Some s i) as [b Hb]; [lia|].
    rewrite !(aget_app_l s _ i b Hb), !obind_Some. case_if; [done|]. apply IH. lia.
Qed.

Lemma sutf8_next_past s y remaining :
  cstr_ok s → s ≠ [] →
  sutf8_next_codepoint (Some (s ++ 0 :: y)) remaining (Some 0) =
  sutf8_next_codepoint (Some (s ++ [0])) remaining (Some 0).
Proof.
  intros Hok Hne. destruct s as [|b s]; [done|]. unfold sutf8_next_codepoint.
  case_if; [done|]. change (aget ((b :: s) ++ 0 :: y) 0) with (Some b).
  change (aget ((b :: s) ++ [0]) 0) with (Some b). rewrite !obind_Some. case_if; [done|].
  unfold sutf8_decode_char, sutf8_decode. case_if; [done|].
  change (aget ((b :: s) ++ 0 :: y) 0) with (Some b).
  change (aget ((b :: s) ++ [0]) 0) with (Some b). rewrite !obind_Some.
  destruct (sutf8_lead b) as [[h len]|]; [|done]. case_if; [done|].
  rewrite (sutf8_cont_past (b :: s)) by (simpl; lia). done.
Qed.

(** The scan of a path reads only the string, always returns and stops at its
    end or at the first malformed byte. *)
Lemma vp_validate_loop_spec s y fuel : ∀ pos k,
  cstr_ok s → 0 ≤ pos ≤ Z.of_nat (length s) → Z.of_nat (length s) - pos < Z.of_nat fuel →
  vp_validate_loop fuel (s ++ 0 :: y) (Z.of_nat (length s)) pos k =
    vp_validate_loop fuel (s ++ [0]) (Z.of_nat (length s)) pos k ∧
  ∃ r, vp_validate_loop fuel (s ++ [0]) (Z.of_nat (length s)) pos k = Some r ∧
    (r = inl VIPM_ERR_INVALID_SUTF8 ∨ ∃ n, r = inr n).
Proof.
  induction fuel as [|fuel IH]; intros pos k Hs Hp Hf; [lia|]. cbn [vp_validate_loop].
  case_if; [|split; [done|]; eauto].
  rewrite !(drop_app_le s) by lia. set (t := drop (Z.to_nat pos) s).
  assert (cstr_ok t) as Ht by (by apply Forall_drop).
  assert (t ≠ []) as Hne.
  { intros E%(f_equal length). unfold t in E. rewrite length_drop in E. simpl in E. lia. }
  rewrite sutf8_next_past by done.
  destruct (sutf8_next_terminated t (Z.of_nat (length s) - pos) 0) as (adv & cp & -> & Hadv); [done|done|lia|].
  rewrite !obind_Some. case_if; [lia|]. case_if; [split; [done|]; eauto|].
  apply IH; [done|lia|lia].
Qed.

(** Validation as a function of the string: its code points, or an error. *)
Definition path_check (s : list Z) : Z + Z :=
  if VIPM_PATH_MAX <=? Z.of_nat (length s) then inl VIPM_ERR_PATH_TOO_LONG
  else default (inl 0) (vp_validate_loop (S (length s)) (s ++ [0]) (Z.of_nat (length s)) 0 0).

Lemma vp_validate_path_spec s y :
  cstr_ok s →
  vp_validate_path (s ++ 0 :: y) =
    Some (match path_check s with
          | inl st => inl st
          | inr n => inr (Z.of_nat (length s), n)
          end).
Proof.
  intros Hs. unfold vp_validate_path, path_check. rewrite vp_strlen_spec, obind_Some by done.
  case_if; [done|]. rewrite Nat2Z.id.
  destruct (vp_validate_loop_spec s y (S (length s)) 0 0) as (-> & r & -> & _); [done|lia|lia|].
  rewrite obind_Some. by destruct r.
Qed.

Lemma path_check_error s st : path_check s = inl st → cstr_ok s →
  st = VIPM_ERR_PATH_TOO_LONG ∨ st = VIPM_ERR_INVALID_SUTF8.
Proof.
  unfold path_check. case_if; [intros [= <-]; by left|]. intros E Hs. right.
  destruct (vp_validate_loop_spec s [] (S (length s)) 0 0) as (_ & r & Er & Hr); [done|lia|lia|].
  rewrite Er in E. simpl in E. destruct Hr as [->|[n ->]]; congruence.
Qed.

Lemma path_check_short s n : path_check s = inr n → (length s < 96)%nat.
Proof. unfold path_check, VIPM_PATH_MAX. case_if; [done|]. intros _. lia. Qed.

(** ** Stored paths *)
Definition path_field (s : list Z) : list Z := s ++ replicate (96 - length s) 0.

Lemma path_field_terminated s : (length s < 96)%nat →
  path_field s = s ++ 0 :: replicate (95 - length s) 0.
Proof.
  intros Hs. unfold path_field. replace (96 - length s)%nat with (S (95 - length s)) by lia. done.
Qed.

Lemma path_field_length s : (length s ≤ 96)%nat → length (path_field s) = 96%nat.
Proof. intros. unfold path_field. rewrite length_app, length_replicate. lia. Qed.

Lemma vp_store_path_spec s y dst :
  (length s < 96)%nat → length dst = 96%nat →
  vp_store_path (Z.of_nat (length s)) (s ++ 0 :: y) dst = Some (path_field s).
Proof.
  intros Hs Hd. unfold vp_store_path.
  rewrite copy_bytes_spec, obind_Some by (rewrite ?length_app; lia).
  rewrite take_app_length. change VIPM_PATH_MAX with 96.
  loop_inv (λ i d, ∃ k : nat, i = Z.of_nat (length s) + Z.of_nat k ∧
    d = s ++ replicate k 0 ++ drop (length s + k) dst) as (d & -> & k & Hk & ->).
  - exists 0%nat. split; [lia|]. simpl. by rewrite Nat.add_0_r.
  - intros i d Hi (k & -> & ->).
    destruct (lookup_lt_is_Some_2 dst (length s + k)) as [x Hx]; [lia|].
    rewrite (drop_lookup_cons dst _ x Hx), app_assoc.
    rewrite aset_app_at by (rewrite length_app, length_replicate; lia).
    eexists. split; [done|]. exists (S k). split; [lia|].
    rewrite <-app_assoc, replicate_S_end, <-app_assoc. simpl. do 4 f_equal. lia.
  - unfold path_field. f_equal. f_equal. replace k with (96 - length s)%nat by lia.
    rewrite drop_ge by lia. by rewrite app_nil_r.
Qed.

(** ** Storage flags *)

(** The index flags of an entry with the given attributes. *)
Definition index_flags (catalog deleted hidden readonly encrypted system : bool) : Z :=
  let bit (b : bool) x := if b then x else 0 in
  Z.lor (if catalog then VIPM_FLAG_CATALOG else VIPM_FLAG_FILE)
    (Z.lor (bit deleted VIPM_FLAG_DELETED)
      (Z.lor (Z.lor (bit hidden VIPM_FLAG_HIDDEN) (bit readonly VIPM_FLAG_READONLY))
        (Z.lor (bit encrypted VIPM_FLAG_ENCRYPTED) (bit system VIPM_FLAG_SYSTEM)))).

(** Index flags survive the trip through the on-disk entry type and
    security flags, except that a deleted catalog comes back as a deleted
    file: the stored type 0x82 no longer equals the catalog type. *)
Theorem vipm_flags_roundtrip catalog deleted hidden readonly encrypted system :
  (let '(et, sec) := vipm_flags_to_storage
     (index_flags catalog deleted hidden readonly encrypted system) (Some 0) (Some 0) in
   et ← et; sec ← sec; Some (vipm_flags_from_storage et sec)) =
  Some (index_flags (catalog && negb deleted) deleted hidden readonly encrypted system).
Proof. by destruct catalog, deleted, hidden, readonly, encrypted, system. Qed.

(** ** The path table *)

(** ** The abstract table *)
Record fentry := mk_fentry {
  f_vol : Z;
  f_path : list Z;
  f_off : Z;
  f_flags : Z
}.

Definition fkey (f : fentry) : Z := vipm_key_make (f_vol f) (f_off f).

(** A path a table can hold: volume and offset in range, a valid string. *)
Record fentry_ok (f : fentry) (cps : Z) : Prop := {
  fo_vol : 0 ≤ f_vol f < 16;
  fo_off : 0 ≤ f_off f < 2 ^ 40;
  fo_path : cstr_ok (f_path f);
  fo_check : path_check (f_path f) = inr cps
}.

(** How a slot stores an entry. *)
Definition slot_rep (t : option fentry) (e : vipm_fvip_entry_t) : Prop :=
  length (e_path e) = 96%nat ∧
  match t with
  | None => e_occupied e = false
  | Some f => ∃ cps, fentry_ok f cps ∧
      e = mk_entry (path_field (f_path f)) (f_off f) (f_flags f) cps (fnv1a64 (f_path f))
            (f_vol f) true
  end.

Definition occupied_slots (T : list (option fentry)) : list fentry := omap id T.

(** [fvip_rep m T]: the manager stores the table [T]; its trie maps the key of
    every entry to the slot of the entry, and nothing else. *)
Record fvip_rep (m : vipm_manager_t) (T : list (option fentry)) : Prop := {
  fr_slots : Forall2 slot_rep T (m_entries m);
  fr_len : length T = 64%nat;
  fr_count : m_entry_count m = Z.of_nat (length (occupied_slots T));
  fr_vols : length (m_volumes m) = 8%nat ∧
    Forall (λ v, v_registered v = true → 0 ≤ v_volume_id v < VIPM_MAX_VOLUMES) (m_volumes m);
  fr_trie : ∃ M, vipm_rep m M ∧
    ∀ k i, M !! k = Some i ↔ ∃ f, aget T i = Some (Some f) ∧ fkey f = k
}.

(** ** Keys *)
Lemma vipm_key_make_spec vol off :
  0 ≤ vol < 16 → 0 ≤ off < 2 ^ 40 → vipm_key_make vol off = vol * 2 ^ 40 + off.
Proof.
  intros Hv Ho. unfold vipm_key_make. change 0x0F with (Z.ones 4).
  change 0xFFFFFFFFFF with (Z.ones 40). rewrite !Z.land_ones by lia.
  rewrite (Z.mod_small vol), (Z.mod_small off) by (simpl in *; lia).
  by apply lor_shiftl_add.
Qed.

Lemma fkey_ok f cps : fentry_ok f cps → key_ok (fkey f).
Proof.
  intros [Hv Ho _ _]. unfold fkey, key_ok. rewrite vipm_key_make_spec by done.
  simpl in *. lia.
Qed.

Lemma fkey_inj f g cf cg : fentry_ok f cf → fentry_ok g cg → fkey f = fkey g →
  f_vol f = f_vol g ∧ f_off f = f_off g.
Proof.
  intros [Hv Ho _ _] [Hv' Ho' _ _]. unfold fkey. rewrite !vipm_key_make_spec by done.
  simpl in *. lia.
Qed.

(** ** Slots *)
Lemma slots_lookup T es (i : nat) t :
  Forall2 slot_rep T es → T !! i = Some t → ∃ e, es !! i = Some e ∧ slot_rep t e.
Proof. intros H Ht. by eapply Forall2_lookup_l. Qed.

Lemma slot_rep_path f e : slot_rep (Some f) e → ∀ s y, cstr_ok s →
  vp_path_equal (e_path e) (s ++ 0 :: y) = Some (bool_decide (f_path f = s)).
Proof.
  intros (_ & cps & [_ _ Hp Hc] & ->) s y Hs. simpl.
  rewrite path_field_terminated by (by eapply path_check_short).
  by apply vp_path_equal_spec.
Qed.

(** Scanning the table for an entry: the first slot that satisfies [p]. *)
Fixpoint scan (p : fentry → bool) (T : list (option fentry)) (i : Z) : option (Z * fentry) :=
  match T with
  | [] => None
  | Some f :: T => if p f then Some (i, f) else scan p T (i + 1)
  | None :: T => scan p T (i + 1)
  end.

Lemma scan_spec p T : ∀ i,
  match scan p T i with
  | Some (j, f) => i ≤ j < i + Z.of_nat (length T) ∧ aget T (j - i) = Some (Some f) ∧ p f = true
  | None => ∀ k f, aget T k = Some (Some f) → p f = false
  end.
Proof.
  induction T as [|t T IH]; intros i; cbn [scan].
  { intros k f Hk. apply aget_lt in Hk. simpl in Hk. lia. }
  assert (∀ k x, aget (t :: T) k = Some x → k = 0 ∧ x = t ∨ aget T (k - 1) = Some x) as Hcons.
  { intros k x [Hk Hx]%aget_Some. destruct (decide (k = 0)) as [->|]; [left; by injection Hx|right].
    apply aget_Some. split; [lia|]. by replace (Z.to_nat k) with (S (Z.to_nat (k - 1))) in Hx by lia. }
  assert (match scan p T (i + 1) with
          | Some (j, f) => i ≤ j < i + Z.of_nat (length (t :: T)) ∧
              aget (t :: T) (j - i) = Some (Some f) ∧ p f = true
          | None => ∀ k f, aget T k = Some (Some f) → p f = false
          end) as Hrest.
  { specialize (IH (i + 1)). destruct (scan p T (i + 1)) as [[j f]|]; [|done].
    destruct IH as (Hj & Hf & Hp). simpl. split_and!; [lia|lia| |done].
    apply aget_Some in Hf as [? Hf]. apply aget_Some. split; [lia|].
    by replace (Z.to_nat (j - i)) with (S (Z.to_nat (j - (i + 1)))) by lia. }
  destruct t as [f|].
  - destruct (p f) eqn:Hp.
    + rewrite Z.sub_diag. simpl. split_and!; [lia|lia|done|done].
    + destruct (scan p T (i + 1)) as [[j g]|]; [done|].
      intros k g [[_ [= ->]]|Hk]%Hcons; [done|by eapply Hrest].
  - destruct (scan p T (i + 1)) as [[j g]|]; [done|].
    intros k g [[_ ?]|Hk]%Hcons; [done|by eapply Hrest].
Qed.

(** The two C scans are [scan]. *)
Definition same_file (vol : Z) (s : list Z) (f : fentry) : bool :=
  (f_vol f =? vol) && bool_decide (f_path f = s).
Definition same_place (vol off : Z) (f : fentry) : bool :=
  (f_vol f =? vol) && (f_off f =? off).

Lemma vp_entry_find_spec T es vol s y :
  Forall2 slot_rep T es → cstr_ok s → ∀ i,
  ∃ r, vp_entry_find es i vol (s ++ 0 :: y) = Some r ∧
    match scan (same_file vol s) T i with
    | None => r = None
    | Some (j, f) => ∃ e, r = Some (j, e) ∧ slot_rep (Some f) e
    end.
Proof.
  intros H Hs. induction H as [|t e T es Ht _ IH]; intros i; [by exists None|].
  cbn [vp_entry_find scan]. destruct t as [f|].
  - pose proof (slot_rep_path f e Ht s y Hs) as Hp. pose proof Ht as (_ & cps & Hok & E).
    assert (e_occupied e = true ∧ e_volume_id e = f_vol f) as [-> ->] by (by rewrite E).
    unfold same_file. destruct (f_vol f =? vol); cbn [negb orb andb]; [|apply IH].
    rewrite Hp, obind_Some. case_bool_decide; cbn [negb]; [|apply IH].
    eexists. split; [done|]. by exists e.
  - destruct Ht as [_ ->]. apply IH.
Qed.

Lemma vp_collision_spec T es vol off s y :
  Forall2 slot_rep T es → cstr_ok s → ∀ i,
  vp_collision es vol off (s ++ 0 :: y) =
    Some (match scan (same_place vol off) T i with
          | None => None
          | Some (_, f) => Some (if bool_decide (f_path f = s) then VIPM_ERR_ALREADY_EXISTS
                                 else VIPM_ERR_DUPLICATE_MAPPING)
          end).
Proof.
  intros H Hs. induction H as [|t e T es Ht _ IH]; intros i; [done|].
  cbn [vp_collision scan]. destruct t as [f|].
  - pose proof (slot_rep_path f e Ht s y Hs) as Hp. pose proof Ht as (_ & cps & Hok & E).
    assert (e_occupied e = true ∧ e_volume_id e = f_vol f ∧ e_byte_offset e = f_off f) as (-> & -> & ->)
      by (by rewrite E).
    unfold same_place. destruct (f_vol f =? vol); cbn [negb orb andb]; [|apply IH].
    destruct (f_off f =? off); cbn [negb]; [|apply IH].
    by rewrite Hp, obind_Some.
  - destruct Ht as [_ ->]. apply IH.
Qed.

(** ** Counting *)
Lemma occupied_middle (T : list (option fentry)) i t :
  T !! i = Some t →
  occupied_slots T = occupied_slots (take i T) ++ option_list t ++ occupied_slots (drop (S i) T).
Proof.
  intros Ht. rewrite <-(take_drop_middle T i t Ht) at 1. unfold occupied_slots.
  rewrite omap_app. simpl. by destruct t.
Qed.

Lemma occupied_insert (T : list (option fentry)) i t u :
  T !! i = Some t →
  (length (occupied_slots (<[i := u]> T)) + length (option_list t) =
   length (occupied_slots T) + length (option_list u))%nat.
Proof.
  intros Ht. pose proof (lookup_lt_Some _ _ _ Ht).
  rewrite (occupied_middle T i t Ht), (occupied_middle (<[i := u]> T) i u)
    by (by apply list_lookup_insert_eq).
  rewrite take_insert_ge, drop_insert_lt, !length_app by lia. lia.
Qed.

(** ** Volumes *)
Definition registered (m : vipm_manager_t) (vol : Z) : Prop :=
  ∃ v, v ∈ m_volumes m ∧ v_registered v = true ∧ v_volume_id v = vol.

Lemma vp_volume_find_spec m T vol :
  fvip_rep m T →
  ∃ r, vp_volume_find m vol = Some r ∧
    match r with
    | Some _ => registered m vol ∧ 0 ≤ vol < 8
    | None => ¬ registered m vol
    end.
Proof.
  intros H. destruct (fr_vols _ _ H) as [Hl Hf]. unfold vp_volume_find.
  lazymatch goal with |- context [find_up ?n 0 ?l ?p] =>
    destruct (find_up_spec n 0 l p) as (r & -> & Hr); [done|rewrite Hl; done|] end.
  exists r. split; [done|]. destruct r as [j|].
  - destruct Hr as (_ & (v & [_ Hv]%aget_Some & [Hreg Hid]%andb_true_iff) & _).
    apply Z.eqb_eq in Hid. apply list_elem_of_lookup_2 in Hv as Hin.
    split; [by exists v|]. rewrite Forall_forall in Hf. specialize (Hf v Hin Hreg).
    unfold VIPM_MAX_VOLUMES in Hf. lia.
  - intros (v & Hv & Hreg & Hid). apply list_elem_of_lookup in Hv as [k Hk].
    pose proof (lookup_lt_Some _ _ _ Hk).
    assert (v_registered v && (v_volume_id v =? vol) = true) as Ht
      by (by rewrite Hreg; apply Z.eqb_eq).
    rewrite (Hr (Z.of_nat k) v) in Ht; [done| |by rewrite aget_of_nat].
    change (Z.to_nat VIPM_MAX_VOLUMES) with 8%nat. lia.
Qed.

(** ** Updating the table *)

(** A manager that differs outside trie, table and volumes stores the same. *)
Lemma vipm_rep_entries m m' M :
  vipm_rep m M → m_nodes m' = m_nodes m → m_free_stack m' = m_free_stack m →
  m_free_top m' = m_free_top m → m_root m' = m_root m → m_node_count m' = m_node_count m →
  m_initialized m' = m_initialized m → vipm_rep m' M.
Proof.
  intros [Hi [P [Hc Hl Hm]]] E1 E2 E3 E4 E5 E6. split; [congruence|]. exists P. split.
  - by eapply trie_core_telemetry.
  - intros p n nd. rewrite E1. apply Hl.
  - intros k. rewrite Hm. unfold trie_lookup. by rewrite E1.
Qed.

(** Replacing the content of slot [i]. *)
Lemma fvip_rep_update m T m' i t u e M' :
  fvip_rep m T → aget T i = Some t → slot_rep u e →
  m_entries m' = <[Z.to_nat i := e]> (m_entries m) → m_volumes m' = m_volumes m →
  m_entry_count m' = m_entry_count m + Z.of_nat (length (option_list u)) -
                     Z.of_nat (length (option_list t)) →
  vipm_rep m' M' →
  (∀ k j, M' !! k = Some j ↔ ∃ f, aget (<[Z.to_nat i := u]> T) j = Some (Some f) ∧ fkey f = k) →
  fvip_rep m' (<[Z.to_nat i := u]> T).
Proof.
  intros H Ht Hu Ee Ev Ec HM' Hiff. apply aget_Some in Ht as [Hi Ht].
  split; [| | | |by exists M'].
  - rewrite Ee. apply Forall2_insert; [apply (fr_slots _ _ H)|done].
  - rewrite length_insert. apply (fr_len _ _ H).
  - rewrite Ec, (fr_count _ _ H). pose proof (occupied_insert T (Z.to_nat i) t u Ht). lia.
  - rewrite Ev. apply (fr_vols _ _ H).
Qed.

(** Keys are unique, so the trie follows a table update. *)
Lemma trie_insert_slot m T (M : gmap Z Z) i f cps :
  fvip_rep m T → (∀ k j, M !! k = Some j ↔ ∃ g, aget T j = Some (Some g) ∧ fkey g = k) →
  aget T i = Some None → fentry_ok f cps → M !! fkey f = None →
  ∀ k j, <[fkey f := i]> M !! k = Some j ↔
    ∃ g, aget (<[Z.to_nat i := Some f]> T) j = Some (Some g) ∧ fkey g = k.
Proof.
  intros H HM Ht Hf Hnone k j. pose proof (aget_lt _ _ _ Ht).
  rewrite lookup_insert, aget_insert by done. destruct (decide (fkey f = k)) as [<-|Hk].
  - split; [intros [= <-]; exists f; by rewrite decide_True|].
    intros (g & Hg & Eg). destruct (decide (i = j)) as [->|]; [done|].
    assert (M !! fkey f = Some j) as E by (apply HM; by exists g). congruence.
  - rewrite HM. destruct (decide (i = j)) as [->|]; [|done].
    split; intros (g & Hg & Eg); simplify_eq.
Qed.

Lemma trie_delete_slot m T (M : gmap Z Z) i f cps :
  fvip_rep m T → (∀ k j, M !! k = Some j ↔ ∃ g, aget T j = Some (Some g) ∧ fkey g = k) →
  aget T i = Some (Some f) → fentry_ok f cps →
  ∀ k j, delete (fkey f) M !! k = Some j ↔
    ∃ g, aget (<[Z.to_nat i := None]> T) j = Some (Some g) ∧ fkey g = k.
Proof.
  intros H HM Ht Hf k j. pose proof (aget_lt _ _ _ Ht).
  rewrite lookup_delete, aget_insert by done.
  assert (M !! fkey f = Some i) as Ei by (apply HM; by exists f).
  destruct (decide (fkey f = k)) as [<-|Hk].
  - split; [done|]. intros (g & Hg & Eg). destruct (decide (i = j)); [done|].
    assert (M !! fkey f = Some j) as E by (apply HM; by exists g). congruence.
  - rewrite HM. destruct (decide (i = j)) as [->|]; [|done].
    split; intros (g & Hg & Eg); [|done]. congruence.
Qed.

Lemma occupied_bound T : (length (occupied_slots T) ≤ length T)%nat.
Proof. induction T as [|[f|] T IH]; simpl; lia. Qed.

(** ** Operations *)

(** Why an insertion may be refused. *)
Definition insert_refused (m : vipm_manager_t) (T : list (option fentry)) (vol : Z)
    (s : list Z) (off st : Z) : Prop :=
  st = VIPM_ERR_NOT_FOUND ∧ ¬ registered m vol ∨
  st = VIPM_ERR_ALREADY_EXISTS ∧ (∃ i f, aget T i = Some (Some f) ∧
     f_vol f = vol ∧ f_off f = off ∧ f_path f = s) ∨
  st = VIPM_ERR_DUPLICATE_MAPPING ∧ (∃ i f, aget T i = Some (Some f) ∧
     f_vol f = vol ∧ f_off f = off ∧ f_path f ≠ s) ∨
  path_check s = inl st ∨
  st = VIPM_ERR_TABLE_FULL ∧ (∀ i, aget T i ≠ Some None) ∨
  st = VIPM_BAN_POOL_EXHAUSTED ∧ m_free_top m < VIPM_NIBBLES.

(** The free-slot search of [vipm_fvip_insert]. *)
Lemma free_slot_spec T es :
  Forall2 slot_rep T es → length T = 64%nat →
  ∃ r, find_up (Z.to_nat VIPM_FVIP_MAX_ENTRIES) 0 es (λ e, negb (e_occupied e)) = Some r ∧
    match r with
    | Some i => 0 ≤ i < 64 ∧ aget T i = Some None ∧ ∀ k, 0 ≤ k < i → aget T k ≠ Some None
    | None => ∀ k, aget T k ≠ Some None
    end.
Proof.
  intros H Hl. pose proof (Forall2_length _ _ _ H) as Hl'.
  assert (∀ k t, aget T k = Some t → ∃ e, aget es k = Some e ∧
    negb (e_occupied e) = bool_decide (t = None)) as Hocc.
  { intros k t [Hk Ht]%aget_Some. destruct (slots_lookup _ _ _ _ H Ht) as (e & He & Hs).
    exists e. rewrite aget_to_nat by done. split; [done|]. destruct t as [f|].
    - destruct Hs as (_ & cps & _ & ->). done.
    - by destruct Hs as [_ ->]. }
  destruct (find_up_spec (Z.to_nat VIPM_FVIP_MAX_ENTRIES) 0 es (λ e, negb (e_occupied e)))
    as (r & -> & Hr); [done|by rewrite <-Hl', Hl|].
  assert (Z.of_nat (Z.to_nat VIPM_FVIP_MAX_ENTRIES) = 64) as E64 by done. rewrite E64 in Hr.
  exists r. split; [done|]. destruct r as [i|].
  - destruct Hr as (Hi & (e & He & Hn) & Hlt). split; [lia|].
    destruct (aget_is_Some T i) as [t Ht]; [lia|]. destruct (Hocc i t Ht) as (e' & He' & Hb).
    assert (e' = e) as -> by congruence. rewrite Hn in Hb. symmetry in Hb.
    apply bool_decide_eq_true in Hb as ->. split; [done|]. intros k Hk Hkn.
    destruct (Hocc k None Hkn) as (ek & Hek & Hbk). rewrite (Hlt k ek) in Hbk; [done|lia|done].
  - intros k Hkn. pose proof (aget_lt _ _ _ Hkn). destruct (Hocc k None Hkn) as (ek & Hek & Hbk).
    rewrite (Hr k ek) in Hbk; [done|lia|done].
Qed.

Lemma slot_unoccupied e : length (e_path e) = 96%nat →
  slot_rep None (e <| e_occupied := false |>).
Proof. done. Qed.

(** The table lookup in an occupied slot of the trie's range. *)
Lemma fkey_free m T M vol off s :
  fvip_rep m T → (∀ k j, M !! k = Some j ↔ ∃ g, aget T j = Some (Some g) ∧ fkey g = k) →
  0 ≤ vol < 16 → 0 ≤ off < 2 ^ 40 → scan (same_place vol off) T 0 = None →
  ∀ flags, (M : gmap Z Z) !! fkey (mk_fentry vol s off flags) = None.
Proof.
  intros H HM Hv Ho Hscan flags. destruct (M !! _) as [j|] eqn:E; [|done].
  apply HM in E as (g & Hg & Eg). pose proof (scan_spec (same_place vol off) T 0) as Hs.
  rewrite Hscan in Hs. specialize (Hs j g Hg). apply aget_Some in Hg as [_ Hg].
  destruct (slots_lookup _ _ _ _ (fr_slots _ _ H) Hg) as (e & _ & _ & cps & [Hgv Hgo _ _] & _).
  unfold fkey in Eg. simpl in Eg. rewrite !vipm_key_make_spec in Eg by done.
  unfold same_place in Hs. simpl in *.
  assert (f_vol g = vol ∧ f_off g = off) as [Ev Eo] by lia. rewrite Ev, Eo, !Z.eqb_refl in Hs. done.
Qed.

(** The mutating tail of [vipm_fvip_insert]: slot [i] is filled, the key is
    mapped, and a failure to map it rolls the slot back. *)
Lemma insert_store_spec m T M f cps i e0 :
  fvip_rep m T → vipm_rep m M →
  (∀ k j, (M : gmap Z Z) !! k = Some j ↔ ∃ g, aget T j = Some (Some g) ∧ fkey g = k) →
  aget T i = Some None → 0 ≤ i < 64 → m_entries m !! Z.to_nat i = Some e0 →
  fentry_ok f cps → M !! fkey f = None →
  let e := mk_entry (path_field (f_path f)) (f_off f) (f_flags f) cps (fnv1a64 (f_path f))
             (f_vol f) true in
  let m1 := m <| m_entries := <[Z.to_nat i := e]> (m_entries m) |>
              <| m_entry_count := u16 (m_entry_count m + 1) |> in
  ∃ m' st,
    ('(mgr, st) ← vipm_mapping_put (Some m1) (fkey f) i;
     m ← mgr;
     if negb (st =? VIPM_OK) then
       es ← aset (m_entries m) i (e <| e_occupied := false |>);
       Some (Some (m <| m_entries := es |> <| m_entry_count := u16 (m_entry_count m - 1) |>), st)
     else Some (Some m, VIPM_OK)) = Some (Some m', st) ∧
    m_volumes m' = m_volumes m ∧
    (st = VIPM_OK ∧ fvip_rep m' (<[Z.to_nat i := Some f]> T) ∨
     st = VIPM_BAN_POOL_EXHAUSTED ∧ fvip_rep m' T ∧ m_free_top m < VIPM_NIBBLES).
Proof.
  intros H HM Hiff Hti Hi He Hf Hnone e m1. pose proof (fr_len _ _ H) as HlT.
  pose proof (Forall2_length _ _ _ (fr_slots _ _ H)) as Hlen. rewrite HlT in Hlen.
  pose proof (occupied_bound T) as Hob. pose proof (fr_count _ _ H) as Hcnt.
  assert (length (path_field (f_path f)) = 96%nat) as Hpf.
  { apply path_field_length. apply Nat.lt_le_incl. eapply path_check_short, (fo_check _ _ Hf). }
  assert (u16 (m_entry_count m + 1) = m_entry_count m + 1) as Eu by (apply u16_small; lia).
  assert (vipm_rep m1 M) as [Hi1 [P HP]] by (by eapply vipm_rep_entries).
  destruct (vipm_mapping_put_spec m1 P M (fkey f) i HP Hi1) as (m2 & st & -> & Hrest & Hcase);
    [by eapply fkey_ok|done|]. rewrite obind_Some. simpl (Some m2 ≫= _).
  destruct Hcase as [(-> & -> & _ & Hft)|(-> & P' & HP')].
  - rewrite aset_in, obind_Some by (unfold m1; simpl; rewrite length_insert; lia).
    eexists _, _. split; [done|]. split; [done|]. right. split; [done|]. split; [|done].
    rewrite <-(list_insert_id T (Z.to_nat i) None) by (by apply aget_Some in Hti as [_ ?]).
    eapply (fvip_rep_update m T _ i None None (e <| e_occupied := false |>) M);
      [done|done|by apply slot_unoccupied|by simpl; rewrite list_insert_insert_eq|done| |
       by eapply vipm_rep_entries|].
    + simpl. rewrite Eu. rewrite u16_small by lia. lia.
    + rewrite list_insert_id by (by apply aget_Some in Hti as [_ ?]). done.
  - rewrite Hnone. cbn [negb Z.eqb VIPM_OK]. eexists _, _. split; [done|].
    destruct Hrest as (_ & Ev & _ & Ee & Ec & Ei). split; [by rewrite Ev|]. left. split; [done|].
    eapply (fvip_rep_update m T m2 i None (Some f) e (<[fkey f := i]> M));
      [done|done|by split; [|exists cps]|by rewrite Ee|by rewrite Ev| | |].
    + rewrite Ec. simpl. lia.
    + split; [congruence|by exists P'].
    + by eapply trie_insert_slot.
Qed.

Lemma fvip_insert_spec m T vol s y off flags :
  fvip_rep m T → cstr_ok s → 0 ≤ vol → 0 ≤ off < 2 ^ 40 →
  ∃ m' st, vipm_fvip_insert (Some m) vol (Some (s ++ 0 :: y)) off flags = Some (Some m', st) ∧
    m_volumes m' = m_volumes m ∧
    (st = VIPM_OK ∧ (∃ i, aget T i = Some None ∧ (∀ k, 0 ≤ k < i → aget T k ≠ Some None) ∧
       fvip_rep m' (<[Z.to_nat i := Some (mk_fentry vol s off flags)]> T)) ∨
     st ≠ VIPM_OK ∧ fvip_rep m' T ∧ insert_refused m T vol s off st).
Proof.
  intros H Hs Hv0 Ho. destruct (fr_trie _ _ H) as (M & HM & Hiff). pose proof HM as [Hinit _].
  unfold vipm_fvip_insert. rewrite Hinit. cbn [negb].
  assert (key_ok (vipm_key_make vol off)) as Hkey.
  { unfold vipm_key_make, key_ok. change 0x0F with (Z.ones 4). change 0xFFFFFFFFFF with (Z.ones 40).
    rewrite !Z.land_ones, lor_shiftl_add by (try apply Z.mod_pos_bound; lia).
    pose proof (Z.mod_pos_bound vol (2 ^ 4) ltac:(lia)).
    pose proof (Z.mod_pos_bound off (2 ^ 40) ltac:(lia)). simpl in *. lia. }
  rewrite (proj2 (vipm_key_valid_iff _ ltac:(by destruct Hkey)) Hkey). cbn [negb].
  destruct (vp_volume_find_spec m T vol H) as (r & -> & Hr). rewrite obind_Some.
  destruct r as [vs|].
  2:{ exists m, VIPM_ERR_NOT_FOUND. split_and!; [done..|]. right. split_and!; [done|done|]. by left. }
  destruct Hr as [Hreg Hv].
  rewrite (vp_collision_spec T _ vol off s y (fr_slots _ _ H) Hs 0), obind_Some.
  pose proof (scan_spec (same_place vol off) T 0) as Hsc.
  destruct (scan (same_place vol off) T 0) as [[j f]|] eqn:Esc.
  { destruct Hsc as (_ & Hf & [Ev Eo]%andb_true_iff). rewrite Z.sub_0_r in Hf.
    apply Z.eqb_eq in Ev, Eo. eexists m, _. split_and!; [done..|]. right.
    case_bool_decide; (split_and!; [done|done|]); [right; left|right; right; left];
      (split; [done|]); by exists j, f. }
  rewrite vp_validate_path_spec, obind_Some by done.
  destruct (path_check s) as [st|cps] eqn:Ec.
  { exists m, st. split_and!; [done..|]. right. split_and!; [|done|by do 3 right; left].
    by destruct (path_check_error _ _ Ec Hs) as [->| ->]. }
  destruct (free_slot_spec T (m_entries m) (fr_slots _ _ H) (fr_len _ _ H)) as (r & -> & Hr).
  rewrite obind_Some. destruct r as [i|].
  2:{ eexists m, _. split_and!; [done..|]. right. split_and!; [done|done|]. by do 4 right; left. }
  destruct Hr as (Hi & Hti & Hfirst).
  destruct (slots_lookup _ _ _ _ (fr_slots _ _ H) (proj2 (proj1 (aget_Some _ _ _) Hti)))
    as (e & He & [Hel _]).
  pose proof (Forall2_length _ _ _ (fr_slots _ _ H)) as Hlen. rewrite (fr_len _ _ H) in Hlen.
  rewrite aget_to_nat, He, obind_Some by lia.
  rewrite vp_store_path_spec, obind_Some by (by eapply path_check_short || done).
  rewrite vp_fnv1a64_spec, obind_Some, aset_in, obind_Some by (done || lia). cbv zeta.
  set (f := mk_fentry vol s off flags).
  assert (fentry_ok f cps) as Hf by (split; [simpl; lia|done|done|done]).
  destruct (insert_store_spec m T M f cps i e) as (m' & st & E & Ev & Hcase); try done.
  { eapply (fkey_free m T M vol off s); try done. lia. }
  exists m', st. split_and!; [exact E|done|].
  destruct Hcase as [[-> Hr]|(-> & Hr & Hft)]; [left|right]; (split; [done|]).
  - by exists i.
  - split; [done|]. by do 5 right.
Qed.

(** Telemetry does not matter. *)
Lemma fvip_rep_telemetry m m' T :
  fvip_rep m T → m_nodes m' = m_nodes m → m_free_stack m' = m_free_stack m →
  m_free_top m' = m_free_top m → m_root m' = m_root m → m_node_count m' = m_node_count m →
  m_initialized m' = m_initialized m → m_entries m' = m_entries m →
  m_entry_count m' = m_entry_count m → m_volumes m' = m_volumes m → fvip_rep m' T.
Proof.
  intros [Hs Hl Hc Hv (M & HM & Hiff)] E1 E2 E3 E4 E5 E6 E7 E8 E9.
  split; rewrite ?E7, ?E8, ?E9; try done. exists M. split; [by eapply vipm_rep_entries|done].
Qed.

(** Inserting a path refines the table update: with the byte offset in
    the 40-bit space, [vipm_fvip_insert] either fills the first free slot, or
    reports one of its documented errors for its documented reason and leaves
    table and trie as they were, the roll-back after pool exhaustion included. *)
Theorem vipm_fvip_insert_refines m T vol s y off flags :
  fvip_rep m T → cstr_ok s → 0 ≤ vol → 0 ≤ off < 2 ^ 40 →
  ∃ m' st, vipm_fvip_insert (Some m) vol (Some (s ++ 0 :: y)) off flags = Some (Some m', st) ∧
    (st = VIPM_OK ∧ (∃ i, aget T i = Some None ∧ (∀ k, 0 ≤ k < i → aget T k ≠ Some None) ∧
       fvip_rep m' (<[Z.to_nat i := Some (mk_fentry vol s off flags)]> T)) ∨
     st ≠ VIPM_OK ∧ fvip_rep m' T ∧ insert_refused m T vol s off st).
Proof.
  intros H Hs Hv Ho.
  destruct (fvip_insert_spec m T vol s y off flags H Hs Hv Ho) as (m' & st & E & _ & Hc).
  by exists m', st.
Qed.

(** Looking a path up finds the first slot that holds it and returns its
    entry, and NOT_FOUND when no slot does; the hash, the code point count and
    the trie never contradict the table. *)
Theorem vipm_fvip_lookup_refines m T vol s y out :
  fvip_rep m T → cstr_ok s →
  ∃ m', fvip_rep m' T ∧
    match scan (same_file vol s) T 0 with
    | Some (i, f) => ∃ e, slot_rep (Some f) e ∧
        vipm_fvip_lookup (Some m) vol (Some (s ++ 0 :: y)) (Some out) =
          Some (Some m', Some e, VIPM_OK)
    | None => vipm_fvip_lookup (Some m) vol (Some (s ++ 0 :: y)) (Some out) =
        Some (Some m', Some out, VIPM_ERR_NOT_FOUND)
    end.
Proof.
  intros H Hs. destruct (fr_trie _ _ H) as (M & [Hinit [P HP]] & Hiff).
  unfold vipm_fvip_lookup. rewrite Hinit. cbn [negb].
  destruct (vp_entry_find_spec T (m_entries m) vol s y (fr_slots _ _ H) Hs 0) as (r & -> & Hr).
  rewrite obind_Some. pose proof (scan_spec (same_file vol s) T 0) as Hsc.
  destruct (scan (same_file vol s) T 0) as [[i f]|].
  2:{ subst r. eexists. split; [|done]. by eapply fvip_rep_telemetry. }
  destruct Hr as (e & -> & He). destruct Hsc as (_ & Hf & [Ev Ep]%andb_true_iff).
  rewrite Z.sub_0_r in Hf. apply Z.eqb_eq in Ev. apply bool_decide_eq_true in Ep.
  pose proof He as (_ & cps & Hok & Ee).
  rewrite vp_fnv1a64_spec, obind_Some by done.
  assert (e_path_hash e = fnv1a64 s ∧ e_codepoint_meta e = cps ∧ e_byte_offset e = f_off f)
    as (-> & -> & ->) by (by rewrite Ee, <-Ep).
  rewrite Z.eqb_refl. cbn [negb]. rewrite vp_validate_path_spec, obind_Some by done.
  rewrite <-Ep, (fo_check _ _ Hok), Z.eqb_refl. cbn [negb].
  assert (key_ok (vipm_key_make vol (f_off f))) as Hk by (rewrite <-Ev; by eapply (fkey_ok f)).
  rewrite (vp_trie_find_spec m P _ (tr_core _ _ _ HP) Hk), obind_Some, (tr_lookup _ _ _ _ HP Hk).
  assert (M !! vipm_key_make vol (f_off f) = Some i) as ->.
  { apply Hiff. exists f. by rewrite <-Ev. }
  rewrite Z.eqb_refl. cbn [negb]. eexists. split; [|by exists e]. by eapply fvip_rep_telemetry.
Qed.

(** Removing a path empties the first slot that holds it and unmaps its
    key, and changes nothing but reports NOT_FOUND when no slot holds it. *)
Theorem vipm_fvip_remove_refines m T vol s y :
  fvip_rep m T → cstr_ok s →
  match scan (same_file vol s) T 0 with
  | Some (i, _) => ∃ m', vipm_fvip_remove (Some m) vol (Some (s ++ 0 :: y)) =
      Some (Some m', VIPM_OK) ∧ fvip_rep m' (<[Z.to_nat i := None]> T)
  | None => vipm_fvip_remove (Some m) vol (Some (s ++ 0 :: y)) =
      Some (Some m, VIPM_ERR_NOT_FOUND)
  end.
Proof.
  intros H Hs. destruct (fr_trie _ _ H) as (M & [Hinit [P HP]] & Hiff).
  unfold vipm_fvip_remove. rewrite Hinit. cbn [negb].
  destruct (vp_entry_find_spec T (m_entries m) vol s y (fr_slots _ _ H) Hs 0) as (r & -> & Hr).
  rewrite obind_Some. pose proof (scan_spec (same_file vol s) T 0) as Hsc.
  destruct (scan (same_file vol s) T 0) as [[i f]|]; [|by subst r].
  destruct Hr as (e & -> & He). destruct Hsc as (Hi & Hf & [Ev Ep]%andb_true_iff).
  rewrite Z.sub_0_r in Hf. apply Z.eqb_eq in Ev. pose proof He as (_ & cps & Hok & Ee).
  assert (e_byte_offset e = f_off f) as -> by (by rewrite Ee). rewrite <-Ev.
  destruct (vipm_mapping_remove_spec m P M (fkey f) HP Hinit) as (m2 & E2 & Hrest & _ & P2 & HP2);
    [by eapply fkey_ok|].
  assert (M !! fkey f = Some i) as Em by (apply Hiff; by exists f).
  rewrite Em in E2. unfold fkey in E2. rewrite E2, obind_Some. simpl (Some m2 ≫= _).
  destruct Hrest as (_ & Ev2 & _ & Ee2 & Ec2 & Ei2).
  pose proof (Forall2_length _ _ _ (fr_slots _ _ H)) as Hlen. rewrite (fr_len _ _ H) in Hlen.
  pose proof (fr_len _ _ H). pose proof (fr_count _ _ H). pose proof (occupied_bound T).
  pose proof (occupied_insert T (Z.to_nat i) _ None (proj2 (proj1 (aget_Some _ _ _) Hf))) as Hcnt.
  simpl in Hcnt. rewrite aset_in, obind_Some by (rewrite Ee2; lia).
  eexists. split; [done|].
  eapply (fvip_rep_update m T _ i (Some f) None _ (delete (fkey f) M)); [done|done| |by simpl; rewrite Ee2|done| | |].
  - done.
  - simpl. rewrite Ec2. rewrite u16_small by lia. lia.
  - eapply vipm_rep_entries; [split; [by rewrite Ei2|by exists P2]|done..].
  - by eapply trie_delete_slot.
Qed.

(** ** Volume registration *)
Lemma vp_volume_slot_spec vols vol : ∀ i slot,
  (∀ j, slot = Some j → 0 ≤ j < i) → 0 ≤ i →
  match vp_volume_slot vols i vol slot with
  | inl st => st = VIPM_BAN_VOLUME_CORRUPT ∧
      ∃ v, v ∈ vols ∧ v_registered v = true ∧ v_volume_id v = vol
  | inr r => (∀ v, v ∈ vols → v_registered v = true → v_volume_id v ≠ vol) ∧
      match r with
      | Some j => slot = Some j ∨ i ≤ j < i + Z.of_nat (length vols) ∧ slot = None ∧
          ∃ v, aget vols (j - i) = Some v ∧ v_registered v = false
      | None => slot = None ∧ ∀ v, v ∈ vols → v_registered v = true
      end
  end.
Proof.
  induction vols as [|v vols IH]; intros i slot Hslot Hi; cbn [vp_volume_slot].
  { split; [set_solver|]. destruct slot; [by left|]. split; [done|set_solver]. }
  assert (∀ j x, i + 1 ≤ j → aget vols (j - (i + 1)) = Some x → aget (v :: vols) (j - i) = Some x) as Hup.
  { intros j x Hj [? Hx]%aget_Some. apply aget_Some. split; [lia|].
    by replace (Z.to_nat (j - i)) with (S (Z.to_nat (j - (i + 1)))) by lia. }
  destruct (v_registered v) eqn:Hr.
  - case_if; [split; [done|]; exists v; set_solver|].
    specialize (IH (i + 1) slot). destruct (vp_volume_slot vols (i + 1) vol slot) as [st|r].
    + destruct IH as (-> & x & Hx & ?); [intros j E; apply Hslot in E; lia|lia|].
      split; [done|]. exists x. set_solver.
    + destruct IH as (Hno & Hcase); [intros j E; apply Hslot in E; lia|lia|].
      split; [set_solver|]. destruct r as [j|].
      * destruct Hcase as [?|(Hj & -> & x & Hx & ?)]; [by left|right]. simpl.
        split_and!; [lia|lia|done|]. exists x. split; [|done]. apply Hup; [lia|done].
      * destruct Hcase as [-> Hall]. split; [done|set_solver].
  - set (slot' := match slot with Some s => Some s | None => Some i end).
    assert (∀ j, slot' = Some j → 0 ≤ j < i + 1) as Hs'.
    { intros j. unfold slot'. destruct slot as [s|]; intros [= <-]; [|lia].
      specialize (Hslot s eq_refl). lia. }
    specialize (IH (i + 1) slot' Hs' ltac:(lia)).
    destruct (vp_volume_slot vols (i + 1) vol slot') as [st|r].
    + destruct IH as (-> & x & Hx & ?). split; [done|]. exists x. set_solver.
    + destruct IH as (Hno & Hcase). split.
      { intros x Hx. apply elem_of_cons in Hx as [->|Hx]; [congruence|by apply Hno]. }
      destruct r as [j|].
      * destruct Hcase as [E|(_ & E & _)]; [|unfold slot' in E; by destruct slot].
        unfold slot' in E. destruct slot as [s|]; [by left|]. injection E as <-. right.
        simpl. split_and!; [lia|lia|done|]. exists v. rewrite Z.sub_diag. done.
      * destruct Hcase as [E _]. unfold slot' in E. by destruct slot.
Qed.

(** What registration does up to the copy of the label. *)
Lemma volume_register_cases m T vol sector s y :
  fvip_rep m T → Forall (λ v, length (v_label v) = 48%nat) (m_volumes m) → cstr_ok s →
  0 ≤ vol < VIPM_MAX_VOLUMES → ¬ registered m vol → ∀ cps, path_check s = inr cps →
  vipm_volume_register (Some m) vol sector (Some (s ++ 0 :: y)) =
    Some (Some m, VIPM_ERR_VOLUME_LIMIT) ∧ (∀ v, v ∈ m_volumes m → v_registered v = true) ∨
  ∃ j v, 0 ≤ j < 8 ∧ m_volumes m !! Z.to_nat j = Some v ∧ length (v_label v) = 48%nat ∧
    vipm_volume_register (Some m) vol sector (Some (s ++ 0 :: y)) =
      (lbl ← copy_bytes (Z.of_nat (length s)) (s ++ 0 :: y) (v_label v);
       lbl ← aset lbl (Z.of_nat (length s)) 0;
       let v := v <| v_label := lbl |> <| v_label_codepoints := cps |> <| v_volume_id := vol |>
                  <| v_base_sector := sector |> <| v_registered := true |> in
       vs ← aset (m_volumes m) j v;
       Some (Some (m <| m_volumes := vs |> <| m_volume_count := u8 (m_volume_count m + 1) |>),
             VIPM_OK)).
Proof.
  intros H Hlbl Hs Hv Hnr cps Hc. destruct (fr_trie _ _ H) as (M & [Hinit _] & _).
  destruct (fr_vols _ _ H) as [Hl _].
  unfold vipm_volume_register. rewrite Hinit. cbn [negb]. rewrite (proj2 (Z.leb_gt _ _)) by lia.
  rewrite vp_validate_path_spec, obind_Some, Hc by done. cbv iota.
  pose proof (vp_volume_slot_spec (m_volumes m) vol 0 None) as Hsl.
  destruct (vp_volume_slot (m_volumes m) 0 vol None) as [st|r].
  { destruct Hsl as (_ & v & ? & ? & ?); [done|done|]. destruct Hnr. by exists v. }
  destruct Hsl as (_ & Hcase); [done|done|]. destruct r as [j|]; [right|left; split; [done|by apply Hcase]].
  destruct Hcase as [?|(Hj & _ & v & Hvj & _)]; [done|]. rewrite Z.sub_0_r in Hvj.
  exists j, v. pose proof Hvj as [_ Hvj']%aget_Some.
  split; [lia|]. split; [done|]. split; [by eapply (Forall_lookup_1 _ _ _ _ Hlbl)|].
  by rewrite Hvj, obind_Some.
Qed.

Lemma volume_register_spec m T vol sector s y cps :
  fvip_rep m T → Forall (λ v, length (v_label v) = 48%nat) (m_volumes m) → cstr_ok s →
  0 ≤ vol < VIPM_MAX_VOLUMES → ¬ registered m vol → path_check s = inr cps →
  (length s < 48)%nat →
  vipm_volume_register (Some m) vol sector (Some (s ++ 0 :: y)) =
    Some (Some m, VIPM_ERR_VOLUME_LIMIT) ∧ (∀ v, v ∈ m_volumes m → v_registered v = true) ∨
  ∃ m', vipm_volume_register (Some m) vol sector (Some (s ++ 0 :: y)) = Some (Some m', VIPM_OK) ∧
    fvip_rep m' T ∧ registered m' vol ∧ Forall (λ v, length (v_label v) = 48%nat) (m_volumes m').
Proof.
  intros H Hlbl Hs Hv Hnr Hc Hlen.
  destruct (volume_register_cases m T vol sector s y H Hlbl Hs Hv Hnr cps Hc)
    as [?|(j & v & Hj & Hvj & Hvl & ->)]; [by left|right].
  destruct (fr_vols _ _ H) as [Hl Hids].
  rewrite copy_bytes_spec, obind_Some, take_app_length by (rewrite ?length_app; lia).
  rewrite aset_in, obind_Some by (rewrite length_app, length_drop; lia). cbv zeta.
  rewrite aset_in, obind_Some by lia.
  set (v' := v <| v_label := _ |> <| v_label_codepoints := _ |> <| v_volume_id := _ |>
               <| v_base_sector := _ |> <| v_registered := _ |>).
  eexists. split; [done|]. split_and!.
  - destruct H as [? ? ? _ (M & HM & ?)]. split; simpl; try done.
    + rewrite length_insert. split; [done|]. by apply Forall_insert.
    + exists M. split; [by eapply vipm_rep_entries|done].
  - exists v'. split; [|done]. apply (list_elem_of_lookup_2 _ (Z.to_nat j)). simpl.
    apply list_lookup_insert_eq. lia.
  - apply Forall_insert; [done|]. simpl. rewrite length_insert, length_app, length_drop. lia.
Qed.

(** A label that fits its 48-byte field registers the volume: the id
    resolves afterwards, nothing else changes, and the table stays in step; the
    only refusal of a new id is a full registry. *)
Theorem vipm_volume_register_ok m T vol sector s y cps :
  fvip_rep m T → Forall (λ v, length (v_label v) = 48%nat) (m_volumes m) → cstr_ok s →
  0 ≤ vol < VIPM_MAX_VOLUMES → ¬ registered m vol → path_check s = inr cps →
  (length s < 48)%nat →
  vipm_volume_register (Some m) vol sector (Some (s ++ 0 :: y)) =
    Some (Some m, VIPM_ERR_VOLUME_LIMIT) ∧ (∀ v, v ∈ m_volumes m → v_registered v = true) ∨
  ∃ m', vipm_volume_register (Some m) vol sector (Some (s ++ 0 :: y)) = Some (Some m', VIPM_OK) ∧
    fvip_rep m' T ∧ registered m' vol ∧ Forall (λ v, length (v_label v) = 48%nat) (m_volumes m').
Proof. apply volume_register_spec. Qed.

(** A label of 48 to 95 bytes passes validation, which checks the length
    against the path limit, and is then copied past the 48-byte label field. *)
Theorem vipm_volume_label_overflow m T vol sector s y cps v0 :
  fvip_rep m T → Forall (λ v, length (v_label v) = 48%nat) (m_volumes m) → cstr_ok s →
  0 ≤ vol < VIPM_MAX_VOLUMES → ¬ registered m vol → path_check s = inr cps →
  (48 ≤ length s)%nat → v0 ∈ m_volumes m → v_registered v0 = false →
  vipm_volume_register (Some m) vol sector (Some (s ++ 0 :: y)) = UB.
Proof.
  intros H Hlbl Hs Hv Hnr Hc Hlen Hv0 Hfree.
  destruct (volume_register_cases m T vol sector s y H Hlbl Hs Hv Hnr cps Hc)
    as [[_ Hall]|(j & v & Hj & Hvj & Hvl & ->)]; [by rewrite (Hall v0 Hv0) in Hfree|].
  destruct (copy_bytes _ _ _) as [lbl|] eqn:E; [|done]. rewrite obind_Some.
  apply copy_bytes_length in E. rewrite Hvl in E.
  unfold aset. by rewrite decide_False by lia.
Qed.

(** ** Witnesses *)
Lemma fresh_manager_fvip : fvip_rep fresh_manager (replicate 64 None).
Proof.
  split.
  - change (m_entries fresh_manager) with (replicate 64 blank_entry).
    apply Forall2_replicate. by split.
  - done.
  - done.
  - split; [done|]. by repeat constructor.
  - exists ∅. split; [apply fresh_manager_rep|]. intros k i. rewrite lookup_empty. split; [done|].
    intros (f & [_ Hf]%aget_Some & _). by apply lookup_replicate in Hf as [? _].
Qed.

Lemma fresh_manager_labels : Forall (λ v, length (v_label v) = 48%nat) (m_volumes fresh_manager).
Proof. by repeat constructor. Qed.

Lemma fresh_unregistered vol : ¬ registered fresh_manager vol.
Proof.
  intros (v & Hv & Hr & _).
  assert (Forall (λ v, v_registered v = false) (m_volumes fresh_manager)) as Hall by (by repeat constructor).
  rewrite Forall_forall in Hall. specialize (Hall v Hv). congruence.
Qed.

Lemma vipm_volume_register_ok_witness :
  ∃ m', vipm_volume_register (Some fresh_manager) 3 0 (Some [67; 0]) = Some (Some m', VIPM_OK) ∧
    registered m' 3.
Proof.
  destruct (vipm_volume_register_ok fresh_manager (replicate 64 None) 3 0 [67] [] 1)
    as [[_ Hall]|(m' & E & _ & Hr & _)];
    [apply fresh_manager_fvip|apply fresh_manager_labels|by repeat constructor|done|
     apply fresh_unregistered|by vm_compute|simpl; lia| |exists m'; exact (conj E Hr)].
  exfalso. assert (v_registered (hd blank_volume (m_volumes fresh_manager)) = true) as Hx.
  { apply Hall. by left. }
  by vm_compute in Hx.
Defined.

Lemma vipm_volume_label_overflow_witness :
  vipm_volume_register (Some fresh_manager) 3 0 (Some (replicate 48 65 ++ [0])) = UB.
Proof.
  apply (vipm_volume_label_overflow fresh_manager (replicate 64 None) 3 0 (replicate 48 65) [] 48
    (hd blank_volume (m_volumes fresh_manager)));
    [apply fresh_manager_fvip|apply fresh_manager_labels|by repeat constructor|done|
     apply fresh_unregistered|by vm_compute|simpl; lia|by left|by vm_compute].
Defined.

(** Volume 3 registered, then the path ["a"] inserted at offset 512. *)
Definition vol_manager : vipm_manager_t :=
  match vipm_volume_register (Some fresh_manager) 3 0 (Some [67; 0]) with
  | Some (Some m, _) => m
  | _ => fresh_manager
  end.

Definition file_manager : vipm_manager_t :=
  match vipm_fvip_insert (Some vol_manager) 3 (Some [97; 0]) 512 0 with
  | Some (Some m, _) => m
  | _ => vol_manager
  end.

Definition file_table : list (option fentry) :=
  <[0%nat := Some (mk_fentry 3 [97] 512 0)]> (replicate 64 None).

Lemma vol_manager_fvip : fvip_rep vol_manager (replicate 64 None) ∧ registered vol_manager 3.
Proof.
  destruct (volume_register_spec fresh_manager (replicate 64 None) 3 0 [67] [] 1)
    as [[_ Hall]|(m' & E & Hr & Hreg & _)];
    [apply fresh_manager_fvip|apply fresh_manager_labels|by repeat constructor|done|
     apply fresh_unregistered|by vm_compute|simpl; lia| |].
  - exfalso. assert (v_registered (hd blank_volume (m_volumes fresh_manager)) = true) as Hx.
    { apply Hall. by left. }
    by vm_compute in Hx.
  - unfold vol_manager. simpl app in E. rewrite E. done.
Qed.

Lemma file_manager_fvip : fvip_rep file_manager file_table.
Proof.
  destruct (fvip_insert_spec vol_manager (replicate 64 None) 3 [97] [] 512 0)
    as (m' & st & E & _ & Hc); [apply vol_manager_fvip|by repeat constructor|lia|lia|].
  assert (st = VIPM_OK) as ->.
  { assert (snd <$> vipm_fvip_insert (Some vol_manager) 3 (Some [97; 0]) 512 0 = Some VIPM_OK) as Hst
      by (by vm_compute).
    simpl app in E. rewrite E in Hst. by injection Hst. }
  assert (file_manager = m') as -> by (unfold file_manager; simpl app in E; rewrite E; reflexivity).
  clear E. destruct Hc as [(_ & i & Hi & Hfirst & Hr)|[? _]]; [|done].
  assert (i = 0) as ->; [|done].
  apply aget_Some in Hi as [? _]. destruct (decide (i = 0)) as [|]; [done|].
  exfalso. apply (Hfirst 0); [lia|done].
Qed.

Lemma vipm_fvip_insert_refines_witness :
  ∃ m' st, vipm_fvip_insert (Some file_manager) 3 (Some [98; 0]) 1024 0 = Some (Some m', st).
Proof.
  destruct (vipm_fvip_insert_refines file_manager file_table 3 [98] [] 1024 0)
    as (m' & st & E & _); [apply file_manager_fvip|by repeat constructor|lia|lia|].
  exists m', st. exact E.
Defined.

Lemma vipm_fvip_lookup_refines_witness :
  ∃ m' e, vipm_fvip_lookup (Some file_manager) 3 (Some [97; 0]) (Some blank_entry) =
      Some (Some m', Some e, VIPM_OK) ∧ slot_rep (Some (mk_fentry 3 [97] 512 0)) e.
Proof.
  destruct (vipm_fvip_lookup_refines file_manager file_table 3 [97] [] blank_entry)
    as (m' & _ & e & He & E); [apply file_manager_fvip|by repeat constructor|].
  exists m', e. exact (conj E He).
Defined.

Lemma vipm_fvip_remove_refines_witness :
  ∃ m', vipm_fvip_remove (Some file_manager) 3 (Some [97; 0]) = Some (Some m', VIPM_OK) ∧
    fvip_rep m' (<[0%nat := None]> file_table).
Proof.
  apply (vipm_fvip_remove_refines file_manager file_table 3 [97] []);
    [apply file_manager_fvip|by repeat constructor].
Defined.

(** An offset outside the 40-bit space is not refused but aliased: with
    ["a"] stored at offset 512, inserting ["b"] at offset 2^40 + 512 reports a
    duplicate mapping and rolls its slot back, but has already redirected the
    trie, so that looking ["a"] up reports a stale index from then on. *)
Theorem vipm_fvip_offset_alias :
  ('(_, _, st0) ← vipm_fvip_lookup (Some file_manager) 3 (Some [97; 0]) (Some blank_entry);
   '(m, st1) ← vipm_fvip_insert (Some file_manager) 3 (Some [98; 0]) (2 ^ 40 + 512) 0;
   '(_, _, st2) ← vipm_fvip_lookup m 3 (Some [97; 0]) (Some blank_entry);
   Some (st0, st1, st2)) =
  Some (VIPM_OK, VIPM_ERR_DUPLICATE_MAPPING, VIPM_ERR_INDEX_STALE).
Proof. vm_compute. reflexivity. Qed.
