(* ===== verification/Fltrmgr.v ===== *)
(** The filter manager, [Drivers/fltrmgr/fltrmgr.h] and [fltrmgr.c]: the
    priority-ordered filter chain, the pending request table and the
    submission path, one definition per C function.

    Filter and completion callbacks are code of other drivers: function
    pointers are integers ([0] is [NULL]) interpreted by the section variables
    [call_filter] and [call_completion], which act on the request they are
    given and on a world state [W] outside the manager. *)
From S2P Require Import Prelude.

(** ** Constants ([fltrmgr.h], [Extensions/owc_format.h]) *)
Definition FLMGR_MAX_FILTERS : Z := 32.
Definition FLMGR_MAX_PENDING : Z := 256.
Definition FLMGR_MAX_FILTER_NAME : Z := 32.
Definition FLMGR_INVALID_ID : Z := 0xFFFFFFFF.
Definition OWC_TRAP_BASE : Z := 0x7FFFFFF0.

Definition FLMGR_REQ_PENDING : Z := 0.
Definition FLMGR_REQ_IN_PROGRESS : Z := 1.
Definition FLMGR_REQ_COMPLETED : Z := 2.
Definition FLMGR_REQ_FAILED : Z := 3.
Definition FLMGR_REQ_CANCELLED : Z := 4.

Definition FLMGR_OK : Z := 0.
Definition FLMGR_ERR_CHAIN_BROKEN : Z := 0x0011A000.
Definition FLMGR_ERR_REQUEST_FULL : Z := 0x0011A001.
Definition FLMGR_ERR_FILTER_FULL : Z := 0x0011A002.
Definition FLMGR_ERR_ALREADY_ACTIVE : Z := 0x0011A003.
Definition FLMGR_ERR_REQUEST_NOT_PENDING : Z := 0x0011AC00.
Definition FLMGR_ERR_NOT_FOUND : Z := 0x0011AE00.
Definition FLMGR_ERR_INVALID_PARAM : Z := 0x0011AE01.

Definition FLMGR_FLAG_NO_COMPLETE : Z := 4.

(** ** Data *)
Record fltrmgr_request_t := mk_request {
  rq_id : Z;
  rq_type : Z;
  rq_lba : Z;
  rq_sector_count : Z;
  rq_buffer : Z;                (* void *, 0 is NULL *)
  rq_status : Z;
  rq_flags : Z;
  rq_completion_fn : Z;         (* function pointer, 0 is NULL *)
  rq_completion_ctx : Z;
  rq_next : Z
}.
#[export] Instance eta_request : Eta fltrmgr_request_t := λ r,
  mk_request (rq_id r) (rq_type r) (rq_lba r) (rq_sector_count r) (rq_buffer r)
    (rq_status r) (rq_flags r) (rq_completion_fn r) (rq_completion_ctx r) (rq_next r).

Record fltrmgr_filter_t := mk_filter {
  fl_name : list Z;             (* char[FLMGR_MAX_FILTER_NAME] *)
  fl_priority : Z;
  fl_callback : Z;              (* function pointer, 0 is NULL *)
  fl_context : Z;
  fl_active : bool
}.
#[export] Instance eta_filter : Eta fltrmgr_filter_t := λ f,
  mk_filter (fl_name f) (fl_priority f) (fl_callback f) (fl_context f) (fl_active f).

Record fltrmgr_stats_t := mk_stats {
  total_submitted : Z;
  total_completed : Z;
  total_failed : Z;
  total_cancelled : Z;
  active_filters : Z
}.
#[export] Instance eta_stats : Eta fltrmgr_stats_t := λ s,
  mk_stats (total_submitted s) (total_completed s) (total_failed s) (total_cancelled s)
    (active_filters s).

Record fltrmgr_context_t := mk_context {
  fc_filters : list fltrmgr_filter_t;     (* [FLMGR_MAX_FILTERS] *)
  fc_filter_count : Z;
  fc_requests : list fltrmgr_request_t;   (* [FLMGR_MAX_PENDING] *)
  fc_request_count : Z;
  fc_next_id : Z;
  fc_stats : fltrmgr_stats_t;
  fc_bancode_err_trap_base : Z
}.
#[export] Instance eta_context : Eta fltrmgr_context_t := λ c,
  mk_context (fc_filters c) (fc_filter_count c) (fc_requests c) (fc_request_count c)
    (fc_next_id c) (fc_stats c) (fc_bancode_err_trap_base c).

(** The objects [volatile_memset(_, 0, sizeof _)] leaves. *)
Definition zero_filter : fltrmgr_filter_t :=
  mk_filter (replicate (Z.to_nat FLMGR_MAX_FILTER_NAME) 0) 0 0 0 false.
Definition zero_request : fltrmgr_request_t := mk_request 0 0 0 0 0 0 0 0 0 0.
Definition zero_stats : fltrmgr_stats_t := mk_stats 0 0 0 0 0.
Definition zero_context : fltrmgr_context_t :=
  mk_context (replicate (Z.to_nat FLMGR_MAX_FILTERS) zero_filter) 0
    (replicate (Z.to_nat FLMGR_MAX_PENDING) zero_request) 0 0 zero_stats 0.

(** ** Internal helpers *)

(** [safe_strncpy]: [n] is the number of iterations left, [dst_size - 1 - i]. *)
Fixpoint safe_strncpy_loop (n : nat) (dst src : list Z) (i : Z) : option (list Z) :=
  match n with
  | O => aset dst i 0
  | S n => c ← aget src i;
           if c =? 0 then aset dst i 0
           else dst ← aset dst i c; safe_strncpy_loop n dst src (i + 1)
  end.
Definition safe_strncpy (dst src : list Z) (dst_size : Z) : option (list Z) :=
  safe_strncpy_loop (Z.to_nat (u32 (dst_size - 1))) dst src 0.

Fixpoint str_equal (n : nat) (a b : list Z) (i : Z) : option bool :=
  match n with
  | O => Some true
  | S n => x ← aget a i; y ← aget b i;
           if negb (x =? y) then Some false
           else if x =? 0 then Some true
           else str_equal n a b (i + 1)
  end.

(** [n] iterations left; [FLMGR_MAX_FILTERS] when there is no such filter. *)
Fixpoint find_filter_loop (n : nat) (fs : list fltrmgr_filter_t) (name : list Z) (i : Z)
    : option Z :=
  match n with
  | O => Some FLMGR_MAX_FILTERS
  | S n =>
      f ← aget fs i;
      if fl_active f then
        eq ← str_equal (Z.to_nat FLMGR_MAX_FILTER_NAME) (fl_name f) name 0;
        if (eq : bool) then Some i else find_filter_loop n fs name (i + 1)
      else find_filter_loop n fs name (i + 1)
  end.
Definition find_filter_by_name (ctx : fltrmgr_context_t) (name : list Z) : option Z :=
  find_filter_loop (Z.to_nat (fc_filter_count ctx)) (fc_filters ctx) name 0.

Definition find_request_by_id (ctx : fltrmgr_context_t) (id : Z) : option Z :=
  r ← find_up (Z.to_nat (fc_request_count ctx)) 0 (fc_requests ctx) (λ r, rq_id r =? id);
  Some (default FLMGR_MAX_PENDING r).

(** ** Lifecycle *)
Definition cancelled_request : fltrmgr_request_t :=
  zero_request <| rq_status := FLMGR_REQ_CANCELLED |>.

(** [for (i = 0; i < n; i++) l[i] = x] *)
Definition fill {A} (n : Z) (x : A) (l : list A) : option (list A) :=
  for_up (Z.to_nat n) 0 (λ i l, aset l i x) l.

Definition fltrmgr_init (ctx : ptr fltrmgr_context_t) (filter_cap req_cap : Z)
    : option (ptr fltrmgr_context_t * Z) :=
  match ctx with
  | None => Some (ctx, FLMGR_ERR_INVALID_PARAM)
  | Some _ =>
      let c := zero_context in
      let filter_cap := if FLMGR_MAX_FILTERS <? filter_cap then FLMGR_MAX_FILTERS
                        else filter_cap in
      let req_cap := if FLMGR_MAX_PENDING <? req_cap then FLMGR_MAX_PENDING else req_cap in
      fs ← fill filter_cap zero_filter (fc_filters c);
      rs ← fill req_cap cancelled_request (fc_requests c);
      Some (Some (c <| fc_filters := fs |> <| fc_requests := rs |>
                    <| fc_filter_count := 0 |> <| fc_request_count := 0 |>
                    <| fc_next_id := 1 |> <| fc_stats := zero_stats |>
                    <| fc_bancode_err_trap_base := OWC_TRAP_BASE |>), FLMGR_OK)
  end.

Definition fltrmgr_reset (ctx : ptr fltrmgr_context_t)
    : option (ptr fltrmgr_context_t * Z) :=
  match ctx with
  | None => Some (ctx, FLMGR_ERR_INVALID_PARAM)
  | Some c =>
      fs ← fill FLMGR_MAX_FILTERS zero_filter (fc_filters c);
      rs ← fill FLMGR_MAX_PENDING cancelled_request (fc_requests c);
      Some (Some (c <| fc_filters := fs |> <| fc_requests := rs |>
                    <| fc_filter_count := 0 |> <| fc_request_count := 0 |>
                    <| fc_next_id := 1 |> <| fc_stats := zero_stats |>
                    <| fc_bancode_err_trap_base := OWC_TRAP_BASE |>), FLMGR_OK)
  end.

(** ** Filter registration *)
Definition fltrmgr_register_filter (ctx : ptr fltrmgr_context_t) (name : ptr (list Z))
    (priority callback filter_ctx : Z) : option (ptr fltrmgr_context_t * Z) :=
  match ctx, name with
  | Some c, Some name =>
      if callback =? 0 then Some (ctx, FLMGR_ERR_INVALID_PARAM)
      else
        idx ← find_filter_by_name c name;
        if negb (idx =? FLMGR_MAX_FILTERS) then Some (ctx, FLMGR_ERR_ALREADY_ACTIVE)
        else if FLMGR_MAX_FILTERS <=? fc_filter_count c
        then Some (ctx, FLMGR_ERR_FILTER_FULL)
        else
          found ← find_up (Z.to_nat (fc_filter_count c)) 0 (fc_filters c)
                    (λ f, priority <? fl_priority f);
          let insert_idx := default (fc_filter_count c) found in
          fs ← shift_right (Z.to_nat (fc_filter_count c - insert_idx))
                 (fc_filters c) (fc_filter_count c);
          nm ← safe_strncpy (fl_name zero_filter) name FLMGR_MAX_FILTER_NAME;
          fs ← aset fs insert_idx (mk_filter nm priority callback filter_ctx true);
          let n := u32 (fc_filter_count c + 1) in
          Some (Some (c <| fc_filters := fs |> <| fc_filter_count := n |>
                        <| fc_stats := (fc_stats c) <| active_filters := n |> |>), FLMGR_OK)
  | _, _ => Some (ctx, FLMGR_ERR_INVALID_PARAM)
  end.

Definition fltrmgr_unregister_filter (ctx : ptr fltrmgr_context_t) (name : ptr (list Z))
    : option (ptr fltrmgr_context_t * Z) :=
  match ctx, name with
  | Some c, Some name =>
      idx ← find_filter_by_name c name;
      if idx =? FLMGR_MAX_FILTERS then Some (ctx, FLMGR_ERR_NOT_FOUND)
      else
        f ← aget (fc_filters c) idx;
        fs ← aset (fc_filters c) idx (f <| fl_active := false |>);
        fs ← shift_left (Z.to_nat (fc_filter_count c - 1 - idx)) fs idx;
        fs ← aset fs (fc_filter_count c - 1) zero_filter;
        let n := u32 (fc_filter_count c - 1) in
        Some (Some (c <| fc_filters := fs |> <| fc_filter_count := n |>
                      <| fc_stats := (fc_stats c) <| active_filters := n |> |>), FLMGR_OK)
  | _, _ => Some (ctx, FLMGR_ERR_INVALID_PARAM)
  end.

(** ** Requests *)
Section requests.
Context {W : Type}.
(** [call_filter fn req ctx w]: the world, the request and the status after
    the callback. *)
Context (call_filter : Z → fltrmgr_request_t → Z → W → W * fltrmgr_request_t * Z).
Context (call_completion : Z → fltrmgr_request_t → Z → W → W * fltrmgr_request_t).

Definition bump_submitted (c : fltrmgr_context_t) : fltrmgr_context_t :=
  c <| fc_stats := (fc_stats c) <| total_submitted := u32 (total_submitted (fc_stats c) + 1) |> |>.
Definition bump_completed (c : fltrmgr_context_t) : fltrmgr_context_t :=
  c <| fc_stats := (fc_stats c) <| total_completed := u32 (total_completed (fc_stats c) + 1) |> |>.
Definition bump_failed (c : fltrmgr_context_t) : fltrmgr_context_t :=
  c <| fc_stats := (fc_stats c) <| total_failed := u32 (total_failed (fc_stats c) + 1) |> |>.
Definition bump_cancelled (c : fltrmgr_context_t) : fltrmgr_context_t :=
  c <| fc_stats := (fc_stats c) <| total_cancelled := u32 (total_cancelled (fc_stats c) + 1) |> |>.

(** [ctx->requests[slot] = r] *)
Definition put_request (c : fltrmgr_context_t) (slot : Z) (r : fltrmgr_request_t)
    : option fltrmgr_context_t :=
  rs ← aset (fc_requests c) slot r; Some (c <| fc_requests := rs |>).

(** The guarded completion callback on [ctx->requests[slot]]. *)
Definition complete_request (c : fltrmgr_context_t) (slot : Z) (w : W)
    : option (W * fltrmgr_context_t) :=
  r ← aget (fc_requests c) slot;
  if nz (rq_completion_fn r) && (Z.land (rq_flags r) FLMGR_FLAG_NO_COMPLETE =? 0) then
    let '(w, r) := call_completion (rq_completion_fn r) r (rq_completion_ctx r) w in
    c ← put_request c slot r; Some (w, c)
  else Some (w, c).

(** The chain walk of [fltrmgr_submit_request]; [n] filters left.  The last
    component is the status of an early return. *)
Fixpoint walk_chain (n : nat) (i slot : Z) (c : fltrmgr_context_t)
    (req : fltrmgr_request_t) (w : W)
    : option (W * fltrmgr_context_t * fltrmgr_request_t * option Z) :=
  match n with
  | O => Some (w, c, req, None)
  | S n =>
      f ← aget (fc_filters c) i;
      if negb (fl_active f) || (fl_callback f =? 0)
      then walk_chain n (i + 1) slot c req w
      else
        r ← aget (fc_requests c) slot;
        let '(w, r, res) := call_filter (fl_callback f) r (fl_context f) w in
        if negb (res =? FLMGR_OK) then
          c ← put_request c slot (r <| rq_status := FLMGR_REQ_FAILED |>);
          Some (w, bump_failed c, req <| rq_status := FLMGR_REQ_FAILED |>,
                Some FLMGR_ERR_CHAIN_BROKEN)
        else
          c ← put_request c slot r;
          if rq_status r =? FLMGR_REQ_COMPLETED
          then Some (w, bump_completed c, req, None)
          else if rq_status r =? FLMGR_REQ_CANCELLED
          then Some (w, bump_cancelled c, req <| rq_status := FLMGR_REQ_CANCELLED |>,
                     Some FLMGR_OK)
          else walk_chain n (i + 1) slot c req w
  end.

(** The common end of a submission: completion callback and write-back. *)
Definition finish_request (c : fltrmgr_context_t) (slot : Z) (w : W)
    : option (W * fltrmgr_context_t * fltrmgr_request_t) :=
  '(w, c) ← complete_request c slot w;
  r ← aget (fc_requests c) slot;
  Some (w, c, r).

Definition slot_free (r : fltrmgr_request_t) : bool :=
  (rq_status r =? FLMGR_REQ_CANCELLED) || (rq_status r =? FLMGR_REQ_COMPLETED).

Definition fltrmgr_submit_request (ctx : ptr fltrmgr_context_t)
    (req : ptr fltrmgr_request_t) (w : W)
    : option (W * ptr fltrmgr_context_t * ptr fltrmgr_request_t * Z) :=
  match ctx, req with
  | Some c, Some r =>
      if rq_buffer r =? 0 then Some (w, ctx, req, FLMGR_ERR_INVALID_PARAM)
      else
        slot ← find_up (Z.to_nat FLMGR_MAX_PENDING) 0 (fc_requests c) slot_free;
        match slot with
        | None => Some (w, ctx, req, FLMGR_ERR_REQUEST_FULL)
        | Some slot =>
            let r := r <| rq_id := fc_next_id c |> <| rq_status := FLMGR_REQ_PENDING |>
                       <| rq_next := 0 |> in
            let c := c <| fc_next_id := u32 (fc_next_id c + 1) |> in
            c ← put_request c slot r;
            let c := bump_submitted c in
            if fc_filter_count c =? 0 then
              c ← put_request c slot (r <| rq_status := FLMGR_REQ_COMPLETED |>);
              '(w, c, r) ← finish_request (bump_completed c) slot w;
              Some (w, Some c, Some r, FLMGR_OK)
            else
              c ← put_request c slot (r <| rq_status := FLMGR_REQ_IN_PROGRESS |>);
              '(w, c, r, st) ← walk_chain (Z.to_nat (fc_filter_count c)) 0 slot c r w;
              match st with
              | Some st => Some (w, Some c, Some r, st)
              | None =>
                  cur ← aget (fc_requests c) slot;
                  c ← (if rq_status cur =? FLMGR_REQ_IN_PROGRESS then
                         c ← put_request c slot (cur <| rq_status := FLMGR_REQ_COMPLETED |>);
                         Some (bump_completed c)
                       else Some c);
                  '(w, c, r) ← finish_request c slot w;
                  Some (w, Some c, Some r, FLMGR_OK)
              end
        end
  | _, _ => Some (w, ctx, req, FLMGR_ERR_INVALID_PARAM)
  end.

Definition fltrmgr_cancel_request (ctx : ptr fltrmgr_context_t) (req_id : Z)
    : option (ptr fltrmgr_context_t * Z) :=
  match ctx with
  | None => Some (ctx, FLMGR_ERR_INVALID_PARAM)
  | Some c =>
      if req_id =? FLMGR_INVALID_ID then Some (ctx, FLMGR_ERR_INVALID_PARAM)
      else
        idx ← find_request_by_id c req_id;
        if idx =? FLMGR_MAX_PENDING then Some (ctx, FLMGR_ERR_NOT_FOUND)
        else
          r ← aget (fc_requests c) idx;
          if negb (rq_status r =? FLMGR_REQ_PENDING)
          then Some (ctx, FLMGR_ERR_REQUEST_NOT_PENDING)
          else
            c ← put_request c idx (r <| rq_status := FLMGR_REQ_CANCELLED |>);
            Some (Some (bump_cancelled c), FLMGR_OK)
  end.

Definition fltrmgr_get_stats (ctx : ptr fltrmgr_context_t) (stats_out : ptr fltrmgr_stats_t)
    : ptr fltrmgr_stats_t * Z :=
  match ctx, stats_out with
  | Some c, Some _ => (Some (fc_stats c), FLMGR_OK)
  | _, _ => (stats_out, FLMGR_ERR_INVALID_PARAM)
  end.

(** One iteration of [fltrmgr_flush_chain]. *)
Definition flush_slot (i : Z) (s : W * fltrmgr_context_t)
    : option (W * fltrmgr_context_t) :=
  let '(w, c) := s in
  r ← aget (fc_requests c) i;
  if (rq_status r =? FLMGR_REQ_PENDING) || (rq_status r =? FLMGR_REQ_IN_PROGRESS) then
    c ← put_request c i (r <| rq_status := FLMGR_REQ_CANCELLED |>);
    complete_request (bump_cancelled c) i w
  else Some (w, c).

Definition fltrmgr_flush_chain (ctx : ptr fltrmgr_context_t) (w : W)
    : option (W * ptr fltrmgr_context_t * Z) :=
  match ctx with
  | None => Some (w, ctx, FLMGR_ERR_INVALID_PARAM)
  | Some c =>
      '(w, c) ← for_up (Z.to_nat FLMGR_MAX_PENDING) 0 flush_slot (w, c);
      Some (w, Some c, FLMGR_OK)
  end.
End requests.
