(* ===== verification/FltrmgrSpec.v ===== *)
(** Correctness of the filter manager: the filter table is a priority-sorted
    chain under registration and removal, a submission runs exactly that chain,
    and the request table and the counters follow the request's fate. *)
From stdpp Require Import sorting.
From S2P Require Import Prelude Fltrmgr.
#[local] Open Scope Z_scope.

(** ** Names *)

(** The C string held by a character array. *)
Fixpoint cname (l : list Z) : list Z :=
  match l with
  | [] => []
  | c :: l => if c =? 0 then [] else c :: cname l
  end.

Definition nonzero (s : list Z) : Prop := Forall (λ c, c ≠ 0) s.

(** A name field holding [t]. *)
Definition name_field (t : list Z) : list Z := t ++ replicate (32 - length t) 0.

Lemma cname_app t x : nonzero t → cname (t ++ 0 :: x) = t.
Proof.
  induction 1 as [|c t Hc Ht IH]; [done|]. simpl.
  rewrite (proj2 (Z.eqb_neq c 0)) by done. by rewrite IH.
Qed.

Lemma name_field_split t : (length t ≤ 31)%nat →
  name_field t = t ++ 0 :: replicate (31 - length t) 0.
Proof.
  intros. unfold name_field.
  replace (32 - length t)%nat with (S (31 - length t)) by lia. done.
Qed.

Lemma cname_name_field t : nonzero t → (length t ≤ 31)%nat → cname (name_field t) = t.
Proof. intros. rewrite name_field_split by done. by apply cname_app. Qed.

Lemma str_equal_loop t : ∀ n s p q x y,
  nonzero t → nonzero s → (length t < n)%nat → length p = length q →
  str_equal n (p ++ t ++ 0 :: x) (q ++ s ++ 0 :: y) (Z.of_nat (length p)) =
    Some (bool_decide (t = s)).
Proof.
  induction t as [|c t IH]; intros n s p q x y Ht Hs Hn Hpq;
    destruct n as [|n]; simpl in Hn; try lia; cbn [str_equal].
  - simpl. rewrite aget_app_here, obind_Some, Hpq.
    destruct s as [|d s]; simpl; rewrite aget_app_here, obind_Some; [done|].
    inversion Hs; subst. by destruct d.
  - inversion Ht as [|? ? Hc Ht']; subst. simpl. rewrite aget_app_here, obind_Some, Hpq.
    destruct s as [|d s]; simpl; rewrite aget_app_here, obind_Some.
    { by rewrite (proj2 (Z.eqb_neq c 0)). }
    inversion Hs as [|? ? Hd Hs']; subst. destruct (c =? d) eqn:E; zbool; simpl.
    2:{ rewrite bool_decide_false by congruence. done. }
    subst d. rewrite (proj2 (Z.eqb_neq c 0)) by done.
    specialize (IH n s (p ++ [c]) (q ++ [c]) x y Ht' Hs').
    rewrite <-!app_assoc, !length_app in IH. simpl in IH.
    replace (Z.of_nat (length q) + 1) with (Z.of_nat (length p + 1)) by lia.
    rewrite IH by lia. f_equal. apply bool_decide_ext. naive_solver.
Qed.

(** Comparing a stored name with a C string. *)
Lemma str_equal_spec t s y :
  nonzero t → nonzero s → (length t ≤ 31)%nat →
  str_equal 32 (name_field t) (s ++ 0 :: y) 0 = Some (bool_decide (t = s)).
Proof.
  intros. rewrite name_field_split by done.
  apply (str_equal_loop t 32 s [] []); (done || lia).
Qed.

Lemma safe_strncpy_loop_spec s : ∀ n p y src k,
  nonzero s → src = p ++ s ++ 0 :: y → (n < k)%nat →
  safe_strncpy_loop n (p ++ replicate k 0) src (Z.of_nat (length p)) =
    Some (p ++ take n s ++ replicate (k - length (take n s)) 0).
Proof.
  induction s as [|c s IH]; intros n p y src k Hs -> Hk;
    (destruct k as [|k]; [lia|]); destruct n as [|n]; cbn [safe_strncpy_loop]; simpl.
  - by rewrite aset_app_here.
  - by rewrite aget_app_here, obind_Some, aset_app_here.
  - by rewrite aset_app_here.
  - inversion Hs; subst. rewrite aget_app_here, obind_Some.
    rewrite (proj2 (Z.eqb_neq c 0)), aset_app_here, obind_Some by done.
    specialize (IH n (p ++ [c]) y ((p ++ [c]) ++ s ++ 0 :: y) k).
    rewrite <-!app_assoc, !length_app in IH. simpl in IH.
    replace (Z.of_nat (length p) + 1) with (Z.of_nat (length p + 1)) by lia.
    rewrite IH by (done || lia). done.
Qed.

Lemma safe_strncpy_spec s y :
  nonzero s →
  safe_strncpy (fl_name zero_filter) (s ++ 0 :: y) FLMGR_MAX_FILTER_NAME =
    Some (name_field (take 31 s)).
Proof.
  intros Hs. apply (safe_strncpy_loop_spec s 31 [] y (s ++ 0 :: y) 32); (done || lia).
Qed.

Lemma nonzero_take n s : nonzero s → nonzero (take n s).
Proof. apply Forall_take. Qed.

(** ** The invariant *)
Record filter_wf (f : fltrmgr_filter_t) : Prop := {
  fw_active : fl_active f = true;
  fw_callback : fl_callback f ≠ 0;
  fw_name : fl_name f = name_field (cname (fl_name f));
  fw_nonzero : nonzero (cname (fl_name f));
  fw_length : (length (cname (fl_name f)) ≤ 31)%nat
}.

Definition fname (f : fltrmgr_filter_t) : list Z := cname (fl_name f).

Definition prio_le (f g : fltrmgr_filter_t) : Prop := fl_priority f ≤ fl_priority g.

(** The registered filters, in calling order. *)
Definition chain (c : fltrmgr_context_t) : list fltrmgr_filter_t :=
  take (Z.to_nat (fc_filter_count c)) (fc_filters c).

Record fm_ok (c : fltrmgr_context_t) : Prop := {
  fm_len : length (fc_filters c) = 32%nat ∧ length (fc_requests c) = 256%nat;
  fm_count : 0 ≤ fc_filter_count c ≤ 32;
  fm_wf : Forall filter_wf (chain c);
  fm_sorted : StronglySorted prio_le (chain c);
  fm_rest : drop (Z.to_nat (fc_filter_count c)) (fc_filters c) =
            replicate (32 - Z.to_nat (fc_filter_count c)) zero_filter;
  fm_active : active_filters (fc_stats c) = fc_filter_count c;
  fm_request_count : fc_request_count c = 0
}.

Lemma fm_chain_length c : fm_ok c → length (chain c) = Z.to_nat (fc_filter_count c).
Proof.
  intros Hc. unfold chain. rewrite length_take. destruct (fm_len _ Hc).
  pose proof (fm_count _ Hc). lia.
Qed.

Lemma chain_lookup c i : fm_ok c → 0 ≤ i < fc_filter_count c →
  aget (fc_filters c) i = chain c !! Z.to_nat i.
Proof.
  intros Hc Hi. rewrite aget_to_nat by lia. unfold chain. by rewrite lookup_take_lt by lia.
Qed.

(** ** Finding a filter *)
Lemma find_filter_loop_spec c s y : ∀ n i,
  fm_ok c → nonzero s → 0 ≤ i → i + Z.of_nat n = fc_filter_count c →
  (∀ j f, 0 ≤ j < i → chain c !! Z.to_nat j = Some f → fname f ≠ s) →
  ∃ r, find_filter_loop n (fc_filters c) (s ++ 0 :: y) i = Some r ∧
    (r = FLMGR_MAX_FILTERS ∧ s ∉ (fname <$> chain c) ∨
     0 ≤ r < fc_filter_count c ∧
     (∃ f, chain c !! Z.to_nat r = Some f ∧ fname f = s)).
Proof.
  induction n as [|n IH]; intros i Hc Hs Hi Hn Hbefore; cbn [find_filter_loop].
  { eexists. split; [done|]. left. split; [done|].
    intros (f & Hf & Hin)%list_elem_of_fmap.
    apply list_elem_of_lookup in Hin as [j Hj].
    apply (Hbefore (Z.of_nat j) f); [|by rewrite Nat2Z.id|done].
    apply lookup_lt_Some in Hj. rewrite fm_chain_length in Hj by done. lia. }
  rewrite (chain_lookup c i Hc) by lia.
  destruct (lookup_lt_is_Some_2 (chain c) (Z.to_nat i)) as [f Hf].
  { rewrite fm_chain_length by done. lia. }
  pose proof (proj1 (Forall_lookup _ _) (fm_wf _ Hc) _ _ Hf) as [Ha _ Hn1 Hn2 Hn3].
  rewrite Hf, obind_Some, Ha, Hn1. change (Z.to_nat FLMGR_MAX_FILTER_NAME) with 32%nat.
  rewrite str_equal_spec, obind_Some by done. case_bool_decide as E.
  - exists i. split; [done|]. right. split; [lia|]. by exists f.
  - destruct (IH (i + 1)) as (r & -> & Hr); try done; [lia..| |by exists r].
    intros j g Hj Hg. destruct (decide (j = i)) as [->|]; [|apply (Hbefore j); (done || lia)].
    assert (g = f) as -> by congruence. done.
Qed.

Lemma find_filter_by_name_spec c s y :
  fm_ok c → nonzero s →
  ∃ r, find_filter_by_name c (s ++ 0 :: y) = Some r ∧
    (r = FLMGR_MAX_FILTERS ∧ s ∉ (fname <$> chain c) ∨
     0 ≤ r < fc_filter_count c ∧ (∃ f, chain c !! Z.to_nat r = Some f ∧ fname f = s)).
Proof.
  intros Hc Hs. pose proof (fm_count _ Hc).
  apply find_filter_loop_spec; (done || lia).
Qed.

(** ** Registration *)

(** Stable insertion: after the filters of the same or a lower priority. *)
Fixpoint insert_by_priority (f : fltrmgr_filter_t) (l : list fltrmgr_filter_t)
    : list fltrmgr_filter_t :=
  match l with
  | [] => [f]
  | g :: l' => if fl_priority f <? fl_priority g then f :: l
               else g :: insert_by_priority f l'
  end.

Lemma insert_by_priority_at f l (k : nat) :
  (k ≤ length l)%nat →
  (∀ j g, (j < k)%nat → l !! j = Some g → fl_priority g ≤ fl_priority f) →
  (∀ g, l !! k = Some g → fl_priority f < fl_priority g) →
  take k l ++ f :: drop k l = insert_by_priority f l.
Proof.
  revert k. induction l as [|g l IH]; intros k Hk Hlo Hhi; simpl in Hk.
  { assert (k = 0%nat) as -> by lia. done. }
  destruct k as [|k]; simpl.
  - rewrite (proj2 (Z.ltb_lt _ _)) by (by apply Hhi). done.
  - rewrite (proj2 (Z.ltb_ge _ _)) by (apply (Hlo 0%nat); [lia|done]).
    f_equal. apply IH; [lia| |].
    + intros j h Hj. apply (Hlo (S j)). lia.
    + intros h. apply Hhi.
Qed.

Lemma insert_by_priority_perm f l : insert_by_priority f l ≡ₚ f :: l.
Proof.
  induction l as [|g l IH]; simpl; [done|]. case_if; [done|]. rewrite IH. constructor.
Qed.

Lemma insert_by_priority_sorted f l :
  StronglySorted prio_le l → StronglySorted prio_le (insert_by_priority f l).
Proof.
  induction 1 as [|g l Hs IH Hg]; simpl; [by repeat constructor|].
  case_if.
  - constructor; [by constructor|]. constructor; [unfold prio_le; lia|].
    eapply Forall_impl; [exact Hg|]. unfold prio_le. intros. lia.
  - constructor; [done|]. rewrite insert_by_priority_perm.
    constructor; [unfold prio_le; lia|done].
Qed.

(** The contents of the table after a successful registration. *)
Lemma register_table c nf :
  fm_ok c → fc_filter_count c < 32 →
  ∃ found l1 fs, find_up (Z.to_nat (fc_filter_count c)) 0 (fc_filters c)
               (λ f, fl_priority nf <? fl_priority f) = Some found ∧
    shift_right (Z.to_nat (fc_filter_count c - default (fc_filter_count c) found))
      (fc_filters c) (fc_filter_count c) = Some l1 ∧
    aset l1 (default (fc_filter_count c) found) nf = Some fs ∧ length fs = 32%nat ∧
    take (Z.to_nat (fc_filter_count c + 1)) fs = insert_by_priority nf (chain c) ∧
    drop (Z.to_nat (fc_filter_count c + 1)) fs =
      drop (Z.to_nat (fc_filter_count c + 1)) (fc_filters c).
Proof.
  intros Hc Hlt. pose proof (fm_count _ Hc) as Hcnt. destruct (fm_len _ Hc) as [Hlf _].
  pose proof (fm_chain_length _ Hc) as Hcl.
  destruct (find_up_spec (Z.to_nat (fc_filter_count c)) 0 (fc_filters c)
    (λ f, fl_priority nf <? fl_priority f)) as (found & Hf & Hspec); [lia..|].
  exists found. set (k := default (fc_filter_count c) found).
  assert (0 ≤ k ≤ fc_filter_count c ∧
    (∀ j g, 0 ≤ j < k → aget (fc_filters c) j = Some g → fl_priority g ≤ fl_priority nf) ∧
    (∀ g, k < fc_filter_count c → aget (fc_filters c) k = Some g →
       fl_priority nf < fl_priority g)) as (Hk & Hlo & Hhi).
  { unfold k. destruct found as [j|]; simpl.
    - destruct Hspec as (Hj & (x & Hx & Hpx) & Hb). zbool. split_and!; [lia..| |].
      + intros i g Hi Hg. specialize (Hb i g ltac:(lia) Hg). zbool. lia.
      + intros g _ Hg. congruence.
    - split_and!; [lia..| |lia]. intros i g Hi Hg. specialize (Hspec i g ltac:(lia) Hg).
      zbool. lia. }
  clearbody k. destruct (shift_right_insert (fc_filters c) (Z.to_nat k)
    (Z.to_nat (fc_filter_count c)) nf) as (l1 & fs & Hs & Ha & Hl & Ht & Hd); [lia..|].
  rewrite !Z2Nat.id in * by lia.
  exists l1, fs. replace (Z.to_nat (fc_filter_count c - k))
    with (Z.to_nat (fc_filter_count c) - Z.to_nat k)%nat by lia.
  replace (Z.to_nat (fc_filter_count c + 1)) with (S (Z.to_nat (fc_filter_count c))) by lia.
  split_and!; try done; [lia|]. rewrite Ht.
  rewrite <-(insert_by_priority_at nf (chain c) (Z.to_nat k)).
  - unfold chain at 1. rewrite take_take. by rewrite Nat.min_l by lia.
  - lia.
  - intros j g Hj Hg. apply (Hlo (Z.of_nat j)); [lia|].
    rewrite chain_lookup, Nat2Z.id by (done || lia). done.
  - intros g Hg. apply Hhi; [|rewrite chain_lookup; try done].
    + apply lookup_lt_Some in Hg. lia.
    + apply lookup_lt_Some in Hg. lia.
Qed.

(** A table update that keeps the chain well formed. *)
Lemma fm_ok_update c fs n :
  fm_ok c → length fs = 32%nat → 0 ≤ n ≤ 32 →
  Forall filter_wf (take (Z.to_nat n) fs) → StronglySorted prio_le (take (Z.to_nat n) fs) →
  drop (Z.to_nat n) fs = replicate (32 - Z.to_nat n) zero_filter →
  fm_ok (c <| fc_filters := fs |> <| fc_filter_count := n |>
           <| fc_stats := (fc_stats c) <| active_filters := n |> |>).
Proof. intros [[? ?]] ? ? ? ? ?. by split. Qed.

(** The filter a registration stores. *)
Definition new_filter (s : list Z) (priority callback fctx : Z) : fltrmgr_filter_t :=
  mk_filter (name_field (take 31 s)) priority callback fctx true.

Lemma new_filter_wf s p cb x : nonzero s → cb ≠ 0 → filter_wf (new_filter s p cb x).
Proof.
  intros Hs Hcb. assert (length (take 31 s) ≤ 31)%nat by (rewrite length_take; lia).
  split; simpl; rewrite ?cname_name_field by (done || by apply nonzero_take); try done.
  by apply nonzero_take.
Qed.

Lemma filter_register_spec c s y priority callback fctx :
  fm_ok c → nonzero s → callback ≠ 0 →
  ∃ c' st, fltrmgr_register_filter (Some c) (Some (s ++ 0 :: y)) priority callback fctx =
      Some (Some c', st) ∧ fm_ok c' ∧ fc_requests c' = fc_requests c ∧
    (st = FLMGR_ERR_ALREADY_ACTIVE ∧ s ∈ (fname <$> chain c) ∧ c' = c ∨
     st = FLMGR_ERR_FILTER_FULL ∧ s ∉ (fname <$> chain c) ∧ fc_filter_count c = 32 ∧ c' = c ∨
     st = FLMGR_OK ∧ s ∉ (fname <$> chain c) ∧
     chain c' = insert_by_priority (new_filter s priority callback fctx) (chain c)).
Proof.
  intros Hc Hs Hcb. pose proof (fm_count _ Hc) as Hcnt. unfold fltrmgr_register_filter.
  rewrite (proj2 (Z.eqb_neq callback 0)) by done.
  destruct (find_filter_by_name_spec c s y Hc Hs) as (r & -> & Hr). rewrite obind_Some.
  destruct Hr as [[-> Hnin]|(Hr & f & Hf & Hfn)].
  2:{ assert ((r =? FLMGR_MAX_FILTERS) = false) as ->
        by (unfold FLMGR_MAX_FILTERS; lia). cbn [negb].
      exists c, FLMGR_ERR_ALREADY_ACTIVE. split_and!; try done. left. split_and!; try done.
      apply list_elem_of_fmap. exists f. split; [done|]. by eapply list_elem_of_lookup_2. }
  rewrite Z.eqb_refl. cbn [negb]. case_if; unfold FLMGR_MAX_FILTERS in *.
  { exists c, FLMGR_ERR_FILTER_FULL. split_and!; try done. right. left. split_and!; try done. lia. }
  pose proof (new_filter_wf s priority callback fctx Hs Hcb) as Hwf.
  destruct (register_table c (new_filter s priority callback fctx))
    as (found & l1 & fs & Hfu & Hsh & Hset & Hl & Ht & Hd); [done|lia|].
  cbn [fl_priority new_filter] in Hfu. rewrite Hfu, obind_Some. cbv zeta.
  rewrite Hsh, obind_Some, safe_strncpy_spec, obind_Some by done.
  unfold new_filter in Hset. rewrite Hset, obind_Some, u32_small by lia.
  eexists _, _. split; [done|]. split_and!; try done.
  - apply fm_ok_update; try done; [lia| | |].
    + rewrite Ht, insert_by_priority_perm. constructor; [done|apply Hc].
    + rewrite Ht. apply insert_by_priority_sorted, Hc.
    + rewrite Hd. replace (Z.to_nat (fc_filter_count c + 1))
        with (Z.to_nat (fc_filter_count c) + 1)%nat by lia.
      rewrite <-drop_drop, (fm_rest _ Hc), drop_replicate. f_equal. lia.
  - right. right. split_and!; try done. 
Qed.

(** Registration keeps the chain sorted: with a well-formed table and a
    NUL-terminated name, [fltrmgr_register_filter] rejects a name that is
    already registered and a full table without changing anything, and
    otherwise inserts exactly the new filter, after every filter of the same or
    a lower priority value, keeping all others in order; the table invariant
    holds afterwards. *)
Theorem fltrmgr_register_sorted_insert c s y priority callback fctx :
  fm_ok c → nonzero s → callback ≠ 0 →
  ∃ c' st, fltrmgr_register_filter (Some c) (Some (s ++ 0 :: y)) priority callback fctx =
      Some (Some c', st) ∧ fm_ok c' ∧ fc_requests c' = fc_requests c ∧
    (st = FLMGR_ERR_ALREADY_ACTIVE ∧ s ∈ (fname <$> chain c) ∧ c' = c ∨
     st = FLMGR_ERR_FILTER_FULL ∧ s ∉ (fname <$> chain c) ∧ fc_filter_count c = 32 ∧ c' = c ∨
     st = FLMGR_OK ∧ s ∉ (fname <$> chain c) ∧
     chain c' = insert_by_priority (new_filter s priority callback fctx) (chain c)).
Proof. apply filter_register_spec. Qed.

(** ** Removal *)
Lemma StronglySorted_sublist l l' :
  l `sublist_of` l' → StronglySorted prio_le l' → StronglySorted prio_le l.
Proof.
  induction 1 as [|x l l' Hsub IH|x l l' Hsub IH]; intros Hs; [done| |];
    inversion Hs as [|? ? Hs' Hx]; subst.
  - constructor; [by apply IH|]. rewrite Forall_forall in Hx |- *.
    intros z Hz. apply Hx. by eapply elem_of_sublist.
  - by apply IH.
Qed.

Lemma delete_at_sublist {A} (l : list A) k : take k l ++ drop (S k) l `sublist_of` l.
Proof.
  rewrite <-(take_drop k l) at 3. apply sublist_app; [done|].
  destruct (drop k l) as [|x r] eqn:E.
  - apply sublist_nil_r, drop_ge. apply (f_equal length) in E.
    rewrite length_drop in E. simpl in E. lia.
  - assert (drop (S k) l = r) as ->.
    { replace (S k) with (k + 1)%nat by lia. rewrite <-drop_drop, E. done. }
    by apply sublist_cons.
Qed.

Lemma unregister_spec c s y :
  fm_ok c → nonzero s →
  ∃ c' st, fltrmgr_unregister_filter (Some c) (Some (s ++ 0 :: y)) = Some (Some c', st) ∧
    fm_ok c' ∧ fc_requests c' = fc_requests c ∧
    (st = FLMGR_ERR_NOT_FOUND ∧ s ∉ (fname <$> chain c) ∧ c' = c ∨
     st = FLMGR_OK ∧ ∃ k f, chain c !! k = Some f ∧ fname f = s ∧
       chain c' = take k (chain c) ++ drop (S k) (chain c)).
Proof.
  intros Hc Hs. pose proof (fm_count _ Hc) as Hcnt. unfold fltrmgr_unregister_filter.
  destruct (find_filter_by_name_spec c s y Hc Hs) as (r & -> & Hr). rewrite obind_Some.
  destruct Hr as [[-> Hnin]|(Hr & f & Hf & Hfn)].
  { rewrite Z.eqb_refl. exists c, FLMGR_ERR_NOT_FOUND. split_and!; try done. by left. }
  assert ((r =? FLMGR_MAX_FILTERS) = false) as -> by (unfold FLMGR_MAX_FILTERS; lia).
  destruct (fm_len _ Hc) as [Hlf _].
  rewrite chain_lookup, Hf, obind_Some, aset_in, obind_Some by (done || lia).
  set (fs0 := <[Z.to_nat r := _]> (fc_filters c)).
  assert (length fs0 = 32%nat) as Hl0 by (unfold fs0; by rewrite length_insert).
  pose proof (fm_rest _ Hc) as Hrest.
  set (n := Z.to_nat (fc_filter_count c)) in *.
  destruct (shift_left_delete fs0 (Z.to_nat r) n zero_filter)
    as (l1 & fs & Hsh & Hset & Hl & Ht & Hd); [lia..|].
  rewrite Z2Nat.id in Hsh by lia.
  replace (Z.to_nat (fc_filter_count c - 1 - r)) with (n - 1 - Z.to_nat r)%nat by lia.
  replace (fc_filter_count c - 1) with (Z.of_nat n - 1) by lia.
  rewrite Hsh, obind_Some, Hset, obind_Some, u32_small by lia.
  assert (take (n - 1) fs = take (Z.to_nat r) (chain c) ++ drop (S (Z.to_nat r)) (chain c)) as Hch.
  { rewrite Ht. unfold fs0, chain. fold n. f_equal.
    - by rewrite take_insert_ge, take_take, Nat.min_l by lia.
    - by rewrite !skipn_firstn_comm, drop_insert_lt by lia. }
  pose proof (delete_at_sublist (chain c) (Z.to_nat r)) as Hsub.
  assert (Z.to_nat (Z.of_nat n - 1) = n - 1)%nat as Hn1 by lia.
  eexists _, _. split; [done|]. split_and!; try done.
  - apply fm_ok_update; rewrite ?Hn1, ?Hch; try done; [lia..| | |].
    + rewrite Forall_forall. intros z Hz.
      by eapply (proj1 (Forall_forall _ _) (fm_wf _ Hc)), elem_of_sublist.
    + eapply StronglySorted_sublist; [done|apply Hc].
    + rewrite Hd. unfold fs0. rewrite drop_insert_lt, Hrest by lia.
      by replace (32 - (n - 1))%nat with (S (32 - n)) by lia.
  - right. split; [done|]. exists (Z.to_nat r), f. split_and!; try done.
    unfold chain at 1. simpl. by rewrite Hn1.
Qed.

(** Removal takes exactly one filter out of the chain: with a well-formed
    table [fltrmgr_unregister_filter] returns NOT_FOUND and changes nothing when
    no registered filter has the name, and otherwise removes one filter of that
    name, keeping the others in order, clears the vacated slot and keeps the
    table invariant. *)
Theorem fltrmgr_unregister_removes_one c s y :
  fm_ok c → nonzero s →
  ∃ c' st, fltrmgr_unregister_filter (Some c) (Some (s ++ 0 :: y)) = Some (Some c', st) ∧
    fm_ok c' ∧ fc_requests c' = fc_requests c ∧
    (st = FLMGR_ERR_NOT_FOUND ∧ s ∉ (fname <$> chain c) ∧ c' = c ∨
     st = FLMGR_OK ∧ ∃ k f, chain c !! k = Some f ∧ fname f = s ∧
       chain c' = take k (chain c) ++ drop (S k) (chain c)).
Proof. apply unregister_spec. Qed.

(** A name of 32 or more characters is truncated when it is stored and
    never found again: its filter can be registered a second time under the
    same name, and [fltrmgr_unregister_filter] does not find it. *)
Theorem fltrmgr_long_name_unremovable c s y priority callback fctx c' :
  fm_ok c → nonzero s → callback ≠ 0 → (32 ≤ length s)%nat →
  fltrmgr_register_filter (Some c) (Some (s ++ 0 :: y)) priority callback fctx =
    Some (Some c', FLMGR_OK) →
  fltrmgr_unregister_filter (Some c') (Some (s ++ 0 :: y)) =
    Some (Some c', FLMGR_ERR_NOT_FOUND).
Proof.
  intros Hc Hs Hcb Hlen Hreg.
  destruct (filter_register_spec c s y priority callback fctx) as (c1 & st & Hreg' & Hc1 & _ & _);
    try done.
  rewrite Hreg in Hreg'. simplify_eq.
  destruct (unregister_spec c1 s y Hc1 Hs) as (c2 & st2 & Hu & _ & _ & Hcase).
  destruct Hcase as [(-> & _ & ->)|(_ & k & f & Hf & Hn & _)]; [done|].
  pose proof (proj1 (Forall_lookup _ _) (fm_wf _ Hc1) _ _ Hf) as [_ _ _ _ Hl].
  unfold fname in Hn. rewrite Hn in Hl. lia.
Qed.

(** ** Initialisation *)
Lemma fill_spec {A} n (x : A) l :
  0 ≤ n ≤ Z.of_nat (length l) →
  fill n x l = Some (replicate (Z.to_nat n) x ++ drop (Z.to_nat n) l).
Proof.
  intros Hn. unfold fill.
  destruct (for_up_inv (λ i l', l' = replicate (Z.to_nat i) x ++ drop (Z.to_nat i) l)
    (Z.to_nat n) 0 (λ i l, aset l i x) l) as (l' & -> & ->).
  - done.
  - intros j l' Hj ->. rewrite aset_in.
    2:{ rewrite length_app, length_replicate, length_drop. lia. }
    eexists. split; [done|]. rewrite insert_app_r_alt; rewrite length_replicate; [|lia].
    rewrite Nat.sub_diag. replace (Z.to_nat (j + 1)) with (S (Z.to_nat j)) by lia.
    destruct (drop (Z.to_nat j) l) as [|z r] eqn:E.
    { apply (f_equal length) in E. rewrite length_drop in E. simpl in E. lia. }
    rewrite replicate_S_end, <-app_assoc. simpl. do 2 f_equal.
    replace (S (Z.to_nat j)) with (Z.to_nat j + 1)%nat by lia. by rewrite <-drop_drop, E.
  - do 2 f_equal; f_equal; lia.
Qed.

(** The state [fltrmgr_init] and [fltrmgr_reset] leave: [cap] usable slots. *)
Definition initial_context (cap : nat) : fltrmgr_context_t :=
  mk_context (replicate 32 zero_filter) 0
    (replicate cap cancelled_request ++ replicate (256 - cap) zero_request) 0 1
    zero_stats OWC_TRAP_BASE.

Lemma initial_context_ok cap : (cap ≤ 256)%nat → fm_ok (initial_context cap).
Proof.
  intros Hcap. split; simpl; try done; try lia.
  - split; [done|]. rewrite length_app, !length_replicate. lia.
  - constructor.
Qed.

Lemma fltrmgr_init_spec c0 filter_cap req_cap :
  0 ≤ filter_cap → 0 ≤ req_cap →
  ∃ c', fltrmgr_init (Some c0) filter_cap req_cap = Some (Some c', FLMGR_OK) ∧
     c' = initial_context (Z.to_nat (Z.min req_cap 256)) ∧ fm_ok c'.
Proof.
  intros Hf Hr.
  exists (initial_context (Z.to_nat (Z.min req_cap 256))).
  split_and!; [|done|apply initial_context_ok; lia].
  unfold fltrmgr_init. cbv zeta. unfold FLMGR_MAX_FILTERS, FLMGR_MAX_PENDING.
  assert ((if 32 <? filter_cap then 32 else filter_cap) = Z.min filter_cap 32) as ->
    by (case_if; lia).
  assert ((if 256 <? req_cap then 256 else req_cap) = Z.min req_cap 256) as ->
    by (case_if; lia).
  rewrite (fill_spec (Z.min filter_cap 32)) by (simpl length; lia). rewrite obind_Some.
  rewrite (fill_spec (Z.min req_cap 256)) by (simpl length; lia). rewrite obind_Some.
  unfold initial_context. do 2 f_equal. simpl fc_filters. simpl fc_requests.
  unfold set_field; simpl. do 2 f_equal.
  - change (zero_filter :: _) with (replicate 32 zero_filter).
    rewrite drop_replicate, <-replicate_add. f_equal. lia.
  - f_equal. change (zero_request :: _) with (replicate 256 zero_request).
    by rewrite drop_replicate.
Qed.

Lemma fltrmgr_reset_spec c : fm_ok c → fltrmgr_reset (Some c) = Some (Some (initial_context 256), FLMGR_OK).
Proof.
  intros Hc.
  unfold fltrmgr_reset. destruct (fm_len _ Hc) as [Hl1 Hl2].
  rewrite (fill_spec FLMGR_MAX_FILTERS) by (unfold FLMGR_MAX_FILTERS; lia).
  rewrite obind_Some, (fill_spec FLMGR_MAX_PENDING) by (unfold FLMGR_MAX_PENDING; lia).
  rewrite obind_Some, !drop_ge, !app_nil_r
    by (unfold FLMGR_MAX_FILTERS, FLMGR_MAX_PENDING; lia).
  unfold initial_context. rewrite Nat.sub_diag. cbn [replicate]. by rewrite app_nil_r.
Qed.

(** [fltrmgr_init] establishes the invariant with an empty chain: whatever
    the storage held, exactly [min(req_cap, 256)] request slots are free and
    the others are not, all counters are zero and the first id is 1;
    [fltrmgr_reset] of any well-formed manager gives that state with all 256
    slots free. *)
Theorem fltrmgr_init_establishes c0 filter_cap req_cap c :
  0 ≤ filter_cap → 0 ≤ req_cap → fm_ok c →
  (∃ c', fltrmgr_init (Some c0) filter_cap req_cap = Some (Some c', FLMGR_OK) ∧
     c' = initial_context (Z.to_nat (Z.min req_cap 256)) ∧ fm_ok c') ∧
  fltrmgr_reset (Some c) = Some (Some (initial_context 256), FLMGR_OK).
Proof. intros Hf Hr Hc. split; [by apply fltrmgr_init_spec|by apply fltrmgr_reset_spec]. Qed.

(** ** Submission *)

(** How a chain walk ends: a filter reported an error, cancelled the request or
    completed it, or every filter let it pass. *)
Inductive outcome := Broken | Cancelled | Completed | Passed.

Section submission.
Context {W : Type}.
Context (call_filter : Z → fltrmgr_request_t → Z → W → W * fltrmgr_request_t * Z).
Context (call_completion : Z → fltrmgr_request_t → Z → W → W * fltrmgr_request_t).
Implicit Types (c : fltrmgr_context_t) (r req : fltrmgr_request_t) (w : W).

(** Specification: the filters are called in chain order until one stops. *)
Fixpoint run_chain (fs : list fltrmgr_filter_t) r w : W * fltrmgr_request_t * outcome :=
  match fs with
  | [] => (w, r, Passed)
  | f :: fs =>
      let '(w, r, res) := call_filter (fl_callback f) r (fl_context f) w in
      if negb (res =? FLMGR_OK) then (w, r <| rq_status := FLMGR_REQ_FAILED |>, Broken)
      else if rq_status r =? FLMGR_REQ_COMPLETED then (w, r, Completed)
      else if rq_status r =? FLMGR_REQ_CANCELLED then (w, r, Cancelled)
      else run_chain fs r w
  end.

(** Specification: the guarded completion callback. *)
Definition notify r w : W * fltrmgr_request_t :=
  if nz (rq_completion_fn r) && (Z.land (rq_flags r) FLMGR_FLAG_NO_COMPLETE =? 0)
  then call_completion (rq_completion_fn r) r (rq_completion_ctx r) w
  else (w, r).

(** The context with [r] stored in [slot]. *)
Definition with_slot c (slot : Z) r : fltrmgr_context_t :=
  c <| fc_requests := <[Z.to_nat slot := r]> (fc_requests c) |>.

Definition count_outcome (o : outcome) r c : fltrmgr_context_t :=
  match o with
  | Broken => bump_failed c
  | Cancelled => bump_cancelled c
  | Completed => bump_completed c
  | Passed => if rq_status r =? FLMGR_REQ_IN_PROGRESS then bump_completed c else c
  end.

(** Specification of a submission into [slot]: the world, the stored request,
    the caller's request, the outcome and the status. *)
Definition submit_spec (fs : list fltrmgr_filter_t) r w
    : W * fltrmgr_request_t * fltrmgr_request_t * fltrmgr_request_t * outcome * Z :=
  let '(w, r1, o) := run_chain fs (r <| rq_status := FLMGR_REQ_IN_PROGRESS |>) w in
  match o with
  | Broken => (w, r1, r1, r <| rq_status := FLMGR_REQ_FAILED |>, o, FLMGR_ERR_CHAIN_BROKEN)
  | Cancelled => (w, r1, r1, r <| rq_status := FLMGR_REQ_CANCELLED |>, o, FLMGR_OK)
  | _ =>
      let r2 := if rq_status r1 =? FLMGR_REQ_IN_PROGRESS
                then r1 <| rq_status := FLMGR_REQ_COMPLETED |> else r1 in
      let '(w, r3) := notify r2 w in
      (w, r1, r3, r3, o, FLMGR_OK)
  end.

Lemma put_request_in c slot r :
  0 ≤ slot < Z.of_nat (length (fc_requests c)) →
  put_request c slot r = Some (with_slot c slot r).
Proof. intros. unfold put_request. by rewrite aset_in, obind_Some by done. Qed.

Lemma with_slot_get c slot r :
  0 ≤ slot < Z.of_nat (length (fc_requests c)) →
  aget (fc_requests (with_slot c slot r)) slot = Some r.
Proof.
  intros. simpl. rewrite aget_insert by done. by rewrite decide_True.
Qed.

Lemma with_slot_twice c slot r1 r2 :
  with_slot (with_slot c slot r1) slot r2 = with_slot c slot r2.
Proof. unfold with_slot. simpl. by rewrite list_insert_insert_eq. Qed.

Lemma complete_request_spec c slot r w :
  aget (fc_requests c) slot = Some r →
  complete_request call_completion c slot w =
    Some ((notify r w).1, with_slot c slot (notify r w).2).
Proof.
  intros Hr. unfold complete_request, notify. rewrite Hr, obind_Some. case_if.
  - destruct (call_completion _ _ _ _) as [w' r'].
    rewrite put_request_in, obind_Some by (by eapply aget_lt). done.
  - apply aget_Some in Hr as [_ Hr]. unfold with_slot. simpl.
    rewrite list_insert_id by done. by destruct c.
Qed.

Lemma walk_chain_spec slot : ∀ fs n i c r req w,
  Forall filter_wf fs → 0 ≤ i → length fs = n →
  (∀ j f, fs !! j = Some f → aget (fc_filters c) (i + Z.of_nat j) = Some f) →
  aget (fc_requests c) slot = Some r →
  ∃ w' r' o, run_chain fs r w = (w', r', o) ∧
  walk_chain call_filter n i slot c req w =
    Some (w', match o with Passed => with_slot c slot r'
              | _ => count_outcome o r' (with_slot c slot r') end,
          match o with Broken => req <| rq_status := FLMGR_REQ_FAILED |>
                     | Cancelled => req <| rq_status := FLMGR_REQ_CANCELLED |>
                     | _ => req end,
          match o with Broken => Some FLMGR_ERR_CHAIN_BROKEN
                     | Cancelled => Some FLMGR_OK | _ => None end).
Proof.
  induction fs as [|f fs IH]; intros n i c r req w Hwf Hi Hn Hfs Hr; simpl in Hn; subst n.
  { exists w, r, Passed. split; [done|]. simpl. unfold with_slot.
    apply aget_Some in Hr as [_ Hr]. rewrite list_insert_id by done. by destruct c. }
  inversion Hwf as [|? ? [Ha Hcb _ _ _] Hwf']; subst.
  cbn [walk_chain run_chain]. pose proof (Hfs 0%nat f eq_refl) as Hf.
  rewrite Z.add_0_r in Hf. rewrite Hf, obind_Some, Ha. cbn [negb orb].
  rewrite (proj2 (Z.eqb_neq _ 0)) by done. rewrite Hr, obind_Some.
  destruct (call_filter _ _ _ _) as [[w1 r1] res].
  pose proof (aget_lt _ _ _ Hr) as Hlt.
  destruct (negb (res =? FLMGR_OK)).
  { rewrite put_request_in, obind_Some by done. by eexists _, _, _. }
  rewrite put_request_in, obind_Some by done.
  destruct (rq_status r1 =? FLMGR_REQ_COMPLETED); [by eexists _, _, _|].
  destruct (rq_status r1 =? FLMGR_REQ_CANCELLED); [by eexists _, _, _|].
  destruct (IH (length fs) (i + 1) (with_slot c slot r1) r1 req w1)
    as (w' & r' & o & Hrun & Hw); try done; [lia| |by apply with_slot_get|].
  - intros j g Hj. replace (i + 1 + Z.of_nat j) with (i + Z.of_nat (S j)) by lia.
    by apply Hfs.
  - exists w', r', o. split; [done|]. rewrite Hw, !with_slot_twice. by destruct o.
Qed.

(** The caller's request as it is queued. *)
Definition queued c r : fltrmgr_request_t :=
  r <| rq_id := fc_next_id c |> <| rq_status := FLMGR_REQ_PENDING |> <| rq_next := 0 |>.

Definition submitted c : fltrmgr_context_t :=
  bump_submitted (c <| fc_next_id := u32 (fc_next_id c + 1) |>).

Lemma chain_aget c j f :
  fm_ok c → chain c !! j = Some f → aget (fc_filters c) (0 + Z.of_nat j) = Some f.
Proof.
  intros Hc Hj. pose proof (lookup_lt_Some _ _ _ Hj) as Hlt.
  rewrite fm_chain_length in Hlt by done.
  rewrite chain_lookup by (done || lia). by rewrite Z.add_0_l, Nat2Z.id.
Qed.

Lemma run_chain_completed fs r w w' r' :
  run_chain fs r w = (w', r', Completed) → rq_status r' = FLMGR_REQ_COMPLETED.
Proof.
  revert r w. induction fs as [|f fs IH]; intros r w; simpl; [done|].
  destruct (call_filter _ _ _ _) as [[w1 r1] res].
  case_if; [done|]. case_if; [by intros [= _ <-]|]. case_if; [done|]. apply IH.
Qed.

Lemma finish_request_spec c slot r w :
  aget (fc_requests c) slot = Some r →
  finish_request call_completion c slot w =
    Some ((notify r w).1, with_slot c slot (notify r w).2, (notify r w).2).
Proof.
  intros Hr. unfold finish_request. rewrite (complete_request_spec _ _ r) by done.
  rewrite obind_Some. rewrite with_slot_get, obind_Some by (by eapply aget_lt). done.
Qed.

Lemma submit_into c r w slot :
  fm_ok c → rq_buffer r ≠ 0 →
  find_up (Z.to_nat FLMGR_MAX_PENDING) 0 (fc_requests c) slot_free = Some (Some slot) →
  0 ≤ slot < 256 →
  ∃ w' r1 r2 r3 o st, submit_spec (chain c) (queued c r) w = (w', r1, r2, r3, o, st) ∧
    fltrmgr_submit_request call_filter call_completion (Some c) (Some r) w =
      Some (w', Some (count_outcome o r1 (with_slot (submitted c) slot r2)), Some r3, st).
Proof.
  intros Hc Hb Hslot Hrange. destruct (fm_len _ Hc) as [_ Hlen].
  assert (∀ c1 r, fc_requests c1 = fc_requests c →
    aget (fc_requests (with_slot c1 slot r)) slot = Some r) as Hget.
  { intros c1 r1 E. apply with_slot_get. rewrite E. lia. }
  unfold fltrmgr_submit_request. rewrite (proj2 (Z.eqb_neq _ 0)) by done.
  rewrite Hslot, obind_Some. cbv zeta. fold (queued c r).
  rewrite put_request_in, obind_Some by (simpl; lia).
  change (bump_submitted (with_slot (c <| fc_next_id := u32 (fc_next_id c + 1) |>) slot
    (queued c r))) with (with_slot (submitted c) slot (queued c r)).
  rewrite !put_request_in, !with_slot_twice, !obind_Some
    by (simpl; rewrite length_insert; lia).
  unfold submit_spec. case_if.
  - assert (chain c = []) as ->.
    { apply length_zero_iff_nil. rewrite fm_chain_length by done. simpl in *. lia. }
    change (bump_completed (with_slot ?c slot ?r)) with (with_slot (bump_completed c) slot r).
    rewrite (finish_request_spec _ _ _ _ (Hget (bump_completed (submitted c)) _ eq_refl)).
    rewrite obind_Some, with_slot_twice. cbn [run_chain].
    change (rq_status (queued c r) <| rq_status := _ |> =? _) with true. cbv iota zeta.
    change ((queued c r) <| rq_status := FLMGR_REQ_IN_PROGRESS |>
      <| rq_status := FLMGR_REQ_COMPLETED |>)
      with ((queued c r) <| rq_status := FLMGR_REQ_COMPLETED |>).
    destruct (notify _ w) as [w' r3]. by eexists w', _, r3, r3, Passed, FLMGR_OK.
  - destruct (walk_chain_spec slot (chain c) (Z.to_nat (fc_filter_count c)) 0
      (with_slot (submitted c) slot (queued c r) <| rq_status := FLMGR_REQ_IN_PROGRESS |>)
      (queued c r) <| rq_status := FLMGR_REQ_IN_PROGRESS |> (queued c r) w)
      as (w' & r' & o & Hrun & Hw);
      [apply Hc|lia|by apply fm_chain_length|intros j f Hj; exact (chain_aget c j f Hc Hj)|by apply Hget|].
    rewrite Hrun.
    change (fc_filter_count (with_slot _ _ _)) with (fc_filter_count c).
    rewrite Hw, obind_Some, with_slot_twice. cbv iota beta.
    destruct o; [by eexists _, _, _, _, _, _..| |].
    + pose proof (run_chain_completed _ _ _ _ _ Hrun) as Hst. rewrite Hst.
      change (count_outcome Completed r' (with_slot (submitted c) slot r'))
        with (with_slot (bump_completed (submitted c)) slot r').
      rewrite Hget, obind_Some, Hst by done.
      change (FLMGR_REQ_COMPLETED =? FLMGR_REQ_IN_PROGRESS) with false. cbv iota zeta.
      rewrite obind_Some, (finish_request_spec _ _ _ _ (Hget (bump_completed (submitted c)) _ eq_refl)), obind_Some.
      rewrite with_slot_twice. destruct (notify r' w') as [w2 r3].
      by eexists _, _, _, _, _, _.
    + rewrite Hget, obind_Some by done. destruct (rq_status r' =? _) eqn:Hst; cbv zeta.
      * rewrite put_request_in, !obind_Some by (simpl; rewrite length_insert; lia).
        rewrite with_slot_twice.
        change (bump_completed (with_slot ?c slot ?r)) with (with_slot (bump_completed c) slot r).
        rewrite (finish_request_spec _ _ _ _ (Hget (bump_completed (submitted c)) _ eq_refl)).
        rewrite obind_Some, with_slot_twice. destruct (notify _ w') as [w2 r3].
        eexists _, _, _, _, _, _. split; [done|]. simpl. by rewrite Hst.
      * rewrite obind_Some, (finish_request_spec _ _ _ _ (Hget (submitted c) _ eq_refl)), obind_Some.
        rewrite with_slot_twice. destruct (notify r' w') as [w2 r3].
        eexists _, _, _, _, _, _. split; [done|]. simpl. by rewrite Hst.
Qed.

Lemma find_slot c :
  fm_ok c →
  ∃ slot, find_up (Z.to_nat FLMGR_MAX_PENDING) 0 (fc_requests c) slot_free = Some slot ∧
    match slot with
    | Some i => 0 ≤ i < 256 ∧ ∃ q, fc_requests c !! Z.to_nat i = Some q ∧ slot_free q = true ∧
                Forall (λ q, slot_free q = false) (take (Z.to_nat i) (fc_requests c))
    | None => Forall (λ q, slot_free q = false) (fc_requests c)
    end.
Proof.
  intros Hc. destruct (fm_len _ Hc) as [_ Hlen].
  destruct (find_up_spec (Z.to_nat FLMGR_MAX_PENDING) 0 (fc_requests c) slot_free)
    as (slot & Hf & Hs); [lia|unfold FLMGR_MAX_PENDING; lia|].
  change (0 + Z.of_nat (Z.to_nat FLMGR_MAX_PENDING)) with 256 in Hs.
  exists slot. split; [done|]. destruct slot as [i|].
  - destruct Hs as (Hi & (q & Hq & Hfree) & Hb). split; [done|]. exists q.
    rewrite aget_to_nat in Hq by lia. split_and!; try done.
    apply Forall_lookup. intros j x Hx. rewrite lookup_take in Hx.
    case_decide; [|done]. apply (Hb (Z.of_nat j)); [lia|]. by rewrite aget_of_nat.
  - apply Forall_lookup. intros j x Hx. pose proof (lookup_lt_Some _ _ _ Hx).
    apply (Hs (Z.of_nat j)); [lia|]. by rewrite aget_of_nat.
Qed.

(** Changing a request and the fate counters keeps the table invariant. *)
Lemma fm_ok_slot c slot r : fm_ok c → fm_ok (with_slot c slot r).
Proof. intros [[? ?]]. split; try done. simpl. by rewrite length_insert. Qed.
Lemma fm_ok_submitted c : fm_ok c → fm_ok (submitted c).
Proof. intros []. by split. Qed.
Lemma fm_ok_outcome o r c : fm_ok c → fm_ok (count_outcome o r c).
Proof. intros []. destruct o; simpl; [by split..|]. case_if; by split. Qed.
Hint Resolve fm_ok_slot fm_ok_submitted fm_ok_outcome : cmodel.

(** What [fltrmgr_submit_request] does, in one statement. *)
Lemma submit_cases c r w :
  fm_ok c → rq_buffer r ≠ 0 →
  (∃ slot q w' r1 r2 r3 o st,
     0 ≤ slot < 256 ∧ fc_requests c !! Z.to_nat slot = Some q ∧ slot_free q = true ∧
     Forall (λ q, slot_free q = false) (take (Z.to_nat slot) (fc_requests c)) ∧
     submit_spec (chain c) (queued c r) w = (w', r1, r2, r3, o, st) ∧
     fltrmgr_submit_request call_filter call_completion (Some c) (Some r) w =
       Some (w', Some (count_outcome o r1 (with_slot (submitted c) slot r2)), Some r3, st)) ∨
  (Forall (λ q, slot_free q = false) (fc_requests c) ∧
   fltrmgr_submit_request call_filter call_completion (Some c) (Some r) w =
     Some (w, Some c, Some r, FLMGR_ERR_REQUEST_FULL)).
Proof.
  intros Hc Hb. destruct (find_slot c Hc) as ([slot|] & Hf & Hs).
  - left. destruct Hs as (Hr & q & Hq & Hfree & Hbefore).
    destruct (submit_into c r w slot) as (w' & r1 & r2 & r3 & o & st & Hspec & Hsub);
      try done.
    by exists slot, q, w', r1, r2, r3, o, st.
  - right. split; [done|]. unfold fltrmgr_submit_request.
    rewrite (proj2 (Z.eqb_neq _ 0)) by done. by rewrite Hf, obind_Some.
Qed.

(** [C35] A submission runs the filter chain: with a well-formed table and a
    request that has a buffer, [fltrmgr_submit_request] takes the first free
    slot, runs the registered filters in priority order on the queued copy
    until one fails, cancels or completes it, and stores, counts and reports
    exactly the outcome of that run; when no slot is free it reports
    REQUEST_FULL and changes nothing. The table invariant is kept. *)
Theorem fltrmgr_submit_refines_chain c r w :
  fm_ok c → rq_buffer r ≠ 0 →
  (∃ slot q w' r1 r2 r3 o st c',
     0 ≤ slot < 256 ∧ fc_requests c !! Z.to_nat slot = Some q ∧ slot_free q = true ∧
     Forall (λ q, slot_free q = false) (take (Z.to_nat slot) (fc_requests c)) ∧
     submit_spec (chain c) (queued c r) w = (w', r1, r2, r3, o, st) ∧
     c' = count_outcome o r1 (with_slot (submitted c) slot r2) ∧
     fltrmgr_submit_request call_filter call_completion (Some c) (Some r) w =
       Some (w', Some c', Some r3, st) ∧ fm_ok c' ∧ chain c' = chain c) ∨
  (Forall (λ q, slot_free q = false) (fc_requests c) ∧
   fltrmgr_submit_request call_filter call_completion (Some c) (Some r) w =
     Some (w, Some c, Some r, FLMGR_ERR_REQUEST_FULL)).
Proof.
  intros Hc Hb. destruct (submit_cases c r w Hc Hb)
    as [(slot & q & w' & r1 & r2 & r3 & o & st & Hr & Hq & Hfr & Hbf & Hs & He)|?];
    [left|by right].
  eexists slot, q, w', r1, r2, r3, o, st, _. split_and!; try done; try lia; eauto with cmodel.
  unfold count_outcome. destruct o; try done. by case_if.
Qed.

(** ** Accounting *)

(** A filter that lets the request go leaves it in progress, completed or
    cancelled. *)
Definition polite : Prop := ∀ fn r x w w' r',
  call_filter fn r x w = (w', r', FLMGR_OK) →
  rq_status r' = FLMGR_REQ_IN_PROGRESS ∨ rq_status r' = FLMGR_REQ_COMPLETED ∨
  rq_status r' = FLMGR_REQ_CANCELLED.

(** Every submission has been completed, failed or cancelled. *)
Definition balanced c : Prop :=
  total_submitted (fc_stats c) =
    u32 (total_completed (fc_stats c) + total_failed (fc_stats c) + total_cancelled (fc_stats c)).

Lemma run_chain_passed fs r w w' r' :
  polite → rq_status r = FLMGR_REQ_IN_PROGRESS → run_chain fs r w = (w', r', Passed) →
  rq_status r' = FLMGR_REQ_IN_PROGRESS.
Proof.
  intros Hpol. revert r w. induction fs as [|f fs IH]; intros r w Hr; simpl.
  { by intros [= _ <-]. }
  destruct (call_filter _ _ _ _) as [[w1 r1] res] eqn:E.
  case_if; [done|]. case_if; [done|]. case_if; [done|]. subst.
  apply IH. destruct (Hpol _ _ _ _ _ _ E) as [?|[?|?]]; done.
Qed.

(** Conservation of requests: when filters only let a request go in
    progress, completed or cancelled, every accepted submission is counted
    exactly once as completed, failed or cancelled (modulo the 32-bit wrap of
    the counters). *)
Theorem fltrmgr_submit_balanced c r w w' c' q st :
  polite → fm_ok c → balanced c →
  fltrmgr_submit_request call_filter call_completion (Some c) (Some r) w =
    Some (w', Some c', q, st) → balanced c'.
Proof.
  intros Hpol Hc Hbal. destruct (decide (rq_buffer r = 0)) as [E|Hb].
  { unfold fltrmgr_submit_request. rewrite E. by intros [= _ <-]. }
  destruct (submit_cases c r w Hc Hb)
    as [(slot & q1 & w1 & r1 & r2 & r3 & o & st1 & _ & _ & _ & _ & Hs & ->)|[_ ->]];
    [|by intros [= _ <-]].
  intros [= _ <- _ _].
  assert (o = Passed → rq_status r1 = FLMGR_REQ_IN_PROGRESS) as Hst.
  { intros ->. unfold submit_spec in Hs.
    destruct (run_chain _ _ _) as [[wa ra] oa] eqn:Er.
    destruct oa; try done; (destruct (notify _ _) as [wb rb]); simplify_eq.
    eapply run_chain_passed; [done| |exact Er]. done. }
  unfold balanced in *. destruct o; simpl; rewrite ?Hst by done; simpl; rewrite Hbal;
    unfold u32, wrap; zdm.
Qed.

(** ** Cancellation and flushing *)

Lemma cancel_spec c id :
  fm_ok c → id ≠ FLMGR_INVALID_ID →
  fltrmgr_cancel_request (Some c) id = Some (Some c, FLMGR_ERR_NOT_FOUND).
Proof.
  intros Hc Hid. unfold fltrmgr_cancel_request, find_request_by_id.
  rewrite (proj2 (Z.eqb_neq _ _)) by done. by rewrite (fm_request_count _ Hc).
Qed.

(** One slot of a flush: an unfinished request is cancelled and notified. *)
Lemma flush_slot_spec c i r w :
  aget (fc_requests c) i = Some r →
  flush_slot call_completion i (w, c) =
    Some (if (rq_status r =? FLMGR_REQ_PENDING) || (rq_status r =? FLMGR_REQ_IN_PROGRESS)
          then let n := notify (r <| rq_status := FLMGR_REQ_CANCELLED |>) w in
               (n.1, bump_cancelled (with_slot c i n.2))
          else (w, c)).
Proof.
  intros Hr. unfold flush_slot. rewrite Hr, obind_Some. case_if; [|done].
  pose proof (aget_lt _ _ _ Hr). rewrite put_request_in, obind_Some by done.
  rewrite (complete_request_spec _ _ (r <| rq_status := FLMGR_REQ_CANCELLED |>))
    by (by apply with_slot_get).
  change (bump_cancelled (with_slot c i ?r)) with (with_slot (bump_cancelled c) i r).
  by rewrite with_slot_twice.
Qed.

Lemma fm_ok_bump c : fm_ok c → fm_ok (bump_cancelled c).
Proof. intros []. by split. Qed.
Hint Resolve fm_ok_bump : cmodel.

(** Flushing keeps the invariant and every finished request. *)
Lemma fltrmgr_flush_spec c w :
  fm_ok c →
  ∃ w' c', fltrmgr_flush_chain call_completion (Some c) w = Some (w', Some c', FLMGR_OK) ∧
    fm_ok c' ∧ chain c' = chain c ∧
    ∀ i r, fc_requests c !! i = Some r → rq_status r ≠ FLMGR_REQ_PENDING →
      rq_status r ≠ FLMGR_REQ_IN_PROGRESS → fc_requests c' !! i = Some r.
Proof.
  intros Hc. unfold fltrmgr_flush_chain.
  destruct (for_up_inv (λ k s, fm_ok s.2 ∧ chain s.2 = chain c ∧
      (∀ i r, fc_requests c !! i = Some r → rq_status r ≠ FLMGR_REQ_PENDING →
         rq_status r ≠ FLMGR_REQ_IN_PROGRESS → fc_requests s.2 !! i = Some r))
    (Z.to_nat FLMGR_MAX_PENDING) 0 (flush_slot call_completion) (w, c))
    as ([w' c'] & -> & H1 & H2 & H3); [done| |].
  - intros j [w1 c1] Hj (H1 & H2 & H3); cbn [snd] in *.
    change (0 + Z.of_nat (Z.to_nat FLMGR_MAX_PENDING)) with 256 in Hj.
    destruct (fm_len _ H1) as [_ Hlen].
    destruct (aget_is_Some (fc_requests c1) j) as [q Hq]; [lia|].
    rewrite (flush_slot_spec _ _ q) by done. eexists. split; [done|].
    case_if; [|done]. cbn [snd]. split_and!; eauto with cmodel.
    intros i r Hi Hp Hip. simpl. pose proof (H3 i r Hi Hp Hip) as Hi1.
    rewrite list_lookup_insert_ne; [done|]. intros <-.
    rewrite aget_to_nat in Hq by lia. simplify_eq.
    apply orb_true_iff in Heqb as [?|?]; zbool; done.
  - rewrite obind_Some. by eexists _, _.
Qed.

(** [fltrmgr_cancel_request] never finds a request: the manager never
    counts the requests it stores, so on every well-formed state, whatever
    requests are pending, a valid id is reported as NOT_FOUND and nothing is
    cancelled. *)
Theorem fltrmgr_cancel_never_finds c id :
  fm_ok c → id ≠ FLMGR_INVALID_ID →
  fltrmgr_cancel_request (Some c) id = Some (Some c, FLMGR_ERR_NOT_FOUND).
Proof. apply cancel_spec. Qed.

(** ** Reachable states *)

(** Calls of the manager's interface; a name is a terminated string. *)
Inductive fm_op :=
  | FRegister (name rest : list Z) (priority callback fctx : Z)
  | FUnregister (name rest : list Z)
  | FSubmit (r : fltrmgr_request_t)
  | FCancel (id : Z)
  | FFlush
  | FReset.

Definition fm_op_ok (op : fm_op) : Prop :=
  match op with FRegister s _ _ _ _ | FUnregister s _ => nonzero s | _ => True end.

Definition fm_exec (op : fm_op) (s : W * fltrmgr_context_t) : option (W * fltrmgr_context_t) :=
  let '(w, c) := s in
  match op with
  | FRegister n y p cb x =>
      '(c, _) ← fltrmgr_register_filter (Some c) (Some (n ++ 0 :: y)) p cb x; c ← c; Some (w, c)
  | FUnregister n y =>
      '(c, _) ← fltrmgr_unregister_filter (Some c) (Some (n ++ 0 :: y)); c ← c; Some (w, c)
  | FSubmit r =>
      '(w, c, _, _) ← fltrmgr_submit_request call_filter call_completion (Some c) (Some r) w;
      c ← c; Some (w, c)
  | FCancel id => '(c, _) ← fltrmgr_cancel_request (Some c) id; c ← c; Some (w, c)
  | FFlush => '(w, c, _) ← fltrmgr_flush_chain call_completion (Some c) w; c ← c; Some (w, c)
  | FReset => '(c, _) ← fltrmgr_reset (Some c); c ← c; Some (w, c)
  end.

Fixpoint fm_run (ops : list fm_op) (s : W * fltrmgr_context_t) : option (W * fltrmgr_context_t) :=
  match ops with [] => Some s | op :: ops => s ← fm_exec op s; fm_run ops s end.

Definition stuck (i : nat) r c : Prop :=
  fc_requests c !! i = Some r ∧ rq_status r = FLMGR_REQ_FAILED.

Lemma requests_count_outcome o r c : fc_requests (count_outcome o r c) = fc_requests c.
Proof. destruct o; try done. simpl. by case_if. Qed.

Lemma submit_returns c r w :
  fm_ok c → ∃ w' c' q st, fltrmgr_submit_request call_filter call_completion (Some c) (Some r) w =
    Some (w', Some c', q, st).
Proof.
  intros Hc. destruct (decide (rq_buffer r = 0)) as [E|Hb].
  { unfold fltrmgr_submit_request. rewrite E. by do 4 eexists. }
  destruct (submit_cases c r w Hc Hb) as [(slot & q & w1 & r1 & r2 & r3 & o & st & _ & _ & _ & _ & _ & ->)|[_ ->]];
    by do 4 eexists.
Qed.

Lemma submit_step c r w w' c' q st :
  fm_ok c →
  fltrmgr_submit_request call_filter call_completion (Some c) (Some r) w =
    Some (w', Some c', q, st) →
  fm_ok c' ∧ ∀ i p, stuck i p c → stuck i p c'.
Proof.
  intros Hc. destruct (decide (rq_buffer r = 0)) as [E|Hb].
  { unfold fltrmgr_submit_request. rewrite E. by intros [= _ <-]. }
  destruct (submit_cases c r w Hc Hb)
    as [(slot & q1 & w1 & r1 & r2 & r3 & o & st1 & _ & Hq & Hf & _ & Hs & ->)|[_ ->]];
    [|by intros [= _ <-]].
  intros [= _ <- _ _]. split; [auto with cmodel|]. intros i p [Hi Hp]. split; [|done].
  rewrite requests_count_outcome. simpl. rewrite list_lookup_insert_ne; [done|].
  intros <-. simplify_eq. unfold slot_free in Hf. by rewrite Hp in Hf.
Qed.

(** Every call returns, keeps the invariant and, unless it resets the manager,
    the slots of failed requests. *)
Lemma fm_exec_spec op w c :
  fm_ok c → fm_op_ok op →
  ∃ w' c', fm_exec op (w, c) = Some (w', c') ∧ fm_ok c' ∧
    (op ≠ FReset → ∀ i r, stuck i r c → stuck i r c').
Proof.
  intros Hc Hop. destruct op as [n y p cb x|n y|r|id| |]; unfold fm_exec.
  - destruct (decide (cb = 0)) as [->|Hcb].
    { unfold fltrmgr_register_filter. rewrite Z.eqb_refl, !obind_Some. by exists w, c. }
    destruct (filter_register_spec c n y p cb x) as (c1 & st1 & -> & Hc1 & Hrq & _); try done.
    rewrite !obind_Some. exists w, c1. split; [done|]. split; [done|]. intros _. unfold stuck. by rewrite Hrq.
  - destruct (unregister_spec c n y) as (c1 & st1 & -> & Hc1 & Hrq & _); try done.
    rewrite !obind_Some. exists w, c1. split; [done|]. split; [done|]. intros _. unfold stuck. by rewrite Hrq.
  - destruct (submit_returns c r w Hc) as (w' & c' & q & st & E). destruct (submit_step _ _ _ _ _ _ _ Hc E) as [Hc' Hk].
    rewrite E, !obind_Some. by exists w', c'.
  - destruct (decide (id = FLMGR_INVALID_ID)) as [->|].
    + unfold fltrmgr_cancel_request. rewrite Z.eqb_refl, !obind_Some. by exists w, c.
    + rewrite cancel_spec, !obind_Some by done. by exists w, c.
  - destruct (fltrmgr_flush_spec c w Hc) as (w1 & c1 & -> & Hc1 & _ & Hkeep). rewrite !obind_Some.
    exists w1, c1. split; [done|]. split; [done|]. intros _ i r [Hi Hr].
    split; [|done]. apply Hkeep; [done|by rewrite Hr..].
  - rewrite fltrmgr_reset_spec, !obind_Some by done. exists w, (initial_context 256).
    split; [done|]. split; [apply initial_context_ok; lia|done].
Qed.

Lemma fm_run_spec ops w c :
  fm_ok c → Forall fm_op_ok ops → ∃ w' c', fm_run ops (w, c) = Some (w', c') ∧ fm_ok c' ∧
    (Forall (λ op, op ≠ FReset) ops → ∀ i r, stuck i r c → stuck i r c').
Proof.
  intros Hc Hops. revert w c Hc. induction Hops as [|op ops Hop _ IH]; intros w c Hc; [by exists w, c|].
  destruct (fm_exec_spec op w c Hc Hop) as (w1 & c1 & E1 & Hc1 & Hk1).
  destruct (IH w1 c1 Hc1) as (w2 & c2 & E2 & Hc2 & Hk2).
  exists w2, c2. cbn [fm_run]. rewrite E1, obind_Some. split; [done|]. split; [done|].
  intros [H1 H2]%Forall_cons_1. auto.
Qed.

(** [C38] Safety of the filter manager: [fltrmgr_init] succeeds, and after it
    every sequence of register, unregister, submit, cancel, flush and reset
    calls returns without leaving an array, whatever the callbacks do to their
    requests, and keeps the table invariant: a chain sorted by priority of
    active filters with callbacks and terminated names, cleared free slots,
    the exact filter count. *)
Theorem fltrmgr_reachable_ok c0 filter_cap req_cap ops w :
  0 ≤ filter_cap → 0 ≤ req_cap → Forall fm_op_ok ops →
  ∃ c w' c', fltrmgr_init (Some c0) filter_cap req_cap = Some (Some c, FLMGR_OK) ∧
    fm_run ops (w, c) = Some (w', c') ∧ fm_ok c'.
Proof.
  intros Hf Hr Hops. destruct (fltrmgr_init_spec c0 filter_cap req_cap Hf Hr) as (c & E & _ & Hc).
  destruct (fm_run_spec ops w c Hc Hops) as (w' & c' & E' & Hc' & _). by exists c, w', c'.
Qed.

(** A failed request occupies its slot for ever: no sequence of interface
    calls other than init and reset frees or changes it, so once all 256
    slots hold failed requests every later submission is refused. *)
Theorem fltrmgr_failed_slots_leak w c ops w' c' i r :
  fm_ok c → Forall fm_op_ok ops → Forall (λ op, op ≠ FReset) ops →
  fm_run ops (w, c) = Some (w', c') → stuck i r c →
  stuck i r c' ∧
  ((∀ j, (j < 256)%nat → ∃ q, stuck j q c) → ∀ req, rq_buffer req ≠ 0 →
    fltrmgr_submit_request call_filter call_completion (Some c') (Some req) w' =
      Some (w', Some c', Some req, FLMGR_ERR_REQUEST_FULL)).
Proof.
  intros Hc Hops Hnr E Hst. destruct (fm_run_spec ops w c Hc Hops) as (w2 & c2 & E2 & Hc' & Hk).
  rewrite E in E2. injection E2 as <- <-. specialize (Hk Hnr).
  split; [by apply Hk|]. intros Hall req Hb.
  destruct (submit_cases c' req w' Hc' Hb) as
    [(slot & q & w1 & r1 & r2 & r3 & o & st & Hr & Hq & Hf & _)|[_ He]]; [|done].
  destruct (Hall (Z.to_nat slot)) as [q1 [Hq1 Hst1]%Hk]; [lia|].
  simplify_eq. unfold slot_free in Hf. by rewrite Hst1 in Hf.
Qed.
End submission.

(** A flush of slots that were never handed out: with a request capacity below
    256 the remaining slots are zero-filled, which reads as PENDING. *)
Definition flushed_context (cap k : nat) : fltrmgr_context_t :=
  mk_context (replicate 32 zero_filter) 0
    (replicate (Nat.max cap k) cancelled_request ++
     replicate (256 - Nat.max cap k) zero_request) 0 1
    (mk_stats 0 0 0 (Z.of_nat (k - cap)) 0) OWC_TRAP_BASE.

Lemma flush_phantom_slot {W} (call : Z → fltrmgr_request_t → Z → W → W * fltrmgr_request_t)
    cap (k : nat) w :
  (cap ≤ 256)%nat → (k < 256)%nat →
  flush_slot call (Z.of_nat k) (w, flushed_context cap k) = Some (w, flushed_context cap (S k)).
Proof.
  intros Hcap Hk. set (c := flushed_context cap k).
  destruct (decide (k < cap)%nat) as [Hlt|Hge].
  - assert (aget (fc_requests c) (Z.of_nat k) = Some cancelled_request) as Hget.
    { rewrite aget_of_nat. simpl. rewrite lookup_app_l by (rewrite length_replicate; lia).
      apply lookup_replicate_2. lia. }
    rewrite (flush_slot_spec call c _ _ w Hget). simpl. unfold c, flushed_context.
    replace (Nat.max cap (S k)) with (Nat.max cap k) by lia.
    by replace (S k - cap)%nat with (k - cap)%nat by lia.
  - assert (fc_requests c = replicate k cancelled_request ++
              zero_request :: replicate (255 - k) zero_request) as Hrq.
    { simpl. rewrite Nat.max_r by lia. f_equal. by replace (256 - k)%nat with (S (255 - k)) by lia. }
    assert (aget (fc_requests c) (Z.of_nat k) = Some zero_request) as Hget.
    { rewrite Hrq, aget_of_nat, lookup_app_r, length_replicate, Nat.sub_diag;
        rewrite ?length_replicate; (done || lia). }
    rewrite (flush_slot_spec call c _ _ w Hget). simpl. do 2 f_equal.
    unfold bump_cancelled, with_slot. rewrite Hrq, Nat2Z.id, insert_app_r_alt, length_replicate,
      Nat.sub_diag by (rewrite length_replicate; lia). simpl.
    unfold flushed_context. rewrite (Nat.max_r cap (S k)) by lia.
    f_equal; [|f_equal; rewrite u32_small by lia; lia].
    rewrite replicate_S_end, <-app_assoc. simpl. by replace (256 - S k)%nat with (255 - k)%nat by lia.
Qed.

(** Flushing a manager initialised with a request capacity below 256
    counts every unused slot as a cancelled request and makes it usable: no
    request was submitted, yet [256 - cap] cancellations are counted and all
    256 slots are free afterwards. *)
Theorem fltrmgr_flush_phantom_cancellations {W}
    (call : Z → fltrmgr_request_t → Z → W → W * fltrmgr_request_t) cap w :
  (cap ≤ 256)%nat →
  ∃ c', fltrmgr_flush_chain call (Some (initial_context cap)) w = Some (w, Some c', FLMGR_OK) ∧
    total_submitted (fc_stats c') = 0 ∧
    total_cancelled (fc_stats c') = 256 - Z.of_nat cap ∧
    Forall (λ r, slot_free r = true) (fc_requests c').
Proof.
  intros Hcap. exists (flushed_context cap 256). unfold fltrmgr_flush_chain.
  destruct (for_up_inv (λ k s, s = (w, flushed_context cap (Z.to_nat k)))
    (Z.to_nat FLMGR_MAX_PENDING) 0 (flush_slot call) (w, initial_context cap))
    as (s & -> & ->).
  - unfold initial_context, flushed_context. simpl Z.to_nat. rewrite Nat.max_l by lia. done.
  - intros j s Hj ->. change (0 + Z.of_nat (Z.to_nat FLMGR_MAX_PENDING)) with 256 in Hj.
    eexists. split; [|reflexivity].
    replace (Z.to_nat (j + 1)) with (S (Z.to_nat j)) by lia.
    rewrite <-(flush_phantom_slot call) by lia. by rewrite Z2Nat.id by lia.
  - rewrite obind_Some. split_and!; [done|done|cbn; lia|]. cbn [fc_requests flushed_context].
    rewrite Nat.max_r by lia. apply Forall_app. split; [|constructor].
    by apply Forall_replicate.
Qed.

(** ** Witnesses *)
Lemma fltrmgr_register_sorted_insert_witness :
  ∃ c' st, fltrmgr_register_filter (Some (initial_context 256)) (Some ([65] ++ 0 :: [])) 5 1 0 =
      Some (Some c', st) ∧ fm_ok c' ∧ fc_requests c' = fc_requests (initial_context 256) ∧
    (st = FLMGR_ERR_ALREADY_ACTIVE ∧ [65] ∈ (fname <$> chain (initial_context 256)) ∧
       c' = initial_context 256 ∨
     st = FLMGR_ERR_FILTER_FULL ∧ [65] ∉ (fname <$> chain (initial_context 256)) ∧
       fc_filter_count (initial_context 256) = 32 ∧ c' = initial_context 256 ∨
     st = FLMGR_OK ∧ [65] ∉ (fname <$> chain (initial_context 256)) ∧
     chain c' = insert_by_priority (new_filter [65] 5 1 0) (chain (initial_context 256))).
Proof.
  apply (fltrmgr_register_sorted_insert (initial_context 256) [65] [] 5 1 0);
    [apply initial_context_ok; lia|by repeat constructor|done].
Defined.

Lemma fltrmgr_unregister_removes_one_witness :
  ∃ c' st, fltrmgr_unregister_filter (Some (initial_context 256)) (Some ([65] ++ 0 :: [])) =
      Some (Some c', st) ∧ fm_ok c' ∧ fc_requests c' = fc_requests (initial_context 256) ∧
    (st = FLMGR_ERR_NOT_FOUND ∧ [65] ∉ (fname <$> chain (initial_context 256)) ∧
       c' = initial_context 256 ∨
     st = FLMGR_OK ∧ ∃ k f, chain (initial_context 256) !! k = Some f ∧ fname f = [65] ∧
       chain c' = take k (chain (initial_context 256)) ++ drop (S k) (chain (initial_context 256))).
Proof.
  apply (fltrmgr_unregister_removes_one (initial_context 256) [65] []);
    [apply initial_context_ok; lia|by repeat constructor].
Defined.

(** A manager with one filter of a 32-character name. *)
Definition long_name : list Z := replicate 32 65.
Definition long_context : fltrmgr_context_t :=
  match fltrmgr_register_filter (Some (initial_context 256)) (Some (long_name ++ 0 :: [])) 5 1 0 with
  | Some (Some c, _) => c
  | _ => initial_context 256
  end.

Lemma fltrmgr_long_name_unremovable_witness :
  fltrmgr_unregister_filter (Some long_context) (Some (long_name ++ 0 :: [])) =
    Some (Some long_context, FLMGR_ERR_NOT_FOUND).
Proof.
  apply (fltrmgr_long_name_unremovable (initial_context 256) long_name [] 5 1 0);
    [apply initial_context_ok; lia|by apply Forall_replicate|done|
     by vm_compute; lia|vm_compute; reflexivity].
Defined.

Lemma fltrmgr_init_establishes_witness :
  (∃ c', fltrmgr_init (Some zero_context) 8 16 = Some (Some c', FLMGR_OK) ∧
     c' = initial_context (Z.to_nat (Z.min 16 256)) ∧ fm_ok c') ∧
  fltrmgr_reset (Some (initial_context 16)) = Some (Some (initial_context 256), FLMGR_OK).
Proof.
  apply (fltrmgr_init_establishes zero_context 8 16 (initial_context 16));
    [lia|lia|apply initial_context_ok; lia].
Defined.

(** Callbacks for the witnesses: a filter that lets every request pass, and a
    completion callback that does nothing. *)
Definition pass_filter (_ : Z) (r : fltrmgr_request_t) (_ : Z) (w : unit)
  : unit * fltrmgr_request_t * Z := (w, r <| rq_status := FLMGR_REQ_IN_PROGRESS |>, FLMGR_OK).
Definition silent_completion (_ : Z) (r : fltrmgr_request_t) (_ : Z) (w : unit)
  : unit * fltrmgr_request_t := (w, r).
Definition demo_request : fltrmgr_request_t := zero_request <| rq_buffer := 4096 |>.

Lemma long_context_ok : fm_ok long_context.
Proof.
  destruct (filter_register_spec (initial_context 256) long_name [] 5 1 0)
    as (c' & st & Heq & Hok & _);
    [apply initial_context_ok; lia|by apply Forall_replicate|done|].
  unfold long_context. by rewrite Heq.
Qed.

Lemma fltrmgr_submit_refines_chain_witness :
  let c := long_context in let r := demo_request in
  (∃ slot q w' r1 r2 r3 o st c',
     0 ≤ slot < 256 ∧ fc_requests c !! Z.to_nat slot = Some q ∧ slot_free q = true ∧
     Forall (λ q, slot_free q = false) (take (Z.to_nat slot) (fc_requests c)) ∧
     submit_spec pass_filter silent_completion (chain c) (queued c r) tt =
       (w', r1, r2, r3, o, st) ∧
     c' = count_outcome o r1 (with_slot (submitted c) slot r2) ∧
     fltrmgr_submit_request pass_filter silent_completion (Some c) (Some r) tt =
       Some (w', Some c', Some r3, st) ∧ fm_ok c' ∧ chain c' = chain c) ∨
  (Forall (λ q, slot_free q = false) (fc_requests c) ∧
   fltrmgr_submit_request pass_filter silent_completion (Some c) (Some r) tt =
     Some (tt, Some c, Some r, FLMGR_ERR_REQUEST_FULL)).
Proof.
  intros c r. apply (fltrmgr_submit_refines_chain pass_filter silent_completion c r tt);
    [apply long_context_ok|done].
Defined.

Definition demo_submitted : fltrmgr_context_t :=
  match fltrmgr_submit_request pass_filter silent_completion (Some long_context)
          (Some demo_request) tt with
  | Some (_, Some c, _, _) => c
  | _ => long_context
  end.

Lemma fltrmgr_submit_balanced_witness : balanced demo_submitted.
Proof.
  apply (fltrmgr_submit_balanced pass_filter silent_completion long_context demo_request tt tt
    demo_submitted (Some (demo_request <| rq_id := 1 |> <| rq_status := FLMGR_REQ_COMPLETED |>))
    FLMGR_OK).
  - intros fn r x w w' r'. unfold pass_filter. intros [= _ <-]. by left.
  - apply long_context_ok.
  - reflexivity.
  - vm_compute. reflexivity.
Defined.

Lemma fltrmgr_cancel_never_finds_witness :
  fltrmgr_cancel_request (Some demo_submitted) 1 = Some (Some demo_submitted, FLMGR_ERR_NOT_FOUND).
Proof.
  apply (fltrmgr_cancel_never_finds demo_submitted 1); [|done].
  refine (proj1 (submit_step pass_filter silent_completion long_context demo_request tt tt
    demo_submitted _ FLMGR_OK long_context_ok _)). vm_compute. reflexivity.
Defined.

(** Two filters, a submission through both, and the calls that end them. *)
Definition demo_ops : list fm_op :=
  [FRegister [65] [] 5 1 0; FRegister [66] [] 2 1 0; FSubmit demo_request; FCancel 1; FFlush; FUnregister [65] []].

Lemma fltrmgr_reachable_ok_witness :
  ∃ c w' c', fltrmgr_init (Some zero_context) 8 16 = Some (Some c, FLMGR_OK) ∧
    fm_run pass_filter silent_completion demo_ops (tt, c) = Some (w', c') ∧ fm_ok c'.
Proof.
  apply (fltrmgr_reachable_ok pass_filter silent_completion zero_context 8 16 demo_ops tt); [lia|lia|].
  repeat constructor; lia.
Defined.

(** All slots failed. *)
Definition failed_request : fltrmgr_request_t :=
  zero_request <| rq_status := FLMGR_REQ_FAILED |>.
Definition failed_context : fltrmgr_context_t :=
  (initial_context 256) <| fc_requests := replicate 256 failed_request |>.

Lemma fltrmgr_failed_slots_leak_witness :
  stuck 3 failed_request failed_context ∧
  ((∀ j, (j < 256)%nat → ∃ q, stuck j q failed_context) → ∀ req, rq_buffer req ≠ 0 →
    fltrmgr_submit_request pass_filter silent_completion (Some failed_context) (Some req) tt =
      Some (tt, Some failed_context, Some req, FLMGR_ERR_REQUEST_FULL)).
Proof.
  apply (fltrmgr_failed_slots_leak pass_filter silent_completion tt failed_context [] tt
    failed_context 3 failed_request).
  - destruct (initial_context_ok 256) as [[? ?]]; [lia|]. by split.
  - constructor.
  - constructor.
  - reflexivity.
  - by split.
Defined.

Lemma fltrmgr_flush_phantom_cancellations_witness :
  ∃ c', fltrmgr_flush_chain silent_completion (Some (initial_context 16)) tt =
      Some (tt, Some c', FLMGR_OK) ∧
    total_submitted (fc_stats c') = 0 ∧ total_cancelled (fc_stats c') = 256 - Z.of_nat 16 ∧
    Forall (λ r, slot_free r = true) (fc_requests c').
Proof. apply (fltrmgr_flush_phantom_cancellations silent_completion 16 tt). lia. Defined.
