(* ===== verification/Htl.v ===== *)
(** The hardware translation layer, [DLL/htl/htl.h] and [htl.c]: device table,
    block cache, multi-sector I/O and statistics, one definition per C
    function.

    The device callbacks are code of other drivers: function pointers are
    integers ([0] is [NULL]) interpreted by the section variables, which act
    on a world state [W]. *)
From S2P Require Import Prelude.

(** ** Constants ([htl.h]) *)
Definition VIP_SECTOR_SIZE : Z := 512.
Definition HTL_CACHE_DATA_SIZE : Z := 4096.
Definition HTL_MAX_DEVICES : Z := 8.
Definition HTL_NAME_LEN : Z := 32.

Definition HTL_OK : Z := 0.
Definition HTL_ERR_IO : Z := 0x0011A000.
Definition HTL_ERR_INVALID_BLOCK : Z := 0x0011A001.
Definition HTL_ERR_NOT_READY : Z := 0x0011A801.
Definition HTL_ERR_WRITE_PROTECT : Z := 0x0011A802.
Definition HTL_ERR_NO_DEVICE : Z := 0x0011AE00.
Definition HTL_ERR_INVALID_PARAM : Z := 0x0011AE01.

Definition HTL_DEV_NVME : Z := 1.
Definition HTL_DEV_AHCI_SATA : Z := 2.
Definition HTL_DEV_USB_MASS : Z := 3.

(** ** Data *)
Record htl_device_t := mk_device {
  d_read_block : Z;             (* function pointers, 0 is NULL *)
  d_write_block : Z;
  d_flush_cache : Z;
  d_entropy : Z;
  d_driver_ctx : Z;             (* void * *)
  d_device_type : Z;
  d_block_size : Z;             (* uint32_t *)
  d_total_blocks : Z;           (* uint32_t *)
  d_write_protect : Z;          (* uint8_t *)
  d_reserved : list Z;          (* uint8_t[3] *)
  d_name : list Z               (* char[HTL_NAME_LEN] *)
}.
#[export] Instance eta_device : Eta htl_device_t := λ d,
  mk_device (d_read_block d) (d_write_block d) (d_flush_cache d) (d_entropy d)
    (d_driver_ctx d) (d_device_type d) (d_block_size d) (d_total_blocks d)
    (d_write_protect d) (d_reserved d) (d_name d).

Record htl_device_info_t := mk_info {
  i_device_type : Z;
  i_block_size : Z;
  i_total_blocks : Z;
  i_write_protect : Z;
  i_name : list Z;
  i_sector_count : Z
}.

Record htl_stats_t := mk_hstats {
  s_reads : Z;                  (* uint64_t each *)
  s_writes : Z;
  s_flushes : Z;
  s_errors : Z;
  s_bytes_read : Z;
  s_bytes_written : Z
}.
#[export] Instance eta_hstats : Eta htl_stats_t := λ s,
  mk_hstats (s_reads s) (s_writes s) (s_flushes s) (s_errors s) (s_bytes_read s)
    (s_bytes_written s).

Record htl_cache_entry_t := mk_centry {
  ce_block_num : Z;             (* uint32_t *)
  ce_dirty : Z;                 (* uint8_t *)
  ce_valid : Z;                 (* uint8_t *)
  ce_device_idx : Z;            (* uint8_t *)
  ce_reserved : Z;
  ce_access_order : Z;          (* uint32_t *)
  ce_data : list Z              (* uint8_t[HTL_CACHE_DATA_SIZE] *)
}.
#[export] Instance eta_centry : Eta htl_cache_entry_t := λ e,
  mk_centry (ce_block_num e) (ce_dirty e) (ce_valid e) (ce_device_idx e) (ce_reserved e)
    (ce_access_order e) (ce_data e).

Record htl_cache_t := mk_cache {
  hc_entries : ptr (list htl_cache_entry_t);
  hc_count : Z;                 (* uint32_t *)
  hc_capacity : Z;              (* uint32_t *)
  hc_hits : Z;                  (* uint64_t *)
  hc_misses : Z
}.
#[export] Instance eta_cache : Eta htl_cache_t := λ c,
  mk_cache (hc_entries c) (hc_count c) (hc_capacity c) (hc_hits c) (hc_misses c).

Record htl_context_t := mk_hctx {
  h_devices : list htl_device_t;  (* [HTL_MAX_DEVICES] *)
  h_device_count : Z;
  h_cache : htl_cache_t;
  h_stats : list htl_stats_t;     (* [HTL_MAX_DEVICES] *)
  h_access_counter : Z            (* uint32_t *)
}.
#[export] Instance eta_hctx : Eta htl_context_t := λ c,
  mk_hctx (h_devices c) (h_device_count c) (h_cache c) (h_stats c) (h_access_counter c).

(** Zero-filled objects. *)
Definition zero_device : htl_device_t :=
  mk_device 0 0 0 0 0 0 0 0 0 [0; 0; 0] (replicate (Z.to_nat HTL_NAME_LEN) 0).
Definition zero_hstats : htl_stats_t := mk_hstats 0 0 0 0 0 0.
Definition zero_centry : htl_cache_entry_t :=
  mk_centry 0 0 0 0 0 0 (replicate (Z.to_nat HTL_CACHE_DATA_SIZE) 0).

(** ** Helpers *)
Definition validate_device_idx (ctx : ptr htl_context_t) (device_idx : Z) : Z :=
  match ctx with
  | None => HTL_ERR_INVALID_PARAM
  | Some c => if h_device_count c <=? device_idx then HTL_ERR_NO_DEVICE else HTL_OK
  end.

Definition device_valid (dev : htl_device_t) : bool :=
  if (d_read_block dev =? 0) || (d_write_block dev =? 0) then false
  else if (d_block_size dev =? 0) || (d_total_blocks dev =? 0) then false
  else true.

Definition sat_add_u64 (a b : Z) : Z :=
  let r := u64 (a + b) in if r <? a then UINT64_MAX else r.

Definition entry_matches (device_idx block_num : Z) (e : htl_cache_entry_t) : bool :=
  nz (ce_valid e) && (ce_device_idx e =? u8 device_idx) && (ce_block_num e =? block_num).

(** The entry index of a cached block; [-1] when it is not cached. *)
Definition cache_find (cache : htl_cache_t) (device_idx block_num : Z) : option Z :=
  match hc_entries cache with
  | None => if hc_count cache =? 0 then Some (-1) else UB
  | Some es =>
      r ← find_up (Z.to_nat (hc_count cache)) 0 es (entry_matches device_idx block_num);
      Some (default (-1) r)
  end.

(** The oldest clean entry: [victim_idx], [oldest_order], [found_clean]. *)
Definition victim_scan (cache : htl_cache_t) (es : list htl_cache_entry_t)
    : option (Z * Z * bool) :=
  for_up (Z.to_nat (hc_capacity cache)) 0
    (λ i s, let '(victim_idx, oldest_order, found_clean) := s in
       e ← aget es i;
       if negb (nz (ce_dirty e)) && (ce_access_order e <? oldest_order)
       then Some (i, ce_access_order e, true)
       else Some (victim_idx, oldest_order, found_clean))
    (0, UINT32_MAX, false).

(** The entry fields a (re)used slot gets. *)
Definition fill_entry (e : htl_cache_entry_t) (device_idx block_num : Z)
    (data : ptr (list Z)) (access_counter : Z) : option htl_cache_entry_t :=
  let e := e <| ce_device_idx := u8 device_idx |> <| ce_block_num := block_num |>
             <| ce_dirty := 0 |> <| ce_valid := 1 |>
             <| ce_access_order := access_counter |> in
  match data with
  | None => Some e
  | Some src => d ← copy_bytes HTL_CACHE_DATA_SIZE src (ce_data e);
                Some (e <| ce_data := d |>)
  end.

Definition cache_insert (cache : htl_cache_t) (device_idx block_num : Z)
    (data : ptr (list Z)) (access_counter : Z) : option (htl_cache_t * Z) :=
  if hc_capacity cache =? 0 then Some (cache, HTL_ERR_INVALID_PARAM)
  else
    es ← hc_entries cache;
    free ← find_up (Z.to_nat (hc_capacity cache)) 0 es (λ e, negb (nz (ce_valid e)));
    match free with
    | Some i =>
        e ← aget es i;
        e ← fill_entry e device_idx block_num data access_counter;
        es ← aset es i e;
        let count := if hc_count cache <? hc_capacity cache
                     then u32 (hc_count cache + 1) else hc_count cache in
        Some (cache <| hc_entries := Some es |> <| hc_count := count |>, HTL_OK)
    | None =>
        '(victim_idx, _, found_clean) ← victim_scan cache es;
        if negb found_clean then Some (cache, HTL_ERR_IO)
        else
          e ← aget es victim_idx;
          e ← fill_entry e device_idx block_num data access_counter;
          es ← aset es victim_idx e;
          Some (cache <| hc_entries := Some es |>, HTL_OK)
    end.

(** ** Lifecycle *)
Definition htl_init (ctx : ptr htl_context_t) (cache_buf : ptr (list htl_cache_entry_t))
    (cache_cap : Z) : option (ptr htl_context_t * Z) :=
  match ctx with
  | None => Some (ctx, HTL_ERR_INVALID_PARAM)
  | Some _ =>
      buf ← match cache_buf with
            | Some es =>
                if 0 <? cache_cap then
                  es ← for_up (Z.to_nat cache_cap) 0 (λ i es, aset es i zero_centry) es;
                  Some (Some es)
                else Some (Some es)
            | None => Some None
            end;
      Some (Some (mk_hctx (replicate (Z.to_nat HTL_MAX_DEVICES) zero_device) 0
                    (mk_cache buf 0 cache_cap 0 0)
                    (replicate (Z.to_nat HTL_MAX_DEVICES) zero_hstats) 0), HTL_OK)
  end.

(** [for (ni = 0; ni < HTL_NAME_LEN - 1 && name && name[ni]; ++ni)], then the
    terminator; [n] iterations left. *)
Fixpoint store_name (n : nat) (i : Z) (name : ptr (list Z)) (dst : list Z)
    : option (list Z) :=
  match n, name with
  | S n, Some src =>
      ch ← aget src i;
      if ch =? 0 then aset dst i 0
      else dst ← aset dst i ch; store_name n (i + 1) name dst
  | _, _ => aset dst i 0
  end.

Definition htl_register_device (ctx : ptr htl_context_t)
    (device_type read_fn write_fn flush_fn entropy_fn driver_ctx block_size total_blocks : Z)
    (name : ptr (list Z)) (out_idx : ptr Z) : option (ptr htl_context_t * ptr Z * Z) :=
  match ctx with
  | None => Some (ctx, out_idx, HTL_ERR_INVALID_PARAM)
  | Some c =>
      if (read_fn =? 0) || (write_fn =? 0) then Some (ctx, out_idx, HTL_ERR_INVALID_PARAM)
      else if (block_size =? 0) || (total_blocks =? 0)
      then Some (ctx, out_idx, HTL_ERR_INVALID_PARAM)
      else if HTL_MAX_DEVICES <=? h_device_count c
      then Some (ctx, out_idx, HTL_ERR_INVALID_PARAM)
      else
        let idx := h_device_count c in
        dev ← aget (h_devices c) idx;
        nm ← store_name (Z.to_nat (HTL_NAME_LEN - 1)) 0 name (d_name dev);
        ds ← aset (h_devices c) idx
               (mk_device read_fn write_fn flush_fn entropy_fn driver_ctx device_type
                  block_size total_blocks 0 [0; 0; 0] nm);
        Some (Some (c <| h_devices := ds |> <| h_device_count := u32 (h_device_count c + 1) |>),
              (λ _, idx) <$> out_idx, HTL_OK)
  end.

(** [cache->entries[i]] for [i < n], each updated by [f]. *)
Definition map_entries (n : Z) (f : htl_cache_entry_t → htl_cache_entry_t)
    (cache : htl_cache_t) : option htl_cache_t :=
  if n =? 0 then Some cache
  else
    es ← hc_entries cache;
    es ← for_up (Z.to_nat n) 0 (λ i es, e ← aget es i; aset es i (f e)) es;
    Some (cache <| hc_entries := Some es |>).

Definition invalidate_entry (device_idx : Z) (e : htl_cache_entry_t) : htl_cache_entry_t :=
  if nz (ce_valid e) && (ce_device_idx e =? u8 device_idx)
  then e <| ce_valid := 0 |> <| ce_dirty := 0 |> else e.

Definition htl_invalidate_cache (ctx : ptr htl_context_t) (device_idx : Z)
    : option (ptr htl_context_t * Z) :=
  match ctx with
  | None => Some (ctx, HTL_ERR_INVALID_PARAM)
  | Some c =>
      let st := validate_device_idx ctx device_idx in
      if negb (st =? HTL_OK) then Some (ctx, st)
      else
        cache ← map_entries (hc_capacity (h_cache c)) (invalidate_entry device_idx) (h_cache c);
        Some (Some (c <| h_cache := cache |>), HTL_OK)
  end.

Definition retarget_entry (src dst : Z) (e : htl_cache_entry_t) : htl_cache_entry_t :=
  if nz (ce_valid e) && (ce_device_idx e =? u8 src)
  then e <| ce_device_idx := u8 dst |> else e.

(** One iteration of the compaction loop. *)
Definition shift_device (device_idx i : Z) (c : htl_context_t) : option htl_context_t :=
  let src_idx := u32 (device_idx + 1 + i) in
  let dst_idx := u32 (device_idx + i) in
  d ← aget (h_devices c) src_idx;
  ds ← aset (h_devices c) dst_idx d;
  s ← aget (h_stats c) src_idx;
  ss ← aset (h_stats c) dst_idx s;
  cache ← map_entries (hc_count (h_cache c)) (retarget_entry src_idx dst_idx) (h_cache c);
  Some (c <| h_devices := ds |> <| h_stats := ss |> <| h_cache := cache |>).

Definition clear_device (c : htl_context_t) (i : Z) : option htl_context_t :=
  ds ← aset (h_devices c) i zero_device;
  ss ← aset (h_stats c) i zero_hstats;
  Some (c <| h_devices := ds |> <| h_stats := ss |>).

Definition htl_unregister_device (ctx : ptr htl_context_t) (device_idx : Z)
    : option (ptr htl_context_t * Z) :=
  let st := validate_device_idx ctx device_idx in
  if negb (st =? HTL_OK) then Some (ctx, st)
  else
    '(ctx, _) ← htl_invalidate_cache ctx device_idx;
    c ← ctx;
    c ← clear_device c device_idx;
    c ← (if device_idx <? u32 (h_device_count c - 1) then
           for_up (Z.to_nat (u32 (h_device_count c - device_idx - 1))) 0
             (shift_device device_idx) c
         else Some c);
    c ← clear_device c (u32 (h_device_count c - 1));
    Some (Some (c <| h_device_count := u32 (h_device_count c - 1) |>), HTL_OK).

(** ** Statistics updates *)
Definition upd_stats (c : htl_context_t) (device_idx : Z) (f : htl_stats_t → htl_stats_t)
    : option htl_context_t :=
  s ← aget (h_stats c) device_idx;
  ss ← aset (h_stats c) device_idx (f s);
  Some (c <| h_stats := ss |>).

Definition count_error (s : htl_stats_t) : htl_stats_t :=
  s <| s_errors := sat_add_u64 (s_errors s) 1 |>.
Definition count_read (bytes : Z) (s : htl_stats_t) : htl_stats_t :=
  s <| s_reads := sat_add_u64 (s_reads s) 1 |>
    <| s_bytes_read := sat_add_u64 (s_bytes_read s) bytes |>.
Definition count_write (bytes : Z) (s : htl_stats_t) : htl_stats_t :=
  s <| s_writes := sat_add_u64 (s_writes s) 1 |>
    <| s_bytes_written := sat_add_u64 (s_bytes_written s) bytes |>.
Definition count_flush (s : htl_stats_t) : htl_stats_t :=
  s <| s_flushes := sat_add_u64 (s_flushes s) 1 |>.

(** ** Device I/O *)
Section io.
Context {W : Type}.
(** [call_read fn ctx block size w]: the world, the status and the bytes the
    driver stores at the start of the buffer (at most [size] of them). *)
Context (call_read : Z → Z → Z → Z → W → W * Z * list Z).
(** [call_write fn ctx block bytes w] *)
Context (call_write : Z → Z → Z → list Z → W → W * Z).
Context (call_flush : Z → Z → W → W * Z).
Context (call_entropy : Z → Z → Z → W → W * Z * list Z).
(** What the uninitialised [block_buf[HTL_CACHE_DATA_SIZE]] holds. *)
Context (stack_bytes : list Z).

(** [dev->read_block(dev->driver_ctx, block_num, buf + off, dev->block_size)] *)
Definition dev_read (dev : htl_device_t) (block_num : Z) (buf : list Z) (off : Z) (w : W)
    : option (W * Z * list Z) :=
  _ ← aslice buf off (d_block_size dev);
  let '(w, st, data) :=
    call_read (d_read_block dev) (d_driver_ctx dev) block_num (d_block_size dev) w in
  buf ← awrite buf off (take (Z.to_nat (d_block_size dev)) data);
  Some (w, st, buf).

(** [dev->write_block(dev->driver_ctx, block_num, buf + off, dev->block_size)] *)
Definition dev_write (dev : htl_device_t) (block_num : Z) (buf : list Z) (off : Z) (w : W)
    : option (W * Z) :=
  data ← aslice buf off (d_block_size dev);
  Some (call_write (d_write_block dev) (d_driver_ctx dev) block_num data w).

(** The geometry of one loop iteration: block, sector offset in the block and
    number of sectors. *)
Definition sector_step (spb lba remaining : Z) : option (Z * Z * Z) :=
  if spb =? 0 then UB
  else
    let block_num := u32 (lba / spb) in
    let offset_in_block := u32 (lba mod spb) in
    let left := u32 (spb - offset_in_block) in
    let n := u32 remaining in
    Some (block_num, offset_in_block, if left <? n then left else n).

(** The read loop; the last component is the status of an
    early return.  Every iteration reads at
    least one sector, so [count] iterations suffice. *)
Fixpoint read_loop (fuel : nat) (dev : htl_device_t) (spb lba remaining : Z)
    (buf : list Z) (off : Z) (w : W) : option (W * list Z * option Z) :=
  if remaining =? 0 then Some (w, buf, None)
  else
    match fuel with
    | O => UB
    | S fuel =>
        '(block_num, offset_in_block, to_read) ← sector_step spb lba remaining;
        if negb (offset_in_block =? 0) || (to_read <? spb) then
          '(w, st, block_buf) ← dev_read dev block_num stack_bytes 0 w;
          if negb (st =? HTL_OK) then Some (w, buf, Some st)
          else
            buf ← copy_at (u32 (to_read * VIP_SECTOR_SIZE)) block_buf
                    (u32 (offset_in_block * VIP_SECTOR_SIZE)) buf off;
            read_loop fuel dev spb (u64 (lba + to_read)) (u64 (remaining - to_read)) buf
              (off + u32 (to_read * VIP_SECTOR_SIZE)) w
        else
          '(w, st, buf) ← dev_read dev block_num buf off w;
          if negb (st =? HTL_OK) then Some (w, buf, Some st)
          else
            read_loop fuel dev spb (u64 (lba + to_read)) (u64 (remaining - to_read)) buf
              (off + u32 (to_read * VIP_SECTOR_SIZE)) w
    end.

Definition dev_sectors (dev : htl_device_t) : Z :=
  u64 (d_total_blocks dev * (d_block_size dev / VIP_SECTOR_SIZE)).

Definition htl_read_sectors (ctx : ptr htl_context_t) (device_idx lba count : Z)
    (buf : ptr (list Z)) (w : W) : option (W * ptr htl_context_t * ptr (list Z) * Z) :=
  let st := validate_device_idx ctx device_idx in
  if negb (st =? HTL_OK) then Some (w, ctx, buf, st)
  else
    c ← ctx;
    match buf with
    | None => Some (w, ctx, buf, HTL_ERR_INVALID_PARAM)
    | Some out =>
        if count =? 0 then Some (w, ctx, buf, HTL_ERR_INVALID_PARAM)
        else
          dev ← aget (h_devices c) device_idx;
          if negb (device_valid dev) then Some (w, ctx, buf, HTL_ERR_NOT_READY)
          else if dev_sectors dev <? u64 (lba + count)
          then Some (w, ctx, buf, HTL_ERR_INVALID_BLOCK)
          else
            '(w, out, r) ← read_loop (Z.to_nat count) dev
                             (d_block_size dev / VIP_SECTOR_SIZE) lba count out 0 w;
            match r with
            | Some st => c ← upd_stats c device_idx count_error;
                         Some (w, Some c, Some out, st)
            | None => c ← upd_stats c device_idx (count_read (u64 (count * VIP_SECTOR_SIZE)));
                      Some (w, Some c, Some out, HTL_OK)
            end
    end.

Fixpoint write_loop (fuel : nat) (dev : htl_device_t) (spb lba remaining : Z)
    (src : list Z) (off : Z) (w : W) : option (W * option Z) :=
  if remaining =? 0 then Some (w, None)
  else
    match fuel with
    | O => UB
    | S fuel =>
        '(block_num, offset_in_block, to_write) ← sector_step spb lba remaining;
        let next w :=
          write_loop fuel dev spb (u64 (lba + to_write)) (u64 (remaining - to_write)) src
            (off + u32 (to_write * VIP_SECTOR_SIZE)) w in
        if negb (offset_in_block =? 0) || (to_write <? spb) then
          '(w, st, block_buf) ← dev_read dev block_num stack_bytes 0 w;
          if negb (st =? HTL_OK) then Some (w, Some st)
          else
            block_buf ← copy_at (u32 (to_write * VIP_SECTOR_SIZE)) src off block_buf
                          (u32 (offset_in_block * VIP_SECTOR_SIZE));
            '(w, st) ← dev_write dev block_num block_buf 0 w;
            if negb (st =? HTL_OK) then Some (w, Some st) else next w
        else
          '(w, st) ← dev_write dev block_num src off w;
          if negb (st =? HTL_OK) then Some (w, Some st) else next w
    end.

Definition htl_write_sectors (ctx : ptr htl_context_t) (device_idx lba count : Z)
    (buf : ptr (list Z)) (w : W) : option (W * ptr htl_context_t * Z) :=
  let st := validate_device_idx ctx device_idx in
  if negb (st =? HTL_OK) then Some (w, ctx, st)
  else
    c ← ctx;
    match buf with
    | None => Some (w, ctx, HTL_ERR_INVALID_PARAM)
    | Some src =>
        if count =? 0 then Some (w, ctx, HTL_ERR_INVALID_PARAM)
        else
          dev ← aget (h_devices c) device_idx;
          if negb (device_valid dev) then Some (w, ctx, HTL_ERR_NOT_READY)
          else if nz (d_write_protect dev) then Some (w, ctx, HTL_ERR_WRITE_PROTECT)
          else if dev_sectors dev <? u64 (lba + count)
          then Some (w, ctx, HTL_ERR_INVALID_BLOCK)
          else
            '(w, r) ← write_loop (Z.to_nat count) dev (d_block_size dev / VIP_SECTOR_SIZE)
                        lba count src 0 w;
            match r with
            | Some st => c ← upd_stats c device_idx count_error; Some (w, Some c, st)
            | None => c ← upd_stats c device_idx (count_write (u64 (count * VIP_SECTOR_SIZE)));
                      Some (w, Some c, HTL_OK)
            end
    end.

(** ** Cached I/O *)
Definition htl_read_cached (ctx : ptr htl_context_t) (device_idx block_num : Z)
    (buf : ptr (list Z)) (w : W) : option (W * ptr htl_context_t * ptr (list Z) * Z) :=
  let st := validate_device_idx ctx device_idx in
  if negb (st =? HTL_OK) then Some (w, ctx, buf, st)
  else
    c ← ctx;
    match buf with
    | None => Some (w, ctx, buf, HTL_ERR_INVALID_PARAM)
    | Some out =>
        dev ← aget (h_devices c) device_idx;
        if negb (device_valid dev) then Some (w, ctx, buf, HTL_ERR_NOT_READY)
        else if d_total_blocks dev <=? block_num
        then Some (w, ctx, buf, HTL_ERR_INVALID_BLOCK)
        else
          let cache := h_cache c in
          idx ← cache_find cache device_idx block_num;
          if 0 <=? idx then
            let cache := cache <| hc_hits := sat_add_u64 (hc_hits cache) 1 |> in
            es ← hc_entries cache;
            e ← aget es idx;
            out ← copy_bytes HTL_CACHE_DATA_SIZE (ce_data e) out;
            Some (w, Some (c <| h_cache := cache |>), Some out, HTL_OK)
          else
            let cache := cache <| hc_misses := sat_add_u64 (hc_misses cache) 1 |> in
            let c := c <| h_cache := cache |> in
            '(w, st, out) ← dev_read dev block_num out 0 w;
            if negb (st =? HTL_OK) then
              c ← upd_stats c device_idx count_error;
              Some (w, Some c, Some out, st)
            else
              let n := u32 (h_access_counter c + 1) in
              '(cache, _) ← cache_insert (h_cache c) device_idx block_num (Some out) n;
              c ← upd_stats (c <| h_access_counter := n |> <| h_cache := cache |>)
                    device_idx (count_read (d_block_size dev));
              Some (w, Some c, Some out, HTL_OK)
    end.

Definition mark_dirty (cache : htl_cache_t) (idx : Z) : option htl_cache_t :=
  es ← hc_entries cache;
  e ← aget es idx;
  es ← aset es idx (e <| ce_dirty := 1 |>);
  Some (cache <| hc_entries := Some es |>).

Definition htl_write_cached (ctx : ptr htl_context_t) (device_idx block_num : Z)
    (buf : ptr (list Z)) : option (ptr htl_context_t * Z) :=
  let st := validate_device_idx ctx device_idx in
  if negb (st =? HTL_OK) then Some (ctx, st)
  else
    c ← ctx;
    match buf with
    | None => Some (ctx, HTL_ERR_INVALID_PARAM)
    | Some src =>
        dev ← aget (h_devices c) device_idx;
        if negb (device_valid dev) then Some (ctx, HTL_ERR_NOT_READY)
        else if nz (d_write_protect dev) then Some (ctx, HTL_ERR_WRITE_PROTECT)
        else if d_total_blocks dev <=? block_num then Some (ctx, HTL_ERR_INVALID_BLOCK)
        else
          let n := u32 (h_access_counter c + 1) in
          idx ← cache_find (h_cache c) device_idx block_num;
          if 0 <=? idx then
            es ← hc_entries (h_cache c);
            e ← aget es idx;
            d ← copy_bytes HTL_CACHE_DATA_SIZE src (ce_data e);
            es ← aset es idx (e <| ce_data := d |> <| ce_dirty := 1 |>
                                <| ce_access_order := h_access_counter c |>);
            c ← upd_stats (c <| h_cache := (h_cache c) <| hc_entries := Some es |> |>
                             <| h_access_counter := n |>)
                  device_idx (count_write (d_block_size dev));
            Some (Some c, HTL_OK)
          else
            '(cache, st) ← cache_insert (h_cache c) device_idx block_num (Some src) n;
            let c := c <| h_access_counter := n |> <| h_cache := cache |> in
            if negb (st =? HTL_OK) then Some (Some c, st)
            else
              new_idx ← cache_find cache device_idx block_num;
              cache ← (if 0 <=? new_idx then mark_dirty cache new_idx else Some cache);
              c ← upd_stats (c <| h_cache := cache |>) device_idx
                    (count_write (d_block_size dev));
              Some (Some c, HTL_OK)
    end.

(** One iteration of the write-back loop. *)
Definition flush_entry (dev : htl_device_t) (device_idx i : Z)
    (s : W * htl_context_t * Z) : option (W * htl_context_t * Z) :=
  let '(w, c, last_err) := s in
  es ← hc_entries (h_cache c);
  e ← aget es i;
  if nz (ce_valid e) && nz (ce_dirty e) && (ce_device_idx e =? u8 device_idx) then
    '(w, st) ← dev_write dev (ce_block_num e) (ce_data e) 0 w;
    if negb (st =? HTL_OK) then
      c ← upd_stats c device_idx count_error; Some (w, c, st)
    else
      es ← aset es i (e <| ce_dirty := 0 |>);
      Some (w, c <| h_cache := (h_cache c) <| hc_entries := Some es |> |>, last_err)
  else Some (w, c, last_err).

Definition htl_flush_device_cache (ctx : ptr htl_context_t) (device_idx : Z) (w : W)
    : option (W * ptr htl_context_t * Z) :=
  let st := validate_device_idx ctx device_idx in
  if negb (st =? HTL_OK) then Some (w, ctx, st)
  else
    c ← ctx;
    dev ← aget (h_devices c) device_idx;
    if negb (device_valid dev) then Some (w, ctx, HTL_ERR_NOT_READY)
    else
      '(w, c, last_err) ← for_up (Z.to_nat (hc_capacity (h_cache c))) 0
                            (flush_entry dev device_idx) (w, c, HTL_OK);
      '(w, c, last_err) ←
        (if nz (d_flush_cache dev) then
           let '(w, st) := call_flush (d_flush_cache dev) (d_driver_ctx dev) w in
           if negb (st =? HTL_OK) then
             c ← upd_stats c device_idx count_error; Some (w, c, st)
           else Some (w, c, last_err)
         else Some (w, c, last_err));
      c ← upd_stats c device_idx count_flush;
      Some (w, Some c, last_err).

Definition htl_zero_block (ctx : ptr htl_context_t) (device_idx block_num : Z) (w : W)
    : option (W * ptr htl_context_t * Z) :=
  let st := validate_device_idx ctx device_idx in
  if negb (st =? HTL_OK) then Some (w, ctx, st)
  else
    c ← ctx;
    dev ← aget (h_devices c) device_idx;
    if negb (device_valid dev) then Some (w, ctx, HTL_ERR_NOT_READY)
    else if nz (d_write_protect dev) then Some (w, ctx, HTL_ERR_WRITE_PROTECT)
    else if d_total_blocks dev <=? block_num then Some (w, ctx, HTL_ERR_INVALID_BLOCK)
    else
      let zeros := replicate (Z.to_nat HTL_CACHE_DATA_SIZE) 0 in
      '(w, st) ← dev_write dev block_num zeros 0 w;
      if negb (st =? HTL_OK) then
        c ← upd_stats c device_idx count_error; Some (w, Some c, st)
      else Some (w, Some c, st).

(** ** Queries *)
Definition device_label (device_type : Z) : list Z :=
  if device_type =? HTL_DEV_NVME then [110; 118; 109; 101; 0]
  else if device_type =? HTL_DEV_AHCI_SATA
  then [97; 104; 99; 105; 95; 115; 97; 116; 97; 0]
  else if device_type =? HTL_DEV_USB_MASS
  then [117; 115; 98; 95; 109; 97; 115; 115; 0]
  else [117; 110; 107; 110; 111; 119; 110; 0].

(** [for (i = 0; i < HTL_NAME_LEN - 1 && src[i]; ++i) dst[i] = src[i]] *)
Fixpoint copy_label (n : nat) (i : Z) (src dst : list Z) : option (list Z) :=
  match n with
  | O => Some dst
  | S n => ch ← aget src i;
           if ch =? 0 then Some dst
           else dst ← aset dst i ch; copy_label n (i + 1) src dst
  end.

Definition htl_get_device_info (ctx : ptr htl_context_t) (device_idx : Z)
    (info_out : ptr htl_device_info_t) : option (ptr htl_device_info_t * Z) :=
  let st := validate_device_idx ctx device_idx in
  if negb (st =? HTL_OK) then Some (info_out, st)
  else
    c ← ctx;
    match info_out with
    | None => Some (info_out, HTL_ERR_INVALID_PARAM)
    | Some _ =>
        dev ← aget (h_devices c) device_idx;
        nm ← copy_label (Z.to_nat (HTL_NAME_LEN - 1)) 0 (d_name dev)
               (replicate (Z.to_nat HTL_NAME_LEN) 0);
        first ← aget (d_name dev) 0;
        nm ← (if first =? 0 then
                copy_label (Z.to_nat (HTL_NAME_LEN - 1)) 0
                  (device_label (d_device_type dev)) nm
              else Some nm);
        Some (Some (mk_info (d_device_type dev) (d_block_size dev) (d_total_blocks dev)
                      (d_write_protect dev) nm (dev_sectors dev)), HTL_OK)
    end.

Definition htl_get_stats (ctx : ptr htl_context_t) (device_idx : Z)
    (stats_out : ptr htl_stats_t) : option (ptr htl_stats_t * Z) :=
  let st := validate_device_idx ctx device_idx in
  if negb (st =? HTL_OK) then Some (stats_out, st)
  else
    c ← ctx;
    match stats_out with
    | None => Some (stats_out, HTL_ERR_INVALID_PARAM)
    | Some _ => s ← aget (h_stats c) device_idx; Some (Some s, HTL_OK)
    end.

Definition htl_get_entropy (ctx : ptr htl_context_t) (device_idx : Z)
    (out : ptr (list Z)) (len : Z) (w : W) : option (W * ptr (list Z) * Z) :=
  let st := validate_device_idx ctx device_idx in
  if negb (st =? HTL_OK) then Some (w, out, st)
  else
    c ← ctx;
    match out with
    | None => Some (w, out, HTL_ERR_INVALID_PARAM)
    | Some buf =>
        if len =? 0 then Some (w, out, HTL_ERR_INVALID_PARAM)
        else
          dev ← aget (h_devices c) device_idx;
          if negb (device_valid dev) then Some (w, out, HTL_ERR_NOT_READY)
          else if d_entropy dev =? 0 then Some (w, out, HTL_ERR_NOT_READY)
          else
            _ ← aslice buf 0 len;
            let '(w, st, data) := call_entropy (d_entropy dev) (d_driver_ctx dev) len w in
            buf ← awrite buf 0 (take (Z.to_nat len) data);
            Some (w, Some buf, st)
    end.
End io.
