(* ===== verification/BlockDev.v ===== *)
(** The interface between the hardware translation layer and the block drivers
    it calls: what a driver's callbacks promise about the blocks of its disk,
    and a RAM disk that keeps these promises. *)
From S2P Require Import Prelude Htl.

(** [bd_disk w ctx b] is the content of block [b] of the disk behind the
    driver context [ctx] in world [w].  A callback may fail at any time; a
    failed write may leave its own block in any state. *)
Class BlockDevice (W : Type) := {
  bd_read : Z → Z → Z → Z → W → W * Z * list Z;
  bd_write : Z → Z → Z → list Z → W → W * Z;
  bd_flush : Z → Z → W → W * Z;
  bd_disk : W → Z → Z → list Z;
  bd_size : Z → nat;
  bd_disk_length w ctx b : length (bd_disk w ctx b) = bd_size ctx;
  bd_read_frame fn ctx b n w w' st data :
    bd_read fn ctx b n w = (w', st, data) → ∀ c k, bd_disk w' c k = bd_disk w c k;
  bd_read_data fn ctx b n w w' data :
    bd_read fn ctx b n w = (w', HTL_OK, data) → n = Z.of_nat (bd_size ctx) →
    take (bd_size ctx) data = bd_disk w ctx b;
  bd_write_data fn ctx b data w w' :
    bd_write fn ctx b data w = (w', HTL_OK) → length data = bd_size ctx →
    bd_disk w' ctx b = data;
  bd_write_frame fn ctx b data w w' st c k :
    bd_write fn ctx b data w = (w', st) → (c, k) ≠ (ctx, b) → bd_disk w' c k = bd_disk w c k;
  bd_flush_frame fn ctx w w' st :
    bd_flush fn ctx w = (w', st) → ∀ c k, bd_disk w' c k = bd_disk w c k
}.

(** ** A RAM disk

    Blocks of [size] bytes, zero where never written; a write to a negative
    block number fails. *)
Section ramdisk.
Context (size : nat).

#[local] Abbreviation ramdisk := (gmap (Z * Z) (list Z)).

Definition ram_block (w : ramdisk) (ctx b : Z) : list Z :=
  take size (default [] (w !! (ctx, b)) ++ replicate size 0).

Lemma ram_block_length w ctx b : length (ram_block w ctx b) = size.
Proof. unfold ram_block. rewrite length_take, length_app, length_replicate. lia. Qed.

Program Definition ram_device : BlockDevice ramdisk := {|
  bd_read fn ctx b n w := (w, HTL_OK, ram_block w ctx b);
  bd_write fn ctx b data w :=
    if b <? 0 then (w, HTL_ERR_IO) else (<[(ctx, b) := data]> w, HTL_OK);
  bd_flush fn ctx w := (w, HTL_OK);
  bd_disk := ram_block;
  bd_size _ := size
|}.
Next Obligation. intros. apply ram_block_length. Qed.
Next Obligation. intros; simpl in *. congruence. Qed.
Next Obligation.
  intros fn ctx b n w w' data [= <- <-] _. apply take_ge. by rewrite ram_block_length.
Qed.
Next Obligation.
  intros fn ctx b data w w'. simpl. case_if; [done|]. intros [= <-] Hl.
  unfold ram_block. rewrite lookup_insert_eq. simpl. rewrite take_app_le by lia.
  apply take_ge. lia.
Qed.
Next Obligation.
  intros fn ctx b data w w' st c k. simpl. case_if; intros [= <- _] Hne; [done|].
  unfold ram_block. by rewrite lookup_insert_ne by congruence.
Qed.
Next Obligation. intros; simpl in *. congruence. Qed.
End ramdisk.
