(* ===== verification/HtlCache.v ===== *)
(** The block cache of the translation layer is transparent: through any
    sequence of cached reads, cached writes and flushes the caller sees one
    store of blocks, and a successful flush makes the disk equal to it. *)
From S2P Require Import Prelude Htl BlockDev.

(** The number of bytes of a cache entry. *)
Definition block_len : nat := Z.to_nat HTL_CACHE_DATA_SIZE.
Lemma block_len_Z : Z.of_nat block_len = 4096.
Proof. unfold block_len, HTL_CACHE_DATA_SIZE. lia. Qed.
Lemma to_nat_block_len : Z.to_nat 4096 = block_len.
Proof. done. Qed.
Lemma zero_centry_len : length (ce_data zero_centry) = block_len.
Proof. unfold zero_centry, ce_data. apply length_replicate. Qed.
#[local] Opaque block_len.

Definition entry_valid (e : htl_cache_entry_t) : bool := nz (ce_valid e).
Definition entry_dirty (e : htl_cache_entry_t) : bool := nz (ce_dirty e).

(** ** The invariant of the cache array

    [n] is the number of registered devices and [es] the entry array. *)
Record cache_ok (n : Z) (cache : htl_cache_t) (es : list htl_cache_entry_t) : Prop := {
  co_entries : hc_entries cache = Some es;
  co_cap : Z.of_nat (length es) = hc_capacity cache;
  co_cap_bound : hc_capacity cache < 2 ^ 31;
  co_count : 0 ≤ hc_count cache ≤ hc_capacity cache;
  co_below : ∀ k e, es !! k = Some e → entry_valid e = true → Z.of_nat k < hc_count cache;
  co_data : ∀ k e, es !! k = Some e → length (ce_data e) = block_len;
  co_dev : ∀ k e, es !! k = Some e → entry_valid e = true → 0 ≤ ce_device_idx e < n;
  co_unique : ∀ j k e f, es !! j = Some e → es !! k = Some f →
    entry_valid e = true → entry_valid f = true →
    ce_device_idx e = ce_device_idx f → ce_block_num e = ce_block_num f → j = k
}.

Lemma entry_matches_iff i b e : 0 ≤ i < 256 →
  entry_matches i b e = true ↔
  entry_valid e = true ∧ ce_device_idx e = i ∧ ce_block_num e = b.
Proof.
  intros Hi. unfold entry_matches, entry_valid. rewrite u8_small by lia.
  rewrite !andb_true_iff, !Z.eqb_eq. tauto.
Qed.

Lemma cache_find_spec n cache es i b :
  cache_ok n cache es → 0 ≤ i < 256 →
  ∃ r, cache_find cache i b = Some r ∧
    (r = -1 ∧ (∀ k e, es !! k = Some e → entry_matches i b e = false) ∨
     0 ≤ r ∧ ∃ e, es !! Z.to_nat r = Some e ∧ entry_matches i b e = true).
Proof.
  intros Hc Hi. unfold cache_find. rewrite (co_entries _ _ _ Hc).
  pose proof (co_count _ _ _ Hc). pose proof (co_cap _ _ _ Hc).
  destruct (find_up_spec (Z.to_nat (hc_count cache)) 0 es (entry_matches i b))
    as (r & -> & Hr); [lia..|]. rewrite obind_Some. eexists. split; [done|].
  destruct r as [j|]; simpl.
  - right. destruct Hr as (? & (e & He & Hm) & _). split; [lia|]. exists e.
    rewrite aget_to_nat in He by lia. done.
  - left. split; [done|]. intros k e Hk. destruct (entry_matches i b e) eqn:E; [|done].
    pose proof E as (Hv & _)%entry_matches_iff; [|done].
    pose proof (co_below _ _ _ Hc _ _ Hk Hv).
    rewrite (Hr (Z.of_nat k) e) in E; [done|lia|by rewrite aget_of_nat].
Qed.

(** The eviction scan only selects a clean entry. *)
Lemma victim_scan_spec n cache es :
  cache_ok n cache es →
  ∃ v o f, victim_scan cache es = Some (v, o, f) ∧
    (f = true → 0 ≤ v ∧ ∃ e, es !! Z.to_nat v = Some e ∧ entry_dirty e = false).
Proof.
  intros Hc. unfold victim_scan. pose proof (co_cap _ _ _ Hc).
  pose proof (co_count _ _ _ Hc).
  loop_inv (λ (_ : Z) (s : Z * Z * bool), let '(v, o, f) := s in
    f = true → 0 ≤ v ∧ ∃ e, es !! Z.to_nat v = Some e ∧ entry_dirty e = false)
    as ([[v o] f] & Hs & Hf); [done| |exists v, o, f; by split].
  - intros j [[v o] f] Hj Hf. destruct (aget_is_Some es j) as [e He]; [lia|].
    rewrite He, obind_Some. apply aget_Some in He as [Hj0 He]. case_if.
    + eexists. split; [done|]. intros _. split; [done|]. exists e. split; [done|].
      unfold entry_dirty, nz. apply negb_false_iff. lia.
    + eexists. by split.
Qed.

Lemma fill_entry_spec e i b data n :
  0 ≤ i < 256 → (block_len ≤ length data)%nat → length (ce_data e) = block_len →
  fill_entry e i b (Some data) n =
    Some (mk_centry b 0 1 i (ce_reserved e) n (take block_len data)).
Proof.
  intros Hi Hd He. pose proof block_len_Z. unfold fill_entry. cbv zeta.
  unfold HTL_CACHE_DATA_SIZE. simpl ce_data.
  rewrite copy_bytes_Z, obind_Some by lia. rewrite to_nat_block_len.
  rewrite (drop_ge (ce_data e)), app_nil_r, u8_small by lia. done.
Qed.

(** Storing a valid entry for a block no other entry holds. *)
Lemma cache_ok_put n cache cache' es k e0 e :
  cache_ok n cache es → es !! k = Some e0 →
  hc_entries cache' = Some (<[k := e]> es) → hc_capacity cache' = hc_capacity cache →
  hc_count cache ≤ hc_count cache' ≤ hc_capacity cache → Z.of_nat k < hc_count cache' →
  length (ce_data e) = block_len → 0 ≤ ce_device_idx e < n →
  (∀ j f, es !! j = Some f → j ≠ k → entry_valid f = true →
     ce_device_idx f = ce_device_idx e → ce_block_num f ≠ ce_block_num e) →
  cache_ok n cache' (<[k := e]> es).
Proof.
  intros [H1 H2 H3 H4 H5 H6 H7 H8] Hk He Hcap Hcnt Hkc Hl Hd Hother.
  pose proof (lookup_lt_Some _ _ _ Hk) as Hlt.
  assert (∀ j f, <[k := e]> es !! j = Some f → (j = k ∧ f = e) ∨ (j ≠ k ∧ es !! j = Some f)) as Hget.
  { intros j f. destruct (decide (j = k)) as [->|].
    - rewrite list_lookup_insert_eq by done. intros [= <-]. by left.
    - rewrite list_lookup_insert_ne by done. by right. }
  split; try done; rewrite ?length_insert, ?Hcap; try done; try lia.
  - intros j f [[-> ->]|[? Hj]]%Hget Hv; [done|]. specialize (H5 j f Hj Hv). lia.
  - intros j f [[-> ->]|[? Hj]]%Hget; [done|by eapply H6].
  - intros j f [[-> ->]|[? Hj]]%Hget Hv; [done|by eapply H7].
  - intros j l f g [[-> ->]|[? Hj]]%Hget [[-> ->]|[? Hl2]]%Hget Hv Hv' Hde Hbl; [done| | |by eapply H8].
    + by destruct (Hother l g).
    + by destruct (Hother j f).
Qed.

Lemma cache_insert_spec n cache es i b data ac :
  cache_ok n cache es → 0 ≤ i < n → n ≤ 8 → (block_len ≤ length data)%nat →
  (∀ k e, es !! k = Some e → entry_matches i b e = false) →
  ∃ cache' st, cache_insert cache i b (Some data) ac = Some (cache', st) ∧
    (st ≠ HTL_OK ∧ cache' = cache ∨
     st = HTL_OK ∧ ∃ k e0, es !! k = Some e0 ∧ (entry_valid e0 = true → entry_dirty e0 = false) ∧
       cache_ok n cache' (<[k := mk_centry b 0 1 i (ce_reserved e0) ac (take block_len data)]> es)).
Proof.
  intros Hc Hi Hn Hd Hno. unfold cache_insert. case_if; [by exists cache, HTL_ERR_INVALID_PARAM; split; [|left]|].
  pose proof (co_count _ _ _ Hc). pose proof (co_cap _ _ _ Hc). pose proof (co_cap_bound _ _ _ Hc).
  rewrite (co_entries _ _ _ Hc), obind_Some.
  assert (∀ e j f, es !! j = Some f → entry_valid f = true →
    ce_device_idx f = ce_device_idx (mk_centry b 0 1 i e ac (take block_len data)) →
    ce_block_num f ≠ ce_block_num (mk_centry b 0 1 i e ac (take block_len data))) as Hother.
  { simpl. intros _ j f Hj Hv Hde Hbl.
    assert (entry_matches i b f = true) by (apply entry_matches_iff; [lia|done]).
    by rewrite (Hno j f) in *. }
  assert (length (take block_len data) = block_len) by (rewrite length_take; lia).
  destruct (find_up_spec (Z.to_nat (hc_capacity cache)) 0 es (λ e, negb (nz (ce_valid e))))
    as (r & -> & Hr); [lia..|]. rewrite obind_Some. destruct r as [j|].
  - destruct Hr as (Hj & (e0 & He0 & Hinv) & Hbefore). rewrite He0, obind_Some.
    apply aget_Some in He0 as [_ He0].
    rewrite fill_entry_spec, obind_Some by (lia || by eapply co_data).
    rewrite aset_in, obind_Some by lia. eexists _, _. split; [done|]. right. split; [done|].
    exists (Z.to_nat j), e0. split_and!; [done|intros Hv; unfold entry_valid in Hv; by rewrite Hv in Hinv|].
    assert (j ≤ hc_count cache) as Hjc.
    { destruct (decide (hc_count cache < j)); [|lia].
      destruct (aget_is_Some es (hc_count cache)) as [f Hf]; [lia|].
      specialize (Hbefore (hc_count cache) f ltac:(lia) Hf). apply negb_false_iff in Hbefore.
      apply aget_Some in Hf as [_ Hf]. pose proof (co_below _ _ _ Hc _ _ Hf Hbefore). lia. }
    apply (cache_ok_put n cache _ es (Z.to_nat j) e0); try done; simpl;
      try (case_if; rewrite ?u32_small; lia).
    intros. by eapply (Hother (ce_reserved e0)).
  - destruct (victim_scan_spec n cache es Hc) as (v & o & f & -> & Hv). rewrite obind_Some.
    destruct f; [|by eexists _, _; split; [|left]].
    destruct (Hv eq_refl) as (Hv0 & e0 & He0 & Hcl). cbn [negb].
    pose proof (lookup_lt_Some _ _ _ He0) as Hlt.
    rewrite aget_to_nat, He0, obind_Some by done.
    rewrite fill_entry_spec, obind_Some by (lia || by eapply co_data).
    rewrite aset_in, obind_Some by lia. eexists _, _. split; [done|]. right. split; [done|].
    exists (Z.to_nat v), e0. split_and!; [done..|].
    apply (cache_ok_put n cache _ es (Z.to_nat v) e0); try done; simpl; try lia.
    + eapply (co_below _ _ _ Hc); [done|]. specialize (Hr v e0 ltac:(lia)).
      rewrite aget_to_nat in Hr by done. specialize (Hr He0). by apply negb_false_iff in Hr.
    + intros. by eapply (Hother (ce_reserved e0)).
Qed.

(** ** What the caller sees *)
Section view.
Context `{BD : BlockDevice W}.
Implicit Types (w : W) (es : list htl_cache_entry_t) (ctx_of : Z → Z).

(** Clean entries hold what the disk holds. *)
Definition coherent w ctx_of es : Prop := ∀ k e,
  es !! k = Some e → entry_valid e = true → entry_dirty e = false →
  ce_data e = bd_disk w (ctx_of (ce_device_idx e)) (ce_block_num e).

(** The content of block [b] of device [i]: the cached copy, else the disk. *)
Definition view w ctx_of es (i b : Z) : list Z :=
  match list_find (λ e, entry_matches i b e = true) es with
  | Some (_, e) => ce_data e
  | None => bd_disk w (ctx_of i) b
  end.

Lemma view_miss w ctx_of es i b :
  (∀ k e, es !! k = Some e → entry_matches i b e = false) →
  view w ctx_of es i b = bd_disk w (ctx_of i) b.
Proof.
  intros Hno. unfold view. destruct (list_find _ es) as [[k e]|] eqn:E; [|done].
  apply list_find_Some in E as (Hk & Hm & _). by rewrite (Hno k e) in Hm.
Qed.

Lemma view_hit n cache w ctx_of es i b k e :
  cache_ok n cache es → 0 ≤ i < 256 → es !! k = Some e → entry_matches i b e = true →
  view w ctx_of es i b = ce_data e.
Proof.
  intros Hc Hi Hk Hm. unfold view. destruct (list_find _ es) as [[j f]|] eqn:E.
  - apply list_find_Some in E as (Hj & Hm' & _).
    apply entry_matches_iff in Hm as (? & ? & ?); [|done].
    apply entry_matches_iff in Hm' as (? & ? & ?); [|done].
    assert (j = k) as -> by (eapply (co_unique _ _ _ Hc); eauto; congruence). congruence.
  - apply list_find_None in E. rewrite Forall_lookup in E. by destruct (E k e Hk).
Qed.

(** Either some entry holds the block or none does. *)
Lemma match_dec es i b :
  (∃ k e, es !! k = Some e ∧ entry_matches i b e = true) ∨
  (∀ k e, es !! k = Some e → entry_matches i b e = false).
Proof.
  destruct (list_find (λ e, entry_matches i b e = true) es) as [[k e]|] eqn:E.
  - apply list_find_Some in E as (Hk & Hm & _). left. eauto.
  - apply list_find_None in E. rewrite Forall_lookup in E. right. intros k e Hk.
    specialize (E k e Hk). by destruct (entry_matches i b e).
Qed.

(** Replacing an entry whose loss does not matter: it was invalid, clean, or
    held the same block. *)
Lemma view_put n cache cache' w ctx_of es k e0 e i b :
  cache_ok n cache es → cache_ok n cache' (<[k := e]> es) → es !! k = Some e0 →
  entry_valid e = true → coherent w ctx_of es → 0 ≤ i < 256 →
  (entry_valid e0 = true → entry_dirty e0 = false ∨
     (ce_device_idx e0 = ce_device_idx e ∧ ce_block_num e0 = ce_block_num e)) →
  view w ctx_of (<[k := e]> es) i b =
    if decide (ce_device_idx e = i ∧ ce_block_num e = b) then ce_data e
    else view w ctx_of es i b.
Proof.
  intros Hc Hc' Hk Hv Hcoh Hi Hold. pose proof (lookup_lt_Some _ _ _ Hk) as Hlt.
  assert (<[k := e]> es !! k = Some e) as Hke by (by apply list_lookup_insert_eq).
  case_decide as Hd.
  { eapply view_hit; try done. apply entry_matches_iff; naive_solver. }
  destruct (match_dec (<[k := e]> es) i b) as [(j & f & Hj & Hm)|Hno].
  - rewrite (view_hit _ _ _ _ _ _ _ _ _ Hc' Hi Hj Hm).
    destruct (decide (j = k)) as [->|].
    { assert (f = e) as -> by congruence.
      apply entry_matches_iff in Hm as (? & ? & ?); [by destruct Hd|done]. }
    rewrite list_lookup_insert_ne in Hj by done.
    by rewrite (view_hit _ _ _ _ _ _ _ _ _ Hc Hi Hj Hm).
  - rewrite (view_miss _ _ _ _ _ Hno).
    destruct (match_dec es i b) as [(j & f & Hj & Hm)|Hno']; [|by rewrite view_miss].
    rewrite (view_hit _ _ _ _ _ _ _ _ _ Hc Hi Hj Hm).
    destruct (decide (j = k)) as [->|].
    + simplify_eq. apply entry_matches_iff in Hm as (Hve & Hde & Hbe); [|done].
      destruct (Hold Hve) as [Hcl|[? ?]]; [|naive_solver].
      rewrite (Hcoh k e0) by done. congruence.
    + rewrite (Hno j f) in Hm; [done|]. by rewrite list_lookup_insert_ne.
Qed.

Lemma coherent_put w ctx_of es k e :
  coherent w ctx_of es →
  (entry_dirty e = false → ce_data e = bd_disk w (ctx_of (ce_device_idx e)) (ce_block_num e)) →
  coherent w ctx_of (<[k := e]> es).
Proof.
  intros Hcoh He j f Hj Hv Hd. destruct (decide (j = k)) as [->|].
  - apply list_lookup_insert_Some in Hj as [(_ & -> & _)|[? _]]; [by apply He|done].
  - rewrite list_lookup_insert_ne in Hj by done. by eapply Hcoh.
Qed.

(** The view depends on the disk only where no entry covers it. *)
Lemma view_disk n cache w w' ctx_of es i b :
  cache_ok n cache es → 0 ≤ i < 256 →
  (bd_disk w' (ctx_of i) b = bd_disk w (ctx_of i) b ∨
   ∃ k e, es !! k = Some e ∧ entry_matches i b e = true) →
  view w' ctx_of es i b = view w ctx_of es i b.
Proof.
  intros Hc Hi [Hd|(k & e & Hk & Hm)].
  - unfold view. by rewrite Hd.
  - by rewrite !(view_hit _ _ _ _ _ _ _ _ _ Hc Hi Hk Hm).
Qed.

(** ** The invariant of the translation layer *)
Definition ctx_of (c : htl_context_t) (i : Z) : Z :=
  default 0 (d_driver_ctx <$> aget (h_devices c) i).

Record htl_ok w (c : htl_context_t) es : Prop := {
  ho_len : length (h_devices c) = 8%nat ∧ length (h_stats c) = 8%nat;
  ho_count : 0 ≤ h_device_count c ≤ 8;
  ho_dev : ∀ i d, 0 ≤ i < h_device_count c → aget (h_devices c) i = Some d →
    device_valid d = true ∧ d_block_size d = 4096 ∧ bd_size (d_driver_ctx d) = block_len;
  ho_inj : ∀ i j, 0 ≤ i < h_device_count c → 0 ≤ j < h_device_count c →
    ctx_of c i = ctx_of c j → i = j;
  ho_cache : cache_ok (h_device_count c) (h_cache c) es;
  ho_coh : coherent w (ctx_of c) es
}.

(** Fields that cached I/O leaves alone. *)
Definition same_devices (c c' : htl_context_t) : Prop :=
  h_devices c' = h_devices c ∧ h_device_count c' = h_device_count c.

Lemma ctx_of_same c c' : h_devices c' = h_devices c → ctx_of c' = ctx_of c.
Proof. intros E. unfold ctx_of. by rewrite E. Qed.

Lemma htl_ok_update w w' c c' es es' :
  htl_ok w c es → same_devices c c' → length (h_stats c') = 8%nat →
  cache_ok (h_device_count c) (h_cache c') es' → coherent w' (ctx_of c) es' →
  htl_ok w' c' es'.
Proof.
  intros [[? ?]] [E1 E2] ? ? ?. split; rewrite ?E1, ?E2; try done.
  - intros i j. rewrite (ctx_of_same c c') by done. eauto.
  - by rewrite (ctx_of_same c c').
Qed.

Lemma upd_stats_spec c i f :
  length (h_stats c) = 8%nat → 0 ≤ i < 8 →
  ∃ ss, upd_stats c i f = Some (c <| h_stats := ss |>) ∧ length ss = 8%nat.
Proof.
  intros Hl Hi. unfold upd_stats. destruct (aget_is_Some (h_stats c) i) as [s Hs]; [lia|].
  rewrite Hs, obind_Some, aset_in, obind_Some by lia. eexists. split; [done|].
  by rewrite length_insert.
Qed.

Lemma validate_ok c i :
  0 ≤ i < h_device_count c → validate_device_idx (Some c) i = HTL_OK.
Proof. intros. simpl. by rewrite (proj2 (Z.leb_gt _ _)) by lia. Qed.

(** Telemetry of the cache is not part of its invariant. *)
Lemma cache_ok_tele n cache cache' es :
  cache_ok n cache es → hc_entries cache' = hc_entries cache →
  hc_capacity cache' = hc_capacity cache → hc_count cache' = hc_count cache →
  cache_ok n cache' es.
Proof. intros [] E1 E2 E3. split; rewrite ?E1, ?E2, ?E3; done. Qed.
End view.

(** ** Cached operations *)
Section operations.
Context `{BD : BlockDevice W}.
Implicit Types (w : W) (c : htl_context_t) (es : list htl_cache_entry_t).

(** The callers of one device see the same blocks in both states. *)
Definition same_view w c es w' c' es' : Prop :=
  ∀ i b, 0 ≤ i < h_device_count c →
    view w' (ctx_of c') es' i b = view w (ctx_of c) es i b.

Lemma ctx_of_dev c i d : aget (h_devices c) i = Some d → ctx_of c i = d_driver_ctx d.
Proof. intros E. unfold ctx_of. by rewrite E. Qed.

(** A device read of a whole block into the start of a buffer. *)
Lemma dev_read_spec d b out w :
  d_block_size d = 4096 → bd_size (d_driver_ctx d) = block_len → (block_len ≤ length out)%nat →
  ∃ w' st out', dev_read bd_read d b out 0 w = Some (w', st, out') ∧
    st = (bd_read (d_read_block d) (d_driver_ctx d) b 4096 w).1.2 ∧
    (∀ x k, bd_disk w' x k = bd_disk w x k) ∧ length out' = length out ∧
    (st = HTL_OK → out' = bd_disk w (d_driver_ctx d) b ++ drop block_len out).
Proof.
  intros Hs Hb Hl. pose proof block_len_Z. unfold dev_read. rewrite Hs.
  rewrite aslice_in, obind_Some by lia.
  destruct (bd_read _ _ _ _ _) as [[w' st] data] eqn:E.
  set (dt := take (Z.to_nat 4096) data).
  assert (length dt ≤ block_len)%nat as Hdt by (unfold dt; rewrite length_take; lia).
  rewrite awrite_in, obind_Some by lia. eexists _, _, _. split; [done|].
  split_and!; [done|by eapply bd_read_frame| |].
  - rewrite !length_app, length_drop. simpl. lia.
  - intros ->. apply bd_read_data in E; [|by rewrite Hb]. rewrite Hb in E.
    unfold dt. rewrite to_nat_block_len. rewrite E. simpl.
    by rewrite bd_disk_length, Hb.
Qed.

(** Every cached operation starts with the same guards. *)
Lemma cached_guards w c es i :
  htl_ok w c es → 0 ≤ i < h_device_count c →
  ∃ d, aget (h_devices c) i = Some d ∧ device_valid d = true ∧ d_block_size d = 4096 ∧
    bd_size (d_driver_ctx d) = block_len ∧ 0 ≤ i < 8 ∧ 0 ≤ i < 256.
Proof.
  intros Hok Hi. pose proof (ho_count _ _ _ Hok). pose proof (ho_len _ _ _ Hok) as [Hl _].
  destruct (aget_is_Some (h_devices c) i) as [d Hd]; [lia|].
  destruct (ho_dev _ _ _ Hok i d Hi Hd) as (? & ? & ?). exists d. split_and!; (done || lia).
Qed.

Lemma coherent_disk w w' f es :
  (∀ x k, bd_disk w' x k = bd_disk w x k) → coherent w f es → coherent w' f es.
Proof. intros Hd Hc k e Hk Hv He. rewrite Hd. by eapply Hc. Qed.

Lemma view_same_disk w w' f es i b :
  (∀ x k, bd_disk w' x k = bd_disk w x k) → view w' f es i b = view w f es i b.
Proof. intros Hd. unfold view. by rewrite Hd. Qed.

(** Inserting a clean copy of the disk. *)
Lemma insert_clean w c es k e0 e cache' :
  htl_ok w c es → es !! k = Some e0 → (entry_valid e0 = true → entry_dirty e0 = false) →
  entry_valid e = true → ce_data e = bd_disk w (ctx_of c (ce_device_idx e)) (ce_block_num e) →
  (∀ j f, es !! j = Some f → entry_matches (ce_device_idx e) (ce_block_num e) f = false) →
  cache_ok (h_device_count c) cache' (<[k := e]> es) →
  coherent w (ctx_of c) (<[k := e]> es) ∧
  ∀ i b, 0 ≤ i < h_device_count c →
    view w (ctx_of c) (<[k := e]> es) i b = view w (ctx_of c) es i b.
Proof.
  intros Hok Hk Hcl Hv Hdata Hno Hc'. pose proof (ho_count _ _ _ Hok). split.
  - apply coherent_put; [apply Hok|done].
  - intros i b Hi. rewrite (view_put _ _ _ _ _ _ _ _ _ _ _ (ho_cache _ _ _ Hok) Hc' Hk);
      [|done|apply Hok|lia|by left; auto].
    case_decide as E; [|done]. destruct E as [<- <-]. rewrite Hdata.
    symmetry. by apply view_miss.
Qed.

(** Evaluates the guards every device operation starts with. *)
Ltac pass_guards Hd Hval :=
  cbv zeta; rewrite validate_ok by done; rewrite Z.eqb_refl; cbn [negb];
  rewrite obind_Some, Hd, obind_Some, Hval; cbn [negb].

(** Steps over a statistics update. *)
Ltac stats_step Hls Hi8 :=
  lazymatch goal with
  | |- context [upd_stats ?x ?i ?f] =>
      let ss := fresh "ss" in let Hss := fresh "Hss" in
      destruct (upd_stats_spec x i f Hls Hi8) as (ss & -> & Hss)
  end; rewrite obind_Some.

(** A hit returns the cached copy; nothing else of the cache matters. *)
Lemma read_hit_eval n w c es i b d out k e :
  0 ≤ i < h_device_count c → aget (h_devices c) i = Some d → device_valid d = true →
  cache_ok n (h_cache c) es → 0 ≤ b < d_total_blocks d → (block_len ≤ length out)%nat →
  cache_find (h_cache c) i b = Some (Z.of_nat k) → es !! k = Some e →
  htl_read_cached bd_read (Some c) i b (Some out) w =
    Some (w, Some (c <| h_cache := (h_cache c) <| hc_entries := Some es |>
                         <| hc_hits := sat_add_u64 (hc_hits (h_cache c)) 1 |> |>),
          Some (ce_data e ++ drop block_len out), HTL_OK).
Proof.
  intros Hi Hd Hval Hc Hb Hl Hf Hk. pose proof block_len_Z.
  unfold htl_read_cached. pass_guards Hd Hval.
  rewrite (proj2 (Z.leb_gt _ _)), Hf, obind_Some by lia.
  rewrite (proj2 (Z.leb_le _ _)) by lia. cbn [hc_entries set_field].
  rewrite (co_entries _ _ _ Hc), obind_Some, aget_of_nat, Hk, obind_Some.
  pose proof (co_data _ _ _ Hc _ _ Hk) as Hlen.
  unfold HTL_CACHE_DATA_SIZE.
  rewrite copy_bytes_Z, obind_Some, (take_ge (ce_data e)) by lia.
  rewrite to_nat_block_len. done.
Qed.

Lemma read_cached_hit w c es i b d out k e :
  htl_ok w c es → 0 ≤ i < h_device_count c → aget (h_devices c) i = Some d →
  0 ≤ b < d_total_blocks d → (block_len ≤ length out)%nat →
  cache_find (h_cache c) i b = Some (Z.of_nat k) → es !! k = Some e →
  ∃ c', htl_read_cached bd_read (Some c) i b (Some out) w =
      Some (w, Some c', Some (ce_data e ++ drop block_len out), HTL_OK) ∧
    htl_ok w c' es ∧ same_devices c c'.
Proof.
  intros Hok Hi Hd Hb Hl Hf Hk. pose proof (ho_cache _ _ _ Hok) as Hc.
  destruct (ho_dev _ _ _ Hok i d Hi Hd) as (Hval & _).
  eexists. split; [by eapply read_hit_eval|]. split; [|done].
  eapply htl_ok_update; [done|done|apply Hok| |apply Hok].
  eapply cache_ok_tele; [exact Hc|by rewrite (co_entries _ _ _ Hc)|done..].
Qed.

Lemma read_cached_miss w c es i b d out :
  htl_ok w c es → 0 ≤ i < h_device_count c → aget (h_devices c) i = Some d →
  0 ≤ b < d_total_blocks d → (block_len ≤ length out)%nat →
  cache_find (h_cache c) i b = Some (-1) →
  (∀ k e, es !! k = Some e → entry_matches i b e = false) →
  let st := (bd_read (d_read_block d) (d_driver_ctx d) b 4096 w).1.2 in
  ∃ w' c' es' out',
    htl_read_cached bd_read (Some c) i b (Some out) w = Some (w', Some c', Some out', st) ∧
    htl_ok w' c' es' ∧ same_devices c c' ∧ same_view w c es w' c' es' ∧
    (st = HTL_OK → out' = bd_disk w (ctx_of c i) b ++ drop block_len out).
Proof.
  intros Hok Hi Hd Hb Hl Hf Hno st0. unfold st0. pose proof block_len_Z. pose proof (ho_cache _ _ _ Hok) as Hc.
  destruct (cached_guards w c es i Hok Hi) as (d' & Hd' & Hval & Hsz & Hbs & Hi8 & Hi256).
  simplify_eq. pose proof (ho_len _ _ _ Hok) as [_ Hls].
  unfold htl_read_cached. pass_guards Hd Hval.
  rewrite (proj2 (Z.leb_gt _ _)), Hf, obind_Some by lia. cbn [Z.leb Z.compare].
  destruct (dev_read_spec d b out w Hsz Hbs Hl) as (w' & st & out' & -> & Est0 & Hdisk & Hlo & Hout).
  rewrite <-Est0. rewrite obind_Some. set (c1 := c <| h_cache := _ |>).
  assert (cache_ok (h_device_count c) (h_cache c1) es) as Hc1
    by (eapply cache_ok_tele; [exact Hc|done..]).
  destruct (negb (st =? HTL_OK)) eqn:Est; zbool.
  - stats_step Hls Hi8. eexists _, _, es, _. split; [done|].
    split; [|split; [done|split; [|by intros ?]]].
    + eapply htl_ok_update; [done..|]. eapply coherent_disk; [done|apply Hok].
    + intros j k Hj. by rewrite (ctx_of_same c), (view_same_disk w).
  - clear Est0. subst st. specialize (Hout eq_refl).
    destruct (cache_insert_spec (h_device_count c) (h_cache c1) es i b out'
      (u32 (h_access_counter c1 + 1)) Hc1 Hi) as (cache' & st' & -> & Hins);
      [apply Hok|lia|done|]. rewrite obind_Some. cbv beta iota.
    stats_step Hls Hi8.
    assert (take block_len out' = bd_disk w (ctx_of c i) b) as Ht.
    { rewrite (ctx_of_dev c i d Hd), Hout, take_app_le by (rewrite bd_disk_length; lia).
      apply take_ge. rewrite bd_disk_length. lia. }
    destruct Hins as [[_ ->]|(_ & k & e0 & Hk & Hcl & Hck)].
    + eexists _, _, es, _. split; [done|].
      split; [|split; [done|split]].
      * eapply htl_ok_update; [done..|]. eapply coherent_disk; [done|apply Hok].
      * intros j k Hj. by rewrite (ctx_of_same c), (view_same_disk w).
      * intros _. by rewrite (ctx_of_dev c i d Hd).
    + destruct (insert_clean w c es k e0 (mk_centry b 0 1 i (ce_reserved e0)
        (u32 (h_access_counter c1 + 1)) (take block_len out')) cache') as [Hcoh Hview]; [done..|].
      eexists _, _, (<[k := _]> es), _. split; [done|].
      split; [|split; [done|split]].
      * eapply htl_ok_update; [done..|]. by eapply coherent_disk.
      * intros j l Hj. rewrite (ctx_of_same c) by done.
        rewrite (view_same_disk w) by done. by apply Hview.
      * intros _. by rewrite (ctx_of_dev c i d Hd).
Qed.

(** What the arguments alone decide: an unregistered device, a NULL buffer and
    a block behind the end of the device are refused. *)
Definition read_refusal (c : htl_context_t) (i b : Z) (buf : ptr (list Z)) : option Z :=
  if decide (h_device_count c ≤ i) then Some HTL_ERR_NO_DEVICE
  else match buf with
       | None => Some HTL_ERR_INVALID_PARAM
       | Some _ =>
           if decide (default 0 (d_total_blocks <$> aget (h_devices c) i) ≤ b)
           then Some HTL_ERR_INVALID_BLOCK else None
       end.

(** The status of a read that is not refused: a cached block is there, any
    other is asked of the driver. *)
Definition read_answer w c es i b : Z :=
  if existsb (entry_matches i b) es then HTL_OK
  else match aget (h_devices c) i with
       | Some d => (bd_read (d_read_block d) (d_driver_ctx d) b 4096 w).1.2
       | None => HTL_ERR_NO_DEVICE
       end.

Lemma read_refused w c es i b buf st :
  htl_ok w c es → 0 ≤ i → read_refusal c i b buf = Some st →
  htl_read_cached bd_read (Some c) i b buf w = Some (w, Some c, buf, st).
Proof.
  intros Hok Hi E. unfold read_refusal in E. case_decide as Hn.
  { injection E as <-. unfold htl_read_cached. cbn [validate_device_idx].
    by rewrite (proj2 (Z.leb_le _ _)). }
  destruct (cached_guards w c es i Hok) as (d & Hd & Hval & _); [lia|].
  unfold htl_read_cached. cbv zeta. rewrite validate_ok by lia. rewrite Z.eqb_refl. cbn [negb]. rewrite obind_Some.
  destruct buf as [out|]; [|by injection E as <-]. rewrite Hd in E. cbn in E. case_decide; [|done].
  injection E as <-. rewrite Hd, obind_Some, Hval. cbn [negb]. by rewrite (proj2 (Z.leb_le _ _)).
Qed.

Lemma existsb_entry es i b :
  existsb (entry_matches i b) es = true ↔ ∃ k e, es !! k = Some e ∧ entry_matches i b e = true.
Proof.
  rewrite existsb_exists. split.
  - intros (e & [k Hk]%list_elem_of_In%list_elem_of_lookup & Hm). eauto.
  - intros (k & e & Hk & Hm). exists e. split; [|done]. by apply list_elem_of_In, (list_elem_of_lookup_2 _ k).
Qed.

Lemma read_answered w c es i b d out :
  htl_ok w c es → 0 ≤ i < h_device_count c → aget (h_devices c) i = Some d →
  0 ≤ b < d_total_blocks d → (block_len ≤ length out)%nat →
  ∃ w' c' es' out',
    htl_read_cached bd_read (Some c) i b (Some out) w = Some (w', Some c', Some out', read_answer w c es i b) ∧
    htl_ok w' c' es' ∧ same_devices c c' ∧ same_view w c es w' c' es' ∧
    (read_answer w c es i b = HTL_OK → out' = view w (ctx_of c) es i b ++ drop block_len out).
Proof.
  intros Hok Hi Hd Hb Hl. pose proof (ho_count _ _ _ Hok).
  assert (0 ≤ i < 256) as Hi2 by lia. unfold read_answer.
  destruct (cache_find_spec _ _ _ i b (ho_cache _ _ _ Hok)) as (r & Hf & [[-> Hno]|Hhit]); [lia| |].
  - rewrite view_miss by done. rewrite (not_true_is_false (existsb _ _)), Hd; [by eapply read_cached_miss|].
    rewrite existsb_entry. intros (k & e & Hk & Hm). by rewrite (Hno k e) in Hm.
  - destruct Hhit as (Hr & e & He & Hm). rewrite (proj2 (existsb_entry es i b)) by eauto.
    destruct (read_cached_hit w c es i b d out (Z.to_nat r) e) as (c' & Heq & Hok' & Hs);
      try done; [by rewrite Z2Nat.id|].
    eexists w, c', es, _. split_and!; try done.
    + intros j k _. destruct Hs as [Hs _]. by rewrite (ctx_of_same c).
    + intros _. by rewrite (view_hit _ _ _ _ _ _ _ _ _ (ho_cache _ _ _ Hok) Hi2 He Hm).
Qed.

(** [C8] Cached reads are transparent.  Take a context whose devices all have
    blocks of 4096 bytes (the size of a cache entry) and distinct driver
    contexts, and whose cache, of less than 2^31 entries, is coherent: no
    block twice, clean entries equal to the disk.  [htl_read_cached] with a
    buffer of at least 4096 bytes refuses an unregistered device, a NULL
    buffer and a block behind the end of the device, each with its own error,
    and then changes nothing.  Every other read is answered: with HTL_OK when
    the block is cached and with the status of the driver's read when it is
    not; on HTL_OK the buffer starts with the current content of the block (the
    cached copy, dirty or clean, else the disk), whatever entry is evicted; no
    block of any device changes as the callers see it, and the conditions on
    context and cache still hold, also when the driver fails. *)
Theorem htl_read_cached_transparent w c es i b buf :
  htl_ok w c es → 0 ≤ i → 0 ≤ b → (∀ out, buf = Some out → (block_len ≤ length out)%nat) →
  match read_refusal c i b buf with
  | Some st => htl_read_cached bd_read (Some c) i b buf w = Some (w, Some c, buf, st)
  | None => ∃ out w' c' es' out', buf = Some out ∧
      htl_read_cached bd_read (Some c) i b buf w = Some (w', Some c', Some out', read_answer w c es i b) ∧
      htl_ok w' c' es' ∧ same_devices c c' ∧ same_view w c es w' c' es' ∧
      (read_answer w c es i b = HTL_OK → out' = view w (ctx_of c) es i b ++ drop block_len out)
  end.
Proof.
  intros Hok Hi Hb Hl. destruct (read_refusal c i b buf) as [st|] eqn:E; [by eapply read_refused|].
  unfold read_refusal in E. case_decide; [done|]. destruct buf as [out|]; [|done].
  destruct (cached_guards w c es i Hok) as (d & Hd & _); [lia|]. rewrite Hd in E. cbn in E. case_decide; [done|].
  exists out. destruct (read_answered w c es i b d out) as (w' & c' & es' & out' & H'); [done|lia|done|lia|by apply Hl|].
  by exists w', c', es', out'.
Qed.

(** ** Cached writes *)

(** Storing a dirty copy of the buffer. *)
Lemma insert_dirty w c c' es k e0 e i b data :
  htl_ok w c es → 0 ≤ i < h_device_count c → es !! k = Some e0 →
  (entry_valid e0 = true → entry_dirty e0 = false ∨
    (ce_device_idx e0 = ce_device_idx e ∧ ce_block_num e0 = ce_block_num e)) →
  entry_valid e = true → entry_dirty e = true → ce_device_idx e = i → ce_block_num e = b →
  ce_data e = data → cache_ok (h_device_count c) (h_cache c') (<[k := e]> es) →
  same_devices c c' → length (h_stats c') = 8%nat →
  htl_ok w c' (<[k := e]> es) ∧
  ∀ j l, 0 ≤ j < h_device_count c →
    view w (ctx_of c') (<[k := e]> es) j l =
      if decide (j = i ∧ l = b) then data else view w (ctx_of c) es j l.
Proof.
  intros Hok Hi Hk Hcl Hv Hdi <- <- <- Hck Hs Hls. pose proof (ho_count _ _ _ Hok).
  split.
  - eapply htl_ok_update; try done. apply coherent_put; [apply Hok|]. by rewrite Hdi.
  - intros j l Hj. destruct Hs as [Hs _]. rewrite (ctx_of_same c) by done.
    rewrite (view_put _ _ _ _ _ _ _ _ _ _ _ (ho_cache _ _ _ Hok) Hck Hk);
      [|done|apply Hok|lia|done].
    repeat case_decide; naive_solver.
Qed.

(** Marking the entry just inserted. *)
Lemma mark_dirty_spec n cache es k e i b :
  cache_ok n cache es → 0 ≤ i < n → n ≤ 8 → es !! k = Some e → entry_matches i b e = true →
  ∃ cache', (new_idx ← cache_find cache i b;
             if 0 <=? new_idx then mark_dirty cache new_idx else Some cache) = Some cache' ∧
    cache_ok n cache' (<[k := e <| ce_dirty := 1 |>]> es).
Proof.
  intros Hc Hi Hn Hk Hm. assert (0 ≤ i < 256) as Hi2 by lia.
  destruct (cache_find_spec n cache es i b Hc Hi2) as (r & -> & [[_ Hno]|(Hr & f & Hf & Hm')]).
  { by rewrite (Hno k e) in Hm. }
  rewrite obind_Some, (proj2 (Z.leb_le _ _)) by lia.
  pose proof Hm as (Hv & Hd & Hb)%entry_matches_iff; [|done].
  pose proof Hm' as (Hv' & Hd' & Hb')%entry_matches_iff; [|done].
  assert (Z.to_nat r = k) as Hrk by (eapply (co_unique _ _ _ Hc); eauto; congruence).
  assert (f = e) as -> by congruence. pose proof (lookup_lt_Some _ _ _ Hk).
  unfold mark_dirty. rewrite (co_entries _ _ _ Hc), obind_Some, aget_to_nat, Hrk, Hk by done.
  rewrite obind_Some, aset_in, obind_Some by lia. rewrite Hrk. eexists. split; [done|].
  apply (cache_ok_put n cache _ es k e); try done; simpl; try (by apply Hc).
  - pose proof (co_count _ _ _ Hc). lia.
  - by eapply (co_below _ _ _ Hc).
  - by eapply co_data.
  - lia.
  - intros j g Hj Hjk Hvg Hdg Hbg. eapply Hjk, (co_unique _ _ _ Hc); eauto.
Qed.

Lemma write_cached_spec w c es i b d buf :
  htl_ok w c es → 0 ≤ i < h_device_count c → aget (h_devices c) i = Some d →
  d_write_protect d = 0 → 0 ≤ b < d_total_blocks d → (block_len ≤ length buf)%nat →
  ∃ c' es' st, htl_write_cached (Some c) i b (Some buf) = Some (Some c', st) ∧
    htl_ok w c' es' ∧ same_devices c c' ∧
    (st ≠ HTL_OK ∧ es' = es ∨
     st = HTL_OK ∧ ∀ j l, 0 ≤ j < h_device_count c →
       view w (ctx_of c') es' j l =
         if decide (j = i ∧ l = b) then take block_len buf else view w (ctx_of c) es j l).
Proof.
  intros Hok Hi Hd Hwp Hb Hl. pose proof block_len_Z. pose proof (ho_cache _ _ _ Hok) as Hc.
  destruct (cached_guards w c es i Hok Hi) as (d' & Hd' & Hval & Hsz & Hbs & Hi8 & Hi2).
  simplify_eq. pose proof (ho_len _ _ _ Hok) as [_ Hls]. pose proof (ho_count _ _ _ Hok).
  unfold htl_write_cached. pass_guards Hd Hval. rewrite Hwp. cbn [nz negb Z.eqb].
  rewrite (proj2 (Z.leb_gt _ _)) by lia.
  destruct (cache_find_spec _ _ _ i b Hc Hi2) as (r & Hf & [[-> Hno]|(Hr & e & He & Hm)]);
    rewrite Hf, obind_Some.
  - cbn [Z.leb Z.compare].
    destruct (cache_insert_spec (h_device_count c) (h_cache c) es i b buf
      (u32 (h_access_counter c + 1)) Hc Hi) as (cache' & st & -> & Hins);
      [lia|done|done|]. rewrite obind_Some. cbv beta iota.
    destruct Hins as [[Hst ->]|(-> & k & e0 & Hk & Hcl & Hck)].
    { rewrite (proj2 (Z.eqb_neq _ _)) by done. cbn [negb].
      eexists _, es, _. split; [done|]. split_and!; [|done|by left].
      eapply htl_ok_update; try done; apply Hok. }
    rewrite Z.eqb_refl. cbn [negb].
    set (e := mk_centry b 0 1 i (ce_reserved e0) (u32 (h_access_counter c + 1)) (take block_len buf)) in *.
    assert (<[k := e]> es !! k = Some e) as Hke
      by (apply list_lookup_insert_eq; by eapply lookup_lt_Some).
    destruct (mark_dirty_spec _ _ _ k e i b Hck Hi) as (cache2 & Hmd & Hck2);
      [lia|done|by apply entry_matches_iff|].
    rewrite list_insert_insert_eq in Hck2.
    apply bind_Some in Hmd as (ni & -> & Hni). rewrite obind_Some, Hni, obind_Some.
    stats_step Hls Hi8.
    destruct (insert_dirty w c (c <| h_access_counter := u32 (h_access_counter c + 1) |>
      <| h_cache := cache2 |> <| h_stats := ss |>) es k e0 (e <| ce_dirty := 1 |>) i b
      (take block_len buf)) as [Hok' Hview]; try done; [by left; auto|].
    eexists _, _, HTL_OK. split; [done|]. split_and!; [done|done|by right].
  - rewrite (proj2 (Z.leb_le _ _)) by done.
    pose proof Hm as (Hv & Hdv & Hbl)%entry_matches_iff; [|done].
    pose proof (co_data _ _ _ Hc _ _ He) as Hlen. pose proof (lookup_lt_Some _ _ _ He).
    rewrite (co_entries _ _ _ Hc), obind_Some, aget_to_nat, He, obind_Some by done.
    unfold HTL_CACHE_DATA_SIZE. rewrite copy_bytes_Z, obind_Some by lia.
    rewrite (drop_ge (ce_data e)), app_nil_r by lia. rewrite aset_in, obind_Some by lia.
    rewrite to_nat_block_len.
    set (e' := e <| ce_data := take block_len buf |> <| ce_dirty := 1 |> <| ce_access_order := _ |>).
    stats_step Hls Hi8.
    set (c' := (c <| h_cache := _ |> <| h_access_counter := _ |>) <| h_stats := ss |>).
    destruct (insert_dirty w c c' es (Z.to_nat r) e e' i b (take block_len buf))
      as [Hok' Hview]; [done|done|done|by right|done|done|done|done|done| |done|done|].
    2:{ eexists c', _, HTL_OK. split; [done|]. split_and!; [done|done|by right]. }
    apply (cache_ok_put (h_device_count c) (h_cache c) _ es (Z.to_nat r) e);
      [done|done|done|done| | | | |]; simpl.
    + pose proof (co_count _ _ _ Hc). lia.
    + by eapply (co_below _ _ _ Hc).
    + rewrite length_take. lia.
    + lia.
    + intros j g Hj Hjk Hvg Hdg Hbg. eapply Hjk, (co_unique _ _ _ Hc); eauto.
Qed.

(** Cached writes update exactly one block: on a coherent cache
    [htl_write_cached] to a writable device either fails without changing any
    block, or makes the block read as the first 4096 bytes of the buffer and
    leaves every other block of every device as it was; the disk is not
    touched and the cache invariant holds afterwards. *)
Theorem htl_write_cached_updates_one w c es i b d buf :
  htl_ok w c es → 0 ≤ i < h_device_count c → aget (h_devices c) i = Some d →
  d_write_protect d = 0 → 0 ≤ b < d_total_blocks d → (block_len ≤ length buf)%nat →
  ∃ c' es' st, htl_write_cached (Some c) i b (Some buf) = Some (Some c', st) ∧
    htl_ok w c' es' ∧ same_devices c c' ∧
    (st ≠ HTL_OK ∧ es' = es ∨
     st = HTL_OK ∧ ∀ j l, 0 ≤ j < h_device_count c →
       view w (ctx_of c') es' j l =
         if decide (j = i ∧ l = b) then take block_len buf else view w (ctx_of c) es j l).
Proof. apply write_cached_spec. Qed.

(** ** Flushing *)

(** A write to a cached block is invisible to the callers and to the other
    entries. *)
Lemma write_covered w w' c es k e fn st data :
  htl_ok w c es → es !! k = Some e → entry_valid e = true →
  bd_write fn (ctx_of c (ce_device_idx e)) (ce_block_num e) data w = (w', st) →
  (∀ j l, 0 ≤ j < h_device_count c →
     view w' (ctx_of c) es j l = view w (ctx_of c) es j l) ∧
  (∀ j f, j ≠ k → es !! j = Some f → entry_valid f = true →
     bd_disk w' (ctx_of c (ce_device_idx f)) (ce_block_num f) =
     bd_disk w (ctx_of c (ce_device_idx f)) (ce_block_num f)).
Proof.
  intros Hok Hk Hv Hw. pose proof (ho_cache _ _ _ Hok) as Hc.
  pose proof (ho_count _ _ _ Hok). pose proof (co_dev _ _ _ Hc _ _ Hk Hv) as Hde.
  split.
  - intros j l Hj. eapply view_disk; [done|lia|].
    destruct (decide ((ctx_of c j, l) = (ctx_of c (ce_device_idx e), ce_block_num e)))
      as [[= E ->]|Hne].
    + right. exists k, e. split; [done|]. apply entry_matches_iff; [lia|].
      apply (ho_inj _ _ _ Hok) in E; [done|lia|lia].
    + left. by eapply bd_write_frame.
  - intros j f Hjk Hj Hvf. eapply bd_write_frame; [done|]. intros [= E1 E2].
    pose proof (co_dev _ _ _ Hc _ _ Hj Hvf).
    apply (ho_inj _ _ _ Hok) in E1; [|lia..]. eapply Hjk, (co_unique _ _ _ Hc); eauto.
Qed.

Lemma write_covered_dirty w w' c es k e fn st data :
  htl_ok w c es → es !! k = Some e → entry_valid e = true → entry_dirty e = true →
  bd_write fn (ctx_of c (ce_device_idx e)) (ce_block_num e) data w = (w', st) →
  coherent w' (ctx_of c) es.
Proof.
  intros Hok Hk Hv Hdirty Hw j f Hj Hvf Hcl.
  destruct (write_covered _ _ _ _ _ _ _ _ _ Hok Hk Hv Hw) as [_ Hothers].
  rewrite (Hothers j f); [by eapply (ho_coh _ _ _ Hok)| |done|done].
  intros ->. congruence.
Qed.

(** Marking a written-back entry clean. *)
Lemma write_back w w' c es k e fn :
  htl_ok w c es → es !! k = Some e → entry_valid e = true →
  bd_size (ctx_of c (ce_device_idx e)) = block_len →
  bd_write fn (ctx_of c (ce_device_idx e)) (ce_block_num e) (ce_data e) w = (w', HTL_OK) →
  let es' := <[k := e <| ce_dirty := 0 |>]> es in
  let c' := c <| h_cache := (h_cache c) <| hc_entries := Some es' |> |> in
  htl_ok w' c' es' ∧ same_view w c es w' c' es'.
Proof.
  intros Hok Hk Hv Hsz Hw es' c'. pose proof (ho_cache _ _ _ Hok) as Hc.
  destruct (write_covered _ _ _ _ _ _ _ _ _ Hok Hk Hv Hw) as [Hview Hothers].
  pose proof (co_data _ _ _ Hc _ _ Hk) as Hlen.
  pose proof (co_dev _ _ _ Hc _ _ Hk Hv) as Hde. pose proof (ho_count _ _ _ Hok).
  assert (cache_ok (h_device_count c) (h_cache c') es') as Hc'.
  { apply (cache_ok_put (h_device_count c) (h_cache c) _ es k e); [done..| | |done|done|].
    - pose proof (co_count _ _ _ Hc). simpl. lia.
    - by eapply (co_below _ _ _ Hc).
    - simpl. intros j g Hj Hjk Hvg Hdg Hbg. eapply Hjk, (co_unique _ _ _ Hc); eauto. }
  assert (ce_data e = bd_disk w' (ctx_of c (ce_device_idx e)) (ce_block_num e)) as Hdisk.
  { symmetry. eapply bd_write_data; [exact Hw|]. by rewrite Hsz. }
  split.
  - eapply htl_ok_update; [done|done|apply Hok|done|].
    intros j f Hj Hvf Hcl. unfold es' in Hj.
    apply list_lookup_insert_Some in Hj as [(-> & <- & _)|[Hne Hj]]; [done|].
    rewrite (Hothers j f) by done. by eapply (ho_coh _ _ _ Hok).
  - intros j l Hj. rewrite (ctx_of_same c) by done. rewrite <-Hview by done.
    assert (0 ≤ j < 256) as Hj2 by lia.
    destruct (match_dec es j l) as [(m & f & Hm & Hmat)|Hno].
    + rewrite (view_hit _ _ _ _ _ _ _ _ _ Hc Hj2 Hm Hmat).
      destruct (decide (m = k)) as [->|Hne].
      * assert (f = e) as -> by congruence.
        assert (es' !! k = Some (e <| ce_dirty := 0 |>)) as Hk'
          by (apply list_lookup_insert_eq; by eapply lookup_lt_Some).
        exact (view_hit _ _ _ _ _ _ _ _ _ Hc' Hj2 Hk' Hmat).
      * eapply view_hit; [done|lia| |done]. unfold es'. by rewrite list_lookup_insert_ne.
    + rewrite !view_miss; [done|done|]. intros m f Hm. unfold es' in Hm.
      apply list_lookup_insert_Some in Hm as [(-> & <- & _)|[_ Hm]]; [|by eapply Hno].
      exact (Hno _ e Hk).
Qed.

(** The state of the write-back loop before entry [k]. *)
Definition flush_inv w0 c0 es0 (i k : Z) (s : W * htl_context_t * Z) : Prop :=
  let '(w, c, last) := s in
  ∃ es, htl_ok w c es ∧ same_devices c0 c ∧ length es = length es0 ∧
    same_view w0 c0 es0 w c es ∧
    (last = HTL_OK → ∀ j e, Z.of_nat j < k → es !! j = Some e → entry_valid e = true →
       ce_device_idx e = i → entry_dirty e = false).

Lemma flush_entry_spec w0 c0 es0 w c i d k last :
  0 ≤ i < h_device_count c0 → aget (h_devices c0) i = Some d →
  0 ≤ k < Z.of_nat (length es0) → flush_inv w0 c0 es0 i k (w, c, last) →
  ∃ s, flush_entry bd_write d i k (w, c, last) = Some s ∧ flush_inv w0 c0 es0 i (k + 1) s.
Proof.
  intros Hi Hd Hk (es & Hok & Hsd & Hlen & Hsv & Hcl). pose proof block_len_Z.
  pose proof Hsd as [Esd Ecnt]. pose proof (ho_cache _ _ _ Hok) as Hc.
  assert (0 ≤ i < h_device_count c) as Hi' by (rewrite Ecnt; done).
  destruct (cached_guards w c es i Hok Hi') as (d1 & Hd1 & _ & Hsz & Hbs & Hi8 & Hi2).
  assert (d1 = d) as -> by congruence. pose proof (ho_len _ _ _ Hok) as [_ Hls].
  destruct (lookup_lt_is_Some_2 es (Z.to_nat k)) as [e He]; [lia|].
  unfold flush_entry. rewrite (co_entries _ _ _ Hc), obind_Some, aget_to_nat, He, obind_Some by lia.
  rewrite u8_small by lia.
  destruct (nz (ce_valid e) && nz (ce_dirty e) && (ce_device_idx e =? i)) eqn:Hcond.
  2:{ eexists. split; [done|]. exists es. split; [done|]. split; [done|]. split; [done|].
      split; [done|]. intros Hlast j f Hj Hf Hv Hde.
      destruct (decide (j = Z.to_nat k)) as [->|]; [|apply (Hcl Hlast j f); (done || lia)].
      assert (f = e) as -> by congruence.
      unfold entry_valid in Hv. rewrite Hv, Hde, Z.eqb_refl in Hcond.
      unfold entry_dirty. by destruct (nz (ce_dirty e)). }
  apply andb_true_iff in Hcond as [[Hv Hdi]%andb_true_iff Hde%Z.eqb_eq].
  change (entry_valid e = true) in Hv. change (entry_dirty e = true) in Hdi.
  pose proof (co_data _ _ _ Hc _ _ He) as Hle.
  unfold dev_write. rewrite Hsz, aslice_in, obind_Some by lia.
  rewrite to_nat_block_len, obind_Some, (take_ge (drop _ _)) by (rewrite length_drop; lia).
  change (drop (Z.to_nat 0) (ce_data e)) with (ce_data e).
  pose proof (ctx_of_dev c i d Hd1) as Hctx.
  destruct (bd_write _ _ _ _ _) as [w' st] eqn:Ew. rewrite <-Hctx, <-Hde in Ew.
  destruct (negb (st =? HTL_OK)) eqn:Est; zbool.
  - stats_step Hls Hi8. eexists. split; [done|]. exists es.
    destruct (write_covered _ _ _ _ _ _ _ _ _ Hok He Hv Ew) as [Hview _].
    split; [|split; [done|split; [done|split; [|done]]]].
    + eapply htl_ok_update; [done|done|done|apply Hok|].
      by eapply write_covered_dirty.
    + intros j l Hj. rewrite (ctx_of_same c) by done. rewrite Hview by (by rewrite Ecnt).
      by apply Hsv.
  - subst st. pose proof (lookup_lt_Some _ _ _ He). rewrite aset_in, obind_Some by lia.
    destruct (write_back w w' c es (Z.to_nat k) e (d_write_block d)) as [Hok' Hsv'];
      [done|done|done|by rewrite Hde, Hctx|done|].
    eexists. split; [done|]. eexists. split; [exact Hok'|]. split; [done|].
    split; [by rewrite length_insert|]. split.
    + intros j l Hj. rewrite Hsv' by (by rewrite Ecnt). by apply Hsv.
    + intros Hlast j f Hj Hf Hvf Hdf.
      apply list_lookup_insert_Some in Hf as [(_ & <- & _)|[Hne Hf]]; [done|].
      apply (Hcl Hlast j f); (done || lia).
Qed.

Lemma htl_flush_spec w c es i d :
  htl_ok w c es → 0 ≤ i < h_device_count c → aget (h_devices c) i = Some d →
  ∃ w' c' es' st, htl_flush_device_cache bd_write bd_flush (Some c) i w = Some (w', Some c', st) ∧
    htl_ok w' c' es' ∧ same_devices c c' ∧ same_view w c es w' c' es' ∧
    (st = HTL_OK → ∀ b, bd_disk w' (ctx_of c i) b = view w (ctx_of c) es i b).
Proof.
  intros Hok Hi Hd. pose proof (ho_cache _ _ _ Hok) as Hc.
  destruct (cached_guards w c es i Hok Hi) as (d1 & Hd1 & Hval & _ & _ & Hi8 & Hi2).
  assert (d1 = d) as -> by congruence.
  unfold htl_flush_device_cache. pass_guards Hd Hval.
  pose proof (co_cap _ _ _ Hc) as Hcap. pose proof (co_count _ _ _ Hc).
  loop_inv (flush_inv w c es i) as ([[w1 c1] last] & -> & Hinv).
  { exists es. split; [done|]. split; [done|]. split; [done|]. split; [done|]. intros. lia. }
  { intros k [[w1 c1] last] Hk Hinv. eapply flush_entry_spec; [done|done|lia|done]. }
  rewrite obind_Some. destruct Hinv as (es1 & Hok1 & Hsd & Hlen & Hsv & Hcl).
  pose proof Hsd as [Esd Ecnt].
  assert (∃ w2 ss st, (if nz (d_flush_cache d) then
      let '(w, st) := bd_flush (d_flush_cache d) (d_driver_ctx d) w1 in
      if negb (st =? HTL_OK) then
        c ← upd_stats c1 i count_error; Some (w, c, st)
      else Some (w, c1, last) else Some (w1, c1, last)) =
      Some (w2, c1 <| h_stats := ss |>, st) ∧ length ss = 8%nat ∧
      (∀ x k, bd_disk w2 x k = bd_disk w1 x k) ∧ (st = HTL_OK → last = HTL_OK))
    as (w2 & ss & st & -> & Hss & Hdisk & Hst).
  { pose proof (ho_len _ _ _ Hok1) as [_ Hls].
    assert (c1 = c1 <| h_stats := h_stats c1 |>) as Hid by (by destruct c1).
    destruct (nz (d_flush_cache d)); [|exists w1, (h_stats c1), last; by rewrite <-Hid].
    destruct (bd_flush _ _ _) as [w2 st] eqn:Ef. pose proof (bd_flush_frame _ _ _ _ _ Ef).
    destruct (negb (st =? HTL_OK)) eqn:Est; zbool.
    - stats_step Hls Hi8. by exists w2, ss, st.
    - exists w2, (h_stats c1), last. by rewrite <-Hid. }
  rewrite obind_Some. cbv beta iota.
  lazymatch goal with |- context [upd_stats ?x ?y ?z] =>
    destruct (upd_stats_spec x y z Hss Hi8) as (ss2 & -> & Hss2) end.
  rewrite obind_Some. eexists w2, _, es1, st. split; [done|].
  assert (ctx_of c1 = ctx_of c) as Ectx by (by apply ctx_of_same).
  split; [|split; [done|split]].
  - eapply htl_ok_update; [exact Hok1|done|done|apply Hok1|].
    eapply coherent_disk; [done|apply Hok1].
  - intros j l Hj. rewrite (ctx_of_same c1) by done. rewrite (view_same_disk w1) by done.
    by apply Hsv.
  - intros ->. specialize (Hcl (Hst eq_refl)). intros b. rewrite Hdisk.
    rewrite <-(Hsv i b Hi), Ectx. pose proof (ho_cache _ _ _ Hok1) as Hc1.
    destruct (match_dec es1 i b) as [(k & e & Hk & Hm)|Hno].
    + rewrite (view_hit _ _ _ _ _ _ _ _ _ Hc1 Hi2 Hk Hm).
      apply entry_matches_iff in Hm as (Hv & Hde & Hb); [|done].
      rewrite (ho_coh _ _ _ Hok1 k e); [by rewrite Ectx, Hde, Hb|done|done|].
      eapply Hcl; try done. pose proof (lookup_lt_Some _ _ _ Hk). lia.
    + by rewrite view_miss.
Qed.

(** A flush writes everything back: [htl_flush_device_cache] never
    changes what the callers see of any block, even when the driver fails in
    the middle, keeps the cache invariant, and when it returns OK the disk of
    the device holds exactly the blocks the callers see. *)
Theorem htl_flush_writes_back w c es i d :
  htl_ok w c es → 0 ≤ i < h_device_count c → aget (h_devices c) i = Some d →
  ∃ w' c' es' st, htl_flush_device_cache bd_write bd_flush (Some c) i w = Some (w', Some c', st) ∧
    htl_ok w' c' es' ∧ same_devices c c' ∧ same_view w c es w' c' es' ∧
    (st = HTL_OK → ∀ b, bd_disk w' (ctx_of c i) b = view w (ctx_of c) es i b).
Proof. apply htl_flush_spec. Qed.

(** ** Setting up *)
Lemma htl_init_spec w c0 buf :
  Z.of_nat (length buf) < 2 ^ 31 →
  ∃ c, htl_init (Some c0) (Some buf) (Z.of_nat (length buf)) = Some (Some c, HTL_OK) ∧
    htl_ok w c (replicate (length buf) zero_centry) ∧ h_device_count c = 0.
Proof.
  intros Hlen. unfold htl_init.
  assert (for_up (length buf) 0 (λ i es, aset es i zero_centry) buf =
    Some (replicate (length buf) zero_centry)) as Hz.
  { loop_inv (λ k es, es = replicate (Z.to_nat k) zero_centry ++ drop (Z.to_nat k) buf ∧ 0 ≤ k)
      as (es & -> & -> & _).
    - done.
    - intros j es Hj [-> _]. destruct (lookup_lt_is_Some_2 buf (Z.to_nat j)) as [x Hx]; [lia|].
      rewrite (drop_lookup_cons _ _ _ Hx).
      rewrite aset_app_at by (rewrite length_replicate; lia). eexists. split; [done|]. split; [|lia].
      replace (Z.to_nat (j + 1)) with (S (Z.to_nat j)) by lia.
      by rewrite replicate_S_end, <-app_assoc.
    - rewrite drop_ge by lia. rewrite app_nil_r. do 2 f_equal. lia. }
  assert (∀ k e, replicate (length buf) zero_centry !! k = Some e → e = zero_centry) as Hall
    by (intros k e [-> _]%lookup_replicate; done).
  eexists. split; [|split].
  - case_if.
    + rewrite Nat2Z.id, Hz, !obind_Some. done.
    + rewrite obind_Some. destruct buf; [done|simpl in *; lia].
  - split; cbn [h_devices h_stats h_device_count h_cache]; [done|lia|intros; lia..| |].
    + split; cbn [hc_entries hc_capacity hc_count]; [done| |done|lia|..].
      * by rewrite length_replicate.
      * by intros k e ->%Hall.
      * intros k e ->%Hall. apply zero_centry_len.
      * by intros k e ->%Hall.
      * by intros j k e f ->%Hall.
    + by intros k e ->%Hall.
  - done.
Qed.

(** A name that ends inside its object is stored without leaving the field. *)
Lemma store_name_spec n : ∀ i name dst,
  0 ≤ i → i + Z.of_nat n < Z.of_nat (length dst) →
  (∀ src, name = Some src → ∃ k, i ≤ Z.of_nat k ∧ src !! k = Some 0) →
  ∃ nm, store_name n i name dst = Some nm ∧ length nm = length dst.
Proof.
  assert (∀ i (dst : list Z), 0 ≤ i < Z.of_nat (length dst) →
    ∃ nm, aset dst i 0 = Some nm ∧ length nm = length dst) as Hend.
  { intros i dst Hi. rewrite aset_in by lia. eexists. by rewrite length_insert. }
  induction n as [|n IH]; intros i name dst Hi Hl Hnul; cbn [store_name]; [apply Hend; lia|].
  destruct name as [src|]; [|apply Hend; lia].
  destruct (Hnul src eq_refl) as (k & Hk & Hs). pose proof (lookup_lt_Some _ _ _ Hs).
  destruct (aget_is_Some src i) as [ch Hch]; [lia|]. rewrite Hch, obind_Some.
  case_if; [apply Hend; lia|]. rewrite aset_in, obind_Some by lia.
  destruct (IH (i + 1) (Some src) (<[Z.to_nat i := ch]> dst)) as (nm & -> & Hnm);
    [lia|rewrite length_insert; lia| |by exists nm; rewrite Hnm, length_insert].
  intros src' [= <-]. exists k. split; [|done].
  destruct (decide (Z.of_nat k = i)) as [<-|]; [|lia].
  rewrite aget_of_nat in Hch. congruence.
Qed.

(** Registering a device on a coherent layer keeps every block of the
    devices already there and exposes the new disk: with a free slot, valid
    callbacks, 4096-byte blocks, a driver context not in use and a terminated
    name (or none), [htl_register_device] returns OK and the next index, and
    the invariant holds afterwards. *)
Theorem htl_register_device_extends w c es ty rd wr fl en ctx total name out :
  htl_ok w c es → h_device_count c < 8 → rd ≠ 0 → wr ≠ 0 → 0 < total →
  bd_size ctx = block_len → (∀ i, 0 ≤ i < h_device_count c → ctx_of c i ≠ ctx) →
  (∀ src, name = Some src → ∃ k, src !! k = Some 0) →
  (∀ d, aget (h_devices c) (h_device_count c) = Some d → length (d_name d) = 32%nat) →
  ∃ c', htl_register_device (Some c) ty rd wr fl en ctx 4096 total name (Some out) =
      Some (Some c', Some (h_device_count c), HTL_OK) ∧
    htl_ok w c' es ∧ h_device_count c' = h_device_count c + 1 ∧
    same_view w c es w c' es ∧
    ∀ b, view w (ctx_of c') es (h_device_count c) b = bd_disk w ctx b.
Proof.
  intros Hok Hn Hrd Hwr Htot Hsz Hfresh Hname Hfield.
  pose proof (ho_count _ _ _ Hok) as Hcnt. pose proof (ho_len _ _ _ Hok) as [Hl Hls].
  pose proof (ho_cache _ _ _ Hok) as Hc.
  unfold htl_register_device.
  rewrite (proj2 (Z.eqb_neq rd 0)), (proj2 (Z.eqb_neq wr 0)) by done. cbn [orb].
  rewrite (proj2 (Z.eqb_neq total 0)) by lia. cbn [Z.eqb orb].
  unfold HTL_MAX_DEVICES. rewrite (proj2 (Z.leb_gt _ _)) by lia. cbv zeta.
  destruct (aget_is_Some (h_devices c) (h_device_count c)) as [d Hd]; [lia|].
  rewrite Hd, obind_Some. specialize (Hfield d Hd).
  destruct (store_name_spec (Z.to_nat (HTL_NAME_LEN - 1)) 0 name (d_name d))
    as (nm & -> & _); [lia|unfold HTL_NAME_LEN; lia| |].
  { intros src E. destruct (Hname src E) as [k Hk]. exists k. split; [lia|done]. }
  rewrite obind_Some, aset_in, obind_Some by lia.
  rewrite u32_small by lia. set (nd := mk_device _ _ _ _ _ _ _ _ _ _ _).
  eexists. split; [done|].
  set (c' := (c <| h_devices := _ |>) <| h_device_count := _ |>).
  assert (∀ i, aget (h_devices c') i = if decide (h_device_count c = i) then Some nd
            else aget (h_devices c) i) as Hget by (intros i; apply aget_insert; lia).
  assert (∀ i, 0 ≤ i < h_device_count c → ctx_of c' i = ctx_of c i) as Hctx.
  { intros i Hi. unfold ctx_of. rewrite Hget, decide_False by lia. done. }
  assert (ctx_of c' (h_device_count c) = ctx) as Hctxn.
  { unfold ctx_of. by rewrite Hget, decide_True. }
  split; [|split; [done|split]].
  - split; [|cbn; lia|..].
    + split; [|done]. cbn [c' h_devices set_field]. by rewrite length_insert.
    + intros i d'. rewrite Hget. cbn [c' h_device_count set_field]. intros Hi.
      case_decide as E; [|apply (ho_dev _ _ _ Hok); lia].
      intros [= <-]. split_and!; [|done|done]. unfold device_valid, nd; cbn.
      rewrite (proj2 (Z.eqb_neq rd 0)), (proj2 (Z.eqb_neq wr 0)) by done. cbn.
      by rewrite (proj2 (Z.eqb_neq total 0)) by lia.
    + intros i j. cbn [c' h_device_count set_field]. intros Hi Hj.
      destruct (decide (i = h_device_count c)) as [->|], (decide (j = h_device_count c)) as [->|];
        rewrite ?Hctxn; [done| | |].
      * rewrite Hctx by lia. intros E. by destruct (Hfresh j); [lia|].
      * rewrite Hctx by lia. intros E. by destruct (Hfresh i); [lia|].
      * rewrite !Hctx by lia. apply (ho_inj _ _ _ Hok); lia.
    + destruct Hc. split; try done. cbn. intros k e Hk Hv. specialize (co_dev0 k e Hk Hv). lia.
    + intros k e Hk Hv Hcl. rewrite Hctx by (by eapply (co_dev _ _ _ Hc)).
      by eapply (ho_coh _ _ _ Hok).
  - intros i b Hi. unfold view. by rewrite Hctx.
  - intros b. rewrite view_miss; [by rewrite Hctxn|]. intros k e Hk.
    destruct (entry_matches _ _ e) eqn:E; [|done].
    apply entry_matches_iff in E as (Hv & Hde & _); [|lia].
    pose proof (co_dev _ _ _ Hc _ _ Hk Hv). lia.
Qed.
End operations.
