(* ===== verification/HtlSectors.v ===== *)
(** Multi-sector I/O of the translation layer against the flat sector view of
    a disk: the block/offset arithmetic of [htl_read_sectors] and
    [htl_write_sectors] reads and writes exactly the addressed sectors. *)
From S2P Require Import Prelude Htl BlockDev.

(** ** Overwriting part of a buffer *)
Definition overwrite (buf : list Z) (off : nat) (data : list Z) : list Z :=
  take off buf ++ data ++ drop (off + length data) buf.

Lemma length_overwrite buf off data :
  (off + length data ≤ length buf)%nat → length (overwrite buf off data) = length buf.
Proof. intros. unfold overwrite. rewrite !length_app, length_take, length_drop. lia. Qed.

Lemma overwrite_nil buf off : overwrite buf off [] = buf.
Proof. unfold overwrite. simpl. by rewrite Nat.add_0_r, take_drop. Qed.

Lemma overwrite_start buf data : overwrite buf 0 data = data ++ drop (length data) buf.
Proof. done. Qed.

(** Two adjacent pieces make one. *)
Lemma overwrite_app buf off a b :
  (off + length a ≤ length buf)%nat →
  overwrite (overwrite buf off a) (off + length a) b = overwrite buf off (a ++ b).
Proof.
  intros Hl. unfold overwrite at 1 3. rewrite length_app.
  assert (length (take off buf ++ a) = off + length a)%nat as Hta
    by (rewrite length_app, length_take; lia).
  assert (take (off + length a) (overwrite buf off a) = take off buf ++ a) as ->.
  { unfold overwrite. rewrite app_assoc, <-Hta. apply take_app_length. }
  assert (drop (off + length a + length b) (overwrite buf off a) =
          drop (off + (length a + length b)) buf) as ->.
  { unfold overwrite. rewrite app_assoc, <-Hta, drop_app_ge, Hta by lia.
    rewrite drop_drop. f_equal. lia. }
  by rewrite <-!app_assoc.
Qed.

(** Reading back a piece of an overwritten buffer. *)
Lemma overwrite_slice_in buf off data m n :
  (off + length data ≤ length buf)%nat → (off ≤ m)%nat → (m + n ≤ off + length data)%nat →
  take n (drop m (overwrite buf off data)) = take n (drop (m - off) data).
Proof.
  intros Hl Hm Hn. unfold overwrite.
  rewrite drop_app_ge by (rewrite length_take; lia).
  rewrite length_take, Nat.min_l by lia.
  rewrite drop_app_le, take_app_le by (rewrite ?length_drop; lia). done.
Qed.

Lemma overwrite_slice_out buf off data m n :
  (off + length data ≤ length buf)%nat → (m + n ≤ off ∨ off + length data ≤ m)%nat →
  take n (drop m (overwrite buf off data)) = take n (drop m buf).
Proof.
  intros Hl [Hm|Hm]; unfold overwrite.
  - rewrite drop_app_le, take_app_le by (rewrite ?length_drop, length_take; lia).
    rewrite skipn_firstn_comm, take_take. f_equal. lia.
  - rewrite app_assoc, drop_app_ge by (rewrite length_app, length_take; lia).
    rewrite drop_drop. do 2 f_equal. rewrite length_app, length_take. lia.
Qed.

Section sectors.
Context `{BD : BlockDevice W}.
Implicit Types (w : W).

(** Sector [s] of a disk with [spb] sectors of 512 bytes per block. *)
Definition sector w (ctx spb s : Z) : list Z :=
  take (Z.to_nat 512) (drop (Z.to_nat (512 * (s mod spb))) (bd_disk w ctx (s / spb))).

Definition sectors w (ctx spb lba n : Z) : list Z :=
  mjoin (sector w ctx spb <$> seqZ lba n).

Context (ctx spb : Z) (Hspb : 0 < spb) (Hsize : bd_size ctx = Z.to_nat (512 * spb)).

Lemma sector_length w s : length (sector w ctx spb s) = Z.to_nat 512.
Proof.
  unfold sector. rewrite length_take, length_drop, bd_disk_length, Hsize.
  assert (0 ≤ s mod spb < spb) by (apply Z.mod_pos_bound; lia). lia.
Qed.

Lemma sectors_one w lba : sectors w ctx spb lba 1 = sector w ctx spb lba.
Proof.
  unfold sectors. rewrite seqZ_cons by lia. change (Z.pred 1) with 0.
  cbn [seqZ fmap list_fmap mjoin list_join]. apply app_nil_r.
Qed.

Lemma sectors_app w lba n1 n2 :
  0 ≤ n1 → 0 ≤ n2 →
  sectors w ctx spb lba (n1 + n2) =
    sectors w ctx spb lba n1 ++ sectors w ctx spb (lba + n1) n2.
Proof.
  intros. unfold sectors. rewrite seqZ_app by done. by rewrite fmap_app, join_app.
Qed.

Lemma sectors_length w lba n : 0 ≤ n → length (sectors w ctx spb lba n) = Z.to_nat (512 * n).
Proof.
  intros Hn. revert lba. pattern n. apply natlike_ind; [done| |done].
  intros m Hm IH lba. rewrite <-Z.add_1_l, sectors_app, length_app by lia.
  rewrite IH, sectors_one, sector_length. lia.
Qed.

Lemma sector_geometry lba m :
  0 ≤ m → lba mod spb + m < spb →
  (lba + m) / spb = lba / spb ∧ (lba + m) mod spb = lba mod spb + m.
Proof.
  intros Hm Hle. assert (0 ≤ lba mod spb < spb) by (apply Z.mod_pos_bound; lia).
  pose proof (Z.div_mod lba spb ltac:(lia)) as Hdm.
  split; symmetry; [apply (Z.div_unique _ _ _ (lba mod spb + m))|
    apply (Z.mod_unique _ _ (lba / spb))]; lia.
Qed.

(** Sectors that lie in one block are a slice of it. *)
Lemma sectors_in_block w lba n :
  0 ≤ n → lba mod spb + n ≤ spb →
  sectors w ctx spb lba n =
    take (Z.to_nat (512 * n)) (drop (Z.to_nat (512 * (lba mod spb))) (bd_disk w ctx (lba / spb))).
Proof.
  intros Hn. pattern n. apply natlike_ind; [done| |done].
  intros m Hm IH Hle. rewrite <-Z.add_1_r, sectors_app, IH, sectors_one by lia.
  assert (0 ≤ lba mod spb < spb) by (apply Z.mod_pos_bound; lia).
  destruct (sector_geometry lba m) as [Ed Em]; [lia..|].
  unfold sector. rewrite Ed, Em.
  replace (Z.to_nat (512 * (m + 1))) with (Z.to_nat (512 * m) + Z.to_nat 512)%nat by lia.
  rewrite <-take_take_drop. do 2 f_equal. rewrite drop_drop. f_equal. lia.
Qed.

(** ** Reading *)
Context (stack_bytes : list Z) (Hstack : length stack_bytes = Z.to_nat 4096).
Context (dev : htl_device_t) (Hctx : d_driver_ctx dev = ctx)
  (Hbs : d_block_size dev = 512 * spb).

Lemma sectors_disk w w' lba n :
  (∀ x k, bd_disk w' x k = bd_disk w x k) → sectors w' ctx spb lba n = sectors w ctx spb lba n.
Proof.
  intros Hd. unfold sectors. f_equal. apply list_fmap_ext. intros i s _.
  unfold sector. by rewrite Hd.
Qed.

(** A driver read of a whole block at an offset of a buffer. *)
Lemma dev_read_at b buf (off : nat) w :
  (off + Z.to_nat (512 * spb) ≤ length buf)%nat →
  ∃ w' st buf', dev_read bd_read dev b buf (Z.of_nat off) w = Some (w', st, buf') ∧
    (∀ x k, bd_disk w' x k = bd_disk w x k) ∧ length buf' = length buf ∧
    (st = HTL_OK → buf' = overwrite buf off (bd_disk w ctx b)).
Proof.
  intros Hl. unfold dev_read. rewrite Hbs, aslice_in, obind_Some by lia.
  destruct (bd_read _ _ _ _ _) as [[w' st] data] eqn:E.
  assert (length (take (Z.to_nat (512 * spb)) data) ≤ Z.to_nat (512 * spb))%nat
    by (rewrite length_take; lia).
  rewrite awrite_in, Nat2Z.id, obind_Some by lia. eexists _, _, _. split; [done|].
  split; [by eapply bd_read_frame|]. split; [by apply length_overwrite; lia|].
  intros ->. rewrite Hctx in E. apply bd_read_data in E; [|rewrite Hsize; lia].
  rewrite Hsize in E. by rewrite E.
Qed.

(** The geometry of an iteration, without wrap-around. *)
Lemma sector_step_spec lba rem :
  0 ≤ lba → 0 < rem < 2 ^ 32 → spb < 2 ^ 32 → lba / spb < 2 ^ 32 →
  let n := Z.min (spb - lba mod spb) rem in
  sector_step spb lba rem = Some (lba / spb, lba mod spb, n) ∧
  0 < n ≤ rem ∧ lba mod spb + n ≤ spb ∧ 0 ≤ lba mod spb < spb.
Proof.
  intros Hl Hr Hs Hq n. assert (0 ≤ lba mod spb < spb) by (apply Z.mod_pos_bound; lia).
  pose proof (Z.div_pos lba spb Hl ltac:(lia)). unfold sector_step.
  rewrite (proj2 (Z.eqb_neq spb 0)), !u32_small by lia. split; [|lia].
  do 2 f_equal. unfold n. case_if; lia.
Qed.

Context (Hspb8 : spb ≤ 8).

(** What one iteration of the read loop does: it fails, or reads the next
    sectors of one block into place. *)
Lemma read_chunk lba n buf (off : nat) w :
  0 < n → lba mod spb + n ≤ spb → 0 ≤ lba mod spb →
  (off + Z.to_nat (512 * n) ≤ length buf)%nat →
  ∃ w' st buf',
    (if negb (lba mod spb =? 0) || (n <? spb) then
       '(w, st, block_buf) ← dev_read bd_read dev (lba / spb) stack_bytes 0 w;
       if negb (st =? HTL_OK) then Some (w, st, buf)
       else buf ← copy_at (u32 (n * VIP_SECTOR_SIZE)) block_buf
                    (u32 (lba mod spb * VIP_SECTOR_SIZE)) buf (Z.of_nat off);
            Some (w, st, buf)
     else dev_read bd_read dev (lba / spb) buf (Z.of_nat off) w) = Some (w', st, buf') ∧
    (∀ x k, bd_disk w' x k = bd_disk w x k) ∧ length buf' = length buf ∧
    (st = HTL_OK → buf' = overwrite buf off (sectors w ctx spb lba n)).
Proof.
  intros Hn Hle Hm Hl. pose proof (sectors_length w lba n ltac:(lia)) as Hsl.
  rewrite (sectors_in_block w lba n) in Hsl |- * by lia. case_if.
  - destruct (dev_read_at (lba / spb) stack_bytes 0 w) as (w' & st & bb & Hrd & Hd & Hlb & Hbb);
      [lia|]. change (Z.of_nat 0) with 0 in Hrd. rewrite Hrd, obind_Some. cbv beta iota.
    destruct (negb (st =? HTL_OK)) eqn:Est; zbool; [by eexists _, _, _|].
    subst st. specialize (Hbb eq_refl). unfold VIP_SECTOR_SIZE. rewrite !u32_small by lia.
    rewrite copy_at_Z, obind_Some by lia. eexists _, _, _. split; [done|].
    split; [done|]. rewrite Nat2Z.id, Hbb.
    rewrite overwrite_start.
    rewrite drop_app_le, take_app_le
      by (rewrite ?length_drop, bd_disk_length, Hsize; lia).
    replace (n * 512) with (512 * n) by lia.
    replace (lba mod spb * 512) with (512 * (lba mod spb)) by lia.
    set (data := take _ (drop _ (bd_disk _ _ _))) in *.
    assert (take off buf ++ data ++ drop (Z.to_nat (Z.of_nat off + 512 * n)) buf =
      overwrite buf off data) as ->.
    { unfold overwrite. rewrite Hsl. do 3 f_equal. lia. }
    split; [|done]. apply length_overwrite. lia.
  - assert (n = spb ∧ lba mod spb = 0) as [-> E1] by lia.
    destruct (dev_read_at (lba / spb) buf off w) as (w' & st & bb & Hrd & Hd & Hlb & Hbb);
      [lia|]. exists w', st, bb. split_and!; [done..|]. intros ->. rewrite Hbb by done.
    rewrite E1, Z.mul_0_r. change (Z.to_nat 0) with 0%nat. rewrite drop_0.
    by rewrite take_ge by (rewrite bd_disk_length, Hsize; lia).
Qed.

Lemma sector_read_spec fuel : ∀ lba rem buf (off : nat) w,
  0 ≤ lba → 0 ≤ rem < 2 ^ 32 → rem ≤ Z.of_nat fuel → lba + rem ≤ 2 ^ 32 * spb →
  (off + Z.to_nat (512 * rem) ≤ length buf)%nat →
  ∃ w' buf' r,
    read_loop bd_read stack_bytes fuel dev spb lba rem buf (Z.of_nat off) w =
      Some (w', buf', r) ∧
    (∀ x k, bd_disk w' x k = bd_disk w x k) ∧ length buf' = length buf ∧
    match r with
    | None => buf' = overwrite buf off (sectors w ctx spb lba rem)
    | Some st => st ≠ HTL_OK
    end.
Proof.
  induction fuel as [|fuel IH]; intros lba rem buf off w Hlba Hrem Hfuel Hend Hl;
    cbn [read_loop]; (case_if; [exists w, buf, None; subst rem; by rewrite overwrite_nil|]);
    [lia|].
  assert (lba / spb < 2 ^ 32) as Hq by (apply Z.div_lt_upper_bound; lia).
  destruct (sector_step_spec lba rem) as (-> & Hn & Hle & Hm); [lia..|]. rewrite obind_Some.
  cbv beta iota. set (n := Z.min (spb - lba mod spb) rem) in *.
  destruct (read_chunk lba n buf off w) as (w' & st & buf' & Hch & Hd & Hlb & Hbuf); [lia..|].
  rewrite !(u64_small (lba + n)), !(u64_small (rem - n)) by lia.
  assert (u32 (n * VIP_SECTOR_SIZE) = 512 * n) as Hu
    by (unfold VIP_SECTOR_SIZE; rewrite u32_small; lia).
  assert (∃ w2 buf2 r, (if negb (st =? HTL_OK) then Some (w', buf', Some st)
      else read_loop bd_read stack_bytes fuel dev spb (lba + n) (rem - n) buf'
             (Z.of_nat off + 512 * n) w') = Some (w2, buf2, r) ∧
    (∀ x k, bd_disk w2 x k = bd_disk w x k) ∧ length buf2 = length buf ∧
    match r with
    | None => buf2 = overwrite buf off (sectors w ctx spb lba rem)
    | Some st => st ≠ HTL_OK
    end) as Hrest.
  { destruct (negb (st =? HTL_OK)) eqn:Est; zbool; [by eexists _, _, _|].
    subst st. specialize (Hbuf eq_refl). subst buf'.
    pose proof (sectors_length w lba n ltac:(lia)) as Hsl.
    replace (Z.of_nat off + 512 * n) with (Z.of_nat (off + Z.to_nat (512 * n))) by lia.
    destruct (IH (lba + n) (rem - n) (overwrite buf off (sectors w ctx spb lba n))
      (off + Z.to_nat (512 * n))%nat w') as (w2 & buf2 & r & -> & Hd2 & Hl2 & Hr); [lia..|].
    exists w2, buf2, r. split; [done|]. split; [intros; by rewrite Hd2, Hd|].
    split; [lia|]. destruct r; [done|]. rewrite Hr, <-Hsl, overwrite_app by lia.
    rewrite (sectors_disk w w') by done. rewrite <-sectors_app by lia. do 2 f_equal. lia. }
  rewrite Hu in *. destruct (negb (lba mod spb =? 0) || (n <? spb)).
  - apply bind_Some in Hch as ([[w1 st1] bb] & -> & Hch). rewrite obind_Some.
    cbv beta iota in Hch |- *. destruct (negb (st1 =? HTL_OK)) eqn:Est.
    + simplify_eq. by rewrite Est in Hrest.
    + apply bind_Some in Hch as (b1 & -> & Hch). simplify_eq. rewrite obind_Some.
      by rewrite Est in Hrest.
  - rewrite Hch, obind_Some. cbv beta iota.
    by destruct (negb (st =? HTL_OK)).
Qed.

(** ** Writing *)

Definition src_slice (src : list Z) (off : nat) (n : Z) : list Z :=
  take (Z.to_nat (512 * n)) (drop off src).

(** One iteration of the write loop: it may only change its block, and on
    success replaces exactly the addressed sectors of it. *)
Lemma write_chunk lba n src (off : nat) w :
  0 < n → lba mod spb + n ≤ spb → 0 ≤ lba mod spb →
  (off + Z.to_nat (512 * n) ≤ length src)%nat →
  ∃ w' st,
    (if negb (lba mod spb =? 0) || (n <? spb) then
       '(w, st, block_buf) ← dev_read bd_read dev (lba / spb) stack_bytes 0 w;
       if negb (st =? HTL_OK) then Some (w, st)
       else block_buf ← copy_at (u32 (n * VIP_SECTOR_SIZE)) src (Z.of_nat off) block_buf
                          (u32 (lba mod spb * VIP_SECTOR_SIZE));
            dev_write bd_write dev (lba / spb) block_buf 0 w
     else dev_write bd_write dev (lba / spb) src (Z.of_nat off) w) = Some (w', st) ∧
    (∀ x k, (x, k) ≠ (ctx, lba / spb) → bd_disk w' x k = bd_disk w x k) ∧
    (st = HTL_OK → bd_disk w' ctx (lba / spb) =
       overwrite (bd_disk w ctx (lba / spb)) (Z.to_nat (512 * (lba mod spb)))
         (src_slice src off n)).
Proof.
  intros Hn Hle Hm Hl.
  assert (length (src_slice src off n) = Z.to_nat (512 * n)) as Hsl
    by (unfold src_slice; rewrite length_take, length_drop; lia).
  assert (∀ w0 data st w', length data = Z.to_nat (512 * spb) →
    (∀ x k, bd_disk w0 x k = bd_disk w x k) →
    bd_write (d_write_block dev) (d_driver_ctx dev) (lba / spb) data w0 = (w', st) →
    (∀ x k, (x, k) ≠ (ctx, lba / spb) → bd_disk w' x k = bd_disk w x k) ∧
    (st = HTL_OK → bd_disk w' ctx (lba / spb) = data)) as Hwr.
  { intros w0 data st w' Hld Hd Hw. rewrite Hctx in Hw. split.
    - intros x k Hne. rewrite <-Hd. by eapply bd_write_frame.
    - intros ->. eapply bd_write_data; [done|]. by rewrite Hsize. }
  case_if.
  - destruct (dev_read_at (lba / spb) stack_bytes 0 w) as (w1 & st & bb & Hrd & Hd & Hlb & Hbb);
      [lia|]. change (Z.of_nat 0) with 0 in Hrd. rewrite Hrd, obind_Some. cbv beta iota.
    destruct (negb (st =? HTL_OK)) eqn:Est; zbool; [by eexists _, _|].
    subst st. specialize (Hbb eq_refl). unfold VIP_SECTOR_SIZE. rewrite !u32_small by lia.
    rewrite copy_at_Z, obind_Some, Nat2Z.id by lia.
    replace (n * 512) with (512 * n) by lia.
    replace (lba mod spb * 512) with (512 * (lba mod spb)) by lia.
    set (data := overwrite (bd_disk w ctx (lba / spb)) (Z.to_nat (512 * (lba mod spb)))
      (src_slice src off n)).
    pose proof (bd_disk_length w ctx (lba / spb)) as Hbl. rewrite Hsize in Hbl.
    assert (length data = Z.to_nat (512 * spb)) as Hdl
      by (unfold data; rewrite length_overwrite; lia).
    assert (take (Z.to_nat (512 * (lba mod spb))) bb ++
      take (Z.to_nat (512 * n)) (drop off src) ++
      drop (Z.to_nat (512 * (lba mod spb) + 512 * n)) bb =
      data ++ drop (Z.to_nat (512 * spb)) stack_bytes) as ->.
    { rewrite Hbb, overwrite_start, Hbl. unfold data, overwrite. rewrite Hsl.
      rewrite take_app_le, drop_app_le by lia. rewrite <-!app_assoc. unfold src_slice.
      do 4 f_equal. lia. }
    unfold dev_write. rewrite Hbs, aslice_in, obind_Some
      by (rewrite ?length_app, ?length_drop; lia).
    change (Z.to_nat 0) with 0%nat. rewrite drop_0, take_app_le, take_ge by lia.
    destruct (bd_write _ _ _ _ _) as [w' st] eqn:Ew. exists w', st.
    split; [done|]. by apply (Hwr w1).
  - assert (n = spb ∧ lba mod spb = 0) as [-> E1] by lia.
    unfold dev_write. rewrite Hbs, aslice_in, obind_Some, Nat2Z.id by lia.
    destruct (bd_write _ _ _ _ _) as [w' st] eqn:Ew. exists w', st. split; [done|].
    apply (Hwr w) in Ew; [|done|done]. destruct Ew as [Hf Hok]. split; [done|].
    intros Hst. rewrite Hok, E1 by done. rewrite Z.mul_0_r. unfold overwrite.
    rewrite Hsl, (drop_ge (bd_disk w ctx (lba / spb))) by (rewrite bd_disk_length, Hsize; lia).
    rewrite app_nil_r. done.
Qed.

(** The sectors after one successful chunk. *)
Lemma sector_after_chunk w w' lba n src (off : nat) s :
  0 ≤ lba → 0 < n → lba mod spb + n ≤ spb → 0 ≤ lba mod spb →
  (off + Z.to_nat (512 * n) ≤ length src)%nat →
  (∀ x k, (x, k) ≠ (ctx, lba / spb) → bd_disk w' x k = bd_disk w x k) →
  bd_disk w' ctx (lba / spb) =
    overwrite (bd_disk w ctx (lba / spb)) (Z.to_nat (512 * (lba mod spb)))
      (src_slice src off n) →
  sector w' ctx spb s =
    if decide (lba ≤ s < lba + n)
    then take (Z.to_nat 512) (drop (off + Z.to_nat (512 * (s - lba))) src)
    else sector w ctx spb s.
Proof.
  intros Hlba Hn Hle Hm Hl Hf Hov.
  assert (length (src_slice src off n) = Z.to_nat (512 * n)) as Hsl
    by (unfold src_slice; rewrite length_take, length_drop; lia).
  pose proof (bd_disk_length w ctx (lba / spb)) as Hbl. rewrite Hsize in Hbl.
  pose proof (Z.div_mod lba spb ltac:(lia)). pose proof (Z.div_mod s spb ltac:(lia)).
  assert (0 ≤ s mod spb < spb) by (apply Z.mod_pos_bound; lia).
  case_decide as Hs.
  - destruct (sector_geometry lba (s - lba)) as [Ed Em]; [lia..|].
    replace (lba + (s - lba)) with s in * by lia. unfold sector.
    rewrite Ed, Hov, Em, overwrite_slice_in by lia. unfold src_slice.
    rewrite skipn_firstn_comm, take_take, drop_drop. f_equal; [lia|]. f_equal. lia.
  - unfold sector. destruct (decide (s / spb = lba / spb)) as [E|E].
    + rewrite E in *. rewrite Hov. apply overwrite_slice_out; [lia|].
      assert (s mod spb < lba mod spb ∨ lba mod spb + n ≤ s mod spb) as [?|?] by lia;
        [left|right]; lia.
    + by rewrite Hf by congruence.
Qed.

Lemma sector_write_spec fuel : ∀ lba rem src (off : nat) w,
  0 ≤ lba → 0 ≤ rem < 2 ^ 32 → rem ≤ Z.of_nat fuel → lba + rem ≤ 2 ^ 32 * spb →
  (off + Z.to_nat (512 * rem) ≤ length src)%nat →
  ∃ w' r,
    write_loop bd_read bd_write stack_bytes fuel dev spb lba rem src (Z.of_nat off) w =
      Some (w', r) ∧
    (∀ x k, x ≠ ctx ∨ k < lba / spb ∨ (lba + rem - 1) / spb < k →
       bd_disk w' x k = bd_disk w x k) ∧
    match r with
    | None => ∀ s, sector w' ctx spb s =
        if decide (lba ≤ s < lba + rem)
        then take (Z.to_nat 512) (drop (off + Z.to_nat (512 * (s - lba))) src)
        else sector w ctx spb s
    | Some st => st ≠ HTL_OK
    end.
Proof.
  induction fuel as [|fuel IH]; intros lba rem src off w Hlba Hrem Hfuel Hend Hl;
    cbn [write_loop];
    (case_if; [exists w, None; split_and!; [done..|]; intros s; by rewrite decide_False by lia|]);
    [lia|].
  assert (lba / spb < 2 ^ 32) as Hq by (apply Z.div_lt_upper_bound; lia).
  destruct (sector_step_spec lba rem) as (-> & Hn & Hle & Hm); [lia..|]. rewrite obind_Some.
  cbv beta iota zeta. set (n := Z.min (spb - lba mod spb) rem) in *.
  destruct (write_chunk lba n src off w) as (w' & st & Hch & Hf & Hov); [lia..|].
  rewrite !(u64_small (lba + n)), !(u64_small (rem - n)) by lia.
  assert (u32 (n * VIP_SECTOR_SIZE) = 512 * n) as Hu
    by (unfold VIP_SECTOR_SIZE; rewrite u32_small; lia).
  assert (∃ w2 r, (if negb (st =? HTL_OK) then Some (w', Some st)
      else write_loop bd_read bd_write stack_bytes fuel dev spb (lba + n) (rem - n) src
             (Z.of_nat off + 512 * n) w') = Some (w2, r) ∧
    (∀ x k, x ≠ ctx ∨ k < lba / spb ∨ (lba + rem - 1) / spb < k →
       bd_disk w2 x k = bd_disk w x k) ∧
    match r with
    | None => ∀ s, sector w2 ctx spb s =
        if decide (lba ≤ s < lba + rem)
        then take (Z.to_nat 512) (drop (off + Z.to_nat (512 * (s - lba))) src)
        else sector w ctx spb s
    | Some st => st ≠ HTL_OK
    end) as Hrest.
  { assert (lba / spb ≤ (lba + rem - 1) / spb) by (apply Z.div_le_mono; lia).
    assert (∀ x k, x ≠ ctx ∨ k < lba / spb ∨ (lba + rem - 1) / spb < k →
      bd_disk w' x k = bd_disk w x k) as Hfr.
    { intros x k Hx. apply Hf. intros [= -> ->]. destruct Hx as [?|[?|?]]; [done|lia|lia]. }
    destruct (negb (st =? HTL_OK)) eqn:Est; zbool; [by eexists _, _|].
    subst st. specialize (Hov eq_refl).
    replace (Z.of_nat off + 512 * n) with (Z.of_nat (off + Z.to_nat (512 * n))) by lia.
    destruct (IH (lba + n) (rem - n) src (off + Z.to_nat (512 * n))%nat w')
      as (w2 & r & -> & Hf2 & Hr); [lia..|].
    exists w2, r. split; [done|]. split.
    - intros x k Hx. rewrite Hf2, Hfr; [done|done|].
      replace (lba + n + (rem - n) - 1) with (lba + rem - 1) by lia.
      assert (lba / spb ≤ (lba + n) / spb) by (apply Z.div_le_mono; lia).
      destruct Hx as [?|[?|?]]; [by left|right; left; lia|by right; right].
    - destruct r; [done|]. intros s. rewrite Hr.
      rewrite (sector_after_chunk w w' lba n src off s) by (done || lia).
      repeat case_decide; try lia; try done. do 2 f_equal. lia. }
  rewrite Hu in *. destruct (negb (lba mod spb =? 0) || (n <? spb)).
  - apply bind_Some in Hch as ([[w1 st1] bb] & -> & Hch). rewrite obind_Some.
    cbv beta iota in Hch |- *. destruct (negb (st1 =? HTL_OK)) eqn:Est.
    + simplify_eq. by rewrite Est in Hrest.
    + apply bind_Some in Hch as (b1 & -> & Hch). rewrite obind_Some, Hch, obind_Some.
      done.
  - rewrite Hch, obind_Some. done.
Qed.
End sectors.

(** ** The sector interface *)

(** Device [i] of the context is a disk with [spb] sectors per block that fits
    the bounce buffer. *)
Record sector_dev `{BlockDevice W} (c : htl_context_t) (i : Z) (dev : htl_device_t) (spb : Z)
    : Prop := {
  sd_idx : 0 ≤ i < h_device_count c ∧ h_device_count c ≤ 8;
  sd_stats : length (h_stats c) = 8%nat;
  sd_dev : aget (h_devices c) i = Some dev;
  sd_valid : device_valid dev = true;
  sd_spb : 0 < spb ≤ 8;
  sd_bs : d_block_size dev = 512 * spb;
  sd_size : bd_size (d_driver_ctx dev) = Z.to_nat (512 * spb);
  sd_total : 0 ≤ d_total_blocks dev < 2 ^ 32
}.

Section interface.
Context `{BD : BlockDevice W}.
Context (stack_bytes : list Z) (Hstack : length stack_bytes = Z.to_nat 4096).
Context (c : htl_context_t) (i : Z) (dev : htl_device_t) (spb : Z).
Context (Hdev : sector_dev c i dev spb).
Implicit Types (w : W).

Lemma sector_dev_geometry :
  d_block_size dev / VIP_SECTOR_SIZE = spb ∧ dev_sectors dev = d_total_blocks dev * spb.
Proof.
  pose proof (sd_total _ _ _ _ Hdev). pose proof (sd_spb _ _ _ _ Hdev).
  assert (d_block_size dev / VIP_SECTOR_SIZE = spb) as E.
  { rewrite (sd_bs _ _ _ _ Hdev). unfold VIP_SECTOR_SIZE. rewrite Z.mul_comm.
    by apply Z.div_mul. }
  split; [done|]. unfold dev_sectors. rewrite E. apply u64_small. nia.
Qed.

Lemma sector_stats f :
  ∃ ss, upd_stats c i f = Some (c <| h_stats := ss |>).
Proof.
  pose proof (sd_idx _ _ _ _ Hdev). pose proof (sd_stats _ _ _ _ Hdev).
  unfold upd_stats. destruct (aget_is_Some (h_stats c) i) as [s Hs]; [lia|].
  rewrite Hs, obind_Some, aset_in, obind_Some by lia. by eexists.
Qed.

Lemma sector_validate : validate_device_idx (Some c) i = HTL_OK.
Proof.
  pose proof (sd_idx _ _ _ _ Hdev). simpl. by rewrite (proj2 (Z.leb_gt _ _)) by lia.
Qed.

(** Multi-sector reads return the addressed sectors: for a transfer whose
    end does not wrap, [htl_read_sectors] refuses a range beyond the end of
    the device without touching anything, and otherwise, whatever the
    alignment of the range to the device blocks, fills the buffer with
    exactly the sectors [lba .. lba+count-1] in order and keeps the rest of
    the buffer, or reports the driver's error; no block of any disk changes
    and the loop terminates. *)
Theorem htl_read_sectors_correct lba count buf w :
  0 ≤ lba → 0 < count < 2 ^ 32 → lba + count < 2 ^ 64 →
  (Z.to_nat (512 * count) ≤ length buf)%nat →
  ∃ w' c' buf' st,
    htl_read_sectors bd_read stack_bytes (Some c) i lba count (Some buf) w =
      Some (w', Some c', Some buf', st) ∧
    (∀ x k, bd_disk w' x k = bd_disk w x k) ∧ h_cache c' = h_cache c ∧
    (d_total_blocks dev * spb < lba + count →
       st = HTL_ERR_INVALID_BLOCK ∧ buf' = buf ∧ c' = c ∧ w' = w) ∧
    (lba + count ≤ d_total_blocks dev * spb → st = HTL_OK →
       buf' = sectors w (d_driver_ctx dev) spb lba count ++ drop (Z.to_nat (512 * count)) buf).
Proof.
  intros Hlba Hcnt Hwrap Hl. destruct Hdev as [? ? Hd Hval Hspb Hbs Hsz Htot].
  destruct sector_dev_geometry as [Espb Esec].
  unfold htl_read_sectors. rewrite sector_validate, Z.eqb_refl. cbn [negb].
  rewrite obind_Some, (proj2 (Z.eqb_neq count 0)), Hd, obind_Some, Hval by lia. cbn [negb].
  rewrite Esec, u64_small by lia. case_if.
  { exists w, c, buf, HTL_ERR_INVALID_BLOCK. split_and!; (done || lia). }
  rewrite Espb.
  destruct (sector_read_spec (d_driver_ctx dev) spb ltac:(lia) Hsz stack_bytes Hstack dev
    eq_refl Hbs ltac:(lia) (Z.to_nat count) lba count buf 0 w)
    as (w' & buf' & r & Hrun & Hdisk & Hlb & Hr); [lia..|nia|lia|].
  change (Z.of_nat 0) with 0 in Hrun. rewrite Hrun, obind_Some. cbv beta iota.
  destruct r as [st|].
  - destruct (sector_stats count_error) as [ss ->]. rewrite obind_Some.
    eexists _, _, _, _. split; [done|]. split_and!; (done || lia).
  - destruct (sector_stats (count_read (u64 (count * VIP_SECTOR_SIZE)))) as [ss ->].
    rewrite obind_Some. eexists _, _, _, _. split; [done|].
    split_and!; [done|done|lia|]. intros _ _. rewrite Hr, overwrite_start.
    by rewrite sectors_length by lia.
Qed.

(** Multi-sector writes replace exactly the addressed sectors: for a
    transfer whose end does not wrap on a writable device,
    [htl_write_sectors] refuses a range beyond the end of the device without
    touching anything; otherwise a successful write leaves sector
    [lba + j] equal to the [j]-th 512 bytes of the buffer and every other
    sector of the disk unchanged (read-modify-write of partial blocks), and
    in every case blocks outside the range and other disks are untouched. *)
Theorem htl_write_sectors_correct lba count buf w :
  d_write_protect dev = 0 → 0 ≤ lba → 0 < count < 2 ^ 32 → lba + count < 2 ^ 64 →
  (Z.to_nat (512 * count) ≤ length buf)%nat →
  ∃ w' c' st,
    htl_write_sectors bd_read bd_write stack_bytes (Some c) i lba count (Some buf) w =
      Some (w', Some c', st) ∧ h_cache c' = h_cache c ∧
    (d_total_blocks dev * spb < lba + count →
       st = HTL_ERR_INVALID_BLOCK ∧ c' = c ∧ w' = w) ∧
    (∀ x k, x ≠ d_driver_ctx dev ∨ k < lba / spb ∨ (lba + count - 1) / spb < k →
       bd_disk w' x k = bd_disk w x k) ∧
    (lba + count ≤ d_total_blocks dev * spb → st = HTL_OK → ∀ s,
       sector w' (d_driver_ctx dev) spb s =
         if decide (lba ≤ s < lba + count)
         then take (Z.to_nat 512) (drop (Z.to_nat (512 * (s - lba))) buf)
         else sector w (d_driver_ctx dev) spb s).
Proof.
  intros Hwp Hlba Hcnt Hwrap Hl. destruct Hdev as [? ? Hd Hval Hspb Hbs Hsz Htot].
  destruct sector_dev_geometry as [Espb Esec].
  unfold htl_write_sectors. rewrite sector_validate, Z.eqb_refl. cbn [negb].
  rewrite obind_Some, (proj2 (Z.eqb_neq count 0)), Hd, obind_Some, Hval by lia. cbn [negb].
  rewrite Hwp. cbn [nz negb Z.eqb]. rewrite Esec, u64_small by lia. case_if.
  { exists w, c, HTL_ERR_INVALID_BLOCK. split_and!; (done || lia). }
  rewrite Espb.
  destruct (sector_write_spec (d_driver_ctx dev) spb ltac:(lia) Hsz stack_bytes Hstack dev
    eq_refl Hbs ltac:(lia) (Z.to_nat count) lba count buf 0 w)
    as (w' & r & Hrun & Hframe & Hr); [lia..|nia|lia|].
  change (Z.of_nat 0) with 0 in Hrun. rewrite Hrun, obind_Some. cbv beta iota.
  destruct r as [st|].
  - destruct (sector_stats count_error) as [ss ->]. rewrite obind_Some.
    eexists _, _, _. split; [done|]. split_and!; (done || lia).
  - destruct (sector_stats (count_write (u64 (count * VIP_SECTOR_SIZE)))) as [ss ->].
    rewrite obind_Some. eexists _, _, _. split; [done|].
    split_and!; [done|lia|done|]. intros _ _ s. apply Hr.
Qed.
End interface.
