(* ===== verification/HtlLimits.v ===== *)
(** Limits of the translation layer that its interface does not state: sector
    writes bypass the block cache and the end-of-device check wraps around;
    with the concrete RAM-disk contexts that instantiate the theorems on the
    cache and the sector interface. *)
From S2P Require Import Prelude Htl BlockDev HtlCache HtlSectors.

(** ** Sector writes and the cache *)
Section stale.
Context `{BD : BlockDevice W}.
Implicit Types (w : W).

(** Sector writes do not invalidate cached blocks: after
    [htl_write_sectors] to a device, whatever it wrote, a cached read of a
    block of that device that was in the cache still returns the old cached
    copy. *)
Theorem htl_write_sectors_stale_cache stack_bytes w c es i b d e k lba count buf w' c' out :
  htl_ok w c es → 0 ≤ i < h_device_count c → aget (h_devices c) i = Some d →
  0 ≤ b < d_total_blocks d → es !! k = Some e → entry_matches i b e = true →
  htl_write_sectors bd_read bd_write stack_bytes (Some c) i lba count (Some buf) w =
    Some (w', Some c', HTL_OK) →
  (block_len ≤ length out)%nat →
  ∃ c2, htl_read_cached bd_read (Some c') i b (Some out) w' =
    Some (w', Some c2, Some (ce_data e ++ drop block_len out), HTL_OK).
Proof.
  intros Hok Hi Hd Hb Hk Hm Hw Hl. pose proof (ho_cache _ _ _ Hok) as Hc.
  pose proof (ho_count _ _ _ Hok). assert (0 ≤ i < 256) as Hi2 by lia.
  destruct (ho_dev _ _ _ Hok i d Hi Hd) as (Hval & _).
  assert (h_cache c' = h_cache c ∧ h_devices c' = h_devices c ∧
          h_device_count c' = h_device_count c) as (E1 & E2 & E3).
  { unfold htl_write_sectors in Hw. rewrite validate_ok in Hw by done.
    rewrite Z.eqb_refl, obind_Some in Hw. cbn [negb] in Hw. case_match; [done|].
    rewrite Hd, obind_Some in Hw. repeat (case_match; [done|]).
    apply bind_Some in Hw as ([w1 r] & _ & Hw). cbv beta iota in Hw.
    destruct r; apply bind_Some in Hw as (c1 & Hs & Hw); simplify_eq;
      unfold upd_stats in Hs; apply bind_Some in Hs as (? & _ & Hs);
      apply bind_Some in Hs as (? & _ & Hs); by simplify_eq. }
  destruct (cache_find_spec _ _ _ i b Hc Hi2) as (r & Hf & [[_ Hno]|(Hr & f & Hf2 & Hm')]).
  { by rewrite (Hno k e) in Hm. }
  pose proof Hm as (Hv & Hde & Hbl)%entry_matches_iff; [|done].
  pose proof Hm' as (Hv' & Hde' & Hbl')%entry_matches_iff; [|done].
  assert (Z.to_nat r = k) as Hrk by (eapply (co_unique _ _ _ Hc); eauto; congruence).
  assert (f = e) as -> by congruence.
  eexists. eapply (read_hit_eval (h_device_count c) w' c' es i b d out (Z.to_nat r) e);
    rewrite ?E1, ?E2, ?E3; try done. by rewrite Z2Nat.id.
Qed.
End stale.

(** ** The end-of-device check *)
Section wrap_around.
Context {W : Type} (call_read : Z → Z → Z → Z → W → W * Z * list Z).
Context (stack_bytes : list Z).

(** The end-of-device check of [htl_read_sectors] wraps: on a device of
    512-byte blocks, a read of the last 64-bit sector passes the check
    whatever the size of the device and asks the driver for block
    [0xFFFFFFFF]. *)
Theorem htl_read_sectors_check_wraps c i dev buf w w' data :
  0 ≤ i < h_device_count c → h_device_count c ≤ 8 → length (h_stats c) = 8%nat →
  aget (h_devices c) i = Some dev → device_valid dev = true → d_block_size dev = 512 →
  (Z.to_nat 512 ≤ length buf)%nat → length data = Z.to_nat 512 → 0 ≤ d_total_blocks dev →
  call_read (d_read_block dev) (d_driver_ctx dev) 0xFFFFFFFF 512 w = (w', HTL_OK, data) →
  ∃ c', htl_read_sectors call_read stack_bytes (Some c) i (2 ^ 64 - 1) 1 (Some buf) w =
    Some (w', Some c', Some (data ++ drop (Z.to_nat 512) buf), HTL_OK).
Proof.
  intros Hi Hn Hls Hd Hval Hbs Hlb Hld Htot Hrd. unfold htl_read_sectors.
  rewrite validate_ok by done. rewrite Z.eqb_refl. cbn [negb]. rewrite obind_Some.
  cbn [Z.eqb]. rewrite Hd, obind_Some, Hval. cbn [negb].
  change (u64 (2 ^ 64 - 1 + 1)) with 0. unfold dev_sectors.
  rewrite (proj2 (Z.ltb_ge _ 0)) by apply u64_range. rewrite Hbs.
  change (512 / VIP_SECTOR_SIZE) with 1. change (Z.to_nat 1) with 1%nat.
  cbn [read_loop]. cbn [Z.eqb].
  change (sector_step 1 (2 ^ 64 - 1) 1) with (Some (0xFFFFFFFF, 0, 1)).
  rewrite obind_Some. cbv beta iota. cbn [Z.eqb negb orb]. change (1 <? 1) with false. cbv iota.
  unfold dev_read. rewrite Hbs, aslice_in, obind_Some by lia. rewrite Hrd.
  rewrite (take_ge data), awrite_in, obind_Some by lia.
  change (Z.to_nat 0) with 0%nat. rewrite Hld. cbn [take app plus].
  change (u64 (1 - 1)) with 0. rewrite obind_Some. cbn [Z.eqb].
  change (negb (HTL_OK =? HTL_OK)) with false. cbv beta iota. rewrite obind_Some. cbv beta iota.
  destruct (upd_stats_spec c i (count_read (u64 (1 * VIP_SECTOR_SIZE))) Hls) as (ss & -> & _);
    [lia|]. rewrite obind_Some. by eexists.
Qed.

(** On a device whose blocks are smaller than a sector, which
    [htl_register_device] accepts, a transfer whose end wraps to zero passes
    the check and divides by zero. *)
Theorem htl_read_sectors_small_block_ub c i dev lba count buf w :
  0 ≤ i < h_device_count c → aget (h_devices c) i = Some dev → device_valid dev = true →
  0 < d_block_size dev < 512 → 0 < count < 2 ^ 32 → lba + count = 2 ^ 64 →
  htl_read_sectors call_read stack_bytes (Some c) i lba count (Some buf) w = UB.
Proof.
  intros Hi Hd Hval Hbs Hcnt Hwrap. unfold htl_read_sectors.
  rewrite validate_ok by done. rewrite Z.eqb_refl. cbn [negb]. rewrite obind_Some.
  rewrite (proj2 (Z.eqb_neq count 0)), Hd, obind_Some, Hval by lia. cbn [negb].
  rewrite Hwrap. change (u64 (2 ^ 64)) with 0. unfold dev_sectors.
  rewrite (proj2 (Z.ltb_ge _ 0)) by apply u64_range.
  rewrite (Z.div_small (d_block_size dev)) by (unfold VIP_SECTOR_SIZE; lia).
  destruct (Z.to_nat count) as [|f] eqn:E; [lia|]. cbn [read_loop].
  by rewrite (proj2 (Z.eqb_neq count 0)) by lia.
Qed.
End wrap_around.

(** ** Concrete contexts *)
Definition ram_dev (ctx bs total : Z) : htl_device_t :=
  mk_device 1 1 0 0 ctx 1 bs total 0 [0; 0; 0] (replicate (Z.to_nat HTL_NAME_LEN) 0).

(** One registered device and a cache of two free entries. *)
Definition ram_context (bs total : Z) : htl_context_t :=
  mk_hctx (ram_dev 7 bs total :: replicate 7 zero_device) 1
    (mk_cache (Some [zero_centry; zero_centry]) 0 2 0 0) (replicate 8 zero_hstats) 0.

Lemma zero_entries k e : [zero_centry; zero_centry] !! k = Some e → e = zero_centry.
Proof. destruct k as [|[|[|]]]; by intros [= <-]. Qed.

Lemma ram_context_ok :
  @htl_ok _ (ram_device block_len) ∅ (ram_context 4096 16) [zero_centry; zero_centry].
Proof.
  split; cbn [h_device_count ram_context]; [done|lia|..].
  - intros i d Hi Hd. assert (i = 0) as -> by lia. cbn in Hd. injection Hd as <-. done.
  - intros. lia.
  - split; cbn [hc_entries hc_capacity hc_count h_cache ram_context]; [done|done|lia|lia|..].
    + by intros k e ->%zero_entries.
    + intros k e ->%zero_entries. apply zero_centry_len.
    + by intros k e ->%zero_entries.
    + by intros j k e f ->%zero_entries.
  - by intros k e ->%zero_entries.
Qed.

(** A cached write followed by the other operations, for the witnesses. *)
#[local] Instance ram : BlockDevice (gmap (Z * Z) (list Z)) := ram_device block_len.

Lemma htl_write_cached_updates_one_witness :
  let c := ram_context 4096 16 in let es := [zero_centry; zero_centry] in
  let buf := replicate block_len 1 in let w : gmap (Z * Z) (list Z) := ∅ in
  ∃ c' es' st, htl_write_cached (Some c) 0 3 (Some buf) = Some (Some c', st) ∧
    htl_ok w c' es' ∧ same_devices c c' ∧
    (st ≠ HTL_OK ∧ es' = es ∨
     st = HTL_OK ∧ ∀ j l, 0 ≤ j < h_device_count c →
       view w (ctx_of c') es' j l =
         if decide (j = 0 ∧ l = 3) then take block_len buf else view w (ctx_of c) es j l).
Proof.
  intros c es buf w.
  apply (htl_write_cached_updates_one w c es 0 3 (ram_dev 7 4096 16) buf);
    [apply ram_context_ok|cbn; lia|done|done|cbn; lia|].
  unfold buf. by rewrite length_replicate.
Defined.

Lemma htl_flush_writes_back_witness :
  let c := ram_context 4096 16 in let es := [zero_centry; zero_centry] in
  ∃ w' c' es' st, htl_flush_device_cache bd_write bd_flush (Some c) 0 ∅ = Some (w', Some c', st) ∧
    htl_ok w' c' es' ∧ same_devices c c' ∧ same_view ∅ c es w' c' es' ∧
    (st = HTL_OK → ∀ b, bd_disk w' (ctx_of c 0) b = view ∅ (ctx_of c) es 0 b).
Proof.
  intros c es. apply (htl_flush_writes_back ∅ c es 0 (ram_dev 7 4096 16));
    [apply ram_context_ok|cbn; lia|done].
Defined.

Lemma htl_register_device_extends_witness :
  let c := ram_context 4096 16 in let es := [zero_centry; zero_centry] in
  let w : gmap (Z * Z) (list Z) := ∅ in
  ∃ c', htl_register_device (Some c) 1 1 1 0 0 9 4096 32 (Some [65; 0]) (Some 0) =
      Some (Some c', Some (h_device_count c), HTL_OK) ∧
    htl_ok w c' es ∧ h_device_count c' = h_device_count c + 1 ∧ same_view w c es w c' es ∧
    ∀ b, view w (ctx_of c') es (h_device_count c) b = bd_disk w 9 b.
Proof.
  intros c es w.
  apply (htl_register_device_extends w c es 1 1 1 0 0 9 32 (Some [65; 0]) 0);
    [apply ram_context_ok|cbn; lia|done|done|lia|done| | |].
  - intros i Hi. cbn in Hi. assert (i = 0) as -> by lia. done.
  - intros src [= <-]. by exists 1%nat.
  - by intros d [= <-].
Defined.

(** A context whose cache holds block 0 of the device. *)
Definition cached_zero : htl_cache_entry_t := zero_centry <| ce_valid := 1 |>.
Definition warm_context : htl_context_t :=
  (ram_context 4096 16) <| h_cache := mk_cache (Some [cached_zero; zero_centry]) 1 2 0 0 |>.

Lemma warm_entries k e :
  [cached_zero; zero_centry] !! k = Some e →
  k = 0%nat ∧ e = cached_zero ∨ k = 1%nat ∧ e = zero_centry.
Proof. destruct k as [|[|[|]]]; intros [= <-]; auto. Qed.

Lemma warm_context_ok : htl_ok ∅ warm_context [cached_zero; zero_centry].
Proof.
  destruct ram_context_ok as [Hl Hc Hd Hi _ _]. split; [done..| |].
  - split; cbn [hc_entries hc_capacity hc_count h_cache warm_context set_field];
      [done|done|lia|lia|..].
    + by intros k e [[-> ->]|[-> ->]]%warm_entries.
    + intros k e [[-> ->]|[-> ->]]%warm_entries; apply zero_centry_len.
    + intros k e [[-> ->]|[-> ->]]%warm_entries; [cbn; lia|done].
    + intros j k e f [[-> ->]|[-> ->]]%warm_entries [[-> ->]|[-> ->]]%warm_entries; done.
  - intros k e [[-> ->]|[-> ->]]%warm_entries; [|done]. intros _ _.
    cbn. unfold ram_block. rewrite lookup_empty. cbn [default].
    by rewrite app_nil_l, take_replicate, Nat.min_id.
Qed.

Lemma htl_read_cached_transparent_witness :
  let es := [cached_zero; zero_centry] in let out := replicate 5000 1 in
  (∃ w' c' es', htl_read_cached bd_read (Some warm_context) 0 0 (Some out) ∅ =
       Some (w', Some c', Some (ce_data cached_zero ++ drop block_len out), HTL_OK) ∧ htl_ok w' c' es') ∧
  (∃ w' c' es', htl_read_cached bd_read (Some warm_context) 0 3 (Some out) ∅ =
       Some (w', Some c', Some (bd_disk ∅ 7 3 ++ drop block_len out), HTL_OK) ∧ htl_ok w' c' es') ∧
  htl_read_cached bd_read (Some warm_context) 0 16 (Some out) ∅ =
    Some (∅, Some warm_context, Some out, HTL_ERR_INVALID_BLOCK).
Proof.
  intros es out.
  assert (∀ o, Some out = Some o → (block_len ≤ length o)%nat) as Hl.
  { intros o [= <-]. unfold out. rewrite length_replicate. unfold block_len, HTL_CACHE_DATA_SIZE. lia. }
  pose proof (htl_read_cached_transparent ∅ warm_context es 0 0 (Some out) warm_context_ok) as H1.
  pose proof (htl_read_cached_transparent ∅ warm_context es 0 3 (Some out) warm_context_ok) as H2.
  pose proof (htl_read_cached_transparent ∅ warm_context es 0 16 (Some out) warm_context_ok) as H3.
  specialize (H1 ltac:(lia) ltac:(lia) Hl). specialize (H2 ltac:(lia) ltac:(lia) Hl).
  specialize (H3 ltac:(lia) ltac:(lia) Hl). split_and!; [| |exact H3].
  - destruct H1 as (o & w' & c' & es' & out' & [= <-] & E & Hok & _ & _ & Ho).
    rewrite (Ho eq_refl) in E. exists w', c', es'. split; [exact E|exact Hok].
  - destruct H2 as (o & w' & c' & es' & out' & [= <-] & E & Hok & _ & _ & Ho).
    rewrite (Ho eq_refl) in E. exists w', c', es'. split; [exact E|exact Hok].
Defined.

Definition ones : list Z := replicate block_len 1.
Definition after_write : option (gmap (Z * Z) (list Z) * ptr htl_context_t * Z) :=
  htl_write_sectors bd_read bd_write ones (Some warm_context) 0 0 8 (Some ones) ∅.
Definition world_after : gmap (Z * Z) (list Z) :=
  match after_write with Some (w, _, _) => w | None => ∅ end.
Definition context_after : htl_context_t :=
  match after_write with Some (_, Some c, _) => c | _ => warm_context end.

(** The disk now holds ones, the cached read still returns zeros. *)
Lemma htl_write_sectors_stale_cache_witness :
  ∃ c2, htl_read_cached bd_read (Some context_after) 0 0 (Some ones) world_after =
    Some (world_after, Some c2, Some (ce_data cached_zero ++ drop block_len ones), HTL_OK).
Proof.
  apply (htl_write_sectors_stale_cache ones ∅ warm_context [cached_zero; zero_centry] 0 0
    (ram_dev 7 4096 16) cached_zero 0 0 8 ones world_after context_after ones);
    [apply warm_context_ok|cbn; lia|done|cbn; lia|done|done|vm_compute; reflexivity|].
  unfold ones. by rewrite length_replicate.
Defined.

(** ** A disk with 512-byte blocks *)
#[local] Instance ram512 : BlockDevice (gmap (Z * Z) (list Z)) := ram_device (Z.to_nat 512).

Lemma ram512_dev : sector_dev (ram_context 512 16) 0 (ram_dev 7 512 16) 1.
Proof. split; cbn [h_device_count ram_context]; try done; cbn; lia. Qed.

Definition scratch : list Z := replicate (Z.to_nat 4096) 0.
Lemma scratch_length : length scratch = Z.to_nat 4096.
Proof. apply length_replicate. Qed.

Lemma htl_read_sectors_correct_witness :
  ∃ w' c' buf' st,
    htl_read_sectors bd_read scratch (Some (ram_context 512 16)) 0 3 2 (Some scratch) ∅ =
      Some (w', Some c', Some buf', st) ∧
    (∀ x k, bd_disk w' x k = bd_disk ∅ x k) ∧ h_cache c' = h_cache (ram_context 512 16) ∧
    (16 * 1 < 3 + 2 →
       st = HTL_ERR_INVALID_BLOCK ∧ buf' = scratch ∧ c' = ram_context 512 16 ∧ w' = ∅) ∧
    (3 + 2 ≤ 16 * 1 → st = HTL_OK →
       buf' = sectors ∅ 7 1 3 2 ++ drop (Z.to_nat (512 * 2)) scratch).
Proof.
  apply (htl_read_sectors_correct scratch scratch_length (ram_context 512 16) 0
    (ram_dev 7 512 16) 1 ram512_dev 3 2 scratch ∅); [lia..|].
  rewrite scratch_length. lia.
Defined.

Lemma htl_write_sectors_correct_witness :
  ∃ w' c' st,
    htl_write_sectors bd_read bd_write scratch (Some (ram_context 512 16)) 0 3 2 (Some scratch) ∅ =
      Some (w', Some c', st) ∧ h_cache c' = h_cache (ram_context 512 16) ∧
    (16 * 1 < 3 + 2 → st = HTL_ERR_INVALID_BLOCK ∧ c' = ram_context 512 16 ∧ w' = ∅) ∧
    (∀ x k, x ≠ 7 ∨ k < 3 / 1 ∨ (3 + 2 - 1) / 1 < k → bd_disk w' x k = bd_disk ∅ x k) ∧
    (3 + 2 ≤ 16 * 1 → st = HTL_OK → ∀ s,
       sector w' 7 1 s = if decide (3 ≤ s < 3 + 2)
         then take (Z.to_nat 512) (drop (Z.to_nat (512 * (s - 3))) scratch)
         else sector ∅ 7 1 s).
Proof.
  apply (htl_write_sectors_correct scratch scratch_length (ram_context 512 16) 0
    (ram_dev 7 512 16) 1 ram512_dev 3 2 scratch ∅); [done|lia..|].
  rewrite scratch_length. lia.
Defined.

Lemma htl_read_sectors_check_wraps_witness :
  ∃ c', htl_read_sectors bd_read scratch (Some (ram_context 512 16)) 0 (2 ^ 64 - 1) 1
      (Some scratch) ∅ =
    Some (∅, Some c', Some (bd_disk ∅ 7 0xFFFFFFFF ++ drop (Z.to_nat 512) scratch), HTL_OK).
Proof.
  apply (htl_read_sectors_check_wraps bd_read scratch (ram_context 512 16) 0 (ram_dev 7 512 16)
    scratch ∅ ∅ (bd_disk ∅ 7 0xFFFFFFFF));
    [cbn; lia|cbn; lia|done|done|done|done|rewrite scratch_length; lia|
     exact (bd_disk_length (∅ : gmap (Z * Z) (list Z)) 7 0xFFFFFFFF)|
     cbn; lia|done].
Defined.

Lemma htl_read_sectors_small_block_ub_witness :
  htl_read_sectors bd_read scratch (Some (ram_context 256 16)) 0 (2 ^ 64 - 1) 1 (Some scratch) ∅ =
    UB.
Proof.
  apply (htl_read_sectors_small_block_ub bd_read scratch (ram_context 256 16) 0
    (ram_dev 7 256 16) (2 ^ 64 - 1) 1 scratch ∅); [cbn; lia|done|done|cbn; lia|lia|done].
Defined.
