(* ===== verification/Classpnp.v ===== *)
(** The PnP arbiter, [Drivers/classpnp/classpnp.h] and [classpnp.c]: bus
    enumeration, resource assignment from the static pools, driver binding and
    the device state machine, one definition per C function.

    The file-scope arrays [classpnp_irq_used] and [classpnp_dma_used] are
    shared by all contexts: they are a separate state, [pools], threaded
    through the operations that touch them. *)
From S2P Require Import Prelude.

(** ** Constants *)
Definition CLASSPNP_OWFS_BLOCK_SIZE : Z := 0x1000.
Definition CLASSPNP_MAX_DEVICES : Z := 64.
Definition CLASSPNP_MAX_BUSES : Z := 16.
Definition CLASSPNP_MAX_RESOURCES : Z := 32.
Definition CLASSPNP_MAX_RESOURCE_PER_DEV : Z := 8.
Definition CLASSPNP_BUS_ID_LEN : Z := 16.
Definition CLASSPNP_NAME_LEN : Z := 32.

Definition CLASSPNP_STATE_UNKNOWN : Z := 0.
Definition CLASSPNP_STATE_DETECTED : Z := 1.
Definition CLASSPNP_STATE_RESOURCES_ASSIGNED : Z := 2.
Definition CLASSPNP_STATE_DRIVER_BOUND : Z := 3.
Definition CLASSPNP_STATE_FAILED : Z := 4.
Definition CLASSPNP_STATE_DISABLED : Z := 5.

Definition CLASSPNP_BUS_PCI : Z := 0.
Definition CLASSPNP_BUS_USB : Z := 1.
Definition CLASSPNP_BUS_ISA : Z := 2.
Definition CLASSPNP_BUS_ACPIC : Z := 3.
Definition CLASSPNP_BUS_PLATFORM : Z := 4.

Definition CLASSPNP_RESOURCE_IRQ : Z := 0.
Definition CLASSPNP_RESOURCE_MMIO : Z := 1.
Definition CLASSPNP_RESOURCE_DMA_CHANNEL : Z := 2.

Definition CLASSPNP_RES_FLAG_SHARABLE : Z := 1.
Definition CLASSPNP_RES_FLAG_PREFETCHABLE : Z := 2.
Definition CLASSPNP_RES_FLAG_OWFS_MAPPED : Z := 0x10.

Definition CLASSPNP_OK : Z := 0.
Definition CLASSPNP_ERR_NO_CAPACITY : Z := 0x0011A000.
Definition CLASSPNP_ERR_NO_RESOURCES : Z := 0x0011A001.
Definition CLASSPNP_ERR_INVALID_STATE : Z := 0x0011A800.
Definition CLASSPNP_ERR_DRIVER_NOT_BOUND : Z := 0x0011A801.
Definition CLASSPNP_ERR_INVALID_CTX : Z := 0x0011AE00.
Definition CLASSPNP_ERR_INVALID_INDEX : Z := 0x0011AE01.
Definition CLASSPNP_ERR_NAME_TOO_LONG : Z := 0x0011AE03.

Definition CLASSPNP_DRV_NAME_MAX : Z := CLASSPNP_NAME_LEN - 1.
Definition CLASSPNP_FLAG_PREV_STATE_MASK : Z := 0x1F.
Definition CLASSPNP_FLAG_DISABLED : Z := 0x80.

(** ** Static resource pools *)
Definition classpnp_irq_pool : list Z := [3; 4; 5; 6; 7; 9; 10; 11; 12; 14].
Definition CLASSPNP_IRQ_POOL_SIZE : Z := Z.of_nat (length classpnp_irq_pool).
Definition CLASSPNP_MMIO_BASE : Z := 0xF0000000.
Definition CLASSPNP_MMIO_LENGTH : Z := 0x00100000.
Definition CLASSPNP_MMIO_STEP : Z := 0x00100000.
Definition classpnp_dma_pool : list Z := [3; 5; 6; 7].
Definition CLASSPNP_DMA_POOL_SIZE : Z := Z.of_nat (length classpnp_dma_pool).

Record pools := mk_pools {
  classpnp_irq_used : list bool;
  classpnp_dma_used : list bool
}.
#[export] Instance eta_pools : Eta pools := λ p,
  mk_pools (classpnp_irq_used p) (classpnp_dma_used p).

(** ** Data *)
Record classpnp_resource_t := mk_resource {
  rs_type : Z;                  (* uint8_t *)
  rs_flags : Z;                 (* uint8_t *)
  rs_base_lo : Z;               (* uint32_t *)
  rs_base_hi : Z;
  rs_length : Z;
  rs_irq_number : Z;
  rs_reserved : Z
}.
#[export] Instance eta_resource : Eta classpnp_resource_t := λ r,
  mk_resource (rs_type r) (rs_flags r) (rs_base_lo r) (rs_base_hi r) (rs_length r)
    (rs_irq_number r) (rs_reserved r).

Record classpnp_device_t := mk_pdevice {
  pd_bus_idx : Z;               (* uint8_t *)
  pd_parent_bus : Z;            (* uint8_t *)
  pd_state : Z;                 (* uint8_t *)
  pd_resource_count : Z;        (* uint8_t *)
  pd_vendor_id : Z;             (* uint16_t *)
  pd_device_id : Z;             (* uint16_t *)
  pd_device_class : Z;          (* uint32_t *)
  pd_flags : Z;                 (* uint32_t *)
  pd_resource_indices : list Z; (* uint8_t[CLASSPNP_MAX_RESOURCE_PER_DEV] *)
  pd_mmio_base : Z;             (* uint32_t *)
  pd_mmio_length : Z;
  pd_irq : Z;
  pd_dma_channel : Z;
  pd_io_port_base : Z;
  pd_io_port_length : Z;
  pd_name : list Z;             (* char[CLASSPNP_NAME_LEN] *)
  pd_driver_name : list Z       (* char[CLASSPNP_NAME_LEN] *)
}.
#[export] Instance eta_pdevice : Eta classpnp_device_t := λ d,
  mk_pdevice (pd_bus_idx d) (pd_parent_bus d) (pd_state d) (pd_resource_count d)
    (pd_vendor_id d) (pd_device_id d) (pd_device_class d) (pd_flags d)
    (pd_resource_indices d) (pd_mmio_base d) (pd_mmio_length d) (pd_irq d)
    (pd_dma_channel d) (pd_io_port_base d) (pd_io_port_length d) (pd_name d)
    (pd_driver_name d).

Record classpnp_bus_t := mk_bus {
  bs_bus_type : Z;              (* uint8_t *)
  bs_device_count : Z;          (* uint8_t *)
  bs_bus_flags : Z;             (* uint32_t *)
  bs_bus_id : list Z;           (* char[CLASSPNP_BUS_ID_LEN] *)
  bs_device_indices : list Z;   (* uint8_t[CLASSPNP_MAX_DEVICES] *)
  bs_mmio_base : Z;
  bs_mmio_length : Z
}.
#[export] Instance eta_bus : Eta classpnp_bus_t := λ b,
  mk_bus (bs_bus_type b) (bs_device_count b) (bs_bus_flags b) (bs_bus_id b)
    (bs_device_indices b) (bs_mmio_base b) (bs_mmio_length b).

Record classpnp_stats_t := mk_pstats {
  total_enumerations : Z;
  total_resource_assignments : Z;
  total_driver_binds : Z;
  total_driver_unbinds : Z;
  total_devices_disabled : Z;
  total_devices_reenabled : Z;
  total_resets : Z
}.
#[export] Instance eta_pstats : Eta classpnp_stats_t := λ s,
  mk_pstats (total_enumerations s) (total_resource_assignments s) (total_driver_binds s)
    (total_driver_unbinds s) (total_devices_disabled s) (total_devices_reenabled s)
    (total_resets s).

Record classpnp_context_t := mk_pctx {
  pc_devices : list classpnp_device_t;      (* [CLASSPNP_MAX_DEVICES] *)
  pc_buses : list classpnp_bus_t;           (* [CLASSPNP_MAX_BUSES] *)
  pc_resources : list classpnp_resource_t;  (* [CLASSPNP_MAX_RESOURCES] *)
  pc_device_count : Z;
  pc_bus_count : Z;
  pc_resource_count : Z;
  pc_next_device_id : Z;
  pc_stats : classpnp_stats_t
}.
#[export] Instance eta_pctx : Eta classpnp_context_t := λ c,
  mk_pctx (pc_devices c) (pc_buses c) (pc_resources c) (pc_device_count c)
    (pc_bus_count c) (pc_resource_count c) (pc_next_device_id c) (pc_stats c).

(** Zero-filled objects. *)
Definition zero_resource : classpnp_resource_t := mk_resource 0 0 0 0 0 0 0.
Definition zero_name : list Z := replicate (Z.to_nat CLASSPNP_NAME_LEN) 0.
Definition zero_pdevice : classpnp_device_t :=
  mk_pdevice 0 0 0 0 0 0 0 0 (replicate (Z.to_nat CLASSPNP_MAX_RESOURCE_PER_DEV) 0)
    0 0 0 0 0 0 zero_name zero_name.
Definition zero_bus : classpnp_bus_t :=
  mk_bus 0 0 0 (replicate (Z.to_nat CLASSPNP_BUS_ID_LEN) 0)
    (replicate (Z.to_nat CLASSPNP_MAX_DEVICES) 0) 0 0.
Definition zero_pctx : classpnp_context_t :=
  mk_pctx (replicate (Z.to_nat CLASSPNP_MAX_DEVICES) zero_pdevice)
    (replicate (Z.to_nat CLASSPNP_MAX_BUSES) zero_bus)
    (replicate (Z.to_nat CLASSPNP_MAX_RESOURCES) zero_resource) 0 0 0 0
    (mk_pstats 0 0 0 0 0 0 0).
Definition free_pools : pools :=
  mk_pools (replicate (length classpnp_irq_pool) false)
    (replicate (length classpnp_dma_pool) false).

(** ** String helpers *)
Fixpoint classpnp_strlen (s : list Z) : option Z :=
  match s with
  | [] => UB
  | c :: s => if c =? 0 then Some 0 else n ← classpnp_strlen s; Some (u32 (n + 1))
  end.

(** [n] iterations left; once the source ended, zeros are stored. *)
Fixpoint classpnp_strncpy (n : nat) (i : Z) (ended : bool) (dst src : list Z)
    : option (list Z) :=
  match n with
  | O => Some dst
  | S n =>
      if ended then dst ← aset dst i 0; classpnp_strncpy n (i + 1) true dst src
      else
        c ← aget src i;
        dst ← aset dst i c;
        classpnp_strncpy n (i + 1) (c =? 0) dst src
  end.

Fixpoint classpnp_str_equal (n : nat) (i : Z) (a b : list Z) : option bool :=
  match n with
  | O => Some true
  | S n => x ← aget a i; y ← aget b i;
           if negb (x =? y) then Some false
           else if x =? 0 then Some true
           else classpnp_str_equal n (i + 1) a b
  end.

(** ** Simulated identifiers: vendor, device, class *)
Definition classpnp_simulate_pci_ids (bus_idx slot : Z) : Z * Z * Z :=
  (u16 (u32 (0x1234 + u32 (bus_idx * 0x4444))),
   u16 (u32 (u32 (0x1000 + u32 (bus_idx * 0x0100)) + slot)), 0x010601).
Definition classpnp_simulate_usb_ids (bus_idx slot : Z) : Z * Z * Z :=
  (u16 (u32 (0x5678 + u32 (bus_idx * 0x1111))),
   u16 (u32 (u32 (0x2000 + u32 (bus_idx * 0x0100)) + slot)), 0x090000).
Definition classpnp_simulate_isa_ids (bus_idx slot : Z) : Z * Z * Z :=
  (0x0001, u16 (u32 (0x3000 + slot)), 0x070100).
Definition classpnp_simulate_acpi_ids (bus_idx slot : Z) : Z * Z * Z :=
  (0x0006, u16 (u32 (0x4000 + slot)), 0x080500).
Definition classpnp_simulate_platform_ids (bus_idx slot : Z) : Z * Z * Z :=
  (0x000F, u16 (u32 (0x5000 + slot)), 0x080900).

(** ** Lifecycle *)
Definition classpnp_init (p : pools) (ctx : ptr classpnp_context_t)
    : pools * ptr classpnp_context_t * Z :=
  match ctx with
  | None => (p, ctx, CLASSPNP_ERR_INVALID_CTX)
  | Some _ => (free_pools, Some (zero_pctx <| pc_next_device_id := 1 |>), CLASSPNP_OK)
  end.

Definition classpnp_reset (p : pools) (ctx : ptr classpnp_context_t)
    : pools * ptr classpnp_context_t :=
  match ctx with
  | None => (p, ctx)
  | Some _ => (free_pools, Some zero_pctx)
  end.

(** ** Bus enumeration *)

(** The search for a registered bus of the same type and name; [n] left. *)
Fixpoint find_bus (n : nat) (i : Z) (c : classpnp_context_t) (bus_type : Z)
    (bus_id : list Z) : option bool :=
  match n with
  | O => Some false
  | S n =>
      b ← aget (pc_buses c) i;
      if bs_bus_type b =? u8 bus_type then
        eq ← classpnp_str_equal (Z.to_nat CLASSPNP_BUS_ID_LEN) 0 (bs_bus_id b) bus_id;
        if (eq : bool) then Some true else find_bus n (i + 1) c bus_type bus_id
      else find_bus n (i + 1) c bus_type bus_id
  end.

Definition sim_count (bus_type : Z) : Z :=
  if bus_type =? CLASSPNP_BUS_PCI then 4
  else if bus_type =? CLASSPNP_BUS_USB then 4
  else if bus_type =? CLASSPNP_BUS_ISA then 2
  else 1.

Definition sim_ids (bus_type bus_idx slot : Z) : Z * Z * Z :=
  if bus_type =? CLASSPNP_BUS_PCI then classpnp_simulate_pci_ids bus_idx slot
  else if bus_type =? CLASSPNP_BUS_USB then classpnp_simulate_usb_ids bus_idx slot
  else if bus_type =? CLASSPNP_BUS_ISA then classpnp_simulate_isa_ids bus_idx slot
  else if bus_type =? CLASSPNP_BUS_ACPIC then classpnp_simulate_acpi_ids bus_idx slot
  else if bus_type =? CLASSPNP_BUS_PLATFORM then classpnp_simulate_platform_ids bus_idx slot
  else (0xFFFF, 0xFFFF, 0xFFFFFF).

(** ["dev" bus "_" slot], zero-padded. *)
Definition device_name (bus_idx slot : Z) : list Z :=
  [100; 101; 118; 48 + bus_idx mod 10; 95; 48 + slot mod 10; 0] ++
  replicate (Z.to_nat (CLASSPNP_NAME_LEN - 7)) 0.

Definition detected_device (bus_type bus_idx slot : Z) : classpnp_device_t :=
  let '(vendor, device, class) := sim_ids bus_type bus_idx slot in
  zero_pdevice <| pd_bus_idx := u8 bus_idx |> <| pd_parent_bus := u8 bus_idx |>
    <| pd_state := CLASSPNP_STATE_DETECTED |> <| pd_vendor_id := vendor |>
    <| pd_device_id := device |> <| pd_device_class := class |>
    <| pd_name := device_name bus_idx slot |>.

(** [for (slot = ...; slot < sim_count; slot++)]; [n] iterations left. *)
Fixpoint enumerate_slots (n : nat) (slot bus_type bus_idx : Z) (c : classpnp_context_t)
    : option classpnp_context_t :=
  match n with
  | O => Some c
  | S n =>
      if CLASSPNP_MAX_DEVICES <=? pc_device_count c then Some c
      else
        let dev_idx := pc_device_count c in
        ds ← aset (pc_devices c) dev_idx (detected_device bus_type bus_idx slot);
        b ← aget (pc_buses c) bus_idx;
        di ← aset (bs_device_indices b) (bs_device_count b) (u8 dev_idx);
        bs ← aset (pc_buses c) bus_idx
               (b <| bs_device_indices := di |>
                  <| bs_device_count := u8 (bs_device_count b + 1) |>);
        enumerate_slots n (slot + 1) bus_type bus_idx
          (c <| pc_devices := ds |> <| pc_buses := bs |>
             <| pc_device_count := u32 (pc_device_count c + 1) |>)
  end.

Definition classpnp_enumerate_bus (ctx : ptr classpnp_context_t) (bus_type : Z)
    (bus_id : ptr (list Z)) : option (ptr classpnp_context_t * Z) :=
  match ctx, bus_id with
  | Some c, Some id =>
      if CLASSPNP_MAX_BUSES <=? pc_bus_count c then Some (ctx, CLASSPNP_ERR_NO_CAPACITY)
      else
        found ← find_bus (Z.to_nat (pc_bus_count c)) 0 c bus_type id;
        if (found : bool) then Some (ctx, CLASSPNP_OK)
        else
          let bus_idx := pc_bus_count c in
          b ← aget (pc_buses c) bus_idx;
          nm ← classpnp_strncpy (Z.to_nat CLASSPNP_BUS_ID_LEN) 0 false
                 (replicate (Z.to_nat CLASSPNP_BUS_ID_LEN) 0) id;
          bs ← aset (pc_buses c) bus_idx
                 (b <| bs_bus_type := u8 bus_type |> <| bs_device_count := 0 |>
                    <| bs_bus_id := nm |>);
          c ← enumerate_slots (Z.to_nat (sim_count bus_type)) 0 bus_type bus_idx
                (c <| pc_buses := bs |>);
          let s := pc_stats c in
          Some (Some (c <| pc_stats :=
                  s <| total_enumerations := u32 (total_enumerations s + 1) |> |>),
                CLASSPNP_OK)
  | _, _ => Some (ctx, CLASSPNP_ERR_INVALID_CTX)
  end.

(** ** Resource assignment *)

(** The device under assignment, the rest of the context and the pools. *)
Definition assign_state : Type := classpnp_device_t * classpnp_context_t * pools * bool.

(** [resources[resource_count++] = res], recorded in the device. *)
Definition add_resource (dev : classpnp_device_t) (c : classpnp_context_t)
    (res : classpnp_resource_t) : option (classpnp_device_t * classpnp_context_t) :=
  let res_idx := pc_resource_count c in
  rs ← aset (pc_resources c) res_idx res;
  ri ← aset (pd_resource_indices dev) (pd_resource_count dev) (u8 res_idx);
  Some (dev <| pd_resource_indices := ri |>
            <| pd_resource_count := u8 (pd_resource_count dev + 1) |>,
        c <| pc_resources := rs |> <| pc_resource_count := u32 (pc_resource_count c + 1) |>).

Definition mmio_resource (device_idx : Z) : classpnp_resource_t :=
  let base := u32 (CLASSPNP_MMIO_BASE + u32 (device_idx * CLASSPNP_MMIO_STEP)) in
  let mask := u32 (Z.lnot (CLASSPNP_OWFS_BLOCK_SIZE - 1)) in
  let flags := CLASSPNP_RES_FLAG_PREFETCHABLE in
  let flags := if Z.land base mask =? Z.land CLASSPNP_MMIO_BASE mask
               then Z.lor flags CLASSPNP_RES_FLAG_OWFS_MAPPED else flags in
  mk_resource CLASSPNP_RESOURCE_MMIO flags base 0 CLASSPNP_MMIO_LENGTH 0 0.

Definition assign_mmio (device_idx : Z) (s : assign_state) : option assign_state :=
  let '(dev, c, p, assigned) := s in
  if pc_resource_count c <? CLASSPNP_MAX_RESOURCES then
    let res := mmio_resource device_idx in
    '(dev, c) ← add_resource (dev <| pd_mmio_base := rs_base_lo res |>
                                  <| pd_mmio_length := rs_length res |>) c res;
    Some (dev, c, p, true)
  else Some s.

(** The first free line of a pool; nothing when the resource table is full. *)
Definition assign_irq (s : assign_state) : option assign_state :=
  let '(dev, c, p, assigned) := s in
  free ← find_up (Z.to_nat CLASSPNP_IRQ_POOL_SIZE) 0 (classpnp_irq_used p) negb;
  match free with
  | None => Some s
  | Some i =>
      if CLASSPNP_MAX_RESOURCES <=? pc_resource_count c then Some s
      else
        used ← aset (classpnp_irq_used p) i true;
        line ← aget classpnp_irq_pool i;
        '(dev, c) ← add_resource (dev <| pd_irq := line |>) c
                      (mk_resource CLASSPNP_RESOURCE_IRQ CLASSPNP_RES_FLAG_SHARABLE 0 0 0 line 0);
        Some (dev, c, p <| classpnp_irq_used := used |>, true)
  end.

Definition assign_dma (s : assign_state) : option assign_state :=
  let '(dev, c, p, assigned) := s in
  free ← find_up (Z.to_nat CLASSPNP_DMA_POOL_SIZE) 0 (classpnp_dma_used p) negb;
  match free with
  | None => Some s
  | Some i =>
      if CLASSPNP_MAX_RESOURCES <=? pc_resource_count c then Some s
      else
        used ← aset (classpnp_dma_used p) i true;
        chan ← aget classpnp_dma_pool i;
        '(dev, c) ← add_resource (dev <| pd_dma_channel := chan |>) c
                      (mk_resource CLASSPNP_RESOURCE_DMA_CHANNEL 0 chan 0 0 0 0);
        Some (dev, c, p <| classpnp_dma_used := used |>, true)
  end.

Definition wants_mmio (bus_type : Z) : bool :=
  (bus_type =? CLASSPNP_BUS_PCI) || (bus_type =? CLASSPNP_BUS_USB) ||
  (bus_type =? CLASSPNP_BUS_ACPIC) || (bus_type =? CLASSPNP_BUS_PLATFORM).
Definition wants_irq (bus_type : Z) : bool :=
  (bus_type =? CLASSPNP_BUS_ISA) || (bus_type =? CLASSPNP_BUS_USB) ||
  (bus_type =? CLASSPNP_BUS_ACPIC) || (bus_type =? CLASSPNP_BUS_PLATFORM).

(** [ctx->devices[i] = dev] *)
Definition put_device (c : classpnp_context_t) (i : Z) (dev : classpnp_device_t)
    : option classpnp_context_t :=
  ds ← aset (pc_devices c) i dev; Some (c <| pc_devices := ds |>).

(** The lookup every per-device operation starts with: [inl] is the status of
    an early return. *)
Definition device_at (ctx : ptr classpnp_context_t) (device_idx : Z)
    : option (Z + classpnp_context_t * classpnp_device_t) :=
  match ctx with
  | None => Some (inl CLASSPNP_ERR_INVALID_CTX)
  | Some c =>
      if pc_device_count c <=? device_idx then Some (inl CLASSPNP_ERR_INVALID_INDEX)
      else d ← aget (pc_devices c) device_idx; Some (inr (c, d))
  end.

Definition classpnp_assign_resources (p : pools) (ctx : ptr classpnp_context_t)
    (device_idx : Z) : option (pools * ptr classpnp_context_t * Z) :=
  r ← device_at ctx device_idx;
  match r with
  | inl st => Some (p, ctx, st)
  | inr (c, dev) =>
      if negb (pd_state dev =? CLASSPNP_STATE_DETECTED)
      then Some (p, ctx, CLASSPNP_ERR_INVALID_STATE)
      else if CLASSPNP_MAX_RESOURCE_PER_DEV <=? pd_resource_count dev
      then Some (p, ctx, CLASSPNP_ERR_NO_RESOURCES)
      else
        b ← aget (pc_buses c) (pd_bus_idx dev);
        let bus_type := bs_bus_type b in
        let s := (dev, c, p, false) in
        s ← (if wants_mmio bus_type then assign_mmio device_idx s else Some s);
        s ← (if wants_irq bus_type then assign_irq s else Some s);
        s ← (if bus_type =? CLASSPNP_BUS_ISA then assign_dma s else Some s);
        let '(dev, c, p, assigned) := s in
        if negb assigned then Some (p, ctx, CLASSPNP_ERR_NO_RESOURCES)
        else
          c ← put_device c device_idx
                (dev <| pd_state := CLASSPNP_STATE_RESOURCES_ASSIGNED |>);
          let st := pc_stats c in
          Some (p, Some (c <| pc_stats := st <| total_resource_assignments :=
                           u32 (total_resource_assignments st + 1) |> |>), CLASSPNP_OK)
  end.

(** ** Driver binding *)
Definition classpnp_bind_driver (ctx : ptr classpnp_context_t) (device_idx : Z)
    (driver_name : ptr (list Z)) : option (ptr classpnp_context_t * Z) :=
  r ← device_at ctx device_idx;
  match r, driver_name with
  | inl st, _ => Some (ctx, st)
  | inr _, None => Some (ctx, CLASSPNP_ERR_INVALID_CTX)
  | inr (c, dev), Some name =>
      if negb (pd_state dev =? CLASSPNP_STATE_RESOURCES_ASSIGNED)
      then Some (ctx, CLASSPNP_ERR_INVALID_STATE)
      else
        name_len ← classpnp_strlen name;
        if CLASSPNP_DRV_NAME_MAX <? name_len then Some (ctx, CLASSPNP_ERR_NAME_TOO_LONG)
        else
          nm ← classpnp_strncpy (Z.to_nat CLASSPNP_DRV_NAME_MAX) 0 false zero_name name;
          c ← put_device c device_idx
                (dev <| pd_driver_name := nm |> <| pd_state := CLASSPNP_STATE_DRIVER_BOUND |>);
          let st := pc_stats c in
          Some (Some (c <| pc_stats := st <| total_driver_binds :=
                        u32 (total_driver_binds st + 1) |> |>), CLASSPNP_OK)
  end.

Definition classpnp_unbind_driver (ctx : ptr classpnp_context_t) (device_idx : Z)
    : option (ptr classpnp_context_t * Z) :=
  r ← device_at ctx device_idx;
  match r with
  | inl st => Some (ctx, st)
  | inr (c, dev) =>
      if negb (pd_state dev =? CLASSPNP_STATE_DRIVER_BOUND)
      then Some (ctx, CLASSPNP_ERR_DRIVER_NOT_BOUND)
      else
        c ← put_device c device_idx
              (dev <| pd_driver_name := zero_name |>
                   <| pd_state := CLASSPNP_STATE_RESOURCES_ASSIGNED |>);
        let st := pc_stats c in
        Some (Some (c <| pc_stats := st <| total_driver_unbinds :=
                      u32 (total_driver_unbinds st + 1) |> |>), CLASSPNP_OK)
  end.

(** ** Enable and disable *)
Definition clear_bits (x mask : Z) : Z := Z.land x (u32 (Z.lnot mask)).

Definition classpnp_disable_device (ctx : ptr classpnp_context_t) (device_idx : Z)
    : option (ptr classpnp_context_t * Z) :=
  r ← device_at ctx device_idx;
  match r with
  | inl st => Some (ctx, st)
  | inr (c, dev) =>
      if (pd_state dev =? CLASSPNP_STATE_DISABLED) || (pd_state dev =? CLASSPNP_STATE_UNKNOWN)
      then Some (ctx, CLASSPNP_ERR_INVALID_STATE)
      else
        let flags := clear_bits (pd_flags dev) CLASSPNP_FLAG_PREV_STATE_MASK in
        let flags := Z.lor flags (Z.land (pd_state dev) CLASSPNP_FLAG_PREV_STATE_MASK) in
        let flags := Z.lor flags CLASSPNP_FLAG_DISABLED in
        c ← put_device c device_idx
              (dev <| pd_flags := flags |> <| pd_state := CLASSPNP_STATE_DISABLED |>);
        let st := pc_stats c in
        Some (Some (c <| pc_stats := st <| total_devices_disabled :=
                      u32 (total_devices_disabled st + 1) |> |>), CLASSPNP_OK)
  end.

Definition classpnp_reenable_device (ctx : ptr classpnp_context_t) (device_idx : Z)
    : option (ptr classpnp_context_t * Z) :=
  r ← device_at ctx device_idx;
  match r with
  | inl st => Some (ctx, st)
  | inr (c, dev) =>
      if negb (pd_state dev =? CLASSPNP_STATE_DISABLED)
      then Some (ctx, CLASSPNP_ERR_INVALID_STATE)
      else if Z.land (pd_flags dev) CLASSPNP_FLAG_DISABLED =? 0
      then Some (ctx, CLASSPNP_ERR_INVALID_STATE)
      else
        let prev := u8 (Z.land (pd_flags dev) CLASSPNP_FLAG_PREV_STATE_MASK) in
        let flags := clear_bits (pd_flags dev) CLASSPNP_FLAG_DISABLED in
        let flags := clear_bits flags CLASSPNP_FLAG_PREV_STATE_MASK in
        c ← put_device c device_idx (dev <| pd_flags := flags |> <| pd_state := prev |>);
        let st := pc_stats c in
        Some (Some (c <| pc_stats := st <| total_devices_reenabled :=
                      u32 (total_devices_reenabled st + 1) |> |>), CLASSPNP_OK)
  end.

(** ** Queries *)
Definition classpnp_get_device (ctx : ptr classpnp_context_t) (device_idx : Z)
    : option (ptr classpnp_device_t) :=
  match ctx with
  | None => Some None
  | Some c => if pc_device_count c <=? device_idx then Some None
              else d ← aget (pc_devices c) device_idx; Some (Some d)
  end.

Definition classpnp_get_bus (ctx : ptr classpnp_context_t) (bus_idx : Z)
    : option (ptr classpnp_bus_t) :=
  match ctx with
  | None => Some None
  | Some c => if pc_bus_count c <=? bus_idx then Some None
              else b ← aget (pc_buses c) bus_idx; Some (Some b)
  end.

Definition classpnp_find_device (ctx : ptr classpnp_context_t) (vendor_id device_id : Z)
    : option Z :=
  match ctx with
  | None => Some (-1)
  | Some c =>
      r ← find_up (Z.to_nat (pc_device_count c)) 0 (pc_devices c)
            (λ d, (pd_vendor_id d =? vendor_id) && (pd_device_id d =? device_id));
      Some (default (-1) r)
  end.
