(* ===== verification/ClasspnpSpec.v ===== *)
(** Correctness of the PnP arbiter: devices follow the documented state
    machine, exclusive resources are handed out at most once, and what the
    missing registration of buses does. *)
From S2P Require Import Prelude Classpnp.

(** ** The device state machine *)
Inductive astate := Detected | Assigned | Bound | Disabled (prev : astate).
#[export] Instance astate_eq_dec : EqDecision astate.
Proof. solve_decision. Defined.

(** The documented transitions. *)
Inductive astep : astate → astate → Prop :=
  | astep_assign : astep Detected Assigned
  | astep_bind : astep Assigned Bound
  | astep_unbind : astep Bound Assigned
  | astep_disable a : (∀ b, a ≠ Disabled b) → astep a (Disabled a)
  | astep_reenable a : astep (Disabled a) a.

Definition code (a : astate) : Z :=
  match a with
  | Detected => CLASSPNP_STATE_DETECTED
  | Assigned => CLASSPNP_STATE_RESOURCES_ASSIGNED
  | Bound => CLASSPNP_STATE_DRIVER_BOUND
  | Disabled _ => CLASSPNP_STATE_DISABLED
  end.

(** How a device entry encodes a state: a disabled device keeps the previous
    state in its flags. *)
Definition in_state (d : classpnp_device_t) (a : astate) : Prop :=
  pd_state d = code a ∧
  match a with
  | Disabled b => (∀ b', b ≠ Disabled b') ∧
      pd_flags d = Z.lor (code b) CLASSPNP_FLAG_DISABLED
  | _ => pd_flags d = 0
  end.

Lemma in_state_unique d a b : in_state d a → in_state d b → a = b.
Proof.
  intros [Ha Fa] [Hb Fb]. rewrite Ha in Hb. destruct a as [| | |a'], b as [| | |b']; try done.
  destruct Fa as [Na Fa], Fb as [Nb Fb]. rewrite Fa in Fb. f_equal.
  destruct a', b'; try done; exfalso; by (eapply Na || eapply Nb).
Qed.

(** ** The invariant *)

(** A pool line [x] that a device holds. *)
Definition from_pool (pool : list Z) (used : list bool) (x : Z) : Prop :=
  ∃ k, pool !! k = Some x ∧ used !! k = Some true.

Record device_ok (p : pools) (i : Z) (d : classpnp_device_t) (a : astate) : Prop := {
  do_state : in_state d a;
  do_bus : pd_bus_idx d = 0;
  do_indices : length (pd_resource_indices d) = 8%nat;
  do_count : 0 ≤ pd_resource_count d ≤ 3;
  do_fresh : a = Detected ∨ a = Disabled Detected →
    pd_resource_count d = 0 ∧ pd_irq d = 0 ∧ pd_dma_channel d = 0;
  do_irq : pd_irq d = 0 ∨ from_pool classpnp_irq_pool (classpnp_irq_used p) (pd_irq d);
  do_dma : pd_dma_channel d = 0 ∨
    from_pool classpnp_dma_pool (classpnp_dma_used p) (pd_dma_channel d);
  do_mmio : pd_mmio_length d = 0 ∨
    pd_mmio_length d = CLASSPNP_MMIO_LENGTH ∧
    pd_mmio_base d = CLASSPNP_MMIO_BASE + i * CLASSPNP_MMIO_STEP
}.

Record cp_ok (p : pools) (c : classpnp_context_t) : Prop := {
  cp_len : length (pc_devices c) = 64%nat ∧ length (pc_buses c) = 16%nat ∧
    length (pc_resources c) = 32%nat;
  cp_pools : length (classpnp_irq_used p) = 10%nat ∧ length (classpnp_dma_used p) = 4%nat;
  cp_counts : 0 ≤ pc_device_count c ≤ 64 ∧ pc_bus_count c = 0 ∧ 0 ≤ pc_resource_count c ≤ 32;
  cp_buses : ∀ j b, pc_buses c !! j = Some b → length (bs_device_indices b) = 64%nat;
  cp_dev : ∀ i d, 0 ≤ i < pc_device_count c → aget (pc_devices c) i = Some d →
    ∃ a, device_ok p i d a;
  cp_irq : ∀ i j d e, 0 ≤ i < pc_device_count c → 0 ≤ j < pc_device_count c → i ≠ j →
    aget (pc_devices c) i = Some d → aget (pc_devices c) j = Some e →
    pd_irq d ≠ 0 → pd_irq d ≠ pd_irq e;
  cp_dma : ∀ i j d e, 0 ≤ i < pc_device_count c → 0 ≤ j < pc_device_count c → i ≠ j →
    aget (pc_devices c) i = Some d → aget (pc_devices c) j = Some e →
    pd_dma_channel d ≠ 0 → pd_dma_channel d ≠ pd_dma_channel e
}.

(** The device table after replacing one entry. *)
Definition with_device (c : classpnp_context_t) (i : Z) (d : classpnp_device_t) :=
  c <| pc_devices := <[Z.to_nat i := d]> (pc_devices c) |>.

Lemma put_device_in c i d :
  0 ≤ i < Z.of_nat (length (pc_devices c)) → put_device c i d = Some (with_device c i d).
Proof. intros. unfold put_device. by rewrite aset_in, obind_Some. Qed.

Lemma device_at_spec p c i :
  cp_ok p c → 0 ≤ i < pc_device_count c →
  ∃ d a, device_at (Some c) i = Some (inr (c, d)) ∧ aget (pc_devices c) i = Some d ∧
    device_ok p i d a ∧ 0 ≤ i < Z.of_nat (length (pc_devices c)).
Proof.
  intros Hok Hi. destruct (cp_len _ _ Hok) as (Hl & _). destruct (cp_counts _ _ Hok) as (Hc & _).
  destruct (aget_is_Some (pc_devices c) i) as [d Hd]; [lia|].
  destruct (cp_dev _ _ Hok i d Hi Hd) as [a Ha]. exists d, a. split_and!; [|done|done|lia|lia].
  simpl. rewrite (proj2 (Z.leb_gt _ _)) by lia. by rewrite Hd, obind_Some.
Qed.

(** Replacing a device by one that holds the same exclusive lines. *)
Lemma cp_ok_replace p c i d d' a st :
  cp_ok p c → 0 ≤ i < pc_device_count c → aget (pc_devices c) i = Some d →
  device_ok p i d' a → pd_irq d' = pd_irq d → pd_dma_channel d' = pd_dma_channel d →
  cp_ok p ((with_device c i d') <| pc_stats := st |>).
Proof.
  intros Hok Hi Hd Hok' Eirq Edma. pose proof Hok as [(H1 & H2 & H3) ? (H4 & ? & ?) ? Hdev Hirq Hdma].
  assert (0 ≤ i < Z.of_nat (length (pc_devices c))) as Hil by lia.
  assert (∀ j e, aget (pc_devices (with_device c i d')) j = Some e →
    (j = i ∧ e = d') ∨ (j ≠ i ∧ aget (pc_devices c) j = Some e)) as Hget.
  { intros j e. simpl. rewrite aget_insert by done. case_decide; [|by right].
    intros [= <-]. by left. }
  split; simpl; rewrite ?length_insert; try done.
  - intros j e Hj [[-> ->]|[? He]]%Hget; [by exists a|by apply Hdev].
  - intros j k e f Hj Hk Hne [[-> ->]|[? He]]%Hget [[-> ->]|[? Hf]]%Hget; rewrite ?Eirq;
      [done|by apply (Hirq i k d f)|by apply (Hirq j i e d)|by apply (Hirq j k e f)].
  - intros j k e f Hj Hk Hne [[-> ->]|[? He]]%Hget [[-> ->]|[? Hf]]%Hget; rewrite ?Edma;
      [done|by apply (Hdma i k d f)|by apply (Hdma j i e d)|by apply (Hdma j k e f)].
Qed.

(** Changing only state, flags and driver name. *)
Lemma device_ok_restate p i d d' a a' :
  device_ok p i d a → in_state d' a' →
  (a' = Detected ∨ a' = Disabled Detected → a = Detected ∨ a = Disabled Detected) →
  pd_bus_idx d' = pd_bus_idx d → pd_resource_indices d' = pd_resource_indices d →
  pd_resource_count d' = pd_resource_count d → pd_irq d' = pd_irq d →
  pd_dma_channel d' = pd_dma_channel d → pd_mmio_base d' = pd_mmio_base d →
  pd_mmio_length d' = pd_mmio_length d → device_ok p i d' a'.
Proof.
  intros [] Hs Hf E1 E2 E3 E4 E5 E6 E7. split; rewrite ?E1, ?E2, ?E3, ?E4, ?E5, ?E6, ?E7; auto.
Qed.

(** ** Binding *)
Lemma unbind_spec p c i :
  cp_ok p c → 0 ≤ i < pc_device_count c →
  ∃ d a, aget (pc_devices c) i = Some d ∧ in_state d a ∧
    ((a ≠ Bound ∧ classpnp_unbind_driver (Some c) i =
        Some (Some c, CLASSPNP_ERR_DRIVER_NOT_BOUND)) ∨
     (a = Bound ∧ ∃ c' d', classpnp_unbind_driver (Some c) i = Some (Some c', CLASSPNP_OK) ∧
        cp_ok p c' ∧ pc_device_count c' = pc_device_count c ∧
        pc_devices c' = <[Z.to_nat i := d']> (pc_devices c) ∧
        d' = d <| pd_driver_name := zero_name |>
               <| pd_state := CLASSPNP_STATE_RESOURCES_ASSIGNED |> ∧ in_state d' Assigned)).
Proof.
  intros Hok Hi. destruct (device_at_spec p c i Hok Hi) as (d & a & Hat & Hd & Hdok & Hil).
  exists d, a. pose proof (do_state _ _ _ _ Hdok) as Hs. split_and!; [done|done|].
  unfold classpnp_unbind_driver. rewrite Hat, obind_Some. destruct Hs as [Es Ef]. rewrite Es.
  destruct a; try (left; split; [done|reflexivity]). right. split; [done|].
  change (negb (code Bound =? CLASSPNP_STATE_DRIVER_BOUND)) with false. cbv iota.
  rewrite put_device_in, obind_Some by done. eexists _, _. split; [done|].
  set (d' := d <| pd_driver_name := _ |> <| pd_state := _ |>).
  assert (in_state d' Assigned) as Hs' by (by split).
  split_and!; [|done..].
  eapply cp_ok_replace; try done.
  eapply device_ok_restate; try done. by intros [?|?].
Qed.

Definition terminated (s : list Z) : Prop := Forall (λ c, c ≠ 0) s.

Lemma strlen_spec s y :
  terminated s → Z.of_nat (length s) < 2 ^ 32 →
  classpnp_strlen (s ++ 0 :: y) = Some (Z.of_nat (length s)).
Proof.
  induction 1 as [|c s Hc Hs IH]; intros Hl; [done|]. cbn [app classpnp_strlen length].
  simpl in Hl. rewrite (proj2 (Z.eqb_neq c 0)) by done. rewrite IH, obind_Some by lia.
  rewrite u32_small by lia. f_equal. lia.
Qed.

Lemma strncpy_ended n : ∀ p q src, (n ≤ length q)%nat →
  classpnp_strncpy n (Z.of_nat (length p)) true (p ++ q) src =
    Some (p ++ replicate n 0 ++ drop n q).
Proof.
  induction n as [|n IH]; intros p q src Hn; [done|]. cbn [classpnp_strncpy].
  destruct q as [|x q]; simpl in Hn; [lia|]. rewrite aset_app_here, obind_Some.
  specialize (IH (p ++ [0]) q src ltac:(lia)). rewrite <-!app_assoc, length_app in IH.
  simpl in IH. replace (Z.of_nat (length p) + 1) with (Z.of_nat (length p + 1)) by lia.
  by rewrite IH.
Qed.

Lemma strncpy_loop n : ∀ s p q p' y, terminated s → length p' = length p → (n ≤ length q)%nat →
  classpnp_strncpy n (Z.of_nat (length p)) false (p ++ q) (p' ++ s ++ 0 :: y) =
    Some (p ++ take n (s ++ replicate n 0) ++ drop n q).
Proof.
  induction n as [|n IH]; intros s p q p' y Hs Hp Hn; [done|]. cbn [classpnp_strncpy].
  destruct q as [|x q]; simpl in Hn; [lia|].
  replace (Z.of_nat (length p) + 1) with (Z.of_nat (length p + 1)) by lia.
  destruct s as [|c s]; cbn [app]; rewrite <-Hp, aget_app_here, Hp, obind_Some,
    aset_app_here, obind_Some.
  - rewrite Z.eqb_refl. pose proof (strncpy_ended n (p ++ [0]) q (p' ++ 0 :: y) ltac:(lia)) as E.
    rewrite <-!app_assoc, length_app in E. simpl in E. rewrite E. simpl.
    rewrite take_replicate, Nat.min_l by lia. done.
  - inversion Hs as [|? ? Hc Hs']; subst. rewrite (proj2 (Z.eqb_neq c 0)) by done.
    specialize (IH s (p ++ [c]) q (p' ++ [c]) y Hs').
    rewrite !length_app in IH. rewrite <-!app_assoc in IH. simpl in IH.
    rewrite IH by lia. simpl. do 3 f_equal.
    change (0 :: replicate n 0) with (replicate (S n) 0).
    rewrite replicate_S_end, app_assoc. rewrite (take_app_le (s ++ replicate n 0) [0]); [done|].
    rewrite length_app, length_replicate. lia.
Qed.

(** The name field after copying [s] over a zeroed array of [m] bytes. *)
Lemma strncpy_zero n m s y :
  terminated s → (n ≤ m)%nat →
  classpnp_strncpy n 0 false (replicate m 0) (s ++ 0 :: y) =
    Some (take n (s ++ replicate n 0) ++ replicate (m - n) 0).
Proof.
  intros Hs Hn. pose proof (strncpy_loop n s [] (replicate m 0) [] y Hs eq_refl) as E.
  rewrite length_replicate, drop_replicate in E. by apply E.
Qed.

(** The driver name as it is stored. *)
Definition driver_field (s : list Z) : list Z := s ++ replicate (32 - length s) 0.

Lemma driver_field_stored s :
  (length s ≤ 31)%nat →
  take 31 (s ++ replicate 31 0) ++ replicate (32 - 31) 0 = driver_field s.
Proof.
  intros Hl. rewrite take_app_ge by lia. rewrite take_replicate, Nat.min_l by lia.
  unfold driver_field. rewrite <-app_assoc, <-replicate_add. do 2 f_equal. lia.
Qed.

(** What binding does in each state, for a name that ends. *)
Lemma bind_spec p c i s y :
  cp_ok p c → 0 ≤ i < pc_device_count c → terminated s → Z.of_nat (length s) < 2 ^ 32 →
  ∃ d a, aget (pc_devices c) i = Some d ∧ in_state d a ∧
    ((a ≠ Assigned ∧ classpnp_bind_driver (Some c) i (Some (s ++ 0 :: y)) =
        Some (Some c, CLASSPNP_ERR_INVALID_STATE)) ∨
     (a = Assigned ∧ (31 < length s)%nat ∧
        classpnp_bind_driver (Some c) i (Some (s ++ 0 :: y)) =
        Some (Some c, CLASSPNP_ERR_NAME_TOO_LONG)) ∨
     (a = Assigned ∧ (length s ≤ 31)%nat ∧ ∃ c' d',
        classpnp_bind_driver (Some c) i (Some (s ++ 0 :: y)) = Some (Some c', CLASSPNP_OK) ∧
        cp_ok p c' ∧ pc_device_count c' = pc_device_count c ∧
        pc_devices c' = <[Z.to_nat i := d']> (pc_devices c) ∧
        d' = d <| pd_driver_name := driver_field s |>
               <| pd_state := CLASSPNP_STATE_DRIVER_BOUND |> ∧ in_state d' Bound)).
Proof.
  intros Hok Hi Hs Hlen.
  destruct (device_at_spec p c i Hok Hi) as (d & a & Hat & Hd & Hdok & Hil).
  exists d, a. pose proof (do_state _ _ _ _ Hdok) as Hst. split_and!; [done|done|].
  unfold classpnp_bind_driver. rewrite Hat, obind_Some. destruct Hst as [Es Ef]. rewrite Es.
  destruct a; try (left; split; [done|reflexivity]). right.
  change (negb (code Assigned =? CLASSPNP_STATE_RESOURCES_ASSIGNED)) with false. cbv iota.
  rewrite strlen_spec, obind_Some by done.
  change CLASSPNP_DRV_NAME_MAX with 31. case_if; [left; split_and!; [done|lia|done]|right].
  split_and!; [done|lia|]. change (Z.to_nat 31) with 31%nat.
  unfold zero_name. change (Z.to_nat CLASSPNP_NAME_LEN) with 32%nat.
  rewrite strncpy_zero, obind_Some, driver_field_stored by (done || lia).
  rewrite put_device_in, obind_Some by done. eexists _, _. split; [done|].
  set (d' := d <| pd_driver_name := _ |> <| pd_state := _ |>).
  assert (in_state d' Bound) as Hs' by (by split).
  split_and!; [|done..].
  eapply cp_ok_replace; try done.
  eapply device_ok_restate; try done. by intros [?|?].
Qed.

(** ** Enabling and disabling *)
Lemma disable_spec p c i :
  cp_ok p c → 0 ≤ i < pc_device_count c →
  ∃ d a, aget (pc_devices c) i = Some d ∧ in_state d a ∧
    ((∃ b, a = Disabled b) ∧
       classpnp_disable_device (Some c) i = Some (Some c, CLASSPNP_ERR_INVALID_STATE) ∨
     (∀ b, a ≠ Disabled b) ∧ ∃ c' d',
        classpnp_disable_device (Some c) i = Some (Some c', CLASSPNP_OK) ∧
        cp_ok p c' ∧ pc_device_count c' = pc_device_count c ∧
        pc_devices c' = <[Z.to_nat i := d']> (pc_devices c) ∧
        d' = d <| pd_flags := Z.lor (code a) CLASSPNP_FLAG_DISABLED |>
               <| pd_state := CLASSPNP_STATE_DISABLED |> ∧ in_state d' (Disabled a)).
Proof.
  intros Hok Hi.
  destruct (device_at_spec p c i Hok Hi) as (d & a & Hat & Hd & Hdok & Hil).
  exists d, a. pose proof (do_state _ _ _ _ Hdok) as Hst. split_and!; [done|done|].
  unfold classpnp_disable_device. rewrite Hat, obind_Some. destruct Hst as [Es Ef]. rewrite Es.
  assert ((∃ b, a = Disabled b) ∨ (∀ b, a ≠ Disabled b) ∧ pd_flags d = 0) as [[b ->]|[Hna Hf0]].
  { destruct a; eauto. }
  { left. split; [by exists b|done]. }
  right. split; [done|].
  assert ((code a =? CLASSPNP_STATE_DISABLED) || (code a =? CLASSPNP_STATE_UNKNOWN) = false) as ->.
  { destruct a; try done; by destruct (Hna a). }
  rewrite put_device_in, obind_Some by done. eexists _, _. split; [done|].
  set (d' := d <| pd_flags := _ |> <| pd_state := _ |>).
  assert (d' = d <| pd_flags := Z.lor (code a) CLASSPNP_FLAG_DISABLED |>
                 <| pd_state := CLASSPNP_STATE_DISABLED |>) as Ed'.
  { unfold d'. rewrite Hf0. destruct a; try done; by destruct (Hna a). }
  assert (in_state d' (Disabled a)) as Hs' by (rewrite Ed'; by split).
  split_and!; try done.
  eapply cp_ok_replace; try done.
  eapply device_ok_restate; try done. intros [?|[= ->]]; [done|by left].
Qed.

Lemma reenable_spec p c i :
  cp_ok p c → 0 ≤ i < pc_device_count c →
  ∃ d a, aget (pc_devices c) i = Some d ∧ in_state d a ∧
    ((∀ b, a ≠ Disabled b) ∧
       classpnp_reenable_device (Some c) i = Some (Some c, CLASSPNP_ERR_INVALID_STATE) ∨
     ∃ b c' d', a = Disabled b ∧
        classpnp_reenable_device (Some c) i = Some (Some c', CLASSPNP_OK) ∧
        cp_ok p c' ∧ pc_device_count c' = pc_device_count c ∧
        pc_devices c' = <[Z.to_nat i := d']> (pc_devices c) ∧
        d' = d <| pd_flags := 0 |> <| pd_state := code b |> ∧ in_state d' b).
Proof.
  intros Hok Hi.
  destruct (device_at_spec p c i Hok Hi) as (d & a & Hat & Hd & Hdok & Hil).
  exists d, a. pose proof (do_state _ _ _ _ Hdok) as Hst. split_and!; [done|done|].
  unfold classpnp_reenable_device. rewrite Hat, obind_Some. destruct Hst as [Es Ef].
  assert ((∃ b, a = Disabled b) ∨ ∀ b, a ≠ Disabled b) as [[b ->]|Hna] by (destruct a; eauto).
  2:{ left. split; [done|]. rewrite Es. destruct a; try done; by destruct (Hna a). }
  right. destruct Ef as [Hnb Ef]. rewrite Es, Ef.
  change (negb (code (Disabled b) =? CLASSPNP_STATE_DISABLED)) with false. cbv iota.
  assert ((Z.land (Z.lor (code b) CLASSPNP_FLAG_DISABLED) CLASSPNP_FLAG_DISABLED =? 0) = false) as ->.
  { destruct b; try done. }
  rewrite put_device_in, obind_Some by done. eexists b, _, _. split; [done|]. split; [done|].
  set (d' := d <| pd_flags := _ |> <| pd_state := _ |>).
  assert (d' = d <| pd_flags := 0 |> <| pd_state := code b |>) as Ed'.
  { unfold d'. destruct b; try done; by destruct (Hnb b). }
  assert (in_state d' b) as Hs'.
  { rewrite Ed'. split; [done|]. destruct b; try done; by destruct (Hnb b). }
  split_and!; try done.
  eapply cp_ok_replace; try done.
  eapply device_ok_restate; try done. intros [->| ->]; [by right|by destruct (Hnb Detected)].
Qed.

(** ** Enumeration *)
Lemma detected_device_ok p i ty slot : device_ok p i (detected_device ty 0 slot) Detected.
Proof.
  unfold detected_device. destruct (sim_ids ty 0 slot) as [[v d] cl].
  split; simpl; try done; try lia; by left.
Qed.

Lemma detected_device_lines ty slot :
  pd_irq (detected_device ty 0 slot) = 0 ∧ pd_dma_channel (detected_device ty 0 slot) = 0.
Proof. unfold detected_device. by destruct (sim_ids ty 0 slot) as [[v d] cl]. Qed.

(** The context after one iteration of the enumeration loop. *)
Lemma cp_ok_add p c ty slot bs :
  cp_ok p c → pc_device_count c < 64 → length bs = 16%nat →
  (∀ j b, bs !! j = Some b → length (bs_device_indices b) = 64%nat) →
  cp_ok p (c <| pc_devices := <[Z.to_nat (pc_device_count c) := detected_device ty 0 slot]>
                  (pc_devices c) |>
             <| pc_buses := bs |> <| pc_device_count := pc_device_count c + 1 |>).
Proof.
  intros Hok Hlt Hbs Hbi. pose proof Hok as [(H1 & H2 & H3) ? (H4 & ? & ?) ? Hdev Hirq Hdma].
  set (nd := detected_device ty 0 slot).
  destruct (detected_device_lines ty slot) as [E1 E2]. fold nd in E1, E2.
  assert (∀ j e, 0 ≤ j < pc_device_count c + 1 →
    aget (<[Z.to_nat (pc_device_count c) := nd]> (pc_devices c)) j = Some e →
    (j = pc_device_count c ∧ e = nd) ∨ (0 ≤ j < pc_device_count c ∧ aget (pc_devices c) j = Some e)) as Hget.
  { intros j e Hj. rewrite aget_insert by lia. case_decide as E; [|right; split; [lia|done]].
    intros [= <-]. by left. }
  split; simpl; rewrite ?length_insert; try done; [lia|..].
  - intros j e Hj He. destruct (Hget j e Hj He) as [[-> ->]|[? ?]]; [|by apply Hdev].
    exists Detected. apply detected_device_ok.
  - intros j k e f Hj Hk Hne He Hf.
    destruct (Hget j e Hj He) as [[-> ->]|[? ?]]; [by rewrite E1|].
    destruct (Hget k f Hk Hf) as [[-> ->]|[? ?]]; [by rewrite E1|by apply (Hirq j k e f)].
  - intros j k e f Hj Hk Hne He Hf.
    destruct (Hget j e Hj He) as [[-> ->]|[? ?]]; [by rewrite E2|].
    destruct (Hget k f Hk Hf) as [[-> ->]|[? ?]]; [by rewrite E2|by apply (Hdma j k e f)].
Qed.

Lemma enumerate_slots_spec p ty n : ∀ slot c b,
  cp_ok p c → pc_buses c !! 0%nat = Some b → 0 ≤ bs_device_count b →
  bs_device_count b + Z.of_nat n ≤ 64 →
  ∃ c', enumerate_slots n slot ty 0 c = Some c' ∧ cp_ok p c' ∧
    pc_device_count c' = Z.min 64 (pc_device_count c + Z.of_nat n) ∧
    (∀ i, 0 ≤ i < pc_device_count c → aget (pc_devices c') i = aget (pc_devices c) i) ∧
    (∀ i d, pc_device_count c ≤ i < pc_device_count c' → aget (pc_devices c') i = Some d →
       in_state d Detected).
Proof.
  induction n as [|n IH]; intros slot c b Hok Hb Hb0 Hbn;
    destruct (cp_counts _ _ Hok) as (Hc & _); destruct (cp_len _ _ Hok) as (Hl1 & Hl2 & _).
  { exists c. cbn. split_and!; [done|done|lia|done|lia]. }
  cbn [enumerate_slots]. unfold CLASSPNP_MAX_DEVICES. case_if.
  { exists c. split_and!; [done|done|lia|done|lia]. }
  pose proof (cp_buses _ _ Hok _ _ Hb) as Hbl.
  rewrite aset_in, obind_Some by lia.
  change (aget (pc_buses c) 0) with (pc_buses c !! 0%nat). rewrite Hb, obind_Some.
  rewrite aset_in, obind_Some by lia. rewrite aset_in, obind_Some by lia.
  rewrite (u8_small (bs_device_count b + 1)), u32_small by lia. cbv zeta.
  set (b' := b <| bs_device_indices := _ |> <| bs_device_count := _ |>).
  lazymatch goal with |- context [enumerate_slots n (slot + 1) ty 0 ?x] => set (c1 := x) end.
  assert (cp_ok p c1) as Hok1.
  { apply cp_ok_add; [done|lia|by rewrite length_insert|].
    intros j x Hx. apply list_lookup_insert_Some in Hx as [(_ & <- & _)|[_ Hx]];
      [by unfold b'; simpl; rewrite length_insert|by eapply cp_buses]. }
  destruct (IH (slot + 1) c1 b') as (c' & -> & Hok' & Hcnt & Hkeep & Hnew); try done.
  { simpl. by apply list_lookup_insert_eq; lia. }
  { simpl. lia. }
  { simpl. lia. }
  exists c'. cbn in Hcnt. split_and!; [done|done|lia| |].
  - intros i Hi. rewrite Hkeep by (simpl; lia). simpl. rewrite aget_insert by lia.
    by rewrite decide_False by lia.
  - intros i d Hi Hd. destruct (decide (i = pc_device_count c)) as [->|];
      [|apply (Hnew i); [simpl; lia|done]].
    rewrite Hkeep in Hd by (simpl; lia). simpl in Hd. rewrite aget_insert in Hd by lia.
    rewrite decide_True in Hd by done. simplify_eq. apply (detected_device_ok p 0).
Qed.

(** What enumeration does: it never finds the bus, re-registers it in slot 0
    and appends freshly detected devices. *)
Lemma enumerate_spec p c ty s y :
  cp_ok p c → terminated s →
  ∃ c', classpnp_enumerate_bus (Some c) ty (Some (s ++ 0 :: y)) = Some (Some c', CLASSPNP_OK) ∧
    cp_ok p c' ∧ pc_device_count c' = Z.min 64 (pc_device_count c + sim_count ty) ∧
    (∀ i, 0 ≤ i < pc_device_count c → aget (pc_devices c') i = aget (pc_devices c) i) ∧
    (∀ i d, pc_device_count c ≤ i < pc_device_count c' → aget (pc_devices c') i = Some d →
       in_state d Detected).
Proof.
  intros Hok Hs. destruct (cp_counts _ _ Hok) as (Hc & Hb0 & Hrc).
  destruct (cp_len _ _ Hok) as (Hl1 & Hl2 & Hl3).
  unfold classpnp_enumerate_bus. rewrite Hb0. change (CLASSPNP_MAX_BUSES <=? 0) with false.
  cbv iota. change (Z.to_nat 0) with 0%nat. cbn [find_bus]. rewrite obind_Some. cbv iota zeta.
  destruct (lookup_lt_is_Some_2 (pc_buses c) 0) as [b Hb]; [lia|].
  change (aget (pc_buses c) 0) with (pc_buses c !! 0%nat). rewrite Hb, obind_Some.
  rewrite strncpy_zero, obind_Some by done. rewrite aset_in, obind_Some by lia.
  set (b' := b <| bs_bus_type := _ |> <| bs_device_count := _ |> <| bs_bus_id := _ |>).
  assert (0 ≤ sim_count ty ≤ 4) as Hsc by (unfold sim_count; repeat case_if; lia).
  lazymatch goal with |- context [enumerate_slots _ 0 ty 0 ?x] => set (c1 := x) end.
  assert (cp_ok p c1) as Hok1.
  { destruct Hok. split; simpl; rewrite ?length_insert; try done.
    intros j x Hx. apply list_lookup_insert_Some in Hx as [(_ & <- & _)|[_ Hx]]; [|eauto].
    simpl. eauto. }
  destruct (enumerate_slots_spec p ty (Z.to_nat (sim_count ty)) 0 c1 b')
    as (c' & -> & Hok' & Hcnt & Hkeep & Hnew); [done| |done|simpl; lia|].
  { simpl. apply list_lookup_insert_eq. lia. }
  rewrite obind_Some. eexists. split; [done|]. split; [by destruct Hok'; split|].
  split_and!; [cbn in Hcnt |- *; lia|done|done].
Qed.


(** ** Resource assignment *)

(** A pool line [x] nobody holds. *)
Definition free_line (pool : list Z) (used : list bool) (x : Z) : Prop :=
  ∃ k, pool !! k = Some x ∧ used !! k = Some false.

(** Lines stay taken. *)
Definition grows (used used' : list bool) : Prop :=
  length used' = length used ∧ ∀ k : nat, used !! k = Some true → used' !! k = Some true.

Lemma grows_refl used : grows used used.
Proof. by split. Qed.

Lemma grows_insert used i : grows used (<[i := true]> used).
Proof.
  split; [apply length_insert|]. intros k Hk. destruct (decide (i = k)) as [->|].
  - apply list_lookup_insert_eq. by apply lookup_lt_Some in Hk.
  - by rewrite list_lookup_insert_ne.
Qed.

#[local] Hint Resolve grows_refl grows_insert : core.

Lemma from_pool_grows pool used used' x :
  grows used used' → from_pool pool used x → from_pool pool used' x.
Proof. intros [_ Hg] (k & ? & ?). exists k. auto. Qed.

(** A free line is nobody's: the pools list every line once. *)
Lemma free_line_ne pool used x y :
  NoDup pool → free_line pool used x → from_pool pool used y → x ≠ y.
Proof.
  intros Hnd (k & Hk & Fk) (l & Hl & Fl) ->. rewrite (NoDup_lookup _ _ _ _ Hnd Hk Hl) in Fk.
  congruence.
Qed.

Lemma irq_pool_nodup : NoDup classpnp_irq_pool.
Proof. refine (bool_decide_unpack _ _). by vm_compute. Qed.
Lemma dma_pool_nodup : NoDup classpnp_dma_pool.
Proof. refine (bool_decide_unpack _ _). by vm_compute. Qed.

(** The state between the stages of an assignment: [k] resources at most have
    been recorded in the device. *)
Record assigning (i : Z) (d0 : classpnp_device_t) (c0 : classpnp_context_t) (p0 : pools)
    (k : Z) (s : assign_state) : Prop := {
  ag_ctx : let '(dev, c, p, _) := s in
    pc_devices c = pc_devices c0 ∧ pc_buses c = pc_buses c0 ∧
    pc_device_count c = pc_device_count c0 ∧ pc_bus_count c = pc_bus_count c0;
  ag_res : let '(dev, c, p, _) := s in
    length (pc_resources c) = 32%nat ∧ 0 ≤ pc_resource_count c ≤ 32;
  ag_dev : let '(dev, c, p, _) := s in
    pd_state dev = pd_state d0 ∧ pd_flags dev = pd_flags d0 ∧ pd_bus_idx dev = pd_bus_idx d0 ∧
    length (pd_resource_indices dev) = 8%nat ∧ 0 ≤ pd_resource_count dev ≤ k;
  ag_pools : let '(dev, c, p, _) := s in
    grows (classpnp_irq_used p0) (classpnp_irq_used p) ∧
    grows (classpnp_dma_used p0) (classpnp_dma_used p);
  ag_irq : let '(dev, c, p, _) := s in
    classpnp_irq_used p = classpnp_irq_used p0 ∧ pd_irq dev = 0 ∨
    free_line classpnp_irq_pool (classpnp_irq_used p0) (pd_irq dev) ∧
    from_pool classpnp_irq_pool (classpnp_irq_used p) (pd_irq dev);
  ag_dma : let '(dev, c, p, _) := s in
    classpnp_dma_used p = classpnp_dma_used p0 ∧ pd_dma_channel dev = 0 ∨
    free_line classpnp_dma_pool (classpnp_dma_used p0) (pd_dma_channel dev) ∧
    from_pool classpnp_dma_pool (classpnp_dma_used p) (pd_dma_channel dev);
  ag_mmio : let '(dev, c, p, _) := s in
    pd_mmio_length dev = 0 ∨ pd_mmio_length dev = CLASSPNP_MMIO_LENGTH ∧
    pd_mmio_base dev = CLASSPNP_MMIO_BASE + i * CLASSPNP_MMIO_STEP;
  ag_none : let '(dev, c, p, a) := s in a = false → dev = d0 ∧ c = c0 ∧ p = p0
}.

Lemma add_resource_in dev c res :
  length (pc_resources c) = 32%nat → 0 ≤ pc_resource_count c < 32 →
  length (pd_resource_indices dev) = 8%nat → 0 ≤ pd_resource_count dev < 8 →
  ∃ ri rs, add_resource dev c res =
    Some (dev <| pd_resource_indices := ri |> <| pd_resource_count := pd_resource_count dev + 1 |>,
          c <| pc_resources := rs |> <| pc_resource_count := pc_resource_count c + 1 |>) ∧
    length ri = 8%nat ∧ length rs = 32%nat.
Proof.
  intros. unfold add_resource. cbv zeta. rewrite (aset_in (pc_resources c)), obind_Some by lia.
  rewrite aset_in, obind_Some by lia. rewrite (u8_small (pd_resource_count dev + 1)) by lia.
  rewrite u32_small by lia. eexists _, _. split; [done|]. by rewrite !length_insert.
Qed.

(** A stage may record fewer resources than its bound. *)
Lemma assigning_weaken i d0 c0 p0 k k' s :
  assigning i d0 c0 p0 k s → k ≤ k' → assigning i d0 c0 p0 k' s.
Proof.
  destruct s as [[[dev c] p] a]. intros [] ?. split; try done. destruct_and!. split_and!; done || lia.
Qed.

Lemma mmio_resource_base i :
  0 ≤ i < 64 → rs_base_lo (mmio_resource i) = CLASSPNP_MMIO_BASE + i * CLASSPNP_MMIO_STEP.
Proof.
  intros. unfold mmio_resource. cbn. unfold CLASSPNP_MMIO_BASE, CLASSPNP_MMIO_STEP.
  rewrite (u32_small (i * _)) by lia. by rewrite u32_small by lia.
Qed.

Lemma assign_mmio_step i d0 c0 p0 k s :
  assigning i d0 c0 p0 k s → 0 ≤ i < 64 → k < 8 →
  ∃ s', assign_mmio i s = Some s' ∧ assigning i d0 c0 p0 (k + 1) s' ∧
    (let '(dev, _, p, _) := s in let '(dev', _, p', _) := s' in
     pd_irq dev' = pd_irq dev ∧ pd_dma_channel dev' = pd_dma_channel dev ∧ p' = p).
Proof.
  intros Ha Hi Hk. destruct s as [[[dev c] p] b]. pose proof Ha as [C R D P I M MM N].
  simpl in C, R, D, P, I, M, MM, N. destruct_and!. unfold assign_mmio. change CLASSPNP_MAX_RESOURCES with 32. case_if.
  all: cbv zeta.
  2:{ eexists. split; [done|]. split; [|done]. eapply assigning_weaken; [done|lia]. }
  destruct (add_resource_in (dev <| pd_mmio_base := rs_base_lo (mmio_resource i) |>
     <| pd_mmio_length := rs_length (mmio_resource i) |>) c (mmio_resource i))
    as (ri & rs & -> & Hri & Hrs); [done|lia|done|simpl; lia|].
  rewrite obind_Some. eexists. split; [done|]. split; [|done].
  split; simpl; try done; try split_and!; try (done || lia).
  right. split; [done|]. by apply mmio_resource_base.
Qed.

(** Taking the first free line of a pool. *)
Lemma free_line_taken pool used i line :
  used !! i = Some false → pool !! i = Some line →
  free_line pool used line ∧ from_pool pool (<[i := true]> used) line.
Proof.
  intros Hu Hp. split; [by exists i|]. exists i. split; [done|].
  apply list_lookup_insert_eq. by apply lookup_lt_Some in Hu.
Qed.

(** The search of both pools. *)
Lemma free_search (pool : list Z) (used : list bool) :
  length used = length pool →
  ∃ r, find_up (length pool) 0 used negb = Some r ∧
    match r with
    | None => True
    | Some i => ∃ line, aget pool i = Some line ∧ used !! Z.to_nat i = Some false ∧
        pool !! Z.to_nat i = Some line ∧ 0 ≤ i < Z.of_nat (length used)
    end.
Proof.
  intros Hlen. destruct (find_up_spec (length pool) 0 used negb) as (r & Hf & Hr); [lia..|].
  exists r. split; [done|]. destruct r as [i|]; [|done].
  destruct Hr as (Hi & (x & [? Hx]%aget_Some & Hn) & _). apply negb_true_iff in Hn as ->.
  destruct (aget_is_Some pool i) as [line Hline]; [lia|]. pose proof Hline as [_ Hl]%aget_Some.
  exists line. split_and!; [done|done|done|lia|lia].
Qed.

Lemma assign_irq_step i d0 c0 p0 k s :
  assigning i d0 c0 p0 k s → length (classpnp_irq_used p0) = 10%nat → k < 8 →
  (let '(dev, _, p, _) := s in
   pd_irq dev = 0 ∧ classpnp_irq_used p = classpnp_irq_used p0) →
  ∃ s', assign_irq s = Some s' ∧ assigning i d0 c0 p0 (k + 1) s' ∧
    (let '(dev, _, p, _) := s in let '(dev', _, p', _) := s' in
     pd_dma_channel dev' = pd_dma_channel dev ∧ classpnp_dma_used p' = classpnp_dma_used p).
Proof.
  intros Ha Hl Hk H0. destruct s as [[[dev c] p] b]. pose proof Ha as [C R D P I M MM N].
  simpl in C, R, D, P, I, M, MM, N, H0. destruct H0 as [Hz Hsame].
  destruct_and!. unfold assign_irq.
  destruct (free_search classpnp_irq_pool (classpnp_irq_used p)) as (r & Hr & Hline); [by rewrite Hsame, Hl|].
  change (Z.to_nat CLASSPNP_IRQ_POOL_SIZE) with (length classpnp_irq_pool).
  rewrite Hr, obind_Some. change CLASSPNP_MAX_RESOURCES with 32.
  destruct r as [j|]; [case_if|].
  - eexists. split; [done|]. split; [|done]. eapply assigning_weaken; [done|lia].
  - destruct Hline as (line & Hget & Hu & Hp & Hj).
    rewrite aset_in, obind_Some by done. rewrite Hget, obind_Some.
    lazymatch goal with |- context [add_resource ?d c ?r] =>
      destruct (add_resource_in d c r) as (ri & rs & -> & Hri & Hrs); [done|lia|done|simpl; lia|] end.
    rewrite obind_Some. eexists. split; [done|]. split; [|done].
    destruct (free_line_taken _ _ _ _ Hu Hp) as [F1 F2].
    split; simpl; try done; try split_and!; try (done || lia).
    + rewrite Hsame. apply grows_insert.
    + right. by rewrite <-Hsame.
  - eexists. split; [done|]. split; [|done]. eapply assigning_weaken; [done|lia].
Qed.

Lemma assign_dma_step i d0 c0 p0 k s :
  assigning i d0 c0 p0 k s → length (classpnp_dma_used p0) = 4%nat → k < 8 →
  (let '(dev, _, p, _) := s in
   pd_dma_channel dev = 0 ∧ classpnp_dma_used p = classpnp_dma_used p0) →
  ∃ s', assign_dma s = Some s' ∧ assigning i d0 c0 p0 (k + 1) s'.
Proof.
  intros Ha Hl Hk H0. destruct s as [[[dev c] p] b]. pose proof Ha as [C R D P I M MM N].
  simpl in C, R, D, P, I, M, MM, N, H0. destruct H0 as [Hz Hsame].
  destruct_and!. unfold assign_dma.
  destruct (free_search classpnp_dma_pool (classpnp_dma_used p)) as (r & Hr & Hline); [by rewrite Hsame, Hl|].
  change (Z.to_nat CLASSPNP_DMA_POOL_SIZE) with (length classpnp_dma_pool).
  rewrite Hr, obind_Some. change CLASSPNP_MAX_RESOURCES with 32.
  destruct r as [j|]; [case_if|].
  - eexists. split; [done|]. eapply assigning_weaken; [done|lia].
  - destruct Hline as (line & Hget & Hu & Hp & Hj).
    rewrite aset_in, obind_Some by done. rewrite Hget, obind_Some.
    lazymatch goal with |- context [add_resource ?d c ?r] =>
      destruct (add_resource_in d c r) as (ri & rs & -> & Hri & Hrs); [done|lia|done|simpl; lia|] end.
    rewrite obind_Some. eexists. split; [done|].
    destruct (free_line_taken _ _ _ _ Hu Hp) as [F1 F2].
    split; simpl; try done; try split_and!; try (done || lia).
    + rewrite Hsame. apply grows_insert.
    + right. by rewrite <-Hsame.
  - eexists. split; [done|]. eapply assigning_weaken; [done|lia].
Qed.

Lemma assigning_start p c i d :
  cp_ok p c → 0 ≤ i < 64 → device_ok p i d Detected → assigning i d c p 0 (d, c, p, false).
Proof.
  intros [] Hi Hd. destruct (do_fresh _ _ _ _ Hd) as (? & ? & ?); [by left|]. destruct_and!.
  split; simpl; try done; try (by left); [|by apply (do_mmio _ _ _ _ Hd)].
  split_and!; try done; [apply (do_indices _ _ _ _ Hd)|lia|lia].
Qed.

(** The stages together. *)
Lemma assign_stages p c i d ty :
  cp_ok p c → 0 ≤ i < 64 → device_ok p i d Detected →
  ∃ s1 s2 s3,
    (if wants_mmio ty then assign_mmio i (d, c, p, false) else Some (d, c, p, false)) = Some s1 ∧
    (if wants_irq ty then assign_irq s1 else Some s1) = Some s2 ∧
    (if ty =? CLASSPNP_BUS_ISA then assign_dma s2 else Some s2) = Some s3 ∧
    assigning i d c p 3 s3.
Proof.
  intros Hok Hi Hd. pose proof (assigning_start p c i d Hok Hi Hd) as A0.
  destruct (do_fresh _ _ _ _ Hd) as (_ & Fi & Fd); [by left|].
  destruct (cp_pools _ _ Hok) as [L1 L2].
  assert (∃ s1, (if wants_mmio ty then assign_mmio i (d, c, p, false) else Some (d, c, p, false))
    = Some s1 ∧ assigning i d c p 1 s1 ∧ let '(dev', _, p', _) := s1 in
      pd_irq dev' = 0 ∧ pd_dma_channel dev' = 0 ∧ p' = p) as (s1 & E1 & A1 & K1).
  { destruct (wants_mmio ty); [|eexists; split_and!; [done|by eapply assigning_weaken|done..]].
    destruct (assign_mmio_step i d c p 0 _ A0) as (s1 & ? & ? & K); [done..|].
    exists s1. split; [done|]. split; [done|]. destruct s1 as [[[dev' ?] p'] ?].
    destruct K as (-> & -> & ->). done. }
  assert (∃ s2, (if wants_irq ty then assign_irq s1 else Some s1) = Some s2 ∧
    assigning i d c p 2 s2 ∧ let '(dev', _, p', _) := s2 in
      pd_dma_channel dev' = 0 ∧ classpnp_dma_used p' = classpnp_dma_used p) as (s2 & E2 & A2 & K2).
  { destruct s1 as [[[dev1 c1] p1] b1]. destruct K1 as (K1 & K1' & ->).
    destruct (wants_irq ty); [|eexists; split_and!; [done|by eapply assigning_weaken|done..]].
    destruct (assign_irq_step i d c p 1 _ A1 L1) as (s2 & ? & ? & K); [done..|].
    exists s2. split; [done|]. split; [done|]. destruct s2 as [[[dev' ?] p'] ?].
    destruct K as [-> ->]. done. }
  destruct (ty =? CLASSPNP_BUS_ISA); [|exists s1, s2, s2; split_and!; [done..|]; by eapply assigning_weaken].
  destruct (assign_dma_step i d c p 2 _ A2 L2) as (s3 & ? & ?); [done|by destruct s2 as [[[] ?] ?]|].
  by exists s1, s2, s3.
Qed.

(** No two of the first [n] devices hold the same non-zero line. *)
Definition exclusive (line : classpnp_device_t → Z) (n : Z) (ds : list classpnp_device_t) : Prop :=
  ∀ i j d e, 0 ≤ i < n → 0 ≤ j < n → i ≠ j → aget ds i = Some d → aget ds j = Some e →
    line d ≠ 0 → line d ≠ line e.

Lemma exclusive_insert line n ds i dev :
  exclusive line n ds → 0 ≤ i < Z.of_nat (length ds) →
  (∀ j e, 0 ≤ j < n → j ≠ i → aget ds j = Some e →
     (line dev ≠ 0 → line dev ≠ line e) ∧ (line e ≠ 0 → line e ≠ line dev)) →
  exclusive line n (<[Z.to_nat i := dev]> ds).
Proof.
  intros Hex Hi Hdev j k d e Hj Hk Hne. rewrite !aget_insert by done.
  destruct (decide (i = j)) as [<-|], (decide (i = k)) as [<-|]; intros Hd He; simplify_eq.
  - by apply (Hdev k e).
  - by apply (Hdev j d).
  - by apply (Hex j k).
Qed.

(** A line taken from the free ones differs from every line held. *)
Lemma taken_line_ne pool used x y :
  NoDup pool → x = 0 ∨ free_line pool used x → y = 0 ∨ from_pool pool used y →
  (x ≠ 0 → x ≠ y) ∧ (y ≠ 0 → y ≠ x).
Proof.
  intros Hnd [->|Hx] [->|Hy]; try done; pose proof (free_line_ne pool used x y Hnd Hx) as H;
    split; try done; intros _; [auto|]. by apply not_eq_sym, H.
Qed.

Lemma device_ok_grows p p' i d a :
  grows (classpnp_irq_used p) (classpnp_irq_used p') →
  grows (classpnp_dma_used p) (classpnp_dma_used p') →
  device_ok p i d a → device_ok p' i d a.
Proof.
  intros G1 G2 []. split; try done.
  - destruct do_irq0; [by left|right]. by eapply from_pool_grows.
  - destruct do_dma0; [by left|right]. by eapply from_pool_grows.
Qed.

(** Storing the device under assignment keeps the invariant: the lines it
    took were free before. *)
Lemma assigning_done p c i d dev c' p' st :
  cp_ok p c → 0 ≤ i < pc_device_count c → device_ok p i d Detected →
  assigning i d c p 3 (dev, c', p', true) →
  let dev' := dev <| pd_state := CLASSPNP_STATE_RESOURCES_ASSIGNED |> in
  cp_ok p' ((with_device c' i dev') <| pc_stats := st |>) ∧ in_state dev' Assigned.
Proof.
  intros Hok Hi Hd [(C1 & C2 & C3 & C4) R (D1 & D2 & D3 & D4 & D5) (P1 & P2) I M MM _] dev'.
  pose proof Hok as [(L1 & L2 & L3) (PL1 & PL2) (N1 & N2 & N3) B Dev Irq Dma].
  assert (in_state dev' Assigned) as Hs.
  { split; [done|]. simpl. rewrite D2. apply (do_state _ _ _ _ Hd). }
  split; [|done].
  assert (device_ok p' i dev' Assigned) as Hdev'.
  { split; simpl; try done; [by rewrite D3; apply (do_bus _ _ _ _ Hd)|by intros [?|?]|..].
    - destruct I as [[_ ?]|[_ ?]]; [by left|by right].
    - destruct M as [[_ ?]|[_ ?]]; [by left|by right]. }
  split; simpl; rewrite ?C1, ?C2, ?C3, ?C4, ?length_insert.
  - destruct R. by split_and!.
  - destruct P1 as [-> _], P2 as [-> _]. done.
  - destruct R as [_ R]. done.
  - done.
  - intros j e Hj. rewrite aget_insert by lia. case_decide as E; [intros [= <-]; subst; eauto|].
    intros He. destruct (Dev j e Hj He) as [a Ha]. exists a. by eapply device_ok_grows.
  - apply (exclusive_insert pd_irq); [done|lia|]. intros j e Hj _ He. simpl.
    destruct (Dev j e Hj He) as [a Ha].
    apply (taken_line_ne _ (classpnp_irq_used p) _ _ irq_pool_nodup); [|by apply (do_irq _ _ _ _ Ha)].
    destruct I as [[_ ?]|[? _]]; [by left|by right].
  - apply (exclusive_insert pd_dma_channel); [done|lia|]. intros j e Hj _ He. simpl.
    destruct (Dev j e Hj He) as [a Ha].
    apply (taken_line_ne _ (classpnp_dma_used p) _ _ dma_pool_nodup); [|by apply (do_dma _ _ _ _ Ha)].
    destruct M as [[_ ?]|[? _]]; [by left|by right].
Qed.

(** What assignment does in each state. *)
Lemma assign_spec p c i :
  cp_ok p c → 0 ≤ i < pc_device_count c →
  ∃ d a, aget (pc_devices c) i = Some d ∧ in_state d a ∧
    ((a ≠ Detected ∧ classpnp_assign_resources p (Some c) i =
        Some (p, Some c, CLASSPNP_ERR_INVALID_STATE)) ∨
     (a = Detected ∧ classpnp_assign_resources p (Some c) i =
        Some (p, Some c, CLASSPNP_ERR_NO_RESOURCES)) ∨
     (a = Detected ∧ ∃ p' c' d',
        classpnp_assign_resources p (Some c) i = Some (p', Some c', CLASSPNP_OK) ∧
        cp_ok p' c' ∧ pc_device_count c' = pc_device_count c ∧
        pc_devices c' = <[Z.to_nat i := d']> (pc_devices c) ∧ in_state d' Assigned)).
Proof.
  intros Hok Hi. destruct (device_at_spec p c i Hok Hi) as (d & a & Hat & Hd & Hdok & Hil).
  exists d, a. pose proof (do_state _ _ _ _ Hdok) as Hs. split_and!; [done|done|].
  unfold classpnp_assign_resources. rewrite Hat, obind_Some. destruct Hs as [Es Ef]. rewrite Es.
  destruct (decide (a = Detected)) as [->|Hna].
  2:{ left. split; [done|]. by destruct a. }
  right. change (negb (code Detected =? CLASSPNP_STATE_DETECTED)) with false. cbv iota.
  destruct (do_fresh _ _ _ _ Hdok) as (E0 & _); [by left|]. rewrite E0.
  change (CLASSPNP_MAX_RESOURCE_PER_DEV <=? 0) with false. cbv iota.
  rewrite (do_bus _ _ _ _ Hdok). destruct (cp_len _ _ Hok) as (L1 & L2 & _).
  destruct (aget_is_Some (pc_buses c) 0) as [b Hb]; [lia|]. rewrite Hb, obind_Some. cbv zeta.
  destruct (assign_stages p c i d (bs_bus_type b)) as (s1 & s2 & s3 & -> & E2 & E3 & A3);
    [done| |done|].
  { destruct (cp_counts _ _ Hok) as (? & _). lia. }
  rewrite obind_Some, E2, obind_Some.
  unfold assign_state in *. rewrite E3, obind_Some. destruct s3 as [[[dev c'] p'] [|]].
  - right. split; [done|]. cbv iota beta. cbn [negb].
    destruct (ag_ctx _ _ _ _ _ _ A3) as (C1 & _ & C3 & _).
    rewrite put_device_in, obind_Some by (by rewrite C1). cbv zeta.
    destruct (assigning_done p c i d dev c' p' (pc_stats (with_device c' i
      (dev <| pd_state := CLASSPNP_STATE_RESOURCES_ASSIGNED |>))) Hok Hi Hdok A3) as [_ Hs'].
    eexists p', _, _. split; [done|]. split; [|split_and!; [done|by simpl; rewrite C1|done]].
    by eapply assigning_done.
  - left. split; [done|]. destruct (ag_none _ _ _ _ _ _ A3) as (-> & -> & ->); done.
Qed.
