(* ===== verification/ClasspnpArbiter.v ===== *)
(** The PnP arbiter under arbitrary sequences of calls: resource exclusivity
    in every reachable context, refinement of the documented device automaton,
    and the consequences of buses never being counted. *)
From S2P Require Import Prelude Classpnp ClasspnpSpec.

(** ** Calls *)

(** The calls of the public interface on one initialised context; a string
    argument is the bytes before its terminator and the bytes after it. *)
Inductive pnp_op :=
  | OpEnumerate (ty : Z) (name rest : list Z)
  | OpAssign (i : Z)
  | OpBind (i : Z) (name rest : list Z)
  | OpUnbind (i : Z)
  | OpDisable (i : Z)
  | OpReenable (i : Z).

Definition op_ok (op : pnp_op) : Prop :=
  match op with
  | OpEnumerate _ s _ => terminated s
  | OpBind i s _ => 0 ≤ i ∧ terminated s ∧ Z.of_nat (length s) < 2 ^ 32
  | OpAssign i | OpUnbind i | OpDisable i | OpReenable i => 0 ≤ i
  end.

Definition op_target (op : pnp_op) : option Z :=
  match op with
  | OpEnumerate _ _ _ => None
  | OpBind i _ _ | OpAssign i | OpUnbind i | OpDisable i | OpReenable i => Some i
  end.

Definition pnp_state : Type := pools * ptr classpnp_context_t.

(** Calls that leave the pools alone. *)
Definition keep_pools (p : pools) (r : option (ptr classpnp_context_t * Z))
    : option (pnp_state * Z) :=
  '(c, st) ← r; Some ((p, c), st).

Definition run_op (s : pnp_state) (op : pnp_op) : option (pnp_state * Z) :=
  let '(p, c) := s in
  match op with
  | OpEnumerate ty s y => keep_pools p (classpnp_enumerate_bus c ty (Some (s ++ 0 :: y)))
  | OpAssign i => '(p, c, st) ← classpnp_assign_resources p c i; Some ((p, c), st)
  | OpBind i s y => keep_pools p (classpnp_bind_driver c i (Some (s ++ 0 :: y)))
  | OpUnbind i => keep_pools p (classpnp_unbind_driver c i)
  | OpDisable i => keep_pools p (classpnp_disable_device c i)
  | OpReenable i => keep_pools p (classpnp_reenable_device c i)
  end.

Fixpoint run_ops (s : pnp_state) (ops : list pnp_op) : option pnp_state :=
  match ops with
  | [] => Some s
  | op :: ops => '(s, _) ← run_op s op; run_ops s ops
  end.

(** The automaton's transition that a successful call on a device performs. *)
Inductive lstep : pnp_op → astate → astate → Prop :=
  | lstep_assign i : lstep (OpAssign i) Detected Assigned
  | lstep_bind i s y : (length s ≤ 31)%nat → lstep (OpBind i s y) Assigned Bound
  | lstep_unbind i : lstep (OpUnbind i) Bound Assigned
  | lstep_disable i a : (∀ b, a ≠ Disabled b) → lstep (OpDisable i) a (Disabled a)
  | lstep_reenable i a : lstep (OpReenable i) (Disabled a) a.

#[local] Hint Constructors lstep : core.

Lemma lstep_astep op a a' : lstep op a a' → astep a a'.
Proof. destruct 1; by constructor. Qed.

(** ** One call *)

(** The effect of a call on the device table. *)
Record op_effect (op : pnp_op) (p : pools) (c : classpnp_context_t)
    (p' : pools) (c' : classpnp_context_t) (st : Z) : Prop := {
  oe_ok : cp_ok p' c';
  oe_count : pc_device_count c ≤ pc_device_count c';
  oe_others : ∀ i, 0 ≤ i < pc_device_count c → op_target op ≠ Some i →
    aget (pc_devices c') i = aget (pc_devices c) i;
  oe_target : ∀ i, op_target op = Some i → 0 ≤ i < pc_device_count c →
    ∃ d d' a a', aget (pc_devices c) i = Some d ∧ aget (pc_devices c') i = Some d' ∧
      in_state d a ∧ in_state d' a' ∧
      (st = CLASSPNP_OK ∧ lstep op a a' ∨
       st ≠ CLASSPNP_OK ∧ d' = d ∧
         (st = CLASSPNP_ERR_NO_RESOURCES ∨ ∀ b, ¬ lstep op a b));
  oe_range : ∀ i, op_target op = Some i → pc_device_count c ≤ i →
    st = CLASSPNP_ERR_INVALID_INDEX
}.

(** A rejected call changes nothing. *)
Lemma effect_rejected op p c st i d a :
  cp_ok p c → op_target op = Some i → 0 ≤ i < pc_device_count c →
  aget (pc_devices c) i = Some d → in_state d a → st ≠ CLASSPNP_OK →
  st = CLASSPNP_ERR_NO_RESOURCES ∨ (∀ b, ¬ lstep op a b) →
  op_effect op p c p c st.
Proof.
  intros Hok Ht Hi Hd Ha Hst Hno. split; [done|done|done| |].
  - intros j Hj _. assert (j = i) as -> by congruence. exists d, d, a, a. by split_and!; try right.
  - intros j Hj ?. assert (j = i) as -> by congruence. lia.
Qed.

(** An accepted call replaces the device it names. *)
Lemma effect_accepted op p c p' c' i d d' a a' :
  cp_ok p c → cp_ok p' c' → op_target op = Some i → 0 ≤ i < pc_device_count c →
  pc_device_count c' = pc_device_count c →
  pc_devices c' = <[Z.to_nat i := d']> (pc_devices c) →
  aget (pc_devices c) i = Some d → in_state d a → in_state d' a' → lstep op a a' →
  op_effect op p c p' c' CLASSPNP_OK.
Proof.
  intros Hok Hok' Ht Hi Hc Hds Hd Ha Ha' Hl. destruct (cp_len _ _ Hok) as (Hlen & _).
  destruct (cp_counts _ _ Hok) as (? & _).
  split; [done|lia| | |].
  - intros j Hj Hne. rewrite Hds, aget_insert by lia. rewrite decide_False; [done|congruence].
  - intros j Hj _. assert (j = i) as -> by congruence. exists d, d', a, a'.
    rewrite Hds, aget_insert, decide_True by lia. split_and!; try done. by left.
  - intros j Hj ?. assert (j = i) as -> by congruence. lia.
Qed.

Lemma run_op_out_of_range p c op i :
  op_target op = Some i → pc_device_count c ≤ i →
  run_op (p, Some c) op = Some ((p, Some c), CLASSPNP_ERR_INVALID_INDEX).
Proof.
  intros Ht Hi. apply Z.leb_le in Hi.
  destruct op; simpl in Ht; simplify_eq; unfold run_op, keep_pools, classpnp_assign_resources,
    classpnp_bind_driver, classpnp_unbind_driver, classpnp_disable_device,
    classpnp_reenable_device, device_at; by rewrite Hi.
Qed.

Lemma run_op_effect p c op :
  cp_ok p c → op_ok op →
  ∃ p' c' st, run_op (p, Some c) op = Some ((p', Some c'), st) ∧ op_effect op p c p' c' st.
Proof.
  intros Hok Hop. destruct (op_target op) as [i|] eqn:Ht.
  2:{ destruct op as [ty s y| | | | |]; try done. simpl in Hop.
      destruct (enumerate_spec p c ty s y Hok Hop) as (c' & E & Hok' & Hc & Hkeep & _).
      exists p, c', CLASSPNP_OK. split; [by unfold run_op, keep_pools; rewrite E|].
      destruct (cp_counts _ _ Hok) as (? & _).
      assert (0 ≤ sim_count ty) by (unfold sim_count; repeat case_if; lia).
      split; try done; [lia|]. intros j Hj _. by apply Hkeep. }
  destruct (decide (pc_device_count c ≤ i)) as [Hge|Hlt].
  { exists p, c, CLASSPNP_ERR_INVALID_INDEX. split; [by eapply run_op_out_of_range|].
    split; try done; intros j Hj ?; assert (j = i) as -> by congruence; try done; exfalso; lia. }
  assert (0 ≤ i < pc_device_count c) as Hi.
  { destruct op; simpl in Hop, Ht; simplify_eq; lia. }
  destruct op as [|? |? s y|?|?|?]; simpl in Hop, Ht; simplify_eq; unfold run_op, keep_pools.
  - destruct (assign_spec p c i Hok Hi) as (d & a & Hd & Ha & [[Hn E]|[[-> E]|(-> & p' & c' & d' & E & ? & ? & ? & ?)]]);
      rewrite E, obind_Some; eexists _, _, _; (split; [done|]).
    + eapply effect_rejected; try done. right. intros b Hb. inversion Hb; subst; done.
    + eapply effect_rejected; try done. by left.
    + eapply effect_accepted; try done; constructor.
  - destruct Hop as (_ & Hs & Hl).
    destruct (bind_spec p c i s y Hok Hi Hs Hl) as (d & a & Hd & Ha & [[Hn E]|[(-> & Hlen & E)|(-> & Hlen & c' & d' & E & ? & ? & ? & ? & ?)]]);
      rewrite E, obind_Some; eexists _, _, _; (split; [done|]).
    + eapply effect_rejected; try done. right. intros b Hb. inversion Hb; subst; done.
    + eapply effect_rejected; try done. right. intros b Hb. inversion Hb; subst; lia.
    + eapply effect_accepted; try done; by constructor.
  - destruct (unbind_spec p c i Hok Hi) as (d & a & Hd & Ha & [[Hn E]|(-> & c' & d' & E & ? & ? & ? & ? & ?)]);
      rewrite E, obind_Some; eexists _, _, _; (split; [done|]).
    + eapply effect_rejected; try done. right. intros b Hb. inversion Hb; subst; done.
    + eapply effect_accepted; try done; constructor.
  - destruct (disable_spec p c i Hok Hi) as (d & a & Hd & Ha & [[[b Hn] E]|(Hna & c' & d' & E & ? & ? & ? & ? & ?)]);
      rewrite E, obind_Some; eexists _, _, _; (split; [done|]).
    + eapply effect_rejected; try done. right. intros b' Hb. inversion Hb; subst; naive_solver.
    + eapply effect_accepted; try done; by constructor.
  - destruct (reenable_spec p c i Hok Hi) as (d & a & Hd & Ha & [[Hn E]|(b & c' & d' & -> & E & ? & ? & ? & ? & ?)]);
      rewrite E, obind_Some; eexists _, _, _; (split; [done|]).
    + eapply effect_rejected; try done. right. intros b' Hb. inversion Hb; subst; naive_solver.
    + eapply effect_accepted; try done; constructor.
Qed.

(** ** Reachable contexts *)
Lemma cp_ok_init : cp_ok free_pools (zero_pctx <| pc_next_device_id := 1 |>).
Proof.
  split; try done; try (simpl; lia).
  intros j b Hb. change (pc_buses _) with (replicate 16 zero_bus) in Hb.
  apply lookup_replicate in Hb as [-> _]. done.
Qed.

Lemma run_ops_ok ops : ∀ p c, cp_ok p c → Forall op_ok ops →
  ∃ p' c', run_ops (p, Some c) ops = Some (p', Some c') ∧ cp_ok p' c'.
Proof.
  induction ops as [|op ops IH]; intros p c Hok Hops; [by exists p, c|].
  inversion Hops; subst. destruct (run_op_effect p c op) as (p1 & c1 & st & E & []); [done..|].
  cbn [run_ops]. rewrite E, obind_Some. by apply IH.
Qed.

(** The windows of devices in different slots do not overlap. *)
Lemma mmio_disjoint p c i j d e :
  cp_ok p c → 0 ≤ i < pc_device_count c → 0 ≤ j < pc_device_count c → i ≠ j →
  aget (pc_devices c) i = Some d → aget (pc_devices c) j = Some e →
  pd_mmio_base d + pd_mmio_length d ≤ pd_mmio_base e ∨
  pd_mmio_base e + pd_mmio_length e ≤ pd_mmio_base d ∨
  pd_mmio_length d = 0 ∨ pd_mmio_length e = 0.
Proof.
  intros Hok Hi Hj Hne Hd He. destruct (cp_dev _ _ Hok i d) as [a Ha]; [done..|].
  destruct (cp_dev _ _ Hok j e) as [b Hb]; [done..|].
  destruct (do_mmio _ _ _ _ Ha) as [?|[E1 E2]]; [lia|].
  destruct (do_mmio _ _ _ _ Hb) as [?|[E3 E4]]; [lia|]. rewrite E1, E2, E3, E4.
  unfold CLASSPNP_MMIO_BASE, CLASSPNP_MMIO_LENGTH, CLASSPNP_MMIO_STEP. lia.
Qed.

(** Exclusivity of what the arbiter hands out. *)
Definition resources_exclusive (c : classpnp_context_t) : Prop :=
  ∀ i j d e, 0 ≤ i < pc_device_count c → 0 ≤ j < pc_device_count c → i ≠ j →
    aget (pc_devices c) i = Some d → aget (pc_devices c) j = Some e →
    (pd_irq d ≠ 0 → pd_irq d ≠ pd_irq e) ∧
    (pd_dma_channel d ≠ 0 → pd_dma_channel d ≠ pd_dma_channel e) ∧
    (pd_mmio_base d + pd_mmio_length d ≤ pd_mmio_base e ∨
     pd_mmio_base e + pd_mmio_length e ≤ pd_mmio_base d ∨
     pd_mmio_length d = 0 ∨ pd_mmio_length e = 0).

Lemma cp_ok_exclusive p c : cp_ok p c → resources_exclusive c.
Proof.
  intros Hok i j d e Hi Hj Hne Hd He. split_and!.
  - by eapply (cp_irq _ _ Hok i j).
  - by eapply (cp_dma _ _ Hok i j).
  - by apply (mmio_disjoint p c i j).
Qed.

(** [C29] From [classpnp_init], every sequence of enumerate, assign, bind,
    unbind, disable and re-enable calls runs without undefined behaviour, keeps
    at most 64 devices, and never gives two devices the same interrupt line,
    the same DMA channel or overlapping MMIO windows. *)
Theorem classpnp_resources_exclusive (p0 : pools) (c0 : classpnp_context_t) (ops : list pnp_op) :
  Forall op_ok ops →
  ∃ p c, (let '(p1, c1, _) := classpnp_init p0 (Some c0) in run_ops (p1, c1) ops) =
      Some (p, Some c) ∧
    pc_device_count c ≤ CLASSPNP_MAX_DEVICES ∧ resources_exclusive c.
Proof.
  intros Hops. simpl.
  destruct (run_ops_ok ops _ _ cp_ok_init Hops) as (p & c & E & Hok).
  exists p, c. split; [exact E|]. split; [|by eapply cp_ok_exclusive].
  apply (cp_counts _ _ Hok).
Qed.

(** Two ISA devices and four USB devices brought up. *)
Definition sample_ops : list pnp_op :=
  [OpEnumerate CLASSPNP_BUS_ISA [105] []; OpAssign 0; OpAssign 1;
   OpEnumerate CLASSPNP_BUS_USB [117] []; OpAssign 2; OpBind 0 [100] []; OpDisable 0;
   OpAssign 3; OpReenable 0; OpUnbind 0; OpAssign 9].

Lemma sample_ops_ok : Forall op_ok sample_ops.
Proof. repeat constructor; simpl; try lia; repeat constructor; done. Qed.

Lemma classpnp_resources_exclusive_witness :
  ∃ p c, (let '(p1, c1, _) := classpnp_init free_pools (Some zero_pctx) in
          run_ops (p1, c1) sample_ops) = Some (p, Some c) ∧
    pc_device_count c ≤ CLASSPNP_MAX_DEVICES ∧ resources_exclusive c.
Proof. apply (classpnp_resources_exclusive free_pools zero_pctx sample_ops sample_ops_ok). Defined.

(** ** The device automaton *)

(** In every well-formed context each call refines the documented device
    automaton: devices the call does not name keep their entry; the device it
    names makes exactly the transition of the call when the call returns OK,
    and otherwise is unchanged, the transition being impossible in its state
    unless the pools and the resource table had nothing left. *)
Theorem classpnp_refines_automaton (p : pools) (c : classpnp_context_t) (op : pnp_op) :
  cp_ok p c → op_ok op →
  ∃ p' c' st, run_op (p, Some c) op = Some ((p', Some c'), st) ∧ cp_ok p' c' ∧
    (∀ i, 0 ≤ i < pc_device_count c → op_target op ≠ Some i →
       aget (pc_devices c') i = aget (pc_devices c) i) ∧
    (∀ i, op_target op = Some i → 0 ≤ i < pc_device_count c →
       ∃ d d' a a', aget (pc_devices c) i = Some d ∧ aget (pc_devices c') i = Some d' ∧
         in_state d a ∧ in_state d' a' ∧
         (st = CLASSPNP_OK ∧ lstep op a a' ∧ astep a a' ∨
          st ≠ CLASSPNP_OK ∧ d' = d ∧
            (st = CLASSPNP_ERR_NO_RESOURCES ∨ ∀ b, ¬ lstep op a b))).
Proof.
  intros Hok Hop. destruct (run_op_effect p c op Hok Hop) as (p' & c' & st & E & [H1 _ H3 H4 _]).
  exists p', c', st. split_and!; [done|done|done|]. intros i Ht Hi.
  destruct (H4 i Ht Hi) as (d & d' & a & a' & ? & ? & ? & ? & [[? ?]|?]);
    exists d, d', a, a'; split_and!; try done; [left|by right]. eauto using lstep_astep.
Qed.

(** A context with two detected ISA devices, the first one assigned. *)
Definition isa_context : pools * classpnp_context_t :=
  match run_ops (free_pools, Some (zero_pctx <| pc_next_device_id := 1 |>))
          (take 2 sample_ops) with
  | Some (p, Some c) => (p, c)
  | _ => (free_pools, zero_pctx)
  end.

Lemma isa_context_ok : cp_ok (fst isa_context) (snd isa_context).
Proof.
  destruct (run_ops_ok (take 2 sample_ops) _ _ cp_ok_init) as (p & c & E & Hok).
  { apply Forall_take, sample_ops_ok. }
  unfold isa_context. by rewrite E.
Qed.

Lemma classpnp_refines_automaton_witness :
  ∃ p' c' st, run_op (fst isa_context, Some (snd isa_context)) (OpBind 0 [100] []) =
      Some ((p', Some c'), st) ∧ cp_ok p' c'.
Proof.
  destruct (classpnp_refines_automaton (fst isa_context) (snd isa_context) (OpBind 0 [100] []))
    as (p' & c' & st & E & Hok & _).
  - apply isa_context_ok.
  - split_and!; [lia|by repeat constructor|done].
  - exists p', c', st. exact (conj E Hok).
Defined.

(** ** Disable and re-enable *)
Lemma device_eta (d : classpnp_device_t) s fl :
  pd_state d = s → pd_flags d = fl → d <| pd_flags := fl |> <| pd_state := s |> = d.
Proof. destruct d; simpl. by intros -> ->. Qed.

(** Disabling a device that is not disabled and re-enabling it succeeds
    and gives back the device table exactly as it was: state, flags, resources
    and driver name. *)
Theorem classpnp_disable_reenable_roundtrip (p : pools) (c : classpnp_context_t) (i : Z) d :
  cp_ok p c → 0 ≤ i < pc_device_count c → aget (pc_devices c) i = Some d →
  pd_state d ≠ CLASSPNP_STATE_DISABLED →
  ∃ c1 c2, classpnp_disable_device (Some c) i = Some (Some c1, CLASSPNP_OK) ∧
    classpnp_reenable_device (Some c1) i = Some (Some c2, CLASSPNP_OK) ∧
    pc_devices c2 = pc_devices c ∧ pc_device_count c2 = pc_device_count c.
Proof.
  intros Hok Hi Hd Hnd. destruct (cp_len _ _ Hok) as (Hlen & _).
  destruct (cp_counts _ _ Hok) as (Hcnt & _).
  destruct (disable_spec p c i Hok Hi) as (d0 & a & Hd0 & Ha & [[[b ->] _]|
    (Hna & c1 & d1 & E1 & Hok1 & C1 & D1 & Ed1 & Hs1)]).
  { simplify_eq. by destruct Ha. }
  simplify_eq. exists c1.
  destruct (reenable_spec p c1 i Hok1) as (d2 & a2 & Hd2 & Ha2 & H2); [lia|].
  rewrite D1, aget_insert, decide_True in Hd2 by lia. simplify_eq.
  pose proof (in_state_unique _ _ _ Ha2 Hs1) as ->.
  destruct H2 as [[Hn _]|(b & c2 & d2 & [= ->] & E2 & _ & C2 & D2 & Ed2 & _)]; [by destruct (Hn a)|].
  exists c2. split_and!; [done|done| |congruence].
  rewrite D2, D1, list_insert_insert_eq. apply list_insert_id.
  apply aget_Some in Hd as [_ Hd]. rewrite Hd. f_equal. rewrite Ed2.
  destruct Ha as [Es Ef]. assert (pd_flags d = 0) by (destruct b; try done; by destruct (Hna b)).
  symmetry. exact (device_eta d _ _ Es H).
Qed.

Lemma classpnp_disable_reenable_roundtrip_witness :
  ∃ c1 c2, classpnp_disable_device (Some (snd isa_context)) 0 = Some (Some c1, CLASSPNP_OK) ∧
    classpnp_reenable_device (Some c1) 0 = Some (Some c2, CLASSPNP_OK) ∧
    pc_devices c2 = pc_devices (snd isa_context).
Proof.
  destruct (aget (pc_devices (snd isa_context)) 0) as [d|] eqn:Hd; [|by vm_compute in Hd].
  destruct (classpnp_disable_reenable_roundtrip (fst isa_context) (snd isa_context) 0 d)
    as (c1 & c2 & E1 & E2 & E3 & _); [apply isa_context_ok| |done| |exists c1, c2; exact (conj E1 (conj E2 E3))].
  - split; by vm_compute.
  - vm_compute in Hd. by injection Hd as <-.
Defined.

(** ** Queries *)

(** Looking a device up by its identifiers returns the first device that
    has them, and -1 exactly when no device has. *)
Theorem classpnp_find_device_first (p : pools) (c : classpnp_context_t) (v d : Z) :
  cp_ok p c →
  ∃ r, classpnp_find_device (Some c) v d = Some r ∧
    ((0 ≤ r < pc_device_count c ∧
      (∃ e, aget (pc_devices c) r = Some e ∧ pd_vendor_id e = v ∧ pd_device_id e = d) ∧
      (∀ k e, 0 ≤ k < r → aget (pc_devices c) k = Some e →
         ¬ (pd_vendor_id e = v ∧ pd_device_id e = d))) ∨
     (r = -1 ∧ ∀ k e, 0 ≤ k < pc_device_count c → aget (pc_devices c) k = Some e →
         ¬ (pd_vendor_id e = v ∧ pd_device_id e = d))).
Proof.
  intros Hok. destruct (cp_len _ _ Hok) as (Hlen & _). destruct (cp_counts _ _ Hok) as (Hc & _).
  assert (∀ e, (pd_vendor_id e =? v) && (pd_device_id e =? d) = true ↔
    pd_vendor_id e = v ∧ pd_device_id e = d) as Hm.
  { intros e. by rewrite andb_true_iff, !Z.eqb_eq. }
  unfold classpnp_find_device.
  lazymatch goal with |- context [find_up ?n 0 ?l ?f] =>
    destruct (find_up_spec n 0 l f) as (r & -> & Hr); [lia..|] end.
  rewrite obind_Some. eexists. split; [done|]. destruct r as [j|]; simpl.
  - destruct Hr as (Hj & (e & He & Hp) & Hlt). left. split_and!; [lia|lia| |].
    + exists e. split; [done|]. by apply Hm.
    + intros k e' Hk He' Hx%Hm. rewrite (Hlt k e') in Hx; [done|lia|done].
  - right. split; [done|]. intros k e' Hk He' Hx%Hm. rewrite (Hr k e') in Hx; [done|lia|done].
Qed.

Lemma classpnp_find_device_first_witness :
  ∃ r, classpnp_find_device (Some (snd isa_context)) 0x0001 0x3001 = Some r.
Proof.
  destruct (classpnp_find_device_first (fst isa_context) (snd isa_context) 0x0001 0x3001)
    as (r & E & _); [apply isa_context_ok|exists r; exact E].
Defined.

(** Buses are never counted: whatever was enumerated, no bus can be
    looked up, and enumerating the same bus again adds its devices again. *)
Theorem classpnp_bus_never_registered (p : pools) (c : classpnp_context_t) (ty : Z) (s y : list Z) :
  cp_ok p c → terminated s →
  ∃ c1 c2, classpnp_enumerate_bus (Some c) ty (Some (s ++ 0 :: y)) = Some (Some c1, CLASSPNP_OK) ∧
    classpnp_enumerate_bus (Some c1) ty (Some (s ++ 0 :: y)) = Some (Some c2, CLASSPNP_OK) ∧
    pc_device_count c2 = Z.min 64 (pc_device_count c + 2 * sim_count ty) ∧
    ∀ j, 0 ≤ j → classpnp_get_bus (Some c2) j = Some NULL.
Proof.
  intros Hok Hs. destruct (enumerate_spec p c ty s y Hok Hs) as (c1 & E1 & Hok1 & N1 & _).
  destruct (enumerate_spec p c1 ty s y Hok1 Hs) as (c2 & E2 & Hok2 & N2 & _).
  exists c1, c2. split_and!; [done|done| |].
  - assert (0 ≤ sim_count ty) by (unfold sim_count; repeat case_if; lia). lia.
  - intros j Hj. destruct (cp_counts _ _ Hok2) as (_ & Hb & _). unfold classpnp_get_bus.
    rewrite Hb. apply Z.leb_le in Hj. by rewrite Hj.
Qed.

Lemma classpnp_bus_never_registered_witness :
  ∃ c1 c2, classpnp_enumerate_bus (Some (snd isa_context)) CLASSPNP_BUS_ISA (Some [105; 0]) =
      Some (Some c1, CLASSPNP_OK) ∧
    classpnp_enumerate_bus (Some c1) CLASSPNP_BUS_ISA (Some [105; 0]) = Some (Some c2, CLASSPNP_OK) ∧
    pc_device_count c2 = 6.
Proof.
  destruct (classpnp_bus_never_registered (fst isa_context) (snd isa_context) CLASSPNP_BUS_ISA [105] [])
    as (c1 & c2 & E1 & E2 & N & _); [apply isa_context_ok|by repeat constructor|].
  exists c1, c2. split; [exact E1|]. split; [exact E2|].
  assert (pc_device_count (snd isa_context) = 2) as E0 by (by vm_compute). by rewrite N, E0.
Defined.
