(* ===== verification/Sio.v ===== *)
(** The serial driver, [Drivers/sio/sio.h] and [sio.c]: register access
    through the I/O hooks, the transmit and receive rings, line programming,
    the service pass and the transfer loops, one definition per C function.

    The hooks are function pointers of the port: their effect is on a world
    [W] that stands for the UART behind them.  A hook may be [NULL].  Every
    operation threads the port and the world; the polling loops carry fuel, and
    running out of it is [None], like undefined behaviour: the theorems show
    that neither happens. *)
From S2P Require Import Prelude Sutf8.

(** ** Constants *)
Definition SIO_REG_THR_RBR : Z := 0x00.
Definition SIO_REG_DLL : Z := 0x00.
Definition SIO_REG_DLM : Z := 0x01.
Definition SIO_REG_FCR_IIR : Z := 0x02.
Definition SIO_REG_LCR : Z := 0x03.
Definition SIO_REG_MCR : Z := 0x04.
Definition SIO_REG_LSR : Z := 0x05.
Definition SIO_REG_MSR : Z := 0x06.

Definition SIO_LCR_WL8 : Z := 0x03.
Definition SIO_LCR_STOP1 : Z := 0x00.
Definition SIO_LCR_PARITY_NONE : Z := 0x00.
Definition SIO_LCR_PARITY_ODD : Z := 0x08.
Definition SIO_LCR_PARITY_EVEN : Z := 0x18.
Definition SIO_LCR_DLAB : Z := 0x80.
Definition SIO_LCR_LOOP : Z := 0x10.

Definition SIO_MCR_DTR : Z := 0x01.
Definition SIO_MCR_RTS : Z := 0x02.
Definition SIO_MCR_OUT2 : Z := 0x08.
Definition SIO_MCR_LOOP : Z := 0x10.

Definition SIO_LSR_DR : Z := 0x01.
Definition SIO_LSR_OE : Z := 0x02.
Definition SIO_LSR_PE : Z := 0x04.
Definition SIO_LSR_FE : Z := 0x08.
Definition SIO_LSR_BI : Z := 0x10.
Definition SIO_LSR_THRE : Z := 0x20.
Definition SIO_LSR_TEMT : Z := 0x40.
Definition SIO_LSR_ERRORS : Z :=
  Z.lor (Z.lor (Z.lor SIO_LSR_OE SIO_LSR_PE) SIO_LSR_FE) SIO_LSR_BI.
Definition SIO_MSR_DCD : Z := 0x80.

Definition SIO_FCR_ENABLE : Z := 0x01.
Definition SIO_FCR_RX_CLEAR : Z := 0x02.
Definition SIO_FCR_TX_CLEAR : Z := 0x04.

Definition SIO_OK : Z := 0.
Definition SIO_ERR_PORT_INVALID : Z := 0x0011A2E0.
Definition SIO_ERR_FIFO_FAULT : Z := 0x0011A2E1.
Definition SIO_ERR_LINE_FAULT : Z := 0x0011A2E2.
Definition SIO_ERR_TX_BACKPRESSURE : Z := 0x0011A940.
Definition SIO_ERR_NOT_INIT : Z := 0x0011AE80.
Definition SIO_ERR_BUSY : Z := 0x0011AE81.
Definition SIO_ERR_NULL_POINTER : Z := 0x0011AE82.
Definition SIO_ERR_LINE_COLLISION : Z := 0x0011AE83.

Definition SIO_TX_RING_SIZE : Z := 512.
Definition SIO_RX_RING_SIZE : Z := 256.
Definition SIO_PUMP_BUDGET : Z := 32.
Definition SIO_BLOCK_ITERS : Z := 0x8000.

(** ** Data *)
Record sio_io_t (W : Type) := mk_io {
  read8 : ptr (Z → Z → W → Z * W);       (* token, reg_addr *)
  write8 : ptr (Z → Z → Z → W → W);      (* token, reg_addr, value *)
  token : Z
}.
Arguments mk_io {W}. Arguments read8 {W}. Arguments write8 {W}. Arguments token {W}.

Record sio_port_t (W : Type) := mk_port {
  sp_io : sio_io_t W;
  sp_base : Z;                           (* uint32_t *)
  sp_reg_shift : Z;                      (* uint8_t *)
  sp_irq : Z;                            (* uint8_t *)
  sp_clock_hz : Z;                       (* uint32_t *)
  sp_divisor : Z;                        (* uint32_t *)
  sp_line_cfg : Z;                       (* uint8_t *)
  sp_fcr : Z;                            (* uint8_t *)
  sp_fifo_enabled : bool;
  sp_loopback : bool;
  sp_initialized : bool;
  tx_ring : list Z;                      (* uint8_t[SIO_TX_RING_SIZE] *)
  tx_head : Z;                           (* uint16_t *)
  tx_tail : Z;
  tx_count : Z;
  rx_ring : list Z;                      (* uint8_t[SIO_RX_RING_SIZE] *)
  rx_head : Z;
  rx_tail : Z;
  rx_count : Z;
  lsr_last : Z;                          (* uint8_t *)
  msr_last : Z;                          (* uint8_t *)
  carrier : bool;
  tx_total : Z;                          (* uint64_t *)
  rx_total : Z;                          (* uint64_t *)
  rx_overruns : Z;                       (* uint32_t *)
  tx_backpressure_events : Z;            (* uint32_t *)
  line_error_events : Z                  (* uint32_t *)
}.
Arguments mk_port {W}.
Arguments sp_io {W}. Arguments sp_base {W}. Arguments sp_reg_shift {W}. Arguments sp_irq {W}.
Arguments sp_clock_hz {W}. Arguments sp_divisor {W}. Arguments sp_line_cfg {W}.
Arguments sp_fcr {W}. Arguments sp_fifo_enabled {W}. Arguments sp_loopback {W}.
Arguments sp_initialized {W}. Arguments tx_ring {W}. Arguments tx_head {W}.
Arguments tx_tail {W}. Arguments tx_count {W}. Arguments rx_ring {W}. Arguments rx_head {W}.
Arguments rx_tail {W}. Arguments rx_count {W}. Arguments lsr_last {W}. Arguments msr_last {W}.
Arguments carrier {W}. Arguments tx_total {W}. Arguments rx_total {W}.
Arguments rx_overruns {W}. Arguments tx_backpressure_events {W}.
Arguments line_error_events {W}.
#[export] Instance eta_port W : Eta (sio_port_t W) := λ p,
  mk_port (sp_io p) (sp_base p) (sp_reg_shift p) (sp_irq p) (sp_clock_hz p) (sp_divisor p)
    (sp_line_cfg p) (sp_fcr p) (sp_fifo_enabled p) (sp_loopback p) (sp_initialized p)
    (tx_ring p) (tx_head p) (tx_tail p) (tx_count p) (rx_ring p) (rx_head p) (rx_tail p)
    (rx_count p) (lsr_last p) (msr_last p) (carrier p) (tx_total p) (rx_total p)
    (rx_overruns p) (tx_backpressure_events p) (line_error_events p).

Section sio.
Context {W : Type}.
Implicit Types (port : sio_port_t W) (w : W).

(** ** Register access *)
Definition reg_addr port (reg_off : Z) : Z :=
  u32 (sp_base port + u32 (Z.shiftl reg_off (sp_reg_shift port))).

Definition reg_read port (reg_off : Z) w : Z * W :=
  match read8 (sp_io port) with
  | None => (0, w)
  | Some f => let '(v, w) := f (token (sp_io port)) (reg_addr port reg_off) w in (u8 v, w)
  end.

Definition reg_write port (reg_off value : Z) w : W :=
  match write8 (sp_io port) with
  | None => w
  | Some f => f (token (sp_io port)) (reg_addr port reg_off) (u8 value) w
  end.

(** ** Ring primitives *)
Definition txr_full port : bool := SIO_TX_RING_SIZE <=? tx_count port.
Definition txr_empty port : bool := tx_count port =? 0.

Definition txr_push port (byte : Z) : option (sio_port_t W * bool) :=
  if txr_full port then Some (port, false)
  else
    ring ← aset (tx_ring port) (tx_head port) byte;
    Some (port <| tx_ring := ring |>
               <| tx_head := u16 (u32 (tx_head port + 1) mod SIO_TX_RING_SIZE) |>
               <| tx_count := u16 (tx_count port + 1) |>, true).

Definition txr_pop port : option (sio_port_t W * Z) :=
  byte ← aget (tx_ring port) (tx_tail port);
  Some (port <| tx_tail := u16 (u32 (tx_tail port + 1) mod SIO_TX_RING_SIZE) |>
             <| tx_count := u16 (tx_count port - 1) |>, byte).

Definition rxr_full port : bool := SIO_RX_RING_SIZE <=? rx_count port.
Definition rxr_count port : Z := rx_count port.

Definition rxr_push port (byte : Z) : option (sio_port_t W * bool) :=
  if rxr_full port then Some (port, false)
  else
    ring ← aset (rx_ring port) (rx_head port) byte;
    Some (port <| rx_ring := ring |>
               <| rx_head := u16 (u32 (rx_head port + 1) mod SIO_RX_RING_SIZE) |>
               <| rx_count := u16 (rx_count port + 1) |>, true).

Definition rxr_pop port : option (sio_port_t W * Z) :=
  byte ← aget (rx_ring port) (rx_tail port);
  Some (port <| rx_tail := u16 (u32 (rx_tail port + 1) mod SIO_RX_RING_SIZE) |>
             <| rx_count := u16 (rx_count port - 1) |>, byte).

(** ** Line programming *)

(** A division by zero is undefined. *)
Definition divisor_for_baud (clock_hz baud : Z) : option Z :=
  if baud =? 0 then Some 0
  else
    let num := u32 (clock_hz + u32 (baud * 8)) in
    let den := u32 (baud * 16) in
    if den =? 0 then UB else Some (num / den).

Definition program_divisor port (baud : Z) w : option (sio_port_t W * W * Z) :=
  div ← divisor_for_baud (sp_clock_hz port) baud;
  if (div =? 0) || (0xFFFF <? div) then Some (port, w, SIO_ERR_LINE_COLLISION)
  else
    let '(saved_lcr, w) := reg_read port SIO_REG_LCR w in
    let w := reg_write port SIO_REG_LCR (Z.lor saved_lcr SIO_LCR_DLAB) w in
    let w := reg_write port SIO_REG_DLL (Z.land div 0xFF) w in
    let w := reg_write port SIO_REG_DLM (Z.land (Z.shiftr div 8) 0xFF) w in
    let w := reg_write port SIO_REG_LCR saved_lcr w in
    Some (port <| sp_divisor := div |>, w, SIO_OK).

Definition assert_modem_lines port (loop : bool) w : sio_port_t W * W :=
  let mcr := Z.lor (Z.lor SIO_MCR_DTR SIO_MCR_RTS) SIO_MCR_OUT2 in
  let mcr := if loop then Z.lor mcr SIO_MCR_LOOP else mcr in
  let w := reg_write port SIO_REG_MCR mcr w in
  (port <| sp_loopback := loop |>, w).

(** ** Attach and configure *)
Definition sio_attach (port : ptr (sio_port_t W)) (io : ptr (sio_io_t W))
    (base clock_hz irq : Z) w : option (ptr (sio_port_t W) * W * Z) :=
  match port, io with
  | Some p, Some io =>
      if (clock_hz =? 0) || (0x01000000 <? clock_hz)
      then Some (port, w, SIO_ERR_PORT_INVALID)
      else
        let p := mk_port io base 0 irq clock_hz 0
                   (Z.lor (Z.lor SIO_LCR_WL8 SIO_LCR_STOP1) SIO_LCR_PARITY_NONE) 0
                   false false true (tx_ring p) 0 0 0 (rx_ring p) 0 0 0 0 0 false 0 0 0 0 0 in
        '(p, w, st) ← program_divisor p 115200 w;
        if negb (st =? SIO_OK) then Some (Some p, w, st)
        else
          let w := reg_write p SIO_REG_LCR (sp_line_cfg p) w in
          let '(p, w) := assert_modem_lines p false w in
          Some (Some p, w, SIO_OK)
  | _, _ => Some (port, w, SIO_ERR_NULL_POINTER)
  end.

Definition sio_configure (port : ptr (sio_port_t W)) (baud line_cfg : Z) w
    : option (ptr (sio_port_t W) * W * Z) :=
  match port with
  | None => Some (port, w, SIO_ERR_NULL_POINTER)
  | Some p =>
      if negb (sp_initialized p) then Some (port, w, SIO_ERR_NOT_INIT)
      else if nz (Z.land line_cfg 0xC0) then Some (port, w, SIO_ERR_LINE_COLLISION)
      else
        '(p, w, st) ← program_divisor p baud w;
        if negb (st =? SIO_OK) then Some (Some p, w, st)
        else
          let p := p <| sp_line_cfg := line_cfg |> in
          let w := reg_write p SIO_REG_LCR line_cfg w in
          let '(p, w) := assert_modem_lines p (sp_loopback p) w in
          Some (Some p, w, SIO_OK)
  end.

Definition sio_open_fifo (port : ptr (sio_port_t W)) (trigger : Z) w
    : ptr (sio_port_t W) * W * Z :=
  match port with
  | None => (port, w, SIO_ERR_NULL_POINTER)
  | Some p =>
      if negb (sp_initialized p) then (port, w, SIO_ERR_NOT_INIT)
      else
        let fcr := u8 (Z.lor (Z.lor (Z.lor SIO_FCR_ENABLE SIO_FCR_RX_CLEAR)
                                SIO_FCR_TX_CLEAR) trigger) in
        let w := reg_write p SIO_REG_FCR_IIR fcr w in
        let w := reg_write p SIO_REG_FCR_IIR fcr w in
        let '(iir, w) := reg_read p SIO_REG_FCR_IIR w in
        let p := p <| sp_fcr := fcr |> <| sp_fifo_enabled := nz (Z.land iir 0xC0) |> in
        if negb (sp_fifo_enabled p) then (Some p, w, SIO_ERR_FIFO_FAULT)
        else (Some p, w, SIO_OK)
  end.

Definition sio_close_fifo (port : ptr (sio_port_t W)) w : ptr (sio_port_t W) * W * Z :=
  match port with
  | None => (port, w, SIO_ERR_NULL_POINTER)
  | Some p =>
      if negb (sp_initialized p) then (port, w, SIO_ERR_NOT_INIT)
      else
        let w := reg_write p SIO_REG_FCR_IIR 0 w in
        (Some (p <| sp_fcr := 0 |> <| sp_fifo_enabled := false |>), w, SIO_OK)
  end.

(** ** The service pass *)

(** [while (lsr & DR)]; [n] is what is left of the budget (at least one). *)
Fixpoint pump_rx (n : nat) port (lsr : Z) w : option (sio_port_t W * Z * W) :=
  if Z.land lsr SIO_LSR_DR =? 0 then Some (port, lsr, w)
  else
    let '(byte, w) := reg_read port SIO_REG_THR_RBR w in
    '(port, pushed) ← rxr_push port byte;
    let port := if (pushed : bool) then port <| rx_total := u64 (rx_total port + 1) |>
                else port <| rx_overruns := u32 (rx_overruns port + 1) |> in
    match n with
    | O => Some (port, lsr, w)
    | S n => let '(lsr, w) := reg_read port SIO_REG_LSR w in pump_rx n port lsr w
    end.

(** [while (!txr_empty(port))]; every iteration pops one byte. *)
Fixpoint pump_tx (fuel : nat) port (lsr : Z) w : option (sio_port_t W * Z * W) :=
  if txr_empty port then Some (port, lsr, w)
  else
    match fuel with
    | O => None
    | S fuel =>
        '(port, byte) ← txr_pop port;
        let w := reg_write port SIO_REG_THR_RBR byte w in
        let port := port <| tx_total := u64 (tx_total port + 1) |> in
        let '(lsr, w) := reg_read port SIO_REG_LSR w in
        if Z.land lsr SIO_LSR_THRE =? 0 then Some (port, lsr, w)
        else pump_tx fuel port lsr w
    end.

Definition sio_pump (port : ptr (sio_port_t W)) w : option (ptr (sio_port_t W) * W * Z) :=
  match port with
  | None => Some (port, w, SIO_ERR_NULL_POINTER)
  | Some p =>
      if negb (sp_initialized p) then Some (port, w, SIO_ERR_NOT_INIT)
      else
        let '(lsr, w) := reg_read p SIO_REG_LSR w in
        '(p, lsr, w) ← pump_rx (Z.to_nat (SIO_PUMP_BUDGET - 1)) p lsr w;
        let p := if nz (Z.land lsr SIO_LSR_OE)
                 then p <| rx_overruns := u32 (rx_overruns p + 1) |> else p in
        let p := if nz (Z.land lsr SIO_LSR_ERRORS)
                 then p <| line_error_events := u32 (line_error_events p + 1) |> else p in
        '(p, lsr, w) ← (if nz (Z.land lsr SIO_LSR_THRE)
                        then pump_tx (Z.to_nat (tx_count p)) p lsr w
                        else Some (p, lsr, w));
        let '(msr, w) := reg_read p SIO_REG_MSR w in
        Some (Some (p <| msr_last := msr |> <| carrier := nz (Z.land msr SIO_MSR_DCD) |>
                      <| lsr_last := lsr |>), w, SIO_OK)
  end.

(** The effect of a call [sio_pump(port);] whose status is ignored. *)
Definition pump port w : option (sio_port_t W * W) :=
  '(p, w, _) ← sio_pump (Some port) w; p ← p; Some (p, w).

(** ** Transfers *)

(** [while (done < len)]; each iteration advances [done] or [iters]. *)
Fixpoint write_loop (fuel : nat) port (data : list Z) (len done iters : Z)
    (blocking : bool) w : option (sio_port_t W * Z * W) :=
  if negb (done <? len) then Some (port, done, w)
  else
    match fuel with
    | O => None
    | S fuel =>
        '(port, w) ← (if txr_full port then pump port w else Some (port, w));
        byte ← aget data done;
        '(port, pushed) ← txr_push port byte;
        if (pushed : bool)
        then write_loop fuel port data len (u32 (done + 1)) iters blocking w
        else if negb blocking then Some (port, done, w)
        else if SIO_BLOCK_ITERS <=? u32 (iters + 1) then Some (port, done, w)
        else write_loop fuel port data len done (u32 (iters + 1)) blocking w
    end.

(** The result holds [*written] when the pointer is not [NULL]. *)
Definition sio_write (port : ptr (sio_port_t W)) (data : ptr (list Z)) (len : Z)
    (written : ptr Z) (blocking : bool) w
    : option (ptr (sio_port_t W) * ptr Z * W * Z) :=
  match port, data with
  | Some p, Some data =>
      if negb (sp_initialized p) then Some (port, written, w, SIO_ERR_NOT_INIT)
      else
        '(p, done, w) ← write_loop (Z.to_nat (len + SIO_BLOCK_ITERS)) p data len 0 0
                          blocking w;
        '(p, w) ← pump p w;
        let written := (λ _, done) <$> written in
        if negb (done =? len) then
          Some (Some (p <| tx_backpressure_events := u32 (tx_backpressure_events p + 1) |>),
                written, w, SIO_ERR_TX_BACKPRESSURE)
        else Some (Some p, written, w, SIO_OK)
  | _, _ => Some (port, written, w, SIO_ERR_NULL_POINTER)
  end.

(** [while (got < cap && rxr_count(port) > 0)] *)
Fixpoint drain_loop (fuel : nat) port (data : list Z) (cap got : Z)
    : option (sio_port_t W * list Z * Z) :=
  if negb ((got <? cap) && (0 <? rxr_count port)) then Some (port, data, got)
  else
    match fuel with
    | O => None
    | S fuel =>
        '(port, byte) ← rxr_pop port;
        data ← aset data got byte;
        drain_loop fuel port data cap (u32 (got + 1))
    end.

(** [while (got < cap)]; only the iterations that received nothing repeat. *)
Fixpoint read_loop (fuel : nat) port (data : list Z) (cap got iters : Z)
    (blocking : bool) w : option (sio_port_t W * list Z * Z * W) :=
  if negb (got <? cap) then Some (port, data, got, w)
  else
    match fuel with
    | O => None
    | S fuel =>
        '(port, w) ← pump port w;
        '(port, data, got) ← drain_loop (Z.to_nat (rxr_count port)) port data cap got;
        if (0 <? got) || negb blocking then Some (port, data, got, w)
        else if SIO_BLOCK_ITERS <=? u32 (iters + 1) then Some (port, data, got, w)
        else read_loop fuel port data cap got (u32 (iters + 1)) blocking w
    end.

Definition sio_read (port : ptr (sio_port_t W)) (data : ptr (list Z)) (cap : Z)
    (out_read : ptr Z) (blocking : bool) w
    : option (ptr (sio_port_t W) * ptr (list Z) * ptr Z * W * Z) :=
  match port, data with
  | Some p, Some d =>
      if negb (sp_initialized p) then Some (port, data, out_read, w, SIO_ERR_NOT_INIT)
      else
        '(p, d, got, w) ← read_loop (Z.to_nat SIO_BLOCK_ITERS) p d cap 0 0 blocking w;
        Some (Some p, Some d, (λ _, got) <$> out_read, w, SIO_OK)
  | _, _ => Some (port, data, out_read, w, SIO_ERR_NULL_POINTER)
  end.

Definition sio_txidle (port : ptr (sio_port_t W)) w : bool * W :=
  match port with
  | None => (true, w)
  | Some p =>
      if negb (sp_initialized p) then (true, w)
      else let '(lsr, w) := reg_read p SIO_REG_LSR w in (nz (Z.land lsr SIO_LSR_TEMT), w)
  end.

(** [while (!txr_empty(port) || sio_txidle(port) == false)]: the line is only
    polled when the ring is empty. *)
Fixpoint flush_loop (fuel : nat) port (iters : Z) w : option (sio_port_t W * W * Z) :=
  let '(go, w) := if negb (txr_empty port) then (true, w)
                  else let '(idle, w) := sio_txidle (Some port) w in (negb idle, w) in
  if negb go then Some (port, w, SIO_OK)
  else
    match fuel with
    | O => None
    | S fuel =>
        '(port, w) ← pump port w;
        if SIO_BLOCK_ITERS <=? u32 (iters + 1) then Some (port, w, SIO_ERR_BUSY)
        else flush_loop fuel port (u32 (iters + 1)) w
    end.

Definition sio_flush (port : ptr (sio_port_t W)) w : option (ptr (sio_port_t W) * W * Z) :=
  match port with
  | None => Some (port, w, SIO_ERR_NULL_POINTER)
  | Some p =>
      if negb (sp_initialized p) then Some (port, w, SIO_ERR_NOT_INIT)
      else '(p, w, st) ← flush_loop (Z.to_nat SIO_BLOCK_ITERS) p 0 w; Some (Some p, w, st)
  end.

(** ** Self test *)
Definition probe : list Z := [0x4B; 0x31; 0x5F; 0xA5; 0x00].

(** [while ((LSR & mask) == 0)] with [n] polls left: whether the bit came. *)
Fixpoint wait_lsr (n : nat) port (mask : Z) w : bool * W :=
  let '(lsr, w) := reg_read port SIO_REG_LSR w in
  if nz (Z.land lsr mask) then (true, w)
  else match n with
       | O => (false, w)
       | S n => wait_lsr n port mask w
       end.

(** One round per probe byte; stops at the first failure. *)
Fixpoint probe_loop (bytes : list Z) port w : bool * W :=
  match bytes with
  | [] => (true, w)
  | b :: bytes =>
      let polls := Z.to_nat (SIO_BLOCK_ITERS - 1) in
      let '(ok, w) := wait_lsr polls port SIO_LSR_THRE w in
      if negb ok then (false, w)
      else
        let w := reg_write port SIO_REG_THR_RBR b w in
        let '(ok, w) := wait_lsr polls port SIO_LSR_DR w in
        if negb ok then (false, w)
        else
          let '(echo, w) := reg_read port SIO_REG_THR_RBR w in
          if negb (echo =? b) then (false, w) else probe_loop bytes port w
  end.

Definition sio_self_test (port : ptr (sio_port_t W)) w : ptr (sio_port_t W) * W * Z :=
  match port with
  | None => (port, w, SIO_ERR_NULL_POINTER)
  | Some p =>
      if negb (sp_initialized p) then (port, w, SIO_ERR_NOT_INIT)
      else
        let w := reg_write p SIO_REG_FCR_IIR 0 w in
        let w := reg_write p SIO_REG_LCR (Z.lor (sp_line_cfg p) SIO_LCR_LOOP) w in
        let '(ok, w) := probe_loop probe p w in
        let w := reg_write p SIO_REG_LCR (sp_line_cfg p) w in
        let '(p, w) := assert_modem_lines p (sp_loopback p) w in
        (Some p, w, if (ok : bool) then SIO_OK else SIO_ERR_LINE_FAULT)
  end.

(** ** SuperUnicode transport *)

(** [frame] is an uninitialised buffer of 6 bytes. *)
Definition sio_write_sucs (frame : list Z) (port : ptr (sio_port_t W)) (cp : Z) w
    : option (ptr (sio_port_t W) * W * Z) :=
  match port with
  | None => Some (port, w, SIO_ERR_NULL_POINTER)
  | Some p =>
      '(flen, frame) ← sutf8_encode_char cp (Some frame) 6;
      if flen =? 0 then Some (port, w, SIO_ERR_LINE_COLLISION)
      else '(p, _, w, st) ← sio_write port frame (u32 flen) (Some 0) true w; Some (p, w, st)
  end.

(** [while (sutf8[0] != 0)]; every iteration advances by a byte at least. *)
Fixpoint puts_loop (fuel : nat) (port : ptr (sio_port_t W)) (sutf8 : list Z) w
    : option (ptr (sio_port_t W) * W * Z) :=
  c ← aget sutf8 0;
  if c =? 0 then Some (port, w, SIO_OK)
  else
    match fuel with
    | O => None
    | S fuel =>
        '(adv, cp) ← sutf8_next_codepoint (Some sutf8) 6 (Some 0);
        if adv =? 0 then Some (port, w, SIO_OK)
        else if negb (default 0 cp =? SUCS_INVALID_CODEPOINT) then
          '(port, _, w, st) ← sio_write port (Some sutf8) (u32 adv) (Some 0) true w;
          if negb (st =? SIO_OK) then Some (port, w, st)
          else puts_loop fuel port (drop (Z.to_nat adv) sutf8) w
        else puts_loop fuel port (drop (Z.to_nat adv) sutf8) w
    end.

Definition sio_puts_sucs (port : ptr (sio_port_t W)) (sutf8 : ptr (list Z)) w
    : option (ptr (sio_port_t W) * W * Z) :=
  match port, sutf8 with
  | Some _, Some s => puts_loop (length s) port s w
  | _, _ => Some (port, w, SIO_ERR_NULL_POINTER)
  end.

(** ** Gates *)

(** The registrar is the kernel's hook: syscall number, name, parameter
    count, ring and flags. *)
Definition sio_register_gates {C} (ctx : ptr C)
    (registrar : ptr (Z → list Z → Z → Z → Z → C → Z * C)) : ptr C * Z :=
  match ctx, registrar with
  | Some c, Some f =>
      let '(rc, c) := f 0x070 [115; 105; 111; 46; 119; 114; 105; 116; 101] 3 3 0x05 c in
      if nz rc then (Some c, rc)
      else
        let '(rc, c) := f 0x071 [115; 105; 111; 46; 114; 101; 97; 100] 2 3 0x01 c in
        if nz rc then (Some c, rc)
        else
          let '(rc, c) := f 0x072 [115; 105; 111; 46; 105; 100; 108; 101] 1 3 0x01 c in
          (Some c, rc)
  | _, _ => (ctx, 0)
  end.

Definition sio_gate_write (port : ptr (sio_port_t W)) (data : ptr (list Z)) (len : Z)
    (written : ptr Z) w : option (ptr (sio_port_t W) * ptr Z * W * Z) :=
  sio_write port data len written false w.
End sio.
