(* ===== verification/SioRing.v ===== *)
(** Shared layers of the serial driver's correctness: circular buffers as
    queues, the traces of register accesses, and what one service pass does. *)
From S2P Require Import Prelude Sio.

(** ** Circular buffers *)

(** A buffer of [n] slots holding the queue [q], oldest element at [tail]. *)
Record ring_ok (n : Z) (ring : list Z) (head tail count : Z) (q : list Z) : Prop := {
  rg_len : Z.of_nat (length ring) = n;
  rg_tail : 0 ≤ tail < n;
  rg_count : count = Z.of_nat (length q) ∧ count ≤ n;
  rg_head : head = (tail + count) mod n;
  rg_slots : ∀ k, 0 ≤ k < count → aget ring ((tail + k) mod n) = aget q k
}.

Lemma ring_push n ring head tail count q b :
  ring_ok n ring head tail count q → count < n → n < 2 ^ 15 →
  ∃ ring', aset ring head b = Some ring' ∧
    ring_ok n ring' (u16 (u32 (head + 1) mod n)) tail (u16 (count + 1)) (q ++ [b]).
Proof.
  intros [Hl Ht [Hc Hcn] Hh Hs] Hlt Hn.
  assert (0 ≤ head < n) by (subst head; apply Z.mod_pos_bound; lia).
  assert (0 ≤ (head + 1) mod n < n) by (apply Z.mod_pos_bound; lia).
  rewrite aset_in by lia. eexists. split; [done|].
  rewrite (u32_small (head + 1)), u16_small, u16_small by lia.
  split; rewrite ?length_insert, ?length_app; simpl; try lia.
  - rewrite Hh, Zplus_mod_idemp_l. f_equal. lia.
  - intros k Hk. rewrite aget_insert by lia. destruct (decide (k = count)) as [->|].
    + rewrite decide_True by done. rewrite Hc. symmetry. apply aget_app_here.
    + rewrite decide_False.
      * rewrite Hs by lia. rewrite !aget_to_nat by lia. by rewrite lookup_app_l by lia.
      * rewrite Hh. intros E. apply (f_equal (λ x, (x - tail) mod n)) in E.
        rewrite !Zminus_mod_idemp_l in E. replace (tail + count - tail) with count in E by lia.
        replace (tail + k - tail) with k in E by lia. rewrite !Z.mod_small in E by lia. lia.
Qed.

Lemma ring_pop n ring head tail count q b :
  ring_ok n ring head tail count (b :: q) → n < 2 ^ 15 →
  aget ring tail = Some b ∧
  ring_ok n ring head (u16 (u32 (tail + 1) mod n)) (u16 (count - 1)) q.
Proof.
  intros [Hl Ht [Hc Hcn] Hh Hs] Hn. simpl in Hc.
  assert (0 ≤ (tail + 1) mod n < n) by (apply Z.mod_pos_bound; lia).
  split.
  { specialize (Hs 0 ltac:(lia)). rewrite Z.add_0_r, Z.mod_small in Hs by lia. by rewrite Hs. }
  rewrite (u32_small (tail + 1)), u16_small, u16_small by lia. split; try lia.
  - rewrite Hh, Zplus_mod_idemp_l. f_equal. lia.
  - intros k Hk. rewrite Zplus_mod_idemp_l. replace (tail + 1 + k) with (tail + (k + 1)) by lia.
    rewrite Hs by lia. rewrite !aget_to_nat by lia.
    by replace (Z.to_nat (k + 1)) with (S (Z.to_nat k)) by lia.
Qed.

Lemma ring_empty n ring tail : 0 ≤ tail < n → Z.of_nat (length ring) = n →
  ring_ok n ring tail tail 0 [].
Proof.
  intros. split; try done; [split; [done|lia]| |lia]. rewrite Z.add_0_r, Z.mod_small; lia.
Qed.

(** ** Register traces *)
Inductive event := ERead (reg v : Z) | EWrite (reg v : Z).

(** Bytes that went out through the holding register and that came in. *)
Fixpoint sent (tr : list event) : list Z :=
  match tr with
  | [] => []
  | EWrite r v :: tr => if r =? SIO_REG_THR_RBR then v :: sent tr else sent tr
  | _ :: tr => sent tr
  end.

Fixpoint received (tr : list event) : list Z :=
  match tr with
  | [] => []
  | ERead r v :: tr => if r =? SIO_REG_THR_RBR then v :: received tr else received tr
  | _ :: tr => received tr
  end.

Lemma sent_app t1 t2 : sent (t1 ++ t2) = sent t1 ++ sent t2.
Proof. induction t1 as [|[] t1 IH]; simpl; rewrite ?IH; repeat case_if; done. Qed.
Lemma received_app t1 t2 : received (t1 ++ t2) = received t1 ++ received t2.
Proof. induction t1 as [|[] t1 IH]; simpl; rewrite ?IH; repeat case_if; done. Qed.

(** What register accesses depend on. *)
Definition geom {W} (p : sio_port_t W) : sio_io_t W * Z * Z :=
  (sp_io p, sp_base p, sp_reg_shift p).

(** [io_trace p w tr w']: the accesses [tr] of port [p], in order, lead from
    the world [w] to [w']. *)
Inductive io_trace {W} (p : sio_port_t W) : W → list event → W → Prop :=
  | tr_nil w : io_trace p w [] w
  | tr_read w reg v w1 tr w2 : reg_read p reg w = (v, w1) → io_trace p w1 tr w2 →
      io_trace p w (ERead reg v :: tr) w2
  | tr_write w reg v tr w2 : io_trace p (reg_write p reg v w) tr w2 →
      io_trace p w (EWrite reg (u8 v) :: tr) w2.

#[export] Hint Constructors io_trace : cmodel.

Section traces.
Context {W : Type}.
Implicit Types (p : sio_port_t W) (w : W).

Lemma reg_read_geom p p' reg w : geom p' = geom p → reg_read p' reg w = reg_read p reg w.
Proof. unfold geom, reg_read, reg_addr. by intros [= -> -> ->]. Qed.
Lemma reg_write_geom p p' reg v w : geom p' = geom p → reg_write p' reg v w = reg_write p reg v w.
Proof. unfold geom, reg_write, reg_addr. by intros [= -> -> ->]. Qed.

Lemma io_trace_geom p p' w tr w' : geom p' = geom p → io_trace p w tr w' → io_trace p' w tr w'.
Proof.
  intros Hg. induction 1 as [w|w reg v w1 tr w2 Hr _ IH|w reg v tr w2 _ IH]; [constructor| |].
  - by econstructor; [rewrite (reg_read_geom p)|].
  - constructor. by rewrite (reg_write_geom p).
Qed.

Lemma io_trace_app p w1 t1 w2 t2 w3 :
  io_trace p w1 t1 w2 → io_trace p w2 t2 w3 → io_trace p w1 (t1 ++ t2) w3.
Proof. induction 1; simpl; intros; [done|econstructor; eauto|constructor; eauto]. Qed.

Lemma reg_read_byte p reg w v w' : reg_read p reg w = (v, w') → 0 ≤ v < 256.
Proof.
  unfold reg_read. destruct (read8 _) as [f|]; [|by intros [= <- <-]].
  destruct (f _ _ _). intros [= <- <-]. apply u8_range.
Qed.

Lemma io_trace_bytes p w tr w' : io_trace p w tr w' → Forall (λ b, 0 ≤ b < 256) (received tr).
Proof.
  induction 1; simpl; [constructor| |done]. case_if; [|done].
  constructor; [by eapply reg_read_byte|done].
Qed.
End traces.

(** The trace is what really happened: with hooks that log every access, the
    log grows by exactly the trace, registers resolved to their addresses. *)
Definition logging {W} (rd : Z → W → Z * W) (wr : Z → Z → W → W) : sio_io_t (W * list event) :=
  mk_io (Some (λ _ a '(w, l), let '(v, w) := rd a w in (v, (w, l ++ [ERead a (u8 v)]))))
        (Some (λ _ a v '(w, l), (wr a v w, l ++ [EWrite a v]))) 0.

Definition resolve {W} (p : sio_port_t W) (e : event) : event :=
  match e with
  | ERead r v => ERead (reg_addr p r) v
  | EWrite r v => EWrite (reg_addr p r) v
  end.

Lemma io_trace_logged {W} (rd : Z → W → Z * W) wr (p : sio_port_t (W * list event)) w tr w' :
  sp_io p = logging rd wr → io_trace p w tr w' → snd w' = snd w ++ map (resolve p) tr.
Proof.
  intros Hio. induction 1 as [w|[w l] reg v w1 tr w2 Hr _ IH|[w l] reg v tr w2 _ IH]; simpl.
  - by rewrite app_nil_r.
  - rewrite IH. unfold reg_read in Hr. rewrite Hio in Hr. simpl in Hr.
    destruct (rd _ _). injection Hr as <- <-. simpl. by rewrite <-app_assoc.
  - rewrite IH. unfold reg_write. rewrite Hio. simpl. by rewrite <-app_assoc.
Qed.

(** ** The port invariant *)
Definition bytes_ok (q : list Z) : Prop := Forall (λ b, 0 ≤ b < 256) q.

Record port_ok {W} (p : sio_port_t W) (qt qr : list Z) : Prop := {
  po_init : sp_initialized p = true;
  po_tx : ring_ok SIO_TX_RING_SIZE (tx_ring p) (tx_head p) (tx_tail p) (tx_count p) qt;
  po_rx : ring_ok SIO_RX_RING_SIZE (rx_ring p) (rx_head p) (rx_tail p) (rx_count p) qr;
  po_tx_bytes : bytes_ok qt;
  po_rx_bytes : bytes_ok qr
}.

Section rings.
Context {W : Type}.
Implicit Types (p : sio_port_t W) (w : W) (qt qr : list Z).

Lemma tx_count_eq p qt qr : port_ok p qt qr →
  tx_count p = Z.of_nat (length qt) ∧ (length qt ≤ 512)%nat.
Proof. intros H. destruct (rg_count _ _ _ _ _ _ (po_tx _ _ _ H)). unfold SIO_TX_RING_SIZE in *. lia. Qed.
Lemma rx_count_eq p qt qr : port_ok p qt qr →
  rx_count p = Z.of_nat (length qr) ∧ (length qr ≤ 256)%nat.
Proof. intros H. destruct (rg_count _ _ _ _ _ _ (po_rx _ _ _ H)). unfold SIO_RX_RING_SIZE in *. lia. Qed.

Lemma txr_full_iff p qt qr : port_ok p qt qr → txr_full p = bool_decide (length qt = 512)%nat.
Proof.
  intros H. destruct (tx_count_eq _ _ _ H) as [E ?]. unfold txr_full, SIO_TX_RING_SIZE. rewrite E.
  case_bool_decide; [apply Z.leb_le|apply Z.leb_gt]; lia.
Qed.

Lemma txr_push_ok p qt qr b :
  port_ok p qt qr → 0 ≤ b < 256 → (length qt < 512)%nat →
  ∃ p', txr_push p b = Some (p', true) ∧ port_ok p' (qt ++ [b]) qr ∧ geom p' = geom p.
Proof.
  intros H Hb Hlt. unfold txr_push. rewrite (txr_full_iff _ _ _ H), bool_decide_false by lia.
  destruct (tx_count_eq _ _ _ H) as [E _]. destruct H as [Hi Ht Hr Bt Br].
  destruct (ring_push _ _ _ _ _ _ b Ht) as (ring' & -> & Ht'); [unfold SIO_TX_RING_SIZE; lia|done|].
  rewrite obind_Some. eexists. split; [done|]. split; [|done]. split; try done.
  by apply Forall_app; split; [|constructor].
Qed.

Lemma txr_push_full p qt qr b :
  port_ok p qt qr → length qt = 512%nat → txr_push p b = Some (p, false).
Proof. intros H E. unfold txr_push. by rewrite (txr_full_iff _ _ _ H), bool_decide_true. Qed.

Lemma txr_pop_ok p b qt qr :
  port_ok p (b :: qt) qr →
  ∃ p', txr_pop p = Some (p', b) ∧ port_ok p' qt qr ∧ geom p' = geom p ∧
    tx_total p' = tx_total p.
Proof.
  intros [Hi Ht Hr Bt Br]. unfold txr_pop.
  destruct (ring_pop _ _ _ _ _ _ _ Ht) as [-> Ht']; [done|]. rewrite obind_Some.
  eexists. split; [done|]. split; [|done]. inversion Bt; subst. by split.
Qed.

(** A received byte is queued unless the ring is full. *)
Lemma rxr_push_ok p qt qr b :
  port_ok p qt qr → 0 ≤ b < 256 →
  ∃ p' ok, rxr_push p b = Some (p', ok) ∧ port_ok p' qt (take 256 (qr ++ [b])) ∧
    geom p' = geom p ∧ ok = bool_decide (length qr < 256)%nat.
Proof.
  intros H Hb. destruct (rx_count_eq _ _ _ H) as [E Hle]. destruct H as [Hi Ht Hr Bt Br].
  unfold rxr_push, rxr_full, SIO_RX_RING_SIZE in *. rewrite E. case_if.
  - exists p, false. rewrite bool_decide_false by lia.
    rewrite take_app_le, take_ge by lia. by split_and!.
  - destruct (ring_push _ _ _ _ _ _ b Hr) as (ring' & E' & Hr'); [lia|done|].
    rewrite E', obind_Some. eexists _, _. split; [done|]. rewrite bool_decide_true by lia.
    split; [|done]. rewrite take_ge by (rewrite length_app; simpl; lia). rewrite <-E.
    split; try done. by apply Forall_app; split; [|constructor].
Qed.

Lemma rxr_pop_ok p b qt qr :
  port_ok p qt (b :: qr) →
  ∃ p', rxr_pop p = Some (p', b) ∧ port_ok p' qt qr ∧ geom p' = geom p.
Proof.
  intros [Hi Ht Hr Bt Br]. unfold rxr_pop.
  destruct (ring_pop _ _ _ _ _ _ _ Hr) as [-> Hr']; [done|]. rewrite obind_Some.
  eexists. split; [done|]. split; [|done]. inversion Br; subst. by split.
Qed.
End rings.

(** Queueing twice is queueing the concatenation. *)
Lemma take_take_app {A} (n : nat) (a b c : list A) :
  take n (take n (a ++ b) ++ c) = take n (a ++ b ++ c).
Proof.
  rewrite (app_assoc a b c). destruct (decide (length (a ++ b) ≤ n)%nat).
  - by rewrite (take_ge (a ++ b)) by done.
  - rewrite !(take_app_le _ c); [by rewrite take_take, Nat.min_id|lia|rewrite length_take; lia].
Qed.

(** ** The service pass *)

(** The effect of any number of accesses on the queues: what was sent left the
    transmit queue in order, what was received joined the receive queue as far
    as there was room. *)
Record transfer {W} (p : sio_port_t W) (w : W) (qt qr : list Z)
    (tr : list event) (p' : sio_port_t W) (w' : W) (qt' qr' : list Z) : Prop := {
  tf_trace : io_trace p w tr w';
  tf_geom : geom p' = geom p;
  tf_ok : port_ok p' qt' qr';
  tf_sent : qt = sent tr ++ qt';
  tf_received : qr' = take 256 (qr ++ received tr)
}.

Section pump.
Context {W : Type}.
Implicit Types (p : sio_port_t W) (w : W) (qt qr : list Z).

Lemma transfer_nil p w qt qr : port_ok p qt qr → transfer p w qt qr [] p w qt qr.
Proof.
  intros H. split; try done; [constructor|]. rewrite app_nil_r.
  destruct (rx_count_eq _ _ _ H). by rewrite take_ge by lia.
Qed.

Lemma transfer_trans p1 w1 qt1 qr1 t1 p2 w2 qt2 qr2 t2 p3 w3 qt3 qr3 :
  transfer p1 w1 qt1 qr1 t1 p2 w2 qt2 qr2 → transfer p2 w2 qt2 qr2 t2 p3 w3 qt3 qr3 →
  transfer p1 w1 qt1 qr1 (t1 ++ t2) p3 w3 qt3 qr3.
Proof.
  intros [T1 G1 O1 -> ->] [T2 G2 O2 -> ->]. split; [|congruence|done|..].
  - eapply io_trace_app; [done|]. by eapply io_trace_geom.
  - by rewrite sent_app, app_assoc.
  - by rewrite received_app, take_take_app.
Qed.

(** A port that differs in telemetry and line state only. *)
Definition same_queues p p' : Prop :=
  geom p' = geom p ∧ ∀ qt qr, port_ok p qt qr → port_ok p' qt qr.

Lemma transfer_same p w qt qr tr p' w' qt' qr' p'' :
  transfer p w qt qr tr p' w' qt' qr' → same_queues p' p'' →
  transfer p w qt qr tr p'' w' qt' qr'.
Proof. intros [] [? ?]. split; auto; congruence. Qed.

(** A read of another register than RBR. *)
Lemma transfer_poll p w qt qr reg v w' :
  port_ok p qt qr → reg ≠ SIO_REG_THR_RBR → reg_read p reg w = (v, w') →
  transfer p w qt qr [ERead reg v] p w' qt qr.
Proof.
  intros H Hreg Hr. destruct (transfer_nil p w' qt qr H) as [T G O S R].
  split; try done; simpl; [by econstructor|]. by rewrite (proj2 (Z.eqb_neq _ _) Hreg).
Qed.

Lemma pump_rx_spec n : ∀ p lsr w qt qr,
  port_ok p qt qr →
  ∃ p' lsr' w' tr, pump_rx n p lsr w = Some (p', lsr', w') ∧
    transfer p w qt qr tr p' w' qt (take 256 (qr ++ received tr)) ∧
    sent tr = [] ∧ (length (received tr) ≤ S n)%nat.
Proof.
  induction n as [|n IH]; intros p lsr w qt qr Hok; cbn [pump_rx]; case_if.
  1,3: exists p, lsr, w, []; split; [done|]; pose proof (transfer_nil p w qt qr Hok) as T;
    rewrite <-(tf_received _ _ _ _ _ _ _ _ _ T); simpl; split_and!; [done..|lia].
  all: destruct (reg_read p SIO_REG_THR_RBR w) as [b w1] eqn:Er.
  all: destruct (rxr_push_ok p qt qr b Hok) as (p1 & ok & -> & Hok1 & Hg1 & _);
    [by eapply reg_read_byte|]; rewrite obind_Some.
  all: set (p2 := if ok : bool then _ else _).
  all: assert (transfer p w qt qr [ERead SIO_REG_THR_RBR b] p2 w1 qt (take 256 (qr ++ [b]))) as T1.
  1,3: split; [by econstructor; [|constructor]|by destruct ok|by destruct ok; destruct Hok1; split|done|done].
  - eexists _, _, _, _. split; [done|]. split; [exact T1|]. simpl. split; [done|lia].
  - destruct (reg_read p2 SIO_REG_LSR w1) as [lsr' w2] eqn:El.
    pose proof (transfer_poll p2 w1 _ _ _ _ _ (tf_ok _ _ _ _ _ _ _ _ _ T1)
      (ltac:(done) : SIO_REG_LSR ≠ SIO_REG_THR_RBR) El) as T2.
    destruct (IH p2 lsr' w2 _ _ (tf_ok _ _ _ _ _ _ _ _ _ T1)) as (p' & lsr'' & w' & tr & -> & T3 & S3 & L3).
    pose proof (transfer_trans _ _ _ _ _ _ _ _ _ _ _ _ _ _ T1
      (transfer_trans _ _ _ _ _ _ _ _ _ _ _ _ _ _ T2 T3)) as T.
    exists p', lsr'', w'. eexists. split; [done|].
    rewrite take_take_app in T. split; [exact T|]. simpl. split; [done|lia].
Qed.

Lemma pump_tx_spec fuel : ∀ p lsr w qt qr,
  port_ok p qt qr → (length qt ≤ fuel)%nat →
  ∃ p' lsr' w' tr qt', pump_tx fuel p lsr w = Some (p', lsr', w') ∧
    transfer p w qt qr tr p' w' qt' qr ∧ received tr = [].
Proof.
  induction fuel as [|fuel IH]; intros p lsr w qt qr Hok Hle; cbn [pump_tx]; unfold txr_empty;
    destruct (tx_count_eq _ _ _ Hok) as [Ec _]; rewrite Ec; (destruct qt as [|b qt];
      [exists p, lsr, w, [], []; split_and!; [done|by apply transfer_nil|done]|]).
  { simpl in Hle. lia. }
  case_if; [simpl in *; lia|].
  destruct (txr_pop_ok p b qt qr Hok) as (p1 & -> & Hok1 & Hg1 & _). rewrite obind_Some.
  assert (u8 b = b) as Eb by (apply u8_small; pose proof (po_tx_bytes _ _ _ Hok) as H; by inversion H).
  set (p2 := p1 <| tx_total := _ |>). set (w1 := reg_write p1 SIO_REG_THR_RBR b w).
  assert (transfer p w (b :: qt) qr [EWrite SIO_REG_THR_RBR b] p2 w1 qt qr) as T1.
  { destruct (rx_count_eq _ _ _ Hok). split; try done.
    - rewrite <-Eb at 1. constructor. unfold w1. rewrite (reg_write_geom p p1) by done. constructor.
    - by destruct Hok1; split.
    - simpl. rewrite app_nil_r, take_ge by lia. done. }
  destruct (reg_read p2 SIO_REG_LSR w1) as [lsr' w2] eqn:El.
  pose proof (transfer_poll p2 w1 _ _ _ _ _ (tf_ok _ _ _ _ _ _ _ _ _ T1)
    (ltac:(done) : SIO_REG_LSR ≠ SIO_REG_THR_RBR) El) as T2.
  pose proof (transfer_trans _ _ _ _ _ _ _ _ _ _ _ _ _ _ T1 T2) as T12.
  case_if; [by eexists _, _, _, _, _|].
  destruct (IH p2 lsr' w2 qt qr (tf_ok _ _ _ _ _ _ _ _ _ T1)) as (p' & lsr'' & w' & tr & qt' & -> & T3 & R3).
  { simpl in Hle. lia. }
  eexists _, _, _, _, _. split; [done|].
  split; [exact (transfer_trans _ _ _ _ _ _ _ _ _ _ _ _ _ _ T12 T3)|done].
Qed.

(** One service pass: at most 32 bytes are taken from the line, transmission
    is in order, and nothing is lost but received bytes that found the ring
    full. *)
Lemma pump_spec p w qt qr :
  port_ok p qt qr →
  ∃ p' w' tr qt' qr', sio_pump (Some p) w = Some (Some p', w', SIO_OK) ∧
    pump p w = Some (p', w') ∧ transfer p w qt qr tr p' w' qt' qr' ∧
    (length (received tr) ≤ 32)%nat.
Proof.
  intros Hok. unfold pump, sio_pump. rewrite (po_init _ _ _ Hok).
  destruct (reg_read p SIO_REG_LSR w) as [lsr w1] eqn:E1.
  pose proof (transfer_poll p w _ _ _ _ _ Hok (ltac:(done) : SIO_REG_LSR ≠ SIO_REG_THR_RBR) E1) as T1.
  destruct (pump_rx_spec (Z.to_nat (SIO_PUMP_BUDGET - 1)) p lsr w1 qt qr Hok)
    as (p2 & lsr2 & w2 & tr2 & -> & T2 & S2 & L2).
  cbn [negb]. rewrite obind_Some. cbv zeta.
  set (p3 := if nz (Z.land lsr2 SIO_LSR_OE) then _ else p2).
  set (p4 := if nz (Z.land lsr2 SIO_LSR_ERRORS) then _ else p3).
  assert (same_queues p2 p4) as H24.
  { unfold p4, p3. repeat case_if; split; try done; intros ? ? []; by split. }
  pose proof (transfer_same _ _ _ _ _ _ _ _ _ _ T2 H24) as T4.
  pose proof (tf_ok _ _ _ _ _ _ _ _ _ T4) as Hok4.
  assert (∃ p5 lsr5 w5 tr5 qt5, (if nz (Z.land lsr2 SIO_LSR_THRE)
     then pump_tx (Z.to_nat (tx_count p4)) p4 lsr2 w2 else Some (p4, lsr2, w2)) =
     Some (p5, lsr5, w5) ∧ transfer p4 w2 qt (take 256 (qr ++ received tr2)) tr5 p5 w5 qt5
       (take 256 (qr ++ received tr2)) ∧ received tr5 = [])
    as (p5 & lsr5 & w5 & tr5 & qt5 & E5 & T5 & R5).
  { case_if; [|by exists p4, lsr2, w2, [], qt; split_and!; [|apply transfer_nil|]].
    apply pump_tx_spec; [done|]. destruct (tx_count_eq _ _ _ Hok4) as [-> _]. lia. }
  rewrite E5, obind_Some. destruct (reg_read p5 SIO_REG_MSR w5) as [msr w6] eqn:E6.
  pose proof (tf_ok _ _ _ _ _ _ _ _ _ T5) as Hok5.
  pose proof (transfer_poll p5 w5 _ _ _ _ _ Hok5 (ltac:(done) : SIO_REG_MSR ≠ SIO_REG_THR_RBR) E6) as T6.
  pose proof (transfer_trans _ _ _ _ _ _ _ _ _ _ _ _ _ _ T1 (transfer_trans _ _ _ _ _ _ _ _ _ _ _ _ _ _ T4
    (transfer_trans _ _ _ _ _ _ _ _ _ _ _ _ _ _ T5 T6))) as T.
  eexists _, _, _, _, _. split; [done|]. split; [done|].
  split; [eapply transfer_same; [exact T|]|].
  - split; [done|]. intros ? ? []. by split.
  - rewrite !received_app, R5. simpl. rewrite app_nil_r.
    change (S (Z.to_nat (SIO_PUMP_BUDGET - 1))) with 32%nat in L2. done.
Qed.
End pump.
