(* ===== verification/SioSpec.v ===== *)
(** Correctness of the serial driver for every UART behaviour: transmission
    and reception conserve bytes and order, the polling loops return, line
    programming, and where the arithmetic of the divisor goes wrong. *)
From S2P Require Import Prelude Sutf8 Sio SioRing.

(** Taking one element more of a block. *)
Lemma take_drop_step {A} (l : list A) (i j : Z) x :
  aget l i = Some x → i < j →
  take (Z.to_nat (j - i)) (drop (Z.to_nat i) l) =
    x :: take (Z.to_nat (j - (i + 1))) (drop (Z.to_nat (i + 1)) l).
Proof.
  intros [Hi Hx]%aget_Some Hj. rewrite (drop_lookup_cons l (Z.to_nat i) x Hx).
  replace (Z.to_nat (j - i)) with (S (Z.to_nat (j - (i + 1)))) by lia.
  simpl. do 3 f_equal. lia.
Qed.

Section transfers.
Context {W : Type}.
Implicit Types (p : sio_port_t W) (w : W) (qt qr : list Z).

(** ** Transmission *)

(** A transfer continued after more bytes [x] were queued. *)
Lemma transfer_extend p w qt qr t1 p1 w1 qt1 qr1 p2 x t2 p3 w3 qt3 qr3 :
  transfer p w qt qr t1 p1 w1 qt1 qr1 → geom p2 = geom p1 →
  transfer p2 w1 (qt1 ++ x) qr1 t2 p3 w3 qt3 qr3 →
  transfer p w (qt ++ x) qr (t1 ++ t2) p3 w3 qt3 qr3.
Proof.
  intros [T1 G1 O1 -> ->] Hg [T2 G2 O2 E ->]. split; [|congruence|done|..].
  - eapply io_trace_app; [done|]. eapply io_trace_geom; [|done]. congruence.
  - by rewrite sent_app, <-!app_assoc, E.
  - by rewrite received_app, take_take_app.
Qed.

(** The transfer loop: with enough fuel it returns; the bytes it accepted
    follow the queue; it stops short only with the ring full. *)
Lemma write_loop_spec fuel : ∀ p data len done iters blocking w qt qr,
  port_ok p qt qr → bytes_ok data → 0 ≤ done ≤ len → len ≤ Z.of_nat (length data) →
  len < 2 ^ 32 → 0 ≤ iters < SIO_BLOCK_ITERS →
  len - done + (SIO_BLOCK_ITERS - iters) ≤ Z.of_nat fuel →
  ∃ p' done' w' tr qt' qr', write_loop fuel p data len done iters blocking w = Some (p', done', w') ∧
    done ≤ done' ≤ len ∧
    transfer p w (qt ++ take (Z.to_nat (done' - done)) (drop (Z.to_nat done) data)) qr tr
      p' w' qt' qr' ∧
    (done' < len → length qt' = 512%nat).
Proof.
  induction fuel as [|fuel IH]; intros p data len done iters blocking w qt qr Hok Hd Hdone Hlen H32 Hit Hf;
    [unfold SIO_BLOCK_ITERS in *; lia|]. cbn [write_loop]. case_if.
  { eexists _, _, _, _, _, _. split; [done|]. split; [lia|]. rewrite Z.sub_diag. change (Z.to_nat 0) with 0%nat.
    rewrite take_0, app_nil_r. split; [by apply transfer_nil|lia]. }
  assert (∃ p1 w1 tr1 qt1 qr1, (if txr_full p then pump p w else Some (p, w)) = Some (p1, w1) ∧
    transfer p w qt qr tr1 p1 w1 qt1 qr1) as (p1 & w1 & tr1 & qt1 & qr1 & E1 & T1).
  { case_if; [|by exists p, w, [], qt, qr; split; [|apply transfer_nil]].
    destruct (pump_spec p w qt qr Hok) as (p1 & w1 & tr1 & qt1 & qr1 & _ & -> & T & _). eauto 10. }
  rewrite E1, obind_Some. pose proof (tf_ok _ _ _ _ _ _ _ _ _ T1) as Hok1.
  destruct (aget_is_Some data done) as [b Hb]; [lia|]. rewrite Hb, obind_Some.
  pose proof Hb as [_ Hb']%aget_Some.
  destruct (decide (length qt1 = 512)%nat) as [Hfull|Hroom].
  - rewrite (txr_push_full _ _ _ _ Hok1 Hfull), obind_Some. cbv iota.
    assert (∃ p' done' w' tr qt' qr', Some (p1, done, w1) = Some (p', done', w') ∧
      done ≤ done' ≤ len ∧ transfer p w (qt ++ take (Z.to_nat (done' - done)) (drop (Z.to_nat done) data))
        qr tr p' w' qt' qr' ∧ (done' < len → length qt' = 512%nat)) as Hstop.
    { eexists _, _, _, _, _, _. split; [done|]. split; [lia|]. rewrite Z.sub_diag. change (Z.to_nat 0) with 0%nat.
      rewrite take_0, app_nil_r. done. }
    case_if; [done|]. rewrite u32_small by (unfold SIO_BLOCK_ITERS in *; lia). case_if; [done|].
    destruct (IH p1 data len done (iters + 1) blocking w1 qt1 qr1)
      as (p' & done' & w' & tr & qt' & qr' & -> & Hd' & T & Hst); try done; try lia.
    eexists _, _, _, _, _, _. split; [done|]. split; [done|]. split; [|done].
    by eapply transfer_extend.
  - destruct (tx_count_eq _ _ _ Hok1) as [_ Hle].
    destruct (txr_push_ok p1 qt1 qr1 b Hok1) as (p2 & -> & Hok2 & Hg2).
    { by apply (Forall_lookup_1 (λ b, 0 ≤ b < 256) data (Z.to_nat done)). } { lia. }
    rewrite obind_Some. cbv iota. rewrite (u32_small (done + 1)) by lia.
    destruct (IH p2 data len (done + 1) iters blocking w1 (qt1 ++ [b]) qr1)
      as (p' & done' & w' & tr & qt' & qr' & -> & Hd' & T & Hst); try done; try lia.
    eexists _, _, _, _, _, _. split; [done|]. split; [lia|]. split; [|done].
    rewrite (take_drop_step data done done' b) by (done || lia).
    eapply transfer_extend; [exact T1|exact Hg2|]. by rewrite <-app_assoc in T.
Qed.

(** What [sio_write] does on an attached port. *)
Lemma write_spec p w qt qr data len written blocking :
  port_ok p qt qr → bytes_ok data → 0 ≤ len ≤ Z.of_nat (length data) → len < 2 ^ 32 →
  ∃ p' k w' tr qt' qr' st,
    sio_write (Some p) (Some data) len written blocking w =
      Some (Some p', (λ _, k) <$> written, w', st) ∧
    0 ≤ k ≤ len ∧ transfer p w (qt ++ take (Z.to_nat k) data) qr tr p' w' qt' qr' ∧
    (st = SIO_OK ∧ k = len ∨ st = SIO_ERR_TX_BACKPRESSURE ∧ k < len).
Proof.
  intros Hok Hd Hlen H32. unfold sio_write. rewrite (po_init _ _ _ Hok). cbn [negb].
  destruct (write_loop_spec (Z.to_nat (len + SIO_BLOCK_ITERS)) p data len 0 0 blocking w qt qr)
    as (p1 & k & w1 & tr1 & qt1 & qr1 & -> & Hk & T1 & _);
    [done|done|lia|lia|done|done|unfold SIO_BLOCK_ITERS; lia|].
  rewrite obind_Some, Z.sub_0_r, drop_0 in *. pose proof (tf_ok _ _ _ _ _ _ _ _ _ T1) as Hok1.
  destruct (pump_spec p1 w1 qt1 qr1 Hok1) as (p2 & w2 & tr2 & qt2 & qr2 & _ & -> & T2 & _).
  rewrite obind_Some. pose proof (transfer_trans _ _ _ _ _ _ _ _ _ _ _ _ _ _ T1 T2) as T.
  cbv zeta. case_if.
  - eexists _, k, _, _, _, _, _. split; [done|]. split; [lia|].
    split; [eapply transfer_same; [exact T|]|by right; split; [|lia]].
    split; [done|]. intros ? ? []. by split.
  - eexists _, k, _, _, _, _, _. split; [done|]. split; [lia|]. split; [exact T|by left].
Qed.

(** ** Reception *)
Lemma drain_loop_spec fuel : ∀ p data cap got qt qr,
  port_ok p qt qr → (length qr ≤ fuel)%nat → 0 ≤ got ≤ cap → cap ≤ Z.of_nat (length data) →
  cap < 2 ^ 32 →
  let n := Z.min (cap - got) (Z.of_nat (length qr)) in
  ∃ p', drain_loop fuel p data cap got =
      Some (p', take (Z.to_nat got) data ++ take (Z.to_nat n) qr ++ drop (Z.to_nat (got + n)) data,
            got + n) ∧
    port_ok p' qt (drop (Z.to_nat n) qr) ∧ geom p' = geom p.
Proof.
  induction fuel as [|fuel IH]; intros p data cap got qt qr Hok Hf Hgot Hcap H32 n; cbn [drain_loop];
    unfold rxr_count; destruct (rx_count_eq _ _ _ Hok) as [Ec _]; rewrite Ec.
  - destruct qr; simpl in Hf; [|lia]. change (0 <? Z.of_nat (length [])) with false.
    rewrite andb_false_r. cbn [negb]. assert (n = 0) as En by (unfold n; simpl; lia). rewrite En.
    exists p. rewrite Z.add_0_r. change (Z.to_nat 0) with 0%nat. simpl. by rewrite take_drop.
  - destruct ((got <? cap) && (0 <? Z.of_nat (length qr))) eqn:E; zbool; cbn [negb].
    + destruct qr as [|b qr]; simpl in *; [lia|].
      destruct (rxr_pop_ok p b qt qr Hok) as (p1 & -> & Hok1 & Hg1). rewrite obind_Some.
      rewrite aset_in, obind_Some by lia. rewrite u32_small by lia.
      destruct (IH p1 (<[Z.to_nat got := b]> data) cap (got + 1) qt qr)
        as (p' & -> & Hok' & Hg'); [done|lia|lia|by rewrite length_insert|done|].
      set (m := Z.min (cap - (got + 1)) (Z.of_nat (length qr))) in *.
      assert (n = m + 1) as En by (unfold n, m; simpl; lia). exists p'.
      rewrite En. replace (Z.to_nat (m + 1)) with (S (Z.to_nat m)) by lia.
      split_and!; [|done|congruence]. do 2 f_equal; [f_equal|lia].
      replace (Z.to_nat (got + 1)) with (S (Z.to_nat got)) by lia.
      rewrite (take_S_r _ _ b) by (apply list_lookup_insert_eq; lia).
      rewrite take_insert_ge by lia. rewrite drop_insert_lt by lia.
      rewrite <-app_assoc. simpl. do 4 f_equal. lia.
    + exists p. assert (n = 0) as En.
      { unfold n. apply andb_false_iff in E as [E|E]; zbool; lia. }
      rewrite En, Z.add_0_r. change (Z.to_nat 0) with 0%nat. simpl. by rewrite take_drop.
Qed.

(** The receive loop: everything the passes queued is delivered up to the
    capacity, and the rest stays queued. *)
Lemma read_loop_spec fuel : ∀ p data cap iters blocking w qt qr,
  port_ok p qt qr → 0 ≤ cap ≤ Z.of_nat (length data) → cap < 2 ^ 32 →
  0 ≤ iters < SIO_BLOCK_ITERS → SIO_BLOCK_ITERS - iters ≤ Z.of_nat fuel →
  ∃ p' w' tr pm qt' all, let k := Z.min cap (Z.of_nat (length all)) in
    read_loop fuel p data cap 0 iters blocking w =
      Some (p', take (Z.to_nat k) all ++ drop (Z.to_nat k) data, k, w') ∧
    transfer p w qt qr tr pm w' qt' all ∧
    port_ok p' qt' (drop (Z.to_nat k) all) ∧ geom p' = geom p.
Proof.
  induction fuel as [|fuel IH]; intros p data cap iters blocking w qt qr Hok Hcap H32 Hit Hf;
    [unfold SIO_BLOCK_ITERS in *; lia|]. cbn [read_loop]. case_if.
  { assert (cap = 0) as -> by lia. exists p, w, [], p, qt, qr.
    replace (Z.min 0 _) with 0 by lia. by split_and!; [|apply transfer_nil|..]. }
  destruct (pump_spec p w qt qr Hok) as (p1 & w1 & tr1 & qt1 & qr1 & _ & -> & T1 & _).
  rewrite obind_Some. pose proof (tf_ok _ _ _ _ _ _ _ _ _ T1) as Hok1.
  destruct (rx_count_eq _ _ _ Hok1) as [Ec Hle].
  destruct (drain_loop_spec (Z.to_nat (rxr_count p1)) p1 data cap 0 qt1 qr1)
    as (p2 & E2 & Hok2 & Hg2); [done|unfold rxr_count; lia|lia|lia|done|].
  rewrite E2, obind_Some. rewrite Z.sub_0_r, Z.add_0_l in *.
  set (k := Z.min cap (Z.of_nat (length qr1))) in *. change (Z.to_nat 0) with 0%nat. rewrite take_0. cbn [app].
  assert (geom p2 = geom p) as Hg by (rewrite Hg2; apply (tf_geom _ _ _ _ _ _ _ _ _ T1)).
  assert (∃ p' w' tr pm qt' all, let k0 := Z.min cap (Z.of_nat (length all)) in
    Some (p2, take (Z.to_nat k) qr1 ++ drop (Z.to_nat k) data, k, w1) =
      Some (p', take (Z.to_nat k0) all ++ drop (Z.to_nat k0) data, k0, w') ∧
    transfer p w qt qr tr pm w' qt' all ∧
    port_ok p' qt' (drop (Z.to_nat k0) all) ∧ geom p' = geom p) as Hstop.
  { eexists _, _, _, _, _, qr1. split; [done|]. split; [exact T1|]. by split. }
  destruct ((0 <? k) || negb blocking) eqn:Ek; [done|].
  apply orb_false_iff in Ek as [Ek%Z.ltb_ge _].
  rewrite u32_small by (unfold SIO_BLOCK_ITERS in *; lia). case_if; [done|]. clear Hstop.
  assert (length qr1 = 0%nat) as E0 by (unfold k in Ek; lia). destruct qr1; [|done].
  assert (k = 0) as -> by (unfold k; simpl; lia). change (Z.to_nat 0) with 0%nat in *. cbn [take app drop] in *.
  destruct (IH p2 data cap (iters + 1) blocking w1 qt1 [] Hok2)
    as (p' & w' & tr & pm & qt' & all & E & T & Hok' & Hg'); [done|done|lia|lia|].
  exists p', w', (tr1 ++ tr), pm, qt', all. split; [exact E|]. split_and!; [|done|congruence].
  rewrite <-(app_nil_r qt). eapply transfer_extend; [exact T1|exact Hg2|]. by rewrite app_nil_r.
Qed.

(** ** Draining the transmitter *)
Lemma flush_loop_spec fuel : ∀ p iters w qt qr,
  port_ok p qt qr → 0 ≤ iters < SIO_BLOCK_ITERS → SIO_BLOCK_ITERS - iters ≤ Z.of_nat fuel →
  ∃ p' w' tr qt' qr' st, flush_loop fuel p iters w = Some (p', w', st) ∧
    transfer p w qt qr tr p' w' qt' qr' ∧
    (st = SIO_OK ∧ qt' = [] ∧
       (∃ tr0 lsr, tr = tr0 ++ [ERead SIO_REG_LSR lsr] ∧ Z.land lsr SIO_LSR_TEMT ≠ 0) ∨
     st = SIO_ERR_BUSY).
Proof.
  induction fuel as [|fuel IH]; intros p iters w qt qr Hok Hit Hf;
    [unfold SIO_BLOCK_ITERS in *; lia|]. cbn [flush_loop].
  destruct (tx_count_eq _ _ _ Hok) as [Ec _].
  assert (∃ go w1 tr1, (if negb (txr_empty p) then (true, w)
      else let '(idle, w) := sio_txidle (Some p) w in (negb idle, w)) = (go, w1) ∧
    transfer p w qt qr tr1 p w1 qt qr ∧ (go = false → qt = [] ∧
      ∃ lsr, tr1 = [ERead SIO_REG_LSR lsr] ∧ Z.land lsr SIO_LSR_TEMT ≠ 0))
    as (go & w1 & tr1 & -> & T1 & Hgo).
  { unfold txr_empty. rewrite Ec. destruct qt as [|b qt].
    2:{ exists true, w, []. split_and!; [done|by apply transfer_nil|done]. }
    cbn [length Z.of_nat Z.eqb negb sio_txidle]. rewrite (po_init _ _ _ Hok). cbn [negb].
    destruct (reg_read p SIO_REG_LSR w) as [lsr w1] eqn:E.
    exists (negb (nz (Z.land lsr SIO_LSR_TEMT))), w1, [ERead SIO_REG_LSR lsr].
    split_and!; [done|by eapply transfer_poll|]. intros Hn. split; [done|]. exists lsr.
    split; [done|]. by zbool. }
  destruct go; cbn [negb].
  2:{ destruct (Hgo eq_refl) as (-> & lsr & -> & Hl). eexists _, _, _, _, _, _. split; [done|].
      split; [exact T1|]. left. split_and!; [done..|]. by exists [], lsr. }
  destruct (pump_spec p w1 qt qr Hok) as (p2 & w2 & tr2 & qt2 & qr2 & _ & -> & T2 & _).
  rewrite obind_Some. pose proof (tf_ok _ _ _ _ _ _ _ _ _ T2) as Hok2.
  pose proof (transfer_trans _ _ _ _ _ _ _ _ _ _ _ _ _ _ T1 T2) as T12.
  rewrite u32_small by (unfold SIO_BLOCK_ITERS in *; lia). case_if.
  { eexists _, _, _, _, _, _. split; [done|]. split; [exact T12|]. by right. }
  destruct (IH p2 (iters + 1) w2 qt2 qr2 Hok2)
    as (p' & w' & tr3 & qt' & qr' & st & -> & T3 & Hst); [lia|lia|].
  eexists _, _, _, _, _, _. split; [done|].
  split; [exact (transfer_trans _ _ _ _ _ _ _ _ _ _ _ _ _ _ T12 T3)|].
  destruct Hst as [(-> & -> & tr0 & lsr & -> & Hl)|?]; [left|by right].
  split_and!; [done..|]. exists ((tr1 ++ tr2) ++ tr0), lsr. by rewrite !app_assoc.
Qed.
End transfers.

(** ** Claims on transfers *)

(** [C33] [sio_write] returns for every UART behaviour, without undefined
    behaviour, and conserves bytes: what went out through the holding register
    followed by what is left in the transmit ring is the previous ring content
    followed by the accepted prefix of the data, in order.  It reports OK
    exactly when all of it was accepted; meanwhile received bytes are queued in
    order as far as the receive ring has room. *)
Theorem sio_write_conserves {W} (p : sio_port_t W) w qt qr data len blocking :
  port_ok p qt qr → bytes_ok data → 0 ≤ len ≤ Z.of_nat (length data) → len < 2 ^ 32 →
  ∃ p' k w' tr qt' qr' st,
    sio_write (Some p) (Some data) len (Some 0) blocking w = Some (Some p', Some k, w', st) ∧
    io_trace p w tr w' ∧ port_ok p' qt' qr' ∧ 0 ≤ k ≤ len ∧
    sent tr ++ qt' = qt ++ take (Z.to_nat k) data ∧
    qr' = take 256 (qr ++ received tr) ∧
    (st = SIO_OK ∧ k = len ∨ st = SIO_ERR_TX_BACKPRESSURE ∧ k < len).
Proof.
  intros Hok Hd Hlen H32.
  destruct (write_spec p w qt qr data len (Some 0) blocking Hok Hd Hlen H32)
    as (p' & k & w' & tr & qt' & qr' & st & E & Hk & [] & Hst).
  by exists p', k, w', tr, qt', qr', st.
Qed.

(** [sio_read] returns for every UART behaviour: it delivers, in order,
    the bytes that were queued and that its service passes received (those the
    256-byte ring could hold), as many as fit; the rest stays queued, the
    buffer beyond is untouched, and transmission goes on in order. *)
Theorem sio_read_delivers {W} (p : sio_port_t W) w qt qr data cap blocking :
  port_ok p qt qr → 0 ≤ cap ≤ Z.of_nat (length data) → cap < 2 ^ 32 →
  ∃ p' w' tr qt' all, let k := Z.min cap (Z.of_nat (length all)) in
    sio_read (Some p) (Some data) cap (Some 0) blocking w =
      Some (Some p', Some (take (Z.to_nat k) all ++ drop (Z.to_nat k) data), Some k, w', SIO_OK) ∧
    io_trace p w tr w' ∧ all = take 256 (qr ++ received tr) ∧
    sent tr ++ qt' = qt ∧ port_ok p' qt' (drop (Z.to_nat k) all).
Proof.
  intros Hok Hcap H32.
  destruct (read_loop_spec (Z.to_nat SIO_BLOCK_ITERS) p data cap 0 blocking w qt qr Hok)
    as (p' & w' & tr & pm & qt' & all & E & [] & Hok' & _); [done|done|done|unfold SIO_BLOCK_ITERS; lia|].
  exists p', w', tr, qt', all. split_and!; try done.
  unfold sio_read. rewrite (po_init _ _ _ Hok). cbn [negb]. by rewrite E, obind_Some.
Qed.

(** [C37] [sio_flush] returns for every UART behaviour, with OK or BUSY; OK
    means that the whole transmit ring went out in order and that the line
    reported an empty shift register last. *)
Theorem sio_flush_drains {W} (p : sio_port_t W) w qt qr :
  port_ok p qt qr →
  ∃ p' w' tr qt' qr' st, sio_flush (Some p) w = Some (Some p', w', st) ∧
    io_trace p w tr w' ∧ port_ok p' qt' qr' ∧ sent tr ++ qt' = qt ∧
    (st = SIO_OK ∧ sent tr = qt ∧
       (∃ tr0 lsr, tr = tr0 ++ [ERead SIO_REG_LSR lsr] ∧ Z.land lsr SIO_LSR_TEMT ≠ 0) ∨
     st = SIO_ERR_BUSY).
Proof.
  intros Hok.
  destruct (flush_loop_spec (Z.to_nat SIO_BLOCK_ITERS) p 0 w qt qr Hok)
    as (p' & w' & tr & qt' & qr' & st & E & [T G O S R] & Hst); [done|unfold SIO_BLOCK_ITERS; lia|].
  exists p', w', tr, qt', qr', st. split_and!; try done.
  - unfold sio_flush. rewrite (po_init _ _ _ Hok). cbn [negb]. by rewrite E, obind_Some.
  - destruct Hst as [(? & -> & ?)|?]; [left|by right]. rewrite app_nil_r in S. by split_and!.
Qed.

(** A UART whose state is the bytes waiting on the line: always ready to
    send, data ready while bytes wait. *)
Definition line_uart : sio_io_t (list Z) :=
  mk_io
    (Some (λ _ a w, if a =? 0x3F8 then (default 0 (head w), tail w)
                    else if a =? 0x3FD then (match w with [] => 0x60 | _ => 0x61 end, w)
                    else (0, w)))
    (Some (λ _ _ _ w, w)) 0.

Definition fresh_port : sio_port_t (list Z) :=
  mk_port line_uart 0x3F8 0 0 1843200 1 3 0 false false true (replicate 512 0) 0 0 0
    (replicate 256 0) 0 0 0 0 0 false 0 0 0 0 0.

Lemma fresh_port_ok : port_ok fresh_port [] [].
Proof. split; try done; try constructor; try done; by apply ring_empty. Qed.

Lemma sio_write_conserves_witness :
  ∃ p' k w' tr qt' qr' st,
    sio_write (Some fresh_port) (Some [72; 105]) 2 (Some 0) true [7] =
      Some (Some p', Some k, w', st) ∧
    io_trace fresh_port [7] tr w' ∧ sent tr ++ qt' = take (Z.to_nat k) [72; 105] ∧
    qr' = take 256 (received tr).
Proof.
  destruct (sio_write_conserves fresh_port [7] [] [] [72; 105] 2 true fresh_port_ok)
    as (p' & k & w' & tr & qt' & qr' & st & E & T & _ & _ & S & R & _);
    [by repeat constructor|simpl; lia|done|]. exists p', k, w', tr, qt', qr', st. exact (conj E (conj T (conj S R))).
Defined.

Lemma sio_read_delivers_witness :
  ∃ p' w' tr all, let k := Z.min 3 (Z.of_nat (length all)) in
    sio_read (Some fresh_port) (Some [0; 0; 0]) 3 (Some 0) false [7; 8] =
      Some (Some p', Some (take (Z.to_nat k) all ++ drop (Z.to_nat k) [0; 0; 0]), Some k, w', SIO_OK) ∧
    io_trace fresh_port [7; 8] tr w' ∧ all = take 256 (received tr).
Proof.
  destruct (sio_read_delivers fresh_port [7; 8] [] [] [0; 0; 0] 3 false fresh_port_ok)
    as (p' & w' & tr & qt' & all & E & T & A & _); [simpl; lia|done|]. exists p', w', tr, all. exact (conj E (conj T A)).
Defined.

(** The port with two bytes in its transmit ring. *)
Definition loaded_port : sio_port_t (list Z) :=
  mk_port line_uart 0x3F8 0 0 1843200 1 3 0 false false true ([72; 105] ++ replicate 510 0) 2 0 2
    (replicate 256 0) 0 0 0 0 0 false 0 0 0 0 0.

Lemma loaded_port_ok : port_ok loaded_port [72; 105] [].
Proof.
  split; [done| |by apply ring_empty|by repeat constructor|constructor]. split; try done.
  intros k Hk. change (0 ≤ k < 2) in Hk. assert (k = 0 ∨ k = 1) as [-> | ->] by lia; reflexivity.
Qed.

Lemma sio_flush_drains_witness :
  ∃ p' w' tr, sio_flush (Some loaded_port) [] = Some (Some p', w', SIO_OK) ∧
    io_trace loaded_port [] tr w' ∧ sent tr = [72; 105].
Proof.
  destruct (sio_flush_drains loaded_port [] [72; 105] [] loaded_port_ok)
    as (p' & w' & tr & qt' & qr' & st & E & T & _ & _ & H).
  assert (snd <$> sio_flush (Some loaded_port) [] = Some SIO_OK) as Ev by (vm_compute; reflexivity).
  rewrite E in Ev. injection Ev as ->. destruct H as [(_ & Hs & _)|H]; [|discriminate H].
  exists p', w', tr. exact (conj E (conj T Hs)).
Defined.
