(* ===== verification/SioLine.v ===== *)
(** Line programming of the serial driver: divisor arithmetic, the register
    protocol of attach and configure, the text path, and its limits. *)
From S2P Require Import Prelude Sutf8 Sio SioRing SioSpec.

(** ** Divisor *)

(** The divisor nearest to [clock / (16 * baud)]. *)
Definition nearest_divisor (clock baud : Z) : Z := (clock + 8 * baud) / (16 * baud).

Lemma nearest_divisor_error clock baud :
  0 < baud → Z.abs (16 * baud * nearest_divisor clock baud - clock) ≤ 8 * baud.
Proof.
  intros Hb. unfold nearest_divisor.
  pose proof (Z.div_mod (clock + 8 * baud) (16 * baud) ltac:(lia)).
  pose proof (Z.mod_pos_bound (clock + 8 * baud) (16 * baud) ltac:(lia)). lia.
Qed.

Lemma divisor_for_baud_spec clock baud :
  0 ≤ clock ≤ 2 ^ 24 → 0 < baud < 2 ^ 28 →
  divisor_for_baud clock baud = Some (nearest_divisor clock baud).
Proof.
  intros Hc Hb. unfold divisor_for_baud. simpl in Hc, Hb.
  rewrite (proj2 (Z.eqb_neq baud 0)) by lia. cbv zeta.
  rewrite (u32_small (baud * 8)) by lia. rewrite (u32_small (clock + _)) by lia.
  rewrite (u32_small (baud * 16)) by lia. rewrite (proj2 (Z.eqb_neq (baud * 16) 0)) by lia.
  unfold nearest_divisor. do 2 f_equal; lia.
Qed.

(** The bytes of a 16-bit divisor. *)
Lemma divisor_bytes d :
  0 ≤ d ≤ 0xFFFF → u8 (Z.land d 0xFF) = d mod 256 ∧
    u8 (Z.land (Z.shiftr d 8) 0xFF) = d / 256.
Proof.
  intros Hd. change 0xFF with (Z.ones 8). rewrite !Z.land_ones, Z.shiftr_div_pow2 by lia.
  change (2 ^ 8) with 256. split; [apply u8_small, Z.mod_pos_bound; lia|].
  rewrite (Z.mod_small (d / 256)) by zdm. apply u8_small. zdm.
Qed.

(** The accesses that program divisor [d] when the line control register
    reads [v]. *)
Definition divisor_trace (v d : Z) : list event :=
  [ERead SIO_REG_LCR v; EWrite SIO_REG_LCR (u8 (Z.lor v SIO_LCR_DLAB));
   EWrite SIO_REG_DLL (d mod 256); EWrite SIO_REG_DLM (d / 256); EWrite SIO_REG_LCR v].

Definition modem_byte (loop : bool) : Z := if loop then 0x1B else 0x0B.

Section line.
Context {W : Type}.
Implicit Types (p : sio_port_t W) (w : W) (qt qr : list Z).

Lemma io_trace_write p w reg v x tr w2 :
  u8 v = x → io_trace p (reg_write p reg v w) tr w2 → io_trace p w (EWrite reg x :: tr) w2.
Proof. intros <-. apply tr_write. Qed.

Lemma program_divisor_spec p baud w d :
  divisor_for_baud (sp_clock_hz p) baud = Some d → 0 ≤ d →
  (d = 0 ∨ 0xFFFF < d) ∧ program_divisor p baud w = Some (p, w, SIO_ERR_LINE_COLLISION) ∨
  1 ≤ d ≤ 0xFFFF ∧ ∃ v w', 0 ≤ v < 256 ∧
    program_divisor p baud w = Some (p <| sp_divisor := d |>, w', SIO_OK) ∧
    io_trace p w (divisor_trace v d) w'.
Proof.
  intros Hd Hd0. unfold program_divisor. rewrite Hd, obind_Some.
  destruct ((d =? 0) || (0xFFFF <? d)) eqn:E.
  { left. split; [|done]. apply orb_true_iff in E as [E|E]; [left|right]; by zbool. }
  right. zbool. split; [lia|]. destruct (reg_read p SIO_REG_LCR w) as [v w1] eqn:Er.
  pose proof (reg_read_byte _ _ _ _ _ Er). destruct (divisor_bytes d) as [B1 B2]; [lia|].
  exists v. eexists. split; [lia|]. split; [done|]. unfold divisor_trace.
  eapply tr_read; [exact Er|]. eapply io_trace_write; [done|].
  eapply io_trace_write; [done|]. eapply io_trace_write; [done|].
  eapply io_trace_write; [by apply u8_small; lia|]. constructor.
Qed.

(** The end of attach and configure. *)
Lemma finish_line_spec p cfg loop w :
  0 ≤ cfg < 256 → io_trace p w [EWrite SIO_REG_LCR cfg; EWrite SIO_REG_MCR (modem_byte loop)]
    (snd (assert_modem_lines p loop (reg_write p SIO_REG_LCR cfg w))).
Proof.
  intros Hc. eapply io_trace_write; [by apply u8_small|]. unfold assert_modem_lines. cbn [snd].
  eapply (io_trace_write _ _ _ (modem_byte loop)); [by destruct loop|]. destruct loop; constructor.
Qed.
End line.

(** Configuring an attached port for a baud rate below 2^28 either
    programs the divisor nearest to [clock / (16 * baud)] with the 16550
    protocol (set DLAB, low byte, high byte, clear DLAB, line control, modem
    control) and keeps both rings, or, when no 16-bit divisor fits, reports
    LINE_COLLISION and touches neither the port nor the UART. *)
Theorem sio_configure_programs {W} (p : sio_port_t W) w qt qr baud cfg :
  port_ok p qt qr → 0 ≤ sp_clock_hz p ≤ 2 ^ 24 → 0 < baud < 2 ^ 28 →
  0 ≤ cfg < 256 → Z.land cfg 0xC0 = 0 →
  let d := nearest_divisor (sp_clock_hz p) baud in
  Z.abs (16 * baud * d - sp_clock_hz p) ≤ 8 * baud ∧
  ((d = 0 ∨ 0xFFFF < d) ∧
     sio_configure (Some p) baud cfg w = Some (Some p, w, SIO_ERR_LINE_COLLISION) ∨
   1 ≤ d ≤ 0xFFFF ∧ ∃ p' v w',
     sio_configure (Some p) baud cfg w = Some (Some p', w', SIO_OK) ∧
     io_trace p w (divisor_trace v d ++
       [EWrite SIO_REG_LCR cfg; EWrite SIO_REG_MCR (modem_byte (sp_loopback p))]) w' ∧
     port_ok p' qt qr ∧ sp_divisor p' = d ∧ sp_line_cfg p' = cfg).
Proof.
  intros Hok Hc Hb Hcfg Hl d. split; [apply nearest_divisor_error; lia|].
  unfold sio_configure. rewrite (po_init _ _ _ Hok), Hl. cbn [negb]. change (nz 0) with false. cbv iota.
  destruct (program_divisor_spec p baud w d) as [[H E]|(H & v & w1 & Hv & E & T)].
  { by apply divisor_for_baud_spec. }
  { apply Z.div_pos; lia. }
  - left. split; [done|]. by rewrite E, obind_Some.
  - right. split; [done|]. rewrite E, obind_Some. cbn [negb Z.eqb SIO_OK]. cbv zeta iota.
    set (p1 := p <| sp_divisor := d |> <| sp_line_cfg := cfg |>).
    pose proof (finish_line_spec p1 cfg (sp_loopback p1) w1 Hcfg) as T2.
    destruct (assert_modem_lines p1 (sp_loopback p1) (reg_write p1 SIO_REG_LCR cfg w1)) as [p2 w2] eqn:E2.
    exists p2, v, w2. split; [done|]. unfold assert_modem_lines in E2. injection E2 as <- Ew.
    split; [|by destruct Hok]. eapply io_trace_app; [done|]. by eapply (io_trace_geom p1).
Qed.

Lemma sio_configure_programs_witness :
  Z.abs (16 * 9600 * 12 - 1843200) ≤ 8 * 9600 ∧
  ∃ p' w', sio_configure (Some fresh_port) 9600 3 [] = Some (Some p', w', SIO_OK) ∧ sp_divisor p' = 12.
Proof.
  destruct (sio_configure_programs fresh_port [] [] [] 9600 3 fresh_port_ok)
    as [H1 [[H2 _]|(_ & p' & v & w' & E & _ & _ & D & _)]]; [simpl; lia|lia|lia|done| |].
  - exfalso. vm_compute in H2. by destruct H2.
  - split; [exact H1|]. exists p', w'. exact (conj E D).
Defined.

(** ** Attach *)

(** The port [sio_attach] starts from. *)
Definition attach_port {W} (p : sio_port_t W) (io : sio_io_t W) (base clock_hz irq : Z) : sio_port_t W :=
  mk_port io base 0 irq clock_hz 0 3 0 false false true (tx_ring p) 0 0 0 (rx_ring p) 0 0 0
    0 0 false 0 0 0 0 0.

Lemma attach_port_ok {W} (p : sio_port_t W) io base clock_hz irq :
  length (tx_ring p) = 512%nat → length (rx_ring p) = 256%nat →
  port_ok (attach_port p io base clock_hz irq) [] [].
Proof.
  intros Ht Hr. split; try done; try constructor; try done;
    unfold SIO_TX_RING_SIZE, SIO_RX_RING_SIZE; simpl; try lia.
Qed.

(** Attaching a UART whose clock can make 115200 baud programs that
    rate, 8N1 and the modem lines, and leaves an initialised port with both
    rings empty. *)
Theorem sio_attach_programs {W} (p : sio_port_t W) (io : sio_io_t W) base clock_hz irq w :
  length (tx_ring p) = 512%nat → length (rx_ring p) = 256%nat →
  921600 ≤ clock_hz ≤ 0x01000000 →
  let d := nearest_divisor clock_hz 115200 in
  ∃ p' v w', sio_attach (Some p) (Some io) base clock_hz irq w = Some (Some p', w', SIO_OK) ∧
    io_trace p' w (divisor_trace v d ++ [EWrite SIO_REG_LCR 3; EWrite SIO_REG_MCR 0x0B]) w' ∧
    port_ok p' [] [] ∧ sp_divisor p' = d ∧ sp_io p' = io ∧ sp_base p' = base.
Proof.
  intros Ht Hr Hc d. pose proof (attach_port_ok p io base clock_hz irq Ht Hr) as Hok.
  set (p0 := attach_port p io base clock_hz irq) in *.
  unfold sio_attach. rewrite (proj2 (Z.eqb_neq clock_hz 0)), (proj2 (Z.ltb_ge _ clock_hz)) by lia.
  cbn [orb]. cbv zeta. change (mk_port io base _ _ _ _ _ _ _ _ _ _ _ _ _ _ _ _ _ _ _ _ _ _ _ _ _) with p0.
  assert (1 ≤ d ≤ 9) as Hd.
  { unfold d, nearest_divisor. split; [apply Z.div_le_lower_bound|apply Z.lt_succ_r, Z.div_lt_upper_bound]; lia. }
  destruct (program_divisor_spec p0 115200 w d) as [[H _]|(_ & v & w1 & Hv & E & T)].
  { apply divisor_for_baud_spec; simpl; lia. } { lia. } { lia. }
  rewrite E, obind_Some. cbn [negb Z.eqb SIO_OK]. cbv iota zeta.
  set (p1 := p0 <| sp_divisor := d |>).
  pose proof (finish_line_spec p1 3 false w1 ltac:(lia)) as T2.
  change (sp_line_cfg p1) with 3.
  destruct (assert_modem_lines p1 false (reg_write p1 SIO_REG_LCR 3 w1)) as [p2 w2] eqn:E2.
  exists p2, v, w2. split; [done|]. unfold assert_modem_lines in E2. injection E2 as <- Ew.
  split; [|split_and!; try done; by destruct Hok].
  eapply (io_trace_geom p0); [done|]. eapply io_trace_app; [done|]. by eapply (io_trace_geom p1).
Qed.

Lemma sio_attach_programs_witness :
  ∃ p' w', sio_attach (Some fresh_port) (Some line_uart) 0x3F8 1843200 4 [] =
    Some (Some p', w', SIO_OK) ∧ sp_divisor p' = 1.
Proof.
  destruct (sio_attach_programs fresh_port line_uart 0x3F8 1843200 4 [])
    as (p' & v & w' & E & _ & _ & D & _); [done|done|lia|]. exists p', w'. exact (conj E D).
Defined.

(** A failed attach leaves the port attached: when the clock cannot make
    115200 baud, [sio_attach] reports LINE_COLLISION but has already marked the
    port initialised, so every later operation accepts it. *)
Theorem sio_attach_failure_initialized {W} (p : sio_port_t W) (io : sio_io_t W) base clock_hz irq w :
  length (tx_ring p) = 512%nat → length (rx_ring p) = 256%nat →
  0 < clock_hz < 921600 →
  ∃ p', sio_attach (Some p) (Some io) base clock_hz irq w =
      Some (Some p', w, SIO_ERR_LINE_COLLISION) ∧
    sp_initialized p' = true ∧ sp_divisor p' = 0 ∧ port_ok p' [] [].
Proof.
  intros Ht Hr Hc. pose proof (attach_port_ok p io base clock_hz irq Ht Hr) as Hok.
  set (p0 := attach_port p io base clock_hz irq) in *.
  unfold sio_attach. rewrite (proj2 (Z.eqb_neq clock_hz 0)), (proj2 (Z.ltb_ge _ clock_hz)) by lia.
  cbn [orb]. cbv zeta. change (mk_port io base _ _ _ _ _ _ _ _ _ _ _ _ _ _ _ _ _ _ _ _ _ _ _ _ _) with p0.
  assert (nearest_divisor clock_hz 115200 = 0) as Hd by (apply Z.div_small; lia).
  destruct (program_divisor_spec p0 115200 w 0) as [[_ E]|[H _]]; [|done| |lia].
  { rewrite <-Hd. apply divisor_for_baud_spec; simpl; lia. }
  rewrite E, obind_Some. by exists p0.
Qed.

Lemma sio_attach_failure_initialized_witness :
  ∃ p', sio_attach (Some fresh_port) (Some line_uart) 0x3F8 32768 4 [] =
    Some (Some p', [], SIO_ERR_LINE_COLLISION) ∧ sp_initialized p' = true.
Proof.
  destruct (sio_attach_failure_initialized fresh_port line_uart 0x3F8 32768 4 [])
    as (p' & E & I & _); [done|done|lia|]. exists p'. exact (conj E I).
Defined.

(** The divisor arithmetic wraps: for every non-zero multiple of 2^28
    that a caller passes as baud rate, [baud * 16] is 0 in 32 bits and
    configuring an attached port divides by zero. *)
Theorem sio_configure_baud_ub {W} (p : sio_port_t W) w m cfg :
  sp_initialized p = true → 1 ≤ m ≤ 15 → Z.land cfg 0xC0 = 0 →
  sio_configure (Some p) (m * 0x10000000) cfg w = UB.
Proof.
  intros Hi Hm Hl. unfold sio_configure. rewrite Hi, Hl. cbn [negb]. change (nz 0) with false. cbv iota.
  unfold program_divisor, divisor_for_baud. rewrite (proj2 (Z.eqb_neq _ 0)) by lia. cbv zeta.
  assert (u32 (m * 0x10000000 * 16) = 0) as ->; [|done].
  unfold u32, wrap. replace (m * 0x10000000 * 16) with (m * 2 ^ 32) by lia. by apply Z_mod_mult.
Qed.

Lemma sio_configure_baud_ub_witness :
  sio_configure (Some fresh_port) 0x30000000 3 [] = UB.
Proof. apply (sio_configure_baud_ub fresh_port [] 3 3); [done|lia|done]. Defined.

(** ** Text *)
Definition sutf8_text (cps : list Z) : list Z := concat (map sutf8_ref_encode cps).

(** A printable code point: valid and not the terminator. *)
Definition cp_ok (cp : Z) : Prop := 0 < cp ∧ sucs_is_valid cp = true.

Lemma sutf8_ref_encode_shape cp : cp_ok cp →
  ∃ b bs, sutf8_ref_encode cp = b :: bs ∧ b ≠ 0 ∧ bytes_ok (b :: bs) ∧
    (length (b :: bs) ≤ 6)%nat.
Proof.
  intros [Hcp Hv]. pose proof (proj1 (sucs_is_valid_iff cp ltac:(lia)) Hv) as Hlt.
  unfold SUCS_TRAP_RANGE_MIN in Hlt. unfold sutf8_ref_encode, bytes_ok.
  repeat case_match; zbool; eexists _, _; (split; [done|]); (split; [try zdm|]);
    (split; [|simpl; lia]); repeat (apply Forall_cons; split); try apply Forall_nil; zdm.
Qed.

Lemma sutf8_text_bytes cps : Forall cp_ok cps → bytes_ok (sutf8_text cps).
Proof.
  induction 1 as [|cp cps Hcp _ IH]; [constructor|]. apply Forall_app. split; [|done].
  by destruct (sutf8_ref_encode_shape cp Hcp) as (b & bs & -> & _ & H & _).
Qed.

Section text.
Context {W : Type}.
Implicit Types (p : sio_port_t W) (w : W) (qt qr : list Z).

(** One code point of a text: the walk finds exactly its form. *)
Lemma next_codepoint_text cp rest :
  cp_ok cp →
  sutf8_next_codepoint (Some (sutf8_ref_encode cp ++ rest)) 6 (Some 0) =
    Some (Z.of_nat (length (sutf8_ref_encode cp)), Some cp).
Proof.
  intros Hcp. destruct (sutf8_ref_encode_shape cp Hcp) as (b & bs & E & Hb & _ & Hlen).
  destruct Hcp as [Hp Hv]. unfold sutf8_next_codepoint. cbn [Z.eqb].
  replace (aget (sutf8_ref_encode cp ++ rest) 0) with (Some b) by (by rewrite E).
  rewrite obind_Some, (proj2 (Z.eqb_neq b 0)) by done. unfold sutf8_decode_char.
  rewrite sutf8_decode_ref_encode, !obind_Some by (try done; rewrite ?E; lia).
  by rewrite E.
Qed.

Lemma puts_loop_spec cps : ∀ fuel p w qt qr rest,
  port_ok p qt qr → Forall cp_ok cps → bytes_ok rest → (length (sutf8_text cps) ≤ fuel)%nat →
  let s := sutf8_text cps in
  ∃ p' w' tr qt' qr' st k, puts_loop fuel (Some p) (s ++ 0 :: rest) w = Some (Some p', w', st) ∧
    transfer p w (qt ++ take k s) qr tr p' w' qt' qr' ∧
    (st = SIO_OK ∧ k = length s ∨ st = SIO_ERR_TX_BACKPRESSURE ∧ (k < length s)%nat).
Proof.
  induction cps as [|cp cps IH]; intros fuel p w qt qr rest Hok Hcps Hrest Hf s.
  { exists p, w, [], qt, qr, SIO_OK, 0%nat. unfold s. simpl. rewrite app_nil_r.
    split; [by destruct fuel|]. split; [by apply transfer_nil|by left]. }
  inversion Hcps as [|? ? Hcp Hcps']; subst.
  destruct (sutf8_ref_encode_shape cp Hcp) as (b & bs & E & Hb & Hbytes & Hlen).
  set (e := sutf8_ref_encode cp) in *.
  change s with (e ++ sutf8_text cps). rewrite <-app_assoc.
  change (sutf8_text (cp :: cps)) with (e ++ sutf8_text cps) in Hf. rewrite length_app in Hf.
  assert (length e = length (b :: bs)) as El by (by rewrite E). cbn [length] in El.
  destruct fuel as [|fuel]; [lia|]. cbn [puts_loop].
  replace (aget (e ++ sutf8_text cps ++ 0 :: rest) 0) with (Some b) by (by rewrite E).
  rewrite obind_Some, (proj2 (Z.eqb_neq b 0)) by done.
  pose proof (next_codepoint_text cp (sutf8_text cps ++ 0 :: rest) Hcp) as En.
  fold e in En. rewrite En, obind_Some.
  rewrite (proj2 (Z.eqb_neq (Z.of_nat _) 0)) by lia. cbn [default from_option].
  destruct Hcp as [Hp Hv].
  assert (cp ≠ SUCS_INVALID_CODEPOINT) as Hne by (by intros ->).
  apply Z.eqb_neq in Hne. unfold id. rewrite Hne. cbn [negb].
  cbn [length] in Hlen. rewrite u32_small by lia.
  set (t := sutf8_text cps ++ 0 :: rest).
  assert (bytes_ok (e ++ t)) as Ht.
  { apply Forall_app. split; [by rewrite E|]. apply Forall_app.
    split; [by apply sutf8_text_bytes|]. by constructor. }
  destruct (write_spec p w qt qr (e ++ t) (Z.of_nat (length e)) (Some 0) true Hok Ht)
    as (p1 & k & w1 & tr1 & qt1 & qr1 & st & E1 & Hk & T1 & Hst); [rewrite length_app; lia|lia|].
  rewrite take_app_le in T1 by lia.
  rewrite E1, obind_Some. rewrite Nat2Z.id, drop_app_length.
  destruct Hst as [[-> ->]|[-> Hlt]]; cbn [negb Z.eqb SIO_OK].
  2:{ eexists _, _, _, _, _, _, (Z.to_nat k). split; [done|]. rewrite take_app_le by lia.
      split; [exact T1|]. right. split; [done|]. rewrite length_app. lia. }
  rewrite Nat2Z.id, take_ge in T1 by lia.
  destruct (IH fuel p1 w1 qt1 qr1 rest (tf_ok _ _ _ _ _ _ _ _ _ T1) Hcps' Hrest)
    as (p' & w' & tr & qt' & qr' & st & k & E2 & T2 & Hst); [lia|].
  unfold t. rewrite E2. eexists _, _, _, _, _, _, (length e + k)%nat. split; [done|].
  rewrite take_app_add', app_assoc by done.
  split; [eapply transfer_extend; [exact T1|done|exact T2]|].
  rewrite length_app. destruct Hst as [[? ?]|[? ?]]; [left|right]; (split; [done|lia]).
Qed.
End text.

(** A text of valid code points is transmitted byte for byte: the bytes
    sent, followed by the ring, are the previous ring content followed by the
    text; the call returns for every UART behaviour, and when the line stalls
    it reports backpressure after a prefix of the text. *)
Theorem sio_puts_sucs_transmits {W} (p : sio_port_t W) w qt qr cps rest :
  port_ok p qt qr → Forall cp_ok cps → bytes_ok rest →
  let s := sutf8_text cps in
  ∃ p' w' tr qt' qr' st k,
    sio_puts_sucs (Some p) (Some (s ++ 0 :: rest)) w = Some (Some p', w', st) ∧
    io_trace p w tr w' ∧ port_ok p' qt' qr' ∧ sent tr ++ qt' = qt ++ take k s ∧
    (st = SIO_OK ∧ k = length s ∨ st = SIO_ERR_TX_BACKPRESSURE ∧ (k < length s)%nat).
Proof.
  intros Hok Hcps Hrest s. unfold sio_puts_sucs.
  destruct (puts_loop_spec cps (length (s ++ 0 :: rest)) p w qt qr rest Hok Hcps Hrest)
    as (p' & w' & tr & qt' & qr' & st & k & E & [] & Hst); [rewrite length_app; unfold s; lia|].
  by exists p', w', tr, qt', qr', st, k.
Qed.

Lemma sio_puts_sucs_transmits_witness :
  ∃ p' w' tr qt' st k,
    sio_puts_sucs (Some fresh_port) (Some (sutf8_text [72; 0xE9; 0x20AC] ++ [0])) [] =
      Some (Some p', w', st) ∧
    io_trace fresh_port [] tr w' ∧ sent tr ++ qt' = take k (sutf8_text [72; 0xE9; 0x20AC]).
Proof.
  destruct (sio_puts_sucs_transmits fresh_port [] [] [] [72; 0xE9; 0x20AC] [] fresh_port_ok)
    as (p' & w' & tr & qt' & qr' & st & k & E & T & _ & S & _);
    [by repeat constructor|constructor|].
  exists p', w', tr, qt', st, k. exact (conj E (conj T S)).
Defined.
