(* ===== verification/Owrp.v ===== *)
(** The ring portal, [DLL/owrp/owrp.h] and [owrp.c]: the gate table, the
    guarded system call, ring and boot-phase state, the circular call log and
    the statistics, one definition per C function.

    The [syscall] instruction is the boundary to the kernel: a parameter that
    maps the argument registers and the world behind the gate to the two result
    registers and the new world. *)
From S2P Require Import Prelude.

(** ** Constants *)
Definition OWRP_SYS_SIO_WRITE : Z := 0x070.
Definition OWRP_SYS_SIO_READ : Z := 0x071.
Definition OWRP_SYS_SIO_IDLE : Z := 0x072.

Definition OWRP_OK : Z := 0.
Definition OWRP_ERR_INVALID_SYSCALL : Z := 0x0011A000.
Definition OWRP_ERR_PRIVILEGE : Z := 0x0011A001.
Definition OWRP_ERR_INVALID_ARG : Z := 0x0011A002.
Definition OWRP_ERR_UNMAPPED : Z := 0x0011A003.

Definition OWRP_GATE_NAME_MAX : Z := 32.
Definition OWRP_GATE_FLAG_ACTIVE : Z := 0x01.
Definition OWRP_GATE_FLAG_KERNEL : Z := 0x02.
Definition OWRP_GATE_FLAG_BOOT : Z := 0x04.
Definition OWRP_MAX_GATES : Z := 128.
Definition OWRP_CALL_LOG_SIZE : Z := 32.

(** ** Data *)
Record owrp_gate_result_t := mk_result {
  gr_value : Z;                 (* int64_t *)
  gr_error : Z;                 (* int64_t *)
  gr_r8 : Z;                    (* uint64_t *)
  gr_r9 : Z                     (* uint64_t *)
}.

Record owrp_gate_entry_t := mk_gate {
  ge_syscall_nr : Z;            (* uint32_t *)
  ge_required_ring : Z;         (* uint16_t *)
  ge_param_count : Z;           (* uint8_t *)
  ge_flags : Z;                 (* uint8_t *)
  ge_name : list Z              (* char[OWRP_GATE_NAME_MAX] *)
}.
#[export] Instance eta_gate : Eta owrp_gate_entry_t := λ e,
  mk_gate (ge_syscall_nr e) (ge_required_ring e) (ge_param_count e) (ge_flags e) (ge_name e).

(** An element of [call_log]. *)
Record call_log_entry := mk_call {
  cl_timestamp : Z;             (* uint64_t *)
  cl_syscall_nr : Z;            (* uint32_t *)
  cl_result : Z;                (* int64_t *)
  cl_error : Z                  (* int64_t *)
}.

Record owrp_context_t := mk_owrp {
  ow_gates : list owrp_gate_entry_t;     (* [OWRP_MAX_GATES] *)
  ow_gate_count : Z;                     (* uint32_t *)
  ow_call_log : list call_log_entry;     (* [OWRP_CALL_LOG_SIZE] *)
  ow_log_head : Z;                       (* uint32_t *)
  ow_log_count : Z;                      (* uint32_t *)
  ow_total_calls : Z;                    (* uint64_t *)
  ow_total_errors : Z;                   (* uint64_t *)
  ow_total_privilege_denials : Z;        (* uint64_t *)
  ow_initialized : bool;
  ow_current_ring : Z;                   (* uint8_t *)
  ow_boot_phase : Z                      (* uint8_t *)
}.
#[export] Instance eta_owrp : Eta owrp_context_t := λ c,
  mk_owrp (ow_gates c) (ow_gate_count c) (ow_call_log c) (ow_log_head c) (ow_log_count c)
    (ow_total_calls c) (ow_total_errors c) (ow_total_privilege_denials c)
    (ow_initialized c) (ow_current_ring c) (ow_boot_phase c).

(** Zero-filled objects. *)
Definition zero_gate : owrp_gate_entry_t :=
  mk_gate 0 0 0 0 (replicate (Z.to_nat OWRP_GATE_NAME_MAX) 0).
Definition zero_call_log : list call_log_entry :=
  replicate (Z.to_nat OWRP_CALL_LOG_SIZE) (mk_call 0 0 0 0).
Definition zero_owrp : owrp_context_t :=
  mk_owrp (replicate (Z.to_nat OWRP_MAX_GATES) zero_gate) 0 zero_call_log 0 0 0 0 0 false 0 0.

(** The value of a [uint64_t] converted to [int64_t]. *)
Definition s64 (z : Z) : Z := if u64 z <? 2 ^ 63 then u64 z else u64 z - 2 ^ 64.

(** ** Call log *)
Definition owrp_log_call (c : owrp_context_t) (syscall_nr result_val result_err : Z)
    : option owrp_context_t :=
  log ← aset (ow_call_log c) (ow_log_head c) (mk_call 0 syscall_nr result_val result_err);
  Some (c <| ow_call_log := log |>
          <| ow_log_head := u32 (ow_log_head c + 1) mod OWRP_CALL_LOG_SIZE |>
          <| ow_log_count := if ow_log_count c <? OWRP_CALL_LOG_SIZE
                             then u32 (ow_log_count c + 1) else ow_log_count c |>).

(** ** Lifecycle *)
Definition owrp_init (ctx : ptr owrp_context_t) : ptr owrp_context_t * Z :=
  match ctx with
  | None => (ctx, OWRP_ERR_INVALID_ARG)
  | Some _ =>
      (Some (zero_owrp <| ow_initialized := true |> <| ow_current_ring := 3 |>
                       <| ow_boot_phase := 0 |>), OWRP_OK)
  end.

(** ** The gate table *)
Definition gate_matches (syscall_nr : Z) (e : owrp_gate_entry_t) : bool :=
  (ge_syscall_nr e =? syscall_nr) && nz (Z.land (ge_flags e) OWRP_GATE_FLAG_ACTIVE).

(** The search loop both functions share: the slot of the active gate. *)
Definition gate_slot (c : owrp_context_t) (syscall_nr : Z) : option (option Z) :=
  find_up (Z.to_nat (ow_gate_count c)) 0 (ow_gates c) (gate_matches syscall_nr).

Definition owrp_find_gate (ctx : ptr owrp_context_t) (syscall_nr : Z)
    : option (ptr owrp_gate_entry_t) :=
  match ctx with
  | None => Some NULL
  | Some c =>
      if negb (ow_initialized c) then Some NULL
      else
        r ← gate_slot c syscall_nr;
        match r with
        | None => Some NULL
        | Some i => e ← aget (ow_gates c) i; Some (Some e)
        end
  end.

(** [while (name[i] && i < OWRP_GATE_NAME_MAX - 1)], then the terminator; [n]
    is what is left of the bound. *)
Fixpoint copy_name (n : nat) (i : Z) (dst name : list Z) : option (list Z) :=
  c ← aget name i;
  if c =? 0 then aset dst i 0
  else
    match n with
    | O => aset dst i 0
    | S n => dst ← aset dst i c; copy_name n (i + 1) dst name
    end.

Definition owrp_register_gate (ctx : ptr owrp_context_t) (syscall_nr : Z)
    (name : ptr (list Z)) (param_count required_ring flags : Z)
    : option (ptr owrp_context_t * Z) :=
  match ctx with
  | None => Some (ctx, OWRP_ERR_INVALID_ARG)
  | Some c =>
      if negb (ow_initialized c) then Some (ctx, OWRP_ERR_INVALID_ARG)
      else
        match name with
        | None => Some (ctx, OWRP_ERR_INVALID_ARG)
        | Some name =>
            r ← gate_slot c syscall_nr;
            match r with
            | None =>
                if OWRP_MAX_GATES <=? ow_gate_count c
                then Some (ctx, OWRP_ERR_INVALID_ARG)
                else
                  let slot := ow_gate_count c in
                  e ← aget (ow_gates c) slot;
                  nm ← copy_name (Z.to_nat (OWRP_GATE_NAME_MAX - 1)) 0 (ge_name e) name;
                  gs ← aset (ow_gates c) slot
                         (mk_gate syscall_nr required_ring param_count
                            (u8 (Z.lor flags OWRP_GATE_FLAG_ACTIVE)) nm);
                  Some (Some (c <| ow_gate_count := u32 (ow_gate_count c + 1) |>
                                <| ow_gates := gs |>), OWRP_OK)
            | Some slot =>
                e ← aget (ow_gates c) slot;
                nm ← copy_name (Z.to_nat (OWRP_GATE_NAME_MAX - 1)) 0 (ge_name e) name;
                gs ← aset (ow_gates c) slot
                       (mk_gate syscall_nr required_ring param_count
                          (u8 (Z.lor flags OWRP_GATE_FLAG_ACTIVE)) nm);
                Some (Some (c <| ow_gates := gs |>), OWRP_OK)
            end
        end
  end.

(** ** Rings and boot phase *)
Definition owrp_set_ring (ctx : ptr owrp_context_t) (ring : Z) : ptr owrp_context_t * Z :=
  match ctx with
  | None => (ctx, OWRP_ERR_INVALID_ARG)
  | Some c =>
      if negb (ow_initialized c) then (ctx, OWRP_ERR_INVALID_ARG)
      else if nz (ow_current_ring c) && negb (ring =? ow_current_ring c)
      then (ctx, OWRP_ERR_PRIVILEGE)
      else (Some (c <| ow_current_ring := ring |>), OWRP_OK)
  end.

Definition owrp_enter_boot_phase (ctx : ptr owrp_context_t) : ptr owrp_context_t :=
  (λ c, c <| ow_boot_phase := 1 |>) <$> ctx.
Definition owrp_exit_boot_phase (ctx : ptr owrp_context_t) : ptr owrp_context_t :=
  (λ c, c <| ow_boot_phase := 0 |>) <$> ctx.

(** ** Invocation *)
Section invoke.
Context {K : Type}.
(** RAX, the argument registers in order, the kernel's state: RAX and RDX
    after the call, and the new state. *)
Variable syscall : Z → list Z → K → Z * Z * K.

Definition failed (error : Z) : owrp_gate_result_t := mk_result 0 error 0 0.

(** The checks before the call: [inl] is the early return with the context
    whose counter was bumped. *)
Definition gate_checks (ctx : ptr owrp_context_t) (sys_nr : Z)
    : option (ptr owrp_context_t * owrp_gate_result_t + owrp_context_t) :=
  let unmapped := failed OWRP_ERR_UNMAPPED in
  match ctx with
  | None => Some (inl (ctx, unmapped))
  | Some c =>
      let errors := Some (c <| ow_total_errors := u64 (ow_total_errors c + 1) |>) in
      let denied := Some (c <| ow_total_privilege_denials :=
                             u64 (ow_total_privilege_denials c + 1) |>) in
      if negb (ow_initialized c) then Some (inl (errors, unmapped))
      else
        gate ← owrp_find_gate ctx (u32 sys_nr);
        match gate with
        | None => Some (inl (errors, failed OWRP_ERR_INVALID_SYSCALL))
        | Some g =>
            if nz (ow_current_ring c) && nz (Z.land (ge_flags g) OWRP_GATE_FLAG_KERNEL)
            then Some (inl (denied, failed OWRP_ERR_PRIVILEGE))
            else if nz (ow_boot_phase c) && (Z.land (ge_flags g) OWRP_GATE_FLAG_BOOT =? 0)
            then Some (inl (denied, failed OWRP_ERR_PRIVILEGE))
            else Some (inr c)
        end
  end.

(** The call, its log entry and the statistics. *)
Definition execute (c : owrp_context_t) (sys_nr : Z) (args : list Z) (k : K)
    : option (ptr owrp_context_t * owrp_gate_result_t * K) :=
  let '(ret_rax, ret_rdx, k) := syscall sys_nr args k in
  let res := mk_result (s64 ret_rax) (s64 ret_rdx) 0 0 in
  c ← owrp_log_call c (u32 sys_nr) (gr_value res) (gr_error res);
  let c := if nz (gr_error res)
           then c <| ow_total_errors := u64 (ow_total_errors c + 1) |>
           else c <| ow_total_calls := u64 (ow_total_calls c + 1) |> in
  Some (Some c, res, k).

Definition owrp_invoke_gate (ctx : ptr owrp_context_t) (sys_nr arg1 arg2 arg3 : Z) (k : K)
    : option (ptr owrp_context_t * owrp_gate_result_t * K) :=
  r ← gate_checks ctx sys_nr;
  match r with
  | inl (ctx, res) => Some (ctx, res, k)
  | inr c => execute c sys_nr [arg1; arg2; arg3] k
  end.

Definition owrp_invoke_gate_full (ctx : ptr owrp_context_t)
    (sys_nr arg1 arg2 arg3 arg4 arg5 arg6 : Z) (k : K)
    : option (ptr owrp_context_t * owrp_gate_result_t * K) :=
  r ← gate_checks ctx sys_nr;
  match r with
  | inl (ctx, res) => Some (ctx, res, k)
  | inr c => execute c sys_nr [arg1; arg2; arg3; arg4; arg5; arg6] k
  end.
End invoke.

(** ** Reading the log and the statistics *)
Definition log_count_clamped (c : owrp_context_t) (max_entries : Z) : Z :=
  let count := ow_log_count c in
  let count := if max_entries <? count then max_entries else count in
  if OWRP_CALL_LOG_SIZE <? count then OWRP_CALL_LOG_SIZE else count.

(** Most recent first; the unsigned subtraction wraps. *)
Definition owrp_get_call_log (ctx : ptr owrp_context_t) (out_syscall_nrs : ptr (list Z))
    (out_results : ptr (list Z)) (max_entries : Z)
    : option (ptr (list Z) * ptr (list Z) * Z) :=
  match ctx, out_syscall_nrs, out_results with
  | Some c, Some nrs, Some res =>
      let count := log_count_clamped c max_entries in
      '(nrs, res) ← for_up (Z.to_nat count) 0 (λ i '(nrs, res),
          let src_idx := u32 (ow_log_head c + OWRP_CALL_LOG_SIZE - 1 - i)
                         mod OWRP_CALL_LOG_SIZE in
          e ← aget (ow_call_log c) src_idx;
          nrs ← aset nrs i (cl_syscall_nr e);
          res ← aset res i (cl_result e);
          Some (nrs, res)) (nrs, res);
      Some (Some nrs, Some res, count)
  | _, _, _ => Some (out_syscall_nrs, out_results, 0)
  end.

Definition owrp_get_stats (ctx : ptr owrp_context_t) (calls errors denials : ptr Z)
    : ptr Z * ptr Z * ptr Z :=
  match ctx with
  | None => (calls, errors, denials)
  | Some c => ((λ _, ow_total_calls c) <$> calls, (λ _, ow_total_errors c) <$> errors,
               (λ _, ow_total_privilege_denials c) <$> denials)
  end.

Definition owrp_reset_stats (ctx : ptr owrp_context_t) : ptr owrp_context_t :=
  (λ c, c <| ow_total_calls := 0 |> <| ow_total_errors := 0 |>
          <| ow_total_privilege_denials := 0 |> <| ow_log_head := 0 |>
          <| ow_log_count := 0 |> <| ow_call_log := zero_call_log |>) <$> ctx.
