(* ===== verification/OwrpSpec.v ===== *)
(** Correctness of the ring portal: the gate table refines a finite map, the
    call log is the recent history, the guard decides what reaches the kernel,
    and the gates the serial driver publishes can be called from ring 3. *)
From S2P Require Import Prelude Sio Owrp.

(** ** The abstract portal *)

(** A logged call: number, result, error. *)
Abbreviation call := (Z * Z * Z)%type (only parsing).

Definition logged_as (x : call) : call_log_entry :=
  let '(nr, v, e) := x in mk_call 0 nr v e.

(** [ow_rep c m h]: the context holds the gates [m] and the calls [h], most
    recent first. *)
Record ow_rep (c : owrp_context_t) (m : gmap Z owrp_gate_entry_t) (h : list call) : Prop := {
  or_init : ow_initialized c = true;
  or_gates : length (ow_gates c) = 128%nat;
  or_names : ∀ i e, ow_gates c !! i = Some e → length (ge_name e) = 32%nat;
  or_count : ow_gate_count c = Z.of_nat (size m) ∧ (size m ≤ 128)%nat;
  or_sound : ∀ i e, 0 ≤ i < ow_gate_count c → aget (ow_gates c) i = Some e →
    m !! ge_syscall_nr e = Some e ∧ Z.land (ge_flags e) OWRP_GATE_FLAG_ACTIVE ≠ 0;
  or_complete : ∀ nr e, m !! nr = Some e →
    ge_syscall_nr e = nr ∧ ∃ i, 0 ≤ i < ow_gate_count c ∧ aget (ow_gates c) i = Some e;
  or_unique : ∀ i j e f, 0 ≤ i < ow_gate_count c → 0 ≤ j < ow_gate_count c →
    aget (ow_gates c) i = Some e → aget (ow_gates c) j = Some f →
    ge_syscall_nr e = ge_syscall_nr f → i = j;
  or_log : length (ow_call_log c) = 32%nat ∧ 0 ≤ ow_log_head c < 32;
  or_log_count : ow_log_count c = Z.min 32 (Z.of_nat (length h));
  or_history : ∀ k x, 0 ≤ k < 32 → aget h k = Some x →
    aget (ow_call_log c) ((ow_log_head c - 1 - k) mod 32) = Some (logged_as x)
}.

(** ** Lookup *)
Lemma gate_matches_iff nr e :
  gate_matches nr e = true ↔
  ge_syscall_nr e = nr ∧ Z.land (ge_flags e) OWRP_GATE_FLAG_ACTIVE ≠ 0.
Proof.
  unfold gate_matches, nz. rewrite andb_true_iff, negb_true_iff, Z.eqb_eq, Z.eqb_neq. done.
Qed.

(** The search finds the slot of the map's entry. *)
Lemma gate_slot_spec c m h nr :
  ow_rep c m h →
  match m !! nr with
  | Some e => ∃ i, gate_slot c nr = Some (Some i) ∧ 0 ≤ i < ow_gate_count c ∧
      aget (ow_gates c) i = Some e
  | None => gate_slot c nr = Some None
  end.
Proof.
  intros H. destruct (or_count _ _ _ H) as [Hc Hle]. pose proof (or_gates _ _ _ H) as Hl.
  unfold gate_slot.
  destruct (find_up_spec (Z.to_nat (ow_gate_count c)) 0 (ow_gates c) (gate_matches nr))
    as (r & Hf & Hr); [lia..|].
  destruct r as [i|].
  - destruct Hr as (Hi & (e & He & [Hnr Ha]%gate_matches_iff) & _).
    destruct (or_sound _ _ _ H i e) as [Hm _]; [lia|done|]. rewrite Hnr in Hm. rewrite Hm.
    exists i. split_and!; [done|lia|lia|done].
  - destruct (m !! nr) as [e|] eqn:Hm; [|done]. exfalso.
    destruct (or_complete _ _ _ H nr e Hm) as (Hnr & i & Hi & He).
    destruct (or_sound _ _ _ H i e Hi He) as [_ Ha].
    assert (gate_matches nr e = true) as Ht by (by apply gate_matches_iff).
    rewrite (Hr i e) in Ht; [done|lia|done].
Qed.

Lemma find_gate_spec c m h nr :
  ow_rep c m h → owrp_find_gate (Some c) nr = Some (m !! nr).
Proof.
  intros H. unfold owrp_find_gate. rewrite (or_init _ _ _ H). cbn [negb].
  pose proof (gate_slot_spec c m h nr H) as Hs. destruct (m !! nr) as [e|].
  - destruct Hs as (i & -> & _ & He). by rewrite obind_Some, He, obind_Some.
  - by rewrite Hs, obind_Some.
Qed.

(** ** Names *)

(** What the name field holds afterwards: the first 31 bytes and a terminator
    over whatever was there. *)
Definition name_field (old s : list Z) : list Z :=
  let t := take 31 s in t ++ 0 :: drop (S (length t)) old.

Lemma copy_name_loop n : ∀ p s old y,
  Forall (λ c, c ≠ 0) s → (length p + n < length (p ++ old))%nat →
  copy_name n (Z.of_nat (length p)) (p ++ old) (p ++ s ++ 0 :: y) =
    Some (p ++ take n s ++ 0 :: drop (S (length (take n s))) old).
Proof.
  induction n as [|n IH]; intros p s old y Hs Hl; rewrite length_app in Hl;
    (destruct old as [|o old]; [simpl in Hl; lia|]).
  - cbn [copy_name]. destruct s as [|c s]; cbn [app].
    + by rewrite aget_app_here, obind_Some, Z.eqb_refl, aset_app_here.
    + rewrite aget_app_here, obind_Some. by case_if; rewrite aset_app_here.
  - cbn [copy_name]. destruct s as [|c s]; cbn [app].
    + by rewrite aget_app_here, obind_Some, Z.eqb_refl, aset_app_here.
    + rewrite aget_app_here, obind_Some. inversion Hs; subst.
      rewrite (proj2 (Z.eqb_neq c 0)), aset_app_here, obind_Some by done.
      specialize (IH (p ++ [c]) s old y). rewrite <-!app_assoc, length_app in IH. simpl in IH.
      replace (Z.of_nat (length p) + 1) with (Z.of_nat (length p + 1)) by lia.
      simpl in Hl. rewrite IH; [done|done|]. rewrite length_app. simpl. lia.
Qed.

Lemma copy_name_spec old s y :
  Forall (λ c, c ≠ 0) s → length old = 32%nat →
  copy_name (Z.to_nat (OWRP_GATE_NAME_MAX - 1)) 0 old (s ++ 0 :: y) = Some (name_field old s).
Proof.
  intros Hs Hl. exact (copy_name_loop 31 [] s old y Hs ltac:(cbn [app]; simpl length at 1; lia)).
Qed.

Lemma name_field_length old s : length old = 32%nat → length (name_field old s) = 32%nat.
Proof.
  intros Hl. unfold name_field. rewrite length_app. cbn [length]. rewrite length_drop.
  rewrite length_take. lia.
Qed.

(** ** Registration *)
Definition new_gate (nr ring params flags : Z) (name : list Z) : owrp_gate_entry_t :=
  mk_gate nr ring params (u8 (Z.lor flags OWRP_GATE_FLAG_ACTIVE)) name.

Lemma new_gate_active nr ring params flags name :
  Z.land (ge_flags (new_gate nr ring params flags name)) OWRP_GATE_FLAG_ACTIVE ≠ 0.
Proof.
  simpl. intros E. apply (f_equal (λ z, Z.testbit z 0)) in E. revert E.
  unfold u8, wrap, OWRP_GATE_FLAG_ACTIVE.
  rewrite Z.land_spec, Z.mod_pow2_bits_low, Z.lor_spec by lia.
  change (Z.testbit 1 0) with true. by rewrite orb_true_r.
Qed.

(** The fields registration leaves alone. *)
Definition same_portal (c c' : owrp_context_t) : Prop :=
  ow_initialized c' = ow_initialized c ∧ ow_call_log c' = ow_call_log c ∧
  ow_log_head c' = ow_log_head c ∧ ow_log_count c' = ow_log_count c ∧
  ow_current_ring c' = ow_current_ring c ∧ ow_boot_phase c' = ow_boot_phase c.

(** Storing a gate in the slot of its number, or in the next free slot. *)
Lemma rep_put c m h i e c' :
  ow_rep c m h → Z.land (ge_flags e) OWRP_GATE_FLAG_ACTIVE ≠ 0 → length (ge_name e) = 32%nat →
  same_portal c c' → ow_gates c' = <[Z.to_nat i := e]> (ow_gates c) →
  (∃ e0, 0 ≤ i < ow_gate_count c ∧ aget (ow_gates c) i = Some e0 ∧
     ge_syscall_nr e0 = ge_syscall_nr e ∧ ow_gate_count c' = ow_gate_count c) ∨
  (i = ow_gate_count c ∧ ow_gate_count c < 128 ∧ ow_gate_count c' = ow_gate_count c + 1 ∧
     m !! ge_syscall_nr e = None) →
  ow_rep c' (<[ge_syscall_nr e := e]> m) h.
Proof.
  intros H Ha Hn (Ei & El & Eh & Ec & _) Eg Hcase. destruct (or_count _ _ _ H) as [Hc Hle].
  pose proof (or_gates _ _ _ H) as Hl.
  assert (0 ≤ i < Z.of_nat (length (ow_gates c))) as Hi by (destruct Hcase as [(? & ? & _)|(? & ? & _)]; lia).
  assert (∀ j, 0 ≤ j < ow_gate_count c' → j = i ∨ j ≠ i ∧ 0 ≤ j < ow_gate_count c) as Hidx.
  { intros j Hj. destruct Hcase as [(? & ? & _ & _ & E)|(-> & _ & E & _)]; rewrite E in Hj; lia. }
  assert (ow_gate_count c ≤ ow_gate_count c' ∧ i < ow_gate_count c' ∧ 0 ≤ i) as Hlim.
  { destruct Hcase as [(? & ? & _ & _ & E)|(-> & _ & E & _)]; rewrite E; lia. }
  assert (∀ j f, 0 ≤ j < ow_gate_count c → aget (ow_gates c) j = Some f → j ≠ i →
    ge_syscall_nr f ≠ ge_syscall_nr e) as Hother.
  { intros j f Hj Hf Hne E. destruct Hcase as [(e0 & ? & He0 & E0 & _)|(_ & _ & _ & Hnone)].
    - apply Hne. eapply (or_unique _ _ _ H j i); [done|done|done|done|congruence].
    - destruct (or_sound _ _ _ H j f Hj Hf) as [Hm _]. congruence. }
  split; rewrite ?Ei, ?El, ?Eh, ?Ec, ?Eg.
  - apply (or_init _ _ _ H).
  - by rewrite length_insert.
  - intros j f Hf. apply list_lookup_insert_Some in Hf as [(_ & <- & _)|[_ Hf]]; [done|by eapply or_names].
  - destruct Hcase as [(e0 & Hi0 & He0 & E0 & ->)|(_ & ? & -> & Hnone)].
    + destruct (or_sound _ _ _ H i e0 Hi0 He0) as [Hm _]. rewrite E0 in Hm.
      rewrite map_size_insert_Some by (by eexists). done.
    + rewrite map_size_insert_None by done. lia.
  - intros j f Hj. rewrite aget_insert by done. case_decide as E.
    + intros [= <-]. split; [by rewrite lookup_insert_eq|done].
    + intros Hf. destruct (Hidx j Hj) as [->|[_ Hj']]; [done|].
      destruct (or_sound _ _ _ H j f Hj' Hf) as [Hm Hact]. split; [|done].
      rewrite lookup_insert_ne; [done|]. apply not_eq_sym. by eapply Hother.
  - intros nr f. destruct (decide (nr = ge_syscall_nr e)) as [->|Hne].
    + rewrite lookup_insert_eq. intros [= <-]. split; [done|]. exists i.
      rewrite aget_insert, decide_True by done. split; [lia|done].
    + rewrite lookup_insert_ne by done. intros Hf. destruct (or_complete _ _ _ H nr f Hf) as (<- & j & Hj & Hg).
      split; [done|]. exists j. rewrite aget_insert by done. case_decide as E; [|split; [lia|done]].
      subst j. destruct Hcase as [(e0 & _ & He0 & E0 & _)|(-> & _)]; [|lia]. congruence.
  - intros j k f g Hj Hk. rewrite !aget_insert by done.
    destruct (Hidx j Hj) as [->|[? ?]], (Hidx k Hk) as [->|[? ?]];
      intros ? ? E; repeat case_decide; simplify_eq; try done.
    + exfalso. by eapply (Hother k g).
    + exfalso. by eapply (Hother j f).
    + by eapply (or_unique _ _ _ H j k).
  - apply (or_log _ _ _ H).
  - apply (or_log_count _ _ _ H).
  - apply (or_history _ _ _ H).
Qed.

(** What registration does for a name that ends. *)
Lemma gate_register_spec c m h nr s y params ring flags :
  ow_rep c m h → Forall (λ b, b ≠ 0) s →
  (m !! nr = None ∧ size m = 128%nat ∧
     owrp_register_gate (Some c) nr (Some (s ++ 0 :: y)) params ring flags =
       Some (Some c, OWRP_ERR_INVALID_ARG)) ∨
  (∃ c' old, owrp_register_gate (Some c) nr (Some (s ++ 0 :: y)) params ring flags =
       Some (Some c', OWRP_OK) ∧ length old = 32%nat ∧
     ow_rep c' (<[nr := new_gate nr ring params flags (name_field old s)]> m) h ∧ same_portal c c').
Proof.
  intros H Hs. destruct (or_count _ _ _ H) as [Hc Hle]. pose proof (or_gates _ _ _ H) as Hl.
  unfold owrp_register_gate. rewrite (or_init _ _ _ H). cbn [negb].
  pose proof (gate_slot_spec c m h nr H) as Hslot. destruct (m !! nr) as [e0|] eqn:Hm.
  - destruct Hslot as (i & -> & Hi & He). right. rewrite obind_Some, He, obind_Some.
    destruct (or_complete _ _ _ H nr e0 Hm) as [Hnr _].
    assert (length (ge_name e0) = 32%nat) as Hn.
    { apply aget_Some in He as [_ He]. by eapply or_names. }
    rewrite copy_name_spec, obind_Some, aset_in, obind_Some by (done || lia).
    eexists _, (ge_name e0). split; [done|]. split; [done|]. split; [|done].
    eapply (rep_put c m h i); [done|apply new_gate_active|by apply name_field_length|done|done|].
    left. exists e0. split_and!; try done; simpl; lia.
  - rewrite Hslot, obind_Some. change OWRP_MAX_GATES with 128. case_if; [left; split_and!; [done|lia|done]|right].
    destruct (aget_is_Some (ow_gates c) (ow_gate_count c)) as [e0 He]; [lia|].
    assert (length (ge_name e0) = 32%nat) as Hn.
    { apply aget_Some in He as [_ He]. by eapply or_names. }
    cbv zeta. rewrite He, obind_Some, copy_name_spec, obind_Some, aset_in, obind_Some by (done || lia).
    rewrite u32_small by lia. eexists _, (ge_name e0). split; [done|]. split; [done|]. split; [|done].
    eapply (rep_put c m h (ow_gate_count c)); [done|apply new_gate_active|by apply name_field_length|done|done|].
    right. by split_and!; [|lia|..].
Qed.

(** ** Logging *)

(** Only counters, ring and phase differ. *)
Definition same_table (c c' : owrp_context_t) : Prop :=
  ow_initialized c' = ow_initialized c ∧ ow_gates c' = ow_gates c ∧
  ow_gate_count c' = ow_gate_count c ∧ ow_call_log c' = ow_call_log c ∧
  ow_log_head c' = ow_log_head c ∧ ow_log_count c' = ow_log_count c.

Lemma rep_same_table c c' m h : ow_rep c m h → same_table c c' → ow_rep c' m h.
Proof.
  intros [] (E1 & E2 & E3 & E4 & E5 & E6).
  split; rewrite ?E1, ?E2, ?E3, ?E4, ?E5, ?E6; done.
Qed.

Lemma log_call_spec c m h nr v e :
  ow_rep c m h →
  ∃ c', owrp_log_call c nr v e = Some c' ∧ ow_rep c' m ((nr, v, e) :: h) ∧
    ow_current_ring c' = ow_current_ring c ∧ ow_boot_phase c' = ow_boot_phase c.
Proof.
  intros H. destruct (or_log _ _ _ H) as [Hl Hh]. pose proof (or_log_count _ _ _ H) as Hc.
  unfold owrp_log_call. rewrite aset_in, obind_Some by lia. eexists. split; [done|].
  split; [|done]. rewrite (u32_small (ow_log_head c + 1)) by lia.
  assert (0 ≤ (ow_log_head c + 1) mod 32 < 32) by (apply Z.mod_pos_bound; lia).
  destruct H. split; simpl; try done.
  - rewrite length_insert. done.
  - unfold OWRP_CALL_LOG_SIZE. case_if; [rewrite u32_small by lia|]; lia.
  - intros k x Hk Hx. rewrite aget_insert by lia. destruct (decide (k = 0)) as [->|Hk0].
    + rewrite decide_True; [by injection Hx as <-|].
      unfold OWRP_CALL_LOG_SIZE. zdm.
    + assert (aget h (k - 1) = Some x) as Hx'.
      { rewrite aget_to_nat in Hx |- * by lia.
        by replace (Z.to_nat k) with (S (Z.to_nat (k - 1))) in Hx by lia. }
      assert ((((ow_log_head c + 1) mod OWRP_CALL_LOG_SIZE - 1 - k) mod 32) =
        (ow_log_head c - 1 - (k - 1)) mod 32) as ->.
      { unfold OWRP_CALL_LOG_SIZE. zdm. }
      rewrite decide_False; [by apply or_history0; [lia|]|]. zdm.
Qed.

(** ** Invocation *)

(** Whether the flags of the gate [g] admit the portal's ring and phase. *)
Definition flags_admit (c : owrp_context_t) (g : owrp_gate_entry_t) : bool :=
  ((ow_current_ring c =? 0) || (Z.land (ge_flags g) OWRP_GATE_FLAG_KERNEL =? 0)) &&
  ((ow_boot_phase c =? 0) || negb (Z.land (ge_flags g) OWRP_GATE_FLAG_BOOT =? 0)).

(** The decision of the checks. *)
Lemma gate_checks_spec c m h nr :
  ow_rep c m h →
  match m !! u32 nr with
  | None => ∃ c', gate_checks (Some c) nr =
      Some (inl (Some c', failed OWRP_ERR_INVALID_SYSCALL)) ∧ same_table c c' ∧
      ow_current_ring c' = ow_current_ring c ∧ ow_boot_phase c' = ow_boot_phase c
  | Some g =>
      if flags_admit c g then gate_checks (Some c) nr = Some (inr c)
      else ∃ c', gate_checks (Some c) nr =
        Some (inl (Some c', failed OWRP_ERR_PRIVILEGE)) ∧ same_table c c' ∧
        ow_current_ring c' = ow_current_ring c ∧ ow_boot_phase c' = ow_boot_phase c
  end.
Proof.
  intros H. unfold gate_checks. rewrite (or_init _ _ _ H). cbn [negb].
  rewrite (find_gate_spec c m h _ H), obind_Some. destruct (m !! u32 nr) as [g|].
  2:{ by eexists. }
  unfold flags_admit, nz. destruct (ow_current_ring c =? 0), (Z.land (ge_flags g) OWRP_GATE_FLAG_KERNEL =? 0),
    (ow_boot_phase c =? 0), (Z.land (ge_flags g) OWRP_GATE_FLAG_BOOT =? 0); simpl;
    try done; by eexists.
Qed.

Section invoke.
Context {K : Type} (syscall : Z → list Z → K → Z * Z * K).

Lemma execute_spec c m h nr args k :
  ow_rep c m h →
  ∃ c' v e k', syscall nr args k = (v, e, k') ∧
    execute syscall c nr args k = Some (Some c', mk_result (s64 v) (s64 e) 0 0, k') ∧
    ow_rep c' m ((u32 nr, s64 v, s64 e) :: h) ∧
    ow_current_ring c' = ow_current_ring c ∧ ow_boot_phase c' = ow_boot_phase c.
Proof.
  intros H. unfold execute. destruct (syscall nr args k) as [[v e] k'] eqn:E. simpl.
  destruct (log_call_spec c m h (u32 nr) (s64 v) (s64 e) H) as (c1 & -> & H1 & R1 & B1).
  rewrite obind_Some. eexists _, _, _, _. split; [done|]. split; [done|].
  case_if; (split; [by eapply rep_same_table|done]).
Qed.

(** What an invocation with the given argument registers does. *)
Definition invoke_with (args : list Z) (ctx : ptr owrp_context_t) (nr : Z) (k : K) :=
  r ← gate_checks ctx nr;
  match r with
  | inl (ctx, res) => Some (ctx, res, k)
  | inr c => execute syscall c nr args k
  end.

Lemma invoke_spec c m h nr args k :
  ow_rep c m h →
  ∃ c' res k', invoke_with args (Some c) nr k = Some (Some c', res, k') ∧
    ow_current_ring c' = ow_current_ring c ∧ ow_boot_phase c' = ow_boot_phase c ∧
    match m !! u32 nr with
    | Some g =>
        if flags_admit c g then
          ∃ v e, syscall nr args k = (v, e, k') ∧ res = mk_result (s64 v) (s64 e) 0 0 ∧
            ow_rep c' m ((u32 nr, s64 v, s64 e) :: h)
        else k' = k ∧ res = failed OWRP_ERR_PRIVILEGE ∧ ow_rep c' m h
    | None => k' = k ∧ res = failed OWRP_ERR_INVALID_SYSCALL ∧ ow_rep c' m h
    end.
Proof.
  intros H. unfold invoke_with. pose proof (gate_checks_spec c m h nr H) as Hc.
  destruct (m !! u32 nr) as [g|]; [destruct (flags_admit c g)|].
  - destruct (execute_spec c m h nr args k H) as (c' & v & e & k' & E & E2 & Hr & R & B).
    rewrite Hc, obind_Some, E2. exists c', (mk_result (s64 v) (s64 e) 0 0), k'.
    split_and!; [done..|]. by exists v, e.
  - destruct Hc as (c' & -> & T & R & B). rewrite obind_Some. eexists c', _, _.
    split_and!; try done. by eapply rep_same_table.
  - destruct Hc as (c' & -> & T & R & B). rewrite obind_Some. eexists c', _, _.
    split_and!; try done. by eapply rep_same_table.
Qed.
End invoke.



Section guard.
Context {K : Type} (syscall : Z → list Z → K → Z * Z * K).


End guard.


(** Registering a gate is a map update: afterwards the number maps to
    the new entry, active and with the first 31 bytes of its name, and every
    other number to what it did; only a new number in a full table is refused.
    Lookup returns exactly the map. *)
Theorem owrp_register_refines_map c m h nr s y params ring flags :
  ow_rep c m h → Forall (λ b, b ≠ 0) s →
  (∀ n, owrp_find_gate (Some c) n = Some (m !! n)) ∧
  ((m !! nr = None ∧ size m = Z.to_nat OWRP_MAX_GATES ∧
     owrp_register_gate (Some c) nr (Some (s ++ 0 :: y)) params ring flags =
       Some (Some c, OWRP_ERR_INVALID_ARG)) ∨
   (∃ c' rest, owrp_register_gate (Some c) nr (Some (s ++ 0 :: y)) params ring flags =
       Some (Some c', OWRP_OK) ∧
     let g := mk_gate nr ring params (u8 (Z.lor flags OWRP_GATE_FLAG_ACTIVE))
                (take 31 s ++ 0 :: rest) in
     ow_rep c' (<[nr := g]> m) h ∧
     ∀ n, owrp_find_gate (Some c') n = Some (if decide (nr = n) then Some g else m !! n))).
Proof.
  intros H Hs. split; [by intros n; apply (find_gate_spec c m h)|].
  destruct (gate_register_spec c m h nr s y params ring flags H Hs)
    as [?|(c' & old & E & Hl & Hr & _)]; [by left|right].
  exists c', (drop (S (length (take 31 s))) old). split; [done|]. split; [done|].
  intros n. rewrite (find_gate_spec c' _ h n Hr). f_equal.
  destruct (decide (nr = n)) as [->|]; [by rewrite lookup_insert_eq|by rewrite lookup_insert_ne].
Qed.

(** ** Reading the log *)

(** The call log hands out the most recent calls first: numbers and
    results of as many as were asked for, at most 32 and at most all, the rest
    of both buffers untouched. *)
Theorem owrp_call_log_recent c m h nrs res max :
  ow_rep c m h → 0 ≤ max < 2 ^ 32 →
  let n := Nat.min (Nat.min 32 (length h)) (Z.to_nat max) in
  (n ≤ length nrs)%nat → (n ≤ length res)%nat →
  owrp_get_call_log (Some c) (Some nrs) (Some res) max =
    Some (Some (map (λ x, fst (fst x)) (take n h) ++ drop n nrs),
          Some (map (λ x, snd (fst x)) (take n h) ++ drop n res), Z.of_nat n).
Proof.
  intros H Hmax n Hn Hr. unfold owrp_get_call_log. destruct (or_log _ _ _ H) as [Hl Hh].
  assert (log_count_clamped c max = Z.of_nat n) as ->.
  { unfold log_count_clamped, OWRP_CALL_LOG_SIZE. rewrite (or_log_count _ _ _ H).
    unfold n. destruct (max <? _) eqn:E1; zbool; case_if; lia. }
  assert (n ≤ 32 ∧ n ≤ length h)%nat as [Hn1 Hn2] by (unfold n; lia). clearbody n.
  rewrite Nat2Z.id. cbv zeta.
  loop_inv (λ i s, ∃ k : nat, i = Z.of_nat k ∧
    s = (map (λ x, fst (fst x)) (take k h) ++ drop k nrs,
         map (λ x, snd (fst x)) (take k h) ++ drop k res)) as (s & -> & k & Hk & ->).
  - exists 0%nat. by rewrite !drop_0.
  - intros i s Hi (k & -> & ->).
    destruct (lookup_lt_is_Some_2 h k) as [x Hx]; [lia|].
    destruct (lookup_lt_is_Some_2 nrs k) as [a Ha]; [lia|].
    destruct (lookup_lt_is_Some_2 res k) as [b Hb]; [lia|].
    rewrite u32_small by (unfold OWRP_CALL_LOG_SIZE; lia).
    assert ((ow_log_head c + OWRP_CALL_LOG_SIZE - 1 - Z.of_nat k) mod OWRP_CALL_LOG_SIZE =
      (ow_log_head c - 1 - Z.of_nat k) mod 32) as -> by (unfold OWRP_CALL_LOG_SIZE; zdm).
    rewrite (or_history _ _ _ H (Z.of_nat k) x), obind_Some by (lia || by rewrite aget_of_nat).
    rewrite (drop_lookup_cons nrs k a Ha), (drop_lookup_cons res k b Hb).
    rewrite !aset_app_at, !obind_Some by (rewrite length_map, length_take; lia).
    eexists. split; [done|]. exists (S k). split; [lia|].
    rewrite (take_S_r h k x Hx), !map_app, <-!app_assoc. destruct x as [[nr v] e]. done.
  - rewrite obind_Some. assert (k = n) as -> by lia. done.
Qed.

(** ** Reachable portals *)
Inductive portal_op :=
  | PRegister (nr : Z) (name rest : list Z) (params ring flags : Z)
  | PInvoke (nr a1 a2 a3 : Z)
  | PInvokeFull (nr a1 a2 a3 a4 a5 a6 : Z)
  | PSetRing (ring : Z)
  | PEnterBoot | PExitBoot | PReset.

Definition portal_op_ok (op : portal_op) : Prop :=
  match op with PRegister _ s _ _ _ _ => Forall (λ b, b ≠ 0) s | _ => True end.

Section run.
Context {K : Type} (syscall : Z → list Z → K → Z * Z * K).

Definition run_portal (s : ptr owrp_context_t * K) (op : portal_op)
    : option (ptr owrp_context_t * K) :=
  let '(ctx, k) := s in
  match op with
  | PRegister nr s y p r f =>
      '(ctx, _) ← owrp_register_gate ctx nr (Some (s ++ 0 :: y)) p r f; Some (ctx, k)
  | PInvoke nr a1 a2 a3 =>
      '(ctx, _, k) ← owrp_invoke_gate syscall ctx nr a1 a2 a3 k; Some (ctx, k)
  | PInvokeFull nr a1 a2 a3 a4 a5 a6 =>
      '(ctx, _, k) ← owrp_invoke_gate_full syscall ctx nr a1 a2 a3 a4 a5 a6 k; Some (ctx, k)
  | PSetRing r => Some (fst (owrp_set_ring ctx r), k)
  | PEnterBoot => Some (owrp_enter_boot_phase ctx, k)
  | PExitBoot => Some (owrp_exit_boot_phase ctx, k)
  | PReset => Some (owrp_reset_stats ctx, k)
  end.

Fixpoint run_portals (s : ptr owrp_context_t * K) (ops : list portal_op) :=
  match ops with
  | [] => Some s
  | op :: ops => s ← run_portal s op; run_portals s ops
  end.

Lemma reset_rep c m h : ow_rep c m h → ∃ c', owrp_reset_stats (Some c) = Some c' ∧
  ow_rep c' m [] ∧ ow_current_ring c' = ow_current_ring c.
Proof.
  intros []. eexists. split; [done|]. split; [|done]. split; try done.
  intros k x Hk. by rewrite aget_to_nat by lia.
Qed.

Lemma run_portal_spec c m h k op :
  ow_rep c m h → ow_current_ring c = 3 → portal_op_ok op →
  ∃ c' m' h' k', run_portal (Some c, k) op = Some (Some c', k') ∧ ow_rep c' m' h' ∧
    ow_current_ring c' = 3.
Proof.
  intros H Hring Hop.
  destruct op as [nr s y p r f|nr a1 a2 a3|nr a1 a2 a3 a4 a5 a6|r| | |]; simpl in Hop; unfold run_portal.
  - destruct (gate_register_spec c m h nr s y p r f H Hop) as [(_ & _ & ->)|(c' & old & -> & _ & Hr & S)].
    + rewrite obind_Some. by exists c, m, h, k.
    + rewrite obind_Some. destruct S as (_ & _ & _ & _ & E & _). eexists c', _, h, k.
      split_and!; [done|done|congruence].
  - destruct (invoke_spec syscall c m h nr [a1; a2; a3] k H) as (c' & res & k' & E & R & _ & Hm).
    change (owrp_invoke_gate syscall (Some c) nr a1 a2 a3 k) with
      (invoke_with syscall [a1; a2; a3] (Some c) nr k). rewrite E, obind_Some.
    assert (∃ h', ow_rep c' m h') as [h' Hh'] by (repeat case_match; naive_solver).
    exists c', m, h', k'. split_and!; [done|done|congruence].
  - destruct (invoke_spec syscall c m h nr [a1; a2; a3; a4; a5; a6] k H) as (c' & res & k' & E & R & _ & Hm).
    change (owrp_invoke_gate_full syscall (Some c) nr a1 a2 a3 a4 a5 a6 k) with
      (invoke_with syscall [a1; a2; a3; a4; a5; a6] (Some c) nr k). rewrite E, obind_Some.
    assert (∃ h', ow_rep c' m h') as [h' Hh'] by (repeat case_match; naive_solver).
    exists c', m, h', k'. split_and!; [done|done|congruence].
  - unfold owrp_set_ring. rewrite (or_init _ _ _ H), Hring. cbn [negb nz Z.eqb andb].
    case_if; [by exists c, m, h, k|]. eexists _, m, h, k. split; [done|].
    split; [by eapply rep_same_table|done].
  - eexists _, m, h, k. split; [done|]. split; [by eapply rep_same_table|done].
  - eexists _, m, h, k. split; [done|]. split; [by eapply rep_same_table|done].
  - destruct (reset_rep c m h H) as (c' & E & Hr & R). exists c', m, [], k.
    rewrite E. split_and!; [done|done|congruence].
Qed.

Lemma run_portals_spec ops : ∀ c m h k,
  ow_rep c m h → ow_current_ring c = 3 → Forall portal_op_ok ops →
  ∃ c' m' h' k', run_portals (Some c, k) ops = Some (Some c', k') ∧ ow_rep c' m' h' ∧
    ow_current_ring c' = 3.
Proof.
  induction ops as [|op ops IH]; intros c m h k H Hr Hops; [by exists c, m, h, k|].
  inversion Hops; subst. destruct (run_portal_spec c m h k op) as (c1 & m1 & h1 & k1 & E & H1 & R1); [done..|].
  cbn [run_portals]. rewrite E, obind_Some. by apply (IH c1 m1 h1).
Qed.
End run.

Definition fresh_portal : owrp_context_t :=
  zero_owrp <| ow_initialized := true |> <| ow_current_ring := 3 |> <| ow_boot_phase := 0 |>.

Lemma fresh_portal_rep : ow_rep fresh_portal ∅ [].
Proof.
  split; try done; try (simpl; lia).
  - intros i e He. change (ow_gates fresh_portal) with (replicate 128 zero_gate) in He.
    by apply lookup_replicate in He as [-> _].
  - rewrite map_size_empty. split; [done|lia].
  - intros k x Hk. by rewrite aget_to_nat by lia.
Qed.

(** Ring 0 is out of reach: from [owrp_init], whatever is registered,
    invoked, switched or reset, the portal stays in ring 3, runs without
    undefined behaviour, and no gate flagged KERNEL is ever admitted. *)
Theorem owrp_kernel_gates_unreachable {K} (syscall : Z → list Z → K → Z * Z * K) c0 k ops :
  Forall portal_op_ok ops →
  ∃ c m h k', run_portals syscall (fst (owrp_init (Some c0)), k) ops = Some (Some c, k') ∧
    ow_rep c m h ∧ ow_current_ring c = 3 ∧
    ∀ nr g, m !! nr = Some g → Z.land (ge_flags g) OWRP_GATE_FLAG_KERNEL ≠ 0 →
      flags_admit c g = false.
Proof.
  intros Hops.
  destruct (run_portals_spec syscall ops fresh_portal ∅ [] k fresh_portal_rep) as (c & m & h & k' & E & H & R);
    [done|done|].
  exists c, m, h, k'. split_and!; [exact E|done|done|]. intros nr g _ Hg.
  apply Z.eqb_neq in Hg. unfold flags_admit. by rewrite R, Hg.
Qed.

(** ** The serial driver's gates *)

(** [owrp_register_gate] as the registrar hook of the serial driver; a
    failure of the hook itself is undefined behaviour the theorem excludes. *)
Definition registrar (nr : Z) (name : list Z) (params ring flags : Z) (c : owrp_context_t)
    : Z * owrp_context_t :=
  match owrp_register_gate (Some c) nr (Some (name ++ [0])) params ring flags with
  | Some (Some c, st) => (st, c)
  | _ => (-1, c)
  end.

Lemma registrar_spec c m h nr s params ring flags :
  ow_rep c m h → Forall (λ b, b ≠ 0) s → (size m < 128)%nat →
  ∃ c' name, registrar nr s params ring flags c = (OWRP_OK, c') ∧
    ow_rep c' (<[nr := new_gate nr ring params flags name]> m) h ∧ same_portal c c'.
Proof.
  intros H Hs Hlt. unfold registrar.
  destruct (gate_register_spec c m h nr s [] params ring flags H Hs)
    as [(_ & ? & _)|(c' & old & -> & _ & Hr & S)]; [lia|]. by eexists _, _.
Qed.

Lemma size_insert_le {A} (m : gmap Z A) k x : (size (<[k := x]> m) ≤ S (size m))%nat.
Proof.
  destruct (m !! k) as [y|] eqn:E.
  - rewrite map_size_insert_Some by (by eexists). lia.
  - by rewrite map_size_insert_None.
Qed.

(** The serial driver's gates work end to end: publishing them through
    the portal's registrar succeeds when three slots are free, and afterwards
    the portal finds all three and admits a ring-3 caller; during the boot
    phase only the write gate is admitted. *)
Theorem sio_gates_callable c m h :
  ow_rep c m h → (size m ≤ 125)%nat →
  ∃ c' m', sio_register_gates (Some c) (Some registrar) = (Some c', OWRP_OK) ∧
    ow_rep c' m' h ∧
    (∀ nr, nr ∉ [OWRP_SYS_SIO_WRITE; OWRP_SYS_SIO_READ; OWRP_SYS_SIO_IDLE] → m' !! nr = m !! nr) ∧
    ∀ ring boot, 
      (∃ g, owrp_find_gate (Some c') OWRP_SYS_SIO_WRITE = Some (Some g) ∧
         flags_admit (c' <| ow_current_ring := ring |> <| ow_boot_phase := boot |>) g = true) ∧
      (∀ nr, nr ∈ [OWRP_SYS_SIO_READ; OWRP_SYS_SIO_IDLE] →
         ∃ g, owrp_find_gate (Some c') nr = Some (Some g) ∧
           flags_admit (c' <| ow_current_ring := ring |> <| ow_boot_phase := boot |>) g = (boot =? 0)).
Proof.
  intros H Hlt. unfold sio_register_gates.
  destruct (registrar_spec c m h 0x070 [115; 105; 111; 46; 119; 114; 105; 116; 101] 3 3 0x05)
    as (c1 & n1 & -> & H1 & S1); [done|by repeat constructor|lia|].
  pose proof (size_insert_le m 0x070 (new_gate 0x070 3 3 0x05 n1)) as Z1.
  cbv iota beta. change (nz OWRP_OK) with false. cbv iota.
  destruct (registrar_spec c1 _ h 0x071 [115; 105; 111; 46; 114; 101; 97; 100] 2 3 0x01 H1)
    as (c2 & n2 & -> & H2 & S2); [by repeat constructor|lia|].
  cbv iota beta. change (nz OWRP_OK) with false. cbv iota.
  pose proof (size_insert_le (<[0x070 := new_gate 0x070 3 3 0x05 n1]> m) 0x071 (new_gate 0x071 3 2 0x01 n2)) as Z2.
  destruct (registrar_spec c2 _ h 0x072 [115; 105; 111; 46; 105; 100; 108; 101] 1 3 0x01 H2)
    as (c3 & n3 & -> & H3 & S3); [by repeat constructor|lia|].
  eexists c3, _. split; [done|]. split; [exact H3|]. split.
  { intros nr Hnr. rewrite !lookup_insert_ne; [done|set_solver..]. }
  intros ring boot. split.
  - rewrite (find_gate_spec c3 _ h _ H3), lookup_insert_ne, lookup_insert_ne, lookup_insert_eq by done.
    eexists. split; [done|]. unfold flags_admit. simpl. by destruct (ring =? 0), (boot =? 0).
  - intros nr Hnr. rewrite (find_gate_spec c3 _ h _ H3).
    assert (nr = OWRP_SYS_SIO_READ ∨ nr = OWRP_SYS_SIO_IDLE) as [-> | ->] by set_solver.
    + rewrite lookup_insert_ne, lookup_insert_eq by done. eexists. split; [done|].
      unfold flags_admit. simpl. by destruct (ring =? 0), (boot =? 0).
    + rewrite lookup_insert_eq. eexists. split; [done|].
      unfold flags_admit. simpl. by destruct (ring =? 0), (boot =? 0).
Qed.

(** Only the low 32 bits of the number are checked: a caller that adds a
    multiple of 2^32 to the number of an admitted gate passes the checks, and
    the kernel receives the full 64-bit number, for which no gate exists. *)
Theorem owrp_invoke_number_truncated {K} (syscall : Z → list Z → K → Z * Z * K) c m h nr hi a1 a2 a3 k g :
  ow_rep c m h → 0 ≤ nr < 2 ^ 32 → 1 ≤ hi < 2 ^ 32 →
  m !! nr = Some g → flags_admit c g = true → (∀ n e, m !! n = Some e → n < 2 ^ 32) →
  let big := nr + hi * 2 ^ 32 in
  m !! big = None ∧
  ∃ c' v e k', syscall big [a1; a2; a3] k = (v, e, k') ∧
    owrp_invoke_gate syscall (Some c) big a1 a2 a3 k =
      Some (Some c', mk_result (s64 v) (s64 e) 0 0, k').
Proof.
  intros H Hnr Hhi Hm Ha Hb big. split.
  { destruct (m !! big) as [e|] eqn:E; [|done]. apply Hb in E. unfold big in E. lia. }
  destruct (invoke_spec syscall c m h big [a1; a2; a3] k H) as (c' & res & k' & E & _ & _ & Hr).
  assert (u32 big = nr) as Eb.
  { unfold u32, wrap, big. rewrite Z.mod_add by done. by apply Z.mod_small. }
  rewrite Eb, Hm, Ha in Hr. destruct Hr as (v & e & Es & -> & _).
  by exists c', v, e, k'.
Qed.

(** ** Concrete portals *)

(** A kernel that echoes its number and counts calls. *)
Definition echo_kernel (nr : Z) (args : list Z) (k : nat) : Z * Z * nat := (nr, 0, S k).

(** The portal after one registration. *)
Definition one_gate_portal : owrp_context_t :=
  match owrp_register_gate (Some fresh_portal) 0x070 (Some [115; 0]) 3 3 0x05 with
  | Some (Some c, _) => c
  | _ => zero_owrp
  end.

Lemma one_gate_portal_rep :
  ∃ name, ow_rep one_gate_portal (<[0x070 := new_gate 0x070 3 3 0x05 name]> ∅) [].
Proof.
  destruct (gate_register_spec fresh_portal ∅ [] 0x070 [115] [] 3 3 0x05 fresh_portal_rep)
    as [(_ & Hs & _)|(c' & old & E & _ & Hr & _)]; [by repeat constructor|by rewrite map_size_empty in Hs|].
  exists (name_field old [115]). unfold one_gate_portal. simpl app in E. by rewrite E.
Qed.




Lemma owrp_register_refines_map_witness :
  (∃ c', owrp_register_gate (Some fresh_portal) 7 (Some [65; 0]) 1 3 4 = Some (Some c', OWRP_OK)).
Proof.
  destruct (owrp_register_refines_map fresh_portal ∅ [] 7 [65] [] 1 3 4 fresh_portal_rep)
    as [_ [(_ & Hs & _)|(c' & rest & E & _)]]; [by repeat constructor| |exists c'; exact E].
  exfalso. rewrite map_size_empty in Hs. by vm_compute in Hs.
Defined.

Lemma owrp_call_log_recent_witness :
  ∃ c', owrp_log_call fresh_portal 7 8 0 = Some c' ∧
    owrp_get_call_log (Some c') (Some [9; 9]) (Some [9; 9]) 2 = Some (Some [7; 9], Some [8; 9], 1).
Proof.
  destruct (log_call_spec fresh_portal ∅ [] 7 8 0 fresh_portal_rep) as (c' & E & Hr & _).
  exists c'. split; [exact E|].
  apply (owrp_call_log_recent c' ∅ [(7, 8, 0)] [9; 9] [9; 9] 2 Hr); [lia|simpl; lia..].
Defined.

Lemma owrp_kernel_gates_unreachable_witness :
  ∃ c k, run_portals echo_kernel (fst (owrp_init (Some zero_owrp)), 0%nat)
    [PRegister 5 [75] [] 0 0 OWRP_GATE_FLAG_KERNEL; PSetRing 0; PInvoke 5 0 0 0] = Some (Some c, k) ∧
    ow_current_ring c = 3.
Proof.
  destruct (owrp_kernel_gates_unreachable echo_kernel zero_owrp 0%nat
    [PRegister 5 [75] [] 0 0 OWRP_GATE_FLAG_KERNEL; PSetRing 0; PInvoke 5 0 0 0])
    as (c & m & h & k & E & _ & R & _); [by repeat constructor|].
  exists c, k. exact (conj E R).
Defined.

Lemma sio_gates_callable_witness :
  ∃ c', sio_register_gates (Some fresh_portal) (Some registrar) = (Some c', OWRP_OK).
Proof.
  destruct (sio_gates_callable fresh_portal ∅ [] fresh_portal_rep) as (c' & m' & E & _);
    [rewrite map_size_empty; lia|]. exists c'. exact E.
Defined.

Lemma owrp_invoke_number_truncated_witness :
  ∃ c' v e k', owrp_invoke_gate echo_kernel (Some one_gate_portal) 0x100000070 1 2 3 0%nat =
    Some (Some c', mk_result (s64 v) (s64 e) 0 0, k').
Proof.
  destruct one_gate_portal_rep as [name Hr].
  destruct (owrp_invoke_number_truncated echo_kernel _ _ _ 0x070 1 1 2 3 0%nat
    (new_gate 0x070 3 3 0x05 name) Hr)
    as (_ & c' & v & e & k' & _ & E); [lia|lia|by rewrite lookup_insert_eq|by vm_compute| |].
  - intros n e. rewrite lookup_insert. case_decide; [intros _; lia|by rewrite lookup_empty].
  - exists c', v, e, k'. exact E.
Defined.
