(* ===== verification/Partmgr.v ===== *)
(** The partition manager (src/Drivers/partmgr/partmgr.c, partmgr.h): MBR and
    GPT parsing over a caller-supplied block reader.

    The reader is a parameter with a state of its own; the sectors it stores
    come back as a list of bytes.  The file-scope staging area
    [g_partmgr_gpt] is passed as an argument and returned. *)
From S2P Require Import Prelude.

(** ** Constants (partmgr.h, partmgr.c) *)
Definition PARTMGR_SECTOR_SIZE : Z := 512.
Definition PARTMGR_MAX_ENTRIES : Z := 16.
Definition PARTMGR_GPT_ENTRY_SIZE : Z := 128.
Definition PARTMGR_MAX_EBR_CHAIN : Z := 64.
Definition PARTMGR_GPT_NAME_UNITS : Z := 36.
Definition PARTMGR_GPT_MAX_BYTES : Z := 16384.
Definition PARTMGR_GPT_READ_CHUNK : Z := 32.

Inductive partmgr_status_t :=
  | PARTMGR_OK
  | PARTMGR_ERR_INVALID_PARAM
  | PARTMGR_ERR_NOT_INITIALIZED
  | PARTMGR_ERR_IO
  | PARTMGR_ERR_NO_TABLE
  | PARTMGR_ERR_CRC
  | PARTMGR_ERR_NO_SPACE.

Inductive partmgr_style_t := PARTMGR_STYLE_NONE | PARTMGR_STYLE_MBR | PARTMGR_STYLE_GPT.

#[export] Instance partmgr_status_eq_dec : EqDecision partmgr_status_t.
Proof. solve_decision. Defined.

(** ** Data *)
Record partmgr_entry_t := mk_pentry {
  pe_index : Z;                          (* uint32_t *)
  pe_bootable : bool;
  pe_gpt : bool;
  pe_mbr_type : Z;                       (* uint8_t *)
  pe_type_guid : list Z;                 (* uint8_t[16] *)
  pe_unique_guid : list Z;               (* uint8_t[16] *)
  pe_first_lba : Z;                      (* uint64_t *)
  pe_last_lba : Z;                       (* uint64_t *)
  pe_sector_count : Z;                   (* uint64_t *)
  pe_name : list Z                       (* uint16_t[PARTMGR_GPT_NAME_UNITS] *)
}.

Record partmgr_table_t := mk_ptable {
  pt_style : partmgr_style_t;
  pt_protective_mbr : bool;
  pt_entry_count : Z;                    (* uint32_t *)
  pt_disk_sectors : Z;                   (* uint64_t *)
  pt_disk_guid : list Z;                 (* uint8_t[16] *)
  pt_valid : bool;
  pt_entries : list partmgr_entry_t      (* [PARTMGR_MAX_ENTRIES] *)
}.
#[export] Instance eta_ptable : Eta partmgr_table_t := λ t,
  mk_ptable (pt_style t) (pt_protective_mbr t) (pt_entry_count t) (pt_disk_sectors t)
    (pt_disk_guid t) (pt_valid t) (pt_entries t).

Record partmgr_t := mk_partmgr {
  pm_read : Z;                           (* partmgr_read_fn *)
  pm_ctx : Z;
  pm_table : partmgr_table_t;
  pm_initialized : bool
}.
#[export] Instance eta_partmgr : Eta partmgr_t := λ p,
  mk_partmgr (pm_read p) (pm_ctx p) (pm_table p) (pm_initialized p).

(** [ow_memset(.., 0, ..)] of a GUID, an entry and a table. *)
Definition zero_guid : list Z := replicate 16 0.
Definition zero_pentry : partmgr_entry_t :=
  mk_pentry 0 false false 0 zero_guid zero_guid 0 0 0
    (replicate (Z.to_nat PARTMGR_GPT_NAME_UNITS) 0).
Definition zero_ptable : partmgr_table_t :=
  mk_ptable PARTMGR_STYLE_NONE false 0 0 zero_guid false
    (replicate (Z.to_nat PARTMGR_MAX_ENTRIES) zero_pentry).

(** ** Little-endian reads: [&buf[off]] is the array and the offset *)
Definition pm_rd32le (buf : list Z) (off : Z) : option Z :=
  b0 ← aget buf off;
  b1 ← aget buf (off + 1);
  b2 ← aget buf (off + 2);
  b3 ← aget buf (off + 3);
  Some (Z.lor (Z.lor (Z.lor b0 (u32 (Z.shiftl b1 8))) (u32 (Z.shiftl b2 16)))
          (u32 (Z.shiftl b3 24))).

Definition pm_rd64le (buf : list Z) (off : Z) : option Z :=
  for_up 8 0 (λ i v, b ← aget buf (off + i);
                     Some (Z.lor v (u64 (Z.shiftl b (u32 (8 * i)))))) 0.

(** ** CRC-32 *)

(** One iteration of the bit loop. *)
Definition crc_bit (crc : Z) : Z :=
  let mask := u32 (- Z.land crc 1) in
  Z.lxor (Z.shiftr crc 1) (Z.land 0xEDB88320 mask).

(** One iteration of the byte loop. *)
Definition crc_byte (crc byte : Z) : Z := Nat.iter 8 crc_bit (Z.lxor crc byte).

Definition pm_crc32 (data : list Z) (len : Z) : option Z :=
  crc ← for_up (Z.to_nat len) 0 (λ i crc, b ← aget data i; Some (crc_byte crc b)) 0xFFFFFFFF;
  Some (Z.lxor crc 0xFFFFFFFF).

Fixpoint guid_zero_loop (n : nat) (buf : list Z) (off : Z) : option bool :=
  match n with
  | O => Some true
  | S n => b ← aget buf off; if nz b then Some false else guid_zero_loop n buf (off + 1)
  end.
Definition pm_guid_is_zero (buf : list Z) (off : Z) : option bool := guid_zero_loop 16 buf off.

(** ** MBR parsing *)
Definition pm_mbr_type_is_extended (type : Z) : bool :=
  (type =? 0x05) || (type =? 0x0F) || (type =? 0x85).

Definition pm_store_mbr_entry (table : partmgr_table_t) (buf : list Z) (entry : Z)
    (abs_first : Z) : option partmgr_table_t :=
  type ← aget buf (entry + 4);
  if (type =? 0) || (type =? 0xEE) then Some table
  else if PARTMGR_MAX_ENTRIES <=? pt_entry_count table then Some table
  else
    flag ← aget buf entry;
    count ← pm_rd32le buf (entry + 12);
    let dst := mk_pentry (u32 (pt_entry_count table + 1)) (nz (Z.land flag 0x80)) false type
                 zero_guid zero_guid abs_first
                 (if 0 <? count then u64 (u64 (abs_first + count) - 1) else abs_first)
                 count (replicate (Z.to_nat PARTMGR_GPT_NAME_UNITS) 0) in
    es ← aset (pt_entries table) (pt_entry_count table) dst;
    Some (table <| pt_entries := es |>
                <| pt_entry_count := u32 (pt_entry_count table + 1) |>).

Section partmgr.
Context {W : Type}.
(** [call_read fn ctx lba count w]: the world, the result and the bytes the
    reader stores at the start of the buffer (at most [count] sectors). *)
Context (call_read : Z → Z → Z → Z → W → W * Z * list Z).
(** What an uninitialised sector buffer on the stack holds. *)
Context (stack_bytes : list Z).

(** [pm->read(pm->ctx, lba, count, &buf[off])] *)
Definition read_sectors (pm : partmgr_t) (lba count : Z) (buf : list Z) (off : Z) (w : W)
    : option (W * Z * list Z) :=
  _ ← aslice buf off (count * PARTMGR_SECTOR_SIZE);
  let '(w, rc, data) := call_read (pm_read pm) (pm_ctx pm) lba count w in
  buf ← awrite buf off (take (Z.to_nat (count * PARTMGR_SECTOR_SIZE)) data);
  Some (w, rc, buf).

(** [for (link = 0; link < PARTMGR_MAX_EBR_CHAIN; ++link)]; [n] links left,
    [ebr] the sector buffer. *)
Fixpoint follow_loop (n : nat) (pm : partmgr_t) (base current : Z) (ebr : list Z) (w : W)
    : option (W * partmgr_t * partmgr_status_t) :=
  match n with
  | O => Some (w, pm, PARTMGR_ERR_NO_TABLE)
  | S n =>
      '(w, rc, ebr) ← read_sectors pm current 1 ebr 0 w;
      if nz rc then Some (w, pm, PARTMGR_ERR_IO)
      else
        s0 ← aget ebr 510;
        s1 ← aget ebr 511;
        if negb (s0 =? 0x55) || negb (s1 =? 0xAA) then Some (w, pm, PARTMGR_ERR_NO_TABLE)
        else
          rel ← pm_rd32le ebr (446 + 8);
          table ← pm_store_mbr_entry (pm_table pm) ebr 446 (u64 (current + rel));
          let pm := pm <| pm_table := table |> in
          type ← aget ebr (462 + 4);
          if negb (pm_mbr_type_is_extended type) then Some (w, pm, PARTMGR_OK)
          else
            next ← pm_rd32le ebr (462 + 8);
            follow_loop n pm base (u64 (base + next)) ebr w
  end.

Definition pm_follow_extended (pm : partmgr_t) (base : Z) (w : W)
    : option (W * partmgr_t * partmgr_status_t) :=
  follow_loop (Z.to_nat PARTMGR_MAX_EBR_CHAIN) pm base base stack_bytes w.

(** One iteration of the loop over the four primary entries: the table,
    [extended_count] and [extended_base]. *)
Definition primary_entry (sector : list Z) (i : Z) (s : partmgr_table_t * Z * Z)
    : option (partmgr_table_t * Z * Z) :=
  let '(table, extended_count, extended_base) := s in
  let entry := 446 + i * 16 in
  type ← aget sector (entry + 4);
  if type =? 0xEE
  then Some (table <| pt_protective_mbr := true |>, extended_count, extended_base)
  else if pm_mbr_type_is_extended type then
    base ← pm_rd32le sector (entry + 8);
    Some (table, u32 (extended_count + 1), base)
  else
    first ← pm_rd32le sector (entry + 8);
    table ← pm_store_mbr_entry table sector entry first;
    Some (table, extended_count, extended_base).

Definition partmgr_read_mbr (pm : ptr partmgr_t) (sector : ptr (list Z)) (w : W)
    : option (W * ptr partmgr_t * partmgr_status_t) :=
  match pm, sector with
  | Some p, Some sector =>
      if negb (pm_initialized p) then Some (w, pm, PARTMGR_ERR_INVALID_PARAM)
      else
        let table := zero_ptable <| pt_style := PARTMGR_STYLE_MBR |> in
        s0 ← aget sector 510;
        s1 ← aget sector 511;
        if negb ((s0 =? 0x55) && (s1 =? 0xAA))
        then Some (w, Some (p <| pm_table := table |>), PARTMGR_ERR_NO_TABLE)
        else
          '(table, extended_count, extended_base) ←
            for_up 4 0 (primary_entry sector) (table <| pt_valid := true |>, 0, 0);
          let p := p <| pm_table := table |> in
          if 0 <? extended_count then
            '(w, p, _) ← pm_follow_extended p extended_base w;
            Some (w, Some p, PARTMGR_OK)
          else Some (w, Some p, PARTMGR_OK)
  | _, _ => Some (w, pm, PARTMGR_ERR_INVALID_PARAM)
  end.

(** ** GPT parsing *)

(** [while (off < sectors)]; every iteration advances [off]. *)
Fixpoint gpt_read_loop (fuel : nat) (pm : partmgr_t) (entries_lba sectors off : Z)
    (gpt : list Z) (w : W) : option (W * list Z * partmgr_status_t) :=
  if negb (off <? sectors) then Some (w, gpt, PARTMGR_OK)
  else
    match fuel with
    | O => None
    | S fuel =>
        let chunk := u32 (sectors - off) in
        let chunk := if PARTMGR_GPT_READ_CHUNK <? chunk then PARTMGR_GPT_READ_CHUNK else chunk in
        '(w, rc, gpt) ← read_sectors pm (u64 (entries_lba + off)) chunk gpt
                          (u32 (off * PARTMGR_SECTOR_SIZE)) w;
        if nz rc then Some (w, gpt, PARTMGR_ERR_IO)
        else gpt_read_loop fuel pm entries_lba sectors (u32 (off + chunk)) gpt w
    end.

Definition pm_read_gpt_entries (pm : partmgr_t) (gpt : list Z) (entries_lba total_bytes : Z)
    (w : W) : option (W * list Z * partmgr_status_t) :=
  let sectors := u32 (total_bytes + (PARTMGR_SECTOR_SIZE - 1)) / PARTMGR_SECTOR_SIZE in
  if PARTMGR_GPT_MAX_BYTES <? total_bytes then Some (w, gpt, PARTMGR_ERR_NO_SPACE)
  else gpt_read_loop (Z.to_nat sectors) pm entries_lba sectors 0 gpt w.

(** The body of the entry loop after the type GUID check. *)
Definition gpt_entry (gpt : list Z) (src index : Z) : option partmgr_entry_t :=
  type_guid ← copy_at 16 gpt src zero_guid 0;
  unique_guid ← copy_at 16 gpt (src + 16) zero_guid 0;
  first_lba ← pm_rd64le gpt (src + 32);
  last_lba ← pm_rd64le gpt (src + 40);
  let sector_count :=
    if first_lba <=? last_lba then u64 (u64 (last_lba - first_lba) + 1) else 0 in
  name ← for_up (Z.to_nat PARTMGR_GPT_NAME_UNITS) 0 (λ c name,
           lo ← aget gpt (src + (56 + c * 2));
           hi ← aget gpt (src + (57 + c * 2));
           aset name c (u16 (Z.lor lo (u16 (Z.shiftl hi 8)))))
         (pe_name zero_pentry);
  Some (mk_pentry index false true 0 type_guid unique_guid first_lba last_lba sector_count name).

(** One iteration of the entry loop. *)
Definition gpt_slot (gpt : list Z) (entry_size i : Z) (table : partmgr_table_t)
    : option partmgr_table_t :=
  let src := u32 (i * entry_size) in
  zero ← pm_guid_is_zero gpt src;
  if (zero : bool) then Some table
  else
    dst ← gpt_entry gpt src (u32 (pt_entry_count table + 1));
    es ← aset (pt_entries table) (pt_entry_count table) dst;
    Some (table <| pt_entries := es |>
                <| pt_entry_count := u32 (pt_entry_count table + 1) |>).

(** ["EFI PART"] at the start of the header. *)
Definition gpt_signature : list Z := [69; 70; 73; 32; 80; 65; 82; 84].

Definition partmgr_read_gpt (gpt : list Z) (pm : ptr partmgr_t) (w : W)
    : option (W * list Z * ptr partmgr_t * partmgr_status_t) :=
  match pm with
  | None => Some (w, gpt, pm, PARTMGR_ERR_INVALID_PARAM)
  | Some p =>
      if negb (pm_initialized p) then Some (w, gpt, pm, PARTMGR_ERR_INVALID_PARAM)
      else
        '(w, rc, header) ← read_sectors p 1 1 stack_bytes 0 w;
        if nz rc then Some (w, gpt, pm, PARTMGR_ERR_IO)
        else
          sig ← aslice header 0 8;
          if negb (bool_decide (sig = gpt_signature))
          then Some (w, gpt, pm, PARTMGR_ERR_NO_TABLE)
          else
            header_size ← pm_rd32le header 12;
            if (header_size <? 92) || (PARTMGR_SECTOR_SIZE <? header_size)
            then Some (w, gpt, pm, PARTMGR_ERR_CRC)
            else
              header_copy ← copy_bytes PARTMGR_SECTOR_SIZE header stack_bytes;
              header_crc ← pm_rd32le header 16;
              header_copy ← for_up 4 0 (λ i h, aset h (16 + i) 0) header_copy;
              crc ← pm_crc32 header_copy header_size;
              if negb (crc =? header_crc) then Some (w, gpt, pm, PARTMGR_ERR_CRC)
              else
                entry_count ← pm_rd32le header 80;
                entry_size ← pm_rd32le header 84;
                entries_crc ← pm_rd32le header 88;
                entries_lba ← pm_rd64le header 72;
                if (entry_size <? PARTMGR_GPT_ENTRY_SIZE) || (entry_count =? 0)
                then Some (w, gpt, pm, PARTMGR_ERR_NO_TABLE)
                else if PARTMGR_GPT_MAX_BYTES / entry_size <? entry_count
                then Some (w, gpt, pm, PARTMGR_ERR_NO_SPACE)
                else
                  let total_bytes := u32 (entry_count * entry_size) in
                  '(w, gpt, status) ← pm_read_gpt_entries p gpt entries_lba total_bytes w;
                  if negb (bool_decide (status = PARTMGR_OK)) then Some (w, gpt, pm, status)
                  else
                    crc ← pm_crc32 gpt total_bytes;
                    if negb (crc =? entries_crc) then Some (w, gpt, pm, PARTMGR_ERR_CRC)
                    else
                      guid ← copy_at 16 header 56 zero_guid 0;
                      let table := zero_ptable <| pt_style := PARTMGR_STYLE_GPT |>
                                     <| pt_valid := true |> <| pt_protective_mbr := true |>
                                     <| pt_disk_guid := guid |> in
                      table ← for_up (Z.to_nat (Z.min entry_count PARTMGR_MAX_ENTRIES)) 0
                                (gpt_slot gpt entry_size) table;
                      Some (w, gpt, Some (p <| pm_table := table |>), PARTMGR_OK)
  end.

(** ** Public interface *)
Definition partmgr_init (pm : ptr partmgr_t) (read_fn ctx : Z)
    : ptr partmgr_t * partmgr_status_t :=
  match pm with
  | None => (pm, PARTMGR_ERR_INVALID_PARAM)
  | Some _ =>
      if read_fn =? 0 then (pm, PARTMGR_ERR_INVALID_PARAM)
      else (Some (mk_partmgr read_fn ctx zero_ptable true), PARTMGR_OK)
  end.

Definition partmgr_scan (gpt : list Z) (pm : ptr partmgr_t) (w : W)
    : option (W * list Z * ptr partmgr_t * partmgr_status_t) :=
  match pm with
  | None => Some (w, gpt, pm, PARTMGR_ERR_NOT_INITIALIZED)
  | Some p =>
      if negb (pm_initialized p) then Some (w, gpt, pm, PARTMGR_ERR_NOT_INITIALIZED)
      else
        '(w, rc, sector) ← read_sectors p 0 1 stack_bytes 0 w;
        if nz rc then Some (w, gpt, pm, PARTMGR_ERR_IO)
        else
          '(w, pm, status) ← partmgr_read_mbr (Some p) (Some sector) w;
          if negb (bool_decide (status = PARTMGR_OK)) then Some (w, gpt, pm, status)
          else
            p ← pm;
            if pt_protective_mbr (pm_table p) then
              '(w, gpt, pm, _) ← partmgr_read_gpt gpt (Some p) w;
              Some (w, gpt, pm, PARTMGR_OK)
            else Some (w, gpt, Some p, PARTMGR_OK)
  end.
End partmgr.
