(* ===== verification/PartmgrSpec.v ===== *)
(** The CRC-32 of the partition manager: its closed form as a shift register
    loaded with the whole message, and the errors it detects.

    What the partition manager promises: the partitions of an MBR with its
    extended chain, the partitions of a checked GPT, and the choice between the
    two, as functions of the medium; and the refinement proofs. *)
From S2P Require Import Prelude Partmgr.

(** ** The shift register *)


(** The value xored in: the polynomial or nothing. *)
Lemma crc_bit_eq x :
  crc_bit x = Z.lxor (Z.shiftr x 1) (if Z.odd x then 0xEDB88320 else 0).
Proof.
  unfold crc_bit. f_equal. change 1 with (Z.ones 1). rewrite Z.land_ones by done.
  change (2 ^ 1) with 2. rewrite Zmod_odd. by destruct (Z.odd x).
Qed.

Lemma crc_bit_u32 x : u32_ok x → u32_ok (crc_bit x).
Proof.
  intros [Hx Hx2]. rewrite crc_bit_eq. apply lxor_u32.
  - rewrite Z.shiftr_div_pow2 by done. split; zdm.
  - by destruct (Z.odd x).
Qed.

(** Bit 31 of the result tells whether the polynomial was xored in. *)
Lemma crc_bit_top x : u32_ok x → Z.testbit (crc_bit x) 31 = Z.odd x.
Proof.
  intros [Hx Hx2]. rewrite crc_bit_eq, Z.lxor_spec, Z.shiftr_spec by done.
  rewrite (Z.bits_above_log2 x (31 + 1)).
  - by destruct (Z.odd x).
  - done.
  - destruct (decide (x = 0)) as [->|]; [done|]. apply Z.log2_lt_pow2; lia.
Qed.

Lemma crc_bit_inj x y : u32_ok x → u32_ok y → crc_bit x = crc_bit y → x = y.
Proof.
  intros Hx Hy E. pose proof (crc_bit_top x Hx) as Hodd.
  rewrite E, (crc_bit_top y Hy) in Hodd. rewrite !crc_bit_eq, Hodd in E.
  apply (f_equal (λ z, Z.lxor z (if Z.odd x then 0xEDB88320 else 0))) in E.
  rewrite !Z.lxor_assoc, !Z.lxor_nilpotent, !Z.lxor_0_r in E.
  rewrite !Z.shiftr_div_pow2 in E by done. change (2 ^ 1) with 2 in E.
  pose proof (Zmod_odd x). pose proof (Zmod_odd y). rewrite Hodd in *.
  rewrite (Z_div_mod_eq_full x 2), (Z_div_mod_eq_full y 2). lia.
Qed.

(** Data that has not reached the low end passes through. *)
Lemma crc_bit_pass x y : crc_bit (Z.lxor x (Z.shiftl y 1)) = Z.lxor (crc_bit x) y.
Proof.
  rewrite !crc_bit_eq, Z.shiftr_lxor, Z.shiftr_shiftl_l by done.
  change (1 - 1) with 0. rewrite Z.shiftl_0_r.
  assert (Z.odd (Z.lxor x (Z.shiftl y 1)) = Z.odd x) as ->.
  { rewrite <-!Z.bit0_odd, Z.lxor_spec, Z.shiftl_spec_low by done. by rewrite xorb_false_r. }
  rewrite !Z.lxor_assoc. f_equal. apply Z.lxor_comm.
Qed.

Lemma iter_u32 n x : u32_ok x → u32_ok (Nat.iter n crc_bit x).
Proof. intros Hx. induction n; [done|]. by apply crc_bit_u32. Qed.

Lemma iter_inj n x y :
  u32_ok x → u32_ok y → Nat.iter n crc_bit x = Nat.iter n crc_bit y → x = y.
Proof.
  intros Hx Hy. induction n as [|n IH]; [done|]. cbn. intros E.
  apply IH, crc_bit_inj; auto using iter_u32.
Qed.

Lemma iter_pass n x y :
  Nat.iter n crc_bit (Z.lxor x (Z.shiftl y (Z.of_nat n))) = Z.lxor (Nat.iter n crc_bit x) y.
Proof.
  revert y. induction n as [|n IH]; intros y; [by rewrite Z.shiftl_0_r|].
  rewrite Nat2Z.inj_succ, <-Z.add_1_l, <-Z.shiftl_shiftl by lia.
  rewrite !Nat.iter_succ, IH. apply crc_bit_pass.
Qed.

(** ** Messages *)

Lemma crc_byte_u32 s b : u32_ok s → 0 ≤ b < 256 → u32_ok (crc_byte s b).
Proof. intros. apply iter_u32, lxor_u32; [done|]. unfold u32_ok. lia. Qed.

Lemma foldl_u32 l s : octets l → u32_ok s → u32_ok (foldl crc_byte s l).
Proof. intros Hl. revert s. induction Hl; intros s Hs; [done|]. simpl. auto using crc_byte_u32. Qed.

Lemma crc_byte_inj s t b :
  u32_ok s → u32_ok t → 0 ≤ b < 256 → crc_byte s b = crc_byte t b → s = t.
Proof.
  unfold crc_byte. intros Hs Ht Hb E%iter_inj; [|by apply lxor_u32; [|unfold u32_ok; lia]..].
  apply (f_equal (λ z, Z.lxor z b)) in E.
  by rewrite !Z.lxor_assoc, !Z.lxor_nilpotent, !Z.lxor_0_r in E.
Qed.

Lemma foldl_inj l s t :
  octets l → u32_ok s → u32_ok t → foldl crc_byte s l = foldl crc_byte t l → s = t.
Proof.
  intros Hl. revert s t. induction Hl as [|b l Hb Hl IH]; intros s t Hs Ht E; [done|].
  cbn [foldl] in E. eapply (crc_byte_inj s t b); [done..|].
  apply IH; [by apply crc_byte_u32..|exact E].
Qed.

Lemma le_cons_lxor b l : 0 ≤ b < 256 → le (b :: l) = Z.lxor b (Z.shiftl (le l) 8).
Proof.
  intros Hb. cbn [le foldr]. fold (le l).
  rewrite <-Z.add_nocarry_lxor; [rewrite Z.shiftl_mul_pow2 by done; lia|].
  apply Z.bits_inj'. intros i Hi. rewrite Z.land_spec, Z.bits_0.
  destruct (decide (i < 8)).
  - rewrite (Z.shiftl_spec_low _ 8 i) by lia. apply andb_false_r.
  - rewrite <-(Z.mod_small b (2 ^ 8)), Z.mod_pow2_bits_high by lia. done.
Qed.

(** The register after a message is the message, as one little-endian number
    xored into the start value, shifted out bit by bit. *)
Lemma foldl_crc_byte l s :
  octets l → foldl crc_byte s l = Nat.iter (8 * length l) crc_bit (Z.lxor s (le l)).
Proof.
  intros Hl. revert s. induction Hl as [|b l Hb Hl IH]; intros s.
  { by rewrite Z.lxor_0_r. }
  cbn [foldl]. rewrite IH, le_cons_lxor by done. unfold crc_byte.
  rewrite <-(iter_pass 8), <-Nat.iter_add, Z.lxor_assoc.
  f_equal. cbn [length]. lia.
Qed.

(** ** CRC-32 as polynomial division

    The standard definition, over the field of two elements: the message bits,
    lowest bit of each byte first, are divided by the generator polynomial
    x^32 + x^26 + ... + 1; the remainder starts from all ones, its coefficients
    are listed from x^31 down to 1, and its complement, x^31 as lowest bit, is
    the CRC. *)
Definition crc_terms : list nat := [26; 23; 22; 16; 12; 11; 10; 8; 7; 5; 4; 2; 1; 0]%nat.
Definition crc_generator : list bool :=
  (λ j, bool_decide ((31 - j)%nat ∈ crc_terms)) <$> seq 0 32.

(** The remainder when one more message bit is appended: the remainder times x,
    less the generator when a term x^32 comes up. *)
Definition crc_shift (r : list bool) (m : bool) : list bool :=
  match r with
  | [] => []
  | c :: r => let r := r ++ [false] in if xorb c m then zip_with xorb r crc_generator else r
  end.

(** The lowest [n] bits, lowest first, and the number they stand for. *)
Fixpoint low_bits (n : nat) (x : Z) : list bool :=
  match n with O => [] | S n => Z.odd x :: low_bits n (Z.div2 x) end.
Definition bits_value (l : list bool) : Z := foldr (λ b v, Z.b2z b + 2 * v) 0 l.

Definition crc32 (l : list Z) : Z :=
  bits_value (negb <$> foldl crc_shift (replicate 32 true) (concat (low_bits 8 <$> l))).

Lemma low_bits_lxor n x y : zip_with xorb (low_bits n x) (low_bits n y) = low_bits n (Z.lxor x y).
Proof.
  revert x y. induction n as [|n IH]; intros x y; [done|]. cbn [low_bits zip_with]. f_equal.
  - by rewrite <-!Z.bit0_odd, Z.lxor_spec.
  - rewrite IH. f_equal. by rewrite !Z.div2_spec, Z.shiftr_lxor.
Qed.

Lemma low_bits_top n x : 0 ≤ x < 2 ^ Z.of_nat n → low_bits n x ++ [false] = low_bits (S n) x.
Proof.
  revert x. induction n as [|n IH]; intros x Hx.
  - assert (x = 0) as -> by lia. done.
  - rewrite Nat2Z.inj_succ, Z.pow_succ_r in Hx by lia. cbn [low_bits app]. f_equal.
    apply (IH (Z.div2 x)). rewrite Z.div2_div. zdm.
Qed.

Lemma bits_value_low n x : 0 ≤ x < 2 ^ Z.of_nat n → bits_value (low_bits n x) = x.
Proof.
  revert x. induction n as [|n IH]; intros x Hx; [cbn; lia|].
  rewrite Nat2Z.inj_succ, Z.pow_succ_r in Hx by lia. cbn [low_bits bits_value foldr].
  fold (bits_value (low_bits n (Z.div2 x))). rewrite IH by (rewrite Z.div2_div; zdm).
  pose proof (Z.div2_odd x). lia.
Qed.

Lemma low_bits_negb x :
  negb <$> low_bits 32 x = low_bits 32 (Z.lxor x 0xFFFFFFFF).
Proof.
  rewrite <-low_bits_lxor. change (low_bits 32 0xFFFFFFFF) with (replicate 32 true).
  assert (∀ l, length l = 32%nat → negb <$> l = zip_with xorb l (replicate 32 true)) as H; [|by apply H].
  generalize 32%nat. intros n l <-. induction l as [|b l IH]; [done|]. cbn. by rewrite IH; destruct b.
Qed.

(** One bit: the generator is the constant of the code, lowest bit x^31. *)
Lemma crc_shift_bit x m :
  u32_ok x → crc_shift (low_bits 32 x) m = low_bits 32 (crc_bit (Z.lxor x (Z.b2z m))).
Proof.
  intros [Hx Hx2]. rewrite crc_bit_eq, <-Z.div2_spec.
  assert (Z.odd (Z.lxor x (Z.b2z m)) = xorb (Z.odd x) m) as ->.
  { rewrite <-!Z.bit0_odd, Z.lxor_spec. by destruct m. }
  assert (Z.div2 (Z.lxor x (Z.b2z m)) = Z.div2 x) as ->.
  { rewrite !Z.div2_spec, Z.shiftr_lxor. by destruct m; rewrite Z.lxor_0_r. }
  change (low_bits 32 x) with (Z.odd x :: low_bits 31 (Z.div2 x)). unfold crc_shift. cbv zeta.
  rewrite low_bits_top by (rewrite Z.div2_div; change (Z.of_nat 31) with 31; zdm).
  rewrite <-low_bits_lxor. destruct (xorb _ _); [done|].
  change (low_bits 32 0) with (replicate 32 false).
  assert (∀ n l, length l = n → zip_with xorb l (replicate n false) = l) as H; [|symmetry; by apply H].
  intros n l <-. induction l as [|b l IH]; [done|]. cbn. by rewrite IH, xorb_false_r.
Qed.

Lemma crc_shift_bits n x b :
  u32_ok x → foldl crc_shift (low_bits 32 x) (low_bits n b) = low_bits 32 (Nat.iter n crc_bit (Z.lxor x
    (Z.land b (Z.ones (Z.of_nat n))))).
Proof.
  revert x b. induction n as [|n IH]; intros x b Hx.
  { change (Z.ones (Z.of_nat 0)) with 0. by rewrite Z.land_0_r, Z.lxor_0_r. }
  assert (u32_ok (Z.lxor x (Z.b2z (Z.odd b)))) as Hx' by (apply lxor_u32; [done|by destruct (Z.odd b)]).
  change (low_bits (S n) b) with (Z.odd b :: low_bits n (Z.div2 b)). cbn [foldl].
  rewrite crc_shift_bit, IH by auto using crc_bit_u32.
  rewrite Nat.iter_succ_r, <-crc_bit_pass, Z.lxor_assoc. do 4 f_equal.
  apply Z.bits_inj'. intros k Hk. rewrite Z.lxor_spec. destruct (decide (k = 0)) as [->|].
  - rewrite Z.shiftl_spec_low, Z.land_spec, !Z.bit0_odd, xorb_false_r by done.
    rewrite <-(Z.bit0_odd (Z.ones _)), Z.testbit_ones_nonneg by lia.
    rewrite (proj2 (Z.ltb_lt _ _)), andb_true_r by lia. by destruct (Z.odd b).
  - rewrite Z.shiftl_spec, !Z.land_spec, Z.div2_spec, Z.shiftr_spec by lia. replace (k - 1 + 1) with k by lia.
    replace (Z.testbit (Z.b2z (Z.odd b)) k) with false.
    2:{ symmetry. destruct (Z.odd b); [|apply Z.testbit_0_l]. apply (Z.bits_above_log2 1); cbn; lia. }
    rewrite xorb_false_l, !Z.testbit_ones_nonneg by lia. f_equal. destruct (Z.ltb_spec (k - 1) (Z.of_nat n)), (Z.ltb_spec k (Z.of_nat (S n))); done || lia.
Qed.

Lemma crc32_foldl l : octets l → crc32 l = Z.lxor (foldl crc_byte 0xFFFFFFFF l) 0xFFFFFFFF.
Proof.
  intros Hl. unfold crc32. change (replicate 32 true) with (low_bits 32 0xFFFFFFFF).
  assert (∀ x, u32_ok x → foldl crc_shift (low_bits 32 x) (concat (low_bits 8 <$> l)) =
    low_bits 32 (foldl crc_byte x l)) as ->; [| |done].
  - induction Hl as [|b l Hb Hl IH]; intros x Hx; [done|]. cbn [fmap list_fmap concat foldl].
    rewrite foldl_app, crc_shift_bits, Z.land_ones, Z.mod_small by (done || lia).
    apply IH. by apply crc_byte_u32.
  - rewrite low_bits_negb. apply bits_value_low. apply lxor_u32; [by apply foldl_u32|done].
Qed.

Lemma pm_crc32_spec data len :
  octets data → 0 ≤ len ≤ Z.of_nat (length data) →
  pm_crc32 data len = Some (crc32 (take (Z.to_nat len) data)).
Proof.
  intros Hd Hlen. rewrite crc32_foldl by by apply Forall_take. unfold pm_crc32.
  loop_inv (λ i s, ∃ k : nat, i = Z.of_nat k ∧ s = foldl crc_byte 0xFFFFFFFF (take k data))
    as (s & -> & k & Hk & ->).
  - by exists 0%nat.
  - intros j s Hj (k & -> & ->). rewrite aget_of_nat.
    destruct (lookup_lt_is_Some_2 data k) as [b Hb]; [lia|]. rewrite Hb. simpl.
    eexists. split; [done|]. exists (S k). split; [lia|].
    by rewrite (take_S_r _ _ _ Hb), foldl_snoc.
  - simpl. do 3 f_equal. replace k with (Z.to_nat len) by lia. done.
Qed.

(** A burst of at most four octets changes the register. *)
Lemma crc32_burst p d d' q :
  octets p → octets d → octets d' → octets q →
  length d = length d' → (length d ≤ 4)%nat → d ≠ d' →
  crc32 (p ++ d ++ q) ≠ crc32 (p ++ d' ++ q).
Proof.
  intros Hp Hd Hd' Hq Hlen Hle Hne E.
  rewrite !crc32_foldl in E by (unfold octets; by rewrite !Forall_app).
  apply (f_equal (λ z, Z.lxor z 0xFFFFFFFF)) in E.
  rewrite !Z.lxor_assoc, !Z.lxor_nilpotent, !Z.lxor_0_r in E.
  rewrite !foldl_app in E. set (s := foldl crc_byte 0xFFFFFFFF p) in *.
  assert (u32_ok s) by (by apply foldl_u32).
  assert (∀ l, octets l → (length l ≤ 4)%nat → u32_ok (Z.lxor s (le l))) as Hs.
  { intros l Hl Hn. apply lxor_u32; [done|]. pose proof (le_range l Hl).
    assert (256 ^ Z.of_nat (length l) ≤ 256 ^ 4) by (apply Z.pow_le_mono_r; lia).
    unfold u32_ok. lia. }
  apply foldl_inj in E; [|done|by apply foldl_u32..].
  rewrite !foldl_crc_byte, Hlen in E by done.
  apply iter_inj in E; [|apply Hs; [done|lia]..].
  apply (f_equal (λ z, Z.lxor s z)) in E.
  rewrite <-!Z.lxor_assoc, !Z.lxor_nilpotent, !Z.lxor_0_l in E.
  by apply Hne, le_inj.
Qed.

(** The CRC of the partition manager is a CRC: it is the whole message, as
    one little-endian number xored with the start value, shifted through the
    32-bit register bit by bit; and two messages of the same length that differ
    only within four consecutive bytes never have the same CRC. *)
Theorem pm_crc32_detects_bursts p d d' q :
  octets p → octets d → octets d' → octets q →
  length d = length d' → (length d ≤ 4)%nat → d ≠ d' →
  ∃ c c', pm_crc32 (p ++ d ++ q) (Z.of_nat (length (p ++ d ++ q))) = Some c ∧
    pm_crc32 (p ++ d' ++ q) (Z.of_nat (length (p ++ d' ++ q))) = Some c' ∧
    c = crc32 (p ++ d ++ q) ∧ c' = crc32 (p ++ d' ++ q) ∧ c ≠ c'.
Proof.
  intros Hp Hd Hd' Hq Hlen Hle Hne. do 2 eexists.
  rewrite !pm_crc32_spec, !Nat2Z.id, !firstn_all
    by first [lia|unfold octets; by rewrite !Forall_app].
  split_and!; [done..|]. by apply crc32_burst.
Qed.

(** The check value of CRC-32: the digits 1 to 9. *)
Example pm_crc32_check : pm_crc32 [49; 50; 51; 52; 53; 54; 55; 56; 57] 9 = Some 0xCBF43926.
Proof. by vm_compute. Qed.

Lemma pm_crc32_detects_bursts_witness :
  pm_crc32 [1; 2; 3; 4; 5; 6] 6 ≠ pm_crc32 [1; 9; 3; 0; 0; 6] 6.
Proof.
  destruct (pm_crc32_detects_bursts [1] [2; 3; 4; 5] [9; 3; 0; 0] [6])
    as (c & c' & E & E' & _ & _ & Hne);
    [by repeat constructor..|done|simpl; lia|done|].
  cbn [app length Z.of_nat] in E, E'. intros H. apply Hne.
  change (Z.of_nat 6) with 6 in *. congruence.
Defined.

(** ** The reader

    What the caller's block reader promises.  [sr_sector w ctx lba] is sector
    [lba] of the medium behind [ctx]; a read may fail at any time, and then may
    have stored anything. *)
Class SectorReader (W : Type) := {
  sr_read : Z → Z → Z → Z → W → W * Z * list Z;
  sr_sector : W → Z → Z → list Z;
  sr_length w ctx lba : length (sr_sector w ctx lba) = 512%nat;
  sr_octets w ctx lba : octets (sr_sector w ctx lba);
  sr_data_octets fn ctx lba n w w' rc data :
    sr_read fn ctx lba n w = (w', rc, data) → octets data;
  sr_frame fn ctx lba n w w' rc data :
    sr_read fn ctx lba n w = (w', rc, data) → ∀ c k, sr_sector w' c k = sr_sector w c k;
  sr_data fn ctx lba n w w' data :
    sr_read fn ctx lba n w = (w', 0, data) → 0 ≤ n →
    take (Z.to_nat (n * 512)) data = concat (map (λ j, sr_sector w ctx (lba + j)) (seqZ 0 n))
}.

(** A reader that never fails. *)
Definition reliable (W : Type) `{SectorReader W} : Prop :=
  ∀ fn ctx lba n w w' rc data, sr_read fn ctx lba n w = (w', rc, data) → rc = 0.

(** ** Fields of on-disk structures *)
Definition slice (l : list Z) (off n : Z) : list Z := take (Z.to_nat n) (drop (Z.to_nat off) l).
Definition field (l : list Z) (off n : Z) : Z := le (slice l off n).

(** ** The abstract partition table *)

(** Partitions in table order, numbered from 1. *)
Definition with_index (i : nat) (e : partmgr_entry_t) : partmgr_entry_t :=
  mk_pentry (Z.of_nat i + 1) (pe_bootable e) (pe_gpt e) (pe_mbr_type e) (pe_type_guid e)
    (pe_unique_guid e) (pe_first_lba e) (pe_last_lba e) (pe_sector_count e) (pe_name e).
Definition numbered (ps : list partmgr_entry_t) : list partmgr_entry_t := imap with_index ps.

Definition with_parts (t : partmgr_table_t) (ps : list partmgr_entry_t) : partmgr_table_t :=
  t <| pt_entry_count := Z.of_nat (length ps) |>
    <| pt_entries := numbered ps ++ replicate (16 - length ps) zero_pentry |>.

(** *** MBR *)
Definition signed (s : list Z) : bool := (field s 510 1 =? 0x55) && (field s 511 1 =? 0xAA).

(** The partition of the 16-byte entry at [off], none when it is empty. *)
Definition mbr_part (s : list Z) (off first : Z) : list partmgr_entry_t :=
  let type := field s (off + 4) 1 in
  let count := field s (off + 12) 4 in
  if (type =? 0) || (type =? 0xEE) then []
  else [mk_pentry 0 (128 <=? field s off 1) false type zero_guid zero_guid first
          (if 0 <? count then u64 (first + count - 1) else first) count (replicate 36 0)].

Definition mbr_type (s : list Z) (i : Z) : Z := field s (446 + 16 * i + 4) 1.
(** The types of extended partitions: DOS, LBA and Linux. *)
Definition extended_type (t : Z) : bool := bool_decide (t ∈ [0x05; 0x0F; 0x85]).
Definition is_extended (s : list Z) (i : Z) : bool := extended_type (mbr_type s i).
Definition is_protective (s : list Z) (i : Z) : bool := mbr_type s i =? 0xEE.
Definition mbr_start (s : list Z) (i : Z) : Z := field s (446 + 16 * i + 8) 4.

Definition primary (s : list Z) (i : Z) : list partmgr_entry_t :=
  if is_extended s i then [] else mbr_part s (446 + 16 * i) (mbr_start s i).
Definition primaries (s : list Z) (ks : list Z) : list partmgr_entry_t :=
  concat (map (primary s) ks).
Definition extended_bases (s : list Z) (ks : list Z) : list Z :=
  map (mbr_start s) (filter (λ i, is_extended s i = true) ks).

(** The logical partitions of the chain that starts at [cur]; a chain of more
    than [n] links, a loop for instance, is cut. *)
Fixpoint ebr_chain (n : nat) (disk : Z → list Z) (base cur : Z) : list partmgr_entry_t :=
  match n with
  | O => []
  | S n =>
      let s := disk cur in
      if signed s then
        mbr_part s 446 (u64 (cur + field s (446 + 8) 4)) ++
        (if extended_type (field s (462 + 4) 1)
         then ebr_chain n disk base (u64 (base + field s (462 + 8) 4)) else [])
      else []
  end.

Definition logicals (s : list Z) (disk : Z → list Z) : list partmgr_entry_t :=
  match last (extended_bases s [0; 1; 2; 3]) with
  | Some base => ebr_chain 64 disk base base
  | None => []
  end.

Definition mbr_head (s : list Z) (ks : list Z) : partmgr_table_t :=
  zero_ptable <| pt_style := PARTMGR_STYLE_MBR |> <| pt_valid := true |>
    <| pt_protective_mbr := existsb (is_protective s) ks |>.

Definition mbr_table (s : list Z) (ls : list partmgr_entry_t) : partmgr_table_t :=
  with_parts (mbr_head s [0; 1; 2; 3]) (take 16 (primaries s [0; 1; 2; 3] ++ ls)).

(** *** GPT *)
Definition zero_crc (h : list Z) : list Z := take 16 h ++ replicate 4 0 ++ drop 20 h.

Definition gpt_count (h : list Z) : Z := field h 80 4.
Definition gpt_size (h : list Z) : Z := field h 84 4.

(** The entry array the header describes. *)
Definition gpt_array (disk : Z → list Z) : list Z :=
  let h := disk 1 in
  let n := gpt_count h * gpt_size h in
  take (Z.to_nat n)
    (concat (map (λ j, disk (field h 72 8 + j)) (seqZ 0 ((n + 511) / 512)))).

(** The signature EFI PART. *)
Definition efi_part : list Z := [0x45; 0x46; 0x49; 0x20; 0x50; 0x41; 0x52; 0x54].

Definition gpt_check (disk : Z → list Z) : partmgr_status_t :=
  let h := disk 1 in
  if negb (bool_decide (slice h 0 8 = efi_part)) then PARTMGR_ERR_NO_TABLE
  else if (field h 12 4 <? 92) || (512 <? field h 12 4) then PARTMGR_ERR_CRC
  else if negb (crc32 (slice (zero_crc h) 0 (field h 12 4)) =? field h 16 4)
  then PARTMGR_ERR_CRC
  else if (gpt_size h <? 128) || (gpt_count h =? 0) then PARTMGR_ERR_NO_TABLE
  else if 16384 <? gpt_count h * gpt_size h then PARTMGR_ERR_NO_SPACE
  else if negb (crc32 (gpt_array disk) =? field h 88 4) then PARTMGR_ERR_CRC
  else PARTMGR_OK.

Definition gpt_part (a : list Z) (off : Z) : partmgr_entry_t :=
  let first := field a (off + 32) 8 in
  let last := field a (off + 40) 8 in
  mk_pentry 0 false true 0 (slice a off 16) (slice a (off + 16) 16) first last
    (if first <=? last then u64 (last - first + 1) else 0)
    (map (λ c, field a (off + (56 + c * 2)) 2) (seqZ 0 36)).

(** Slot [i] of the array: no partition when its type GUID is zero. *)
Definition gpt_slot_part (a : list Z) (size i : Z) : list partmgr_entry_t :=
  if bool_decide (slice a (i * size) 16 = zero_guid) then [] else [gpt_part a (i * size)].

Definition gpt_slots (disk : Z → list Z) (n : Z) : list partmgr_entry_t :=
  concat (map (gpt_slot_part (gpt_array disk) (gpt_size (disk 1))) (seqZ 0 n)).

(** The used slots among the first 16, and all used slots. *)
Definition gpt_parts (disk : Z → list Z) : list partmgr_entry_t :=
  gpt_slots disk (Z.min (gpt_count (disk 1)) 16).
Definition gpt_all (disk : Z → list Z) : list partmgr_entry_t := gpt_slots disk (gpt_count (disk 1)).

(** No slot behind the first 16 is used. *)
Definition gpt_short (disk : Z → list Z) : Prop := ∀ i, 16 ≤ i < gpt_count (disk 1) →
  slice (gpt_array disk) (i * gpt_size (disk 1)) 16 = zero_guid.

Lemma gpt_parts_all disk : 0 ≤ gpt_count (disk 1) → gpt_short disk → gpt_parts disk = gpt_all disk.
Proof.
  intros Hc Hs. unfold gpt_parts, gpt_all. destruct (decide (gpt_count (disk 1) ≤ 16)); [by rewrite Z.min_l|].
  rewrite Z.min_r by lia. unfold gpt_slots. replace (gpt_count (disk 1)) with (16 + (gpt_count (disk 1) - 16)) by lia.
  rewrite seqZ_app, map_app, concat_app by lia. rewrite <-(app_nil_r (concat _)) at 1. f_equal.
  symmetry. apply concat_nil_Forall, Forall_fmap, Forall_forall. intros i Hi%elem_of_seqZ. cbn.
  unfold gpt_slot_part. rewrite bool_decide_true; [done|]. apply Hs. lia.
Qed.

Definition gpt_table (disk : Z → list Z) : partmgr_table_t :=
  with_parts (zero_ptable <| pt_style := PARTMGR_STYLE_GPT |> <| pt_valid := true |>
                <| pt_protective_mbr := true |> <| pt_disk_guid := slice (disk 1) 56 16 |>)
    (gpt_parts disk).

(** ** Reading fields *)

Lemma octets_lookup l i b : octets l → l !! i = Some b → 0 ≤ b < 256.
Proof. intros Hl. by apply (Forall_lookup_1 _ _ _ _ Hl). Qed.

Lemma octets_slice l off n : octets l → octets (slice l off n).
Proof. intros. by apply Forall_take, Forall_drop. Qed.

Lemma slice_length l off n :
  0 ≤ off → 0 ≤ n → off + n ≤ Z.of_nat (length l) → length (slice l off n) = Z.to_nat n.
Proof. intros. unfold slice. rewrite length_take, length_drop. lia. Qed.

Lemma field_range l off n : octets l → 0 ≤ n → 0 ≤ field l off n < 256 ^ n.
Proof.
  intros Hl Hn. unfold field.
  pose proof (le_range (slice l off n) (octets_slice _ _ _ Hl)) as Hr.
  assert (256 ^ Z.of_nat (length (slice l off n)) ≤ 256 ^ n).
  { apply Z.pow_le_mono_r; [lia|]. unfold slice. rewrite length_take. lia. }
  lia.
Qed.

(** A slice starts with the byte at its offset. *)
Lemma slice_cons l off n b :
  0 ≤ off → 0 < n → aget l off = Some b → slice l off n = b :: slice l (off + 1) (n - 1).
Proof.
  intros Hoff Hn [_ Hb]%aget_Some. unfold slice.
  rewrite (drop_lookup_cons _ _ _ Hb).
  replace (Z.to_nat n) with (S (Z.to_nat (n - 1))) by lia.
  by replace (Z.to_nat (off + 1)) with (S (Z.to_nat off)) by lia.
Qed.

Lemma slice_0 l off : slice l off 0 = [].
Proof. done. Qed.

Lemma slice_app a k off n :
  0 ≤ off → 0 ≤ n → off + n ≤ Z.of_nat (length a) → slice (a ++ k) off n = slice a off n.
Proof.
  intros. unfold slice. rewrite drop_app_le, take_app_le; [done|rewrite length_drop; lia|lia].
Qed.

Lemma aget_octet l off :
  octets l → 0 ≤ off < Z.of_nat (length l) → ∃ b, aget l off = Some b ∧ 0 ≤ b < 256.
Proof.
  intros Hl Hoff. destruct (aget_is_Some l off) as [b Hb]; [done|]. exists b. split; [done|].
  apply aget_Some in Hb as [_ Hb]. by eapply octets_lookup.
Qed.

Lemma aget_field l off :
  octets l → 0 ≤ off < Z.of_nat (length l) → aget l off = Some (field l off 1).
Proof.
  intros Hl Hoff. destruct (aget_octet l off) as (b & Hb & _); [done..|]. rewrite Hb.
  unfold field. rewrite (slice_cons l off 1 b), slice_0 by first [done|lia].
  cbn. f_equal. lia.
Qed.

Lemma lor_le a b n :
  0 ≤ n → 0 ≤ a < 2 ^ n → Z.lor a (Z.shiftl b n) = a + b * 2 ^ n.
Proof. intros. rewrite Z.lor_comm, lor_shiftl_add by lia. lia. Qed.

Lemma pm_rd32le_spec l off :
  octets l → 0 ≤ off → off + 4 ≤ Z.of_nat (length l) →
  pm_rd32le l off = Some (field l off 4).
Proof.
  intros Hl Hoff Hlen. unfold pm_rd32le.
  destruct (aget_octet l off) as (b0 & H0 & R0); [done|lia|].
  destruct (aget_octet l (off + 1)) as (b1 & H1 & R1); [done|lia|].
  destruct (aget_octet l (off + 2)) as (b2 & H2 & R2); [done|lia|].
  destruct (aget_octet l (off + 3)) as (b3 & H3 & R3); [done|lia|].
  rewrite H0, H1, H2, H3, !obind_Some. f_equal. unfold field.
  rewrite (slice_cons l off 4 b0), (slice_cons l (off + 1) _ b1),
    (slice_cons l (off + 1 + 1) _ b2), (slice_cons l (off + 1 + 1 + 1) _ b3)
    by first [lia|done|replace (off + 1 + 1) with (off + 2) by lia; done
             |replace (off + 1 + 1 + 1) with (off + 3) by lia; done].
  change (4 - 1 - 1 - 1 - 1) with 0. rewrite slice_0. cbn [le foldr].
  rewrite !u32_small by (rewrite Z.shiftl_mul_pow2 by done; lia).
  rewrite (lor_le b0), (lor_le _ b2 16), (lor_le _ b3 24) by lia. lia.
Qed.

Lemma pm_rd64le_spec l off :
  octets l → 0 ≤ off → off + 8 ≤ Z.of_nat (length l) →
  pm_rd64le l off = Some (field l off 8).
Proof.
  intros Hl Hoff Hlen. unfold pm_rd64le.
  loop_inv (λ i v, ∃ k : nat, i = Z.of_nat k ∧ v = field l off (Z.of_nat k))
    as (v & Hv & k & Hk & ->).
  - by exists 0%nat.
  - intros j v Hj (k & -> & ->). destruct (aget_octet l (off + Z.of_nat k)) as (b & Hb & Rb);
      [done|lia|]. rewrite Hb. eexists. split; [done|]. exists (S k). split; [lia|].
    pose proof (field_range l off (Z.of_nat k) Hl ltac:(lia)) as Hf.
    assert (256 ^ Z.of_nat k = 2 ^ (8 * Z.of_nat k)) as Hp by (by rewrite Z.pow_mul_r by lia).
    assert (0 < 2 ^ (8 * Z.of_nat k) ≤ 2 ^ 56).
    { split; [apply Z.pow_pos_nonneg; lia|apply Z.pow_le_mono_r; lia]. }
    assert (u64 (Z.shiftl b (u32 (8 * Z.of_nat k))) = Z.shiftl b (8 * Z.of_nat k)) as ->.
    { rewrite u32_small by lia. apply u64_small. rewrite Z.shiftl_mul_pow2 by lia. nia. }
    rewrite lor_le by lia. unfold field, slice.
    apply aget_Some in Hb as [_ Hb]. rewrite !Nat2Z.id.
    rewrite (take_S_r _ _ b) by (rewrite lookup_drop, <-Hb; f_equal; lia).
    set (p := take k (drop (Z.to_nat off) l)).
    assert (length p = k) as Hp' by (unfold p; rewrite length_take, length_drop; lia).
    rewrite <-Hp, <-Hp'. clear. induction p as [|x p IH]; [cbn; lia|].
    cbn [app le foldr length]. fold (le (p ++ [b])) (le p). rewrite <-IH.
    rewrite Nat2Z.inj_succ, Z.pow_succ_r by lia. lia.
  - rewrite Hv. do 2 f_equal. lia.
Qed.

#[export] Hint Resolve octets_slice : cmodel.

(** ** The table *)

Lemma with_parts_twice t ps qs : with_parts (with_parts t ps) qs = with_parts t qs.
Proof. done. Qed.

Lemma numbered_length ps : length (numbered ps) = length ps.
Proof. apply length_imap. Qed.

Lemma numbered_snoc ps e : numbered (ps ++ [e]) = numbered ps ++ [with_index (length ps) e].
Proof. unfold numbered. rewrite imap_app. simpl. by rewrite Nat.add_0_r. Qed.

(** Storing the next partition. *)
Lemma with_parts_push t ps e :
  (length ps < 16)%nat →
  aset (pt_entries (with_parts t ps)) (pt_entry_count (with_parts t ps))
    (with_index (length ps) e) =
  Some (pt_entries (with_parts t (ps ++ [e]))).
Proof.
  intros Hlt. cbn [with_parts pt_entries pt_entry_count set_field].
  replace (16 - length ps)%nat with (S (16 - length (ps ++ [e])))
    by (rewrite length_app; simpl; lia).
  simpl replicate. rewrite aset_app_at by (by rewrite numbered_length).
  by rewrite numbered_snoc, <-app_assoc.
Qed.

Lemma with_parts_snoc t ps e :
  (length ps < 16)%nat →
  (with_parts t ps) <| pt_entries := pt_entries (with_parts t (ps ++ [e])) |>
                    <| pt_entry_count := u32 (pt_entry_count (with_parts t ps) + 1) |>
  = with_parts t (ps ++ [e]).
Proof.
  intros Hlt. cbn. unfold with_parts, set_field. cbn. f_equal.
  rewrite u32_small by lia. rewrite length_app. simpl. lia.
Qed.

(** ** MBR entries *)

Lemma extended_type_eq t : pm_mbr_type_is_extended t = extended_type t.
Proof.
  unfold pm_mbr_type_is_extended, extended_type. case_bool_decide as E; [set_solver by lia|].
  rewrite !elem_of_cons in E. destruct (Z.eqb_spec t 5), (Z.eqb_spec t 15), (Z.eqb_spec t 133); naive_solver.
Qed.

Lemma boot_flag b : 0 ≤ b < 256 → nz (Z.land b 0x80) = (128 <=? b).
Proof.
  intros Hb. apply eqb_prop.
  apply (all_below_spec 256 (λ b, eqb (nz (Z.land b 128)) (128 <=? b))); [by vm_compute|lia].
Qed.

Lemma pm_store_mbr_entry_spec t ps s off first :
  octets s → 0 ≤ off → off + 16 ≤ Z.of_nat (length s) → 0 ≤ first < 2 ^ 64 →
  (length ps ≤ 16)%nat →
  pm_store_mbr_entry (with_parts t ps) s off first =
    Some (with_parts t (take 16 (ps ++ mbr_part s off first))).
Proof.
  intros Hs Hoff Hlen Hfirst Hps. unfold pm_store_mbr_entry, mbr_part.
  rewrite (aget_field s (off + 4)), obind_Some by first [done|lia].
  case_if; [by rewrite app_nil_r, take_ge by done|].
  change (pt_entry_count (with_parts t ps)) with (Z.of_nat (length ps)).
  unfold PARTMGR_MAX_ENTRIES. case_if.
  { rewrite take_app_le, take_ge by lia. done. }
  rewrite aget_field, pm_rd32le_spec, !obind_Some by first [done|lia].
  pose proof (field_range s off 1 Hs ltac:(lia)).
  pose proof (field_range s (off + 12) 4 Hs ltac:(lia)).
  rewrite boot_flag, (take_ge (_ ++ [_])) by (rewrite ?length_app; simpl; lia).
  set (last := if 0 <? _ then _ else first). set (last' := if 0 <? _ then u64 _ else first).
  replace last with last'.
  2:{ unfold last, last', u64, wrap. case_match; [|done]. by rewrite Zminus_mod_idemp_l. }
  set (e := mk_pentry 0 _ _ _ _ _ _ _ _ _).
  set (d := mk_pentry (u32 _) _ _ _ _ _ _ _ _ _).
  replace d with (with_index (length ps) e)
    by (unfold d, e, with_index; cbn; by rewrite u32_small by lia).
  change (Z.of_nat (length ps)) with (pt_entry_count (with_parts t ps)).
  rewrite with_parts_push, obind_Some by lia. by rewrite with_parts_snoc by lia.
Qed.

Lemma primaries_length s ks : (length (primaries s ks) ≤ length ks)%nat.
Proof.
  unfold primaries. induction ks as [|k ks IH]; [done|]. simpl. rewrite length_app.
  assert (length (primary s k) ≤ 1)%nat; [|lia].
  unfold primary, mbr_part. repeat case_match; simpl; lia.
Qed.

Lemma extended_length s ks : (length (extended_bases s ks) ≤ length ks)%nat.
Proof. unfold extended_bases. rewrite length_map. apply length_filter. Qed.

(** The loop over the primary entries. *)
Lemma primary_entry_step s ks (i : Z) :
  octets s → length s = 512%nat → 0 ≤ i < 4 → (length ks < 4)%nat →
  primary_entry s i (with_parts (mbr_head s ks) (primaries s ks),
                     Z.of_nat (length (extended_bases s ks)),
                     default 0 (last (extended_bases s ks))) =
  Some (with_parts (mbr_head s (ks ++ [i])) (primaries s (ks ++ [i])),
        Z.of_nat (length (extended_bases s (ks ++ [i]))),
        default 0 (last (extended_bases s (ks ++ [i])))).
Proof.
  intros Hs Hlen Hi Hks. unfold primary_entry.
  pose proof (primaries_length s ks). pose proof (extended_length s ks).
  replace (446 + i * 16) with (446 + 16 * i) by lia.
  rewrite aget_field, obind_Some by first [done|lia]. fold (mbr_type s i).
  assert (mbr_head s (ks ++ [i]) = (mbr_head s ks) <| pt_protective_mbr :=
            existsb (is_protective s) ks || is_protective s i |>) as ->.
  { unfold mbr_head, set_field. rewrite existsb_app. cbn. by rewrite orb_false_r. }
  assert (extended_bases s (ks ++ [i]) = extended_bases s ks ++
            if is_extended s i then [mbr_start s i] else []) as ->.
  { unfold extended_bases. rewrite filter_app, map_app. f_equal.
    rewrite filter_cons, filter_nil. by destruct (is_extended s i). }
  assert (primaries s (ks ++ [i]) = primaries s ks ++ primary s i) as ->.
  { unfold primaries. rewrite map_app, concat_app. simpl. by rewrite app_nil_r. }
  unfold primary, is_protective, is_extended. rewrite extended_type_eq. case_if.
  { replace (extended_type (mbr_type s i)) with false
      by (by replace (mbr_type s i) with 0xEE by lia).
    unfold mbr_part. fold (mbr_type s i). replace (mbr_type s i =? 0xEE) with true by lia.
    by rewrite !orb_true_r, !app_nil_r. }
  rewrite orb_false_r, pm_rd32le_spec by first [done|lia]. fold (mbr_start s i).
  case_if; rewrite !obind_Some.
  - rewrite u32_small, length_app, last_snoc, app_nil_r by lia. simpl.
    repeat f_equal. lia.
  - assert (0 ≤ mbr_start s i < 256 ^ 4) by (apply field_range; [done|lia]).
    rewrite pm_store_mbr_entry_spec, obind_Some by first [done|lia].
    rewrite !app_nil_r, take_ge; [done|]. rewrite length_app.
    unfold mbr_part. case_if; simpl; lia.
Qed.

(** ** Reading the medium *)
Section medium.
Context `{SectorReader W}.
Implicit Types (w : W) (p : partmgr_t).

(** The medium as the manager sees it. *)
Definition disk_of w p : Z → list Z := sr_sector w (pm_ctx p).

Definition same_disk w w' : Prop := ∀ c k, sr_sector w' c k = sr_sector w c k.

Lemma read_sectors_spec p lba n buf off w :
  octets buf → 0 ≤ off → 0 ≤ n → off + n * 512 ≤ Z.of_nat (length buf) →
  ∃ w' rc buf', read_sectors sr_read p lba n buf off w = Some (w', rc, buf') ∧
    same_disk w w' ∧ octets buf' ∧ length buf' = length buf ∧ (reliable W → rc = 0) ∧
    (rc = 0 → slice buf' off (n * 512) =
       concat (map (λ j, disk_of w p (lba + j)) (seqZ 0 n))).
Proof.
  intros Hbuf Hoff Hn Hlen. unfold read_sectors, PARTMGR_SECTOR_SIZE.
  rewrite aslice_in, obind_Some by lia.
  destruct (sr_read (pm_read p) (pm_ctx p) lba n w) as [[w' rc] data] eqn:E.
  set (d := take (Z.to_nat (n * 512)) data).
  assert (length d ≤ Z.to_nat (n * 512))%nat by (unfold d; rewrite length_take; lia).
  rewrite awrite_in, obind_Some by lia. do 3 eexists. split; [done|].
  pose proof (sr_data_octets _ _ _ _ _ _ _ _ E) as Hd.
  split_and!.
  - intros c k. by eapply sr_frame.
  - unfold octets. rewrite !Forall_app. split_and!;
      [by apply Forall_take|by apply Forall_take|by apply Forall_drop].
  - rewrite !length_app, length_take, length_drop. lia.
  - intros Hr. by eapply Hr.
  - intros ->. pose proof (sr_data _ _ _ _ _ _ _ E Hn) as Hdata. fold d in Hdata.
    assert (length d = Z.to_nat (n * 512)) as Hdl.
    { rewrite Hdata. clear -Hn.
      enough (∀ l, length (concat (map (λ j, sr_sector w (pm_ctx p) (lba + j)) l)) =
                     (512 * length l)%nat) as ->.
      { rewrite length_seqZ. lia. }
      induction l as [|x l IH]; [done|]. simpl. rewrite length_app, sr_length, IH. lia. }
    unfold disk_of. rewrite <-Hdata. unfold slice.
    rewrite drop_app_length' by (rewrite length_take; lia).
    by rewrite take_app_length' by done.
Qed.

(** One sector into a sector buffer. *)
Lemma read_sector_spec p lba buf w :
  octets buf → length buf = 512%nat →
  ∃ w' rc buf', read_sectors sr_read p lba 1 buf 0 w = Some (w', rc, buf') ∧
    same_disk w w' ∧ octets buf' ∧ length buf' = 512%nat ∧ (reliable W → rc = 0) ∧
    (rc = 0 → buf' = disk_of w p lba).
Proof.
  intros Hb Hl.
  destruct (read_sectors_spec p lba 1 buf 0 w) as (w' & rc & b & E & ? & ? & Hlen & ? & Hd);
    [done|lia..|].
  exists w', rc, b. split_and!; [done..|congruence|done|]. intros Hrc. apply Hd in Hrc.
  unfold slice in Hrc. rewrite take_ge in Hrc by (rewrite length_drop; simpl; lia).
  simpl in Hrc. by rewrite app_nil_r, Z.add_0_r in Hrc.
Qed.

Lemma disk_octets w p k : octets (disk_of w p k).
Proof. apply sr_octets. Qed.

Lemma disk_length w p k : length (disk_of w p k) = 512%nat.
Proof. apply sr_length. Qed.

Lemma signed_spec s :
  octets s → length s = 512%nat →
  ∃ a b, aget s 510 = Some a ∧ aget s 511 = Some b ∧ signed s = (a =? 0x55) && (b =? 0xAA).
Proof.
  intros Hs Hl. exists (field s 510 1), (field s 511 1).
  rewrite !aget_field by first [done|lia]. done.
Qed.

Lemma take_take_app_16 {A} (ps a b : list A) :
  take 16 (take 16 (ps ++ a) ++ b) = take 16 (ps ++ a ++ b).
Proof.
  destruct (decide (length (ps ++ a) ≤ 16)%nat) as [Hle|].
  - by rewrite (take_ge (ps ++ a)), app_assoc by done.
  - rewrite take_app_le by (rewrite length_take; lia). rewrite take_take, Nat.min_id.
    rewrite app_assoc, (take_app_le (ps ++ a)) by lia. done.
Qed.

(** ** The extended chain *)
Lemma ebr_chain_ext n d d' base cur :
  (∀ k, d k = d' k) → ebr_chain n d base cur = ebr_chain n d' base cur.
Proof.
  intros Hd. revert cur. induction n as [|n IH]; intros cur; [done|]. simpl.
  by rewrite Hd, IH.
Qed.

Lemma follow_loop_spec n p t ps base cur ebr w :
  octets ebr → length ebr = 512%nat → 0 ≤ cur < 2 ^ 64 → (length ps ≤ 16)%nat →
  ∃ w' st l, follow_loop sr_read n (p <| pm_table := with_parts t ps |>) base cur ebr w =
      Some (w', p <| pm_table := with_parts t (take 16 (ps ++ l)) |>, st) ∧
    same_disk w w' ∧ l `prefix_of` ebr_chain n (disk_of w p) base cur ∧
    (reliable W → l = ebr_chain n (disk_of w p) base cur).
Proof.
  revert ps cur ebr w. induction n as [|n IH]; intros ps cur ebr w Hebr Hlen Hcur Hps.
  { exists w, PARTMGR_ERR_NO_TABLE, []. rewrite app_nil_r, take_ge by done. by split_and!. }
  cbn [follow_loop ebr_chain].
  destruct (read_sector_spec (p <| pm_table := with_parts t ps |>) cur ebr w)
    as (w1 & rc & s & -> & Hd1 & Hs & Hsl & Hrel & Hdata); [done..|]. rewrite obind_Some.
  destruct (nz rc) eqn:Hrc; zbool.
  { exists w1, PARTMGR_ERR_IO, []. rewrite app_nil_r, take_ge by done.
    split_and!; [done..|apply prefix_nil|]. intros Hr%Hrel. done. }
  specialize (Hdata Hrc). change (disk_of w _ cur) with (disk_of w p cur) in Hdata.
  rewrite <-Hdata. destruct (signed_spec s) as (a & b & -> & -> & ->); [done..|].
  rewrite !obind_Some, <-negb_andb. destruct ((a =? 85) && (b =? 170)); simpl negb; cbv iota.
  2:{ exists w1, PARTMGR_ERR_NO_TABLE, []. rewrite app_nil_r, take_ge by done. by split_and!. }
  rewrite (pm_rd32le_spec s (446 + 8)), obind_Some by first [done|lia].
  cbn [pm_table set_field]. change (pm_table (p <| pm_table := with_parts t ps |>))
    with (with_parts t ps).
  rewrite pm_store_mbr_entry_spec, obind_Some by first [done|lia|apply u64_range].
  rewrite (aget_field s (462 + 4)), obind_Some by first [done|lia].
  set (part := mbr_part s 446 _). rewrite extended_type_eq. destruct (extended_type _); simpl negb; cbv iota.
  2:{ exists w1, PARTMGR_OK, part. rewrite app_nil_r. by split_and!. }
  rewrite (pm_rd32le_spec s (462 + 8)), obind_Some by first [done|lia].
  destruct (IH (take 16 (ps ++ part)) (u64 (base + field s (462 + 8) 4)) s w1)
    as (w2 & st & l & E & Hd2 & Hpre & Hl);
    [done..|apply u64_range|rewrite length_take; lia|].
  exists w2, st, (part ++ l). rewrite take_take_app_16 in E.
  rewrite (ebr_chain_ext _ _ (disk_of w p)) in Hpre, Hl by (intros; apply Hd1).
  split_and!; [done| |by apply prefix_app|].
  - intros c k. by rewrite Hd2.
  - intros Hr. by rewrite Hl.
Qed.

Lemma primary_loop s :
  octets s → length s = 512%nat →
  for_up 4 0 (primary_entry s)
    ((zero_ptable <| pt_style := PARTMGR_STYLE_MBR |>) <| pt_valid := true |>, 0, 0) =
  Some (with_parts (mbr_head s [0; 1; 2; 3]) (primaries s [0; 1; 2; 3]),
        Z.of_nat (length (extended_bases s [0; 1; 2; 3])),
        default 0 (last (extended_bases s [0; 1; 2; 3]))).
Proof.
  intros Hs Hl.
  pose proof (λ ks i, primary_entry_step s ks i Hs Hl) as Hstep.
  cbn [for_up].
  change ((zero_ptable <| pt_style := PARTMGR_STYLE_MBR |>) <| pt_valid := true |>, 0, 0)
    with (with_parts (mbr_head s []) (primaries s []), Z.of_nat (length (extended_bases s [])),
          default 0 (last (extended_bases s []))).
  rewrite (Hstep []), obind_Some by (simpl; lia). cbn [app].
  rewrite (Hstep [0]), obind_Some by (simpl; lia). cbn [app].
  rewrite (Hstep [0; 1]), obind_Some by (simpl; lia). cbn [app].
  rewrite (Hstep [0; 1; 2]), obind_Some by (simpl; lia). done.
Qed.

Lemma extended_base_range s ks base :
  octets s → last (extended_bases s ks) = Some base → 0 ≤ base < 2 ^ 64.
Proof.
  intros Hs Hb. apply last_Some in Hb as [l Hb].
  assert (base ∈ extended_bases s ks) as Hin.
  { rewrite Hb. apply elem_of_app. right. by apply list_elem_of_singleton. }
  apply list_elem_of_fmap in Hin as (i & -> & _).
  pose proof (field_range s (446 + 16 * i + 8) 4 Hs ltac:(lia)). unfold mbr_start. lia.
Qed.

Context (stack : list Z) (Hstack : octets stack) (Hstack_len : length stack = 512%nat).

Lemma read_mbr_spec p s w :
  pm_initialized p = true → octets s → length s = 512%nat →
  ∃ w' p' st, partmgr_read_mbr sr_read stack (Some p) (Some s) w = Some (w', Some p', st) ∧
    same_disk w w' ∧
    if signed s then
      st = PARTMGR_OK ∧ ∃ l, p' = p <| pm_table := mbr_table s l |> ∧
        l `prefix_of` logicals s (disk_of w p) ∧ (reliable W → l = logicals s (disk_of w p))
    else st = PARTMGR_ERR_NO_TABLE ∧
      p' = p <| pm_table := zero_ptable <| pt_style := PARTMGR_STYLE_MBR |> |>.
Proof.
  intros Hinit Hs Hl. unfold partmgr_read_mbr. rewrite Hinit. simpl negb. cbv iota.
  destruct (signed_spec s) as (a & b & -> & -> & ->); [done..|]. rewrite !obind_Some.
  destruct ((a =? 85) && (b =? 170)); simpl negb; cbv iota.
  2:{ do 3 eexists. by split_and!. }
  rewrite primary_loop, obind_Some by done. cbv beta iota.
  unfold logicals, mbr_table. set (ps := primaries s _). set (t := mbr_head s _).
  assert (length ps ≤ 16)%nat as Hps.
  { etrans; [apply primaries_length|simpl; lia]. }
  destruct (last (extended_bases s _)) as [base|] eqn:Hlast.
  - pose proof (extended_base_range _ _ _ Hs Hlast).
    destruct (extended_bases s _) as [|x xs]; [done|].
    replace (0 <? Z.of_nat (length (x :: xs))) with true
      by (symmetry; apply Z.ltb_lt; simpl; lia).
    unfold pm_follow_extended. simpl default.
    destruct (follow_loop_spec 64 p t ps base base stack w)
      as (w' & st & l & E & Hd & Hpre & Hrel); [done..|].
    change (Z.to_nat PARTMGR_MAX_EBR_CHAIN) with 64%nat. rewrite E, obind_Some.
    do 3 eexists. split_and!; [done..|]. by exists l.
  - destruct (extended_bases s _) as [|x xs] eqn:E; [|by rewrite last_cons in Hlast; destruct (last xs)].
    simpl. exists w, (p <| pm_table := with_parts t ps |>), PARTMGR_OK. split_and!; [done..|].
    exists []. by rewrite app_nil_r, take_ge by done.
Qed.
End medium.
