(* ===== verification/PartmgrScan.v ===== *)
(** GPT parsing and the scan of a medium: refinement of the partition tables of
    [PartmgrSpec], and a reader over a small disk image with a protective MBR
    and a GPT of one partition, to which the theorems apply. *)
From S2P Require Import Prelude Partmgr PartmgrSpec.

(** ** Parsing and scanning *)

(** ** GPT entries *)

Lemma guid_zero_loop_spec n l off :
  0 ≤ off → off + Z.of_nat n ≤ Z.of_nat (length l) →
  guid_zero_loop n l off = Some (bool_decide (slice l off (Z.of_nat n) = replicate n 0)).
Proof.
  revert off. induction n as [|n IH]; intros off Hoff Hlen; [done|].
  cbn [guid_zero_loop replicate].
  destruct (aget_is_Some l off) as [b Hb]; [lia|]. rewrite Hb, obind_Some.
  rewrite (slice_cons l off _ b) by first [done|lia].
  replace (Z.of_nat (S n) - 1) with (Z.of_nat n) by lia.
  destruct (nz b) eqn:E; zbool.
  - rewrite bool_decide_false; [done|]. by intros [= ?].
  - subst b. rewrite IH by lia. f_equal. apply bool_decide_ext. split; [by intros ->|by intros [= ?]].
Qed.

Lemma copy_guid l off :
  0 ≤ off → off + 16 ≤ Z.of_nat (length l) → copy_at 16 l off zero_guid 0 = Some (slice l off 16).
Proof.
  intros. rewrite copy_at_Z by (simpl; lia). cbn -[take drop]. by rewrite app_nil_r.
Qed.

(** The name loop: UTF-16LE code units. *)
Lemma name_loop l off :
  octets l → 0 ≤ off → off + 128 ≤ Z.of_nat (length l) →
  for_up 36 0 (λ c name, lo ← aget l (off + (56 + c * 2)); hi ← aget l (off + (57 + c * 2));
                         aset name c (u16 (Z.lor lo (u16 (Z.shiftl hi 8))))) (replicate 36 0) =
  Some (map (λ c, field l (off + (56 + c * 2)) 2) (seqZ 0 36)).
Proof.
  intros Hl Hoff Hlen.
  loop_inv (λ c name, 0 ≤ c ≤ 36 ∧
    name = map (λ c, field l (off + (56 + c * 2)) 2) (seqZ 0 c) ++ replicate (Z.to_nat (36 - c)) 0)
    as (name & -> & _ & ->); [done| |by rewrite app_nil_r].
  intros c name Hc (_ & ->).
  destruct (aget_octet l (off + (56 + c * 2))) as (a & Ha & Ra); [done|lia|].
  destruct (aget_octet l (off + (57 + c * 2))) as (b & Hb & Rb); [done|lia|].
  rewrite Ha, Hb, !obind_Some.
  replace (Z.to_nat (36 - c)) with (S (Z.to_nat (36 - (c + 1)))) by lia. cbn [replicate].
  rewrite aset_app_at by (rewrite length_map, length_seqZ; lia).
  eexists. split; [done|]. split; [lia|].
  rewrite seqZ_snoc, map_app, <-app_assoc by lia. cbn [map app]. do 2 f_equal.
  unfold field. rewrite (slice_cons l _ 2 a), (slice_cons l (_ + 1) _ b)
    by first [done|lia|replace (off + (56 + c * 2) + 1) with (off + (57 + c * 2)) by lia; done].
  change (2 - 1 - 1) with 0. rewrite slice_0. cbn [le foldr].
  rewrite (u16_small (Z.shiftl b 8)) by (rewrite Z.shiftl_mul_pow2 by done; lia).
  rewrite lor_le, u16_small by lia. lia.
Qed.

Lemma gpt_entry_spec l off (i : nat) :
  octets l → 0 ≤ off → off + 128 ≤ Z.of_nat (length l) →
  gpt_entry l off (Z.of_nat i + 1) = Some (with_index i (gpt_part l off)).
Proof.
  intros Hl Hoff Hlen. unfold gpt_entry.
  rewrite !copy_guid, !obind_Some by lia.
  rewrite !pm_rd64le_spec, !obind_Some by first [done|lia].
  change (Z.to_nat PARTMGR_GPT_NAME_UNITS) with 36%nat.
  change (pe_name zero_pentry) with (replicate 36 0).
  rewrite name_loop, obind_Some by done. unfold with_index, gpt_part. cbn -[seqZ].
  do 2 f_equal. case_match; [|done]. unfold u64, wrap. by rewrite Zplus_mod_idemp_l.
Qed.

(** A slot lies within its array. *)
Lemma slot_in_array count size i len :
  128 ≤ size → count * size ≤ len → 0 ≤ i < count → i * size + 128 ≤ len ∧ 0 ≤ i * size.
Proof. intros. split; nia. Qed.

Lemma gpt_slot_spec l t ps size i :
  octets l → 128 ≤ size → 0 ≤ i → i * size + 128 ≤ Z.of_nat (length l) ≤ 16384 →
  (length ps < 16)%nat →
  gpt_slot l size i (with_parts t ps) = Some (with_parts t (ps ++ gpt_slot_part l size i)).
Proof.
  intros Hl Hsize Hi Hlen Hps. unfold gpt_slot, gpt_slot_part, pm_guid_is_zero.
  rewrite (u32_small (i * size)) by nia.
  rewrite guid_zero_loop_spec, obind_Some by nia. change (replicate 16 0) with zero_guid.
  change (Z.of_nat 16) with 16. case_bool_decide; [by rewrite app_nil_r|].
  assert (gpt_entry l (i * size) (u32 (pt_entry_count (with_parts t ps) + 1)) =
    Some (with_index (length ps) (gpt_part l (i * size)))) as ->.
  { cbn [with_parts pt_entry_count set_field]. rewrite u32_small by lia.
    apply gpt_entry_spec; [done|nia..]. }
  rewrite obind_Some.
  by rewrite with_parts_push, obind_Some, with_parts_snoc by lia.
Qed.

Lemma gpt_slots_spec l t size count :
  octets l → 128 ≤ size → 0 ≤ count → count * size ≤ Z.of_nat (length l) ≤ 16384 →
  for_up (Z.to_nat (Z.min count 16)) 0 (gpt_slot l size) (with_parts t []) =
    Some (with_parts t (concat (map (gpt_slot_part l size) (seqZ 0 (Z.min count 16))))).
Proof.
  intros Hl Hsize Hc Hlen.
  loop_inv (λ i s, 0 ≤ i ∧ s = with_parts t (concat (map (gpt_slot_part l size) (seqZ 0 i)))
              ∧ Z.of_nat (length (concat (map (gpt_slot_part l size) (seqZ 0 i)))) ≤ i)
    as (s & -> & _ & -> & _).
  - done.
  - intros i s Hi (_ & -> & Hle).
    destruct (slot_in_array count size i (Z.of_nat (length l))); [lia..|].
    rewrite gpt_slot_spec by first [done|lia]. eexists. split; [done|]. split; [lia|].
    rewrite seqZ_snoc, map_app, concat_app by lia. cbn [map concat].
    rewrite app_nil_r. split; [done|].
    rewrite length_app. unfold gpt_slot_part at 2. case_bool_decide; simpl; lia.
  - by rewrite Z.add_0_l, Z2Nat.id by lia.
Qed.

(** Slots of the array itself and of the staging area that starts with it. *)
Lemma gpt_slot_part_app a k size i :
  128 ≤ size → 0 ≤ i → i * size + 128 ≤ Z.of_nat (length a) →
  gpt_slot_part (a ++ k) size i = gpt_slot_part a size i.
Proof.
  intros. unfold gpt_slot_part, gpt_part. rewrite slice_app by nia. case_bool_decide; [done|].
  unfold field. rewrite !slice_app by nia. do 2 f_equal.
  apply map_ext_in. intros c Hc. apply list_elem_of_In, elem_of_seqZ in Hc.
  by rewrite slice_app by nia.
Qed.

(** ** Reading a GPT *)
Section medium.
Context `{SectorReader W}.
Implicit Types (w : W) (p : partmgr_t) (gpt : list Z).

(** The file-scope staging area. *)
Definition staging_ok gpt : Prop := octets gpt ∧ length gpt = Z.to_nat 16384.

Lemma pm_read_gpt_entries_spec p gpt lba total w :
  staging_ok gpt → 0 ≤ lba < 2 ^ 64 → 0 < total ≤ 16384 →
  ∃ w' gpt' st, pm_read_gpt_entries sr_read p gpt lba total w = Some (w', gpt', st) ∧
    same_disk w w' ∧ staging_ok gpt' ∧ (reliable W → st = PARTMGR_OK) ∧
    (st = PARTMGR_ERR_IO ∨ st = PARTMGR_OK ∧ slice gpt' 0 total =
       take (Z.to_nat total) (concat (map (λ j, disk_of w p (lba + j))
                                        (seqZ 0 ((total + 511) / 512))))).
Proof.
  intros [Hg Hgl] Hlba Htot. unfold pm_read_gpt_entries, PARTMGR_SECTOR_SIZE.
  rewrite (u32_small (total + (512 - 1))) by lia. change (512 - 1) with 511.
  set (n := (total + 511) / 512). assert (0 < n ≤ 32 ∧ total ≤ n * 512) as [Hn Htn]
    by (unfold n; split; zdm).
  unfold PARTMGR_GPT_MAX_BYTES. case_if; [lia|].
  destruct (Z.to_nat n) as [|k] eqn:Hk; [lia|]. cbn [gpt_read_loop].
  replace (0 <? n) with true by lia. simpl negb. cbv iota zeta.
  rewrite (u32_small (n - 0)), Z.sub_0_r by lia. unfold PARTMGR_GPT_READ_CHUNK.
  replace (32 <? n) with false by lia. rewrite Z.add_0_r, u64_small by lia.
  change (u32 (0 * PARTMGR_SECTOR_SIZE)) with 0.
  destruct (read_sectors_spec p lba n gpt 0 w) as (w' & rc & g & -> & Hd & Hg' & Hl & Hr & Hdata);
    [done|lia..|]. rewrite obind_Some.
  assert (staging_ok g) by (split; [done|congruence]).
  destruct (nz rc) eqn:Hrc; zbool.
  { do 3 eexists. split_and!; [done..| |by left]. by intros Hrel%Hr. }
  rewrite (u32_small (0 + n)), Z.add_0_l by lia. destruct k; cbn [gpt_read_loop];
    rewrite Z.ltb_irrefl; (do 3 eexists; split_and!; [done..|right; split; [done|]];
    rewrite <-Hdata by done; unfold slice; by rewrite take_take, Nat.min_l by lia).
Qed.

Lemma zero_crc_loop l :
  length l = 512%nat → for_up 4 0 (λ i h, aset h (16 + i) 0) l = Some (zero_crc l).
Proof.
  intros Hl. do 20 (destruct l as [|? l]; [done|]). cbn [for_up].
  do 4 (rewrite aset_in, obind_Some by (simpl length; lia); cbn [Z.to_nat Pos.to_nat]; simpl insert).
  done.
Qed.

Context (stack : list Z) (Hstack : octets stack) (Hstack_len : length stack = 512%nat).

(** The bounds check by division is the check of the product. *)
Lemma capacity_check n size : 128 ≤ size → (16384 / size <? n) = (16384 <? n * size).
Proof.
  intros Hs. destruct (Z.ltb_spec (16384 / size) n) as [Hlt|Hge]; symmetry.
  - apply Z.ltb_lt. zdm || (pose proof (Z.mul_succ_div_gt 16384 size ltac:(lia)); nia).
  - apply Z.ltb_ge. pose proof (Z.mul_div_le 16384 size ltac:(lia)). nia.
Qed.

(** The entry array is a prefix of the staging area it was read into. *)
Lemma staged_array gpt n a :
  staging_ok gpt → 0 ≤ n ≤ 16384 → slice gpt 0 n = a →
  gpt = a ++ drop (Z.to_nat n) gpt ∧ Z.of_nat (length a) = n ∧ octets a.
Proof.
  intros [Hg Hl] Hn <-. unfold slice. rewrite drop_0, take_drop. split_and!; [done| |].
  - rewrite length_take. lia.
  - by apply Forall_take.
Qed.

(** The table built from the staging area. *)
Lemma gpt_slots_staged t gpt a size count :
  staging_ok gpt → 128 ≤ size → 0 ≤ count → count * size ≤ 16384 →
  slice gpt 0 (count * size) = a →
  for_up (Z.to_nat (Z.min count 16)) 0 (gpt_slot gpt size) (with_parts t []) =
    Some (with_parts t (concat (map (gpt_slot_part a size) (seqZ 0 (Z.min count 16))))).
Proof.
  intros Hg Hsize Hc Hle Ha.
  destruct (staged_array gpt (count * size) a) as (E & Hal & _); [done|nia|done|].
  rewrite gpt_slots_spec by first [apply Hg|done|destruct Hg as [_ ->]; lia].
  do 3 f_equal. apply map_ext_in. intros i Hi. apply list_elem_of_In, elem_of_seqZ in Hi.
  rewrite E. apply gpt_slot_part_app; [done|lia|].
  destruct (slot_in_array count size i (count * size)); lia.
Qed.

(** A check that fails ends the routine with its status. *)
#[local] Tactic Notation "stops" constr(w) constr(gpt) constr(st) :=
  exists w, gpt, st; split_and!; [done..|by right].

Lemma read_gpt_spec p gpt w :
  pm_initialized p = true → staging_ok gpt →
  ∃ w' gpt' st, partmgr_read_gpt sr_read stack gpt (Some p) w =
      Some (w', gpt', Some (if decide (st = PARTMGR_OK)
                            then p <| pm_table := gpt_table (disk_of w p) |> else p), st) ∧
    same_disk w w' ∧ staging_ok gpt' ∧
    (st = PARTMGR_ERR_IO ∧ ¬ reliable W ∨ st = gpt_check (disk_of w p)).
Proof.
  intros Hinit Hg. unfold partmgr_read_gpt. rewrite Hinit. simpl negb. cbv iota.
  destruct (read_sector_spec p 1 stack w) as (w1 & rc & h & -> & Hd1 & Hh & Hl & Hrel & Hdata);
    [done..|]. rewrite obind_Some.
  destruct (nz rc) eqn:Hrc; zbool.
  { exists w1, gpt, PARTMGR_ERR_IO. split_and!; [done..|]. left. split; [done|]. by intros Hr%Hrel. }
  specialize (Hdata Hrc). clear Hrel Hrc. unfold gpt_check. rewrite <-Hdata.
  rewrite aslice_in, obind_Some by lia. fold (slice h 0 8). change efi_part with gpt_signature.
  case_bool_decide; simpl negb; cbv iota.
  2:{ by stops w1 gpt PARTMGR_ERR_NO_TABLE. }
  rewrite (pm_rd32le_spec h 12), obind_Some by first [done|lia].
  unfold PARTMGR_SECTOR_SIZE. case_if; [by stops w1 gpt PARTMGR_ERR_CRC|].
  rewrite copy_bytes_Z, obind_Some by lia. change (Z.to_nat 512) with 512%nat.
  rewrite take_ge, drop_ge, app_nil_r by lia.
  rewrite (pm_rd32le_spec h 16), obind_Some by first [done|lia].
  rewrite zero_crc_loop, obind_Some by done.
  assert (octets (zero_crc h) ∧ length (zero_crc h) = 512%nat) as [Hz Hzl].
  { unfold zero_crc, octets. rewrite !Forall_app, !length_app, length_take, length_drop.
    split_and!; [by apply Forall_take|by apply Forall_replicate|by apply Forall_drop|rewrite length_replicate; lia]. }
  rewrite pm_crc32_spec, obind_Some by first [done|lia].
  change (take (Z.to_nat (field h 12 4)) (zero_crc h)) with (slice (zero_crc h) 0 (field h 12 4)).
  case_if; [by stops w1 gpt PARTMGR_ERR_CRC|].
  rewrite (pm_rd32le_spec h 80), (pm_rd32le_spec h 84), (pm_rd32le_spec h 88),
    pm_rd64le_spec, !obind_Some by first [done|lia].
  fold (gpt_count h) (gpt_size h). unfold PARTMGR_GPT_ENTRY_SIZE.
  case_if; [by stops w1 gpt PARTMGR_ERR_NO_TABLE|].
  assert (0 ≤ gpt_count h < 256 ^ 4) by (apply field_range; [done|lia]).
  assert (0 ≤ field h 72 8 < 256 ^ 8) by (apply field_range; [done|lia]).
  destruct_and?. unfold PARTMGR_GPT_MAX_BYTES. rewrite capacity_check by lia.
  case_if; [by stops w1 gpt PARTMGR_ERR_NO_SPACE|].
  rewrite (u32_small (gpt_count h * gpt_size h)) by nia.
  destruct (pm_read_gpt_entries_spec p gpt (field h 72 8) (gpt_count h * gpt_size h) w1)
    as (w2 & g & st & -> & Hd2 & Hg2 & Hrel & Hst); [done|lia|nia|]. rewrite obind_Some.
  assert (same_disk w w2) as Hd by (intros c k; by rewrite Hd2).
  destruct Hst as [->|[-> Harr]]; simpl negb; cbv iota.
  { exists w2, g, PARTMGR_ERR_IO. split_and!; [done..|]. left. split; [done|].
    by intros Hr%Hrel. }
  assert (take (Z.to_nat (gpt_count h * gpt_size h)) (concat (map
    (λ j, disk_of w1 p (field h 72 8 + j)) (seqZ 0 ((gpt_count h * gpt_size h + 511) / 512)))) =
    gpt_array (disk_of w p)) as Ha.
  { unfold gpt_array. rewrite <-Hdata. do 2 f_equal. apply map_ext. intros j. apply Hd1. }
  rewrite Ha in Harr. destruct (Hg2) as [Hgo Hgl].
  rewrite pm_crc32_spec, obind_Some by first [done|rewrite Hgl; nia].
  change (take (Z.to_nat (gpt_count h * gpt_size h)) g) with
    (slice g 0 (gpt_count h * gpt_size h)). rewrite Harr.
  case_if; [by stops w2 g PARTMGR_ERR_CRC|].
  rewrite copy_guid, obind_Some by lia. exists w2, g, PARTMGR_OK.
  match goal with |- context [for_up _ _ _ ?t] => change t with (with_parts t []) at 1 end.
  unfold PARTMGR_MAX_ENTRIES.
  rewrite (gpt_slots_staged _ g (gpt_array (disk_of w p))) by first [done|nia].
  rewrite obind_Some. split_and!; [|done..|by right]. unfold gpt_table, gpt_parts.
  unfold gpt_slots. by rewrite <-Hdata.
Qed.

(** ** The scan *)

(** A table of at most 16 partitions, numbered in order, the rest cleared. *)
Definition table_ok (t : partmgr_table_t) : Prop :=
  ∃ t0 ps, t = with_parts t0 ps ∧ (length ps ≤ 16)%nat.

Definition scan_status (disk : Z → list Z) : partmgr_status_t :=
  if signed (disk 0) then PARTMGR_OK else PARTMGR_ERR_NO_TABLE.

(** The GPT when the MBR announces one that passes its checks, else the MBR. *)
Definition scan_table (disk : Z → list Z) : partmgr_table_t :=
  let s := disk 0 in
  if signed s then
    if existsb (is_protective s) [0; 1; 2; 3] && bool_decide (gpt_check disk = PARTMGR_OK)
    then gpt_table disk else mbr_table s (logicals s disk)
  else zero_ptable <| pt_style := PARTMGR_STYLE_MBR |>.

Lemma zero_table_ok : table_ok (zero_ptable <| pt_style := PARTMGR_STYLE_MBR |>).
Proof. eexists (zero_ptable <| pt_style := PARTMGR_STYLE_MBR |>), []. split; [done|simpl; lia]. Qed.

Lemma mbr_table_ok s l : table_ok (mbr_table s l).
Proof. do 2 eexists. split; [done|]. rewrite length_take. lia. Qed.

Lemma gpt_table_ok disk : table_ok (gpt_table disk).
Proof.
  do 2 eexists. split; [done|]. unfold gpt_parts, gpt_slots.
  assert (∀ l, (length (concat (map (gpt_slot_part (gpt_array disk) (gpt_size (disk 1%Z))) l)) ≤
                 length l)%nat) as Hl.
  { induction l as [|i l IH]; [done|]. simpl. rewrite length_app.
    assert (length (gpt_slot_part (gpt_array disk) (gpt_size (disk 1%Z)) i) ≤ 1)%nat; [|lia].
    unfold gpt_slot_part. case_bool_decide; simpl; lia. }
  etrans; [apply Hl|]. rewrite length_seqZ. lia.
Qed.

Lemma gpt_check_ext d d' : (∀ k, d k = d' k) → gpt_check d = gpt_check d'.
Proof.
  intros Hd. unfold gpt_check, gpt_array. rewrite !Hd.
  by setoid_rewrite (map_ext _ (λ j, d' (field (d' 1) 72 8 + j)) (λ j, Hd _)).
Qed.

Lemma gpt_table_ext d d' : (∀ k, d k = d' k) → gpt_table d = gpt_table d'.
Proof.
  intros Hd. unfold gpt_table, gpt_parts, gpt_slots, gpt_array. rewrite !Hd.
  by setoid_rewrite (map_ext _ (λ j, d' (field (d' 1) 72 8 + j)) (λ j, Hd _)).
Qed.

Lemma pm_scan_spec p gpt w :
  pm_initialized p = true → staging_ok gpt →
  ∃ w' gpt' p' st, partmgr_scan sr_read stack gpt (Some p) w = Some (w', gpt', Some p', st) ∧
    same_disk w w' ∧ staging_ok gpt' ∧ (p' = p ∧ st = PARTMGR_ERR_IO ∨ table_ok (pm_table p')) ∧
    (reliable W → st = scan_status (disk_of w p) ∧
                  p' = p <| pm_table := scan_table (disk_of w p) |>).
Proof.
  intros Hinit Hg. unfold partmgr_scan, scan_status, scan_table. rewrite Hinit. simpl negb. cbv iota.
  destruct (read_sector_spec p 0 stack w) as (w1 & rc & s & -> & Hd1 & Hs & Hl & Hrel & Hdata);
    [done..|]. rewrite obind_Some.
  destruct (nz rc) eqn:Hrc; zbool.
  { do 4 eexists. split_and!; [done..|by left|]. by intros Hr%Hrel. }
  specialize (Hdata Hrc). clear Hrel Hrc. rewrite <-Hdata.
  destruct (read_mbr_spec stack Hstack Hstack_len p s w1) as (w2 & p2 & st & -> & Hd2 & Hmbr);
    [done..|]. rewrite obind_Some.
  assert (same_disk w w2) as Hd by (intros c k; by rewrite Hd2).
  destruct (signed s).
  2:{ destruct Hmbr as [-> ->]. do 4 eexists. split_and!; [done..|right; apply zero_table_ok|done]. }
  destruct Hmbr as (-> & l & -> & Hpre & Hrel). simpl negb. cbv iota. rewrite obind_Some.
  assert (logicals s (disk_of w1 p) = logicals s (disk_of w p)) as Hlog.
  { unfold logicals. case_match; [|done]. apply ebr_chain_ext. intros. apply Hd1. }
  rewrite Hlog in Hpre, Hrel.
  change (pt_protective_mbr (pm_table (p <| pm_table := mbr_table s l |>))) with
    (existsb (is_protective s) [0; 1; 2; 3]).
  destruct (existsb _ _); simpl andb; cbv iota.
  2:{ do 4 eexists. split_and!; [done..|right; apply mbr_table_ok|]. intros Hr.
      rewrite (Hrel Hr). exact (conj eq_refl eq_refl). }
  destruct (read_gpt_spec (p <| pm_table := mbr_table s l |>) gpt w2)
    as (w3 & g & st & -> & Hd3 & Hg3 & Hst); [done..|]. rewrite obind_Some.
  change (disk_of w2 (p <| pm_table := mbr_table s l |>)) with (disk_of w2 p) in *.
  rewrite (gpt_check_ext _ (disk_of w p)) in Hst by (intros; apply Hd).
  rewrite (gpt_table_ext _ (disk_of w p)) by (intros; apply Hd).
  do 4 eexists. split; [reflexivity|]. split; [|split; [exact Hg3|split]].
  - intros c k. by rewrite Hd3.
  - right. destruct (decide _); [apply gpt_table_ok|apply mbr_table_ok].
  - intros Hr. destruct Hst as [[_ ?]| ->]; [contradiction|]. split; [reflexivity|].
    destruct (decide _) as [E|E].
    + rewrite bool_decide_true by exact E. reflexivity.
    + rewrite bool_decide_false, (Hrel Hr) by exact E. reflexivity.
Qed.
End medium.

(** Reading an MBR finds exactly its partitions: whatever the medium holds,
    [partmgr_read_mbr] returns without undefined behaviour; an unsigned sector
    is refused, and a signed one gives the non-empty primary partitions in
    order, followed by the logical partitions of the extended chain (all of them
    unless a read fails, at most 64 links, so that a looping chain ends),
    together at most 16, numbered from 1. *)
Theorem partmgr_read_mbr_refines `{SectorReader W} (stack : list Z) (p : partmgr_t)
    (s : list Z) (w : W) :
  octets stack → length stack = 512%nat → pm_initialized p = true → octets s →
  length s = 512%nat →
  ∃ w' p' st, partmgr_read_mbr sr_read stack (Some p) (Some s) w = Some (w', Some p', st) ∧
    same_disk w w' ∧
    if signed s then
      st = PARTMGR_OK ∧ ∃ l, p' = p <| pm_table := mbr_table s l |> ∧
        l `prefix_of` logicals s (disk_of w p) ∧ (reliable W → l = logicals s (disk_of w p))
    else st = PARTMGR_ERR_NO_TABLE ∧
      p' = p <| pm_table := zero_ptable <| pt_style := PARTMGR_STYLE_MBR |> |>.
Proof. intros. by apply read_mbr_spec. Qed.

(** Reading a GPT accepts exactly the tables that pass their checks:
    unless a read fails, [partmgr_read_gpt] returns the verdict on signature,
    header size, header CRC, geometry and entry array CRC; it stores the
    partitions of the non-empty slots (of the first 16) when the verdict is OK
    and otherwise leaves the previous table as it was. *)
Theorem partmgr_read_gpt_refines `{SectorReader W} (stack gpt : list Z) (p : partmgr_t) (w : W) :
  octets stack → length stack = 512%nat → pm_initialized p = true → staging_ok gpt →
  ∃ w' gpt' st, partmgr_read_gpt sr_read stack gpt (Some p) w =
      Some (w', gpt', Some (if decide (st = PARTMGR_OK)
                            then p <| pm_table := gpt_table (disk_of w p) |> else p), st) ∧
    same_disk w w' ∧ staging_ok gpt' ∧
    (st = PARTMGR_ERR_IO ∧ ¬ reliable W ∨ st = gpt_check (disk_of w p)).
Proof. intros. by apply read_gpt_spec. Qed.

(** [C9] Scanning a medium gives its partition table: [partmgr_scan] returns
    without undefined behaviour whatever the medium holds and leaves a table of
    at most 16 numbered partitions or, after a failed read, the old one.  With a
    reader that does not fail the result is a function of the medium: without
    the boot signature there is no table; when the MBR announces a GPT and
    signature, header size, both CRC-32s, geometry and size (at most 16 KiB of
    entries) check, the partitions are the used ones of the first 16 slots of
    its entry array, which are all of them when no later slot is used; in every
    other case they are the primary partitions and the logical ones of the
    (last) extended partition, up to 16.  Nothing is said of the disk_sectors
    field. *)
Theorem partmgr_scan_refines `{SectorReader W} (stack gpt : list Z) (p : partmgr_t) (w : W) :
  octets stack → length stack = 512%nat → pm_initialized p = true → staging_ok gpt →
  ∃ w' gpt' p' st, partmgr_scan sr_read stack gpt (Some p) w = Some (w', gpt', Some p', st) ∧
    same_disk w w' ∧ staging_ok gpt' ∧ (p' = p ∧ st = PARTMGR_ERR_IO ∨ table_ok (pm_table p')) ∧
    (reliable W → st = scan_status (disk_of w p) ∧
       ∃ n, p' = p <| pm_table := (scan_table (disk_of w p)) <| pt_disk_sectors := n |> |>) ∧
    (gpt_short (disk_of w p) → gpt_parts (disk_of w p) = gpt_all (disk_of w p)).
Proof.
  intros Hs Hl Hi Hg. destruct (pm_scan_spec stack Hs Hl p gpt w Hi Hg) as (w' & g & p' & st & E & Hd & Hg' & Ht & Hr).
  exists w', g, p', st. split_and!; try done.
  - intros [-> ->]%Hr. split; [done|]. exists (pt_disk_sectors (scan_table (disk_of w p))). by destruct (scan_table _).
  - apply gpt_parts_all, field_range; [apply disk_octets|lia].
Qed.

(** ** A concrete medium *)

(** ** An image as a reader that never fails *)
Section image.
Context (m : gmap Z (list Z)).

(** Sectors that were never written hold zeros. *)
Definition img_sector (lba : Z) : list Z :=
  map u8 (take 512 (default [] (m !! lba) ++ replicate 512 0)).

Lemma img_sector_length lba : length (img_sector lba) = 512%nat.
Proof. unfold img_sector. rewrite length_map, length_take, length_app, length_replicate. lia. Qed.

Lemma img_sector_octets lba : octets (img_sector lba).
Proof. apply Forall_fmap, Forall_true. intros x. apply u8_range. Qed.

Definition img_read (lba n : Z) : list Z :=
  concat (map (λ j, img_sector (lba + j)) (seqZ 0 n)).

Program Definition image_reader : SectorReader unit := {|
  sr_read fn ctx lba n w := (w, 0, img_read lba n);
  sr_sector w ctx lba := img_sector lba
|}.
Next Obligation. intros. apply img_sector_length. Qed.
Next Obligation. intros. apply img_sector_octets. Qed.
Next Obligation.
  intros fn ctx lba n w w' rc data [= _ _ <-]. unfold octets, img_read.
  apply Forall_concat, Forall_fmap, Forall_true. intros j. apply img_sector_octets.
Qed.
Next Obligation. done. Qed.
Next Obligation.
  intros fn ctx lba n w w' data [= _ <-] Hn. apply take_ge. unfold img_read.
  rewrite <-(Z2Nat.id n) at 1 by done.
  assert (∀ l, length (concat (map (λ j, img_sector (lba + j)) l)) = (512 * length l)%nat) as ->.
  { induction l as [|j l IH]; [done|]. simpl. rewrite length_app, img_sector_length, IH. lia. }
  rewrite length_seqZ. lia.
Qed.

Lemma image_reliable : @reliable unit image_reader.
Proof. intros fn ctx lba n w w' rc data [= _ <- _]. done. Qed.
End image.

(** ** A GPT disk *)
Definition demo_array : list Z :=
  replicate 16 7 ++ replicate 16 9 ++ le_bytes 8 34 ++ le_bytes 8 99 ++ replicate 8 0 ++
  [100; 0; 101; 0] ++ replicate 68 0.

Definition demo_header (crc : Z) : list Z :=
  gpt_signature ++ le_bytes 4 0x10000 ++ le_bytes 4 92 ++ le_bytes 4 crc ++ replicate 4 0 ++
  le_bytes 8 1 ++ le_bytes 8 127 ++ le_bytes 8 34 ++ le_bytes 8 120 ++ replicate 16 5 ++
  le_bytes 8 2 ++ le_bytes 4 1 ++ le_bytes 4 128 ++ le_bytes 4 (crc32 demo_array).

Definition demo_mbr : list Z :=
  replicate 446 0 ++ [0; 0; 0; 0; 0xEE; 0; 0; 0] ++ le_bytes 4 1 ++ le_bytes 4 127 ++
  replicate 48 0 ++ [0x55; 0xAA].

Definition demo_disk : gmap Z (list Z) :=
  <[0 := demo_mbr]> (<[1 := demo_header (crc32 (demo_header 0))]> {[2 := demo_array]}).

Definition demo_pm : partmgr_t := mk_partmgr 1 0 zero_ptable true.
Definition blank_sector : list Z := replicate 512 0.
Definition blank_staging : list Z := replicate (Z.to_nat 16384) 0.

Lemma blank_octets n : octets (replicate n 0).
Proof. by apply Forall_replicate. Qed.

Lemma blank_staging_ok : staging_ok blank_staging.
Proof. split; [apply blank_octets|apply length_replicate]. Qed.

Lemma partmgr_scan_refines_witness :
  ∃ gpt' p', partmgr_scan (@sr_read _ (image_reader demo_disk)) blank_sector blank_staging
      (Some demo_pm) tt = Some (tt, gpt', Some p', PARTMGR_OK) ∧
    pt_style (pm_table p') = PARTMGR_STYLE_GPT ∧ pt_entry_count (pm_table p') = 1 ∧
    map pe_sector_count (take 1 (pt_entries (pm_table p'))) = [66].
Proof.
  destruct (@partmgr_scan_refines unit (image_reader demo_disk) blank_sector blank_staging
    demo_pm tt) as ([] & g & p' & st & E & _ & _ & _ & Hr & _);
    [apply blank_octets|reflexivity|reflexivity|apply blank_staging_ok|].
  destruct (Hr (image_reliable demo_disk)) as [-> [n ->]].
  exists g, (demo_pm <| pm_table :=
    (scan_table (@disk_of unit (image_reader demo_disk) tt demo_pm)) <| pt_disk_sectors := n |> |>).
  split; [exact E|]. split; [vm_compute; reflexivity|]. split; vm_compute; reflexivity.
Defined.

Lemma partmgr_read_gpt_refines_witness :
  ∃ gpt' p', partmgr_read_gpt (@sr_read _ (image_reader demo_disk)) blank_sector blank_staging
      (Some demo_pm) tt = Some (tt, gpt', Some p', PARTMGR_OK) ∧
    pt_entry_count (pm_table p') = 1.
Proof.
  destruct (@partmgr_read_gpt_refines unit (image_reader demo_disk) blank_sector blank_staging
    demo_pm tt) as ([] & g & st & E & _ & _ & Hst);
    [apply blank_octets|reflexivity|reflexivity|apply blank_staging_ok|].
  destruct Hst as [[_ Hn]|Hst]; [destruct (Hn (image_reliable demo_disk))|].
  assert (gpt_check (@disk_of unit (image_reader demo_disk) tt demo_pm) = PARTMGR_OK) as Hok
    by (by vm_compute).
  rewrite Hok in Hst. subst st. rewrite decide_True in E by reflexivity.
  do 2 eexists. split; [exact E|]. by vm_compute.
Defined.

(** The MBR of the same disk with an extended partition added. *)
Definition demo_ext_mbr : list Z :=
  replicate 446 0 ++ [0x80; 0; 0; 0; 0x83; 0; 0; 0] ++ le_bytes 4 2048 ++ le_bytes 4 100 ++
  [0; 0; 0; 0; 0x05; 0; 0; 0] ++ le_bytes 4 4096 ++ le_bytes 4 500 ++
  replicate 32 0 ++ [0x55; 0xAA].
(** A chain that links back to itself. *)
Definition demo_ebr : list Z :=
  replicate 446 0 ++ [0; 0; 0; 0; 0x83; 0; 0; 0] ++ le_bytes 4 1 ++ le_bytes 4 10 ++
  [0; 0; 0; 0; 0x05; 0; 0; 0] ++ le_bytes 4 0 ++ le_bytes 4 10 ++
  replicate 32 0 ++ [0x55; 0xAA].

Lemma partmgr_read_mbr_refines_witness :
  ∃ p', partmgr_read_mbr (@sr_read _ (image_reader {[4096 := demo_ebr]})) blank_sector
      (Some demo_pm) (Some demo_ext_mbr) tt = Some (tt, Some p', PARTMGR_OK) ∧
    pt_entry_count (pm_table p') = 16 ∧
    map pe_first_lba (take 3 (pt_entries (pm_table p'))) = [2048; 4097; 4097].
Proof.
  destruct (@partmgr_read_mbr_refines unit (image_reader {[4096 := demo_ebr]}) blank_sector
    demo_pm demo_ext_mbr tt) as ([] & p' & st & E & _ & Hm);
    [apply blank_octets|reflexivity|reflexivity|by repeat constructor|reflexivity|].
  replace (signed demo_ext_mbr) with true in Hm by (by vm_compute).
  destruct Hm as (-> & l & -> & _ & Hl). rewrite (Hl (image_reliable _)) in *.
  eexists. split; [exact E|]. split; by vm_compute.
Defined.
