(* ===== verification/Owzip.v ===== *)
(** The compression library (src/DLL/owzip64/owzip64.c, owzip64.h): the LZSS
    codec over caller buffers, CRC-32 and Adler-32.

    A buffer argument is its object ([None] for [NULL]); [size_t] is 64 bits
    wide and wraps where the code adds to it in a check. *)
From S2P Require Import Prelude.

Definition OWZIP_WINDOW_SIZE : Z := 4096.
Definition OWZIP_MIN_MATCH : Z := 3.
Definition OWZIP_MAX_MATCH : Z := 18.

(** ** Encoder output writer *)
Record ow_zip_writer_t := mk_writer {
  zw_out : ptr (list Z);                 (* uint8_t * *)
  zw_cap : Z;                            (* size_t *)
  zw_len : Z;                            (* size_t *)
  zw_flag_index : Z;                     (* size_t *)
  zw_nflags : Z;                         (* uint32_t *)
  zw_overflow : bool
}.
#[export] Instance eta_writer : Eta ow_zip_writer_t := λ w,
  mk_writer (zw_out w) (zw_cap w) (zw_len w) (zw_flag_index w) (zw_nflags w) (zw_overflow w).

Definition ow_zip_writer_init (out : ptr (list Z)) (cap : Z) : ow_zip_writer_t :=
  mk_writer out cap 0 0 0 false.

(** [w->out[w->len++] = byte] *)
Definition emit (w : ow_zip_writer_t) (byte : Z) : option ow_zip_writer_t :=
  out ← zw_out w;
  out ← aset out (zw_len w) byte;
  Some (w <| zw_out := Some out |> <| zw_len := u64 (zw_len w + 1) |>).

(** [w->out[w->flag_index] |= (uint8_t)(1u << w->nflags)] *)
Definition set_flag (w : ow_zip_writer_t) : option ow_zip_writer_t :=
  out ← zw_out w;
  b ← aget out (zw_flag_index w);
  out ← aset out (zw_flag_index w) (u8 (Z.lor b (u8 (Z.shiftl 1 (zw_nflags w)))));
  Some (w <| zw_out := Some out |>).

Definition ow_zip_writer_token (w : ow_zip_writer_t) (literal : bool) (word : Z)
    : option ow_zip_writer_t :=
  if zw_overflow w then Some w
  else
    w ← (if zw_nflags w =? 0 then
           if zw_cap w <=? zw_len w then Some (w <| zw_overflow := true |>)
           else emit (w <| zw_flag_index := zw_len w |>) 0
         else Some w);
    if zw_overflow w then Some w
    else if literal then
      if zw_cap w <=? zw_len w then Some (w <| zw_overflow := true |>)
      else
        w ← set_flag w;
        w ← emit w (u8 word);
        Some (w <| zw_nflags := Z.land (u32 (zw_nflags w + 1)) 7 |>)
    else
      if zw_cap w <? u64 (zw_len w + 2) then Some (w <| zw_overflow := true |>)
      else
        w ← emit w (u8 (Z.land word 0xFF));
        w ← emit w (u8 (Z.land (Z.shiftr word 8) 0xFF));
        Some (w <| zw_nflags := Z.land (u32 (zw_nflags w + 1)) 7 |>).

(** ** Encoder match search *)

(** [while (l < max_len && src[j + l] == src[pos + l]) l++]; [n] is
    [max_len - l]. *)
Fixpoint match_len (n : nat) (src : list Z) (j pos l : Z) : option Z :=
  match n with
  | O => Some l
  | S n =>
      a ← aget src (u64 (j + l));
      b ← aget src (u64 (pos + l));
      if a =? b then match_len n src j pos (l + 1) else Some l
  end.

(** [for (j = window_start; j < pos; ++j)]; [n] positions left. *)
Fixpoint search_loop (n : nat) (src : list Z) (j pos max_len best_len best_dist : Z)
    : option (Z * Z) :=
  match n with
  | O => Some (best_len, best_dist)
  | S n =>
      l ← match_len (Z.to_nat max_len) src j pos 0;
      if best_len <? l then
        if l =? max_len then Some (l, pos - j)
        else search_loop n src (j + 1) pos max_len l (pos - j)
      else search_loop n src (j + 1) pos max_len best_len best_dist
  end.

(** The result is the length and [*out_dist]. *)
Definition ow_zip_find_match (src : list Z) (src_len pos : Z) : option (Z * Z) :=
  if (pos <? 1) || (src_len <=? pos) then Some (0, 0)
  else
    let max_len := src_len - pos in
    let max_len := if OWZIP_MAX_MATCH <? max_len then OWZIP_MAX_MATCH else max_len in
    if max_len <? OWZIP_MIN_MATCH then Some (0, 0)
    else
      let window_start := if OWZIP_WINDOW_SIZE <? pos then pos - OWZIP_WINDOW_SIZE else 0 in
      '(best_len, best_dist) ←
        search_loop (Z.to_nat (pos - window_start)) src window_start pos max_len 0 0;
      if best_len <? OWZIP_MIN_MATCH then Some (0, 0)
      else Some (u32 best_len, best_dist).

(** ** Compression *)

(** [while (pos < src_len)]; each iteration advances [pos].  The result is the
    writer, [None] for the early [return false]. *)
Fixpoint compress_loop (fuel : nat) (src : ptr (list Z)) (src_len pos : Z)
    (w : ow_zip_writer_t) : option (ow_zip_writer_t * bool) :=
  if negb (pos <? src_len) then Some (w, true)
  else
    match fuel with
    | O => None
    | S fuel =>
        bytes ← src;
        '(mlen, dist) ← ow_zip_find_match bytes src_len pos;
        '(w, pos) ←
          (if (OWZIP_MIN_MATCH <=? mlen) && (1 <=? dist) then
             let word := u16 (Z.lor (Z.land (dist - 1) 0x0FFF)
                                (u64 (Z.shiftl (u32 (mlen - 3)) 12))) in
             w ← ow_zip_writer_token w false word;
             Some (w, u64 (pos + mlen))
           else
             b ← aget bytes pos;
             w ← ow_zip_writer_token w true (u16 b);
             Some (w, u64 (pos + 1)));
        if zw_overflow w then Some (w, false)
        else compress_loop fuel src src_len pos w
    end.

(** The result is [dst], [*out_len] and the returned flag. *)
Definition owzip_compress (src : ptr (list Z)) (src_len : Z) (dst : ptr (list Z))
    (dst_cap : Z) (out_len : ptr Z) : option (ptr (list Z) * ptr Z * bool) :=
  match out_len with
  | None => Some (dst, out_len, false)
  | Some _ =>
      if (bool_decide (src = None) && negb (src_len =? 0)) ||
         (bool_decide (dst = None) && negb (dst_cap =? 0))
      then Some (dst, Some 0, false)
      else
        '(w, ok) ← compress_loop (Z.to_nat src_len) src src_len 0
                     (ow_zip_writer_init dst dst_cap);
        Some (zw_out w, Some (if (ok : bool) then zw_len w else 0), ok)
  end.

(** ** Decompression *)

(** [for (k = 0; k < len; ++k) { dst[op] = dst[op - off]; op++; }] *)
Fixpoint copy_loop (n : nat) (dst : list Z) (op off : Z) : option (list Z) :=
  match n with
  | O => Some dst
  | S n =>
      b ← aget dst (op - off);
      dst ← aset dst op b;
      copy_loop n dst (op + 1) off
  end.

(** [for (bit = ...; bit < 8u; ++bit)]; [n] bits left.  [inl] is
    [return false], [inr] the state after the loop. *)
Fixpoint token_loop (n : nat) (src : list Z) (src_len dst_cap flags bit ip op : Z)
    (dst : ptr (list Z)) : option (ptr (list Z) + ptr (list Z) * Z * Z) :=
  match n with
  | O => Some (inr (dst, ip, op))
  | S n =>
      if src_len <=? ip then Some (inr (dst, ip, op))
      else if nz (Z.land (Z.shiftr flags bit) 1) then
        if dst_cap <=? op then Some (inl dst)
        else
          b ← aget src ip;
          out ← dst;
          out ← aset out op b;
          token_loop n src src_len dst_cap flags (bit + 1) (u64 (ip + 1)) (u64 (op + 1)) (Some out)
      else if src_len <? u64 (ip + 2) then Some (inl dst)
      else
        b0 ← aget src ip;
        b1 ← aget src (u64 (ip + 1));
        let v := u16 (Z.lor b0 (Z.shiftl b1 8)) in
        let off := Z.land v 0x0FFF + 1 in
        let len := Z.land (Z.shiftr v 12) 0x0F + OWZIP_MIN_MATCH in
        if op <? off then Some (inl dst)
        else if dst_cap <? u64 (op + len) then Some (inl dst)
        else
          out ← dst;
          out ← copy_loop (Z.to_nat len) out op off;
          token_loop n src src_len dst_cap flags (bit + 1) (u64 (ip + 2)) (u64 (op + len)) (Some out)
  end.

(** [while (ip < src_len)]; each iteration advances [ip]. *)
Fixpoint decompress_loop (fuel : nat) (src : ptr (list Z)) (src_len dst_cap ip op : Z)
    (dst : ptr (list Z)) : option (ptr (list Z) + ptr (list Z) * Z) :=
  if negb (ip <? src_len) then Some (inr (dst, op))
  else
    match fuel with
    | O => None
    | S fuel =>
        bytes ← src;
        flags ← aget bytes ip;
        r ← token_loop 8 bytes src_len dst_cap flags 0 (u64 (ip + 1)) op dst;
        match r with
        | inl dst => Some (inl dst)
        | inr (dst, ip, op) => decompress_loop fuel src src_len dst_cap ip op dst
        end
    end.

Definition owzip_decompress (src : ptr (list Z)) (src_len : Z) (dst : ptr (list Z))
    (dst_cap : Z) (out_len : ptr Z) : option (ptr (list Z) * ptr Z * bool) :=
  match out_len with
  | None => Some (dst, out_len, false)
  | Some _ =>
      if (bool_decide (src = None) && negb (src_len =? 0)) ||
         (bool_decide (dst = None) && negb (dst_cap =? 0))
      then Some (dst, Some 0, false)
      else
        r ← decompress_loop (Z.to_nat src_len) src src_len dst_cap 0 0 dst;
        match r with
        | inl dst => Some (dst, Some 0, false)
        | inr (dst, op) => Some (dst, Some op, true)
        end
  end.

(** ** Checksums *)
Definition zip_crc_bit (c : Z) : Z :=
  if nz (Z.land c 1) then Z.lxor (Z.shiftr c 1) 0xEDB88320 else Z.shiftr c 1.

Definition owzip_crc32 (crc : Z) (data : ptr (list Z)) (len : Z) : option Z :=
  let c := Z.lxor crc 0xFFFFFFFF in
  match data with
  | None => if len =? 0 then Some (Z.lxor c 0xFFFFFFFF) else Some crc
  | Some p =>
      c ← for_up (Z.to_nat len) 0
            (λ i c, b ← aget p i; Some (Nat.iter 8 zip_crc_bit (Z.lxor c b))) c;
      Some (Z.lxor c 0xFFFFFFFF)
  end.

Definition owzip_adler32 (adler : Z) (data : ptr (list Z)) (len : Z) : option Z :=
  let a := Z.land adler 0xFFFF in
  let b := Z.land (Z.shiftr adler 16) 0xFFFF in
  let combine a b := Z.lor (u32 (Z.shiftl b 16)) a in
  match data with
  | None => if len =? 0 then Some (combine a b) else Some adler
  | Some p =>
      '(a, b) ← for_up (Z.to_nat len) 0
        (λ i s, let '(a, b) := s in
                x ← aget p i;
                let a := u32 (a + x) mod 65521 in
                Some (a, u32 (b + a) mod 65521)) (a, b);
      Some (combine a b)
  end.
