(* ===== verification/OwzipSpec.v ===== *)
(** The OWZIP1 stream grammar and its meaning, and the decoder: it expands every
    well-formed stream, and is safe on every other input. *)
From S2P Require Import Prelude Owzip.

(** ** The grammar *)

(** A token is a literal byte or a reference to [len] bytes, [dist] back. *)
Inductive token := Lit (b : Z) | Ref (dist len : Z).

Definition is_lit (t : token) : bool := match t with Lit _ => true | Ref _ _ => false end.

(** The bytes of a token after its control bit. *)
Definition payload (t : token) : list Z :=
  match t with
  | Lit b => [b]
  | Ref d l => [(d - 1) mod 256; (d - 1) / 256 + 16 * (l - 3)]
  end.
Definition payloads (ts : list token) : list Z := concat (map payload ts).

(** The control byte: bit [i] for token [i]. *)
Fixpoint control (i : Z) (ts : list token) : Z :=
  match ts with
  | [] => 0
  | t :: ts => (if is_lit t then 2 ^ i else 0) + control (i + 1) ts
  end.

Definition group (ts : list token) : list Z := control 0 ts :: payloads ts.

(** Full groups of eight tokens and the tokens of the last, partial one. *)
Definition stream (full : list (list token)) (last : list token) : list Z :=
  concat (map group full) ++ match last with [] => [] | _ => group last end.

(** ** The meaning of tokens *)

(** [n] bytes, each the one [d] places before the end. *)
Fixpoint back_copy (n : nat) (out : list Z) (d : nat) : list Z :=
  match n with
  | O => out
  | S n => back_copy n (out ++ [out !!! (length out - d)%nat]) d
  end.

Definition expand1 (out : list Z) (t : token) : list Z :=
  match t with
  | Lit b => out ++ [b]
  | Ref d l => back_copy (Z.to_nat l) out (Z.to_nat d)
  end.
Definition expand (out : list Z) (ts : list token) : list Z := foldl expand1 out ts.

Definition token_ok (out : list Z) (t : token) : Prop :=
  match t with
  | Lit b => 0 ≤ b < 256
  | Ref d l => 1 ≤ d ≤ 4096 ∧ 3 ≤ l ≤ 18 ∧ d ≤ Z.of_nat (length out)
  end.
Fixpoint tokens_ok (out : list Z) (ts : list token) : Prop :=
  match ts with
  | [] => True
  | t :: ts => token_ok out t ∧ tokens_ok (expand1 out t) ts
  end.

(** ** Lengths *)

Lemma back_copy_length n out d : length (back_copy n out d) = (length out + n)%nat.
Proof. revert out. induction n; intros out; simpl; [lia|]. rewrite IHn, length_app. simpl. lia. Qed.

Lemma expand1_length out t :
  token_ok out t → (length out < length (expand1 out t) ≤ length out + 18)%nat.
Proof.
  destruct t as [b|d l]; simpl; intros Ht; [rewrite length_app; simpl; lia|].
  rewrite back_copy_length. lia.
Qed.

Lemma expand_length out ts : tokens_ok out ts → (length out + length ts ≤ length (expand out ts))%nat.
Proof.
  revert out. induction ts as [|t ts IH]; intros out; [simpl; lia|]. intros [Ht Hts].
  apply IH in Hts. apply expand1_length in Ht. unfold expand in *. simpl. lia.
Qed.

Lemma tokens_ok_app out ts us :
  tokens_ok out (ts ++ us) ↔ tokens_ok out ts ∧ tokens_ok (expand out ts) us.
Proof.
  revert out. induction ts as [|t ts IH]; intros out; simpl; [naive_solver|].
  rewrite IH. unfold expand. simpl. tauto.
Qed.

Lemma expand_app out ts us : expand out (ts ++ us) = expand (expand out ts) us.
Proof. apply foldl_app. Qed.

Lemma payload_octets out t : token_ok out t → octets (payload t).
Proof.
  destruct t as [b|d l]; simpl; intros Ht; repeat constructor; try done; try zdm.
Qed.

Lemma payload_length t : (1 ≤ length (payload t) ≤ 2)%nat.
Proof. destruct t; simpl; lia. Qed.

(** ** The output buffer: [out] decoded so far over the old content *)
Definition filled (out dst : list Z) : list Z := out ++ drop (length out) dst.

Lemma filled_length out dst : (length out ≤ length dst)%nat → length (filled out dst) = length dst.
Proof. intros. unfold filled. rewrite length_app, length_drop. lia. Qed.

Lemma filled_push out dst b i :
  (length out < length dst)%nat → i = Z.of_nat (length out) →
  aset (filled out dst) i b = Some (filled (out ++ [b]) dst).
Proof.
  intros Hlt ->. unfold filled. destruct (lookup_lt_is_Some_2 dst (length out) Hlt) as [x Hx].
  rewrite (drop_lookup_cons _ _ _ Hx), aset_app_here, length_app. simpl.
  by rewrite Nat.add_1_r, <-app_assoc.
Qed.

Lemma filled_get out dst i x : out !! i = Some x → aget (filled out dst) (Z.of_nat i) = Some x.
Proof. intros. rewrite aget_of_nat. by apply lookup_app_l_Some. Qed.

Lemma copy_loop_spec n out dst d :
  (1 ≤ d ≤ length out)%nat → (length out + n ≤ length dst)%nat →
  copy_loop n (filled out dst) (Z.of_nat (length out)) (Z.of_nat d) =
    Some (filled (back_copy n out d) dst).
Proof.
  revert out. induction n as [|n IH]; intros out Hd Hlen; [done|]. cbn [copy_loop back_copy].
  destruct (lookup_lt_is_Some_2 out (length out - d)) as [x Hx]; [lia|].
  replace (Z.of_nat (length out) - Z.of_nat d) with (Z.of_nat (length out - d)) by lia.
  rewrite (filled_get _ _ _ _ Hx), obind_Some, filled_push, obind_Some by lia.
  rewrite (list_lookup_total_correct _ _ _ Hx).
  replace (Z.of_nat (length out) + 1) with (Z.of_nat (length (out ++ [x])))
    by (rewrite length_app; simpl; lia).
  apply IH; rewrite length_app; simpl; lia.
Qed.

(** ** Control bits and references *)

Lemma flag_bit flags i : 0 ≤ i → nz (Z.land (Z.shiftr flags i) 1) = Z.testbit flags i.
Proof.
  intros Hi. change 1 with (Z.ones 1). rewrite Z.land_ones by lia. change (2 ^ 1) with 2.
  rewrite Zmod_odd, <-Z.bit0_odd, Z.shiftr_spec, Z.add_0_l by lia. by destruct (Z.testbit flags i).
Qed.

Lemma control_range i ts :
  0 ≤ i → 0 ≤ control i ts < 2 ^ (i + Z.of_nat (length ts)) ∧ (2 ^ i | control i ts).
Proof.
  revert i. induction ts as [|t ts IH]; intros i Hi; cbn [control length].
  { split; [split; [done|]; apply Z.pow_pos_nonneg; lia|apply Z.divide_0_r]. }
  destruct (IH (i + 1)) as [Hr Hd]; [lia|].
  replace (i + Z.of_nat (S (length ts))) with (i + 1 + Z.of_nat (length ts)) by lia.
  rewrite Z.pow_add_r in Hd by lia. change (2 ^ 1) with 2 in Hd.
  assert (0 < 2 ^ i) by (apply Z.pow_pos_nonneg; lia). split.
  - destruct Hd as [q Hq]. set (c := control (i + 1) ts) in *.
    assert ((2 ^ i * 2 | 2 ^ (i + 1 + Z.of_nat (length ts)))) as [r Hr'].
    { exists (2 ^ Z.of_nat (length ts)). rewrite !Z.pow_add_r by lia. lia. }
    rewrite Hr' in *. clearbody c. subst c. assert (0 ≤ q < r) by nia.
    destruct (is_lit t); nia.
  - apply Z.divide_add_r; [|etrans; [|exact Hd]; apply Z.divide_factor_l].
    destruct (is_lit t); [done|apply Z.divide_0_r].
Qed.

(** Bit [i + k] of the control byte belongs to token [k]. *)
Lemma control_bit i ts k t :
  0 ≤ i → ts !! k = Some t → Z.testbit (control i ts) (i + Z.of_nat k) = is_lit t.
Proof.
  revert i k. induction ts as [|u ts IH]; intros i k Hi Hk; [done|]. cbn [control].
  destruct (control_range (i + 1) ts) as [Hr [q Hq]]; [lia|].
  rewrite Z.pow_add_r in Hq by lia. change (2 ^ 1) with 2 in Hq.
  assert (0 < 2 ^ i) by (apply Z.pow_pos_nonneg; lia).
  assert ((if is_lit u then 2 ^ i else 0) + control (i + 1) ts =
          (Z.b2z (is_lit u) + 2 * q) * 2 ^ i) as -> by (rewrite Hq; destruct (is_lit u); simpl; lia).
  destruct k as [|k]; simpl in Hk.
  - simplify_eq. rewrite Z.mul_pow2_bits_add, Z.bit0_odd by lia.
    rewrite Z.odd_add_mul_2. by destruct (is_lit t).
  - rewrite Z.mul_pow2_bits_add by lia.
    rewrite <-(IH (i + 1) k) by first [done|lia]. rewrite Hq.
    replace (q * (2 ^ i * 2)) with (q * 2 ^ (i + 1)) by (rewrite Z.pow_add_r by lia; lia).
    rewrite Z.mul_pow2_bits_add by lia.
    rewrite Nat2Z.inj_succ. replace (Z.b2z (is_lit u) + 2 * q) with (2 * q + Z.b2z (is_lit u)) by lia.
    by rewrite Z.testbit_succ_r by lia.
Qed.

(** A reference word read back. *)
Lemma ref_word d l :
  1 ≤ d ≤ 4096 → 3 ≤ l ≤ 18 →
  let v := u16 (Z.lor ((d - 1) mod 256) (Z.shiftl ((d - 1) / 256 + 16 * (l - 3)) 8)) in
  Z.land v 0x0FFF + 1 = d ∧ Z.land (Z.shiftr v 12) 0x0F + OWZIP_MIN_MATCH = l.
Proof.
  intros Hd Hl v. assert (v = (d - 1) + 4096 * (l - 3)) as ->.
  { unfold v. rewrite Z.lor_comm, lor_shiftl_add by first [lia|zdm].
    rewrite u16_small; [zdm|]. split; zdm. }
  change 0x0FFF with (Z.ones 12). change 0x0F with (Z.ones 4).
  rewrite !Z.land_ones, Z.shiftr_div_pow2 by lia. unfold OWZIP_MIN_MATCH.
  change (2 ^ 12) with 4096. change (2 ^ 4) with 16. split; zdm.
Qed.

(** ** The decoder on well-formed streams *)

#[local] Abbreviation zlen l := (Z.of_nat (length l)) (only parsing).

Lemma payloads_cons t ts : payloads (t :: ts) = payload t ++ payloads ts.
Proof. done. Qed.

(** One token of the stream; [src_len] bytes of the source count. *)
Lemma token_step n src src_len pre q t flags bit out dst cap :
  src = pre ++ payload t ++ q → zlen (pre ++ payload t) ≤ src_len ≤ zlen src → zlen src < 2 ^ 63 →
  token_ok out t → 0 ≤ bit → Z.testbit flags bit = is_lit t →
  zlen (expand1 out t) ≤ cap ≤ zlen dst → zlen dst < 2 ^ 63 →
  token_loop (S n) src src_len cap flags bit (zlen pre) (zlen out) (Some (filled out dst)) =
  token_loop n src src_len cap flags (bit + 1) (zlen (pre ++ payload t))
    (zlen (expand1 out t)) (Some (filled (expand1 out t) dst)).
Proof.
  intros Hsrc Hsl Hs Ht Hbit Hflag Hcap Hdst. pose proof (payload_length t) as Hpl.
  rewrite length_app in *. cbn [token_loop].
  rewrite (proj2 (Z.leb_gt _ _)), flag_bit, Hflag by lia.
  destruct t as [b|d l]; cbn [is_lit payload expand1] in *; rewrite ?length_app in *; simpl length in *.
  - rewrite (proj2 (Z.leb_gt _ _)) by lia.
    assert (aget src (zlen pre) = Some b) as -> by (rewrite Hsrc; apply aget_app_here).
    rewrite !obind_Some, filled_push, obind_Some by lia.
    rewrite !u64_small by lia. do 2 f_equal; lia.
  - destruct Ht as (Hd & Hl & Hdo). rewrite back_copy_length in *.
    rewrite (u64_small (zlen pre + 2)), (proj2 (Z.ltb_ge _ (_ + 2))) by lia.
    assert (aget src (zlen pre) = Some ((d - 1) mod 256)) as -> by (rewrite Hsrc; apply aget_app_here).
    assert (aget src (u64 (zlen pre + 1)) = Some ((d - 1) / 256 + 16 * (l - 3))) as ->.
    { rewrite u64_small by lia. rewrite Hsrc. cbn [app]. rewrite (cons_middle _ pre), app_assoc.
      replace (zlen pre + 1) with (zlen (pre ++ [(d - 1) mod 256])) by (rewrite length_app; simpl; lia).
      apply aget_app_here. }
    rewrite !obind_Some. destruct (ref_word d l Hd Hl) as [-> ->].
    rewrite (proj2 (Z.ltb_ge _ d)), !(u64_small (_ + l)), (proj2 (Z.ltb_ge cap _)) by lia.
    replace d with (Z.of_nat (Z.to_nat d)) at 1 by lia.
    rewrite copy_loop_spec, obind_Some by lia. f_equal; lia.
Qed.

Lemma token_loop_spec ts n src src_len pre post flags bit out dst cap :
  src = pre ++ payloads ts ++ post → zlen (pre ++ payloads ts) ≤ src_len ≤ zlen src →
  zlen src < 2 ^ 63 → tokens_ok out ts → (length ts ≤ n)%nat →
  (length ts = n ∨ zlen (pre ++ payloads ts) = src_len) → 0 ≤ bit →
  (∀ k t, ts !! k = Some t → Z.testbit flags (bit + Z.of_nat k) = is_lit t) →
  zlen (expand out ts) ≤ cap ≤ zlen dst → zlen dst < 2 ^ 63 →
  token_loop n src src_len cap flags bit (zlen pre) (zlen out) (Some (filled out dst)) =
    Some (inr (Some (filled (expand out ts) dst), zlen (pre ++ payloads ts), zlen (expand out ts))).
Proof.
  revert n pre bit out. induction ts as [|t ts IH];
    intros n pre bit out Hsrc Hsl Hs Hok Hn Hpost Hbit Hbits Hcap Hdst.
  { cbn [payloads map concat expand foldl] in *. rewrite app_nil_r in *. destruct n as [|n]; [done|].
    destruct Hpost as [?|Hpost]; [done|]. cbn [token_loop].
    by rewrite (proj2 (Z.leb_le _ _)) by lia. }
  destruct n as [|n]; [simpl in Hn; lia|]. destruct Hok as [Ht Hts].
  pose proof (expand_length _ _ Hts) as Hexp. cbn [expand foldl] in Hcap, Hexp.
  fold (expand (expand1 out t) ts) in *. rewrite payloads_cons, app_assoc in *.
  rewrite (token_step n src src_len pre (payloads ts ++ post) t);
    [|by rewrite Hsrc, <-!app_assoc|rewrite (length_app _ (payloads ts)) in Hsl; lia|done..
     |by rewrite <-(Hbits 0%nat t), Z.add_0_r|lia|done].
  apply IH; [by rewrite Hsrc, <-!app_assoc|done..|simpl in Hn; lia
    |simpl in Hpost; naive_solver lia|lia| |done|done].
  intros k u Hk. rewrite <-(Hbits (S k) u Hk). f_equal. lia.
Qed.

(** A whole group: the control byte and its tokens. *)
Lemma group_step fuel src src_len pre ts post out dst cap :
  src = pre ++ group ts ++ post → zlen (pre ++ group ts) ≤ src_len ≤ zlen src →
  zlen src < 2 ^ 63 → tokens_ok out ts →
  (length ts = 8%nat ∨ zlen (pre ++ group ts) = src_len) → (length ts ≤ 8)%nat →
  zlen (expand out ts) ≤ cap ≤ zlen dst → zlen dst < 2 ^ 63 →
  decompress_loop (S fuel) (Some src) src_len cap (zlen pre) (zlen out) (Some (filled out dst)) =
  decompress_loop fuel (Some src) src_len cap (zlen (pre ++ group ts)) (zlen (expand out ts))
    (Some (filled (expand out ts) dst)).
Proof.
  intros Hsrc Hsl Hs Hok Hpost Hn Hcap Hdst. cbn [decompress_loop].
  assert (zlen (pre ++ group ts) = zlen pre + 1 + zlen (payloads ts)) as Hgl
    by (rewrite length_app; simpl; lia).
  rewrite (proj2 (Z.ltb_lt _ _)) by lia. simpl negb. cbv iota. rewrite obind_Some.
  assert (aget src (zlen pre) = Some (control 0 ts)) as ->
    by (rewrite Hsrc; apply aget_app_here). rewrite obind_Some, u64_small by lia.
  replace (zlen pre + 1) with (zlen (pre ++ [control 0 ts])) by (rewrite length_app; simpl; lia).
  assert (pre ++ group ts = (pre ++ [control 0 ts]) ++ payloads ts) as Hg by (by rewrite <-app_assoc).
  rewrite (token_loop_spec ts 8 src src_len (pre ++ [control 0 ts]) post);
    [by rewrite obind_Some, Hg|by rewrite Hsrc, app_assoc, Hg, <-app_assoc|by rewrite <-Hg|done..
     |by rewrite <-Hg|done| |done|done].
  intros k t Hk. by apply control_bit.
Qed.

Lemma decompress_done fuel src src_len cap op dst :
  decompress_loop fuel src src_len cap src_len op dst = Some (inr (dst, op)).
Proof. destruct fuel; cbn [decompress_loop]; rewrite Z.ltb_irrefl; reflexivity. Qed.

Lemma stream_cons g full last : stream (g :: full) last = group g ++ stream full last.
Proof. unfold stream. simpl. by rewrite app_assoc. Qed.

Lemma decompress_loop_spec full last fuel src src_len pre post out dst cap :
  src = pre ++ stream full last ++ post → zlen (pre ++ stream full last) = src_len →
  zlen src < 2 ^ 63 → tokens_ok out (concat full ++ last) →
  Forall (λ g, length g = 8%nat) full → (length last ≤ 8)%nat →
  zlen (expand out (concat full ++ last)) ≤ cap ≤ zlen dst → zlen dst < 2 ^ 63 →
  (length full < fuel)%nat →
  decompress_loop fuel (Some src) src_len cap (zlen pre) (zlen out) (Some (filled out dst)) =
    Some (inr (Some (filled (expand out (concat full ++ last)) dst),
               zlen (expand out (concat full ++ last)))).
Proof.
  intros Hsrc Hsl Hs Hok Hfull Hlast Hcap Hdst Hfuel.
  revert pre out fuel Hsrc Hsl Hok Hcap Hfuel.
  induction Hfull as [|g full Hg Hfull IH]; intros pre out fuel Hsrc Hsl Hok Hcap Hfuel.
  - destruct fuel as [|fuel]; [simpl in Hfuel; lia|]. cbn [concat app] in *.
    destruct last as [|t last].
    { cbn [stream map concat app] in *. rewrite app_nil_r in Hsl. subst src_len.
      apply decompress_done. }
    change (stream [] (t :: last)) with (group (t :: last)) in *.
    rewrite (group_step fuel src src_len pre (t :: last) post); [|done|split; [lia|]|done|done|by right|done|done|done].
    + by rewrite Hsl, decompress_done.
    + rewrite Hsrc, app_assoc, (length_app (pre ++ _)). lia.
  - destruct fuel as [|fuel]; [simpl in Hfuel; lia|]. cbn [concat] in *.
    rewrite <-app_assoc in *. apply tokens_ok_app in Hok as [Hok1 Hok2].
    rewrite expand_app in *. rewrite stream_cons in *.
    pose proof (expand_length _ _ Hok2).
    rewrite (group_step fuel src src_len pre g (stream full last ++ post));
      [|by rewrite Hsrc, <-app_assoc| |done|done|by left|lia|lia|done].
    + apply IH; [by rewrite Hsrc, <-!app_assoc|by rewrite <-Hsl, app_assoc|done|done|simpl in Hfuel; lia].
    + rewrite Hsrc, <-Hsl, !length_app. lia.
Qed.

(** ** The decoder on arbitrary input *)

(** The part of the buffer beyond the capacity is not touched. *)
Definition within (cap : Z) (dst dst' : list Z) : Prop :=
  length dst' = length dst ∧ drop (Z.to_nat cap) dst' = drop (Z.to_nat cap) dst.

Lemma within_refl cap dst : within cap dst dst.
Proof. done. Qed.

Lemma within_trans cap d1 d2 d3 : within cap d1 d2 → within cap d2 d3 → within cap d1 d3.
Proof. intros [? ?] [? ?]. split; congruence. Qed.

Lemma within_aset cap dst i b :
  0 ≤ i < cap → cap ≤ zlen dst → ∃ dst', aset dst i b = Some dst' ∧ within cap dst dst'.
Proof.
  intros. eexists. split; [apply aset_in; lia|]. split; [apply length_insert|].
  by rewrite drop_insert_lt by lia.
Qed.

Lemma copy_loop_safe n dst op off cap :
  1 ≤ off ≤ op → op + Z.of_nat n ≤ cap ≤ zlen dst →
  ∃ dst', copy_loop n dst op off = Some dst' ∧ within cap dst dst'.
Proof.
  revert dst op. induction n as [|n IH]; intros dst op Hoff Hop; [by exists dst|].
  cbn [copy_loop]. destruct (aget_is_Some dst (op - off)) as [b ->]; [lia|]. rewrite obind_Some.
  destruct (within_aset cap dst op b) as (d1 & -> & Hw); [lia..|]. rewrite obind_Some.
  destruct (IH d1 (op + 1)) as (d2 & -> & Hw2); [lia|destruct Hw as [-> _]; lia|].
  eauto using within_trans.
Qed.

(** What a step of the decoder leaves behind. *)
Definition decoded (src_len cap ip op : Z) (dst : list Z)
    (r : ptr (list Z) + ptr (list Z) * Z * Z) : Prop :=
  match r with
  | inl d => ∃ d', d = Some d' ∧ within cap dst d'
  | inr (d, ip', op') => ∃ d', d = Some d' ∧ within cap dst d' ∧ ip ≤ ip' ≤ src_len ∧ op ≤ op' ≤ cap
  end.

Lemma decoded_trans src_len cap ip op dst ip1 op1 dst1 r :
  within cap dst dst1 → ip ≤ ip1 → op ≤ op1 →
  decoded src_len cap ip1 op1 dst1 r → decoded src_len cap ip op dst r.
Proof.
  intros Hw Hip Hop. destruct r as [d|[[d i] o]]; simpl.
  - intros (d' & -> & ?). eauto using within_trans.
  - intros (d' & -> & ? & ? & ?). exists d'. split_and!; eauto using within_trans; lia.
Qed.

Lemma decoded_stop src_len cap ip op dst :
  ip ≤ src_len → op ≤ cap → decoded src_len cap ip op dst (inr (Some dst, ip, op)).
Proof. intros. exists dst. repeat split; lia. Qed.

Lemma token_loop_safe n src src_len cap flags bit ip op dst :
  0 ≤ ip ≤ src_len → src_len ≤ zlen src → zlen src < 2 ^ 63 →
  0 ≤ op ≤ cap → cap ≤ zlen dst → zlen dst < 2 ^ 63 →
  ∃ r, token_loop n src src_len cap flags bit ip op (Some dst) = Some r ∧
    decoded src_len cap ip op dst r.
Proof.
  revert bit ip op dst. induction n as [|n IH]; intros bit ip op dst Hip Hsl Hs Hop Hcap Hd;
    cbn [token_loop].
  { eexists. split; [done|]. apply decoded_stop; lia. }
  case_if; [eexists; split; [done|]; apply decoded_stop; lia|].
  case_if.
  - case_if; [by eexists (inl _); split; [done|exists dst]|].
    destruct (aget_is_Some src ip) as [b ->]; [lia|]. rewrite !obind_Some.
    destruct (within_aset cap dst op b) as (d1 & -> & Hw); [lia..|]. rewrite obind_Some.
    rewrite !u64_small by lia. pose proof Hw as [Hl _].
    destruct (IH (bit + 1) (ip + 1) (op + 1) d1) as (r & -> & Hr); [lia..|].
    exists r. split; [done|]. eapply decoded_trans; [exact Hw| | |exact Hr]; lia.
  - rewrite u64_small by lia. case_if; [by eexists (inl _); split; [done|exists dst]|].
    destruct (aget_is_Some src ip) as [b0 ->]; [lia|]. rewrite obind_Some.
    destruct (aget_is_Some src (u64 (ip + 1))) as [b1 ->]; [rewrite u64_small by lia; lia|].
    rewrite obind_Some. set (v := u16 _).
    assert (0 ≤ Z.land v 0x0FFF < 4096) as Hoff.
    { change 0x0FFF with (Z.ones 12). rewrite Z.land_ones by lia. by apply Z.mod_pos_bound. }
    assert (0 ≤ Z.land (Z.shiftr v 12) 0x0F < 16) as Hlen.
    { change 0x0F with (Z.ones 4). rewrite Z.land_ones by lia. by apply Z.mod_pos_bound. }
    unfold OWZIP_MIN_MATCH. case_if; [by eexists (inl _); split; [done|exists dst]|].
    rewrite (u64_small (op + _)) by lia. case_if; [by eexists (inl _); split; [done|exists dst]|].
    rewrite obind_Some.
    destruct (copy_loop_safe (Z.to_nat (Z.land (Z.shiftr v 12) 0x0F + 3)) dst op
      (Z.land v 0x0FFF + 1) cap) as (d1 & -> & Hw); [lia..|].
    rewrite obind_Some. pose proof Hw as [Hl _].
    destruct (IH (bit + 1) (ip + 2) (op + (Z.land (Z.shiftr v 12) 0x0F + 3)) d1)
      as (r & -> & Hr); [lia..|].
    exists r. split; [done|]. eapply decoded_trans; [exact Hw| | |exact Hr]; lia.
Qed.

Lemma decompress_loop_safe fuel src src_len cap ip op dst :
  0 ≤ ip ≤ src_len → src_len ≤ zlen src → zlen src < 2 ^ 63 →
  0 ≤ op ≤ cap → cap ≤ zlen dst → zlen dst < 2 ^ 63 → src_len - ip ≤ Z.of_nat fuel →
  ∃ r dst', decompress_loop fuel (Some src) src_len cap ip op (Some dst) = Some r ∧
    within cap dst dst' ∧
    (r = inl (Some dst') ∨ ∃ op', r = inr (Some dst', op') ∧ op ≤ op' ≤ cap).
Proof.
  revert ip op dst. induction fuel as [|fuel IH]; intros ip op dst Hip Hsl Hs Hop Hcap Hd Hf;
    cbn [decompress_loop].
  { rewrite (proj2 (Z.ltb_ge _ _)) by lia. exists (inr (Some dst, op)), dst.
    split; [done|]. split; [apply within_refl|]. right. exists op. split; [done|lia]. }
  case_if.
  { exists (inr (Some dst, op)), dst.
      split; [done|]. split; [apply within_refl|]. right. exists op. split; [done|lia]. }
  rewrite obind_Some. destruct (aget_is_Some src ip) as [flags ->]; [lia|]. rewrite obind_Some.
  rewrite u64_small by lia.
  destruct (token_loop_safe 8 src src_len cap flags 0 (ip + 1) op dst) as (r & -> & Hr); [lia..|].
  rewrite obind_Some. destruct r as [d|[[d ip1] op1]]; destruct Hr as (d1 & -> & Hr).
  - exists (inl (Some d1)), d1. split; [done|]. split; [exact Hr|by left].
  - destruct Hr as (Hw & Hr). pose proof Hw as [Hl _].
    destruct (IH ip1 op1 d1) as (r & d2 & -> & Hw2 & Hr2); [lia..|].
    exists r, d2. split; [done|]. split; [by eapply within_trans|].
    destruct Hr2 as [->|(op' & -> & ?)]; [by left|right]. exists op'. split; [done|lia].
Qed.
