(* ===== verification/OwzipCodec.v ===== *)
(** The encoder of the compression library: every stream it writes is a
    well-formed OWZIP1 stream of its input, so decoding gives the input back.
    The checksums of the library: its CRC-32 is the one the partition manager
    computes and can be continued across buffers; Adler-32 has the closed form
    of RFC 1950. *)
From S2P Require Import Prelude Partmgr PartmgrSpec Owzip OwzipSpec.

(** ** The encoder *)

#[local] Abbreviation zlen l := (Z.of_nat (length l)) (only parsing).

(** ** The writer *)

Lemma control_snoc i ts t :
  control i (ts ++ [t]) = control i ts + (if is_lit t then 2 ^ (i + zlen ts) else 0).
Proof.
  revert i. induction ts as [|u ts IH]; intros i; cbn [control app length].
  { by rewrite Z.add_0_r, !Z.add_0_l, Z.add_0_r. }
  rewrite IH. replace (i + 1 + zlen ts) with (i + Z.of_nat (S (length ts))) by lia. lia.
Qed.

Lemma payloads_snoc ts t : payloads (ts ++ [t]) = payloads ts ++ payload t.
Proof. unfold payloads. rewrite map_app, concat_app. simpl. by rewrite app_nil_r. Qed.

Lemma group_snoc_length ts t : length (group (ts ++ [t])) = (length (group ts) + length (payload t))%nat.
Proof. unfold group. cbn [length]. rewrite payloads_snoc, length_app. lia. Qed.

(** The full groups written so far. *)
Definition closed (full : list (list token)) : list Z := concat (map group full).

(** After the control byte of the current group exists: the group may still be
    empty. *)
Record opened (cap : Z) (dst : list Z) (full : list (list token)) (last : list token)
    (w : ow_zip_writer_t) : Prop := {
  op_out : zw_out w = Some (filled (closed full ++ group last) dst);
  op_len : zw_len w = zlen (closed full ++ group last);
  op_fit : zlen (closed full ++ group last) ≤ cap;
  op_cap : zw_cap w = cap;
  op_flags : zw_nflags w = zlen last;
  op_index : zw_flag_index w = zlen (closed full);
  op_overflow : zw_overflow w = false
}.

(** Between tokens. *)
Record written (cap : Z) (dst : list Z) (full : list (list token)) (last : list token)
    (w : ow_zip_writer_t) : Prop := {
  wr_out : zw_out w = Some (filled (stream full last) dst);
  wr_len : zw_len w = zlen (stream full last);
  wr_fit : zlen (stream full last) ≤ cap;
  wr_cap : zw_cap w = cap;
  wr_flags : zw_nflags w = zlen last;
  wr_index : last ≠ [] → zw_flag_index w = zlen (closed full);
  wr_overflow : zw_overflow w = false;
  wr_full : Forall (λ g, length g = 8%nat) full;
  wr_last : (length last < 8)%nat
}.

(** The token did not fit: [n] bytes would have been needed. *)
Definition refused (cap : Z) (dst : list Z) (n : Z) (w : ow_zip_writer_t) : Prop :=
  zw_overflow w = true ∧ cap < n ∧
  ∃ x, zw_out w = Some (filled x dst) ∧ zlen x ≤ cap.

Section writer.
Context (cap : Z) (dst : list Z) (Hcap : cap ≤ zlen dst) (Hdst : zlen dst < 2 ^ 63).

Lemma emit_spec w x b :
  zw_out w = Some (filled x dst) → zw_len w = zlen x → zlen x < cap →
  emit w b = Some (w <| zw_out := Some (filled (x ++ [b]) dst) |> <| zw_len := zlen (x ++ [b]) |>).
Proof.
  intros Ho Hl Hx. unfold emit. rewrite Ho, obind_Some, filled_push, obind_Some by lia.
  rewrite u64_small, Hl by lia. rewrite length_app. do 3 f_equal. simpl. lia.
Qed.

(** The control byte gets the bit of the new literal. *)
Lemma set_flag_spec full last b w :
  opened cap dst full last w → (length last < 8)%nat →
  set_flag w = Some (w <| zw_out := Some (filled (closed full ++ control 0 (last ++ [Lit b]) ::
                                                 payloads last) dst) |>).
Proof.
  intros [Ho _ Hf _ Hn Hi _] Hlast. unfold set_flag.
  assert (filled (closed full ++ group last) dst = closed full ++ control 0 last ::
    (payloads last ++ drop (length (closed full ++ group last)) dst)) as E.
  { unfold filled, group. by rewrite <-app_assoc. }
  rewrite Ho, obind_Some, Hi, E, aget_app_here, obind_Some, aset_app_here, obind_Some, Hn.
  destruct (control_range 0 last) as [Hr _]; [done|]. rewrite Z.add_0_l in Hr.
  assert (2 ^ zlen last ≤ 2 ^ 7) by (apply Z.pow_le_mono_r; lia).
  assert (0 < 2 ^ zlen last) by (apply Z.pow_pos_nonneg; lia).
  rewrite (u8_small (Z.shiftl 1 _)) by (rewrite Z.shiftl_1_l; lia).
  rewrite Z.lor_comm, lor_shiftl_add, u8_small by lia.
  rewrite control_snoc. cbn [is_lit]. rewrite Z.add_0_l, Z.mul_1_l, Z.add_comm.
  unfold filled. rewrite <-app_assoc. cbn [app]. rewrite !length_app. done.
Qed.

(** Opening the group of the next token. *)
Lemma open_group full last w t :
  written cap dst full last w → 0 ≤ cap →
  ∃ w', (if zw_nflags w =? 0 then
           if zw_cap w <=? zw_len w then Some (w <| zw_overflow := true |>)
           else emit (w <| zw_flag_index := zw_len w |>) 0
         else Some w) = Some w' ∧
    (refused cap dst (zlen (closed full ++ group (last ++ [t]))) w' ∨ opened cap dst full last w').
Proof.
  intros [Ho Hl Hf Hc Hn Hi Hov Hfull Hlast] Hcap0. destruct last as [|u us] eqn:El.
  - replace (stream full []) with (closed full) in * by (unfold stream; by rewrite app_nil_r).
    rewrite Hn. change (zlen [] =? 0) with true. cbv iota. rewrite Hc. case_if.
    + eexists. split; [done|]. left. split_and!; [done| |by exists (closed full)].
      rewrite length_app, group_snoc_length. simpl. lia.
    + rewrite (emit_spec _ (closed full)) by first [done|lia].
      eexists. split; [done|]. right. split; try done; cbn.
      rewrite length_app. simpl. lia.
  - rewrite Hn. rewrite (proj2 (Z.eqb_neq _ _)) by (simpl; lia).
    exists w. split; [done|]. right. unfold stream in *. by split; auto.
Qed.

(** The groups after one more token. *)
Definition next (full : list (list token)) (last : list token) (t : token) :=
  if decide (length last = 7%nat) then (full ++ [last ++ [t]], []) else (full, last ++ [t]).

Lemma next_stream full last t :
  stream (next full last t).1 (next full last t).2 = closed full ++ group (last ++ [t]).
Proof.
  unfold next, stream, closed. case_decide; simpl.
  - rewrite map_app, concat_app. simpl. by rewrite !app_nil_r.
  - by destruct last.
Qed.

Lemma next_tokens full last t :
  concat (next full last t).1 ++ (next full last t).2 = (concat full ++ last) ++ [t].
Proof.
  unfold next. case_decide; simpl.
  - rewrite concat_app. simpl. by rewrite !app_nil_r, app_assoc.
  - by rewrite app_assoc.
Qed.

Lemma close_token full last t w :
  zw_out w = Some (filled (closed full ++ group (last ++ [t])) dst) →
  zw_len w = zlen (closed full ++ group (last ++ [t])) →
  zlen (closed full ++ group (last ++ [t])) ≤ cap →
  zw_cap w = cap → zw_nflags w = zlen last → zw_flag_index w = zlen (closed full) →
  zw_overflow w = false → Forall (λ g, length g = 8%nat) full → (length last < 8)%nat →
  written cap dst (next full last t).1 (next full last t).2
    (w <| zw_nflags := Z.land (u32 (zw_nflags w + 1)) 7 |>).
Proof.
  intros Ho Hl Hf Hc Hn Hi Hov Hfull Hlast.
  assert (Z.land (u32 (zlen last + 1)) 7 = (zlen last + 1) mod 8) as Hmod.
  { rewrite u32_small by lia. change 7 with (Z.ones 3). by rewrite Z.land_ones. }
  split; rewrite ?next_stream; cbn [zw_out zw_len zw_cap zw_nflags zw_flag_index zw_overflow set_field];
    try done; rewrite ?Hn, ?Hmod; unfold next; case_decide; simpl; try done; try lia.
  - replace (zlen last) with 7 by lia. done.
  - rewrite length_app. simpl. rewrite Z.mod_small by lia. lia.
  - apply Forall_app. split; [done|]. constructor; [|done]. rewrite length_app. simpl. lia.
  - rewrite length_app. simpl. lia.
Qed.

(** The token of the encoder. *)
Definition word (t : token) : Z :=
  match t with Lit b => b | Ref d l => d - 1 + 4096 * (l - 3) end.

Lemma word_bytes d l :
  1 ≤ d ≤ 4096 → 3 ≤ l ≤ 18 →
  u8 (Z.land (word (Ref d l)) 0xFF) = (d - 1) mod 256 ∧
  u8 (Z.land (Z.shiftr (word (Ref d l)) 8) 0xFF) = (d - 1) / 256 + 16 * (l - 3).
Proof.
  intros Hd Hl. cbn [word]. change 0xFF with (Z.ones 8).
  rewrite !Z.land_ones, Z.shiftr_div_pow2 by done. change (2 ^ 8) with 256.
  split; rewrite u8_small; zdm.
Qed.

Lemma writer_token_spec full last out t w :
  written cap dst full last w → 0 ≤ cap → token_ok out t →
  ∃ w', ow_zip_writer_token w (is_lit t) (word t) = Some w' ∧
    (refused cap dst (zlen (closed full ++ group (last ++ [t]))) w' ∨
     written cap dst (next full last t).1 (next full last t).2 w').
Proof.
  intros Hw Hcap0 Ht. unfold ow_zip_writer_token. rewrite (wr_overflow _ _ _ _ _ Hw).
  destruct (open_group full last w t Hw Hcap0) as (w1 & -> & Hop). rewrite obind_Some.
  destruct Hop as [Href|Hop]; [rewrite (proj1 Href); eauto|]. pose proof Hop as [Ho Hl Hf Hc Hn Hi Hov].
  rewrite Hov. destruct Hw as [_ _ _ _ _ _ _ Hfull Hlast].
  set (x := closed full ++ group last) in *.
  assert (zlen (closed full ++ group (last ++ [t])) = zlen x + zlen (payload t)) as Hlen
    by (unfold x; rewrite !length_app, group_snoc_length; lia).
  assert (∀ y, zlen (closed full ++ group (last ++ [t])) = y → cap < y →
    refused cap dst (zlen (closed full ++ group (last ++ [t]))) (w1 <| zw_overflow := true |>)) as Hrefuse.
  { intros y Hy Hlt. split_and!; [done|lia|]. exists x. by split. }
  destruct t as [b|d l]; cbn [is_lit payload length] in *; rewrite Hc, Hl.
  - case_if; [eexists; split; [done|]; left; eapply Hrefuse; [done|lia]|].
    rewrite (set_flag_spec full last b) by done. rewrite obind_Some.
    replace (u8 (word (Lit b))) with b by (symmetry; by apply u8_small).
    assert (closed full ++ group (last ++ [Lit b]) =
      (closed full ++ control 0 (last ++ [Lit b]) :: payloads last) ++ [b]) as E.
    { unfold group. rewrite payloads_snoc, <-app_assoc. done. }
    rewrite (emit_spec _ (closed full ++ control 0 (last ++ [Lit b]) :: payloads last));
      [|done|cbn; rewrite Hl; unfold x; rewrite !length_app; done|unfold x in *; rewrite !length_app in *; simpl in *; lia].
    rewrite obind_Some. eexists. split; [done|]. right.
    apply close_token; try done; rewrite E; [done..|rewrite <-E; lia].
  - destruct Ht as (Hd & Hl3 & _). rewrite u64_small by lia.
    case_if; [eexists; split; [done|]; left; eapply Hrefuse; [done|lia]|].
    destruct (word_bytes d l Hd Hl3) as [-> ->].
    rewrite (emit_spec _ x) by first [done|lia]. rewrite obind_Some.
    rewrite (emit_spec _ (x ++ [(d - 1) mod 256])) by (rewrite ?length_app; simpl; first [done|lia]).
    rewrite obind_Some. eexists. split; [done|]. right.
    assert (closed full ++ group (last ++ [Ref d l]) =
      (x ++ [(d - 1) mod 256]) ++ [(d - 1) / 256 + 16 * (l - 3)]) as E.
    { unfold x, group. rewrite payloads_snoc, control_snoc. cbn [is_lit payload].
      rewrite Z.add_0_r, <-!app_assoc. done. }
    apply close_token; try done; rewrite E; [done..|rewrite <-E; lia].
Qed.
End writer.

(** ** The match search *)

(** The [l] bytes at [j] and at [pos] are the same. *)
Definition agree (src : list Z) (j pos l : Z) : Prop :=
  ∀ i, 0 ≤ i < l → aget src (j + i) = aget src (pos + i).

Lemma match_len_spec n src j pos l :
  0 ≤ j ≤ pos → 0 ≤ l → pos + l + Z.of_nat n ≤ zlen src → zlen src < 2 ^ 63 →
  agree src j pos l →
  ∃ l', match_len n src j pos l = Some l' ∧ l ≤ l' ≤ l + Z.of_nat n ∧ agree src j pos l' ∧
    (l' < l + Z.of_nat n → aget src (j + l') ≠ aget src (pos + l')).
Proof.
  revert l. induction n as [|n IH]; intros l Hj Hl Hlen Hs Hag; cbn [match_len].
  { exists l. split_and!; [done|lia..|done|lia]. }
  destruct (aget_is_Some src (j + l)) as [a Ha]; [lia|].
  destruct (aget_is_Some src (pos + l)) as [b Hb]; [lia|].
  rewrite !u64_small, Ha, Hb, !obind_Some by lia. case_if.
  - destruct (IH (l + 1)) as (l' & -> & Hr & Hag' & Hne); [lia..| |].
    { intros i Hi. destruct (decide (i = l)) as [->|]; [congruence|]. apply Hag. lia. }
    exists l'. split_and!; [done|lia..|done|]. intros. apply Hne. lia.
  - exists l. split_and!; [done|lia..|done|]. rewrite Ha, Hb. congruence.
Qed.

(** A best match so far among the starting points before [j]. *)
Definition best (src : list Z) (ws j pos max_len len dist : Z) : Prop :=
  0 ≤ len ≤ max_len ∧
  (0 < len → 1 ≤ dist ≤ pos - ws ∧ agree src (pos - dist) pos len) ∧
  ∀ k m, ws ≤ k < j → 0 ≤ m ≤ max_len → agree src k pos m → m ≤ len.

Lemma search_loop_spec n src ws j pos max_len len dist :
  0 ≤ ws ≤ j → j + Z.of_nat n = pos → 0 ≤ max_len → pos + max_len ≤ zlen src →
  zlen src < 2 ^ 63 → best src ws j pos max_len len dist →
  ∃ len' dist', search_loop n src j pos max_len len dist = Some (len', dist') ∧
    best src ws pos pos max_len len' dist'.
Proof.
  revert j len dist. induction n as [|n IH]; intros j len dist Hws Hj Hmax Hlen Hs Hbest;
    cbn [search_loop].
  { exists len, dist. split; [done|]. by replace pos with j at 1 by lia. }
  destruct Hbest as (Hl & Hdist & Hmaxl).
  destruct (match_len_spec (Z.to_nat max_len) src j pos 0) as (l & -> & Hr & Hag & Hne);
    [lia..|intros i Hi; lia|]. rewrite obind_Some.
  assert (∀ m, 0 ≤ m ≤ max_len → agree src j pos m → m ≤ l) as Hm.
  { intros m Hm Hagm. destruct (decide (m ≤ l)); [done|]. exfalso. apply Hne; [lia|].
    apply Hagm. lia. }
  case_if; [case_if|].
  - exists l, (pos - j). split; [done|]. split_and!; [lia|lia| |intros; lia].
    intros _. split; [lia|]. by replace (pos - (pos - j)) with j by lia.
  - apply IH; try lia. split_and!; [lia|lia| |].
    + intros _. split; [lia|]. by replace (pos - (pos - j)) with j by lia.
    + intros k m Hk Hm2 Hagm. destruct (decide (k = j)) as [->|]; [by apply Hm|].
      assert (m ≤ len) by (apply (Hmaxl k); [lia..|done]). lia.
  - apply IH; try lia. split_and!; [lia|lia|done|].
    intros k m Hk Hm2 Hagm. destruct (decide (k = j)) as [->|].
    + apply Hm in Hagm; lia.
    + by apply (Hmaxl k); [lia..|].
Qed.

(** What the search promises: no match of three bytes in the window, or a
    longest match. *)
Lemma find_match_spec src pos :
  0 ≤ pos < zlen src → zlen src < 2 ^ 63 →
  ∃ len dist, ow_zip_find_match src (zlen src) pos = Some (len, dist) ∧
    (len = 0 ∧ dist = 0 ∨
     3 ≤ len ≤ 18 ∧ pos + len ≤ zlen src ∧ 1 ≤ dist ≤ 4096 ∧ dist ≤ pos ∧
     agree src (pos - dist) pos len) ∧
    ∀ k m, Z.max 0 (pos - 4096) ≤ k < pos → 3 ≤ m ≤ 18 → pos + m ≤ zlen src →
      agree src k pos m → m ≤ len.
Proof.
  intros Hpos Hs. unfold ow_zip_find_match, OWZIP_MAX_MATCH, OWZIP_MIN_MATCH, OWZIP_WINDOW_SIZE.
  destruct (decide (pos = 0)) as [->|Hp0].
  { simpl. exists 0, 0. split; [done|]. split; [by left|]. intros; lia. }
  rewrite (proj2 (Z.ltb_ge _ _)), (proj2 (Z.leb_gt _ _)) by lia. simpl orb. cbv iota zeta.
  set (mx := if 18 <? zlen src - pos then 18 else zlen src - pos).
  assert (0 < mx ≤ 18 ∧ mx ≤ zlen src - pos ∧ (∀ m, m ≤ 18 → pos + m ≤ zlen src → m ≤ mx))
    as (Hmx & Hmx2 & Hmx3) by (unfold mx; case_if; repeat split; intros; lia).
  case_if. { exists 0, 0. split; [done|]. split; [by left|]. intros k m ? ? Hm. specialize (Hmx3 m). lia. }
  set (ws := if 4096 <? pos then pos - 4096 else 0).
  assert (ws = Z.max 0 (pos - 4096)) as Hws by (unfold ws; case_if; lia).
  destruct (search_loop_spec (Z.to_nat (pos - ws)) src ws ws pos mx 0 0)
    as (len & dist & -> & Hl & Hd & Hm); [lia..|split_and!; [lia|lia|lia|intros; lia]|].
  rewrite obind_Some. case_if.
  - exists 0, 0. split; [done|]. split; [by left|]. intros k m Hk Hm3 Hmp Hag.
    specialize (Hmx3 m). assert (m ≤ len) by (apply (Hm k); [lia..|done]). lia.
  - exists len, dist. rewrite u32_small by lia. split; [done|]. split.
    + right. destruct Hd as [? ?]; [lia|]. split_and!; [lia..|done].
    + intros k m Hk Hm3 Hmp Hag. specialize (Hmx3 m). apply (Hm k); [lia..|done].
Qed.

(** ** Compression *)

(** Copying from [d] back continues a text that repeats itself. *)
Lemma back_copy_agree n src (p d : nat) :
  (1 ≤ d ≤ p)%nat → (p + n ≤ length src)%nat →
  (∀ i, (i < n)%nat → src !! (p - d + i)%nat = src !! (p + i)%nat) →
  back_copy n (take p src) d = take (p + n) src.
Proof.
  revert p. induction n as [|n IH]; intros p Hd Hlen Hag; [by rewrite Nat.add_0_r|].
  cbn [back_copy]. rewrite length_take, Nat.min_l by lia.
  destruct (lookup_lt_is_Some_2 src p) as [x Hx]; [lia|].
  assert (take p src !!! (p - d)%nat = x) as ->.
  { apply list_lookup_total_correct. rewrite lookup_take_lt by lia.
    specialize (Hag 0%nat). rewrite !Nat.add_0_r in Hag. rewrite Hag; [done|lia]. }
  rewrite <-(take_S_r _ _ _ Hx). rewrite IH; [f_equal; lia|lia..|].
  intros i Hi. specialize (Hag (S i)).
  replace (S p - d + i)%nat with (p - d + S i)%nat by lia.
  replace (S p + i)%nat with (p + S i)%nat by lia. apply Hag. lia.
Qed.

Lemma expand_ref src pos dist len :
  1 ≤ dist ≤ pos → 0 ≤ len → pos + len ≤ zlen src → agree src (pos - dist) pos len →
  expand1 (take (Z.to_nat pos) src) (Ref dist len) = take (Z.to_nat (pos + len)) src.
Proof.
  intros Hd Hl Hlen Hag. cbn [expand1]. rewrite back_copy_agree; [f_equal; lia|lia..|].
  intros i Hi. specialize (Hag (Z.of_nat i)). rewrite !aget_to_nat in Hag by lia.
  replace (Z.to_nat pos - Z.to_nat dist + i)%nat with (Z.to_nat (pos - dist + Z.of_nat i)) by lia.
  replace (Z.to_nat pos + i)%nat with (Z.to_nat (pos + Z.of_nat i)) by lia. apply Hag. lia.
Qed.

(** A stream is at most one eighth longer than what it expands to. *)
Lemma payloads_bound out ts :
  tokens_ok out ts → zlen (payloads ts) + zlen out ≤ zlen (expand out ts).
Proof.
  revert out. induction ts as [|t ts IH]; intros out; [simpl; lia|]. intros [Ht Hts].
  apply IH in Hts. rewrite payloads_cons, length_app. unfold expand in *. cbn [foldl].
  assert (zlen (payload t) + zlen out ≤ zlen (expand1 out t)); [|lia].
  destruct t as [b|d l]; simpl; [rewrite length_app; simpl; lia|].
  rewrite back_copy_length. simpl in Ht. lia.
Qed.

Lemma stream_bound full last :
  Forall (λ g, length g = 8%nat) full → (length last ≤ 8)%nat →
  zlen (stream full last) ≤
    zlen (payloads (concat full ++ last)) + (zlen (concat full ++ last) + 7) / 8.
Proof.
  intros Hfull Hlast. induction Hfull as [|g full Hg Hfull IH]; cbn [concat app].
  - destruct last as [|t last]; [done|]. change (stream [] (t :: last)) with (group (t :: last)).
    cbn [group length]. zdm.
  - rewrite stream_cons, <-app_assoc. unfold payloads in *. rewrite map_app, concat_app, !length_app.
    rewrite length_app in IH. cbn [group length]. fold (payloads g).
    replace (Z.of_nat (length g + (length (concat full) + length last)) + 7)
      with (Z.of_nat (length (concat full) + length last) + 7 + 1 * 8) by lia.
    rewrite Z.div_add by lia. unfold payloads. lia.
Qed.

Definition bound (n : Z) : Z := n + (n + 7) / 8.

Lemma stream_expands full last :
  Forall (λ g, length g = 8%nat) full → (length last ≤ 8)%nat → tokens_ok [] (concat full ++ last) →
  zlen (stream full last) ≤ bound (zlen (expand [] (concat full ++ last))).
Proof.
  intros Hf Hl Hok. pose proof (stream_bound full last Hf Hl).
  pose proof (payloads_bound _ _ Hok). pose proof (expand_length _ _ Hok).
  unfold bound. simpl length in *. zdm.
Qed.

(** The next token of the encoder. *)
Lemma next_token src pos :
  octets src → 0 ≤ pos < zlen src → zlen src < 2 ^ 63 →
  ∃ t pos' mlen dist, ow_zip_find_match src (zlen src) pos = Some (mlen, dist) ∧
    pos < pos' ≤ zlen src ∧ token_ok (take (Z.to_nat pos) src) t ∧
    expand1 (take (Z.to_nat pos) src) t = take (Z.to_nat pos') src ∧
    ∀ w, (if (OWZIP_MIN_MATCH <=? mlen) && (1 <=? dist) then
            let word := u16 (Z.lor (Z.land (dist - 1) 0x0FFF)
                               (u64 (Z.shiftl (u32 (mlen - 3)) 12))) in
            w ← ow_zip_writer_token w false word;
            Some (w, u64 (pos + mlen))
          else
            b ← aget src pos;
            w ← ow_zip_writer_token w true (u16 b);
            Some (w, u64 (pos + 1))) =
      (w ← ow_zip_writer_token w (is_lit t) (word t); Some (w, pos')).
Proof.
  intros Ho Hpos Hs. destruct (find_match_spec src pos Hpos Hs) as (len & dist & E & Hm & _).
  unfold OWZIP_MIN_MATCH. destruct Hm as [[-> ->]|(Hl & Hlen & Hd & Hdp & Hag)].
  - destruct (aget_is_Some src pos) as [b Hb]; [lia|]. pose proof Hb as [_ Hb']%aget_Some.
    assert (0 ≤ b < 256) by (apply (Forall_lookup_1 _ _ _ _ Ho Hb')).
    exists (Lit b), (pos + 1), 0, 0. split; [done|]. split; [lia|]. split; [done|]. split.
    + cbn [expand1]. rewrite Z2Nat.inj_add by lia. change (Z.to_nat 1) with 1%nat.
      by rewrite Nat.add_1_r, (take_S_r _ _ _ Hb').
    + intros w. simpl andb. cbv iota. rewrite Hb, obind_Some.
      rewrite u16_small, u64_small by lia. done.
  - exists (Ref dist len), (pos + len), len, dist. split; [done|]. split; [lia|]. split; [|split].
    + cbn [token_ok]. rewrite length_take. lia.
    + apply expand_ref; [lia..|done].
    + intros w. rewrite (proj2 (Z.leb_le _ _)), (proj2 (Z.leb_le 1 _)) by lia.
      simpl andb. cbv iota zeta. rewrite (u64_small (pos + len)) by lia.
      replace (u16 _) with (word (Ref dist len)); [done|]. cbn [word].
      rewrite (u32_small (len - 3)) by lia. change 0x0FFF with (Z.ones 12).
      rewrite Z.land_ones by lia. rewrite (Z.mod_small (dist - 1)) by lia.
      rewrite (u64_small (Z.shiftl _ _)) by (rewrite Z.shiftl_mul_pow2 by lia; lia).
      rewrite Z.lor_comm, lor_shiftl_add by lia. rewrite u16_small by lia. lia.
Qed.

(** What the encoder has written after [pos] bytes of input. *)
Record encoded (cap : Z) (dst src : list Z) (pos : Z) (full : list (list token))
    (last : list token) (w : ow_zip_writer_t) : Prop := {
  en_written : written cap dst full last w;
  en_tokens : tokens_ok [] (concat full ++ last);
  en_text : expand [] (concat full ++ last) = take (Z.to_nat pos) src
}.

Lemma compress_loop_spec cap dst src fuel pos full last w :
  cap ≤ zlen dst → zlen dst < 2 ^ 63 → 0 ≤ cap → octets src → zlen src < 2 ^ 63 →
  0 ≤ pos ≤ zlen src → zlen src - pos ≤ Z.of_nat fuel →
  encoded cap dst src pos full last w →
  ∃ w' ok, compress_loop fuel (Some src) (zlen src) pos w = Some (w', ok) ∧
    if (ok : bool) then ∃ full' last', encoded cap dst src (zlen src) full' last' w'
    else refused cap dst (bound (zlen src)) w'.
Proof.
  intros Hcap Hdst Hcap0 Ho Hs. revert pos full last w.
  induction fuel as [|fuel IH]; intros pos full last w Hpos Hf [Hw Hok Htext]; cbn [compress_loop].
  { rewrite (proj2 (Z.ltb_ge _ _)) by lia. exists w, true. split; [done|].
    exists full, last. replace (zlen src) with pos by lia. by split. }
  destruct (decide (pos = zlen src)) as [->|].
  { rewrite Z.ltb_irrefl. exists w, true. split; [done|]. exists full, last. by split. }
  rewrite (proj2 (Z.ltb_lt _ _)), obind_Some by lia. simpl negb. cbv iota.
  destruct (next_token src pos) as (t & pos' & mlen & dist & -> & Hpos' & Ht & Hexp & Hstep);
    [done|lia..|]. rewrite obind_Some, Hstep. rewrite <-Htext in Ht, Hexp.
  destruct (writer_token_spec cap dst Hcap Hdst full last _ t w Hw Hcap0 Ht) as (w1 & -> & Hw1).
  rewrite !obind_Some.
  assert (tokens_ok [] ((concat full ++ last) ++ [t]) ∧
          expand [] ((concat full ++ last) ++ [t]) = take (Z.to_nat pos') src) as [Hok' Htext'].
  { rewrite tokens_ok_app, (expand_app _ _ [t]). split; [split; [exact Hok|exact (conj Ht I)]|exact Hexp]. }
  destruct Hw1 as [Href|Hw1].
  - rewrite (proj1 Href). exists w1, false. split; [done|].
    destruct Href as (Hov & Hn & Hx). split; [done|]. split; [|done].
    pose proof (stream_expands (next full last t).1 (next full last t).2) as Hb.
    rewrite next_stream, next_tokens, Htext' in Hb. destruct Hw as [_ _ _ _ _ _ _ Hfull Hlast].
    assert (zlen (take (Z.to_nat pos') src) ≤ zlen src) by (rewrite length_take; lia).
    assert (bound (zlen (take (Z.to_nat pos') src)) ≤ bound (zlen src)) by (unfold bound; zdm).
    enough (zlen (closed full ++ group (last ++ [t])) ≤ bound (zlen (take (Z.to_nat pos') src))) by lia.
    apply Hb; [|unfold next; case_decide; simpl; rewrite ?length_app; simpl; lia|done].
    unfold next. case_decide; simpl; [|done]. apply Forall_app. split; [done|].
    constructor; [|done]. rewrite length_app. simpl. lia.
  - rewrite (wr_overflow _ _ _ _ _ Hw1).
    destruct (IH pos' (next full last t).1 (next full last t).2 w1) as (w2 & ok & -> & Hr); [lia..| |].
    { split; [done|by rewrite next_tokens..]. }
    by exists w2, ok.
Qed.

Lemma compress_spec src dst cap n0 :
  octets src → zlen src < 2 ^ 63 → 0 ≤ cap ≤ zlen dst → zlen dst < 2 ^ 63 →
  ∃ out n ok, owzip_compress (Some src) (zlen src) (Some dst) cap (Some n0) =
      Some (Some out, Some n, ok) ∧ within cap dst out ∧
    if (ok : bool) then
      ∃ full last, out = filled (stream full last) dst ∧ n = zlen (stream full last) ∧ n ≤ cap ∧
        Forall (λ g, length g = 8%nat) full ∧ (length last < 8)%nat ∧
        tokens_ok [] (concat full ++ last) ∧ expand [] (concat full ++ last) = src
    else n = 0 ∧ cap < bound (zlen src).
Proof.
  intros Ho Hs Hcap Hdst. unfold owzip_compress. simpl orb. cbv iota.
  destruct (compress_loop_spec cap dst src (Z.to_nat (zlen src)) 0 [] []
    (ow_zip_writer_init (Some dst) cap)) as (w & ok & -> & Hr); [lia|lia|lia|done|lia..| |].
  { split; [|done..]. split; try done; cbn; lia. }
  rewrite obind_Some.
  assert (∀ x, zlen x ≤ cap → within cap dst (filled x dst)) as Hwithin.
  { intros x Hx. split; [apply filled_length; lia|]. unfold filled.
    rewrite drop_app_ge, drop_drop by lia. f_equal. lia. }
  destruct ok.
  - destruct Hr as (full & last & [Hw Hok Htext]).
    destruct Hw as [-> -> Hfit _ _ _ _ Hfull Hlast].
    do 3 eexists. split; [done|]. split; [by apply Hwithin|]. exists full, last.
    rewrite Htext, Nat2Z.id, firstn_all. by split_and!.
  - destruct Hr as (_ & Hn & x & -> & Hx). do 3 eexists. split; [done|].
    split; [by apply Hwithin|]. done.
Qed.

Lemma closed_length full : (length full ≤ length (closed full))%nat.
Proof.
  unfold closed. induction full as [|g full IH]; simpl; [lia|]. rewrite length_app. simpl. lia.
Qed.

(** Every group takes at least a byte, and a token two. *)
Lemma stream_groups full last :
  Forall (λ g, length g = 8%nat) full → concat full ++ last ≠ [] →
  (length full < length (stream full last))%nat.
Proof.
  intros Hfull Hne. unfold stream. fold (closed full). rewrite length_app.
  pose proof (closed_length full). destruct last as [|t last]; [|simpl; lia].
  destruct Hfull as [|[|t g] full Hg _]; [done|done|]. cbn [closed map concat length].
  pose proof (closed_length full). unfold closed in *. rewrite length_app. cbn [group length].
  rewrite payloads_cons, length_app. pose proof (payload_length t). lia.
Qed.

Lemma stream_nil full last :
  Forall (λ g, length g = 8%nat) full → concat full ++ last = [] → stream full last = [].
Proof.
  intros Hfull [Hc ->]%app_nil. destruct Hfull as [|[|t g] full Hg _]; done.
Qed.

(** ** The theorems *)

(** [C5] Compression round trip: [owzip_compress] always returns, writes only
    within the capacity, succeeds whenever the capacity is at least [n + n/8]
    (rounded up) for [n] input bytes, and when it succeeds, decompressing the
    reported number of bytes into any buffer large enough for the input gives
    back exactly the input and its length. *)
Theorem owzip_roundtrip src dst cap n0 :
  octets src → zlen src < 2 ^ 63 → 0 ≤ cap ≤ zlen dst → zlen dst < 2 ^ 63 →
  ∃ out n ok, owzip_compress (Some src) (zlen src) (Some dst) cap (Some n0) =
      Some (Some out, Some n, ok) ∧ within cap dst out ∧ n ≤ cap ∧
    (bound (zlen src) ≤ cap → ok = true) ∧
    (ok = true → ∀ buf cap2 n1, zlen src ≤ cap2 ≤ zlen buf → zlen buf < 2 ^ 63 →
       owzip_decompress (Some out) n (Some buf) cap2 (Some n1) =
         Some (Some (src ++ drop (length src) buf), Some (zlen src), true)).
Proof.
  intros Ho Hs Hcap Hdst.
  destruct (compress_spec src dst cap n0 Ho Hs Hcap Hdst) as (out & n & ok & E & Hw & Hr).
  exists out, n, ok. split; [done|]. split; [done|].
  destruct ok; [|destruct Hr as [-> Hn]; split; [lia|]; split; [lia|done]].
  destruct Hr as (full & last & -> & -> & Hn & Hfull & Hlast & Hok & Hexp).
  split; [done|]. split; [done|]. intros _ buf cap2 n1 Hcap2 Hbuf. unfold owzip_decompress.
  simpl orb. cbv iota. destruct Hw as [Hlen _].
  destruct (decide (concat full ++ last = [])) as [Hnil|Hne].
  { rewrite Hnil in Hexp. cbn in Hexp. subst src.
    by rewrite (stream_nil full last) by done. }
  pose proof (stream_groups full last Hfull Hne).
  pose proof (decompress_loop_spec full last (length (stream full last))
    (filled (stream full last) dst) (zlen (stream full last)) [] (drop (length (stream full last)) dst)
    [] buf cap2) as Hd. rewrite Hexp in Hd.
  change (filled [] buf) with (drop 0 buf) in Hd. rewrite drop_0 in Hd. rewrite Nat2Z.id.
  change (zlen []) with 0 in Hd. rewrite Hd; [done|done|done|lia|done|done|lia|lia|lia|done].
Qed.

(** [C36] Decompression is safe on every input: for any bytes, well-formed or
    not, [owzip_decompress] returns, never reads outside the input or writes
    outside the capacity, and reports a length only up to the capacity. *)
Theorem owzip_decompress_safe src src_len dst cap n0 :
  0 ≤ src_len ≤ zlen src → zlen src < 2 ^ 63 → 0 ≤ cap ≤ zlen dst → zlen dst < 2 ^ 63 →
  ∃ out n ok, owzip_decompress (Some src) src_len (Some dst) cap (Some n0) =
      Some (Some out, Some n, ok) ∧ within cap dst out ∧ 0 ≤ n ≤ cap ∧ (ok = false → n = 0).
Proof.
  intros Hsl Hs Hcap Hdst. unfold owzip_decompress. simpl orb. cbv iota.
  destruct (decompress_loop_safe (Z.to_nat src_len) src src_len cap 0 0 dst)
    as (r & out & -> & Hw & Hr); [lia..|]. rewrite obind_Some.
  destruct Hr as [->|(op & -> & Hop)]; do 3 eexists; (split; [done|]); (split; [done|]);
    split; [lia|done|lia|done].
Qed.

(** The match search finds a longest match: at every position it reports
    either no match, and then no three bytes of the 4096-byte window agree with
    the text, or a distance and length that can be encoded, whose bytes agree,
    and which is at least as long as every other match in the window. *)
Theorem owzip_find_match_longest src pos :
  0 ≤ pos < zlen src → zlen src < 2 ^ 63 →
  ∃ len dist, ow_zip_find_match src (zlen src) pos = Some (len, dist) ∧
    (len = 0 ∧ dist = 0 ∨
     3 ≤ len ≤ 18 ∧ pos + len ≤ zlen src ∧ 1 ≤ dist ≤ 4096 ∧ dist ≤ pos ∧
     agree src (pos - dist) pos len) ∧
    ∀ k m, Z.max 0 (pos - 4096) ≤ k < pos → 3 ≤ m ≤ 18 → pos + m ≤ zlen src →
      agree src k pos m → m ≤ len.
Proof. apply find_match_spec. Qed.

Definition demo_text : list Z := [1; 2; 3; 1; 2; 3; 1; 2; 3; 9].

Lemma demo_text_octets : octets demo_text.
Proof. by repeat constructor. Qed.

Lemma owzip_roundtrip_witness :
  ∃ out n, owzip_compress (Some demo_text) 10 (Some (replicate 20 0)) 20 (Some 0) =
      Some (Some out, Some n, true) ∧
    owzip_decompress (Some out) n (Some (replicate 12 7)) 10 (Some 0) =
      Some (Some (demo_text ++ [7; 7]), Some 10, true).
Proof.
  destruct (owzip_roundtrip demo_text (replicate 20 0) 20 0)
    as (out & n & ok & E & _ & _ & Hok & Hd); [apply demo_text_octets|by vm_compute..|].
  specialize (Hok ltac:(by vm_compute)). subst ok. exists out, n. split; [exact E|].
  specialize (Hd eq_refl (replicate 12 7) 10 0). change (Z.of_nat (length demo_text)) with 10 in Hd.
  change (demo_text ++ drop _ _) with (demo_text ++ [7; 7]) in Hd.
  apply Hd; [simpl; lia|simpl; lia].
Defined.

Lemma owzip_decompress_safe_witness :
  ∃ out n ok, owzip_decompress (Some [0; 5; 5; 255; 1]) 5 (Some (replicate 4 0)) 4 (Some 9) =
    Some (Some out, Some n, ok) ∧ 0 ≤ n ≤ 4.
Proof.
  destruct (owzip_decompress_safe [0; 5; 5; 255; 1] 5 (replicate 4 0) 4 9)
    as (out & n & ok & E & _ & Hn & _); [by vm_compute..|].
  by exists out, n, ok.
Defined.

Lemma owzip_find_match_longest_witness :
  ∃ len dist, ow_zip_find_match demo_text 10 3 = Some (len, dist) ∧ 6 ≤ len.
Proof.
  destruct (owzip_find_match_longest demo_text 3) as (len & dist & E & _ & Hm); [by vm_compute..|].
  exists len, dist. split; [exact E|].
  apply (Hm 0 6); [by vm_compute..|]. intros i Hi.
  assert (i = 0 ∨ i = 1 ∨ i = 2 ∨ i = 3 ∨ i = 4 ∨ i = 5)
    as [->|[->|[->|[->|[->| ->]]]]] by lia; reflexivity.
Defined.

(** ** Checksums *)

(** ** CRC-32 *)

Lemma zip_crc_bit_eq c : zip_crc_bit c = crc_bit c.
Proof.
  rewrite crc_bit_eq. unfold zip_crc_bit. change 1 with (Z.ones 1) at 1.
  rewrite Z.land_ones by done. change (2 ^ 1) with 2. rewrite Zmod_odd.
  destruct (Z.odd c); [done|]. by rewrite Z.lxor_0_r.
Qed.

Lemma zip_crc_byte c b : Nat.iter 8 zip_crc_bit (Z.lxor c b) = crc_byte c b.
Proof.
  unfold crc_byte. generalize 8%nat (Z.lxor c b). intros n x.
  induction n as [|n IH]; [done|]. by rewrite !Nat.iter_succ, IH, zip_crc_bit_eq.
Qed.

Lemma owzip_crc32_fold c data len :
  0 ≤ len ≤ zlen data →
  owzip_crc32 c (Some data) len =
    Some (Z.lxor (foldl crc_byte (Z.lxor c 0xFFFFFFFF) (take (Z.to_nat len) data)) 0xFFFFFFFF).
Proof.
  intros Hlen. unfold owzip_crc32. rewrite bytes_loop, obind_Some by done. do 2 f_equal.
  generalize (Z.lxor c 0xFFFFFFFF) (take (Z.to_nat len) data). intros s l. revert s.
  induction l as [|b l IH]; intros s; [done|]. cbn [foldl]. by rewrite IH, zip_crc_byte.
Qed.

Lemma crc_xor_twice x : Z.lxor (Z.lxor x 0xFFFFFFFF) 0xFFFFFFFF = x.
Proof. by rewrite Z.lxor_assoc, Z.lxor_nilpotent, Z.lxor_0_r. Qed.

(** The two CRC-32 routines of the system agree: the running CRC of the
    compression library, started at 0, equals the CRC the partition manager
    checks a GPT with; and continuing it over a second buffer gives the CRC of
    the concatenation. *)
Theorem owzip_crc32_equiv a b :
  octets a → octets b →
  owzip_crc32 0 (Some a) (zlen a) = pm_crc32 a (zlen a) ∧
  (c ← owzip_crc32 0 (Some a) (zlen a); owzip_crc32 c (Some b) (zlen b)) =
    pm_crc32 (a ++ b) (zlen (a ++ b)).
Proof.
  intros Ha Hb. assert (octets (a ++ b)) by (by apply Forall_app).
  rewrite (owzip_crc32_fold 0 a), obind_Some, owzip_crc32_fold by lia.
  rewrite !pm_crc32_spec, !Nat2Z.id, !firstn_all, !crc32_foldl by first [lia|done].
  rewrite crc_xor_twice, foldl_app. done.
Qed.

Lemma owzip_crc32_equiv_witness :
  owzip_crc32 0 (Some [49; 50; 51]) 3 = pm_crc32 [49; 50; 51] 3 ∧
  (c ← owzip_crc32 0 (Some [49; 50; 51]) 3; owzip_crc32 c (Some [52; 53]) 2) =
    pm_crc32 [49; 50; 51; 52; 53] 5.
Proof. apply (owzip_crc32_equiv [49; 50; 51] [52; 53]); by repeat constructor. Defined.

(** ** Adler-32 *)

(** The sum of the bytes, and the sum weighted by the distance to the end. *)
Definition sum (l : list Z) : Z := foldr Z.add 0 l.
Fixpoint weighted (l : list Z) : Z :=
  match l with [] => 0 | x :: l => (zlen l + 1) * x + weighted l end.

Definition adler (a b : Z) (l : list Z) : Z * Z :=
  ((a + sum l) mod 65521, (b + zlen l * a + weighted l) mod 65521).

(** One byte, and the rest. *)
Lemma adler_cons a b x l :
  let a1 := (a + x) mod 65521 in
  adler a1 ((b + a1) mod 65521) l = adler a b (x :: l).
Proof.
  intros a1. unfold adler. cbn [sum foldr weighted length]. fold (sum l). f_equal.
  - unfold a1. rewrite Zplus_mod_idemp_l. f_equal. lia.
  - assert (a1 = a + x - 65521 * ((a + x) / 65521)) as Ha1 by (unfold a1; zdm).
    set (q := (a + x) / 65521) in *.
    assert ((b + a1) mod 65521 = b + a1 - 65521 * ((b + a1) / 65521)) as -> by zdm.
    set (r := (b + a1) / 65521).
    rewrite <-(Z_mod_plus_full _ (r + q * (zlen l + 1))). f_equal. rewrite Ha1, Nat2Z.inj_succ. lia.
Qed.

Lemma adler_fold a b l :
  0 ≤ a < 65521 → 0 ≤ b < 65521 → octets l →
  foldl (λ s x, (u32 (s.1 + x) mod 65521, u32 (s.2 + u32 (s.1 + x) mod 65521) mod 65521)) (a, b) l =
    adler a b l.
Proof.
  intros Ha Hb Hl. revert a b Ha Hb. induction Hl as [|x l Hx Hl IH]; intros a b Ha Hb.
  { unfold adler. cbn. by rewrite !Z.add_0_r, !Z.mod_small. }
  cbn [foldl fst snd]. assert (0 ≤ (a + x) mod 65521 < 65521) by (by apply Z.mod_pos_bound).
  rewrite (u32_small (a + x)), u32_small by lia.
  rewrite IH by (by apply Z.mod_pos_bound). apply adler_cons.
Qed.

Lemma adler_range a b l : 0 ≤ (adler a b l).1 < 65521 ∧ 0 ≤ (adler a b l).2 < 65521.
Proof. split; by apply Z.mod_pos_bound. Qed.

Lemma adler32_value a b data :
  0 ≤ a < 65521 → 0 ≤ b < 65521 → octets data →
  owzip_adler32 (65536 * b + a) (Some data) (zlen data) =
    Some (65536 * (adler a b data).2 + (adler a b data).1).
Proof.
  intros Ha Hb Hd. unfold owzip_adler32.
  change 0xFFFF with (Z.ones 16). rewrite !Z.land_ones, Z.shiftr_div_pow2 by lia.
  change (2 ^ 16) with 65536.
  replace ((65536 * b + a) mod 65536) with a by zdm.
  replace ((65536 * b + a) / 65536 mod 65536) with b by zdm.
  assert (∀ n s, for_up n 0 (λ i s, let '(a, b) := s in x ← aget data i;
    let a := u32 (a + x) mod 65521 in Some (a, u32 (b + a) mod 65521)) s =
    for_up n 0 (λ i s, x ← aget data i; Some (u32 (s.1 + x) mod 65521,
      u32 (s.2 + u32 (s.1 + x) mod 65521) mod 65521)) s) as ->.
  { intros n. generalize 0. induction n as [|n IH]; intros i [a' b']; [done|]. cbn [for_up].
    cbn [fst snd]. destruct (aget data i); [|done]. rewrite !obind_Some. apply IH. }
  rewrite (bytes_loop (λ s x, (u32 (s.1 + x) mod 65521,
    u32 (s.2 + u32 (s.1 + x) mod 65521) mod 65521))), obind_Some by lia.
  rewrite Nat2Z.id, firstn_all, adler_fold by done.
  destruct (adler_range a b data) as [H1 H2]. destruct (adler a b data) as [a' b'].
  cbn [fst snd] in *. f_equal.
  rewrite u32_small by (rewrite Z.shiftl_mul_pow2 by lia; lia).
  rewrite lor_shiftl_add by lia. lia.
Qed.

Lemma adler_app a b l k :
  0 ≤ a < 65521 → 0 ≤ b < 65521 → octets l → octets k →
  adler (adler a b l).1 (adler a b l).2 k = adler a b (l ++ k).
Proof.
  intros Ha Hb Hl Hk. destruct (adler_range a b l).
  rewrite <-(adler_fold a b (l ++ k)) by first [done|by apply Forall_app].
  rewrite foldl_app, (adler_fold a b l) by done. rewrite <-adler_fold by done.
  by destruct (adler a b l).
Qed.

(** Adler-32 is the checksum of RFC 1950 and can be continued: for a
    previous value with both halves below 65521 (such as the initial 1), the
    result holds the sum of the bytes and the sum of the running sums, modulo
    65521, without overflow; and continuing over a second buffer gives the
    checksum of the concatenation. *)
Theorem owzip_adler32_spec a b data more :
  0 ≤ a < 65521 → 0 ≤ b < 65521 → octets data → octets more →
  owzip_adler32 (65536 * b + a) (Some data) (zlen data) =
    Some (65536 * (adler a b data).2 + (adler a b data).1) ∧
  (c ← owzip_adler32 (65536 * b + a) (Some data) (zlen data);
   owzip_adler32 c (Some more) (zlen more)) =
    owzip_adler32 (65536 * b + a) (Some (data ++ more)) (zlen (data ++ more)).
Proof.
  intros Ha Hb Hd Hm. destruct (adler_range a b data).
  rewrite (adler32_value a b data), obind_Some, !adler32_value
    by first [done|by apply Forall_app]. split; [done|]. by rewrite adler_app.
Qed.

Lemma owzip_adler32_spec_witness :
  owzip_adler32 1 (Some [87; 105]) 2 =
    Some (65536 * (adler 1 0 [87; 105]).2 + (adler 1 0 [87; 105]).1) ∧
  (c ← owzip_adler32 1 (Some [87; 105]) 2; owzip_adler32 c (Some [107]) 1) =
    owzip_adler32 1 (Some [87; 105; 107]) 3.
Proof.
  apply (owzip_adler32_spec 1 0 [87; 105] [107]); [done|done|by repeat constructor..].
Defined.
