(* ===== verification/Owheap.v ===== *)
(** The heap allocator (src/DLL/owheap64/owheap64.c, owheap64.h): first fit over
    a doubly linked list of blocks in a caller-provided arena.

    The arena is modelled byte for byte: an object with the address of its first
    byte and its content.  Block headers are read and written through it with
    the layout of [owheap_block_t] on a 64-bit little-endian machine, so that a
    stale header left behind by a merge stays in memory as it does in C.
    Accesses outside the arena object are undefined. *)
From S2P Require Import Prelude.

Definition OWHEAP_ALIGN : Z := 8.
Definition OWHEAP_MAGIC : Z := 0x4F57484F.
Definition OWHEAP_FLAG_FREE : Z := 1.

(** ** Memory *)
Record memory := mk_memory {
  mem_base : Z;                          (* address of the object *)
  mem_bytes : list Z
}.

(** [n]-byte little-endian loads and stores. *)
Definition load (n : nat) (m : memory) (a : Z) : option Z :=
  bs ← aslice (mem_bytes m) (a - mem_base m) (Z.of_nat n);
  Some (le bs).
Definition store (n : nat) (m : memory) (a v : Z) : option memory :=
  bs ← awrite (mem_bytes m) (a - mem_base m) (le_bytes n v);
  Some (mk_memory (mem_base m) bs).

(** ** [owheap_block_t]: fields at their offsets *)
Definition sizeof_block : Z := 32.
Definition off_size : Z := 0.
Definition off_flags : Z := 4.
Definition off_magic : Z := 8.
Definition off_reserved : Z := 12.
Definition off_next : Z := 16.
Definition off_prev : Z := 24.

Definition get_size (m : memory) (b : Z) : option Z := load 4 m (b + off_size).
Definition get_flags (m : memory) (b : Z) : option Z := load 4 m (b + off_flags).
Definition get_magic (m : memory) (b : Z) : option Z := load 4 m (b + off_magic).
Definition get_next (m : memory) (b : Z) : option Z := load 8 m (b + off_next).
Definition get_prev (m : memory) (b : Z) : option Z := load 8 m (b + off_prev).
Definition set_size (m : memory) (b v : Z) : option memory := store 4 m (b + off_size) v.
Definition set_flags (m : memory) (b v : Z) : option memory := store 4 m (b + off_flags) v.
Definition set_magic (m : memory) (b v : Z) : option memory := store 4 m (b + off_magic) v.
Definition set_reserved (m : memory) (b v : Z) : option memory := store 4 m (b + off_reserved) v.
Definition set_next (m : memory) (b v : Z) : option memory := store 8 m (b + off_next) v.
Definition set_prev (m : memory) (b v : Z) : option memory := store 8 m (b + off_prev) v.

Record owheap_t := mk_heap {
  hp_arena : Z;                          (* uint8_t * *)
  hp_arena_size : Z;                     (* uint32_t *)
  hp_head : Z;                           (* owheap_block_t * *)
  hp_alloc_count : Z;                    (* uint64_t *)
  hp_free_count : Z;                     (* uint64_t *)
  hp_bytes_in_use : Z;                   (* uint64_t *)
  hp_peak_bytes : Z;                     (* uint64_t *)
  hp_initialized : bool
}.
#[export] Instance eta_heap : Eta owheap_t := λ h,
  mk_heap (hp_arena h) (hp_arena_size h) (hp_head h) (hp_alloc_count h) (hp_free_count h)
    (hp_bytes_in_use h) (hp_peak_bytes h) (hp_initialized h).

Record owheap_stats_t := mk_heap_stats {
  hs_arena_size : Z; hs_bytes_in_use : Z; hs_peak_bytes : Z; hs_alloc_count : Z;
  hs_free_count : Z; hs_block_count : Z; hs_free_block_count : Z
}.

(** ** Block helpers *)
Definition heap_payload (block : Z) : Z := block + sizeof_block.
Definition heap_header (p : Z) : Z := p - sizeof_block.

Definition heap_align (size : Z) : Z :=
  let aligned := Z.land (u64 (size + (OWHEAP_ALIGN - 1))) (u64 (Z.lnot (OWHEAP_ALIGN - 1))) in
  if aligned <? size then 0
  else if 0xFFFFFFFF <? aligned then 0
  else u32 aligned.

Definition heap_split (m : memory) (block need : Z) : option memory :=
  size ← get_size m block;
  let remain := u32 (size - need) in
  if remain <? sizeof_block + OWHEAP_ALIGN then Some m
  else
    let rest := heap_payload block + need in
    m ← set_size m rest (u32 (remain - sizeof_block));
    m ← set_flags m rest OWHEAP_FLAG_FREE;
    m ← set_magic m rest OWHEAP_MAGIC;
    m ← set_reserved m rest 0;
    next ← get_next m block;
    m ← set_next m rest next;
    m ← set_prev m rest block;
    next ← get_next m block;
    m ← (if nz next then set_prev m next rest else Some m);
    m ← set_next m block rest;
    set_size m block need.

Definition is_free_flag (flags : Z) : bool := nz (Z.land flags OWHEAP_FLAG_FREE).

(** [block], of size [size], absorbs its successor [next]: the statements that
    [heap_coalesce] has once per direction and [owheap_realloc] a third time. *)
Definition absorb_next (m : memory) (block next : Z) (size : Z) : option memory :=
  nsize ← get_size m next;
  m ← set_size m block (u32 (size + u32 (sizeof_block + nsize)));
  nn ← get_next m next;
  m ← set_next m block nn;
  nn ← get_next m next;
  if nz nn then set_prev m nn block else Some m.

Definition heap_coalesce (m : memory) (block : Z) : option memory :=
  next ← get_next m block;
  m ← (if nz next then
         flags ← get_flags m next;
         if is_free_flag flags then
           size ← get_size m block;
           absorb_next m block next size
         else Some m
       else Some m);
  prev ← get_prev m block;
  if nz prev then
    flags ← get_flags m prev;
    if is_free_flag flags then
      psize ← get_size m prev;
      absorb_next m prev block psize
    else Some m
  else Some m.

Definition heap_account_grow (h : owheap_t) (amount : Z) : owheap_t :=
  let h := h <| hp_bytes_in_use := u64 (hp_bytes_in_use h + amount) |> in
  if hp_peak_bytes h <? hp_bytes_in_use h
  then h <| hp_peak_bytes := hp_bytes_in_use h |> else h.

Definition heap_account_shrink (h : owheap_t) (amount : Z) : owheap_t :=
  if amount <=? hp_bytes_in_use h
  then h <| hp_bytes_in_use := u64 (hp_bytes_in_use h - amount) |>
  else h <| hp_bytes_in_use := 0 |>.

(** ** Interface *)

(** The arena is [None] for [NULL], otherwise the object it points to. *)
Definition owheap_init (heap : ptr owheap_t) (arena : ptr memory) (arena_size : Z)
    : option (ptr owheap_t * ptr memory * bool) :=
  match heap, arena with
  | Some _, Some m =>
      let base := mem_base m in
      let aligned := Z.land (u64 (base + (OWHEAP_ALIGN - 1))) (u64 (Z.lnot (OWHEAP_ALIGN - 1))) in
      let skip := u64 (aligned - base) in
      if arena_size <=? skip then Some (heap, arena, false)
      else
        let usable := arena_size - skip in
        if usable <=? sizeof_block + OWHEAP_ALIGN then Some (heap, arena, false)
        else if 0xFFFFFFFF <? usable then Some (heap, arena, false)
        else
          m ← set_size m aligned (u32 (u32 usable - sizeof_block));
          m ← set_flags m aligned OWHEAP_FLAG_FREE;
          m ← set_magic m aligned OWHEAP_MAGIC;
          m ← set_reserved m aligned 0;
          m ← set_next m aligned 0;
          m ← set_prev m aligned 0;
          Some (Some (mk_heap aligned (u32 usable) aligned 0 0 0 0 true), Some m, true)
  | _, _ => Some (heap, arena, false)
  end.

(** Enough for a list of disjoint headers in the arena. *)
Definition list_fuel (h : owheap_t) : nat := S (Z.to_nat (hp_arena_size h / sizeof_block)).

(** [for (block = heap->head; block != NULL; block = block->next)]: the first
    block that is free and large enough, [0] when there is none. *)
Fixpoint first_fit (fuel : nat) (m : memory) (block need : Z) : option Z :=
  if block =? 0 then Some 0
  else
    match fuel with
    | O => None
    | S fuel =>
        flags ← get_flags m block;
        size ← get_size m block;
        if negb (is_free_flag flags) || (size <? need) then
          next ← get_next m block;
          first_fit fuel m next need
        else Some block
    end.

(** The result pointer is [0] for [NULL]. *)
Definition owheap_alloc (heap : ptr owheap_t) (m : memory) (size : Z)
    : option (ptr owheap_t * memory * Z) :=
  match heap with
  | None => Some (heap, m, 0)
  | Some h =>
      if negb (hp_initialized h) || (size =? 0) then Some (heap, m, 0)
      else
        let need := heap_align size in
        if need =? 0 then Some (heap, m, 0)
        else
          block ← first_fit (list_fuel h) m (hp_head h) need;
          if block =? 0 then Some (heap, m, 0)
          else
            m ← heap_split m block need;
            flags ← get_flags m block;
            m ← set_flags m block (Z.land flags (u32 (Z.lnot OWHEAP_FLAG_FREE)));
            let h := h <| hp_alloc_count := u64 (hp_alloc_count h + 1) |> in
            size ← get_size m block;
            Some (Some (heap_account_grow h size), m, heap_payload block)
  end.

Definition owheap_free (heap : ptr owheap_t) (m : memory) (p : Z)
    : option (ptr owheap_t * memory * bool) :=
  match heap with
  | None => Some (heap, m, false)
  | Some h =>
      if negb (hp_initialized h) || (p =? 0) then Some (heap, m, false)
      else if (p <? hp_arena h) || (hp_arena h + hp_arena_size h <=? p)
      then Some (heap, m, false)
      else
        let block := heap_header p in
        magic ← get_magic m block;
        if negb (magic =? OWHEAP_MAGIC) then Some (heap, m, false)
        else
          flags ← get_flags m block;
          if is_free_flag flags then Some (heap, m, false)
          else
            size ← get_size m block;
            let h := heap_account_shrink h size in
            m ← set_flags m block (Z.lor flags OWHEAP_FLAG_FREE);
            let h := h <| hp_free_count := u64 (hp_free_count h + 1) |> in
            m ← heap_coalesce m block;
            Some (Some h, m, true)
  end.

(** [for (i = 0; i < copy; ++i) dst[i] = bytes[i]] within the arena. *)
Definition copy_payload (m : memory) (src dst n : Z) : option memory :=
  for_up (Z.to_nat n) 0 (λ i m, b ← load 1 m (src + i); store 1 m (dst + i) b) m.

Definition owheap_realloc (heap : ptr owheap_t) (m : memory) (p new_size : Z)
    : option (ptr owheap_t * memory * Z) :=
  match heap with
  | None => Some (heap, m, 0)
  | Some h =>
      if negb (hp_initialized h) then Some (heap, m, 0)
      else if p =? 0 then owheap_alloc heap m new_size
      else if new_size =? 0 then
        '(heap, m, _) ← owheap_free heap m p; Some (heap, m, 0)
      else if (p <? hp_arena h) || (hp_arena h + hp_arena_size h <=? p) then Some (heap, m, 0)
      else
        let block := heap_header p in
        magic ← get_magic m block;
        if negb (magic =? OWHEAP_MAGIC) then Some (heap, m, 0)
        else
          flags ← get_flags m block;
          if is_free_flag flags then Some (heap, m, 0)
          else
            let need := heap_align new_size in
            if need =? 0 then Some (heap, m, 0)
            else
              original ← get_size m block;
              let h := heap_account_shrink h original in
              if need <=? original then
                m ← heap_split m block need;
                size ← get_size m block;
                Some (Some (heap_account_grow h size), m, p)
              else
                next ← get_next m block;
                grow ← (if nz next then
                          flags ← get_flags m next;
                          if is_free_flag flags then
                            nsize ← get_size m next;
                            Some (need <=? u32 (u32 (original + sizeof_block) + nsize))
                          else Some false
                        else Some false);
                if (grow : bool) then
                  m ← absorb_next m block next original;
                  m ← heap_split m block need;
                  size ← get_size m block;
                  Some (Some (heap_account_grow h size), m, p)
                else
                  let h := heap_account_grow h original in
                  '(heap, m, fresh) ← owheap_alloc (Some h) m new_size;
                  if fresh =? 0 then Some (heap, m, 0)
                  else
                    m ← copy_payload m p fresh (if original <? need then original else need);
                    '(heap, m, _) ← owheap_free heap m p;
                    Some (heap, m, fresh)
  end.

(** The walk of [owheap_stats]: blocks and free blocks. *)
Fixpoint count_blocks (fuel : nat) (m : memory) (block blocks free_blocks : Z)
    : option (Z * Z) :=
  if block =? 0 then Some (blocks, free_blocks)
  else
    match fuel with
    | O => None
    | S fuel =>
        flags ← get_flags m block;
        next ← get_next m block;
        count_blocks fuel m next (u32 (blocks + 1))
          (if is_free_flag flags then u32 (free_blocks + 1) else free_blocks)
    end.

Definition owheap_stats (heap : ptr owheap_t) (m : memory) (out : ptr owheap_stats_t)
    : option (ptr owheap_stats_t * bool) :=
  match heap, out with
  | Some h, Some _ =>
      if negb (hp_initialized h) then Some (out, false)
      else
        '(blocks, free_blocks) ← count_blocks (list_fuel h) m (hp_head h) 0 0;
        Some (Some (mk_heap_stats (hp_arena_size h) (hp_bytes_in_use h) (hp_peak_bytes h)
                      (hp_alloc_count h) (hp_free_count h) blocks free_blocks), true)
  | _, _ => Some (out, false)
  end.
