(* ===== verification/OwheapSeg.v ===== *)
(** Laws of the arena memory of Owheap.v: what a store changes and what it
    leaves alone, block headers as one predicate, and the effect of writing
    one header field.

    The block list of the heap: an arena cut into cells, and the effect of
    splitting a cell and of absorbing a free successor on it. *)
From S2P Require Import Prelude Owheap.

(** ** Stores and frames *)

Definition in_obj (m : memory) (a n : Z) : Prop :=
  mem_base m ≤ a ∧ 0 ≤ n ∧ a + n ≤ mem_base m + Z.of_nat (length (mem_bytes m)).

(** The [n] bytes at address [a]. *)
Definition bytes_at (m : memory) (a n : Z) : option (list Z) :=
  aslice (mem_bytes m) (a - mem_base m) n.

(** The two memories differ at most in the [n] bytes at [a]. *)
Record same_out (a n : Z) (m m' : memory) : Prop := {
  so_base : mem_base m' = mem_base m;
  so_len : length (mem_bytes m') = length (mem_bytes m);
  so_octets : octets (mem_bytes m) → octets (mem_bytes m');
  so_get : ∀ i, i < a ∨ a + n ≤ i →
    aget (mem_bytes m') (i - mem_base m) = aget (mem_bytes m) (i - mem_base m)
}.

Lemma same_out_refl a n m : same_out a n m m.
Proof. by constructor. Qed.

Lemma same_out_trans a n m1 m2 m3 :
  same_out a n m1 m2 → same_out a n m2 m3 → same_out a n m1 m3.
Proof.
  intros [B1 L1 O1 G1] [B2 L2 O2 G2]. constructor; [congruence|congruence|auto|].
  intros i Hi. rewrite <-G1 by done. rewrite <-B1. by apply G2.
Qed.

Lemma same_out_mono b k a n m m' :
  same_out a n m m' → b ≤ a → a + n ≤ b + k → same_out b k m m'.
Proof. intros [B L O G] ? ?. constructor; [done..|]. intros i Hi. apply G. lia. Qed.

Lemma in_obj_frame x n m m' a k : same_out x n m m' → in_obj m a k → in_obj m' a k.
Proof. intros [B L _ _]. unfold in_obj. by rewrite B, L. Qed.

Lemma in_obj_sub m a n b k : in_obj m a n → a ≤ b → 0 ≤ k → b + k ≤ a + n → in_obj m b k.
Proof. unfold in_obj. lia. Qed.

Lemma bytes_at_Some m a n : in_obj m a n → ∃ d, bytes_at m a n = Some d ∧ Z.of_nat (length d) = n.
Proof.
  intros (? & ? & ?). eexists. split; [by apply aslice_in; lia|].
  rewrite length_take, length_drop. lia.
Qed.

Lemma bytes_at_frame x n m m' a k :
  same_out x n m m' → a + k ≤ x ∨ x + n ≤ a → bytes_at m' a k = bytes_at m a k.
Proof.
  intros [B L _ G] Hd. unfold bytes_at, aslice. rewrite B, L. case_decide as Hr; [|done].
  f_equal. apply list_eq. intros i. rewrite !lookup_take. case_decide; [|done].
  rewrite !lookup_drop. specialize (G (a + Z.of_nat i)). unfold aget in G.
  rewrite !decide_True in G by lia.
  replace (Z.to_nat (a - mem_base m) + i)%nat
    with (Z.to_nat (a + Z.of_nat i - mem_base m)) by lia.
  apply G. lia.
Qed.

Lemma bytes_at_take m a n k d :
  bytes_at m a n = Some d → 0 ≤ k ≤ n → bytes_at m a k = Some (take (Z.to_nat k) d).
Proof.
  unfold bytes_at, aslice. intros Hd Hk. case_decide; [|done]. injection Hd as <-.
  rewrite decide_True by lia. rewrite take_take. do 2 f_equal. lia.
Qed.

Lemma bytes_at_app m a n k d e :
  bytes_at m a n = Some d → bytes_at m (a + n) k = Some e →
  bytes_at m a (n + k) = Some (d ++ e).
Proof.
  unfold bytes_at, aslice. intros Hd He. repeat case_decide; try done; try lia.
  injection Hd as <-. injection He as <-. f_equal.
  rewrite Z2Nat.inj_add, <-take_take_drop, drop_drop by lia. do 3 f_equal. lia.
Qed.

Lemma load_frame x n m m' k a :
  same_out x n m m' → a + Z.of_nat k ≤ x ∨ x + n ≤ a → load k m' a = load k m a.
Proof.
  intros Hs Hd. change (load k m' a) with (bs ← bytes_at m' a (Z.of_nat k); Some (le bs)).
  by rewrite (bytes_at_frame x n m m').
Qed.

(** A store inside the object. *)
Lemma store_ok m n a v :
  in_obj m a (Z.of_nat n) →
  ∃ m', store n m a v = Some m' ∧ same_out a (Z.of_nat n) m m' ∧
    bytes_at m' a (Z.of_nat n) = Some (le_bytes n v).
Proof.
  intros (Hlo & _ & Hhi). unfold store. pose proof (le_bytes_length n v) as Hl.
  rewrite awrite_in by (rewrite ?Hl; lia). rewrite obind_Some. eexists. split; [done|].
  set (o := Z.to_nat (a - mem_base m)). rewrite Hl. split.
  - constructor; simpl; [done|..].
    + rewrite !length_app, length_take, length_drop, Hl. lia.
    + unfold octets. intros Ho. rewrite !Forall_app.
      split_and!; [by apply Forall_take|apply le_bytes_octets|by apply Forall_drop].
    + intros i Hi. unfold aget. case_decide; [|done].
      destruct (decide (i < a)).
      * rewrite lookup_app_l by (rewrite length_take; lia). by rewrite lookup_take_lt by lia.
      * rewrite lookup_app_r by (rewrite length_take; lia).
        rewrite lookup_app_r by (rewrite length_take, Hl; lia).
        rewrite lookup_drop, length_take, Hl. f_equal. lia.
  - unfold bytes_at. cbn [mem_bytes mem_base].
    rewrite aslice_in by (rewrite ?length_app, ?length_take, ?length_drop, ?Hl; lia).
    fold o. rewrite drop_app_length' by (rewrite length_take; lia).
    by rewrite take_app_length' by lia.
Qed.

Lemma store_load m n a v :
  in_obj m a (Z.of_nat n) → 0 ≤ v < 256 ^ Z.of_nat n →
  ∃ m', store n m a v = Some m' ∧ same_out a (Z.of_nat n) m m' ∧ load n m' a = Some v.
Proof.
  intros Ha Hv. destruct (store_ok m n a v Ha) as (m' & E & Hs & Hb). exists m'.
  split_and!; [done..|].
  change (load n m' a) with (bs ← bytes_at m' a (Z.of_nat n); Some (le bs)).
  by rewrite Hb, obind_Some, le_le_bytes.
Qed.

(** ** Headers *)

(** The part of a header that says what the block is. *)
Record tagged (m : memory) (a sz fl : Z) : Prop := {
  tg_obj : in_obj m a 32;
  tg_size : get_size m a = Some sz;
  tg_flags : get_flags m a = Some fl;
  tg_magic : get_magic m a = Some OWHEAP_MAGIC
}.

(** A complete header. *)
Record header (m : memory) (a sz fl nx pv : Z) : Prop := {
  hd_tag : tagged m a sz fl;
  hd_next : get_next m a = Some nx;
  hd_prev : get_prev m a = Some pv
}.

Ltac hdr_unfold := unfold get_size, get_flags, get_magic, get_next, get_prev, set_size,
  set_flags, set_magic, set_reserved, set_next, set_prev, off_size, off_flags, off_magic,
  off_reserved, off_next, off_prev in *.

(** Reads that a store leaves alone, by its frame. *)
Ltac framed := erewrite load_frame; [eassumption|eassumption|lia].
Ltac frame_goal :=
  hdr_unfold; first [eassumption | framed | eapply in_obj_frame; eassumption |
    eapply same_out_mono; [eassumption|lia|lia]].

Lemma tagged_frame x n m m' a sz fl :
  same_out x n m m' → a + 32 ≤ x ∨ x + n ≤ a → tagged m a sz fl → tagged m' a sz fl.
Proof. intros Hs Hd [H1 H2 H3 H4]. constructor; frame_goal. Qed.

Lemma header_frame x n m m' a sz fl nx pv :
  same_out x n m m' → a + 32 ≤ x ∨ x + n ≤ a → header m a sz fl nx pv → header m' a sz fl nx pv.
Proof.
  intros Hs Hd [H1 H2 H3]. constructor; [by eapply tagged_frame|frame_goal..].
Qed.

(** Opens a store of [n] bytes of the goal at an address inside the header. *)
Ltac do_store n a v E Hs Hl :=
  let m' := fresh "m'" in
  match goal with
  | |- context [store n ?m a v] =>
      destruct (store_load m n a v) as (m' & E & Hs & Hl);
      [eapply in_obj_sub; [eassumption|lia..]|cbn; lia|]
  end.

Section fields.
Context (m : memory) (a sz fl nx pv : Z) (H : header m a sz fl nx pv).

Lemma set_size_header v : 0 ≤ v < 2 ^ 32 →
  ∃ m', set_size m a v = Some m' ∧ header m' a v fl nx pv ∧ same_out a 32 m m'.
Proof.
  intros Hv. destruct H as [[Ho Hsz Hfl Hmg] Hnx Hpv]. hdr_unfold.
  do_store 4%nat (a + 0) v E Hs Hl. exists m'. split; [done|].
  split; [constructor; [constructor|..]|]; frame_goal.
Qed.

Lemma set_flags_header v : 0 ≤ v < 2 ^ 32 →
  ∃ m', set_flags m a v = Some m' ∧ header m' a sz v nx pv ∧ same_out a 32 m m'.
Proof.
  intros Hv. destruct H as [[Ho Hsz Hfl Hmg] Hnx Hpv]. hdr_unfold.
  do_store 4%nat (a + 4) v E Hs Hl. exists m'. split; [done|].
  split; [constructor; [constructor|..]|]; frame_goal.
Qed.

Lemma set_next_header v : 0 ≤ v < 2 ^ 64 →
  ∃ m', set_next m a v = Some m' ∧ header m' a sz fl v pv ∧ same_out a 32 m m'.
Proof.
  intros Hv. destruct H as [[Ho Hsz Hfl Hmg] Hnx Hpv]. hdr_unfold.
  do_store 8%nat (a + 16) v E Hs Hl. exists m'. split; [done|].
  split; [constructor; [constructor|..]|]; frame_goal.
Qed.

Lemma set_prev_header v : 0 ≤ v < 2 ^ 64 →
  ∃ m', set_prev m a v = Some m' ∧ header m' a sz fl nx v ∧ same_out a 32 m m'.
Proof.
  intros Hv. destruct H as [[Ho Hsz Hfl Hmg] Hnx Hpv]. hdr_unfold.
  do_store 8%nat (a + 24) v E Hs Hl. exists m'. split; [done|].
  split; [constructor; [constructor|..]|]; frame_goal.
Qed.
End fields.

(** Writing the tag of a fresh header, then its links. *)
Lemma write_tag m a sz fl :
  in_obj m a 32 → 0 ≤ sz < 2 ^ 32 → 0 ≤ fl < 2 ^ 32 →
  ∃ m', (∀ B (k : memory → option B),
           (m1 ← set_size m a sz; m2 ← set_flags m1 a fl; m3 ← set_magic m2 a OWHEAP_MAGIC;
            m4 ← set_reserved m3 a 0; k m4) = k m') ∧
    tagged m' a sz fl ∧ same_out a 32 m m'.
Proof.
  intros Ho Hsz Hfl. hdr_unfold.
  destruct (store_load m 4 (a + 0) sz) as (m1 & E1 & S1 & L1);
    [eapply in_obj_sub; [done|lia..]|cbn; lia|].
  apply (same_out_mono a 32) in S1 as T1; [|lia..].
  destruct (store_load m1 4 (a + 4) fl) as (m2 & E2 & S2 & L2);
    [eapply in_obj_frame, in_obj_sub; [done..|lia|lia|lia]|cbn; lia|].
  apply (same_out_mono a 32) in S2 as T2; [|lia..].
  destruct (store_load m2 4 (a + 8) OWHEAP_MAGIC) as (m3 & E3 & S3 & L3);
    [do 2 (eapply in_obj_frame; [done|]); eapply in_obj_sub; [done|lia..]|done|].
  apply (same_out_mono a 32) in S3 as T3; [|lia..].
  destruct (store_load m3 4 (a + 12) 0) as (m4 & E4 & S4 & L4);
    [do 3 (eapply in_obj_frame; [done|]); eapply in_obj_sub; [done|lia..]|done|].
  apply (same_out_mono a 32) in S4 as T4; [|lia..].
  exists m4. split; [intros B k; by rewrite E1, obind_Some, E2, obind_Some, E3, obind_Some, E4|].
  split; [|by eauto using same_out_trans]. constructor; hdr_unfold.
  - by do 4 (eapply in_obj_frame; [done|]).
  - by rewrite (load_frame _ _ _ _ _ _ S4), (load_frame _ _ _ _ _ _ S3),
      (load_frame _ _ _ _ _ _ S2) by lia.
  - by rewrite (load_frame _ _ _ _ _ _ S4), (load_frame _ _ _ _ _ _ S3) by lia.
  - by rewrite (load_frame _ _ _ _ _ _ S4) by lia.
Qed.

Lemma write_links m a sz fl nx pv :
  tagged m a sz fl → 0 ≤ nx < 2 ^ 64 → 0 ≤ pv < 2 ^ 64 →
  ∃ m1 m', set_next m a nx = Some m1 ∧ set_prev m1 a pv = Some m' ∧
    header m' a sz fl nx pv ∧ same_out a 32 m m'.
Proof.
  intros [Ho Hsz Hfl Hmg] Hnx Hpv. hdr_unfold.
  destruct (store_load m 8 (a + 16) nx) as (m1 & E1 & S1 & L1);
    [eapply in_obj_sub; [done|lia..]|cbn; lia|].
  apply (same_out_mono a 32) in S1 as T1; [|lia..].
  destruct (store_load m1 8 (a + 24) pv) as (m2 & E2 & S2 & L2);
    [eapply in_obj_frame, in_obj_sub; [done..|lia|lia|lia]|cbn; lia|].
  apply (same_out_mono a 32) in S2 as T2; [|lia..].
  exists m1, m2. split_and!; [done..| |by eapply same_out_trans].
  constructor; [|hdr_unfold; by rewrite (load_frame _ _ _ _ _ _ S2) by lia|done].
  constructor; hdr_unfold;
    [by do 2 (eapply in_obj_frame; [done|])|
     by rewrite (load_frame _ _ _ _ _ _ S2), (load_frame _ _ _ _ _ _ S1) by lia..].
Qed.

(** A block as the client sees it: live with its content, or free space. *)
Inductive cell := Used (d : list Z) | Free (n : Z).

Definition csize (c : cell) : Z :=
  match c with Used d => Z.of_nat (length d) | Free n => n end.
Definition cflag (c : cell) : Z := match c with Used _ => 0 | Free _ => 1 end.
Definition is_free (c : cell) : bool := match c with Used _ => false | Free _ => true end.

(** Bytes the cells occupy, headers included. *)
Fixpoint span (bs : list cell) : Z :=
  match bs with [] => 0 | c :: bs => 32 + csize c + span bs end.

(** The address of the first of the cells [bs], [fin] when there are none, and
    of the last one, [pv] when there are none. *)
Definition nxt (a : Z) (bs : list cell) (fin : Z) : Z := match bs with [] => fin | _ => a end.
Fixpoint lastp (a pv : Z) (bs : list cell) : Z :=
  match bs with [] => pv | c :: bs => lastp (a + 32 + csize c) a bs end.

(** One block in memory. *)
Record block_at (m : memory) (a pv nx : Z) (c : cell) : Prop := {
  bk_obj : in_obj m a (32 + csize c);
  bk_size : 0 ≤ csize c;
  bk_align : (8 | a);
  bk_header : header m a (csize c) (cflag c) nx pv;
  bk_data : ∀ d, c = Used d → d ≠ [] ∧ bytes_at m (a + 32) (csize c) = Some d
}.

(** Consecutive blocks from address [a], linked in both directions; the first
    points back to [pv], the last forward to [fin]. *)
Fixpoint seg (m : memory) (a pv : Z) (bs : list cell) (fin : Z) : Prop :=
  match bs with
  | [] => True
  | c :: bs' => block_at m a pv (nxt (a + 32 + csize c) bs' fin) c ∧
                seg m (a + 32 + csize c) a bs' fin
  end.

Lemma span_app l r : span (l ++ r) = span l + span r.
Proof. induction l as [|c l IH]; simpl; lia. Qed.

Lemma nxt_app a l r fin : nxt a (l ++ r) fin = nxt a l (nxt a r fin).
Proof. by destruct l. Qed.

Lemma lastp_snoc a pv l c : lastp a pv (l ++ [c]) = a + span l.
Proof.
  revert a pv. induction l as [|b l IH]; intros a pv; simpl; [lia|]. rewrite IH. lia.
Qed.

Lemma seg_app m a pv l r fin :
  seg m a pv (l ++ r) fin ↔
  seg m a pv l (nxt (a + span l) r fin) ∧ seg m (a + span l) (lastp a pv l) r fin.
Proof.
  revert a pv. induction l as [|c l IH]; intros a pv; simpl; [by rewrite Z.add_0_r; naive_solver|].
  rewrite IH, nxt_app. rewrite !Z.add_assoc.
  replace (nxt (a + 32 + csize c) l (nxt (a + 32 + csize c) r fin))
    with (nxt (a + 32 + csize c) l (nxt (a + 32 + csize c + span l) r fin)); [naive_solver|].
  destruct l; [|done]. simpl. by rewrite Z.add_0_r.
Qed.

Lemma seg_sizes m a pv bs fin : seg m a pv bs fin → Forall (λ c, 0 ≤ csize c) bs.
Proof.
  revert a pv. induction bs as [|c bs IH]; intros a pv; simpl; [done|].
  intros [[] ?]. constructor; [done|eauto].
Qed.

Lemma span_nonneg bs : Forall (λ c, 0 ≤ csize c) bs → 32 * Z.of_nat (length bs) ≤ span bs.
Proof. induction 1; simpl in *; lia. Qed.

Lemma seg_span m a pv bs fin : seg m a pv bs fin → 32 * Z.of_nat (length bs) ≤ span bs.
Proof. intros. eapply span_nonneg, seg_sizes. done. Qed.

(** ** Frames *)

Lemma block_at_frame x n m m' a pv nx c :
  same_out x n m m' → a + 32 + csize c ≤ x ∨ x + n ≤ a →
  block_at m a pv nx c → block_at m' a pv nx c.
Proof.
  intros Hs Hd [H1 H2 H3 H4 H5]. constructor; [by eapply in_obj_frame|done|done| |].
  - eapply header_frame; [done|lia|done].
  - intros d Hc. split; [by eapply H5|]. erewrite bytes_at_frame; [by apply H5|done|lia].
Qed.

Lemma seg_frame x n m m' a pv bs fin :
  same_out x n m m' → a + span bs ≤ x ∨ x + n ≤ a → seg m a pv bs fin → seg m' a pv bs fin.
Proof.
  intros Hs. revert a pv. induction bs as [|c bs IH]; intros a pv Hd; simpl in *; [done|].
  intros [Hb Hr]. pose proof (seg_span _ _ _ _ _ Hr). pose proof (bk_size _ _ _ _ _ Hb).
  split; [eapply block_at_frame; [done|lia|done]|apply IH; [lia|done]].
Qed.

(** Writing header fields of a block keeps its content. *)
Lemma block_at_header m m' a pv nx c pv' nx' :
  block_at m a pv nx c → same_out a 32 m m' →
  header m' a (csize c) (cflag c) nx' pv' → block_at m' a pv' nx' c.
Proof.
  intros [H1 H2 H3 H4 H5] Hs Hh. constructor; [by eapply in_obj_frame|done|done|done|].
  intros d Hc. split; [by eapply H5|]. erewrite bytes_at_frame; [by apply H5|done|lia].
Qed.

(** The first of the cells [bs] at [x], if any, is told its new predecessor:
    [if (next != NULL) next->prev = pv']. *)
Lemma relink m x pv pv' bs :
  seg m x pv bs 0 → 0 < x → 0 ≤ pv' < 2 ^ 64 →
  ∃ m', (if nz (nxt x bs 0) then set_prev m (nxt x bs 0) pv' else Some m) = Some m' ∧
    seg m' x pv' bs 0 ∧ same_out x (if bs is [] then 0 else 32) m m'.
Proof.
  intros Hs Hx Hp. destruct bs as [|c bs]; simpl in *.
  { exists m. split_and!; [done..|apply same_out_refl]. }
  destruct Hs as [Hb Hr]. unfold nz. rewrite (proj2 (Z.eqb_neq x 0)) by lia. simpl.
  destruct (set_prev_header _ _ _ _ _ _ (bk_header _ _ _ _ _ Hb) pv' Hp) as (m' & E & Hh & Ho).
  exists m'. split_and!; [done|by eapply block_at_header| |done].
  destruct Hb. eapply seg_frame; [done|lia|done].
Qed.

(** ** Splitting a cell *)

Definition ctake (c : cell) (n : Z) : cell :=
  match c with Used d => Used (take (Z.to_nat n) d) | Free _ => Free n end.

(** What is left of a cell that keeps [need] bytes. *)
Definition carve (c : cell) (need : Z) : list cell :=
  if csize c - need <? 40 then [c] else [ctake c need; Free (csize c - need - 32)].

Lemma csize_ctake c n : 0 ≤ n ≤ csize c → csize (ctake c n) = n.
Proof. destruct c as [d|k]; simpl; [rewrite length_take|]; lia. Qed.

Lemma cflag_ctake c n : cflag (ctake c n) = cflag c.
Proof. by destruct c. Qed.

Lemma span_carve c need : 0 ≤ need ≤ csize c → span (carve c need) = 32 + csize c.
Proof.
  intros. unfold carve. case_if; simpl; [lia|]. rewrite csize_ctake by lia. lia.
Qed.

(** The new block [rest] is written and linked between [block] and its
    successors. *)
Lemma link_rest m a sz fl pv x rest k bs :
  header m a sz fl (nxt x bs 0) pv → seg m x a bs 0 → in_obj m rest 32 → 0 < a →
  a + 32 ≤ rest → rest + 32 ≤ x → x + span bs < 2 ^ 64 → 0 ≤ k < 2 ^ 32 →
  ∃ m', (∀ B (f : memory → option B),
     (m ← set_size m rest k;
      m ← set_flags m rest OWHEAP_FLAG_FREE;
      m ← set_magic m rest OWHEAP_MAGIC;
      m ← set_reserved m rest 0;
      next ← get_next m a;
      m ← set_next m rest next;
      m ← set_prev m rest a;
      next ← get_next m a;
      m ← (if nz next then set_prev m next rest else Some m);
      f m) = f m') ∧
    header m' a sz fl (nxt x bs 0) pv ∧ header m' rest k 1 (nxt x bs 0) a ∧
    seg m' x rest bs 0 ∧ same_out rest (x + span bs - rest) m m'.
Proof.
  intros Hh Hr Ho Ha Har Hrx Hmax Hk. pose proof (seg_span _ _ _ _ _ Hr) as Hlen.
  set (nx := nxt x bs 0) in *.
  assert (0 ≤ nx < 2 ^ 64) by (subst nx; unfold nxt; destruct bs; lia).
  destruct (write_tag m rest k OWHEAP_FLAG_FREE) as (m1 & E1 & T1 & S1); [done|lia|done|].
  apply (header_frame _ _ _ _ a _ _ _ _ S1) in Hh as Hh1; [|lia].
  destruct (write_links m1 rest k OWHEAP_FLAG_FREE nx a)
    as (m2 & m3 & E2 & E3 & H3 & S3); [done|lia|lia|].
  apply (header_frame _ _ _ _ a _ _ _ _ S3) in Hh1 as Hh3; [|lia].
  apply (seg_frame _ _ _ _ _ _ _ _ S1) in Hr as Hr1; [|lia].
  apply (seg_frame _ _ _ _ _ _ _ _ S3) in Hr1 as Hr3; [|lia].
  destruct (relink m3 x a rest bs) as (m4 & E4 & Hr4 & S4); [done|lia|lia|].
  apply (same_out_mono x (span bs)) in S4 as S4'; [|lia|destruct bs; simpl in *; lia].
  exists m4. split_and!.
  - intros B f. rewrite E1, (hd_next _ _ _ _ _ _ Hh1), obind_Some, E2, obind_Some, E3, obind_Some.
    rewrite (hd_next _ _ _ _ _ _ Hh3), obind_Some. fold nx in E4. by rewrite E4, obind_Some.
  - eapply header_frame; [done|lia|done].
  - eapply header_frame; [done|lia|done].
  - done.
  - do 2 (eapply same_out_trans; [eapply same_out_mono; [done|lia|lia]|]).
    eapply same_out_mono; [done|lia|lia].
Qed.

Lemma heap_split_spec m a pv c bs need :
  seg m a pv (c :: bs) 0 → 0 < a → a + span (c :: bs) < 2 ^ 64 → span (c :: bs) < 2 ^ 32 →
  0 < need ≤ csize c → (8 | need) →
  ∃ m', heap_split m a need = Some m' ∧ seg m' a pv (carve c need ++ bs) 0 ∧
    same_out a (span (c :: bs)) m m'.
Proof.
  intros [Hb Hr] Ha Hmax Hsp Hn H8. pose proof (seg_span _ _ _ _ _ Hr) as Hlen.
  destruct Hb as [Hobj Hsz Hal Hh Hd]. unfold heap_split, carve. cbn [span] in *.
  rewrite (tg_size _ _ _ _ (hd_tag _ _ _ _ _ _ Hh)), obind_Some, u32_small by lia.
  change (sizeof_block + OWHEAP_ALIGN) with 40. case_if.
  { exists m. split_and!; [done|by split|apply same_out_refl]. }
  set (rest := a + 32 + need).
  replace (heap_payload a + need) with rest by done.
  rewrite u32_small by (unfold sizeof_block; lia). change sizeof_block with 32.
  destruct (link_rest m a _ _ _ (a + 32 + csize c) rest (csize c - need - 32) bs Hh Hr)
    as (m4 & E4 & Hh4 & H4 & Hr4 & S4); [eapply in_obj_sub; [done|lia..]|lia..|].
  rewrite E4.
  destruct (set_next_header _ _ _ _ _ _ Hh4 rest) as (m5 & E5 & Hh5 & S5); [lia|].
  rewrite E5, obind_Some.
  destruct (set_size_header _ _ _ _ _ _ Hh5 need) as (m6 & E6 & Hh6 & S6); [lia|].
  rewrite E6. exists m6. split; [done|]. cbn [app seg].
  rewrite csize_ctake by lia. fold rest. cbn [nxt csize].
  replace (rest + 32 + (csize c - need - 32)) with (a + 32 + csize c) by lia.
  assert (same_out a 32 m4 m6) as S46 by (by eapply same_out_trans).
  assert (∀ x k, in_obj m x k → in_obj m6 x k) as Hin.
  { intros x k Hx. do 2 (eapply in_obj_frame; [done|]). done. }
  split_and!.
  - constructor; rewrite ?csize_ctake, ?cflag_ctake by lia; [|lia|done|done|].
    { apply Hin. eapply in_obj_sub; [done|lia..]. }
    intros d Hc. destruct c as [d0|]; [|done]. injection Hc as <-. cbn [csize] in *.
    split; [intros E%(f_equal length); rewrite length_take in E; cbn [length] in E; lia|].
    rewrite (bytes_at_frame _ _ _ _ _ _ S46), (bytes_at_frame _ _ _ _ _ _ S4) by lia.
    eapply bytes_at_take; [by apply (Hd d0)|lia].
  - constructor; cbn [csize cflag]; [|lia| |eapply header_frame; [done|lia|done]|done].
    + apply Hin. eapply in_obj_sub; [done|lia..].
    + subst rest. apply Z.divide_add_r; [|done]. apply Z.divide_add_r; [done|]. by exists 4.
  - eapply (seg_frame _ _ m4); [done|lia|done].
  - eapply same_out_trans; (eapply same_out_mono; [done|lia|lia]).
Qed.

(** ** Absorbing a free successor *)

(** [c'] is [c] with [k] more bytes at its end. *)
Definition extends (c c' : cell) (k : Z) : Prop :=
  match c, c' with
  | Free n, Free n' => n' = n + k
  | Used d, Used d' => ∃ junk, d' = d ++ junk ∧ Z.of_nat (length junk) = k
  | _, _ => False
  end.

Lemma extends_size c c' k : extends c c' k → csize c' = csize c + k.
Proof.
  destruct c, c'; simpl; [|done..|lia]. intros (j & -> & ?). rewrite length_app. lia.
Qed.

Lemma extends_flag c c' k : extends c c' k → cflag c' = cflag c.
Proof. by destruct c, c'. Qed.

Lemma absorb_next_spec m a pv c n bs :
  seg m a pv (c :: Free n :: bs) 0 → 0 < a → a + span (c :: Free n :: bs) < 2 ^ 64 →
  span (c :: Free n :: bs) < 2 ^ 32 →
  ∃ m' c', absorb_next m a (a + 32 + csize c) (csize c) = Some m' ∧ extends c c' (32 + n) ∧
    seg m' a pv (c' :: bs) 0 ∧ same_out a (span (c :: Free n :: bs)) m m' ∧
    tagged m' (a + 32 + csize c) n 1.
Proof.
  intros (Hb & Hb2 & Hr) Ha Hmax Hsp. pose proof (seg_span _ _ _ _ _ Hr) as Hlen.
  cbn [span csize nxt] in *. set (x := a + 32 + csize c) in *. set (y := x + 32 + n) in *.
  pose proof (bk_size _ _ _ _ _ Hb) as Hsz. pose proof (bk_size _ _ _ _ _ Hb2) as Hsz2.
  cbn [csize] in Hsz2. pose proof (bk_header _ _ _ _ _ Hb2) as Hh2. cbn [csize cflag] in Hh2.
  unfold absorb_next. rewrite (tg_size _ _ _ _ (hd_tag _ _ _ _ _ _ Hh2)), obind_Some.
  rewrite !u32_small by (unfold sizeof_block; rewrite ?u32_small; lia). change sizeof_block with 32.
  destruct (set_size_header _ _ _ _ _ _ (bk_header _ _ _ _ _ Hb) (csize c + (32 + n)))
    as (m1 & E1 & H1 & S1); [lia|]. rewrite E1, obind_Some.
  apply (header_frame _ _ _ _ x _ _ _ _ S1) in Hh2 as Hx1; [|lia].
  rewrite (hd_next _ _ _ _ _ _ Hx1), obind_Some.
  destruct (set_next_header _ _ _ _ _ _ H1 (nxt y bs 0)) as (m2 & E2 & H2 & S2);
    [unfold nxt; destruct bs; lia|]. rewrite E2, obind_Some.
  apply (header_frame _ _ _ _ x _ _ _ _ S2) in Hx1 as Hx2; [|lia].
  rewrite (hd_next _ _ _ _ _ _ Hx2), obind_Some.
  assert (same_out a 32 m m2) as S12 by (by eapply same_out_trans).
  apply (seg_frame _ _ _ _ _ _ _ _ S12) in Hr as Hr2; [|lia].
  destruct (relink m2 y x a bs) as (m3 & E3 & Hr3 & S3); [done|lia|lia|].
  apply (same_out_mono y (span bs)) in S3 as S3'; [|lia|destruct bs; simpl in *; lia].
  destruct (bytes_at_Some m (a + 32 + csize c) (32 + n)) as (junk & Ej & Hj).
  { apply (bk_obj _ _ _ _ _ Hb2). }
  exists m3, (match c with Used d => Used (d ++ junk) | Free k => Free (k + (32 + n)) end).
  assert (extends c (match c with Used d => Used (d ++ junk) | Free k => Free (k + (32 + n)) end)
    (32 + n)) as Hex by (destruct c; simpl; eauto).
  set (c' := match c with Used d => _ | Free k => _ end) in *.
  pose proof (extends_size _ _ _ Hex) as Es. pose proof (extends_flag _ _ _ Hex) as Ef.
  split_and!; [done|done| | |].
  - cbn [seg]. rewrite Es. replace (a + 32 + (csize c + (32 + n))) with y by lia.
    split; [|done].
    constructor; rewrite ?Es, ?Ef; [|lia|apply Hb|eapply header_frame; [done|lia|done]|].
    + do 2 (eapply in_obj_frame; [done|]). destruct (bk_obj _ _ _ _ _ Hb), (bk_obj _ _ _ _ _ Hb2).
      unfold in_obj in *. cbn [csize] in *. lia.
    + intros d Hc. destruct c as [d0|]; [|done]. injection Hc as <-.
      destruct (bk_data _ _ _ _ _ Hb d0 eq_refl) as [Hne Hd]. split; [by destruct d0|].
      rewrite (bytes_at_frame _ _ _ _ _ _ S3'), (bytes_at_frame _ _ _ _ _ _ S12)
        by (cbn [csize] in *; lia).
      by apply bytes_at_app.
  - eapply same_out_trans; (eapply same_out_mono; [done|lia|lia]).
  - eapply tagged_frame; [done|lia|]. apply Hx2.
Qed.

(** ** Freeing: marking, then merging with both neighbours *)

Lemma free_flag_cell c : is_free_flag (cflag c) = is_free c.
Proof. by destruct c. Qed.

(** Changing the flag of a block turns its content into free space and back. *)
Lemma mark_free m a pv d bs :
  seg m a pv (Used d :: bs) 0 →
  ∃ m', set_flags m a 1 = Some m' ∧ seg m' a pv (Free (Z.of_nat (length d)) :: bs) 0 ∧
    same_out a 32 m m'.
Proof.
  intros [Hb Hr]. destruct (set_flags_header _ _ _ _ _ _ (bk_header _ _ _ _ _ Hb) 1)
    as (m' & E & Hh & Ho); [done|]. pose proof (bk_size _ _ _ _ _ Hb).
  exists m'. cbn [seg csize] in *.
  split_and!; [done| |eapply seg_frame; [done|lia|done]|done].
  destruct Hb as [H1 H2 H3 H4 H5]. constructor; [by eapply in_obj_frame|done|done|done|done].
Qed.

Lemma mark_used m a pv n bs :
  seg m a pv (Free n :: bs) 0 → 0 < n →
  ∃ m' d, set_flags m a 0 = Some m' ∧ Z.of_nat (length d) = n ∧
    seg m' a pv (Used d :: bs) 0 ∧ same_out a 32 m m'.
Proof.
  intros [Hb Hr] Hn. destruct (set_flags_header _ _ _ _ _ _ (bk_header _ _ _ _ _ Hb) 0)
    as (m' & E & Hh & Ho); [done|]. pose proof (bk_size _ _ _ _ _ Hb).
  destruct Hb as [H1 H2 H3 H4 H5]. cbn [csize] in *.
  destruct (bytes_at_Some m' (a + 32) n) as (d & Ed & Hd).
  { eapply in_obj_frame; [done|]. eapply in_obj_sub; [done|lia..]. }
  exists m', d. cbn [seg csize]. rewrite Hd.
  split_and!; [done|done| |eapply seg_frame; [done|lia|done]|done].
  constructor; cbn [csize cflag]; rewrite ?Hd; [by eapply in_obj_frame|done|done|done|].
  intros e [= <-]. split; [by destruct d; simpl in *; [lia|]|done].
Qed.

Definition merge_next (n : Z) (bs : list cell) : Z * list cell :=
  match bs with Free k :: bs => (n + (32 + k), bs) | _ => (n, bs) end.
Fixpoint merge_prev (l : list cell) (n : Z) (bs : list cell) : list cell :=
  match l with
  | [] => Free n :: bs
  | [Free p] => Free (p + (32 + n)) :: bs
  | c :: l => c :: merge_prev l n bs
  end.

(** The list after coalescing a free cell of [n] bytes that stands between the
    cells [l] and [bs]. *)
Definition coalesced (l : list cell) (n : Z) (bs : list cell) : list cell :=
  let '(k, bs) := merge_next n bs in merge_prev l k bs.

Lemma merge_prev_snoc l c n bs :
  merge_prev (l ++ [c]) n bs =
    l ++ match c with Free p => Free (p + (32 + n)) :: bs | Used _ => c :: Free n :: bs end.
Proof.
  induction l as [|b l IH]; simpl; [by destruct c|].
  rewrite IH. destruct b, (l ++ [c]) eqn:E; [|done| |done]; by destruct l.
Qed.

Lemma span_coalesced l n bs : span (coalesced l n bs) = span (l ++ Free n :: bs).
Proof.
  assert (∀ k bs', span (merge_prev l k bs') = span (l ++ Free k :: bs')) as Hp.
  { intros k bs'. destruct l as [|c l] using rev_ind; [done|].
    rewrite merge_prev_snoc, !span_app. destruct c; simpl; lia. }
  unfold coalesced. destruct bs as [|[] bs]; simpl; rewrite Hp, !span_app; simpl; lia.
Qed.

(** First half: the successor, if it is free. *)
Lemma merge_next_spec m a pv n bs :
  seg m a pv (Free n :: bs) 0 → 0 < a → a + span (Free n :: bs) < 2 ^ 64 →
  span (Free n :: bs) < 2 ^ 32 →
  ∃ m', (∀ B (k : memory → option B),
         (next ← get_next m a;
          m1 ← (if nz next then
                  flags ← get_flags m next;
                  if is_free_flag flags then
                    size ← get_size m a; absorb_next m a next size
                  else Some m
                else Some m);
          k m1) = k m') ∧
    seg m' a pv (Free (merge_next n bs).1 :: (merge_next n bs).2) 0 ∧ same_out a (span (Free n :: bs)) m m' ∧
    get_prev m' a = Some pv.
Proof.
  intros Hs Ha Hmax Hsp. destruct (Hs) as [Hb Hr]. pose proof (bk_header _ _ _ _ _ Hb) as Hh.
  pose proof (bk_size _ _ _ _ _ Hb) as Hsz. cbn [csize] in *.
  destruct bs as [|[d|k] bs].
  - exists m. split; [intros B f; by rewrite (hd_next _ _ _ _ _ _ Hh)|].
    split_and!; [done|apply same_out_refl|apply Hh].
  - destruct Hr as [Hb2 Hr]. exists m. split.
    { intros B f. rewrite (hd_next _ _ _ _ _ _ Hh), obind_Some. cbn [nxt]. unfold nz.
      rewrite (proj2 (Z.eqb_neq _ 0)) by lia. cbn [negb].
      by rewrite (tg_flags _ _ _ _ (hd_tag _ _ _ _ _ _ (bk_header _ _ _ _ _ Hb2))). }
    split_and!; [done|apply same_out_refl|apply Hh].
  - pose proof (proj1 Hr) as Hb2.
    destruct (absorb_next_spec _ _ _ _ _ _ Hs) as (m' & c' & E & Hex & Hs' & Ho & _); [lia..|].
    cbn [csize] in E. exists m'. split.
    { intros B f. rewrite (hd_next _ _ _ _ _ _ Hh), obind_Some. cbn [nxt]. unfold nz.
      rewrite (proj2 (Z.eqb_neq _ 0)) by lia. cbn [negb].
      rewrite (tg_flags _ _ _ _ (hd_tag _ _ _ _ _ _ (bk_header _ _ _ _ _ Hb2))), obind_Some.
      change (is_free_flag (cflag (Free k))) with true. cbv iota.
      by rewrite (tg_size _ _ _ _ (hd_tag _ _ _ _ _ _ Hh)), obind_Some, E. }
    destruct c' as [|n']; [done|]. cbn in Hex. subst n'.
    pose proof (bk_header _ _ _ _ _ (proj1 Hs')) as Hh'.
    split_and!; [done|done|apply Hh'].
Qed.

Lemma span_merge_next n bs : 32 + (merge_next n bs).1 + span (merge_next n bs).2 = 32 + n + span bs.
Proof. destruct bs as [|[] bs]; simpl; lia. Qed.

Lemma heap_coalesce_spec m a l n bs :
  seg m a 0 (l ++ Free n :: bs) 0 → 0 < a → a + span (l ++ Free n :: bs) < 2 ^ 64 →
  span (l ++ Free n :: bs) < 2 ^ 32 →
  ∃ m' k, heap_coalesce m (a + span l) = Some m' ∧ seg m' a 0 (coalesced l n bs) 0 ∧
    same_out a (span (l ++ Free n :: bs)) m m' ∧ tagged m' (a + span l) k 1.
Proof.
  intros [Hl Hs]%seg_app Ha. rewrite span_app. intros Hmax Hsp.
  pose proof (seg_span _ _ _ _ _ Hl) as Hlen. pose proof (seg_span _ _ _ _ _ Hs) as Hlen'.
  destruct (merge_next_spec _ _ _ _ _ Hs) as (m1 & E1 & Hs1 & S1 & P1); [lia..|].
  unfold heap_coalesce, coalesced. rewrite E1, P1, obind_Some.
  pose proof (span_merge_next n bs) as Esp. destruct (merge_next n bs) as [k bs'].
  cbn [fst snd] in *. pose proof (proj1 Hs1) as Hb1.
  pose proof (hd_tag _ _ _ _ _ _ (bk_header _ _ _ _ _ Hb1)) as T1.
  apply (seg_frame _ _ _ _ _ _ _ _ S1) in Hl as Hl1; [|lia].
  apply (same_out_mono a (span l + span (Free n :: bs))) in S1 as S1'; [|lia|lia].
  cbn [span csize nxt cflag] in *.
  assert (seg m1 a 0 (l ++ Free k :: bs') 0) as Hall by (by apply seg_app).
  destruct l as [|c l _] using rev_ind.
  { exists m1, k. split_and!; [done|done|done|done]. }
  rewrite lastp_snoc, merge_prev_snoc in *. rewrite <-app_assoc in Hall. cbn [app] in Hall.
  rewrite span_app in *. cbn [span] in *.
  apply seg_app in Hall as [Hl0 Hc]. pose proof (seg_span _ _ _ _ _ Hl0). pose proof (proj1 Hc) as Hb.
  pose proof (hd_tag _ _ _ _ _ _ (bk_header _ _ _ _ _ Hb)) as Tc. pose proof (bk_size _ _ _ _ _ Hb).
  unfold nz. rewrite (proj2 (Z.eqb_neq _ 0)) by lia. cbn [negb].
  rewrite (tg_flags _ _ _ _ Tc), obind_Some, free_flag_cell. destruct c as [d|p]; cbn [is_free].
  { exists m1, k. split_and!; [done|by apply seg_app|done|done]. }
  rewrite (tg_size _ _ _ _ Tc), obind_Some.
  destruct (absorb_next_spec _ _ _ _ _ _ Hc) as (m2 & c' & E2 & Hex & Hs2 & S2 & T2);
    [cbn [span csize] in *; lia..|]. cbn [csize span] in *.
  replace (a + (span l + (32 + p + 0))) with (a + span l + 32 + p) by lia.
  exists m2, k. rewrite E2. destruct c' as [|p']; [done|]. cbn in Hex. subst p'.
  split_and!; [done| | |done].
  - apply seg_app. split; [|done]. eapply seg_frame; [done|lia|done].
  - eapply same_out_trans; [done|]. eapply same_out_mono; [done|lia|lia].
Qed.
