(* ===== verification/OwheapOps.v ===== *)
(** What the heap promises: its state is a finite map from live pointers to
    the bytes they hold; allocation adds an entry, freeing deletes one,
    resizing keeps the common prefix, and no entry is disturbed by an operation
    on another.

    The heap operations against that specification. *)
From S2P Require Import Prelude Owheap OwheapSeg.

(** ** Sizes *)

Definition round8 (n : Z) : Z := (n + 7) / 8 * 8.

Lemma land_align x : 0 ≤ x < 2 ^ 64 → Z.land x (u64 (Z.lnot (OWHEAP_ALIGN - 1))) = x / 8 * 8.
Proof.
  intros Hx. change (u64 (Z.lnot (OWHEAP_ALIGN - 1))) with (Z.land (Z.lnot (Z.ones 3)) (Z.ones 64)).
  rewrite (Z.land_comm (Z.lnot _)), Z.land_assoc, Z.land_ones, Z.mod_small by lia.
  rewrite <-Z.ldiff_land, Z.ldiff_ones_r by done.
  by rewrite Z.shiftl_mul_pow2, Z.shiftr_div_pow2 by done.
Qed.

Lemma heap_align_spec size :
  0 ≤ size < 2 ^ 64 → heap_align size = if size <=? 0xFFFFFFF8 then round8 size else 0.
Proof.
  intros Hs. unfold heap_align. rewrite land_align by apply u64_range.
  change (OWHEAP_ALIGN - 1) with 7. unfold round8.
  destruct (decide (size + 7 < 2 ^ 64)).
  - rewrite u64_small by lia. repeat case_if; try (rewrite u32_small by zdm); zdm.
  - unfold u64, wrap. replace ((size + 7) mod 2 ^ 64) with (size + 7 - 2 ^ 64) by zdm.
    repeat case_if; zdm.
Qed.

Lemma round8_bounds n : n ≤ round8 n < n + 8.
Proof. unfold round8. zdm. Qed.

Lemma round8_divide n : (8 | round8 n).
Proof. unfold round8. by exists ((n + 7) / 8). Qed.

(** ** The live objects *)

(** Pointer to content of every used cell. *)
Fixpoint live (a : Z) (bs : list cell) : gmap Z (list Z) :=
  match bs with
  | [] => ∅
  | Used d :: bs => <[a + 32 := d]> (live (a + 32 + Z.of_nat (length d)) bs)
  | Free n :: bs => live (a + 32 + n) bs
  end.

Fixpoint used (bs : list cell) : Z :=
  match bs with
  | [] => 0
  | Used d :: bs => Z.of_nat (length d) + used bs
  | Free _ :: bs => used bs
  end.

Abbreviation sizes_ok := (Forall (λ c, 0 ≤ csize c)).

Lemma used_app l r : used (l ++ r) = used l + used r.
Proof. induction l as [|[] l IH]; simpl; lia. Qed.

Lemma used_bounds bs : sizes_ok bs → 0 ≤ used bs ≤ span bs.
Proof. induction 1 as [|[] bs]; simpl in *; lia. Qed.

Lemma live_inside a bs p d :
  sizes_ok bs → live a bs !! p = Some d →
  a + 32 ≤ p ∧ p + Z.of_nat (length d) ≤ a + span bs.
Proof.
  intros Hs. revert a. induction Hs as [|[e|n] bs Hc Hs IH]; intros a Hp; simpl in *; [done|..].
  - pose proof (span_nonneg _ Hs). apply lookup_insert_Some in Hp as [[<- <-]|[_ Hp]]; [lia|].
    apply IH in Hp. lia.
  - apply IH in Hp. lia.
Qed.

Lemma live_None a bs p :
  sizes_ok bs → p < a + 32 ∨ a + span bs < p → live a bs !! p = None.
Proof.
  intros Hs Hp. destruct (live a bs !! p) as [d|] eqn:E; [|done].
  apply live_inside in E; [|done]. lia.
Qed.

Lemma live_app a l r :
  live a (l ++ r) = live a l ∪ live (a + span l) r.
Proof.
  revert a. induction l as [|[d|n] l IH]; intros a; cbn [app live span csize].
  - by rewrite (left_id_L ∅ _), Z.add_0_r.
  - rewrite IH, insert_union_l. do 2 f_equal. lia.
  - rewrite IH. do 2 f_equal. lia.
Qed.

Lemma live_split a bs p d :
  live a bs !! p = Some d → ∃ l r, bs = l ++ Used d :: r ∧ p = a + span l + 32.
Proof.
  revert a. induction bs as [|[e|n] bs IH]; intros a; simpl; [done|..].
  - intros [[<- <-]|[_ (l & r & -> & ->)%IH]]%lookup_insert_Some.
    { exists [], bs. simpl. split; [done|lia]. }
    exists (Used e :: l), r. simpl. split; [done|lia].
  - intros (l & r & -> & ->)%IH. exists (Free n :: l), r. simpl. split; [done|lia].
Qed.

(** Replacing cells in the middle by others with the same span. *)
Lemma live_used_insert a l d x y r :
  sizes_ok l → span (Used d :: x) = span y → (∀ b, live b y = ∅) → (∀ b, live b x = ∅) →
  live a (l ++ (Used d :: x) ++ r) = <[a + span l + 32 := d]> (live a (l ++ y ++ r)).
Proof.
  intros Hl Hsp Hy Hx. cbn [app live]. rewrite !live_app. cbn [live]. rewrite live_app, Hx, Hy.
  rewrite !(left_id_L ∅ _), insert_union_r by (apply live_None; [done|lia]).
  do 3 f_equal. cbn [span csize] in Hsp. lia.
Qed.

Lemma live_free_delete a l d r :
  sizes_ok l → sizes_ok r →
  live a (l ++ Free (Z.of_nat (length d)) :: r) = delete (a + span l + 32) (live a (l ++ Used d :: r)).
Proof.
  intros Hl Hr. rewrite !live_app. cbn [live]. rewrite delete_union, delete_insert_eq.
  rewrite !delete_id; [done|apply live_None; [done|lia]..].
Qed.

Lemma live_free_cons a n r : live a (Free n :: r) = live (a + 32 + n) r.
Proof. done. Qed.

Lemma live_coalesced a l n r : live a (coalesced l n r) = live a (l ++ Free n :: r).
Proof.
  assert (∀ k bs', live a (merge_prev l k bs') = live a (l ++ Free k :: bs')) as Hp.
  { intros k bs'. destruct l as [|c l _] using rev_ind; [done|].
    rewrite merge_prev_snoc, <-app_assoc, !(live_app a l). destruct c; [done|].
    cbn [app]. f_equal. rewrite !live_free_cons. f_equal. lia. }
  unfold coalesced. destruct r as [|[] r]; cbn [merge_next]; rewrite Hp; [done..|].
  rewrite !live_app, !live_free_cons. do 2 f_equal. lia.
Qed.

Lemma used_coalesced l n r : used (coalesced l n r) = used (l ++ Free n :: r).
Proof.
  assert (∀ k bs', used (merge_prev l k bs') = used (l ++ Free k :: bs')) as Hp.
  { intros k bs'. destruct l as [|c l _] using rev_ind; [done|].
    rewrite merge_prev_snoc, !used_app. destruct c; simpl; lia. }
  unfold coalesced. destruct r as [|[] r]; cbn [merge_next]; rewrite Hp, !used_app; done.
Qed.

(** Live objects lie inside the arena, aligned, and do not overlap. *)
Lemma live_disjoint a bs p q d e :
  sizes_ok bs → live a bs !! p = Some d → live a bs !! q = Some e → p < q →
  p + Z.of_nat (length d) + 32 ≤ q.
Proof.
  intros Hs Hp Hq Hlt. apply live_split in Hp as (l & r & -> & ->).
  apply Forall_app in Hs as [Hl [_ Hr]%Forall_cons_1]. rewrite live_app in Hq. cbn [live] in Hq.
  apply lookup_union_Some_raw in Hq as [Hq|[_ Hq]].
  - apply live_inside in Hq; [lia|done].
  - apply lookup_insert_Some in Hq as [[? _]|[_ Hq]]; [lia|].
    apply live_inside in Hq; [lia|done].
Qed.

(** ** The invariant *)

Record heap_ok (h : owheap_t) (m : memory) (bs : list cell) : Prop := {
  ok_init : hp_initialized h = true;
  ok_head : hp_head h = hp_arena h;
  ok_pos : 0 < hp_arena h;
  ok_size : hp_arena_size h = span bs;
  ok_32 : span bs < 2 ^ 32;
  ok_64 : hp_arena h + span bs < 2 ^ 64;
  ok_octets : octets (mem_bytes m);
  ok_seg : seg m (hp_arena h) 0 bs 0;
  ok_cons : bs ≠ [];
  ok_in_use : hp_bytes_in_use h = used bs;
  ok_peak : used bs ≤ hp_peak_bytes h
}.

Lemma ok_sizes h m bs : heap_ok h m bs → sizes_ok bs.
Proof. intros []. by eapply seg_sizes. Qed.

Lemma ok_nxt h m bs : heap_ok h m bs → hp_head h = nxt (hp_arena h) bs 0.
Proof. intros []. by destruct bs. Qed.

Lemma ok_fuel h m bs : heap_ok h m bs → (length bs < list_fuel h)%nat.
Proof.
  intros [? ? ? Hsz ? ? ? Hseg]. pose proof (seg_span _ _ _ _ _ Hseg).
  unfold list_fuel, sizeof_block. rewrite Hsz. zdm.
Qed.

(** ** The list walks *)

Definition fits (need : Z) (c : cell) : bool :=
  match c with Free n => need <=? n | Used _ => false end.

(** Reading the header of the first of the cells. *)
Lemma seg_tag m a pv c bs fin : seg m a pv (c :: bs) fin → tagged m a (csize c) (cflag c).
Proof. intros [[_ _ _ Hh _] _]. apply Hh. Qed.

Lemma seg_next m a pv c bs fin :
  seg m a pv (c :: bs) fin → get_next m a = Some (nxt (a + 32 + csize c) bs fin).
Proof. intros [[_ _ _ Hh _] _]. apply Hh. Qed.

Lemma first_fit_spec fuel m a pv bs need :
  seg m a pv bs 0 → 0 < a → (length bs ≤ fuel)%nat →
  (first_fit fuel m (nxt a bs 0) need = Some 0 ∧ Forall (λ c, fits need c = false) bs) ∨
  ∃ l n r, bs = l ++ Free n :: r ∧ Forall (λ c, fits need c = false) l ∧ need ≤ n ∧
    first_fit fuel m (nxt a bs 0) need = Some (a + span l).
Proof.
  revert fuel a pv. induction bs as [|c bs IH]; intros fuel a pv Hs Ha Hf.
  { left. by destruct fuel. }
  destruct fuel as [|fuel]; simpl in Hf; [lia|]. cbn [first_fit nxt].
  rewrite (proj2 (Z.eqb_neq a 0)) by lia.
  pose proof (seg_tag _ _ _ _ _ _ Hs) as T. pose proof (bk_size _ _ _ _ _ (proj1 Hs)).
  rewrite (tg_flags _ _ _ _ T), obind_Some, (tg_size _ _ _ _ T), obind_Some, free_flag_cell.
  replace (negb (is_free c) || (csize c <? need)) with (negb (fits need c)).
  2:{ destruct c; simpl; [done|]. by rewrite Z.leb_antisym, negb_involutive. }
  destruct (fits need c) eqn:Ef; cbn [negb].
  { right. destruct c as [|n]; [done|]. simpl in Ef. zbool.
    exists [], n, bs. split_and!; [done|done|done|]. simpl. f_equal. lia. }
  rewrite (seg_next _ _ _ _ _ _ Hs), obind_Some.
  destruct (IH fuel (a + 32 + csize c) a (proj2 Hs)) as [[E Hn]|(l & n & r & -> & Hl & Hn & E)];
    [lia|lia|..].
  - left. split; [done|by constructor].
  - right. exists (c :: l), n, r. split_and!; [done|by constructor|done|].
    rewrite E. simpl. f_equal. lia.
Qed.

Fixpoint free_cells (bs : list cell) : Z :=
  match bs with [] => 0 | c :: bs => (if is_free c then 1 else 0) + free_cells bs end.

Lemma count_blocks_spec fuel m a pv bs x y :
  seg m a pv bs 0 → 0 < a → (length bs ≤ fuel)%nat →
  0 ≤ x → 0 ≤ y → x + Z.of_nat (length bs) < 2 ^ 32 → y + Z.of_nat (length bs) < 2 ^ 32 →
  count_blocks fuel m (nxt a bs 0) x y = Some (x + Z.of_nat (length bs), y + free_cells bs).
Proof.
  revert fuel a pv x y. induction bs as [|c bs IH]; intros fuel a pv x y Hs Ha Hf Hx Hy Bx By.
  { destruct fuel; simpl; by rewrite !Z.add_0_r. }
  destruct fuel as [|fuel]; simpl in Hf; [lia|]. cbn [count_blocks nxt].
  rewrite (proj2 (Z.eqb_neq a 0)) by lia. pose proof (seg_tag _ _ _ _ _ _ Hs) as T.
  pose proof (bk_size _ _ _ _ _ (proj1 Hs)). cbn [length] in *.
  rewrite (tg_flags _ _ _ _ T), obind_Some, (seg_next _ _ _ _ _ _ Hs), obind_Some, free_flag_cell.
  rewrite u32_small by lia.
  destruct c; cbn [is_free csize free_cells] in *; rewrite ?(u32_small (y + 1)) by lia;
    rewrite (IH _ _ _ _ _ (proj2 Hs)) by (cbn [csize]; lia); do 2 f_equal; lia.
Qed.

(** ** Accounting *)

Lemma account_grow_ok h n :
  0 ≤ n → 0 ≤ hp_bytes_in_use h → hp_bytes_in_use h + n < 2 ^ 64 →
  heap_account_grow h n = h <| hp_bytes_in_use := hp_bytes_in_use h + n |>
    <| hp_peak_bytes := Z.max (hp_peak_bytes h) (hp_bytes_in_use h + n) |>.
Proof.
  intros. unfold heap_account_grow. simpl. rewrite u64_small by lia.
  case_if; destruct h; simpl in *; f_equal; lia.
Qed.

Lemma account_shrink_ok h n :
  0 ≤ n ≤ hp_bytes_in_use h → hp_bytes_in_use h < 2 ^ 64 →
  heap_account_shrink h n = h <| hp_bytes_in_use := hp_bytes_in_use h - n |>.
Proof.
  intros. unfold heap_account_shrink. rewrite u64_small by lia.
  by rewrite (proj2 (Z.leb_le _ _)) by lia.
Qed.

(** Handing [n] bytes back and taking them again changes nothing. *)
Lemma account_restore h n :
  0 ≤ n ≤ hp_bytes_in_use h → hp_bytes_in_use h < 2 ^ 64 →
  hp_bytes_in_use h ≤ hp_peak_bytes h →
  heap_account_grow (heap_account_shrink h n) n = h.
Proof.
  intros. rewrite account_shrink_ok, account_grow_ok by (simpl; lia).
  destruct h; simpl in *. f_equal; lia.
Qed.

(** The invariant only looks at some of the fields. *)
Lemma heap_ok_update h m bs h' m' bs' :
  heap_ok h m bs → hp_initialized h' = true → hp_arena h' = hp_arena h → hp_head h' = hp_head h →
  hp_arena_size h' = hp_arena_size h → span bs' = span bs → bs' ≠ [] →
  hp_bytes_in_use h' = used bs' → used bs' ≤ hp_peak_bytes h' →
  octets (mem_bytes m') → seg m' (hp_arena h) 0 bs' 0 → heap_ok h' m' bs'.
Proof.
  intros [? ? ? ? ? ? ? ? ? ? ?] Hi Ha Hh Hz Hsp Hc Hu Hp Ho Hs.
  constructor; rewrite ?Ha, ?Hh, ?Hz, ?Hsp; done.
Qed.

(** ** Initialisation *)

Lemma init_spec h0 m size :
  octets (mem_bytes m) → 0 < mem_base m → 0 ≤ size ≤ Z.of_nat (length (mem_bytes m)) →
  mem_base m + Z.of_nat (length (mem_bytes m)) < 2 ^ 64 →
  let skip := round8 (mem_base m) - mem_base m in
  owheap_init (Some h0) (Some m) size = Some (Some h0, Some m, false) ∧
    (size ≤ skip + 40 ∨ 2 ^ 32 ≤ size - skip) ∨
  ∃ h m', owheap_init (Some h0) (Some m) size = Some (Some h, Some m', true) ∧
    skip + 40 < size ∧ size - skip < 2 ^ 32 ∧ mem_base m' = mem_base m ∧
    heap_ok h m' [Free (size - skip - 32)].
Proof.
  intros Ho Hb Hsz Hmax. pose proof (round8_bounds (mem_base m)) as Hr8. cbv zeta.
  unfold owheap_init. destruct (decide (mem_base m + 7 < 2 ^ 64)).
  2:{ left. rewrite land_align by apply u64_range.
      assert (size ≤ u64 (u64 (mem_base m + (OWHEAP_ALIGN - 1)) / 8 * 8 - mem_base m)).
      { unfold u64, wrap, OWHEAP_ALIGN. zdm. }
      rewrite (proj2 (Z.leb_le _ _)) by done. split; [done|]. zdm. }
  rewrite land_align by apply u64_range. change (OWHEAP_ALIGN - 1) with 7.
  rewrite (u64_small (mem_base m + 7)) by lia. fold (round8 (mem_base m)).
  rewrite u64_small by lia. set (skip := round8 (mem_base m) - mem_base m) in *.
  change (sizeof_block + OWHEAP_ALIGN) with 40. case_if; [left; split; [done|lia]|].
  case_if; [left; split; [done|lia]|]. case_if; [left; split; [done|lia]|].
  right. change sizeof_block with 32. rewrite !(u32_small (size - skip)), u32_small by lia.
  destruct (write_tag m (round8 (mem_base m)) (size - skip - 32) OWHEAP_FLAG_FREE)
    as (m1 & E1 & T1 & S1); [unfold in_obj; lia|lia|done|]. rewrite E1.
  destruct (write_links m1 (round8 (mem_base m)) (size - skip - 32) OWHEAP_FLAG_FREE 0 0)
    as (m2 & m3 & E2 & E3 & H3 & S3); [done..|]. rewrite E2, obind_Some, E3, obind_Some.
  do 2 eexists. split; [done|]. split_and!; [lia|lia| |].
  { by rewrite (so_base _ _ _ _ S3), (so_base _ _ _ _ S1). }
  constructor; cbn [hp_arena hp_arena_size hp_head hp_initialized hp_bytes_in_use hp_peak_bytes
    span csize used]; [done..|lia|lia|lia|lia|by apply S3, S1| |done|done|done].
  split; [|done]. constructor; cbn [csize cflag nxt]; [|lia|apply round8_divide|done|done].
  do 2 (eapply in_obj_frame; [done|]). unfold in_obj. lia.
Qed.

(** ** Allocation *)

(** What allocation makes of a free cell of [n] bytes: the content [d] and the
    free rest. *)
Definition rest_cells (n need : Z) : list cell :=
  if n - need <? 40 then [] else [Free (n - need - 32)].
Definition taken (n need : Z) : Z := if n - need <? 40 then n else need.

Lemma carve_free n need :
  carve (Free n) need = Free (taken n need) :: rest_cells n need.
Proof. unfold carve, rest_cells, taken. cbn [csize]. by case_if. Qed.

Lemma span_rest n need : taken n need + span (rest_cells n need) = n.
Proof. unfold rest_cells, taken. case_if; simpl; lia. Qed.

Lemma live_rest a n need : live a (rest_cells n need) = ∅.
Proof. unfold rest_cells. by case_if. Qed.

Lemma used_rest n need : used (rest_cells n need) = 0.
Proof. unfold rest_cells. by case_if. Qed.

Definition alloc_result (h h' : owheap_t) (n : Z) : Prop :=
  h' = heap_account_grow (h <| hp_alloc_count := u64 (hp_alloc_count h + 1) |>) n.

(** Everything before the block the allocation took is as it was. *)
Lemma alloc_at h m l n r need :
  heap_ok h m (l ++ Free n :: r) → 0 < need ≤ n → (8 | need) →
  let b := hp_arena h + span l in
  ∃ m1 m2 d fl,
    heap_split m b need = Some m1 ∧ get_flags m1 b = Some fl ∧
    set_flags m1 b (Z.land fl (u32 (Z.lnot OWHEAP_FLAG_FREE))) = Some m2 ∧
    get_size m2 b = Some (taken n need) ∧ Z.of_nat (length d) = taken n need ∧
    octets (mem_bytes m2) ∧ mem_base m2 = mem_base m ∧
    seg m2 (hp_arena h) 0 (l ++ Used d :: rest_cells n need ++ r) 0.
Proof.
  intros Hok Hn H8. cbv zeta. destruct Hok as [Hi Hh Hp Hsz H32 H64 Ho Hs Hc Hu Hk].
  apply seg_app in Hs as [Hl Hs]. rewrite span_app in *.
  pose proof (seg_span _ _ _ _ _ Hl) as Hlen. pose proof (seg_span _ _ _ _ _ Hs) as Hlen'.
  destruct (heap_split_spec _ _ _ _ _ need Hs) as (m1 & E1 & Hs1 & S1); [lia|lia|lia|cbn [csize]; lia|done|].
  rewrite carve_free in Hs1. cbn [app] in Hs1.
  pose proof (tg_flags _ _ _ _ (seg_tag _ _ _ _ _ _ Hs1)) as F1. cbn [cflag] in F1.
  destruct (mark_used _ _ _ _ _ Hs1) as (m2 & d & E2 & Ed & Hs2 & S2); [unfold taken; case_if; lia|].
  pose proof (tg_size _ _ _ _ (seg_tag _ _ _ _ _ _ Hs2)) as Z2. cbn [csize] in Z2.
  exists m1, m2, d, 1. split_and!; [done|done|done|by rewrite Z2, Ed|done| | |].
  - by apply S2, S1.
  - by rewrite (so_base _ _ _ _ S2), (so_base _ _ _ _ S1).
  - apply seg_app. split; [|done]. cbn [nxt] in *.
    eapply seg_frame; [done|lia|]. eapply seg_frame; [done|lia|done].
Qed.

(** The allocation as a function of the cells. *)
Lemma alloc_spec h m bs size :
  heap_ok h m bs → 0 < size < 2 ^ 64 →
  (owheap_alloc (Some h) m size = Some (Some h, m, 0) ∧
     (0xFFFFFFF8 < size ∨ Forall (λ c, fits (round8 size) c = false) bs)) ∨
  ∃ l n r d h' m', bs = l ++ Free n :: r ∧ Forall (λ c, fits (round8 size) c = false) l ∧
    round8 size ≤ n ∧
    owheap_alloc (Some h) m size = Some (Some h', m', hp_arena h + span l + 32) ∧
    Z.of_nat (length d) = taken n (round8 size) ∧ mem_base m' = mem_base m ∧
    hp_arena h' = hp_arena h ∧
    heap_ok h' m' (l ++ (Used d :: rest_cells n (round8 size)) ++ r).
Proof.
  intros Hok Hsize. unfold owheap_alloc. rewrite (ok_init _ _ _ Hok). cbn [negb orb].
  rewrite (proj2 (Z.eqb_neq size 0)), heap_align_spec by lia.
  destruct (Z.leb_spec size 0xFFFFFFF8); [|left; split; [done|by left]].
  pose proof (round8_bounds size) as Hr. rewrite (proj2 (Z.eqb_neq _ 0)) by lia.
  rewrite (ok_nxt _ _ _ Hok). pose proof (ok_fuel _ _ _ Hok) as Hf.
  destruct (first_fit_spec (list_fuel h) m _ _ bs (round8 size) (ok_seg _ _ _ Hok))
    as [[E Hn]|(l & n & r & -> & Hl & Hn & E)]; [apply Hok|lia|..]; rewrite E, obind_Some.
  { left. split; [done|by right]. }
  right. pose proof (ok_pos _ _ _ Hok) as Hp.
  pose proof (ok_sizes _ _ _ Hok) as Hsz. apply Forall_app in Hsz as [Hszl [Hszn Hszr]%Forall_cons_1].
  pose proof (span_nonneg _ Hszl). rewrite (proj2 (Z.eqb_neq _ 0)) by lia.
  destruct (alloc_at _ _ _ _ _ (round8 size) Hok) as (m1 & m2 & d & fl & E1 & E2 & E3 & E4 & Ed & Ho & Hb & Hs);
    [lia|apply round8_divide|].
  rewrite E1, obind_Some, E2, obind_Some, E3, obind_Some, E4, obind_Some.
  pose proof (ok_in_use _ _ _ Hok) as Hu. pose proof (ok_32 _ _ _ Hok) as H32.
  pose proof (used_bounds _ (ok_sizes _ _ _ Hok)) as Hub.
  rewrite used_app in *. cbn [used] in *. pose proof (span_rest n (round8 size)) as Hsp.
  assert (span (l ++ (Used d :: rest_cells n (round8 size)) ++ r) = span (l ++ Free n :: r)) as Espan.
  { rewrite !span_app. cbn [span csize]. rewrite Ed. lia. }
  assert (0 ≤ taken n (round8 size) ≤ n) by (unfold taken; case_if; lia).
  assert (span (l ++ Free n :: r) = span l + (32 + n + span r)) as Esp by (by rewrite span_app).
  pose proof (span_nonneg _ Hszr).
  rewrite account_grow_ok by (simpl; rewrite ?Hu; lia).
  exists l, n, r, d. do 2 eexists. split_and!; [done..| |].
  { reflexivity. }
  eapply heap_ok_update; simpl; [done|apply Hok|done|done|done|done| | | |done|done].
  - by destruct l.
  - rewrite used_app, Hu. cbn [app used]. rewrite used_app, used_rest, Ed. lia.
  - rewrite used_app, Hu. cbn [app used]. rewrite used_app, used_rest, Ed. lia.
Qed.

(** ** Freeing *)

(** A live pointer passes the range check and leads to its header. *)
Lemma live_pointer h m l d r :
  heap_ok h m (l ++ Used d :: r) →
  let p := hp_arena h + span l + 32 in
  (p =? 0) = false ∧ (p <? hp_arena h) || (hp_arena h + hp_arena_size h <=? p) = false ∧
  heap_header p = hp_arena h + span l ∧
  tagged m (hp_arena h + span l) (Z.of_nat (length d)) 0 ∧ 0 < Z.of_nat (length d) ∧
  0 ≤ span l ∧ 0 ≤ span r ∧ Z.of_nat (length d) ≤ used (l ++ Used d :: r) ≤ span (l ++ Used d :: r).
Proof.
  intros Hok p. pose proof (ok_sizes _ _ _ Hok) as Hsz.
  apply Forall_app in Hsz as [Hl [_ Hr]%Forall_cons_1].
  pose proof (span_nonneg _ Hl). pose proof (span_nonneg _ Hr). pose proof (ok_pos _ _ _ Hok).
  pose proof (ok_seg _ _ _ Hok) as Hs. apply seg_app in Hs as [_ Hs].
  destruct (bk_data _ _ _ _ _ (proj1 Hs) d eq_refl) as [Hne _].
  assert (0 < Z.of_nat (length d)) by (destruct d; simpl in *; [done|lia]).
  pose proof (used_bounds _ Hl). pose proof (used_bounds _ Hr).
  rewrite (ok_size _ _ _ Hok), used_app, span_app. cbn [span used csize].
  split_and!; try (subst p; lia).
  - subst p. unfold heap_header, sizeof_block. lia.
  - by apply seg_tag in Hs.
Qed.

Lemma free_spec h m l d r :
  heap_ok h m (l ++ Used d :: r) →
  let p := hp_arena h + span l + 32 in
  ∃ h' m' k, owheap_free (Some h) m p = Some (Some h', m', true) ∧
    hp_arena h' = hp_arena h ∧ hp_arena_size h' = hp_arena_size h ∧
    hp_initialized h' = true ∧ mem_base m' = mem_base m ∧
    heap_ok h' m' (coalesced l (Z.of_nat (length d)) r) ∧ tagged m' (hp_arena h + span l) k 1.
Proof.
  intros Hok p. destruct (live_pointer _ _ _ _ _ Hok) as (E0 & Er & Eh & T & Hd & Hl & Hr & Hu).
  fold p in E0, Er, Eh. unfold owheap_free. rewrite (ok_init _ _ _ Hok), E0, Er, Eh. cbn [negb orb].
  rewrite (tg_magic _ _ _ _ T), obind_Some, Z.eqb_refl. cbn [negb].
  rewrite (tg_flags _ _ _ _ T), obind_Some. change (is_free_flag 0) with false. cbv iota.
  rewrite (tg_size _ _ _ _ T), obind_Some. change (Z.lor 0 OWHEAP_FLAG_FREE) with 1.
  pose proof (ok_in_use _ _ _ Hok) as Hin. pose proof (ok_32 _ _ _ Hok) as H32.
  rewrite account_shrink_ok by lia.
  pose proof (ok_seg _ _ _ Hok) as Hs. apply seg_app in Hs as [Hsl Hs].
  destruct (mark_free _ _ _ _ _ Hs) as (m1 & E1 & Hs1 & S1). rewrite E1, obind_Some.
  assert (seg m1 (hp_arena h) 0 (l ++ Free (Z.of_nat (length d)) :: r) 0) as Hs1'.
  { apply seg_app. split; [|done]. eapply seg_frame; [done|lia|done]. }
  pose proof (ok_64 _ _ _ Hok) as H64. rewrite span_app in H32, H64. cbn [span csize] in H32, H64.
  destruct (heap_coalesce_spec _ _ _ _ _ Hs1') as (m2 & k & E2 & Hs2 & S2 & T2);
    [apply Hok|rewrite span_app; simpl; lia..|].
  rewrite E2, obind_Some. do 2 eexists. exists k.
  split_and!; [done|done|done|apply Hok| | |done].
  { by rewrite (so_base _ _ _ _ S2), (so_base _ _ _ _ S1). }
  pose proof (ok_peak _ _ _ Hok) as Hpk.
  assert (used (coalesced l (Z.of_nat (length d)) r) =
    used (l ++ Used d :: r) - Z.of_nat (length d)) as Eu.
  { rewrite used_coalesced, !used_app. cbn [used]. lia. }
  eapply heap_ok_update; simpl; [done|apply Hok|done|done|done| | |lia|lia| |done].
  - rewrite span_coalesced, !span_app. cbn [span csize]. lia.
  - intros E%(f_equal span). rewrite span_coalesced, span_app in E. cbn [span csize] in E. lia.
  - by apply S2, S1, Hok.
Qed.

(** ** Writing into a live object *)

Lemma aget_bytes m a n d i :
  bytes_at m a n = Some d → 0 ≤ i < n →
  aget (mem_bytes m) (a + i - mem_base m) = d !! Z.to_nat i.
Proof.
  unfold bytes_at, aslice. intros Hd Hi. case_decide; [|done]. injection Hd as <-.
  rewrite lookup_take_lt, lookup_drop, aget_to_nat by lia. f_equal. lia.
Qed.

Lemma bytes_at_intro m a n d :
  in_obj m a n → Z.of_nat (length d) = n →
  (∀ i, 0 ≤ i < n → aget (mem_bytes m) (a + i - mem_base m) = d !! Z.to_nat i) →
  bytes_at m a n = Some d.
Proof.
  intros Ho Hl Hg. destruct (bytes_at_Some m a n Ho) as (e & E & He). rewrite E. f_equal.
  apply list_eq. intros i. destruct (decide (i < length e)%nat).
  - rewrite <-(Nat2Z.id i), <-Hg, <-(aget_bytes _ _ _ _ _ E) by lia. done.
  - rewrite !lookup_ge_None_2 by lia. done.
Qed.

Lemma bytes_at_in_obj m a n d : bytes_at m a n = Some d → in_obj m a n ∧ Z.of_nat (length d) = n.
Proof.
  intros E. assert (in_obj m a n) as Ho.
  { unfold bytes_at, aslice in E. case_decide; [|done]. unfold in_obj. lia. }
  split; [done|]. destruct (bytes_at_Some m a n Ho) as (e & E' & ?). congruence.
Qed.

Lemma load1 m a n d i v :
  bytes_at m a n = Some d → d !! i = Some v → load 1 m (a + Z.of_nat i) = Some v.
Proof.
  intros E Hv. destruct (bytes_at_in_obj _ _ _ _ E) as [(H1 & H2 & H3) Hn].
  pose proof (lookup_lt_Some _ _ _ Hv). unfold load. change (Z.of_nat 1) with 1.
  rewrite aslice_in by lia. rewrite obind_Some. f_equal.
  assert (aget (mem_bytes m) (a + Z.of_nat i - mem_base m) = Some v) as [_ Hg]%aget_Some.
  { rewrite (aget_bytes _ _ _ _ _ E), Nat2Z.id by lia. done. }
  rewrite (drop_lookup_cons _ _ _ Hg). change (Z.to_nat 1) with 1%nat. simpl. lia.
Qed.

Lemma store1 m a n d i v :
  bytes_at m a n = Some d → (i < length d)%nat → 0 ≤ v < 256 →
  ∃ m', store 1 m (a + Z.of_nat i) v = Some m' ∧ same_out (a + Z.of_nat i) 1 m m' ∧
    bytes_at m' a n = Some (<[i := v]> d).
Proof.
  intros E Hi Hv. destruct (bytes_at_in_obj _ _ _ _ E) as [Ho Hn].
  destruct (store_ok m 1 (a + Z.of_nat i) v) as (m' & E' & S & B).
  { eapply in_obj_sub; [done|lia..]. }
  exists m'. split_and!; [done..|]. cbn [le_bytes] in B. rewrite Z.mod_small in B by lia.
  apply bytes_at_intro; [by eapply in_obj_frame|by rewrite length_insert|].
  intros j Hj. destruct (decide (j = Z.of_nat i)) as [->|].
  - rewrite Nat2Z.id, list_lookup_insert_eq by lia.
    pose proof (aget_bytes _ _ _ _ 0 B ltac:(lia)) as G. rewrite Z.add_0_r in G. exact G.
  - rewrite list_lookup_insert_ne by lia. rewrite <-(aget_bytes _ _ _ _ _ E) by lia.
    rewrite (so_base _ _ _ _ S). apply S. lia.
Qed.

(** Only the content of one used cell changed. *)
Lemma seg_write m m' a l d d' r :
  seg m a 0 (l ++ Used d :: r) 0 → length d' = length d →
  same_out (a + span l + 32) (Z.of_nat (length d)) m m' →
  bytes_at m' (a + span l + 32) (Z.of_nat (length d)) = Some d' →
  seg m' a 0 (l ++ Used d' :: r) 0.
Proof.
  intros [Hl [Hb Hr]]%seg_app Hlen S B. apply seg_app. cbn [nxt seg csize] in *. rewrite Hlen.
  split; [eapply seg_frame; [done|lia|done]|].
  split; [|eapply seg_frame; [done|lia|done]].
  destruct Hb as [H1 H2 H3 H4 H5]. destruct (H5 d eq_refl) as [Hne _].
  constructor; cbn [csize cflag] in *; rewrite ?Hlen;
    [by eapply in_obj_frame|done|done|eapply header_frame; [done|lia|done]|].
  intros e [= <-]. split; [by destruct d, d'|done].
Qed.

Lemma heap_ok_write h m m' l d d' r :
  heap_ok h m (l ++ Used d :: r) → length d' = length d →
  same_out (hp_arena h + span l + 32) (Z.of_nat (length d)) m m' →
  bytes_at m' (hp_arena h + span l + 32) (Z.of_nat (length d)) = Some d' →
  heap_ok h m' (l ++ Used d' :: r).
Proof.
  intros Hok Hlen S B. eapply (heap_ok_update _ _ _ _ _ _ Hok);
    rewrite ?span_app, ?used_app; cbn [span used csize]; rewrite ?Hlen; try done.
  - apply Hok.
  - by destruct l.
  - rewrite (ok_in_use _ _ _ Hok), used_app. done.
  - etrans; [|apply (ok_peak _ _ _ Hok)]. by rewrite used_app.
  - apply S, Hok.
  - eapply seg_write; [apply Hok|done..].
Qed.

(** The copy loop between two disjoint objects. *)
Lemma copy_payload_spec m p q d e n :
  bytes_at m p (Z.of_nat (length d)) = Some d → bytes_at m q (Z.of_nat (length e)) = Some e →
  octets d → p + Z.of_nat (length d) ≤ q ∨ q + Z.of_nat (length e) ≤ p →
  n = Z.of_nat (length d) → (length d ≤ length e)%nat →
  ∃ m', copy_payload m p q n = Some m' ∧ same_out q (Z.of_nat (length e)) m m' ∧
    bytes_at m' q (Z.of_nat (length e)) = Some (d ++ drop (length d) e).
Proof.
  intros Bp Bq Hd Hdis -> Hle. unfold copy_payload. rewrite Nat2Z.id.
  destruct (for_up_inv (λ i m', ∃ k : nat, i = Z.of_nat k ∧ (k ≤ length d)%nat ∧
      same_out q (Z.of_nat (length e)) m m' ∧
      bytes_at m' q (Z.of_nat (length e)) = Some (take k d ++ drop k e))
    (length d) 0 (λ i m, b ← load 1 m (p + i); store 1 m (q + i) b) m)
    as (m' & E & k & Hk & _ & So & B).
  - exists 0%nat. split_and!; [done|lia|apply same_out_refl|done].
  - intros j m1 Hj (k & -> & Hk & So & B).
    destruct (lookup_lt_is_Some_2 d k) as [v Hv]; [lia|].
    destruct (lookup_lt_is_Some_2 e k) as [x Hx]; [lia|].
    rewrite (load1 m1 p (Z.of_nat (length d)) d k v); [|by rewrite (bytes_at_frame _ _ _ _ _ _ So) by lia|done].
    rewrite obind_Some.
    destruct (store1 _ _ _ _ k v B) as (m2 & E2 & S2 & B2).
    { rewrite length_app, length_take, length_drop. lia. }
    { exact (Forall_lookup_1 _ d k v Hd Hv). }
    exists m2. split; [done|]. exists (S k). split_and!; [lia|lia| |].
    + eapply same_out_trans; [done|]. eapply same_out_mono; [done|lia|lia].
    + rewrite B2, (drop_lookup_cons _ _ _ Hx), (take_S_r d k v) by done. f_equal.
      rewrite insert_app_r_alt by (rewrite length_take; lia).
      rewrite length_take, Nat.min_l, Nat.sub_diag by lia. simpl. by rewrite <-app_assoc.
  - assert (k = length d) as -> by lia. exists m'.
    split_and!; [done..|]. by rewrite firstn_all in B.
Qed.

(** ** The operations on the live objects *)

Lemma octets_bytes_at m a n d : octets (mem_bytes m) → bytes_at m a n = Some d → octets d.
Proof.
  unfold bytes_at, aslice. intros Ho Hd. case_decide; [|done]. injection Hd as <-.
  by apply Forall_take, Forall_drop.
Qed.

(** The content of a live object is in memory. *)
Lemma live_content h m bs p d :
  heap_ok h m bs → live (hp_arena h) bs !! p = Some d →
  bytes_at m p (Z.of_nat (length d)) = Some d ∧ octets d.
Proof.
  intros Hok (l & r & -> & ->)%live_split. pose proof (ok_seg _ _ _ Hok) as Hs.
  apply seg_app in Hs as [_ [Hb _]]. destruct (bk_data _ _ _ _ _ Hb d eq_refl) as [_ B].
  split; [done|]. eapply octets_bytes_at; [apply Hok|done].
Qed.

Lemma alloc_live h m bs size :
  heap_ok h m bs → 0 < size < 2 ^ 64 →
  (owheap_alloc (Some h) m size = Some (Some h, m, 0) ∧
     (0xFFFFFFF8 < size ∨ Forall (λ c, fits (round8 size) c = false) bs)) ∨
  ∃ h' m' p d bs', owheap_alloc (Some h) m size = Some (Some h', m', p) ∧ heap_ok h' m' bs' ∧
    hp_arena h' = hp_arena h ∧ 0 < p ∧ (8 | p) ∧ round8 size ≤ Z.of_nat (length d) ∧
    live (hp_arena h) bs !! p = None ∧
    live (hp_arena h) bs' = <[p := d]> (live (hp_arena h) bs) ∧
    ∃ l n r, bs = l ++ Free n :: r ∧ Forall (λ c, fits (round8 size) c = false) l ∧
      Z.of_nat (length d) = taken n (round8 size) ∧ bs' = l ++ (Used d :: rest_cells n (round8 size)) ++ r.
Proof.
  intros Hok Hsize. pose proof (ok_pos _ _ _ Hok) as Hpos.
  destruct (alloc_spec h m bs size Hok Hsize) as
    [?|(l & n & r & e & h1 & m1 & -> & Hl & Hn & E & He & Hbase & Ha & Hok1)]; [by left|right].
  pose proof (ok_sizes _ _ _ Hok) as Hsz.
  apply Forall_app in Hsz as [Hszl [Hn0 Hszr]%Forall_cons_1]. pose proof (span_nonneg _ Hszl).
  pose proof (span_rest n (round8 size)) as Hsp. do 5 eexists. split; [exact E|]. split; [exact Hok1|].
  split_and!; [done|lia| | | | |by exists l, n, r].
  - pose proof (ok_seg _ _ _ Hok) as Hs. apply seg_app in Hs as [_ [Hb _]].
    apply Z.divide_add_r; [apply Hb|by exists 4].
  - rewrite He. unfold taken. case_if; lia.
  - cbn [csize] in Hn0. rewrite live_app, live_free_cons. apply lookup_union_None.
    split; apply live_None; try done; lia.
  - apply (live_used_insert _ l e (rest_cells n (round8 size)) [Free n] r);
      [done| |done|intros; apply live_rest]. cbn [span csize]. rewrite He. lia.
Qed.

Lemma write_live h m m' bs p d d' :
  heap_ok h m bs → live (hp_arena h) bs !! p = Some d → length d' = length d →
  same_out p (Z.of_nat (length d)) m m' → bytes_at m' p (Z.of_nat (length d)) = Some d' →
  ∃ bs', heap_ok h m' bs' ∧ live (hp_arena h) bs' = <[p := d']> (live (hp_arena h) bs).
Proof.
  intros Hok Hp Hlen S B. apply live_split in Hp as (l & r & -> & ->).
  exists (l ++ Used d' :: r). split; [by eapply heap_ok_write|].
  pose proof (ok_sizes _ _ _ Hok) as Hsz. apply Forall_app in Hsz as [Hszl _].
  rewrite !live_app. cbn [live]. rewrite Hlen, insert_union_r by (apply live_None; [done|lia]).
  by rewrite insert_insert_eq.
Qed.

Lemma free_live h m bs p d :
  heap_ok h m bs → live (hp_arena h) bs !! p = Some d →
  ∃ h' m' bs' k, owheap_free (Some h) m p = Some (Some h', m', true) ∧ heap_ok h' m' bs' ∧
    hp_arena h' = hp_arena h ∧ live (hp_arena h) bs' = delete p (live (hp_arena h) bs) ∧
    tagged m' (heap_header p) k 1 ∧ ∃ l r, bs = l ++ Used d :: r ∧
      bs' = coalesced l (Z.of_nat (length d)) r.
Proof.
  intros Hok (l & r & -> & ->)%live_split.
  destruct (free_spec _ _ _ _ _ Hok) as (h' & m' & k & E & Ha & _ & _ & _ & Hok' & T).
  pose proof (ok_sizes _ _ _ Hok) as Hsz. apply Forall_app in Hsz as [Hszl [_ Hszr]%Forall_cons_1].
  exists h', m', (coalesced l (Z.of_nat (length d)) r), k.
  split_and!; [done|done|done| | |by exists l, r].
  - by rewrite live_coalesced, live_free_delete.
  - unfold heap_header, sizeof_block. by replace (hp_arena h + span l + 32 - 32) with (hp_arena h + span l) by lia.
Qed.
