(* ===== verification/OwheapClaims.v ===== *)
(** Resizing a block in place or by moving it, and the contract of the heap:
    allocation, freeing and resizing as operations on the live objects, and
    safety of every client that follows the rules. *)
From S2P Require Import Prelude Owheap OwheapSeg OwheapOps.

(** ** Resizing *)

(** What a used cell keeps when it is cut to [need] bytes. *)
Definition keep (e : list Z) (need : Z) : list Z :=
  if Z.of_nat (length e) - need <? 40 then e else take (Z.to_nat need) e.

Lemma carve_used e need :
  carve (Used e) need = Used (keep e need) :: rest_cells (Z.of_nat (length e)) need.
Proof. unfold carve, keep, rest_cells. cbn [csize]. by case_if. Qed.

Lemma keep_length e need :
  0 ≤ need ≤ Z.of_nat (length e) →
  Z.of_nat (length (keep e need)) = taken (Z.of_nat (length e)) need.
Proof. intros. unfold keep, taken. case_if; [done|]. rewrite length_take. lia. Qed.

Lemma taken_bounds n need : need ≤ n → need ≤ taken n need ≤ n.
Proof. intros. unfold taken. case_if; lia. Qed.

(** The two objects agree on their common length. *)
Definition same_prefix (d d' : list Z) : Prop :=
  take (length d `min` length d') d' = take (length d `min` length d') d.

Lemma keep_prefix d junk need : same_prefix d (keep (d ++ junk) need).
Proof.
  unfold same_prefix, keep. case_if.
  - by rewrite take_app_le by lia.
  - rewrite length_take, take_take, take_app_le; [f_equal|]; lia.
Qed.

(** Cutting the cell at [hp_arena h + span l], whose content has meanwhile
    become [e], and counting its new size. *)
Lemma resize_in_place h m l d r m1 e r' need :
  heap_ok h m (l ++ Used d :: r) →
  seg m1 (hp_arena h) 0 (l ++ Used e :: r') 0 → octets (mem_bytes m1) →
  span (l ++ Used e :: r') = span (l ++ Used d :: r) → used r' = used r →
  0 < need ≤ Z.of_nat (length e) → (8 | need) →
  let h1 := heap_account_shrink h (Z.of_nat (length d)) in
  ∃ m2, heap_split m1 (hp_arena h + span l) need = Some m2 ∧
    get_size m2 (hp_arena h + span l) = Some (taken (Z.of_nat (length e)) need) ∧
    heap_ok (heap_account_grow h1 (taken (Z.of_nat (length e)) need)) m2
      (l ++ carve (Used e) need ++ r') ∧
    hp_arena (heap_account_grow h1 (taken (Z.of_nat (length e)) need)) = hp_arena h.
Proof.
  intros Hok Hs Ho Hsp Hur Hn H8. cbv zeta.
  destruct (live_pointer _ _ _ _ _ Hok) as (_ & _ & _ & _ & Hd & Hl & Hr & Hu).
  pose proof (ok_in_use _ _ _ Hok) as Hin. pose proof (ok_32 _ _ _ Hok) as H32.
  pose proof (ok_64 _ _ _ Hok) as H64. pose proof (ok_pos _ _ _ Hok) as Hp.
  pose proof (ok_peak _ _ _ Hok) as Hpk.
  pose proof Hs as Hs'. apply seg_app in Hs' as [Hsl Hse].
  pose proof (seg_span _ _ _ _ _ (proj2 Hse)) as Hr'.
  rewrite <-Hsp in H32, H64. rewrite span_app in H32, H64. cbn [span csize] in H32, H64.
  destruct (heap_split_spec _ _ _ _ _ need Hse) as (m2 & E2 & Hs2 & S2);
    [lia|cbn [span csize]; lia..|done|].
  exists m2. split; [done|]. pose proof (taken_bounds (Z.of_nat (length e)) need).
  pose proof (ok_sizes _ _ _ Hok) as Hsz. apply Forall_app in Hsz as [Hszl [_ Hszr]%Forall_cons_1].
  pose proof (used_bounds _ Hszl). pose proof (used_bounds _ Hszr).
  rewrite used_app in Hu, Hin, Hpk. cbn [used] in Hu, Hin, Hpk.
  rewrite span_app in Hsp. rewrite (span_app l (Used d :: r)) in Hsp. cbn [span csize] in Hsp.
  rewrite account_shrink_ok, account_grow_ok by (simpl; lia).
  rewrite carve_used in *. cbn [app] in *. split_and!; [| |done].
  { pose proof (tg_size _ _ _ _ (seg_tag _ _ _ _ _ _ Hs2)) as T. cbn [csize] in T.
    by rewrite T, keep_length by lia. }
  pose proof (span_rest (Z.of_nat (length e)) need).
  eapply (heap_ok_update _ _ _ _ _ _ Hok); simpl; try done.
  - apply Hok.
  - rewrite !span_app. cbn [span csize]. rewrite span_app, keep_length by lia. lia.
  - by destruct l.
  - rewrite used_app. cbn [used]. rewrite used_app, used_rest, keep_length by lia. lia.
  - rewrite used_app. cbn [used]. rewrite used_app, used_rest, keep_length by lia. lia.
  - by apply S2.
  - apply seg_app. split; [|done]. cbn [nxt] in *. eapply seg_frame; [done|lia|done].
Qed.

(** The live objects after a resize in place. *)
Lemma live_resized a l d r e r' need :
  sizes_ok l → sizes_ok r → 0 ≤ need ≤ Z.of_nat (length e) →
  live a (l ++ Free (Z.of_nat (length e)) :: r') = live a (l ++ Free (Z.of_nat (length d)) :: r) →
  live a (l ++ carve (Used e) need ++ r') =
    <[a + span l + 32 := keep e need]> (delete (a + span l + 32) (live a (l ++ Used d :: r))).
Proof.
  intros Hl Hr Hn E. rewrite carve_used.
  rewrite (live_used_insert a l (keep e need) (rest_cells (Z.of_nat (length e)) need)
    [Free (Z.of_nat (length e))] r'); [|done| |done|intros; apply live_rest].
  - cbn [app]. by rewrite E, live_free_delete.
  - cbn [span csize]. rewrite keep_length by lia. pose proof (span_rest (Z.of_nat (length e)) need). lia.
Qed.

(** The outcome of a successful resize of the object [d] at [p]. *)
Definition resized (h : owheap_t) (bs : list cell) (p : Z) (d : list Z) (size : Z)
    (h' : owheap_t) (m' : memory) (p' : Z) : Prop :=
  ∃ d' bs', heap_ok h' m' bs' ∧ hp_arena h' = hp_arena h ∧ p' ≠ 0 ∧
    (p' = p ∨ live (hp_arena h) bs !! p' = None) ∧ size ≤ Z.of_nat (length d') ∧
    same_prefix d d' ∧
    live (hp_arena h) bs' = <[p' := d']> (delete p (live (hp_arena h) bs)).

(** Allocate, copy, free. *)
Lemma move_spec h m bs p d size :
  heap_ok h m bs → live (hp_arena h) bs !! p = Some d → 0 < size < 2 ^ 64 →
  Z.of_nat (length d) < round8 size → size ≤ 0xFFFFFFF8 →
  let run :=
    '(heap, m, fresh) ← owheap_alloc (Some h) m size;
    if fresh =? 0 then Some (heap, m, 0)
    else
      m ← copy_payload m p fresh (if Z.of_nat (length d) <? round8 size
                                   then Z.of_nat (length d) else round8 size);
      '(heap, m, _) ← owheap_free heap m p;
      Some (heap, m, fresh) in
  (run = Some (Some h, m, 0) ∧ Forall (λ c, fits (round8 size) c = false) bs) ∨
  ∃ h' m' p', run = Some (Some h', m', p') ∧ resized h bs p d size h' m' p'.
Proof.
  intros Hok Hp Hsize Hlt Hmax run. subst run. destruct (live_content _ _ _ _ _ Hok Hp) as [_ Hd].
  destruct (alloc_live h m bs size Hok Hsize) as
    [[-> Hn]|(h1 & m1 & q & e & bs1 & -> & Hok1 & Ha & Hq0 & _ & He & Hq & L1 & _)].
  { left. split; [done|]. destruct Hn; [lia|done]. }
  right. rewrite obind_Some, (proj2 (Z.eqb_neq _ 0)), (proj2 (Z.ltb_lt _ _)) by lia.
  pose proof (ok_sizes _ _ _ Hok1) as Hsz1. pose proof (round8_bounds size).
  assert (p ≠ q) as Hpq by congruence. rewrite <-Ha in L1 at 1.
  assert (live (hp_arena h1) bs1 !! p = Some d) as Hp1 by (by rewrite L1, lookup_insert_ne).
  assert (live (hp_arena h1) bs1 !! q = Some e) as Hq1 by (by rewrite L1, lookup_insert_eq).
  destruct (live_content _ _ _ _ _ Hok1 Hp1) as [Bp1 _].
  destruct (live_content _ _ _ _ _ Hok1 Hq1) as [Bq1 _].
  destruct (copy_payload_spec m1 p q d e (Z.of_nat (length d))) as (m2 & E2 & S2 & B2);
    [done|done|done| |done|lia|].
  { destruct (decide (p < q)).
    - left. pose proof (live_disjoint _ _ _ _ _ _ Hsz1 Hp1 Hq1). lia.
    - right. pose proof (live_disjoint _ _ _ _ _ _ Hsz1 Hq1 Hp1). lia. }
  rewrite E2, obind_Some.
  assert (length (d ++ drop (length d) e) = length e) as He' by (rewrite length_app, length_drop; lia).
  destruct (write_live _ _ _ _ _ _ _ Hok1 Hq1 He' S2 B2) as (bs2 & Hok2 & L2).
  destruct (free_live h1 m2 bs2 p d) as (h3 & m3 & bs3 & k & E3 & Hok3 & Ha3 & L3 & _);
    [done|by rewrite L2, lookup_insert_ne|]. rewrite E3, obind_Some.
  exists h3, m3, q. split; [done|]. exists (d ++ drop (length d) e), bs3.
  split_and!; [done|congruence|lia|by right|lia| |].
  - unfold same_prefix. by rewrite Nat.min_l, take_app_le by lia.
  - rewrite <-Ha at 1. rewrite L3, L2, L1, insert_insert_eq. by rewrite delete_insert_ne.
Qed.

(** Growing into the free successor. *)
Lemma grow_in_place h m l d n r need :
  heap_ok h m (l ++ Used d :: Free n :: r) →
  Z.of_nat (length d) < need ≤ Z.of_nat (length d) + 32 + n → (8 | need) →
  let b := hp_arena h + span l in
  let h1 := heap_account_shrink h (Z.of_nat (length d)) in
  ∃ m1 junk m2, absorb_next m b (b + 32 + Z.of_nat (length d)) (Z.of_nat (length d)) = Some m1 ∧
    heap_split m1 b need = Some m2 ∧
    get_size m2 b = Some (taken (Z.of_nat (length (d ++ junk))) need) ∧
    Z.of_nat (length junk) = 32 + n ∧
    heap_ok (heap_account_grow h1 (taken (Z.of_nat (length (d ++ junk))) need)) m2
      (l ++ carve (Used (d ++ junk)) need ++ r) ∧
    hp_arena (heap_account_grow h1 (taken (Z.of_nat (length (d ++ junk))) need)) = hp_arena h.
Proof.
  intros Hok Hn H8. cbv zeta.
  destruct (live_pointer _ _ _ _ _ Hok) as (_ & _ & _ & _ & Hd & Hl & Hr & Hu).
  pose proof (ok_pos _ _ _ Hok). pose proof (ok_32 _ _ _ Hok) as H32.
  pose proof (ok_64 _ _ _ Hok) as H64. rewrite span_app in H32, H64.
  pose proof (ok_seg _ _ _ Hok) as Hs. apply seg_app in Hs as [Hsl Hs].
  destruct (absorb_next_spec _ _ _ _ _ _ Hs) as (m1 & c' & E1 & Hex & Hs1 & S1 & _); [lia..|].
  cbn [csize] in E1. destruct c' as [e|]; [|done]. destruct Hex as (junk & -> & Hj).
  assert (span (l ++ Used (d ++ junk) :: r) = span (l ++ Used d :: Free n :: r)) as Hsp.
  { rewrite !span_app. cbn [span csize]. rewrite length_app. lia. }
  destruct (resize_in_place h m l d (Free n :: r) m1 (d ++ junk) r need Hok)
    as (m2 & E2 & G2 & Hok2 & A2); [| |done|done| |done|].
  - apply seg_app. split; [|done]. cbn [nxt] in *. eapply seg_frame; [done|lia|done].
  - by apply S1, Hok.
  - rewrite length_app. lia.
  - exists m1, junk, m2. split_and!; done.
Qed.

Lemma nxt_test x bs : 0 < x → nz (nxt x bs 0) = match bs with [] => false | _ => true end.
Proof. intros. unfold nz, nxt. destruct bs; [done|]. by rewrite (proj2 (Z.eqb_neq x 0)) by lia. Qed.

(** The test whether the successor is free and large enough. *)
Definition grow_room (d : list Z) (r : list cell) (need : Z) : bool :=
  match r with Free n :: _ => need <=? Z.of_nat (length d) + 32 + n | _ => false end.

Lemma grow_test h m l d r need :
  heap_ok h m (l ++ Used d :: r) →
  let b := hp_arena h + span l in
  ∃ nx, get_next m b = Some nx ∧
    (if nz nx then
       flags ← get_flags m nx;
       if is_free_flag flags then
         nsize ← get_size m nx;
         Some (need <=? u32 (u32 (Z.of_nat (length d) + sizeof_block) + nsize))
       else Some false
     else Some false) = Some (grow_room d r need) ∧
    (grow_room d r need = true → nx = b + 32 + Z.of_nat (length d)).
Proof.
  intros Hok. cbv zeta. destruct (live_pointer _ _ _ _ _ Hok) as (_ & _ & _ & _ & Hd & Hl & Hr & Hu).
  pose proof (ok_pos _ _ _ Hok). pose proof (ok_32 _ _ _ Hok) as H32. rewrite span_app in H32.
  pose proof (ok_seg _ _ _ Hok) as Hs. apply seg_app in Hs as [Hsl Hs].
  eexists. split; [apply (seg_next _ _ _ _ _ _ Hs)|]. cbn [csize]. rewrite nxt_test by lia.
  destruct Hs as [_ Hs]. cbn [csize] in Hs. unfold grow_room. destruct r as [|c r]; [done|]. cbn [nxt].
  pose proof (seg_tag _ _ _ _ _ _ Hs) as T. pose proof (bk_size _ _ _ _ _ (proj1 Hs)).
  rewrite (tg_flags _ _ _ _ T), obind_Some, free_flag_cell. destruct c as [|n]; [done|].
  cbn [is_free]. rewrite (tg_size _ _ _ _ T), obind_Some. cbn [span csize] in *.
  pose proof (seg_span _ _ _ _ _ (proj2 Hs)).
  change sizeof_block with 32. by rewrite (u32_small (_ + 32)), u32_small by lia.
Qed.

Lemma realloc_spec h m bs p d size :
  heap_ok h m bs → live (hp_arena h) bs !! p = Some d → 0 < size < 2 ^ 64 →
  (owheap_realloc (Some h) m p size = Some (Some h, m, 0) ∧
     (0xFFFFFFF8 < size ∨
      Z.of_nat (length d) < round8 size ∧ Forall (λ c, fits (round8 size) c = false) bs)) ∨
  ∃ h' m' p', owheap_realloc (Some h) m p size = Some (Some h', m', p') ∧
    resized h bs p d size h' m' p' ∧ (round8 size ≤ Z.of_nat (length d) → p' = p).
Proof.
  intros Hok Hp Hsize. pose proof Hp as Hlive. apply live_split in Hp as (l & r & -> & Ep).
  destruct (live_pointer _ _ _ _ _ Hok) as (E0 & Er & Eh & T & Hd & Hl & Hr & Hu).
  rewrite <-Ep in E0, Er, Eh. pose proof (ok_in_use _ _ _ Hok) as Hin.
  pose proof (ok_32 _ _ _ Hok). pose proof (ok_peak _ _ _ Hok). pose proof (ok_pos _ _ _ Hok).
  pose proof (ok_sizes _ _ _ Hok) as Hsz. apply Forall_app in Hsz as [Hszl [_ Hszr]%Forall_cons_1].
  unfold owheap_realloc. rewrite (ok_init _ _ _ Hok), E0, Er, Eh. cbn [negb].
  rewrite (proj2 (Z.eqb_neq size 0)), (tg_magic _ _ _ _ T), obind_Some, Z.eqb_refl by lia.
  cbn [negb]. rewrite (tg_flags _ _ _ _ T), obind_Some. change (is_free_flag 0) with false. cbv iota.
  rewrite heap_align_spec by lia.
  destruct (Z.leb_spec size 0xFFFFFFF8); [|left; split; [done|by left]].
  pose proof (round8_bounds size). rewrite (proj2 (Z.eqb_neq _ 0)) by lia.
  rewrite (tg_size _ _ _ _ T), obind_Some.
  destruct (Z.leb_spec (round8 size) (Z.of_nat (length d))) as [Hle|Hgt].
  - right. destruct (resize_in_place h m l d r m d r (round8 size) Hok)
      as (m2 & E2 & G2 & Hok2 & A2); [apply Hok|apply Hok|done|done|lia|apply round8_divide|].
    rewrite E2, obind_Some, G2, obind_Some. do 3 eexists. split; [done|]. split; [|done].
    exists (keep d (round8 size)). eexists. split; [exact Hok2|]. split_and!; [done|lia|by left| | |].
    + rewrite keep_length by lia. pose proof (taken_bounds _ _ Hle). lia.
    + pose proof (keep_prefix d [] (round8 size)) as Hk. by rewrite app_nil_r in Hk.
    + rewrite Ep. apply live_resized; [done|done|lia|done].
  - destruct (grow_test h m l d r (round8 size) Hok) as (nx & En & Eg & Enx).
    rewrite En, obind_Some, Eg, obind_Some. destruct (grow_room d r (round8 size)) eqn:Hg.
    + right. destruct r as [|[|n] r]; try done. cbn [grow_room] in Hg. zbool.
      destruct (grow_in_place h m l d n r (round8 size) Hok)
        as (m1 & junk & m2 & E1 & E2 & G2 & Hj & Hok2 & A2); [lia|apply round8_divide|].
      rewrite (Enx eq_refl), E1, obind_Some, E2, obind_Some, G2, obind_Some.
      do 3 eexists. split; [done|]. split; [|lia].
      exists (keep (d ++ junk) (round8 size)). eexists. split; [exact Hok2|].
      assert (round8 size ≤ Z.of_nat (length (d ++ junk))) by (rewrite length_app; lia).
      split_and!; [done|lia|by left| |apply keep_prefix|].
      * rewrite keep_length by lia. pose proof (taken_bounds (Z.of_nat (length (d ++ junk))) (round8 size)). lia.
      * rewrite Ep. apply live_resized; [done|done|lia|].
        rewrite !live_app, !live_free_cons, length_app. do 2 f_equal. lia.
    + rewrite account_restore by lia.
      destruct (move_spec h m _ p d size Hok Hlive Hsize Hgt) as [[E Hn]|(h' & m' & p' & E & Hres)];
        [lia|left; split; [exact E|by right]|right].
      exists h', m', p'. split; [exact E|]. split; [done|lia].
Qed.

(** ** The contract *)

(** ** Immediate coalescing *)

(** No two free cells are neighbours; [f] tells whether the cell before is free. *)
Fixpoint sep (f : bool) (bs : list cell) : bool :=
  match bs with [] => true | c :: bs => negb (f && is_free c) && sep (is_free c) bs end.
Definition last_free (f : bool) (bs : list cell) : bool := foldl (λ _ c, is_free c) f bs.

Lemma sep_app f l r : sep f (l ++ r) = sep f l && sep (last_free f l) r.
Proof.
  revert f. induction l as [|c l IH]; intros f; simpl; [done|].
  by rewrite IH, andb_assoc.
Qed.

Lemma sep_false f bs : sep f bs = true → sep false bs = true.
Proof. destruct bs as [|c bs]; [done|]. simpl. by intros [_ ?]%andb_true_iff. Qed.

Lemma last_free_snoc f l c : last_free f (l ++ [c]) = is_free c.
Proof. unfold last_free. by rewrite foldl_app. Qed.

Lemma sep_coalesced l d n r : sep false (l ++ Used d :: r) = true → sep false (coalesced l n r) = true.
Proof.
  rewrite sep_app. cbn [sep is_free]. rewrite andb_false_r. intros [Hl Hr]%andb_true_iff.
  simpl in Hr. unfold coalesced.
  assert (sep true (merge_next n r).2 = true) as Hr'.
  { destruct r as [|[] r]; simpl in *; try done. }
  destruct (merge_next n r) as [k r']. cbn [snd] in Hr'.
  destruct l as [|c l _] using rev_ind; [simpl; done|].
  rewrite merge_prev_snoc. rewrite sep_app in Hl |- *. apply andb_true_iff in Hl as [-> Hc].
  destruct c; cbn [sep is_free] in *; rewrite ?andb_true_r, ?andb_false_r in *; simpl; try done.
  destruct (last_free false l); [done|]. simpl in *. done.
Qed.

Lemma sep_alloc l d n need r :
  sep false (l ++ Free n :: r) = true →
  sep false (l ++ (Used d :: rest_cells n need) ++ r) = true.
Proof.
  rewrite !(sep_app false l). cbn [sep is_free app]. rewrite andb_false_r, andb_true_r.
  intros [-> [_ Hr]%andb_true_iff]%andb_true_iff. simpl. rewrite sep_app.
  unfold rest_cells. case_if; simpl; [by eapply sep_false|done].
Qed.

(** ** Allocation and freeing *)

Definition disjoint_from (p : Z) (d : list Z) (q : Z) (e : list Z) : Prop :=
  p + Z.of_nat (length d) ≤ q ∨ q + Z.of_nat (length e) ≤ p.

Lemma live_disjoint_from a bs p q d e :
  sizes_ok bs → live a bs !! p = Some d → live a bs !! q = Some e → p ≠ q → disjoint_from p d q e.
Proof.
  intros Hs Hp Hq Hne. unfold disjoint_from. destruct (decide (p < q)).
  - pose proof (live_disjoint _ _ _ _ _ _ Hs Hp Hq). lia.
  - pose proof (live_disjoint _ _ _ _ _ _ Hs Hq Hp). lia.
Qed.

(** Allocation hands out fresh memory: on a well-formed heap
    [owheap_alloc] returns; it returns NULL and changes nothing only if the
    size cannot be rounded to 32 bits or no free block is large enough.
    Otherwise the result is 8-byte aligned, lies inside the arena with at least
    the requested size, overlaps no live object, and the live objects are the
    old ones, with their contents, and the new one; free neighbours stay
    coalesced. *)
Theorem owheap_alloc_refines h m bs size :
  heap_ok h m bs → 0 < size < 2 ^ 64 →
  (owheap_alloc (Some h) m size = Some (Some h, m, 0) ∧
     (0xFFFFFFF8 < size ∨ Forall (λ c, fits (round8 size) c = false) bs)) ∨
  ∃ h' m' p d bs', owheap_alloc (Some h) m size = Some (Some h', m', p) ∧ heap_ok h' m' bs' ∧
    hp_arena h' = hp_arena h ∧ p ≠ 0 ∧ (8 | p) ∧ size ≤ Z.of_nat (length d) ∧
    hp_arena h ≤ p ∧ p + Z.of_nat (length d) ≤ hp_arena h + hp_arena_size h ∧
    (∀ q e, live (hp_arena h) bs !! q = Some e → disjoint_from p d q e) ∧
    live (hp_arena h) bs' = <[p := d]> (live (hp_arena h) bs) ∧
    (sep false bs = true → sep false bs' = true).
Proof.
  intros Hok Hsize. destruct (alloc_live h m bs size Hok Hsize) as
    [?|(h' & m' & p & d & bs' & E & Hok' & Ha & Hp & H8 & Hd & Hn & L & l & n & r & -> & _ & Hlen & ->)];
    [by left|right].
  pose proof (round8_bounds size). pose proof (ok_sizes _ _ _ Hok') as Hsz.
  assert (live (hp_arena h) (l ++ (Used d :: rest_cells n (round8 size)) ++ r) !! p = Some d) as Hpd.
  { by rewrite L, lookup_insert_eq. }
  pose proof (live_inside _ _ _ _ Hsz Hpd) as Hin.
  assert (hp_arena_size h = span (l ++ (Used d :: rest_cells n (round8 size)) ++ r)) as Ez.
  { rewrite (ok_size _ _ _ Hok), !span_app. cbn [span csize]. rewrite Hlen.
    pose proof (span_rest n (round8 size)). lia. }
  exists h', m', p, d. eexists. split; [exact E|]. split; [exact Hok'|].
  split_and!; [done|lia|done|lia|lia|lia| |done|apply sep_alloc].
  intros q e Hq. eapply live_disjoint_from; [done|done| |congruence].
  rewrite L, lookup_insert_ne by congruence. done.
Qed.

(** Freeing a live pointer removes exactly that object: [owheap_free]
    returns true, every other live object keeps its content, and if no two
    free blocks were neighbours before, none are afterwards; freeing the same
    pointer again is detected and changes nothing. *)
Theorem owheap_free_refines h m bs p d :
  heap_ok h m bs → live (hp_arena h) bs !! p = Some d →
  ∃ h' m' bs', owheap_free (Some h) m p = Some (Some h', m', true) ∧ heap_ok h' m' bs' ∧
    hp_arena h' = hp_arena h ∧
    live (hp_arena h) bs' = delete p (live (hp_arena h) bs) ∧
    (sep false bs = true → sep false bs' = true) ∧
    owheap_free (Some h') m' p = Some (Some h', m', false).
Proof.
  intros Hok Hp. pose proof Hp as Hp'. apply live_split in Hp' as (l0 & r0 & -> & Ep).
  destruct (live_pointer _ _ _ _ _ Hok) as (E0 & Er & Eh & _). rewrite <-Ep in E0, Er, Eh.
  destruct (free_live _ _ _ _ _ Hok Hp) as (h' & m' & bs' & k & E & Hok' & Ha & L & T & l & r & Ebs & ->).
  exists h', m', (coalesced l (Z.of_nat (length d)) r).
  split_and!; [done..|rewrite Ebs; by apply sep_coalesced|].
  assert (hp_arena_size h' = hp_arena_size h) as Ez.
  { rewrite (ok_size _ _ _ Hok'), (ok_size _ _ _ Hok), span_coalesced, Ebs, !span_app.
    cbn [span csize]. lia. }
  unfold owheap_free. rewrite (ok_init _ _ _ Hok'), E0, Ha, Ez, Er. cbn [negb orb].
  rewrite (tg_magic _ _ _ _ T), obind_Some, Z.eqb_refl. cbn [negb].
  by rewrite (tg_flags _ _ _ _ T), obind_Some.
Qed.

(** Resizing keeps the content: for a live pointer and a non-zero size
    [owheap_realloc] either returns NULL and changes nothing (the size cannot be
    rounded to 32 bits, or it exceeds the block and no free block is large
    enough), or returns a pointer (the same one whenever the block is already
    large enough) to an object of at least that size that agrees with the old
    one on their common length, while every other live object is untouched. *)
Theorem owheap_realloc_refines h m bs p d size :
  heap_ok h m bs → live (hp_arena h) bs !! p = Some d → 0 < size < 2 ^ 64 →
  (owheap_realloc (Some h) m p size = Some (Some h, m, 0) ∧
     (0xFFFFFFF8 < size ∨
      Z.of_nat (length d) < round8 size ∧ Forall (λ c, fits (round8 size) c = false) bs)) ∨
  ∃ h' m' p' d' bs', owheap_realloc (Some h) m p size = Some (Some h', m', p') ∧
    heap_ok h' m' bs' ∧ hp_arena h' = hp_arena h ∧ p' ≠ 0 ∧
    (p' = p ∨ live (hp_arena h) bs !! p' = None) ∧
    (round8 size ≤ Z.of_nat (length d) → p' = p) ∧
    size ≤ Z.of_nat (length d') ∧ same_prefix d d' ∧
    live (hp_arena h) bs' = <[p' := d']> (delete p (live (hp_arena h) bs)).
Proof.
  intros Hok Hp Hsize.
  destruct (realloc_spec h m bs p d size Hok Hp Hsize) as
    [?|(h' & m' & p' & E & (d' & bs' & Hok' & Ha & Hp0 & Hpp & Hd' & Hpre & L) & Hsame)];
    [by left|right].
  by exists h', m', p', d', bs'.
Qed.

(** The statistics are exact: [owheap_stats] reports the number of blocks
    and of free blocks of the list, and the bytes in use are the sizes of the
    live blocks, at most the peak and the arena. *)
Theorem owheap_stats_exact h m bs out :
  heap_ok h m bs →
  owheap_stats (Some h) m (Some out) =
    Some (Some (mk_heap_stats (span bs) (used bs) (hp_peak_bytes h) (hp_alloc_count h)
                  (hp_free_count h) (Z.of_nat (length bs)) (free_cells bs)), true) ∧
  used bs ≤ hp_peak_bytes h ∧ used bs ≤ span bs.
Proof.
  intros Hok. unfold owheap_stats. rewrite (ok_init _ _ _ Hok). cbn [negb].
  rewrite (ok_nxt _ _ _ Hok). pose proof (ok_fuel _ _ _ Hok). pose proof (ok_32 _ _ _ Hok).
  pose proof (span_nonneg _ (ok_sizes _ _ _ Hok)). pose proof (used_bounds _ (ok_sizes _ _ _ Hok)).
  rewrite (count_blocks_spec _ _ _ _ _ _ _ (ok_seg _ _ _ Hok)) by (try apply Hok; lia).
  rewrite obind_Some, (ok_size _ _ _ Hok), (ok_in_use _ _ _ Hok). split_and!; [done|apply Hok|lia].
Qed.

(** ** Clients

    A client keeps, for every pointer it holds, the bytes it believes to be
    there, as many as it asked for.  It may allocate, free and resize what it
    holds and store bytes into it. *)
Record client := mk_client {
  cl_heap : owheap_t;
  cl_mem : memory;
  cl_objs : gmap Z (list Z)
}.

Inductive request :=
  | RAlloc (size : Z)
  | RFree (p : Z)
  | RRealloc (p size : Z)
  | RStore (p : Z) (i : nat) (v : Z).

(** The rules: sizes are positive, and only what it holds is touched. *)
Definition legal (s : client) (r : request) : Prop :=
  match r with
  | RAlloc size => 0 < size < 2 ^ 64
  | RFree p => is_Some (cl_objs s !! p)
  | RRealloc p size => is_Some (cl_objs s !! p) ∧ 0 < size < 2 ^ 64
  | RStore p i v => (∃ d, cl_objs s !! p = Some d ∧ (i < length d)%nat) ∧ 0 ≤ v < 256
  end.

(** A resized object keeps what the client believes of the common part; of the
    bytes it did not have before the client believes what it finds. *)
Inductive client_step : request → client → client → Prop :=
  | cs_alloc h m c size h' m' p c' :
      owheap_alloc (Some h) m size = Some (Some h', m', p) →
      (if decide (p = 0) then c' = c
       else ∃ d, bytes_at m' p size = Some d ∧ c' = <[p := d]> c) →
      client_step (RAlloc size) (mk_client h m c) (mk_client h' m' c')
  | cs_free h m c p h' m' :
      owheap_free (Some h) m p = Some (Some h', m', true) →
      client_step (RFree p) (mk_client h m c) (mk_client h' m' (delete p c))
  | cs_realloc h m c p d size h' m' p' c' :
      c !! p = Some d →
      owheap_realloc (Some h) m p size = Some (Some h', m', p') →
      (if decide (p' = 0) then c' = c
       else let old := take (Z.to_nat size) d in
            ∃ new, bytes_at m' (p' + Z.of_nat (length old)) (size - Z.of_nat (length old)) = Some new ∧
              c' = <[p' := old ++ new]> (delete p c)) →
      client_step (RRealloc p size) (mk_client h m c) (mk_client h' m' c')
  | cs_store h m c p d i v m' :
      c !! p = Some d →
      store 1 m (p + Z.of_nat i) v = Some m' →
      client_step (RStore p i v) (mk_client h m c) (mk_client h m' (<[p := <[i := v]> d]> c)).

(** The states reachable from a freshly initialised heap by legal requests. *)
Inductive client_reach (m0 : memory) (size : Z) : client → Prop :=
  | cr_init h0 h m :
      owheap_init (Some h0) (Some m0) size = Some (Some h, Some m, true) →
      client_reach m0 size (mk_client h m ∅)
  | cr_step r s s' :
      client_reach m0 size s → legal s r → client_step r s s' → client_reach m0 size s'.

(** The client's belief against the live objects: the same pointers, and its
    bytes are the beginning of what they hold. *)
Definition agrees (c l : gmap Z (list Z)) : Prop :=
  dom c = dom l ∧ ∀ p d e, c !! p = Some d → l !! p = Some e → d `prefix_of` e.

Definition client_ok (s : client) : Prop :=
  ∃ bs, heap_ok (cl_heap s) (cl_mem s) bs ∧
    agrees (cl_objs s) (live (hp_arena (cl_heap s)) bs).

Lemma agrees_lookup c l p d :
  agrees c l → c !! p = Some d → ∃ e, l !! p = Some e ∧ d `prefix_of` e.
Proof.
  intros [Hdom Hpre] Hp. assert (p ∈ dom l) as [e He]%elem_of_dom.
  { rewrite <-Hdom. by apply elem_of_dom_2 in Hp. }
  eauto.
Qed.

Lemma agrees_insert c l p d e : agrees c l → d `prefix_of` e → agrees (<[p := d]> c) (<[p := e]> l).
Proof.
  intros [Hdom Hpre] Hde. split; [by rewrite !dom_insert_L, Hdom|]. intros q x y.
  rewrite !lookup_insert. case_decide; [naive_solver|eauto].
Qed.

Lemma agrees_delete c l p : agrees c l → agrees (delete p c) (delete p l).
Proof.
  intros [Hdom Hpre]. split; [by rewrite !dom_delete_L, Hdom|]. intros q x y.
  rewrite !lookup_delete. case_decide; [done|eauto].
Qed.

Lemma prefix_bytes m p d e :
  bytes_at m p (Z.of_nat (length e)) = Some e → d `prefix_of` e →
  bytes_at m p (Z.of_nat (length d)) = Some d.
Proof.
  intros B [k ->]. rewrite length_app in B.
  rewrite (bytes_at_take _ _ _ (Z.of_nat (length d)) _ B) by lia.
  by rewrite Nat2Z.id, take_app_length.
Qed.

Lemma bytes_prefix m p d e n :
  bytes_at m p (Z.of_nat (length e)) = Some e → bytes_at m p n = Some d →
  0 ≤ n ≤ Z.of_nat (length e) → d `prefix_of` e.
Proof.
  intros B Bd Hn. rewrite (bytes_at_take _ _ _ n _ B) in Bd by lia. injection Bd as <-.
  apply prefix_take.
Qed.

(** A new or moved object: the client records the bytes it asked for. *)
Lemma agrees_fresh h m bs c l p e size d :
  heap_ok h m bs → live (hp_arena h) bs = <[p := e]> l → agrees c l →
  0 < size ≤ Z.of_nat (length e) → bytes_at m p size = Some d →
  agrees (<[p := d]> c) (live (hp_arena h) bs).
Proof.
  intros Hok L Hag Hs Bd. rewrite L. apply agrees_insert; [done|].
  destruct (live_content h m bs p e Hok) as [Be _]; [by rewrite L, lookup_insert_eq|].
  eapply bytes_prefix; [done..|lia].
Qed.

Lemma bytes_rest m p e k n :
  bytes_at m p (Z.of_nat (length e)) = Some e → 0 ≤ k ≤ n → n ≤ Z.of_nat (length e) →
  bytes_at m (p + k) (n - k) = Some (take (Z.to_nat (n - k)) (drop (Z.to_nat k) e)).
Proof.
  unfold bytes_at, aslice. intros B Hk Hn. case_decide; [|done]. injection B as Ee.
  rewrite decide_True by lia. f_equal. rewrite <-Ee at 1.
  rewrite skipn_firstn_comm, drop_drop, take_take. f_equal; [lia|f_equal; lia].
Qed.

(** The part a resized object keeps, followed by what was found behind it. *)
Lemma resized_prefix d e e' size :
  d `prefix_of` e → same_prefix e e' → 0 < size ≤ Z.of_nat (length e') →
  let old := take (Z.to_nat size) d in
  old ++ take (Z.to_nat (size - Z.of_nat (length old))) (drop (length old) e') = take (Z.to_nat size) e'.
Proof.
  intros [k ->] Hsp Hs old. assert (length old = Z.to_nat size `min` length d)%nat as Ho by apply length_take.
  assert (old = take (length old) e') as Eo.
  { unfold same_prefix in Hsp. apply (f_equal (take (length old))) in Hsp.
    rewrite !take_take, length_app in Hsp. rewrite !Nat.min_l in Hsp by lia.
    rewrite Hsp, take_app_le by lia. unfold old at 1. rewrite Ho.
    destruct (decide (Z.to_nat size ≤ length d)%nat); [by rewrite Nat.min_l|].
    by rewrite Nat.min_r, !take_ge by lia. }
  rewrite Eo at 1. rewrite take_take_drop. f_equal. lia.
Qed.

Lemma alloc_step h m c bs size :
  heap_ok h m bs → agrees c (live (hp_arena h) bs) → 0 < size < 2 ^ 64 →
  ∃ h' m' c', client_step (RAlloc size) (mk_client h m c) (mk_client h' m' c') ∧ client_ok (mk_client h' m' c').
Proof.
  intros Hok Hag Hs. destruct (alloc_live h m bs size Hok Hs) as
    [[E _]|(h' & m' & p & e & bs' & E & Hok' & Ha & Hp & _ & He & _ & L & _)].
  { exists h, m, c. split; [by eapply cs_alloc|by exists bs]. }
  pose proof (round8_bounds size). rewrite <-Ha in L at 1.
  destruct (live_content h' m' bs' p e Hok') as [Be _]; [by rewrite L, lookup_insert_eq|].
  pose proof (bytes_at_take _ _ _ size _ Be ltac:(lia)) as Bd.
  eexists h', m', _. split.
  - eapply cs_alloc; [exact E|]. rewrite decide_False by lia. eexists. split; [exact Bd|done].
  - exists bs'. split; [done|]. eapply (agrees_fresh h' m' bs' c _ p e size); [done|exact L|exact Hag|lia|exact Bd].
Qed.

Lemma free_step h m c bs p :
  heap_ok h m bs → agrees c (live (hp_arena h) bs) → is_Some (c !! p) →
  ∃ h' m' c', client_step (RFree p) (mk_client h m c) (mk_client h' m' c') ∧ client_ok (mk_client h' m' c').
Proof.
  intros Hok Hag [d Hp]. destruct (agrees_lookup _ _ _ _ Hag Hp) as (e & He & _).
  destruct (free_live _ _ _ _ _ Hok He) as (h' & m' & bs' & k & E & Hok' & Ha & L & _).
  exists h', m', (delete p c). split; [by apply cs_free|]. exists bs'. split; [done|]. cbn [cl_heap cl_objs].
  rewrite Ha, L. by apply agrees_delete.
Qed.

Lemma realloc_step h m c bs p size :
  heap_ok h m bs → agrees c (live (hp_arena h) bs) → is_Some (c !! p) → 0 < size < 2 ^ 64 →
  ∃ h' m' c', client_step (RRealloc p size) (mk_client h m c) (mk_client h' m' c') ∧
    client_ok (mk_client h' m' c').
Proof.
  intros Hok Hag [d Hp] Hs. destruct (agrees_lookup _ _ _ _ Hag Hp) as (e & He & Hde).
  destruct (realloc_spec h m bs p e size Hok He Hs) as
    [[E _]|(h' & m' & q & E & (e' & bs' & Hok' & Ha & Hq & _ & Hlen & Hsp & L) & _)].
  { exists h, m, c. split; [by eapply cs_realloc|by exists bs]. }
  rewrite <-Ha in L at 1. destruct (live_content h' m' bs' q e' Hok') as [Be _]; [by rewrite L, lookup_insert_eq|].
  pose proof (resized_prefix d e e' size Hde Hsp ltac:(lia)) as Ho. cbv zeta in Ho.
  set (old := take (Z.to_nat size) d) in *.
  assert (Z.of_nat (length old) ≤ size) as Hol by (unfold old; rewrite length_take; lia).
  pose proof (bytes_rest _ _ _ (Z.of_nat (length old)) size Be ltac:(lia) ltac:(lia)) as Bn. rewrite Nat2Z.id in Bn.
  eexists h', m', _. split.
  - eapply cs_realloc; [done|exact E|]. rewrite decide_False by done. cbv zeta. eexists. split; [exact Bn|done].
  - exists bs'. split; [done|]. cbn [cl_heap cl_objs]. fold old. rewrite Ho, L.
    apply agrees_insert; [by apply agrees_delete|apply prefix_take].
Qed.

Lemma store_step h m c bs p d i v :
  heap_ok h m bs → agrees c (live (hp_arena h) bs) → c !! p = Some d → (i < length d)%nat → 0 ≤ v < 256 →
  ∃ h' m' c', client_step (RStore p i v) (mk_client h m c) (mk_client h' m' c') ∧
    client_ok (mk_client h' m' c').
Proof.
  intros Hok Hag Hp Hi Hv. destruct (agrees_lookup _ _ _ _ Hag Hp) as (e & He & [k ->]).
  destruct (live_content _ _ _ _ _ Hok He) as [B _].
  destruct (store1 _ _ _ _ i v B) as (m2 & E & S & B'); [rewrite length_app; lia|done|].
  rewrite length_app in *.
  destruct (write_live h m m2 bs p (d ++ k) (<[i:=v]> (d ++ k))) as (bs' & Hok' & L);
    [done|done|by rewrite length_insert| |by rewrite length_app|].
  { rewrite length_app. eapply same_out_mono; [done|lia|lia]. }
  eexists h, m2, _. split; [by eapply cs_store|]. exists bs'. split; [done|]. cbn [cl_heap cl_objs]. rewrite L.
  apply agrees_insert; [done|]. rewrite insert_app_l by lia. by exists k.
Qed.

(** Every legal request is answered, in one way, and keeps the belief true. *)
Lemma client_progress s r :
  client_ok s → legal s r → ∃ s', client_step r s s' ∧ client_ok s'.
Proof.
  intros (bs & Hok & Hag) Hr. destruct s as [h m c]. cbn [cl_heap cl_mem cl_objs] in *.
  destruct r as [size|p|p size|p i v]; cbn [legal cl_objs] in Hr.
  - destruct (alloc_step h m c bs size Hok Hag Hr) as (h' & m' & c' & ? & ?). by eexists.
  - destruct (free_step h m c bs p Hok Hag Hr) as (h' & m' & c' & ? & ?). by eexists.
  - destruct Hr as [Hp Hs]. destruct (realloc_step h m c bs p size Hok Hag Hp Hs) as (h' & m' & c' & ? & ?). by eexists.
  - destruct Hr as [(d & Hp & Hi) Hv].
    destruct (store_step h m c bs p d i v Hok Hag Hp Hi Hv) as (h' & m' & c' & ? & ?). by eexists.
Qed.

Lemma client_step_functional r s s1 s2 : client_step r s s1 → client_step r s s2 → s1 = s2.
Proof.
  intros H1 H2. destruct H1; inversion H2; subst; simplify_eq; f_equal.
  - destruct (decide _); [congruence|]. naive_solver.
  - destruct (decide _); [congruence|]. cbv zeta in *. naive_solver.
Qed.

(** What [owheap_init] makes of the arena: it is taken when more than 40 bytes
    and less than 4 GiB of it are left behind the alignment. *)
Lemma init_answers h0 m size :
  octets (mem_bytes m) → 0 < mem_base m → 0 ≤ size ≤ Z.of_nat (length (mem_bytes m)) →
  mem_base m + Z.of_nat (length (mem_bytes m)) < 2 ^ 64 →
  let skip := round8 (mem_base m) - mem_base m in
  skip + 40 < size → size - skip < 2 ^ 32 →
  ∃ h m', owheap_init (Some h0) (Some m) size = Some (Some h, Some m', true).
Proof.
  intros Ho Hb Hsz Hmax skip H1 H2.
  destruct (init_spec h0 m size Ho Hb Hsz Hmax) as [[_ ?]|(h & m' & E & _)]; [lia|by exists h, m'].
Qed.

(** An allocation is refused only when no free block of the list fits. *)
Lemma alloc_refused h m bs size h' m' :
  heap_ok h m bs → 0 < size < 2 ^ 64 → owheap_alloc (Some h) m size = Some (h', m', 0) →
  0xFFFFFFF8 < size ∨ Forall (λ c, fits (round8 size) c = false) bs.
Proof.
  intros Hok Hs E. destruct (alloc_live h m bs size Hok Hs) as [[_ ?]|(? & ? & p & ? & ? & E' & _ & _ & Hp & _)];
    [done|]. rewrite E in E'. simplify_eq. lia.
Qed.

Lemma reach_ok m0 size s :
  octets (mem_bytes m0) → 0 < mem_base m0 → 0 ≤ size ≤ Z.of_nat (length (mem_bytes m0)) →
  mem_base m0 + Z.of_nat (length (mem_bytes m0)) < 2 ^ 64 →
  client_reach m0 size s → client_ok s.
Proof.
  intros Ho Hb Hsz Hmax Hr. induction Hr as [h0 h m E|r s s' _ IH Hl Hst].
  - destruct (init_spec h0 m0 size Ho Hb Hsz Hmax) as [[E' _]|(h2 & m2 & E' & _ & _ & _ & Hok)];
      rewrite E in E'; [done|]. injection E' as -> ->.
    eexists. split; [exact Hok|]. split; [done|]. intros p d e. cbn [cl_objs]. by rewrite lookup_empty.
  - destruct (client_progress s r IH Hl) as (s2 & Hst2 & Hok2).
    by rewrite (client_step_functional _ _ _ _ Hst Hst2).
Qed.

(** Two objects of a client whose belief is true. *)
Lemma client_disjoint s p q d e :
  client_ok s → cl_objs s !! p = Some d → cl_objs s !! q = Some e → p ≠ q → disjoint_from p d q e.
Proof.
  intros (bs & Hok & Hag) Hp Hq Hne. pose proof (ok_sizes _ _ _ Hok) as Hs.
  destruct (agrees_lookup _ _ _ _ Hag Hp) as (d' & Hd' & Hpre%prefix_length).
  destruct (agrees_lookup _ _ _ _ Hag Hq) as (e' & He' & Hqre%prefix_length).
  pose proof (live_disjoint_from _ _ _ _ _ _ Hs Hd' He' Hne). unfold disjoint_from in *. lia.
Qed.

Lemma client_content s p d :
  client_ok s → cl_objs s !! p = Some d →
  bytes_at (cl_mem s) p (Z.of_nat (length d)) = Some d ∧ hp_arena (cl_heap s) ≤ p ∧
  p + Z.of_nat (length d) ≤ hp_arena (cl_heap s) + hp_arena_size (cl_heap s).
Proof.
  intros (bs & Hok & Hag) Hp. pose proof (ok_sizes _ _ _ Hok) as Hs.
  destruct (agrees_lookup _ _ _ _ Hag Hp) as (e & He & Hpre).
  destruct (live_content _ _ _ _ _ Hok He) as [B _].
  split; [by eapply prefix_bytes|]. apply live_inside in He; [|done].
  rewrite (ok_size _ _ _ Hok). apply prefix_length in Hpre. lia.
Qed.

(** [C3] Clients are safe: an arena of more than 40 bytes and less than 4 GiB
    behind the alignment is taken by [owheap_init], and from there, after
    whatever sequence of legal allocations, frees, resizes and byte stores
    (sizes of at least one byte, only pointers and bytes the client holds),
    every further legal request of the client is answered (no call faults or
    fails to return), an allocation with NULL only when it is over
    0xFFFFFFF8 bytes or no free block of the heap fits; the heap stays well
    formed, the memory always holds at each of the client's pointers the
    bytes the client stored or was given (a resized object the bytes it had
    before, up to the common length), and its objects lie inside the arena
    and do not overlap. *)
Theorem owheap_clients_safe m0 size s :
  octets (mem_bytes m0) → 0 < mem_base m0 → 0 ≤ size ≤ Z.of_nat (length (mem_bytes m0)) →
  mem_base m0 + Z.of_nat (length (mem_bytes m0)) < 2 ^ 64 →
  let skip := round8 (mem_base m0) - mem_base m0 in
  skip + 40 < size → size - skip < 2 ^ 32 →
  (∀ h0, ∃ h m, owheap_init (Some h0) (Some m0) size = Some (Some h, Some m, true)) ∧
  (client_reach m0 size s →
   client_ok s ∧
   (∀ r, legal s r → ∃ s', client_step r s s') ∧
   (∀ n h' m', 0 < n ≤ 0xFFFFFFF8 → owheap_alloc (Some (cl_heap s)) (cl_mem s) n = Some (h', m', 0) →
      ∃ bs, heap_ok (cl_heap s) (cl_mem s) bs ∧ Forall (λ c, fits (round8 n) c = false) bs) ∧
   (∀ p d, cl_objs s !! p = Some d →
      bytes_at (cl_mem s) p (Z.of_nat (length d)) = Some d ∧
      hp_arena (cl_heap s) ≤ p ∧
      p + Z.of_nat (length d) ≤ hp_arena (cl_heap s) + hp_arena_size (cl_heap s)) ∧
   (∀ p q d e, cl_objs s !! p = Some d → cl_objs s !! q = Some e → p ≠ q →
      disjoint_from p d q e)).
Proof.
  intros Ho Hb Hsz Hmax skip H1 H2. split; [intros h0; by apply init_answers|]. intros Hr.
  pose proof (reach_ok _ _ _ Ho Hb Hsz Hmax Hr) as Hok. split_and!.
  - done.
  - intros r Hl. destruct (client_progress s r Hok Hl) as (s' & ? & _). by exists s'.
  - intros n h' m' Hn E. destruct Hok as (bs & Hok & _). exists bs. split; [done|].
    destruct (alloc_refused _ _ _ n _ _ Hok ltac:(lia) E); [lia|done].
  - intros p d. by apply client_content.
  - intros p q d e. by apply client_disjoint.
Qed.

(** ** A concrete heap: 300 bytes at an unaligned address, one object of 20
    bytes allocated *)
Definition demo_arena : memory := mk_memory 4099 (replicate 300 170).
Definition blank_heap : owheap_t := mk_heap 0 0 0 0 0 0 0 false.

Definition demo_run : option (owheap_t * memory) :=
  '(h, m, _) ← owheap_init (Some blank_heap) (Some demo_arena) 300;
  m ← m; '(h, m, _) ← owheap_alloc h m 20; h ← h; Some (h, m).

Definition demo_heap : owheap_t := mk_heap 4104 295 4104 1 0 24 24 true.
Definition demo_mem : memory :=
  match demo_run with Some (_, m) => m | None => demo_arena end.
Definition demo_cells : list cell := [Used (replicate 24 170); Free 207].

Lemma demo_run_eq : demo_run = Some (demo_heap, demo_mem).
Proof. vm_compute. reflexivity. Qed.

Lemma demo_octets : octets (mem_bytes demo_arena).
Proof. apply Forall_replicate. lia. Qed.

Lemma octets_check l : forallb (λ b, (0 <=? b) && (b <? 256)) l = true → octets l.
Proof.
  intros H. apply Forall_forall. intros b Hb%list_elem_of_In.
  rewrite forallb_forall in H. apply H in Hb. lia.
Qed.

(** Facts about a concrete memory are computed. *)
Ltac computed := first
  [ vm_compute; repeat split; first [reflexivity | discriminate]
  | eexists (_ / 8); vm_compute; reflexivity ].

Lemma demo_block m a pv nx c :
  (8 | a) → in_obj m a (32 + csize c) → 0 ≤ csize c →
  get_size m a = Some (csize c) → get_flags m a = Some (cflag c) →
  get_magic m a = Some OWHEAP_MAGIC → get_next m a = Some nx → get_prev m a = Some pv →
  (∀ d, c = Used d → d ≠ [] ∧ bytes_at m (a + 32) (csize c) = Some d) → block_at m a pv nx c.
Proof.
  intros. constructor; [done..| |done]. constructor; [|done|done]. constructor; [|done..].
  eapply in_obj_sub; [done|lia..].
Qed.

Lemma demo_ok : heap_ok demo_heap demo_mem demo_cells.
Proof.
  constructor; try computed; [apply octets_check; vm_compute; reflexivity|].
  split; [|split; [|done]]; apply demo_block; try computed.
  - by exists 513.
  - intros d [= <-]. split; [done|]. vm_compute. reflexivity.
  - by exists 520.
Qed.

Lemma owheap_alloc_refines_witness :
  heap_ok demo_heap demo_mem demo_cells ∧
  ∃ h' m' p d bs', owheap_alloc (Some demo_heap) demo_mem 40 = Some (Some h', m', p) ∧
    heap_ok h' m' bs' ∧ (8 | p) ∧ 40 ≤ Z.of_nat (length d) ∧
    live 4104 bs' = <[p := d]> (live 4104 demo_cells) ∧ sep false bs' = true.
Proof.
  split; [exact demo_ok|].
  destruct (owheap_alloc_refines demo_heap demo_mem demo_cells 40 demo_ok)
    as [[E _]|(h' & m' & p & d & bs' & E & Hok & _ & _ & H8 & Hd & _ & _ & _ & L & Hs)];
    [lia|vm_compute in E; discriminate|].
  exists h', m', p, d, bs'. split_and!; [exact E|exact Hok|exact H8|exact Hd|exact L|].
  apply Hs. reflexivity.
Defined.

Lemma demo_live : live 4104 demo_cells !! 4136 = Some (replicate 24 170).
Proof. reflexivity. Qed.

Lemma owheap_free_refines_witness :
  ∃ h' m' bs', owheap_free (Some demo_heap) demo_mem 4136 = Some (Some h', m', true) ∧
    heap_ok h' m' bs' ∧ live 4104 bs' = delete 4136 (live 4104 demo_cells) ∧
    owheap_free (Some h') m' 4136 = Some (Some h', m', false).
Proof.
  destruct (owheap_free_refines demo_heap demo_mem demo_cells 4136 (replicate 24 170) demo_ok demo_live)
    as (h' & m' & bs' & E & Hok & _ & L & _ & E2).
  exists h', m', bs'. exact (conj E (conj Hok (conj L E2))).
Defined.

Lemma owheap_realloc_refines_witness :
  ∃ h' m' p' d' bs', owheap_realloc (Some demo_heap) demo_mem 4136 100 = Some (Some h', m', p') ∧
    heap_ok h' m' bs' ∧ 100 ≤ Z.of_nat (length d') ∧ same_prefix (replicate 24 170) d'.
Proof.
  destruct (owheap_realloc_refines demo_heap demo_mem demo_cells 4136 (replicate 24 170) 100
    demo_ok demo_live)
    as [[E _]|(h' & m' & p' & d' & bs' & E & Hok & _ & _ & _ & _ & Hd & Hp & _)];
    [lia|vm_compute in E; discriminate|].
  exists h', m', p', d', bs'. exact (conj E (conj Hok (conj Hd Hp))).
Defined.

Lemma owheap_stats_exact_witness :
  owheap_stats (Some demo_heap) demo_mem (Some (mk_heap_stats 0 0 0 0 0 0 0)) =
    Some (Some (mk_heap_stats 295 24 24 1 0 2 1), true).
Proof.
  destruct (owheap_stats_exact demo_heap demo_mem demo_cells (mk_heap_stats 0 0 0 0 0 0 0) demo_ok)
    as [E _]. exact E.
Defined.

(** The client then stores a byte, allocates a second object and has the first
    one resized, which moves it. *)
Definition demo_client : client :=
  mk_client demo_heap demo_mem (<[4136 := replicate 20 170]> ∅).

Definition moved_run : option (owheap_t * memory * Z) :=
  m ← store 1 demo_mem 4138 7;
  '(h, m, _) ← owheap_alloc (Some demo_heap) m 8;
  '(h, m, p) ← owheap_realloc h m 4136 40; h ← h; Some (h, m, p).
Definition moved_heap : owheap_t := match moved_run with Some (h, _, _) => h | None => demo_heap end.
Definition moved_mem : memory := match moved_run with Some (_, m, _) => m | None => demo_mem end.
Definition moved_bytes : list Z := [170; 170; 7] ++ replicate 37 170.
Definition moved_client : client :=
  mk_client moved_heap moved_mem (<[4232 := moved_bytes]> (<[4192 := replicate 8 170]> ∅)).

Lemma demo_reach : client_reach demo_arena 300 demo_client.
Proof.
  destruct (owheap_init (Some blank_heap) (Some demo_arena) 300) as [[[[h|] [m|]] []]|] eqn:E;
    try (vm_compute in E; discriminate).
  eapply (cr_step _ _ (RAlloc 20)); [eapply cr_init; exact E|cbn; lia|].
  vm_compute in E. injection E as <- <-.
  eapply (cs_alloc _ _ _ 20 _ _ 4136); [vm_compute; reflexivity|].
  rewrite decide_False by lia. eexists. split; [vm_compute; reflexivity|reflexivity].
Qed.

Lemma moved_reach : client_reach demo_arena 300 moved_client.
Proof.
  eapply (cr_step _ _ (RRealloc 4136 40)).
  - eapply (cr_step _ _ (RAlloc 8)).
    + eapply (cr_step _ _ (RStore 4136 2 7)); [exact demo_reach| |].
      * split; [|lia]. exists (replicate 20 170). split; [reflexivity|cbn; lia].
      * eapply (cs_store _ _ _ _ (replicate 20 170)); [reflexivity|vm_compute; reflexivity].
    + cbn; lia.
    + eapply (cs_alloc _ _ _ 8 _ _ 4192); [vm_compute; reflexivity|].
      rewrite decide_False by lia. eexists. split; [vm_compute; reflexivity|reflexivity].
  - split; [|lia]. eexists. vm_compute. reflexivity.
  - eapply (cs_realloc _ _ _ 4136 (<[2%nat := 7]> (replicate 20 170)) 40 _ _ 4232);
      [vm_compute; reflexivity|vm_compute; reflexivity|].
    rewrite decide_False by lia. exists (replicate 20 170). split; [vm_compute; reflexivity|].
    apply map_eq. intros q. vm_compute moved_bytes. vm_compute. by destruct q.
Qed.

Lemma owheap_clients_safe_witness :
  client_reach demo_arena 300 moved_client ∧ client_ok moved_client ∧
  bytes_at (cl_mem moved_client) 4232 (Z.of_nat (length moved_bytes)) = Some moved_bytes.
Proof.
  split; [exact moved_reach|].
  destruct (owheap_clients_safe demo_arena 300 moved_client demo_octets) as [_ (Hok & _ & _ & Hb & _)];
    [reflexivity|vm_compute; split; discriminate|reflexivity|reflexivity|reflexivity|exact moved_reach|].
  split; [exact Hok|].
  destruct (Hb 4232 moved_bytes) as [B _]; [reflexivity|].
  exact B.
Defined.

(** A shrinking resize leaves its remainder uncoalesced: the free rest of the
    object and the free block behind it stay separate. *)
Definition shrink_run : option (Z * Z) :=
  '(h, m, p) ← owheap_alloc (Some demo_heap) demo_mem 100;
  '(h, m, _) ← owheap_realloc h m p 8;
  '(s, _) ← owheap_stats h m (Some (mk_heap_stats 0 0 0 0 0 0 0));
  s ← s; Some (hs_block_count s, hs_free_block_count s).

Lemma owheap_shrink_uncoalesced : shrink_run = Some (4, 2).
Proof. vm_compute. reflexivity. Qed.
