(* ===== verification/Tcpcore.v ===== *)
(** The TCP transport core (src/Drivers/tcpcore/tcpcore.c, tcpcore.h): static
    connection and listener tables, segment construction with checksum,
    stop-and-wait retransmission, the connection state machine and the timers.

    A [tcp_conn_t *] is the index of its slot in the table.  Headers are read
    and written through the bytes of a buffer with the layout of the packed
    [tcp_header_t] on a little-endian machine.  The IP layer below is the
    transmit hook: a function pointer interpreted by the section variable
    [call_ip_tx] on a world state [W]; a hook that re-enters the core is
    outside the model. *)
From S2P Require Import Prelude.

(** ** Constants *)
Definition TCP_OK : Z := 0x00000000.
Definition TCP_ERR_PARAM : Z := 0x00000001.
Definition TCP_ERR_NOT_READY : Z := 0x00000002.
Definition TCP_ERR_NO_CONN : Z := 0x00000003.
Definition TCP_ERR_NO_SPACE : Z := 0x00000004.
Definition TCP_ERR_AGAIN : Z := 0x00000005.
Definition TCP_ERR_FULL : Z := 0x00000006.
Definition TCP_ERR_BAD_PACKET : Z := 0x00000007.
Definition TCP_ERR_CLOSED : Z := 0x00000008.

Definition TCP_FIN : Z := 0x01.
Definition TCP_SYN : Z := 0x02.
Definition TCP_RST : Z := 0x04.
Definition TCP_PSH : Z := 0x08.
Definition TCP_ACK : Z := 0x10.

Definition TCP_PROTO : Z := 6.
Definition TCP_HDR_LEN : Z := 20.
Definition TCP_MSS : Z := 1460.
Definition TCP_IP_ADDR_ANY : Z := 0.

Definition TCP_MAX_CONNS : Z := 8.
Definition TCP_MAX_LISTENERS : Z := 4.
Definition TCP_RXBUF_SIZE : Z := 4096.

Definition TCP_INITIAL_RTO : Z := 60.
Definition TCP_MAX_RTO : Z := 1000.
Definition TCP_TIME_WAIT_TICKS : Z := 500.

(** ** Data *)
Inductive tcp_state_t :=
  | TCP_STATE_CLOSED | TCP_STATE_LISTEN | TCP_STATE_SYN_SENT | TCP_STATE_SYN_RCVD
  | TCP_STATE_ESTABLISHED | TCP_STATE_FIN_WAIT_1 | TCP_STATE_FIN_WAIT_2
  | TCP_STATE_CLOSE_WAIT | TCP_STATE_CLOSING | TCP_STATE_LAST_ACK | TCP_STATE_TIME_WAIT.
#[export] Instance tcp_state_eq_dec : EqDecision tcp_state_t.
Proof. solve_decision. Defined.

Record tcp_conn_t := mk_conn {
  cn_state : tcp_state_t;
  cn_used : bool;
  cn_passive : bool;
  cn_accepted : bool;
  cn_tx_pending : bool;
  cn_local_ip : Z;
  cn_remote_ip : Z;
  cn_local_port : Z;
  cn_remote_port : Z;
  cn_snd_una : Z;
  cn_snd_nxt : Z;
  cn_snd_wnd : Z;
  cn_rcv_nxt : Z;
  cn_rcv_wnd : Z;
  cn_iss : Z;
  cn_irs : Z;
  cn_rto : Z;
  cn_rto_timer : Z;
  cn_time_wait_timer : Z;
  cn_tx_seq : Z;
  cn_tx_end_seq : Z;
  cn_tx_len : Z;
  cn_mss : Z;
  cn_rx_len : Z;
  cn_rx_buf : list Z;                    (* [TCP_RXBUF_SIZE] *)
  cn_tx_buf : list Z                     (* [TCP_HDR_LEN + TCP_MSS] *)
}.
#[export] Instance eta_conn : Eta tcp_conn_t := λ c,
  mk_conn (cn_state c) (cn_used c) (cn_passive c) (cn_accepted c) (cn_tx_pending c)
    (cn_local_ip c) (cn_remote_ip c) (cn_local_port c) (cn_remote_port c) (cn_snd_una c)
    (cn_snd_nxt c) (cn_snd_wnd c) (cn_rcv_nxt c) (cn_rcv_wnd c) (cn_iss c) (cn_irs c)
    (cn_rto c) (cn_rto_timer c) (cn_time_wait_timer c) (cn_tx_seq c) (cn_tx_end_seq c)
    (cn_tx_len c) (cn_mss c) (cn_rx_len c) (cn_rx_buf c) (cn_tx_buf c).

Record tcp_listener_t := mk_listener {
  li_used : bool;
  li_local_ip : Z;
  li_local_port : Z;
  li_backlog : Z;
  li_pending : Z
}.
#[export] Instance eta_listener : Eta tcp_listener_t := λ l,
  mk_listener (li_used l) (li_local_ip l) (li_local_port l) (li_backlog l) (li_pending l).

Record tcpcore_t := mk_core {
  tc_initialized : bool;
  tc_local_ip : Z;
  tc_iss_seed : Z;                       (* uint16_t *)
  tc_ip_tx : Z;                          (* function pointer, 0 is NULL *)
  tc_ip_ctx : Z;                         (* void * *)
  tc_conns : list tcp_conn_t;            (* [TCP_MAX_CONNS] *)
  tc_listeners : list tcp_listener_t;    (* [TCP_MAX_LISTENERS] *)
  tc_scratch : list Z                    (* [TCP_HDR_LEN + TCP_MSS] *)
}.
#[export] Instance eta_core : Eta tcpcore_t := λ c,
  mk_core (tc_initialized c) (tc_local_ip c) (tc_iss_seed c) (tc_ip_tx c) (tc_ip_ctx c)
    (tc_conns c) (tc_listeners c) (tc_scratch c).

(** [ow_memset(x, 0, sizeof *x)] of each of the structures. *)
Definition zero_conn : tcp_conn_t :=
  mk_conn TCP_STATE_CLOSED false false false false 0 0 0 0 0 0 0 0 0 0 0 0 0 0 0 0 0 0 0
    (replicate (Z.to_nat TCP_RXBUF_SIZE) 0) (replicate (Z.to_nat (TCP_HDR_LEN + TCP_MSS)) 0).
Definition zero_listener : tcp_listener_t := mk_listener false 0 0 0 0.
Definition zero_core : tcpcore_t :=
  mk_core false 0 0 0 0 (replicate (Z.to_nat TCP_MAX_CONNS) zero_conn)
    (replicate (Z.to_nat TCP_MAX_LISTENERS) zero_listener)
    (replicate (Z.to_nat (TCP_HDR_LEN + TCP_MSS)) 0).

(** ** Byte order and header fields *)
Definition ow_bswap16 (v : Z) : Z := u16 (Z.lor (u16 (Z.shiftl v 8)) (u16 (Z.shiftr v 8))).
Definition ow_bswap32 (v : Z) : Z :=
  Z.lor (Z.lor (Z.lor (u32 (Z.shiftl (Z.land v 0x000000FF) 24))
                      (u32 (Z.shiftl (Z.land v 0x0000FF00) 8)))
               (Z.shiftr (Z.land v 0x00FF0000) 8))
        (Z.shiftr (Z.land v 0xFF000000) 24).

(** A field of [n] bytes at its offset in the packed header. *)
Definition get_field (n : nat) (buf : list Z) (off : Z) : option Z :=
  bs ← aslice buf off (Z.of_nat n); Some (le bs).
Definition put_field (n : nat) (buf : list Z) (off v : Z) : option (list Z) :=
  awrite buf off (le_bytes n v).

(** The header all segments are built with, the checksum field zero. *)
Definition put_header (buf : list Z) (src_port dst_port seq ack flags window : Z)
    : option (list Z) :=
  buf ← put_field 2 buf 0 (ow_bswap16 src_port);
  buf ← put_field 2 buf 2 (ow_bswap16 dst_port);
  buf ← put_field 4 buf 4 (ow_bswap32 seq);
  buf ← put_field 4 buf 8 (ow_bswap32 ack);
  buf ← put_field 1 buf 12 (u8 (Z.shiftl (TCP_HDR_LEN / 4) 4));
  buf ← put_field 1 buf 13 flags;
  buf ← put_field 2 buf 14 window;
  buf ← put_field 2 buf 16 0;
  put_field 2 buf 18 0.

(** ** Sequence arithmetic *)
Definition i32 (z : Z) : Z := if z <? 2 ^ 31 then z else z - 2 ^ 32.
Definition tcp_seq_lt (a b : Z) : bool := i32 (u32 (a - b)) <? 0.
Definition tcp_seq_le (a b : Z) : bool := i32 (u32 (a - b)) <=? 0.
Definition tcp_seq_gt (a b : Z) : bool := 0 <? i32 (u32 (a - b)).
Definition tcp_seq_ge (a b : Z) : bool := 0 <=? i32 (u32 (a - b)).

(** ** Checksum *)
Definition be16 (hi lo : Z) : Z := Z.lor (Z.shiftl hi 8) lo.

Definition tcp_sum_addr (sum addr : Z) : Z :=
  let p := le_bytes 4 addr in
  let b i := nth i p 0 in
  let sum := u32 (sum + be16 (b 0%nat) (b 1%nat)) in
  u32 (sum + be16 (b 2%nat) (b 3%nat)).

(** [while ((sum >> 16) != 0) sum = (sum & 0xFFFF) + (sum >> 16)]; a 32-bit sum
    needs at most three rounds. *)
Fixpoint fold_carries (fuel : nat) (sum : Z) : option Z :=
  if negb (nz (Z.shiftr sum 16)) then Some sum
  else
    match fuel with
    | O => None
    | S fuel => fold_carries fuel (u32 (Z.land sum 0xFFFF + Z.shiftr sum 16))
    end.

Definition tcp_checksum (src dst : Z) (seg : list Z) (len : Z) : option Z :=
  let sum := tcp_sum_addr 0 src in
  let sum := tcp_sum_addr sum dst in
  let sum := u32 (sum + TCP_PROTO) in
  let sum := u32 (sum + len) in
  let words := len / 2 in
  sum ← for_up (Z.to_nat words) 0
          (λ k sum, hi ← aget seg (2 * k); lo ← aget seg (2 * k + 1);
                    Some (u32 (sum + be16 hi lo))) sum;
  sum ← (if 2 * words <? len then
           b ← aget seg (2 * words); Some (u32 (sum + Z.shiftl b 8))
         else Some sum);
  sum ← fold_carries 3 sum;
  Some (u16 (Z.lnot sum)).

(** ** Connection table helpers *)
Definition tcp_conn_at (core : tcpcore_t) (id : Z) : option (option Z) :=
  if (id <=? 0) || (TCP_MAX_CONNS <? id) then Some None
  else
    c ← aget (tc_conns core) (id - 1);
    Some (if cn_used c then Some (id - 1) else None).

Definition tcp_conn_id (i : Z) : Z := i + 1.

Definition tcp_alloc_conn (core : tcpcore_t) : option (option Z) :=
  find_up (Z.to_nat TCP_MAX_CONNS) 0 (tc_conns core) (λ c, negb (cn_used c)).

Definition conn_matches (remote_ip remote_port local_ip local_port : Z) (c : tcp_conn_t) : bool :=
  cn_used c &&
  negb (negb (cn_remote_ip c =? remote_ip) || negb (cn_remote_port c =? remote_port) ||
        negb (cn_local_port c =? local_port)) &&
  negb (negb (cn_local_ip c =? TCP_IP_ADDR_ANY) && negb (cn_local_ip c =? local_ip)).

Definition tcp_find (core : tcpcore_t) (remote_ip remote_port local_ip local_port : Z)
    : option (option Z) :=
  find_up (Z.to_nat TCP_MAX_CONNS) 0 (tc_conns core)
    (conn_matches remote_ip remote_port local_ip local_port).

Definition tcp_find_listener (core : tcpcore_t) (port : Z) : option (option Z) :=
  find_up (Z.to_nat TCP_MAX_LISTENERS) 0 (tc_listeners core)
    (λ l, li_used l && (li_local_port l =? port)).

Definition put_conn (core : tcpcore_t) (i : Z) (c : tcp_conn_t) : option tcpcore_t :=
  cs ← aset (tc_conns core) i c; Some (core <| tc_conns := cs |>).

(** [if (l != NULL && l->pending > 0) l->pending--] for the listener of [port]. *)
Definition drop_pending (core : tcpcore_t) (port : Z) : option tcpcore_t :=
  l ← tcp_find_listener core port;
  match l with
  | None => Some core
  | Some j =>
      li ← aget (tc_listeners core) j;
      if 0 <? li_pending li then
        ls ← aset (tc_listeners core) j (li <| li_pending := u16 (li_pending li - 1) |>);
        Some (core <| tc_listeners := ls |>)
      else Some core
  end.

Definition tcp_release (core : tcpcore_t) (i : Z) : option tcpcore_t :=
  c ← aget (tc_conns core) i;
  core ← (if cn_passive c && negb (cn_accepted c)
          then drop_pending core (cn_local_port c) else Some core);
  put_conn core i zero_conn.

Definition tcp_next_isn (core : tcpcore_t) : tcpcore_t * Z :=
  let seed := u16 (u32 (u32 (tc_iss_seed core * 25173) + 13849)) in
  (core <| tc_iss_seed := seed |>,
   Z.lxor (u32 (Z.shiftl seed 16)) (u32 (seed * 40503))).

(** ** Operations *)
Section tcp.
Context {W : Type}.
(** [core->ip_tx(ctx, src_ip, dst_ip, segment, len)]: the function pointer, its
    context, the addresses and the bytes of the segment. *)
Context (call_ip_tx : Z → Z → Z → Z → list Z → W → W * Z).

Definition ip_tx (core : tcpcore_t) (src dst : Z) (buf : list Z) (len : Z) (w : W)
    : option (W * Z) :=
  seg ← aslice buf 0 len;
  Some (call_ip_tx (tc_ip_tx core) (tc_ip_ctx core) src dst seg w).

(** The checksum of the segment in [buf], stored into its header. *)
Definition put_checksum (buf : list Z) (src dst seg_len : Z) : option (list Z) :=
  csum ← tcp_checksum src dst buf seg_len;
  let csum := if csum =? 0 then 0xFFFF else csum in
  put_field 2 buf 16 (ow_bswap16 csum).

Definition tcp_emit (core : tcpcore_t) (i flags : Z) (payload : list Z) (len : Z)
    (save : bool) (w : W) : option (W * tcpcore_t * Z) :=
  if TCP_MSS <? len then Some (w, core, TCP_ERR_NO_SPACE)
  else
    conn ← aget (tc_conns core) i;
    let seg_len := TCP_HDR_LEN + len in
    let seq_start := cn_snd_nxt conn in
    buf ← put_header (tc_scratch core) (cn_local_port conn) (cn_remote_port conn) seq_start
            (cn_rcv_nxt conn) flags (ow_bswap16 (u16 (cn_rcv_wnd conn)));
    buf ← (if nz len then copy_at len payload 0 buf TCP_HDR_LEN else Some buf);
    buf ← put_checksum buf (cn_local_ip conn) (cn_remote_ip conn) seg_len;
    let core := core <| tc_scratch := buf |> in
    let nxt := u32 (cn_snd_nxt conn + len) in
    let nxt := if nz (Z.land flags TCP_SYN) then u32 (nxt + 1) else nxt in
    let nxt := if nz (Z.land flags TCP_FIN) then u32 (nxt + 1) else nxt in
    let conn := conn <| cn_snd_nxt := nxt |> in
    conn ← (if save then
              tx ← copy_at seg_len buf 0 (cn_tx_buf conn) 0;
              Some (conn <| cn_tx_buf := tx |> <| cn_tx_len := seg_len |>
                         <| cn_tx_seq := seq_start |> <| cn_tx_end_seq := nxt |>
                         <| cn_tx_pending := true |> <| cn_rto := TCP_INITIAL_RTO |>
                         <| cn_rto_timer := TCP_INITIAL_RTO |>)
            else Some conn);
    core ← put_conn core i conn;
    '(w, st) ← ip_tx core (cn_local_ip conn) (cn_remote_ip conn) (tc_scratch core) seg_len w;
    Some (w, core, st).

Definition tcp_send_rst (core : tcpcore_t) (src_ip src_port dst_ip dst_port seq : Z)
    (with_ack : bool) (ack : Z) (w : W) : option (W * tcpcore_t) :=
  buf ← put_header (tc_scratch core) src_port dst_port seq ack
          (Z.lor TCP_RST (if with_ack then TCP_ACK else 0)) 0;
  buf ← put_checksum buf src_ip dst_ip TCP_HDR_LEN;
  let core := core <| tc_scratch := buf |> in
  '(w, _) ← ip_tx core src_ip dst_ip (tc_scratch core) TCP_HDR_LEN w;
  Some (w, core).

Definition tcp_passive_open (core : tcpcore_t)
    (local_ip local_port remote_ip remote_port seq window : Z) (w : W)
    : option (W * tcpcore_t * Z) :=
  l ← tcp_find_listener core local_port;
  match l with
  | None => Some (w, core, TCP_ERR_NO_CONN)
  | Some j =>
      li ← aget (tc_listeners core) j;
      if li_backlog li <=? li_pending li then Some (w, core, TCP_ERR_FULL)
      else
        c ← tcp_alloc_conn core;
        match c with
        | None => Some (w, core, TCP_ERR_FULL)
        | Some i =>
            let '(core, iss) := tcp_next_isn core in
            let c := zero_conn <| cn_used := true |> <| cn_passive := true |>
                       <| cn_state := TCP_STATE_SYN_RCVD |> <| cn_local_ip := local_ip |>
                       <| cn_remote_ip := remote_ip |> <| cn_local_port := local_port |>
                       <| cn_remote_port := remote_port |> <| cn_iss := iss |>
                       <| cn_irs := seq |> <| cn_snd_una := iss |> <| cn_snd_nxt := iss |>
                       <| cn_rcv_nxt := u32 (seq + 1) |> <| cn_rcv_wnd := 4096 |>
                       <| cn_snd_wnd := window |> <| cn_mss := TCP_MSS |>
                       <| cn_rto := TCP_INITIAL_RTO |> in
            core ← put_conn core i c;
            ls ← aset (tc_listeners core) j (li <| li_pending := u16 (li_pending li + 1) |>);
            tcp_emit (core <| tc_listeners := ls |>) i (Z.lor TCP_SYN TCP_ACK) [] 0 true w
        end
  end.

Definition tcp_init (core : ptr tcpcore_t) (local_ip ip_tx_fn ip_ctx : Z)
    : ptr tcpcore_t * Z :=
  match core with
  | None => (core, TCP_ERR_PARAM)
  | Some _ =>
      if ip_tx_fn =? 0 then (core, TCP_ERR_PARAM)
      else
        (Some (zero_core <| tc_local_ip := local_ip |> <| tc_ip_tx := ip_tx_fn |>
                         <| tc_ip_ctx := ip_ctx |> <| tc_iss_seed := 0x1D2B |>
                         <| tc_initialized := true |>), TCP_OK)
  end.

Definition tcp_connect (core : ptr tcpcore_t) (local_ip local_port remote_ip remote_port : Z)
    (w : W) : option (W * ptr tcpcore_t * Z) :=
  match core with
  | None => Some (w, core, 0)
  | Some k =>
      if negb (tc_initialized k) then Some (w, core, 0)
      else if (local_port =? 0) || (remote_port =? 0) || (remote_ip =? 0) then Some (w, core, 0)
      else
        found ← tcp_find k remote_ip remote_port local_ip local_port;
        match found with
        | Some _ => Some (w, core, 0)
        | None =>
            c ← tcp_alloc_conn k;
            match c with
            | None => Some (w, core, 0)
            | Some i =>
                let '(k, iss) := tcp_next_isn k in
                let c := zero_conn <| cn_used := true |> <| cn_state := TCP_STATE_SYN_SENT |>
                           <| cn_local_ip := local_ip |> <| cn_remote_ip := remote_ip |>
                           <| cn_local_port := local_port |> <| cn_remote_port := remote_port |>
                           <| cn_iss := iss |> <| cn_snd_una := iss |> <| cn_snd_nxt := iss |>
                           <| cn_rcv_wnd := 4096 |> <| cn_snd_wnd := 4096 |>
                           <| cn_mss := TCP_MSS |> <| cn_rto := TCP_INITIAL_RTO |>
                           <| cn_rto_timer := TCP_INITIAL_RTO |> in
                k ← put_conn k i c;
                '(w, k, st) ← tcp_emit k i TCP_SYN [] 0 true w;
                if negb (st =? TCP_OK) then
                  k ← put_conn k i zero_conn; Some (w, Some k, 0)
                else Some (w, Some k, tcp_conn_id i)
            end
        end
  end.

Definition tcp_listen (core : ptr tcpcore_t) (local_ip local_port backlog : Z)
    : option (ptr tcpcore_t * Z) :=
  match core with
  | None => Some (core, TCP_ERR_PARAM)
  | Some k =>
      if negb (tc_initialized k) || (local_port =? 0) then Some (core, TCP_ERR_PARAM)
      else
        let backlog := if backlog =? 0 then 1 else backlog in
        l ← tcp_find_listener k local_port;
        match l with
        | Some j =>
            li ← aget (tc_listeners k) j;
            ls ← aset (tc_listeners k) j (li <| li_backlog := backlog |>);
            Some (Some (k <| tc_listeners := ls |>), TCP_OK)
        | None =>
            free ← find_up (Z.to_nat TCP_MAX_LISTENERS) 0 (tc_listeners k)
                     (λ l, negb (li_used l));
            match free with
            | None => Some (core, TCP_ERR_FULL)
            | Some j =>
                ls ← aset (tc_listeners k) j (mk_listener true local_ip local_port backlog 0);
                Some (Some (k <| tc_listeners := ls |>), TCP_OK)
            end
        end
  end.

(** A connection [tcp_accept] may hand out. *)
Definition acceptable (local_ip local_port : Z) (c : tcp_conn_t) : bool :=
  negb (negb (cn_used c) || negb (cn_passive c) || cn_accepted c) &&
  bool_decide (cn_state c = TCP_STATE_ESTABLISHED) && (cn_local_port c =? local_port) &&
  negb (negb (cn_local_ip c =? TCP_IP_ADDR_ANY) && negb (cn_local_ip c =? local_ip)).

(** The last component is [*out_conn] when it is written. *)
Definition tcp_accept (core : ptr tcpcore_t) (local_ip local_port : Z) (out_conn : ptr Z)
    : option (ptr tcpcore_t * Z * ptr Z) :=
  match core, out_conn with
  | Some k, Some _ =>
      found ← find_up (Z.to_nat TCP_MAX_CONNS) 0 (tc_conns k) (acceptable local_ip local_port);
      match found with
      | None => Some (core, TCP_ERR_AGAIN, out_conn)
      | Some i =>
          c ← aget (tc_conns k) i;
          k ← put_conn k i (c <| cn_accepted := true |>);
          k ← drop_pending k local_port;
          Some (Some k, TCP_OK, Some (i + 1))
      end
  | _, _ => Some (core, TCP_ERR_PARAM, out_conn)
  end.

Definition tcp_send (core : ptr tcpcore_t) (conn : Z) (data : ptr (list Z)) (len : Z) (w : W)
    : option (W * ptr tcpcore_t * Z) :=
  match core with
  | None => Some (w, core, TCP_ERR_PARAM)
  | Some k =>
      if negb (bool_decide (is_Some data)) && nz len then Some (w, core, TCP_ERR_PARAM)
      else
        at_ ← tcp_conn_at k conn;
        match at_ with
        | None => Some (w, core, TCP_ERR_NO_CONN)
        | Some i =>
            c ← aget (tc_conns k) i;
            if negb (bool_decide (cn_state c = TCP_STATE_ESTABLISHED)) &&
               negb (bool_decide (cn_state c = TCP_STATE_CLOSE_WAIT))
            then Some (w, core, TCP_ERR_CLOSED)
            else if len =? 0 then Some (w, core, TCP_OK)
            else if TCP_MSS <? len then Some (w, core, TCP_ERR_NO_SPACE)
            else if cn_tx_pending c then Some (w, core, TCP_ERR_AGAIN)
            else
              data ← data;
              '(w, k, st) ← tcp_emit k i (Z.lor TCP_ACK TCP_PSH) data len true w;
              Some (w, Some k, st)
        end
  end.

(** [buf] and [*out_len] as they are afterwards. *)
Definition tcp_recv (core : ptr tcpcore_t) (conn : Z) (buf : ptr (list Z)) (cap : Z)
    (out_len : ptr Z) : option (ptr tcpcore_t * ptr (list Z) * ptr Z * Z) :=
  match core, buf, out_len with
  | Some k, Some b, Some _ =>
      at_ ← tcp_conn_at k conn;
      match at_ with
      | None => Some (core, buf, out_len, TCP_ERR_NO_CONN)
      | Some i =>
          c ← aget (tc_conns k) i;
          if cn_rx_len c =? 0 then
            Some (core, buf, out_len,
                  if bool_decide (cn_state c = TCP_STATE_CLOSED) then TCP_ERR_CLOSED
                  else TCP_ERR_AGAIN)
          else
            let n := if cn_rx_len c <? cap then cn_rx_len c else cap in
            b ← copy_bytes n (cn_rx_buf c) b;
            rx ← for_up (Z.to_nat (cn_rx_len c - n)) n
                   (λ i rx, x ← aget rx i; aset rx (i - n) x) (cn_rx_buf c);
            k ← put_conn k i (c <| cn_rx_buf := rx |> <| cn_rx_len := u32 (cn_rx_len c - n) |>);
            Some (Some k, Some b, Some n, TCP_OK)
      end
  | _, _, _ => Some (core, buf, out_len, TCP_ERR_PARAM)
  end.

Definition tcp_close (core : ptr tcpcore_t) (conn : Z) (w : W)
    : option (W * ptr tcpcore_t * Z) :=
  match core with
  | None => Some (w, core, TCP_ERR_PARAM)
  | Some k =>
      at_ ← tcp_conn_at k conn;
      match at_ with
      | None => Some (w, core, TCP_ERR_NO_CONN)
      | Some i =>
          c ← aget (tc_conns k) i;
          let send_fin state :=
            k ← put_conn k i (c <| cn_state := state |>);
            '(w, k, st) ← tcp_emit k i (Z.lor TCP_FIN TCP_ACK) [] 0 true w;
            Some (w, Some k, st) in
          match cn_state c with
          | TCP_STATE_ESTABLISHED => send_fin TCP_STATE_FIN_WAIT_1
          | TCP_STATE_CLOSE_WAIT => send_fin TCP_STATE_LAST_ACK
          | TCP_STATE_SYN_SENT | TCP_STATE_SYN_RCVD =>
              k ← tcp_release k i; Some (w, Some k, TCP_OK)
          | TCP_STATE_CLOSED => Some (w, core, TCP_ERR_CLOSED)
          | _ => Some (w, core, TCP_ERR_AGAIN)
          end
      end
  end.

(** *** Inbound segments *)

(** The local variables [tcp_input] takes from the header. *)
Record tcp_segment := mk_segment {
  sg_sport : Z; sg_dport : Z; sg_seq : Z; sg_ack : Z; sg_flags : Z; sg_window : Z;
  sg_payload : Z; sg_payload_len : Z     (* offset and length *)
}.

Definition flag_set (s : tcp_segment) (f : Z) : bool := nz (Z.land (sg_flags s) f).

(** Header fields; [None] for a bad data offset. *)
Definition parse_segment (segment : list Z) (len : Z) : option (option tcp_segment) :=
  sport ← get_field 2 segment 0;
  dport ← get_field 2 segment 2;
  seq ← get_field 4 segment 4;
  ack ← get_field 4 segment 8;
  flags ← get_field 1 segment 13;
  window ← get_field 2 segment 14;
  offset ← get_field 1 segment 12;
  let doff := u32 (Z.shiftr offset 4 * 4) in
  if (doff <? TCP_HDR_LEN) || (len <? doff) then Some None
  else
    Some (Some (mk_segment (ow_bswap16 sport) (ow_bswap16 dport) (ow_bswap32 seq)
                  (ow_bswap32 ack) flags (ow_bswap16 window) doff (u32 (len - doff)))).

(** A segment that matches no connection. *)
Definition input_unmatched (core : tcpcore_t) (src_ip dst_ip : Z) (s : tcp_segment) (w : W)
    : option (W * tcpcore_t * Z) :=
  if flag_set s TCP_SYN && negb (flag_set s TCP_ACK) then
    tcp_passive_open core dst_ip (sg_dport s) src_ip (sg_sport s) (sg_seq s) (sg_window s) w
  else
    '(w, core) ← (if negb (flag_set s TCP_RST) then
                    let rseq := u32 (sg_seq s + sg_payload_len s) in
                    let rseq := if flag_set s TCP_SYN then u32 (rseq + 1) else rseq in
                    let rseq := if flag_set s TCP_FIN then u32 (rseq + 1) else rseq in
                    tcp_send_rst core dst_ip (sg_dport s) src_ip (sg_sport s) rseq
                      (flag_set s TCP_ACK) (sg_ack s) w
                  else Some (w, core));
    Some (w, core, TCP_ERR_NO_CONN).

(** ACK processing; the last component is the status of an early return. *)
Definition input_ack (core : tcpcore_t) (i : Z) (s : tcp_segment) (w : W)
    : option (W * tcpcore_t * option Z) :=
  if negb (flag_set s TCP_ACK) then Some (w, core, None)
  else
    c ← aget (tc_conns core) i;
    let ack := sg_ack s in
    if bool_decide (cn_state c = TCP_STATE_SYN_SENT) then
      if negb (ack =? u32 (cn_iss c + 1)) then Some (w, core, Some TCP_ERR_BAD_PACKET)
      else
        core ← put_conn core i
                 (c <| cn_snd_una := ack |> <| cn_snd_wnd := sg_window s |>
                    <| cn_irs := sg_seq s |> <| cn_rcv_nxt := u32 (sg_seq s + 1) |>
                    <| cn_state := TCP_STATE_ESTABLISHED |> <| cn_tx_pending := false |>);
        '(w, core, st) ← tcp_emit core i TCP_ACK [] 0 false w;
        Some (w, core, Some st)
    else if bool_decide (cn_state c = TCP_STATE_SYN_RCVD) then
      if negb (ack =? cn_snd_nxt c) then Some (w, core, Some TCP_ERR_BAD_PACKET)
      else
        core ← put_conn core i
                 (c <| cn_snd_una := ack |> <| cn_state := TCP_STATE_ESTABLISHED |>
                    <| cn_tx_pending := false |>);
        Some (w, core, None)
    else if tcp_seq_gt ack (cn_snd_una c) && tcp_seq_le ack (cn_snd_nxt c) then
      let c := c <| cn_snd_una := ack |> <| cn_snd_wnd := sg_window s |> in
      core ← put_conn core i
               (if cn_tx_pending c && tcp_seq_ge (cn_snd_una c) (cn_tx_end_seq c)
                then c <| cn_tx_pending := false |> else c);
      Some (w, core, None)
    else Some (w, core, None).

Definition receiving (st : tcp_state_t) : bool :=
  bool_decide (st = TCP_STATE_ESTABLISHED) || bool_decide (st = TCP_STATE_FIN_WAIT_1) ||
  bool_decide (st = TCP_STATE_FIN_WAIT_2).

(** In-order payload, then the acknowledgement. *)
Definition input_data (core : tcpcore_t) (i : Z) (segment : list Z) (s : tcp_segment) (w : W)
    : option (W * tcpcore_t * option Z) :=
  if negb (nz (sg_payload_len s)) then Some (w, core, None)
  else
    c ← aget (tc_conns core) i;
    core ← (if (sg_seq s =? cn_rcv_nxt c) &&
               (u32 (cn_rx_len c + sg_payload_len s) <=? TCP_RXBUF_SIZE) then
              rx ← copy_at (sg_payload_len s) segment (sg_payload s) (cn_rx_buf c) (cn_rx_len c);
              put_conn core i
                (c <| cn_rx_buf := rx |> <| cn_rx_len := u32 (cn_rx_len c + sg_payload_len s) |>
                   <| cn_rcv_nxt := u32 (cn_rcv_nxt c + sg_payload_len s) |>)
            else Some core);
    '(w, core, st) ← tcp_emit core i TCP_ACK [] 0 false w;
    Some (w, core, if negb (st =? TCP_OK) then Some TCP_ERR_AGAIN else None).

Definition input_fin (core : tcpcore_t) (i : Z) (s : tcp_segment) (w : W)
    : option (W * tcpcore_t) :=
  if negb (flag_set s TCP_FIN) then Some (w, core)
  else
    c ← aget (tc_conns core) i;
    core ← put_conn core i
             (c <| cn_rcv_nxt := u32 (u32 (sg_seq s + sg_payload_len s) + 1) |>);
    '(w, core, _) ← tcp_emit core i TCP_ACK [] 0 false w;
    c ← aget (tc_conns core) i;
    core ← put_conn core i
             (match cn_state c with
              | TCP_STATE_ESTABLISHED => c <| cn_state := TCP_STATE_CLOSE_WAIT |>
              | TCP_STATE_FIN_WAIT_1 => c <| cn_state := TCP_STATE_CLOSING |>
              | _ => c <| cn_state := TCP_STATE_TIME_WAIT |>
                       <| cn_time_wait_timer := TCP_TIME_WAIT_TICKS |>
              end);
    Some (w, core).

(** Completion of the own close sequence. *)
Definition input_finish (core : tcpcore_t) (i : Z) : option tcpcore_t :=
  c ← aget (tc_conns core) i;
  let acked := tcp_seq_ge (cn_snd_una c) (cn_snd_nxt c) in
  let c := if bool_decide (cn_state c = TCP_STATE_FIN_WAIT_1) && acked
           then c <| cn_state := TCP_STATE_FIN_WAIT_2 |> else c in
  let c := if bool_decide (cn_state c = TCP_STATE_CLOSING) && acked
           then c <| cn_state := TCP_STATE_TIME_WAIT |>
                  <| cn_time_wait_timer := TCP_TIME_WAIT_TICKS |> else c in
  core ← put_conn core i c;
  if bool_decide (cn_state c = TCP_STATE_LAST_ACK) && acked then tcp_release core i
  else Some core.

(** A segment for the connection in slot [i]. *)
Definition input_matched (core : tcpcore_t) (i : Z) (segment : list Z) (s : tcp_segment) (w : W)
    : option (W * tcpcore_t * Z) :=
  if flag_set s TCP_RST then core ← tcp_release core i; Some (w, core, TCP_OK)
  else
    '(w, core, ret) ← input_ack core i s w;
    match ret with
    | Some st => Some (w, core, st)
    | None =>
        c ← aget (tc_conns core) i;
        '(w, core, ret) ←
          (if receiving (cn_state c) then
             '(w, core, ret) ← input_data core i segment s w;
             match ret with
             | Some st => Some (w, core, Some st)
             | None => '(w, core) ← input_fin core i s w; Some (w, core, None)
             end
           else Some (w, core, None));
        match (ret : option Z) with
        | Some st => Some (w, core, st)
        | None => core ← input_finish core i; Some (w, core, TCP_OK)
        end
    end.

Definition tcp_input (core : ptr tcpcore_t) (src_ip dst_ip : Z) (segment : ptr (list Z))
    (len : Z) (w : W) : option (W * ptr tcpcore_t * Z) :=
  match core, segment with
  | Some k, Some segment =>
      if negb (tc_initialized k) then Some (w, core, TCP_ERR_NOT_READY)
      else if len <? TCP_HDR_LEN then Some (w, core, TCP_ERR_BAD_PACKET)
      else
        s ← parse_segment segment len;
        match s with
        | None => Some (w, core, TCP_ERR_BAD_PACKET)
        | Some s =>
            csum ← tcp_checksum src_ip dst_ip segment len;
            if nz csum then Some (w, core, TCP_ERR_BAD_PACKET)
            else
              c ← tcp_find k src_ip (sg_sport s) dst_ip (sg_dport s);
              '(w, k, st) ← (match c with
                             | None => input_unmatched k src_ip dst_ip s w
                             | Some i => input_matched k i segment s w
                             end);
              Some (w, Some k, st)
        end
  | _, _ => Some (w, core, TCP_ERR_PARAM)
  end.

(** *** Timers *)
Definition tick_conn (elapsed_ticks : Z) (i : Z) (s : W * tcpcore_t) : option (W * tcpcore_t) :=
  let '(w, core) := s in
  c ← aget (tc_conns core) i;
  if negb (cn_used c) then Some (w, core)
  else if bool_decide (cn_state c = TCP_STATE_TIME_WAIT) then
    if cn_time_wait_timer c <=? elapsed_ticks then
      core ← tcp_release core i; Some (w, core)
    else
      core ← put_conn core i
               (c <| cn_time_wait_timer := u32 (cn_time_wait_timer c - elapsed_ticks) |>);
      Some (w, core)
  else if negb (cn_tx_pending c) then Some (w, core)
  else if cn_rto_timer c <=? elapsed_ticks then
    '(w, _) ← ip_tx core (cn_local_ip c) (cn_remote_ip c) (cn_tx_buf c) (cn_tx_len c) w;
    let rto := u32 (cn_rto c * 2) in
    let rto := if TCP_MAX_RTO <? rto then TCP_MAX_RTO else rto in
    core ← put_conn core i (c <| cn_rto := rto |> <| cn_rto_timer := rto |>);
    Some (w, core)
  else
    core ← put_conn core i (c <| cn_rto_timer := u32 (cn_rto_timer c - elapsed_ticks) |>);
    Some (w, core).

Definition tcp_tick (core : ptr tcpcore_t) (elapsed_ticks : Z) (w : W)
    : option (W * ptr tcpcore_t * Z) :=
  match core with
  | None => Some (w, core, TCP_ERR_PARAM)
  | Some k =>
      if negb (tc_initialized k) then Some (w, core, TCP_ERR_NOT_READY)
      else
        '(w, k) ← for_up (Z.to_nat TCP_MAX_CONNS) 0 (tick_conn elapsed_ticks) (w, k);
        Some (w, Some k, TCP_OK)
  end.

Definition tcp_conn_state (core : ptr tcpcore_t) (conn : Z) : option tcp_state_t :=
  match core with
  | None => Some TCP_STATE_CLOSED
  | Some k =>
      if (conn <=? 0) || (TCP_MAX_CONNS <? conn) then Some TCP_STATE_CLOSED
      else
        c ← aget (tc_conns k) (conn - 1);
        Some (if cn_used c then cn_state c else TCP_STATE_CLOSED)
  end.
End tcp.
