(* ===== verification/TcpSeg.v ===== *)
(** TCP segments on the wire: byte order, the header layout, the Internet
    checksum, and that a segment built by the sender is the one the receiver
    reads. *)
From S2P Require Import Prelude Tcpcore.

(** ** Byte order *)

Lemma bswap16_spec v : 0 ≤ v < 65536 → ow_bswap16 v = 256 * (v mod 256) + v / 256.
Proof.
  intros Hv. unfold ow_bswap16. rewrite Z.shiftl_mul_pow2, Z.shiftr_div_pow2 by lia.
  assert (u16 (v * 2 ^ 8) = Z.shiftl (v mod 256) 8) as ->.
  { rewrite Z.shiftl_mul_pow2 by lia. unfold u16, wrap. zdm. }
  rewrite (u16_small (v / 2 ^ 8)), lor_shiftl_add, u16_small by zdm. zdm.
Qed.

Lemma bswap16_range v : 0 ≤ v < 65536 → 0 ≤ ow_bswap16 v < 65536.
Proof. intros. apply u16_range. Qed.

Lemma bswap16_invol v : 0 ≤ v < 65536 → ow_bswap16 (ow_bswap16 v) = v.
Proof. intros Hv. rewrite (bswap16_spec (ow_bswap16 v)), bswap16_spec by auto using bswap16_range. zdm. Qed.

(** The two bytes as they lie in memory. *)
Lemma bswap16_bytes v : 0 ≤ v < 65536 → le_bytes 2 (ow_bswap16 v) = [v / 256; v mod 256].
Proof. intros Hv. rewrite bswap16_spec by done. simpl. f_equal; [zdm|]. f_equal. zdm. Qed.

Lemma land_byte v k : 0 ≤ k → Z.land v (Z.shiftl 255 k) = v / 2 ^ k mod 256 * 2 ^ k.
Proof.
  intros Hk. change 255 with (Z.ones 8). rewrite <-Z.shiftl_mul_pow2, <-Z.shiftr_div_pow2 by done.
  rewrite <-(Z.land_ones _ 8) by done. apply Z.bits_inj'. intros i Hi.
  rewrite Z.land_spec, !Z.shiftl_spec, Z.land_spec by done.
  destruct (decide (k ≤ i)).
  - rewrite Z.shiftr_spec by lia. do 2 f_equal; lia.
  - rewrite !(Z.testbit_neg_r _ (i - k)) by lia. by rewrite andb_false_r.
Qed.

Lemma bswap32_spec v : 0 ≤ v < 2 ^ 32 →
  ow_bswap32 v = 2 ^ 24 * (v mod 256) + 2 ^ 16 * (v / 2 ^ 8 mod 256) +
                 2 ^ 8 * (v / 2 ^ 16 mod 256) + v / 2 ^ 24.
Proof.
  intros Hv. unfold ow_bswap32.
  change 0x000000FF with (Z.shiftl 255 0). change 0x0000FF00 with (Z.shiftl 255 8).
  change 0x00FF0000 with (Z.shiftl 255 16). change 0xFF000000 with (Z.shiftl 255 24).
  rewrite !land_byte by done. rewrite !Z.shiftl_mul_pow2, !Z.shiftr_div_pow2 by done.
  rewrite Z.pow_0_r, Z.div_1_r, Z.mul_1_r.
  set (b0 := v mod 256). set (b1 := v / 2 ^ 8 mod 256). set (b2 := v / 2 ^ 16 mod 256).
  assert (v / 2 ^ 24 mod 256 = v / 2 ^ 24) as -> by zdm. set (b3 := v / 2 ^ 24).
  assert (0 ≤ b0 < 256) by (apply Z.mod_pos_bound; lia).
  assert (0 ≤ b1 < 256) by (apply Z.mod_pos_bound; lia).
  assert (0 ≤ b2 < 256) by (apply Z.mod_pos_bound; lia).
  assert (0 ≤ b3 < 256) by (subst b3; zdm).
  rewrite !u32_small by lia. clearbody b0 b1 b2 b3.
  replace (b2 * 2 ^ 16 / 2 ^ 8) with (b2 * 2 ^ 8) by zdm. rewrite Z.div_mul by lia.
  replace (b0 * 2 ^ 24) with (Z.shiftl b0 24) by (by rewrite Z.shiftl_mul_pow2).
  rewrite lor_shiftl_add by lia.
  replace (b0 * 2 ^ 24 + b1 * 2 ^ 8 * 2 ^ 8) with (Z.shiftl (b0 * 2 ^ 8 + b1) 16)
    by (rewrite Z.shiftl_mul_pow2 by done; lia).
  rewrite lor_shiftl_add by lia.
  replace ((b0 * 2 ^ 8 + b1) * 2 ^ 16 + b2 * 2 ^ 8) with (Z.shiftl ((b0 * 2 ^ 8 + b1) * 2 ^ 8 + b2) 8)
    by (rewrite Z.shiftl_mul_pow2 by done; lia).
  rewrite lor_shiftl_add by lia. lia.
Qed.

Lemma bswap32_range v : 0 ≤ v < 2 ^ 32 → 0 ≤ ow_bswap32 v < 2 ^ 32.
Proof. intros. rewrite bswap32_spec by done. zdm. Qed.

Lemma bswap32_invol v : 0 ≤ v < 2 ^ 32 → ow_bswap32 (ow_bswap32 v) = v.
Proof.
  intros Hv. rewrite (bswap32_spec (ow_bswap32 v)), bswap32_spec by auto using bswap32_range.
  set (b0 := v mod 256). set (b1 := v / 2 ^ 8 mod 256). set (b2 := v / 2 ^ 16 mod 256).
  set (b3 := v / 2 ^ 24).
  assert (v = b0 + 2 ^ 8 * b1 + 2 ^ 16 * b2 + 2 ^ 24 * b3) as Ev by (subst b0 b1 b2 b3; zdm).
  assert (0 ≤ b0 < 256) by (apply Z.mod_pos_bound; lia).
  assert (0 ≤ b1 < 256) by (apply Z.mod_pos_bound; lia).
  assert (0 ≤ b2 < 256) by (apply Z.mod_pos_bound; lia).
  assert (0 ≤ b3 < 256) by (subst b3; zdm). clearbody b0 b1 b2 b3. subst v. zdm.
Qed.

(** ** The checksum *)

(** The sum of the big-endian 16-bit words, an odd last byte padded with zero. *)
Fixpoint wsum (l : list Z) : Z :=
  match l with
  | [] => 0
  | [a] => 256 * a
  | a :: b :: l => 256 * a + b + wsum l
  end.

(** The two words of an address as its bytes lie in memory. *)
Definition addr_sum (a : Z) : Z := wsum (le_bytes 4 a).

(** End-around carry: the representative of a sum modulo 65535, zero only for
    zero. *)
Definition fold16 (x : Z) : Z := if x =? 0 then 0 else (x - 1) mod 65535 + 1.

Lemma wsum_bounds l : octets l → 0 ≤ wsum l ∧ 2 * wsum l ≤ 65535 * (Z.of_nat (length l) + 1).
Proof.
  assert (∀ n l, (length l ≤ n)%nat → octets l →
    0 ≤ wsum l ∧ 2 * wsum l ≤ 65535 * (Z.of_nat (length l) + 1)) as H.
  { intros n. induction n as [|n IH]; intros k Hn Hk; destruct k as [|a [|b k]]; simpl in *; try lia.
    - apply Forall_cons_1 in Hk as [? _]. lia.
    - apply Forall_cons_1 in Hk as [? [? Hk]%Forall_cons_1].
      destruct (IH k); [lia|done|]. lia. }
  intros Hl. by apply (H (length l)).
Qed.

Lemma wsum_app_even p q : Z.of_nat (length p) mod 2 = 0 → wsum (p ++ q) = wsum p + wsum q.
Proof.
  assert (∀ n p, (length p ≤ n)%nat → Z.of_nat (length p) mod 2 = 0 →
    wsum (p ++ q) = wsum p + wsum q) as H.
  { intros n. induction n as [|n IH]; intros k Hn Hk; destruct k as [|a [|b k]]; simpl in *;
      try lia; try done.
    rewrite IH; [lia|lia|zdm]. }
  apply (H (length p)). lia.
Qed.

Lemma be16_octets a b : 0 ≤ b < 256 → be16 a b = 256 * a + b.
Proof. intros. unfold be16. rewrite lor_shiftl_add by lia. lia. Qed.

Lemma fold_carries_spec x :
  0 ≤ x < 2 ^ 32 → fold_carries 3 x = Some (fold16 x).
Proof.
  assert (∀ f y, 0 ≤ y < 65536 → fold_carries f y = Some y) as Hstop.
  { intros f y Hy. destruct f; simpl; unfold nz; rewrite Z.shiftr_div_pow2, Z.div_small by lia; done. }
  assert (∀ f y, 65536 ≤ y < 2 ^ 32 → fold_carries (S f) y = fold_carries f (y mod 65536 + y / 65536)) as Hgo.
  { intros f y Hy. cbn [fold_carries]. unfold nz. change 0xFFFF with (Z.ones 16).
    rewrite Z.land_ones, Z.shiftr_div_pow2 by lia. change (2 ^ 16) with 65536.
    rewrite (proj2 (Z.eqb_neq (y / 65536) 0)) by zdm. cbn [negb]. by rewrite u32_small by zdm. }
  assert (∀ y, 0 < y → fold16 (y mod 65536 + y / 65536) = fold16 y) as Hf.
  { intros y Hy. unfold fold16. rewrite !(proj2 (Z.eqb_neq _ 0)) by zdm. zdm. }
  assert (∀ y, 0 ≤ y < 65536 → fold16 y = y) as Hs.
  { intros y Hy. unfold fold16. case_if; zdm. }
  intros Hx. destruct (decide (x < 65536)); [by rewrite Hstop, Hs by lia|].
  rewrite Hgo, <-Hf by lia. set (y := x mod 65536 + x / 65536). assert (0 < y < 131072) by (subst y; zdm).
  destruct (decide (y < 65536)); [by rewrite Hstop, Hs by lia|].
  rewrite Hgo, <-Hf by lia. set (z := y mod 65536 + y / 65536). assert (0 < z < 65537) by (subst z; zdm).
  destruct (decide (z < 65536)); [by rewrite Hstop, Hs by lia|].
  rewrite Hgo, <-Hf by lia. assert (z = 65536) as -> by lia. done.
Qed.

Lemma tcp_sum_addr_spec s a :
  0 ≤ s < 2 ^ 31 → 0 ≤ a < 2 ^ 32 → tcp_sum_addr s a = s + addr_sum a ∧ 0 ≤ addr_sum a < 131072.
Proof.
  intros Hs Ha. unfold tcp_sum_addr, addr_sum. cbn [le_bytes nth wsum].
  assert (∀ x, 0 ≤ x mod 256 < 256) by (intros; apply Z.mod_pos_bound; lia).
  rewrite !be16_octets by done.
  pose proof (H a). pose proof (H (a / 256)). pose proof (H (a / 256 / 256)).
  pose proof (H (a / 256 / 256 / 256)).
  rewrite !u32_small by (rewrite ?u32_small; lia). lia.
Qed.

(** The word loop adds up the words of the segment. *)
Lemma word_loop seg n s :
  octets seg → (2 * n ≤ length seg)%nat → Z.of_nat n ≤ 40000 → 0 ≤ s < 2 ^ 20 →
  for_up n 0 (λ k sum, hi ← aget seg (2 * k); lo ← aget seg (2 * k + 1);
                       Some (u32 (sum + be16 hi lo))) s =
    Some (s + wsum (take (2 * n) seg)).
Proof.
  intros Ho Hlen Hn Hs.
  loop_inv (λ j sum, ∃ k : nat, j = Z.of_nat k ∧ (k ≤ n)%nat ∧ sum = s + wsum (take (2 * k) seg) ∧
    0 ≤ sum ≤ s + 65536 * j) as (r & -> & k & Hk & _ & -> & _).
  - exists 0%nat. simpl. rewrite Z.add_0_r. split_and!; [done|lia|done|lia|lia].
  - intros j sum Hj (k & -> & Hk & -> & Hb).
    destruct (lookup_lt_is_Some_2 seg (2 * k)) as [a Ha]; [lia|].
    destruct (lookup_lt_is_Some_2 seg (2 * k + 1)) as [b Hbb]; [lia|].
    pose proof (Forall_lookup_1 _ _ _ _ Ho Ha) as Oa. pose proof (Forall_lookup_1 _ _ _ _ Ho Hbb) as Ob.
    simpl in Oa, Ob.
    replace (2 * Z.of_nat k) with (Z.of_nat (2 * k)) by lia.
    replace (Z.of_nat (2 * k) + 1) with (Z.of_nat (2 * k + 1)) by lia.
    rewrite !aget_of_nat, Ha, obind_Some, Hbb, obind_Some, be16_octets, u32_small by lia.
    eexists. split; [done|]. exists (S k). split_and!; [lia|lia| |lia|lia].
    replace (2 * S k)%nat with (S (S (2 * k))) by lia.
    rewrite (take_S_r seg (S (2 * k)) b), (take_S_r seg (2 * k) a) by
      (try done; by replace (S (2 * k)) with (2 * k + 1)%nat by lia).
    rewrite <-app_assoc. cbn [app]. rewrite wsum_app_even; [simpl; lia|].
    rewrite length_take_le by lia. zdm.
  - rewrite Z.add_0_l in Hk. apply Nat2Z.inj in Hk. by subst.
Qed.

(** Words, odd byte, carries and complement: the tail every Internet checksum
    of the stack ends with, in closed form. *)
Lemma sum_tail s seg len :
  octets seg → 0 ≤ s < 2 ^ 20 → 0 ≤ len ≤ 65535 → len ≤ Z.of_nat (length seg) →
  (sum ← for_up (Z.to_nat (len / 2)) 0
           (λ k sum, hi ← aget seg (2 * k); lo ← aget seg (2 * k + 1);
                     Some (u32 (sum + be16 hi lo))) s;
   sum ← (if 2 * (len / 2) <? len then
            b ← aget seg (2 * (len / 2)); Some (u32 (sum + Z.shiftl b 8))
          else Some sum);
   sum ← fold_carries 3 sum;
   Some (u16 (Z.lnot sum))) = Some (65535 - fold16 (s + wsum (take (Z.to_nat len) seg))).
Proof.
  intros Ho Hs Hl Hlen. rewrite word_loop; [|done|zdm|zdm|lia]. rewrite obind_Some.
  set (n := Z.to_nat (len / 2)).
  pose proof (wsum_bounds (take (2 * n) seg)) as Hb. rewrite length_take_le in Hb by (subst n; zdm).
  specialize (Hb (Forall_take _ _ _ Ho)).
  assert (∃ t, (if 2 * (len / 2) <? len then
      b ← aget seg (2 * (len / 2)); Some (u32 (s + wsum (take (2 * n) seg) + Z.shiftl b 8))
    else Some (s + wsum (take (2 * n) seg))) = Some t ∧
    t = s + wsum (take (Z.to_nat len) seg) ∧ 0 ≤ t < 2 ^ 32) as (t & -> & -> & Ht).
  { destruct (Z.ltb_spec (2 * (len / 2)) len).
    - destruct (lookup_lt_is_Some_2 seg (2 * n)) as [b Hbb]; [subst n; zdm|].
      pose proof (Forall_lookup_1 _ _ _ _ Ho Hbb) as Ob. simpl in Ob.
      replace (2 * (len / 2)) with (Z.of_nat (2 * n)) by (subst n; zdm).
      rewrite aget_of_nat, Hbb, obind_Some, Z.shiftl_mul_pow2 by lia.
      assert (2 * Z.of_nat n ≤ len) by (subst n; zdm).
      rewrite u32_small by lia. eexists. split; [done|].
      replace (Z.to_nat len) with (S (2 * n)) by (subst n; zdm).
      rewrite (take_S_r _ _ _ Hbb), wsum_app_even by (rewrite length_take_le by (subst n; zdm); zdm).
      change (wsum [b]) with (256 * b). split; lia.
    - assert (2 * Z.of_nat n = len) by (subst n; zdm).
      eexists. split; [done|]. replace (Z.to_nat len) with (2 * n)%nat by lia. split; lia. }
  rewrite obind_Some, fold_carries_spec, obind_Some by done. f_equal.
  assert (0 ≤ fold16 (s + wsum (take (Z.to_nat len) seg)) < 65536) as Hf.
  { unfold fold16. case_if; zdm. }
  set (f := fold16 _) in *. unfold u16, wrap, Z.lnot. zdm.
Qed.

(** The checksum in closed form. *)
Lemma tcp_checksum_spec src dst seg len :
  octets seg → 0 ≤ src < 2 ^ 32 → 0 ≤ dst < 2 ^ 32 →
  0 ≤ len ≤ 65535 → len ≤ Z.of_nat (length seg) →
  tcp_checksum src dst seg len =
    Some (65535 - fold16 (addr_sum src + addr_sum dst + 6 + len + wsum (take (Z.to_nat len) seg))).
Proof.
  intros Ho Hsrc Hdst Hl Hlen. unfold tcp_checksum.
  destruct (tcp_sum_addr_spec 0 src) as [-> Bs]; [lia..|].
  destruct (tcp_sum_addr_spec (0 + addr_sum src) dst) as [-> Bd]; [lia..|].
  unfold TCP_PROTO. rewrite !u32_small by (rewrite ?u32_small; lia).
  rewrite sum_tail by (done || lia). do 3 f_equal.
Qed.

(** ** The header *)

(** The 20 header bytes of RFC 793, without options. *)
Definition wire_header (sp dp seq ack fl win csum : Z) : list Z :=
  be_bytes 2 sp ++ be_bytes 2 dp ++ be_bytes 4 seq ++ be_bytes 4 ack ++ [80; fl] ++
  be_bytes 2 win ++ be_bytes 2 csum ++ [0; 0].

Definition is_u16 (v : Z) : Prop := 0 ≤ v < 65536.
Definition is_u32 (v : Z) : Prop := 0 ≤ v < 2 ^ 32.

Lemma wire_header_length sp dp seq ack fl win csum :
  length (wire_header sp dp seq ack fl win csum) = 20%nat.
Proof. done. Qed.

Lemma wire_header_octets sp dp seq ack fl win csum :
  0 ≤ fl < 256 → octets (wire_header sp dp seq ack fl win csum).
Proof.
  intros Hf. unfold wire_header, octets.
  repeat (apply Forall_app; split; [apply be_bytes_octets|]).
  apply Forall_app. split; [repeat constructor; lia|].
  repeat (apply Forall_app; split; [apply be_bytes_octets|]). repeat constructor; lia.
Qed.

Lemma bswap16_be v : is_u16 v → le_bytes 2 (ow_bswap16 v) = be_bytes 2 v.
Proof.
  intros Hv. rewrite bswap16_bytes by done. unfold be_bytes. simpl. f_equal. unfold is_u16 in Hv. zdm.
Qed.

Lemma bswap32_be v : is_u32 v → le_bytes 4 (ow_bswap32 v) = be_bytes 4 v.
Proof.
  intros Hv. rewrite bswap32_spec by done. unfold be_bytes. cbn [le_bytes rev app].
  set (b0 := v mod 256). set (b1 := v / 2 ^ 8 mod 256). set (b2 := v / 2 ^ 16 mod 256).
  set (b3 := v / 2 ^ 24). unfold is_u32 in Hv.
  assert (v / 256 mod 256 = b1) as -> by reflexivity.
  assert (v / 256 / 256 mod 256 = b2) as -> by (rewrite Z.div_div by lia; reflexivity).
  assert (v / 256 / 256 / 256 mod 256 = b3) as ->.
  { rewrite !Z.div_div by lia. subst b3. change (256 * 256 * 256) with (2 ^ 24). zdm. }
  assert (0 ≤ b0 < 256) by (apply Z.mod_pos_bound; lia).
  assert (0 ≤ b1 < 256) by (apply Z.mod_pos_bound; lia).
  assert (0 ≤ b2 < 256) by (apply Z.mod_pos_bound; lia).
  assert (0 ≤ b3 < 256) by (subst b3; zdm). clearbody b0 b1 b2 b3.
  set (x := 2 ^ 24 * b0 + 2 ^ 16 * b1 + 2 ^ 8 * b2 + b3).
  assert (x / 256 = 2 ^ 16 * b0 + 2 ^ 8 * b1 + b2) as -> by (subst x; zdm).
  assert ((2 ^ 16 * b0 + 2 ^ 8 * b1 + b2) / 256 = 2 ^ 8 * b0 + b1) as -> by zdm.
  assert ((2 ^ 8 * b0 + b1) / 256 = b0) as -> by zdm.
  repeat (f_equal; [subst x; zdm|]). f_equal. zdm.
Qed.

(** Storing a field between two known parts of the buffer, and reading it. *)
Lemma put_field_at n p q r off v :
  off = Z.of_nat (length p) → length q = n →
  put_field n (p ++ q ++ r) off v = Some (p ++ le_bytes n v ++ r).
Proof.
  intros -> Hq. unfold put_field.
  rewrite awrite_in by (rewrite ?length_app, ?le_bytes_length; lia).
  rewrite Nat2Z.id, le_bytes_length, take_app_length, <-Hq. f_equal. f_equal. f_equal.
  by rewrite <-length_app, app_assoc, drop_app_length.
Qed.

Lemma get_field_at n p r off v :
  off = Z.of_nat (length p) → 0 ≤ v < 256 ^ Z.of_nat n →
  get_field n (p ++ le_bytes n v ++ r) off = Some v.
Proof.
  intros -> Hv. unfold get_field. rewrite aslice_in by (rewrite ?length_app, ?le_bytes_length; lia).
  rewrite !Nat2Z.id, drop_app_length, take_app_length' by (by rewrite le_bytes_length).
  by rewrite obind_Some, le_le_bytes.
Qed.

(** ** Filling a buffer front to back *)

Lemma put_next n (p r : list Z) off v :
  off = Z.of_nat (length p) → (n ≤ length r)%nat →
  put_field n (p ++ r) off v = Some ((p ++ le_bytes n v) ++ drop n r).
Proof.
  intros E Hn. rewrite <-(take_drop n r) at 1. rewrite (put_field_at n p (take n r)); [|done|].
  - by rewrite app_assoc.
  - rewrite length_take. lia.
Qed.

Lemma copy_next (n : nat) (src p r : list Z) off :
  off = Z.of_nat (length p) → (n ≤ length src)%nat → (n ≤ length r)%nat →
  copy_at (Z.of_nat n) src 0 (p ++ r) off = Some ((p ++ take n src) ++ drop n r).
Proof.
  intros -> Hs Hr. change 0 with (Z.of_nat 0). rewrite copy_at_spec by (rewrite ?length_app; lia).
  by rewrite drop_0, take_app_length, drop_app_add, app_assoc.
Qed.

Lemma aset_next (p : list Z) x r off y :
  off = Z.of_nat (length p) → aset (p ++ x :: r) off y = Some ((p ++ [y]) ++ r).
Proof. intros ->. rewrite aset_app_here. by rewrite <-app_assoc. Qed.

(** Chains of consecutive fields. *)
Ltac fill_next := rewrite put_next, obind_Some by (rewrite ?length_app, ?length_drop, ?le_bytes_length; simpl; lia).

(** Twenty bytes, cell by cell. *)
Lemma split_header (buf : list Z) :
  (20 ≤ length buf)%nat →
  ∃ x0 x1 x2 x3 x4 x5 x6 x7 x8 x9 x10 x11 x12 x13 x14 x15 x16 x17 x18 x19,
    buf = [x0; x1; x2; x3; x4; x5; x6; x7; x8; x9; x10; x11; x12; x13; x14; x15; x16; x17; x18; x19]
          ++ drop 20 buf.
Proof.
  intros H. do 20 (destruct buf as [|? buf]; [simpl in H; lia|]). simpl. by do 20 eexists.
Qed.

Lemma put_header_spec buf sp dp seq ack fl win :
  (20 ≤ length buf)%nat → is_u16 sp → is_u16 dp → is_u32 seq → is_u32 ack → 0 ≤ fl < 256 →
  is_u16 win →
  put_header buf sp dp seq ack fl (ow_bswap16 win) =
    Some (wire_header sp dp seq ack fl win 0 ++ drop 20 buf).
Proof.
  intros Hlen Hsp Hdp Hseq Hack Hfl Hwin. destruct (split_header buf Hlen) as
    (x0 & x1 & x2 & x3 & x4 & x5 & x6 & x7 & x8 & x9 & x10 & x11 & x12 & x13 & x14 & x15 & x16 &
     x17 & x18 & x19 & E). rewrite E at 1. set (r := drop 20 buf). clearbody r. clear E Hlen buf.
  unfold put_header, wire_header.
  assert (le_bytes 1 fl = [fl]) as Ef by (simpl; by rewrite Z.mod_small by lia).
  pose proof (bswap16_be sp Hsp) as E1. pose proof (bswap16_be dp Hdp) as E2.
  pose proof (bswap32_be seq Hseq) as E3. pose proof (bswap32_be ack Hack) as E4.
  pose proof (bswap16_be win Hwin) as E5.
  set (S := be_bytes 2 sp) in *. set (D := be_bytes 2 dp) in *. set (Q := be_bytes 4 seq) in *.
  set (A := be_bytes 4 ack) in *. set (N := be_bytes 2 win) in *.
  assert (length S = 2%nat) by done. assert (length D = 2%nat) by done.
  assert (length Q = 4%nat) by done. assert (length A = 4%nat) by done.
  assert (length N = 2%nat) by done. clearbody S D Q A N.
  rewrite (put_field_at 2 [] [x0; x1] ([x2; x3; x4; x5; x6; x7; x8; x9; x10; x11; x12; x13; x14;
    x15; x16; x17; x18; x19] ++ r)), obind_Some, E1 by done. cbn [app].
  rewrite (put_field_at 2 S [x2; x3] ([x4; x5; x6; x7; x8; x9; x10; x11; x12; x13; x14;
    x15; x16; x17; x18; x19] ++ r)), obind_Some, E2 by (simpl; lia).
  rewrite (app_assoc S D).
  rewrite (put_field_at 4 (S ++ D) [x4; x5; x6; x7] ([x8; x9; x10; x11; x12; x13; x14;
    x15; x16; x17; x18; x19] ++ r)), obind_Some, E3 by (rewrite ?length_app; simpl; lia).
  rewrite (app_assoc (S ++ D) Q).
  rewrite (put_field_at 4 ((S ++ D) ++ Q) [x8; x9; x10; x11] ([x12; x13; x14;
    x15; x16; x17; x18; x19] ++ r)), obind_Some, E4 by (rewrite ?length_app; simpl; lia).
  rewrite (app_assoc ((S ++ D) ++ Q) A). set (P := ((S ++ D) ++ Q) ++ A).
  assert (length P = 12%nat) by (subst P; rewrite ?length_app; lia).
  rewrite (put_field_at 1 P [x12] ([x13; x14; x15; x16; x17; x18; x19] ++ r)), obind_Some
    by (simpl; lia). change (le_bytes 1 _) with [80].
  rewrite (app_assoc P [80]).
  rewrite (put_field_at 1 (P ++ [80]) [x13] ([x14; x15; x16; x17; x18; x19] ++ r)), obind_Some, Ef
    by (rewrite ?length_app; simpl; lia). rewrite (app_assoc (P ++ [80]) [fl]).
  rewrite (put_field_at 2 ((P ++ [80]) ++ [fl]) [x14; x15] ([x16; x17; x18; x19] ++ r)), obind_Some, E5
    by (rewrite ?length_app; simpl; lia). rewrite (app_assoc ((P ++ [80]) ++ [fl]) N).
  rewrite (put_field_at 2 (((P ++ [80]) ++ [fl]) ++ N) [x16; x17] ([x18; x19] ++ r)), obind_Some
    by (rewrite ?length_app; simpl; lia). change (le_bytes 2 0) with [0; 0].
  rewrite (app_assoc (((P ++ [80]) ++ [fl]) ++ N) [0; 0]).
  rewrite (put_field_at 2 ((((P ++ [80]) ++ [fl]) ++ N) ++ [0; 0]) [x18; x19] r)
    by (rewrite ?length_app; simpl; lia).
  subst P. f_equal. change (be_bytes 2 0) with [0; 0]. change (le_bytes 2 0) with [0; 0].
  rewrite <-!app_assoc. cbn [app]. by rewrite <-!app_assoc.
Qed.

Lemma get_byte_at p r off b :
  off = Z.of_nat (length p) → get_field 1 (p ++ [b] ++ r) off = Some b.
Proof.
  intros ->. unfold get_field. rewrite aslice_in by (rewrite ?length_app; simpl; lia).
  rewrite !Nat2Z.id, drop_app_length. simpl. f_equal. lia.
Qed.

Lemma get_be16 p r off v :
  off = Z.of_nat (length p) → is_u16 v →
  get_field 2 (p ++ be_bytes 2 v ++ r) off = Some (ow_bswap16 v).
Proof. intros. rewrite <-bswap16_be by done. apply get_field_at; [done|]. by apply bswap16_range. Qed.

Lemma get_be32 p r off v :
  off = Z.of_nat (length p) → is_u32 v →
  get_field 4 (p ++ be_bytes 4 v ++ r) off = Some (ow_bswap32 v).
Proof. intros. rewrite <-bswap32_be by done. apply get_field_at; [done|]. by apply bswap32_range. Qed.

(** A well-formed segment is parsed into the fields it was built from. *)
Lemma parse_wire sp dp seq ack fl win csum payload len :
  is_u16 sp → is_u16 dp → is_u32 seq → is_u32 ack → is_u16 win →
  len = Z.of_nat (length payload) → len < 2 ^ 31 →
  parse_segment (wire_header sp dp seq ack fl win csum ++ payload) (20 + len) =
    Some (Some (mk_segment sp dp seq ack fl win 20 len)).
Proof.
  intros Hsp Hdp Hseq Hack Hwin -> Hlen. unfold parse_segment.
  set (w := wire_header sp dp seq ack fl win csum ++ payload).
  assert (get_field 2 w 0 = Some (ow_bswap16 sp)) as ->.
  { exact (get_be16 [] (be_bytes 2 dp ++ be_bytes 4 seq ++ be_bytes 4 ack ++ [80; fl] ++
      be_bytes 2 win ++ be_bytes 2 csum ++ [0; 0] ++ payload) 0 sp eq_refl Hsp). }
  assert (get_field 2 w 2 = Some (ow_bswap16 dp)) as ->.
  { exact (get_be16 (be_bytes 2 sp) (be_bytes 4 seq ++ be_bytes 4 ack ++ [80; fl] ++
      be_bytes 2 win ++ be_bytes 2 csum ++ [0; 0] ++ payload) 2 dp eq_refl Hdp). }
  assert (get_field 4 w 4 = Some (ow_bswap32 seq)) as ->.
  { exact (get_be32 (be_bytes 2 sp ++ be_bytes 2 dp) (be_bytes 4 ack ++ [80; fl] ++
      be_bytes 2 win ++ be_bytes 2 csum ++ [0; 0] ++ payload) 4 seq eq_refl Hseq). }
  assert (get_field 4 w 8 = Some (ow_bswap32 ack)) as ->.
  { exact (get_be32 (be_bytes 2 sp ++ be_bytes 2 dp ++ be_bytes 4 seq) ([80; fl] ++
      be_bytes 2 win ++ be_bytes 2 csum ++ [0; 0] ++ payload) 8 ack eq_refl Hack). }
  assert (get_field 1 w 13 = Some fl) as ->.
  { exact (get_byte_at (be_bytes 2 sp ++ be_bytes 2 dp ++ be_bytes 4 seq ++ be_bytes 4 ack ++ [80])
      (be_bytes 2 win ++ be_bytes 2 csum ++ [0; 0] ++ payload) 13 fl eq_refl). }
  assert (get_field 2 w 14 = Some (ow_bswap16 win)) as ->.
  { exact (get_be16 (be_bytes 2 sp ++ be_bytes 2 dp ++ be_bytes 4 seq ++ be_bytes 4 ack ++ [80; fl])
      (be_bytes 2 csum ++ [0; 0] ++ payload) 14 win eq_refl Hwin). }
  assert (get_field 1 w 12 = Some 80) as ->.
  { exact (get_byte_at (be_bytes 2 sp ++ be_bytes 2 dp ++ be_bytes 4 seq ++ be_bytes 4 ack)
      ([fl] ++ be_bytes 2 win ++ be_bytes 2 csum ++ [0; 0] ++ payload) 12 80 eq_refl). }
  rewrite !obind_Some. change (u32 (Z.shiftr 80 4 * 4)) with 20. change TCP_HDR_LEN with 20.
  rewrite Z.ltb_irrefl, (proj2 (Z.ltb_ge _ _)) by lia. cbn [orb].
  rewrite !bswap16_invol, !bswap32_invol, u32_small by (done || lia).
  repeat f_equal. lia.
Qed.

(** ** Sender and receiver checksums *)

Lemma wsum_be v : is_u16 v → wsum (be_bytes 2 v) = v.
Proof. unfold is_u16. intros. unfold be_bytes. simpl. zdm. Qed.

Lemma wire_wsum sp dp seq ack fl win csum payload :
  is_u16 csum →
  wsum (wire_header sp dp seq ack fl win csum ++ payload) =
    wsum (wire_header sp dp seq ack fl win 0 ++ payload) + csum.
Proof.
  intros Hc. unfold wire_header.
  assert (∀ c, (be_bytes 2 sp ++ be_bytes 2 dp ++ be_bytes 4 seq ++ be_bytes 4 ack ++ [80; fl] ++
    be_bytes 2 win ++ be_bytes 2 c ++ [0; 0]) ++ payload =
    (be_bytes 2 sp ++ be_bytes 2 dp ++ be_bytes 4 seq ++ be_bytes 4 ack ++ [80; fl] ++
    be_bytes 2 win) ++ be_bytes 2 c ++ [0; 0] ++ payload) as Ha by done.
  rewrite !Ha. set (p := be_bytes 2 sp ++ _).
  rewrite !(wsum_app_even p), (wsum_app_even (be_bytes 2 csum) ([0; 0] ++ payload)), wsum_be by done.
  change (wsum (be_bytes 2 0 ++ [0; 0] ++ payload)) with (wsum ([0; 0] ++ payload)). lia.
Qed.

Lemma fold16_compl x :
  0 < x → let c := 65535 - fold16 x in
  is_u16 (if c =? 0 then 0xFFFF else c) ∧ fold16 (x + (if c =? 0 then 0xFFFF else c)) = 65535.
Proof.
  intros Hx. cbv zeta. unfold is_u16, fold16. rewrite (proj2 (Z.eqb_neq x 0)) by lia.
  set (r := (x - 1) mod 65535). set (q := (x - 1) / 65535).
  assert (x = 65535 * q + r + 1 ∧ 0 ≤ r < 65535 ∧ 0 ≤ q) as (Ex & Hr & Hq) by (subst r q; zdm).
  clearbody r q. destruct (Z.eqb_spec (65535 - (r + 1)) 0);
    (rewrite (proj2 (Z.eqb_neq _ 0)) by lia); split; [lia|..]; subst x; zdm.
Qed.

(** Filling in the checksum of a segment in the transmit buffer makes the
    receiver's check succeed. *)
Lemma put_checksum_spec sp dp seq ack fl win payload rest src dst len :
  is_u32 src → is_u32 dst → 0 ≤ fl < 256 → octets payload → octets rest →
  len = Z.of_nat (length payload) → len ≤ 60000 →
  ∃ csum, is_u16 csum ∧
    put_checksum (wire_header sp dp seq ack fl win 0 ++ payload ++ rest) src dst (20 + len) =
      Some (wire_header sp dp seq ack fl win csum ++ payload ++ rest) ∧
    tcp_checksum src dst (wire_header sp dp seq ack fl win csum ++ payload) (20 + len) = Some 0.
Proof.
  intros Hsrc Hdst Hfl Hp Hr -> Hlen. unfold put_checksum.
  assert (∀ c, octets (wire_header sp dp seq ack fl win c)) as Hw by (intros; by apply wire_header_octets).
  assert (∀ c, length (wire_header sp dp seq ack fl win c) = 20%nat) as Hl by done.
  rewrite tcp_checksum_spec;
    [|apply Forall_app; split; [apply Hw|by apply Forall_app]|done|done|lia|rewrite !length_app, Hl; lia].
  rewrite obind_Some.
  replace (take (Z.to_nat (20 + Z.of_nat (length payload))) (wire_header sp dp seq ack fl win 0 ++ payload ++ rest))
    with (wire_header sp dp seq ack fl win 0 ++ payload).
  2:{ rewrite app_assoc, take_app_length' by (rewrite length_app, Hl; lia). done. }
  set (x := addr_sum src + addr_sum dst + 6 + (20 + Z.of_nat (length payload)) +
    wsum (wire_header sp dp seq ack fl win 0 ++ payload)).
  assert (0 < x) as Hx.
  { destruct (tcp_sum_addr_spec 0 src) as [_ ?]; [lia|done|].
    destruct (tcp_sum_addr_spec 0 dst) as [_ ?]; [lia|done|].
    pose proof (wsum_bounds (wire_header sp dp seq ack fl win 0 ++ payload)) as [? _];
      [apply Forall_app; split; [apply Hw|done]|]. lia. }
  destruct (fold16_compl x Hx) as [Hc Hf]. set (csum := if _ =? 0 then 0xFFFF else _) in *.
  exists csum. split; [done|]. split.
  - unfold wire_header. change (be_bytes 2 0) with [0; 0].
    set (p := be_bytes 2 sp ++ be_bytes 2 dp ++ be_bytes 4 seq ++ be_bytes 4 ack ++ [80; fl] ++
      be_bytes 2 win).
    pose proof (put_field_at 2 p [0; 0] ([0; 0] ++ payload ++ rest) 16 (ow_bswap16 csum) eq_refl eq_refl) as E.
    rewrite bswap16_be in E by done. exact E.
  - rewrite tcp_checksum_spec;
      [|apply Forall_app; split; [apply Hw|done]|done|done|lia|rewrite !length_app, Hl; lia].
    rewrite firstn_all2 by (rewrite length_app, Hl; lia).
    rewrite wire_wsum by done. f_equal.
    replace (addr_sum src + _ + _ + _ + _) with (x + csum) by (subst x; lia). rewrite Hf. lia.
Qed.
