(* ===== verification/TcpConn.v ===== *)
(** The connection table: its invariant and the effect of transmitting a
    segment on it. *)
From S2P Require Import Prelude Tcpcore TcpSeg.

(** ** Invariant *)

(** A segment of connection [c] with sequence number [seq]: what the receiver
    of these bytes reads from them. *)
Record segment_of (c : tcp_conn_t) (seq fl : Z) (payload seg : list Z) : Prop := {
  so_bytes : ∃ ack win csum, is_u32 ack ∧ is_u16 win ∧ is_u16 csum ∧
    seg = wire_header (cn_local_port c) (cn_remote_port c) seq ack fl win csum ++ payload;
  so_small : (length payload ≤ 1460)%nat;
  so_octets : octets seg;
  so_check : tcp_checksum (cn_local_ip c) (cn_remote_ip c) seg
               (20 + Z.of_nat (length payload)) = Some 0
}.

(** The sequence space a segment occupies. *)
Definition seq_len (fl : Z) (payload : list Z) : Z :=
  Z.of_nat (length payload) + (if nz (Z.land fl TCP_SYN) then 1 else 0) +
  (if nz (Z.land fl TCP_FIN) then 1 else 0).

(** The retransmit buffer holds the segment that ends at [cn_tx_end_seq]. *)
Definition saved (c : tcp_conn_t) : Prop :=
  ∃ fl payload, segment_of c (cn_tx_seq c) fl payload (take (Z.to_nat (cn_tx_len c)) (cn_tx_buf c)) ∧
    cn_tx_len c = 20 + Z.of_nat (length payload) ∧
    cn_tx_end_seq c = u32 (cn_tx_seq c + seq_len fl payload).

(** States in which the own side may still send data. *)
Definition sending (st : tcp_state_t) : bool :=
  bool_decide (st = TCP_STATE_ESTABLISHED) || bool_decide (st = TCP_STATE_CLOSE_WAIT).
Definition opening (st : tcp_state_t) : bool :=
  bool_decide (st = TCP_STATE_SYN_SENT) || bool_decide (st = TCP_STATE_SYN_RCVD).

(** How much sequence space may be unacknowledged: one segment, and the FIN
    behind it once the connection is being closed. *)
Definition outstanding (c : tcp_conn_t) : Z := u32 (cn_snd_nxt c - cn_snd_una c).
Definition send_limit (st : tcp_state_t) : Z :=
  if sending st then 1460 else if opening st then 1 else 1461.

(** Bounds of the fields. *)
Record conn_base (c : tcp_conn_t) : Prop := {
  co_rx_buf : length (cn_rx_buf c) = 4096%nat ∧ octets (cn_rx_buf c);
  co_rx_len : 0 ≤ cn_rx_len c ≤ 4096;
  co_tx_buf : length (cn_tx_buf c) = 1480%nat ∧ octets (cn_tx_buf c);
  co_tx_len : 0 ≤ cn_tx_len c ≤ 1480;
  co_ips : is_u32 (cn_local_ip c) ∧ is_u32 (cn_remote_ip c);
  co_ports : is_u16 (cn_local_port c) ∧ is_u16 (cn_remote_port c);
  co_seqs : is_u32 (cn_snd_una c) ∧ is_u32 (cn_snd_nxt c) ∧ is_u32 (cn_rcv_nxt c) ∧
            is_u32 (cn_iss c);
  co_wnd : is_u16 (cn_rcv_wnd c);
  co_rto : 0 ≤ cn_rto c ≤ 1000 ∧ 0 ≤ cn_rto_timer c ≤ 1000;
  co_timer : 0 ≤ cn_time_wait_timer c ≤ 500;
  co_used : if cn_used c then cn_state c ≠ TCP_STATE_CLOSED ∧ cn_state c ≠ TCP_STATE_LISTEN
            else c = zero_conn
}.

(** States before the own FIN. *)
Definition before_fin (st : tcp_state_t) : bool := sending st || opening st.

(** Stop and wait: nothing is outstanding without a segment to retransmit; until
    the own FIN is sent everything outstanding belongs to that one segment, and
    then at most one data segment and the FIN are outstanding. *)
Record conn_flow (c : tcp_conn_t) : Prop := {
  co_opening : opening (cn_state c) = true →
    cn_tx_pending c = true ∧ cn_snd_una c = cn_iss c ∧ cn_snd_nxt c = u32 (cn_iss c + 1);
  co_idle : cn_tx_pending c = false → cn_snd_una c = cn_snd_nxt c;
  co_busy : cn_tx_pending c = true →
    saved c ∧ cn_tx_end_seq c = cn_snd_nxt c ∧ 1 ≤ outstanding c ≤ send_limit (cn_state c);
  co_alone : cn_tx_pending c = true → before_fin (cn_state c) = true →
    outstanding c ≤ u32 (cn_tx_end_seq c - cn_tx_seq c)
}.

Definition conn_ok (c : tcp_conn_t) : Prop := conn_base c ∧ conn_flow c.

Record core_ok (k : tcpcore_t) : Prop := {
  ck_conns : length (tc_conns k) = 8%nat;
  ck_conn : ∀ i c, aget (tc_conns k) i = Some c → conn_ok c;
  ck_listeners : length (tc_listeners k) = 4%nat;
  ck_scratch : length (tc_scratch k) = 1480%nat ∧ octets (tc_scratch k)
}.

Lemma zero_conn_ok : conn_ok zero_conn.
Proof.
  assert (∀ n, octets (replicate n 0)) by (intros; by apply Forall_replicate).
  split; constructor; cbn [zero_conn cn_state cn_used cn_passive cn_accepted cn_tx_pending cn_local_ip
    cn_remote_ip cn_local_port cn_remote_port cn_snd_una cn_snd_nxt cn_rcv_nxt cn_rcv_wnd cn_iss
    cn_rto cn_rto_timer cn_time_wait_timer cn_tx_len cn_rx_len cn_rx_buf cn_tx_buf];
    unfold is_u16, is_u32; rewrite ?length_replicate; try done; try lia.
Qed.

(** ** Slots *)

Definition with_conn (k : tcpcore_t) (i : Z) (c : tcp_conn_t) : tcpcore_t :=
  k <| tc_conns := <[Z.to_nat i := c]> (tc_conns k) |>.

Lemma put_conn_in k i c x :
  aget (tc_conns k) i = Some x → put_conn k i c = Some (with_conn k i c).
Proof. intros H%aget_lt. unfold put_conn. by rewrite aset_in. Qed.

Lemma with_conn_get k i c x j :
  aget (tc_conns k) i = Some x →
  aget (tc_conns (with_conn k i c)) j = if decide (i = j) then Some c else aget (tc_conns k) j.
Proof. intros H%aget_lt. unfold with_conn. simpl. by apply aget_insert. Qed.

Lemma with_conn_twice k i c c' : with_conn (with_conn k i c) i c' = with_conn k i c'.
Proof. unfold with_conn. simpl. by rewrite list_insert_insert_eq. Qed.

Lemma with_conn_ok k i c x :
  core_ok k → aget (tc_conns k) i = Some x → conn_ok c → core_ok (with_conn k i c).
Proof.
  intros [H1 H2 H3 H4] Hx Hc. constructor; [simpl; by rewrite length_insert| |done|done].
  intros j d. rewrite (with_conn_get _ _ _ _ _ Hx). case_decide; [naive_solver|eauto].
Qed.

(** ** Transmission *)

Definition put_scratch (k : tcpcore_t) (s : list Z) : tcpcore_t := k <| tc_scratch := s |>.

(** The connection after a segment left it. *)
Definition emitted (c : tcp_conn_t) (fl : Z) (payload : list Z) (save : bool) (seg : list Z)
    : tcp_conn_t :=
  let c' := c <| cn_snd_nxt := u32 (cn_snd_nxt c + seq_len fl payload) |> in
  if save then
    c' <| cn_tx_buf := seg ++ drop (length seg) (cn_tx_buf c) |>
       <| cn_tx_len := 20 + Z.of_nat (length payload) |> <| cn_tx_seq := cn_snd_nxt c |>
       <| cn_tx_end_seq := u32 (cn_snd_nxt c + seq_len fl payload) |>
       <| cn_tx_pending := true |> <| cn_rto := TCP_INITIAL_RTO |>
       <| cn_rto_timer := TCP_INITIAL_RTO |>
  else c'.

Lemma u32_add_l a b : u32 (u32 a + b) = u32 (a + b).
Proof. unfold u32, wrap. by rewrite Zplus_mod_idemp_l. Qed.

Lemma advance_seq nxt fl payload :
  (let a := u32 (nxt + Z.of_nat (length payload)) in
   let a := if nz (Z.land fl TCP_SYN) then u32 (a + 1) else a in
   if nz (Z.land fl TCP_FIN) then u32 (a + 1) else a) = u32 (nxt + seq_len fl payload).
Proof.
  unfold seq_len. cbv zeta.
  repeat case_if; rewrite ?u32_add_l, <-?Z.add_assoc, ?u32_add_l; f_equal; lia.
Qed.

(** The payload behind the header in the transmit buffer. *)
Lemma stage_payload (hdr s data payload : list Z) :
  length hdr = 20%nat → (20 + length payload ≤ length s)%nat → payload = take (length payload) data →
  (if nz (Z.of_nat (length payload)) then
     copy_at (Z.of_nat (length payload)) data 0 (hdr ++ drop 20 s) TCP_HDR_LEN
   else Some (hdr ++ drop 20 s)) = Some (hdr ++ payload ++ drop (20 + length payload) s).
Proof.
  intros Hh Hs Hdata. destruct payload as [|b p]; [done|]. cbv iota. change (nz _) with true. cbv iota.
  set (n := length (b :: p)) in *. change TCP_HDR_LEN with (Z.of_nat 20). change 0 with (Z.of_nat 0) at 1.
  assert (n ≤ length data)%nat by (apply (f_equal length) in Hdata; rewrite length_take in Hdata; lia).
  rewrite copy_at_spec; [|simpl; lia|rewrite length_app, length_drop; lia].
  rewrite drop_0, <-Hdata, (take_app_length' hdr) by done. do 3 f_equal.
  rewrite <-Hh at 1. by rewrite drop_app_add, drop_drop.
Qed.

(** The copy of the segment for retransmission. *)
Lemma save_segment c fl payload (seg rest : list Z) (save : bool) :
  length seg = (20 + length payload)%nat → (length seg ≤ length (cn_tx_buf c))%nat →
  (if save then
     tx ← copy_at (20 + Z.of_nat (length payload)) (seg ++ rest) 0 (cn_tx_buf c) 0;
     Some (c <| cn_snd_nxt := u32 (cn_snd_nxt c + seq_len fl payload) |> <| cn_tx_buf := tx |>
             <| cn_tx_len := 20 + Z.of_nat (length payload) |> <| cn_tx_seq := cn_snd_nxt c |>
             <| cn_tx_end_seq := u32 (cn_snd_nxt c + seq_len fl payload) |>
             <| cn_tx_pending := true |> <| cn_rto := TCP_INITIAL_RTO |>
             <| cn_rto_timer := TCP_INITIAL_RTO |>)
   else Some (c <| cn_snd_nxt := u32 (cn_snd_nxt c + seq_len fl payload) |>)) =
    Some (emitted c fl payload save seg).
Proof.
  intros Hseg Htx. destruct save; [|done].
  rewrite copy_at_Z by (rewrite ?length_app, ?length_drop, ?Hseg; lia).
  rewrite obind_Some. unfold emitted. cbv zeta. f_equal. f_equal.
  change (Z.to_nat 0) with 0%nat. rewrite drop_0, take_0, Z.add_0_l. cbn [app].
  replace (Z.to_nat (20 + Z.of_nat (length payload))) with (length seg) by lia.
  by rewrite take_app_length.
Qed.

(** What an emitted segment does to the invariant. *)
Lemma segment_length c seq fl payload seg :
  segment_of c seq fl payload seg → length seg = (20 + length payload)%nat.
Proof. intros [(a & w & cs & _ & _ & _ & ->) _ _ _]. done. Qed.

Lemma segment_of_eq c c' seq fl payload seg :
  cn_local_ip c' = cn_local_ip c → cn_remote_ip c' = cn_remote_ip c →
  cn_local_port c' = cn_local_port c → cn_remote_port c' = cn_remote_port c →
  segment_of c seq fl payload seg → segment_of c' seq fl payload seg.
Proof. intros E1 E2 E3 E4 [H1 H2 H3 H4]. constructor; rewrite ?E1, ?E2, ?E3, ?E4; done. Qed.

Lemma u32_is_u32 z : is_u32 (u32 z).
Proof. apply u32_range. Qed.

Lemma emitted_base c fl payload save seg :
  conn_base c → cn_used c = true → segment_of c (cn_snd_nxt c) fl payload seg →
  conn_base (emitted c fl payload save seg).
Proof.
  intros [B1 B2 [B3 B3'] B4 B5 B6 (B7 & B7' & B7'' & B7''') B8 B9 B10 B11] Hu Hs.
  pose proof (segment_length _ _ _ _ _ Hs) as Hl. destruct Hs as [_ Hsm Ho _].
  unfold emitted. destruct save; constructor; cbn [set_field eta_conn cn_state cn_used cn_passive
    cn_accepted cn_tx_pending cn_local_ip cn_remote_ip cn_local_port cn_remote_port cn_snd_una
    cn_snd_nxt cn_snd_wnd cn_rcv_nxt cn_rcv_wnd cn_iss cn_irs cn_rto cn_rto_timer
    cn_time_wait_timer cn_tx_seq cn_tx_end_seq cn_tx_len cn_mss cn_rx_len cn_rx_buf cn_tx_buf];
    rewrite ?Hu in *; try done; auto using u32_is_u32; try lia.
  - split; [rewrite length_app, length_drop; lia|]. apply Forall_app. split; [done|by apply Forall_drop].
Qed.

Section emit.
Context {W : Type} (call : Z → Z → Z → Z → list Z → W → W * Z).

(** Every transmitted segment carries the connection's ports, sequence and
    acknowledgement numbers and the payload, and passes the receiver's check. *)
Lemma tcp_emit_spec k i c fl data payload save w :
  length (tc_scratch k) = 1480%nat → octets (tc_scratch k) →
  aget (tc_conns k) i = Some c → conn_base c → 0 ≤ fl < 256 →
  octets payload → (length payload ≤ 1460)%nat → payload = take (length payload) data →
  ∃ seg csum, is_u16 csum ∧
    seg = wire_header (cn_local_port c) (cn_remote_port c) (cn_snd_nxt c) (cn_rcv_nxt c) fl
            (cn_rcv_wnd c) csum ++ payload ∧
    segment_of c (cn_snd_nxt c) fl payload seg ∧
    let '(w', st) := call (tc_ip_tx k) (tc_ip_ctx k) (cn_local_ip c) (cn_remote_ip c) seg w in
    tcp_emit call k i fl data (Z.of_nat (length payload)) save w =
      Some (w', put_scratch (with_conn k i (emitted c fl payload save seg))
                  (seg ++ drop (length seg) (tc_scratch k)), st).
Proof.
  intros Hs1 Hs2 Hc Hok Hfl Hoct Hlen Hdata.
  destruct (co_ports _ Hok), (co_ips _ Hok), (co_seqs _ Hok) as (_ & ? & ? & _).
  pose proof (co_wnd _ Hok) as Hw. destruct (co_tx_buf _ Hok) as [Htx _].
  destruct (put_checksum_spec (cn_local_port c) (cn_remote_port c) (cn_snd_nxt c) (cn_rcv_nxt c) fl
    (cn_rcv_wnd c) payload (drop (20 + length payload) (tc_scratch k)) (cn_local_ip c) (cn_remote_ip c)
    (Z.of_nat (length payload))) as (csum & Hcs & Ecs & Echk);
    [done|done|done|done|by apply Forall_drop|done|lia|].
  set (seg := wire_header _ _ _ _ _ _ csum ++ payload) in *.
  assert (length seg = (20 + length payload)%nat) as Hseg by done.
  exists seg, csum. split; [done|]. split; [done|]. split.
  { constructor; [by exists (cn_rcv_nxt c), (cn_rcv_wnd c), csum|lia| |done].
    apply Forall_app. split; [by apply wire_header_octets|done]. }
  destruct (call _ _ _ _ seg w) as [w' st] eqn:Ecall.
  unfold tcp_emit, TCP_MSS. rewrite (proj2 (Z.ltb_ge _ _)) by lia.
  rewrite Hc, obind_Some, (u16_small (cn_rcv_wnd c)), put_header_spec, obind_Some by (done || lia).
  rewrite (stage_payload _ _ data payload), obind_Some by (done || lia).
  change (TCP_HDR_LEN + Z.of_nat (length payload)) with (20 + Z.of_nat (length payload)).
  rewrite Ecs, obind_Some. cbv zeta.
  pose proof (advance_seq (cn_snd_nxt c) fl payload) as Eadv. cbv zeta in Eadv. rewrite !Eadv.
  replace (wire_header _ _ _ _ _ _ csum ++ payload ++ drop (20 + length payload) (tc_scratch k))
    with (seg ++ drop (length seg) (tc_scratch k)) by (by rewrite Hseg; unfold seg; rewrite <-app_assoc).
  erewrite (save_segment c fl payload seg _ save) by lia.
  rewrite obind_Some, (put_conn_in _ i _ c), obind_Some by done.
  unfold ip_tx. cbn [tc_scratch tc_ip_tx tc_ip_ctx with_conn set_field].
  rewrite aslice_in by (rewrite ?length_app, ?Hseg; lia). rewrite obind_Some.
  replace (Z.to_nat (20 + Z.of_nat (length payload))) with (length seg) by lia.
  change (Z.to_nat 0) with 0%nat. rewrite drop_0, take_app_length.
  replace (cn_local_ip (emitted c fl payload save seg)) with (cn_local_ip c) by (by destruct save).
  replace (cn_remote_ip (emitted c fl payload save seg)) with (cn_remote_ip c) by (by destruct save).
  by rewrite Ecall.
Qed.
End emit.

Lemma outstanding_range c : 0 ≤ outstanding c < 2 ^ 32.
Proof. apply u32_range. Qed.

Lemma u32_sub_add a b n : is_u32 a → u32 (u32 (a + n) - b) = u32 (u32 (a - b) + n).
Proof.
  intros. unfold u32, wrap. rewrite Zminus_mod_idemp_l, Zplus_mod_idemp_l. f_equal. lia.
Qed.

Lemma send_limit_bounds st : 1 ≤ send_limit st ≤ 1461.
Proof. unfold send_limit. repeat case_if; lia. Qed.

Lemma emitted_saved c fl payload seg :
  segment_of c (cn_snd_nxt c) fl payload seg → saved (emitted c fl payload true seg).
Proof.
  intros Hs. pose proof (segment_length _ _ _ _ _ Hs) as Hlen. exists fl, payload.
  change (cn_tx_len (emitted c fl payload true seg)) with (20 + Z.of_nat (length payload)).
  change (cn_tx_buf (emitted c fl payload true seg)) with (seg ++ drop (length seg) (cn_tx_buf c)).
  replace (Z.to_nat (20 + Z.of_nat (length payload))) with (length seg) by lia.
  rewrite take_app_length. split; [|split; reflexivity].
  apply (segment_of_eq c); try reflexivity. exact Hs.
Qed.

Lemma emitted_save_ok c fl payload seg :
  conn_base c → cn_used c = true → segment_of c (cn_snd_nxt c) fl payload seg →
  1 ≤ seq_len fl payload → outstanding c + seq_len fl payload ≤ send_limit (cn_state c) →
  (opening (cn_state c) = true → cn_snd_una c = cn_iss c ∧ cn_snd_nxt c = cn_iss c ∧
     seq_len fl payload = 1) →
  (before_fin (cn_state c) = true → outstanding c = 0) →
  conn_ok (emitted c fl payload true seg).
Proof.
  intros Hb Hu Hs H1 Hl Hop Hal. split; [by apply emitted_base|].
  pose proof (outstanding_range c) as Ho. set (c' := emitted c fl payload true seg).
  assert (cn_state c' = cn_state c) as Est by reflexivity.
  assert (cn_tx_pending c' = true) as Epe by reflexivity.
  assert (cn_snd_una c' = cn_snd_una c) as Eun by reflexivity.
  assert (cn_iss c' = cn_iss c) as Eis by reflexivity.
  assert (cn_snd_nxt c' = u32 (cn_snd_nxt c + seq_len fl payload)) as Enx by reflexivity.
  assert (cn_tx_end_seq c' = cn_snd_nxt c') as Een by reflexivity.
  pose proof (send_limit_bounds (cn_state c)).
  assert (outstanding c' = outstanding c + seq_len fl payload) as Eo.
  { unfold outstanding in *. rewrite Eun, Enx, u32_sub_add by apply (co_seqs _ Hb). rewrite u32_small; lia. }
  constructor; rewrite ?Est, ?Epe, ?Eun, ?Eis, ?Enx, ?Eo; [|done| |].
  - intros [E1 [E2 E3]]%Hop. by rewrite E1, E2, E3.
  - intros _. split; [by apply emitted_saved|]. split; [by rewrite Een, Enx|lia].
  - intros _ Hbf. rewrite Hal by done. rewrite Een, Enx. change (cn_tx_seq c') with (cn_snd_nxt c).
    rewrite u32_sub_add, Z.sub_diag by apply (co_seqs _ Hb). change (u32 0) with 0. rewrite u32_small; lia.
Qed.

Lemma emitted_ack c seg : is_u32 (cn_snd_nxt c) → emitted c TCP_ACK [] false seg = c.
Proof.
  intros H. unfold emitted. change (seq_len TCP_ACK []) with 0.
  rewrite Z.add_0_r, u32_small by done. by destruct c.
Qed.

(** ** Updates of one slot *)

(** [k'] is [k] with [c] in slot [i] and some content of the transmit buffer. *)
Definition updated (k : tcpcore_t) (i : Z) (c : tcp_conn_t) (k' : tcpcore_t) : Prop :=
  ∃ s, k' = put_scratch (with_conn k i c) s ∧ length s = 1480%nat ∧ octets s.

Lemma updated_get k i c k' x j :
  aget (tc_conns k) i = Some x → updated k i c k' →
  aget (tc_conns k') j = if decide (i = j) then Some c else aget (tc_conns k) j.
Proof. intros Hx (s & -> & _). by apply (with_conn_get _ _ _ x). Qed.

Lemma updated_here k i c k' x :
  aget (tc_conns k) i = Some x → updated k i c k' → aget (tc_conns k') i = Some c.
Proof. intros Hx Hu. rewrite (updated_get _ _ _ _ _ _ Hx Hu). by rewrite decide_True. Qed.

Lemma updated_refl k i c :
  core_ok k → aget (tc_conns k) i = Some c → updated k i c k.
Proof.
  intros Hk Hc. exists (tc_scratch k). split; [|apply Hk].
  unfold put_scratch, with_conn. apply aget_Some in Hc as [_ Hc].
  rewrite list_insert_id by done. by destruct k.
Qed.

Lemma updated_trans k i c k' c' k'' :
  updated k i c k' → updated k' i c' k'' → updated k i c' k''.
Proof.
  intros (s & -> & _) (s' & -> & Hs'). exists s'. split; [|done].
  unfold put_scratch, with_conn. simpl. by rewrite list_insert_insert_eq.
Qed.

Lemma updated_put k i c k' x :
  core_ok k → aget (tc_conns k) i = Some x → k' = with_conn k i c → updated k i c k'.
Proof. intros Hk _ ->. exists (tc_scratch k). split; [|apply Hk]. by destruct k. Qed.

Lemma updated_ok k i c k' x :
  core_ok k → aget (tc_conns k) i = Some x → conn_ok c → updated k i c k' → core_ok k'.
Proof.
  intros Hk Hx Hc (s & -> & Hs1 & Hs2).
  destruct (with_conn_ok _ _ _ _ Hk Hx Hc) as [H1 H2 H3 H4]. by constructor.
Qed.

Lemma updated_fields k i c k' :
  updated k i c k' → tc_listeners k' = tc_listeners k ∧ tc_initialized k' = tc_initialized k ∧
    tc_ip_tx k' = tc_ip_tx k ∧ tc_ip_ctx k' = tc_ip_ctx k ∧
    length (tc_scratch k') = 1480%nat ∧ octets (tc_scratch k').
Proof. by intros (s & -> & ? & ?). Qed.

Section emit_slot.
Context {W : Type} (call : Z → Z → Z → Z → list Z → W → W * Z).

(** Transmitting from a slot whose connection need not satisfy the flow part. *)
Lemma emit_slot k i c fl data payload save w :
  length (tc_scratch k) = 1480%nat → octets (tc_scratch k) →
  aget (tc_conns k) i = Some c → conn_base c → 0 ≤ fl < 256 →
  octets payload → (length payload ≤ 1460)%nat → payload = take (length payload) data →
  ∃ w' k' st seg, tcp_emit call k i fl data (Z.of_nat (length payload)) save w = Some (w', k', st) ∧
    segment_of c (cn_snd_nxt c) fl payload seg ∧
    updated k i (emitted c fl payload save seg) k'.
Proof.
  intros Hs1 Hs2 Hc Hb Hfl Ho Hl Hd.
  destruct (tcp_emit_spec call k i c fl data payload save w) as (seg & csum & _ & _ & Hseg & E); [done..|].
  destruct (call _ _ _ _ seg w) as [w' st]. exists w'. eexists. exists st, seg. split; [exact E|]. split; [done|].
  eexists. split; [done|]. pose proof (segment_length _ _ _ _ _ Hseg) as Hlen.
  split; [rewrite length_app, length_drop; lia|].
  apply Forall_app. split; [apply Hseg|by apply Forall_drop].
Qed.

(** A bare acknowledgement changes nothing but the transmit buffer. *)
Lemma emit_ack k i c w :
  core_ok k → aget (tc_conns k) i = Some c →
  ∃ w' k' st, tcp_emit call k i TCP_ACK [] 0 false w = Some (w', k', st) ∧ updated k i c k'.
Proof.
  intros Hk Hc. destruct (ck_conn _ Hk _ _ Hc) as [Hb _]. destruct (ck_scratch _ Hk).
  destruct (emit_slot k i c TCP_ACK [] [] false w) as (w' & k' & st & seg & E & _ & Hu);
    [done|done|done|done|done|constructor|simpl; lia|done|].
  rewrite emitted_ack in Hu by apply (co_seqs _ Hb). by exists w', k', st.
Qed.
End emit_slot.
