(* ===== verification/TcpInput.v ===== *)
(** Inbound segments: what each stage of [tcp_input] does to the connection it
    is for, and that every stage keeps the invariant. *)
From S2P Require Import Prelude Tcpcore TcpSeg TcpConn.

(** ** Sequence comparison within the window *)

Lemma seq_ge_outstanding c :
  outstanding c ≤ 2000 → tcp_seq_ge (cn_snd_una c) (cn_snd_nxt c) = (outstanding c =? 0).
Proof.
  intros Ho. pose proof (outstanding_range c) as Hr. unfold tcp_seq_ge, i32.
  assert (u32 (cn_snd_una c - cn_snd_nxt c) = u32 (- outstanding c)) as ->.
  { unfold outstanding, u32, wrap. rewrite <-Z.sub_0_l, Zminus_mod_idemp_r. f_equal. lia. }
  destruct (Z.eqb_spec (outstanding c) 0) as [->|]; [done|].
  assert (u32 (- outstanding c) = 2 ^ 32 - outstanding c) as -> by (unfold u32, wrap; zdm).
  rewrite (proj2 (Z.ltb_ge _ _)) by lia. apply Z.leb_gt. lia.
Qed.

(** An acknowledgement in the window advances by at most what is outstanding. *)
Lemma ack_in_window c ack :
  conn_base c → is_u32 ack → outstanding c ≤ 2000 →
  tcp_seq_gt ack (cn_snd_una c) && tcp_seq_le ack (cn_snd_nxt c) = true →
  ∃ x, 0 < x ≤ outstanding c ∧ u32 (cn_snd_nxt c - ack) = outstanding c - x ∧
    (x = outstanding c → ack = cn_snd_nxt c).
Proof.
  intros Hb Ha Ho [Hgt Hle]%andb_true_iff. destruct (co_seqs _ Hb) as (Hun & Hnx & _).
  pose proof (outstanding_range c) as Hr. unfold tcp_seq_gt, tcp_seq_le, i32 in *.
  set (x := u32 (ack - cn_snd_una c)) in *. assert (0 ≤ x < 2 ^ 32) by apply u32_range.
  assert (u32 (ack - cn_snd_nxt c) = u32 (x - outstanding c)) as E.
  { unfold x, outstanding, u32, wrap. rewrite <-Zminus_mod. f_equal. lia. }
  assert (u32 (cn_snd_nxt c - ack) = u32 (outstanding c - x)) as E'.
  { unfold x, outstanding, u32, wrap. rewrite <-Zminus_mod. f_equal. lia. }
  rewrite E in Hle. destruct (Z.ltb_spec x (2 ^ 31)); [|lia]. zbool.
  assert (x ≤ outstanding c) as Hx.
  { destruct (decide (x ≤ outstanding c)); [done|]. rewrite u32_small in Hle by lia.
    rewrite (proj2 (Z.ltb_lt _ _)) in Hle by lia. lia. }
  exists x. split; [lia|]. split; [rewrite E', u32_small by lia; lia|].
  intros Ex. rewrite Ex in E'. rewrite Z.sub_diag in E'. unfold u32, wrap, is_u32 in *. zdm.
Qed.

(** ** Stages on the connection *)

Definition established_active (c : tcp_conn_t) (s : tcp_segment) : tcp_conn_t :=
  c <| cn_snd_una := sg_ack s |> <| cn_snd_wnd := sg_window s |> <| cn_irs := sg_seq s |>
    <| cn_rcv_nxt := u32 (sg_seq s + 1) |> <| cn_state := TCP_STATE_ESTABLISHED |>
    <| cn_tx_pending := false |>.
Definition established_passive (c : tcp_conn_t) (s : tcp_segment) : tcp_conn_t :=
  c <| cn_snd_una := sg_ack s |> <| cn_state := TCP_STATE_ESTABLISHED |>
    <| cn_tx_pending := false |>.
Definition advanced (c : tcp_conn_t) (s : tcp_segment) : tcp_conn_t :=
  let c := c <| cn_snd_una := sg_ack s |> <| cn_snd_wnd := sg_window s |> in
  if cn_tx_pending c && tcp_seq_ge (cn_snd_una c) (cn_tx_end_seq c)
  then c <| cn_tx_pending := false |> else c.

Definition acked (c : tcp_conn_t) (s : tcp_segment) : tcp_conn_t :=
  if negb (flag_set s TCP_ACK) then c
  else if bool_decide (cn_state c = TCP_STATE_SYN_SENT) then
    if negb (sg_ack s =? u32 (cn_iss c + 1)) then c else established_active c s
  else if bool_decide (cn_state c = TCP_STATE_SYN_RCVD) then
    if negb (sg_ack s =? cn_snd_nxt c) then c else established_passive c s
  else if tcp_seq_gt (sg_ack s) (cn_snd_una c) && tcp_seq_le (sg_ack s) (cn_snd_nxt c)
  then advanced c s else c.

Definition append_rx (c : tcp_conn_t) (payload : list Z) : tcp_conn_t :=
  let n := Z.of_nat (length payload) in
  c <| cn_rx_buf := take (Z.to_nat (cn_rx_len c)) (cn_rx_buf c) ++ payload ++
                    drop (Z.to_nat (cn_rx_len c + n)) (cn_rx_buf c) |>
    <| cn_rx_len := cn_rx_len c + n |> <| cn_rcv_nxt := u32 (cn_rcv_nxt c + n) |>.
Definition stored (c : tcp_conn_t) (s : tcp_segment) (payload : list Z) : tcp_conn_t :=
  let n := Z.of_nat (length payload) in
  if nz n && ((sg_seq s =? cn_rcv_nxt c) && (cn_rx_len c + n <=? 4096)) then append_rx c payload
  else c.

Definition finned (c : tcp_conn_t) (s : tcp_segment) : tcp_conn_t :=
  if negb (flag_set s TCP_FIN) then c
  else
    let c := c <| cn_rcv_nxt := u32 (u32 (sg_seq s + sg_payload_len s) + 1) |> in
    match cn_state c with
    | TCP_STATE_ESTABLISHED => c <| cn_state := TCP_STATE_CLOSE_WAIT |>
    | TCP_STATE_FIN_WAIT_1 => c <| cn_state := TCP_STATE_CLOSING |>
    | _ => c <| cn_state := TCP_STATE_TIME_WAIT |>
             <| cn_time_wait_timer := TCP_TIME_WAIT_TICKS |>
    end.

Definition finished (c : tcp_conn_t) : tcp_conn_t :=
  let acked := tcp_seq_ge (cn_snd_una c) (cn_snd_nxt c) in
  let c := if bool_decide (cn_state c = TCP_STATE_FIN_WAIT_1) && acked
           then c <| cn_state := TCP_STATE_FIN_WAIT_2 |> else c in
  if bool_decide (cn_state c = TCP_STATE_CLOSING) && acked
  then c <| cn_state := TCP_STATE_TIME_WAIT |>
         <| cn_time_wait_timer := TCP_TIME_WAIT_TICKS |> else c.

(** ** The invariant through the stages *)

(** The fields the transmit side of the invariant is about. *)
Definition txp (c : tcp_conn_t) :=
  (cn_tx_buf c, cn_tx_len c, cn_local_ip c, cn_remote_ip c, cn_local_port c, cn_remote_port c,
   (cn_snd_una c, cn_snd_nxt c, cn_iss c, cn_rcv_wnd c, cn_rto c, cn_rto_timer c, cn_used c,
    cn_tx_pending c, cn_tx_seq c, cn_tx_end_seq c)).

Lemma saved_same c c' :
  cn_tx_buf c' = cn_tx_buf c → cn_tx_len c' = cn_tx_len c → cn_local_ip c' = cn_local_ip c →
  cn_remote_ip c' = cn_remote_ip c → cn_local_port c' = cn_local_port c →
  cn_remote_port c' = cn_remote_port c → cn_tx_seq c' = cn_tx_seq c →
  cn_tx_end_seq c' = cn_tx_end_seq c → saved c → saved c'.
Proof.
  intros E1 E2 E3 E4 E5 E6 E7 E8 (fl & p & Hs & Hl & He). exists fl, p.
  rewrite E1, E2, E7, E8. split; [|done]. by eapply segment_of_eq.
Qed.

Lemma send_limit_sending st st' :
  send_limit st ≤ send_limit st' → sending st' = true → sending st || opening st = true.
Proof. intros Hl Hs. unfold send_limit in Hl. rewrite Hs in Hl. by destruct (sending st), (opening st). Qed.

(** Changes of the receive side and of the state. *)
Lemma conn_ok_rx c c' :
  conn_ok c → cn_used c = true → txp c' = txp c →
  length (cn_rx_buf c') = 4096%nat → octets (cn_rx_buf c') → 0 ≤ cn_rx_len c' ≤ 4096 →
  is_u32 (cn_rcv_nxt c') → 0 ≤ cn_time_wait_timer c' ≤ 500 →
  (cn_state c' = cn_state c ∨
   cn_state c' ≠ TCP_STATE_CLOSED ∧ cn_state c' ≠ TCP_STATE_LISTEN ∧
   opening (cn_state c') = false ∧ send_limit (cn_state c) ≤ send_limit (cn_state c')) →
  conn_ok c'.
Proof.
  intros [Hb Hf] Hu Htx H1 H2 H3 H4 H5 Hst. injection Htx as T1 T2 T3 T4 T5 T6 T7 T8 T9 T10 T11 T12
    T13 T14 T15 T16. destruct Hb as [B1 B2 B3 B4 B5 B6 B7 B8 B9 B10 B11], Hf as [F1 F2 F3 F4].
  rewrite Hu in *. split.
  - constructor; rewrite ?T1, ?T2, ?T3, ?T4, ?T5, ?T6, ?T7, ?T8, ?T9, ?T10, ?T11, ?T12, ?T13;
      try done; [naive_solver|].
    destruct Hst as [->|(? & ? & _)]; done.
  - constructor; rewrite ?T7, ?T8, ?T9, ?T14, ?T16.
    + destruct Hst as [->|(_ & _ & -> & _)]; done.
    + done.
    + intros [Hs [He Ho]]%F3. split; [by eapply saved_same|]. split; [done|].
      unfold outstanding in *. rewrite T7, T8.
      destruct Hst as [->|(_ & _ & _ & ?)]; [done|lia].
    + intros Hp Hbf. unfold outstanding. rewrite T7, T8, T15. apply F4; [done|].
      destruct Hst as [<-|(_ & _ & Ho & Hl)]; [done|]. unfold before_fin in *. rewrite Ho, orb_false_r in Hbf.
      by eapply send_limit_sending.
Qed.

(** Nothing is outstanding any more. *)
Lemma conn_ok_idle c c' :
  conn_base c → cn_used c = true → conn_base c' → cn_tx_pending c' = false →
  cn_snd_una c' = cn_snd_nxt c' → opening (cn_state c') = false → conn_ok c'.
Proof.
  intros _ _ Hb Hp Hu Ho. split; [done|]. constructor; rewrite ?Hp, ?Ho; done.
Qed.

(** Bounds after an acknowledgement: only sequence numbers and the state moved. *)
Lemma conn_base_ack c c' :
  conn_base c → cn_used c = true →
  (cn_rx_buf c', cn_rx_len c', cn_tx_buf c', cn_tx_len c', cn_local_ip c', cn_remote_ip c',
   cn_local_port c', cn_remote_port c', cn_snd_nxt c', cn_iss c',
   (cn_rcv_wnd c', cn_rto c', cn_rto_timer c', cn_time_wait_timer c', cn_used c')) =
  (cn_rx_buf c, cn_rx_len c, cn_tx_buf c, cn_tx_len c, cn_local_ip c, cn_remote_ip c,
   cn_local_port c, cn_remote_port c, cn_snd_nxt c, cn_iss c,
   (cn_rcv_wnd c, cn_rto c, cn_rto_timer c, cn_time_wait_timer c, cn_used c)) →
  is_u32 (cn_snd_una c') → is_u32 (cn_rcv_nxt c') →
  cn_state c' ≠ TCP_STATE_CLOSED → cn_state c' ≠ TCP_STATE_LISTEN → conn_base c'.
Proof.
  intros [B1 B2 B3 B4 B5 B6 B7 B8 B9 B10 B11] Hu E Hun Hrc Hs1 Hs2.
  injection E as T1 T2 T3 T4 T5 T6 T7 T8 T9 T10 T11 T12 T13 T14 T15. rewrite Hu in *.
  constructor; rewrite ?T1, ?T2, ?T3, ?T4, ?T5, ?T6, ?T7, ?T8, ?T9, ?T10, ?T11, ?T12, ?T13, ?T14, ?T15;
    try done. naive_solver.
Qed.

Lemma conn_used_state c :
  conn_base c → cn_used c = true → cn_state c ≠ TCP_STATE_CLOSED ∧ cn_state c ≠ TCP_STATE_LISTEN.
Proof. intros [B1 B2 B3 B4 B5 B6 B7 B8 B9 B10 B11] Hu. by rewrite Hu in B11. Qed.

Lemma outstanding_small c : conn_ok c → outstanding c ≤ 1461.
Proof.
  intros [Hb [F1 F2 F3 F4]]. destruct (cn_tx_pending c) eqn:E.
  - destruct (F3 eq_refl) as (_ & _ & H). pose proof (send_limit_bounds (cn_state c)). lia.
  - unfold outstanding. rewrite (F2 eq_refl), Z.sub_diag. done.
Qed.

(** The own FIN (or whatever was sent last) is acknowledged exactly when no
    segment awaits retransmission. *)
Lemma outstanding_pending c : conn_ok c → (outstanding c =? 0) = negb (cn_tx_pending c).
Proof.
  intros [Hb [F1 F2 F3 F4]]. destruct (cn_tx_pending c) eqn:E.
  - destruct (F3 eq_refl) as (_ & _ & H). apply Z.eqb_neq. lia.
  - unfold outstanding. rewrite (F2 eq_refl), Z.sub_diag. done.
Qed.

Lemma advanced_ok c s :
  conn_ok c → cn_used c = true → is_u32 (sg_ack s) → opening (cn_state c) = false →
  tcp_seq_gt (sg_ack s) (cn_snd_una c) && tcp_seq_le (sg_ack s) (cn_snd_nxt c) = true →
  conn_ok (advanced c s).
Proof.
  intros Hok Hu Ha Hop Hw. pose proof (outstanding_small _ Hok) as Ho. destruct (Hok) as [Hb Hf].
  destruct (ack_in_window c (sg_ack s) Hb Ha) as (x & Hx & En & Ex); [lia|done|].
  destruct (conn_used_state _ Hb Hu).
  set (c1 := c <| cn_snd_una := sg_ack s |> <| cn_snd_wnd := sg_window s |>).
  assert (conn_base c1) as Hb1.
  { eapply (conn_base_ack c); [done|done|reflexivity|exact Ha|apply (co_seqs _ Hb)|done|done]. }
  assert (outstanding c1 = outstanding c - x) as Eo by exact En.
  destruct (cn_tx_pending c) eqn:Hp.
  2:{ pose proof (outstanding_pending _ Hok) as E. rewrite Hp in E. cbn [negb] in E. zbool. lia. }
  destruct (co_busy _ Hf Hp) as (Hs & He & Hlim).
  unfold advanced. fold c1. change (cn_tx_pending c1) with (cn_tx_pending c). rewrite Hp. cbn [andb].
  change (cn_tx_end_seq c1) with (cn_tx_end_seq c). rewrite He.
  change (cn_snd_nxt c) with (cn_snd_nxt c1). rewrite seq_ge_outstanding by lia.
  destruct (Z.eqb_spec (outstanding c1) 0) as [Ez|Ez].
  - apply (conn_ok_idle c); [done|done| |reflexivity| |exact Hop].
    + eapply (conn_base_ack c); [done|done|reflexivity|exact Ha|apply (co_seqs _ Hb)|done|done].
    + apply Ex. lia.
  - split; [done|]. constructor.
    + intros E. exfalso. change (cn_state c1) with (cn_state c) in E. congruence.
    + intros E. exfalso. change (cn_tx_pending c1) with (cn_tx_pending c) in E. congruence.
    + intros _. split; [|split; [exact He|]].
      * revert Hs. apply saved_same; reflexivity.
      * change (cn_state c1) with (cn_state c). pose proof (outstanding_range c1). lia.
    + intros _ Hbf. change (cn_tx_end_seq c1) with (cn_tx_end_seq c). change (cn_tx_seq c1) with (cn_tx_seq c).
      pose proof (co_alone _ Hf Hp Hbf). lia.
Qed.

Lemma acked_ok c s :
  conn_ok c → cn_used c = true → is_u32 (sg_ack s) → conn_ok (acked c s).
Proof.
  intros Hok Hu Ha. destruct (Hok) as [Hb Hf]. unfold acked.
  destruct (flag_set s TCP_ACK); [|done]. cbn [negb]. case_bool_decide as Hs1.
  - destruct (Z.eqb_spec (sg_ack s) (u32 (cn_iss c + 1))) as [E|]; [|done]. cbn [negb].
    destruct (co_opening _ Hf) as (_ & _ & En); [by rewrite Hs1|].
    apply (conn_ok_idle c); [done|done| |reflexivity|by rewrite <-E in En|reflexivity].
    eapply (conn_base_ack c); [done|done|reflexivity|exact Ha|apply u32_is_u32|done|done].
  - case_bool_decide as Hs2.
    + destruct (Z.eqb_spec (sg_ack s) (cn_snd_nxt c)) as [E|]; [|done]. cbn [negb].
      apply (conn_ok_idle c); [done|done| |reflexivity|exact E|reflexivity].
      eapply (conn_base_ack c); [done|done|reflexivity|exact Ha|apply (co_seqs _ Hb)|done|done].
    + destruct (_ && _) eqn:E; [|done]. apply advanced_ok; try done.
      unfold opening. by rewrite !bool_decide_eq_false_2.
Qed.

Lemma stored_ok c s payload :
  conn_ok c → cn_used c = true → octets payload → conn_ok (stored c s payload).
Proof.
  intros Hok Hu Hp. unfold stored. cbv zeta. destruct (_ && _) eqn:E; [|done].
  apply andb_true_iff in E as [_ [_ E]%andb_true_iff]. zbool.
  destruct (Hok) as [Hb _]. pose proof (co_rx_len _ Hb). destruct (co_rx_buf _ Hb) as [Hl Ho].
  apply (conn_ok_rx c); [done|done|reflexivity| | | |apply u32_is_u32|apply (co_timer _ Hb)|by left].
  - change (cn_rx_buf (append_rx c payload)) with (take (Z.to_nat (cn_rx_len c)) (cn_rx_buf c) ++
      payload ++ drop (Z.to_nat (cn_rx_len c + Z.of_nat (length payload))) (cn_rx_buf c)).
    rewrite !length_app, length_take, length_drop. lia.
  - apply Forall_app. split; [by apply Forall_take|]. apply Forall_app. split; [done|by apply Forall_drop].
  - change (cn_rx_len (append_rx c payload)) with (cn_rx_len c + Z.of_nat (length payload)). lia.
Qed.

Lemma finned_ok c s :
  conn_ok c → cn_used c = true → receiving (cn_state c) = true → conn_ok (finned c s).
Proof.
  intros Hok Hu Hr. unfold finned. destruct (flag_set s TCP_FIN); [|done]. cbn [negb]. cbv zeta.
  destruct (Hok) as [Hb _]. destruct (co_rx_buf _ Hb) as [Hl Ho]. pose proof (co_rx_len _ Hb).
  change (cn_state (c <| cn_rcv_nxt := _ |>)) with (cn_state c).
  destruct (cn_state c) eqn:Es; try discriminate;
    (apply (conn_ok_rx c); [done|done|reflexivity|exact Hl|exact Ho|done|apply u32_is_u32| |right;
      rewrite Es; done]); first [apply (co_timer _ Hb)|done].
Qed.

Lemma finished_ok c : conn_ok c → cn_used c = true → conn_ok (finished c).
Proof.
  intros Hok Hu. unfold finished. cbv zeta. destruct (Hok) as [Hb _].
  destruct (co_rx_buf _ Hb) as [Hl Ho]. pose proof (co_rx_len _ Hb). destruct (co_seqs _ Hb) as (_ & _ & ? & _).
  destruct (tcp_seq_ge _ _); rewrite ?andb_true_r, ?andb_false_r; [|done].
  destruct (bool_decide_reflect (cn_state c = TCP_STATE_FIN_WAIT_1)) as [Es|].
  - change (bool_decide _) with false. cbv iota.
    apply (conn_ok_rx c); try done; [apply (co_timer _ Hb)|right; by rewrite Es].
  - case_bool_decide as Es; [|done].
    apply (conn_ok_rx c); try done. right. by rewrite Es.
Qed.

(** Identity of a connection, which no segment changes. *)
Definition ident (c : tcp_conn_t) :=
  (cn_used c, cn_passive c, cn_accepted c, cn_local_ip c, cn_remote_ip c, cn_local_port c,
   cn_remote_port c).

Lemma acked_ident c s : ident (acked c s) = ident c.
Proof. unfold acked, advanced. cbv zeta. by repeat case_match. Qed.
Lemma stored_ident c s p : ident (stored c s p) = ident c.
Proof. unfold stored. cbv zeta. by repeat case_match. Qed.
Lemma finned_ident c s : ident (finned c s) = ident c.
Proof. unfold finned. cbv zeta. by repeat case_match. Qed.
Lemma finished_ident c : ident (finished c) = ident c.
Proof. unfold finished. cbv zeta. by repeat case_match. Qed.

Lemma ident_used c c' : ident c' = ident c → cn_used c' = cn_used c.
Proof. by intros [=]. Qed.

(** ** The stages on the table *)

Section stages.
Context {W : Type} (call : Z → Z → Z → Z → list Z → W → W * Z).

(** Slot [i] of [k'] now holds [c'] and the table is still well formed. *)
Definition slot_now (k : tcpcore_t) (i : Z) (c' : tcp_conn_t) (k' : tcpcore_t) : Prop :=
  updated k i c' k' ∧ core_ok k'.

Lemma slot_now_put k i c c' :
  core_ok k → aget (tc_conns k) i = Some c → conn_ok c' →
  put_conn k i c' = Some (with_conn k i c') ∧ slot_now k i c' (with_conn k i c').
Proof.
  intros Hk Hc Hok. split; [by eapply put_conn_in|]. split; [by eapply updated_put|].
  by eapply with_conn_ok.
Qed.

Lemma slot_now_ack k i c c' k1 w :
  aget (tc_conns k) i = Some c → slot_now k i c' k1 →
  ∃ w' k' st, tcp_emit call k1 i TCP_ACK [] 0 false w = Some (w', k', st) ∧ slot_now k i c' k'.
Proof.
  intros Hc [Hu Hk1]. pose proof (updated_here _ _ _ _ _ Hc Hu) as Hc1.
  destruct (emit_ack call k1 i c' w Hk1 Hc1) as (w' & k' & st & E & Hu').
  exists w', k', st. split; [done|]. split; [by eapply updated_trans|].
  eapply updated_ok; [exact Hk1|exact Hc1|by eapply ck_conn|done].
Qed.

Lemma slot_now_trans k i c c1 k1 c2 k2 :
  aget (tc_conns k) i = Some c → slot_now k i c1 k1 → slot_now k1 i c2 k2 → slot_now k i c2 k2.
Proof. intros _ [H1 _] [H2 Hk]. split; [by eapply updated_trans|done]. Qed.

Lemma slot_now_refl k i c : core_ok k → aget (tc_conns k) i = Some c → slot_now k i c k.
Proof. intros Hk Hc. split; [by apply updated_refl|done]. Qed.

Lemma input_ack_spec k i c s w :
  core_ok k → aget (tc_conns k) i = Some c → cn_used c = true → is_u32 (sg_ack s) →
  ∃ w' k' r, input_ack call k i s w = Some (w', k', r) ∧ slot_now k i (acked c s) k'.
Proof.
  intros Hk Hc Hu Ha. pose proof (acked_ok c s (ck_conn _ Hk _ _ Hc) Hu Ha) as Hok.
  pose proof (slot_now_refl _ _ _ Hk Hc) as Hsame.
  unfold input_ack, acked in *. destruct (flag_set s TCP_ACK); cbn [negb] in *; [|by eauto].
  rewrite Hc, obind_Some. case_bool_decide.
  - destruct (sg_ack s =? _); cbn [negb] in *; [|by eauto].
    destruct (slot_now_put k i c _ Hk Hc Hok) as [E Hs].
    fold (established_active c s). rewrite E, obind_Some.
    destruct (slot_now_ack _ _ _ _ _ w Hc Hs) as (w' & k' & st & E' & Hs'). rewrite E', obind_Some. eauto.
  - case_bool_decide.
    + destruct (sg_ack s =? _); cbn [negb] in *; [|by eauto].
      destruct (slot_now_put k i c _ Hk Hc Hok) as [E Hs].
      fold (established_passive c s). rewrite E, obind_Some. eauto.
    + destruct (_ && _); [|by eauto].
      destruct (slot_now_put k i c _ Hk Hc Hok) as [E Hs].
      match goal with |- context [put_conn k i ?x] => change x with (advanced c s) end.
      rewrite E, obind_Some. eauto.
Qed.

(** The payload of a parsed segment. *)
Definition payload_of (segment : list Z) (s : tcp_segment) : list Z :=
  take (Z.to_nat (sg_payload_len s)) (drop (Z.to_nat (sg_payload s)) segment).

(** What parsing guarantees about a segment of [len] bytes. *)
Record seg_ok (segment : list Z) (s : tcp_segment) : Prop := {
  sk_octets : octets segment;
  sk_ack : is_u32 (sg_ack s);
  sk_seq : is_u32 (sg_seq s);
  sk_range : 0 ≤ sg_payload s ∧ 0 ≤ sg_payload_len s ≤ 65535 ∧
    sg_payload s + sg_payload_len s ≤ Z.of_nat (length segment)
}.

Lemma segment_payload_length segment s :
  seg_ok segment s → Z.of_nat (length (payload_of segment s)) = sg_payload_len s.
Proof. intros [_ _ _ H]. unfold payload_of. rewrite length_take, length_drop. lia. Qed.

Lemma payload_octets' segment s : seg_ok segment s → octets (payload_of segment s).
Proof. intros [H _ _ _]. by apply Forall_take, Forall_drop. Qed.

Lemma input_data_spec k i c segment s w :
  core_ok k → aget (tc_conns k) i = Some c → cn_used c = true → seg_ok segment s →
  ∃ w' k' r, input_data call k i segment s w = Some (w', k', r) ∧
    slot_now k i (stored c s (payload_of segment s)) k'.
Proof.
  intros Hk Hc Hu Hs. pose proof (segment_payload_length _ _ Hs) as Hl.
  pose proof (stored_ok c s _ (ck_conn _ Hk _ _ Hc) Hu (payload_octets' _ _ Hs)) as Hok.
  pose proof (slot_now_refl _ _ _ Hk Hc) as Hsame. destruct (sk_range _ _ Hs) as (Hr1 & Hr2 & Hr3).
  destruct (ck_conn _ Hk _ _ Hc) as [Hb _]. pose proof (co_rx_len _ Hb). destruct (co_rx_buf _ Hb).
  unfold input_data, stored in *. rewrite Hl in *. cbv zeta in *.
  destruct (nz (sg_payload_len s)); cbn [negb andb] in *; [|by eauto].
  rewrite Hc, obind_Some, u32_small by lia. change TCP_RXBUF_SIZE with 4096.
  destruct (_ && _) eqn:Ein.
  - apply andb_true_iff in Ein as [_ Ele]. zbool. rewrite copy_at_Z by lia. rewrite obind_Some.
    destruct (slot_now_put k i c _ Hk Hc Hok) as [E Hs'].
    match goal with |- context [put_conn k i ?x] => assert (x = append_rx c (payload_of segment s)) as -> end.
    { unfold append_rx. rewrite Hl. done. }
    rewrite E, obind_Some. destruct (slot_now_ack _ _ _ _ _ w Hc Hs') as (w' & k' & st & E' & Hs2).
    rewrite E', obind_Some. eauto.
  - rewrite obind_Some. destruct (slot_now_ack _ _ _ _ _ w Hc Hsame) as (w' & k' & st & E' & Hs2).
    rewrite E', obind_Some. eauto.
Qed.

Lemma input_fin_spec k i c s w :
  core_ok k → aget (tc_conns k) i = Some c → cn_used c = true → receiving (cn_state c) = true →
  ∃ w' k', input_fin call k i s w = Some (w', k') ∧ slot_now k i (finned c s) k'.
Proof.
  intros Hk Hc Hu Hr. pose proof (finned_ok c s (ck_conn _ Hk _ _ Hc) Hu Hr) as Hok.
  pose proof (slot_now_refl _ _ _ Hk Hc) as Hsame. destruct (ck_conn _ Hk _ _ Hc) as [Hb Hf].
  unfold input_fin, finned in *. destruct (flag_set s TCP_FIN); cbn [negb] in *; [|by eauto].
  rewrite Hc, obind_Some. cbv zeta in *.
  set (c1 := c <| cn_rcv_nxt := u32 (u32 (sg_seq s + sg_payload_len s) + 1) |>) in *.
  assert (conn_ok c1) as Hok1.
  { destruct (co_rx_buf _ Hb). apply (conn_ok_rx c); [by split|done|reflexivity|done|done|apply (co_rx_len _ Hb)|
      apply u32_is_u32|apply (co_timer _ Hb)|by left]. }
  destruct (slot_now_put k i c c1 Hk Hc Hok1) as [E Hs1]. rewrite E, obind_Some.
  destruct (slot_now_ack _ _ _ _ _ w Hc Hs1) as (w' & k1 & st & E' & Hs2). rewrite E', obind_Some.
  pose proof (updated_here _ _ _ _ _ Hc (proj1 Hs2)) as Hc1. rewrite Hc1, obind_Some.
  destruct (slot_now_put k1 i c1 _ (proj2 Hs2) Hc1 Hok) as [E3 Hs3]. rewrite E3, obind_Some.
  do 2 eexists. split; [done|]. by eapply slot_now_trans.
Qed.

(** The last stage may release the connection. *)
Lemma input_finish_spec k i c :
  core_ok k → aget (tc_conns k) i = Some c → cn_used c = true →
  ∃ k1, slot_now k i (finished c) k1 ∧
    input_finish k i = if bool_decide (cn_state (finished c) = TCP_STATE_LAST_ACK) &&
                          negb (cn_tx_pending (finished c))
                       then tcp_release k1 i else Some k1.
Proof.
  intros Hk Hc Hu. pose proof (ck_conn _ Hk _ _ Hc) as Hc0.
  pose proof (finished_ok c Hc0 Hu) as Hok. destruct (slot_now_put k i c _ Hk Hc Hok) as [E Hs].
  eexists. split; [exact Hs|]. unfold input_finish. rewrite Hc, obind_Some. cbv zeta.
  match goal with |- (_ ← put_conn k i ?x; _) = _ => change x with (finished c) end.
  rewrite E, obind_Some. do 2 f_equal.
  rewrite seq_ge_outstanding by (pose proof (outstanding_small _ Hc0); lia).
  rewrite outstanding_pending by done. f_equal. unfold finished. cbv zeta. by repeat case_match.
Qed.
End stages.
