(* ===== verification/TcpOps.v ===== *)
(** The accept queue, and every operation of the TCP core on a well-formed
    table. *)
From S2P Require Import Prelude Tcpcore TcpSeg TcpConn TcpInput.

(** ** Counting *)

Fixpoint countb {A} (p : A → bool) (l : list A) : Z :=
  match l with [] => 0 | x :: l => (if p x then 1 else 0) + countb p l end.

Lemma countb_bounds {A} (p : A → bool) l : 0 ≤ countb p l ≤ Z.of_nat (length l).
Proof. induction l as [|x l IH]; simpl; [lia|]. destruct (p x); lia. Qed.

Lemma countb_insert {A} (p : A → bool) l i x y :
  l !! i = Some x →
  countb p (<[i := y]> l) = countb p l - (if p x then 1 else 0) + (if p y then 1 else 0).
Proof.
  revert i. induction l as [|z l IH]; intros [|i] H; simpl in *; try done.
  - injection H as ->. lia.
  - rewrite (IH _ H). lia.
Qed.

Lemma countb_pos {A} (p : A → bool) l i x : l !! i = Some x → p x = true → 0 < countb p l.
Proof.
  revert i. induction l as [|z l IH]; intros [|i] H Hp; simpl in *; try done.
  - injection H as ->. rewrite Hp. pose proof (countb_bounds p l). lia.
  - specialize (IH _ H Hp). destruct (p z); lia.
Qed.

Lemma countb_ext {A} (p q : A → bool) l : (∀ x, p x = q x) → countb p l = countb q l.
Proof. intros E. induction l as [|x l IH]; simpl; [done|]. by rewrite E, IH. Qed.

(** ** The accept queue *)

(** A connection that waits to be accepted on [port]. *)
Definition waits (port : Z) (c : tcp_conn_t) : bool :=
  cn_used c && cn_passive c && negb (cn_accepted c) && (cn_local_port c =? port).

(** The pending count of a listener is the number of its waiting connections,
    every port has at most one listener, and no connection waits without one. *)
Record queue_ok (k : tcpcore_t) : Prop := {
  qu_count : ∀ j l, aget (tc_listeners k) j = Some l → li_used l = true →
    li_pending l = countb (waits (li_local_port l)) (tc_conns k);
  qu_port : ∀ j1 j2 l1 l2, aget (tc_listeners k) j1 = Some l1 → aget (tc_listeners k) j2 = Some l2 →
    li_used l1 = true → li_used l2 = true → li_local_port l1 = li_local_port l2 → j1 = j2;
  qu_owner : ∀ i c port, aget (tc_conns k) i = Some c → waits port c = true →
    ∃ j l, aget (tc_listeners k) j = Some l ∧ li_used l = true ∧ li_local_port l = port
}.

Record tcp_ok (k : tcpcore_t) : Prop := {
  tk_core : core_ok k;
  tk_queue : queue_ok k;
  tk_init : tc_initialized k = true
}.

Lemma waits_ident port c c' : ident c' = ident c → waits port c' = waits port c.
Proof. unfold waits. intros [= -> -> -> _ _ -> _]. done. Qed.

Lemma waits_port port c : waits port c = true → cn_local_port c = port.
Proof. unfold waits. intros [_ E]%andb_true_iff. by zbool. Qed.

(** Changes of connections that keep their places in the queues. *)
Lemma queue_ok_conns k k' :
  queue_ok k → tc_listeners k' = tc_listeners k →
  (∀ port, countb (waits port) (tc_conns k') = countb (waits port) (tc_conns k)) →
  (∀ i c port, aget (tc_conns k') i = Some c → waits port c = true →
     ∃ i' c', aget (tc_conns k) i' = Some c' ∧ waits port c' = true) →
  queue_ok k'.
Proof.
  intros [Q1 Q2 Q3] El Ec Ew. constructor; rewrite ?El; [|done|].
  - intros j l Hj Hu. rewrite Ec. eauto.
  - intros i c port Hc Hw. destruct (Ew _ _ _ Hc Hw) as (i' & c' & Hc' & Hw'). eauto.
Qed.

Lemma tcp_ok_updated k i c c' k' :
  tcp_ok k → aget (tc_conns k) i = Some c → slot_now k i c' k' →
  (∀ port, waits port c' = waits port c) → tcp_ok k'.
Proof.
  intros [Hk Hq Hi] Hc [Hu Hk'] Hw. destruct (updated_fields _ _ _ _ Hu) as (El & Ein & _).
  constructor; [done| |congruence]. pose proof Hc as Hc0. apply aget_Some in Hc0 as [_ Hc0].
  apply (queue_ok_conns k); [done|done| |].
  - intros port. destruct Hu as (s & -> & _). simpl. rewrite (countb_insert _ _ _ _ _ Hc0), Hw. lia.
  - intros j d port. rewrite (updated_get _ _ _ _ _ _ Hc Hu). case_decide as E; [|by eauto].
    intros [= <-]. rewrite Hw. eauto.
Qed.

Lemma tcp_ok_ident k i c c' k' :
  tcp_ok k → aget (tc_conns k) i = Some c → slot_now k i c' k' → ident c' = ident c → tcp_ok k'.
Proof. intros. eapply tcp_ok_updated; [done..|]. intros. by apply waits_ident. Qed.

(** ** Finding listeners and connections *)

Lemma find_listener_spec k port :
  length (tc_listeners k) = 4%nat →
  ∃ r, tcp_find_listener k port = Some r ∧
    match r with
    | Some j => ∃ l, aget (tc_listeners k) j = Some l ∧ li_used l = true ∧ li_local_port l = port
    | None => ∀ j l, aget (tc_listeners k) j = Some l → li_used l = true → li_local_port l ≠ port
    end.
Proof.
  intros Hl. unfold tcp_find_listener.
  destruct (find_up_spec 4 0 (tc_listeners k) (λ l, li_used l && (li_local_port l =? port)))
    as (r & E & Hr); [lia|lia|]. exists r. split; [exact E|]. destruct r as [j|].
  - destruct Hr as (_ & (l & Hj & Hp) & _). apply andb_true_iff in Hp as [? ?]. zbool. eauto.
  - intros j l Hj Hu Hp. pose proof (aget_lt _ _ _ Hj).
    assert (li_used l && (li_local_port l =? port) = false) as F by (apply (Hr j); [lia|done]).
    rewrite Hu, Hp, Z.eqb_refl in F. done.
Qed.

Lemma find_conn_spec k (p : tcp_conn_t → bool) :
  length (tc_conns k) = 8%nat →
  ∃ r, find_up (Z.to_nat TCP_MAX_CONNS) 0 (tc_conns k) p = Some r ∧
    match r with
    | Some i => ∃ c, aget (tc_conns k) i = Some c ∧ p c = true
    | None => ∀ i c, aget (tc_conns k) i = Some c → p c = false
    end.
Proof.
  intros Hl. destruct (find_up_spec 8 0 (tc_conns k) p) as (r & E & Hr); [lia|lia|].
  exists r. split; [exact E|]. destruct r as [i|]; [naive_solver|].
  intros i c Hc. pose proof (aget_lt _ _ _ Hc). apply (Hr i); [lia|done].
Qed.

(** ** Leaving the queue *)

(** A waiting connection leaves the queue, by [c'] or by its release. *)
Lemma drop_pending_spec k i c c' port :
  core_ok k → queue_ok k → aget (tc_conns k) i = Some c → waits port c = true →
  (∀ q, waits q c' = false) → conn_ok c' →
  ∃ k1, drop_pending k port = Some k1 ∧ tc_conns k1 = tc_conns k ∧
    tc_initialized k1 = tc_initialized k ∧ tc_scratch k1 = tc_scratch k ∧
    tc_ip_tx k1 = tc_ip_tx k ∧ tc_ip_ctx k1 = tc_ip_ctx k ∧ tc_iss_seed k1 = tc_iss_seed k ∧
    core_ok (with_conn k1 i c') ∧ queue_ok (with_conn k1 i c').
Proof.
  intros Hk [Q1 Q2 Q3] Hc Hw Hw' Hok. pose proof (waits_port _ _ Hw) as Hp.
  destruct (find_listener_spec k port (ck_listeners _ Hk)) as (r & E & Hr).
  destruct (Q3 i c port Hc Hw) as (j0 & l0 & Hj0 & Hu0 & Hp0).
  destruct r as [j|]; [|by destruct (Hr j0 l0 Hj0 Hu0)]. destruct Hr as (l & Hj & Hu & Hlp).
  pose proof Hc as Hc0. apply aget_Some in Hc0 as [_ Hc0].
  pose proof (countb_pos _ _ _ _ Hc0 Hw) as Hpos. pose proof (countb_bounds (waits port) (tc_conns k)) as Hb.
  rewrite (ck_conns _ Hk) in Hb. pose proof (Q1 j l Hj Hu) as Hcnt. rewrite Hlp in Hcnt.
  unfold drop_pending. rewrite E, obind_Some, Hj, obind_Some, (proj2 (Z.ltb_lt _ _)) by lia.
  rewrite u16_small by lia. pose proof (aget_lt _ _ _ Hj) as Hjl. rewrite aset_in, obind_Some by done.
  eexists. split; [done|]. split_and!; try reflexivity.
  - destruct (with_conn_ok k i c' c Hk Hc Hok) as [H1 H2 H3 H4].
    constructor; [done|done|simpl; by rewrite length_insert|done].
  - constructor; simpl.
    + intros j' l'. rewrite aget_insert by done. rewrite (countb_insert _ _ _ _ _ Hc0), Hw'.
      case_decide as Ej.
      * intros [= <-] _. simpl. rewrite Hlp, Hw. lia.
      * intros Hj' Hu'. rewrite (Q1 _ _ Hj' Hu').
        destruct (waits (li_local_port l') c) eqn:Hwl; [|lia].
        apply waits_port in Hwl. exfalso. apply Ej. eapply Q2; [done..|]. congruence.
    + intros j1 j2 l1 l2. rewrite !aget_insert by done.
      repeat case_decide; intros H1 H2 U1 U2 Hpp; subst; try done.
      * injection H1 as <-. simpl in *. by eapply (Q2 _ _ _ _ Hj H2).
      * injection H2 as <-. simpl in *. by eapply (Q2 _ _ _ _ H1 Hj).
      * by eapply Q2.
    + intros i' d q. rewrite aget_insert by (by eapply aget_lt). case_decide as Ei.
      { intros [= <-]. by rewrite Hw'. }
      intros Hd Hwd. destruct (Q3 _ _ _ Hd Hwd) as (j' & l' & Hj' & Hu' & Hp').
      destruct (decide (j = j')) as [<-|Hne].
      * exists j, (l <| li_pending := li_pending l - 1 |>). rewrite aget_insert, decide_True by done.
        split; [done|]. simpl. split; [done|]. congruence.
      * exists j', l'. rewrite aget_insert, decide_False by done. done.
Qed.

Lemma zero_conn_waits q : waits q zero_conn = false.
Proof. done. Qed.

(** Releasing a connection empties its slot and keeps the queues exact. *)
Lemma release_spec k i c :
  tcp_ok k → aget (tc_conns k) i = Some c → cn_used c = true →
  ∃ k', tcp_release k i = Some k' ∧ tcp_ok k' ∧
    tc_conns k' = <[Z.to_nat i := zero_conn]> (tc_conns k).
Proof.
  intros [Hk Hq Hi] Hc Hu. unfold tcp_release. rewrite Hc, obind_Some.
  destruct (cn_passive c && negb (cn_accepted c)) eqn:Ew.
  - destruct (drop_pending_spec k i c zero_conn (cn_local_port c) Hk Hq Hc) as
      (k1 & E & Ec & Ein & _ & _ & _ & _ & Hk1 & Hq1); [|done|apply zero_conn_ok|].
    { unfold waits. apply andb_true_iff in Ew as [-> ->]. by rewrite Hu, Z.eqb_refl. }
    rewrite E, obind_Some, (put_conn_in k1 i _ c) by (by rewrite Ec).
    eexists. split; [done|]. split; [constructor; [done|done|by rewrite <-Hi, <-Ein]|].
    simpl. by rewrite Ec.
  - rewrite obind_Some. destruct (slot_now_put k i c zero_conn Hk Hc zero_conn_ok) as [E Hs].
    rewrite E. eexists. split; [done|]. split; [|done].
    eapply tcp_ok_updated; [by constructor|exact Hc|exact Hs|].
    intros port. rewrite zero_conn_waits. unfold waits.
    by rewrite <-(andb_assoc (cn_used c)), Ew, andb_false_r.
Qed.

(** A new connection joins the queue of listener [j]. *)
Lemma join_queue k k' i c c' j l :
  core_ok k → queue_ok k → aget (tc_conns k) i = Some c → (∀ q, waits q c = false) →
  aget (tc_listeners k) j = Some l → li_used l = true →
  (∀ q, waits q c' = (li_local_port l =? q)) →
  tc_conns k' = <[Z.to_nat i := c']> (tc_conns k) →
  tc_listeners k' = <[Z.to_nat j := l <| li_pending := u16 (li_pending l + 1) |>]> (tc_listeners k) →
  queue_ok k'.
Proof.
  intros Hk [Q1 Q2 Q3] Hc Hw Hj Hu Hw' Ec El. pose proof Hc as Hc0. apply aget_Some in Hc0 as [_ Hc0].
  pose proof (aget_lt _ _ _ Hj) as Hjl. pose proof (aget_lt _ _ _ Hc) as Hcl.
  pose proof (countb_bounds (waits (li_local_port l)) (tc_conns k)) as Hb. rewrite (ck_conns _ Hk) in Hb.
  pose proof (Q1 j l Hj Hu) as Hcnt. rewrite u16_small in El by lia.
  constructor; rewrite ?Ec, ?El.
  - intros j' l'. rewrite aget_insert, (countb_insert _ _ _ _ _ Hc0), Hw, Hw' by done.
    case_decide as Ej.
    + intros [= <-] _. simpl. rewrite Z.eqb_refl. lia.
    + intros Hj' Hu'. rewrite (Q1 _ _ Hj' Hu').
      destruct (Z.eqb_spec (li_local_port l) (li_local_port l')); [|lia].
      exfalso. apply Ej. by eapply Q2.
  - intros j1 j2 l1 l2. rewrite !aget_insert by done.
    repeat case_decide; intros H1 H2 U1 U2 Hpp; subst; try done.
    + injection H1 as <-. simpl in *. by eapply (Q2 _ _ _ _ Hj H2).
    + injection H2 as <-. simpl in *. by eapply (Q2 _ _ _ _ H1 Hj).
    + by eapply Q2.
  - intros i' d q. rewrite aget_insert by done. case_decide as Ei.
    + intros [= <-]. rewrite Hw'. intros E. zbool. subst q.
      exists j. eexists. rewrite aget_insert, decide_True by done. done.
    + intros Hd Hwd. destruct (Q3 _ _ _ Hd Hwd) as (j' & l' & Hj' & Hu' & Hp').
      destruct (decide (j = j')) as [<-|Hne].
      * exists j. eexists. rewrite aget_insert, decide_True by done. split; [done|]. simpl.
        split; [done|]. congruence.
      * exists j', l'. rewrite aget_insert, decide_False by done. done.
Qed.

(** ** Parsing *)

Lemma get_field_some n seg off :
  octets seg → 0 ≤ off → off + Z.of_nat n ≤ Z.of_nat (length seg) →
  ∃ v, get_field n seg off = Some v ∧ 0 ≤ v < 256 ^ Z.of_nat n.
Proof.
  intros Ho H1 H2. unfold get_field. rewrite aslice_in, obind_Some by lia. eexists. split; [done|].
  set (l := take _ _). assert (length l = n) as Hl by (subst l; rewrite length_take, length_drop; lia).
  rewrite <-Hl. apply le_range. by apply Forall_take, Forall_drop.
Qed.

Lemma parse_spec segment len :
  octets segment → 20 ≤ len ≤ 65535 → len ≤ Z.of_nat (length segment) →
  ∃ r, parse_segment segment len = Some r ∧
    ∀ s, r = Some s → seg_ok segment s ∧ is_u16 (sg_sport s) ∧ is_u16 (sg_dport s) ∧
      sg_payload s + sg_payload_len s = len.
Proof.
  intros Ho Hl Hlen. unfold parse_segment.
  destruct (get_field_some 2 segment 0) as (sp & -> & _); [done|lia..|].
  destruct (get_field_some 2 segment 2) as (dp & -> & _); [done|lia..|].
  destruct (get_field_some 4 segment 4) as (seq & -> & Hseq); [done|lia..|].
  destruct (get_field_some 4 segment 8) as (ack & -> & Hack); [done|lia..|].
  destruct (get_field_some 1 segment 13) as (fl & -> & _); [done|lia..|].
  destruct (get_field_some 2 segment 14) as (win & -> & _); [done|lia..|].
  destruct (get_field_some 1 segment 12) as (off & -> & Hoff); [done|lia..|].
  rewrite !obind_Some. rewrite Z.shiftr_div_pow2 by lia.
  rewrite u32_small by (change (256 ^ Z.of_nat 1) with 256 in Hoff; zdm).
  set (doff := off / 2 ^ 4 * 4). change TCP_HDR_LEN with 20.
  destruct (_ || _) eqn:E; zbool; eexists; (split; [done|]); [done|].
  intros s [= <-]. rewrite u32_small by lia. split_and!.
  - constructor; [done|by apply bswap32_range|by apply bswap32_range|simpl; lia].
  - apply u16_range.
  - apply u16_range.
  - simpl. lia.
Qed.

(** ** Events *)

(** What an operation does to one connection. *)
Inductive input_result (c : tcp_conn_t) (s : tcp_segment) (p : list Z) : tcp_conn_t → Prop :=
  | ir_ack : input_result c s p (acked c s)
  | ir_closing : receiving (cn_state (acked c s)) = false →
      input_result c s p (finished (acked c s))
  | ir_data : receiving (cn_state (acked c s)) = true →
      input_result c s p (stored (acked c s) s p)
  | ir_full : receiving (cn_state (acked c s)) = true →
      input_result c s p (finished (finned (stored (acked c s) s p) s)).

Lemma input_result_ident c s p c' : input_result c s p c' → ident c' = ident c.
Proof.
  intros []; by rewrite ?finished_ident, ?finned_ident, ?stored_ident, ?acked_ident.
Qed.

(** The connection in slot [i] of [k], changed into [c'], is the only
    difference between the tables. *)
Definition slot_changed (k : tcpcore_t) (i : Z) (c' : tcp_conn_t) (k' : tcpcore_t) : Prop :=
  tc_conns k' = <[Z.to_nat i := c']> (tc_conns k).

Section input.
Context {W : Type} (call : Z → Z → Z → Z → list Z → W → W * Z).

Lemma updated_changed k i c k' : updated k i c k' → slot_changed k i c k'.
Proof. by intros (s & -> & _). Qed.

Lemma stored_state c s p : cn_state (stored c s p) = cn_state c.
Proof. unfold stored. cbv zeta. by case_match. Qed.

(** The possible outcomes of a segment for connection [c] in slot [i]. *)
Definition input_outcome (k : tcpcore_t) (i : Z) (c : tcp_conn_t) (s : tcp_segment) (p : list Z)
    (k' : tcpcore_t) : Prop :=
  tcp_ok k' ∧
  ((∃ c', slot_changed k i c' k' ∧ input_result c s p c') ∨
   slot_changed k i zero_conn k' ∧
     (flag_set s TCP_RST = true ∨
      ∃ c', input_result c s p c' ∧ cn_state c' = TCP_STATE_LAST_ACK ∧ cn_tx_pending c' = false)).

Lemma outcome_kept k i c s p c' k' :
  tcp_ok k → aget (tc_conns k) i = Some c → slot_now k i c' k' → input_result c s p c' →
  input_outcome k i c s p k'.
Proof.
  intros Hk Hc Hs Hir. split; [eapply tcp_ok_ident; [done..|by eapply input_result_ident]|].
  left. exists c'. split; [apply updated_changed, Hs|done].
Qed.

Lemma input_finish_outcome k i c s p c2 k2 :
  tcp_ok k → aget (tc_conns k) i = Some c → cn_used c = true → slot_now k i c2 k2 →
  ident c2 = ident c → input_result c s p (finished c2) →
  ∃ k', input_finish k2 i = Some k' ∧ input_outcome k i c s p k'.
Proof.
  intros Hk Hc Hu Hs2 Hid Hir. pose proof (updated_here _ _ _ _ _ Hc (proj1 Hs2)) as Hc2.
  assert (cn_used c2 = true) as Hu2 by (by rewrite (ident_used _ _ Hid)).
  destruct (input_finish_spec k2 i c2 (proj2 Hs2) Hc2 Hu2) as (k3 & Hs3 & E3).
  pose proof (slot_now_trans _ _ _ _ _ _ _ Hc Hs2 Hs3) as Hs3'. rewrite E3.
  pose proof (outcome_kept _ _ _ _ _ _ _ Hk Hc Hs3' Hir) as Hout.
  destruct (bool_decide _ && negb _) eqn:Erel; [|by eauto].
  apply andb_true_iff in Erel as [Est%bool_decide_eq_true Ep]. zbool.
  pose proof (updated_here _ _ _ _ _ Hc (proj1 Hs3')) as Hc3.
  destruct (release_spec k3 i _ (proj1 Hout) Hc3) as (k' & E & Hk' & Ec).
  { by rewrite (ident_used _ _ (input_result_ident _ _ _ _ Hir)). }
  exists k'. split; [done|]. split; [done|]. right. split; [|right; by eauto].
  unfold slot_changed. rewrite Ec, (updated_changed _ _ _ _ (proj1 Hs3')). apply list_insert_insert_eq.
Qed.

Lemma input_matched_spec k i c segment s w :
  tcp_ok k → aget (tc_conns k) i = Some c → cn_used c = true → seg_ok segment s →
  ∃ w' k' st, input_matched call k i segment s w = Some (w', k', st) ∧
    input_outcome k i c s (payload_of segment s) k'.
Proof.
  intros Hk Hc Hu Hs. unfold input_matched. destruct (flag_set s TCP_RST) eqn:Hrst.
  { destruct (release_spec k i c Hk Hc Hu) as (k' & E & Hk' & Ec). rewrite E, obind_Some.
    do 3 eexists. split; [done|]. split; [done|]. right. split; [done|by left]. }
  destruct (input_ack_spec call k i c s w (tk_core _ Hk) Hc Hu (sk_ack _ _ Hs)) as (w1 & k1 & r & E1 & Hs1).
  rewrite E1, obind_Some. destruct r as [st|].
  { do 3 eexists. split; [done|]. eapply outcome_kept; [done..|apply ir_ack]. }
  pose proof (updated_here _ _ _ _ _ Hc (proj1 Hs1)) as Hc1. rewrite Hc1, obind_Some.
  pose proof (acked_ident c s) as Hid1.
  assert (cn_used (acked c s) = true) as Hu1 by (by rewrite (ident_used c)).
  destruct (receiving (cn_state (acked c s))) eqn:Hrec.
  - destruct (input_data_spec call k1 i _ segment s w1 (proj2 Hs1) Hc1 Hu1 Hs) as (w2 & k2 & r & E2 & Hs2).
    pose proof (slot_now_trans _ _ _ _ _ _ _ Hc Hs1 Hs2) as Hs2'. rewrite E2, obind_Some.
    pose proof (updated_here _ _ _ _ _ Hc (proj1 Hs2')) as Hc2. destruct r as [st|].
    { rewrite obind_Some. do 3 eexists. split; [done|]. eapply outcome_kept; [done..|by apply ir_data]. }
    destruct (input_fin_spec call k2 i _ s w2 (proj2 Hs2) Hc2) as (w3 & k3 & E3 & Hs3);
      [by rewrite (ident_used _ _ (stored_ident _ _ _))|by rewrite stored_state|].
    pose proof (slot_now_trans _ _ _ _ _ _ _ Hc Hs2' Hs3) as Hs3'. rewrite E3, !obind_Some.
    destruct (input_finish_outcome k i c s (payload_of segment s) _ k3 Hk Hc Hu Hs3') as (k' & E' & Hout);
      [by rewrite finned_ident, stored_ident|by apply ir_full|]. rewrite E', obind_Some. eauto.
  - rewrite obind_Some.
    destruct (input_finish_outcome k i c s (payload_of segment s) _ k1 Hk Hc Hu Hs1 Hid1) as (k' & E' & Hout);
      [by apply ir_closing|]. rewrite E', obind_Some. eauto.
Qed.

(** *** Segments for no connection *)

(** A reset leaves the tables alone. *)
Lemma send_rst_spec k sip sp dip dp seq wa ack w :
  tcp_ok k → is_u32 sip → is_u32 dip → is_u16 sp → is_u16 dp → is_u32 seq → is_u32 ack →
  ∃ w' k', tcp_send_rst call k sip sp dip dp seq wa ack w = Some (w', k') ∧ tcp_ok k' ∧
    tc_conns k' = tc_conns k.
Proof.
  intros [[H1 H2 H3 [Hs1 Hs2]] Hq Hi] Hsip Hdip Hsp Hdp Hseq Hack. unfold tcp_send_rst.
  set (fl := Z.lor TCP_RST (if wa then TCP_ACK else 0)).
  assert (0 ≤ fl < 256) as Hfl by (by subst fl; destruct wa).
  change (put_header (tc_scratch k) sp dp seq ack fl 0)
    with (put_header (tc_scratch k) sp dp seq ack fl (ow_bswap16 0)). rewrite put_header_spec, obind_Some by (done || lia).
  destruct (put_checksum_spec sp dp seq ack fl 0 [] (drop 20 (tc_scratch k)) sip dip 0)
    as (csum & _ & Ecs & _); [done|done|done|constructor|by apply Forall_drop|done|lia|].
  cbn [app] in Ecs. change TCP_HDR_LEN with (20 + 0). rewrite Ecs, obind_Some.
  unfold ip_tx. cbn [tc_scratch set_field eta_core].
  rewrite aslice_in, obind_Some by (rewrite ?length_app, ?length_drop, ?wire_header_length; lia).
  destruct (call _ _ _ _ _ _) as [w' st]. rewrite obind_Some. do 2 eexists. split; [done|].
  split; [|done]. constructor; [|destruct Hq as [Q1 Q2 Q3]; constructor; assumption|exact Hi].
  constructor; [exact H1|exact H2|exact H3|]. split.
  - change (length (wire_header sp dp seq ack fl 0 csum ++ drop 20 (tc_scratch k)) = 1480%nat).
    rewrite length_app, length_drop, wire_header_length. lia.
  - apply Forall_app. split; [by apply wire_header_octets|by apply Forall_drop].
Qed.

Lemma alloc_conn_spec k :
  core_ok k → ∃ r, tcp_alloc_conn k = Some r ∧
    match r with
    | Some i => aget (tc_conns k) i = Some zero_conn
    | None => ∀ i c, aget (tc_conns k) i = Some c → cn_used c = true
    end.
Proof.
  intros Hk. destruct (find_conn_spec k (λ c, negb (cn_used c)) (ck_conns _ Hk)) as (r & E & Hr).
  exists r. split; [exact E|]. destruct r as [i|].
  - destruct Hr as (c & Hc & Hu). zbool. destruct (ck_conn _ Hk _ _ Hc) as [Hb _].
    pose proof (co_used _ Hb) as Hz. rewrite Hu in Hz. by subst c.
  - intros i c Hc. specialize (Hr _ _ Hc). by zbool.
Qed.
End input.
