(* ===== verification/TcpCalls.v ===== *)
(** The operations of the TCP core: each of them returns on a well-formed core,
    keeps it well formed, and moves the connections only by the steps below.

    The client's operations of the TCP core (connect, listen, accept, send,
    receive, close, tick): each returns on a well-formed core, keeps it well
    formed and moves the connections only by local steps or reads. *)
From S2P Require Import Prelude Tcpcore TcpSeg TcpConn TcpInput TcpOps.

(** ** Connection steps *)

(** What happened to a connection: a segment with its payload arrived, bytes
    were read by the client, or something local. *)
Inductive tcp_event :=
  | EvSegment (s : tcp_segment) (p : list Z)
  | EvRead (b : list Z)
  | EvLocal.

Definition fresh_passive (lip lp rip rp seq win iss : Z) : tcp_conn_t :=
  zero_conn <| cn_used := true |> <| cn_passive := true |>
    <| cn_state := TCP_STATE_SYN_RCVD |> <| cn_local_ip := lip |>
    <| cn_remote_ip := rip |> <| cn_local_port := lp |>
    <| cn_remote_port := rp |> <| cn_iss := iss |>
    <| cn_irs := seq |> <| cn_snd_una := iss |> <| cn_snd_nxt := iss |>
    <| cn_rcv_nxt := u32 (seq + 1) |> <| cn_rcv_wnd := 4096 |>
    <| cn_snd_wnd := win |> <| cn_mss := TCP_MSS |>
    <| cn_rto := TCP_INITIAL_RTO |>.
Definition fresh_active (lip lp rip rp iss : Z) : tcp_conn_t :=
  zero_conn <| cn_used := true |> <| cn_state := TCP_STATE_SYN_SENT |>
    <| cn_local_ip := lip |> <| cn_remote_ip := rip |>
    <| cn_local_port := lp |> <| cn_remote_port := rp |>
    <| cn_iss := iss |> <| cn_snd_una := iss |> <| cn_snd_nxt := iss |>
    <| cn_rcv_wnd := 4096 |> <| cn_snd_wnd := 4096 |>
    <| cn_mss := TCP_MSS |> <| cn_rto := TCP_INITIAL_RTO |>
    <| cn_rto_timer := TCP_INITIAL_RTO |>.

(** The unread bytes of a connection, and the connection after [n] were read. *)
Definition unread (c : tcp_conn_t) : list Z := take (Z.to_nat (cn_rx_len c)) (cn_rx_buf c).
Definition read_bytes (c : tcp_conn_t) (n : Z) (rx : list Z) : tcp_conn_t :=
  c <| cn_rx_buf := rx |> <| cn_rx_len := cn_rx_len c - n |>.

Inductive conn_step : tcp_event → tcp_conn_t → tcp_conn_t → Prop :=
  | cs_passive_open s p lip lp rip rp win iss seg :
      conn_step (EvSegment s p) zero_conn
        (emitted (fresh_passive lip lp rip rp (sg_seq s) win iss) (Z.lor TCP_SYN TCP_ACK) [] true seg)
  | cs_segment s p c c' :
      cn_used c = true → input_result c s p c' → conn_step (EvSegment s p) c c'
  | cs_reset s p c :
      cn_used c = true → flag_set s TCP_RST = true → conn_step (EvSegment s p) c zero_conn
  | cs_last_ack s p c c' :
      cn_used c = true → input_result c s p c' → cn_state c' = TCP_STATE_LAST_ACK →
      cn_tx_pending c' = false → conn_step (EvSegment s p) c zero_conn
  | cs_active_open lip lp rip rp iss seg :
      conn_step EvLocal zero_conn (emitted (fresh_active lip lp rip rp iss) TCP_SYN [] true seg)
  | cs_send c data seg :
      sending (cn_state c) = true → cn_tx_pending c = false →
      conn_step EvLocal c (emitted c (Z.lor TCP_ACK TCP_PSH) data true seg)
  | cs_close c st seg :
      cn_state c = TCP_STATE_ESTABLISHED ∧ st = TCP_STATE_FIN_WAIT_1 ∨
      cn_state c = TCP_STATE_CLOSE_WAIT ∧ st = TCP_STATE_LAST_ACK →
      conn_step EvLocal c (emitted (c <| cn_state := st |>) (Z.lor TCP_FIN TCP_ACK) [] true seg)
  | cs_abort c : opening (cn_state c) = true → conn_step EvLocal c zero_conn
  | cs_accept c :
      cn_state c = TCP_STATE_ESTABLISHED → conn_step EvLocal c (c <| cn_accepted := true |>)
  | cs_read c n rx :
      0 ≤ n ≤ cn_rx_len c →
      take (Z.to_nat (cn_rx_len c - n)) rx = drop (Z.to_nat n) (unread c) →
      conn_step (EvRead (take (Z.to_nat n) (unread c))) c (read_bytes c n rx)
  | cs_wait c t :
      cn_state c = TCP_STATE_TIME_WAIT → conn_step EvLocal c (c <| cn_time_wait_timer := t |>)
  | cs_expire c : cn_state c = TCP_STATE_TIME_WAIT → conn_step EvLocal c zero_conn
  | cs_backoff c rto t : conn_step EvLocal c (c <| cn_rto := rto |> <| cn_rto_timer := t |>).

(** Every slot is as before or made a step of [R]. *)
Definition slots_step (R : Z → tcp_conn_t → tcp_conn_t → Prop) (k k' : tcpcore_t) : Prop :=
  ∀ j c, aget (tc_conns k) j = Some c →
    ∃ c', aget (tc_conns k') j = Some c' ∧ (c' = c ∨ R j c c').

Definition local (_ : Z) : tcp_conn_t → tcp_conn_t → Prop := conn_step EvLocal.

(** A segment from [src] to [dst] moves only the connection it is addressed to
    or opens a new one. *)
Definition by_segment (src dst : Z) (s : tcp_segment) (p : list Z) (_ : Z)
    (c c' : tcp_conn_t) : Prop :=
  (cn_used c = true → conn_matches src (sg_sport s) dst (sg_dport s) c = true) ∧
  conn_step (EvSegment s p) c c'.

Lemma slots_same R k k' : tc_conns k' = tc_conns k → slots_step R k k'.
Proof. intros E j c Hc. rewrite E. eauto. Qed.

Lemma slots_one (R : Z → tcp_conn_t → tcp_conn_t → Prop) k i c c' k' :
  aget (tc_conns k) i = Some c → slot_changed k i c' k' → R i c c' → slots_step R k k'.
Proof.
  intros Hc E Hst j d Hd. rewrite E, aget_insert by (by eapply aget_lt).
  case_decide as Ej; [|by eauto]. subst j. exists c'. split; [done|]. right. congruence.
Qed.

(** New connections. *)
Lemma fresh_passive_base lip lp rip rp seq win iss :
  is_u32 lip → is_u32 rip → is_u16 lp → is_u16 rp → is_u32 iss →
  conn_base (fresh_passive lip lp rip rp seq win iss).
Proof.
  intros. destruct (zero_conn_ok) as [[B1 B2 B3 B4 B5 B6 B7 B8 B9 B10 B11] _].
  constructor; first [exact B1|exact B2|exact B3|exact B4|done|idtac].
  - split; [done|]. split; [done|]. split; [apply u32_is_u32|done].
Qed.

Lemma fresh_active_base lip lp rip rp iss :
  is_u32 lip → is_u32 rip → is_u16 lp → is_u16 rp → is_u32 iss →
  conn_base (fresh_active lip lp rip rp iss).
Proof.
  intros. destruct (zero_conn_ok) as [[B1 B2 B3 B4 B5 B6 B7 B8 B9 B10 B11] _].
  constructor; first [exact B1|exact B2|exact B3|exact B4|done|idtac].
Qed.

Lemma fresh_passive_ok lip lp rip rp seq win iss seg :
  let c := fresh_passive lip lp rip rp seq win iss in
  conn_base c → segment_of c (cn_snd_nxt c) (Z.lor TCP_SYN TCP_ACK) [] seg →
  conn_ok (emitted c (Z.lor TCP_SYN TCP_ACK) [] true seg).
Proof.
  intros c Hb Hs. assert (outstanding c = 0) as Eo.
  { unfold outstanding. change (cn_snd_nxt c) with iss. change (cn_snd_una c) with iss. by rewrite Z.sub_diag. }
  apply emitted_save_ok; [done|done|done|done|by rewrite Eo|done|done].
Qed.

Lemma fresh_active_ok lip lp rip rp iss seg :
  let c := fresh_active lip lp rip rp iss in
  conn_base c → segment_of c (cn_snd_nxt c) TCP_SYN [] seg → conn_ok (emitted c TCP_SYN [] true seg).
Proof.
  intros c Hb Hs. assert (outstanding c = 0) as Eo.
  { unfold outstanding. change (cn_snd_nxt c) with iss. change (cn_snd_una c) with iss. by rewrite Z.sub_diag. }
  apply emitted_save_ok; [done|done|done|done|by rewrite Eo|done|done].
Qed.

(** Storing a connection and transmitting from it, whatever else the core
    changed meanwhile. *)
Lemma core_ok_updated k i c k' :
  core_ok k → slot_changed k i c k' → conn_ok c → length (tc_listeners k') = 4%nat →
  length (tc_scratch k') = 1480%nat → octets (tc_scratch k') → core_ok k'.
Proof.
  intros [H1 H2 H3 H4] E Hc Hl Hs1 Hs2. constructor; [rewrite E; by rewrite length_insert| |done|done].
  intros j d. rewrite E. intros Hd. pose proof (aget_lt _ _ _ Hd) as Hlt. rewrite length_insert in Hlt.
  destruct (decide (0 ≤ i < Z.of_nat (length (tc_conns k)))).
  - rewrite aget_insert in Hd by done. case_decide; [naive_solver|eauto].
  - destruct (decide (0 ≤ i)).
    + rewrite list_insert_ge in Hd by lia. eauto.
    + destruct (decide (Z.to_nat i < length (tc_conns k))%nat); [|rewrite list_insert_ge in Hd by lia; eauto].
      replace (Z.to_nat i) with (Z.to_nat 0) in Hd by lia. rewrite aget_insert in Hd by lia.
      case_decide; [naive_solver|eauto].
Qed.

Section api.
Context {W : Type} (call : Z → Z → Z → Z → list Z → W → W * Z).

Lemma next_isn_spec k :
  ∃ seed iss, tcp_next_isn k = (k <| tc_iss_seed := seed |>, iss) ∧ is_u32 iss.
Proof.
  unfold tcp_next_isn. do 2 eexists. split; [done|].
  apply lxor_u32; apply u32_range.
Qed.

Lemma passive_open_spec k lip lp rip rp src dst s p win w :
  tcp_ok k → is_u32 lip → is_u32 rip → is_u16 lp → is_u16 rp →
  ∃ w' k' st, tcp_passive_open call k lip lp rip rp (sg_seq s) win w = Some (w', k', st) ∧
    tcp_ok k' ∧ slots_step (by_segment src dst s p) k k'.
Proof.
  intros Hk Hlip Hrip Hlp Hrp. pose proof (tk_core _ Hk) as Hck. destruct (ck_scratch _ Hck) as [Hs1 Hs2].
  unfold tcp_passive_open.
  assert (∀ st : Z, ∃ w' k' st', Some (w, k, st) = Some (w', k', st') ∧ tcp_ok k' ∧
    slots_step (by_segment src dst s p) k k') as Hsame.
  { intros st. do 3 eexists. split; [done|]. split; [done|by apply slots_same]. }
  destruct (find_listener_spec k lp (ck_listeners _ Hck)) as (r & -> & Hr). rewrite obind_Some.
  destruct r as [j|]; [|by apply Hsame]. destruct Hr as (l & Hj & Hu & Hp). rewrite Hj, obind_Some.
  destruct (li_backlog l <=? li_pending l); [by apply Hsame|].
  destruct (alloc_conn_spec k Hck) as (r & -> & Hr). rewrite obind_Some.
  destruct r as [i|]; [|by apply Hsame].
  destruct (next_isn_spec k) as (seed & iss & -> & Hiss).
  fold (fresh_passive lip lp rip rp (sg_seq s) win iss).
  set (c0 := fresh_passive lip lp rip rp (sg_seq s) win iss).
  assert (conn_base c0) as Hb by (by apply fresh_passive_base).
  rewrite (put_conn_in _ i _ zero_conn), obind_Some by done.
  rewrite aset_in, obind_Some by (by eapply aget_lt).
  set (k1 := (with_conn _ i c0) <| tc_listeners := _ |>).
  assert (aget (tc_conns k1) i = Some c0) as Hc1.
  { change (tc_conns k1) with (<[Z.to_nat i := c0]> (tc_conns k)).
    rewrite aget_insert, decide_True by (done || by eapply aget_lt). done. }
  destruct (emit_slot call k1 i c0 (Z.lor TCP_SYN TCP_ACK) [] [] true w)
    as (w' & k' & st & seg & E & Hseg & Hup); [done|done|done|done|done|constructor|simpl; lia|done|].
  change (Z.of_nat (length [])) with 0 in E. rewrite E. do 3 eexists. split; [done|].
  set (c1 := emitted c0 (Z.lor TCP_SYN TCP_ACK) [] true seg) in *.
  assert (slot_changed k i c1 k') as Hch.
  { unfold slot_changed. rewrite (updated_changed _ _ _ _ Hup).
    change (tc_conns k1) with (<[Z.to_nat i := c0]> (tc_conns k)). apply list_insert_insert_eq. }
  destruct (updated_fields _ _ _ _ Hup) as (El & Ei & _ & _ & Hl1 & Hl2).
  split; [|eapply slots_one; [exact Hr|exact Hch|split; [discriminate|apply cs_passive_open]]].
  constructor.
  - eapply core_ok_updated; [exact Hck|exact Hch| | |exact Hl1|exact Hl2].
    { exact (fresh_passive_ok lip lp rip rp (sg_seq s) win iss seg Hb Hseg). }
    rewrite El. change (tc_listeners k1) with (<[Z.to_nat j := l <| li_pending := u16 (li_pending l + 1) |>]> (tc_listeners k)).
    rewrite length_insert. apply Hck.
  - apply (join_queue k k' i zero_conn c1 j l);
      [exact Hck|apply Hk|exact Hr|exact zero_conn_waits|exact Hj|exact Hu| |exact Hch|exact El].
    intros q. unfold waits. change (cn_local_port c1) with lp. by rewrite Hp.
  - rewrite Ei. apply Hk.
Qed.

Lemma input_unmatched_spec k src dst s p w :
  tcp_ok k → is_u32 src → is_u32 dst → is_u16 (sg_sport s) → is_u16 (sg_dport s) →
  is_u32 (sg_ack s) →
  ∃ w' k' st, input_unmatched call k src dst s w = Some (w', k', st) ∧ tcp_ok k' ∧
    slots_step (by_segment src dst s p) k k'.
Proof.
  intros Hk Hsrc Hdst Hsp Hdp Hack. unfold input_unmatched.
  destruct (flag_set s TCP_SYN && negb (flag_set s TCP_ACK)); [by apply passive_open_spec|].
  destruct (flag_set s TCP_RST); cbn [negb].
  { rewrite obind_Some. do 3 eexists. split; [done|]. split; [done|by apply slots_same]. }
  cbv zeta. set (rseq := if flag_set s TCP_FIN then _ else _).
  assert (is_u32 rseq) as Hseq by (subst rseq; repeat case_match; apply u32_is_u32).
  destruct (send_rst_spec call k dst (sg_dport s) src (sg_sport s) rseq (flag_set s TCP_ACK) (sg_ack s) w)
    as (w' & k' & E & Hk' & Ec); [done..|].
  rewrite E, obind_Some. do 3 eexists. split; [done|]. split; [done|by apply slots_same].
Qed.

(** Whatever the bytes, [tcp_input] returns and keeps the core well formed. *)
Lemma input_spec k src dst segment len w :
  tcp_ok k → is_u32 src → is_u32 dst → octets segment → 0 ≤ len ≤ 65535 →
  len ≤ Z.of_nat (length segment) →
  ∃ w' k' st, tcp_input call (Some k) src dst (Some segment) len w = Some (w', Some k', st) ∧
    tcp_ok k' ∧
    (tc_conns k' = tc_conns k ∨
     ∃ s, parse_segment segment len = Some (Some s) ∧ tcp_checksum src dst segment len = Some 0 ∧
       seg_ok segment s ∧ slots_step (by_segment src dst s (payload_of segment s)) k k').
Proof.
  intros Hk Hsrc Hdst Ho Hl Hlen. unfold tcp_input. rewrite (tk_init _ Hk). cbn [negb].
  assert (∀ st : Z, ∃ w' k' st', Some (w, Some k, st) = Some (w', Some k', st') ∧ tcp_ok k' ∧
    (tc_conns k' = tc_conns k ∨
     ∃ s, parse_segment segment len = Some (Some s) ∧ tcp_checksum src dst segment len = Some 0 ∧
       seg_ok segment s ∧ slots_step (by_segment src dst s (payload_of segment s)) k k')) as Hsame.
  { intros st. do 3 eexists. split; [done|]. split; [done|by left]. }
  change TCP_HDR_LEN with 20. destruct (Z.ltb_spec len 20); [apply Hsame|].
  destruct (parse_spec segment len) as (r & Er & Hr); [done|lia|done|]. rewrite Er, obind_Some.
  destruct r as [s|]; [|rewrite Er in Hsame; apply Hsame].
  destruct (Hr s eq_refl) as (Hs & Hsp & Hdp & _). rewrite Er in Hsame.
  destruct (tcp_checksum src dst segment len) as [csum|] eqn:Ec;
    [|by rewrite tcp_checksum_spec in Ec]. rewrite obind_Some.
  destruct (nz csum) eqn:Enz; [apply Hsame|]. unfold nz in Enz. zbool. subst csum.
  destruct (find_conn_spec k (conn_matches src (sg_sport s) dst (sg_dport s)) (ck_conns _ (tk_core _ Hk)))
    as (r & Ef & Hf). unfold tcp_find. rewrite Ef, obind_Some. destruct r as [i|].
  - destruct Hf as (c & Hc & Hm). assert (cn_used c = true) as Hu.
    { unfold conn_matches in Hm. by apply andb_true_iff in Hm as [[? _]%andb_true_iff _]. }
    destruct (input_matched_spec call k i c segment s w Hk Hc Hu Hs) as (w' & k' & st & E & Hk' & Hout).
    rewrite E, obind_Some. do 3 eexists. split; [done|]. split; [done|]. right. exists s.
    split; [done|]. split; [done|]. split; [done|].
    destruct Hout as [(c' & Hch & Hir)|[Hch [Hrst|(c' & Hir & Hla & Hp)]]];
      (eapply slots_one; [exact Hc|exact Hch|split; [done|]]);
      [by apply cs_segment|by apply cs_reset|by eapply cs_last_ack].
  - destruct (input_unmatched_spec k src dst s (payload_of segment s) w) as (w' & k' & st & E & Hk' & Hst);
      [done..|apply Hs|]. rewrite E, obind_Some. do 3 eexists. split; [done|]. split; [done|].
    right. exists s. done.
Qed.
End api.

(** A slot whose connection keeps its place in the queues. *)
Lemma tcp_ok_slot k i c c' k' :
  tcp_ok k → aget (tc_conns k) i = Some c → slot_changed k i c' k' → conn_ok c' →
  (∀ port, waits port c' = waits port c) → tc_listeners k' = tc_listeners k →
  tc_initialized k' = tc_initialized k → length (tc_scratch k') = 1480%nat →
  octets (tc_scratch k') → tcp_ok k'.
Proof.
  intros [Hk Hq Hi] Hc Hch Hok Hw El Ei Hs1 Hs2. pose proof Hc as Hc0.
  apply aget_Some in Hc0 as [_ Hc0]. constructor; [| |congruence].
  - eapply core_ok_updated; [done..| |done|done]. rewrite El. apply Hk.
  - apply (queue_ok_conns k); [done|done| |].
    + intros port. rewrite Hch, (countb_insert _ _ _ _ _ Hc0), Hw. lia.
    + intros j d port. rewrite Hch, aget_insert by (by eapply aget_lt).
      case_decide; [|by eauto]. intros [= <-]. rewrite Hw. eauto.
Qed.

Lemma conn_at_spec k id :
  core_ok k → ∃ r, tcp_conn_at k id = Some r ∧
    match r with
    | Some i => i = id - 1 ∧ ∃ c, aget (tc_conns k) i = Some c ∧ cn_used c = true
    | None => True
    end.
Proof.
  intros Hk. unfold tcp_conn_at. change TCP_MAX_CONNS with 8. destruct (_ || _) eqn:E; [by exists None|]. zbool.
  destruct (aget_is_Some (tc_conns k) (id - 1)) as [c Hc]; [rewrite (ck_conns _ Hk); lia|].
  rewrite Hc, obind_Some. eexists. split; [done|]. destruct (cn_used c) eqn:Hu; [|done]. eauto.
Qed.

Section connect.
Context {W : Type} (call : Z → Z → Z → Z → list Z → W → W * Z).

Lemma connect_spec k lip lp rip rp w :
  tcp_ok k → is_u32 lip → is_u32 rip → is_u16 lp → is_u16 rp →
  ∃ w' k' id, tcp_connect call (Some k) lip lp rip rp w = Some (w', Some k', id) ∧
    tcp_ok k' ∧ slots_step local k k'.
Proof.
  intros Hk Hlip Hrip Hlp Hrp. pose proof (tk_core _ Hk) as Hck. destruct (ck_scratch _ Hck) as [Hs1 Hs2].
  assert (∀ st : Z, ∃ w' k' st', Some (w, Some k, st) = Some (w', Some k', st') ∧ tcp_ok k' ∧
    slots_step local k k') as Hsame.
  { intros st. do 3 eexists. split; [done|]. split; [done|by apply slots_same]. }
  unfold tcp_connect. rewrite (tk_init _ Hk). cbn [negb]. destruct (_ || _); [apply Hsame|].
  destruct (find_conn_spec k (conn_matches rip rp lip lp) (ck_conns _ Hck)) as (r & Ef & _).
  unfold tcp_find. rewrite Ef, obind_Some. destruct r; [apply Hsame|].
  destruct (alloc_conn_spec k Hck) as (r & -> & Hr). rewrite obind_Some.
  destruct r as [i|]; [|apply Hsame]. destruct (next_isn_spec k) as (seed & iss & -> & Hiss).
  fold (fresh_active lip lp rip rp iss). set (c0 := fresh_active lip lp rip rp iss).
  assert (conn_base c0) as Hb by (by apply fresh_active_base).
  rewrite (put_conn_in _ i _ zero_conn), obind_Some by done.
  set (k1 := with_conn (k <| tc_iss_seed := seed |>) i c0).
  assert (aget (tc_conns k1) i = Some c0) as Hc1.
  { change (tc_conns k1) with (<[Z.to_nat i := c0]> (tc_conns k)).
    rewrite aget_insert, decide_True by (done || by eapply aget_lt). done. }
  destruct (emit_slot call k1 i c0 TCP_SYN [] [] true w)
    as (w' & k' & st & seg & E & Hseg & Hup); [done|done|done|done|done|constructor|simpl; lia|done|].
  change (Z.of_nat (length [])) with 0 in E. rewrite E, obind_Some.
  set (c1 := emitted c0 TCP_SYN [] true seg) in *.
  assert (slot_changed k i c1 k') as Hch.
  { unfold slot_changed. rewrite (updated_changed _ _ _ _ Hup).
    change (tc_conns k1) with (<[Z.to_nat i := c0]> (tc_conns k)). apply list_insert_insert_eq. }
  destruct (updated_fields _ _ _ _ Hup) as (El & Ei & _ & _ & Hl1 & Hl2).
  pose proof (fresh_active_ok lip lp rip rp iss seg Hb Hseg) as Hok.
  destruct (st =? TCP_OK); cbn [negb].
  - do 3 eexists. split; [done|]. split.
    + eapply (tcp_ok_slot k i); [exact Hk|exact Hr|exact Hch|exact Hok| |exact El|exact Ei|exact Hl1|exact Hl2].
      intros port. reflexivity.
    + eapply slots_one; [exact Hr|exact Hch|apply cs_active_open].
  - pose proof (updated_here _ _ _ _ _ Hc1 Hup) as Hc2. rewrite (put_conn_in _ i _ c1), obind_Some by done.
    do 3 eexists. split; [done|].
    assert (slot_changed k i zero_conn (with_conn k' i zero_conn)) as Hz.
    { unfold slot_changed. change (tc_conns (with_conn k' i zero_conn)) with
        (<[Z.to_nat i := zero_conn]> (tc_conns k')). rewrite Hch. apply list_insert_insert_eq. }
    split.
    + eapply (tcp_ok_slot k i); [exact Hk|exact Hr|exact Hz|exact zero_conn_ok|done|exact El|exact Ei|exact Hl1|exact Hl2].
    + apply slots_same. rewrite Hz. apply list_insert_id. by apply aget_Some in Hr as [_ Hr].
Qed.

End connect.

(** *** Listening *)

(** Changes of the listener table that keep ports and counts. *)
Lemma listen_update k j l l' :
  tcp_ok k → aget (tc_listeners k) j = Some l → li_used l' = true →
  li_pending l' = countb (waits (li_local_port l')) (tc_conns k) →
  (∀ j2 l2, j2 ≠ j → aget (tc_listeners k) j2 = Some l2 → li_used l2 = true →
     li_local_port l2 ≠ li_local_port l') →
  (li_used l = true → li_local_port l' = li_local_port l) →
  tcp_ok (k <| tc_listeners := <[Z.to_nat j := l']> (tc_listeners k) |>).
Proof.
  intros [[H1 H2 H3 H4] [Q1 Q2 Q3] Hi] Hj Hu' Hcnt Hdis Hsame. pose proof (aget_lt _ _ _ Hj) as Hlt.
  constructor; [constructor; [done|done|simpl; by rewrite length_insert|done]| |done].
  constructor; simpl.
  - intros j' d. rewrite aget_insert by done. case_decide; [naive_solver|eauto].
  - intros j1 j2 l1 l2. rewrite !aget_insert by done.
    repeat case_decide; intros E1 E2 U1 U2 Hp; subst; try done.
    + injection E1 as <-. exfalso. eapply Hdis; [|exact E2|done|done]. done.
    + injection E2 as <-. exfalso. eapply Hdis; [|exact E1|done|done]. done.
    + by eapply Q2.
  - intros i c port Hc Hw. destruct (Q3 _ _ _ Hc Hw) as (j' & d & Hd & Hu & Hp).
    destruct (decide (j = j')) as [<-|Hne].
    + exists j, l'. rewrite aget_insert, decide_True by done. split; [done|]. split; [done|].
      assert (d = l) as -> by congruence. by rewrite Hsame.
    + exists j', d. by rewrite aget_insert, decide_False.
Qed.

Lemma countb_zero {A} (p : A → bool) l : (∀ i x, l !! i = Some x → p x = false) → countb p l = 0.
Proof.
  induction l as [|x l IH]; intros H; [done|]. simpl. rewrite (H 0%nat x eq_refl), IH; [done|].
  intros i y Hy. by apply (H (S i)).
Qed.

(** A port nobody listens on has no waiting connection. *)
Lemma no_listener_no_wait k port :
  queue_ok k → (∀ j l, aget (tc_listeners k) j = Some l → li_used l = true → li_local_port l ≠ port) →
  countb (waits port) (tc_conns k) = 0.
Proof.
  intros Hq Hn. apply countb_zero. intros i c Hc. destruct (waits port c) eqn:Hw; [|done]. exfalso.
  destruct (qu_owner _ Hq (Z.of_nat i) c port) as (j & l & Hj & Hu & Hp); [by rewrite aget_of_nat|done|].
  by eapply Hn.
Qed.

Lemma listen_spec k lip lp backlog :
  tcp_ok k → ∃ k' st, tcp_listen (Some k) lip lp backlog = Some (Some k', st) ∧
    tcp_ok k' ∧ slots_step local k k'.
Proof.
  intros Hk. pose proof (tk_core _ Hk) as Hck. unfold tcp_listen. rewrite (tk_init _ Hk). cbn [negb orb].
  assert (∀ st : Z, ∃ k' st', Some (Some k, st) = Some (Some k', st') ∧ tcp_ok k' ∧
    slots_step local k k') as Hsame.
  { intros st. do 2 eexists. split; [done|]. split; [done|by apply slots_same]. }
  destruct (lp =? 0); [apply Hsame|]. cbv zeta.
  destruct (find_listener_spec k lp (ck_listeners _ Hck)) as (r & -> & Hr). rewrite obind_Some.
  destruct r as [j|].
  - destruct Hr as (l & Hj & Hu & Hp). rewrite Hj, obind_Some.
    rewrite aset_in, obind_Some by (by eapply aget_lt). do 2 eexists. split; [done|].
    split; [|by apply slots_same]. eapply listen_update; [done|exact Hj|exact Hu| | |done].
    + by apply (qu_count _ (tk_queue _ Hk) j l).
    + intros j2 l2 Hne Hj2 Hu2 Hpp. apply Hne. by eapply (qu_port _ (tk_queue _ Hk)).
  - destruct (find_up_spec 4 0 (tc_listeners k) (λ l, negb (li_used l))) as (r & E & Hf);
      [lia|rewrite (ck_listeners _ Hck); lia|].
    change (Z.to_nat TCP_MAX_LISTENERS) with 4%nat. rewrite E, obind_Some.
    destruct r as [j|]; [|apply Hsame]. destruct Hf as (_ & (l & Hj & Hu) & _). zbool.
    rewrite aset_in, obind_Some by (by eapply aget_lt). do 2 eexists. split; [done|].
    split; [|by apply slots_same]. eapply listen_update; [done|exact Hj|done| | |congruence].
    + symmetry. by apply no_listener_no_wait; [apply Hk|].
    + intros j2 l2 _ Hj2 Hu2. by eapply Hr.
Qed.

(** *** Accepting *)

Lemma drop_pending_with k i c port :
  drop_pending (with_conn k i c) port = (k1 ← drop_pending k port; Some (with_conn k1 i c)).
Proof.
  unfold drop_pending. change (tcp_find_listener (with_conn k i c) port) with (tcp_find_listener k port).
  destruct (tcp_find_listener k port) as [[j|]|]; [|done|done]. rewrite !obind_Some.
  change (tc_listeners (with_conn k i c)) with (tc_listeners k).
  destruct (aget (tc_listeners k) j) as [l|]; [|done]. rewrite !obind_Some.
  destruct (0 <? li_pending l); [|done]. destruct (aset _ j _); done.
Qed.

Lemma accepted_ok c : conn_ok c → cn_used c = true → conn_ok (c <| cn_accepted := true |>).
Proof.
  intros Hok Hu. pose proof (proj1 Hok) as Hb. destruct (co_rx_buf _ Hb). pose proof (co_seqs _ Hb).
  apply (conn_ok_rx c); [done|done|reflexivity|done|done|apply (co_rx_len _ Hb)|apply (co_seqs _ Hb)|
    apply (co_timer _ Hb)|by left].
Qed.

Lemma accept_spec k lip lp out :
  tcp_ok k → ∃ k' st out', tcp_accept (Some k) lip lp (Some out) = Some (Some k', st, out') ∧
    tcp_ok k' ∧ slots_step local k k'.
Proof.
  intros Hk. pose proof (tk_core _ Hk) as Hck. unfold tcp_accept.
  destruct (find_conn_spec k (acceptable lip lp) (ck_conns _ Hck)) as (r & -> & Hr). rewrite obind_Some.
  destruct r as [i|]; [|do 3 eexists; split; [done|]; split; [done|by apply slots_same]].
  destruct Hr as (c & Hc & Ha). unfold acceptable in Ha.
  apply andb_true_iff in Ha as [[[Ha Hst%bool_decide_eq_true]%andb_true_iff Hp]%andb_true_iff _].
  rewrite !negb_orb, !negb_involutive in Ha. apply andb_true_iff in Ha as [[Hu Hpas]%andb_true_iff Hna].
  zbool. rewrite Hc, obind_Some. rewrite (put_conn_in k i _ c), obind_Some by done.
  rewrite drop_pending_with. set (c' := c <| cn_accepted := true |>).
  destruct (drop_pending_spec k i c c' lp Hck (tk_queue _ Hk) Hc) as
    (k1 & E & Ec & Ein & _ & _ & _ & _ & Hk1 & Hq1).
  { unfold waits. by rewrite Hu, Hpas, Hna, Hp, Z.eqb_refl. }
  { intros q. unfold waits. change (cn_accepted c') with true. by rewrite andb_false_r. }
  { by apply accepted_ok; [apply (ck_conn _ Hck i)|]. }
  rewrite E, !obind_Some. do 3 eexists. split; [done|]. split.
  - constructor; [done|done|]. change (tc_initialized k1 = true). rewrite Ein. apply Hk.
  - eapply (slots_one local k i c c'); [done| |by apply cs_accept].
    unfold slot_changed. change (tc_conns (with_conn k1 i c')) with (<[Z.to_nat i := c']> (tc_conns k1)).
    by rewrite Ec.
Qed.

(** *** Sending and closing *)
Section calls.
Context {W : Type} (call : Z → Z → Z → Z → list Z → W → W * Z).

(** A saved segment from a used slot: the common part of send and close. *)
Lemma emit_saved_spec k i c0 c fl data payload w :
  tcp_ok k → aget (tc_conns k) i = Some c0 → conn_base c → cn_used c = true →
  ident c = ident c0 → opening (cn_state c) = false → 0 ≤ fl < 256 →
  octets payload → (length payload ≤ 1460)%nat → payload = take (length payload) data →
  1 ≤ seq_len fl payload → outstanding c + seq_len fl payload ≤ send_limit (cn_state c) →
  (before_fin (cn_state c) = true → outstanding c = 0) →
  ∃ w' k' st seg,
    tcp_emit call (with_conn k i c) i fl data (Z.of_nat (length payload)) true w = Some (w', k', st) ∧
    slot_changed k i (emitted c fl payload true seg) k' ∧ tcp_ok k'.
Proof.
  intros Hk Hc Hb Hu Hid Hop Hfl Ho Hl Hd Hs1 Hlim Hal. pose proof (tk_core _ Hk) as Hck.
  destruct (ck_scratch _ Hck) as [Hsc1 Hsc2].
  assert (aget (tc_conns (with_conn k i c)) i = Some c) as Hc1.
  { rewrite (with_conn_get _ _ _ _ _ Hc). by rewrite decide_True. }
  destruct (emit_slot call (with_conn k i c) i c fl data payload true w)
    as (w' & k' & st & seg & E & Hseg & Hup); [done..|].
  exists w', k', st, seg. split; [done|].
  assert (slot_changed k i (emitted c fl payload true seg) k') as Hch.
  { unfold slot_changed. rewrite (updated_changed _ _ _ _ Hup).
    change (tc_conns (with_conn k i c)) with (<[Z.to_nat i := c]> (tc_conns k)). apply list_insert_insert_eq. }
  split; [done|]. destruct (updated_fields _ _ _ _ Hup) as (El & Ei & _ & _ & Hl1 & Hl2).
  eapply (tcp_ok_slot k i); [done|exact Hc|exact Hch| | |exact El|exact Ei|done|done].
  - apply emitted_save_ok; [done|done|done|done|done|congruence|done].
  - intros port. by apply waits_ident.
Qed.

Lemma with_conn_same k i c : aget (tc_conns k) i = Some c → with_conn k i c = k.
Proof.
  intros [_ Hc]%aget_Some. unfold with_conn. rewrite list_insert_id by done. by destruct k.
Qed.

Lemma send_spec k id data len w :
  tcp_ok k → 0 ≤ len →
  (∀ d, data = Some d → octets d ∧ len ≤ Z.of_nat (length d)) →
  ∃ w' k' st, tcp_send call (Some k) id data len w = Some (w', Some k', st) ∧ tcp_ok k' ∧
    slots_step local k k'.
Proof.
  intros Hk Hlen Hdata. pose proof (tk_core _ Hk) as Hck. unfold tcp_send.
  assert (∀ st : Z, ∃ w' k' st', Some (w, Some k, st) = Some (w', Some k', st') ∧ tcp_ok k' ∧
    slots_step local k k') as Hsame.
  { intros st. do 3 eexists. split; [done|]. split; [done|by apply slots_same]. }
  destruct (_ && nz len) eqn:Enull; [apply Hsame|].
  destruct (conn_at_spec k id Hck) as (r & -> & Hr). rewrite obind_Some.
  destruct r as [i|]; [|apply Hsame]. destruct Hr as (_ & c & Hc & Hu). rewrite Hc, obind_Some.
  destruct (negb (bool_decide (cn_state c = TCP_STATE_ESTABLISHED)) && _) eqn:Est; [apply Hsame|].
  destruct (Z.eqb_spec len 0); [apply Hsame|]. change TCP_MSS with 1460.
  destruct (Z.ltb_spec 1460 len); [apply Hsame|]. destruct (cn_tx_pending c) eqn:Hpe; [apply Hsame|].
  destruct data as [d|]; [|unfold nz in Enull; by rewrite (proj2 (Z.eqb_neq len 0)) in Enull by done].
  rewrite obind_Some. destruct (Hdata d eq_refl) as [Ho Hd].
  assert (sending (cn_state c) = true) as Hsend.
  { unfold sending. by rewrite <-(negb_involutive (_ || _)), negb_orb, Est. }
  destruct (ck_conn _ Hck _ _ Hc) as [Hb Hf].
  set (payload := take (Z.to_nat len) d).
  assert (length payload = Z.to_nat len) as Hlp by (subst payload; rewrite length_take; lia).
  assert (outstanding c = 0) as Eo.
  { unfold outstanding. by rewrite (co_idle _ Hf Hpe), Z.sub_diag. }
  assert (seq_len (Z.lor TCP_ACK TCP_PSH) payload = len) as Esl.
  { unfold seq_len. rewrite Hlp. change (nz (Z.land _ TCP_SYN)) with false.
    change (nz (Z.land _ TCP_FIN)) with false. cbv iota. lia. }
  destruct (emit_saved_spec k i c c (Z.lor TCP_ACK TCP_PSH) d payload w)
    as (w' & k' & st & seg & E & Hch & Hk'); try done.
  - unfold sending, opening in *. destruct (cn_state c); done.
  - by apply Forall_take.
  - lia.
  - by rewrite Hlp.
  - lia.
  - rewrite Eo, Esl. unfold send_limit. rewrite Hsend. lia.
  - rewrite (with_conn_same k i c Hc), Hlp, Z2Nat.id in E by lia. rewrite E, obind_Some.
    do 3 eexists. split; [done|]. split; [done|].
    eapply slots_one; [exact Hc|exact Hch|by apply cs_send].
Qed.

Lemma state_base c st :
  conn_base c → cn_used c = true → st ≠ TCP_STATE_CLOSED → st ≠ TCP_STATE_LISTEN →
  conn_base (c <| cn_state := st |>).
Proof.
  intros Hb Hu H1 H2. destruct (co_seqs _ Hb) as (? & _ & ? & _).
  eapply (conn_base_ack c); [done|done|reflexivity|done|done|done|done].
Qed.

(** Sending the FIN: the connection may still have its last segment
    outstanding. *)
Lemma close_fin k i c st w :
  tcp_ok k → aget (tc_conns k) i = Some c → cn_used c = true → sending (cn_state c) = true →
  cn_state c = TCP_STATE_ESTABLISHED ∧ st = TCP_STATE_FIN_WAIT_1 ∨
  cn_state c = TCP_STATE_CLOSE_WAIT ∧ st = TCP_STATE_LAST_ACK →
  ∃ w' k' r, (k ← put_conn k i (c <| cn_state := st |>);
              '(w, k, r) ← tcp_emit call k i (Z.lor TCP_FIN TCP_ACK) [] 0 true w;
              Some (w, Some k, r)) = Some (w', Some k', r) ∧ tcp_ok k' ∧ slots_step local k k'.
Proof.
  intros Hk Hc Hu Hsend Hst. destruct (ck_conn _ (tk_core _ Hk) _ _ Hc) as [Hb Hf].
  rewrite (put_conn_in k i _ c), obind_Some by done. set (c1 := c <| cn_state := st |>).
  assert (outstanding c1 ≤ 1460) as Ho.
  { change (outstanding c1) with (outstanding c). destruct (cn_tx_pending c) eqn:Hp.
    - destruct (co_busy _ Hf Hp) as (_ & _ & Hlim). unfold send_limit in Hlim. rewrite Hsend in Hlim. lia.
    - unfold outstanding. by rewrite (co_idle _ Hf Hp), Z.sub_diag. }
  destruct (emit_saved_spec k i c c1 (Z.lor TCP_FIN TCP_ACK) [] [] w)
    as (w' & k' & r & seg & E & Hch & Hk'); try done.
  - apply state_base; [done|done|destruct Hst as [[_ ->]|[_ ->]]; done..].
  - change (cn_state c1) with st. destruct Hst as [[_ ->]|[_ ->]]; done.
  - constructor.
  - simpl. lia.
  - change (seq_len _ []) with 1. change (cn_state c1) with st.
    destruct Hst as [[_ ->]|[_ ->]]; change (send_limit _) with 1461; lia.
  - change (cn_state c1) with st. destruct Hst as [[_ ->]|[_ ->]]; done.
  - change (Z.of_nat (length [])) with 0 in E. rewrite E, obind_Some.
    do 3 eexists. split; [done|]. split; [done|].
    eapply slots_one; [exact Hc|exact Hch|by apply cs_close].
Qed.

Lemma close_spec k id w :
  tcp_ok k → ∃ w' k' st, tcp_close call (Some k) id w = Some (w', Some k', st) ∧ tcp_ok k' ∧
    slots_step local k k'.
Proof.
  intros Hk. pose proof (tk_core _ Hk) as Hck. unfold tcp_close.
  assert (∀ st : Z, ∃ w' k' st', Some (w, Some k, st) = Some (w', Some k', st') ∧ tcp_ok k' ∧
    slots_step local k k') as Hsame.
  { intros st. do 3 eexists. split; [done|]. split; [done|by apply slots_same]. }
  destruct (conn_at_spec k id Hck) as (r & -> & Hr). rewrite obind_Some.
  destruct r as [i|]; [|apply Hsame]. destruct Hr as (_ & c & Hc & Hu). rewrite Hc, obind_Some. cbv zeta.
  assert (opening (cn_state c) = true → ∃ w' k' st',
    (k ← tcp_release k i; Some (w, Some k, TCP_OK)) = Some (w', Some k', st') ∧ tcp_ok k' ∧
    slots_step local k k') as Habort.
  { intros Ho. destruct (release_spec k i c Hk Hc Hu) as (k' & E & Hk' & Ec). rewrite E, obind_Some.
    do 3 eexists. split; [done|]. split; [done|]. eapply slots_one; [exact Hc|exact Ec|by apply cs_abort]. }
  destruct (cn_state c) eqn:Es; try apply Hsame; try (by apply Habort).
  - apply close_fin; [done|done|done|by rewrite Es|rewrite Es; by left].
  - apply close_fin; [done|done|done|by rewrite Es|rewrite Es; by right].
Qed.
End calls.
