(* ===== verification/TcpRun.v ===== *)
(** Reading received bytes, the timers, and initialisation of the TCP core.

    Sequences of operations of the TCP core: the calls as data, what each does
    to the connections, the state diagram they follow, and the invariant of
    the received byte stream. *)
From S2P Require Import Prelude Tcpcore TcpSeg TcpConn TcpInput TcpOps TcpCalls.

(** ** Receiving *)

(** The loop that moves the unread bytes to the front of the buffer. *)
Lemma shift_down_spec (m n j : nat) (l : list Z) :
  (n + j + m ≤ length l)%nat →
  for_up m (Z.of_nat (n + j)) (λ i rx, x ← aget rx i; aset rx (i - Z.of_nat n) x) l =
    Some (take j l ++ take m (drop (n + j) l) ++ drop (j + m) l).
Proof.
  revert j l. induction m as [|m IH]; intros j l Hl; cbn [for_up].
  - rewrite Nat.add_0_r, take_0. cbn [app]. by rewrite take_drop.
  - destruct (lookup_lt_is_Some_2 l (n + j)) as [x Hx]; [lia|].
    rewrite aget_of_nat, Hx, obind_Some, aset_in, obind_Some by lia.
    replace (Z.to_nat (Z.of_nat (n + j) - Z.of_nat n)) with j by lia.
    replace (Z.of_nat (n + j) + 1) with (Z.of_nat (n + S j)) by lia.
    rewrite IH by (rewrite length_insert; lia). f_equal.
    rewrite (take_S_r _ _ x) by (apply list_lookup_insert_eq; lia).
    rewrite take_insert_ge by lia. rewrite <-app_assoc. f_equal.
    rewrite !drop_insert_lt by lia. rewrite (drop_lookup_cons l (n + j) x) by done. cbn [take app].
    do 2 f_equal; [f_equal; f_equal; lia|f_equal; lia].
Qed.

(** Reading [n] bytes: the rest moves to the front of the buffer. *)
Definition rx_after (c : tcp_conn_t) (n : Z) : list Z :=
  drop (Z.to_nat n) (unread c) ++ drop (Z.to_nat (cn_rx_len c - n)) (cn_rx_buf c).

Lemma rx_after_spec c n :
  conn_base c → 0 ≤ n ≤ cn_rx_len c →
  for_up (Z.to_nat (cn_rx_len c - n)) n (λ i rx, x ← aget rx i; aset rx (i - n) x) (cn_rx_buf c) =
    Some (rx_after c n).
Proof.
  intros Hb Hn. pose proof (co_rx_len _ Hb). destruct (co_rx_buf _ Hb) as [Hl _].
  pose proof (shift_down_spec (Z.to_nat (cn_rx_len c - n)) (Z.to_nat n) 0 (cn_rx_buf c)) as E.
  rewrite Nat.add_0_r, Z2Nat.id in E by lia. rewrite E by lia. f_equal. cbn [take app].
  unfold rx_after, unread. rewrite skipn_firstn_comm.
  by replace (Z.to_nat (cn_rx_len c) - Z.to_nat n)%nat with (Z.to_nat (cn_rx_len c - n)) by lia.
Qed.

Lemma rx_after_facts c n :
  conn_base c → 0 ≤ n ≤ cn_rx_len c →
  length (rx_after c n) = 4096%nat ∧ octets (rx_after c n) ∧
  take (Z.to_nat (cn_rx_len c - n)) (rx_after c n) = drop (Z.to_nat n) (unread c).
Proof.
  intros Hb Hn. pose proof (co_rx_len _ Hb). destruct (co_rx_buf _ Hb) as [Hl Ho].
  assert (length (drop (Z.to_nat n) (unread c)) = Z.to_nat (cn_rx_len c - n)) as Hd.
  { unfold unread. rewrite length_drop, length_take. lia. }
  unfold rx_after. split; [rewrite length_app, Hd, length_drop; lia|]. split.
  - apply Forall_app. split; [|by apply Forall_drop]. apply Forall_drop, Forall_take, Ho.
  - rewrite <-Hd. apply take_app_length.
Qed.

Lemma read_bytes_ok c n :
  conn_ok c → cn_used c = true → 0 ≤ n ≤ cn_rx_len c → conn_ok (read_bytes c n (rx_after c n)).
Proof.
  intros Hok Hu Hn. pose proof (proj1 Hok) as Hb. pose proof (co_rx_len _ Hb).
  destruct (rx_after_facts c n Hb Hn) as (H1 & H2 & _).
  apply (conn_ok_rx c); [done|done|reflexivity|exact H1|exact H2| |apply (co_seqs _ Hb)|
    apply (co_timer _ Hb)|by left].
  change (cn_rx_len (read_bytes c n (rx_after c n))) with (cn_rx_len c - n). lia.
Qed.

(** Slot [id - 1] hands the bytes [b] to the client, every other slot is as
    before. *)
Definition reads (id : Z) (b : list Z) (j : Z) (c c' : tcp_conn_t) : Prop :=
  if j =? id - 1 then b = [] ∧ c' = c ∨ conn_step (EvRead b) c c' else c' = c.

(** Every slot made a step of [R]. *)
Definition all_slots (R : Z → tcp_conn_t → tcp_conn_t → Prop) (k k' : tcpcore_t) : Prop :=
  ∀ j c, aget (tc_conns k) j = Some c → ∃ c', aget (tc_conns k') j = Some c' ∧ R j c c'.

(** The bytes a call of [tcp_recv] stored for the client. *)
Definition received (st : Z) (buf : ptr (list Z)) (out_len : ptr Z) : list Z :=
  match buf, out_len with
  | Some b, Some n => if st =? TCP_OK then take (Z.to_nat n) b else []
  | _, _ => []
  end.

Lemma recv_spec k id buf cap out :
  tcp_ok k → 0 ≤ cap ≤ Z.of_nat (length buf) →
  ∃ k' b' n' st, tcp_recv (Some k) id (Some buf) cap (Some out) = Some (Some k', Some b', Some n', st) ∧
    length b' = length buf ∧ (st = TCP_OK → 0 ≤ n' ≤ cap) ∧ tcp_ok k' ∧
    all_slots (reads id (received st (Some b') (Some n'))) k k'.
Proof.
  intros Hk Hcap. pose proof (tk_core _ Hk) as Hck. unfold tcp_recv.
  assert (∀ st : Z, st ≠ TCP_OK → ∃ k' b' n' st', Some (Some k, Some buf, Some out, st) =
      Some (Some k', Some b', Some n', st') ∧ length b' = length buf ∧ (st' = TCP_OK → 0 ≤ n' ≤ cap) ∧
      tcp_ok k' ∧ all_slots (reads id (received st' (Some b') (Some n'))) k k') as Hsame.
  { intros st Hst. exists k, buf, out, st. split_and!; try done. intros j c Hc. exists c. split; [done|].
    unfold reads, received. rewrite (proj2 (Z.eqb_neq st TCP_OK)) by done. case_if; [by left|done]. }
  destruct (conn_at_spec k id Hck) as (r & -> & Hr). rewrite obind_Some.
  destruct r as [i|]; [|by apply Hsame]. destruct Hr as (-> & c & Hc & Hu). rewrite Hc, obind_Some.
  destruct (Z.eqb_spec (cn_rx_len c) 0) as [|_]; [apply Hsame; by case_bool_decide|].
  pose proof (ck_conn _ Hck _ _ Hc) as Hok. pose proof (proj1 Hok) as Hb.
  pose proof (co_rx_len _ Hb). destruct (co_rx_buf _ Hb) as [Hl Ho]. cbv zeta.
  set (n := if cn_rx_len c <? cap then cn_rx_len c else cap).
  assert (0 ≤ n ≤ cn_rx_len c ∧ n ≤ cap) as [Hn Hnc] by (subst n; case_if; zbool; lia).
  rewrite copy_bytes_Z, obind_Some by lia. rewrite rx_after_spec, obind_Some by done.
  rewrite u32_small by lia. fold (read_bytes c n (rx_after c n)).
  destruct (rx_after_facts c n Hb Hn) as (H1 & H2 & H3). pose proof (read_bytes_ok c n Hok Hu Hn) as Hok'.
  destruct (slot_now_put k (id - 1) c _ Hck Hc Hok') as [E Hs]. rewrite E, obind_Some.
  do 4 eexists. split; [done|].
  split; [rewrite length_app, length_take, length_drop; lia|]. split; [lia|].
  split; [eapply tcp_ok_ident; [exact Hk|exact Hc|exact Hs|reflexivity]|].
  intros j d Hd. rewrite (updated_get _ _ _ _ _ _ Hc (proj1 Hs)). unfold reads.
  destruct (Z.eqb_spec j (id - 1)) as [->|Hne];
    [rewrite decide_True by done|rewrite decide_False by done; by eauto].
  eexists. split; [done|]. right. assert (d = c) as -> by congruence.
  assert (received TCP_OK (Some (take (Z.to_nat n) (cn_rx_buf c) ++ drop (Z.to_nat n) buf)) (Some n) =
    take (Z.to_nat n) (unread c)) as ->; [|by apply cs_read].
  unfold received, unread. change (TCP_OK =? TCP_OK) with true. cbv iota.
  rewrite take_app_length' by (rewrite length_take; lia). rewrite take_take. f_equal. lia.
Qed.

(** ** Timers *)

(** A retransmission is due. *)
Definition due (e : Z) (c : tcp_conn_t) : bool :=
  cn_used c && negb (bool_decide (cn_state c = TCP_STATE_TIME_WAIT)) && cn_tx_pending c &&
  (cn_rto_timer c <=? e).

(** The connection after [e] ticks. *)
Definition ticked (e : Z) (c : tcp_conn_t) : tcp_conn_t :=
  if negb (cn_used c) then c
  else if bool_decide (cn_state c = TCP_STATE_TIME_WAIT) then
    if cn_time_wait_timer c <=? e then zero_conn
    else c <| cn_time_wait_timer := cn_time_wait_timer c - e |>
  else if negb (cn_tx_pending c) then c
  else if cn_rto_timer c <=? e then
    let rto := Z.min 1000 (cn_rto c * 2) in c <| cn_rto := rto |> <| cn_rto_timer := rto |>
  else c <| cn_rto_timer := cn_rto_timer c - e |>.

(** The saved segment as it is handed to the IP layer again. *)
Definition saved_segment (c : tcp_conn_t) : list Z := take (Z.to_nat (cn_tx_len c)) (cn_tx_buf c).

Lemma rto_ok c rto t :
  conn_ok c → cn_used c = true → 0 ≤ rto ≤ 1000 → 0 ≤ t ≤ 1000 →
  conn_ok (c <| cn_rto := rto |> <| cn_rto_timer := t |>).
Proof.
  intros [[B1 B2 B3 B4 B5 B6 B7 B8 B9 B10 B11] [F1 F2 F3 F4]] Hu Hr Ht. rewrite Hu in B11. split.
  - constructor; try done.
    change (cn_used (c <| cn_rto := rto |> <| cn_rto_timer := t |>)) with (cn_used c). by rewrite Hu.
  - constructor; [exact F1|exact F2| |exact F4]. intros Hp. destruct (F3 Hp) as (Hs & He & Ho).
    split; [revert Hs; apply saved_same; reflexivity|]. split; [exact He|exact Ho].
Qed.

Lemma ticked_ok e c : 0 ≤ e → conn_ok c → conn_ok (ticked e c).
Proof.
  intros He Hok. unfold ticked. destruct (cn_used c) eqn:Hu; cbn [negb]; [|done].
  pose proof (proj1 Hok) as Hb. destruct (co_rto _ Hb). pose proof (co_timer _ Hb). destruct (co_rx_buf _ Hb).
  case_bool_decide.
  - case_if; [apply zero_conn_ok|]. zbool.
    apply (conn_ok_rx c); [done|done|reflexivity|done|done|apply (co_rx_len _ Hb)|apply (co_seqs _ Hb)| |by left].
    change (0 ≤ cn_time_wait_timer c - e ≤ 500). lia.
  - destruct (cn_tx_pending c); cbn [negb]; [|done]. case_if; zbool.
    + cbv zeta. apply rto_ok; [done|done|lia|lia].
    + apply (rto_ok c (cn_rto c) (cn_rto_timer c - e)) in Hok; [|done|lia|lia]. by destruct c.
Qed.

Lemma ticked_step e c : conn_ok c → ticked e c = c ∨ conn_step EvLocal c (ticked e c).
Proof.
  intros Hok. unfold ticked. destruct (cn_used c); cbn [negb]; [|by left]. case_bool_decide as Hst.
  - right. case_if; [by apply cs_expire|by apply cs_wait].
  - destruct (cn_tx_pending c); cbn [negb]; [|by left]. right. case_if; [apply cs_backoff|].
    pose proof (cs_backoff c (cn_rto c) (cn_rto_timer c - e)) as H. by destruct c.
Qed.

(** Releasing a connection leaves the transmit hook alone. *)
Lemma drop_pending_tx k port k' :
  drop_pending k port = Some k' → tc_ip_tx k' = tc_ip_tx k ∧ tc_ip_ctx k' = tc_ip_ctx k.
Proof.
  unfold drop_pending. intros E. apply bind_Some in E as ([j|] & _ & E); [|by injection E as <-].
  apply bind_Some in E as (l & _ & E). case_match; [|by injection E as <-].
  apply bind_Some in E as (ls & _ & E). by injection E as <-.
Qed.

Lemma release_tx k i k' :
  tcp_release k i = Some k' → tc_ip_tx k' = tc_ip_tx k ∧ tc_ip_ctx k' = tc_ip_ctx k.
Proof.
  unfold tcp_release, put_conn. intros E. apply bind_Some in E as (c & _ & E).
  apply bind_Some in E as (k1 & E1 & E). apply bind_Some in E as (cs & _ & E). injection E as <-.
  cbn. case_match; [by eapply drop_pending_tx|by injection E1 as <-].
Qed.

Section timer.
Context {W : Type} (call : Z → Z → Z → Z → list Z → W → W * Z).

(** What the IP layer sees of a tick: the due segments, in slot order. *)
Definition retransmit (fn ctx e : Z) (w : W) (c : tcp_conn_t) : W :=
  if due e c then (call fn ctx (cn_local_ip c) (cn_remote_ip c) (saved_segment c) w).1 else w.

(** Slot [i] after its part of the tick; everything else but the queue counts
    is as before. *)
Lemma tick_conn_spec e i c w k :
  0 ≤ e → tcp_ok k → aget (tc_conns k) i = Some c →
  ∃ k', tick_conn call e i (w, k) = Some (retransmit (tc_ip_tx k) (tc_ip_ctx k) e w c, k') ∧
    tcp_ok k' ∧ slot_changed k i (ticked e c) k' ∧
    tc_ip_tx k' = tc_ip_tx k ∧ tc_ip_ctx k' = tc_ip_ctx k.
Proof.
  intros He Hk Hc. pose proof (tk_core _ Hk) as Hck. pose proof (ck_conn _ Hck _ _ Hc) as Hok.
  pose proof (ticked_ok e c He Hok) as Hok'. pose proof (proj1 Hok) as Hb.
  destruct (co_rto _ Hb). pose proof (co_timer _ Hb). pose proof (co_tx_len _ Hb). destruct (co_tx_buf _ Hb).
  assert (∀ w' : W, ident (ticked e c) = ident c → ∃ k', Some (w', with_conn k i (ticked e c)) = Some (w', k') ∧
    tcp_ok k' ∧ slot_changed k i (ticked e c) k' ∧ tc_ip_tx k' = tc_ip_tx k ∧ tc_ip_ctx k' = tc_ip_ctx k) as Hput.
  { intros w' Hid. eexists. split; [done|]. split; [|done].
    destruct (slot_now_put k i c _ Hck Hc Hok') as [_ Hs]. by eapply tcp_ok_ident. }
  assert (∀ w' : W, ticked e c = c → ∃ k', Some (w', k) = Some (w', k') ∧
    tcp_ok k' ∧ slot_changed k i (ticked e c) k' ∧ tc_ip_tx k' = tc_ip_tx k ∧ tc_ip_ctx k' = tc_ip_ctx k) as Hsame.
  { intros w' Hid. eexists. split; [done|]. split; [done|]. split; [|done]. rewrite Hid.
    unfold slot_changed. symmetry. apply list_insert_id. by apply aget_Some in Hc as [_ Hc]. }
  unfold tick_conn, retransmit, due, ticked in *. rewrite Hc, obind_Some.
  destruct (cn_used c) eqn:Hu; cbn [negb andb] in *; [|by apply Hsame].
  case_bool_decide as Hst; cbn [negb andb] in *.
  - destruct (cn_time_wait_timer c <=? e) eqn:Et; zbool.
    + destruct (release_spec k i c Hk Hc Hu) as (k' & E & Hk' & Ec). rewrite E, obind_Some.
      eexists. split; [done|]. split; [done|]. split; [exact Ec|]. by eapply release_tx.
    + rewrite u32_small by lia. rewrite (put_conn_in k i _ c), obind_Some by done. by apply Hput.
  - destruct (cn_tx_pending c); cbn [negb andb] in *; [|by apply Hsame].
    destruct (cn_rto_timer c <=? e) eqn:Et; zbool.
    + unfold ip_tx. rewrite aslice_in, obind_Some by lia. change (Z.to_nat 0) with 0%nat.
      rewrite drop_0. fold (saved_segment c). destruct (call _ _ _ _ _ w) as [w' st]. rewrite obind_Some.
      cbv zeta in *. change TCP_MAX_RTO with 1000. rewrite u32_small by lia.
      replace (if 1000 <? cn_rto c * 2 then 1000 else cn_rto c * 2) with (Z.min 1000 (cn_rto c * 2))
        by (case_if; zbool; lia).
      rewrite (put_conn_in k i _ c), obind_Some by done. by apply Hput.
    + rewrite u32_small by lia. rewrite (put_conn_in k i _ c), obind_Some by done. by apply Hput.
Qed.

(** The whole tick: every connection ages by itself. *)
Lemma tick_spec e k w :
  0 ≤ e → tcp_ok k →
  ∃ k', tcp_tick call (Some k) e w =
      Some (foldl (retransmit (tc_ip_tx k) (tc_ip_ctx k) e) w (tc_conns k), Some k', TCP_OK) ∧
    tcp_ok k' ∧ tc_conns k' = ticked e <$> tc_conns k.
Proof.
  intros He Hk. unfold tcp_tick. rewrite (tk_init _ Hk). cbn [negb].
  pose proof (ck_conns _ (tk_core _ Hk)) as Hlen.
  loop_inv (λ i (s : W * tcpcore_t), 0 ≤ i ∧ tcp_ok s.2 ∧ tc_ip_tx s.2 = tc_ip_tx k ∧
    tc_ip_ctx s.2 = tc_ip_ctx k ∧
    s.1 = foldl (retransmit (tc_ip_tx k) (tc_ip_ctx k) e) w (take (Z.to_nat i) (tc_conns k)) ∧
    tc_conns s.2 = (ticked e <$> take (Z.to_nat i) (tc_conns k)) ++ drop (Z.to_nat i) (tc_conns k))
    as ([w' k'] & E & _ & Hk' & _ & _ & Ew & Ec).
  - simpl. split_and!; try done.
  - intros j [wj kj] Hj (_ & Hkj & Et & Ex & Ew & Ec). cbn [fst snd] in *.
    change (Z.to_nat TCP_MAX_CONNS) with 8%nat in Hj.
    destruct (lookup_lt_is_Some_2 (tc_conns k) (Z.to_nat j)) as [c Hc]; [lia|].
    assert (length (ticked e <$> take (Z.to_nat j) (tc_conns k)) = Z.to_nat j) as Hl1
      by (rewrite length_fmap, length_take; lia).
    pose proof (drop_lookup_cons _ _ _ Hc) as Hd. rewrite Hd in Ec.
    assert (aget (tc_conns kj) j = Some c) as Hcj.
    { rewrite Ec. apply aget_Some. split; [lia|].
      by rewrite lookup_app_r, Hl1, Nat.sub_diag by lia. }
    destruct (tick_conn_spec e j c wj kj He Hkj Hcj) as (k' & E & Hk' & Hch & Et' & Ex').
    rewrite E. eexists. split; [done|]. cbn [fst snd]. rewrite Et, Ex in *.
    replace (Z.to_nat (j + 1)) with (S (Z.to_nat j)) by lia. rewrite (take_S_r _ _ c) by done.
    split_and!; try done; [lia| |].
    + by rewrite foldl_snoc, Ew.
    + rewrite Hch, Ec, fmap_app, <-app_assoc, insert_app_r_alt by lia.
      by replace (Z.to_nat j - length (ticked e <$> take (Z.to_nat j) (tc_conns k)))%nat with 0%nat by lia.
  - rewrite E, obind_Some. cbn [fst snd] in *. change (Z.to_nat (0 + Z.of_nat (Z.to_nat TCP_MAX_CONNS))) with 8%nat in *.
    rewrite take_ge, drop_ge, ?app_nil_r in * by lia. subst w'. by exists k'.
Qed.

Lemma tick_slots e k k' :
  tcp_ok k → tc_conns k' = ticked e <$> tc_conns k → slots_step local k k'.
Proof.
  intros Hk Ec j c Hc. exists (ticked e c). split; [|apply ticked_step; exact (ck_conn _ (tk_core _ Hk) _ _ Hc)].
  rewrite Ec. apply aget_Some in Hc as [? Hc]. apply aget_Some. split; [done|].
  by rewrite list_lookup_fmap, Hc.
Qed.
End timer.

(** ** Initialisation *)

Lemma tcp_init_spec k0 ip fn ctx :
  fn ≠ 0 → ∃ k, tcp_init (Some k0) ip fn ctx = (Some k, TCP_OK) ∧ tcp_ok k ∧
    tc_conns k = replicate 8 zero_conn ∧ tc_ip_tx k = fn ∧ tc_ip_ctx k = ctx.
Proof.
  intros Hfn. unfold tcp_init. rewrite (proj2 (Z.eqb_neq _ _)) by done. eexists. split; [done|].
  split; [|done]. constructor; [|constructor|done].
  - constructor; [done| |done|].
    + intros i c Hc. apply aget_Some in Hc as [_ Hc].
      change (tc_conns _) with (replicate 8 zero_conn) in Hc.
      apply lookup_replicate in Hc as [-> _]. apply zero_conn_ok.
    + split; [done|]. by apply Forall_replicate.
  - intros j l Hj. apply aget_Some in Hj as [_ Hj].
    change (tc_listeners _) with (replicate 4 zero_listener) in Hj.
    by apply lookup_replicate in Hj as [-> _].
  - intros j1 j2 l1 l2 Hj _. apply aget_Some in Hj as [_ Hj].
    change (tc_listeners _) with (replicate 4 zero_listener) in Hj.
    by apply lookup_replicate in Hj as [-> _].
  - intros i c port Hc. apply aget_Some in Hc as [_ Hc].
    change (tc_conns _) with (replicate 8 zero_conn) in Hc.
    by apply lookup_replicate in Hc as [-> _].
Qed.

(** ** Operations *)
Inductive tcp_op :=
  | OpConnect (lip lp rip rp : Z)
  | OpListen (lip lp backlog : Z)
  | OpAccept (lip lp : Z)
  | OpSend (id : Z) (data : ptr (list Z)) (len : Z)
  | OpRecv (id : Z) (buf : list Z) (cap : Z)
  | OpClose (id : Z)
  | OpInput (src dst : Z) (segment : list Z) (len : Z)
  | OpTick (elapsed : Z).

(** The arguments have the widths of their C types and the buffers the length
    they are passed with; a segment is what fits an IPv4 datagram. *)
Definition op_ok (op : tcp_op) : Prop :=
  match op with
  | OpConnect lip lp rip rp => is_u32 lip ∧ is_u32 rip ∧ is_u16 lp ∧ is_u16 rp
  | OpListen _ _ _ | OpAccept _ _ | OpClose _ => True
  | OpSend _ data len => 0 ≤ len ∧ ∀ d, data = Some d → octets d ∧ len ≤ Z.of_nat (length d)
  | OpRecv _ buf cap => 0 ≤ cap ≤ Z.of_nat (length buf)
  | OpInput src dst segment len =>
      is_u32 src ∧ is_u32 dst ∧ octets segment ∧ 0 ≤ len ≤ 65535 ∧ len ≤ Z.of_nat (length segment)
  | OpTick e => 0 ≤ e
  end.

Section run.
Context {W : Type} (call : Z → Z → Z → Z → list Z → W → W * Z).

(** One call; the last component is the bytes [tcp_recv] delivered. *)
Definition tcp_exec (op : tcp_op) (s : W * tcpcore_t) : option (W * tcpcore_t * list Z) :=
  let '(w, k) := s in
  match op with
  | OpConnect lip lp rip rp =>
      '(w, k, _) ← tcp_connect call (Some k) lip lp rip rp w; k ← k; Some (w, k, [])
  | OpListen lip lp backlog => '(k, _) ← tcp_listen (Some k) lip lp backlog; k ← k; Some (w, k, [])
  | OpAccept lip lp => '(k, _, _) ← tcp_accept (Some k) lip lp (Some 0); k ← k; Some (w, k, [])
  | OpSend id data len => '(w, k, _) ← tcp_send call (Some k) id data len w; k ← k; Some (w, k, [])
  | OpRecv id buf cap =>
      '(k, b, n, st) ← tcp_recv (Some k) id (Some buf) cap (Some 0); k ← k;
      Some (w, k, received st b n)
  | OpClose id => '(w, k, _) ← tcp_close call (Some k) id w; k ← k; Some (w, k, [])
  | OpInput src dst segment len =>
      '(w, k, _) ← tcp_input call (Some k) src dst (Some segment) len w; k ← k; Some (w, k, [])
  | OpTick e => '(w, k, _) ← tcp_tick call (Some k) e w; k ← k; Some (w, k, [])
  end.

(** What an operation may do to the connection in slot [j]. *)
Definition op_step (op : tcp_op) (b : list Z) (j : Z) (c c' : tcp_conn_t) : Prop :=
  match op with
  | OpInput src dst segment len =>
      c' = c ∨ ∃ s, parse_segment segment len = Some (Some s) ∧ tcp_checksum src dst segment len = Some 0 ∧
        seg_ok segment s ∧ by_segment src dst s (payload_of segment s) j c c'
  | OpRecv id _ _ => reads id b j c c'
  | _ => c' = c ∨ conn_step EvLocal c c'
  end.

Lemma exec_spec op w k :
  tcp_ok k → op_ok op →
  ∃ w' k' b, tcp_exec op (w, k) = Some (w', k', b) ∧ tcp_ok k' ∧ all_slots (op_step op b) k k'.
Proof.
  intros Hk Hop. destruct op as [lip lp rip rp|lip lp backlog|lip lp|id data len|id buf cap|id|src dst seg len|e];
    cbn [tcp_exec op_ok op_step] in *.
  - destruct Hop as (H1 & H2 & H3 & H4).
    destruct (connect_spec call k lip lp rip rp w) as (w' & k' & st & -> & Hk' & Hs); [done..|]. by do 3 eexists.
  - destruct (listen_spec k lip lp backlog Hk) as (k' & st & -> & Hk' & Hs). by do 3 eexists.
  - destruct (accept_spec k lip lp 0 Hk) as (k' & st & o & -> & Hk' & Hs). by do 3 eexists.
  - destruct Hop as [H1 H2]. destruct (send_spec call k id data len w) as (w' & k' & st & -> & Hk' & Hs); [done..|].
    by do 3 eexists.
  - destruct (recv_spec k id buf cap 0 Hk Hop) as (k' & b' & n' & st & -> & _ & _ & Hk' & Hs).
    do 3 eexists. split; [reflexivity|]. done.
  - destruct (close_spec call k id w Hk) as (w' & k' & st & -> & Hk' & Hs). by do 3 eexists.
  - destruct Hop as (H1 & H2 & H3 & H4 & H5).
    destruct (input_spec call k src dst seg len w) as (w' & k' & st & -> & Hk' & Hs); [done..|].
    exists w', k', []. split; [done|]. split; [done|].
    destruct Hs as [Hs|(s & Ep & Ec & Hs & Hsl)]; [intros j c Hc; rewrite Hs; exists c; split; [done|by left]|].
    intros j c Hc. destruct (Hsl j c Hc) as (c' & Hc' & Hd). exists c'. split; [done|].
    destruct Hd as [->|Hd]; [by left|]. right. exists s. done.
  - destruct (tick_spec call e k w Hop Hk) as (k' & -> & Hk' & Hs).
    do 3 eexists. split; [reflexivity|]. split; [done|]. by eapply tick_slots.
Qed.

Fixpoint tcp_run (ops : list tcp_op) (s : W * tcpcore_t) : option (W * tcpcore_t) :=
  match ops with
  | [] => Some s
  | op :: ops => '(w, k, _) ← tcp_exec op s; tcp_run ops (w, k)
  end.

Lemma run_spec ops w k :
  tcp_ok k → Forall op_ok ops → ∃ w' k', tcp_run ops (w, k) = Some (w', k') ∧ tcp_ok k'.
Proof.
  intros Hk Hops. revert w k Hk. induction Hops as [|op ops Hop _ IH]; intros w k Hk; [by eauto|].
  cbn [tcp_run]. destruct (exec_spec op w k Hk Hop) as (w1 & k1 & b & -> & Hk1 & _). by apply IH.
Qed.
End run.

(** ** The state diagram *)

Definition tcp_edge (a b : tcp_state_t) : bool :=
  match a, b with
  | _, TCP_STATE_CLOSED
  | TCP_STATE_CLOSED, (TCP_STATE_SYN_SENT | TCP_STATE_SYN_RCVD)
  | (TCP_STATE_SYN_SENT | TCP_STATE_SYN_RCVD), TCP_STATE_ESTABLISHED
  | TCP_STATE_ESTABLISHED, (TCP_STATE_FIN_WAIT_1 | TCP_STATE_CLOSE_WAIT)
  | TCP_STATE_FIN_WAIT_1, (TCP_STATE_FIN_WAIT_2 | TCP_STATE_CLOSING)
  | (TCP_STATE_FIN_WAIT_2 | TCP_STATE_CLOSING), TCP_STATE_TIME_WAIT
  | TCP_STATE_CLOSE_WAIT, TCP_STATE_LAST_ACK => true
  | _, _ => false
  end.
Definition tcp_path : tcp_state_t → tcp_state_t → Prop := rtc (λ a b, tcp_edge a b = true).

Lemma path_edge a b : tcp_edge a b = true → tcp_path a b.
Proof. intros. by apply rtc_once. Qed.

Lemma acked_path c s : tcp_path (cn_state c) (cn_state (acked c s)).
Proof.
  unfold acked. destruct (negb (flag_set s TCP_ACK)); [done|].
  case_bool_decide as E1; [case_match; [done|rewrite E1; by apply path_edge]|].
  case_bool_decide as E2; [case_match; [done|rewrite E2; by apply path_edge]|].
  case_match; [|done]. unfold advanced. cbv zeta. by case_match.
Qed.

Lemma finned_path c s : receiving (cn_state c) = true → tcp_path (cn_state c) (cn_state (finned c s)).
Proof.
  intros Hr. unfold finned. destruct (negb (flag_set s TCP_FIN)); [done|]. cbv zeta.
  change (cn_state (c <| cn_rcv_nxt := _ |>)) with (cn_state c).
  destruct (cn_state c); try discriminate; by apply path_edge.
Qed.

Lemma finished_path c : tcp_path (cn_state c) (cn_state (finished c)).
Proof.
  unfold finished. cbv zeta. destruct (tcp_seq_ge _ _); rewrite ?andb_true_r, ?andb_false_r; [|done].
  destruct (bool_decide_reflect (cn_state c = TCP_STATE_FIN_WAIT_1)) as [E|].
  - rewrite E. change (bool_decide _) with false. by apply path_edge.
  - case_bool_decide as E2; [|done]. rewrite E2. by apply path_edge.
Qed.

Lemma input_result_path c s p c' : input_result c s p c' → tcp_path (cn_state c) (cn_state c').
Proof.
  intros [|Hr|Hr|Hr]; rewrite ?stored_state.
  - apply acked_path.
  - etrans; [apply acked_path|apply finished_path].
  - apply acked_path.
  - etrans; [apply acked_path|]. etrans; [|apply finished_path].
    rewrite <-(stored_state (acked c s) s p). apply finned_path. by rewrite stored_state.
Qed.

Lemma emitted_state c fl p sv seg : cn_state (emitted c fl p sv seg) = cn_state c.
Proof. by destruct sv. Qed.

Lemma conn_step_path ev c c' : conn_step ev c c' → tcp_path (cn_state c) (cn_state c').
Proof.
  assert (∀ a, tcp_path a (cn_state zero_conn)) as Hz by (intros []; by apply path_edge).
  intros Hst. destruct Hst; rewrite ?emitted_state; try apply Hz; try done.
  - by apply path_edge.
  - by eapply input_result_path.
  - by apply path_edge.
  - destruct H as [[-> ->]|[-> ->]]; by apply path_edge.
Qed.
