(* ===== verification/TcpStream.v ===== *)
(** The conditions on the state diagram, and the received byte stream: along
    every run the client is handed a prefix of what the peer sent. *)
From S2P Require Import Prelude Tcpcore TcpSeg TcpConn TcpInput TcpOps TcpCalls TcpRun.

(** ** Handshake and close *)

(** Only a segment that acknowledges the own SYN completes the handshake. *)
Lemma acked_opening c s :
  conn_ok c → opening (cn_state c) = true → opening (cn_state (acked c s)) = false →
  flag_set s TCP_ACK = true ∧ sg_ack s = u32 (cn_iss c + 1).
Proof.
  intros [_ Hf] Ho Hn. destruct (co_opening _ Hf Ho) as (_ & _ & En). unfold acked in Hn.
  destruct (flag_set s TCP_ACK); [|cbn [negb] in Hn; congruence]. split; [done|]. cbn [negb] in Hn.
  case_bool_decide as E1.
  - destruct (Z.eqb_spec (sg_ack s) (u32 (cn_iss c + 1))); [done|]. cbn [negb] in Hn. congruence.
  - case_bool_decide as E2.
    + destruct (Z.eqb_spec (sg_ack s) (cn_snd_nxt c)); [congruence|]. cbn [negb] in Hn. congruence.
    + exfalso. unfold opening in Ho. by rewrite !bool_decide_eq_false_2 in Ho.
Qed.

(** No stage after the acknowledgement leaves the opening states. *)
Lemma finished_opening c : opening (cn_state c) = true → opening (cn_state (finished c)) = true.
Proof.
  intros Ho. unfold finished. cbv zeta.
  rewrite (bool_decide_eq_false_2 (cn_state c = TCP_STATE_FIN_WAIT_1)) by (by intros E; rewrite E in Ho).
  cbn [andb]. rewrite (bool_decide_eq_false_2 (cn_state c = TCP_STATE_CLOSING)) by (by intros E; rewrite E in Ho).
  done.
Qed.

Lemma receiving_opening st : receiving st = true → opening st = false.
Proof. by destruct st. Qed.

Lemma input_result_opening c s p c' :
  conn_ok c → input_result c s p c' → opening (cn_state c) = true → opening (cn_state c') = false →
  flag_set s TCP_ACK = true ∧ sg_ack s = u32 (cn_iss c + 1).
Proof.
  intros Hok Hir Ho Hn. apply acked_opening; [done|done|].
  destruct Hir as [|Hr|Hr|Hr]; rewrite ?stored_state in Hn; try done; try by apply receiving_opening.
  destruct (opening (cn_state (acked c s))) eqn:E; [|done]. by rewrite finished_opening in Hn.
Qed.

Lemma conn_step_handshake ev c c' :
  conn_ok c → conn_step ev c c' → cn_used c' = true →
  opening (cn_state c) = true → opening (cn_state c') = false →
  ∃ s p, ev = EvSegment s p ∧ flag_set s TCP_ACK = true ∧ sg_ack s = u32 (cn_iss c + 1).
Proof.
  intros Hok Hst Hu Ho Hn.
  destruct Hst as [| |s p c Hu0 Hr| |lip lp rip rp iss seg|c data seg Hsn|c st seg Hcl|c|c Hes|c n rx|c t Htw|c Htw|c rto t];
    rewrite ?emitted_state in *; try discriminate; try (rewrite Hn in Ho; discriminate);
    try (exfalso; change (opening (cn_state c) = false) in Hn; congruence).
  - exists s, p. split; [done|]. by eapply input_result_opening.
  - destruct Hcl as [[E ->]|[E ->]]; rewrite E in Ho; done.
Qed.

(** The own FIN is acknowledged before its side of the connection counts as
    closed. *)
Definition closing_own (st : tcp_state_t) : bool :=
  bool_decide (st = TCP_STATE_FIN_WAIT_1) || bool_decide (st = TCP_STATE_CLOSING).
Definition closed_own (st : tcp_state_t) : bool :=
  bool_decide (st = TCP_STATE_FIN_WAIT_2) || bool_decide (st = TCP_STATE_TIME_WAIT).

Lemma acked_closing c s :
  closing_own (cn_state c) = true → cn_state (acked c s) = cn_state c.
Proof.
  intros Hc. unfold acked. case_match; [done|].
  rewrite !bool_decide_eq_false_2 by (by intros E; rewrite E in Hc).
  case_match; [|done]. unfold advanced. cbv zeta. by case_match.
Qed.

Lemma finished_closed c :
  conn_ok c → closed_own (cn_state (finished c)) = true →
  closed_own (cn_state c) = true ∨ cn_tx_pending (finished c) = false.
Proof.
  intros Hok. unfold finished. cbv zeta.
  rewrite seq_ge_outstanding by (pose proof (outstanding_small _ Hok); lia).
  rewrite outstanding_pending by done. destruct (cn_tx_pending c) eqn:Hp; cbn [negb];
    rewrite ?andb_true_r, ?andb_false_r; [by left|]. intros _. right. by repeat case_match.
Qed.

Lemma finned_closing c s :
  closing_own (cn_state c) = true → closed_own (cn_state (finned c s)) = true →
  receiving (cn_state c) = true → False.
Proof.
  intros Hc Hd Hr. unfold finned in Hd. destruct (negb (flag_set s TCP_FIN)); cbv zeta in Hd.
  - destruct (cn_state c); discriminate.
  - change (cn_state (c <| cn_rcv_nxt := _ |>)) with (cn_state c) in Hd. destruct (cn_state c); discriminate.
Qed.

Lemma closing_closed st : closing_own st = true → closed_own st = true → False.
Proof. by destruct st. Qed.

Lemma input_result_closed c s segment c' :
  conn_ok c → cn_used c = true → seg_ok segment s → input_result c s (payload_of segment s) c' →
  closing_own (cn_state c) = true → closed_own (cn_state c') = true → cn_tx_pending c' = false.
Proof.
  intros Hok Hu Hs Hir Hc Hd. pose proof (acked_closing c s Hc) as Ea.
  pose proof (acked_ok c s Hok Hu (sk_ack _ _ Hs)) as Hok1.
  assert (cn_used (acked c s) = true) as Hu1 by (by rewrite (ident_used _ _ (acked_ident c s))).
  pose proof (stored_ok _ s _ Hok1 Hu1 (payload_octets' _ _ Hs)) as Hok2.
  destruct Hir as [|Hr|Hr|Hr].
  - exfalso. rewrite Ea in Hd. by eapply closing_closed.
  - destruct (finished_closed _ Hok1 Hd) as [H|H]; [|done]. exfalso. rewrite Ea in H. by eapply closing_closed.
  - exfalso. rewrite stored_state, Ea in Hd. by eapply closing_closed.
  - set (c2 := stored (acked c s) s (payload_of segment s)) in *.
    assert (cn_state c2 = cn_state c) as E2 by (subst c2; by rewrite stored_state).
    assert (cn_used c2 = true) as Hu2 by (by rewrite <-Hu1; apply ident_used, stored_ident).
    assert (conn_ok (finned c2 s)) as Hok3 by (apply finned_ok; [done|done|by rewrite E2, <-Ea]).
    destruct (finished_closed _ Hok3 Hd) as [H|H]; [|done]. exfalso.
    apply (finned_closing c2 s); [by rewrite E2|done|by rewrite E2, <-Ea].
Qed.

Lemma step_closed op b j c c' :
  conn_ok c → op_step op b j c c' → cn_used c = true → cn_used c' = true →
  closing_own (cn_state c) = true → closed_own (cn_state c') = true → cn_tx_pending c' = false.
Proof.
  intros Hok Hop Hu Hu' Hc Hd.
  assert (∀ ev, (∀ s p, ev ≠ EvSegment s p) → conn_step ev c c' → cn_tx_pending c' = false) as Hloc.
  { intros ev Hev Hst. exfalso.
    destruct Hst as [s p|s p|s p|s p|lip lp rip rp iss seg|c data seg Hsn|c st seg Hcl|c|c Hes|c n rx|c t Htw|c Htw|c rto t];
      try (by apply (Hev s p)); rewrite ?emitted_state in *; try discriminate;
      try (by eapply closing_closed).
    - destruct Hcl as [[E ->]|[E ->]]; rewrite E in Hc; done. }
  assert (c' = c → cn_tx_pending c' = false) as Hsame
    by (intros ->; exfalso; by eapply closing_closed).
  destruct op; cbn [op_step] in Hop;
    try (destruct Hop as [Hop|Hop]; [by apply Hsame|eapply (Hloc EvLocal); [done|exact Hop]]).
  - unfold reads in Hop. case_match; [|by apply Hsame].
    destruct Hop as [[_ Hop]|Hop]; [by apply Hsame|]. eapply (Hloc (EvRead b)); [done|exact Hop].
  - destruct Hop as [Hop|(s & _ & _ & Hs & _ & Hst)]; [by apply Hsame|]. inversion Hst; subst; try discriminate.
    by eapply (input_result_closed c s segment).
Qed.

(** ** The received stream *)

(** States in which the next expected sequence number is that of the stream. *)
Definition in_step (st : tcp_state_t) : bool :=
  bool_decide (st = TCP_STATE_SYN_RCVD) || receiving st.

(** The peer opened with sequence number [isn] and sends the bytes [S]: of
    these [d] were handed to the client and the next ones are buffered.  The
    peer's sequence number is known, so the own side is past SYN_SENT. *)
Definition stream_inv (isn : Z) (S d : list Z) (c : tcp_conn_t) : Prop :=
  ∃ n : nat, (n ≤ length S)%nat ∧ d ++ unread c = take n S ∧
    cn_state c ≠ TCP_STATE_SYN_SENT ∧
    (in_step (cn_state c) = true → cn_rcv_nxt c = u32 (isn + 1 + Z.of_nat n)).

(** A segment the peer may have sent: a payload is the part of the stream its
    sequence number says.  Nothing is asked of flags, acknowledgement numbers
    or the sequence numbers of segments without payload. *)
Definition honest (isn : Z) (S : list Z) (s : tcp_segment) (p : list Z) : Prop :=
  p ≠ [] → ∃ off : nat, (off + length p ≤ length S)%nat ∧ sg_seq s = u32 (isn + 1 + Z.of_nat off) ∧
     p = take (length p) (drop off S).

(** What the invariant reads of a connection. *)
Lemma stream_same isn S d c c' :
  cn_rx_buf c' = cn_rx_buf c → cn_rx_len c' = cn_rx_len c → cn_rcv_nxt c' = cn_rcv_nxt c →
  (in_step (cn_state c') = true → in_step (cn_state c) = true) →
  (cn_state c' = TCP_STATE_SYN_SENT → cn_state c = TCP_STATE_SYN_SENT) →
  stream_inv isn S d c → stream_inv isn S d c'.
Proof.
  intros E1 E2 E3 Hs Ho (n & Hn & Ed & Hz & Hr). exists n. split; [done|].
  split; [unfold unread; by rewrite E1, E2|]. split; [naive_solver|]. rewrite E3. auto.
Qed.

Lemma acked_stream isn S d c s : stream_inv isn S d c → stream_inv isn S d (acked c s).
Proof.
  intros Hi. unfold acked. case_match; [done|]. case_bool_decide as E1.
  - by destruct Hi as (n & _ & _ & Hz & _).
  - case_bool_decide as E2.
    + case_match; [done|]. revert Hi. apply stream_same; try reflexivity; [by rewrite E2|discriminate].
    + case_match; [|done]. unfold advanced. cbv zeta. case_match; (revert Hi; apply stream_same; done).
Qed.

Lemma u32_add_inj a (n m : Z) : 0 ≤ n < 2 ^ 32 → 0 ≤ m < 2 ^ 32 → u32 (a + n) = u32 (a + m) → n = m.
Proof.
  intros Hn Hm E. unfold u32, wrap in E.
  assert ((a + n - (a + m)) mod 2 ^ 32 = 0) as E0 by (rewrite Zminus_mod, E, Z.sub_diag; done).
  replace (a + n - (a + m)) with (n - m) in E0 by lia. zdm.
Qed.

Lemma stored_stream isn S d c s p :
  conn_base c → octets p → Z.of_nat (length S) < 2 ^ 32 → receiving (cn_state c) = true →
  honest isn S s p → stream_inv isn S d c → stream_inv isn S d (stored c s p).
Proof.
  intros Hb Hp HS Hr Hh Hi. unfold stored. cbv zeta. destruct (_ && _) eqn:E; [|done].
  apply andb_true_iff in E as [Hnz [Hseq Hfit]%andb_true_iff]. unfold nz in Hnz. zbool.
  destruct Hh as (off & Hoff & Es & Ep); [by intros ->|].
  destruct Hi as (n & Hn & Ed & Hz & Hrn). rewrite Hrn in Hseq by (unfold in_step; by rewrite Hr, orb_true_r).
  rewrite Es in Hseq. apply u32_add_inj in Hseq; [|lia|lia]. assert (off = n) as -> by lia.
  pose proof (co_rx_len _ Hb). destruct (co_rx_buf _ Hb) as [Hl _].
  exists (n + length p)%nat. split; [lia|]. split; [|split].
  - unfold unread.
    change (cn_rx_buf (append_rx c p)) with (take (Z.to_nat (cn_rx_len c)) (cn_rx_buf c) ++ p ++
      drop (Z.to_nat (cn_rx_len c + Z.of_nat (length p))) (cn_rx_buf c)).
    change (cn_rx_len (append_rx c p)) with (cn_rx_len c + Z.of_nat (length p)).
    rewrite app_assoc, take_app_length' by (rewrite length_app, length_take; lia).
    fold (unread c). rewrite app_assoc, Ed, Ep at 1.
    by rewrite <-(firstn_skipn n (take (n + length p) S)), take_take, skipn_firstn_comm,
      Nat.min_l, Nat.add_sub_swap, Nat.sub_diag by lia.
  - done.
  - intros _. change (cn_rcv_nxt (append_rx c p)) with (u32 (cn_rcv_nxt c + Z.of_nat (length p))).
    rewrite Hrn by (unfold in_step; by rewrite Hr, orb_true_r). rewrite u32_add_l. f_equal. lia.
Qed.

Lemma finned_stream isn S d c s :
  receiving (cn_state c) = true → stream_inv isn S d c → stream_inv isn S d (finned c s).
Proof.
  intros Hr (n & Hn & Ed & Hz & Hrn). unfold finned. case_match; [by exists n|]. cbv zeta.
  change (cn_state (c <| cn_rcv_nxt := _ |>)) with (cn_state c).
  destruct (cn_state c); try discriminate; (exists n; split; [done|]; split; [exact Ed|]; done).
Qed.

Lemma finished_stream isn S d c : stream_inv isn S d c → stream_inv isn S d (finished c).
Proof.
  intros Hi. unfold finished. cbv zeta. destruct (tcp_seq_ge _ _);
    rewrite ?andb_true_r, ?andb_false_r; [|done].
  destruct (bool_decide_reflect (cn_state c = TCP_STATE_FIN_WAIT_1)) as [E|].
  - change (bool_decide _) with false. cbv iota. revert Hi. apply stream_same; try reflexivity; [by rewrite E|discriminate].
  - case_bool_decide as E2; [|done]. revert Hi. apply stream_same; try reflexivity; discriminate.
Qed.

Lemma input_result_stream isn S d c s segment c' :
  conn_ok c → cn_used c = true → seg_ok segment s → Z.of_nat (length S) < 2 ^ 32 →
  honest isn S s (payload_of segment s) →
  input_result c s (payload_of segment s) c' → stream_inv isn S d c → stream_inv isn S d c'.
Proof.
  intros Hok Hu Hs HS Hh Hir Hi. pose proof (acked_stream _ _ _ _ s Hi) as Hi1.
  pose proof (acked_ok c s Hok Hu (sk_ack _ _ Hs)) as [Hb1 _].
  destruct Hir as [|Hr|Hr|Hr]; [done|by apply finished_stream|..].
  - apply stored_stream; try done. by apply payload_octets'.
  - apply finished_stream, finned_stream; [by rewrite stored_state|].
    apply stored_stream; try done. by apply payload_octets'.
Qed.

Lemma read_stream isn S d c n rx :
  0 ≤ n ≤ cn_rx_len c → take (Z.to_nat (cn_rx_len c - n)) rx = drop (Z.to_nat n) (unread c) →
  stream_inv isn S d c → stream_inv isn S (d ++ take (Z.to_nat n) (unread c)) (read_bytes c n rx).
Proof.
  intros Hn Hrx (m & Hm & Ed & Hz & Hr). exists m. split; [done|]. split; [|done].
  rewrite <-Ed, <-app_assoc. f_equal. change (unread (read_bytes c n rx)) with
    (take (Z.to_nat (cn_rx_len c - n)) rx). rewrite Hrx. apply take_drop.
Qed.

Lemma emitted_stream isn S d c fl p sv seg :
  stream_inv isn S d c → stream_inv isn S d (emitted c fl p sv seg).
Proof. destruct sv; apply stream_same; done. Qed.

(** Local steps other than a release do not touch the received stream. *)
Lemma local_stream isn S d c c' :
  conn_step EvLocal c c' → cn_used c = true → cn_used c' = true →
  stream_inv isn S d c → stream_inv isn S d c'.
Proof.
  intros Hst Hu Hu' Hi.
  inversion Hst as [| | | |lip lp rip rp iss seg|? data seg|? st seg Hcl|?|?|? n rx|? t|?|? rto t];
    subst; try discriminate.
  - by apply emitted_stream.
  - apply emitted_stream. revert Hi. destruct Hcl as [[E ->]|[E ->]];
      apply stream_same; try reflexivity; try discriminate; by rewrite E.
  - revert Hi. apply stream_same; try reflexivity; done.
  - revert Hi. apply stream_same; try reflexivity; done.
  - revert Hi. apply stream_same; try reflexivity; done.
Qed.

(** The bytes an operation delivered to the client of slot [i]. *)
Definition delivered_to (i : Z) (op : tcp_op) (b : list Z) : list Z :=
  match op with OpRecv id _ _ => if id - 1 =? i then b else [] | _ => [] end.

(** The segments for the connection are honest. *)
Definition op_honest (isn : Z) (S : list Z) (c : tcp_conn_t) (op : tcp_op) : Prop :=
  match op with
  | OpInput src dst segment len => ∀ s, parse_segment segment len = Some (Some s) →
      conn_matches src (sg_sport s) dst (sg_dport s) c = true →
      honest isn S s (payload_of segment s)
  | _ => True
  end.

Lemma op_stream isn S d op b i c c' :
  conn_ok c → Z.of_nat (length S) < 2 ^ 32 → op_honest isn S c op → op_step op b i c c' →
  cn_used c = true → cn_used c' = true →
  stream_inv isn S d c → stream_inv isn S (d ++ delivered_to i op b) c'.
Proof.
  intros Hok HS Hh Hop Hu Hu' Hi.
  destruct op; cbn [op_step delivered_to] in *; rewrite ?app_nil_r;
    try (destruct Hop as [->|Hop]; [done|by eapply local_stream]).
  - unfold reads in Hop. rewrite (Z.eqb_sym (id - 1) i).
    destruct (i =? id - 1); [|subst c'; by rewrite app_nil_r].
    destruct Hop as [[-> ->]|Hst]; [by rewrite app_nil_r|]. inversion Hst; subst. by apply read_stream.
  - destruct Hop as [->|(s & Ep & _ & Hs & Hm & Hst)]; [done|]. specialize (Hh s Ep (Hm Hu)).
    inversion Hst; subst; try discriminate. by eapply (input_result_stream isn S d c s segment).
Qed.
