(* ===== verification/TcpClaims.v ===== *)
(** The contract of the TCP core: safety of every sequence of calls, what goes
    over the wire, the state diagram, the byte stream and the timers. *)
From S2P Require Import Prelude Tcpcore TcpSeg TcpConn TcpInput TcpOps TcpCalls TcpRun TcpStream.

(** ** Accepting data *)
Section accept_data.
Context {W : Type} (call : Z → Z → Z → Z → list Z → W → W * Z).

Lemma receiving_states st :
  receiving st = true → st ≠ TCP_STATE_SYN_SENT ∧ st ≠ TCP_STATE_SYN_RCVD ∧ st ≠ TCP_STATE_LAST_ACK.
Proof. by destruct st. Qed.

(** Outside the handshake, acknowledgement processing always goes on to the
    data and keeps the receive side. *)
Lemma input_ack_continues k i c s w :
  core_ok k → aget (tc_conns k) i = Some c → cn_used c = true → is_u32 (sg_ack s) →
  receiving (cn_state c) = true →
  ∃ w' k', input_ack call k i s w = Some (w', k', None) ∧ slot_now k i (acked c s) k'.
Proof.
  intros Hk Hc Hu Ha Hr. destruct (input_ack_spec call k i c s w Hk Hc Hu Ha) as (w' & k' & r & E & Hs).
  destruct (receiving_states _ Hr) as (H1 & H2 & _).
  exists w', k'. split; [|done]. rewrite E. do 2 f_equal. revert E. unfold input_ack.
  destruct (negb _); [by intros [= _ _ <-]|]. rewrite Hc, obind_Some, !bool_decide_eq_false_2 by done.
  destruct (_ && _); [|by intros [= _ _ <-]]. cbv zeta. rewrite (put_conn_in k i _ c), obind_Some by done.
  by intros [= _ _ <-].
Qed.

Lemma acked_rx c s :
  receiving (cn_state c) = true →
  cn_state (acked c s) = cn_state c ∧ cn_rx_buf (acked c s) = cn_rx_buf c ∧
  cn_rx_len (acked c s) = cn_rx_len c ∧ cn_rcv_nxt (acked c s) = cn_rcv_nxt c.
Proof.
  intros Hr. destruct (receiving_states _ Hr) as (H1 & H2 & _). unfold acked. case_match; [done|].
  rewrite !bool_decide_eq_false_2 by done. case_match; [|done]. unfold advanced. cbv zeta. by case_match.
Qed.

Lemma finned_rx c s : unread (finned c s) = unread c.
Proof. unfold finned, unread. cbv zeta. by repeat case_match. Qed.
Lemma finished_rx c : unread (finished c) = unread c.
Proof. unfold finished, unread. cbv zeta. by repeat case_match. Qed.

Lemma append_unread c p :
  conn_base c → cn_rx_len c + Z.of_nat (length p) ≤ 4096 → unread (append_rx c p) = unread c ++ p.
Proof.
  intros Hb Hl. pose proof (co_rx_len _ Hb). destruct (co_rx_buf _ Hb) as [Hb1 _]. unfold unread.
  change (cn_rx_buf (append_rx c p)) with (take (Z.to_nat (cn_rx_len c)) (cn_rx_buf c) ++ p ++
    drop (Z.to_nat (cn_rx_len c + Z.of_nat (length p))) (cn_rx_buf c)).
  change (cn_rx_len (append_rx c p)) with (cn_rx_len c + Z.of_nat (length p)).
  by rewrite app_assoc, take_app_length' by (rewrite length_app, length_take; lia).
Qed.

Lemma finished_not_last_ack c :
  cn_state (finished c) = TCP_STATE_LAST_ACK → cn_state c = TCP_STATE_LAST_ACK.
Proof. unfold finished. cbv zeta. repeat case_match; try done. Qed.

Lemma finned_not_last_ack c s :
  receiving (cn_state c) = true → cn_state (finned c s) ≠ TCP_STATE_LAST_ACK.
Proof.
  intros Hr. unfold finned. case_match; [by destruct (cn_state c)|]. cbv zeta.
  change (cn_state (c <| cn_rcv_nxt := _ |>)) with (cn_state c). by destruct (cn_state c).
Qed.

(** The expected segment is stored whole when it fits. *)
Lemma input_matched_delivers k i c segment s w :
  tcp_ok k → aget (tc_conns k) i = Some c → cn_used c = true → seg_ok segment s →
  flag_set s TCP_RST = false → receiving (cn_state c) = true → sg_seq s = cn_rcv_nxt c →
  0 < sg_payload_len s → cn_rx_len c + sg_payload_len s ≤ 4096 →
  ∃ w' k' st c', input_matched call k i segment s w = Some (w', k', st) ∧
    aget (tc_conns k') i = Some c' ∧ unread c' = unread c ++ payload_of segment s.
Proof.
  intros Hk Hc Hu Hs Hrst Hr Hseq Hpos Hfit. pose proof (segment_payload_length _ _ Hs) as Hl.
  destruct (acked_rx c s Hr) as (Est & Erx & Elen & Enx).
  unfold input_matched. rewrite Hrst.
  destruct (input_ack_continues k i c s w (tk_core _ Hk) Hc Hu (sk_ack _ _ Hs) Hr) as (w1 & k1 & E1 & Hs1).
  rewrite E1, obind_Some. pose proof (updated_here _ _ _ _ _ Hc (proj1 Hs1)) as Hc1.
  rewrite Hc1, obind_Some, Est, Hr.
  assert (cn_used (acked c s) = true) as Hu1 by (by rewrite (ident_used _ _ (acked_ident c s))).
  destruct (input_data_spec call k1 i _ segment s w1 (proj2 Hs1) Hc1 Hu1 Hs) as (w2 & k2 & r & E2 & Hs2).
  pose proof (updated_here _ _ _ _ _ Hc1 (proj1 Hs2)) as Hc2. rewrite E2, obind_Some.
  set (c2 := stored (acked c s) s (payload_of segment s)) in *.
  assert (unread c2 = unread c ++ payload_of segment s) as Eun.
  { subst c2. unfold stored. cbv zeta. rewrite Hl, Elen, Enx, Hseq, Z.eqb_refl, (proj2 (Z.leb_le _ _)) by lia.
    unfold nz. rewrite (proj2 (Z.eqb_neq _ _)) by lia. cbn [negb andb].
    rewrite append_unread by (rewrite ?Elen, ?Hl; try lia; apply (ck_conn _ (proj2 Hs1) _ _ Hc1)).
    unfold unread. by rewrite Erx, Elen. }
  destruct r as [st|]; [rewrite obind_Some; by eauto 10|].
  assert (receiving (cn_state c2) = true) as Hr2 by (subst c2; by rewrite stored_state, Est).
  assert (cn_used c2 = true) as Hu2 by (rewrite <-Hu1; apply ident_used, stored_ident).
  destruct (input_fin_spec call k2 i c2 s w2 (proj2 Hs2) Hc2 Hu2 Hr2) as (w3 & k3 & E3 & Hs3).
  pose proof (updated_here _ _ _ _ _ Hc2 (proj1 Hs3)) as Hc3. rewrite E3, !obind_Some.
  destruct (input_finish_spec k3 i _ (proj2 Hs3) Hc3) as (k4 & Hs4 & E4);
    [by rewrite (ident_used _ _ (finned_ident _ _))|].
  rewrite bool_decide_eq_false_2 in E4 by (intros E; by apply finished_not_last_ack, finned_not_last_ack in E).
  cbn [andb] in E4. rewrite E4, obind_Some. do 4 eexists. split; [done|].
  split; [exact (updated_here _ _ _ _ _ Hc3 (proj1 Hs4))|]. by rewrite finished_rx, finned_rx.
Qed.
End accept_data.

(** ** Claims *)

(** What awaits acknowledgement on a connection of a well-formed core. *)
Lemma flow_ok k i c :
  tcp_ok k → aget (tc_conns k) i = Some c → 0 < outstanding c →
  cn_tx_pending c = true ∧ saved c ∧ cn_tx_end_seq c = cn_snd_nxt c ∧ outstanding c ≤ 1461 ∧
  (before_fin (cn_state c) = true → outstanding c ≤ u32 (cn_tx_end_seq c - cn_tx_seq c)).
Proof.
  intros Hk Hc Ho. pose proof (ck_conn _ (tk_core _ Hk) _ _ Hc) as Hok. destruct (Hok) as [_ Hf].
  assert (cn_tx_pending c = true) as Hp.
  { pose proof (outstanding_pending _ Hok) as E. destruct (cn_tx_pending c); [done|]. cbn [negb] in E. zbool. lia. }
  destruct (co_busy _ Hf Hp) as (Hs & He & _). split_and!; try done; [by apply outstanding_small|by apply co_alone].
Qed.

(** [C12] Safety of the TCP core: after a successful [tcp_init], every sequence
    of calls (connect, listen, accept, send, receive, close, inbound segments
    with arbitrary bytes, timer ticks) returns without leaving an array, and
    the core stays well formed: all fields in range and the pending count of
    each listener exactly the number of connections that wait to be accepted on
    its port.  While anything is unacknowledged on a connection the
    retransmission timer is armed and the retransmit buffer holds a valid copy
    (ports, sequence number, length, checksum) of the segment sent last; until
    the own FIN is sent all unacknowledged octets belong to that one segment,
    and afterwards at most 1461 octets (a data segment and the FIN) are
    unacknowledged. *)
Theorem tcp_runs_safe {W} (call : Z → Z → Z → Z → list Z → W → W * Z) k0 ip fn ctx ops w :
  fn ≠ 0 → Forall op_ok ops →
  ∃ k w' k', tcp_init (Some k0) ip fn ctx = (Some k, TCP_OK) ∧
    tcp_run call ops (w, k) = Some (w', k') ∧ tcp_ok k' ∧
    ∀ i c, aget (tc_conns k') i = Some c → 0 < outstanding c →
      cn_tx_pending c = true ∧ saved c ∧ cn_tx_end_seq c = cn_snd_nxt c ∧ outstanding c ≤ 1461 ∧
      (before_fin (cn_state c) = true → outstanding c ≤ u32 (cn_tx_end_seq c - cn_tx_seq c)).
Proof.
  intros Hfn Hops. destruct (tcp_init_spec k0 ip fn ctx Hfn) as (k & E & Hk & _).
  destruct (run_spec call ops w k Hk Hops) as (w' & k' & E' & Hk'). exists k, w', k'.
  split_and!; try done. intros i c. by apply flow_ok.
Qed.

(** Wire round trip: whatever a connection transmits, the bytes handed to
    the IP layer pass the receiver's checksum, and the receiver's parser reads
    from them the ports, the sequence and acknowledgement numbers, the flags,
    the window and the payload they were built from; the sequence number moves
    by the space of the segment. *)
Theorem tcp_emit_parses {W} (call : Z → Z → Z → Z → list Z → W → W * Z) k i c fl payload save w :
  tcp_ok k → aget (tc_conns k) i = Some c → 0 ≤ fl < 256 → octets payload → (length payload ≤ 1460)%nat →
  ∃ seg k' c', let n := Z.of_nat (length payload) in
    let '(w', st) := call (tc_ip_tx k) (tc_ip_ctx k) (cn_local_ip c) (cn_remote_ip c) seg w in
    tcp_emit call k i fl payload n save w = Some (w', k', st) ∧
    tcp_checksum (cn_local_ip c) (cn_remote_ip c) seg (TCP_HDR_LEN + n) = Some 0 ∧
    parse_segment seg (TCP_HDR_LEN + n) =
      Some (Some (mk_segment (cn_local_port c) (cn_remote_port c) (cn_snd_nxt c) (cn_rcv_nxt c) fl
                    (cn_rcv_wnd c) TCP_HDR_LEN n)) ∧
    drop (Z.to_nat TCP_HDR_LEN) seg = payload ∧
    aget (tc_conns k') i = Some c' ∧ cn_snd_nxt c' = u32 (cn_snd_nxt c + seq_len fl payload).
Proof.
  intros Hk Hc Hfl Ho Hl. pose proof (tk_core _ Hk) as Hck. destruct (ck_scratch _ Hck).
  destruct (ck_conn _ Hck _ _ Hc) as [Hb _]. destruct (co_ports _ Hb), (co_seqs _ Hb) as (_ & ? & ? & _).
  pose proof (co_wnd _ Hb).
  destruct (tcp_emit_spec call k i c fl payload payload save w) as (seg & csum & Hcs & Eseg & Hseg & E);
    [done..|by rewrite firstn_all|].
  exists seg. eexists. exists (emitted c fl payload save seg). cbv zeta. destruct (call _ _ _ _ seg w) as [w' st]. split; [exact E|].
  split; [apply Hseg|]. split; [|split; [by rewrite Eseg|]].
  - rewrite Eseg. apply parse_wire; try done. lia.
  - split; [|by destruct save].
    change (tc_conns (put_scratch ?x _)) with (tc_conns x). rewrite (with_conn_get _ _ _ _ _ Hc).
    by rewrite decide_True.
Qed.

(** State diagram: one call moves a connection only along edges of the
    diagram of RFC 793; it leaves the handshake states for a live one only by an
    inbound segment that acknowledges the connection's own SYN; and it goes from
    a state with the own FIN in flight to FIN_WAIT_2 or TIME_WAIT only when
    nothing awaits acknowledgement any more. *)
Theorem tcp_state_diagram {W} (call : Z → Z → Z → Z → list Z → W → W * Z) k op w w' k' b j c c' :
  tcp_ok k → op_ok op → tcp_exec call op (w, k) = Some (w', k', b) →
  aget (tc_conns k) j = Some c → aget (tc_conns k') j = Some c' →
  tcp_path (cn_state c) (cn_state c') ∧
  (cn_used c' = true → opening (cn_state c) = true → opening (cn_state c') = false →
     ∃ src dst segment len s, op = OpInput src dst segment len ∧
       parse_segment segment len = Some (Some s) ∧ tcp_checksum src dst segment len = Some 0 ∧
       flag_set s TCP_ACK = true ∧ sg_ack s = u32 (cn_iss c + 1)) ∧
  (cn_used c = true → cn_used c' = true → closing_own (cn_state c) = true →
     closed_own (cn_state c') = true → cn_tx_pending c' = false).
Proof.
  intros Hk Hop E Hc Hc'. destruct (exec_spec call op w k Hk Hop) as (w1 & k1 & b1 & E1 & _ & Hs).
  rewrite E in E1. injection E1 as <- <- <-. destruct (Hs j c Hc) as (d & Hd & Hst).
  assert (d = c') as -> by congruence. pose proof (ck_conn _ (tk_core _ Hk) _ _ Hc) as Hok.
  split; [|split; [|intros; by eapply step_closed]].
  - destruct op; cbn [op_step] in Hst; try (destruct Hst as [->|Hst]; [done|by eapply conn_step_path]).
    + unfold reads in Hst. case_match; [|by subst]. destruct Hst as [[_ ->]|Hst]; [done|by eapply conn_step_path].
    + destruct Hst as [->|(s & _ & _ & _ & _ & Hst)]; [done|by eapply conn_step_path].
  - intros Hu Ho Hn.
    assert (∀ ev, (∀ s p, ev ≠ EvSegment s p) → conn_step ev c c' → False) as Hno.
    { intros ev Hev Hx. destruct (conn_step_handshake ev c c' Hok Hx Hu Ho Hn) as (s & p & -> & _). by eapply Hev. }
    destruct op; cbn [op_step] in Hst;
      try (exfalso; destruct Hst as [->|Hst]; [congruence|by eapply (Hno EvLocal)]).
    + exfalso. unfold reads in Hst. case_match; [|by subst; congruence].
      destruct Hst as [[_ ->]|Hst]; [congruence|by eapply (Hno (EvRead b))].
    + destruct Hst as [->|(s & Ep & Ec & _ & _ & Hst)]; [congruence|].
      destruct (conn_step_handshake _ c c' Hok Hst Hu Ho Hn) as (s' & p & [= <- <-] & Ha & Es).
      by exists src, dst, segment, len, s.
Qed.

(** A run during which slot [i] keeps its connection, with the bytes its client
    read; the segments addressed to it are the peer's. *)
Inductive slot_run {W} (call : Z → Z → Z → Z → list Z → W → W * Z) (i isn : Z) (S : list Z)
    (s0 : W * tcpcore_t) : list Z → W * tcpcore_t → Prop :=
  | sr_start : slot_run call i isn S s0 [] s0
  | sr_call d w k op w' k' b c c' :
      slot_run call i isn S s0 d (w, k) → op_ok op → tcp_exec call op (w, k) = Some (w', k', b) →
      aget (tc_conns k) i = Some c → cn_used c = true → op_honest isn S c op →
      aget (tc_conns k') i = Some c' → cn_used c' = true →
      slot_run call i isn S s0 (d ++ delivered_to i op b) (w', k').

(** Along such a run the core stays well formed and the slot in step with the
    stream. *)
Lemma slot_run_inv {W} (call : Z → Z → Z → Z → list Z → W → W * Z) i isn S w0 k0 c0 d w k :
  tcp_ok k0 → aget (tc_conns k0) i = Some c0 → stream_inv isn S [] c0 → Z.of_nat (length S) < 2 ^ 32 →
  slot_run call i isn S (w0, k0) d (w, k) →
  tcp_ok k ∧ ∃ c, aget (tc_conns k) i = Some c ∧ stream_inv isn S d c.
Proof.
  intros Hk0 Hc0 H0 HS Hrun. remember (w0, k0) as s0 eqn:E0. remember (w, k) as s eqn:Es. revert w k Es.
  induction Hrun as [|d w1 k1 op w2 k2 b c c' Hrun IH Hop E Hc Hu Hh Hc' Hu']; intros w k Es.
  - subst s0. injection Es as -> ->. split; [done|]. by exists c0.
  - injection Es as -> ->. destruct (IH _ _ eq_refl) as (Hk1 & d1 & Hd1 & Hi).
    assert (d1 = c) as -> by congruence.
    destruct (exec_spec call op w1 k1 Hk1 Hop) as (w3 & k3 & b3 & E3 & Hk3 & Hs).
    rewrite E in E3. injection E3 as <- <- <-. split; [done|]. exists c'. split; [done|].
    destruct (Hs i c Hc) as (d2 & Hd2 & Hst). assert (d2 = c') as -> by congruence.
    eapply op_stream; try done. by eapply ck_conn; [apply Hk1|].
Qed.

(** [C2] In-order delivery: take a connection that has learnt its peer's initial
    sequence number [isn] and received nothing yet (after the SYN of a passive
    open, or after the SYN-ACK of an active one), and a peer that sends the
    bytes [S], less than 4 GiB, in segments that may be lost, repeated or
    reordered in any way and carry any flags.  After every run of calls during
    which the slot keeps that connection, the bytes its client has read so far
    followed by the bytes still buffered are a prefix of [S], the number the
    connection expects next is that of the byte behind this prefix as long as
    the peer's side is open, and every further call returns. *)
Theorem tcp_stream_in_order {W} (call : Z → Z → Z → Z → list Z → W → W * Z) i isn S w0 k0 c0 d w k :
  tcp_ok k0 → aget (tc_conns k0) i = Some c0 → in_step (cn_state c0) = true →
  cn_rcv_nxt c0 = u32 (isn + 1) → cn_rx_len c0 = 0 →
  Z.of_nat (length S) < 2 ^ 32 → slot_run call i isn S (w0, k0) d (w, k) →
  ∃ c, aget (tc_conns k) i = Some c ∧ d ++ unread c `prefix_of` S ∧
    (in_step (cn_state c) = true → cn_rcv_nxt c = u32 (isn + 1 + Z.of_nat (length (d ++ unread c)))) ∧
    ∀ op, op_ok op → ∃ w' k' b, tcp_exec call op (w, k) = Some (w', k', b).
Proof.
  intros Hk0 Hc0 Hin Hnxt Hrx HS Hrun.
  destruct (slot_run_inv call i isn S w0 k0 c0 d w k) as (Hk & c & Hc & n & Hn & Ed & _ & Hr); [done|done| |done|done|].
  { exists 0%nat. split; [lia|]. split; [unfold unread; by rewrite Hrx|]. split; [by destruct (cn_state c0)|].
    intros _. rewrite Hnxt. f_equal. lia. }
  exists c. rewrite Ed, length_take, Nat.min_l by done. split_and!; [done| |done|].
  - exists (drop n S). by rewrite take_drop.
  - intros op Hop. destruct (exec_spec call op w k Hk Hop) as (w' & k' & b & E & _). by exists w', k', b.
Qed.

(** Progress of the stream: a segment that passes the check, matches a
    connection in a data-receiving state, carries no RST, starts at the expected
    sequence number and fits the buffer is stored whole: afterwards the unread
    bytes are those of before followed by the payload. *)
Theorem tcp_input_delivers {W} (call : Z → Z → Z → Z → list Z → W → W * Z) k src dst segment len s i c w :
  tcp_ok k → octets segment → 20 ≤ len ≤ 65535 → len ≤ Z.of_nat (length segment) →
  parse_segment segment len = Some (Some s) → tcp_checksum src dst segment len = Some 0 →
  tcp_find k src (sg_sport s) dst (sg_dport s) = Some (Some i) → aget (tc_conns k) i = Some c →
  flag_set s TCP_RST = false → receiving (cn_state c) = true → sg_seq s = cn_rcv_nxt c →
  0 < sg_payload_len s → cn_rx_len c + sg_payload_len s ≤ 4096 →
  ∃ w' k' st c', tcp_input call (Some k) src dst (Some segment) len w = Some (w', Some k', st) ∧
    aget (tc_conns k') i = Some c' ∧ unread c' = unread c ++ payload_of segment s.
Proof.
  intros Hk Ho Hl Hlen Hp Hcs Hf Hc Hrst Hr Hseq Hpos Hfit.
  destruct (parse_spec segment len Ho Hl Hlen) as (r & Er & Hs). rewrite Hp in Er. injection Er as <-.
  destruct (Hs s eq_refl) as (Hs' & _ & _ & _).
  assert (cn_used c = true) as Hu.
  { pose proof (ck_conn _ (tk_core _ Hk) _ _ Hc) as [Hb _]. pose proof (co_used _ Hb) as Hz.
    destruct (cn_used c); [done|]. by rewrite Hz in Hr. }
  destruct (input_matched_delivers call k i c segment s w) as (w' & k' & st & c' & E & Hc' & Eun); [done..|].
  exists w', k', st, c'. split; [|done]. unfold tcp_input. rewrite (tk_init _ Hk). cbn [negb].
  change TCP_HDR_LEN with 20. rewrite (proj2 (Z.ltb_ge _ _)) by lia.
  rewrite Hp, obind_Some, Hcs, obind_Some. change (nz 0) with false. cbv iota.
  by rewrite Hf, obind_Some, E, obind_Some.
Qed.

(** Timers: a tick ages every connection by itself and retransmits, in slot
    order, exactly the segments that are due; each of these is a valid segment
    of its connection (ports, sequence number, checksum); the retransmission
    interval doubles up to its maximum, a TIME_WAIT connection is released when
    its timer runs out, and every other connection is untouched. *)
Theorem tcp_tick_refines {W} (call : Z → Z → Z → Z → list Z → W → W * Z) e k w :
  0 ≤ e → tcp_ok k →
  (∃ k', tcp_tick call (Some k) e w =
      Some (foldl (retransmit call (tc_ip_tx k) (tc_ip_ctx k) e) w (tc_conns k), Some k', TCP_OK) ∧
    tcp_ok k' ∧ tc_conns k' = ticked e <$> tc_conns k) ∧
  ∀ i c, aget (tc_conns k) i = Some c → due e c = true →
    ∃ fl payload, segment_of c (cn_tx_seq c) fl payload (saved_segment c) ∧
      cn_snd_nxt c = u32 (cn_tx_seq c + seq_len fl payload).
Proof.
  intros He Hk. split; [by apply tick_spec|]. intros i c Hc Hd. unfold due in Hd.
  apply andb_true_iff in Hd as [[_ Hp]%andb_true_iff _].
  destruct (ck_conn _ (tk_core _ Hk) _ _ Hc) as [_ Hf].
  destruct (co_busy _ Hf Hp) as ((fl & p & Hs & _ & Ee) & En & _). exists fl, p. split; [done|]. congruence.
Qed.

(** ** Witnesses *)

(** A server on port 80 and a peer that opens a connection to it and sends
    three bytes; the IP layer keeps the segments it is given. *)
Module TcpSample.
Definition keep_segments (_ _ _ _ : Z) (seg : list Z) (w : list (list Z)) : list (list Z) * Z :=
  (w ++ [seg], TCP_OK).
Definition server_ip : Z := 0x0100000A.
Definition peer_ip : Z := 0x0200000A.
Definition isn : Z := 5000.
Definition peer_segment (seq ack fl : Z) (payload : list Z) : list Z :=
  default [] (buf ← put_header (replicate 20 0 ++ payload) 1000 80 seq ack fl 0x0010;
              put_checksum buf peer_ip server_ip (20 + Z.of_nat (length payload))).
Definition core0 : tcpcore_t := default zero_core (tcp_init (Some zero_core) server_ip 1 0).1.
Definition iss : Z := (tcp_next_isn core0).2.

Definition syn : tcp_op := OpInput peer_ip server_ip (peer_segment isn 0 TCP_SYN []) 20.
Definition ack_syn : tcp_op :=
  OpInput peer_ip server_ip (peer_segment (isn + 1) (u32 (iss + 1)) TCP_ACK []) 20.
Definition data : tcp_op :=
  OpInput peer_ip server_ip (peer_segment (isn + 1) (u32 (iss + 1)) TCP_ACK [1; 2; 3]) 23.
Definition run_from (k : tcpcore_t) (ops : list tcp_op) : list (list Z) * tcpcore_t :=
  default ([], k) (tcp_run keep_segments ops ([], k)).
Definition opened := run_from core0 [OpListen server_ip 80 1; syn].
Definition established := run_from opened.2 [ack_syn].

Definition slot (k : tcpcore_t) : tcp_conn_t := default zero_conn (aget (tc_conns k) 0).

Lemma core0_ok : tcp_ok core0.
Proof. by destruct (tcp_init_spec zero_core server_ip 1 0) as (k & [= <-] & Hk & _). Qed.

Lemma run_from_ok k ops : tcp_ok k → Forall op_ok ops → tcp_ok (run_from k ops).2.
Proof.
  intros Hk Hops. unfold run_from.
  by destruct (run_spec keep_segments ops [] k Hk Hops) as (w & k' & -> & ?).
Qed.

(** Decides the width conditions of a concrete segment. *)
Ltac op_tac := unfold op_ok; split_and!; try (vm_compute; done); apply (bool_decide_unpack _); vm_compute; exact I.

Lemma syn_ok : op_ok syn.
Proof. op_tac. Qed.
Lemma ack_syn_ok : op_ok ack_syn.
Proof. op_tac. Qed.
Lemma data_ok : op_ok data.
Proof. op_tac. Qed.

Lemma opened_ok : tcp_ok opened.2.
Proof. apply run_from_ok; [apply core0_ok|]. apply Forall_cons_2; [done|]. apply Forall_singleton, syn_ok. Qed.
Lemma established_ok : tcp_ok established.2.
Proof. apply run_from_ok; [apply opened_ok|]. apply Forall_singleton, ack_syn_ok. Qed.

Lemma slot_spec k : tcp_ok k → aget (tc_conns k) 0 = Some (slot k).
Proof.
  intros Hk. destruct (aget_is_Some (tc_conns k) 0) as [c Hc]; [rewrite (ck_conns _ (tk_core _ Hk)); lia|].
  unfold slot. by rewrite Hc.
Qed.

(** The peer's stream; a segment of its tail arrives first and again later. *)
Definition stream : list Z := [1; 2; 3; 4; 5].
Definition tail : tcp_op :=
  OpInput peer_ip server_ip (peer_segment (isn + 4) (u32 (iss + 1)) TCP_ACK [4; 5]) 22.
Definition read_two : tcp_op := OpRecv 1 [0; 0] 2.

Lemma tail_ok : op_ok tail.
Proof. op_tac. Qed.
Lemma read_two_ok : op_ok read_two.
Proof. op_tac. Qed.

Lemma segment_honest seq ack fl payload off s :
  parse_segment (peer_segment seq ack fl payload) (20 + Z.of_nat (length payload)) = Some (Some s) →
  payload_of (peer_segment seq ack fl payload) s = payload → sg_seq s = u32 (isn + 1 + Z.of_nat off) →
  (off + length payload ≤ length stream)%nat → payload = take (length payload) (drop off stream) →
  ∀ c, op_honest isn stream c
    (OpInput peer_ip server_ip (peer_segment seq ack fl payload) (20 + Z.of_nat (length payload))).
Proof.
  intros Hp Epl Hs Hl Et c s' Hp' _. rewrite Hp in Hp'. injection Hp' as <-. intros _. rewrite Epl. by exists off.
Qed.

Ltac honest_tac off := intros c; first
  [ exact I
  | refine (segment_honest _ _ _ _ off _ _ _ _ _ _ c); [vm_compute; reflexivity|vm_compute; reflexivity|
      vm_compute; reflexivity|vm_compute; lia|vm_compute; reflexivity] ].

Lemma ack_syn_honest c : op_honest isn stream c ack_syn.
Proof. revert c. honest_tac 0%nat. Qed.
Lemma data_honest c : op_honest isn stream c data.
Proof. revert c. honest_tac 0%nat. Qed.
Lemma tail_honest c : op_honest isn stream c tail.
Proof. revert c. honest_tac 3%nat. Qed.

(** One more call of the run. *)
Definition next (op : tcp_op) (s : list (list Z) * tcpcore_t) : list (list Z) * tcpcore_t * list Z :=
  default (s, []) (tcp_exec keep_segments op s).

Lemma sample_step d s op d' s' :
  slot_run keep_segments 0 isn stream (opened.1, opened.2) d s ∧ tcp_ok s.2 → op_ok op → (∀ c, op_honest isn stream c op) →
  cn_used (slot s.2) = true → cn_used (slot (next op s).1.2) = true →
  d' = d ++ delivered_to 0 op (next op s).2 → s' = (next op s).1 →
  slot_run keep_segments 0 isn stream (opened.1, opened.2) d' s' ∧ tcp_ok s'.2.
Proof.
  intros [Hrun Hk] Hop Hh Hu Hu' -> ->. destruct s as [w k].
  destruct (exec_spec keep_segments op w k Hk Hop) as (w' & k' & b & E & Hk' & _).
  unfold next in *. rewrite E in *. split; [|done].
  eapply (sr_call _ _ _ _ _ _ w k op w' k' b (slot k) (slot k')); try done; by apply slot_spec.
Qed.

Lemma sample_start (s : list (list Z) * tcpcore_t) :
  tcp_ok s.2 → slot_run keep_segments 0 isn stream (s.1, s.2) [] (s.1, s.2) ∧ tcp_ok (s.1, s.2).2.
Proof. intros Hk. split; [apply sr_start|exact Hk]. Qed.

Definition run1 := (next ack_syn (opened.1, opened.2)).1.
Definition run2 := (next tail run1).1.
Definition run3 := (next data run2).1.
Definition run4 := (next read_two run3).1.
Definition run5 := (next tail run4).1.

Lemma sample_run : slot_run keep_segments 0 isn stream (opened.1, opened.2) [1; 2] run5 ∧ tcp_ok run5.2.
Proof.
  eapply (sample_step [1; 2] run4 tail); [|apply tail_ok|apply tail_honest|vm_compute; reflexivity..].
  eapply (sample_step [] run3 read_two); [|apply read_two_ok|done|vm_compute; reflexivity..].
  eapply (sample_step [] run2 data); [|apply data_ok|apply data_honest|vm_compute; reflexivity..].
  eapply (sample_step [] run1 tail); [|apply tail_ok|apply tail_honest|vm_compute; reflexivity..].
  eapply (sample_step [] (opened.1, opened.2) ack_syn); [|apply ack_syn_ok|apply ack_syn_honest|vm_compute; reflexivity..].
  apply sample_start, opened_ok.
Qed.
End TcpSample.
Import TcpSample.

Lemma tcp_runs_safe_witness :
  ∃ k w' k', tcp_init (Some zero_core) server_ip 1 0 = (Some k, TCP_OK) ∧
    tcp_run keep_segments [OpListen server_ip 80 1; syn; ack_syn; data; OpTick 100; OpClose 1] ([], k) =
      Some (w', k') ∧ tcp_ok k'.
Proof.
  destruct (tcp_runs_safe keep_segments zero_core server_ip 1 0
    [OpListen server_ip 80 1; syn; ack_syn; data; OpTick 100; OpClose 1] []) as (k & w' & k' & Hi & Hr & Hk & _);
    [done| |exists k, w', k'; exact (conj Hi (conj Hr Hk))].
  apply Forall_cons_2; [done|]. apply Forall_cons_2; [apply syn_ok|].
  apply Forall_cons_2; [apply ack_syn_ok|]. apply Forall_cons_2; [apply data_ok|].
  apply Forall_cons_2; [done|]. by apply Forall_singleton.
Defined.

Lemma tcp_emit_parses_witness :
  ∃ seg k' c',
    tcp_emit keep_segments established.2 0 TCP_ACK [7; 8] (Z.of_nat (length [7; 8])) true [] =
      Some ([] ++ [seg], k', TCP_OK) ∧
    parse_segment seg 22 = Some (Some (mk_segment 80 1000 (u32 (iss + 1)) (isn + 1) TCP_ACK 4096 20 2)) ∧
    aget (tc_conns k') 0 = Some c' ∧ cn_snd_nxt c' = u32 (iss + 3).
Proof.
  destruct (tcp_emit_parses keep_segments established.2 0 (slot established.2) TCP_ACK [7; 8] true [])
    as (seg & k' & c' & E & _ & Ep & _ & Hc & Hn);
    [apply established_ok|apply slot_spec, established_ok|done|by repeat constructor|simpl; lia|].
  exists seg, k', c'. split; [exact E|]. split; [etrans; [exact Ep|]; vm_compute; reflexivity|].
  split; [exact Hc|]. etrans; [exact Hn|]. vm_compute. reflexivity.
Defined.

Lemma tcp_state_diagram_witness :
  ∃ w' k' b, tcp_exec keep_segments ack_syn (opened.1, opened.2) = Some (w', k', b) ∧
    tcp_path TCP_STATE_SYN_RCVD (cn_state (slot k')) ∧ cn_state (slot k') = TCP_STATE_ESTABLISHED.
Proof.
  destruct (exec_spec keep_segments ack_syn opened.1 opened.2 opened_ok ack_syn_ok) as (w' & k' & b & E & Hk' & _).
  destruct (tcp_state_diagram keep_segments opened.2 ack_syn opened.1 w' k' b 0 (slot opened.2) (slot k'))
    as [Hp _]; [apply opened_ok|apply ack_syn_ok|exact E|apply slot_spec, opened_ok|by apply slot_spec|].
  exists w', k', b. split; [exact E|].
  assert (cn_state (slot opened.2) = TCP_STATE_SYN_RCVD) as Es by (vm_compute; reflexivity).
  rewrite Es in Hp. split; [exact Hp|].
  assert (Some (cn_state (slot k')) = (s ← tcp_exec keep_segments ack_syn (opened.1, opened.2);
    Some (cn_state (slot s.1.2)))) as Ek by (by rewrite E). 
  assert ((s ← tcp_exec keep_segments ack_syn (opened.1, opened.2); Some (cn_state (slot s.1.2))) =
    Some TCP_STATE_ESTABLISHED) as Ev by (vm_compute; reflexivity). congruence.
Defined.

Lemma tcp_stream_in_order_witness :
  ∃ w k c, slot_run keep_segments 0 isn stream (opened.1, opened.2) [1; 2] (w, k) ∧
    aget (tc_conns k) 0 = Some c ∧ unread c = [3; 4; 5] ∧ [1; 2] ++ unread c `prefix_of` stream ∧
    cn_rcv_nxt c = isn + 6.
Proof.
  destruct sample_run as [Hrun Hk]. destruct (run5) as [w k] eqn:E5.
  destruct (tcp_stream_in_order keep_segments 0 isn stream opened.1 opened.2 (slot opened.2) [1; 2] w k)
    as (c & Hc & Hp & Hn & _);
    [apply opened_ok|apply slot_spec, opened_ok|vm_compute; reflexivity|vm_compute; reflexivity|
     vm_compute; reflexivity|reflexivity|exact Hrun|].
  exists w, k, c. split; [exact Hrun|]. split; [exact Hc|].
  assert (c = slot run5.2) as -> by (rewrite E5; pose proof (slot_spec k Hk); cbn [snd]; congruence).
  assert (unread (slot run5.2) = [3; 4; 5]) as Eu by (vm_compute; reflexivity).
  split; [exact Eu|]. split; [exact Hp|].
  etrans; [apply Hn; vm_compute; reflexivity|]. rewrite Eu. reflexivity.
Defined.

Lemma tcp_input_delivers_witness :
  ∃ w' k' st c', tcp_input keep_segments (Some established.2) peer_ip server_ip
      (Some (peer_segment (isn + 1) (u32 (iss + 1)) TCP_ACK [1; 2; 3])) 23 [] = Some (w', Some k', st) ∧
    aget (tc_conns k') 0 = Some c' ∧ unread c' = [1; 2; 3].
Proof.
  destruct (tcp_input_delivers keep_segments established.2 peer_ip server_ip
    (peer_segment (isn + 1) (u32 (iss + 1)) TCP_ACK [1; 2; 3]) 23
    (mk_segment 1000 80 (isn + 1) (u32 (iss + 1)) TCP_ACK 4096 20 3) 0 (slot established.2) [])
    as (w' & k' & st & c' & E & Hc & Eu);
    [apply established_ok|apply data_ok|lia|vm_compute; discriminate|vm_compute; reflexivity|
     vm_compute; reflexivity|vm_compute; reflexivity|apply slot_spec, established_ok|
     vm_compute; reflexivity|vm_compute; reflexivity|vm_compute; reflexivity|vm_compute; reflexivity|
     vm_compute; discriminate|].
  exists w', k', st, c'. split; [exact E|]. split; [exact Hc|]. etrans; [exact Eu|]. vm_compute. reflexivity.
Defined.

Lemma tcp_tick_refines_witness :
  due 100 (slot opened.2) = true ∧
  ∃ fl payload, segment_of (slot opened.2) (cn_tx_seq (slot opened.2)) fl payload (saved_segment (slot opened.2)) ∧
    cn_snd_nxt (slot opened.2) = u32 (cn_tx_seq (slot opened.2) + seq_len fl payload).
Proof.
  assert (due 100 (slot opened.2) = true) as Hd by (vm_compute; reflexivity). split; [exact Hd|].
  destruct (tcp_tick_refines keep_segments 100 opened.2 []) as [_ H]; [lia|apply opened_ok|].
  exact (H 0 (slot opened.2) (slot_spec _ opened_ok) Hd).
Defined.
