(* ===== verification/Ipstack.v ===== *)
(** The IP stack (src/Drivers/ipstack/ipstack.c, ipstack.h): IPv4 over
    Ethernet with an ARP cache, a static routing table with longest-prefix
    match, and dispatch of inbound datagrams to the transport callbacks.

    Frames are bytes; headers are read and written through them with the layout
    of the packed structures on a little-endian machine.  An address keeps its
    network byte order, so its bytes in memory are its bytes on the wire.  The
    byte-order and header-field helpers are those of [Tcpcore]: ipstack.c
    defines the same two functions again.  A pointer into a frame is the rest of
    the frame from there on.  The link below and the transports above are
    function pointers interpreted by section variables on a world [W]; a
    callback that re-enters the stack is outside the model. *)
From S2P Require Import Prelude Tcpcore.

(** ** Constants *)
Definition IP_OK : Z := 0x00000000.
Definition IP_ERR_PARAM : Z := 0x00000001.
Definition IP_ERR_NOT_READY : Z := 0x00000002.
Definition IP_ERR_NO_ROUTE : Z := 0x00000003.
Definition IP_ERR_PENDING : Z := 0x00000004.
Definition IP_ERR_FULL : Z := 0x00000005.
Definition IP_ERR_DROP : Z := 0x00000006.
Definition IP_ERR_BAD_PACKET : Z := 0x00000007.

Definition IP_VERSION : Z := 4.
Definition IP_HEADER_LEN : Z := 20.
Definition IP_DEFAULT_TTL : Z := 64.
Definition IP_BROADCAST : Z := 0xFFFFFFFF.

Definition ETH_HDR_LEN : Z := 14.
Definition ETH_TYPE_IP : Z := 0x0800.
Definition ETH_TYPE_ARP : Z := 0x0806.

Definition IP_PROTO_ICMP : Z := 1.
Definition IP_PROTO_TCP : Z := 6.
Definition IP_PROTO_UDP : Z := 17.

Definition ARP_OP_REQUEST : Z := 1.
Definition ARP_OP_REPLY : Z := 2.

Definition IP_ROUTE_MAX : Z := 8.
Definition IP_ARP_CACHE_MAX : Z := 16.
Definition IP_FRAME_MAX : Z := 1536.

(** [sizeof(ip_arp_packet_t)] *)
Definition sizeof_arp : Z := 28.

(** ** Data *)
Record ip_config_t := mk_ip_config {
  cfg_ip : Z; cfg_netmask : Z; cfg_gateway : Z; cfg_mac : list Z (* [6] *)
}.

Record ip_route_entry_t := mk_route {
  rt_dest : Z; rt_mask : Z; rt_gateway : Z; rt_iface : Z; rt_used : bool
}.
#[export] Instance eta_route : Eta ip_route_entry_t := λ e,
  mk_route (rt_dest e) (rt_mask e) (rt_gateway e) (rt_iface e) (rt_used e).

Record ip_arp_entry_t := mk_arp {
  ae_ip : Z; ae_mac : list Z; (* [6] *) ae_age : Z; ae_valid : bool
}.
#[export] Instance eta_arp : Eta ip_arp_entry_t := λ e,
  mk_arp (ae_ip e) (ae_mac e) (ae_age e) (ae_valid e).

Record ipstack_t := mk_ipstack {
  ip_local_ip : Z;
  ip_netmask : Z;
  ip_gateway : Z;
  ip_local_mac : list Z;                 (* [6] *)
  ip_next_id : Z;
  ip_initialized : bool;
  ip_link_tx : Z;                        (* function pointer, 0 is NULL *)
  ip_link_ctx : Z;
  ip_icmp_cb : Z;
  ip_tcp_cb : Z;
  ip_udp_cb : Z;
  ip_arp_cb : Z;
  ip_dispatch_ctx : Z;
  ip_routes : list ip_route_entry_t;     (* [IP_ROUTE_MAX] *)
  ip_arp_cache : list ip_arp_entry_t;    (* [IP_ARP_CACHE_MAX] *)
  ip_tx_scratch : list Z                 (* [IP_FRAME_MAX] *)
}.
#[export] Instance eta_ipstack : Eta ipstack_t := λ s,
  mk_ipstack (ip_local_ip s) (ip_netmask s) (ip_gateway s) (ip_local_mac s) (ip_next_id s)
    (ip_initialized s) (ip_link_tx s) (ip_link_ctx s) (ip_icmp_cb s) (ip_tcp_cb s) (ip_udp_cb s)
    (ip_arp_cb s) (ip_dispatch_ctx s) (ip_routes s) (ip_arp_cache s) (ip_tx_scratch s).

Definition zero_route : ip_route_entry_t := mk_route 0 0 0 0 false.
Definition zero_arp : ip_arp_entry_t := mk_arp 0 (replicate 6 0) 0 false.
Definition zero_ipstack : ipstack_t :=
  mk_ipstack 0 0 0 (replicate 6 0) 0 false 0 0 0 0 0 0 0
    (replicate (Z.to_nat IP_ROUTE_MAX) zero_route)
    (replicate (Z.to_nat IP_ARP_CACHE_MAX) zero_arp) (replicate (Z.to_nat IP_FRAME_MAX) 0).

(** ** Checksum and prefix length *)

Definition ip_checksum (data : list Z) (len : Z) : option Z :=
  let words := len / 2 in
  sum ← for_up (Z.to_nat words) 0
          (λ k sum, hi ← aget data (2 * k); lo ← aget data (2 * k + 1);
                    Some (u32 (sum + be16 hi lo))) 0;
  sum ← (if 2 * words <? len then
           b ← aget data (2 * words); Some (u32 (sum + Z.shiftl b 8))
         else Some sum);
  sum ← fold_carries 3 sum;
  Some (u16 (Z.lnot sum)).

Definition ip_prefix_len (mask : Z) : Z :=
  foldl (λ count i, if nz (Z.land mask (u32 (Z.shiftl 1 i))) then u32 (count + 1) else count)
    0 (seqZ 0 32).

(** ** ARP cache *)

Definition arp_entry_is (ip : Z) (e : ip_arp_entry_t) : bool := ae_valid e && (ae_ip e =? ip).

(** The index of the entry. *)
Definition ip_arp_lookup (st : ipstack_t) (ip : Z) : option (option Z) :=
  find_up (Z.to_nat IP_ARP_CACHE_MAX) 0 (ip_arp_cache st) (arp_entry_is ip).

Definition put_arp (st : ipstack_t) (i : Z) (e : ip_arp_entry_t) : option ipstack_t :=
  es ← aset (ip_arp_cache st) i e; Some (st <| ip_arp_cache := es |>).

(** [oldest] and [victim] of the eviction scan. *)
Definition arp_victim (st : ipstack_t) : option (Z * Z) :=
  for_up (Z.to_nat IP_ARP_CACHE_MAX) 0
    (λ i '(oldest, victim),
       e ← aget (ip_arp_cache st) i;
       Some (if oldest <=? ae_age e then (ae_age e, i) else (oldest, victim))) (0, 0).

Definition ip_arp_store (st : ipstack_t) (ip : Z) (mac : list Z) : option ipstack_t :=
  found ← ip_arp_lookup st ip;
  match found with
  | Some i =>
      e ← aget (ip_arp_cache st) i;
      m ← copy_bytes 6 mac (ae_mac e);
      put_arp st i (e <| ae_mac := m |> <| ae_age := 0 |>)
  | None =>
      free ← find_up (Z.to_nat IP_ARP_CACHE_MAX) 0 (ip_arp_cache st) (λ e, negb (ae_valid e));
      match free with
      | Some i =>
          e ← aget (ip_arp_cache st) i;
          m ← copy_bytes 6 mac (ae_mac e);
          put_arp st i (e <| ae_ip := ip |> <| ae_mac := m |> <| ae_age := 0 |>
                          <| ae_valid := true |>)
      | None =>
          '(_, victim) ← arp_victim st;
          e ← aget (ip_arp_cache st) victim;
          m ← copy_bytes 6 mac (ae_mac e);
          put_arp st victim (e <| ae_ip := ip |> <| ae_mac := m |> <| ae_age := 0 |>)
      end
  end.

(** ** Routing *)

Definition route_matches (dst : Z) (e : ip_route_entry_t) : bool :=
  rt_used e && (Z.land dst (rt_mask e) =? Z.land (rt_dest e) (rt_mask e)).

(** One entry of the table against the best one so far. *)
Definition better_route (dst : Z) (e : ip_route_entry_t)
    (best : option ip_route_entry_t * Z) : option ip_route_entry_t * Z :=
  if negb (route_matches dst e) then best
  else if negb (bool_decide (is_Some best.1)) || (best.2 <? ip_prefix_len (rt_mask e))
  then (Some e, ip_prefix_len (rt_mask e)) else best.

(** The status and the next hop, if one is stored. *)
Definition ip_route_lookup (st : ipstack_t) (dst : Z) : option (Z * option Z) :=
  '(best, _) ← for_up (Z.to_nat IP_ROUTE_MAX) 0
                 (λ i best, e ← aget (ip_routes st) i; Some (better_route dst e best)) (None, 0);
  Some (match best with
        | Some e => (IP_OK, Some (if nz (rt_gateway e) then rt_gateway e else dst))
        | None =>
            if nz (ip_netmask st) &&
               (Z.land dst (ip_netmask st) =? Z.land (ip_local_ip st) (ip_netmask st))
            then (IP_OK, Some dst)
            else if nz (ip_gateway st) then (IP_OK, Some (ip_gateway st))
            else (IP_ERR_NO_ROUTE, None)
        end).

(** ** Frames *)

(** Destination, source and type of an Ethernet frame. *)
Definition put_eth (frame dmac smac : list Z) (type : Z) : option (list Z) :=
  frame ← copy_at 6 dmac 0 frame 0;
  frame ← copy_at 6 smac 0 frame 6;
  frame ← aset frame 12 (u8 (Z.shiftr type 8));
  aset frame 13 (u8 (Z.land type 0xFF)).

Section ipstack.
Context {W : Type}.
(** [link_tx(ctx, frame, len)] with the bytes of the frame. *)
Context (call_link_tx : Z → Z → list Z → W → W * Z).
(** [arp_cb(ctx, ip, mac)] *)
Context (call_arp : Z → Z → Z → list Z → W → W).
(** [icmp_cb(ctx, src, type, code, payload, len)] *)
Context (call_icmp : Z → Z → Z → Z → Z → list Z → W → W).
(** [tcp_cb(ctx, src, src_port, dst, dst_port, segment, len)], the same for UDP *)
Context (call_tcp call_udp : Z → Z → Z → Z → Z → Z → list Z → W → W).

Definition link_tx (st : ipstack_t) (frame : list Z) (len : Z) (w : W) : option (W * Z) :=
  if ip_link_tx st =? 0 then None
  else f ← aslice frame 0 len; Some (call_link_tx (ip_link_tx st) (ip_link_ctx st) f w).

Definition put_arp_packet (frame : list Z) (oper : Z) (sha : list Z) (spa : Z) (tha : list Z)
    (tpa : Z) : option (list Z) :=
  frame ← put_field 2 frame (ETH_HDR_LEN + 0) (ow_bswap16 1);
  frame ← put_field 2 frame (ETH_HDR_LEN + 2) (ow_bswap16 ETH_TYPE_IP);
  frame ← put_field 1 frame (ETH_HDR_LEN + 4) 6;
  frame ← put_field 1 frame (ETH_HDR_LEN + 5) 4;
  frame ← put_field 2 frame (ETH_HDR_LEN + 6) (ow_bswap16 oper);
  frame ← copy_at 6 sha 0 frame (ETH_HDR_LEN + 8);
  frame ← copy_at 6 tha 0 frame (ETH_HDR_LEN + 18);
  frame ← put_field 4 frame (ETH_HDR_LEN + 14) spa;
  put_field 4 frame (ETH_HDR_LEN + 24) tpa.

Definition ip_arp_transmit (st : ipstack_t) (oper : Z) (dmac : list Z) (target_ip : Z) (w : W)
    : option (W * ipstack_t * Z) :=
  frame ← put_eth (ip_tx_scratch st) dmac (ip_local_mac st) ETH_TYPE_ARP;
  frame ← put_arp_packet frame oper (ip_local_mac st) (ip_local_ip st) dmac target_ip;
  let st := st <| ip_tx_scratch := frame |> in
  '(w, rc) ← link_tx st frame (ETH_HDR_LEN + sizeof_arp) w;
  Some (w, st, rc).

Definition ip_arp_send_request (st : ipstack_t) (target : Z) (w : W)
    : option (W * ipstack_t * Z) :=
  ip_arp_transmit st ARP_OP_REQUEST (replicate 6 0xFF) target w.

Definition ip_arp_send_reply (st : ipstack_t) (target : Z) (target_mac : list Z) (w : W)
    : option (W * ipstack_t * Z) :=
  ip_arp_transmit st ARP_OP_REPLY target_mac target w.

(** *** Receive paths *)

Definition ip_handle_arp (st : ipstack_t) (buf : list Z) (len : Z) (w : W)
    : option (W * ipstack_t * Z) :=
  if len <? sizeof_arp then Some (w, st, IP_ERR_BAD_PACKET)
  else
    htype ← get_field 2 buf 0;
    if negb (ow_bswap16 htype =? 1) then Some (w, st, IP_ERR_DROP)
    else
      ptype ← get_field 2 buf 2;
      if negb (ow_bswap16 ptype =? ETH_TYPE_IP) then Some (w, st, IP_ERR_DROP)
      else
        hlen ← get_field 1 buf 4;
        plen ← get_field 1 buf 5;
        if negb (hlen =? 6) || negb (plen =? 4) then Some (w, st, IP_ERR_DROP)
        else
          sha ← aslice buf 8 6;
          spa ← get_field 4 buf 14;
          tpa ← get_field 4 buf 24;
          oper ← get_field 2 buf 6;
          st ← ip_arp_store st spa sha;
          if ow_bswap16 oper =? ARP_OP_REQUEST then
            if negb (tpa =? ip_local_ip st) then Some (w, st, IP_ERR_DROP)
            else ip_arp_send_reply st spa sha w
          else if ow_bswap16 oper =? ARP_OP_REPLY then
            let w := if nz (ip_arp_cb st)
                     then call_arp (ip_arp_cb st) (ip_dispatch_ctx st) spa sha w else w in
            Some (w, st, IP_OK)
          else Some (w, st, IP_ERR_DROP).

(** [(buf[off] << 8) | buf[off + 1]] *)
Definition port_at (buf : list Z) (off : Z) : option Z :=
  hi ← aget buf off; lo ← aget buf (off + 1); Some (u16 (be16 hi lo)).

(** The [switch] on the protocol of a datagram whose header was accepted. *)
Definition ip_dispatch (st : ipstack_t) (proto src dst : Z) (buf : list Z)
    (hdr_len payload_len : Z) (w : W) : option (W * Z) :=
  if proto =? IP_PROTO_ICMP then
    if payload_len <? 8 then Some (w, IP_ERR_BAD_PACKET)
    else if nz (ip_icmp_cb st) then
      type ← aget buf hdr_len;
      code ← aget buf (hdr_len + 1);
      payload ← aslice buf (hdr_len + 8) (payload_len - 8);
      Some (call_icmp (ip_icmp_cb st) (ip_dispatch_ctx st) src type code payload w, IP_OK)
    else Some (w, IP_OK)
  else if proto =? IP_PROTO_TCP then
    if payload_len <? 20 then Some (w, IP_ERR_BAD_PACKET)
    else if nz (ip_tcp_cb st) then
      sp ← port_at buf hdr_len;
      dp ← port_at buf (hdr_len + 2);
      segment ← aslice buf hdr_len payload_len;
      Some (call_tcp (ip_tcp_cb st) (ip_dispatch_ctx st) src sp dst dp segment w, IP_OK)
    else Some (w, IP_OK)
  else if proto =? IP_PROTO_UDP then
    if payload_len <? 8 then Some (w, IP_ERR_BAD_PACKET)
    else if nz (ip_udp_cb st) then
      sp ← port_at buf hdr_len;
      dp ← port_at buf (hdr_len + 2);
      datagram ← aslice buf (hdr_len + 8) (payload_len - 8);
      Some (call_udp (ip_udp_cb st) (ip_dispatch_ctx st) src sp dst dp datagram w, IP_OK)
    else Some (w, IP_OK)
  else Some (w, IP_ERR_DROP).

Definition ip_handle_ip (st : ipstack_t) (buf : list Z) (len : Z) (w : W) : option (W * Z) :=
  if len <? IP_HEADER_LEN then Some (w, IP_ERR_BAD_PACKET)
  else
    version_ihl ← get_field 1 buf 0;
    if negb (Z.shiftr version_ihl 4 =? IP_VERSION) then Some (w, IP_ERR_DROP)
    else
      let ihl := Z.land version_ihl 0x0F in
      if ihl <? 5 then Some (w, IP_ERR_BAD_PACKET)
      else
        let hdr_len := ihl * 4 in
        if len <? hdr_len then Some (w, IP_ERR_BAD_PACKET)
        else
          total_len ← get_field 2 buf 2;
          let total := ow_bswap16 total_len in
          if (total <? hdr_len) || (len <? total) then Some (w, IP_ERR_BAD_PACKET)
          else
            flags_frag ← get_field 2 buf 6;
            if nz (Z.land (ow_bswap16 flags_frag) 0x1FFF) then Some (w, IP_ERR_DROP)
            else
              csum ← ip_checksum buf hdr_len;
              if nz csum then Some (w, IP_ERR_BAD_PACKET)
              else
                src ← get_field 4 buf 12;
                dst ← get_field 4 buf 16;
                if negb (dst =? ip_local_ip st) && negb (dst =? IP_BROADCAST)
                then Some (w, IP_ERR_DROP)
                else
                  proto ← get_field 1 buf 9;
                  ip_dispatch st proto src dst buf hdr_len (u32 (total - hdr_len)) w.

(** ** Public operations *)

Definition ip_init (st : ptr ipstack_t) (cfg : ptr ip_config_t) (link_tx_fn link_ctx : Z)
    : option (ptr ipstack_t * Z) :=
  match st, cfg with
  | Some _, Some cfg =>
      if link_tx_fn =? 0 then Some (st, IP_ERR_PARAM)
      else
        mac ← copy_bytes 6 (cfg_mac cfg) (replicate 6 0);
        Some (Some (zero_ipstack <| ip_local_ip := cfg_ip cfg |> <| ip_netmask := cfg_netmask cfg |>
                      <| ip_gateway := cfg_gateway cfg |> <| ip_local_mac := mac |>
                      <| ip_link_tx := link_tx_fn |> <| ip_link_ctx := link_ctx |>
                      <| ip_next_id := 1 |> <| ip_initialized := true |>), IP_OK)
  | _, _ => Some (st, IP_ERR_PARAM)
  end.

Definition ip_set_address (st : ptr ipstack_t) (ip netmask gateway : Z) : ptr ipstack_t * Z :=
  match st with
  | None => (st, IP_ERR_PARAM)
  | Some s => (Some (s <| ip_local_ip := ip |> <| ip_netmask := netmask |>
                       <| ip_gateway := gateway |>), IP_OK)
  end.

Definition ip_add_route (st : ptr ipstack_t) (dest mask gateway : Z)
    : option (ptr ipstack_t * Z) :=
  match st with
  | None => Some (st, IP_ERR_PARAM)
  | Some s =>
      found ← find_up (Z.to_nat IP_ROUTE_MAX) 0 (ip_routes s)
                (λ e, rt_used e && (rt_dest e =? Z.land dest mask) && (rt_mask e =? mask));
      match found with
      | Some i =>
          e ← aget (ip_routes s) i;
          rs ← aset (ip_routes s) i (e <| rt_gateway := gateway |>);
          Some (Some (s <| ip_routes := rs |>), IP_OK)
      | None =>
          free ← find_up (Z.to_nat IP_ROUTE_MAX) 0 (ip_routes s) (λ e, negb (rt_used e));
          match free with
          | Some i =>
              rs ← aset (ip_routes s) i (mk_route (Z.land dest mask) mask gateway 0 true);
              Some (Some (s <| ip_routes := rs |>), IP_OK)
          | None => Some (st, IP_ERR_FULL)
          end
      end
  end.

Definition ip_set_callbacks (st : ptr ipstack_t) (icmp tcp udp arp ctx : Z) : ptr ipstack_t :=
  match st with
  | None => st
  | Some s => Some (s <| ip_icmp_cb := icmp |> <| ip_tcp_cb := tcp |> <| ip_udp_cb := udp |>
                      <| ip_arp_cb := arp |> <| ip_dispatch_ctx := ctx |>)
  end.

(** [*out_next_hop] as it is afterwards. *)
Definition ip_route (st : ptr ipstack_t) (dst_ip : Z) (out_next_hop : ptr Z)
    : option (Z * ptr Z) :=
  match st, out_next_hop with
  | Some s, Some old =>
      if negb (ip_initialized s) then Some (IP_ERR_NOT_READY, out_next_hop)
      else
        '(rc, hop) ← ip_route_lookup s dst_ip;
        Some (rc, Some (default old hop))
  | _, _ => Some (IP_ERR_PARAM, out_next_hop)
  end.

(** [out_mac] as it is afterwards. *)
Definition ip_arp_resolve (st : ptr ipstack_t) (ip : Z) (out_mac : ptr (list Z)) (w : W)
    : option (W * ptr ipstack_t * ptr (list Z) * Z) :=
  match st, out_mac with
  | Some s, Some out =>
      if negb (ip_initialized s) then Some (w, st, out_mac, IP_ERR_NOT_READY)
      else if ip =? ip_local_ip s then
        out ← copy_bytes 6 (ip_local_mac s) out; Some (w, st, Some out, IP_OK)
      else
        entry ← ip_arp_lookup s ip;
        match entry with
        | Some i =>
            e ← aget (ip_arp_cache s) i;
            out ← copy_bytes 6 (ae_mac e) out; Some (w, st, Some out, IP_OK)
        | None =>
            '(w, s, rc) ← ip_arp_send_request s ip w;
            Some (w, Some s, out_mac, if negb (rc =? IP_OK) then IP_ERR_NO_ROUTE else IP_ERR_PENDING)
        end
  | _, _ => Some (w, st, out_mac, IP_ERR_PARAM)
  end.

(** The header of an outgoing datagram, the checksum field zero. *)
Definition put_ip_header (frame : list Z) (total id proto src dst : Z) : option (list Z) :=
  frame ← put_field 1 frame (ETH_HDR_LEN + 0) 0x45;
  frame ← put_field 1 frame (ETH_HDR_LEN + 1) 0;
  frame ← put_field 2 frame (ETH_HDR_LEN + 2) (ow_bswap16 (u16 total));
  frame ← put_field 2 frame (ETH_HDR_LEN + 4) (ow_bswap16 id);
  frame ← put_field 2 frame (ETH_HDR_LEN + 6) 0;
  frame ← put_field 1 frame (ETH_HDR_LEN + 8) IP_DEFAULT_TTL;
  frame ← put_field 1 frame (ETH_HDR_LEN + 9) proto;
  frame ← put_field 2 frame (ETH_HDR_LEN + 10) 0;
  frame ← put_field 4 frame (ETH_HDR_LEN + 12) src;
  put_field 4 frame (ETH_HDR_LEN + 16) dst.

(** The datagram once the next hop's address is known. *)
Definition send_frame (s : ipstack_t) (dst_ip proto : Z) (payload : ptr (list Z)) (len : Z)
    (next_mac : list Z) (w : W) : option (W * ptr ipstack_t * Z) :=
  frame ← put_eth (ip_tx_scratch s) next_mac (ip_local_mac s) ETH_TYPE_IP;
  let total := IP_HEADER_LEN + len in
  frame ← put_ip_header frame total (ip_next_id s) proto (ip_local_ip s) dst_ip;
  frame ← (if nz len
           then data ← payload; copy_at len data 0 frame (ETH_HDR_LEN + IP_HEADER_LEN)
           else Some frame);
  csum ← ip_checksum (drop (Z.to_nat ETH_HDR_LEN) frame) IP_HEADER_LEN;
  frame ← put_field 2 frame (ETH_HDR_LEN + 10) (ow_bswap16 csum);
  let s := s <| ip_next_id := u16 (ip_next_id s + 1) |> <| ip_tx_scratch := frame |> in
  '(w, rc) ← link_tx s frame (ETH_HDR_LEN + total) w;
  Some (w, Some s, rc).

Definition ip_send (st : ptr ipstack_t) (dst_ip proto : Z) (payload : ptr (list Z)) (len : Z)
    (w : W) : option (W * ptr ipstack_t * Z) :=
  match st with
  | None => Some (w, st, IP_ERR_PARAM)
  | Some s =>
      if negb (bool_decide (is_Some payload)) && nz len then Some (w, st, IP_ERR_PARAM)
      else if negb (ip_initialized s) then Some (w, st, IP_ERR_NOT_READY)
      else if IP_FRAME_MAX - ETH_HDR_LEN - IP_HEADER_LEN <? len then Some (w, st, IP_ERR_PARAM)
      else if dst_ip =? IP_BROADCAST then
        send_frame s dst_ip proto payload len (replicate 6 0xFF) w
      else
        '(rc, hop) ← ip_route_lookup s dst_ip;
        if negb (rc =? IP_OK) then Some (w, st, rc)
        else
          hop ← hop;
          '(w, st, next_mac, rc) ← ip_arp_resolve st hop (Some (replicate 6 0)) w;
          if rc =? IP_ERR_PENDING then Some (w, st, IP_ERR_PENDING)
          else if negb (rc =? IP_OK) then Some (w, st, IP_ERR_NO_ROUTE)
          else
            s ← st; next_mac ← next_mac;
            send_frame s dst_ip proto payload len next_mac w
  end.

Definition ip_recv (st : ptr ipstack_t) (frame : ptr (list Z)) (len : Z) (w : W)
    : option (W * ptr ipstack_t * Z) :=
  match st, frame with
  | Some s, Some f =>
      if negb (ip_initialized s) then Some (w, st, IP_ERR_NOT_READY)
      else if len <? ETH_HDR_LEN then Some (w, st, IP_ERR_BAD_PACKET)
      else
        ethertype ← port_at f 12;
        if ethertype =? ETH_TYPE_ARP then
          '(w, s, rc) ← ip_handle_arp s (drop (Z.to_nat ETH_HDR_LEN) f) (len - ETH_HDR_LEN) w;
          Some (w, Some s, rc)
        else if ethertype =? ETH_TYPE_IP then
          '(w, rc) ← ip_handle_ip s (drop (Z.to_nat ETH_HDR_LEN) f) (len - ETH_HDR_LEN) w;
          Some (w, st, rc)
        else Some (w, st, IP_ERR_DROP)
  | _, _ => Some (w, st, IP_ERR_PARAM)
  end.
End ipstack.
