(* ===== verification/IpFrame.v ===== *)
(** Frames of the IP stack: what the transmit buffer holds after the headers
    are filled in, and that the receive path reads the same fields back. *)
From S2P Require Import Prelude Tcpcore TcpSeg Ipstack.

(** ** Layout *)

Definition eth_header (dmac smac : list Z) (type : Z) : list Z := dmac ++ smac ++ be_bytes 2 type.
Definition arp_packet (oper : Z) (sha : list Z) (spa : Z) (tha : list Z) (tpa : Z) : list Z :=
  [0; 1; 8; 0; 6; 4] ++ be_bytes 2 oper ++ sha ++ le_bytes 4 spa ++ tha ++ le_bytes 4 tpa.
Definition ip_header (total id proto csum src dst : Z) : list Z :=
  [69; 0] ++ be_bytes 2 total ++ be_bytes 2 id ++ [0; 0; 64; proto] ++ be_bytes 2 csum ++
  le_bytes 4 src ++ le_bytes 4 dst.

(** ** Filling the headers *)

Lemma put_eth_spec buf dmac smac type :
  length dmac = 6%nat → length smac = 6%nat → (14 ≤ length buf)%nat → is_u16 type →
  put_eth buf dmac smac type = Some (eth_header dmac smac type ++ drop 14 buf).
Proof.
  intros Hd Hs Hb Ht. unfold put_eth.
  pose proof (copy_next 6 dmac [] buf 0) as E. cbn [app] in E. change (Z.of_nat 6) with 6 in E.
  rewrite E, obind_Some by (simpl; lia). rewrite (firstn_all2 (n := 6) dmac) by lia.
  pose proof (copy_next 6 smac dmac (drop 6 buf) 6) as E2. change (Z.of_nat 6) with 6 in E2.
  rewrite E2, obind_Some by (rewrite ?length_drop; lia). rewrite (firstn_all2 (n := 6) smac), drop_drop by lia.
  destruct (lookup_lt_is_Some_2 buf 12) as [x Hx]; [lia|].
  destruct (lookup_lt_is_Some_2 buf 13) as [y Hy]; [lia|].
  change (6 + 6)%nat with 12%nat. rewrite (drop_lookup_cons buf 12 x Hx), (drop_lookup_cons buf 13 y Hy).
  rewrite aset_next, obind_Some by (rewrite length_app; lia).
  rewrite aset_next by (rewrite ?length_app; simpl; lia). unfold eth_header. rewrite <-!app_assoc.
  change (be_bytes 2 type) with ([type / 256 mod 256] ++ [type mod 256]). rewrite <-!app_assoc.
  change 255 with (Z.ones 8). rewrite Z.land_ones, Z.shiftr_div_pow2 by lia.
  unfold u8, wrap. change (2 ^ 8) with 256. by rewrite Zmod_mod.
Qed.

Lemma put_ip_header_spec p r total id proto src dst :
  length p = 14%nat → (20 ≤ length r)%nat → is_u16 total → is_u16 id → 0 ≤ proto < 256 →
  put_ip_header (p ++ r) total id proto src dst = Some (p ++ ip_header total id proto 0 src dst ++ drop 20 r).
Proof.
  intros Hp Hr Ht Hi Hpr. unfold put_ip_header. change ETH_HDR_LEN with 14.
  rewrite (u16_small total) by done. do 9 fill_next.
  rewrite put_next by (rewrite ?length_app, ?length_drop, ?le_bytes_length; simpl; lia).
  rewrite !drop_drop, !bswap16_be by done. unfold ip_header. rewrite <-!app_assoc. do 2 f_equal.
  assert (le_bytes 1 proto = [proto]) as -> by (simpl; by rewrite Z.mod_small by lia).
  reflexivity.
Qed.

Lemma put_arp_packet_spec p r oper sha spa tha tpa :
  length p = 14%nat → (28 ≤ length r)%nat → is_u16 oper → length sha = 6%nat → length tha = 6%nat →
  put_arp_packet (p ++ r) oper sha spa tha tpa =
    Some (p ++ arp_packet oper sha spa tha tpa ++ drop 28 r).
Proof.
  intros Hp Hr Ho Hs Ht. unfold put_arp_packet. change ETH_HDR_LEN with 14. do 5 fill_next.
  rewrite !drop_drop. change (2 + (2 + (1 + (1 + 2))))%nat with 8%nat.
  rewrite (bswap16_be oper) by done. set (h := ((((p ++ _) ++ _) ++ _) ++ _) ++ _).
  assert (h = p ++ [0; 1; 8; 0; 6; 4] ++ be_bytes 2 oper) as -> by (subst h; rewrite <-!app_assoc; reflexivity).
  set (q := p ++ [0; 1; 8; 0; 6; 4] ++ be_bytes 2 oper).
  assert (length q = 22%nat) as Hq by (subst q; rewrite !length_app; simpl; lia).
  pose proof (copy_next 6 sha q (drop 8 r) (14 + 8)) as E. change (Z.of_nat 6) with 6 in E.
  rewrite E, obind_Some by (rewrite ?length_drop; lia).
  rewrite (firstn_all2 (n := 6) sha), drop_drop by lia. change (8 + 6)%nat with 14%nat.
  rewrite <-(take_drop 4 (drop 14 r)), drop_drop, (app_assoc (q ++ sha)). change (14 + 4)%nat with 18%nat.
  assert (length (take 4 (drop 14 r)) = 4%nat) as H4 by (rewrite length_take, length_drop; lia).
  set (gap := take 4 (drop 14 r)) in *. clearbody gap.
  pose proof (copy_next 6 tha ((q ++ sha) ++ gap) (drop 18 r) (14 + 18)) as E2. change (Z.of_nat 6) with 6 in E2.
  rewrite E2, obind_Some by (rewrite ?length_app, ?length_drop; lia).
  rewrite (firstn_all2 (n := 6) tha), drop_drop by lia. change (18 + 6)%nat with 24%nat.
  rewrite <-(app_assoc ((q ++ sha) ++ gap)), <-(app_assoc (q ++ sha)).
  rewrite (put_field_at 4 (q ++ sha) gap), obind_Some by (rewrite ?length_app; lia).
  rewrite (app_assoc (q ++ sha)), (app_assoc ((q ++ sha) ++ _)).
  rewrite put_next by (rewrite ?length_app, ?length_drop, ?le_bytes_length; lia).
  rewrite drop_drop. unfold q, arp_packet. by rewrite <-!app_assoc.
Qed.

(** ** The header checksum *)

Lemma ip_checksum_even data (n : nat) :
  octets data → (2 * n ≤ length data)%nat → Z.of_nat n ≤ 32000 →
  ip_checksum data (2 * Z.of_nat n) = Some (65535 - fold16 (wsum (take (2 * n) data))).
Proof.
  intros Ho Hl Hn. unfold ip_checksum. cbv zeta. rewrite sum_tail by (done || lia). rewrite Z.add_0_l.
  by replace (Z.to_nat (2 * Z.of_nat n)) with (2 * n)%nat by lia.
Qed.

(** The checksum reads no byte behind the range. *)
Lemma ip_checksum_prefix h rest len :
  0 ≤ len ≤ Z.of_nat (length h) → ip_checksum (h ++ rest) len = ip_checksum h len.
Proof.
  intros Hl. assert (∀ i, 0 ≤ i < len → aget (h ++ rest) i = aget h i) as Ha.
  { intros i Hi. rewrite !aget_to_nat by lia. apply lookup_app_l. lia. }
  unfold ip_checksum. cbv zeta.
  assert (for_up (Z.to_nat (len / 2)) 0 (λ k sum, hi ← aget (h ++ rest) (2 * k); lo ← aget (h ++ rest) (2 * k + 1);
      Some (u32 (sum + be16 hi lo))) 0 =
    for_up (Z.to_nat (len / 2)) 0 (λ k sum, hi ← aget h (2 * k); lo ← aget h (2 * k + 1);
      Some (u32 (sum + be16 hi lo))) 0) as ->.
  { apply for_up_ext. intros j x Hj. rewrite !Ha by zdm. done. }
  destruct (for_up _ _ _ _); [|done]. rewrite !obind_Some.
  destruct (Z.ltb_spec (2 * (len / 2)) len); [|done]. by rewrite Ha by zdm.
Qed.

Lemma ip_header_length total id proto csum src dst : length (ip_header total id proto csum src dst) = 20%nat.
Proof. done. Qed.

Lemma ip_header_octets total id proto csum src dst :
  0 ≤ proto < 256 → octets (ip_header total id proto csum src dst).
Proof.
  intros Hp. unfold ip_header, octets. apply Forall_app. split; [repeat constructor; lia|].
  repeat (apply Forall_app; split; [first [apply be_bytes_octets|apply le_bytes_octets|repeat constructor; lia]|]).
  apply le_bytes_octets.
Qed.

Lemma ip_header_wsum total id proto csum src dst :
  is_u16 csum →
  wsum (ip_header total id proto csum src dst) = wsum (ip_header total id proto 0 src dst) + csum.
Proof.
  intros Hc. unfold ip_header.
  assert (∀ c, [69; 0] ++ be_bytes 2 total ++ be_bytes 2 id ++ [0; 0; 64; proto] ++ be_bytes 2 c ++
    le_bytes 4 src ++ le_bytes 4 dst =
    ([69; 0] ++ be_bytes 2 total ++ be_bytes 2 id ++ [0; 0; 64; proto]) ++ be_bytes 2 c ++
    (le_bytes 4 src ++ le_bytes 4 dst)) as Ha by done.
  rewrite !Ha. set (p := [69; 0] ++ _). set (q := le_bytes 4 src ++ _).
  rewrite !(wsum_app_even p), (wsum_app_even (be_bytes 2 csum) q), wsum_be by done.
  rewrite (wsum_app_even (be_bytes 2 0) q) by done. change (wsum (be_bytes 2 0)) with 0. lia.
Qed.

(** The complement makes the receiver's sum vanish. *)
Lemma header_check total id proto src dst :
  0 ≤ proto < 256 →
  ∃ csum, is_u16 csum ∧ ∀ rest,
    ip_checksum (ip_header total id proto 0 src dst ++ rest) IP_HEADER_LEN = Some csum ∧
    ip_checksum (ip_header total id proto csum src dst ++ rest) IP_HEADER_LEN = Some 0.
Proof.
  intros Hp. set (x := wsum (ip_header total id proto 0 src dst)).
  assert (∀ c rest, ip_checksum (ip_header total id proto c src dst ++ rest) IP_HEADER_LEN =
    Some (65535 - fold16 (wsum (ip_header total id proto c src dst)))) as E.
  { intros c rest. rewrite ip_checksum_prefix by done. change IP_HEADER_LEN with (2 * Z.of_nat 10).
    rewrite ip_checksum_even; [|by apply ip_header_octets|rewrite ip_header_length; lia|lia].
    by rewrite firstn_all2 by (rewrite ip_header_length; lia). }
  assert (0 < x) as Hx.
  { subst x. unfold ip_header. change ([69; 0] ++ ?y) with (69 :: 0 :: y). set (y := be_bytes 2 total ++ _).
    change (wsum (69 :: 0 :: y)) with (256 * 69 + 0 + wsum y).
    assert (octets y) as Hy.
    { pose proof (ip_header_octets total id proto 0 src dst Hp) as H. unfold ip_header in H.
      apply Forall_app in H. apply H. }
    pose proof (wsum_bounds y Hy). lia. }
  assert (is_u16 (65535 - fold16 x) ∧ fold16 (x + (65535 - fold16 x)) = 65535) as [Hc Hf].
  { unfold is_u16, fold16. rewrite (proj2 (Z.eqb_neq x 0)) by lia.
    set (r := (x - 1) mod 65535). set (q := (x - 1) / 65535).
    assert (x = 65535 * q + r + 1 ∧ 0 ≤ r < 65535 ∧ 0 ≤ q) as (Ex & Hrr & Hq) by (subst r q; zdm).
    rewrite (proj2 (Z.eqb_neq _ 0)) by lia. clearbody r q. clearbody x. subst x. split; [lia|].
    replace (65535 * q + r + 1 + (65535 - (r + 1)) - 1) with (65534 + q * 65535) by lia.
    rewrite Z.mod_add by lia. reflexivity. }
  exists (65535 - fold16 x). split; [done|]. intros rest. split; [apply E|].
  rewrite E, ip_header_wsum by done. fold x. by rewrite Hf.
Qed.
