(* ===== verification/IpSpec.v ===== *)
(** The tables of the IP stack: its invariant, the ARP cache as a map from
    addresses to hardware addresses, and the routing decision.

    The operations of the IP stack on a well-formed state: the routing
    decision, ARP exchange, sending and receiving. *)
From S2P Require Import Prelude Tcpcore TcpSeg TcpOps Ipstack IpFrame.

(** ** Invariant *)

Definition unique_ips (es : list ip_arp_entry_t) : Prop :=
  ∀ i j e e', aget es i = Some e → aget es j = Some e' → ae_valid e = true → ae_valid e' = true →
    ae_ip e = ae_ip e' → i = j.

Record ip_ok (s : ipstack_t) : Prop := {
  io_routes : length (ip_routes s) = 8%nat;
  io_cache : length (ip_arp_cache s) = 16%nat;
  io_entry : ∀ i e, aget (ip_arp_cache s) i = Some e → length (ae_mac e) = 6%nat;
  io_unique : unique_ips (ip_arp_cache s);
  io_scratch : length (ip_tx_scratch s) = 1536%nat;
  io_mac : length (ip_local_mac s) = 6%nat;
  io_link : ip_link_tx s ≠ 0;
  io_init : ip_initialized s = true;
  io_id : is_u16 (ip_next_id s)
}.

(** ** The ARP cache *)

(** The hardware address the cache holds for [ip]. *)
Fixpoint arp_get (es : list ip_arp_entry_t) (ip : Z) : option (list Z) :=
  match es with
  | [] => None
  | e :: es => if arp_entry_is ip e then Some (ae_mac e) else arp_get es ip
  end.

Lemma arp_entry_is_iff ip e : arp_entry_is ip e = true ↔ ae_valid e = true ∧ ae_ip e = ip.
Proof. unfold arp_entry_is. rewrite andb_true_iff, Z.eqb_eq. done. Qed.

Lemma arp_get_first es ip i e :
  aget es i = Some e → arp_entry_is ip e = true →
  (∀ j e', 0 ≤ j < i → aget es j = Some e' → arp_entry_is ip e' = false) →
  arp_get es ip = Some (ae_mac e).
Proof.
  intros [Hi He]%aget_Some Hm. remember (Z.to_nat i) as n eqn:En. revert es He i Hi En.
  induction n as [|n IH]; intros [|x es] He i Hi En Hf; try done; simpl in *.
  - injection He as ->. by rewrite Hm.
  - rewrite (Hf 0 x) by (lia || done). apply (IH es He (i - 1)); [lia|lia|].
    intros j e' Hj Hj'. apply (Hf (j + 1)); [lia|]. rewrite aget_to_nat in * by lia.
    by replace (Z.to_nat (j + 1)) with (S (Z.to_nat j)) by lia.
Qed.

Lemma arp_get_none es ip :
  (∀ j e, aget es j = Some e → arp_entry_is ip e = false) → arp_get es ip = None.
Proof.
  induction es as [|x es IH]; intros H; [done|]. simpl. rewrite (H 0 x eq_refl). apply IH.
  intros j e Hj. apply (H (j + 1)). pose proof (aget_lt _ _ _ Hj). rewrite aget_to_nat in * by lia.
  by replace (Z.to_nat (j + 1)) with (S (Z.to_nat j)) by lia.
Qed.

(** In a cache without duplicates any matching entry is the one. *)
Lemma arp_get_unique es ip i e :
  unique_ips es → aget es i = Some e → arp_entry_is ip e = true → arp_get es ip = Some (ae_mac e).
Proof.
  intros Hu He Hm. apply (arp_get_first es ip i e He Hm). intros j e' Hj He'.
  destruct (arp_entry_is ip e') eqn:E; [|done]. exfalso. apply arp_entry_is_iff in Hm as [? ?], E as [? ?].
  assert (i = j) by (eapply Hu; [exact He|exact He'|done|done|congruence]). lia.
Qed.

Lemma arp_get_inv es ip m :
  arp_get es ip = Some m → ∃ i e, aget es i = Some e ∧ arp_entry_is ip e = true ∧ ae_mac e = m.
Proof.
  induction es as [|x es IH]; [done|]. simpl. destruct (arp_entry_is ip x) eqn:E.
  - intros [= <-]. by exists 0, x.
  - intros (i & e & Hi & He & Hm)%IH. exists (i + 1), e. split; [|done].
    pose proof (aget_lt _ _ _ Hi). rewrite aget_to_nat in * by lia.
    by replace (Z.to_nat (i + 1)) with (S (Z.to_nat i)) by lia.
Qed.

(** Replacing an entry by one for [ip]: every other address keeps its entry,
    except the one the old entry was for. *)
Lemma arp_get_replace es i e e' ip :
  unique_ips es → aget es i = Some e → arp_entry_is ip e' = true →
  (∀ j x, aget es j = Some x → j ≠ i → arp_entry_is ip x = false) →
  unique_ips (<[Z.to_nat i := e']> es) ∧
  arp_get (<[Z.to_nat i := e']> es) ip = Some (ae_mac e') ∧
  ∀ q, q ≠ ip → arp_get (<[Z.to_nat i := e']> es) q =
    if arp_entry_is q e then None else arp_get es q.
Proof.
  intros Hu He He' Hn. pose proof (aget_lt _ _ _ He) as Hlt. pose proof He' as [Hv' Hip']%arp_entry_is_iff.
  assert (unique_ips (<[Z.to_nat i := e']> es)) as Hu'.
  { intros a b x y. rewrite !aget_insert by done. repeat case_decide; intros Hx Hy Hvx Hvy Hxy; subst; try done.
    - injection Hx as <-. specialize (Hn b y Hy). rewrite (proj2 (arp_entry_is_iff (ae_ip e') y)) in Hn by done.
      by specialize (Hn ltac:(done)).
    - injection Hy as <-. specialize (Hn a x Hx). rewrite (proj2 (arp_entry_is_iff (ae_ip e') x)) in Hn by done.
      by specialize (Hn ltac:(done)).
    - by eapply Hu. }
  split; [done|]. split.
  { eapply (arp_get_unique _ _ i); [done| |done]. by rewrite aget_insert, decide_True by done. }
  intros q Hq. destruct (arp_entry_is q e) eqn:Eq.
  - apply arp_get_none. intros j x. rewrite aget_insert by done. case_decide as Ej.
    + intros [= <-]. destruct (arp_entry_is q e') eqn:E; [|done]. apply arp_entry_is_iff in E as [_ ?]. congruence.
    + intros Hx. destruct (arp_entry_is q x) eqn:E; [|done]. exfalso.
      apply arp_entry_is_iff in E as [? ?], Eq as [? ?]. apply Ej.
      eapply Hu; [exact He|exact Hx|done|done|congruence].
  - destruct (arp_get es q) as [m|] eqn:Eg.
    + apply arp_get_inv in Eg as (j & x & Hx & Hm & <-). eapply (arp_get_unique _ _ j); [done| |done].
      rewrite aget_insert by done. rewrite decide_False; [done|]. intros ->. congruence.
    + apply arp_get_none. intros j x. rewrite aget_insert by done. case_decide.
      * intros [= <-]. destruct (arp_entry_is q e') eqn:E; [|done]. apply arp_entry_is_iff in E as [_ ?]. congruence.
      * intros Hx. destruct (arp_entry_is q x) eqn:E; [|done].
        by rewrite (arp_get_unique _ _ _ _ Hu Hx E) in Eg.
Qed.

Lemma arp_lookup_spec s ip :
  ip_ok s → ∃ r, ip_arp_lookup s ip = Some r ∧
    match r with
    | Some i => ∃ e, aget (ip_arp_cache s) i = Some e ∧ arp_entry_is ip e = true ∧
        arp_get (ip_arp_cache s) ip = Some (ae_mac e)
    | None => (∀ j e, aget (ip_arp_cache s) j = Some e → arp_entry_is ip e = false) ∧
        arp_get (ip_arp_cache s) ip = None
    end.
Proof.
  intros Hs. unfold ip_arp_lookup.
  destruct (find_up_spec 16 0 (ip_arp_cache s) (arp_entry_is ip)) as (r & E & Hr);
    [lia|rewrite (io_cache _ Hs); lia|].
  exists r. split; [exact E|]. destruct r as [i|].
  - destruct Hr as (_ & (e & He & Hm) & _). exists e. split; [done|]. split; [done|].
    eapply arp_get_unique; [apply Hs|done..].
  - assert (∀ j e, aget (ip_arp_cache s) j = Some e → arp_entry_is ip e = false) as Hn.
    { intros j e He. pose proof (aget_lt _ _ _ He) as Hlt. rewrite (io_cache _ Hs) in Hlt. apply (Hr j); [lia|done]. }
    split; [done|]. by apply arp_get_none.
Qed.

Definition with_cache (s : ipstack_t) (es : list ip_arp_entry_t) : ipstack_t := s <| ip_arp_cache := es |>.

(** Storing into slot [i]. *)
Lemma put_arp_spec s i e ip mac e' :
  ip_ok s → aget (ip_arp_cache s) i = Some e → length mac = 6%nat →
  ae_ip e' = ip → ae_mac e' = mac → ae_valid e' = true →
  (∀ j x, aget (ip_arp_cache s) j = Some x → j ≠ i → arp_entry_is ip x = false) →
  ∃ es, put_arp s i e' = Some (with_cache s es) ∧ ip_ok (with_cache s es) ∧
    arp_get es ip = Some mac ∧
    ∀ q, q ≠ ip → arp_get es q = if arp_entry_is q e then None else arp_get (ip_arp_cache s) q.
Proof.
  intros Hs He Hm Eip Emac Ev Hn. unfold put_arp. rewrite aset_in, obind_Some by (by eapply aget_lt).
  destruct (arp_get_replace (ip_arp_cache s) i e e' ip) as (Hu & Hg & Ho);
    [apply Hs|done|by apply arp_entry_is_iff|done|].
  eexists. split; [done|]. split; [|split; [by rewrite Hg, Emac|done]].
  destruct Hs as [H1 H2 H3 H4 H5 H6 H7 H8 H9]. constructor; try done.
  - simpl. by rewrite length_insert.
  - simpl. intros j x. rewrite aget_insert by (by eapply aget_lt).
    case_decide; [intros [= <-]; by rewrite Emac|apply H3].
Qed.

Lemma copy_mac mac old :
  length mac = 6%nat → length old = 6%nat → copy_bytes 6 mac old = Some mac.
Proof.
  intros Hm Ho. change 6 with (Z.of_nat 6). rewrite copy_bytes_spec by lia.
  by rewrite firstn_all2, skipn_all2, app_nil_r by lia.
Qed.

Lemma arp_victim_spec s :
  ip_ok s → ∃ o v e, arp_victim s = Some (o, v) ∧ aget (ip_arp_cache s) v = Some e.
Proof.
  intros Hs. unfold arp_victim.
  loop_inv (λ (_ : Z) (x : Z * Z), 0 ≤ x.2 < 16) as ([o v] & -> & Hv).
  - done.
  - intros j [o v] Hj Hv. change (Z.to_nat IP_ARP_CACHE_MAX) with 16%nat in Hj.
    destruct (aget_is_Some (ip_arp_cache s) j) as [e He]; [rewrite (io_cache _ Hs); lia|].
    rewrite He, obind_Some. eexists. split; [done|]. case_match; simpl in *; lia.
  - destruct (aget_is_Some (ip_arp_cache s) v) as [e He]; [rewrite (io_cache _ Hs); simpl in Hv; lia|]. eauto.
Qed.

(** The cache is full and has nothing for [ip]. *)
Definition arp_full (s : ipstack_t) (ip : Z) : Prop :=
  arp_get (ip_arp_cache s) ip = None ∧
  ∀ j e, aget (ip_arp_cache s) j = Some e → ae_valid e = true.

(** Storing makes the address resolvable and forgets another address only
    when the cache is full. *)
Lemma arp_store_spec s ip mac :
  ip_ok s → length mac = 6%nat →
  ∃ es, ip_arp_store s ip mac = Some (with_cache s es) ∧ ip_ok (with_cache s es) ∧
    arp_get es ip = Some mac ∧
    ∀ q, q ≠ ip → arp_get es q = arp_get (ip_arp_cache s) q ∨ arp_get es q = None ∧ arp_full s ip.
Proof.
  intros Hs Hm. unfold ip_arp_store. destruct (arp_lookup_spec s ip Hs) as (r & -> & Hr). rewrite obind_Some.
  destruct r as [i|].
  - destruct Hr as (e & He & Hip & _). pose proof Hip as [Hv Heip]%arp_entry_is_iff.
    rewrite He, obind_Some, copy_mac, obind_Some by (done || by apply (io_entry _ Hs i)).
    destruct (put_arp_spec s i e ip mac (e <| ae_mac := mac |> <| ae_age := 0 |>)) as (es & E & Hok & Hg & Ho);
      [done..| |].
    { intros j x Hx Hne. destruct (arp_entry_is ip x) eqn:Ex; [|done]. exfalso. apply Hne.
      apply arp_entry_is_iff in Ex as [? ?]. eapply (io_unique _ Hs); [exact Hx|exact He|done|done|congruence]. }
    exists es. split; [done|]. split; [done|]. split; [done|]. intros q Hq. rewrite (Ho q Hq).
    destruct (arp_entry_is q e) eqn:Eq; [|by left]. apply arp_entry_is_iff in Eq as [_ ?]. congruence.
  - destruct Hr as [Hn Hg0].
    destruct (find_up_spec 16 0 (ip_arp_cache s) (λ e, negb (ae_valid e))) as (r & E & Hr);
      [lia|rewrite (io_cache _ Hs); lia|].
    change (Z.to_nat IP_ARP_CACHE_MAX) with 16%nat. rewrite E, obind_Some. destruct r as [i|].
    + destruct Hr as (_ & (e & He & Hv) & _). zbool.
      rewrite He, obind_Some, copy_mac, obind_Some by (done || by apply (io_entry _ Hs i)).
      destruct (put_arp_spec s i e ip mac (e <| ae_ip := ip |> <| ae_mac := mac |> <| ae_age := 0 |>
        <| ae_valid := true |>)) as (es & Ep & Hok & Hg & Ho); [done..|by intros; eapply Hn|].
      exists es. split; [done|]. split; [done|]. split; [done|]. intros q Hq. rewrite (Ho q Hq). left.
      unfold arp_entry_is. by rewrite Hv.
    + assert (∀ j e, aget (ip_arp_cache s) j = Some e → ae_valid e = true) as Hfull.
      { intros j e He. pose proof (aget_lt _ _ _ He) as Hlt. rewrite (io_cache _ Hs) in Hlt.
        assert (negb (ae_valid e) = false) by (apply (Hr j); [lia|done]). by zbool. }
      destruct (arp_victim_spec s Hs) as (o & v & e & -> & He). rewrite obind_Some, He, obind_Some.
      rewrite copy_mac, obind_Some by (done || by apply (io_entry _ Hs v)).
      destruct (put_arp_spec s v e ip mac (e <| ae_ip := ip |> <| ae_mac := mac |> <| ae_age := 0 |>))
        as (es & Ep & Hok & Hg & Ho); [done|done|done|done|done|exact (Hfull v e He)|by intros; eapply Hn|].
      exists es. split; [done|]. split; [done|]. split; [done|]. intros q Hq. rewrite (Ho q Hq).
      destruct (arp_entry_is q e); [right|by left]. split; [done|]. split; [done|done].
Qed.

(** ** Routing *)

(** [i] is the first of the matching routes with the longest prefix. *)
Definition best_route (rs : list ip_route_entry_t) (dst i : Z) (e : ip_route_entry_t) : Prop :=
  aget rs i = Some e ∧ route_matches dst e = true ∧
  ∀ j e', aget rs j = Some e' → route_matches dst e' = true →
    ip_prefix_len (rt_mask e') ≤ ip_prefix_len (rt_mask e) ∧
    (ip_prefix_len (rt_mask e') = ip_prefix_len (rt_mask e) → i ≤ j).

Definition next_hop (dst : Z) (e : ip_route_entry_t) : Z :=
  if rt_gateway e =? 0 then dst else rt_gateway e.

(** What the stack does without a matching route. *)
Definition default_hop (s : ipstack_t) (dst : Z) : Z * option Z :=
  if nz (ip_netmask s) && (Z.land dst (ip_netmask s) =? Z.land (ip_local_ip s) (ip_netmask s))
  then (IP_OK, Some dst)
  else if nz (ip_gateway s) then (IP_OK, Some (ip_gateway s)) else (IP_ERR_NO_ROUTE, None).

Lemma route_loop s dst :
  ip_ok s →
  ∃ best, for_up (Z.to_nat IP_ROUTE_MAX) 0
      (λ i best, e ← aget (ip_routes s) i; Some (better_route dst e best)) (None, 0) = Some best ∧
    match best.1 with
    | Some e => (∃ i, best_route (ip_routes s) dst i e)
    | None => ∀ j e, aget (ip_routes s) j = Some e → route_matches dst e = false
    end.
Proof.
  intros Hs.
  loop_inv (λ i (b : option ip_route_entry_t * Z), match b.1 with
    | Some e => b.2 = ip_prefix_len (rt_mask e) ∧ ∃ k, 0 ≤ k < i ∧ aget (ip_routes s) k = Some e ∧
        route_matches dst e = true ∧
        ∀ j e', j < i → aget (ip_routes s) j = Some e' → route_matches dst e' = true →
          ip_prefix_len (rt_mask e') ≤ ip_prefix_len (rt_mask e) ∧
          (ip_prefix_len (rt_mask e') = ip_prefix_len (rt_mask e) → k ≤ j)
    | None => ∀ j e, j < i → aget (ip_routes s) j = Some e → route_matches dst e = false
    end) as ([b n] & E & Hb).
  - simpl. intros j e Hj He. pose proof (aget_lt _ _ _ He). lia.
  - intros i [b n] Hi Hb. change (Z.to_nat IP_ROUTE_MAX) with 8%nat in Hi. cbn [fst snd] in *.
    destruct (aget_is_Some (ip_routes s) i) as [e He]; [rewrite (io_routes _ Hs); lia|].
    rewrite He, obind_Some. eexists. split; [done|]. unfold better_route. cbn [fst snd].
    destruct (route_matches dst e) eqn:Em; cbn [negb].
    + destruct b as [x|]; cbn [negb orb].
      * rewrite bool_decide_eq_true_2 by done. cbn [negb orb]. destruct Hb as (-> & k & Hk & Hx & Hmx & Hmax).
        destruct (Z.ltb_spec (ip_prefix_len (rt_mask x)) (ip_prefix_len (rt_mask e))); cbn [fst snd].
        { split; [done|]. exists i. split_and!; [lia|lia|done|done|]. intros j e' Hj He' Hm'.
          destruct (decide (j = i)) as [->|]; [assert (e' = e) as -> by congruence; lia|].
          destruct (Hmax j e') as [? _]; [lia|done|done|]. lia. }
        { split; [done|]. exists k. split_and!; [lia|lia|done|done|]. intros j e' Hj He' Hm'.
          destruct (decide (j = i)) as [->|]; [assert (e' = e) as -> by congruence; lia|].
          apply Hmax; [lia|done|done]. }
      * rewrite bool_decide_eq_false_2 by (by intros []). cbn [negb orb fst snd]. split; [done|].
        exists i. split_and!; [lia|lia|done|done|]. intros j e' Hj He' Hm'.
        destruct (decide (j = i)) as [->|]; [assert (e' = e) as -> by congruence; lia|].
        rewrite (Hb j e') in Hm'; [done|lia|done].
    + destruct b as [x|]; cbn [fst snd].
      * destruct Hb as (-> & k & Hk & Hx & Hmx & Hmax). split; [done|]. exists k. split_and!; [lia|lia|done|done|].
        intros j e' Hj He' Hm'. destruct (decide (j = i)) as [->|]; [congruence|]. apply Hmax; [lia|done|done].
      * intros j e' Hj He'. destruct (decide (j = i)) as [->|]; [congruence|]. apply (Hb j); [lia|done].
  - exists (b, n). split; [done|]. change (0 + Z.of_nat (Z.to_nat IP_ROUTE_MAX)) with 8 in Hb. cbn [fst snd] in *.
    assert (∀ j e, aget (ip_routes s) j = Some e → j < 8) as Hlt.
    { intros j e He. pose proof (aget_lt _ _ _ He) as H. rewrite (io_routes _ Hs) in H. lia. }
    destruct b as [e|]; [|eauto]. destruct Hb as (_ & k & _ & He & Hm & Hmax). exists k. split; [done|].
    split; [done|]. eauto.
Qed.

Lemma route_lookup_spec s dst :
  ip_ok s → ∃ r, ip_route_lookup s dst = Some r ∧
    ((∃ i e, best_route (ip_routes s) dst i e ∧ r = (IP_OK, Some (next_hop dst e))) ∨
     (∀ j e, aget (ip_routes s) j = Some e → route_matches dst e = false) ∧ r = default_hop s dst).
Proof.
  intros Hs. unfold ip_route_lookup. destruct (route_loop s dst Hs) as ([b n] & -> & Hb). rewrite obind_Some.
  eexists. split; [done|]. cbn [fst] in Hb. destruct b as [e|]; [left|right; done].
  destruct Hb as (i & Hi). exists i, e. split; [done|]. unfold next_hop, nz. by destruct (rt_gateway e =? 0).
Qed.

Section ops.
Context {W : Type} (call_link : Z → Z → list Z → W → W * Z).
Context (call_arp : Z → Z → Z → list Z → W → W).
Context (call_icmp : Z → Z → Z → Z → Z → list Z → W → W).
Context (call_tcp call_udp : Z → Z → Z → Z → Z → Z → list Z → W → W).

(** ** Transmission *)

(** The stack after a frame left it. *)
Definition sent (s : ipstack_t) (id : Z) (f : list Z) : ipstack_t :=
  s <| ip_next_id := id |> <| ip_tx_scratch := f ++ drop (length f) (ip_tx_scratch s) |>.

Lemma sent_ok s id f :
  ip_ok s → is_u16 id → (length f ≤ 1536)%nat → ip_ok (sent s id f).
Proof.
  intros [H1 H2 H3 H4 H5 H6 H7 H8 H9] Hi Hf. constructor; try done.
  change (length (f ++ drop (length f) (ip_tx_scratch s)) = 1536%nat). rewrite length_app, length_drop. lia.
Qed.

Lemma link_tx_spec s f r w :
  ip_link_tx s ≠ 0 →
  link_tx call_link s (f ++ r) (Z.of_nat (length f)) w =
    Some (call_link (ip_link_tx s) (ip_link_ctx s) f w).
Proof.
  intros Hl. unfold link_tx. rewrite (proj2 (Z.eqb_neq _ _)) by done.
  rewrite aslice_in by (rewrite ?length_app; lia). rewrite obind_Some, Nat2Z.id. change (Z.to_nat 0) with 0%nat.
  by rewrite drop_0, take_app_length.
Qed.

Definition arp_frame (s : ipstack_t) (oper : Z) (dmac : list Z) (target : Z) : list Z :=
  eth_header dmac (ip_local_mac s) ETH_TYPE_ARP ++
  arp_packet oper (ip_local_mac s) (ip_local_ip s) dmac target.

Lemma arp_frame_length s oper dmac target :
  ip_ok s → length dmac = 6%nat → length (arp_frame s oper dmac target) = 42%nat.
Proof.
  intros Hs Hd. unfold arp_frame, eth_header, arp_packet.
  rewrite !length_app, Hd, (io_mac _ Hs). reflexivity.
Qed.

Lemma arp_transmit_spec s oper dmac target w :
  ip_ok s → length dmac = 6%nat → is_u16 oper →
  let f := arp_frame s oper dmac target in
  ip_arp_transmit call_link s oper dmac target w =
    (let '(w', rc) := call_link (ip_link_tx s) (ip_link_ctx s) f w in Some (w', sent s (ip_next_id s) f, rc)).
Proof.
  intros Hs Hd Ho f. pose proof (arp_frame_length s oper dmac target Hs Hd) as Hf. fold f in Hf.
  pose proof (io_mac _ Hs) as Hm. pose proof (io_scratch _ Hs) as Hsc. unfold ip_arp_transmit.
  rewrite put_eth_spec, obind_Some by (done || lia).
  rewrite put_arp_packet_spec, obind_Some;
    [|unfold eth_header; rewrite !length_app, Hd, Hm; done|rewrite length_drop; lia|done|done|done].
  rewrite drop_drop, app_assoc. change (eth_header _ _ _ ++ arp_packet _ _ _ _ _) with f.
  change (ETH_HDR_LEN + sizeof_arp) with 42. replace 42 with (Z.of_nat (length f)) by lia.
  rewrite link_tx_spec by apply (io_link _ Hs).
  change (ip_link_tx (s <| ip_tx_scratch := _ |>)) with (ip_link_tx s).
  change (ip_link_ctx (s <| ip_tx_scratch := _ |>)) with (ip_link_ctx s).
  destruct (call_link _ _ f w) as [w' rc]. rewrite obind_Some. unfold sent. rewrite Hf.
  change (14 + 28)%nat with 42%nat. by destruct s.
Qed.

Definition ip_frame (s : ipstack_t) (dmac : list Z) (dst proto csum : Z) (payload : list Z) : list Z :=
  eth_header dmac (ip_local_mac s) ETH_TYPE_IP ++
  ip_header (20 + Z.of_nat (length payload)) (ip_next_id s) proto csum (ip_local_ip s) dst ++ payload.

(** A frame for [dst] with a header that passes the receiver's check. *)
Definition good_frame (s : ipstack_t) (dmac : list Z) (dst proto : Z) (payload f : list Z) : Prop :=
  ∃ csum, is_u16 csum ∧ f = ip_frame s dmac dst proto csum payload ∧
    ∀ rest, ip_checksum (ip_header (20 + Z.of_nat (length payload)) (ip_next_id s) proto csum
                            (ip_local_ip s) dst ++ rest) IP_HEADER_LEN = Some 0.

Lemma send_frame_spec s dst proto data payload dmac w :
  ip_ok s → length dmac = 6%nat → 0 ≤ proto < 256 → octets payload → (length payload ≤ 1502)%nat →
  (payload = [] ∨ ∃ d, data = Some d ∧ payload = take (length payload) d) →
  ∃ f, good_frame s dmac dst proto payload f ∧
    send_frame call_link s dst proto data (Z.of_nat (length payload)) dmac w =
      (let '(w', rc) := call_link (ip_link_tx s) (ip_link_ctx s) f w in
       Some (w', Some (sent s (u16 (ip_next_id s + 1)) f), rc)).
Proof.
  intros Hs Hd Hp Ho Hl Hdata. pose proof (io_mac _ Hs) as Hm. pose proof (io_scratch _ Hs) as Hsc.
  set (n := length payload) in *.
  destruct (header_check (20 + Z.of_nat n) (ip_next_id s) proto (ip_local_ip s) dst Hp) as (csum & Hc & Hck).
  set (f := ip_frame s dmac dst proto csum payload).
  assert (length (eth_header dmac (ip_local_mac s) ETH_TYPE_IP) = 14%nat) as He
    by (unfold eth_header; rewrite !length_app, Hd, Hm; done).
  assert (length f = (34 + n)%nat) as Hf by (subst f; unfold ip_frame; rewrite !length_app, He; done).
  exists f. split; [exists csum; split; [apply Hc|]; split; [done|apply Hck]|].
  unfold send_frame. rewrite put_eth_spec, obind_Some by (done || lia).
  rewrite put_ip_header_spec, obind_Some;
    [|exact He|rewrite length_drop; lia|unfold is_u16, IP_HEADER_LEN; lia|apply (io_id _ Hs)|done].
  rewrite drop_drop. set (p := eth_header _ _ _) in *. set (h0 := ip_header _ _ _ 0 _ _) in *.
  assert (length h0 = 20%nat) as Hh by done.
  assert ((if nz (Z.of_nat n) then data ≫= λ data, copy_at (Z.of_nat n) data 0 (p ++ h0 ++ drop (14 + 20) (ip_tx_scratch s))
      (ETH_HDR_LEN + IP_HEADER_LEN) else Some (p ++ h0 ++ drop (14 + 20) (ip_tx_scratch s))) =
    Some (p ++ h0 ++ payload ++ drop (34 + n) (ip_tx_scratch s))) as ->.
  { destruct Hdata as [Hnil|(d & -> & Hdd)].
    { subst n. rewrite Hnil. done. }
    destruct (decide (n = 0%nat)) as [E0|]; [destruct payload; [by rewrite E0|done]|].
    unfold nz. rewrite (proj2 (Z.eqb_neq _ 0)) by lia. cbn [negb]. rewrite obind_Some, app_assoc.
    assert (n ≤ length d)%nat by (apply (f_equal length) in Hdd; rewrite length_take in Hdd; lia).
    rewrite copy_next by (rewrite ?length_app, ?length_drop, ?He, ?Hh; try done; lia).
    rewrite <-Hdd, drop_drop. by rewrite <-!app_assoc. }
  rewrite obind_Some. change (Z.to_nat ETH_HDR_LEN) with 14%nat. rewrite (drop_app_length' p) by done.
  rewrite (proj1 (Hck _)), obind_Some.
  assert (put_field 2 (p ++ h0 ++ payload ++ drop (34 + n) (ip_tx_scratch s)) (ETH_HDR_LEN + 10) (ow_bswap16 csum) =
    Some (f ++ drop (length f) (ip_tx_scratch s))) as ->.
  { rewrite Hf. clear Hf. subst h0 f. unfold ip_frame, ip_header. fold p. fold n. change (be_bytes 2 0) with [0; 0].
    set (a := [69; 0] ++ be_bytes 2 (20 + Z.of_nat n) ++ be_bytes 2 (ip_next_id s) ++ [0; 0; 64; proto]).
    set (z := le_bytes 4 (ip_local_ip s) ++ le_bytes 4 dst).
    pose proof (put_field_at 2 (p ++ a) [0; 0] (z ++ payload ++ drop (34 + n) (ip_tx_scratch s))
      (ETH_HDR_LEN + 10) (ow_bswap16 csum)) as E.
    rewrite bswap16_be, <-!app_assoc in E by done.
    etrans; [apply E; [rewrite length_app, He; done|done]|]. subst a z.
    rewrite <-!app_assoc. reflexivity. }
  rewrite obind_Some. cbv zeta. change (ETH_HDR_LEN + (IP_HEADER_LEN + Z.of_nat n)) with (14 + (20 + Z.of_nat n)).
  replace (14 + (20 + Z.of_nat n)) with (Z.of_nat (length f)) by lia.
  rewrite link_tx_spec by apply (io_link _ Hs).
  change (ip_link_tx (s <| ip_next_id := _ |> <| ip_tx_scratch := _ |>)) with (ip_link_tx s).
  change (ip_link_ctx (s <| ip_next_id := _ |> <| ip_tx_scratch := _ |>)) with (ip_link_ctx s).
  by destruct (call_link _ _ f w) as [w' rc].
Qed.
End ops.
