(* ===== verification/IpInput.v ===== *)
(** Resolution, sending and the receive path of the IP stack.

    The receive path of the IP stack: datagrams and ARP packets as another stack
    sends them, and arbitrary frames. *)
From S2P Require Import Prelude Tcpcore TcpSeg TcpOps Ipstack IpFrame IpSpec.

(** The hardware address the stack uses for a next hop, if it knows one. *)
Definition resolve (s : ipstack_t) (ip : Z) : option (list Z) :=
  if ip =? ip_local_ip s then Some (ip_local_mac s) else arp_get (ip_arp_cache s) ip.

(** The destination address of the frame for [dst], if it is known. *)
Definition frame_target (s : ipstack_t) (dst : Z) : option (list Z) :=
  if dst =? IP_BROADCAST then Some (replicate 6 0xFF)
  else '(_, hop) ← ip_route_lookup s dst; hop ← hop; resolve s hop.

Lemma arp_get_length s ip m : ip_ok s → arp_get (ip_arp_cache s) ip = Some m → length m = 6%nat.
Proof. intros Hs (i & e & He & _ & <-)%arp_get_inv. by apply (io_entry _ Hs i). Qed.

Lemma resolve_length s ip m : ip_ok s → resolve s ip = Some m → length m = 6%nat.
Proof.
  intros Hs. unfold resolve. case_match; [intros [= <-]; apply (io_mac _ Hs)|by apply arp_get_length].
Qed.

(** The words of a port in a transport header. *)
Definition port_of (p : list Z) (i : nat) : Z := 256 * nth i p 0 + nth (S i) p 0.

Lemma lookup_nth (p : list Z) i : (i < length p)%nat → p !! i = Some (nth i p 0).
Proof. intros H. destruct (lookup_lt_is_Some_2 p i H) as [x E]. by rewrite E, (nth_lookup_Some _ _ _ _ E). Qed.

Lemma octets_nth p i : octets p → 0 ≤ nth i p 0 < 256.
Proof.
  intros Hp. destruct (decide (i < length p)%nat).
  - by apply (Forall_lookup_1 _ _ _ _ Hp (lookup_nth p i ltac:(done))).
  - rewrite nth_overflow by lia. lia.
Qed.

Lemma port_at_spec h p rest (i : nat) off :
  octets p → (i + 1 < length p)%nat → off = Z.of_nat (length h + i) →
  port_at (h ++ p ++ rest) off = Some (port_of p i).
Proof.
  intros Ho Hi ->. unfold port_at. replace (Z.of_nat (length h + i) + 1) with (Z.of_nat (length h + (i + 1))) by lia.
  assert (∀ j, (j < length p)%nat → aget (h ++ p ++ rest) (Z.of_nat (length h + j)) = Some (nth j p 0)) as Ha.
  { intros j Hj. rewrite aget_of_nat, lookup_app_r by lia. rewrite lookup_app_l by lia.
    replace (length h + j - length h)%nat with j by lia. by apply lookup_nth. }
  rewrite !Ha, !obind_Some by lia. pose proof (octets_nth p i Ho). pose proof (octets_nth p (i + 1) Ho).
  rewrite be16_octets, u16_small by lia. unfold port_of. by replace (S i) with (i + 1)%nat by lia.
Qed.

Lemma slice_payload (h p rest : list Z) (k : nat) off n :
  (k ≤ length p)%nat → off = Z.of_nat (length h + k) → n = Z.of_nat (length p - k) →
  aslice (h ++ p ++ rest) off n = Some (drop k p).
Proof.
  intros Hk -> ->. rewrite aslice_in by (rewrite ?length_app; lia). rewrite !Nat2Z.id.
  rewrite drop_app_add, skipn_app. replace (k - length p)%nat with 0%nat by lia. rewrite drop_0.
  by rewrite take_app_length' by (rewrite length_drop; lia).
Qed.

Section recv.
Context {W : Type} (call_link : Z → Z → list Z → W → W * Z).
Context (call_arp : Z → Z → Z → list Z → W → W).
Context (call_icmp : Z → Z → Z → Z → Z → list Z → W → W).
Context (call_tcp call_udp : Z → Z → Z → Z → Z → Z → list Z → W → W).

(** ** Resolution and sending *)

Lemma arp_resolve_spec s ip out w :
  ip_ok s → length out = 6%nat →
  ip_arp_resolve call_link (Some s) ip (Some out) w =
    match resolve s ip with
    | Some m => Some (w, Some s, Some m, IP_OK)
    | None =>
        let f := arp_frame s ARP_OP_REQUEST (replicate 6 0xFF) ip in
        let '(w', rc) := call_link (ip_link_tx s) (ip_link_ctx s) f w in
        Some (w', Some (sent s (ip_next_id s) f), Some out,
              if rc =? IP_OK then IP_ERR_PENDING else IP_ERR_NO_ROUTE)
    end.
Proof.
  intros Hs Hout. unfold ip_arp_resolve, resolve. rewrite (io_init _ Hs). cbn [negb].
  destruct (ip =? ip_local_ip s).
  { by rewrite copy_mac, obind_Some by (done || apply (io_mac _ Hs)). }
  destruct (arp_lookup_spec s ip Hs) as (r & -> & Hr). rewrite obind_Some. destruct r as [i|].
  - destruct Hr as (e & He & _ & ->). rewrite He, obind_Some.
    by rewrite copy_mac, obind_Some by (done || by apply (io_entry _ Hs i)).
  - destruct Hr as [_ ->]. unfold ip_arp_send_request. rewrite arp_transmit_spec by done.
    cbv zeta. destruct (call_link _ _ _ w) as [w' rc]. rewrite obind_Some. by destruct (rc =? IP_OK).
Qed.

Lemma request_ok s ip :
  ip_ok s → ip_ok (sent s (ip_next_id s) (arp_frame s ARP_OP_REQUEST (replicate 6 0xFF) ip)).
Proof. intros Hs. apply sent_ok; [done|apply (io_id _ Hs)|]. rewrite arp_frame_length by done. lia. Qed.

Lemma route_target s dst :
  ip_ok s → ∃ r, ip_route_lookup s dst = Some r ∧ (r.1 = IP_OK → is_Some r.2) ∧
    (r.1 ≠ IP_OK → r = (IP_ERR_NO_ROUTE, None)).
Proof.
  intros Hs. destruct (route_lookup_spec s dst Hs) as (r & E & H). exists r. split; [done|].
  destruct H as [(i & e & _ & ->)|[_ ->]]; [done|]. unfold default_hop. by repeat case_match.
Qed.

(** A datagram whose next hop is known leaves as a good frame; otherwise an ARP
    request leaves, or nothing at all. *)
Lemma ip_send_spec s dst proto data payload w :
  ip_ok s → 0 ≤ proto < 256 → octets payload → (length payload ≤ 1502)%nat →
  (payload = [] ∨ ∃ d, data = Some d ∧ payload = take (length payload) d) →
  match frame_target s dst with
  | Some dmac => ∃ f, good_frame s dmac dst proto payload f ∧
      ip_send call_link (Some s) dst proto data (Z.of_nat (length payload)) w =
        (let '(w', rc) := call_link (ip_link_tx s) (ip_link_ctx s) f w in
         Some (w', Some (sent s (u16 (ip_next_id s + 1)) f), rc))
  | None =>
      ip_send call_link (Some s) dst proto data (Z.of_nat (length payload)) w =
        Some (w, Some s, IP_ERR_NO_ROUTE) ∨
      ∃ hop f w' rc rc', ip_route_lookup s dst = Some (IP_OK, Some hop) ∧
        f = arp_frame s ARP_OP_REQUEST (replicate 6 0xFF) hop ∧
        call_link (ip_link_tx s) (ip_link_ctx s) f w = (w', rc) ∧
        ip_send call_link (Some s) dst proto data (Z.of_nat (length payload)) w =
          Some (w', Some (sent s (ip_next_id s) f), rc')
  end.
Proof.
  intros Hs Hp Ho Hl Hd. unfold frame_target, ip_send. rewrite (io_init _ Hs). cbn [negb].
  assert (negb (bool_decide (is_Some data)) && nz (Z.of_nat (length payload)) = false) as ->.
  { destruct Hd as [->|(d & -> & _)]; [by rewrite andb_false_r|done]. }
  change (IP_FRAME_MAX - ETH_HDR_LEN - IP_HEADER_LEN) with 1502. rewrite (proj2 (Z.ltb_ge _ _)) by lia.
  destruct (dst =? IP_BROADCAST); [by apply send_frame_spec|].
  destruct (route_target s dst Hs) as ([rc hop] & -> & Hok & Hno). cbn [fst snd] in *. rewrite !obind_Some.
  destruct (Z.eqb_spec rc IP_OK) as [->|Hrc]; cbn [negb]; [|injection (Hno Hrc) as -> ->; by left].
  destruct Hok as [h ->]; [done|]. rewrite !obind_Some, arp_resolve_spec by done.
  destruct (resolve s h) as [m|] eqn:Er.
  - rewrite obind_Some. change (IP_OK =? IP_ERR_PENDING) with false. change (IP_OK =? IP_OK) with true. cbn [negb].
    rewrite !obind_Some. apply send_frame_spec; try done. by eapply resolve_length.
  - right. cbv zeta. destruct (call_link _ _ _ w) as [w' rc] eqn:Ec. rewrite obind_Some.
    exists h. eexists. exists w', rc, (if rc =? IP_OK then IP_ERR_PENDING else IP_ERR_NO_ROUTE). split; [done|]. split; [done|]. split; [exact Ec|].
    destruct (rc =? IP_OK); [done|]. done.
Qed.

Lemma good_frame_length s dmac dst proto payload f :
  ip_ok s → length dmac = 6%nat → good_frame s dmac dst proto payload f → length f = (34 + length payload)%nat.
Proof.
  intros Hs Hd (csum & _ & -> & _). unfold ip_frame, eth_header. rewrite !length_app, Hd, (io_mac _ Hs).
  rewrite ip_header_length. simpl. lia.
Qed.

Lemma frame_target_length s dst m : ip_ok s → frame_target s dst = Some m → length m = 6%nat.
Proof.
  intros Hs. unfold frame_target. case_match; [by intros [= <-]|].
  intros E. apply bind_Some in E as ([rc hop] & _ & E). apply bind_Some in E as (h & _ & E). by eapply resolve_length.
Qed.

Lemma ip_send_ok s dst proto data payload w :
  ip_ok s → 0 ≤ proto < 256 → octets payload → (length payload ≤ 1502)%nat →
  (payload = [] ∨ ∃ d, data = Some d ∧ payload = take (length payload) d) →
  ∃ w' s' rc, ip_send call_link (Some s) dst proto data (Z.of_nat (length payload)) w = Some (w', Some s', rc) ∧
    ip_ok s' ∧ ip_arp_cache s' = ip_arp_cache s.
Proof.
  intros Hs Hp Ho Hl Hd. pose proof (ip_send_spec s dst proto data payload w Hs Hp Ho Hl Hd) as H.
  destruct (frame_target s dst) as [m|] eqn:Et.
  - destruct H as (f & Hf & ->). destruct (call_link _ _ f w) as [w' rc]. do 3 eexists. split; [done|].
    pose proof (frame_target_length _ _ _ Hs Et) as Hm.
    split; [|done]. apply sent_ok; [done|apply u16_range|].
    rewrite (good_frame_length _ _ _ _ _ _ Hs Hm Hf). lia.
  - destruct H as [->|(hop & f & w' & rc & rc' & _ & -> & _ & ->)]; do 3 eexists; (split; [done|]).
    + done.
    + split; [by apply request_ok|done].
Qed.

(** ** Receiving *)

(** What the stack hands to the transport layer for a datagram. *)
Definition deliver (s : ipstack_t) (proto src dst : Z) (p : list Z) (w : W) : W * Z :=
  let n := Z.of_nat (length p) in
  if proto =? IP_PROTO_ICMP then
    if n <? 8 then (w, IP_ERR_BAD_PACKET)
    else if ip_icmp_cb s =? 0 then (w, IP_OK)
    else (call_icmp (ip_icmp_cb s) (ip_dispatch_ctx s) src (nth 0 p 0) (nth 1 p 0) (drop 8 p) w, IP_OK)
  else if proto =? IP_PROTO_TCP then
    if n <? 20 then (w, IP_ERR_BAD_PACKET)
    else if ip_tcp_cb s =? 0 then (w, IP_OK)
    else (call_tcp (ip_tcp_cb s) (ip_dispatch_ctx s) src (port_of p 0) dst (port_of p 2) p w, IP_OK)
  else if proto =? IP_PROTO_UDP then
    if n <? 8 then (w, IP_ERR_BAD_PACKET)
    else if ip_udp_cb s =? 0 then (w, IP_OK)
    else (call_udp (ip_udp_cb s) (ip_dispatch_ctx s) src (port_of p 0) dst (port_of p 2) (drop 8 p) w, IP_OK)
  else (w, IP_ERR_DROP).

Lemma dispatch_spec s proto src dst h p rest w hdr :
  octets p → hdr = Z.of_nat (length h) →
  ip_dispatch call_icmp call_tcp call_udp s proto src dst (h ++ p ++ rest) hdr (Z.of_nat (length p)) w =
    Some (deliver s proto src dst p w).
Proof.
  intros Ho ->. unfold ip_dispatch, deliver, nz. cbv zeta.
  assert (∀ j, (j < length p)%nat → aget (h ++ p ++ rest) (Z.of_nat (length h + j)) = Some (nth j p 0)) as Ha.
  { intros j Hj. rewrite aget_of_nat, lookup_app_r by lia. rewrite lookup_app_l by lia.
    replace (length h + j - length h)%nat with j by lia. by apply lookup_nth. }
  destruct (proto =? IP_PROTO_ICMP).
  { destruct (Z.ltb_spec (Z.of_nat (length p)) 8); [done|]. destruct (ip_icmp_cb s =? 0); cbn [negb]; [done|].
    pose proof (Ha 0%nat) as H0. rewrite Nat.add_0_r in H0. rewrite H0, obind_Some by lia.
    replace (Z.of_nat (length h) + 1) with (Z.of_nat (length h + 1)) by lia. rewrite Ha, obind_Some by lia.
    by rewrite (slice_payload h p rest 8), obind_Some by lia. }
  destruct (proto =? IP_PROTO_TCP).
  { destruct (Z.ltb_spec (Z.of_nat (length p)) 20); [done|]. destruct (ip_tcp_cb s =? 0); cbn [negb]; [done|].
    rewrite (port_at_spec h p rest 0 (Z.of_nat (length h))), obind_Some by (done || lia).
    rewrite (port_at_spec h p rest 2 (Z.of_nat (length h) + 2)), obind_Some by (done || lia).
    by rewrite (slice_payload h p rest 0), obind_Some by lia. }
  destruct (proto =? IP_PROTO_UDP); [|done].
  destruct (Z.ltb_spec (Z.of_nat (length p)) 8); [done|]. destruct (ip_udp_cb s =? 0); cbn [negb]; [done|].
  rewrite (port_at_spec h p rest 0 (Z.of_nat (length h))), obind_Some by (done || lia).
  rewrite (port_at_spec h p rest 2 (Z.of_nat (length h) + 2)), obind_Some by (done || lia).
  by rewrite (slice_payload h p rest 8), obind_Some by lia.
Qed.
End recv.

(** Reads of adjacent fields. *)
Lemma get_le_at n p r off v :
  off = Z.of_nat (length p) → 0 ≤ v < 256 ^ Z.of_nat n →
  get_field n (p ++ le_bytes n v ++ r) off = Some v.
Proof. apply get_field_at. Qed.

Section receive.
Context {W : Type} (call_link : Z → Z → list Z → W → W * Z).
Context (call_arp : Z → Z → Z → list Z → W → W).
Context (call_icmp : Z → Z → Z → Z → Z → list Z → W → W).
Context (call_tcp call_udp : Z → Z → Z → Z → Z → Z → list Z → W → W).
#[local] Notation handle_ip := (ip_handle_ip call_icmp call_tcp call_udp).
#[local] Notation handle_arp := (ip_handle_arp call_link call_arp).
#[local] Notation recv := (ip_recv call_link call_arp call_icmp call_tcp call_udp).
#[local] Notation deliver := (deliver call_icmp call_tcp call_udp).

(** ** Datagrams *)

Lemma handle_ip_good r id proto csum src dst payload pad w :
  let total := 20 + Z.of_nat (length payload) in
  let h := ip_header total id proto csum src dst in
  total < 65536 → 0 ≤ proto < 256 → is_u32 src → is_u32 dst → octets payload →
  (∀ rest, ip_checksum (h ++ rest) IP_HEADER_LEN = Some 0) →
  dst = ip_local_ip r ∨ dst = IP_BROADCAST →
  handle_ip r (h ++ payload ++ pad) (Z.of_nat (length (h ++ payload ++ pad))) w =
    Some (deliver r proto src dst payload w).
Proof.
  intros total h Ht Hp Hsrc Hdst Ho Hck Hd. unfold ip_handle_ip. rewrite !length_app.
  change (length h) with 20%nat. set (b := h ++ payload ++ pad).
  assert (get_field 1 b 0 = Some 69) as -> by exact (get_byte_at [] _ 0 69 eq_refl).
  assert (get_field 2 b 2 = Some (ow_bswap16 total)) as ->.
  { apply (get_be16 [69; 0] (be_bytes 2 id ++ [0; 0; 64; proto] ++ be_bytes 2 csum ++
      le_bytes 4 src ++ le_bytes 4 dst ++ payload ++ pad) 2 total eq_refl). unfold is_u16. lia. }
  assert (get_field 2 b 6 = Some 0) as ->.
  { apply (get_le_at 2 ([69; 0] ++ be_bytes 2 total ++ be_bytes 2 id) ([64; proto] ++ be_bytes 2 csum ++
      le_bytes 4 src ++ le_bytes 4 dst ++ payload ++ pad) 6 0 eq_refl). lia. }
  assert (get_field 4 b 12 = Some src) as ->.
  { exact (get_le_at 4 ([69; 0] ++ be_bytes 2 total ++ be_bytes 2 id ++ [0; 0; 64; proto] ++ be_bytes 2 csum)
      (le_bytes 4 dst ++ payload ++ pad) 12 src eq_refl Hsrc). }
  assert (get_field 4 b 16 = Some dst) as ->.
  { exact (get_le_at 4 ([69; 0] ++ be_bytes 2 total ++ be_bytes 2 id ++ [0; 0; 64; proto] ++ be_bytes 2 csum ++
      le_bytes 4 src) (payload ++ pad) 16 dst eq_refl Hdst). }
  assert (get_field 1 b 9 = Some proto) as ->.
  { exact (get_byte_at ([69; 0] ++ be_bytes 2 total ++ be_bytes 2 id ++ [0; 0; 64]) (be_bytes 2 csum ++
      le_bytes 4 src ++ le_bytes 4 dst ++ payload ++ pad) 9 proto eq_refl). }
  rewrite !obind_Some, bswap16_invol by lia. change (Z.land 69 15 * 4) with 20. change IP_HEADER_LEN with 20 in *.
  rewrite (proj2 (Z.ltb_ge _ 20)) by lia. change (negb (Z.shiftr 69 4 =? IP_VERSION)) with false.
  change (Z.land 69 15 <? 5) with false. cbv iota.
  assert ((total <? 20) || (Z.of_nat (20 + (length payload + length pad)) <? total) = false) as ->.
  { apply orb_false_iff. split; apply Z.ltb_ge; subst total; lia. }
  change (nz (Z.land (ow_bswap16 0) 8191)) with false. cbv iota. subst b. rewrite Hck, obind_Some.
  change (nz 0) with false. cbv iota.
  assert (negb (dst =? ip_local_ip r) && negb (dst =? IP_BROADCAST) = false) as ->.
  { destruct Hd as [->| ->]; rewrite Z.eqb_refl; [done|by rewrite andb_false_r]. }
  replace (u32 (total - 20)) with (Z.of_nat (length payload)) by (rewrite u32_small; subst total; lia).
  by apply dispatch_spec.
Qed.

Lemma handle_ip_total r b len w :
  octets b → 0 ≤ len ≤ Z.of_nat (length b) → ∃ w' rc, handle_ip r b len w = Some (w', rc).
Proof.
  intros Ho Hl. unfold ip_handle_ip. change IP_HEADER_LEN with 20.
  destruct (Z.ltb_spec len 20); [by eauto|].
  destruct (get_field_some 1 b 0) as (v & -> & Hv); [done|lia|simpl; lia|]. rewrite obind_Some.
  destruct (negb _); [by eauto|]. change 15 with (Z.ones 4). rewrite Z.land_ones by lia.
  destruct (Z.ltb_spec (v mod 2 ^ 4) 5); [by eauto|]. cbv zeta. set (hl := v mod 2 ^ 4 * 4).
  assert (20 ≤ hl ≤ 60) as Hhl by (subst hl; pose proof (Z.mod_pos_bound v (2 ^ 4)); lia).
  destruct (Z.ltb_spec len hl); [by eauto|].
  destruct (get_field_some 2 b 2) as (t & -> & Ht); [done|lia|lia|]. rewrite obind_Some.
  destruct (_ || _) eqn:Eb; [by eauto|]. zbool.
  destruct (get_field_some 2 b 6) as (fr & -> & _); [done|lia|lia|]. rewrite obind_Some.
  destruct (nz _); [by eauto|].
  assert (ip_checksum b hl = Some (65535 - fold16 (wsum (take (Z.to_nat hl) b)))) as ->.
  { replace hl with (2 * Z.of_nat (Z.to_nat (v mod 2 ^ 4 * 2))) by (subst hl; lia).
    rewrite ip_checksum_even by (done || lia). do 4 f_equal. f_equal. lia. }
  rewrite obind_Some. destruct (nz _); [by eauto|].
  destruct (get_field_some 4 b 12) as (src & -> & _); [done|lia|lia|].
  destruct (get_field_some 4 b 16) as (dst & -> & _); [done|lia|lia|].
  destruct (get_field_some 1 b 9) as (proto & -> & _); [done|lia|lia|]. rewrite !obind_Some.
  destruct (negb _ && _); [by eauto|].
  pose proof (bswap16_range t Ht) as Hbt. rewrite u32_small by lia.
  set (n := ow_bswap16 t - hl) in *. set (h := take (Z.to_nat hl) b). set (p := take (Z.to_nat n) (drop (Z.to_nat hl) b)).
  assert (b = h ++ p ++ drop (Z.to_nat n) (drop (Z.to_nat hl) b)) as Eb' by (subst h p; by rewrite !take_drop).
  rewrite Eb'. replace n with (Z.of_nat (length p)) by (subst p; rewrite length_take, length_drop; lia).
  rewrite dispatch_spec; [|by apply Forall_take, Forall_drop|subst h; rewrite length_take; lia].
  destruct (deliver _ _ _ _ _ _). eauto.
Qed.

(** ** ARP packets *)

Lemma handle_arp_packet s oper sha spa tha tpa pad w :
  let b := arp_packet oper sha spa tha tpa ++ pad in
  is_u16 oper → length sha = 6%nat → length tha = 6%nat → is_u32 spa → is_u32 tpa →
  handle_arp s b (Z.of_nat (length b)) w =
    (s ← ip_arp_store s spa sha;
     if oper =? ARP_OP_REQUEST then
       if negb (tpa =? ip_local_ip s) then Some (w, s, IP_ERR_DROP)
       else ip_arp_send_reply call_link s spa sha w
     else if oper =? ARP_OP_REPLY then
       Some (if nz (ip_arp_cb s) then call_arp (ip_arp_cb s) (ip_dispatch_ctx s) spa sha w else w, s, IP_OK)
     else Some (w, s, IP_ERR_DROP)).
Proof.
  intros b Ho Hs Ht Hspa Htpa. unfold ip_handle_arp.
  assert (length b = (28 + length pad)%nat) as Hlen
    by (subst b; unfold arp_packet; rewrite !length_app, Hs, Ht; done).
  rewrite Hlen. change sizeof_arp with 28. rewrite (proj2 (Z.ltb_ge _ _)) by lia.
  assert (get_field 2 b 0 = Some (ow_bswap16 1)) as -> by
    exact (get_be16 [] ([8; 0; 6; 4] ++ be_bytes 2 oper ++ (sha ++ le_bytes 4 spa ++ tha ++ le_bytes 4 tpa) ++ pad)
      0 1 eq_refl ltac:(unfold is_u16; lia)).
  assert (get_field 2 b 2 = Some (ow_bswap16 ETH_TYPE_IP)) as -> by
    exact (get_be16 [0; 1] ([6; 4] ++ be_bytes 2 oper ++ (sha ++ le_bytes 4 spa ++ tha ++ le_bytes 4 tpa) ++ pad)
      2 ETH_TYPE_IP eq_refl ltac:(unfold is_u16, ETH_TYPE_IP; lia)).
  assert (get_field 1 b 4 = Some 6) as -> by exact (get_byte_at [0; 1; 8; 0] _ 4 6 eq_refl).
  assert (get_field 1 b 5 = Some 4) as -> by exact (get_byte_at [0; 1; 8; 0; 6] _ 5 4 eq_refl).
  assert (get_field 2 b 6 = Some (ow_bswap16 oper)) as -> by
    exact (get_be16 [0; 1; 8; 0; 6; 4] ((sha ++ le_bytes 4 spa ++ tha ++ le_bytes 4 tpa) ++ pad) 6 oper eq_refl Ho).
  set (p8 := [0; 1; 8; 0; 6; 4] ++ be_bytes 2 oper).
  assert (b = p8 ++ sha ++ le_bytes 4 spa ++ tha ++ le_bytes 4 tpa ++ pad) as Eb
    by (subst b p8; unfold arp_packet; by rewrite <-!app_assoc).
  assert (aslice b 8 6 = Some sha) as ->.
  { rewrite Eb. rewrite (slice_payload p8 sha _ 0) by (rewrite ?Hs; done || lia). by rewrite drop_0. }
  assert (get_field 4 b 14 = Some spa) as ->.
  { rewrite Eb, app_assoc. apply get_le_at; [rewrite length_app, Hs; done|done]. }
  assert (get_field 4 b 24 = Some tpa) as ->.
  { rewrite Eb, !app_assoc. rewrite <-(app_assoc _ (le_bytes 4 tpa)).
    apply get_le_at; [rewrite !length_app, Hs, Ht, le_bytes_length; done|done]. }
  rewrite !obind_Some. change (negb (ow_bswap16 (ow_bswap16 1) =? 1)) with false.
  change (negb (ow_bswap16 (ow_bswap16 ETH_TYPE_IP) =? ETH_TYPE_IP)) with false.
  change (negb (6 =? 6) || negb (4 =? 4)) with false. cbv iota. rewrite bswap16_invol by done. done.
Qed.

(** Every packet, well formed or not. *)
Lemma reply_ok s spa sha w :
  ip_ok s → length sha = 6%nat →
  ∃ w' s' rc, ip_arp_send_reply call_link s spa sha w = Some (w', s', rc) ∧ ip_ok s'.
Proof.
  intros Hs Hm. unfold ip_arp_send_reply. rewrite arp_transmit_spec by done. cbv zeta.
  destruct (call_link _ _ _ w) as [w' rc]. do 3 eexists. split; [done|].
  apply sent_ok; [done|apply (io_id _ Hs)|]. rewrite arp_frame_length by done. lia.
Qed.

Lemma handle_arp_total s b len w :
  ip_ok s → octets b → 0 ≤ len ≤ Z.of_nat (length b) →
  ∃ w' s' rc, handle_arp s b len w = Some (w', s', rc) ∧ ip_ok s'.
Proof.
  intros Hs Ho Hl. unfold ip_handle_arp. change sizeof_arp with 28. destruct (Z.ltb_spec len 28); [by eauto 6|].
  destruct (get_field_some 2 b 0) as (v0 & -> & _); [done|lia|lia|]. rewrite obind_Some.
  destruct (negb _); [by eauto 6|].
  destruct (get_field_some 2 b 2) as (v1 & -> & _); [done|lia|lia|]. rewrite obind_Some.
  destruct (negb _); [by eauto 6|].
  destruct (get_field_some 1 b 4) as (v2 & -> & _); [done|lia|lia|].
  destruct (get_field_some 1 b 5) as (v3 & -> & _); [done|lia|lia|]. rewrite !obind_Some.
  destruct (_ || _); [by eauto 6|]. rewrite aslice_in, obind_Some by lia.
  set (sha := take _ _). assert (length sha = 6%nat) as Hm by (subst sha; rewrite length_take, length_drop; lia).
  destruct (get_field_some 4 b 14) as (spa & -> & _); [done|lia|lia|].
  destruct (get_field_some 4 b 24) as (tpa & -> & _); [done|lia|lia|].
  destruct (get_field_some 2 b 6) as (oper & -> & _); [done|lia|lia|]. rewrite !obind_Some.
  destruct (arp_store_spec s spa sha Hs Hm) as (es & -> & Hok & _). rewrite obind_Some.
  destruct (_ =? ARP_OP_REQUEST); [|destruct (_ =? ARP_OP_REPLY); by eauto 6].
  destruct (negb _); [by eauto 6|]. by apply reply_ok.
Qed.

Lemma recv_total s f len w :
  ip_ok s → octets f → 0 ≤ len ≤ Z.of_nat (length f) →
  ∃ w' s' rc, recv (Some s) (Some f) len w = Some (w', Some s', rc) ∧ ip_ok s'.
Proof.
  intros Hs Ho Hl. unfold ip_recv. rewrite (io_init _ Hs). cbn [negb]. change ETH_HDR_LEN with 14.
  change (Z.to_nat 14) with 14%nat. destruct (Z.ltb_spec len 14); [by eauto 6|].
  pose proof (port_at_spec [] f [] 12 12 Ho) as E. rewrite app_nil_r in E. cbn [app] in E.
  rewrite E, obind_Some by (simpl; lia).
  destruct (_ =? ETH_TYPE_ARP).
  { destruct (handle_arp_total s (drop 14 f) (len - 14) w Hs) as (w' & s' & rc & -> & Hs');
      [by apply Forall_drop|rewrite length_drop; lia|]. rewrite obind_Some. eauto 6. }
  destruct (_ =? ETH_TYPE_IP); [|by eauto 6].
  destruct (handle_ip_total s (drop 14 f) (len - 14) w) as (w' & rc & ->);
    [by apply Forall_drop|rewrite length_drop; lia|]. rewrite obind_Some. eauto 6.
Qed.

(** The type field steers a frame to its handler. *)
Lemma recv_typed s dmac smac type body w :
  ip_ok s → length dmac = 6%nat → length smac = 6%nat → is_u16 type →
  recv (Some s) (Some (eth_header dmac smac type ++ body)) (14 + Z.of_nat (length body)) w =
    if type =? ETH_TYPE_ARP then
      '(w, s, rc) ← handle_arp s body (Z.of_nat (length body)) w; Some (w, Some s, rc)
    else if type =? ETH_TYPE_IP then
      '(w, rc) ← handle_ip s body (Z.of_nat (length body)) w; Some (w, Some s, rc)
    else Some (w, Some s, IP_ERR_DROP).
Proof.
  intros Hs Hd Hsm Ht. unfold ip_recv. rewrite (io_init _ Hs). cbn [negb]. change ETH_HDR_LEN with 14.
  rewrite (proj2 (Z.ltb_ge _ _)) by lia. unfold eth_header.
  rewrite (app_assoc dmac), <-(app_assoc (dmac ++ smac)).
  rewrite (port_at_spec (dmac ++ smac) (be_bytes 2 type) body 0 12), obind_Some;
    [|apply be_bytes_octets|simpl; lia|rewrite length_app; lia].
  assert (port_of (be_bytes 2 type) 0 = type) as ->.
  { change (be_bytes 2 type) with [type / 256 mod 256; type mod 256]. unfold port_of, is_u16 in *. simpl. zdm. }
  change (Z.to_nat 14) with 14%nat. rewrite (app_assoc (dmac ++ smac)).
  rewrite (drop_app_length' ((dmac ++ smac) ++ be_bytes 2 type)) by (rewrite !length_app, Hd, Hsm; done).
  by replace (14 + Z.of_nat (length body) - 14) with (Z.of_nat (length body)) by lia.
Qed.
End receive.
