(* ===== verification/IpClaims.v ===== *)
(** The contract of the IP stack: safety of every sequence of calls, delivery of
    what another stack sent, address resolution between two stacks, and the
    routing decision. *)
From S2P Require Import Prelude Tcpcore TcpSeg TcpOps Ipstack IpFrame IpSpec IpInput.

(** ** Sequences of calls *)
Inductive ip_op :=
  | IpSend (dst proto : Z) (payload : list Z)
  | IpRecv (frame : list Z) (len : Z)
  | IpResolve (ip : Z)
  | IpSetAddress (ip netmask gateway : Z)
  | IpAddRoute (dest mask gateway : Z)
  | IpSetCallbacks (icmp tcp udp arp ctx : Z).

Definition ip_op_ok (op : ip_op) : Prop :=
  match op with
  | IpSend _ proto payload => 0 ≤ proto < 256 ∧ octets payload
  | IpRecv frame len => octets frame ∧ 0 ≤ len ≤ Z.of_nat (length frame)
  | _ => True
  end.

Section runs.
Context {W : Type} (call_link : Z → Z → list Z → W → W * Z).
Context (call_arp : Z → Z → Z → list Z → W → W).
Context (call_icmp : Z → Z → Z → Z → Z → list Z → W → W).
Context (call_tcp call_udp : Z → Z → Z → Z → Z → Z → list Z → W → W).
#[local] Notation recv := (ip_recv call_link call_arp call_icmp call_tcp call_udp).

Definition ip_exec (op : ip_op) (x : W * ipstack_t) : option (W * ipstack_t) :=
  let '(w, s) := x in
  match op with
  | IpSend dst proto payload =>
      '(w, s, _) ← ip_send call_link (Some s) dst proto (Some payload) (Z.of_nat (length payload)) w;
      s ← s; Some (w, s)
  | IpRecv frame len => '(w, s, _) ← recv (Some s) (Some frame) len w; s ← s; Some (w, s)
  | IpResolve ip =>
      '(w, s, _, _) ← ip_arp_resolve call_link (Some s) ip (Some (replicate 6 0)) w; s ← s; Some (w, s)
  | IpSetAddress ip netmask gateway => s ← (ip_set_address (Some s) ip netmask gateway).1; Some (w, s)
  | IpAddRoute dest mask gateway => '(s, _) ← ip_add_route (Some s) dest mask gateway; s ← s; Some (w, s)
  | IpSetCallbacks icmp tcp udp arp ctx => s ← ip_set_callbacks (Some s) icmp tcp udp arp ctx; Some (w, s)
  end.

Lemma add_route_spec s dest mask gateway :
  ip_ok s → ∃ s' rc, ip_add_route (Some s) dest mask gateway = Some (Some s', rc) ∧ ip_ok s'.
Proof.
  intros Hs. unfold ip_add_route.
  assert (∀ i e, 0 ≤ i < 8 → ip_ok (s <| ip_routes := <[Z.to_nat i := e]> (ip_routes s) |>)) as Hput.
  { intros i e Hi. destruct Hs as [H1 H2 H3 H4 H5 H6 H7 H8 H9]. constructor; try done. simpl. by rewrite length_insert. }
  pose proof (io_routes _ Hs) as Hr. change (Z.to_nat IP_ROUTE_MAX) with 8%nat.
  destruct (find_up_spec 8 0 (ip_routes s) (λ e, rt_used e && (rt_dest e =? Z.land dest mask) && (rt_mask e =? mask)))
    as (r & -> & H); [lia|lia|]. rewrite obind_Some. destruct r as [i|].
  - destruct H as (Hi & (e & He & _) & _). rewrite He, obind_Some, aset_in, obind_Some by lia. eauto.
  - destruct (find_up_spec 8 0 (ip_routes s) (λ e, negb (rt_used e))) as (r & -> & H2); [lia|lia|].
    rewrite obind_Some. destruct r as [i|]; [|by eauto]. destruct H2 as (Hi & _ & _).
    rewrite aset_in, obind_Some by lia. eauto.
Qed.

Lemma ip_exec_spec op w s :
  ip_ok s → ip_op_ok op → ∃ w' s', ip_exec op (w, s) = Some (w', s') ∧ ip_ok s'.
Proof.
  intros Hs Hop. destruct op as [dst proto payload|frame len|ip|ip nm gw|dest mask gw|icmp tcp udp arp ctx];
    cbn [ip_exec ip_op_ok] in *.
  - destruct Hop as [Hp Ho]. destruct (decide (length payload ≤ 1502)%nat).
    + destruct (ip_send_ok call_link s dst proto (Some payload) payload w) as (w' & s' & rc & -> & Hs' & _);
        [done..|right; eexists; split; [done|]; by rewrite firstn_all|]. by do 2 eexists.
    + unfold ip_send. rewrite (io_init _ Hs). cbn [negb andb bool_decide].
      change (IP_FRAME_MAX - ETH_HDR_LEN - IP_HEADER_LEN) with 1502. rewrite bool_decide_eq_true_2 by done.
      cbn [negb andb]. rewrite (proj2 (Z.ltb_lt _ _)) by lia. by do 2 eexists.
  - destruct Hop as [Ho Hl]. destruct (recv_total call_link call_arp call_icmp call_tcp call_udp s frame len w)
      as (w' & s' & rc & -> & Hs'); [done..|]. by do 2 eexists.
  - rewrite arp_resolve_spec by done. destruct (resolve s ip); [by do 2 eexists|].
    cbv zeta. destruct (call_link _ _ _ w) as [w' rc]. do 2 eexists. split; [done|]. by apply request_ok.
  - do 2 eexists. split; [done|]. by destruct Hs.
  - destruct (add_route_spec s dest mask gw Hs) as (s' & rc & -> & Hs'). by do 2 eexists.
  - do 2 eexists. split; [done|]. by destruct Hs.
Qed.

Fixpoint ip_run (ops : list ip_op) (x : W * ipstack_t) : option (W * ipstack_t) :=
  match ops with [] => Some x | op :: ops => x ← ip_exec op x; ip_run ops x end.

Lemma ip_run_spec ops w s :
  ip_ok s → Forall ip_op_ok ops → ∃ w' s', ip_run ops (w, s) = Some (w', s') ∧ ip_ok s'.
Proof.
  intros Hs Hops. revert w s Hs. induction Hops as [|op ops Hop _ IH]; intros w s Hs; [by eauto|].
  cbn [ip_run]. destruct (ip_exec_spec op w s Hs Hop) as (w1 & s1 & -> & Hs1). by apply IH.
Qed.
End runs.

Lemma ip_init_spec s0 cfg fn ctx :
  fn ≠ 0 → length (cfg_mac cfg) = 6%nat →
  ∃ s, ip_init (Some s0) (Some cfg) fn ctx = Some (Some s, IP_OK) ∧ ip_ok s ∧
    ip_local_ip s = cfg_ip cfg ∧ ip_local_mac s = cfg_mac cfg.
Proof.
  intros Hfn Hm. unfold ip_init. rewrite (proj2 (Z.eqb_neq _ _)) by done.
  rewrite copy_mac, obind_Some by done. eexists. split; [done|]. split; [|done].
  constructor; try done.
  - intros i e He. apply aget_Some in He as [_ He]. change (ip_arp_cache _) with (replicate 16 zero_arp) in He.
    by apply lookup_replicate in He as [-> _].
  - intros i j e e' He _ Hv. apply aget_Some in He as [_ He]. change (ip_arp_cache _) with (replicate 16 zero_arp) in He.
    by apply lookup_replicate in He as [-> _].
Qed.

(** A sent datagram, seen by the stack it is addressed to. *)
Lemma send_delivered {W} (call_link : Z → Z → list Z → W → W * Z) call_arp call_icmp call_tcp call_udp
    s r dst proto payload dmac w :
  ip_ok s → ip_ok r → is_u32 (ip_local_ip s) → is_u32 dst → 0 ≤ proto < 256 → octets payload →
  (length payload ≤ 1502)%nat → frame_target s dst = Some dmac → dst = ip_local_ip r ∨ dst = IP_BROADCAST →
  ∃ f s', ip_send call_link (Some s) dst proto (Some payload) (Z.of_nat (length payload)) w =
      (let '(w', rc) := call_link (ip_link_tx s) (ip_link_ctx s) f w in Some (w', Some s', rc)) ∧
    ∀ pad w2, ip_recv call_link call_arp call_icmp call_tcp call_udp (Some r) (Some (f ++ pad))
        (Z.of_nat (length (f ++ pad))) w2 =
      (let '(w3, rc) := deliver call_icmp call_tcp call_udp r proto (ip_local_ip s) dst payload w2 in
       Some (w3, Some r, rc)).
Proof.
  intros Hs Hr Hsrc Hdst Hp Ho Hl Ht Hd.
  pose proof (ip_send_spec call_link s dst proto (Some payload) payload w Hs Hp Ho Hl
    ltac:(right; eexists; split; [done|]; by rewrite firstn_all)) as H.
  rewrite Ht in H. destruct H as (f & (csum & Hc & -> & Hck) & E). eexists _, _. split; [exact E|].
  intros pad w2. unfold ip_frame. rewrite <-!app_assoc. set (body := ip_header _ _ _ _ _ _ ++ payload ++ pad).
  pose proof (frame_target_length _ _ _ Hs Ht) as Hm.
  assert (length (eth_header dmac (ip_local_mac s) ETH_TYPE_IP) = 14%nat) as He
    by (unfold eth_header; rewrite !length_app, Hm, (io_mac _ Hs); done).
  rewrite length_app, He. replace (Z.of_nat (14 + length body)) with (14 + Z.of_nat (length body)) by lia.
  rewrite recv_typed by (done || apply (io_mac _ Hs)).
  change (ETH_TYPE_IP =? ETH_TYPE_ARP) with false. change (ETH_TYPE_IP =? ETH_TYPE_IP) with true. cbv iota.
  subst body. rewrite handle_ip_good; [|lia|done|done|done|done|exact Hck|done].
  by destruct (deliver _ _ _ _ _ _ _ _ _) as [w3 rc].
Qed.

(** ** Claims *)

(** [C15] Safety of the IP stack: after a successful [ip_init], every sequence of
    calls (sending datagrams of any size, receiving frames with arbitrary bytes,
    resolving addresses, changing addresses, routes and callbacks) returns
    without leaving an array, whatever the link below answers, and the stack
    stays well formed; in particular the ARP cache never holds two entries for
    one address. *)
Theorem ip_runs_safe {W} (call_link : Z → Z → list Z → W → W * Z) call_arp call_icmp call_tcp call_udp
    s0 cfg fn ctx ops w :
  fn ≠ 0 → length (cfg_mac cfg) = 6%nat → Forall ip_op_ok ops →
  ∃ s w' s', ip_init (Some s0) (Some cfg) fn ctx = Some (Some s, IP_OK) ∧
    ip_run call_link call_arp call_icmp call_tcp call_udp ops (w, s) = Some (w', s') ∧ ip_ok s'.
Proof.
  intros Hfn Hm Hops. destruct (ip_init_spec s0 cfg fn ctx Hfn Hm) as (s & E & Hs & _).
  destruct (ip_run_spec call_link call_arp call_icmp call_tcp call_udp ops w s Hs Hops) as (w' & s' & E' & Hs').
  by exists s, w', s'.
Qed.

(** [C4] Delivery over IP: a datagram whose next hop is resolved leaves as one
    frame, and any stack that owns the destination address (or, for a broadcast,
    any stack) hands exactly the sender's address, the destination, the ports
    and the payload of that datagram to the callback of its protocol, also when
    the link padded the frame. *)
Theorem ip_send_delivers {W} (call_link : Z → Z → list Z → W → W * Z) call_arp call_icmp call_tcp call_udp
    s r dst proto payload dmac w :
  ip_ok s → ip_ok r → is_u32 (ip_local_ip s) → is_u32 dst → 0 ≤ proto < 256 → octets payload →
  (length payload ≤ 1502)%nat → frame_target s dst = Some dmac → dst = ip_local_ip r ∨ dst = IP_BROADCAST →
  ∃ f s', ip_send call_link (Some s) dst proto (Some payload) (Z.of_nat (length payload)) w =
      (let '(w', rc) := call_link (ip_link_tx s) (ip_link_ctx s) f w in Some (w', Some s', rc)) ∧
    ∀ pad w2, ip_recv call_link call_arp call_icmp call_tcp call_udp (Some r) (Some (f ++ pad))
        (Z.of_nat (length (f ++ pad))) w2 =
      (let '(w3, rc) := deliver call_icmp call_tcp call_udp r proto (ip_local_ip s) dst payload w2 in
       Some (w3, Some r, rc)).
Proof. apply send_delivered. Qed.

(** [C27] Address resolution: when stack [a] does not know the hardware address
    of stack [b] on the same link, [ip_arp_resolve] sends a request and reports
    it pending; [b], given that request, learns [a] and answers; and [a], given
    the answer, resolves [b]'s address to [b]'s hardware address from then on.
    Neither forgets another address unless its cache is full. *)
Theorem ip_arp_handshake {W} (call_link : Z → Z → list Z → W → W * Z) call_arp call_icmp call_tcp call_udp a b :
  ip_ok a → ip_ok b → is_u32 (ip_local_ip a) → is_u32 (ip_local_ip b) → ip_local_ip a ≠ ip_local_ip b →
  arp_get (ip_arp_cache a) (ip_local_ip b) = None →
  ∃ req a1 rep b1 a2,
    (∀ w out, length out = 6%nat → ip_arp_resolve call_link (Some a) (ip_local_ip b) (Some out) w =
       (let '(w', rc) := call_link (ip_link_tx a) (ip_link_ctx a) req w in
        Some (w', Some a1, Some out, if rc =? IP_OK then IP_ERR_PENDING else IP_ERR_NO_ROUTE))) ∧
    (∀ w, ip_recv call_link call_arp call_icmp call_tcp call_udp (Some b) (Some req) (Z.of_nat (length req)) w =
       (let '(w', rc) := call_link (ip_link_tx b) (ip_link_ctx b) rep w in Some (w', Some b1, rc))) ∧
    (∀ w, ∃ w', ip_recv call_link call_arp call_icmp call_tcp call_udp (Some a1) (Some rep)
       (Z.of_nat (length rep)) w = Some (w', Some a2, IP_OK)) ∧
    ip_ok a2 ∧ ip_ok b1 ∧
    resolve a2 (ip_local_ip b) = Some (ip_local_mac b) ∧ resolve b1 (ip_local_ip a) = Some (ip_local_mac a) ∧
    (∀ q, q ≠ ip_local_ip b → arp_get (ip_arp_cache a2) q = arp_get (ip_arp_cache a) q ∨ arp_full a (ip_local_ip b)) ∧
    (∀ q, q ≠ ip_local_ip a → arp_get (ip_arp_cache b1) q = arp_get (ip_arp_cache b) q ∨ arp_full b (ip_local_ip a)).
Proof.
  intros Ha Hb Hua Hub Hne Hno. pose proof (io_mac _ Ha) as Hma. pose proof (io_mac _ Hb) as Hmb.
  set (req := arp_frame a ARP_OP_REQUEST (replicate 6 0xFF) (ip_local_ip b)).
  set (a1 := sent a (ip_next_id a) req).
  assert (ip_ok a1) as Ha1 by (by apply request_ok).
  destruct (arp_store_spec b (ip_local_ip a) (ip_local_mac a) Hb Hma) as (eb & Eb & Hb1 & Hgb & Hkb).
  set (b0 := with_cache b eb) in *. set (rep := arp_frame b0 ARP_OP_REPLY (ip_local_mac a) (ip_local_ip a)).
  set (b1 := sent b0 (ip_next_id b0) rep).
  destruct (arp_store_spec a1 (ip_local_ip b) (ip_local_mac b) Ha1 Hmb) as (ea & Ea & Ha2 & Hga & Hka).
  exists req, a1, rep, b1, (with_cache a1 ea).
  assert (length req = 42%nat) as Hlq by (by apply arp_frame_length).
  assert (length rep = 42%nat) as Hlp by (by apply arp_frame_length).
  split; [|split; [|split; [|split; [done|split]]]].
  - intros w out Hout. rewrite arp_resolve_spec by done. unfold resolve.
    rewrite (proj2 (Z.eqb_neq _ _)), Hno by done. done.
  - intros w. rewrite Hlq. unfold req, arp_frame. change (Z.of_nat 42) with (14 + Z.of_nat 28).
    set (body := arp_packet _ _ _ _ _).
    assert (length body = 28%nat) as Hbody by (subst body; unfold arp_packet; rewrite !length_app, Hma; done).
    replace (14 + Z.of_nat 28) with (14 + Z.of_nat (length body)) by (by rewrite Hbody).
    rewrite recv_typed by (done || lia). change (ETH_TYPE_ARP =? ETH_TYPE_ARP) with true. cbv iota.
    pose proof (handle_arp_packet call_link call_arp b ARP_OP_REQUEST (ip_local_mac a) (ip_local_ip a)
      (replicate 6 0xFF) (ip_local_ip b) [] w) as E. rewrite app_nil_r in E. fold body in E. rewrite E; [|done..].
    rewrite Eb, obind_Some. change (ARP_OP_REQUEST =? ARP_OP_REQUEST) with true. cbv iota.
    change (ip_local_ip (with_cache b eb)) with (ip_local_ip b). rewrite Z.eqb_refl. cbn [negb]. fold b0.
    unfold ip_arp_send_reply. rewrite arp_transmit_spec by done. cbv zeta. fold rep.
    change (ip_link_tx b0) with (ip_link_tx b). change (ip_link_ctx b0) with (ip_link_ctx b).
    by destruct (call_link _ _ rep w) as [w' rc].
  - intros w. rewrite Hlp. unfold rep, arp_frame. change (Z.of_nat 42) with (14 + Z.of_nat 28).
    change (ip_local_mac b0) with (ip_local_mac b). change (ip_local_ip b0) with (ip_local_ip b).
    set (body := arp_packet _ _ _ _ _).
    assert (length body = 28%nat) as Hbody
      by (subst body; unfold arp_packet; rewrite !length_app, Hma, Hmb; done).
    replace (14 + Z.of_nat 28) with (14 + Z.of_nat (length body)) by (by rewrite Hbody).
    rewrite recv_typed by (done || lia). change (ETH_TYPE_ARP =? ETH_TYPE_ARP) with true. cbv iota.
    pose proof (handle_arp_packet call_link call_arp a1 ARP_OP_REPLY (ip_local_mac b) (ip_local_ip b)
      (ip_local_mac a) (ip_local_ip a) [] w) as E. rewrite app_nil_r in E. fold body in E.
    rewrite E; [|done..]. rewrite Ea, obind_Some. eexists. reflexivity.
  - apply sent_ok; [done|apply (io_id _ Hb1)|lia].
  - split; [|split; [|split]].
    + unfold resolve. change (ip_local_ip (with_cache a1 ea)) with (ip_local_ip a).
      by rewrite (proj2 (Z.eqb_neq _ _)) by done.
    + unfold resolve. change (ip_local_ip b1) with (ip_local_ip b). by rewrite (proj2 (Z.eqb_neq _ _)) by done.
    + intros q Hq. destruct (Hka q Hq) as [E|[_ Hf]]; [by left|by right].
    + intros q Hq. destruct (Hkb q Hq) as [E|[_ Hf]]; [by left|by right].
Qed.

(** Routing: [ip_route] takes the first of the matching routes with the
    longest prefix and answers its gateway, or the destination itself for a
    route without one; without a matching route it answers the destination if
    that is on the local subnet, else the default gateway, and reports no route
    only if there is none of these. *)
Theorem ip_route_longest_prefix s dst old :
  ip_ok s →
  (∃ i e, best_route (ip_routes s) dst i e ∧
     ip_route (Some s) dst (Some old) = Some (IP_OK, Some (next_hop dst e))) ∨
  (∀ j e, aget (ip_routes s) j = Some e → route_matches dst e = false) ∧
    ip_route (Some s) dst (Some old) =
      (if nz (ip_netmask s) && (Z.land dst (ip_netmask s) =? Z.land (ip_local_ip s) (ip_netmask s))
       then Some (IP_OK, Some dst)
       else if nz (ip_gateway s) then Some (IP_OK, Some (ip_gateway s)) else Some (IP_ERR_NO_ROUTE, Some old)).
Proof.
  intros Hs. unfold ip_route. rewrite (io_init _ Hs). cbn [negb].
  destruct (route_lookup_spec s dst Hs) as (r & -> & [(i & e & Hb & ->)|[Hn ->]]); [left|right].
  - exists i, e. split; [done|]. by rewrite obind_Some.
  - split; [done|]. unfold default_hop.
    destruct (_ && _); [done|]. by destruct (nz (ip_gateway s)).
Qed.

(** ** Witnesses *)

(** Two hosts 10.0.0.1 and 10.0.0.2 on one link; the world is what happened. *)
Module IpSample.
Inductive event := Frame (f : list Z) | Arp (ip : Z) (mac : list Z) | Up (src sp dst dp : Z) (p : list Z).
Definition world := list event.
Definition on_link (_ _ : Z) (f : list Z) (w : world) : world * Z := (w ++ [Frame f], IP_OK).
Definition on_arp (_ _ ip : Z) (mac : list Z) (w : world) : world := w ++ [Arp ip mac].
Definition on_icmp (_ _ src type code : Z) (p : list Z) (w : world) : world := w ++ [Up src type 0 code p].
Definition on_up (_ _ src sp dst dp : Z) (p : list Z) (w : world) : world := w ++ [Up src sp dst dp p].
Definition ip_a : Z := 0x0100000A.
Definition ip_b : Z := 0x0200000A.
Definition config (ip : Z) (mac : list Z) : ip_config_t := mk_ip_config ip 0x00FFFFFF 0 mac.
Definition host (ip : Z) (mac : list Z) : ipstack_t :=
  default zero_ipstack (r ← ip_init (Some zero_ipstack) (Some (config ip mac)) 1 0;
                        ip_set_callbacks r.1 1 2 3 4 0).
Definition host_a : ipstack_t := host ip_a [2; 0; 0; 0; 0; 1].
Definition host_b : ipstack_t := host ip_b [2; 0; 0; 0; 0; 2].
(** Host A once it knows B. *)
Definition host_a2 : ipstack_t := default zero_ipstack (ip_arp_store host_a ip_b [2; 0; 0; 0; 0; 2]).

Lemma host_ok ip mac : length mac = 6%nat → ip_ok (host ip mac).
Proof.
  intros Hm. destruct (ip_init_spec zero_ipstack (config ip mac) 1 0) as (s & E & Hs & _); [done|done|].
  unfold host. rewrite E, obind_Some. by destruct Hs.
Qed.
Lemma host_a2_ok : ip_ok host_a2.
Proof.
  destruct (arp_store_spec host_a ip_b [2; 0; 0; 0; 0; 2]) as (es & E & Hs & _); [by apply host_ok|done|].
  unfold host_a2. by rewrite E.
Qed.
End IpSample.
Import IpSample.

Lemma ip_runs_safe_witness :
  ∃ s w' s', ip_init (Some zero_ipstack) (Some (config ip_a [2; 0; 0; 0; 0; 1])) 1 0 = Some (Some s, IP_OK) ∧
    ip_run on_link on_arp on_icmp on_up on_up
      [IpAddRoute 0 0 ip_b; IpSend ip_b 17 [0; 7; 0; 9; 0; 8; 0; 0]; IpRecv [1; 2; 3] 3] ([], s) = Some (w', s') ∧
    ip_ok s'.
Proof.
  apply (ip_runs_safe on_link on_arp on_icmp on_up on_up); [done|done|].
  apply Forall_cons_2; [done|]. apply Forall_cons_2; [split; [lia|]; repeat constructor; lia|].
  apply Forall_singleton. split; [repeat constructor; lia|simpl; lia].
Defined.

Lemma ip_send_delivers_witness :
  ∃ f s', ip_send on_link (Some host_a2) ip_b 17 (Some [0; 7; 0; 9; 0; 10; 0; 0; 65; 66]) 10 [] =
      Some ([Frame f], Some s', IP_OK) ∧
    ip_recv on_link on_arp on_icmp on_up on_up (Some host_b) (Some (f ++ [0; 0])) (Z.of_nat (length (f ++ [0; 0]))) [] =
      Some ([Up ip_a 7 ip_b 9 [65; 66]], Some host_b, IP_OK).
Proof.
  destruct (ip_send_delivers on_link on_arp on_icmp on_up on_up host_a2 host_b ip_b 17
    [0; 7; 0; 9; 0; 10; 0; 0; 65; 66] [2; 0; 0; 0; 0; 2] []) as (f & s' & E & Er);
    [apply host_a2_ok|by apply host_ok|done|done|lia|repeat constructor; lia|simpl; lia|
     vm_compute; reflexivity|by left|].
  exists f, s'. split; [exact E|]. rewrite Er. reflexivity.
Defined.

Lemma ip_arp_handshake_witness :
  ∃ a2, ip_ok a2 ∧ resolve a2 ip_b = Some [2; 0; 0; 0; 0; 2].
Proof.
  destruct (ip_arp_handshake on_link on_arp on_icmp on_up on_up host_a host_b)
    as (req & a1 & rep & b1 & a2 & _ & _ & _ & Hok & _ & Hr & _);
    [by apply host_ok|by apply host_ok|done|done|done|vm_compute; reflexivity|].
  exists a2. split; [exact Hok|exact Hr].
Defined.

Lemma ip_route_longest_prefix_witness :
  (∃ i e, best_route (ip_routes host_a) ip_b i e ∧
     ip_route (Some host_a) ip_b (Some 0) = Some (IP_OK, Some (next_hop ip_b e))) ∨
  (∀ j e, aget (ip_routes host_a) j = Some e → route_matches ip_b e = false) ∧
    ip_route (Some host_a) ip_b (Some 0) = Some (IP_OK, Some ip_b).
Proof. exact (ip_route_longest_prefix host_a ip_b 0 (host_ok ip_a [2; 0; 0; 0; 0; 1] eq_refl)). Defined.
