(* ===== verification/Udpcore.v ===== *)
(** The UDP transport core (src/Drivers/udpcore/udpcore.c, udpcore.h): a table
    of bound ports, each with a mailbox for one datagram, or a receive callback
    for all of them.

    The IP layer below is the transmit hook [ip_tx(ctx, dst, proto, datagram,
    len)]; byte order and header fields are those of [Tcpcore], which
    udpcore.c defines again.  The hook and the callback are interpreted by
    section variables on a world [W]. *)
From S2P Require Import Prelude Tcpcore.

(** ** Constants *)
Definition UDP_OK : Z := 0x00000000.
Definition UDP_ERR_PARAM : Z := 0x00000001.
Definition UDP_ERR_NOT_READY : Z := 0x00000002.
Definition UDP_ERR_NO_PORT : Z := 0x00000003.
Definition UDP_ERR_FULL : Z := 0x00000004.
Definition UDP_ERR_NO_SPACE : Z := 0x00000005.
Definition UDP_ERR_BAD_PACKET : Z := 0x00000006.
Definition UDP_ERR_AGAIN : Z := 0x00000007.

Definition UDP_HDR_LEN : Z := 8.
Definition UDP_PROTO : Z := 17.
Definition UDP_ANY_IP : Z := 0x00000000.

Definition UDP_MAX_SOCKETS : Z := 8.
Definition UDP_MAX_PAYLOAD : Z := 1472.

(** ** Data *)
Record udp_socket_t := mk_usock {
  us_used : bool;
  us_has_packet : bool;
  us_local_port : Z;
  us_local_ip : Z;
  us_src_ip : Z;
  us_src_port : Z;
  us_len : Z;
  us_buf : list Z                        (* [UDP_MAX_PAYLOAD] *)
}.
#[export] Instance eta_usock : Eta udp_socket_t := λ s,
  mk_usock (us_used s) (us_has_packet s) (us_local_port s) (us_local_ip s) (us_src_ip s)
    (us_src_port s) (us_len s) (us_buf s).

Record udpcore_t := mk_udpcore {
  uc_local_ip : Z;
  uc_initialized : bool;
  uc_ip_tx : Z;                          (* function pointer, 0 is NULL *)
  uc_ip_ctx : Z;
  uc_recv_cb : Z;
  uc_recv_ctx : Z;
  uc_socks : list udp_socket_t;          (* [UDP_MAX_SOCKETS] *)
  uc_scratch : list Z                    (* [UDP_HDR_LEN + UDP_MAX_PAYLOAD] *)
}.
#[export] Instance eta_udpcore : Eta udpcore_t := λ c,
  mk_udpcore (uc_local_ip c) (uc_initialized c) (uc_ip_tx c) (uc_ip_ctx c) (uc_recv_cb c)
    (uc_recv_ctx c) (uc_socks c) (uc_scratch c).

Definition zero_usock : udp_socket_t :=
  mk_usock false false 0 0 0 0 0 (replicate (Z.to_nat UDP_MAX_PAYLOAD) 0).
Definition zero_udpcore : udpcore_t :=
  mk_udpcore 0 false 0 0 0 0 (replicate (Z.to_nat UDP_MAX_SOCKETS) zero_usock)
    (replicate (Z.to_nat (UDP_HDR_LEN + UDP_MAX_PAYLOAD)) 0).

(** ** Checksum *)

Definition udp_sum_addr (sum addr : Z) : Z :=
  let p := le_bytes 4 addr in
  let b i := nth i p 0 in
  let sum := u32 (sum + be16 (b 0%nat) (b 1%nat)) in
  u32 (sum + be16 (b 2%nat) (b 3%nat)).

Definition udp_checksum (src dst : Z) (seg : list Z) (len : Z) : option Z :=
  let sum := udp_sum_addr 0 src in
  let sum := udp_sum_addr sum dst in
  let sum := u32 (sum + UDP_PROTO) in
  let sum := u32 (sum + len) in
  let words := len / 2 in
  sum ← for_up (Z.to_nat words) 0
          (λ k sum, hi ← aget seg (2 * k); lo ← aget seg (2 * k + 1);
                    Some (u32 (sum + be16 hi lo))) sum;
  sum ← (if 2 * words <? len then
           b ← aget seg (2 * words); Some (u32 (sum + Z.shiftl b 8))
         else Some sum);
  sum ← fold_carries 3 sum;
  Some (u16 (Z.lnot sum)).

Definition udp_checksum_encode (src dst : Z) (seg : list Z) (len : Z) : option Z :=
  c ← udp_checksum src dst seg len;
  Some (if c =? 0 then 0xFFFF else c).

(** ** Socket lookup *)

(** The slot of a socket. *)
Definition udp_socket_at (core : udpcore_t) (sock : Z) : option (option Z) :=
  if (sock <=? 0) || (UDP_MAX_SOCKETS <? sock) then Some None
  else
    s ← aget (uc_socks core) (sock - 1);
    Some (if us_used s then Some (sock - 1) else None).

Definition udp_find_port (core : udpcore_t) (port : Z) : option Z :=
  r ← find_up (Z.to_nat UDP_MAX_SOCKETS) 0 (uc_socks core)
        (λ s, us_used s && (us_local_port s =? port));
  Some (match r with Some i => i + 1 | None => -1 end).

Definition put_sock (core : udpcore_t) (i : Z) (s : udp_socket_t) : option udpcore_t :=
  ss ← aset (uc_socks core) i s; Some (core <| uc_socks := ss |>).

(** ** Operations *)

Definition udp_init (core : ptr udpcore_t) (local_ip ip_tx_fn ip_ctx : Z) : ptr udpcore_t * Z :=
  match core with
  | None => (core, UDP_ERR_PARAM)
  | Some _ =>
      if ip_tx_fn =? 0 then (core, UDP_ERR_PARAM)
      else (Some (zero_udpcore <| uc_local_ip := local_ip |> <| uc_ip_tx := ip_tx_fn |>
                    <| uc_ip_ctx := ip_ctx |> <| uc_initialized := true |>), UDP_OK)
  end.

Definition udp_bind (core : ptr udpcore_t) (local_ip local_port : Z)
    : option (ptr udpcore_t * Z) :=
  match core with
  | None => Some (core, -1)
  | Some k =>
      if negb (uc_initialized k) || (local_port =? 0) then Some (core, -1)
      else
        p ← udp_find_port k local_port;
        if 0 <=? p then Some (core, -1)
        else
          free ← find_up (Z.to_nat UDP_MAX_SOCKETS) 0 (uc_socks k) (λ s, negb (us_used s));
          match free with
          | None => Some (core, -1)
          | Some i =>
              k ← put_sock k i (zero_usock <| us_used := true |> <| us_local_ip := local_ip |>
                                  <| us_local_port := local_port |>);
              Some (Some k, i + 1)
          end
  end.

Definition udp_close (core : ptr udpcore_t) (sock : Z) : option (ptr udpcore_t * Z) :=
  match core with
  | None => Some (core, UDP_ERR_PARAM)
  | Some k =>
      r ← udp_socket_at k sock;
      match r with
      | None => Some (core, UDP_ERR_NO_PORT)
      | Some i => k ← put_sock k i zero_usock; Some (Some k, UDP_OK)
      end
  end.

Definition put_udp_header (buf : list Z) (src_port dst_port len : Z) : option (list Z) :=
  buf ← put_field 2 buf 0 (ow_bswap16 src_port);
  buf ← put_field 2 buf 2 (ow_bswap16 dst_port);
  buf ← put_field 2 buf 4 (ow_bswap16 (u16 len));
  put_field 2 buf 6 0.

Section udp.
Context {W : Type}.
(** [ip_tx(ctx, dst_ip, proto, datagram, len)] with the bytes of the datagram. *)
Context (call_ip_tx : Z → Z → Z → Z → list Z → W → W * Z).
(** [recv_cb(ctx, sock, src_ip, src_port, data, len)] *)
Context (call_recv : Z → Z → Z → Z → Z → list Z → W → W).

Definition udp_send (core : ptr udpcore_t) (sock dst_ip dst_port : Z) (data : ptr (list Z))
    (len : Z) (w : W) : option (W * ptr udpcore_t * Z) :=
  match core with
  | None => Some (w, core, UDP_ERR_PARAM)
  | Some k =>
      if negb (bool_decide (is_Some data)) && nz len then Some (w, core, UDP_ERR_PARAM)
      else if negb (uc_initialized k) then Some (w, core, UDP_ERR_NOT_READY)
      else
        r ← udp_socket_at k sock;
        match r with
        | None => Some (w, core, UDP_ERR_NO_PORT)
        | Some i =>
            if UDP_MAX_PAYLOAD <? len then Some (w, core, UDP_ERR_PARAM)
            else
              s ← aget (uc_socks k) i;
              let udp_len := UDP_HDR_LEN + len in
              buf ← put_udp_header (uc_scratch k) (us_local_port s) dst_port udp_len;
              buf ← (if nz len then data ← data; copy_at len data 0 buf UDP_HDR_LEN else Some buf);
              csum ← udp_checksum_encode (uc_local_ip k) dst_ip buf udp_len;
              buf ← put_field 2 buf 6 (ow_bswap16 csum);
              seg ← aslice buf 0 udp_len;
              let '(w, rc) := call_ip_tx (uc_ip_tx k) (uc_ip_ctx k) dst_ip UDP_PROTO seg w in
              Some (w, Some (k <| uc_scratch := buf |>), rc)
        end
  end.

(** The out-parameters as they are afterwards. *)
Definition udp_recv (core : ptr udpcore_t) (sock : Z) (out_src_ip out_src_port : ptr Z)
    (buf : ptr (list Z)) (cap : Z) (out_len : ptr Z)
    : option (ptr udpcore_t * ptr Z * ptr Z * ptr (list Z) * ptr Z * Z) :=
  let same rc := Some (core, out_src_ip, out_src_port, buf, out_len, rc) in
  match core, buf, out_len with
  | Some k, Some b, Some _ =>
      r ← udp_socket_at k sock;
      match r with
      | None => same UDP_ERR_NO_PORT
      | Some i =>
          s ← aget (uc_socks k) i;
          if negb (us_has_packet s) then same UDP_ERR_AGAIN
          else if cap <? us_len s then same UDP_ERR_NO_SPACE
          else
            let n := us_len s in
            b ← copy_bytes n (us_buf s) b;
            k ← put_sock k i (s <| us_has_packet := false |> <| us_len := 0 |>);
            Some (Some k, (_ ← out_src_ip; Some (us_src_ip s)),
                  (_ ← out_src_port; Some (us_src_port s)), Some b, Some n, UDP_OK)
      end
  | _, _, _ => same UDP_ERR_PARAM
  end.

Definition sock_matches (dst_ip dst_port : Z) (s : udp_socket_t) : bool :=
  us_used s && (us_local_port s =? dst_port) &&
  negb (negb (us_local_ip s =? UDP_ANY_IP) && negb (us_local_ip s =? dst_ip)).

(** A datagram for socket [i]: to the callback, or into the mailbox. *)
Definition udp_deliver (k : udpcore_t) (i src_ip src_port : Z) (datagram : list Z) (udp_len : Z)
    (w : W) : option (W * udpcore_t * Z) :=
  if nz (uc_recv_cb k) then
    data ← aslice datagram UDP_HDR_LEN (udp_len - UDP_HDR_LEN);
    Some (call_recv (uc_recv_cb k) (uc_recv_ctx k) (i + 1) src_ip src_port data w, k, UDP_OK)
  else
    s ← aget (uc_socks k) i;
    if us_has_packet s then Some (w, k, UDP_ERR_FULL)
    else if UDP_MAX_PAYLOAD <? udp_len - UDP_HDR_LEN then Some (w, k, UDP_ERR_BAD_PACKET)
    else
      buf ← copy_at (udp_len - UDP_HDR_LEN) datagram UDP_HDR_LEN (us_buf s) 0;
      k ← put_sock k i (s <| us_buf := buf |> <| us_len := udp_len - UDP_HDR_LEN |>
                          <| us_src_ip := src_ip |> <| us_src_port := src_port |>
                          <| us_has_packet := true |>);
      Some (w, k, UDP_OK).

Definition udp_input (core : ptr udpcore_t) (src_ip dst_ip : Z) (datagram : ptr (list Z))
    (len : Z) (w : W) : option (W * ptr udpcore_t * Z) :=
  match core, datagram with
  | Some k, Some d =>
      if negb (uc_initialized k) then Some (w, core, UDP_ERR_NOT_READY)
      else if len <? UDP_HDR_LEN then Some (w, core, UDP_ERR_BAD_PACKET)
      else
        dport ← get_field 2 d 2;
        ulen ← get_field 2 d 4;
        csum ← get_field 2 d 6;
        let dst_port := ow_bswap16 dport in
        let udp_len := ow_bswap16 ulen in
        let recv_csum := ow_bswap16 csum in
        if (udp_len <? UDP_HDR_LEN) || (len <? udp_len) then Some (w, core, UDP_ERR_BAD_PACKET)
        else
          bad ← (if nz recv_csum then c ← udp_checksum src_ip dst_ip d udp_len; Some (nz c)
                 else Some false);
          if (bad : bool) then Some (w, core, UDP_ERR_BAD_PACKET)
          else
            r ← find_up (Z.to_nat UDP_MAX_SOCKETS) 0 (uc_socks k) (sock_matches dst_ip dst_port);
            match r with
            | None => Some (w, core, UDP_ERR_NO_PORT)
            | Some i =>
                sport ← get_field 2 d 0;
                '(w, k, rc) ← udp_deliver k i src_ip (ow_bswap16 sport) d udp_len w;
                Some (w, Some k, rc)
            end
  | _, _ => Some (w, core, UDP_ERR_PARAM)
  end.

Definition udp_set_receive_cb (core : ptr udpcore_t) (cb ctx : Z) : ptr udpcore_t :=
  k ← core; Some (k <| uc_recv_cb := cb |> <| uc_recv_ctx := ctx |>).
End udp.
