(* ===== verification/UdpSpec.v ===== *)
(** Abstract specification of the UDP core: a table of mailboxes, the wire
    format of a datagram, and what each call does to the table.

    The UDP core implements the table of mailboxes, call by call. *)
From S2P Require Import Prelude Tcpcore TcpSeg Ipstack IpFrame IpInput Udpcore.

(** ** The wire format *)

Definition udp_header (sp dp len csum : Z) : list Z :=
  be_bytes 2 sp ++ be_bytes 2 dp ++ be_bytes 2 len ++ be_bytes 2 csum.

(** The sum the checksum complements: pseudo-header and datagram. *)
Definition udp_total (src dst : Z) (bytes : list Z) : Z :=
  addr_sum src + addr_sum dst + 17 + Z.of_nat (length bytes) + wsum bytes.

Definition udp_csum (src dst sp dp : Z) (data : list Z) : Z :=
  let c := 65535 - fold16 (udp_total src dst (udp_header sp dp (8 + Z.of_nat (length data)) 0 ++ data)) in
  if c =? 0 then 0xFFFF else c.

Definition udp_wire (src dst sp dp : Z) (data : list Z) : list Z :=
  udp_header sp dp (8 + Z.of_nat (length data)) (udp_csum src dst sp dp data) ++ data.

(** What a receiver reads from the first [len] of [bytes]: ports and data, or
    nothing if the datagram is malformed. *)
Definition udp_parse (src dst : Z) (bytes : list Z) (len : Z) : option (Z * Z * list Z) :=
  let n := port_of bytes 4 in
  if (len <? 8) || (n <? 8) || (len <? n) then None
  else if nz (port_of bytes 6) && negb (fold16 (udp_total src dst (take (Z.to_nat n) bytes)) =? 65535) then None
  else Some (port_of bytes 0, port_of bytes 2, take (Z.to_nat (n - 8)) (drop 8 bytes)).

(** ** Mailboxes *)

Record mbox := mk_mbox { mb_ip : Z; mb_port : Z; mb_pkt : option (Z * Z * list Z) }.

Record udp_abs := mk_udp_abs {
  ua_ip : Z; ua_tx : Z; ua_ctx : Z; ua_cb : Z; ua_cctx : Z; ua_boxes : list (option mbox)
}.
#[export] Instance eta_udp_abs : Eta udp_abs := λ a,
  mk_udp_abs (ua_ip a) (ua_tx a) (ua_ctx a) (ua_cb a) (ua_cctx a) (ua_boxes a).

Definition box_at (a : udp_abs) (sock : Z) : option mbox :=
  if decide (1 ≤ sock ≤ 8) then m ← ua_boxes a !! Z.to_nat (sock - 1); m else None.

Definition set_box (a : udp_abs) (sock : Z) (m : option mbox) : udp_abs :=
  a <| ua_boxes := <[Z.to_nat (sock - 1) := m]> (ua_boxes a) |>.

(** The handle of the first box that satisfies a test. *)
Fixpoint first_box (p : option mbox → bool) (sock : Z) (bs : list (option mbox)) : option Z :=
  match bs with
  | [] => None
  | m :: bs => if p m then Some sock else first_box p (sock + 1) bs
  end.

Definition has_port (port : Z) (m : option mbox) : bool :=
  match m with Some b => mb_port b =? port | None => false end.
Definition is_free (m : option mbox) : bool := match m with None => true | _ => false end.
Definition takes (dst port : Z) (m : option mbox) : bool :=
  match m with
  | Some b => (mb_port b =? port) && ((mb_ip b =? UDP_ANY_IP) || (mb_ip b =? dst))
  | None => false
  end.

Definition abs_bind (ip port : Z) (a : udp_abs) : udp_abs * Z :=
  if (port =? 0) || bool_decide (is_Some (first_box (has_port port) 1 (ua_boxes a))) then (a, -1)
  else match first_box is_free 1 (ua_boxes a) with
       | Some sock => (set_box a sock (Some (mk_mbox ip port None)), sock)
       | None => (a, -1)
       end.

Definition abs_close (sock : Z) (a : udp_abs) : udp_abs * Z :=
  match box_at a sock with
  | Some _ => (set_box a sock None, UDP_OK)
  | None => (a, UDP_ERR_NO_PORT)
  end.

Definition abs_recv (sock cap : Z) (a : udp_abs) : udp_abs * Z * option (Z * Z * list Z) :=
  match box_at a sock with
  | None => (a, UDP_ERR_NO_PORT, None)
  | Some b =>
      match mb_pkt b with
      | None => (a, UDP_ERR_AGAIN, None)
      | Some (src, sp, data) =>
          if cap <? Z.of_nat (length data) then (a, UDP_ERR_NO_SPACE, None)
          else (set_box a sock (Some (mk_mbox (mb_ip b) (mb_port b) None)), UDP_OK, Some (src, sp, data))
      end
  end.

Section world.
Context {W : Type} (call_ip_tx : Z → Z → Z → Z → list Z → W → W * Z).
Context (call_recv : Z → Z → Z → Z → Z → list Z → W → W).

Definition abs_send (sock dst port : Z) (data : list Z) (a : udp_abs) (w : W) : W * Z :=
  match box_at a sock with
  | None => (w, UDP_ERR_NO_PORT)
  | Some b =>
      if UDP_MAX_PAYLOAD <? Z.of_nat (length data) then (w, UDP_ERR_PARAM)
      else call_ip_tx (ua_tx a) (ua_ctx a) dst UDP_PROTO (udp_wire (ua_ip a) dst (mb_port b) port data) w
  end.

Definition abs_input (src dst : Z) (bytes : list Z) (len : Z) (a : udp_abs) (w : W) : W * udp_abs * Z :=
  match udp_parse src dst bytes len with
  | None => (w, a, UDP_ERR_BAD_PACKET)
  | Some (sp, dp, data) =>
      match first_box (takes dst dp) 1 (ua_boxes a) with
      | None => (w, a, UDP_ERR_NO_PORT)
      | Some sock =>
          if nz (ua_cb a) then (call_recv (ua_cb a) (ua_cctx a) sock src sp data w, a, UDP_OK)
          else match box_at a sock with
               | Some (mk_mbox ip port None) =>
                   if UDP_MAX_PAYLOAD <? Z.of_nat (length data) then (w, a, UDP_ERR_BAD_PACKET)
                   else (w, set_box a sock (Some (mk_mbox ip port (Some (src, sp, data)))), UDP_OK)
               | _ => (w, a, UDP_ERR_FULL)
               end
      end
  end.
End world.

(** ** Abstraction and invariant *)

Definition box (s : udp_socket_t) : option mbox :=
  if us_used s then
    Some (mk_mbox (us_local_ip s) (us_local_port s)
      (if us_has_packet s then Some (us_src_ip s, us_src_port s, take (Z.to_nat (us_len s)) (us_buf s)) else None))
  else None.

Definition udp_view (k : udpcore_t) : udp_abs :=
  mk_udp_abs (uc_local_ip k) (uc_ip_tx k) (uc_ip_ctx k) (uc_recv_cb k) (uc_recv_ctx k) (box <$> uc_socks k).

Record sock_ok (s : udp_socket_t) : Prop := {
  so_buf : length (us_buf s) = 1472%nat;
  so_len : 0 ≤ us_len s ≤ 1472;
  so_port : is_u16 (us_local_port s)
}.

Record udp_ok (k : udpcore_t) : Prop := {
  uo_init : uc_initialized k = true;
  uo_ip : is_u32 (uc_local_ip k);
  uo_socks : length (uc_socks k) = 8%nat;
  uo_sock : Forall sock_ok (uc_socks k);
  uo_scratch : length (uc_scratch k) = 1480%nat;
  uo_octets : octets (uc_scratch k);
  uo_ports : ∀ i j m n, box <$> uc_socks k !! i = Some (Some m) → box <$> uc_socks k !! j = Some (Some n) →
               mb_port m = mb_port n → i = j
}.

(** ** The wire format, proved *)

Lemma udp_header_length sp dp len csum : length (udp_header sp dp len csum) = 8%nat.
Proof. done. Qed.

Lemma udp_header_octets sp dp len csum : octets (udp_header sp dp len csum).
Proof. unfold udp_header, octets. do 3 (apply Forall_app_2; [apply be_bytes_octets|]). apply be_bytes_octets. Qed.

Lemma udp_header_wsum sp dp len csum rest :
  is_u16 csum → wsum (udp_header sp dp len csum ++ rest) = wsum (udp_header sp dp len 0 ++ rest) + csum.
Proof.
  intros Hc. unfold udp_header.
  assert (∀ c, (be_bytes 2 sp ++ be_bytes 2 dp ++ be_bytes 2 len ++ be_bytes 2 c) ++ rest =
    (be_bytes 2 sp ++ be_bytes 2 dp ++ be_bytes 2 len) ++ be_bytes 2 c ++ rest) as Ha by done.
  rewrite !Ha. set (p := be_bytes 2 sp ++ _).
  rewrite !(wsum_app_even p), !(wsum_app_even (be_bytes 2 _) rest), wsum_be by done.
  change (wsum (be_bytes 2 0)) with 0. lia.
Qed.

Lemma addr_sum_range a : is_u32 a → 0 ≤ addr_sum a < 131072.
Proof. intros Ha. by destruct (tcp_sum_addr_spec 0 a) as [_ ?]; [lia|done|]. Qed.

Lemma udp_total_pos src dst bytes : is_u32 src → is_u32 dst → octets bytes → 0 < udp_total src dst bytes.
Proof.
  intros Hs Hd Ho. pose proof (addr_sum_range _ Hs). pose proof (addr_sum_range _ Hd).
  pose proof (wsum_bounds _ Ho). unfold udp_total. lia.
Qed.

Lemma udp_checksum_spec src dst seg len :
  octets seg → is_u32 src → is_u32 dst → 0 ≤ len ≤ 65535 → len ≤ Z.of_nat (length seg) →
  udp_checksum src dst seg len = Some (65535 - fold16 (udp_total src dst (take (Z.to_nat len) seg))).
Proof.
  intros Ho Hsrc Hdst Hl Hlen. unfold udp_checksum. change udp_sum_addr with tcp_sum_addr.
  destruct (tcp_sum_addr_spec 0 src) as [-> Bs]; [lia|done|].
  destruct (tcp_sum_addr_spec (0 + addr_sum src) dst) as [-> Bd]; [lia|done|].
  unfold UDP_PROTO. rewrite !u32_small by (rewrite ?u32_small; lia).
  rewrite sum_tail by (done || lia). unfold udp_total. rewrite length_take_le by lia. do 3 f_equal. lia.
Qed.

Lemma udp_csum_good src dst sp dp data :
  is_u32 src → is_u32 dst → octets data →
  is_u16 (udp_csum src dst sp dp data) ∧ fold16 (udp_total src dst (udp_wire src dst sp dp data)) = 65535 ∧
  udp_csum src dst sp dp data ≠ 0.
Proof.
  intros Hs Hd Ho. unfold udp_csum, udp_wire. set (L := 8 + Z.of_nat (length data)).
  set (x := udp_total src dst (udp_header sp dp L 0 ++ data)).
  assert (0 < x) as Hx.
  { apply udp_total_pos; [done..|]. apply Forall_app. split; [apply udp_header_octets|done]. }
  destruct (fold16_compl x Hx) as [Hc Hf]. unfold udp_csum. fold L. fold x.
  set (c := if _ =? 0 then 0xFFFF else _) in *. split; [done|]. split.
  - replace (udp_total src dst (udp_header sp dp L c ++ data)) with (x + c); [done|].
    subst x. unfold udp_total. rewrite (udp_header_wsum sp dp L c) by done. rewrite !length_app, !udp_header_length. lia.
  - subst c. case_if; [done|lia].
Qed.

Lemma port_of_be (p r : list Z) v i : length p = i → is_u16 v → port_of (p ++ be_bytes 2 v ++ r) i = v.
Proof.
  intros <- Hv. unfold port_of. rewrite !(app_nth2 p), Nat.sub_diag by lia.
  replace (S (length p) - length p)%nat with 1%nat by lia. unfold be_bytes. simpl.
  unfold is_u16 in Hv. zdm.
Qed.

(** The receiver reads back what the sender wrote, whatever follows it. *)
Lemma udp_parse_wire src dst sp dp data pad len :
  is_u32 src → is_u32 dst → is_u16 sp → is_u16 dp → octets data → (length data ≤ 1472)%nat →
  len = Z.of_nat (length (udp_wire src dst sp dp data ++ pad)) →
  udp_parse src dst (udp_wire src dst sp dp data ++ pad) len = Some (sp, dp, data).
Proof.
  intros Hs Hd Hsp Hdp Ho Hl ->. destruct (udp_csum_good src dst sp dp data Hs Hd Ho) as (Hc & Hf & _).
  assert (∃ c, is_u16 c ∧ udp_wire src dst sp dp data = udp_header sp dp (8 + Z.of_nat (length data)) c ++ data)
    as (c & Hcc & E) by (by eexists).
  set (L := 8 + Z.of_nat (length data)) in *. assert (is_u16 L) as HL by (unfold is_u16, L; lia).
  assert (length (udp_wire src dst sp dp data) = Z.to_nat L) as Hlen
    by (rewrite E, length_app, udp_header_length; lia).
  set (w := udp_wire src dst sp dp data) in *.
  assert (port_of (w ++ pad) 0 = sp) as E0.
  { rewrite E. exact (port_of_be [] (be_bytes 2 dp ++ be_bytes 2 L ++ be_bytes 2 c ++ data ++ pad) sp 0 eq_refl Hsp). }
  assert (port_of (w ++ pad) 2 = dp) as E2.
  { rewrite E. exact (port_of_be (be_bytes 2 sp) (be_bytes 2 L ++ be_bytes 2 c ++ data ++ pad) dp 2 eq_refl Hdp). }
  assert (port_of (w ++ pad) 4 = L) as E4.
  { rewrite E. exact (port_of_be (be_bytes 2 sp ++ be_bytes 2 dp) (be_bytes 2 c ++ data ++ pad) L 4 eq_refl HL). }
  unfold udp_parse. rewrite E0, E2, E4, length_app, Hlen, take_app_length' by lia. rewrite Hf.
  change (negb (65535 =? 65535)) with false. rewrite andb_false_r.
  rewrite !(proj2 (Z.ltb_ge _ _)) by lia. cbn [orb]. do 2 f_equal.
  rewrite E. change (drop 8 _) with (data ++ pad). by rewrite take_app_length' by lia.
Qed.

(** ** Searching the table *)

Lemma find_up_box (q : udp_socket_t → bool) (p : option mbox → bool) l :
  (∀ s, q s = p (box s)) →
  find_up (length l) 0 l q =
    Some (match first_box p 1 (box <$> l) with Some sock => Some (sock - 1) | None => None end).
Proof.
  intros Hq. assert (∀ k pre, find_up (length k) (Z.of_nat (length pre)) (pre ++ k) q =
    Some (match first_box p (Z.of_nat (length pre) + 1) (box <$> k) with
          | Some sock => Some (sock - 1) | None => None end)) as H; [|by apply (H l [])].
  induction k as [|s k IH]; intros pre; [done|]. cbn [find_up length fmap list_fmap first_box].
  rewrite aget_app_here, obind_Some, Hq. destruct (p (box s)); [do 2 f_equal; lia|].
  replace (pre ++ s :: k) with ((pre ++ [s]) ++ k) by (by rewrite <-app_assoc).
  replace (Z.of_nat (length pre) + 1) with (Z.of_nat (length (pre ++ [s]))) by (rewrite length_app; simpl; lia).
  apply IH.
Qed.

Lemma first_box_Some p bs sock j :
  first_box p sock bs = Some j →
  sock ≤ j < sock + Z.of_nat (length bs) ∧ ∃ m, bs !! Z.to_nat (j - sock) = Some m ∧ p m = true.
Proof.
  revert sock. induction bs as [|m bs IH]; intros sock E; [done|]. cbn [first_box length] in *.
  destruct (p m) eqn:Hp.
  - injection E as <-. split; [lia|]. rewrite Z.sub_diag. by exists m.
  - destruct (IH _ E) as (Hj & m' & Hm & Hp'). split; [lia|]. exists m'. split; [|done].
    by replace (Z.to_nat (j - sock)) with (S (Z.to_nat (j - (sock + 1)))) by lia.
Qed.

Lemma first_box_None p bs sock i m : first_box p sock bs = None → bs !! i = Some m → p m = false.
Proof.
  revert sock i. induction bs as [|m' bs IH]; intros sock i E; [done|]. cbn [first_box] in E.
  destruct (p m') eqn:Hp; [done|]. destruct i; simpl; [congruence|eauto].
Qed.

Lemma first_box_unique p bs sock i m :
  bs !! i = Some m → p m = true → (∀ j n, bs !! j = Some n → p n = true → j = i) →
  first_box p sock bs = Some (sock + Z.of_nat i).
Proof.
  intros Hm Hp Hu. destruct (first_box p sock bs) as [j|] eqn:E.
  - destruct (first_box_Some _ _ _ _ E) as (Hj & n & Hn & Hpn). rewrite <-(Hu _ _ Hn Hpn). f_equal. lia.
  - by rewrite (first_box_None _ _ _ _ _ E Hm) in Hp.
Qed.

(** ** Reading a header field *)

Lemma port_of_range p i : octets p → is_u16 (port_of p i).
Proof.
  intros Ho. unfold port_of, is_u16. pose proof (octets_nth p i Ho). pose proof (octets_nth p (S i) Ho). lia.
Qed.

Lemma get_port d off :
  octets d → 0 ≤ off → off + 2 ≤ Z.of_nat (length d) →
  get_field 2 d off = Some (ow_bswap16 (port_of d (Z.to_nat off))).
Proof.
  intros Ho Hoff Hl. set (i := Z.to_nat off). pose proof (port_of_range d i Ho) as Hr.
  assert (d = take i d ++ be_bytes 2 (port_of d i) ++ drop (i + 2) d) as E.
  { rewrite <-(take_drop i d) at 1. f_equal. replace (i + 2)%nat with (S (S i)) by lia.
    rewrite (drop_lookup_cons d i _ (lookup_nth d i ltac:(lia))).
    rewrite (drop_lookup_cons d (S i) _ (lookup_nth d (S i) ltac:(lia))).
    pose proof (octets_nth d i Ho). pose proof (octets_nth d (S i) Ho).
    unfold be_bytes, port_of. simpl. f_equal; [zdm|]. f_equal. zdm. }
  rewrite E at 1. apply get_be16; [|done]. rewrite length_take_le; lia.
Qed.

(** ** Sockets *)

Section core.
Context (k : udpcore_t) (Hk : udp_ok k).

Lemma view_box (i : nat) : ua_boxes (udp_view k) !! i = box <$> uc_socks k !! i.
Proof. apply list_lookup_fmap. Qed.

(** The slot of a handle and its box. *)
Lemma socket_at_spec sock :
  match box_at (udp_view k) sock with
  | Some m => udp_socket_at k sock = Some (Some (sock - 1)) ∧ 1 ≤ sock ≤ 8 ∧
      ∃ s, aget (uc_socks k) (sock - 1) = Some s ∧ box s = Some m ∧ us_used s = true ∧ sock_ok s
  | None => udp_socket_at k sock = Some None
  end.
Proof.
  unfold box_at, udp_socket_at. change UDP_MAX_SOCKETS with 8. pose proof (uo_socks _ Hk) as Hl.
  destruct (decide (1 ≤ sock ≤ 8)) as [Hs|Hs].
  - rewrite view_box. destruct (Z.leb_spec sock 0); [lia|]. destruct (Z.ltb_spec 8 sock); [lia|]. cbn [orb].
    destruct (lookup_lt_is_Some_2 (uc_socks k) (Z.to_nat (sock - 1))) as [s E]; [lia|].
    rewrite aget_to_nat, E, obind_Some by lia. cbn [fmap option_fmap option_map]. rewrite obind_Some.
    pose proof (Forall_lookup_1 _ _ _ _ (uo_sock _ Hk) E) as Hso.
    unfold box at 1. destruct (us_used s) eqn:Hu; [|done]. split; [done|]. split; [lia|].
    exists s. unfold box. by rewrite Hu.
  - destruct (Z.leb_spec sock 0); [done|]. destruct (Z.ltb_spec 8 sock); [done|lia].
Qed.

(** Replacing a socket replaces its box. *)
Lemma put_sock_spec i s :
  0 ≤ i < 8 → sock_ok s →
  (∀ m, box s = Some m → ∀ j n, box <$> uc_socks k !! j = Some (Some n) → mb_port m = mb_port n → j = Z.to_nat i) →
  ∃ k', put_sock k i s = Some k' ∧ udp_ok k' ∧ udp_view k' = set_box (udp_view k) (i + 1) (box s).
Proof.
  intros Hi Hso Hfresh. unfold put_sock. rewrite aset_in by (rewrite (uo_socks _ Hk); lia).
  rewrite obind_Some. eexists. split; [done|]. destruct Hk as [H1 H2 H3 H4 H5 H6 H7]. split.
  - constructor; try done.
    + simpl. by rewrite length_insert.
    + simpl. by apply Forall_insert.
    + simpl. intros a b m n. assert (Z.to_nat i < length (uc_socks k))%nat as Hlt by lia.
      destruct (decide (a = Z.to_nat i)) as [->|Ha], (decide (b = Z.to_nat i)) as [->|Hb];
        rewrite ?list_lookup_insert_eq, ?list_lookup_insert_ne by lia; [done|..].
      * intros [=E] Hn Hp. symmetry. eauto.
      * intros Hm [=E] Hp. eauto.
      * apply H7.
  - unfold udp_view, set_box. simpl. f_equal. rewrite list_fmap_insert. f_equal. lia.
Qed.

(** A socket keeps its own port. *)
Lemma same_port i s s' :
  aget (uc_socks k) i = Some s → us_used s = true → us_local_port s' = us_local_port s →
  ∀ m, box s' = Some m → ∀ j n, box <$> uc_socks k !! j = Some (Some n) → mb_port m = mb_port n → j = Z.to_nat i.
Proof.
  intros [Hi E]%aget_Some Hu Hp m Hm j n Hj Hmn. symmetry.
  assert (box <$> uc_socks k !! Z.to_nat i = Some (box s)) as Hb by (by rewrite E).
  unfold box in Hb at 2. rewrite Hu in Hb. eapply (uo_ports _ Hk); [exact Hb|exact Hj|].
  simpl. unfold box in Hm. destruct (us_used s'); [|done]. injection Hm as <-. simpl in Hmn. congruence.
Qed.

Lemma zero_sock_ok : sock_ok zero_usock.
Proof. by split. Qed.

Lemma find_sock q p :
  (∀ s, q s = p (box s)) →
  find_up (Z.to_nat UDP_MAX_SOCKETS) 0 (uc_socks k) q =
    Some (match first_box p 1 (ua_boxes (udp_view k)) with Some sock => Some (sock - 1) | None => None end).
Proof.
  intros Hq. change (Z.to_nat UDP_MAX_SOCKETS) with 8%nat. rewrite <-(uo_socks _ Hk). by apply find_up_box.
Qed.

(** ** Calls *)

Lemma udp_bind_spec ip port :
  is_u16 port →
  ∃ k', udp_bind (Some k) ip port = Some (Some k', (abs_bind ip port (udp_view k)).2) ∧ udp_ok k' ∧
    udp_view k' = (abs_bind ip port (udp_view k)).1.
Proof.
  intros Hp. unfold udp_bind, abs_bind, udp_find_port. rewrite (uo_init _ Hk). cbn [negb orb].
  destruct (Z.eqb_spec port 0) as [|Hne]; cbn [orb]; [by eauto|].
  rewrite (find_sock (λ s, us_used s && (us_local_port s =? port)) (has_port port))
    by (intros s; unfold box; by destruct (us_used s)).
  rewrite !obind_Some. destruct (first_box (has_port port) 1 _) as [j|] eqn:E.
  { apply first_box_Some in E as [Hj _]. rewrite (proj2 (Z.leb_le 0 _)) by lia.
    rewrite bool_decide_eq_true_2 by done. eauto. }
  change (0 <=? -1) with false. cbv iota. rewrite bool_decide_eq_false_2 by (by intros []).
  rewrite (find_sock (λ s, negb (us_used s)) is_free) by (intros s; unfold box; by destruct (us_used s)). rewrite obind_Some.
  destruct (first_box is_free 1 _) as [sock|] eqn:Ef; [|by eauto].
  apply first_box_Some in Ef as [Hs _]. unfold udp_view in Hs at 1. simpl in Hs.
  rewrite length_fmap, (uo_socks _ Hk) in Hs.
  destruct (put_sock_spec (sock - 1) (zero_usock <| us_used := true |> <| us_local_ip := ip |>
    <| us_local_port := port |>)) as (k' & -> & Hk' & Hv); [lia|by split| |].
  { intros m [= <-] j n Hj Hmn. rewrite <-view_box in Hj.
    pose proof (first_box_None _ _ _ _ _ E Hj) as Hf. simpl in Hf, Hmn. apply Z.eqb_neq in Hf. by subst. }
  rewrite obind_Some. exists k'. replace (sock - 1 + 1) with sock in * by lia. by rewrite Hv.
Qed.

Lemma udp_close_spec sock :
  ∃ k', udp_close (Some k) sock = Some (Some k', (abs_close sock (udp_view k)).2) ∧ udp_ok k' ∧
    udp_view k' = (abs_close sock (udp_view k)).1.
Proof.
  unfold udp_close, abs_close. pose proof (socket_at_spec sock) as H.
  destruct (box_at (udp_view k) sock) as [m|]; [|rewrite H; by eauto].
  destruct H as (-> & Hs & s & E & _). rewrite obind_Some.
  destruct (put_sock_spec (sock - 1) zero_usock) as (k' & -> & Hk' & Hv); [lia|apply zero_sock_ok|done|].
  rewrite obind_Some. exists k'. by replace (sock - 1 + 1) with sock in * by lia.
Qed.

(** A receive with a buffer of [cap] bytes and out-parameters. *)
Lemma udp_recv_spec sock cap ip0 port0 len0 buf :
  0 ≤ cap ≤ Z.of_nat (length buf) →
  match abs_recv sock cap (udp_view k) with
  | (a', rc, Some (src, sp, data)) => ∃ k',
      udp_recv (Some k) sock (Some ip0) (Some port0) (Some buf) cap (Some len0) =
        Some (Some k', Some src, Some sp, Some (data ++ drop (length data) buf), Some (Z.of_nat (length data)), rc) ∧
      udp_ok k' ∧ udp_view k' = a'
  | (a', rc, None) =>
      udp_recv (Some k) sock (Some ip0) (Some port0) (Some buf) cap (Some len0) =
        Some (Some k, Some ip0, Some port0, Some buf, Some len0, rc) ∧ a' = udp_view k
  end.
Proof.
  intros Hcap. unfold udp_recv, abs_recv. pose proof (socket_at_spec sock) as H.
  destruct (box_at (udp_view k) sock) as [m|] eqn:Eb; [|by rewrite H].
  destruct H as (-> & Hs & s & E & Hb & Hu & Hso). rewrite obind_Some, E, obind_Some.
  unfold box in Hb. rewrite Hu in Hb. injection Hb as <-. cbn [mb_pkt mb_ip mb_port].
  destruct (us_has_packet s) eqn:Hp; cbn [negb]; [|done].
  pose proof (so_len _ Hso) as Hl. pose proof (so_buf _ Hso) as Hbuf.
  rewrite length_take_le, Z2Nat.id by lia. destruct (Z.ltb_spec cap (us_len s)); [done|].
  rewrite copy_bytes_Z, obind_Some by lia.
  destruct (put_sock_spec (sock - 1) (s <| us_has_packet := false |> <| us_len := 0 |>))
    as (k' & -> & Hk' & Hv); [lia|destruct Hso; split; simpl; (done || lia)|by eapply same_port|].
  rewrite length_take_le, Z2Nat.id by lia.
  exists k'. split; [done|]. split; [done|]. rewrite Hv. unfold box. simpl. rewrite Hu.
  by replace (sock - 1 + 1) with sock by lia.
Qed.

(** ** The wire *)

Context {W : Type} (call_ip_tx : Z → Z → Z → Z → list Z → W → W * Z).
Context (call_recv : Z → Z → Z → Z → Z → list Z → W → W).

Lemma put_udp_header_spec buf sp dp len :
  (8 ≤ length buf)%nat → is_u16 sp → is_u16 dp → is_u16 len →
  put_udp_header buf sp dp len = Some (udp_header sp dp len 0 ++ drop 8 buf).
Proof.
  intros Hb Hsp Hdp Hl. unfold put_udp_header. rewrite (u16_small len) by done.
  pose proof (put_next 2 [] buf 0 (ow_bswap16 sp)) as E. cbn [app] in E. rewrite E, obind_Some by (simpl; lia).
  do 2 fill_next. rewrite put_next by (rewrite ?length_app, ?length_drop, ?le_bytes_length; simpl; lia).
  rewrite !drop_drop, !bswap16_be by done. unfold udp_header. by rewrite <-!app_assoc.
Qed.

Lemma udp_send_spec sock dst port data w :
  is_u32 dst → is_u16 port → octets data →
  ∃ k', udp_send call_ip_tx (Some k) sock dst port (Some data) (Z.of_nat (length data)) w =
      (let '(w', rc) := abs_send call_ip_tx sock dst port data (udp_view k) w in Some (w', Some k', rc)) ∧
    udp_ok k' ∧ udp_view k' = udp_view k.
Proof.
  intros Hd Hp Ho. unfold udp_send, abs_send. rewrite (uo_init _ Hk). cbn [negb].
  rewrite bool_decide_eq_true_2 by done. cbn [negb andb].
  pose proof (socket_at_spec sock) as H. destruct (box_at (udp_view k) sock) as [m|]; [|rewrite H; by eauto].
  destruct H as (-> & Hs & s & E & Hb & Hu & Hso). rewrite obind_Some.
  unfold box in Hb. rewrite Hu in Hb. injection Hb as <-. cbn [mb_port].
  destruct (Z.ltb_spec UDP_MAX_PAYLOAD (Z.of_nat (length data))) as [|Hl]; [by eauto|].
  unfold UDP_MAX_PAYLOAD in Hl. rewrite E, obind_Some. cbv zeta. change UDP_HDR_LEN with 8.
  set (L := 8 + Z.of_nat (length data)) in *. assert (is_u16 L) as HL by (unfold is_u16, L; lia).
  pose proof (uo_scratch _ Hk) as Hsc. pose proof (so_port _ Hso) as Hsp. pose proof (uo_ip _ Hk) as Hip.
  rewrite put_udp_header_spec, obind_Some by (done || lia). set (sp := us_local_port s) in *.
  set (rest := drop (length data) (drop 8 (uc_scratch k))).
  assert (octets rest) as Hr by (apply Forall_drop, Forall_drop, (uo_octets _ Hk)).
  assert ((if nz (Z.of_nat (length data)) then data0 ← Some data; copy_at (Z.of_nat (length data)) data0 0
      (udp_header sp port L 0 ++ drop 8 (uc_scratch k)) 8 else Some (udp_header sp port L 0 ++ drop 8 (uc_scratch k)))
    = Some ((udp_header sp port L 0 ++ data) ++ rest)) as ->.
  { subst rest. unfold nz. destruct (Z.eqb_spec (Z.of_nat (length data)) 0); cbn [negb].
    - destruct data; [|simpl in *; lia]. by rewrite app_nil_r.
    - rewrite obind_Some, copy_next by (rewrite ?length_drop, ?udp_header_length; lia).
      by rewrite firstn_all. }
  rewrite obind_Some. unfold udp_checksum_encode.
  assert (octets (udp_header sp port L 0 ++ data)) as Hw by (apply Forall_app_2; [apply udp_header_octets|done]).
  assert (Z.to_nat L = length (udp_header sp port L 0 ++ data)) as HLn
    by (rewrite length_app, udp_header_length; lia).
  rewrite udp_checksum_spec, !obind_Some; [|by apply Forall_app_2|done|done|unfold is_u16 in HL; lia|
    rewrite length_app; lia].
  rewrite HLn, take_app_length. set (c := if 65535 - _ =? 0 then 0xFFFF else _).
  change c with (udp_csum (uc_local_ip k) dst sp port data). clear c.
  destruct (udp_csum_good (uc_local_ip k) dst sp port data) as (Hc & _ & _); [done..|].
  set (c := udp_csum (uc_local_ip k) dst sp port data) in *.
  assert (put_field 2 ((udp_header sp port L 0 ++ data) ++ rest) 6 (ow_bswap16 c) =
    Some (udp_wire (uc_local_ip k) dst sp port data ++ rest)) as ->.
  { unfold udp_wire. fold L c. unfold udp_header. rewrite <-!app_assoc.
    pose proof (put_field_at 2 (be_bytes 2 sp ++ be_bytes 2 port ++ be_bytes 2 L) (be_bytes 2 0) (data ++ rest) 6
      (ow_bswap16 c) eq_refl eq_refl) as Ep. rewrite bswap16_be in Ep by done. exact Ep. }
  set (wire := udp_wire (uc_local_ip k) dst sp port data).
  assert (length wire = Z.to_nat L) as Hwl by (unfold wire, udp_wire; rewrite length_app, udp_header_length; lia).
  rewrite obind_Some, aslice_in, obind_Some by (rewrite ?length_app; lia).
  change (Z.to_nat 0) with 0%nat. rewrite drop_0, take_app_length' by lia.
  change (ua_tx (udp_view k)) with (uc_ip_tx k). change (ua_ctx (udp_view k)) with (uc_ip_ctx k).
  change (ua_ip (udp_view k)) with (uc_local_ip k). fold wire.
  destruct (call_ip_tx _ _ _ _ wire w) as [w' rc]. eexists. split; [done|]. split; [|done].
  destruct Hk as [H1 H2 H3 H4 H5 H6 H7]. constructor; try done.
  - change (length (wire ++ rest) = 1480%nat). rewrite length_app, Hwl. unfold rest. rewrite !length_drop, Hsc. lia.
  - change (octets (wire ++ rest)). apply Forall_app_2; [|done]. unfold wire, udp_wire. apply Forall_app_2; [apply udp_header_octets|done].
Qed.
(** ** Arrival *)

Lemma deliver_spec sock src sp d n w :
  1 ≤ sock ≤ 8 → 8 ≤ n ≤ Z.of_nat (length d) → is_Some (box_at (udp_view k) sock) →
  let data := take (Z.to_nat (n - 8)) (drop 8 d) in
  let '(w', a', rc) :=
    if nz (uc_recv_cb k) then (call_recv (uc_recv_cb k) (uc_recv_ctx k) sock src sp data w, udp_view k, UDP_OK)
    else match box_at (udp_view k) sock with
         | Some (mk_mbox ip port None) =>
             if UDP_MAX_PAYLOAD <? Z.of_nat (length data) then (w, udp_view k, UDP_ERR_BAD_PACKET)
             else (w, set_box (udp_view k) sock (Some (mk_mbox ip port (Some (src, sp, data)))), UDP_OK)
         | _ => (w, udp_view k, UDP_ERR_FULL)
         end in
  ∃ k', udp_deliver call_recv k (sock - 1) src sp d n w = Some (w', k', rc) ∧ udp_ok k' ∧ udp_view k' = a'.
Proof.
  intros Hs Hn [m Hm]. cbv zeta. unfold udp_deliver. change UDP_HDR_LEN with 8.
  set (data := take (Z.to_nat (n - 8)) (drop 8 d)).
  assert (Z.of_nat (length data) = n - 8) as Hdl by (unfold data; rewrite length_take_le; rewrite ?length_drop; lia).
  destruct (nz (uc_recv_cb k)).
  { rewrite aslice_in, obind_Some by lia. change (Z.to_nat 8) with 8%nat. fold data.
    replace (sock - 1 + 1) with sock by lia. by exists k. }
  pose proof (socket_at_spec sock) as H. rewrite Hm in *. destruct H as (_ & _ & s & E & Hb & Hu & Hso).
  rewrite E, obind_Some. pose proof Hb as Hb'. unfold box in Hb. rewrite Hu in Hb. injection Hb as <-.
  destruct (us_has_packet s) eqn:Hp; [by exists k|]. rewrite Hdl.
  destruct (Z.ltb_spec UDP_MAX_PAYLOAD (n - 8)) as [|Hl]; [by exists k|]. unfold UDP_MAX_PAYLOAD in Hl.
  pose proof (so_buf _ Hso) as Hbuf.
  rewrite copy_at_Z, obind_Some by lia. change (Z.to_nat 8) with 8%nat. fold data.
  change (Z.to_nat 0) with 0%nat. rewrite take_0, app_nil_l.
  set (buf := data ++ _). assert (length buf = 1472%nat) as Hbl
    by (unfold buf; rewrite length_app, length_drop; lia).
  assert (take (Z.to_nat (n - 8)) buf = data) as Ht by (unfold buf; by rewrite take_app_length' by lia).
  clearbody buf.
  destruct (put_sock_spec (sock - 1) (s <| us_buf := buf |> <| us_len := n - 8 |> <| us_src_ip := src |>
    <| us_src_port := sp |> <| us_has_packet := true |>)) as (k' & -> & Hk' & Hv);
    [lia|destruct Hso; split; (done || simpl; lia)|by eapply same_port|].
  rewrite obind_Some. exists k'. split; [done|]. split; [done|]. rewrite Hv. unfold box. cbn. rewrite Hu.
  replace (sock - 1 + 1) with sock by lia. by rewrite Ht.
Qed.

Lemma udp_input_spec src dst d len w :
  is_u32 src → is_u32 dst → octets d → 0 ≤ len ≤ Z.of_nat (length d) →
  let '(w', a', rc) := abs_input call_recv src dst d len (udp_view k) w in
  ∃ k', udp_input call_recv (Some k) src dst (Some d) len w = Some (w', Some k', rc) ∧ udp_ok k' ∧ udp_view k' = a'.
Proof.
  intros Hsrc Hdst Ho Hlen. unfold abs_input, udp_parse, udp_input. rewrite (uo_init _ Hk). cbn [negb].
  change UDP_HDR_LEN with 8. destruct (Z.ltb_spec len 8) as [|H8]; cbn [orb]; [by exists k|].
  rewrite !(get_port d) by (done || lia). rewrite !obind_Some. cbv zeta.
  change (Z.to_nat 2) with 2%nat. change (Z.to_nat 4) with 4%nat. change (Z.to_nat 6) with 6%nat.
  change (Z.to_nat 0) with 0%nat. rewrite !bswap16_invol by (apply port_of_range; done).
  set (n := port_of d 4) in *. pose proof (port_of_range d 4 Ho) as Hn. fold n in Hn.
  destruct ((n <? 8) || (len <? n)) eqn:En; [by exists k|]. zbool.
  assert ((if nz (port_of d 6) then c ← udp_checksum src dst d n; Some (nz c) else Some false) =
    Some (nz (port_of d 6) && negb (fold16 (udp_total src dst (take (Z.to_nat n) d)) =? 65535))) as ->.
  { destruct (nz (port_of d 6)); [|done]. unfold is_u16 in Hn.
    rewrite udp_checksum_spec, obind_Some by (done || lia). cbn [andb]. unfold nz.
    do 2 f_equal. apply Bool.eq_iff_eq_true. rewrite !Z.eqb_eq. lia. }
  rewrite obind_Some. destruct (nz (port_of d 6) && _); [by exists k|].
  rewrite (find_sock (sock_matches dst (port_of d 2)) (takes dst (port_of d 2))).
  2:{ intros s. unfold sock_matches, box, takes. destruct (us_used s); [|done]. simpl.
      by destruct (us_local_port s =? _), (us_local_ip s =? _), (us_local_ip s =? dst). }
  rewrite obind_Some. destruct (first_box _ 1 _) as [sock|] eqn:Ef; [|by exists k].
  apply first_box_Some in Ef as (Hs & m & Hm & Ht). rewrite view_box in Hm. pose proof Hm as Hlt.
  apply fmap_Some in Hlt as (s & Hlt%lookup_lt_Some & _). rewrite (uo_socks _ Hk) in Hlt.
  rewrite obind_Some, bswap16_invol by (apply port_of_range; done).
  assert (is_Some (box_at (udp_view k) sock)) as His.
  { unfold box_at. rewrite decide_True by lia. rewrite view_box, Hm, obind_Some. by destruct m. }
  pose proof (deliver_spec sock src (port_of d 0) d n w ltac:(lia) ltac:(lia) His) as HD. cbv zeta in HD.
  change (ua_cb (udp_view k)) with (uc_recv_cb k). change (ua_cctx (udp_view k)) with (uc_recv_ctx k).
  destruct (if nz (uc_recv_cb k) then _ else _) as [[w' a'] rc].
  destruct HD as (k' & -> & Hk' & Hv). exists k'. by rewrite obind_Some.
Qed.
End core.
