(* ===== verification/UdpClaims.v ===== *)
(** The contract of the UDP core: it refines the table of mailboxes, datagrams
    arrive as they were sent, and over the IP stack they reach the callback of
    the right host with the right ports. *)
From S2P Require Import Prelude Tcpcore TcpSeg TcpOps Ipstack IpFrame IpSpec IpInput.
From S2P Require Import IpClaims Udpcore UdpSpec.
Import IpSample.

(** ** Sequences of calls *)
Inductive udp_op :=
  | UBind (ip port : Z)
  | UClose (sock : Z)
  | USend (sock dst port : Z) (data : list Z)
  | URecv (sock cap : Z)
  | UInput (src dst : Z) (bytes : list Z) (len : Z)
  | USetCallback (cb ctx : Z).

(** Arguments within their C types, and lengths within their buffers. *)
Definition udp_op_ok (op : udp_op) : Prop :=
  match op with
  | UBind _ port => is_u16 port
  | USend _ dst port data => is_u32 dst ∧ is_u16 port ∧ octets data
  | URecv _ cap => 0 ≤ cap
  | UInput src dst bytes len => is_u32 src ∧ is_u32 dst ∧ octets bytes ∧ 0 ≤ len ≤ Z.of_nat (length bytes)
  | _ => True
  end.

(** What the caller observes: the status or handle, and a received datagram. *)
Definition udp_out : Type := Z * option (Z * Z * list Z).

Section runs.
Context {W : Type} (call_ip_tx : Z → Z → Z → Z → list Z → W → W * Z).
Context (call_recv : Z → Z → Z → Z → Z → list Z → W → W).

Definition udp_exec (op : udp_op) (x : W * udpcore_t) : option (W * udpcore_t * udp_out) :=
  let '(w, k) := x in
  match op with
  | UBind ip port => '(k, rc) ← udp_bind (Some k) ip port; k ← k; Some (w, k, (rc, None))
  | UClose sock => '(k, rc) ← udp_close (Some k) sock; k ← k; Some (w, k, (rc, None))
  | USend sock dst port data =>
      '(w, k, rc) ← udp_send call_ip_tx (Some k) sock dst port (Some data) (Z.of_nat (length data)) w;
      k ← k; Some (w, k, (rc, None))
  | URecv sock cap =>
      '(k, ip, port, buf, len, rc) ←
        udp_recv (Some k) sock (Some 0) (Some 0) (Some (replicate (Z.to_nat cap) 0)) cap (Some 0);
      k ← k; ip ← ip; port ← port; buf ← buf; len ← len;
      Some (w, k, (rc, if rc =? UDP_OK then Some (ip, port, take (Z.to_nat len) buf) else None))
  | UInput src dst bytes len =>
      '(w, k, rc) ← udp_input call_recv (Some k) src dst (Some bytes) len w; k ← k; Some (w, k, (rc, None))
  | USetCallback cb ctx => k ← udp_set_receive_cb (Some k) cb ctx; Some (w, k, (UDP_OK, None))
  end.

(** The same calls on the table of mailboxes. *)
Definition abs_exec (op : udp_op) (x : W * udp_abs) : W * udp_abs * udp_out :=
  let '(w, a) := x in
  match op with
  | UBind ip port => let '(a, rc) := abs_bind ip port a in (w, a, (rc, None))
  | UClose sock => let '(a, rc) := abs_close sock a in (w, a, (rc, None))
  | USend sock dst port data =>
      let '(w, rc) := abs_send call_ip_tx sock dst port data a w in (w, a, (rc, None))
  | URecv sock cap => let '(a, rc, pkt) := abs_recv sock cap a in (w, a, (rc, pkt))
  | UInput src dst bytes len =>
      let '(w, a, rc) := abs_input call_recv src dst bytes len a w in (w, a, (rc, None))
  | USetCallback cb ctx => (w, a <| ua_cb := cb |> <| ua_cctx := ctx |>, (UDP_OK, None))
  end.

Lemma udp_exec_spec op w k :
  udp_ok k → udp_op_ok op →
  ∃ w' k' out, udp_exec op (w, k) = Some (w', k', out) ∧ udp_ok k' ∧
    abs_exec op (w, udp_view k) = (w', udp_view k', out).
Proof.
  intros Hk Hop. destruct op as [ip port|sock|sock dst port data|sock cap|src dst bytes len|cb ctx];
    cbn [udp_exec abs_exec udp_op_ok] in *.
  - destruct (udp_bind_spec k Hk ip port Hop) as (k' & -> & Hk' & Hv). destruct (abs_bind _ _ _) as [a rc].
    exists w, k', (rc, None). simpl in Hv. by rewrite Hv.
  - destruct (udp_close_spec k Hk sock) as (k' & -> & Hk' & Hv). destruct (abs_close _ _) as [a rc].
    exists w, k', (rc, None). simpl in Hv. by rewrite Hv.
  - destruct Hop as (Hd & Hp & Ho). destruct (udp_send_spec k Hk call_ip_tx sock dst port data w Hd Hp Ho)
      as (k' & -> & Hk' & Hv). destruct (abs_send _ _ _ _ _ _ _) as [w' rc].
    exists w', k', (rc, None). by rewrite Hv.
  - pose proof (udp_recv_spec k Hk sock cap 0 0 0 (replicate (Z.to_nat cap) 0)) as H.
    rewrite length_replicate in H. specialize (H ltac:(lia)).
    destruct (abs_recv sock cap (udp_view k)) as [[a rc] [[[src sp] data]|]] eqn:E.
    + destruct H as (k' & -> & Hk' & <-). rewrite !obind_Some. exists w, k', (rc, Some (src, sp, data)).
      assert (rc = UDP_OK) as ->.
      { revert E. unfold abs_recv. repeat case_match; naive_solver. }
      change (UDP_OK =? UDP_OK) with true. by rewrite Nat2Z.id, take_app_length.
    + destruct H as [-> ->]. rewrite !obind_Some. exists w, k, (rc, None).
      destruct (Z.eqb_spec rc UDP_OK) as [->|]; [|done].
      revert E. unfold abs_recv. repeat case_match; naive_solver.
  - destruct Hop as (Hs & Hd & Ho & Hl). pose proof (udp_input_spec k Hk call_recv src dst bytes len w Hs Hd Ho Hl) as H.
    destruct (abs_input _ _ _ _ _ _ _) as [[w' a'] rc]. destruct H as (k' & -> & Hk' & <-).
    by exists w', k', (rc, None).
  - do 3 eexists. split; [done|]. split; [by destruct Hk|done].
Qed.

Fixpoint udp_run (ops : list udp_op) (x : W * udpcore_t) : option (W * udpcore_t * list udp_out) :=
  match ops with
  | [] => Some (x, [])
  | op :: ops => '(x, out) ← udp_exec op x; '(x, outs) ← udp_run ops x; Some (x, out :: outs)
  end.

Fixpoint abs_run (ops : list udp_op) (x : W * udp_abs) : W * udp_abs * list udp_out :=
  match ops with
  | [] => (x, [])
  | op :: ops => let '(x, out) := abs_exec op x in let '(x, outs) := abs_run ops x in (x, out :: outs)
  end.

Lemma udp_run_spec ops w k :
  udp_ok k → Forall udp_op_ok ops →
  ∃ w' k' outs, udp_run ops (w, k) = Some (w', k', outs) ∧ udp_ok k' ∧
    abs_run ops (w, udp_view k) = (w', udp_view k', outs).
Proof.
  intros Hk Hops. revert w k Hk. induction Hops as [|op ops Hop _ IH]; intros w k Hk; [by do 3 eexists|].
  cbn [udp_run abs_run]. destruct (udp_exec_spec op w k Hk Hop) as (w1 & k1 & out & -> & Hk1 & ->).
  rewrite obind_Some. destruct (IH w1 k1 Hk1) as (w2 & k2 & outs & -> & Hk2 & ->). by exists w2, k2, (out :: outs).
Qed.
End runs.

Lemma udp_init_spec k0 ip fn ctx :
  fn ≠ 0 → is_u32 ip →
  ∃ k, udp_init (Some k0) ip fn ctx = (Some k, UDP_OK) ∧ udp_ok k ∧
    udp_view k = mk_udp_abs ip fn ctx 0 0 (replicate 8 None).
Proof.
  intros Hfn Hip. unfold udp_init. rewrite (proj2 (Z.eqb_neq _ _)) by done. eexists. split; [done|]. split; [|done].
  constructor; try done.
  - apply Forall_replicate, zero_sock_ok.
  - apply Forall_replicate. lia.
  - intros i j m n Hi. change (uc_socks _) with (replicate 8 zero_usock) in Hi.
    destruct (replicate 8 zero_usock !! i) eqn:E; [|done]. apply lookup_replicate in E as [-> _]. done.
Qed.

(** ** Boxes of a well-formed core *)

Lemma box_at_lookup a sock m :
  box_at a sock = Some m ↔ 1 ≤ sock ≤ 8 ∧ ua_boxes a !! Z.to_nat (sock - 1) = Some (Some m).
Proof.
  unfold box_at. destruct (decide (1 ≤ sock ≤ 8)) as [Hs|Hs]; [|naive_solver]. split.
  - intros H. split; [done|]. by destruct (ua_boxes a !! _) as [[?|]|]; simpl in H; simplify_eq.
  - intros [_ H]. by rewrite H.
Qed.

Lemma box_port k (Hk : udp_ok k) sock m : box_at (udp_view k) sock = Some m → 1 ≤ sock ≤ 8 ∧ is_u16 (mb_port m).
Proof.
  intros Hm. pose proof (socket_at_spec k Hk sock) as H. rewrite Hm in H.
  destruct H as (_ & Hs & s & _ & Hb & Hu & Hso). split; [done|]. unfold box in Hb. rewrite Hu in Hb.
  injection Hb as <-. apply Hso.
Qed.

Lemma takes_unique k (Hk : udp_ok k) sock m dst :
  box_at (udp_view k) sock = Some m → mb_ip m = UDP_ANY_IP ∨ mb_ip m = dst →
  first_box (takes dst (mb_port m)) 1 (ua_boxes (udp_view k)) = Some sock.
Proof.
  intros [Hs Hm]%box_at_lookup Hip.
  rewrite (first_box_unique _ _ 1 (Z.to_nat (sock - 1)) (Some m)); [f_equal; lia|done|..].
  - simpl. rewrite Z.eqb_refl. cbn [andb]. destruct Hip as [->| ->]; rewrite Z.eqb_refl; [done|apply orb_true_r].
  - intros j [n|] Hj Ht; [|done]. simpl in Ht. zbool. rewrite view_box in Hj, Hm. by eapply (uo_ports _ Hk).
Qed.

Lemma box_at_set a sock m m' : box_at a sock = Some m → box_at (set_box a sock (Some m')) sock = Some m'.
Proof.
  intros [Hs Hm]%box_at_lookup. apply box_at_lookup. split; [done|].
  apply list_lookup_insert_eq. by eapply lookup_lt_Some.
Qed.

Lemma set_box_twice a sock m m' : box_at a sock = Some m → set_box (set_box a sock m') sock (Some m) = a.
Proof.
  intros [Hs Hm]%box_at_lookup. unfold set_box. destruct a as [x1 x2 x3 x4 x5 bs]. simpl in *.
  by rewrite list_insert_insert_eq, list_insert_id.
Qed.

(** ** Claims *)

(** [C6] The UDP core is a table of at most eight mailboxes: after [udp_init],
    every sequence of calls returns without leaving an array, and what callers,
    the receive callback and the IP layer observe (statuses, handles, received
    datagrams and transmitted bytes) is what the same calls give on the abstract
    table, in which a mailbox has a port of its own and holds at most one
    datagram. *)
Theorem udp_refines_mailboxes {W} (call_ip_tx : Z → Z → Z → Z → list Z → W → W * Z) call_recv k0 ip fn ctx ops w :
  fn ≠ 0 → is_u32 ip → Forall udp_op_ok ops →
  ∃ k w' k' outs, udp_init (Some k0) ip fn ctx = (Some k, UDP_OK) ∧
    udp_run call_ip_tx call_recv ops (w, k) = Some (w', k', outs) ∧ udp_ok k' ∧
    abs_run call_ip_tx call_recv ops (w, mk_udp_abs ip fn ctx 0 0 (replicate 8 None)) = (w', udp_view k', outs).
Proof.
  intros Hfn Hip Hops. destruct (udp_init_spec k0 ip fn ctx Hfn Hip) as (k & E & Hk & Hv).
  destruct (udp_run_spec call_ip_tx call_recv ops w k Hk Hops) as (w' & k' & outs & Er & Hk' & Ea).
  rewrite Hv in Ea. by exists k, w', k', outs.
Qed.

(** A datagram arrives as it was sent: what [udp_send] of one core gives to
    the IP layer is accepted by [udp_input] of the core bound to the destination
    port, whatever padding follows, and the next [udp_recv] there returns the
    sender's address, the sender's port and exactly the data, and empties the
    mailbox. *)
Theorem udp_datagram_arrives {W} (call_ip_tx : Z → Z → Z → Z → list Z → W → W * Z)
    (call_recv : Z → Z → Z → Z → Z → list Z → W → W) a b sa sb ma mb dst data w :
  udp_ok a → udp_ok b → is_u32 dst → octets data → (length data ≤ 1472)%nat →
  box_at (udp_view a) sa = Some ma → box_at (udp_view b) sb = Some mb →
  mb_ip mb = UDP_ANY_IP ∨ mb_ip mb = dst → mb_pkt mb = None → uc_recv_cb b = 0 →
  ∃ bytes a', udp_send call_ip_tx (Some a) sa dst (mb_port mb) (Some data) (Z.of_nat (length data)) w =
      (let '(w', rc) := call_ip_tx (uc_ip_tx a) (uc_ip_ctx a) dst UDP_PROTO bytes w in Some (w', Some a', rc)) ∧
    udp_ok a' ∧
    ∀ pad w2, octets pad → ∃ b1,
      udp_input call_recv (Some b) (uc_local_ip a) dst (Some (bytes ++ pad)) (Z.of_nat (length (bytes ++ pad))) w2 =
        Some (w2, Some b1, UDP_OK) ∧
      ∀ buf, (length data ≤ length buf)%nat → ∃ b2,
        udp_recv (Some b1) sb (Some 0) (Some 0) (Some buf) (Z.of_nat (length buf)) (Some 0) =
          Some (Some b2, Some (uc_local_ip a), Some (mb_port ma), Some (data ++ drop (length data) buf),
                Some (Z.of_nat (length data)), UDP_OK) ∧
        udp_ok b2 ∧ udp_view b2 = udp_view b.
Proof.
  intros Ha Hb Hd Ho Hl Hma Hmb Hip Hpk Hcb.
  destruct (box_port a Ha sa ma Hma) as [_ Hpa]. destruct (box_port b Hb sb mb Hmb) as [Hsb Hpb].
  pose proof (uo_ip _ Ha) as Hsrc.
  destruct (udp_send_spec a Ha call_ip_tx sa dst (mb_port mb) data w Hd Hpb Ho) as (a' & E & Ha' & _).
  unfold abs_send in E. rewrite Hma in E. rewrite (proj2 (Z.ltb_ge _ _)) in E by (unfold UDP_MAX_PAYLOAD; lia).
  eexists _, a'. split; [exact E|]. split; [done|]. intros pad w2 Hpad.
  change (ua_ip (udp_view a)) with (uc_local_ip a). set (src := uc_local_ip a) in *.
  set (bytes := udp_wire src dst (mb_port ma) (mb_port mb) data).
  assert (octets bytes) as Hob by (apply Forall_app_2; [apply udp_header_octets|done]).
  pose proof (udp_input_spec b Hb call_recv src dst (bytes ++ pad) (Z.of_nat (length (bytes ++ pad))) w2 Hsrc Hd
    ltac:(by apply Forall_app_2) ltac:(lia)) as H.
  pose proof (udp_parse_wire src dst (mb_port ma) (mb_port mb) data pad _ Hsrc Hd Hpa Hpb Ho Hl eq_refl) as Ep.
  fold bytes in Ep. unfold abs_input in H. rewrite Ep in H. rewrite (takes_unique b Hb sb mb dst) in H by done.
  change (ua_cb (udp_view b)) with (uc_recv_cb b) in H. rewrite Hcb in H. cbn [nz negb Z.eqb] in H.
  rewrite Hmb in H. destruct mb as [ip port pk]. cbn [mb_pkt] in *. subst pk.
  rewrite (proj2 (Z.ltb_ge _ _)) in H by (unfold UDP_MAX_PAYLOAD; lia).
  destruct H as (b1 & Eb & Hb1 & Hv). exists b1. split; [exact Eb|]. intros buf Hbuf.
  pose proof (udp_recv_spec b1 Hb1 sb (Z.of_nat (length buf)) 0 0 0 buf ltac:(lia)) as H.
  unfold abs_recv in H. rewrite Hv, (box_at_set _ _ _ _ Hmb) in H.
  cbn [mb_pkt mb_ip mb_port] in H. rewrite (proj2 (Z.ltb_ge _ _)) in H by lia.
  destruct H as (b2 & E2 & Hb2 & Hv2). exists b2. split; [exact E2|]. split; [done|].
  rewrite Hv2. by apply set_box_twice.
Qed.

(** The transmit hook when the IP stack is the layer below: [ip_send] itself,
    whose type is that of the hook. *)
Definition ip_hook {W} (call_link : Z → Z → list Z → W → W * Z) (_ _ dst proto : Z) (seg : list Z)
    (x : W * ipstack_t) : W * ipstack_t * Z :=
  match ip_send call_link (Some x.2) dst proto (Some seg) (Z.of_nat (length seg)) x.1 with
  | Some (w, Some s, rc) => (w, s, rc)
  | _ => (x, IP_ERR_PARAM)
  end.

(** [C25] UDP over IP: with [ip_send] as its transmit hook, [udp_send] to an
    address whose next hop is resolved puts one frame on the link, and the stack
    that owns the address calls its UDP callback with the sender's address, both
    ports and exactly the data. *)
Theorem udp_over_ip {W} (call_link : Z → Z → list Z → W → W * Z) call_arp call_icmp call_tcp call_udp
    a s r sa ma dst port data dmac w :
  udp_ok a → ip_ok s → ip_ok r → is_u32 (ip_local_ip s) → is_u32 dst → is_u16 port → octets data →
  (length data ≤ 1472)%nat → box_at (udp_view a) sa = Some ma → frame_target s dst = Some dmac →
  dst = ip_local_ip r ∨ dst = IP_BROADCAST → ip_udp_cb r ≠ 0 →
  ∃ f a' s', udp_send (ip_hook call_link) (Some a) sa dst port (Some data) (Z.of_nat (length data)) (w, s) =
      (let '(w', rc) := call_link (ip_link_tx s) (ip_link_ctx s) f w in Some (w', s', Some a', rc)) ∧
    ∀ pad w2, ip_recv call_link call_arp call_icmp call_tcp call_udp (Some r) (Some (f ++ pad))
        (Z.of_nat (length (f ++ pad))) w2 =
      Some (call_udp (ip_udp_cb r) (ip_dispatch_ctx r) (ip_local_ip s) (mb_port ma) dst port data w2, Some r, IP_OK).
Proof.
  intros Ha Hs Hr Hsrc Hd Hp Ho Hl Hma Ht Hdst Hcb. destruct (box_port a Ha sa ma Hma) as [_ Hpa].
  destruct (udp_send_spec a Ha (ip_hook call_link) sa dst port data (w, s) Hd Hp Ho) as (a' & E & _ & _).
  unfold abs_send in E. rewrite Hma in E. rewrite (proj2 (Z.ltb_ge _ _)) in E by (unfold UDP_MAX_PAYLOAD; lia).
  set (bytes := udp_wire (ua_ip (udp_view a)) dst (mb_port ma) port data) in *.
  assert (octets bytes) as Hob by (apply Forall_app_2; [apply udp_header_octets|done]).
  assert (length bytes = (8 + length data)%nat) as Hbl by (unfold bytes, udp_wire; by rewrite length_app).
  destruct (send_delivered call_link call_arp call_icmp call_tcp call_udp s r dst UDP_PROTO bytes dmac w)
    as (f & s' & Es & Er); [done..|unfold UDP_PROTO; lia|done|lia|done|done|].
  exists f, a', s'. split.
  - rewrite E. unfold ip_hook at 1. cbn [fst snd]. rewrite Es. by destruct (call_link _ _ f w) as [w' rc].
  - intros pad w2. rewrite Er. unfold deliver. change (UDP_PROTO =? IP_PROTO_ICMP) with false.
    change (UDP_PROTO =? IP_PROTO_TCP) with false. change (UDP_PROTO =? IP_PROTO_UDP) with true. cbv iota zeta.
    rewrite (proj2 (Z.ltb_ge _ _)), (proj2 (Z.eqb_neq _ _)) by (done || lia). do 3 f_equal.
    unfold bytes, udp_wire, udp_header. rewrite <-!app_assoc. set (L := 8 + _). set (c := udp_csum _ _ _ _ _).
    pose proof (port_of_be [] (be_bytes 2 port ++ be_bytes 2 L ++ be_bytes 2 c ++ data) (mb_port ma) 0 eq_refl Hpa) as E0.
    pose proof (port_of_be (be_bytes 2 (mb_port ma)) (be_bytes 2 L ++ be_bytes 2 c ++ data) port 2 eq_refl Hp) as E2.
    cbn [app] in E0. rewrite E0, E2. reflexivity.
Qed.

(** ** Witnesses *)

(** Two cores at the addresses of the two hosts, with one bound port each. *)
Module UdpSample.
Definition tx (_ _ dst proto : Z) (seg : list Z) (w : world) : world * Z := (w ++ [Up 0 proto dst 0 seg], UDP_OK).
Definition rx (_ _ sock src port : Z) (data : list Z) (w : world) : world := w ++ [Up src port sock 0 data].
Definition core (ip port : Z) : udpcore_t :=
  default zero_udpcore (r ← udp_bind (udp_init (Some zero_udpcore) ip 1 0).1 UDP_ANY_IP port; r.1).
Definition core_a : udpcore_t := core ip_a 4000.
Definition core_b : udpcore_t := core ip_b 53.

Lemma core_ok ip port :
  is_u32 ip → is_u16 port → port ≠ 0 →
  udp_ok (core ip port) ∧ box_at (udp_view (core ip port)) 1 = Some (mk_mbox UDP_ANY_IP port None).
Proof.
  intros Hip Hp Hne. destruct (udp_init_spec zero_udpcore ip 1 0) as (k & E & Hk & Hv); [done|done|].
  unfold core. rewrite E. cbn [fst]. destruct (udp_bind_spec k Hk UDP_ANY_IP port Hp) as (k' & -> & Hk' & Hv').
  change (udp_ok k' ∧ box_at (udp_view k') 1 = Some (mk_mbox UDP_ANY_IP port None)). split; [exact Hk'|]. rewrite Hv', Hv. unfold abs_bind.
  rewrite (proj2 (Z.eqb_neq _ _)) by done. reflexivity.
Qed.
End UdpSample.
Import UdpSample.

Lemma udp_refines_mailboxes_witness :
  ∃ k w' k' outs, udp_init (Some zero_udpcore) ip_a 1 0 = (Some k, UDP_OK) ∧
    udp_run tx rx [UBind 0 53; UBind 0 53; USend 1 ip_b 4000 [65]; UInput ip_b ip_a [1; 2; 3] 3; URecv 1 10; UClose 1]
      ([], k) = Some (w', k', outs) ∧ udp_ok k' ∧
    outs = [(1, None); (-1, None); (UDP_OK, None); (UDP_ERR_BAD_PACKET, None); (UDP_ERR_AGAIN, None); (UDP_OK, None)].
Proof.
  destruct (udp_refines_mailboxes tx rx zero_udpcore ip_a 1 0
    [UBind 0 53; UBind 0 53; USend 1 ip_b 4000 [65]; UInput ip_b ip_a [1; 2; 3] 3; URecv 1 10; UClose 1] [])
    as (k & w' & k' & outs & E & Er & Hk & Ea); [done|done| |].
  { apply Forall_cons_2; [done|]. apply Forall_cons_2; [done|].
    apply Forall_cons_2; [split; [done|split; [done|repeat constructor; lia]]|].
    apply Forall_cons_2; [split; [done|split; [done|split; [repeat constructor; lia|simpl; lia]]]|].
    apply Forall_cons_2; [simpl; lia|]. by apply Forall_singleton. }
  exists k, w', k', outs. split; [exact E|]. split; [exact Er|]. split; [exact Hk|].
  apply (f_equal snd) in Ea. rewrite <-(Ea : _ = outs). vm_compute. reflexivity.
Defined.

Lemma udp_datagram_arrives_witness :
  ∃ bytes a' b1 b2, udp_send tx (Some core_a) 1 ip_b 53 (Some [65; 66; 67]) 3 [] =
      Some ([Up 0 17 ip_b 0 bytes], Some a', UDP_OK) ∧
    udp_input rx (Some core_b) ip_a ip_b (Some (bytes ++ [0])) (Z.of_nat (length (bytes ++ [0]))) [] =
      Some ([], Some b1, UDP_OK) ∧
    udp_recv (Some b1) 1 (Some 0) (Some 0) (Some [0; 0; 0; 0]) 4 (Some 0) =
      Some (Some b2, Some ip_a, Some 4000, Some [65; 66; 67; 0], Some 3, UDP_OK).
Proof.
  destruct (core_ok ip_a 4000) as [Ha Ba]; [done|done|done|].
  destruct (core_ok ip_b 53) as [Hb Bb]; [done|done|done|].
  destruct (udp_datagram_arrives tx rx core_a core_b 1 1 (mk_mbox UDP_ANY_IP 4000 None) (mk_mbox UDP_ANY_IP 53 None)
    ip_b [65; 66; 67] []) as (bytes & a' & E & _ & Hr);
    [exact Ha|exact Hb|done|repeat constructor; lia|simpl; lia|exact Ba|exact Bb|by left|done|vm_compute; reflexivity|].
  destruct (Hr [0] []) as (b1 & E1 & Hr1); [repeat constructor; lia|].
  destruct (Hr1 [0; 0; 0; 0]) as (b2 & E2 & _); [simpl; lia|].
  exists bytes, a', b1, b2. split; [exact E|]. split; [exact E1|exact E2].
Defined.

Lemma udp_over_ip_witness :
  ∃ f a' s', udp_send (ip_hook on_link) (Some core_a) 1 ip_b 53 (Some [65; 66]) 2 ([], host_a2) =
      Some ([Frame f], s', Some a', IP_OK) ∧
    ip_recv on_link on_arp on_icmp on_up on_up (Some host_b) (Some (f ++ [0])) (Z.of_nat (length (f ++ [0]))) [] =
      Some ([Up ip_a 4000 ip_b 53 [65; 66]], Some host_b, IP_OK).
Proof.
  destruct (core_ok ip_a 4000) as [Ha Ba]; [done|done|done|].
  destruct (udp_over_ip on_link on_arp on_icmp on_up on_up core_a host_a2 host_b 1 (mk_mbox UDP_ANY_IP 4000 None)
    ip_b 53 [65; 66] [2; 0; 0; 0; 0; 2] []) as (f & a' & s' & E & Er);
    [exact Ha|apply host_a2_ok|by apply host_ok|done|done|done|repeat constructor; lia|simpl; lia|exact Ba|
     vm_compute; reflexivity|by left|done|].
  exists f, a', s'. split; [exact E|]. rewrite Er. reflexivity.
Defined.
