(* ===== verification/Pfwall.v ===== *)
(** The packet filter (src/Drivers/pfwall/pfwall.c, pfwall.h): an ordered table
    of rules; the first rule that matches a packet decides it. *)
From S2P Require Import Prelude.

(** ** Constants *)
Definition PFW_OK : Z := 0x00000000.
Definition PFW_ERR_PARAM : Z := 0x00000001.
Definition PFW_ERR_NOT_READY : Z := 0x00000002.
Definition PFW_ERR_FULL : Z := 0x00000003.
Definition PFW_ERR_NOT_FOUND : Z := 0x00000004.

Definition PFW_ACTION_DENY : Z := 0.
Definition PFW_ACTION_ALLOW : Z := 1.

Definition PFW_PROTO_ANY : Z := 0.
Definition PFW_PROTO_ICMP : Z := 1.
Definition PFW_PROTO_TCP : Z := 6.
Definition PFW_PROTO_UDP : Z := 17.

Definition PFW_DIR_IN : Z := 0.
Definition PFW_DIR_OUT : Z := 1.
Definition PFW_DIR_ANY : Z := 2.

Definition PFW_MAX_RULES : Z := 32.
Definition PFW_PORT_ANY : Z := 0.

(** ** Data *)
Record pfw_rule_t := mk_pfw_rule {
  pr_id : Z;
  pr_action : Z;
  pr_proto : Z;
  pr_direction : Z;
  pr_enabled : Z;
  pr_src_ip : Z;
  pr_src_mask : Z;
  pr_dst_ip : Z;
  pr_dst_mask : Z;
  pr_src_port_min : Z;
  pr_src_port_max : Z;
  pr_dst_port_min : Z;
  pr_dst_port_max : Z;
  pr_packets : Z
}.
#[export] Instance eta_pfw_rule : Eta pfw_rule_t := λ r,
  mk_pfw_rule (pr_id r) (pr_action r) (pr_proto r) (pr_direction r) (pr_enabled r) (pr_src_ip r)
    (pr_src_mask r) (pr_dst_ip r) (pr_dst_mask r) (pr_src_port_min r) (pr_src_port_max r)
    (pr_dst_port_min r) (pr_dst_port_max r) (pr_packets r).

Record pfw_packet_t := mk_pfw_packet {
  pp_proto : Z;
  pp_direction : Z;
  pp_src_ip : Z;
  pp_dst_ip : Z;
  pp_src_port : Z;
  pp_dst_port : Z
}.

Record pfw_table_t := mk_pfw_table {
  fw_initialized : bool;
  fw_default_action : Z;
  fw_next_id : Z;
  fw_rule_count : Z;
  fw_rules : list pfw_rule_t              (* [PFW_MAX_RULES] *)
}.
#[export] Instance eta_pfw_table : Eta pfw_table_t := λ f,
  mk_pfw_table (fw_initialized f) (fw_default_action f) (fw_next_id f) (fw_rule_count f) (fw_rules f).

Definition zero_rule : pfw_rule_t := mk_pfw_rule 0 0 0 0 0 0 0 0 0 0 0 0 0 0.
Definition zero_rules : list pfw_rule_t := replicate (Z.to_nat PFW_MAX_RULES) zero_rule.
Definition zero_table : pfw_table_t := mk_pfw_table false 0 0 0 zero_rules.

(** ** Matching *)

Definition pfw_ip_match (addr rule_ip mask : Z) : bool :=
  if mask =? 0 then true else Z.land addr mask =? Z.land rule_ip mask.

Definition pfw_port_match (port lo hi : Z) : bool :=
  if (lo =? PFW_PORT_ANY) && (hi =? PFW_PORT_ANY) then true
  else
    let hi := if hi =? PFW_PORT_ANY then lo else hi in
    (lo <=? port) && (port <=? hi).

Definition pfw_rule_matches (r : pfw_rule_t) (p : pfw_packet_t) : bool :=
  if pr_enabled r =? 0 then false
  else if negb (pr_proto r =? PFW_PROTO_ANY) && negb (pr_proto r =? pp_proto p) then false
  else if negb (pr_direction r =? PFW_DIR_ANY) && negb (pr_direction r =? pp_direction p) then false
  else if negb (pfw_ip_match (pp_src_ip p) (pr_src_ip r) (pr_src_mask r)) then false
  else if negb (pfw_ip_match (pp_dst_ip p) (pr_dst_ip r) (pr_dst_mask r)) then false
  else if negb (pfw_port_match (pp_src_port p) (pr_src_port_min r) (pr_src_port_max r)) then false
  else if negb (pfw_port_match (pp_dst_port p) (pr_dst_port_min r) (pr_dst_port_max r)) then false
  else true.

Definition pfw_action_valid (action : Z) : bool :=
  (action =? PFW_ACTION_ALLOW) || (action =? PFW_ACTION_DENY).

Definition pfw_proto_valid (proto : Z) : bool :=
  (proto =? PFW_PROTO_ANY) || (proto =? PFW_PROTO_ICMP) || (proto =? PFW_PROTO_TCP) ||
  (proto =? PFW_PROTO_UDP).

Definition pfw_direction_valid (dir : Z) : bool :=
  (dir =? PFW_DIR_IN) || (dir =? PFW_DIR_OUT) || (dir =? PFW_DIR_ANY).

(** ** Operations *)

Definition pfw_init (fw : ptr pfw_table_t) (default_action : Z) : ptr pfw_table_t * Z :=
  match fw with
  | None => (fw, PFW_ERR_PARAM)
  | Some _ =>
      if negb (pfw_action_valid default_action) then (fw, PFW_ERR_PARAM)
      else (Some (zero_table <| fw_default_action := default_action |> <| fw_next_id := 1 |>
                    <| fw_rule_count := 0 |> <| fw_initialized := true |>), PFW_OK)
  end.

Definition pfw_rule_init (rule : ptr pfw_rule_t) (action : Z) : ptr pfw_rule_t * Z :=
  match rule with
  | None => (rule, PFW_ERR_PARAM)
  | Some _ =>
      if negb (pfw_action_valid action) then (rule, PFW_ERR_PARAM)
      else (Some (zero_rule <| pr_action := action |> <| pr_proto := PFW_PROTO_ANY |>
                    <| pr_direction := PFW_DIR_ANY |> <| pr_enabled := 1 |>), PFW_OK)
  end.

(** [(int32_t)v] of an unsigned value. *)
Definition s32 (v : Z) : Z := if v <? 2 ^ 31 then v else v - 2 ^ 32.

Definition pfw_add_rule (fw : ptr pfw_table_t) (rule : ptr pfw_rule_t)
    : option (ptr pfw_table_t * Z) :=
  match fw, rule with
  | Some t, Some r =>
      if negb (fw_initialized t) then Some (fw, -1)
      else if negb (pfw_action_valid (pr_action r)) || negb (pfw_proto_valid (pr_proto r)) ||
              negb (pfw_direction_valid (pr_direction r)) then Some (fw, -1)
      else if (pr_src_port_max r <? pr_src_port_min r) && negb (pr_src_port_max r =? PFW_PORT_ANY)
      then Some (fw, -1)
      else if (pr_dst_port_max r <? pr_dst_port_min r) && negb (pr_dst_port_max r =? PFW_PORT_ANY)
      then Some (fw, -1)
      else if PFW_MAX_RULES <=? fw_rule_count t then Some (fw, -1)
      else
        let slot := r <| pr_id := fw_next_id t |>
                      <| pr_enabled := if nz (pr_enabled r) then 1 else 0 |> <| pr_packets := 0 |> in
        rules ← aset (fw_rules t) (fw_rule_count t) slot;
        Some (Some (t <| fw_rules := rules |> <| fw_next_id := u32 (fw_next_id t + 1) |>
                      <| fw_rule_count := u32 (fw_rule_count t + 1) |>), s32 (pr_id slot))
  | _, _ => Some (fw, -1)
  end.

Definition pfw_remove_rule (fw : ptr pfw_table_t) (rule_id : Z) : option (ptr pfw_table_t * Z) :=
  match fw with
  | None => Some (fw, PFW_ERR_PARAM)
  | Some t =>
      if negb (fw_initialized t) then Some (fw, PFW_ERR_NOT_READY)
      else
        r ← find_up (Z.to_nat (fw_rule_count t)) 0 (fw_rules t) (λ r, pr_id r =? rule_id);
        match r with
        | None => Some (fw, PFW_ERR_NOT_FOUND)
        | Some i =>
            rules ← shift_left (Z.to_nat (fw_rule_count t - 1 - i)) (fw_rules t) i;
            let count := u32 (fw_rule_count t - 1) in
            rules ← aset rules count zero_rule;
            Some (Some (t <| fw_rules := rules |> <| fw_rule_count := count |>), PFW_OK)
        end
  end.

Definition pfw_flush_rules (fw : ptr pfw_table_t) : ptr pfw_table_t * Z :=
  match fw with
  | None => (fw, PFW_ERR_PARAM)
  | Some t =>
      if negb (fw_initialized t) then (fw, PFW_ERR_NOT_READY)
      else (Some (t <| fw_rules := zero_rules |> <| fw_rule_count := 0 |> <| fw_next_id := 1 |>), PFW_OK)
  end.

Definition pfw_filter_packet (fw : ptr pfw_table_t) (pkt : ptr pfw_packet_t)
    : option (ptr pfw_table_t * Z) :=
  match fw, pkt with
  | Some t, Some p =>
      if negb (fw_initialized t) then Some (fw, PFW_ACTION_DENY)
      else
        r ← find_up (Z.to_nat (fw_rule_count t)) 0 (fw_rules t) (λ r, pfw_rule_matches r p);
        match r with
        | None => Some (fw, fw_default_action t)
        | Some i =>
            r ← aget (fw_rules t) i;
            rules ← aset (fw_rules t) i (r <| pr_packets := u32 (pr_packets r + 1) |>);
            Some (Some (t <| fw_rules := rules |>), pr_action r)
        end
  | _, _ => Some (fw, PFW_ACTION_DENY)
  end.
