(* ===== verification/PfwClaims.v ===== *)
(** The packet filter as an ordered list of rules: what a rule says about a
    packet, what each call does to the list, and the claims about sequences of
    calls.

    The contract of the packet filter over sequences of calls. *)
From S2P Require Import Prelude Pfwall.

(** ** What a rule says *)

Definition in_net (addr net mask : Z) : Prop := mask = 0 ∨ Z.land addr mask = Z.land net mask.
Definition in_ports (port lo hi : Z) : Prop :=
  lo = 0 ∧ hi = 0 ∨ hi = 0 ∧ port = lo ∨ lo ≤ port ≤ hi.

Record applies (r : pfw_rule_t) (p : pfw_packet_t) : Prop := {
  ap_enabled : pr_enabled r ≠ 0;
  ap_proto : pr_proto r = PFW_PROTO_ANY ∨ pr_proto r = pp_proto p;
  ap_direction : pr_direction r = PFW_DIR_ANY ∨ pr_direction r = pp_direction p;
  ap_src : in_net (pp_src_ip p) (pr_src_ip r) (pr_src_mask r);
  ap_dst : in_net (pp_dst_ip p) (pr_dst_ip r) (pr_dst_mask r);
  ap_src_port : in_ports (pp_src_port p) (pr_src_port_min r) (pr_src_port_max r);
  ap_dst_port : in_ports (pp_dst_port p) (pr_dst_port_min r) (pr_dst_port_max r)
}.

Lemma ip_match_iff a n m : pfw_ip_match a n m = true ↔ in_net a n m.
Proof.
  unfold pfw_ip_match, in_net. destruct (Z.eqb_spec m 0); [naive_solver|]. rewrite Z.eqb_eq. naive_solver.
Qed.

Lemma port_match_iff p lo hi : 0 ≤ p → 0 ≤ lo → pfw_port_match p lo hi = true ↔ in_ports p lo hi.
Proof.
  intros Hp Hlo. unfold pfw_port_match, in_ports, PFW_PORT_ANY.
  destruct (Z.eqb_spec lo 0), (Z.eqb_spec hi 0); cbn [andb]; rewrite ?andb_true_iff, ?Z.leb_le; lia.
Qed.

(** Ports are unsigned. *)
Definition packet_ok (p : pfw_packet_t) : Prop := 0 ≤ pp_src_port p ∧ 0 ≤ pp_dst_port p.
Definition rule_ports_ok (r : pfw_rule_t) : Prop := 0 ≤ pr_src_port_min r ∧ 0 ≤ pr_dst_port_min r.

Lemma rule_matches_conj r p :
  pfw_rule_matches r p =
    negb (pr_enabled r =? 0) && ((pr_proto r =? PFW_PROTO_ANY) || (pr_proto r =? pp_proto p)) &&
    ((pr_direction r =? PFW_DIR_ANY) || (pr_direction r =? pp_direction p)) &&
    pfw_ip_match (pp_src_ip p) (pr_src_ip r) (pr_src_mask r) &&
    pfw_ip_match (pp_dst_ip p) (pr_dst_ip r) (pr_dst_mask r) &&
    pfw_port_match (pp_src_port p) (pr_src_port_min r) (pr_src_port_max r) &&
    pfw_port_match (pp_dst_port p) (pr_dst_port_min r) (pr_dst_port_max r).
Proof.
  unfold pfw_rule_matches. rewrite <-!negb_orb. destruct (pr_enabled r =? 0); [done|]. cbn [negb andb].
  repeat match goal with |- (if negb ?b then _ else _) = _ => destruct b; cbn [negb andb]; [|done] end. done.
Qed.

Lemma rule_matches_iff r p :
  packet_ok p → rule_ports_ok r → pfw_rule_matches r p = true ↔ applies r p.
Proof.
  intros [H1 H2] [H3 H4]. rewrite rule_matches_conj, !andb_true_iff, !orb_true_iff, negb_true_iff, Z.eqb_neq, !Z.eqb_eq.
  rewrite !ip_match_iff, !port_match_iff by done.
  split; [intros ((((((? & ?) & ?) & ?) & ?) & ?) & ?); by constructor|intros []; by repeat split].
Qed.

(** ** The list of rules *)

Record policy := mk_policy { po_default : Z; po_next : Z; po_rules : list pfw_rule_t }.

(** The rules in force. *)
Definition policy_of (t : pfw_table_t) : policy :=
  mk_policy (fw_default_action t) (fw_next_id t) (take (Z.to_nat (fw_rule_count t)) (fw_rules t)).

Definition rule_valid (r : pfw_rule_t) : bool :=
  pfw_action_valid (pr_action r) && pfw_proto_valid (pr_proto r) && pfw_direction_valid (pr_direction r) &&
  ((pr_src_port_min r <=? pr_src_port_max r) || (pr_src_port_max r =? 0)) &&
  ((pr_dst_port_min r <=? pr_dst_port_max r) || (pr_dst_port_max r =? 0)).

Definition as_added (r : pfw_rule_t) (id : Z) : pfw_rule_t :=
  r <| pr_id := id |> <| pr_enabled := if nz (pr_enabled r) then 1 else 0 |> <| pr_packets := 0 |>.

Definition abs_add (r : pfw_rule_t) (P : policy) : policy * Z :=
  if rule_valid r && (length (po_rules P) <? 32)%nat then
    (mk_policy (po_default P) (u32 (po_next P + 1)) (po_rules P ++ [as_added r (po_next P)]), s32 (po_next P))
  else (P, -1).

Fixpoint remove_first (id : Z) (rs : list pfw_rule_t) : option (list pfw_rule_t) :=
  match rs with
  | [] => None
  | r :: rs => if pr_id r =? id then Some rs else rs ← remove_first id rs; Some (r :: rs)
  end.

Definition abs_remove (id : Z) (P : policy) : policy * Z :=
  match remove_first id (po_rules P) with
  | Some rs => (mk_policy (po_default P) (po_next P) rs, PFW_OK)
  | None => (P, PFW_ERR_NOT_FOUND)
  end.

Definition abs_flush (P : policy) : policy * Z := (mk_policy (po_default P) 1 [], PFW_OK).

Definition count_match (r : pfw_rule_t) : pfw_rule_t := r <| pr_packets := u32 (pr_packets r + 1) |>.

(** The first rule that matches, counted, and its action. *)
Fixpoint first_match (p : pfw_packet_t) (rs : list pfw_rule_t) : option (list pfw_rule_t * Z) :=
  match rs with
  | [] => None
  | r :: rs =>
      if pfw_rule_matches r p then Some (count_match r :: rs, pr_action r)
      else '(rs, v) ← first_match p rs; Some (r :: rs, v)
  end.

Definition abs_filter (p : pfw_packet_t) (P : policy) : policy * Z :=
  match first_match p (po_rules P) with
  | Some (rs, v) => (mk_policy (po_default P) (po_next P) rs, v)
  | None => (P, po_default P)
  end.

(** ** Calls implement the list *)

Record pfw_ok (t : pfw_table_t) : Prop := {
  po_init : fw_initialized t = true;
  po_count : 0 ≤ fw_rule_count t ≤ 32;
  po_len : length (fw_rules t) = 32%nat
}.

Lemma rules_length t : pfw_ok t → length (po_rules (policy_of t)) = Z.to_nat (fw_rule_count t).
Proof. intros [_ ? ?]. simpl. rewrite length_take. lia. Qed.

(** The guards of [pfw_add_rule]. *)
Lemma add_guards {A} r (no yes : A) :
  (if negb (pfw_action_valid (pr_action r)) || negb (pfw_proto_valid (pr_proto r)) ||
      negb (pfw_direction_valid (pr_direction r)) then no
   else if (pr_src_port_max r <? pr_src_port_min r) && negb (pr_src_port_max r =? PFW_PORT_ANY) then no
   else if (pr_dst_port_max r <? pr_dst_port_min r) && negb (pr_dst_port_max r =? PFW_PORT_ANY) then no
   else yes) = if rule_valid r then yes else no.
Proof.
  unfold rule_valid. change PFW_PORT_ANY with 0. rewrite !Z.ltb_antisym, <-!negb_andb, <-!negb_orb.
  destruct (_ && _ && pfw_direction_valid _); [|done]. cbn [negb andb].
  destruct (_ || (pr_src_port_max r =? 0)); [|done]. cbn [negb andb]. by destruct (_ || _).
Qed.

Lemma add_rule_spec t r :
  pfw_ok t →
  ∃ t', pfw_add_rule (Some t) (Some r) = Some (Some t', (abs_add r (policy_of t)).2) ∧ pfw_ok t' ∧
    policy_of t' = (abs_add r (policy_of t)).1.
Proof.
  intros Ht. pose proof Ht as [Hi Hc Hl]. unfold pfw_add_rule, abs_add. rewrite Hi. cbn [negb].
  rewrite rules_length, add_guards by done. destruct (rule_valid r); [|by eauto]. cbn [andb].
  change PFW_MAX_RULES with 32. destruct (Z.leb_spec 32 (fw_rule_count t)).
  { rewrite (proj2 (Nat.ltb_ge _ _)) by lia. by eauto. }
  rewrite (proj2 (Nat.ltb_lt _ _)) by lia. cbv zeta. fold (as_added r (fw_next_id t)).
  rewrite aset_in, obind_Some by lia. eexists. split; [done|].
  split; [constructor; simpl; [done|rewrite u32_small; lia|by rewrite length_insert]|].
  unfold policy_of. cbn [fw_rule_count fw_rules fw_default_action fw_next_id set_field fst po_rules po_default po_next].
  f_equal. rewrite u32_small by lia.
  replace (Z.to_nat (fw_rule_count t + 1)) with (S (Z.to_nat (fw_rule_count t))) by lia.
  by rewrite (take_S_r _ _ (as_added r (fw_next_id t))), take_insert_ge by (rewrite ?list_lookup_insert_eq; (done || lia)).
Qed.

(** The search loop finds the first of the rules in force that passes a test. *)
Lemma find_rule t (q : pfw_rule_t → bool) :
  pfw_ok t →
  ∃ f, find_up (Z.to_nat (fw_rule_count t)) 0 (fw_rules t) q = Some f ∧
    match f with
    | Some i => 0 ≤ i < fw_rule_count t ∧ ∃ r, aget (fw_rules t) i = Some r ∧
        po_rules (policy_of t) !! Z.to_nat i = Some r ∧ q r = true ∧
        Forall (λ r, q r = false) (take (Z.to_nat i) (po_rules (policy_of t)))
    | None => Forall (λ r, q r = false) (po_rules (policy_of t))
    end.
Proof.
  intros [_ Hc Hl]. destruct (find_up_spec (Z.to_nat (fw_rule_count t)) 0 (fw_rules t) q) as (f & -> & Hf); [lia|lia|].
  exists f. split; [done|]. simpl. destruct f as [i|].
  - destruct Hf as (Hi & (r & Hr & Hq) & Hlt). split; [lia|]. exists r. split; [done|].
    pose proof Hr as [_ Hr']%aget_Some. rewrite lookup_take_lt by lia. split; [done|]. split; [done|].
    apply Forall_lookup. intros j x Hx. apply lookup_take_Some in Hx as [Hx Hj]. apply lookup_take_Some in Hx as [Hx _].
    apply (Hlt (Z.of_nat j)); [lia|by rewrite aget_of_nat].
  - apply Forall_lookup. intros j x Hx. apply lookup_take_Some in Hx as [Hx Hj].
    apply (Hf (Z.of_nat j)); [lia|by rewrite aget_of_nat].
Qed.

Lemma remove_first_Some id rs i r :
  rs !! i = Some r → pr_id r = id → Forall (λ r, (pr_id r =? id) = false) (take i rs) →
  remove_first id rs = Some (take i rs ++ drop (S i) rs).
Proof.
  revert i. induction rs as [|x rs IH]; intros i Hi Hid Hf; [done|]. destruct i as [|i]; simpl in *.
  - injection Hi as ->. by rewrite Hid, Z.eqb_refl, drop_0.
  - apply Forall_cons_1 in Hf as [-> Hf]. by rewrite (IH i).
Qed.

Lemma remove_first_None id rs : Forall (λ r, (pr_id r =? id) = false) rs → remove_first id rs = None.
Proof. induction 1 as [|x rs Hx _ IH]; [done|]. simpl. by rewrite Hx, IH. Qed.

Lemma first_match_Some p rs i r :
  rs !! i = Some r → pfw_rule_matches r p = true → Forall (λ r, pfw_rule_matches r p = false) (take i rs) →
  first_match p rs = Some (<[i := count_match r]> rs, pr_action r).
Proof.
  revert i. induction rs as [|x rs IH]; intros i Hi Hm Hf; [done|]. destruct i as [|i]; simpl in *.
  - injection Hi as ->. by rewrite Hm.
  - apply Forall_cons_1 in Hf as [-> Hf]. by rewrite (IH i).
Qed.

Lemma first_match_None p rs : Forall (λ r, pfw_rule_matches r p = false) rs → first_match p rs = None.
Proof. induction 1 as [|x rs Hx _ IH]; [done|]. simpl. by rewrite Hx, IH. Qed.

Lemma remove_rule_spec t id :
  pfw_ok t →
  ∃ t', pfw_remove_rule (Some t) id = Some (Some t', (abs_remove id (policy_of t)).2) ∧ pfw_ok t' ∧
    policy_of t' = (abs_remove id (policy_of t)).1.
Proof.
  intros Ht. pose proof Ht as [Hi Hc Hl]. unfold pfw_remove_rule, abs_remove. rewrite Hi. cbn [negb].
  destruct (find_rule t (λ r, pr_id r =? id) Ht) as ([i|] & -> & H); rewrite obind_Some.
  2:{ rewrite remove_first_None by done. by exists t. }
  destruct H as (Hir & r & _ & Hr & Hq & Hf). apply Z.eqb_eq in Hq.
  rewrite (remove_first_Some id _ _ r Hr Hq Hf). set (n := Z.to_nat (fw_rule_count t)).
  destruct (shift_left_delete (fw_rules t) (Z.to_nat i) n zero_rule) as (l1 & l' & E1 & E2 & Hl' & Ht' & _); [lia|lia|].
  rewrite Z2Nat.id in E1 by lia.
  replace (Z.to_nat (fw_rule_count t - 1 - i)) with (n - 1 - Z.to_nat i)%nat by lia.
  rewrite E1, obind_Some, u32_small by lia. cbv zeta. replace (fw_rule_count t - 1) with (Z.of_nat n - 1) by lia.
  rewrite E2, obind_Some. eexists. split; [done|]. split; [constructor; simpl; [done|lia|lia]|].
  unfold policy_of. cbn [fw_rule_count fw_rules fw_default_action fw_next_id set_field fst po_rules po_default po_next].
  f_equal. replace (Z.to_nat (Z.of_nat n - 1)) with (n - 1)%nat by lia. rewrite Ht'. f_equal.
  by rewrite take_take, Nat.min_l by lia.
Qed.

Lemma filter_spec t p :
  pfw_ok t →
  ∃ t', pfw_filter_packet (Some t) (Some p) = Some (Some t', (abs_filter p (policy_of t)).2) ∧ pfw_ok t' ∧
    policy_of t' = (abs_filter p (policy_of t)).1.
Proof.
  intros Ht. pose proof Ht as [Hi Hc Hl]. unfold pfw_filter_packet, abs_filter. rewrite Hi. cbn [negb].
  destruct (find_rule t (λ r, pfw_rule_matches r p) Ht) as ([i|] & -> & H); rewrite obind_Some.
  2:{ rewrite first_match_None by done. by exists t. }
  destruct H as (Hir & r & Hg & Hr & Hq & Hf). rewrite (first_match_Some p _ _ r Hr Hq Hf).
  rewrite Hg, obind_Some, aset_in, obind_Some by lia. eexists. split; [done|].
  split; [constructor; simpl; [done|lia|by rewrite length_insert]|].
  unfold policy_of. cbn [fw_rule_count fw_rules fw_default_action fw_next_id set_field fst po_rules po_default po_next].
  f_equal. by rewrite take_insert_lt by lia.
Qed.

Inductive pfw_op :=
  | PAdd (r : pfw_rule_t)
  | PRemove (id : Z)
  | PFlush
  | PFilter (p : pfw_packet_t).

Definition pfw_exec (op : pfw_op) (t : pfw_table_t) : option (pfw_table_t * Z) :=
  match op with
  | PAdd r => '(t, v) ← pfw_add_rule (Some t) (Some r); t ← t; Some (t, v)
  | PRemove id => '(t, v) ← pfw_remove_rule (Some t) id; t ← t; Some (t, v)
  | PFlush => let '(t, v) := pfw_flush_rules (Some t) in t ← t; Some (t, v)
  | PFilter p => '(t, v) ← pfw_filter_packet (Some t) (Some p); t ← t; Some (t, v)
  end.

Definition policy_exec (op : pfw_op) (P : policy) : policy * Z :=
  match op with
  | PAdd r => abs_add r P
  | PRemove id => abs_remove id P
  | PFlush => abs_flush P
  | PFilter p => abs_filter p P
  end.

Fixpoint pfw_run (ops : list pfw_op) (t : pfw_table_t) : option (pfw_table_t * list Z) :=
  match ops with
  | [] => Some (t, [])
  | op :: ops => '(t, v) ← pfw_exec op t; '(t, vs) ← pfw_run ops t; Some (t, v :: vs)
  end.

Fixpoint policy_run (ops : list pfw_op) (P : policy) : policy * list Z :=
  match ops with
  | [] => (P, [])
  | op :: ops => let '(P, v) := policy_exec op P in let '(P, vs) := policy_run ops P in (P, v :: vs)
  end.

Lemma pfw_exec_spec op t :
  pfw_ok t → ∃ t' v, pfw_exec op t = Some (t', v) ∧ pfw_ok t' ∧ policy_exec op (policy_of t) = (policy_of t', v).
Proof.
  intros Ht. destruct op as [r|id| |p]; cbn [pfw_exec policy_exec].
  - destruct (add_rule_spec t r Ht) as (t' & -> & Ht' & Hp). exists t', (abs_add r (policy_of t)).2.
    rewrite Hp. by destruct (abs_add _ _).
  - destruct (remove_rule_spec t id Ht) as (t' & -> & Ht' & Hp). exists t', (abs_remove id (policy_of t)).2.
    rewrite Hp. by destruct (abs_remove _ _).
  - unfold pfw_flush_rules. rewrite (po_init _ Ht). cbn [negb]. rewrite obind_Some. do 2 eexists. split; [done|].
    split; [by destruct Ht|done].
  - destruct (filter_spec t p Ht) as (t' & -> & Ht' & Hp). exists t', (abs_filter p (policy_of t)).2.
    rewrite Hp. by destruct (abs_filter _ _).
Qed.

Lemma pfw_run_spec ops t :
  pfw_ok t → ∃ t' vs, pfw_run ops t = Some (t', vs) ∧ pfw_ok t' ∧ policy_run ops (policy_of t) = (policy_of t', vs).
Proof.
  revert t. induction ops as [|op ops IH]; intros t Ht; [by do 2 eexists|]. cbn [pfw_run policy_run].
  destruct (pfw_exec_spec op t Ht) as (t1 & v & -> & Ht1 & ->). rewrite obind_Some.
  destruct (IH t1 Ht1) as (t' & vs & -> & Ht' & ->). by exists t', (v :: vs).
Qed.

Lemma pfw_init_spec t0 d :
  pfw_action_valid d = true →
  ∃ t, pfw_init (Some t0) d = (Some t, PFW_OK) ∧ pfw_ok t ∧ policy_of t = mk_policy d 1 [].
Proof. intros Hd. unfold pfw_init. rewrite Hd. cbn [negb]. eexists. split; [done|]. by split. Qed.

(** ** Where the rules in force come from *)

(** [r] is [r0] with the identifier and counter the table gave it. *)
Definition derived (r0 r : pfw_rule_t) : Prop := ∃ id n, r = (as_added r0 id) <| pr_packets := n |>.

Lemma derived_count r0 r : derived r0 r → derived r0 (count_match r).
Proof. intros (id & n & ->). by eexists id, _. Qed.

Lemma derived_applies r0 r p : derived r0 r → applies r p → applies r0 p.
Proof.
  intros (id & n & ->) [H1 H2 H3 H4 H5 H6 H7]. constructor; try done. intros E. apply H1. simpl. unfold nz. by rewrite E.
Qed.

(** [r0] was added after the last flush. *)
Definition in_history (ops : list pfw_op) (r0 : pfw_rule_t) : Prop :=
  ∃ ops1 ops2, ops = ops1 ++ PAdd r0 :: ops2 ∧ PFlush ∉ ops2.

Lemma in_history_snoc ops op r0 : in_history ops r0 → op ≠ PFlush → in_history (ops ++ [op]) r0.
Proof.
  intros (o1 & o2 & -> & Hf) Hop. exists o1, (o2 ++ [op]). split; [by rewrite <-app_assoc|].
  rewrite elem_of_app, list_elem_of_singleton. naive_solver.
Qed.

Lemma remove_first_sub id rs rs' : remove_first id rs = Some rs' → ∀ r, r ∈ rs' → r ∈ rs.
Proof.
  revert rs'. induction rs as [|x rs IH]; intros rs' E r Hr; simpl in E; [done|].
  destruct (pr_id x =? id); [injection E as <-; by right|].
  apply bind_Some in E as (k & Ek & [= <-]). apply elem_of_cons in Hr as [->|Hr]; [by left|right; by eapply IH].
Qed.

Lemma first_match_sub p rs rs' v :
  first_match p rs = Some (rs', v) →
  (∀ r, r ∈ rs' → r ∈ rs ∨ ∃ r1, r1 ∈ rs ∧ r = count_match r1) ∧
  ∃ r, r ∈ rs ∧ pfw_rule_matches r p = true ∧ v = pr_action r.
Proof.
  revert rs'. induction rs as [|x rs IH]; intros rs' E; simpl in E; [done|].
  destruct (pfw_rule_matches x p) eqn:Hm.
  - injection E as <- <-. split; [|exists x; split_and!; [by left|done|done]].
    intros r [->|Hr]%elem_of_cons; [right; exists x; split; [by left|done]|left; by right].
  - apply bind_Some in E as ([k v'] & Ek & [= <- <-]). destruct (IH k Ek) as [H1 (r & Hr & H2)]. split.
    + intros r' [->|Hr']%elem_of_cons; [left; by left|].
      destruct (H1 r' Hr') as [|(r1 & Hr1 & ->)]; [left; by right|right; exists r1; split; [by right|done]].
    + exists r. split; [by right|done].
Qed.

Lemma policy_run_snoc ops op P :
  (policy_run (ops ++ [op]) P).1 = (policy_exec op (policy_run ops P).1).1.
Proof.
  revert P. induction ops as [|o ops IH]; intros P; simpl.
  - by destruct (policy_exec op P).
  - destruct (policy_exec o P) as [P1 v]. specialize (IH P1).
    destruct (policy_run (ops ++ [op]) P1), (policy_run ops P1). exact IH.
Qed.

Lemma policy_history ops d :
  let P := (policy_run ops (mk_policy d 1 [])).1 in
  po_default P = d ∧ ∀ r, r ∈ po_rules P → ∃ r0, in_history ops r0 ∧ derived r0 r.
Proof.
  induction ops as [|op ops IH] using rev_ind; [simpl; split; [done|by intros r ?%not_elem_of_nil]|].
  cbv zeta in *. rewrite policy_run_snoc. destruct (policy_run ops _) as [P vs]. cbn [fst] in *.
  destruct IH as [Hd IH]. assert (∀ r, r ∈ po_rules P → op ≠ PFlush → ∃ r0, in_history (ops ++ [op]) r0 ∧ derived r0 r) as Hold.
  { intros r Hr Hop. destruct (IH r Hr) as (r0 & Hh & Hdr). exists r0. split; [by apply in_history_snoc|done]. }
  destruct op as [r1|id| |p]; cbn [policy_exec]; unfold abs_add, abs_remove, abs_flush, abs_filter.
  - destruct (rule_valid r1 && _); cbn [fst po_default po_rules]; (split; [done|]); intros r Hr; [|by apply Hold].
    apply elem_of_app in Hr as [Hr| ->%list_elem_of_singleton]; [by apply Hold|].
    exists r1. split; [exists ops, []; split; [done|by intros ?%not_elem_of_nil]|]. by eexists _, 0.
  - destruct (remove_first id (po_rules P)) as [rs|] eqn:E; cbn [fst po_default po_rules]; (split; [done|]); intros r Hr.
    + apply Hold; [by eapply remove_first_sub|done].
    + by apply Hold.
  - cbn [fst po_default po_rules]. split; [done|]. by intros r ?%not_elem_of_nil.
  - destruct (first_match p (po_rules P)) as [[rs v]|] eqn:E; cbn [fst po_default po_rules]; (split; [done|]); intros r Hr.
    + destruct (first_match_sub _ _ _ _ E) as [H _]. destruct (H r Hr) as [Hr1|(r1 & Hr1 & ->)]; [by apply Hold|].
      destruct (Hold r1 Hr1) as (r0 & Hh & Hdr); [done|]. exists r0. split; [done|]. by apply derived_count.
    + by apply Hold.
Qed.

(** ** Claims *)

(** [C23] The packet filter is an ordered list of rules: after [pfw_init], every
    sequence of adding, removing, flushing and filtering returns without leaving
    the table, and every status, identifier and verdict is the one the same
    calls give on a list to which rules are appended, from which the first rule
    with an identifier is deleted, and in which the first matching rule decides
    and is counted. *)
Theorem pfw_refines_rule_list t0 d ops :
  pfw_action_valid d = true →
  ∃ t t' vs, pfw_init (Some t0) d = (Some t, PFW_OK) ∧ pfw_run ops t = Some (t', vs) ∧ pfw_ok t' ∧
    policy_run ops (mk_policy d 1 []) = (policy_of t', vs).
Proof.
  intros Hd. destruct (pfw_init_spec t0 d Hd) as (t & E & Ht & HP).
  destruct (pfw_run_spec ops t Ht) as (t' & vs & Er & Ht' & Ep). rewrite HP in Ep. by exists t, t', vs.
Qed.

(** [C22] No packet passes without a reason: with any history of calls behind it,
    a filter with the default action "deny" lets a packet through only if a rule
    with the action "allow", enabled and added since the last flush, applies to
    the packet: its protocol, direction, both networks and both port ranges. *)
Theorem pfw_allow_justified t0 ops p t' :
  packet_ok p → Forall (λ op, match op with PAdd r => rule_ports_ok r | _ => True end) ops →
  ∃ t vs, pfw_init (Some t0) PFW_ACTION_DENY = (Some t, PFW_OK) ∧ pfw_run ops t = Some vs ∧
    (pfw_filter_packet (Some vs.1) (Some p) = Some (Some t', PFW_ACTION_ALLOW) →
     ∃ r, in_history ops r ∧ pr_action r = PFW_ACTION_ALLOW ∧ applies r p).
Proof.
  intros Hp Hops. destruct (pfw_init_spec t0 PFW_ACTION_DENY eq_refl) as (t & E & Ht & HP).
  destruct (pfw_run_spec ops t Ht) as (t1 & vs & Er & Ht1 & Ep). rewrite HP in Ep.
  exists t, (t1, vs). split; [done|]. split; [done|]. cbn [fst]. intros Ef.
  destruct (filter_spec t1 p Ht1) as (t2 & Ef' & _). rewrite Ef in Ef'. injection Ef' as _ Hv. symmetry in Hv.
  pose proof (policy_history ops PFW_ACTION_DENY) as H. cbv zeta in H. rewrite Ep in H. cbn [fst] in H.
  destruct H as [Hd Hr]. unfold abs_filter in Hv.
  destruct (first_match p (po_rules (policy_of t1))) as [[rs v]|] eqn:Em; cbn [snd] in Hv; [|by rewrite Hd in Hv].
  destruct (first_match_sub _ _ _ _ Em) as [_ (r & Hin & Hm & ->)]. destruct (Hr r Hin) as (r0 & Hh & Hdr).
  exists r0. split; [done|].
  assert (rule_ports_ok r0) as Hok.
  { destruct Hh as (o1 & o2 & -> & _). apply Forall_app in Hops as [_ Hops]. by apply Forall_cons_1 in Hops as [? _]. }
  destruct Hdr as (id & n & ->). split; [exact Hv|]. eapply derived_applies; [by exists id, n|].
  apply rule_matches_iff; [done|exact Hok|exact Hm].
Qed.

(** ** Witnesses *)
Module PfwSample.
(** Allow UDP to port 53 of 10.0.0.0/8. *)
Definition dns_rule : pfw_rule_t := mk_pfw_rule 0 PFW_ACTION_ALLOW 17 PFW_DIR_ANY 1 0 0 0x0000000A 0x000000FF 0 0 53 0 0.
Definition dns_packet : pfw_packet_t := mk_pfw_packet 17 PFW_DIR_OUT 0 0x0200000A 4000 53.
Definition history : list pfw_op := [PFlush; PAdd dns_rule; PRemove 9].
Definition fw0 : pfw_table_t := default zero_table (pfw_init (Some zero_table) PFW_ACTION_DENY).1.
Definition fw1 : pfw_table_t := default zero_table (r ← pfw_run history fw0; Some r.1).
Definition fw2 : pfw_table_t := default zero_table (r ← pfw_filter_packet (Some fw1) (Some dns_packet); r.1).
End PfwSample.
Import PfwSample.

Lemma pfw_refines_rule_list_witness :
  ∃ t t' vs, pfw_init (Some zero_table) PFW_ACTION_DENY = (Some t, PFW_OK) ∧
    pfw_run (history ++ [PFilter dns_packet; PRemove 1; PFilter dns_packet]) t = Some (t', vs) ∧ pfw_ok t' ∧
    vs = [PFW_OK; 1; PFW_ERR_NOT_FOUND; PFW_ACTION_ALLOW; PFW_OK; PFW_ACTION_DENY].
Proof.
  destruct (pfw_refines_rule_list zero_table PFW_ACTION_DENY
    (history ++ [PFilter dns_packet; PRemove 1; PFilter dns_packet])) as (t & t' & vs & E & Er & Hok & Ep); [reflexivity|].
  exists t, t', vs. split; [exact E|]. split; [exact Er|]. split; [exact Hok|].
  apply (f_equal snd) in Ep. rewrite <-(Ep : _ = vs). vm_compute. reflexivity.
Defined.

Lemma pfw_allow_justified_witness :
  ∃ r, in_history history r ∧ pr_action r = PFW_ACTION_ALLOW ∧ applies r dns_packet.
Proof.
  destruct (pfw_allow_justified zero_table history dns_packet fw2) as (t & vs & E & Er & H).
  - split; simpl; lia.
  - repeat constructor; simpl; lia.
  - apply H. injection E as <-. assert (Some (fw1, [PFW_OK; 1; PFW_ERR_NOT_FOUND]) = Some vs) as [= <-].
    { rewrite <-Er. vm_compute. reflexivity. }
    vm_compute. reflexivity.
Defined.
