(* ===== verification/Owpool.v ===== *)
(** The pool allocator (src/DLL/owpool64/owpool64.c, owpool64.h): blocks of one
    size, the free ones linked through their own first four bytes.

    Memory is a map from addresses to bytes; a pointer is an address, [0] is
    [NULL], and touching an address that is not mapped is undefined. *)
From S2P Require Import Prelude.

(** ** Memory *)
Abbreviation mem := (gmap Z Z) (only parsing).

Definition mstore (m : mem) (a v : Z) : option mem := _ ← m !! a; Some (<[a := v]> m).

(** [(int32_t)v] of a 32-bit unsigned value. *)
Definition int32 (v : Z) : Z := if v <? 2 ^ 31 then v else v - 2 ^ 32.

(** ** Data *)
Definition OWPOOL_MIN_BLOCK : Z := 4.

Record owpool_stats_t := mk_owpool_stats {
  ps_total_allocs : Z;
  ps_total_frees : Z;
  ps_in_use : Z;
  ps_high_water : Z;
  ps_capacity : Z
}.

Record owpool_t := mk_owpool {
  pl_arena : Z;
  pl_block_size : Z;
  pl_block_count : Z;
  pl_free_head : Z;                      (* int32_t, -1 if none *)
  pl_free_count : Z;
  pl_in_use : Z;
  pl_high_water : Z;
  pl_total_allocs : Z;
  pl_total_frees : Z;
  pl_initialized : bool
}.
#[export] Instance eta_owpool : Eta owpool_t := λ p,
  mk_owpool (pl_arena p) (pl_block_size p) (pl_block_count p) (pl_free_head p) (pl_free_count p)
    (pl_in_use p) (pl_high_water p) (pl_total_allocs p) (pl_total_frees p) (pl_initialized p).

(** ** Free-list links *)

Definition pool_store_next (m : mem) (block index : Z) : option mem :=
  let v := u32 index in
  m ← mstore m (block + 0) (u8 (Z.land v 0xFF));
  m ← mstore m (block + 1) (u8 (Z.land (Z.shiftr v 8) 0xFF));
  m ← mstore m (block + 2) (u8 (Z.land (Z.shiftr v 16) 0xFF));
  mstore m (block + 3) (u8 (Z.land (Z.shiftr v 24) 0xFF)).

Definition pool_load_next (m : mem) (block : Z) : option Z :=
  b0 ← m !! (block + 0);
  b1 ← m !! (block + 1);
  b2 ← m !! (block + 2);
  b3 ← m !! (block + 3);
  let v := Z.lor (Z.lor (Z.lor b0 (u32 (Z.shiftl b1 8))) (u32 (Z.shiftl b2 16)))
                 (u32 (Z.shiftl b3 24)) in
  Some (int32 v).

Definition pool_block_at (pool : owpool_t) (index : Z) : Z :=
  pl_arena pool + u64 (index * pl_block_size pool).

(** [while (current >= 0 && guard <= free_count)] of the double-free check:
    at most [free_count + 1] rounds. *)
Fixpoint free_walk (fuel : nat) (next : Z → option Z) (free_count index current guard : Z)
    : option bool :=
  match fuel with
  | O => None
  | S f =>
      if (0 <=? current) && (guard <=? free_count) then
        if u32 current =? index then Some true
        else c ← next current; free_walk f next free_count index c (u32 (guard + 1))
      else Some false
  end.

Definition pool_block_is_free (m : mem) (pool : owpool_t) (index : Z) : option bool :=
  free_walk (Z.to_nat (pl_free_count pool + 2))
    (λ c, pool_load_next m (pool_block_at pool (u32 c)))
    (pl_free_count pool) index (pl_free_head pool) 0.

Definition pool_rebuild (m : mem) (pool : owpool_t) : option (mem * owpool_t) :=
  let pool := pool <| pl_free_head := -1 |> <| pl_free_count := 0 |> in
  for_up (Z.to_nat (pl_block_count pool)) 0
    (λ k '(m, pool),
       let index := pl_block_count pool - k - 1 in
       let block := pool_block_at pool index in
       m ← pool_store_next m block (pl_free_head pool);
       Some (m, pool <| pl_free_head := int32 index |>
                     <| pl_free_count := u32 (pl_free_count pool + 1) |>))
    (m, pool).

(** ** Operations *)

Definition owpool_init (m : mem) (pool : ptr owpool_t) (arena block_size block_count : Z)
    : option (mem * ptr owpool_t * bool) :=
  match pool with
  | None => Some (m, pool, false)
  | Some p =>
      if arena =? 0 then Some (m, pool, false)
      else if (block_size <? OWPOOL_MIN_BLOCK) || (block_count =? 0) then Some (m, pool, false)
      else if 0x7FFFFFFF <? block_count then Some (m, pool, false)
      else
        let p := p <| pl_arena := arena |> <| pl_block_size := block_size |>
                   <| pl_block_count := block_count |> <| pl_in_use := 0 |>
                   <| pl_high_water := 0 |> <| pl_total_allocs := 0 |> <| pl_total_frees := 0 |>
                   <| pl_free_head := -1 |> <| pl_free_count := 0 |> in
        '(m, p) ← pool_rebuild m p;
        Some (m, Some (p <| pl_initialized := true |>), true)
  end.

Definition owpool_alloc (m : mem) (pool : ptr owpool_t) : option (ptr owpool_t * Z) :=
  match pool with
  | None => Some (pool, 0)
  | Some p =>
      if negb (pl_initialized p) || (pl_free_head p <? 0) then Some (pool, 0)
      else
        let index := u32 (pl_free_head p) in
        let block := pool_block_at p index in
        next ← pool_load_next m block;
        let p := p <| pl_free_head := next |> <| pl_free_count := u32 (pl_free_count p - 1) |>
                   <| pl_in_use := u32 (pl_in_use p + 1) |>
                   <| pl_total_allocs := u64 (pl_total_allocs p + 1) |> in
        let p := if pl_high_water p <? pl_in_use p then p <| pl_high_water := pl_in_use p |> else p in
        Some (Some p, block)
  end.

Definition owpool_free (m : mem) (pool : ptr owpool_t) (block : Z)
    : option (mem * ptr owpool_t * bool) :=
  match pool with
  | None => Some (m, pool, false)
  | Some p =>
      if negb (pl_initialized p) || (block =? 0) then Some (m, pool, false)
      else if block <? pl_arena p then Some (m, pool, false)
      else
        let offset := u64 (block - pl_arena p) in
        if pl_block_size p =? 0 then None
        else if negb (offset mod pl_block_size p =? 0) then Some (m, pool, false)
        else
          let index := offset / pl_block_size p in
          if pl_block_count p <=? index then Some (m, pool, false)
          else
            is_free ← pool_block_is_free m p (u32 index);
            if (is_free : bool) then Some (m, pool, false)
            else
              m ← pool_store_next m block (pl_free_head p);
              let p := p <| pl_free_head := int32 (u32 index) |>
                         <| pl_free_count := u32 (pl_free_count p + 1) |>
                         <| pl_total_frees := u64 (pl_total_frees p + 1) |> in
              let p := if 0 <? pl_in_use p then p <| pl_in_use := u32 (pl_in_use p - 1) |> else p in
              Some (m, Some p, true)
  end.

Definition owpool_reset (m : mem) (pool : ptr owpool_t) : option (mem * ptr owpool_t * bool) :=
  match pool with
  | None => Some (m, pool, false)
  | Some p =>
      if negb (pl_initialized p) then Some (m, pool, false)
      else
        '(m, p) ← pool_rebuild m p;
        Some (m, Some (p <| pl_in_use := 0 |> <| pl_high_water := 0 |>), true)
  end.

Definition owpool_stats (pool : ptr owpool_t) (out : ptr owpool_stats_t)
    : ptr owpool_stats_t * bool :=
  match pool, out with
  | Some p, Some _ =>
      if negb (pl_initialized p) then (out, false)
      else (Some (mk_owpool_stats (pl_total_allocs p) (pl_total_frees p) (pl_in_use p)
                    (pl_high_water p) (pl_block_count p)), true)
  | _, _ => (out, false)
  end.
