(* ===== verification/FreeList.v ===== *)
(** Free lists threaded through the blocks they link: the shared part of the
    pool and slab allocators.  A list is a chain of links in memory; what is
    proved here is pushing, popping, walking and building such a chain, for a
    region of blocks at [base] with [bs] bytes each. *)
From S2P Require Import Prelude Owpool.

(** ** Links *)

Lemma mstore_in (m : mem) a v : is_Some (m !! a) → mstore m a v = Some (<[a := v]> m).
Proof. intros [x E]. unfold mstore. by rewrite E. Qed.

(** The memory after storing a link. *)
Definition with_link (m : mem) (a v : Z) : mem :=
  <[a + 3 := v / 2 ^ 24 mod 256]> (<[a + 2 := v / 2 ^ 16 mod 256]>
    (<[a + 1 := v / 2 ^ 8 mod 256]> (<[a := v mod 256]> m))).

Definition mapped (m : mem) (a n : Z) : Prop := ∀ i, a ≤ i < a + n → is_Some (m !! i).

Lemma store_next_spec m a index :
  mapped m a 4 → pool_store_next m a index = Some (with_link m a (u32 index)).
Proof.
  intros Hm. unfold pool_store_next, with_link. change 0xFF with (Z.ones 8). rewrite !Z.land_ones by lia.
  rewrite !Z.shiftr_div_pow2 by lia. change (2 ^ 8) with 256. unfold u8, wrap. change (2 ^ 8) with 256.
  rewrite !Zmod_mod, Z.add_0_r.
  assert (∀ i, 0 ≤ i < 4 → is_Some (m !! (a + i))) as Hi by (intros; apply Hm; lia).
  rewrite mstore_in, obind_Some by (apply Hm; lia).
  rewrite mstore_in, obind_Some by (rewrite lookup_insert_ne by lia; apply Hi; lia).
  rewrite mstore_in, obind_Some by (rewrite !lookup_insert_ne by lia; apply Hi; lia).
  rewrite mstore_in by (rewrite !lookup_insert_ne by lia; apply Hi; lia). done.
Qed.

Lemma with_link_other m a v i : ¬ (a ≤ i < a + 4) → with_link m a v !! i = m !! i.
Proof. intros Hi. unfold with_link. rewrite !lookup_insert_ne by lia. done. Qed.

Lemma with_link_mapped m a v b n : mapped m b n → mapped (with_link m a v) b n.
Proof.
  intros Hm i Hi. unfold with_link. rewrite !lookup_insert. repeat case_decide; try done. by apply Hm.
Qed.

Lemma int32_u32 index : -1 ≤ index < 2 ^ 31 → int32 (u32 index) = index.
Proof.
  intros Hi. unfold int32. destruct (decide (index = -1)) as [->|]; [done|].
  rewrite u32_small by lia. by rewrite (proj2 (Z.ltb_lt _ _)) by lia.
Qed.

Lemma with_link_bytes m a v :
  with_link m a v !! a = Some (v mod 256) ∧ with_link m a v !! (a + 1) = Some (v / 2 ^ 8 mod 256) ∧
  with_link m a v !! (a + 2) = Some (v / 2 ^ 16 mod 256) ∧ with_link m a v !! (a + 3) = Some (v / 2 ^ 24 mod 256).
Proof. unfold with_link. rewrite !lookup_insert. repeat split; repeat case_decide; (done || lia). Qed.

Lemma load_with_link m a index :
  -1 ≤ index < 2 ^ 31 → pool_load_next (with_link m a (u32 index)) a = Some index.
Proof.
  intros Hi. unfold pool_load_next. set (v := u32 index). rewrite Z.add_0_r.
  assert (0 ≤ v < 2 ^ 32) as Hv by (apply (u32_range index)).
  destruct (with_link_bytes m a v) as (-> & -> & -> & ->). rewrite !obind_Some, !Z.shiftl_mul_pow2 by lia.
  set (b0 := v mod 256). set (b1 := v / 2 ^ 8 mod 256). set (b2 := v / 2 ^ 16 mod 256). set (b3 := v / 2 ^ 24 mod 256).
  assert (v = b0 + 2 ^ 8 * b1 + 2 ^ 16 * b2 + 2 ^ 24 * b3) as Ev by (subst b0 b1 b2 b3; zdm).
  assert (∀ x, 0 ≤ x mod 256 < 256) as Hb by (intros; apply Z.mod_pos_bound; lia).
  pose proof (Hb v) as H0. fold b0 in H0. pose proof (Hb (v / 2 ^ 8)) as H1. fold b1 in H1.
  pose proof (Hb (v / 2 ^ 16)) as H2. fold b2 in H2. pose proof (Hb (v / 2 ^ 24)) as H3. fold b3 in H3.
  rewrite !u32_small by lia. f_equal. rewrite <-(int32_u32 index Hi). fold v. f_equal.
  rewrite (Z.lor_comm b0), <-(Z.shiftl_mul_pow2 b1), lor_shiftl_add by lia.
  rewrite (Z.lor_comm _ (b2 * _)), <-(Z.shiftl_mul_pow2 b2), lor_shiftl_add by lia.
  rewrite (Z.lor_comm _ (b3 * _)), <-(Z.shiftl_mul_pow2 b3), lor_shiftl_add by lia. lia.
Qed.

(** Loads that do not overlap the store. *)
Lemma load_agree m m' a :
  (∀ i, a ≤ i < a + 4 → m' !! i = m !! i) → pool_load_next m' a = pool_load_next m a.
Proof. intros H. unfold pool_load_next. rewrite !H by lia. done. Qed.

Lemma length_filter_complement {A} (P : A → Prop) `{!∀ x, Decision (P x)} (l : list A) :
  (length (filter P l) + length (filter (λ x, ¬ P x) l) = length l)%nat.
Proof.
  induction l as [|x l IH]; [done|]. rewrite !filter_cons.
  destruct (decide (P x)), (decide (¬ P x)); simpl; tauto || lia.
Qed.

(** ** Chains *)
Section chain.
Context (base bs count : Z) (Hbs : 4 ≤ bs < 2 ^ 32) (Hcount : 0 ≤ count < 2 ^ 31).

Definition block_of (i : Z) : Z := base + i * bs.

Fixpoint chain (m : mem) (head : Z) (fl : list Z) : Prop :=
  match fl with
  | [] => head = -1
  | i :: fl => head = i ∧ ∃ next, pool_load_next m (block_of i) = Some next ∧ chain m next fl
  end.

Lemma chain_agree m m' fl head :
  (∀ i a, i ∈ fl → block_of i ≤ a < block_of i + 4 → m' !! a = m !! a) → chain m head fl → chain m' head fl.
Proof.
  revert head. induction fl as [|i fl IH]; intros head Hag; [done|]. intros (-> & n & E & Hn). split; [done|].
  exists n. split; [|apply IH; [|done]; intros j a Hj; apply Hag; by right].
  rewrite <-E. apply load_agree. intros a Ha. apply (Hag i); [by left|done].
Qed.

Lemma block_disjoint i j a : i ≠ j → block_of i ≤ a < block_of i + bs → ¬ (block_of j ≤ a < block_of j + bs).
Proof. unfold block_of. nia. Qed.

(** Pushing a block that is not on the list. *)
Lemma chain_push m head fl i :
  0 ≤ i < 2 ^ 31 → i ∉ fl → -1 ≤ head < 2 ^ 31 → chain m head fl →
  chain (with_link m (block_of i) (u32 head)) i (i :: fl).
Proof.
  intros Hi Hn Hh Hc. split; [done|]. exists head. split; [by apply load_with_link|].
  eapply chain_agree; [|done]. intros j a Hj Ha. apply with_link_other.
  intros Ha'. destruct (decide (i = j)) as [->|Hne]; [done|]. exact (block_disjoint i j a Hne ltac:(lia) ltac:(lia)).
Qed.

Lemma chain_head m head fl : chain m head fl → head = match fl with [] => -1 | i :: _ => i end.
Proof. destruct fl; [done|]. by intros [-> _]. Qed.

Definition in_region (fl : list Z) : Prop := Forall (λ i, 0 ≤ i < count) fl.

(** The walk of the double-free check decides membership. *)
Lemma walk_spec m head fl fc index guard fuel :
  chain m head fl → in_region fl → 0 ≤ guard → guard + Z.of_nat (length fl) ≤ fc < 2 ^ 32 - 1 →
  (length fl < fuel)%nat → 0 ≤ index < 2 ^ 31 →
  free_walk fuel (λ c, pool_load_next m (base + u64 (u32 c * bs))) fc index head guard = Some (bool_decide (index ∈ fl)).
Proof.
  revert head guard fuel. induction fl as [|i fl IH]; intros head guard fuel Hc Hr Hg Hfc Hfuel Hi;
    (destruct fuel as [|fuel]; [simpl in *; lia|]); cbn [free_walk].
  - simpl in Hc. by subst head.
  - destruct Hc as (-> & n & E & Hn). apply Forall_cons_1 in Hr as [Hi' Hr]. cbn [length] in *.
    rewrite (proj2 (Z.leb_le 0 i)), (proj2 (Z.leb_le guard fc)) by lia. cbn [andb].
    rewrite u32_small by lia. rewrite u64_small by nia. fold (block_of i). destruct (Z.eqb_spec i index) as [->|Hne].
    + f_equal. symmetry. apply bool_decide_eq_true. by left.
    + rewrite E, obind_Some, u32_small, IH by (done || lia). f_equal. apply bool_decide_ext. set_solver.
Qed.
(** ** Free lists *)

(** [fl] are the free blocks of the region, in the order of the links. *)
Record freelist (m : mem) (head fc : Z) (fl : list Z) : Prop := {
  fl_chain : chain m head fl;
  fl_nodup : NoDup fl;
  fl_region : in_region fl;
  fl_count : fc = Z.of_nat (length fl)
}.

Lemma region_submset fl : NoDup fl → in_region fl → fl ⊆+ seqZ 0 count.
Proof.
  intros Hn Hr. apply NoDup_submseteq; [done|]. intros i Hi. apply elem_of_seqZ.
  unfold in_region in Hr. rewrite Forall_forall in Hr. specialize (Hr i Hi). lia.
Qed.

Lemma freelist_le m head fc fl : freelist m head fc fl → 0 ≤ fc ≤ count.
Proof.
  intros [_ Hn Hr ->]. pose proof (submseteq_length _ _ (region_submset fl Hn Hr)) as H.
  rewrite length_seqZ in H. lia.
Qed.

Lemma freelist_head m head fc fl : freelist m head fc fl → -1 ≤ head < 2 ^ 31.
Proof.
  intros [Hc _ Hr _]. apply chain_head in Hc. destruct fl; [lia|]. apply Forall_cons_1 in Hr as [? _]. lia.
Qed.

Lemma freelist_pop m i fc fl :
  freelist m i fc (i :: fl) →
  ∃ n, pool_load_next m (block_of i) = Some n ∧ freelist m n (fc - 1) fl ∧ 0 ≤ i < count ∧ i ∉ fl ∧ 1 ≤ fc.
Proof.
  intros [Hc Hn Hr ->]. destruct Hc as (_ & n & E & Hc). apply NoDup_cons in Hn as [Hi Hn].
  apply Forall_cons_1 in Hr as [Hir Hr]. exists n. split; [done|]. split; [|cbn [length]; split_and!; (done || lia)].
  constructor; [done..|]. cbn [length]. lia.
Qed.

Lemma freelist_push m head fc fl i :
  freelist m head fc fl → 0 ≤ i < count → i ∉ fl →
  freelist (with_link m (block_of i) (u32 head)) i (fc + 1) (i :: fl).
Proof.
  intros Hf Hi Hn. pose proof (freelist_head _ _ _ _ Hf) as Hh. destruct Hf as [Hc Hnd Hr ->]. constructor.
  - apply chain_push; (done || lia).
  - by apply NoDup_cons.
  - by apply Forall_cons.
  - cbn [length]. lia.
Qed.

(** ** Live blocks *)

Definition bytes (m : mem) (a : Z) : list Z := (λ k, default 0 (m !! (a + k))) <$> seqZ 0 bs.

Definition live (fl : list Z) : list Z := filter (.∉ fl) (seqZ 0 count).

(** The blocks clients own, with their contents. *)
Definition heap_of (m : mem) (fl : list Z) : gmap Z (list Z) :=
  list_to_map ((λ i, (block_of i, bytes m (block_of i))) <$> live fl).

Lemma elem_of_live fl i : i ∈ live fl ↔ 0 ≤ i < count ∧ i ∉ fl.
Proof. unfold live. rewrite list_elem_of_filter, elem_of_seqZ. intuition lia. Qed.

Lemma block_of_inj i j : block_of i = block_of j → i = j.
Proof. unfold block_of. nia. Qed.

Lemma heap_lookup m fl p blk :
  heap_of m fl !! p = Some blk ↔ ∃ i, 0 ≤ i < count ∧ i ∉ fl ∧ p = block_of i ∧ blk = bytes m (block_of i).
Proof.
  unfold heap_of. rewrite <-elem_of_list_to_map.
  - rewrite list_elem_of_fmap. split.
    + intros (i & [= -> ->] & [Hi Hn]%elem_of_live). by exists i.
    + intros (i & Hi & Hn & -> & ->). exists i. split; [done|]. by apply elem_of_live.
  - rewrite <-list_fmap_compose. apply NoDup_fmap_2_strong; [|apply NoDup_filter, NoDup_seqZ].
    intros i j _ _. apply block_of_inj.
Qed.

Lemma heap_lookup_None m fl i : 0 ≤ i < count → heap_of m fl !! block_of i = None ↔ i ∈ fl.
Proof.
  intros Hi. rewrite eq_None_not_Some. split.
  - intros H. destruct (decide (i ∈ fl)) as [|Hn]; [done|]. destruct H. eexists. apply heap_lookup. by exists i.
  - intros Hin [blk (j & _ & Hn & E%block_of_inj & _)%heap_lookup]. by subst.
Qed.

(** The guards of a free: the block is looked up in the heap. *)
Lemma free_guards {A} m head fc fl a (no : A) (yes : Z → option A) :
  freelist m head fc fl → 0 < base → base + count * bs ≤ 2 ^ 64 → 0 ≤ a < 2 ^ 64 →
  let lhs :=
    if a <? base then Some no
    else
      let offset := u64 (a - base) in
      if bs =? 0 then None
      else if negb (offset mod bs =? 0) then Some no
      else
        let index := offset / bs in
        if count <=? index then Some no
        else
          is_free ← free_walk (Z.to_nat (fc + 2)) (λ c, pool_load_next m (base + u64 (u32 c * bs))) fc (u32 index) head 0;
          if (is_free : bool) then Some no else yes index in
  (∃ i, a = block_of i ∧ 0 ≤ i < count ∧ i ∉ fl ∧ lhs = yes i) ∨ (heap_of m fl !! a = None ∧ lhs = Some no).
Proof.
  intros Hf Hb He Ha. cbv zeta.
  assert ((∀ i, 0 ≤ i < count → a ≠ block_of i) → heap_of m fl !! a = None) as Hout.
  { intros H. apply eq_None_not_Some. intros [blk (i & Hi & _ & -> & _)%heap_lookup]. by apply (H i). }
  destruct (Z.ltb_spec a base).
  { right. split; [|done]. apply Hout. intros i Hi ->. unfold block_of in *. nia. }
  rewrite u64_small, (proj2 (Z.eqb_neq bs 0)) by lia.
  destruct (Z.eqb_spec ((a - base) mod bs) 0) as [Hmod|Hmod]; cbn [negb].
  2:{ right. split; [|done]. apply Hout. intros i Hi ->. apply Hmod. unfold block_of.
      replace (base + i * bs - base) with (i * bs) by lia. apply Z.mod_mul. lia. }
  set (i := (a - base) / bs) in *. assert (a = block_of i) as Ea by (unfold block_of, i; zdm).
  assert (0 ≤ i) as Hi0 by (unfold i; apply Z.div_pos; lia).
  destruct (Z.leb_spec count i).
  { right. split; [|done]. apply Hout. intros j Hj E. rewrite Ea in E. apply block_of_inj in E. lia. }
  pose proof (freelist_le _ _ _ _ Hf) as Hfc. pose proof Hf as [Hc Hn Hr Hl]. rewrite u32_small by lia.
  rewrite (walk_spec m head fl), obind_Some by (done || lia). rewrite Ea. case_bool_decide as Hin.
  - right. split; [|done]. apply heap_lookup_None; [lia|done].
  - left. exists i. by split_and!.
Qed.

Lemma heap_size m head fc fl : freelist m head fc fl → Z.of_nat (size (heap_of m fl)) = count - fc.
Proof.
  intros [_ Hnd Hr ->]. unfold heap_of. rewrite map_size_list_to_map.
  2:{ rewrite <-list_fmap_compose. apply NoDup_fmap_2_strong; [|apply NoDup_filter, NoDup_seqZ].
      intros i j _ _. apply block_of_inj. }
  rewrite length_fmap. unfold live.
  assert (length (filter (.∈ fl) (seqZ 0 count)) = length fl) as E.
  { apply Permutation_length, NoDup_Permutation; [apply NoDup_filter, NoDup_seqZ|done|].
    intros i. rewrite list_elem_of_filter, elem_of_seqZ. unfold in_region in Hr. rewrite Forall_forall in Hr.
    split; [by intros []|]. intros Hi. split; [done|]. specialize (Hr i Hi). lia. }
  pose proof (length_filter_complement (.∈ fl) (seqZ 0 count)) as H. rewrite E, length_seqZ in H. lia.
Qed.

(** Contents depend on the bytes of the block only. *)
Lemma bytes_agree m m' a : (∀ i, a ≤ i < a + bs → m' !! i = m !! i) → bytes m' a = bytes m a.
Proof.
  intros H. apply list_fmap_ext. intros i k Hk. apply lookup_seqZ in Hk as [-> Hlt].
  by rewrite H by lia.
Qed.

Lemma heap_agree m m' fl :
  (∀ i a, 0 ≤ i < count → i ∉ fl → block_of i ≤ a < block_of i + bs → m' !! a = m !! a) →
  heap_of m' fl = heap_of m fl.
Proof.
  intros H. unfold heap_of. f_equal. apply list_fmap_ext. intros k i Hi.
  apply list_elem_of_lookup_2, elem_of_live in Hi as [Hi Hn]. f_equal. apply bytes_agree. eauto.
Qed.

(** Taking a block off the list adds it to the heap, putting it back removes
    it, and writing a link into a free block changes no live one. *)
Lemma heap_pop m fl i : 0 ≤ i < count → i ∉ fl → heap_of m fl = <[block_of i := bytes m (block_of i)]> (heap_of m (i :: fl)).
Proof.
  intros Hi Hn. apply map_eq. intros p. apply option_eq. intros blk. rewrite lookup_insert_Some, !heap_lookup. split.
  - intros (j & Hj & Hjn & -> & ->). destruct (decide (j = i)) as [->|Hne]; [by left|right].
    split; [by intros ?%block_of_inj|]. exists j. split; [done|]. split; [by rewrite not_elem_of_cons|done].
  - intros [[<- <-]|(Hne & j & Hj & Hjn & -> & ->)]; [by exists i|].
    rewrite not_elem_of_cons in Hjn. exists j. naive_solver.
Qed.

Lemma heap_push m fl i : 0 ≤ i < count → heap_of m (i :: fl) = delete (block_of i) (heap_of m fl).
Proof.
  intros Hi. apply map_eq. intros p. apply option_eq. intros blk. rewrite lookup_delete_Some, !heap_lookup. split.
  - intros (j & Hj & [Hne Hjn]%not_elem_of_cons & -> & ->). split; [by intros ?%block_of_inj|]. by exists j.
  - intros (Hne & j & Hj & Hjn & -> & ->). exists j. split; [done|]. split; [|done].
    rewrite not_elem_of_cons. naive_solver.
Qed.

Lemma heap_link m fl i v : i ∈ fl → heap_of (with_link m (block_of i) v) fl = heap_of m fl.
Proof.
  intros Hi. apply heap_agree. intros j a Hj Hn Ha. apply with_link_other. intros Ha'.
  destruct (decide (i = j)) as [->|Hne]; [done|]. exact (block_disjoint i j a Hne ltac:(lia) ltac:(lia)).
Qed.
(** ** Client accesses *)

Lemma freelist_agree m m' head fc fl :
  (∀ i a, i ∈ fl → block_of i ≤ a < block_of i + 4 → m' !! a = m !! a) →
  freelist m head fc fl → freelist m' head fc fl.
Proof. intros H [Hc Hn Hr Hl]. constructor; try done. by eapply chain_agree. Qed.

Lemma write_other (m : mem) (fl : list Z) i off b j a :
  i ∉ fl → 0 ≤ off < bs → j ∈ fl → block_of j ≤ a < block_of j + 4 → <[block_of i + off := b]> m !! a = m !! a.
Proof.
  intros Hn Ho Hj Ha. apply lookup_insert_ne. intros E. destruct (decide (i = j)) as [->|Hne]; [done|].
  exact (block_disjoint i j a Hne ltac:(lia) ltac:(lia)).
Qed.

Lemma bytes_write m a off b :
  0 ≤ off < bs → bytes (<[a + off := b]> m) a = <[Z.to_nat off := b]> (bytes m a).
Proof.
  intros Ho. apply list_eq. intros k. unfold bytes. rewrite list_lookup_fmap.
  destruct (decide (k = Z.to_nat off)) as [->|Hne].
  - rewrite list_lookup_insert_eq by (rewrite length_fmap, length_seqZ; lia).
    rewrite (proj2 (lookup_seqZ 0 bs (Z.to_nat off) off)) by lia. simpl. by rewrite lookup_insert_eq.
  - rewrite list_lookup_insert_ne, list_lookup_fmap by done.
    destruct (seqZ 0 bs !! k) as [x|] eqn:E; [|done]. apply lookup_seqZ in E as [-> _]. simpl.
    by rewrite lookup_insert_ne by lia.
Qed.

Lemma heap_write m fl i off b :
  0 ≤ i < count → i ∉ fl → 0 ≤ off < bs →
  heap_of (<[block_of i + off := b]> m) fl =
    <[block_of i := <[Z.to_nat off := b]> (bytes m (block_of i))]> (heap_of m fl).
Proof.
  intros Hi Hn Ho. apply map_eq. intros p. apply option_eq. intros blk. rewrite lookup_insert_Some, !heap_lookup.
  assert (∀ j, j ≠ i → bytes (<[block_of i + off := b]> m) (block_of j) = bytes m (block_of j)) as Hj.
  { intros j Hj. apply bytes_agree. intros a Ha. apply lookup_insert_ne. intros E.
    exact (block_disjoint j i a Hj Ha ltac:(lia)). }
  split.
  - intros (j & Hjr & Hjn & -> & ->). destruct (decide (j = i)) as [->|Hne]; [left; by rewrite bytes_write|right].
    split; [by intros ?%block_of_inj|]. exists j. by rewrite Hj.
  - intros [[<- <-]|(Hne & j & Hjr & Hjn & -> & ->)]; [exists i; by rewrite bytes_write|].
    exists j. rewrite Hj; [done|]. by intros ->.
Qed.

Lemma bytes_length m a : Z.of_nat (length (bytes m a)) = bs.
Proof. unfold bytes. rewrite length_fmap, length_seqZ. lia. Qed.

Lemma bytes_read m a off : mapped m a bs → 0 ≤ off < bs → aget (bytes m a) off = m !! (a + off).
Proof.
  intros Hm Ho. rewrite aget_to_nat by lia. unfold bytes. rewrite list_lookup_fmap.
  rewrite (proj2 (lookup_seqZ 0 bs (Z.to_nat off) off)) by lia. simpl.
  destruct (Hm (a + off)) as [x E]; [lia|]. by rewrite E.
Qed.

Lemma heap_all_free m : heap_of m (seqZ 0 count) = ∅.
Proof.
  apply map_empty. intros p. apply eq_None_not_Some. intros [blk (i & Hi & Hn & _)%heap_lookup].
  apply Hn, elem_of_seqZ. lia.
Qed.
End chain.

(** ** Client operations *)

(** What clients of an allocator do: calls, and reads and writes of bytes. *)
Inductive blk_op :=
  | BAlloc
  | BFree (p : Z)
  | BReset
  | BWrite (p off b : Z)
  | BRead (p off : Z).

(** The allocator as a map from the pointers clients own to what they wrote
    there; [count] blocks of [bs] bytes from [base] on. *)
Inductive blk_step (base bs count : Z) (A : gmap Z (list Z)) : blk_op → Z → gmap Z (list Z) → Prop :=
  | step_alloc p blk : A !! p = None → p ≠ 0 → (∃ i, 0 ≤ i < count ∧ p = base + i * bs) → Z.of_nat (length blk) = bs →
      blk_step base bs count A BAlloc p (<[p := blk]> A)
  | step_exhausted : Z.of_nat (size A) = count → blk_step base bs count A BAlloc 0 A
  | step_free p : is_Some (A !! p) → blk_step base bs count A (BFree p) 1 (delete p A)
  | step_free_refused p : A !! p = None → blk_step base bs count A (BFree p) 0 A
  | step_reset : blk_step base bs count A BReset 1 ∅
  | step_write p blk off b : A !! p = Some blk → 0 ≤ off < bs →
      blk_step base bs count A (BWrite p off b) 0 (<[p := <[Z.to_nat off := b]> blk]> A)
  | step_read p blk off b : A !! p = Some blk → aget blk off = Some b → blk_step base bs count A (BRead p off) b A.

(** Clients touch only blocks they own. *)
Definition blk_op_ok (bs : Z) (A : gmap Z (list Z)) (op : blk_op) : Prop :=
  match op with
  | BFree p => 0 ≤ p < 2 ^ 64
  | BWrite p off _ | BRead p off => is_Some (A !! p) ∧ 0 ≤ off < bs
  | _ => True
  end.

(** What the client owns after a call: its own record of pointers and of what
    it stored there. *)
Definition owned (bs : Z) (m' : mem) (A : gmap Z (list Z)) (op : blk_op) (out : Z) : gmap Z (list Z) :=
  match op with
  | BAlloc => if out =? 0 then A else <[out := bytes bs m' out]> A
  | BFree p => if out =? 0 then A else delete p A
  | BReset => if out =? 0 then A else ∅
  | BWrite p off b => alter (λ blk, <[Z.to_nat off := b]> blk) p A
  | BRead _ _ => A
  end.
