(* ===== verification/OwpoolSpec.v ===== *)
(** The pool allocator implements a map from owned blocks to their contents. *)
From S2P Require Import Prelude Owpool FreeList.

Record pool_ok (m : mem) (p : owpool_t) (fl : list Z) : Prop := {
  pk_init : pl_initialized p = true;
  pk_bs : 4 ≤ pl_block_size p < 2 ^ 32;
  pk_count : 0 < pl_block_count p < 2 ^ 31;
  pk_arena : 0 < pl_arena p ∧ pl_arena p + pl_block_count p * pl_block_size p ≤ 2 ^ 64;
  pk_mapped : mapped m (pl_arena p) (pl_block_count p * pl_block_size p);
  pk_free : freelist (pl_arena p) (pl_block_size p) (pl_block_count p) m (pl_free_head p) (pl_free_count p) fl;
  pk_use : pl_in_use p = pl_block_count p - pl_free_count p;
  pk_high : pl_in_use p ≤ pl_high_water p ≤ pl_block_count p
}.

Abbreviation blk p := (block_of (pl_arena p) (pl_block_size p)).
Abbreviation pool_heap m p fl := (heap_of (pl_arena p) (pl_block_size p) (pl_block_count p) m fl).

Lemma block_at_spec p i :
  0 ≤ pl_block_size p < 2 ^ 32 → 0 ≤ i < 2 ^ 31 → pool_block_at p i = blk p i.
Proof. intros. unfold pool_block_at, block_of. rewrite u64_small by nia. done. Qed.

Lemma block_mapped m base bs count i :
  4 ≤ bs → mapped m base (count * bs) → 0 ≤ i < count → mapped m (block_of base bs i) bs.
Proof. intros Hbs Hm Hi a Ha. apply Hm. unfold block_of in *. nia. Qed.

Lemma mapped_sub m a n k : mapped m a n → k ≤ n → mapped m a k.
Proof. intros Hm Hk i Hi. apply Hm. lia. Qed.

(** Memory outside the arena is left alone. *)
Definition only_in (m m' : mem) (a n : Z) : Prop := ∀ i, ¬ (a ≤ i < a + n) → m' !! i = m !! i.

Lemma only_in_refl m a n : only_in m m a n.
Proof. done. Qed.

Lemma only_in_link m m1 base bs count i v :
  4 ≤ bs → 0 ≤ i < count → only_in m m1 base (count * bs) → only_in m (with_link m1 (block_of base bs i) v) base (count * bs).
Proof.
  intros Hbs Hi H a Ha. rewrite <-H by done. apply with_link_other. unfold block_of. nia.
Qed.

(** ** Building the list *)

Lemma rebuild_spec m p :
  4 ≤ pl_block_size p < 2 ^ 32 → 0 < pl_block_count p < 2 ^ 31 →
  mapped m (pl_arena p) (pl_block_count p * pl_block_size p) →
  ∃ m' h, pool_rebuild m p = Some (m', p <| pl_free_head := h |> <| pl_free_count := pl_block_count p |>) ∧
    mapped m' (pl_arena p) (pl_block_count p * pl_block_size p) ∧
    freelist (pl_arena p) (pl_block_size p) (pl_block_count p) m' h (pl_block_count p) (seqZ 0 (pl_block_count p)) ∧
    only_in m m' (pl_arena p) (pl_block_count p * pl_block_size p).
Proof.
  intros Hbs Hc Hm. unfold pool_rebuild. set (n := pl_block_count p) in *.
  loop_inv (λ k '(m', p'), ∃ h, p' = p <| pl_free_head := h |> <| pl_free_count := k |> ∧
    mapped m' (pl_arena p) (n * pl_block_size p) ∧
    freelist (pl_arena p) (pl_block_size p) n m' h k (seqZ (n - k) k) ∧
    only_in m m' (pl_arena p) (n * pl_block_size p)) as ([m' p'] & -> & h & -> & Hm' & Hf & Ho).
  - exists (-1). split; [done|]. split; [done|]. split; [|done]. constructor; [done|constructor|constructor|done].
  - intros k [m1 p1] Hk (h & -> & Hm1 & Hf & Ho1). change (pl_block_count (set_field _ _ _)) with n.
    cbn [pl_free_head pl_free_count set_field] in *.
    change (Z.to_nat (pl_block_count _)) with (Z.to_nat n) in Hk. cbn [pl_block_count] in *. cbv zeta.
    rewrite block_at_spec by (cbn; lia). cbn [pl_arena pl_block_size].
    set (i := n - k - 1). rewrite store_next_spec.
    2:{ eapply mapped_sub; [eapply block_mapped; [|exact Hm1|]|]; subst i; lia. }
    rewrite obind_Some. eexists. split; [done|]. exists i.
    assert (i ∉ seqZ (n - k) k) as Hi by (rewrite elem_of_seqZ; subst i; lia).
    split; [|split; [|split]].
    + unfold int32. rewrite (proj2 (Z.ltb_lt _ _)), u32_small by (subst i; lia). done.
    + by apply with_link_mapped.
    + replace (seqZ (n - (k + 1)) (k + 1)) with (i :: seqZ (n - k) k).
      * apply freelist_push; (done || subst i; lia).
      * replace (n - (k + 1)) with i by (subst i; lia). rewrite (seqZ_cons i (k + 1)) by lia.
        f_equal. f_equal; subst i; lia.
    + apply only_in_link; (done || subst i; lia).
  - change (Z.to_nat (pl_block_count _)) with (Z.to_nat n) in *. rewrite Z2Nat.id, Z.add_0_l in * by lia.
    rewrite Z.sub_diag in Hf. by exists m', h.
Qed.

(** ** Calls *)
Section calls.
Context (m : mem) (p : owpool_t) (fl : list Z) (Hp : pool_ok m p fl).

Lemma live_index i : 0 ≤ i < pl_block_count p → 0 ≤ i < 2 ^ 31 ∧ pool_block_at p i = blk p i ∧ blk p i ≠ 0.
Proof.
  intros Hi. destruct Hp as [_ Hbs Hc Ha _ _ _ _]. split; [lia|]. rewrite block_at_spec by lia. split; [done|].
  unfold block_of. nia.
Qed.

Lemma owpool_alloc_spec :
  ∃ p' a, owpool_alloc m (Some p) = Some (Some p', a) ∧
    match fl with
    | [] => p' = p ∧ a = 0
    | i :: fl' => a = blk p i ∧ a ≠ 0 ∧ 0 ≤ i < pl_block_count p ∧ i ∉ fl' ∧ pool_ok m p' fl' ∧
        pl_arena p' = pl_arena p ∧ pl_block_size p' = pl_block_size p ∧ pl_block_count p' = pl_block_count p
    end.
Proof.
  pose proof Hp as [Hi Hbs Hc Ha Hm Hf Hu Hh]. unfold owpool_alloc. rewrite Hi. cbn [negb orb].
  pose proof (fl_chain _ _ _ _ _ _ _ Hf) as Hch. pose proof (chain_head _ _ _ _ _ Hch) as Hhd.
  pose proof (freelist_le _ _ (pl_block_count p) ltac:(lia) _ _ _ _ Hf) as Hfc.
  pose proof live_index as Hlive. destruct fl as [|i fl']; rewrite Hhd.
  { change (-1 <? 0) with true. by exists p, 0. }
  rewrite Hhd in Hf. destruct (freelist_pop _ _ _ _ _ _ _ Hf) as (n & E & Hf' & Hir & Hn & Hfc1).
  destruct (Hlive i Hir) as (Hi31 & Eb & Hnz).
  rewrite (proj2 (Z.ltb_ge _ _)) by lia. rewrite (u32_small i), Eb, E, obind_Some by lia. cbv zeta.
  cbn [pl_high_water pl_in_use set_field].
  destruct (Z.ltb_spec (pl_high_water p) (u32 (pl_in_use p + 1))) as [Hlt|Hge]; do 2 eexists; (split; [done|]);
    (split; [done|]); (split; [done|]); (split; [done|]); (split; [done|]); (split; [|done]);
    (constructor; cbn [pl_initialized pl_block_size pl_block_count pl_arena pl_free_head pl_free_count pl_in_use
       pl_high_water]; rewrite ?u32_small in * by lia; (done || lia)).
Qed.

Lemma owpool_free_spec a :
  0 ≤ a < 2 ^ 64 →
  (∃ p' i, owpool_free m (Some p) a = Some (with_link m a (u32 (pl_free_head p)), Some p', true) ∧ a = blk p i ∧
     0 ≤ i < pl_block_count p ∧ i ∉ fl ∧ pool_ok (with_link m a (u32 (pl_free_head p))) p' (i :: fl) ∧
     pl_arena p' = pl_arena p ∧ pl_block_size p' = pl_block_size p ∧ pl_block_count p' = pl_block_count p) ∨
  pool_heap m p fl !! a = None ∧ owpool_free m (Some p) a = Some (m, Some p, false).
Proof.
  intros Ha64. pose proof Hp as [Hi Hbs Hc Ha Hm Hf Hu Hh]. unfold owpool_free. rewrite Hi. cbn [negb orb].
  destruct (Z.eqb_spec a 0) as [->|Hne].
  { right. split; [|done]. apply eq_None_not_Some. intros [b (i & Hir & _ & E & _)%heap_lookup]; [|lia..].
    destruct (live_index i Hir) as (_ & _ & Hnz). congruence. }
  assert (0 ≤ pl_block_count p < 2 ^ 31) as Hc0 by lia.
  pose proof (freelist_le _ _ _ Hc0 _ _ _ _ Hf) as Hfc.
  destruct (free_guards (pl_arena p) (pl_block_size p) (pl_block_count p) Hbs Hc0 m (pl_free_head p)
    (pl_free_count p) fl a (m, Some p, false) (λ index,
      m ← pool_store_next m a (pl_free_head p);
      let p := p <| pl_free_head := int32 (u32 index) |> <| pl_free_count := u32 (pl_free_count p + 1) |>
                 <| pl_total_frees := u64 (pl_total_frees p + 1) |> in
      let p := if 0 <? pl_in_use p then p <| pl_in_use := u32 (pl_in_use p - 1) |> else p in
      Some (m, Some p, true)) Hf) as [(i & Ea & Hir & Hn & E)|[Hout E]]; [lia|lia|lia|left|right; split; [done|exact E]].
  pose proof (live_index i Hir) as (Hi31 & _ & _).
  assert (pl_free_count p + 1 ≤ pl_block_count p) as Hroom.
  { pose proof (freelist_push _ _ _ Hbs Hc0 _ _ _ _ i Hf Hir Hn) as Hf2.
    pose proof (freelist_le _ _ _ Hc0 _ _ _ _ Hf2). lia. }
  eexists _, i. split.
  { etransitivity; [exact E|]. cbv beta zeta. rewrite store_next_spec, obind_Some.
    2:{ rewrite Ea. eapply mapped_sub; [eapply block_mapped; [|exact Hm|]|]; lia. }
    cbn [pl_in_use set_field]. rewrite (proj2 (Z.ltb_lt 0 _)) by lia. reflexivity. }
  split; [done|]. split; [done|]. split; [done|]. split; [|done].
  constructor; cbn [pl_initialized pl_block_size pl_block_count pl_arena pl_free_head pl_free_count pl_in_use
       pl_high_water]; try done.
  - by apply with_link_mapped.
  - rewrite int32_u32, (u32_small (pl_free_count p + 1)) by lia. rewrite Ea. by apply freelist_push.
  - rewrite !u32_small by lia. lia.
  - rewrite !u32_small by lia. lia.
Qed.
End calls.

(** ** Client runs *)

(** A client's own loads and stores. *)
Definition client_write (m : mem) (p off b : Z) : option mem := mstore m (p + off) b.
Definition client_read (m : mem) (p off : Z) : option Z := m !! (p + off).

Definition pool_exec (op : blk_op) (x : mem * owpool_t) : option (mem * owpool_t * Z) :=
  let '(m, p) := x in
  match op with
  | BAlloc => '(p, a) ← owpool_alloc m (Some p); p ← p; Some (m, p, a)
  | BFree a => '(m, p, r) ← owpool_free m (Some p) a; p ← p; Some (m, p, if (r : bool) then 1 else 0)
  | BReset => '(m, p, r) ← owpool_reset m (Some p); p ← p; Some (m, p, if (r : bool) then 1 else 0)
  | BWrite a off b => m ← client_write m a off b; Some (m, p, 0)
  | BRead a off => b ← client_read m a off; Some (m, p, b)
  end.

(** Reachable states, with what the client owns. *)
Inductive pool_reach (m0 : mem) (arena bs count : Z) : mem → owpool_t → gmap Z (list Z) → Prop :=
  | pr_init p0 m p :
      owpool_init m0 (Some p0) arena bs count = Some (m, Some p, true) → pool_reach m0 arena bs count m p ∅
  | pr_step m p A op m' p' out :
      pool_reach m0 arena bs count m p A → blk_op_ok bs A op →
      pool_exec op (m, p) = Some (m', p', out) →
      pool_reach m0 arena bs count m' p' (owned bs m' A op out).

Lemma owpool_init_spec m p0 arena bs count :
  0 < arena → 4 ≤ bs < 2 ^ 32 → 0 < count < 2 ^ 31 → arena + count * bs ≤ 2 ^ 64 → mapped m arena (count * bs) →
  ∃ m' p, owpool_init m (Some p0) arena bs count = Some (m', Some p, true) ∧ pool_ok m' p (seqZ 0 count) ∧
    pl_arena p = arena ∧ pl_block_size p = bs ∧ pl_block_count p = count.
Proof.
  intros Ha Hbs Hc He Hm. unfold owpool_init. rewrite (proj2 (Z.eqb_neq arena 0)) by lia.
  rewrite (proj2 (Z.ltb_ge bs _)) by (unfold OWPOOL_MIN_BLOCK; lia). rewrite (proj2 (Z.eqb_neq count 0)) by lia.
  cbn [orb]. rewrite (proj2 (Z.ltb_ge _ count)) by lia. cbv zeta. set (p1 := set_field _ _ _).
  destruct (rebuild_spec m p1) as (m' & h & E & Hm' & Hf & _); [done|done|done|].
  rewrite E, obind_Some. eexists _, _. split; [done|]. split; [|done].
  constructor; try done.
  - cbn. subst p1. cbn. lia.
  - cbn. lia.
Qed.

Lemma owpool_reset_spec m p fl :
  pool_ok m p fl →
  ∃ m' p', owpool_reset m (Some p) = Some (m', Some p', true) ∧ pool_ok m' p' (seqZ 0 (pl_block_count p)) ∧
    only_in m m' (pl_arena p) (pl_block_count p * pl_block_size p) ∧
    pl_arena p' = pl_arena p ∧ pl_block_size p' = pl_block_size p ∧ pl_block_count p' = pl_block_count p.
Proof.
  intros [Hi Hbs Hc Ha Hm Hf Hu Hh]. unfold owpool_reset. rewrite Hi. cbn [negb].
  destruct (rebuild_spec m p) as (m' & h & -> & Hm' & Hf' & Ho); [done..|]. rewrite obind_Some.
  eexists _, _. split; [done|]. split; [|done]. constructor; try done; cbn; lia.
Qed.

(** Every call on a well-formed pool. *)
Lemma pool_exec_spec m p fl op (Hp : pool_ok m p fl) :
  let A := pool_heap m p fl in
  blk_op_ok (pl_block_size p) A op →
  ∃ m' p' fl' out, pool_exec op (m, p) = Some (m', p', out) ∧ pool_ok m' p' fl' ∧
    only_in m m' (pl_arena p) (pl_block_count p * pl_block_size p) ∧
    pl_arena p' = pl_arena p ∧ pl_block_size p' = pl_block_size p ∧ pl_block_count p' = pl_block_count p ∧
    pool_heap m' p fl' = owned (pl_block_size p) m' A op out ∧
    blk_step (pl_arena p) (pl_block_size p) (pl_block_count p) A op out (pool_heap m' p fl').
Proof.
  intros A Hop. pose proof Hp as [Hi Hbs Hc Ha Hm Hf Hu Hh].
  assert (0 ≤ pl_block_count p < 2 ^ 31) as Hc0 by lia.
  destruct op as [|a| |a off b|a off]; cbn [pool_exec blk_op_ok] in *.
  - destruct (owpool_alloc_spec m p fl Hp) as (p' & a & -> & H). rewrite !obind_Some. destruct fl as [|i fl'].
    + destruct H as [-> ->]. exists m, p, [], 0. split; [done|]. split; [done|]. do 4 (split; [done|]).
      split; [done|]. apply step_exhausted. unfold A. rewrite (heap_size _ _ _ Hbs Hc0 _ _ _ _ Hf).
      rewrite (fl_count _ _ _ _ _ _ _ Hf). simpl. lia.
    + destruct H as (-> & Hnz & Hir & Hn & Hok & G1 & G2 & G3). exists m, p', fl', (blk p i).
      split; [done|]. split; [done|]. do 4 (split; [done|]). rewrite (heap_pop _ _ _ Hbs Hc0 m fl' i) by done.
      unfold owned. rewrite (proj2 (Z.eqb_neq _ 0)) by done. split; [done|]. apply step_alloc; [|done|by exists i|].
      * apply heap_lookup_None; [done..|by left].
      * by apply bytes_length.
  - destruct (owpool_free_spec m p fl Hp a Hop) as [(p' & i & -> & -> & Hir & Hn & Hok & G1 & G2 & G3)|[Hout ->]];
      rewrite !obind_Some.
    + eexists _, p', (i :: fl), 1. split; [done|]. split; [exact Hok|].
      split; [apply only_in_link; (done || lia)|]. do 3 (split; [done|]).
      rewrite heap_link, heap_push by (done || by left). split; [done|]. apply step_free.
      eexists. apply heap_lookup; [done..|]. by exists i.
    + exists m, p, fl, 0. split; [done|]. split; [done|]. do 4 (split; [done|]). split; [done|]. by apply step_free_refused.
  - destruct (owpool_reset_spec m p fl Hp) as (m' & p' & -> & Hok & Ho & G1 & G2 & G3). rewrite !obind_Some.
    exists m', p', (seqZ 0 (pl_block_count p)), 1. split; [done|]. split; [done|]. do 4 (split; [done|]).
    rewrite heap_all_free by done. split; [done|]. apply step_reset.
  - destruct Hop as [[blk0 Hb] Ho]. pose proof Hb as (i & Hir & Hn & -> & Eb)%heap_lookup; [|done..].
    unfold client_write. rewrite mstore_in by (eapply block_mapped; [|exact Hm| |]; (done || lia)). rewrite obind_Some.
    eexists _, p, fl, 0. split; [done|]. split.
    { constructor; try done.
      - intros x Hx. rewrite lookup_insert. case_decide; [done|]. by apply Hm.
      - eapply freelist_agree; [|exact Hf]. intros j x Hj Hx. by eapply write_other. }
    split; [intros x Hx; apply lookup_insert_ne; unfold block_of in *; nia|].
    do 3 (split; [done|]). rewrite heap_write by done. rewrite <-Eb. split.
    { unfold owned. apply map_eq. intros q. destruct (decide (q = blk p i)) as [->|Hne].
      - rewrite lookup_insert_eq, lookup_alter_eq. by rewrite Hb.
      - by rewrite lookup_insert_ne, lookup_alter_ne. }
    by apply step_write.
  - destruct Hop as [[blk0 Hb] Ho]. pose proof Hb as (i & Hir & Hn & -> & Eb)%heap_lookup; [|done..].
    assert (mapped m (blk p i) (pl_block_size p)) as Hmb by (eapply block_mapped; [|exact Hm|]; (done || lia)).
    unfold client_read. destruct (Hmb (blk p i + off)) as [x Hx]; [lia|]. rewrite Hx, obind_Some.
    exists m, p, fl, x. split; [done|]. split; [done|]. do 4 (split; [done|]). split; [done|].
    eapply step_read; [exact Hb|]. rewrite Eb. by rewrite bytes_read.
Qed.

Lemma pool_reach_ok m0 arena bs count m p A :
  0 < arena → 4 ≤ bs < 2 ^ 32 → 0 < count < 2 ^ 31 → arena + count * bs ≤ 2 ^ 64 → mapped m0 arena (count * bs) →
  pool_reach m0 arena bs count m p A →
  ∃ fl, pool_ok m p fl ∧ pl_arena p = arena ∧ pl_block_size p = bs ∧ pl_block_count p = count ∧ A = pool_heap m p fl.
Proof.
  intros Ha Hbs Hc He Hm. induction 1 as [p0 m p E|m p A op m' p' out _ IH Hop E].
  - destruct (owpool_init_spec m0 p0 arena bs count) as (m' & p' & E' & Hok & H1 & H2 & H3); [done..|].
    rewrite E' in E. injection E as <- <-. exists (seqZ 0 count). do 4 (split; [done|]).
    rewrite H1, H2, H3. by rewrite heap_all_free by lia.
  - destruct IH as (fl & Hok & H1 & H2 & H3 & ->).
    destruct (pool_exec_spec m p fl op Hok) as (m1 & p1 & fl1 & out1 & E1 & Hok1 & _ & G1 & G2 & G3 & Eh & _).
    { cbv zeta. by rewrite <-H2 in Hop. }
    rewrite E1 in E. injection E as <- <- <-. exists fl1. split; [done|]. do 3 (split; [congruence|]).
    rewrite G1, G2, G3, <-H2. done.
Qed.

(** ** Claims *)

(** [C20] The pool allocator is a map from owned blocks to their contents: in
    every state that a client can reach by allocating, freeing, resetting and by
    reading and writing the blocks it owns, every further call returns without
    undefined behaviour and does what it does on the map: an allocation yields a
    block of the arena nobody owns, and fails only if all blocks are owned; a
    free of an owned block is accepted, and of any other address, double frees
    included, refused without effect; all other blocks keep their bytes.  The
    counters agree: [in_use] is the number of owned blocks. *)
Theorem owpool_refines_map m0 arena bs count m p A op :
  0 < arena → 4 ≤ bs < 2 ^ 32 → 0 < count < 2 ^ 31 → arena + count * bs ≤ 2 ^ 64 → mapped m0 arena (count * bs) →
  pool_reach m0 arena bs count m p A → blk_op_ok bs A op →
  ∃ m' p' out, pool_exec op (m, p) = Some (m', p', out) ∧
    blk_step arena bs count A op out (owned bs m' A op out) ∧
    ∃ st, owpool_stats (Some p') (Some (mk_owpool_stats 0 0 0 0 0)) = (Some st, true) ∧
      ps_in_use st = Z.of_nat (size (owned bs m' A op out)) ∧ ps_in_use st ≤ ps_high_water st ≤ ps_capacity st.
Proof.
  intros Ha Hbs Hc He Hm Hr Hop. destruct (pool_reach_ok _ _ _ _ _ _ _ Ha Hbs Hc He Hm Hr) as (fl & Hok & H1 & H2 & H3 & ->).
  destruct (pool_exec_spec m p fl op Hok) as (m' & p' & fl' & out & E & Hok' & _ & G1 & G2 & G3 & Eh & Hs).
  { cbv zeta. by rewrite <-H2 in Hop. }
  rewrite Eh, H1, H2, H3 in Hs. exists m', p', out. split; [done|]. split; [by rewrite H1, H2, H3|].
  pose proof Hok' as [Hi' Hbs' Hc' _ _ Hf' Hu' Hh'].
  unfold owpool_stats. rewrite Hi'. cbn [negb]. eexists. split; [done|]. cbn [ps_in_use ps_high_water ps_capacity].
  split; [|done]. rewrite <-H2 at 1. rewrite <-Eh, Hu', <-G1, <-G2, <-G3.
  by rewrite (heap_size _ _ (pl_block_count p') Hbs' ltac:(lia) _ _ _ _ Hf').
Qed.

(** ** Witness *)

(** A pool of three four-byte blocks at address 16, after one allocation. *)
Module PoolSample.
Definition ram : mem := list_to_map ((λ a, (a, 0)) <$> seqZ 16 12).
Definition blank : owpool_t := mk_owpool 0 0 0 0 0 0 0 0 0 false.
Definition start : mem * owpool_t :=
  default (ram, blank) ('(m, p, _) ← owpool_init ram (Some blank) 16 4 3; p ← p; Some (m, p)).
Definition one : mem * owpool_t * Z := default (start.1, start.2, 0) (pool_exec BAlloc start).
End PoolSample.
Import PoolSample.

Lemma owpool_refines_map_witness :
  ∃ m' p' out, pool_exec (BFree 16) (one.1.1, one.1.2) = Some (m', p', out) ∧ out = 1 ∧
    blk_step 16 4 3 {[16 := [1; 0; 0; 0]]} (BFree 16) out ∅.
Proof.
  destruct (owpool_refines_map ram 16 4 3 one.1.1 one.1.2 {[16 := [1; 0; 0; 0]]} (BFree 16))
    as (m' & p' & out & E & Hs & _); [lia|lia|lia|lia| | |split; [lia|reflexivity]|].
  - intros a Ha. assert (a ∈ seqZ 16 12) as Hin by (apply elem_of_seqZ; lia).
    eapply (Forall_forall (λ a, is_Some (ram !! a)) (seqZ 16 12)); [|exact Hin].
    apply (bool_decide_unpack _). vm_compute. exact I.
  - assert (pool_reach ram 16 4 3 start.1 start.2 ∅) as H0.
    { apply (pr_init _ _ _ _ blank). vm_compute. reflexivity. }
    assert (pool_exec BAlloc (start.1, start.2) = Some (one.1.1, one.1.2, 16)) as E1 by (vm_compute; reflexivity).
    pose proof (pr_step _ _ _ _ _ _ _ BAlloc _ _ _ H0 I E1) as H1.
    assert (owned 4 one.1.1 ∅ BAlloc 16 = {[16 := [1; 0; 0; 0]]}) as EA by (vm_compute; reflexivity).
    rewrite EA in H1. exact H1.
  - assert ((r ← pool_exec (BFree 16) (one.1.1, one.1.2); Some r.2) = Some 1) as E2 by (vm_compute; reflexivity).
    rewrite E in E2. injection E2 as ->. exists m', p', 1. split; [exact E|]. split; [reflexivity|].
    assert (owned 4 m' {[16 := [1; 0; 0; 0]]} (BFree 16) 1 = ∅) as E3 by (vm_compute; reflexivity).
    rewrite E3 in Hs. exact Hs.
Defined.
