(* ===== verification/Owslab.v ===== *)
(** The slab allocator (src/DLL/owslab64/owslab64.c, owslab64.h): a registry of
    caches, each a free list over an arena of its own.

    Memory is that of [Owpool].  A pointer to a cache of the registry is the
    index of its slot; an index outside the registry stands for any other
    object. *)
From S2P Require Import Prelude Owpool.

Definition OWSLAB_MAX_CACHES : Z := 16.
Definition OWSLAB_NAME_LEN : Z := 24.
Definition OWSLAB_MIN_OBJECT : Z := 4.

Record owslab_cache_t := mk_owslab_cache {
  sc_name : list Z;                      (* char[OWSLAB_NAME_LEN] *)
  sc_slab : Z;
  sc_object_size : Z;
  sc_object_count : Z;
  sc_free_head : Z;                      (* int32_t, -1 if none *)
  sc_free_count : Z;
  sc_in_use : Z;
  sc_high_water : Z;
  sc_active : bool
}.
#[export] Instance eta_owslab_cache : Eta owslab_cache_t := λ c,
  mk_owslab_cache (sc_name c) (sc_slab c) (sc_object_size c) (sc_object_count c) (sc_free_head c)
    (sc_free_count c) (sc_in_use c) (sc_high_water c) (sc_active c).

Record owslab_state_t := mk_owslab_state {
  ss_caches : list owslab_cache_t;       (* [OWSLAB_MAX_CACHES] *)
  ss_cache_count : Z;
  ss_initialized : bool
}.
#[export] Instance eta_owslab_state : Eta owslab_state_t := λ s,
  mk_owslab_state (ss_caches s) (ss_cache_count s) (ss_initialized s).

(** ** Free-list links *)

Definition slab_store_next (m : mem) (object index : Z) : option mem :=
  let v := u32 index in
  m ← mstore m (object + 0) (u8 (Z.land v 0xFF));
  m ← mstore m (object + 1) (u8 (Z.land (Z.shiftr v 8) 0xFF));
  m ← mstore m (object + 2) (u8 (Z.land (Z.shiftr v 16) 0xFF));
  mstore m (object + 3) (u8 (Z.land (Z.shiftr v 24) 0xFF)).

Definition slab_load_next (m : mem) (object : Z) : option Z :=
  b0 ← m !! (object + 0);
  b1 ← m !! (object + 1);
  b2 ← m !! (object + 2);
  b3 ← m !! (object + 3);
  let v := Z.lor (Z.lor (Z.lor b0 (u32 (Z.shiftl b1 8))) (u32 (Z.shiftl b2 16)))
                 (u32 (Z.shiftl b3 24)) in
  Some (int32 v).

Definition slab_object_at (cache : owslab_cache_t) (index : Z) : Z :=
  sc_slab cache + u64 (index * sc_object_size cache).

(** [while (src[i] != 0 && i + 1 < OWSLAB_NAME_LEN)]; the result also has the
    terminator. *)
Fixpoint slab_copy_chars (fuel : nat) (dst : list Z) (src : cstr) (i : Z) : option (list Z * Z) :=
  match fuel with
  | O => None
  | S f =>
      c ← cget src i;
      if nz c && (i + 1 <? OWSLAB_NAME_LEN) then
        dst ← aset dst i c; slab_copy_chars f dst src (i + 1)
      else Some (dst, i)
  end.

Definition slab_copy_name (dst : list Z) (src : ptr cstr) : option (list Z) :=
  '(dst, i) ← match src with
              | Some s => slab_copy_chars (Z.to_nat OWSLAB_NAME_LEN) dst s 0
              | None => Some (dst, 0)
              end;
  aset dst i 0.

Definition slab_object_is_free (m : mem) (cache : owslab_cache_t) (index : Z) : option bool :=
  free_walk (Z.to_nat (sc_free_count cache + 2))
    (λ c, slab_load_next m (slab_object_at cache (u32 c)))
    (sc_free_count cache) index (sc_free_head cache) 0.

Definition slab_build_freelist (m : mem) (cache : owslab_cache_t) : option (mem * owslab_cache_t) :=
  let cache := cache <| sc_free_head := -1 |> <| sc_free_count := 0 |> in
  for_up (Z.to_nat (sc_object_count cache)) 0
    (λ k '(m, cache),
       let index := sc_object_count cache - k - 1 in
       let object := slab_object_at cache index in
       m ← slab_store_next m object (sc_free_head cache);
       Some (m, cache <| sc_free_head := int32 index |>
                      <| sc_free_count := u32 (sc_free_count cache + 1) |>))
    (m, cache).

Definition slab_cache_index (cache : Z) : Z :=
  if (0 <=? cache) && (cache <? OWSLAB_MAX_CACHES) then cache else -1.

(** ** Operations *)

Definition clear_cache (c : owslab_cache_t) : option owslab_cache_t :=
  name ← aset (sc_name c) 0 0;
  Some (c <| sc_name := name |> <| sc_slab := 0 |> <| sc_object_size := 0 |>
          <| sc_object_count := 0 |> <| sc_free_head := -1 |> <| sc_free_count := 0 |>
          <| sc_in_use := 0 |> <| sc_high_water := 0 |> <| sc_active := false |>).

Definition owslab_init (state : ptr owslab_state_t) : option (ptr owslab_state_t * bool) :=
  match state with
  | None => Some (state, false)
  | Some s =>
      cs ← for_up (Z.to_nat OWSLAB_MAX_CACHES) 0
             (λ i cs, c ← aget cs i; c ← clear_cache c; aset cs i c) (ss_caches s);
      Some (Some (s <| ss_caches := cs |> <| ss_cache_count := 0 |> <| ss_initialized := true |>), true)
  end.

Definition owslab_create_cache (m : mem) (state : ptr owslab_state_t) (name : ptr cstr)
    (arena object_size object_count : Z) : option (mem * ptr owslab_state_t * ptr Z) :=
  match state with
  | None => Some (m, state, None)
  | Some s =>
      if negb (ss_initialized s) || (arena =? 0) then Some (m, state, None)
      else if (object_size <? OWSLAB_MIN_OBJECT) || (object_count =? 0) then Some (m, state, None)
      else if 0x7FFFFFFF <? object_count then Some (m, state, None)
      else
        slot ← find_up (Z.to_nat OWSLAB_MAX_CACHES) 0 (ss_caches s) (λ c, negb (sc_active c));
        match slot with
        | None => Some (m, state, None)
        | Some i =>
            c ← aget (ss_caches s) i;
            nm ← slab_copy_name (sc_name c) name;
            let c := c <| sc_name := nm |> <| sc_slab := arena |> <| sc_object_size := object_size |>
                       <| sc_object_count := object_count |> <| sc_in_use := 0 |>
                       <| sc_high_water := 0 |> in
            '(m, c) ← slab_build_freelist m c;
            cs ← aset (ss_caches s) i (c <| sc_active := true |>);
            Some (m, Some (s <| ss_caches := cs |> <| ss_cache_count := u32 (ss_cache_count s + 1) |>),
                  Some i)
        end
  end.

Definition owslab_alloc (m : mem) (cache : ptr owslab_cache_t) : option (ptr owslab_cache_t * Z) :=
  match cache with
  | None => Some (cache, 0)
  | Some c =>
      if negb (sc_active c) || (sc_free_head c <? 0) then Some (cache, 0)
      else
        let index := u32 (sc_free_head c) in
        let object := slab_object_at c index in
        next ← slab_load_next m object;
        let c := c <| sc_free_head := next |> <| sc_free_count := u32 (sc_free_count c - 1) |>
                   <| sc_in_use := u32 (sc_in_use c + 1) |> in
        let c := if sc_high_water c <? sc_in_use c then c <| sc_high_water := sc_in_use c |> else c in
        Some (Some c, object)
  end.

Definition owslab_free (m : mem) (cache : ptr owslab_cache_t) (object : Z)
    : option (mem * ptr owslab_cache_t * bool) :=
  match cache with
  | None => Some (m, cache, false)
  | Some c =>
      if negb (sc_active c) || (object =? 0) then Some (m, cache, false)
      else if object <? sc_slab c then Some (m, cache, false)
      else
        let offset := u64 (object - sc_slab c) in
        if sc_object_size c =? 0 then None
        else if negb (offset mod sc_object_size c =? 0) then Some (m, cache, false)
        else
          let index := offset / sc_object_size c in
          if sc_object_count c <=? index then Some (m, cache, false)
          else
            is_free ← slab_object_is_free m c (u32 index);
            if (is_free : bool) then Some (m, cache, false)
            else
              m ← slab_store_next m object (sc_free_head c);
              let c := c <| sc_free_head := int32 (u32 index) |>
                         <| sc_free_count := u32 (sc_free_count c + 1) |> in
              let c := if 0 <? sc_in_use c then c <| sc_in_use := u32 (sc_in_use c - 1) |> else c in
              Some (m, Some c, true)
  end.

Definition owslab_destroy_cache (state : ptr owslab_state_t) (cache : ptr Z)
    : option (ptr owslab_state_t * bool) :=
  match state, cache with
  | Some s, Some i =>
      if negb (ss_initialized s) then Some (state, false)
      else if slab_cache_index i <? 0 then Some (state, false)
      else
        c ← aget (ss_caches s) i;
        name ← aset (sc_name c) 0 0;
        let c := c <| sc_active := false |> <| sc_name := name |> <| sc_slab := 0 |>
                   <| sc_free_head := -1 |> <| sc_free_count := 0 |> <| sc_in_use := 0 |>
                   <| sc_high_water := 0 |> in
        cs ← aset (ss_caches s) i c;
        let s := s <| ss_caches := cs |> in
        Some (Some (if 0 <? ss_cache_count s
                    then s <| ss_cache_count := u32 (ss_cache_count s - 1) |> else s), true)
  | _, _ => Some (state, false)
  end.
