(* ===== verification/OwslabSpec.v ===== *)
(** The slab allocator: an active cache behaves as a pool, and the caches of a
    registry do not disturb each other. *)
From S2P Require Import Prelude Owpool FreeList OwpoolSpec Owslab.

(** ** A cache is a pool *)

Definition as_pool (c : owslab_cache_t) : owpool_t :=
  mk_owpool (sc_slab c) (sc_object_size c) (sc_object_count c) (sc_free_head c) (sc_free_count c)
    (sc_in_use c) (sc_high_water c) 0 0 true.

(** The cache with the list and the counters of a pool. *)
Definition from_pool (c : owslab_cache_t) (p : owpool_t) : owslab_cache_t :=
  c <| sc_free_head := pl_free_head p |> <| sc_free_count := pl_free_count p |>
    <| sc_in_use := pl_in_use p |> <| sc_high_water := pl_high_water p |>.

Lemma from_as_pool c : from_pool c (as_pool c) = c.
Proof. by destruct c. Qed.

Lemma slab_alloc_pool m c :
  sc_active c = true →
  owslab_alloc m (Some c) =
    match owpool_alloc m (Some (as_pool c)) with
    | Some (Some p, a) => Some (Some (from_pool c p), a)
    | _ => None
    end.
Proof.
  intros Ha. unfold owslab_alloc, owpool_alloc. rewrite Ha. cbn [negb orb pl_initialized as_pool pl_free_head].
  destruct (sc_free_head c <? 0); [by rewrite from_as_pool|].
  change (pool_load_next m (pool_block_at (as_pool c) (u32 (sc_free_head c))))
    with (slab_load_next m (slab_object_at c (u32 (sc_free_head c)))).
  destruct (slab_load_next m _) as [n|]; [|done]. cbn. by destruct (sc_high_water c <? _).
Qed.

Lemma slab_free_pool m c a :
  sc_active c = true →
  owslab_free m (Some c) a =
    match owpool_free m (Some (as_pool c)) a with
    | Some (m', Some p, r) => Some (m', Some (from_pool c p), r)
    | _ => None
    end.
Proof.
  intros Ha. unfold owslab_free, owpool_free. rewrite Ha. cbn [negb orb pl_initialized as_pool].
  destruct (a =? 0); [by rewrite from_as_pool|]. cbn [pl_arena as_pool].
  destruct (a <? sc_slab c); [by rewrite from_as_pool|]. cbv zeta. cbn [pl_block_size pl_block_count as_pool].
  destruct (sc_object_size c =? 0); [done|].
  destruct (negb _); [by rewrite from_as_pool|]. destruct (sc_object_count c <=? _); [by rewrite from_as_pool|].
  change (pool_block_is_free m (as_pool c)) with (slab_object_is_free m c).
  destruct (slab_object_is_free m c _) as [[]|]; [by rewrite !obind_Some, from_as_pool| |done]. rewrite !obind_Some.
  change (pool_store_next m a (pl_free_head (as_pool c))) with (slab_store_next m a (sc_free_head c)).
  destruct (slab_store_next m a _); [|done]. cbn. by destruct (0 <? sc_in_use c).
Qed.

Lemma for_up_map {S T} (I : S → Prop) (φ : S → T) n i (f : Z → S → option S) (g : Z → T → option T) s :
  (∀ j s, I s → g j (φ s) = φ <$> f j s) → (∀ j s s', I s → f j s = Some s' → I s') →
  I s → for_up n i g (φ s) = φ <$> for_up n i f s.
Proof.
  intros H HI. revert i s. induction n as [|n IH]; intros i s Hs; [done|]. cbn [for_up]. rewrite H by done.
  destruct (f i s) as [s'|] eqn:E; [|done]. simpl. apply IH. by eapply HI.
Qed.

(** Pools over the memory of the cache. *)
Definition same_region (c : owslab_cache_t) (p : owpool_t) : Prop :=
  pl_arena p = sc_slab c ∧ pl_block_size p = sc_object_size c ∧ pl_block_count p = sc_object_count c.

Lemma slab_build_pool m c :
  slab_build_freelist m c =
    match pool_rebuild m (as_pool c) with Some (m', p) => Some (m', from_pool c p) | None => None end.
Proof.
  unfold slab_build_freelist, pool_rebuild. cbv zeta.
  set (p0 := (as_pool c) <| pl_free_head := -1 |> <| pl_free_count := 0 |>).
  change (m, c <| sc_free_head := -1 |> <| sc_free_count := 0 |>) with (m, from_pool c p0).
  pose proof (for_up_map (λ x, same_region c x.2) (λ x : mem * owpool_t, (x.1, from_pool c x.2))
    (Z.to_nat (pl_block_count p0)) 0
    (λ k '(m, pool), m ← pool_store_next m (pool_block_at pool (pl_block_count pool - k - 1)) (pl_free_head pool);
       Some (m, pool <| pl_free_head := int32 (pl_block_count pool - k - 1) |>
                     <| pl_free_count := u32 (pl_free_count pool + 1) |>))
    (λ k '(m, cache), m ← slab_store_next m (slab_object_at cache (sc_object_count cache - k - 1)) (sc_free_head cache);
       Some (m, cache <| sc_free_head := int32 (sc_object_count cache - k - 1) |>
                      <| sc_free_count := u32 (sc_free_count cache + 1) |>)) (m, p0)) as H.
  etransitivity; [apply H|by destruct (for_up _ _ _ (m, p0)) as [[]|]].
  - intros j [m1 p1] (H1 & H2 & H3). cbn [fst snd] in *. cbn [from_pool sc_object_count set_field sc_free_head sc_free_count].
    rewrite H3. change (slab_object_at _ ?i) with (sc_slab c + u64 (i * sc_object_size c)).
    unfold pool_block_at. rewrite H1, H2. change pool_store_next with slab_store_next.
    by destruct (slab_store_next m1 _ _).
  - intros j [m1 p1] [m2 p2] (H1 & H2 & H3) (m3 & _ & [= <- <-])%bind_Some. done.
  - done.
Qed.

(** ** The registry *)

Inductive slab_op :=
  | SlabCreate (name : ptr cstr) (arena size count : Z)
  | SlabDestroy (slot : Z)
  | SlabOn (slot : Z) (op : blk_op).

(** A client's call or access on one cache. *)
Definition slab_on (m : mem) (c : owslab_cache_t) (op : blk_op) : option (mem * owslab_cache_t * Z) :=
  match op with
  | BAlloc => '(c, a) ← owslab_alloc m (Some c); c ← c; Some (m, c, a)
  | BFree a => '(m, c, r) ← owslab_free m (Some c) a; c ← c; Some (m, c, if (r : bool) then 1 else 0)
  | BWrite a off b => m ← client_write m a off b; Some (m, c, 0)
  | BRead a off => b ← client_read m a off; Some (m, c, b)
  | BReset => None
  end.

Definition slab_exec (op : slab_op) (x : mem * owslab_state_t) : option (mem * owslab_state_t * Z) :=
  let '(m, s) := x in
  match op with
  | SlabCreate name arena size count =>
      '(m, s, r) ← owslab_create_cache m (Some s) name arena size count; s ← s; Some (m, s, default (-1) r)
  | SlabDestroy slot =>
      '(s, r) ← owslab_destroy_cache (Some s) (Some slot); s ← s; Some (m, s, if (r : bool) then 1 else 0)
  | SlabOn slot op =>
      c ← aget (ss_caches s) slot;
      '(m, c, r) ← slab_on m c op;
      cs ← aset (ss_caches s) slot c; Some (m, s <| ss_caches := cs |>, r)
  end.

(** What clients know: the region of each cache and the objects they own. *)
Record cache_view := mk_cache_view { cv_base : Z; cv_size : Z; cv_count : Z; cv_objs : gmap Z (list Z) }.
Abbreviation slab_view := (gmap Z cache_view) (only parsing).

Definition apart (v w : cache_view) : Prop :=
  cv_base v + cv_count v * cv_size v ≤ cv_base w ∨ cv_base w + cv_count w * cv_size w ≤ cv_base v.

Definition geometry_ok (arena size count : Z) : Prop :=
  arena ≠ 0 ∧ 4 ≤ size ∧ 0 < count ≤ 0x7FFFFFFF.

(** Clients give arenas that exist and do not overlap, and touch only objects
    they own. *)
Definition slab_op_ok (m : mem) (G : slab_view) (op : slab_op) : Prop :=
  match op with
  | SlabCreate _ arena size count =>
      0 ≤ arena ∧ 0 ≤ size < 2 ^ 32 ∧ 0 ≤ count < 2 ^ 32 ∧ arena + count * size ≤ 2 ^ 64 ∧
      mapped m arena (count * size) ∧
      ∀ j v, G !! j = Some v → apart (mk_cache_view arena size count ∅) v
  | SlabDestroy _ => True
  | SlabOn slot op =>
      0 ≤ slot < 16 ∧ op ≠ BReset ∧
      match G !! slot with
      | Some v => blk_op_ok (cv_size v) (cv_objs v) op
      | None => op = BAlloc ∨ ∃ a, op = BFree a
      end
  end.

Definition slab_owned (m' : mem) (G : slab_view) (op : slab_op) (out : Z) : slab_view :=
  match op with
  | SlabCreate _ arena size count => if out <? 0 then G else <[out := mk_cache_view arena size count ∅]> G
  | SlabDestroy slot => delete slot G
  | SlabOn slot op =>
      alter (λ v, mk_cache_view (cv_base v) (cv_size v) (cv_count v) (owned (cv_size v) m' (cv_objs v) op out)) slot G
  end.

Inductive slab_step (G : slab_view) : slab_op → Z → slab_view → Prop :=
  | ss_create name arena size count i :
      geometry_ok arena size count → 0 ≤ i < 16 → G !! i = None → (∀ j, 0 ≤ j < i → is_Some (G !! j)) →
      slab_step G (SlabCreate name arena size count) i (<[i := mk_cache_view arena size count ∅]> G)
  | ss_create_refused name arena size count :
      ¬ geometry_ok arena size count ∨ (∀ j, 0 ≤ j < 16 → is_Some (G !! j)) →
      slab_step G (SlabCreate name arena size count) (-1) G
  | ss_destroy slot : 0 ≤ slot < 16 → slab_step G (SlabDestroy slot) 1 (delete slot G)
  | ss_destroy_foreign slot : ¬ (0 ≤ slot < 16) → slab_step G (SlabDestroy slot) 0 (delete slot G)
  | ss_on slot op out v A' :
      G !! slot = Some v → blk_step (cv_base v) (cv_size v) (cv_count v) (cv_objs v) op out A' →
      slab_step G (SlabOn slot op) out (<[slot := mk_cache_view (cv_base v) (cv_size v) (cv_count v) A']> G)
  | ss_on_inactive slot op : G !! slot = None → slab_step G (SlabOn slot op) 0 G.

(** ** Invariant *)

(** The cache in a slot is what the clients know of it. *)
Definition slot_ok (m : mem) (c : owslab_cache_t) (v : option cache_view) : Prop :=
  match v with
  | Some v => sc_active c = true ∧ sc_slab c = cv_base v ∧ sc_object_size c = cv_size v ∧
      sc_object_count c = cv_count v ∧
      ∃ fl, pool_ok m (as_pool c) fl ∧ cv_objs v = pool_heap m (as_pool c) fl
  | None => sc_active c = false
  end.

Record slab_ok (m : mem) (s : owslab_state_t) (G : slab_view) : Prop := {
  so_init : ss_initialized s = true;
  so_len : length (ss_caches s) = 16%nat;
  so_names : Forall (λ c, length (sc_name c) = 24%nat) (ss_caches s);
  so_slot : ∀ i c, aget (ss_caches s) i = Some c → slot_ok m c (G !! i);
  so_dom : ∀ i v, G !! i = Some v → 0 ≤ i < 16;
  so_apart : ∀ i j v w, i ≠ j → G !! i = Some v → G !! j = Some w → apart v w
}.

(** A cache whose region is not touched stays as it is. *)
Lemma pool_frame m m' p fl a n :
  pool_ok m p fl → only_in m m' a n →
  a + n ≤ pl_arena p ∨ pl_arena p + pl_block_count p * pl_block_size p ≤ a →
  pool_ok m' p fl ∧ pool_heap m' p fl = pool_heap m p fl.
Proof.
  intros [Hi Hbs Hc Ha Hm Hf Hu Hh] Ho Hd.
  assert (∀ i x, 0 ≤ i < pl_block_count p → blk p i ≤ x < blk p i + pl_block_size p → m' !! x = m !! x) as Hag.
  { intros i x Hir Hx. apply Ho. unfold block_of in *. nia. }
  split.
  - constructor; try done.
    + intros x Hx. rewrite Ho by lia. by apply Hm.
    + eapply freelist_agree; [|exact Hf]. intros i x Hin Hx. apply (Hag i); [|lia].
      pose proof (fl_region _ _ _ _ _ _ _ Hf) as Hr. unfold in_region in Hr. rewrite Forall_forall in Hr. auto.
  - apply heap_agree; [done|lia|]. intros i x Hir _ Hx. by apply (Hag i).
Qed.

Lemma slot_frame m m' c v a n :
  slot_ok m c (Some v) → only_in m m' a n → a + n ≤ cv_base v ∨ cv_base v + cv_count v * cv_size v ≤ a →
  slot_ok m' c (Some v).
Proof.
  intros (H1 & H2 & H3 & H4 & fl & Hok & Hv) Ho Hd. do 4 (split; [done|]).
  destruct (pool_frame m m' (as_pool c) fl a n Hok Ho) as [Hok' Eh].
  { cbn. rewrite H2, H3, H4. lia. }
  exists fl. split; [done|]. congruence.
Qed.

(** Replacing one cache, and touching memory only in its region. *)
Lemma slab_update m m' s G i c v' a n :
  slab_ok m s G → 0 ≤ i < 16 → length (sc_name c) = 24%nat → only_in m m' a n →
  slot_ok m' c v' →
  (∀ j w, j ≠ i → G !! j = Some w → a + n ≤ cv_base w ∨ cv_base w + cv_count w * cv_size w ≤ a) →
  (∀ v, v' = Some v → ∀ j w, j ≠ i → G !! j = Some w → apart v w ∧ apart w v) →
  slab_ok m' (s <| ss_caches := <[Z.to_nat i := c]> (ss_caches s) |>) (partial_alter (λ _, v') i G).
Proof.
  intros [Hi Hl Hn Hs Hd Ha] Hir Hname Ho Hc Hfar Hap. constructor; cbn; [done|by rewrite length_insert|by apply Forall_insert|..].
  - intros j c'. rewrite aget_insert by lia. case_decide as Hj.
    + subst j. intros [= <-]. by rewrite lookup_partial_alter_eq.
    + intros E. rewrite lookup_partial_alter_ne by done. specialize (Hs j c' E).
      destruct (G !! j) as [w|] eqn:Ew; [|done]. eapply slot_frame; [done|exact Ho|]. apply (Hfar j); [done|done].
  - intros j w. destruct (decide (i = j)) as [<-|Hj]; [done|]. rewrite lookup_partial_alter_ne by done. apply Hd.
  - intros j k v w Hjk. destruct (decide (i = j)) as [<-|Hij], (decide (i = k)) as [<-|Hik]; [done|..];
      rewrite ?lookup_partial_alter_eq, ?lookup_partial_alter_ne by done.
    + intros Hv Hw. by eapply (Hap v Hv k w).
    + intros Hv Hw. by eapply (Hap w Hw j v).
    + by apply Ha.
Qed.

(** ** Calls *)

Lemma copy_chars_spec fuel dst src i :
  length dst = 24%nat → Z.of_nat fuel + i = 24 → 0 ≤ i ≤ 23 → i ≤ Z.of_nat (length src) →
  ∃ dst' i', slab_copy_chars fuel dst src i = Some (dst', i') ∧ length dst' = 24%nat ∧ 0 ≤ i' ≤ 23.
Proof.
  revert dst i. induction fuel as [|fuel IH]; intros dst i Hd Hf Hi Hs; [lia|]. cbn [slab_copy_chars].
  unfold cget. destruct (aget_is_Some (src ++ [0]) i) as [c Hc]; [rewrite length_app; simpl; lia|].
  rewrite Hc, obind_Some. unfold nz, OWSLAB_NAME_LEN.
  destruct (Z.eqb_spec c 0), (Z.ltb_spec (i + 1) 24); cbn [negb andb]; try by exists dst, i.
  rewrite aset_in, obind_Some by lia. apply IH; [by rewrite length_insert|lia|lia|].
  destruct (decide (i = Z.of_nat (length src))) as [->|]; [|lia].
  rewrite aget_app_here in Hc. congruence.
Qed.

Lemma slab_copy_name_spec dst src :
  length dst = 24%nat → ∃ nm, slab_copy_name dst src = Some nm ∧ length nm = 24%nat.
Proof.
  intros Hd. unfold slab_copy_name. change (Z.to_nat OWSLAB_NAME_LEN) with 24%nat.
  assert (∃ d i, match src with Some s => slab_copy_chars 24 dst s 0 | None => Some (dst, 0) end = Some (d, i) ∧
    length d = 24%nat ∧ 0 ≤ i ≤ 23) as (d & i & -> & Hl & Hi).
  { destruct src as [s|]; [apply copy_chars_spec; lia|]. by exists dst, 0. }
  rewrite obind_Some, aset_in by lia. eexists. split; [done|]. by rewrite length_insert.
Qed.

Lemma build_spec m c :
  4 ≤ sc_object_size c < 2 ^ 32 → 0 < sc_object_count c < 2 ^ 31 → 0 < sc_slab c →
  sc_slab c + sc_object_count c * sc_object_size c ≤ 2 ^ 64 → sc_in_use c = 0 → sc_high_water c = 0 →
  mapped m (sc_slab c) (sc_object_count c * sc_object_size c) →
  ∃ m' c', slab_build_freelist m c = Some (m', c') ∧ sc_name c' = sc_name c ∧
    only_in m m' (sc_slab c) (sc_object_count c * sc_object_size c) ∧
    slot_ok m' (c' <| sc_active := true |>) (Some (mk_cache_view (sc_slab c) (sc_object_size c) (sc_object_count c) ∅)).
Proof.
  intros Hbs Hc Ha He Hu Hh Hm. rewrite slab_build_pool.
  destruct (rebuild_spec m (as_pool c)) as (m' & h & -> & Hm' & Hf & Ho); [done..|].
  eexists m', _. split; [done|]. split; [done|]. split; [done|]. do 4 (split; [done|]).
  exists (seqZ 0 (sc_object_count c)). split.
  - constructor; try done; cbn; lia.
  - symmetry. apply heap_all_free; cbn; lia.
Qed.

Lemma slab_create_spec m s G name arena size count :
  slab_ok m s G → slab_op_ok m G (SlabCreate name arena size count) →
  ∃ m' s' out, slab_exec (SlabCreate name arena size count) (m, s) = Some (m', s', out) ∧
    slab_step G (SlabCreate name arena size count) out (slab_owned m' G (SlabCreate name arena size count) out) ∧
    slab_ok m' s' (slab_owned m' G (SlabCreate name arena size count) out).
Proof.
  intros Hok (Ha & Hsz & Hct & He & Hm & Hap). pose proof Hok as [Hi Hl Hn Hs Hd Hpa].
  cbn [slab_exec]. unfold owslab_create_cache. rewrite Hi. cbn [negb orb].
  assert (¬ geometry_ok arena size count → ∃ m' s' out, Some (m, s, -1) = Some (m', s', out) ∧
    slab_step G (SlabCreate name arena size count) out (slab_owned m' G (SlabCreate name arena size count) out) ∧
    slab_ok m' s' (slab_owned m' G (SlabCreate name arena size count) out)) as Hbad.
  { intros Hg. exists m, s, (-1). split; [done|]. split; [apply ss_create_refused; by left|done]. }
  destruct (Z.eqb_spec arena 0); [apply Hbad; unfold geometry_ok; lia|].
  unfold OWSLAB_MIN_OBJECT. destruct (Z.ltb_spec size 4); [apply Hbad; unfold geometry_ok; lia|].
  destruct (Z.eqb_spec count 0); [apply Hbad; unfold geometry_ok; lia|]. cbn [orb].
  destruct (Z.ltb_spec 0x7FFFFFFF count); [apply Hbad; unfold geometry_ok; lia|]. clear Hbad.
  change (Z.to_nat OWSLAB_MAX_CACHES) with 16%nat.
  destruct (find_up_spec 16 0 (ss_caches s) (λ c, negb (sc_active c))) as (r & -> & Hr); [lia|lia|].
  rewrite obind_Some. destruct r as [i|].
  - destruct Hr as (Hir & (c & Hc & Hact) & Hlt). rewrite Hc, obind_Some.
    pose proof Hc as [_ Hc']%aget_Some. pose proof (Forall_lookup_1 _ _ _ _ Hn Hc') as Hnm. cbn in Hnm.
    destruct (slab_copy_name_spec (sc_name c) name Hnm) as (nm & -> & Hnl). rewrite obind_Some. cbv zeta.
    set (c1 := set_field _ _ _). destruct (build_spec m c1) as (m' & c2 & -> & En & Ho & Hslot); [cbn; (done || lia)..|].
    rewrite obind_Some, aset_in, !obind_Some by lia. exists m'. eexists. exists i.
    assert (G !! i = None) as HG.
    { specialize (Hs i c Hc). destruct (G !! i); [|done]. destruct Hs as [Hs _]. rewrite Hs in Hact. done. }
    unfold slab_owned. rewrite (proj2 (Z.ltb_ge _ _)) by lia. split; [done|]. split.
    + apply ss_create; [unfold geometry_ok; lia|lia|done|]. intros j Hj.
      destruct (aget_is_Some (ss_caches s) j) as [cj Hcj]; [lia|]. specialize (Hlt j cj Hj Hcj).
      specialize (Hs j cj Hcj). destruct (G !! j); [done|]. cbn in Hs. by rewrite Hs in Hlt.
    + pose proof (slab_update m m' s G i (c2 <| sc_active := true |>) (Some (mk_cache_view arena size count ∅))
        arena (count * size) Hok) as Hup.
      destruct Hup as [U1 U2 U3 U4 U5 U6]; [lia|cbn; by rewrite En|exact Ho|exact Hslot|..].
      * intros j w _ Hw. exact (Hap j w Hw).
      * intros v [= <-] j w _ Hw. pose proof (Hap j w Hw) as H'. split; [done|]. unfold apart in *. lia.
      * by constructor.
  - exists m, s, (-1). split; [done|]. split; [|done]. apply ss_create_refused. right. intros j Hj.
    destruct (aget_is_Some (ss_caches s) j) as [cj Hcj]; [lia|]. specialize (Hr j cj ltac:(lia) Hcj).
    specialize (Hs j cj Hcj). change (is_Some (G !! j)).
    destruct (G !! j); [done|]. cbn in Hs. by rewrite Hs in Hr.
Qed.

Lemma slab_on_pool m c op :
  sc_active c = true → op ≠ BReset →
  slab_on m c op =
    match pool_exec op (m, as_pool c) with Some (m', p, r) => Some (m', from_pool c p, r) | None => None end.
Proof.
  intros Ha Hop. destruct op as [|a| |a off b|a off]; cbn [slab_on pool_exec]; [| |done|..].
  - rewrite slab_alloc_pool by done. by destruct (owpool_alloc m _) as [[[p|] a]|].
  - rewrite slab_free_pool by done. by destruct (owpool_free m _ a) as [[[m' [p|]] r]|].
  - destruct (client_write m a off b); [|done]. rewrite !obind_Some. by rewrite from_as_pool.
  - destruct (client_read m a off); [|done]. rewrite !obind_Some. by rewrite from_as_pool.
Qed.

Lemma pool_ok_from m c p fl :
  pool_ok m p fl → same_region c p → pool_ok m (as_pool (from_pool c p)) fl.
Proof.
  intros [Hi Hbs Hc Ha Hm Hf Hu Hh] (H1 & H2 & H3). rewrite H1, H2, H3 in *. by constructor.
Qed.

Lemma slab_on_spec m s G slot op :
  slab_ok m s G → slab_op_ok m G (SlabOn slot op) →
  ∃ m' s' out, slab_exec (SlabOn slot op) (m, s) = Some (m', s', out) ∧
    slab_step G (SlabOn slot op) out (slab_owned m' G (SlabOn slot op) out) ∧
    slab_ok m' s' (slab_owned m' G (SlabOn slot op) out).
Proof.
  intros Hok (Hsl & Hnr & Hop). pose proof Hok as [Hi Hl Hn Hs Hd Hpa]. cbn [slab_exec].
  destruct (aget_is_Some (ss_caches s) slot) as [c Hc]; [lia|]. rewrite Hc, obind_Some.
  pose proof Hc as [_ Hc']%aget_Some. pose proof (Forall_lookup_1 _ _ _ _ Hn Hc') as Hnm. cbn in Hnm.
  pose proof (Hs slot c Hc) as Hslot. destruct (G !! slot) as [v|] eqn:HG.
  - destruct Hslot as (Hact & E1 & E2 & E3 & fl & Hp & Ev). rewrite slab_on_pool by done.
    destruct (pool_exec_spec m (as_pool c) fl op Hp) as (m' & p' & fl' & out & -> & Hp' & Ho & G1 & G2 & G3 & Eh & Hst).
    { cbv zeta. rewrite <-Ev. cbn. by rewrite E2. }
    cbn [as_pool pl_arena pl_block_size pl_block_count] in *. rewrite E1, E2, E3 in *. rewrite <-Ev in Eh, Hst.
    rewrite obind_Some, aset_in, obind_Some by lia. eexists m', _, out. split; [done|]. cbn [slab_owned].
    set (v' := mk_cache_view (cv_base v) (cv_size v) (cv_count v) (owned (cv_size v) m' (cv_objs v) op out)).
    assert (alter (λ v, mk_cache_view (cv_base v) (cv_size v) (cv_count v) (owned (cv_size v) m' (cv_objs v) op out))
      slot G = <[slot := v']> G) as ->.
    { apply map_eq. intros j. destruct (decide (slot = j)) as [<-|Hj].
      - rewrite lookup_alter_eq, lookup_insert_eq, HG. done.
      - by rewrite lookup_alter_ne, lookup_insert_ne. }
    split; [apply ss_on; [done|by rewrite <-Eh]|].
    apply (slab_update m m' s G slot (from_pool c p') (Some v') (cv_base v) (cv_count v * cv_size v)); try done.
    + do 4 (split; [done|]). exists fl'.
      split; [apply pool_ok_from; [done|unfold same_region; split_and!; congruence]|]. cbn. rewrite E1, E2, E3. by symmetry.
    + intros j w Hj Hw. exact (Hpa slot j v w (not_eq_sym Hj) HG Hw).
    + intros v0 [= <-] j w Hj Hw. split; [exact (Hpa slot j v w (not_eq_sym Hj) HG Hw)|exact (Hpa j slot w v Hj Hw HG)].
  - cbn in Hslot. assert (slab_on m c op = Some (m, c, 0)) as ->.
    { destruct Hop as [->|[a ->]]; cbn [slab_on]; unfold owslab_alloc, owslab_free; by rewrite Hslot. }
    rewrite obind_Some, aset_in, obind_Some by lia. eexists m, _, 0. split; [done|]. cbn [slab_owned].
    assert (∀ f, alter f slot G = G) as Hal.
    { intros f. apply map_eq. intros j. destruct (decide (slot = j)) as [<-|Hj]; [by rewrite lookup_alter_eq, HG|].
      by rewrite lookup_alter_ne. }
    rewrite Hal. split; [by apply ss_on_inactive|]. rewrite list_insert_id by done. destruct s. done.
Qed.

Lemma slab_destroy_spec m s G slot :
  slab_ok m s G →
  ∃ s' out, slab_exec (SlabDestroy slot) (m, s) = Some (m, s', out) ∧
    slab_step G (SlabDestroy slot) out (delete slot G) ∧ slab_ok m s' (delete slot G).
Proof.
  intros Hok. pose proof Hok as [Hi Hl Hn Hs Hd Hpa]. cbn [slab_exec]. unfold owslab_destroy_cache.
  rewrite Hi. cbn [negb]. unfold slab_cache_index, OWSLAB_MAX_CACHES.
  destruct (decide (0 ≤ slot < 16)) as [Hr|Hr].
  - rewrite (proj2 (Z.leb_le 0 slot)), (proj2 (Z.ltb_lt slot 16)) by lia. cbn [andb].
    rewrite (proj2 (Z.ltb_ge slot 0)) by lia.
    destruct (aget_is_Some (ss_caches s) slot) as [c Hc]; [lia|]. rewrite Hc, obind_Some.
    pose proof Hc as [_ Hc']%aget_Some. pose proof (Forall_lookup_1 _ _ _ _ Hn Hc') as Hnm. cbn in Hnm.
    rewrite aset_in, obind_Some by lia. cbv zeta. rewrite aset_in, !obind_Some by lia.
    eexists _, 1. split; [done|]. split; [by apply ss_destroy|].
    set (c' := c <| sc_active := false |> <| sc_name := _ |> <| sc_slab := 0 |> <| sc_free_head := -1 |>
      <| sc_free_count := 0 |> <| sc_in_use := 0 |> <| sc_high_water := 0 |>).
    pose proof (slab_update m m s G slot c' None 0 0 Hok Hr) as Hup.
    destruct Hup as [U1 U2 U3 U4 U5 U6]; [cbn; by rewrite length_insert|by apply only_in_refl|done|..].
    + intros j w Hj Hw.
      destruct (aget_is_Some (ss_caches s) j) as [cj Hcj]; [pose proof (Hd j w Hw); lia|].
      pose proof (Hs j cj Hcj) as Hsl. rewrite Hw in Hsl. destruct Hsl as (_ & E1 & _ & _ & fl & Hp & _).
      pose proof (pk_arena _ _ _ Hp) as [Hpos _]. cbn in Hpos. left. lia.
    + done.
    + destruct (0 <? ss_cache_count _); by constructor.
  - assert ((if (0 <=? slot) && (slot <? 16) then slot else -1) <? 0 = true) as ->.
    { destruct (Z.leb_spec 0 slot), (Z.ltb_spec slot 16); cbn [andb]; (done || lia). }
    rewrite !obind_Some. eexists s, 0. split; [done|]. split; [by apply ss_destroy_foreign|].
    rewrite delete_id; [done|]. destruct (G !! slot) eqn:E; [|done]. by destruct Hr; eapply Hd.
Qed.

Lemma slab_exec_spec m s G op :
  slab_ok m s G → slab_op_ok m G op →
  ∃ m' s' out, slab_exec op (m, s) = Some (m', s', out) ∧
    slab_step G op out (slab_owned m' G op out) ∧ slab_ok m' s' (slab_owned m' G op out).
Proof.
  intros Hok Hop. destruct op as [name arena size count|slot|slot op].
  - by apply slab_create_spec.
  - destruct (slab_destroy_spec m s G slot Hok) as (s' & out & E & Hst & Hok'). by exists m, s', out.
  - by apply slab_on_spec.
Qed.

(** ** Reachable states *)

(** The storage of a registry: sixteen caches with names of 24 characters. *)
Definition registry_shape (s : owslab_state_t) : Prop :=
  length (ss_caches s) = 16%nat ∧ Forall (λ c, length (sc_name c) = 24%nat) (ss_caches s).

Inductive slab_reach (m0 : mem) : mem → owslab_state_t → slab_view → Prop :=
  | sr_init s0 s :
      registry_shape s0 → owslab_init (Some s0) = Some (Some s, true) → slab_reach m0 m0 s ∅
  | sr_step m s G op m' s' out :
      slab_reach m0 m s G → slab_op_ok m G op → slab_exec op (m, s) = Some (m', s', out) →
      slab_reach m0 m' s' (slab_owned m' G op out).

Lemma owslab_init_spec m s0 :
  registry_shape s0 → ∃ s, owslab_init (Some s0) = Some (Some s, true) ∧ slab_ok m s ∅.
Proof.
  intros [Hl Hn]. unfold owslab_init. change (Z.to_nat OWSLAB_MAX_CACHES) with 16%nat.
  loop_inv (λ k cs, length cs = 16%nat ∧ Forall (λ c, length (sc_name c) = 24%nat) cs ∧
    ∀ i c, i < k → aget cs i = Some c → sc_active c = false) as (cs & -> & Hl' & Hn' & Hoff).
  - split; [done|]. split; [done|]. intros i c Hi [Hpos _]%aget_Some. lia.
  - intros k cs Hk (Hl' & Hn' & Hoff). destruct (aget_is_Some cs k) as [c Hc]; [lia|]. rewrite Hc, obind_Some.
    pose proof Hc as [_ Hc']%aget_Some. pose proof (Forall_lookup_1 _ _ _ _ Hn' Hc') as Hnm. cbn in Hnm.
    unfold clear_cache. rewrite aset_in, !obind_Some, aset_in by lia. eexists. split; [done|].
    split; [by rewrite length_insert|]. split; [apply Forall_insert; [done|cbn; by rewrite length_insert]|].
    intros i c0 Hi. rewrite aget_insert by lia. case_decide; [by intros [= <-]|]. apply Hoff. lia.
  - rewrite obind_Some. eexists. split; [done|]. constructor; cbn; try done.
    intros i c Hc. rewrite lookup_empty. cbn. eapply Hoff; [|done]. apply aget_lt in Hc. lia.
Qed.

Lemma slab_reach_ok m0 m s G : slab_reach m0 m s G → slab_ok m s G.
Proof.
  induction 1 as [s0 s Hsh E|m s G op m' s' out _ IH Hop E].
  - destruct (owslab_init_spec m0 s0 Hsh) as (s1 & E1 & Hok). rewrite E1 in E. by injection E as <-.
  - destruct (slab_exec_spec m s G op IH Hop) as (m1 & s1 & o1 & E1 & _ & Hok). rewrite E1 in E. by injection E as <- <- <-.
Qed.

(** ** Claims *)

(** [C19] The slab registry: in every state that clients can reach, each call
    returns without undefined behaviour and does what it does on the abstract
    registry.  A cache is created in the first free slot, or refused for a bad
    geometry or a full registry; allocations, frees and accesses on one cache act
    on the map of that cache's objects, so that no object is handed out twice and
    foreign pointers and double frees are refused; and no call changes an object
    of another cache. *)
Theorem owslab_caches_isolated m0 m s G op :
  slab_reach m0 m s G → slab_op_ok m G op →
  ∃ m' s' out, slab_exec op (m, s) = Some (m', s', out) ∧ slab_step G op out (slab_owned m' G op out) ∧
    slab_ok m' s' (slab_owned m' G op out).
Proof. intros Hr Hop. apply slab_exec_spec; [by eapply slab_reach_ok|done]. Qed.

(** The slab and the pool are the same allocator: on an active cache,
    [owslab_alloc] and [owslab_free] give the results, the memory and the list
    and counters that [owpool_alloc] and [owpool_free] give on a pool over the
    same arena. *)
Theorem owslab_equals_pool m c a :
  sc_active c = true →
  owslab_alloc m (Some c) =
    match owpool_alloc m (Some (as_pool c)) with
    | Some (Some p, b) => Some (Some (from_pool c p), b)
    | _ => None
    end ∧
  owslab_free m (Some c) a =
    match owpool_free m (Some (as_pool c)) a with
    | Some (m', Some p, r) => Some (m', Some (from_pool c p), r)
    | _ => None
    end.
Proof. intros Ha. split; [by apply slab_alloc_pool|by apply slab_free_pool]. Qed.

(** ** Witnesses *)
Module SlabSample.
Import PoolSample.
Definition blank_cache : owslab_cache_t := mk_owslab_cache (replicate 24 0) 0 0 0 0 0 0 0 false.
Definition blank_state : owslab_state_t := mk_owslab_state (replicate 16 blank_cache) 0 false.
Definition reg0 : owslab_state_t := default blank_state (r ← owslab_init (Some blank_state); r.1).
Definition reg1 : mem * owslab_state_t * Z :=
  default (ram, reg0, 0) (slab_exec (SlabCreate (Some [65; 66]) 16 4 3) (ram, reg0)).
(** A second cache over the next twelve bytes. *)
Definition ram2 : mem := list_to_map ((λ a, (a, 0)) <$> seqZ 16 24).
Definition reg2 : mem * owslab_state_t * Z :=
  default (ram2, reg0, 0)
    ('(m, s, _) ← slab_exec (SlabCreate None 16 4 3) (ram2, reg0); slab_exec (SlabCreate None 28 4 3) (m, s)).
Lemma ram_mapped : mapped ram 16 12.
Proof.
  intros a Ha. assert (a ∈ seqZ 16 12) as Hin by (apply elem_of_seqZ; lia).
  eapply (Forall_forall (λ a, is_Some (ram !! a)) (seqZ 16 12)); [|exact Hin].
  apply (bool_decide_unpack _). vm_compute. exact I.
Qed.
End SlabSample.
Import PoolSample SlabSample.

Lemma owslab_caches_isolated_witness :
  ∃ m' s' out, slab_exec (SlabOn 0 BAlloc) (reg1.1.1, reg1.1.2) = Some (m', s', out) ∧ out = 16 ∧
    slab_step {[0 := mk_cache_view 16 4 3 ∅]} (SlabOn 0 BAlloc) out
      {[0 := mk_cache_view 16 4 3 {[16 := [1; 0; 0; 0]]}]}.
Proof.
  assert (slab_reach ram ram reg0 ∅) as H0.
  { apply (sr_init _ blank_state); [|vm_compute; reflexivity]. split; [reflexivity|].
    apply Forall_replicate. reflexivity. }
  assert (slab_exec (SlabCreate (Some [65; 66]) 16 4 3) (ram, reg0) = Some (reg1.1.1, reg1.1.2, 0)) as E1
    by (vm_compute; reflexivity).
  pose proof (sr_step _ _ _ _ (SlabCreate (Some [65; 66]) 16 4 3) _ _ _ H0
    ltac:(repeat split; try lia; [exact ram_mapped|by intros j v ?%lookup_empty_Some]) E1) as H1.
  assert (slab_owned reg1.1.1 ∅ (SlabCreate (Some [65; 66]) 16 4 3) 0 = {[0 := mk_cache_view 16 4 3 ∅]}) as EG
    by (vm_compute; reflexivity).
  rewrite EG in H1.
  destruct (owslab_caches_isolated ram reg1.1.1 reg1.1.2 {[0 := mk_cache_view 16 4 3 ∅]} (SlabOn 0 BAlloc))
    as (m' & s' & out & E & Hs & _); [exact H1|split; [lia|split; [discriminate|exact I]]|].
  assert ((r ← slab_exec (SlabOn 0 BAlloc) (reg1.1.1, reg1.1.2); Some (r.2, bytes 4 r.1.1 16)) =
    Some (16, [1; 0; 0; 0])) as E2 by (vm_compute; reflexivity).
  rewrite E in E2. assert (out = 16) as -> by exact (f_equal (λ o, (default (0, []) o).1) E2).
  assert (bytes 4 m' 16 = [1; 0; 0; 0]) as E4 by exact (f_equal (λ o, (default (0, []) o).2) E2).
  exists m', s', 16. split; [exact E|]. split; [reflexivity|].
  assert (slab_owned m' {[0 := mk_cache_view 16 4 3 ∅]} (SlabOn 0 BAlloc) 16 =
    {[0 := mk_cache_view 16 4 3 {[16 := bytes 4 m' 16]}]}) as E3 by reflexivity.
  rewrite E3, E4 in Hs. exact Hs.
Defined.

Lemma owslab_equals_pool_witness :
  let c := default blank_cache (ss_caches reg1.1.2 !! 0%nat) in
  sc_active c = true ∧ owslab_free reg1.1.1 (Some c) 18 =
    match owpool_free reg1.1.1 (Some (as_pool c)) 18 with
    | Some (m', Some p, r) => Some (m', Some (from_pool c p), r)
    | _ => None
    end.
Proof.
  split; [vm_compute; reflexivity|]. apply (owslab_equals_pool reg1.1.1 (default blank_cache (ss_caches reg1.1.2 !! 0%nat)) 18).
  vm_compute. reflexivity.
Defined.

(** Destroying a cache twice is accepted twice, and the registry then counts
    fewer caches than are active. *)
Lemma owslab_destroy_twice :
  (r ← slab_exec (SlabDestroy 0) (reg2.1.1, reg2.1.2);
   r ← slab_exec (SlabDestroy 0) (r.1.1, r.1.2);
   Some (r.2, ss_cache_count r.1.2, length (filter (λ c, sc_active c = true) (ss_caches r.1.2)))) =
  Some (1, 0, 1%nat).
Proof. vm_compute. reflexivity. Qed.
