(* ===== verification/Owbitmap.v ===== *)
(** The bitmap allocator (src/DLL/owbitmap64/owbitmap64.c, owbitmap64.h): bits
    of an array of 64-bit words, searched word by word.  It implements a set of
    bit numbers that hands out the smallest free one. *)
From S2P Require Import Prelude.

(** ** The code *)

Definition OWBMP_BITS_PER_WORD : Z := 64.

Record owbitmap_t := mk_owbitmap {
  bm_words : list Z;                     (* the caller's array *)
  bm_word_count : Z;
  bm_bit_count : Z;
  bm_used : Z;
  bm_initialized : bool
}.
#[export] Instance eta_owbitmap : Eta owbitmap_t := λ b,
  mk_owbitmap (bm_words b) (bm_word_count b) (bm_bit_count b) (bm_used b) (bm_initialized b).

Definition bmp_mask (bit : Z) : Z := u64 (Z.shiftl 1 (Z.land bit (OWBMP_BITS_PER_WORD - 1))).

Definition owbmp_init (bm : ptr owbitmap_t) (words : ptr (list Z)) (bit_count : Z)
    : option (ptr owbitmap_t * bool) :=
  match bm, words with
  | Some b, Some ws =>
      if bit_count =? 0 then Some (bm, false)
      else if UINT32_MAX - (OWBMP_BITS_PER_WORD - 1) <? bit_count then Some (bm, false)
      else
        let word_count := u32 (bit_count + (OWBMP_BITS_PER_WORD - 1)) / OWBMP_BITS_PER_WORD in
        ws ← for_up (Z.to_nat word_count) 0 (λ i ws, aset ws i 0) ws;
        Some (Some (mk_owbitmap ws word_count bit_count 0 true), true)
  | _, _ => Some (bm, false)
  end.

(** [while ((free_bits & 1) == 0) { free_bits >>= 1; bit++; }] *)
Fixpoint bmp_first_set (fuel : nat) (free_bits bit : Z) : option Z :=
  match fuel with
  | O => None
  | S f => if Z.land free_bits 1 =? 0 then bmp_first_set f (Z.shiftr free_bits 1) (u32 (bit + 1)) else Some bit
  end.

(** The free bits of word [i], those behind the last bit masked off. *)
Definition bmp_free_bits (bm : owbitmap_t) (i word : Z) : Z :=
  let free_bits := u64 (Z.lnot word) in
  let base := u32 (i * OWBMP_BITS_PER_WORD) in
  if bm_bit_count bm <? u32 (base + OWBMP_BITS_PER_WORD) then
    let valid := u32 (bm_bit_count bm - base) in
    if valid <? OWBMP_BITS_PER_WORD then Z.land free_bits (u64 (u64 (Z.shiftl 1 valid) - 1)) else free_bits
  else free_bits.

(** The loop over the words, from word [i] on with [n] words left. *)
Fixpoint bmp_scan (n : nat) (bm : owbitmap_t) (i : Z) : option Z :=
  match n with
  | O => Some (-1)
  | S n' =>
      word ← aget (bm_words bm) i;
      if word =? UINT64_MAX then bmp_scan n' bm (i + 1)
      else
        let free_bits := bmp_free_bits bm i word in
        if free_bits =? 0 then bmp_scan n' bm (i + 1)
        else
          bit ← bmp_first_set 64 free_bits 0;
          Some (u32 (u32 (i * OWBMP_BITS_PER_WORD) + bit))
  end.

Definition owbmp_find_first_free (bm : ptr owbitmap_t) : option Z :=
  match bm with
  | None => Some (-1)
  | Some b => if negb (bm_initialized b) then Some (-1) else bmp_scan (Z.to_nat (bm_word_count b)) b 0
  end.

Definition owbmp_alloc (bm : ptr owbitmap_t) : option (ptr owbitmap_t * Z) :=
  bit ← owbmp_find_first_free bm;
  if bit <? 0 then Some (bm, -1)
  else
    b ← bm;
    let idx := u32 bit in
    w ← aget (bm_words b) (idx / OWBMP_BITS_PER_WORD);
    ws ← aset (bm_words b) (idx / OWBMP_BITS_PER_WORD) (Z.lor w (bmp_mask idx));
    Some (Some (b <| bm_words := ws |> <| bm_used := u32 (bm_used b + 1) |>), bit).

Definition owbmp_free (bm : ptr owbitmap_t) (bit : Z) : option (ptr owbitmap_t * bool) :=
  match bm with
  | None => Some (bm, false)
  | Some b =>
      if negb (bm_initialized b) || (bm_bit_count b <=? bit) then Some (bm, false)
      else
        let idx := bit / OWBMP_BITS_PER_WORD in
        let mask := bmp_mask bit in
        w ← aget (bm_words b) idx;
        if Z.land w mask =? 0 then Some (bm, false)
        else
          ws ← aset (bm_words b) idx (Z.land w (u64 (Z.lnot mask)));
          let b := b <| bm_words := ws |> in
          Some (Some (if 0 <? bm_used b then b <| bm_used := u32 (bm_used b - 1) |> else b), true)
  end.

Definition owbmp_test (bm : ptr owbitmap_t) (bit : Z) : option bool :=
  match bm with
  | None => Some false
  | Some b =>
      if negb (bm_initialized b) || (bm_bit_count b <=? bit) then Some false
      else
        w ← aget (bm_words b) (bit / OWBMP_BITS_PER_WORD);
        Some (negb (Z.land w (bmp_mask bit) =? 0))
  end.

(** ** The set of allocated bits *)

(** ** Words *)

Definition word_ok (w : Z) : Prop := 0 ≤ w < 2 ^ 64.

Lemma mask_spec bit : 0 ≤ bit → bmp_mask bit = 2 ^ (bit mod 64).
Proof.
  intros Hb. unfold bmp_mask, OWBMP_BITS_PER_WORD. change (64 - 1) with (Z.ones 6).
  rewrite Z.land_ones, Z.shiftl_mul_pow2, Z.mul_1_l by (try apply Z.mod_pos_bound; lia). change (2 ^ 6) with 64.
  apply u64_small. pose proof (Z.mod_pos_bound bit 64 ltac:(lia)).
  split; [apply Z.pow_nonneg; lia|]. change 18446744073709551616 with (2 ^ 64). apply Z.pow_lt_mono_r; lia.
Qed.

Lemma word_testbit_high w k : word_ok w → 64 ≤ k → Z.testbit w k = false.
Proof.
  intros [H0 H1] Hk. destruct (decide (w = 0)) as [->|]; [apply Z.testbit_0_l|].
  apply Z.bits_above_log2; [done|]. pose proof (proj1 (Z.log2_lt_pow2 w 64 ltac:(lia)) H1). lia.
Qed.

Lemma u64_testbit x k : 0 ≤ k < 64 → Z.testbit (u64 x) k = Z.testbit x k.
Proof. intros Hk. unfold u64, wrap. rewrite Z.mod_pow2_bits_low by lia. done. Qed.

Lemma land_mask w b : 0 ≤ b < 64 → (Z.land w (2 ^ b) =? 0) = negb (Z.testbit w b).
Proof.
  intros Hb. rewrite <-(Z.mul_1_l (2 ^ b)), <-Z.shiftl_mul_pow2 by lia.
  destruct (Z.testbit w b) eqn:E.
  - apply Z.eqb_neq. intros H0. apply (f_equal (λ z, Z.testbit z b)) in H0.
    rewrite Z.land_spec, E, Z.shiftl_spec, Z.sub_diag, Z.testbit_0_l in H0 by lia. done.
  - apply Z.eqb_eq, Z.bits_inj'. intros i Hi. rewrite Z.land_spec, Z.shiftl_spec, Z.testbit_0_l by lia.
    destruct (decide (i = b)) as [->|]; [by rewrite E|].
    destruct (decide (i < b)); [rewrite (Z.testbit_neg_r 1) by lia; apply andb_false_r|].
    rewrite (Z.bits_above_log2 1 (i - b)) by (simpl; lia). apply andb_false_r.
Qed.

Lemma lor_mask_bit w b k : 0 ≤ b → 0 ≤ k → Z.testbit (Z.lor w (2 ^ b)) k = Z.testbit w k || bool_decide (k = b).
Proof.
  intros Hb Hk. rewrite Z.lor_spec. f_equal. case_bool_decide as E; [subst; apply Z.pow2_bits_true; lia|].
  apply Z.pow2_bits_false. lia.
Qed.

Lemma clear_mask_bit w b k :
  0 ≤ b < 64 → 0 ≤ k < 64 →
  Z.testbit (Z.land w (u64 (Z.lnot (2 ^ b)))) k = Z.testbit w k && negb (bool_decide (k = b)).
Proof.
  intros Hb Hk. rewrite Z.land_spec, u64_testbit, Z.lnot_spec by lia. do 2 f_equal.
  case_bool_decide as E; [subst; apply Z.pow2_bits_true; lia|]. apply Z.pow2_bits_false. lia.
Qed.

Lemma word_ok_lor w b : word_ok w → 0 ≤ b < 64 → word_ok (Z.lor w (2 ^ b)).
Proof.
  intros Hw Hb. split; [apply Z.lor_nonneg; split; [apply Hw|apply Z.pow_nonneg; lia]|].
  destruct (decide (Z.lor w (2 ^ b) = 0)) as [->|Hne]; [lia|].
  assert (0 ≤ Z.lor w (2 ^ b)) by (apply Z.lor_nonneg; split; [apply Hw|apply Z.pow_nonneg; lia]).
  apply Z.log2_lt_pow2; [lia|]. rewrite Z.log2_lor by (try apply Hw; apply Z.pow_nonneg; lia).
  rewrite Z.log2_pow2 by lia. apply Z.max_lub_lt; [|lia].
  destruct (decide (w = 0)) as [->|]; [simpl; lia|]. apply Z.log2_lt_pow2; destruct Hw; lia.
Qed.

Lemma word_ok_land w x : word_ok w → 0 ≤ x → word_ok (Z.land w x).
Proof.
  intros [H0 H1] Hx. split; [apply Z.land_nonneg; by left|].
  destruct (decide (Z.land w x = 0)) as [->|]; [lia|].
  assert (0 ≤ Z.land w x) by (apply Z.land_nonneg; by left).
  apply Z.log2_lt_pow2; [lia|]. pose proof (Z.log2_land w x H0 Hx). destruct (decide (w = 0)) as [->|]; [done|].
  pose proof (proj1 (Z.log2_lt_pow2 w 64 ltac:(lia)) H1). lia.
Qed.

(** The loop over the bits of a word finds the lowest one that is set. *)
Lemma first_set_spec fuel x bit :
  0 < x < 2 ^ Z.of_nat fuel → 0 ≤ bit → bit + Z.of_nat fuel ≤ 64 →
  ∃ k, bmp_first_set fuel x bit = Some (bit + k) ∧ 0 ≤ k < Z.of_nat fuel ∧ Z.testbit x k = true ∧
    ∀ j, 0 ≤ j < k → Z.testbit x j = false.
Proof.
  revert x bit. induction fuel as [|f IH]; intros x bit Hx Hb Hf; [simpl in *; lia|]. cbn [bmp_first_set].
  change 1 with (2 ^ 0) at 1. rewrite land_mask by lia. destruct (Z.testbit x 0) eqn:E; cbn [negb].
  { exists 0. rewrite Z.add_0_r. split; [done|]. split; [lia|]. split; [done|]. lia. }
  rewrite Z.shiftr_div_pow2 by lia. change (2 ^ 1) with 2.
  assert (x = 2 * (x / 2)) as Ex.
  { rewrite Z.bit0_odd in E. pose proof (Zdiv2_odd_eqn x) as H. rewrite E, Z.div2_div in H. lia. }
  rewrite Nat2Z.inj_succ, Z.pow_succ_r in Hx by lia.
  destruct (IH (x / 2) (bit + 1)) as (k & Ek & Hk & Ht & Hlow); [lia|lia|lia|].
  rewrite u32_small by lia. exists (k + 1). rewrite Ek. split; [f_equal; lia|]. split; [lia|].
  assert (∀ i, 0 ≤ i → Z.testbit x (i + 1) = Z.testbit (x / 2) i) as Hsh.
  { intros i Hi. by rewrite Z.div2_bits by lia. }
  split; [by rewrite Hsh by lia|]. intros j Hj. destruct (decide (j = 0)) as [->|]; [done|].
  replace j with ((j - 1) + 1) by lia. rewrite Hsh by lia. apply Hlow. lia.
Qed.

(** ** The set of allocated bits *)

Definition bit_of (ws : list Z) (i : Z) : bool :=
  match aget ws (i / 64) with Some w => Z.testbit w (i mod 64) | None => false end.

Definition bit_set (b : owbitmap_t) : gset Z :=
  list_to_set (filter (λ i, bit_of (bm_words b) i = true) (seqZ 0 (bm_bit_count b))).

Record bmp_ok (b : owbitmap_t) : Prop := {
  bo_init : bm_initialized b = true;
  bo_bits : 0 < bm_bit_count b ≤ UINT32_MAX - 63;
  bo_count : bm_word_count b = (bm_bit_count b + 63) / 64;
  bo_len : bm_word_count b ≤ Z.of_nat (length (bm_words b));
  bo_words : Forall word_ok (bm_words b);
  bo_used : bm_used b = Z.of_nat (size (bit_set b))
}.

Lemma elem_of_bit_set b i : i ∈ bit_set b ↔ 0 ≤ i < bm_bit_count b ∧ bit_of (bm_words b) i = true.
Proof.
  unfold bit_set. rewrite elem_of_list_to_set, list_elem_of_filter, elem_of_seqZ. intuition lia.
Qed.

Section bitmap.
Context (b : owbitmap_t) (Hb : bmp_ok b).

Lemma bits_range : 0 < bm_bit_count b ≤ 4294967232.
Proof. pose proof (bo_bits _ Hb) as H. unfold UINT32_MAX in H. lia. Qed.

Lemma word_at i : 0 ≤ i < bm_word_count b → ∃ w, aget (bm_words b) i = Some w ∧ word_ok w.
Proof.
  intros Hi. destruct (aget_is_Some (bm_words b) i) as [w Hw]; [pose proof (bo_len _ Hb); lia|].
  exists w. split; [done|]. pose proof Hw as [_ Hw']%aget_Some. exact (Forall_lookup_1 _ _ _ _ (bo_words _ Hb) Hw').
Qed.

Lemma word_of_bit i : 0 ≤ i < bm_bit_count b → 0 ≤ i / 64 < bm_word_count b.
Proof. intros Hi. rewrite (bo_count _ Hb). split; [zdm|]. zdm. Qed.

Lemma bit_in_word i k w : aget (bm_words b) i = Some w → 0 ≤ k < 64 → bit_of (bm_words b) (64 * i + k) = Z.testbit w k.
Proof.
  intros Hw Hk. unfold bit_of. replace ((64 * i + k) / 64) with i by zdm. rewrite Hw. f_equal. zdm.
Qed.

(** The free bits of a word. *)
Lemma free_bits_spec i w :
  0 ≤ i < bm_word_count b → word_ok w →
  word_ok (bmp_free_bits b i w) ∧
  ∀ k, 0 ≤ k < 64 → Z.testbit (bmp_free_bits b i w) k = negb (Z.testbit w k) && (64 * i + k <? bm_bit_count b).
Proof.
  intros Hi Hw. pose proof bits_range as Hr. rewrite (bo_count _ Hb) in Hi.
  unfold bmp_free_bits, OWBMP_BITS_PER_WORD. cbv zeta.
  assert (word_ok (u64 (Z.lnot w))) as Hok by (apply u64_range).
  assert (∀ k, 0 ≤ k < 64 → Z.testbit (u64 (Z.lnot w)) k = negb (Z.testbit w k)) as Hnot
    by (intros k Hk; rewrite u64_testbit, Z.lnot_spec by lia; done).
  rewrite (u32_small (i * 64)) by zdm. rewrite (u32_small (i * 64 + 64)) by zdm.
  destruct (Z.ltb_spec (bm_bit_count b) (i * 64 + 64)).
  - rewrite u32_small by zdm. set (v := bm_bit_count b - i * 64). assert (0 < v < 64) as Hv by (subst v; zdm).
    rewrite (proj2 (Z.ltb_lt v 64)) by lia.
    assert (u64 (u64 (Z.shiftl 1 v) - 1) = Z.ones v) as ->.
    { rewrite Z.shiftl_mul_pow2, Z.mul_1_l by lia. assert (2 ^ v < 2 ^ 64) by (apply Z.pow_lt_mono_r; lia).
      assert (0 < 2 ^ v) by (apply Z.pow_pos_nonneg; lia).
      rewrite (u64_small (2 ^ v)), u64_small by lia. rewrite Z.ones_equiv. lia. }
    split; [apply word_ok_land; [done|rewrite Z.ones_equiv; pose proof (Z.pow_pos_nonneg 2 v); lia]|].
    intros k Hk. rewrite Z.land_spec, Hnot by lia. f_equal. destruct (Z.ltb_spec (64 * i + k) (bm_bit_count b)).
    + apply Z.ones_spec_low. subst v. lia.
    + apply Z.ones_spec_high. subst v. lia.
  - split; [done|]. intros k Hk. rewrite Hnot, (proj2 (Z.ltb_lt _ _)), andb_true_r by lia. done.
Qed.

(** The scan answers the smallest free bit from word [i] on. *)
Lemma bmp_scan_spec n i :
  0 ≤ i → i + Z.of_nat n = bm_word_count b →
  ∃ r, bmp_scan n b i = Some r ∧
    (r = -1 ∧ (∀ j, 64 * i ≤ j < bm_bit_count b → bit_of (bm_words b) j = true) ∨
     64 * i ≤ r < bm_bit_count b ∧ bit_of (bm_words b) r = false ∧
       ∀ j, 64 * i ≤ j < r → bit_of (bm_words b) j = true).
Proof.
  revert i. induction n as [|n IH]; intros i Hi Hn; cbn [bmp_scan].
  { exists (-1). split; [done|]. left. split; [done|]. intros j Hj. rewrite (bo_count _ Hb) in Hn. zdm. }
  destruct (word_at i) as (w & Hw & Hok); [lia|]. rewrite Hw, obind_Some. pose proof bits_range as Hr.
  assert (∀ j, 64 * i ≤ j < 64 * (i + 1) → bit_of (bm_words b) j = Z.testbit w (j - 64 * i)) as Hbit.
  { intros j Hj. rewrite <-(bit_in_word i) by (done || lia). f_equal. lia. }
  assert ((∀ k, 0 ≤ k < 64 → 64 * i + k < bm_bit_count b → Z.testbit w k = true) →
    ∃ r, bmp_scan n b (i + 1) = Some r ∧
    (r = -1 ∧ (∀ j, 64 * i ≤ j < bm_bit_count b → bit_of (bm_words b) j = true) ∨
     64 * i ≤ r < bm_bit_count b ∧ bit_of (bm_words b) r = false ∧
       ∀ j, 64 * i ≤ j < r → bit_of (bm_words b) j = true)) as Hnext.
  { intros Hfull. assert (∀ j, 64 * i ≤ j < 64 * (i + 1) → j < bm_bit_count b → bit_of (bm_words b) j = true) as Hf.
    { intros j Hj Hjb. rewrite Hbit by lia. apply Hfull; lia. }
    destruct (IH (i + 1)) as (r & E & H); [lia|lia|]. exists r. split; [done|]. destruct H as [[-> H]|(H1 & H2 & H3)].
    - left. split; [done|]. intros j Hj. destruct (decide (j < 64 * (i + 1))); [apply Hf; lia|apply H; lia].
    - right. split; [lia|]. split; [done|]. intros j Hj.
      destruct (decide (j < 64 * (i + 1))); [apply Hf; lia|apply H3; lia]. }
  destruct (Z.eqb_spec w UINT64_MAX) as [->|Hne].
  { apply Hnext. intros k Hk _. change UINT64_MAX with (Z.ones 64). by apply Z.ones_spec_low. }
  destruct (free_bits_spec i w) as [Hfok Hfb]; [lia|done|]. cbv zeta. set (fb := bmp_free_bits b i w) in *.
  destruct (Z.eqb_spec fb 0) as [E0|Hfne].
  { apply Hnext. intros k Hk Hkb. specialize (Hfb k Hk). rewrite E0, Z.testbit_0_l in Hfb.
    rewrite (proj2 (Z.ltb_lt _ _)), andb_true_r in Hfb by lia. by destruct (Z.testbit w k). }
  destruct (first_set_spec 64 fb 0) as (k & -> & Hk & Ht & Hlow); [destruct Hfok; lia|lia|lia|].
  rewrite obind_Some, Z.add_0_l. rewrite Hfb in Ht by lia. apply andb_true_iff in Ht as [Ht%negb_true_iff Hlt%Z.ltb_lt].
  unfold OWBMP_BITS_PER_WORD. rewrite (u32_small (i * 64)), u32_small by lia. exists (i * 64 + k). split; [done|]. right.
  split; [lia|]. split; [rewrite Hbit by lia; by replace (i * 64 + k - 64 * i) with k by lia|].
  intros j Hj. rewrite Hbit by lia. specialize (Hlow (j - 64 * i) ltac:(lia)). rewrite Hfb in Hlow by lia.
  rewrite (proj2 (Z.ltb_lt _ _)), andb_true_r in Hlow by lia. by apply negb_false_iff in Hlow.
Qed.

Lemma find_first_free_spec :
  ∃ r, owbmp_find_first_free (Some b) = Some r ∧
    (r = -1 ∧ (∀ j, 0 ≤ j < bm_bit_count b → j ∈ bit_set b) ∨
     0 ≤ r < bm_bit_count b ∧ r ∉ bit_set b ∧ ∀ j, 0 ≤ j < r → j ∈ bit_set b).
Proof.
  unfold owbmp_find_first_free. rewrite (bo_init _ Hb). cbn [negb].
  assert (0 ≤ bm_word_count b) by (rewrite (bo_count _ Hb); pose proof bits_range; zdm).
  destruct (bmp_scan_spec (Z.to_nat (bm_word_count b)) 0) as (r & -> & H1); [lia|lia|]. exists r. split; [done|].
  destruct H1 as [[-> H1]|(H1 & H2 & H3)]; [left|right].
  - split; [done|]. intros j Hj. apply elem_of_bit_set. split; [done|]. by apply H1.
  - split; [done|]. split; [rewrite elem_of_bit_set; intros [_ ?]; congruence|].
    intros j Hj. apply elem_of_bit_set. split; [lia|]. by apply H3.
Qed.

(** Changing one bit of one word. *)
Lemma update_bit i w w' (f : bool) :
  0 ≤ i < bm_bit_count b → aget (bm_words b) (i / 64) = Some w → word_ok w' →
  (∀ k, 0 ≤ k < 64 → Z.testbit w' k = if bool_decide (k = i mod 64) then f else Z.testbit w k) →
  let ws := <[Z.to_nat (i / 64) := w']> (bm_words b) in
  Forall word_ok ws ∧ length ws = length (bm_words b) ∧
  ∀ j, 0 ≤ j < bm_bit_count b → bit_of ws j = if bool_decide (j = i) then f else bit_of (bm_words b) j.
Proof.
  intros Hi Hw Hok Hbits ws. pose proof (aget_lt _ _ _ Hw) as Hlt.
  split; [apply Forall_insert; [apply (bo_words _ Hb)|done]|]. split; [apply length_insert|].
  intros j Hj. unfold bit_of, ws. rewrite aget_insert by done. case_decide as E.
  - rewrite Hbits by (apply Z.mod_pos_bound; lia). rewrite <-E, Hw.
    replace (bool_decide (j mod 64 = i mod 64)) with (bool_decide (j = i)); [done|]. apply bool_decide_ext.
    split; [by intros ->|]. zdm.
  - rewrite bool_decide_eq_false_2; [done|]. by intros ->.
Qed.
End bitmap.

(** ** Calls on the set *)

Inductive bmp_op := BmpAlloc | BmpFree (bit : Z) | BmpTest (bit : Z).

Definition bmp_exec (op : bmp_op) (b : owbitmap_t) : option (owbitmap_t * Z) :=
  match op with
  | BmpAlloc => '(b, r) ← owbmp_alloc (Some b); b ← b; Some (b, r)
  | BmpFree bit => '(b, r) ← owbmp_free (Some b) bit; b ← b; Some (b, if (r : bool) then 1 else 0)
  | BmpTest bit => r ← owbmp_test (Some b) bit; Some (b, if (r : bool) then 1 else 0)
  end.

Definition bmp_op_ok (op : bmp_op) : Prop :=
  match op with BmpAlloc => True | BmpFree bit | BmpTest bit => 0 ≤ bit < 2 ^ 32 end.

(** The calls on a set of allocated numbers below [n]. *)
Inductive bmp_step (n : Z) (X : gset Z) : bmp_op → Z → gset Z → Prop :=
  | bs_alloc i : 0 ≤ i < n → i ∉ X → (∀ j, 0 ≤ j < i → j ∈ X) → bmp_step n X BmpAlloc i ({[i]} ∪ X)
  | bs_full : (∀ j, 0 ≤ j < n → j ∈ X) → bmp_step n X BmpAlloc (-1) X
  | bs_free i : i ∈ X → bmp_step n X (BmpFree i) 1 (X ∖ {[i]})
  | bs_free_refused i : i ∉ X → bmp_step n X (BmpFree i) 0 X
  | bs_test i : bmp_step n X (BmpTest i) (if bool_decide (i ∈ X) then 1 else 0) X.

Lemma bit_set_size_le b : Z.of_nat (size (bit_set b)) ≤ Z.max 0 (bm_bit_count b).
Proof.
  assert (bit_set b ⊆ list_to_set (seqZ 0 (bm_bit_count b))) as H.
  { intros i Hi%elem_of_bit_set. rewrite elem_of_list_to_set, elem_of_seqZ. lia. }
  apply subseteq_size in H. rewrite size_list_to_set, length_seqZ in H by apply NoDup_seqZ. lia.
Qed.

Section calls.
Context (b : owbitmap_t) (Hb : bmp_ok b).

Lemma test_bit i :
  0 ≤ i < bm_bit_count b → ∃ w, aget (bm_words b) (i / 64) = Some w ∧ word_ok w ∧
    (Z.land w (bmp_mask i) =? 0) = negb (bool_decide (i ∈ bit_set b)) ∧ 0 ≤ i mod 64 < 64.
Proof.
  intros Hi. destruct (word_at b Hb (i / 64)) as (w & Hw & Hok); [by apply word_of_bit|].
  pose proof (Z.mod_pos_bound i 64 ltac:(lia)) as Hm. exists w. split; [done|]. split; [done|]. split; [|done].
  rewrite mask_spec, land_mask by lia. f_equal. apply Bool.eq_iff_eq_true. rewrite bool_decide_eq_true, elem_of_bit_set.
  unfold bit_of. rewrite Hw. intuition.
Qed.

Lemma bmp_alloc_spec :
  ∃ b' r, owbmp_alloc (Some b) = Some (Some b', r) ∧ bmp_ok b' ∧ bm_bit_count b' = bm_bit_count b ∧
    bmp_step (bm_bit_count b) (bit_set b) BmpAlloc r (bit_set b').
Proof.
  unfold owbmp_alloc. destruct (find_first_free_spec b Hb) as (r & -> & [[-> H]|(H1 & H2 & H3)]); rewrite obind_Some.
  { exists b, (-1). split; [done|]. split; [done|]. split; [done|]. by apply bs_full. }
  rewrite (proj2 (Z.ltb_ge r 0)), obind_Some by lia. cbv zeta. pose proof (bits_range b Hb) as Hbr.
  rewrite (u32_small r) by lia. unfold OWBMP_BITS_PER_WORD.
  destruct (test_bit r H1) as (w & Hw & Hok & _ & Hm). pose proof (aget_lt _ _ _ Hw) as Hlt.
  rewrite Hw, obind_Some, aset_in, obind_Some, mask_spec by lia. eexists _, r. split; [done|].
  destruct (update_bit b Hb r w (Z.lor w (2 ^ (r mod 64))) true H1 Hw) as (U1 & U2 & U3).
  { by apply word_ok_lor. }
  { intros k Hk. rewrite lor_mask_bit by lia. case_bool_decide; [apply orb_true_r|apply orb_false_r]. }
  match goal with |- bmp_ok ?x ∧ _ => set (b' := x) end.
  assert (bit_set b' = {[r]} ∪ bit_set b) as ES.
  { apply set_eq. intros j. rewrite elem_of_union, elem_of_singleton, !elem_of_bit_set.
    change (bm_bit_count b') with (bm_bit_count b). change (bm_words b') with
      (<[Z.to_nat (r / 64) := Z.lor w (2 ^ (r mod 64))]> (bm_words b)). split.
    - intros [Hj E]. rewrite U3 in E by done. case_bool_decide; [by left|right; done].
    - intros [->|[Hj E]]; (split; [done|]); rewrite U3 by done; case_bool_decide; done. }
  split; [|split; [done|rewrite ES; by apply bs_alloc]]. destruct Hb as [Hi Hbits Hwc Hl Hws Hu].
  constructor; [done|done|done| |exact U1|].
  - cbn. rewrite length_insert. done.
  - rewrite ES. rewrite size_union by set_solver. rewrite size_singleton. cbn [b' bm_used set_field].
    assert (size (bit_set b') ≤ Z.to_nat (bm_bit_count b))%nat as Hsz.
    { pose proof (bit_set_size_le b') as H. change (bm_bit_count b') with (bm_bit_count b) in H. lia. }
    rewrite ES, size_union, size_singleton in Hsz by set_solver. subst b'. cbn. rewrite u32_small by lia. lia.
Qed.

Lemma bmp_free_spec bit :
  0 ≤ bit < 2 ^ 32 →
  ∃ b' r, owbmp_free (Some b) bit = Some (Some b', r) ∧ bmp_ok b' ∧ bm_bit_count b' = bm_bit_count b ∧
    bmp_step (bm_bit_count b) (bit_set b) (BmpFree bit) (if r then 1 else 0) (bit_set b').
Proof.
  intros Hbit. unfold owbmp_free. rewrite (bo_init _ Hb). cbn [negb orb]. pose proof (bits_range b Hb) as Hbr.
  destruct (Z.leb_spec (bm_bit_count b) bit).
  { exists b, false. split; [done|]. split; [done|]. split; [done|]. apply bs_free_refused.
    rewrite elem_of_bit_set. lia. }
  assert (0 ≤ bit < bm_bit_count b) as Hi by lia. destruct (test_bit bit Hi) as (w & Hw & Hok & Ht & Hm).
  cbv zeta. unfold OWBMP_BITS_PER_WORD. rewrite Hw, obind_Some, Ht. case_bool_decide as Hin; cbn [negb].
  2:{ exists b, false. split; [done|]. split; [done|]. split; [done|]. by apply bs_free_refused. }
  pose proof (aget_lt _ _ _ Hw) as Hlt. rewrite aset_in, obind_Some, mask_spec by lia. eexists _, true. split; [done|].
  destruct (update_bit b Hb bit w (Z.land w (u64 (Z.lnot (2 ^ (bit mod 64))))) false Hi Hw) as (U1 & U2 & U3).
  { apply word_ok_land; [done|]. apply u64_range. }
  { intros k Hk. rewrite clear_mask_bit by lia. case_bool_decide; [apply andb_false_r|apply andb_true_r]. }
  set (ws := <[_ := _]> _) in *.
  assert (∀ u, bit_set (b <| bm_words := ws |> <| bm_used := u |>) = bit_set b ∖ {[bit]}) as ES.
  { intros u. apply set_eq. intros j. rewrite elem_of_difference, elem_of_singleton, !elem_of_bit_set.
    cbn [bm_bit_count bm_words set_field]. split.
    - intros [Hj E]. rewrite U3 in E by done. case_bool_decide; [done|split; done].
    - intros [[Hj E] Hne]. split; [done|]. rewrite U3 by done. by rewrite bool_decide_eq_false_2. }
  destruct Hb as [Hi' Hbits Hwc Hl Hws Hu].
  assert (size (bit_set b) = S (size (bit_set b ∖ {[bit]}))) as Hsz.
  { rewrite size_difference, size_singleton by set_solver.
    assert (size (bit_set b) ≠ 0%nat) as Hne by (apply size_non_empty_iff; set_solver). lia. }
  change (bm_used (b <| bm_words := ws |>)) with (bm_used b). rewrite (proj2 (Z.ltb_lt 0 (bm_used b))) by lia.
  split; [|split; [done|rewrite ES; by apply bs_free]]. constructor; [done|done|done| |exact U1|].
  - cbn. lia.
  - rewrite ES. cbn. pose proof (bit_set_size_le b). rewrite u32_small by lia. lia.
Qed.

Lemma bmp_test_spec bit :
  0 ≤ bit < 2 ^ 32 → owbmp_test (Some b) bit = Some (bool_decide (bit ∈ bit_set b)).
Proof.
  intros Hbit. unfold owbmp_test. rewrite (bo_init _ Hb). cbn [negb orb].
  destruct (Z.leb_spec (bm_bit_count b) bit).
  { rewrite bool_decide_eq_false_2; [done|]. rewrite elem_of_bit_set. lia. }
  destruct (test_bit bit) as (w & Hw & _ & Ht & _); [lia|]. unfold OWBMP_BITS_PER_WORD.
  rewrite Hw, obind_Some, Ht. by rewrite negb_involutive.
Qed.

Lemma bmp_exec_spec op :
  bmp_op_ok op → ∃ b' r, bmp_exec op b = Some (b', r) ∧ bmp_ok b' ∧ bm_bit_count b' = bm_bit_count b ∧
    bmp_step (bm_bit_count b) (bit_set b) op r (bit_set b').
Proof.
  intros Hop. destruct op as [|bit|bit]; cbn [bmp_exec bmp_op_ok] in *.
  - destruct bmp_alloc_spec as (b' & r & -> & H). by exists b', r.
  - destruct (bmp_free_spec bit Hop) as (b' & r & -> & H). eexists b', _. split; [done|]. exact H.
  - rewrite bmp_test_spec by done. eexists b, _. split; [done|]. split; [done|]. split; [done|]. apply bs_test.
Qed.
End calls.

Lemma bmp_init_spec b0 ws n :
  0 < n ≤ UINT32_MAX - 63 → (n + 63) / 64 ≤ Z.of_nat (length ws) → Forall word_ok ws →
  ∃ b, owbmp_init (Some b0) (Some ws) n = Some (Some b, true) ∧ bmp_ok b ∧ bm_bit_count b = n ∧ bit_set b = ∅.
Proof.
  intros Hn Hl Hws. unfold owbmp_init, OWBMP_BITS_PER_WORD. rewrite (proj2 (Z.eqb_neq n 0)) by lia.
  rewrite (proj2 (Z.ltb_ge _ n)) by (unfold UINT32_MAX in *; lia). cbv zeta.
  rewrite u32_small by (unfold UINT32_MAX in *; lia). change (n + (64 - 1)) with (n + 63). set (wc := (n + 63) / 64) in *.
  assert (0 ≤ wc) as Hwc by (subst wc; zdm).
  loop_inv (λ k ws', length ws' = length ws ∧ Forall word_ok ws' ∧ ∀ i, 0 ≤ i < k → aget ws' i = Some 0)
    as (ws' & -> & Hl' & Hws' & Hz).
  - split; [done|]. split; [done|]. lia.
  - intros k ws' Hk (Hl' & Hws' & Hz). rewrite aset_in by lia. eexists. split; [done|].
    split; [by rewrite length_insert|]. split; [by apply Forall_insert|].
    intros i Hi. rewrite aget_insert by lia. case_decide; [done|]. apply Hz. lia.
  - rewrite obind_Some. eexists. split; [done|].
    match goal with |- bmp_ok ?x ∧ _ => set (b := x) end.
    assert (bit_set b = ∅) as ES.
    { apply set_eq. intros j. rewrite elem_of_bit_set. cbn [b bm_bit_count bm_words]. split; [|by intros ?%not_elem_of_empty].
      intros [Hj E]. unfold bit_of in E. rewrite Hz, Z.testbit_0_l in E by (subst wc; zdm). done. }
    split; [|split; [done|exact ES]]. constructor; [done|exact Hn|done|cbn; lia|done|].
    rewrite ES. by rewrite size_empty.
Qed.

(** ** Claim *)

Fixpoint bmp_run (ops : list bmp_op) (b : owbitmap_t) : option (owbitmap_t * list Z) :=
  match ops with
  | [] => Some (b, [])
  | op :: ops => '(b, r) ← bmp_exec op b; '(b, rs) ← bmp_run ops b; Some (b, r :: rs)
  end.

Inductive bmp_steps (n : Z) : gset Z → list bmp_op → list Z → gset Z → Prop :=
  | bss_nil X : bmp_steps n X [] [] X
  | bss_cons X op r X1 ops rs X2 :
      bmp_step n X op r X1 → bmp_steps n X1 ops rs X2 → bmp_steps n X (op :: ops) (r :: rs) X2.

Lemma bmp_run_spec ops b :
  bmp_ok b → Forall bmp_op_ok ops →
  ∃ b' rs, bmp_run ops b = Some (b', rs) ∧ bmp_ok b' ∧ bmp_steps (bm_bit_count b) (bit_set b) ops rs (bit_set b').
Proof.
  intros Hb Hops. revert b Hb. induction Hops as [|op ops Hop _ IH]; intros b Hb.
  { exists b, []. split; [done|]. split; [done|]. constructor. }
  cbn [bmp_run]. destruct (bmp_exec_spec b Hb op Hop) as (b1 & r & -> & Hb1 & En & Hs). rewrite obind_Some.
  destruct (IH b1 Hb1) as (b2 & rs & -> & Hb2 & Hss). rewrite obind_Some. exists b2, (r :: rs).
  split; [done|]. split; [done|]. econstructor; [exact Hs|]. by rewrite <-En.
Qed.

(** [C31] The bitmap allocator is a set of numbers below its size: after
    [owbmp_init], every sequence of calls returns without leaving the words;
    [owbmp_alloc] takes the smallest number that is not in the set, across word
    boundaries and without the unused bits of the last word, and fails only if
    the set is full; [owbmp_free] removes a member and refuses everything else;
    [owbmp_test] is membership; and [used] is the size of the set. *)
Theorem owbitmap_refines_set b0 ws n ops :
  0 < n ≤ UINT32_MAX - 63 → (n + 63) / 64 ≤ Z.of_nat (length ws) → Forall word_ok ws → Forall bmp_op_ok ops →
  ∃ b b' rs, owbmp_init (Some b0) (Some ws) n = Some (Some b, true) ∧ bmp_run ops b = Some (b', rs) ∧
    bmp_steps n ∅ ops rs (bit_set b') ∧ bm_used b' = Z.of_nat (size (bit_set b')).
Proof.
  intros Hn Hl Hws Hops. destruct (bmp_init_spec b0 ws n Hn Hl Hws) as (b & E & Hb & En & ES).
  destruct (bmp_run_spec ops b Hb Hops) as (b' & rs & Er & Hb' & Hss). rewrite En, ES in Hss.
  exists b, b', rs. split; [done|]. split; [done|]. split; [done|apply Hb'].
Qed.

Lemma owbitmap_refines_set_witness :
  ∃ b b' rs, owbmp_init (Some (mk_owbitmap [] 0 0 0 false)) (Some [UINT64_MAX; 7]) 65 = Some (Some b, true) ∧
    bmp_run [BmpAlloc; BmpAlloc; BmpFree 0; BmpFree 0; BmpTest 1; BmpAlloc] b = Some (b', rs) ∧
    rs = [0; 1; 1; 0; 1; 0] ∧ bm_used b' = 2.
Proof.
  destruct (owbitmap_refines_set (mk_owbitmap [] 0 0 0 false) [UINT64_MAX; 7] 65
    [BmpAlloc; BmpAlloc; BmpFree 0; BmpFree 0; BmpTest 1; BmpAlloc]) as (b & b' & rs & E & Er & _).
  - unfold UINT32_MAX. lia.
  - vm_compute. discriminate.
  - repeat constructor; vm_compute; (discriminate || reflexivity).
  - repeat constructor; vm_compute; (discriminate || reflexivity).
  - exists b, b', rs. split; [exact E|]. split; [exact Er|].
    assert ((b ← (r ← owbmp_init (Some (mk_owbitmap [] 0 0 0 false)) (Some [UINT64_MAX; 7]) 65; r.1);
      '(b', rs) ← bmp_run [BmpAlloc; BmpAlloc; BmpFree 0; BmpFree 0; BmpTest 1; BmpAlloc] b; Some (bm_used b', rs)) =
      Some (2, [0; 1; 1; 0; 1; 0])) as EV by (vm_compute; reflexivity).
    rewrite E, obind_Some in EV. cbn [fst] in EV. rewrite obind_Some, Er, obind_Some in EV.
    split; [exact (f_equal (λ o, (default (0, []) o).2) EV)|exact (f_equal (λ o, (default (0, []) o).1) EV)].
Defined.
