(* ===== verification/Owfifo.v ===== *)
(** The byte queue (src/DLL/owfifo64/owfifo64.c, owfifo64.h): a ring over the
    caller's buffer with a separate count, and its refinement to a bounded
    queue. *)
From S2P Require Import Prelude.

Record owfifo_t := mk_owfifo {
  ff_buf : list Z;                       (* the caller's buffer *)
  ff_capacity : Z;
  ff_head : Z;
  ff_tail : Z;
  ff_used : Z;
  ff_initialized : bool
}.
#[export] Instance eta_owfifo : Eta owfifo_t := λ f,
  mk_owfifo (ff_buf f) (ff_capacity f) (ff_head f) (ff_tail f) (ff_used f) (ff_initialized f).

Definition owfifo_init (fifo : ptr owfifo_t) (buf : ptr (list Z)) (capacity : Z) : ptr owfifo_t * bool :=
  match fifo, buf with
  | Some f, Some b =>
      if capacity =? 0 then (fifo, false) else (Some (mk_owfifo b capacity 0 0 0 true), true)
  | _, _ => (fifo, false)
  end.

Definition owfifo_push (fifo : ptr owfifo_t) (value : Z) : option (ptr owfifo_t * bool) :=
  match fifo with
  | None => Some (fifo, false)
  | Some f =>
      if negb (ff_initialized f) then Some (fifo, false)
      else if ff_capacity f <=? ff_used f then Some (fifo, false)
      else
        buf ← aset (ff_buf f) (ff_tail f) value;
        if ff_capacity f =? 0 then None
        else Some (Some (f <| ff_buf := buf |> <| ff_tail := u32 (ff_tail f + 1) mod ff_capacity f |>
                           <| ff_used := u32 (ff_used f + 1) |>), true)
  end.

Definition owfifo_pop (fifo : ptr owfifo_t) (out : ptr Z) : option (ptr owfifo_t * ptr Z * bool) :=
  match fifo, out with
  | Some f, Some _ =>
      if negb (ff_initialized f) then Some (fifo, out, false)
      else if ff_used f =? 0 then Some (fifo, out, false)
      else
        v ← aget (ff_buf f) (ff_head f);
        if ff_capacity f =? 0 then None
        else Some (Some (f <| ff_head := u32 (ff_head f + 1) mod ff_capacity f |>
                           <| ff_used := u32 (ff_used f - 1) |>), Some v, true)
  | _, _ => Some (fifo, out, false)
  end.

Definition owfifo_peek (fifo : ptr owfifo_t) (out : ptr Z) : option (ptr Z * bool) :=
  match fifo, out with
  | Some f, Some _ =>
      if negb (ff_initialized f) then Some (out, false)
      else if ff_used f =? 0 then Some (out, false)
      else v ← aget (ff_buf f) (ff_head f); Some (Some v, true)
  | _, _ => Some (out, false)
  end.

Definition owfifo_count (fifo : ptr owfifo_t) : Z :=
  match fifo with
  | Some f => if negb (ff_initialized f) then 0 else ff_used f
  | None => 0
  end.

Definition owfifo_is_empty (fifo : ptr owfifo_t) : bool :=
  match fifo with
  | Some f => if negb (ff_initialized f) then true else ff_used f =? 0
  | None => true
  end.

Definition owfifo_is_full (fifo : ptr owfifo_t) : bool :=
  match fifo with
  | Some f => if negb (ff_initialized f) then false else ff_capacity f <=? ff_used f
  | None => false
  end.

(** ** The queue *)

(** [q] are the queued bytes, oldest first. *)
Record fifo_holds (f : owfifo_t) (q : list Z) : Prop := {
  fh_init : ff_initialized f = true;
  fh_cap : 0 < ff_capacity f < 2 ^ 32;
  fh_buf : ff_capacity f ≤ Z.of_nat (length (ff_buf f));
  fh_head : 0 ≤ ff_head f < ff_capacity f;
  fh_used : ff_used f = Z.of_nat (length q);
  fh_room : ff_used f ≤ ff_capacity f;
  fh_tail : ff_tail f = (ff_head f + ff_used f) mod ff_capacity f;
  fh_bytes : ∀ k x, q !! k = Some x → aget (ff_buf f) ((ff_head f + Z.of_nat k) mod ff_capacity f) = Some x
}.

Lemma ring_mod h k c : 0 ≤ h < c → 0 ≤ k ≤ c → (h + k) mod c = if decide (h + k < c) then h + k else h + k - c.
Proof. intros Hh Hk. case_decide; [apply Z.mod_small; lia|]. rewrite <-(Z.mod_unique (h + k) c 1 (h + k - c)); lia. Qed.

Lemma fifo_push_spec f q v :
  fifo_holds f q →
  if decide (ff_used f < ff_capacity f)
  then ∃ f', owfifo_push (Some f) v = Some (Some f', true) ∧ fifo_holds f' (q ++ [v]) ∧ ff_capacity f' = ff_capacity f
  else owfifo_push (Some f) v = Some (Some f, false).
Proof.
  intros Hf. pose proof Hf as [Hi Hc Hb Hh Hu Hr Ht Hq]. unfold owfifo_push. rewrite Hi. cbn [negb].
  case_decide as Hlt; [|by rewrite (proj2 (Z.leb_le _ _)) by lia].
  rewrite (proj2 (Z.leb_gt _ _)), (proj2 (Z.eqb_neq (ff_capacity f) 0)) by lia.
  assert (0 ≤ ff_tail f < ff_capacity f) as Htr by (rewrite Ht; apply Z.mod_pos_bound; lia).
  rewrite aset_in, obind_Some by lia. eexists. split; [done|]. split; [|done].
  constructor; cbn; [done|done|by rewrite length_insert|done| | | |].
  - rewrite length_app, u32_small by lia. simpl. lia.
  - rewrite u32_small; lia.
  - rewrite !u32_small by lia. rewrite Ht. rewrite Zplus_mod_idemp_l. f_equal. lia.
  - intros k x Hk. rewrite aget_insert by lia.
    destruct (decide (k = length q)) as [->|Hne].
    + rewrite lookup_app_r, Nat.sub_diag in Hk by lia. injection Hk as <-.
      rewrite <-Hu, <-Ht. by rewrite decide_True.
    + assert (k < length q)%nat as Hkl.
      { apply lookup_lt_Some in Hk. rewrite length_app in Hk. simpl in Hk. lia. }
      rewrite lookup_app_l in Hk by done. rewrite decide_False; [by apply Hq|].
      rewrite Ht, !ring_mod by lia. repeat case_decide; lia.
Qed.

Lemma fifo_pop_spec f q old :
  fifo_holds f q →
  match q with
  | [] => owfifo_pop (Some f) (Some old) = Some (Some f, Some old, false)
  | x :: q' => ∃ f', owfifo_pop (Some f) (Some old) = Some (Some f', Some x, true) ∧ fifo_holds f' q' ∧
      ff_capacity f' = ff_capacity f
  end.
Proof.
  intros Hf. pose proof Hf as [Hi Hc Hb Hh Hu Hr Ht Hq]. unfold owfifo_pop. rewrite Hi. cbn [negb].
  destruct q as [|x q']; cbn [length] in Hu; [by rewrite Hu|].
  rewrite (proj2 (Z.eqb_neq (ff_used f) 0)), (proj2 (Z.eqb_neq (ff_capacity f) 0)) by lia.
  pose proof (Hq 0%nat x eq_refl) as H0. rewrite Z.add_0_r, Z.mod_small in H0 by lia.
  rewrite H0, obind_Some. eexists. split; [done|]. split; [|done].
  constructor; cbn; [done|done|done|apply Z.mod_pos_bound; lia|rewrite u32_small; lia|rewrite u32_small; lia|..].
  - rewrite !u32_small by lia. rewrite Ht, Zplus_mod_idemp_l. f_equal. lia.
  - intros k y Hk. rewrite u32_small, Zplus_mod_idemp_l by lia.
    replace (ff_head f + 1 + Z.of_nat k) with (ff_head f + Z.of_nat (S k)) by lia. by apply Hq.
Qed.

(** ** Runs *)
Inductive fifo_op := FPush (v : Z) | FPop | FPeek.

Definition fifo_exec (op : fifo_op) (f : owfifo_t) : option (owfifo_t * option Z) :=
  match op with
  | FPush v => '(f, r) ← owfifo_push (Some f) v; f ← f; Some (f, if (r : bool) then Some v else None)
  | FPop => '(f, x, r) ← owfifo_pop (Some f) (Some 0); f ← f; Some (f, if (r : bool) then x else None)
  | FPeek => '(x, r) ← owfifo_peek (Some f) (Some 0); Some (f, if (r : bool) then x else None)
  end.

(** The same on a list that holds at most [cap] bytes. *)
Definition queue_exec (cap : Z) (op : fifo_op) (q : list Z) : list Z * option Z :=
  match op with
  | FPush v => if Z.of_nat (length q) <? cap then (q ++ [v], Some v) else (q, None)
  | FPop => match q with [] => ([], None) | x :: q => (q, Some x) end
  | FPeek => (q, head q)
  end.

Fixpoint fifo_run (ops : list fifo_op) (f : owfifo_t) : option (owfifo_t * list (option Z)) :=
  match ops with
  | [] => Some (f, [])
  | op :: ops => '(f, r) ← fifo_exec op f; '(f, rs) ← fifo_run ops f; Some (f, r :: rs)
  end.

Fixpoint queue_run (cap : Z) (ops : list fifo_op) (q : list Z) : list Z * list (option Z) :=
  match ops with
  | [] => (q, [])
  | op :: ops => let '(q, r) := queue_exec cap op q in let '(q, rs) := queue_run cap ops q in (q, r :: rs)
  end.

Lemma fifo_exec_spec op f q :
  fifo_holds f q → ∃ f', fifo_exec op f = Some (f', (queue_exec (ff_capacity f) op q).2) ∧
    fifo_holds f' (queue_exec (ff_capacity f) op q).1 ∧ ff_capacity f' = ff_capacity f.
Proof.
  intros Hf. destruct op as [v| |]; cbn [fifo_exec queue_exec].
  - pose proof (fifo_push_spec f q v Hf) as H. rewrite (fh_used _ _ Hf) in H.
    destruct (Z.ltb_spec (Z.of_nat (length q)) (ff_capacity f)).
    + rewrite decide_True in H by done. destruct H as (f' & -> & H). by exists f'.
    + rewrite decide_False in H by lia. rewrite H. by exists f.
  - pose proof (fifo_pop_spec f q 0 Hf) as H. destruct q as [|x q].
    + rewrite H. by exists f.
    + destruct H as (f' & -> & H). by exists f'.
  - exists f. unfold owfifo_peek. pose proof Hf as [Hi Hc Hb Hh Hu Hr Ht Hq]. rewrite Hi. cbn [negb].
    destruct q as [|x q]; cbn [length] in Hu; [by rewrite Hu|].
    rewrite (proj2 (Z.eqb_neq (ff_used f) 0)) by lia. pose proof (Hq 0%nat x eq_refl) as H0.
    rewrite Z.add_0_r, Z.mod_small in H0 by lia. by rewrite H0.
Qed.

Lemma fifo_run_spec ops f q :
  fifo_holds f q → ∃ f', fifo_run ops f = Some (f', (queue_run (ff_capacity f) ops q).2) ∧
    fifo_holds f' (queue_run (ff_capacity f) ops q).1 ∧ ff_capacity f' = ff_capacity f.
Proof.
  revert f q. induction ops as [|op ops IH]; intros f q Hf; [by exists f|]. cbn [fifo_run queue_run].
  destruct (fifo_exec_spec op f q Hf) as (f1 & -> & Hf1 & Ec). destruct (queue_exec _ op q) as [q1 r]. cbn [fst snd] in *.
  rewrite obind_Some. destruct (IH f1 q1 Hf1) as (f2 & -> & Hf2 & Ec2). rewrite Ec in *.
  destruct (queue_run _ ops q1) as [q2 rs]. rewrite obind_Some. by exists f2.
Qed.

(** The FIFO is a bounded queue: after [owfifo_init], any sequence of
    pushes, pops and peeks returns without leaving the buffer, with the results
    of a list to which at most [capacity] bytes are appended and from whose front
    bytes are taken; [owfifo_count], [owfifo_is_empty] and [owfifo_is_full] agree
    with its length. *)
Theorem owfifo_refines_queue f0 buf cap ops :
  0 < cap < 2 ^ 32 → cap ≤ Z.of_nat (length buf) →
  ∃ f f', owfifo_init (Some f0) (Some buf) cap = (Some f, true) ∧
    fifo_run ops f = Some (f', (queue_run cap ops []).2) ∧
    let q := (queue_run cap ops []).1 in
    owfifo_count (Some f') = Z.of_nat (length q) ∧
    (owfifo_is_empty (Some f') = true ↔ q = []) ∧ (owfifo_is_full (Some f') = true ↔ Z.of_nat (length q) = cap).
Proof.
  intros Hc Hb. unfold owfifo_init. rewrite (proj2 (Z.eqb_neq cap 0)) by lia.
  set (f := mk_owfifo buf cap 0 0 0 true).
  assert (fifo_holds f []) as Hf by (constructor; cbn; (done || lia)).
  destruct (fifo_run_spec ops f [] Hf) as (f' & Er & Hf' & Ec). exists f, f'. split; [done|]. split; [done|].
  cbv zeta. change (ff_capacity f) with cap in *. destruct Hf' as [Hi _ _ _ Hu Hr _ _].
  unfold owfifo_count, owfifo_is_empty, owfifo_is_full. rewrite Hi. cbn [negb]. split; [done|].
  rewrite Z.eqb_eq, Z.leb_le, Hu. split; [|lia]. split; [|by intros ->]. intros H. apply nil_length_inv. lia.
Qed.

Lemma owfifo_refines_queue_witness :
  ∃ f f', owfifo_init (Some (mk_owfifo [] 0 0 0 0 false)) (Some [0; 0]) 2 = (Some f, true) ∧
    fifo_run [FPush 5; FPush 6; FPush 7; FPop; FPush 8; FPeek; FPop; FPop; FPop] f =
      Some (f', [Some 5; Some 6; None; Some 5; Some 8; Some 6; Some 6; Some 8; None]) ∧
    owfifo_count (Some f') = 0.
Proof.
  destruct (owfifo_refines_queue (mk_owfifo [] 0 0 0 0 false) [0; 0] 2
    [FPush 5; FPush 6; FPush 7; FPop; FPush 8; FPeek; FPop; FPop; FPop]) as (f & f' & E & Er & Ec & _); [lia|simpl; lia|].
  exists f, f'. split; [exact E|]. split; [exact Er|exact Ec].
Defined.
