(* ===== verification/Owcache.v ===== *)
(** The block cache (src/DLL/owcache64/owcache64.c, owcache64.h): a table of
    entries over a buffer of blocks, with least-recently-used eviction by a
    logical clock.  The data pointer of an entry is an offset into the buffer.
    It implements a list of lines ordered by recency: most recent first, the
    last one is evicted. *)
From Stdlib Require Import Sorting.Sorted.
From stdpp Require Import sorting.
From S2P Require Import Prelude.

(** ** The code *)

Record owcache_entry_t := mk_owcache_entry {
  ce_block_index : Z;
  ce_valid : bool;
  ce_dirty : bool;
  ce_last_used : Z;
  ce_data : Z
}.
#[export] Instance eta_owcache_entry : Eta owcache_entry_t := λ e,
  mk_owcache_entry (ce_block_index e) (ce_valid e) (ce_dirty e) (ce_last_used e) (ce_data e).

Record owcache_t := mk_owcache {
  oc_entries : list owcache_entry_t;     (* the caller's table *)
  oc_capacity : Z;
  oc_buffer : list Z;                    (* the caller's buffer *)
  oc_block_size : Z;
  oc_clock : Z;
  oc_hits : Z;
  oc_misses : Z;
  oc_evictions : Z;
  oc_flushes : Z;
  oc_initialized : bool
}.
#[export] Instance eta_owcache : Eta owcache_t := λ c,
  mk_owcache (oc_entries c) (oc_capacity c) (oc_buffer c) (oc_block_size c) (oc_clock c) (oc_hits c)
    (oc_misses c) (oc_evictions c) (oc_flushes c) (oc_initialized c).

(** The index found by a search, [-1] for none. *)
Definition slot_or_none (r : option Z) : Z := default (-1) r.

Definition cache_find (cache : owcache_t) (block_index : Z) : option Z :=
  r ← find_up (Z.to_nat (oc_capacity cache)) 0 (oc_entries cache)
        (λ e, ce_valid e && (ce_block_index e =? block_index));
  Some (slot_or_none r).

Definition cache_free_slot (cache : owcache_t) : option Z :=
  r ← find_up (Z.to_nat (oc_capacity cache)) 0 (oc_entries cache) (λ e, negb (ce_valid e));
  Some (slot_or_none r).

Definition cache_lru_slot (cache : owcache_t) : option Z :=
  '(victim, _) ←
    for_up (Z.to_nat (oc_capacity cache)) 0
      (λ i '(victim, oldest),
         e ← aget (oc_entries cache) i;
         Some (if negb (ce_valid e) then (victim, oldest)
               else if (victim <? 0) || (ce_last_used e <? oldest) then (i, ce_last_used e)
               else (victim, oldest)))
      (-1, 0);
  Some victim.

Definition cache_copy (dst : list Z) (off : Z) (src : list Z) (bytes : Z) : option (list Z) :=
  copy_at bytes src 0 dst off.

Definition owcache_init (cache : ptr owcache_t) (entries : ptr (list owcache_entry_t)) (capacity : Z)
    (buffer : ptr (list Z)) (block_size : Z) : option (ptr owcache_t * bool) :=
  match cache, entries, buffer with
  | Some c, Some es, Some buf =>
      if (capacity =? 0) || (block_size =? 0) then Some (cache, false)
      else
        es ← for_up (Z.to_nat capacity) 0
               (λ i es, aset es i (mk_owcache_entry 0 false false 0 (u64 (i * block_size)))) es;
        Some (Some (mk_owcache es capacity buf block_size 0 0 0 0 0 true), true)
  | _, _, _ => Some (cache, false)
  end.

Definition put_entry (c : owcache_t) (slot : Z) (e : owcache_entry_t) : option owcache_t :=
  es ← aset (oc_entries c) slot e; Some (c <| oc_entries := es |>).

Definition owcache_lookup (cache : ptr owcache_t) (block_index : Z) : option (ptr owcache_t * Z) :=
  match cache with
  | None => Some (cache, -1)
  | Some c =>
      if negb (oc_initialized c) then Some (cache, -1)
      else
        slot ← cache_find c block_index;
        if slot <? 0 then Some (Some (c <| oc_misses := u64 (oc_misses c + 1) |>), -1)
        else
          let c := c <| oc_clock := u64 (oc_clock c + 1) |> in
          e ← aget (oc_entries c) slot;
          c ← put_entry c slot (e <| ce_last_used := oc_clock c |>);
          Some (Some (c <| oc_hits := u64 (oc_hits c + 1) |>), slot)
  end.

Definition owcache_evict (cache : ptr owcache_t) : option (ptr owcache_t * Z) :=
  match cache with
  | None => Some (cache, -1)
  | Some c =>
      if negb (oc_initialized c) then Some (cache, -1)
      else
        slot ← cache_lru_slot c;
        if slot <? 0 then Some (cache, -1)
        else
          e ← aget (oc_entries c) slot;
          c ← put_entry c slot (e <| ce_valid := false |> <| ce_dirty := false |> <| ce_last_used := 0 |>);
          Some (Some (c <| oc_evictions := u64 (oc_evictions c + 1) |>), slot)
  end.

(** Storing a block in the slot chosen for it. *)
Definition cache_store (c : owcache_t) (slot block_index : Z) (data : list Z) (dirty : bool)
    : option (ptr owcache_t * Z) :=
  e ← aget (oc_entries c) slot;
  buf ← cache_copy (oc_buffer c) (ce_data e) data (oc_block_size c);
  let c := c <| oc_buffer := buf |> in
  let e := e <| ce_block_index := block_index |> <| ce_valid := true |> <| ce_dirty := dirty |> in
  let c := c <| oc_clock := u64 (oc_clock c + 1) |> in
  c ← put_entry c slot (e <| ce_last_used := oc_clock c |>);
  Some (Some c, slot).

Definition owcache_insert (cache : ptr owcache_t) (block_index : Z) (data : ptr (list Z)) (dirty : bool)
    : option (ptr owcache_t * Z) :=
  match cache, data with
  | Some c, Some d =>
      if negb (oc_initialized c) then Some (cache, -1)
      else
        slot ← cache_find c block_index;
        if slot <? 0 then
          slot ← cache_free_slot c;
          if slot <? 0 then
            '(c', slot) ← owcache_evict (Some c);
            c' ← c';
            if slot <? 0 then Some (Some c', -1) else cache_store c' slot block_index d dirty
          else cache_store c slot block_index d dirty
        else cache_store c slot block_index d dirty
  | _, _ => Some (cache, -1)
  end.

Definition owcache_flush (cache : ptr owcache_t) : option (ptr owcache_t * Z) :=
  match cache with
  | None => Some (cache, 0)
  | Some c =>
      if negb (oc_initialized c) then Some (cache, 0)
      else
        '(c, flushed) ←
          for_up (Z.to_nat (oc_capacity c)) 0
            (λ i '(c, flushed),
               e ← aget (oc_entries c) i;
               if ce_valid e && ce_dirty e then
                 c ← put_entry c i (e <| ce_dirty := false |>);
                 Some (c <| oc_flushes := u64 (oc_flushes c + 1) |>, u32 (flushed + 1))
               else Some (c, flushed))
            (c, 0);
        Some (Some c, flushed)
  end.

(** ** Lines by recency *)

(** ** The specification *)

Record line := mk_line { ln_key : Z; ln_data : list Z; ln_dirty : bool }.

(** The line with a key, and the others in their order. *)
Fixpoint pull (k : Z) (R : list line) : option (line * list line) :=
  match R with
  | [] => None
  | l :: R => if ln_key l =? k then Some (l, R) else '(l', R') ← pull k R; Some (l', l :: R')
  end.

Inductive cache_op :=
  | CLookup (k : Z)
  | CInsert (k : Z) (data : list Z) (dirty : bool)
  | CEvict
  | CFlush.

(** What a caller sees: the block found, the key evicted, the number flushed. *)
Inductive cache_out :=
  | OBlock (data : option (list Z))
  | OStored
  | OKey (k : option Z)
  | OCount (n : Z).

Definition lru_exec (cap : nat) (op : cache_op) (R : list line) : list line * cache_out :=
  match op with
  | CLookup k =>
      match pull k R with
      | Some (l, R) => (l :: R, OBlock (Some (ln_data l)))
      | None => (R, OBlock None)
      end
  | CInsert k data dirty =>
      match pull k R with
      | Some (_, R) => (mk_line k data dirty :: R, OStored)
      | None => (mk_line k data dirty :: (if (length R <? cap)%nat then R else removelast R), OStored)
      end
  | CEvict => (removelast R, OKey (ln_key <$> last R))
  | CFlush => ((λ l, mk_line (ln_key l) (ln_data l) false) <$> R,
               OCount (Z.of_nat (length (filter (λ l, ln_dirty l = true) R))))
  end.

Lemma pull_Some R1 l R2 : ln_key l ∉ (ln_key <$> R1) → pull (ln_key l) (R1 ++ l :: R2) = Some (l, R1 ++ R2).
Proof.
  induction R1 as [|x R1 IH]; intros Hn; simpl; [by rewrite Z.eqb_refl|].
  rewrite fmap_cons, not_elem_of_cons in Hn. destruct Hn as [Hne Hn].
  rewrite (proj2 (Z.eqb_neq _ _)) by done. by rewrite IH.
Qed.

Lemma pull_None k R : k ∉ (ln_key <$> R) → pull k R = None.
Proof.
  induction R as [|x R IH]; intros Hn; simpl; [done|]. rewrite fmap_cons, not_elem_of_cons in Hn. destruct Hn as [Hne Hn].
  rewrite (proj2 (Z.eqb_neq _ _)) by done. by rewrite IH.
Qed.

(** ** Abstraction *)

Definition no_entry : owcache_entry_t := mk_owcache_entry 0 false false 0 0.
Definition entry (c : owcache_t) (i : Z) : owcache_entry_t := default no_entry (aget (oc_entries c) i).
Definition stamp (c : owcache_t) (i : Z) : Z := ce_last_used (entry c i).

Definition block (c : owcache_t) (i : Z) : list Z :=
  take (Z.to_nat (oc_block_size c)) (drop (Z.to_nat (i * oc_block_size c)) (oc_buffer c)).

Definition line_at (c : owcache_t) (i : Z) : line :=
  mk_line (ce_block_index (entry c i)) (block c i) (ce_dirty (entry c i)).

Record cache_shape (c : owcache_t) : Prop := {
  cs_init : oc_initialized c = true;
  cs_cap : 0 < oc_capacity c < 2 ^ 32;
  cs_size : 0 < oc_block_size c < 2 ^ 32;
  cs_entries : oc_capacity c ≤ Z.of_nat (length (oc_entries c));
  cs_buffer : oc_capacity c * oc_block_size c ≤ Z.of_nat (length (oc_buffer c));
  cs_data : ∀ i, 0 ≤ i < oc_capacity c → ce_data (entry c i) = i * oc_block_size c
}.

(** [S] are the slots of the lines, most recent first; slot [x], if given, is
    left out of account. *)
Record recency (c : owcache_t) (x : option Z) (S : list Z) : Prop := {
  rc_slots : ∀ i, i ∈ S ↔ 0 ≤ i < oc_capacity c ∧ ce_valid (entry c i) = true ∧ x ≠ Some i;
  rc_nodup : NoDup S;
  rc_sorted : StronglySorted (λ i j, stamp c j < stamp c i) S;
  rc_clock : Forall (λ i, 0 ≤ stamp c i ≤ oc_clock c) S;
  rc_keys : NoDup (ln_key ∘ line_at c <$> S)
}.

Definition cache_rep (c : owcache_t) (S : list Z) : Prop := cache_shape c ∧ recency c None S.

Section cache.
Context (c : owcache_t) (Hs : cache_shape c).

Lemma entry_at i : 0 ≤ i < oc_capacity c → aget (oc_entries c) i = Some (entry c i).
Proof.
  intros Hi. destruct (aget_is_Some (oc_entries c) i) as [e E]; [pose proof (cs_entries _ Hs); lia|].
  unfold entry. by rewrite E.
Qed.

(** Searching the table. *)
Lemma find_entry (q : owcache_entry_t → bool) :
  ∃ r, find_up (Z.to_nat (oc_capacity c)) 0 (oc_entries c) q = Some r ∧
    match r with
    | Some i => 0 ≤ i < oc_capacity c ∧ q (entry c i) = true
    | None => ∀ i, 0 ≤ i < oc_capacity c → q (entry c i) = false
    end.
Proof.
  destruct (find_up_spec (Z.to_nat (oc_capacity c)) 0 (oc_entries c) q) as (r & -> & H);
    [lia|pose proof (cs_entries _ Hs); pose proof (cs_cap _ Hs); lia|].
  exists r. split; [done|]. destruct r as [i|].
  - destruct H as (Hi & (e & He & Hq) & _). split; [lia|]. unfold entry. by rewrite He.
  - intros i Hi. apply (H i); [lia|]. by apply entry_at.
Qed.

Lemma slot_of_key S k :
  recency c None S →
  (∃ i S1 S2, S = S1 ++ i :: S2 ∧ cache_find c k = Some i ∧ 0 ≤ i < oc_capacity c ∧
     ce_block_index (entry c i) = k ∧ recency c (Some i) (S1 ++ S2) ∧
     pull k (line_at c <$> S) = Some (line_at c i, line_at c <$> (S1 ++ S2)) ∧
     k ∉ (ln_key ∘ line_at c <$> S1 ++ S2)) ∨
  cache_find c k = Some (-1) ∧ pull k (line_at c <$> S) = None ∧ k ∉ (ln_key ∘ line_at c <$> S).
Proof.
  intros HS. unfold cache_find.
  destruct (find_entry (λ e, ce_valid e && (ce_block_index e =? k))) as ([i|] & -> & H); rewrite obind_Some.
  - left. destruct H as [Hi [Hv Hk%Z.eqb_eq]%andb_true_iff].
    assert (i ∈ S) as HiS by (apply (rc_slots _ _ _ HS); naive_solver).
    apply list_elem_of_split in HiS as (S1 & S2 & ->). exists i, S1, S2.
    pose proof (rc_nodup _ _ _ HS) as Hnd. pose proof (rc_keys _ _ _ HS) as Hkeys.
    rewrite fmap_app, fmap_cons in Hkeys. change ((ln_key ∘ line_at c) i) with (ce_block_index (entry c i)) in Hkeys.
    assert (k ∉ (ln_key ∘ line_at c <$> S1 ++ S2) ∧ NoDup (ln_key ∘ line_at c <$> S1 ++ S2)) as [Hkn Hkd].
    { rewrite <-Permutation_middle in Hkeys. apply NoDup_cons in Hkeys as [H1 H2]. rewrite fmap_app.
      rewrite Hk in H1. done. }
    rewrite <-Permutation_middle in Hnd. apply NoDup_cons in Hnd as [Hin Hnd].
    split; [done|]. split; [done|]. split; [done|]. split; [done|]. split; [|split; [|done]].
    + constructor; [|done| | |done].
      * intros j. pose proof (rc_slots _ _ _ HS j) as Hj. rewrite elem_of_app, elem_of_cons in Hj.
        rewrite elem_of_app. split.
        -- intros Hj'. assert (j ≠ i) as Hne by (intros ->; apply Hin; by rewrite elem_of_app).
           destruct Hj as [Hj _]. destruct Hj as (A1 & A2 & _); [tauto|]. split; [done|]. split; [done|]. congruence.
        -- intros (A1 & A2 & A3). destruct Hj as [_ Hj]. destruct Hj as [|[->|]]; [done|by left|done|by right].
      * pose proof (rc_sorted _ _ _ HS) as Hso. apply StronglySorted_app in Hso as (O1 & O2 & O3).
        apply StronglySorted_cons in O3 as [O3 O4]. apply StronglySorted_app. split_and!; [|done|done].
        intros a b Ha Hb. apply O1; [done|by right].
      * pose proof (rc_clock _ _ _ HS) as Hcl. apply Forall_app in Hcl as [C1 [_ C2]%Forall_cons_1]. by apply Forall_app.
    + rewrite !fmap_app, fmap_cons. rewrite <-Hk. change (ce_block_index (entry c i)) with (ln_key (line_at c i)).
      apply pull_Some. rewrite <-list_fmap_compose. cbn [ln_key line_at]. rewrite Hk.
      rewrite fmap_app, elem_of_app in Hkn. tauto.
  - right. split; [done|]. assert (k ∉ (ln_key ∘ line_at c <$> S)) as Hn.
    { intros (i & -> & Hi)%list_elem_of_fmap. apply (rc_slots _ _ _ HS) in Hi as (Hr & Hv & _).
      specialize (H i Hr). cbn in H. by rewrite Hv, Z.eqb_refl in H. }
    split; [|done]. apply pull_None. by rewrite <-list_fmap_compose.
Qed.
End cache.

Lemma StronglySorted_impl_elem {A} (R R' : A → A → Prop) (l : list A) :
  (∀ a b, a ∈ l → b ∈ l → R a b → R' a b) → StronglySorted R l → StronglySorted R' l.
Proof.
  induction l as [|x l IH]; intros H; [constructor|]. rewrite !StronglySorted_cons, !Forall_forall. intros [H1 H2].
  split; [intros y Hy; apply H; [by left|by right|by apply H1]|]. apply IH; [|done].
  intros a b Ha Hb. apply H; by right.
Qed.

(** ** Changing one slot *)

(** [c'] differs from [c] in slot [i] at most, and in the clock and counters. *)
Record slot_change (c c' : owcache_t) (i : Z) : Prop := {
  sl_cap : oc_capacity c' = oc_capacity c;
  sl_size : oc_block_size c' = oc_block_size c;
  sl_init : oc_initialized c' = oc_initialized c;
  sl_entries : length (oc_entries c') = length (oc_entries c);
  sl_buffer : length (oc_buffer c') = length (oc_buffer c);
  sl_clock : oc_clock c ≤ oc_clock c';
  sl_data : ce_data (entry c' i) = ce_data (entry c i);
  sl_other : ∀ j, 0 ≤ j < oc_capacity c → j ≠ i → entry c' j = entry c j ∧ block c' j = block c j
}.

Lemma change_shape c c' i : cache_shape c → slot_change c c' i → cache_shape c'.
Proof.
  intros [H1 H2 H3 H4 H5 H6] [S1 S2 S3 S4 S5 S6 S7 S8]. constructor; rewrite ?S1, ?S2, ?S3, ?S4, ?S5; try done.
  intros j Hj. destruct (decide (j = i)) as [->|Hne]; [rewrite S7; by apply H6|].
  destruct (S8 j Hj Hne) as [-> _]. by apply H6.
Qed.

(** The slots other than [i] keep their lines and their order. *)
Lemma change_others c c' i S0 :
  recency c (Some i) S0 → slot_change c c' i →
  recency c' (Some i) S0 ∧ line_at c' <$> S0 = line_at c <$> S0.
Proof.
  intros [R1 R2 R3 R4 R5] Hch. pose proof Hch as [S1 S2 S3 S4 S5 S6 S7 S8].
  assert (∀ j, j ∈ S0 → entry c' j = entry c j ∧ block c' j = block c j) as Hsame.
  { intros j (Hj & _ & Hne)%R1. apply S8; [done|congruence]. }
  assert (line_at c' <$> S0 = line_at c <$> S0) as HL.
  { apply list_fmap_ext. intros n j Hj%list_elem_of_lookup_2. unfold line_at. destruct (Hsame j Hj) as [-> ->]. done. }
  split; [|done]. constructor; [|done| | |].
  - intros j. rewrite R1, S1. split; intros (Hj & Hv & Hne); (split; [done|]); (split; [|done]);
      destruct (S8 j Hj) as [E _]; [congruence| |congruence|]; by rewrite E in * || by rewrite <-E.
  - eapply StronglySorted_impl_elem; [|exact R3]. intros a b Ha Hb. unfold stamp.
    destruct (Hsame a Ha) as [-> _], (Hsame b Hb) as [-> _]. done.
  - rewrite Forall_forall in R4 |- *. intros j Hj. unfold stamp. destruct (Hsame j Hj) as [-> _].
    specialize (R4 j Hj). unfold stamp in R4. lia.
  - rewrite list_fmap_compose, HL, <-list_fmap_compose. done.
Qed.

(** A slot that is written at a new time becomes the most recent line. *)
Lemma change_front c c' i S0 :
  cache_shape c → recency c (Some i) S0 → slot_change c c' i → 0 ≤ i < oc_capacity c →
  ce_valid (entry c' i) = true → stamp c' i = oc_clock c' → 0 ≤ oc_clock c < oc_clock c' →
  ce_block_index (entry c' i) ∉ (ln_key ∘ line_at c <$> S0) →
  cache_rep c' (i :: S0) ∧ line_at c' <$> S0 = line_at c <$> S0.
Proof.
  intros Hsh HS Hch Hi Hv Hst Hcl Hk. destruct (change_others c c' i S0 HS Hch) as [[R1 R2 R3 R4 R5] HL].
  split; [|done]. split; [by eapply change_shape|].
  assert (i ∉ S0) as Hin by (intros (_ & _ & ?)%R1; done).
  pose proof (sl_cap _ _ _ Hch) as Ec. constructor.
  - intros j. rewrite elem_of_cons, R1, Ec. split.
    + intros [->|(Hj & Hv' & _)]; [done|]. split; [done|]. split; done.
    + intros (Hj & Hv' & _). destruct (decide (j = i)) as [->|Hne]; [by left|right]. split; [done|]. split; [done|congruence].
  - by apply NoDup_cons.
  - apply StronglySorted_cons. split; [|done]. rewrite Forall_forall. intros j Hj. rewrite Hst.
    (* the other stamps are those of [c] *)
    pose proof (rc_clock _ _ _ HS) as C. rewrite Forall_forall in C. specialize (C j Hj).
    assert (stamp c' j = stamp c j) as ->; [|lia]. unfold stamp.
    apply R1 in Hj as (Hj & _ & Hne). rewrite Ec in Hj. destruct (sl_other _ _ _ Hch j Hj) as [-> _]; [congruence|done].
  - apply Forall_cons. split; [rewrite Hst; lia|done].
  - rewrite fmap_cons. apply NoDup_cons. split; [|done].
    rewrite list_fmap_compose, HL, <-list_fmap_compose. exact Hk.
Qed.

Lemma recency_free c i S : recency c None S → ce_valid (entry c i) = false → recency c (Some i) S.
Proof.
  intros [R1 R2 R3 R4 R5] Hv. constructor; try done. intros j. rewrite R1. split; [|naive_solver].
  intros (Hj & Hv' & _). split; [done|]. split; [done|]. intros [= ->]. congruence.
Qed.

(** ** The least recently used slot *)

Lemma last_oldest c S l j : recency c None S → last S = Some l → j ∈ S → j = l ∨ stamp c l < stamp c j.
Proof.
  intros HS [S' ->]%last_Some Hj. apply elem_of_app in Hj as [Hj| ->%list_elem_of_singleton]; [right|by left].
  pose proof (rc_sorted _ _ _ HS) as Hso. eapply (StronglySorted_app_1_elem_of _ S' [l] j l) in Hso; [done|done|].
  by apply list_elem_of_singleton.
Qed.

Lemma lru_slot_spec c S :
  cache_shape c → recency c None S → cache_lru_slot c = Some (default (-1) (last S)).
Proof.
  intros Hsh HS. unfold cache_lru_slot. pose proof (cs_cap _ Hsh) as Hcap.
  loop_inv (λ k '(v, o), v = -1 ∧ (∀ j, j ∈ S → k ≤ j) ∨
    v ∈ S ∧ o = stamp c v ∧ ∀ j, j ∈ S → j < k → stamp c v ≤ stamp c j) as ([v o] & -> & H).
  - left. split; [done|]. intros j (Hj & _)%(rc_slots _ _ _ HS). lia.
  - intros k [v o] Hk H. rewrite (entry_at c Hsh) by lia. rewrite obind_Some. eexists. split; [done|].
    assert (k ∈ S ↔ ce_valid (entry c k) = true) as Hin by (rewrite (rc_slots _ _ _ HS); naive_solver lia).
    destruct (ce_valid (entry c k)) eqn:Ev; cbn [negb].
    + assert (k ∈ S) as HkS by (by apply Hin). fold (stamp c k).
      destruct H as [[-> H]|(Hv & -> & H)].
      * change (-1 <? 0) with true. cbn [orb]. right. split; [done|]. split; [done|]. intros j Hj Hjk.
        specialize (H j Hj). assert (j = k) as -> by lia. lia.
      * pose proof Hv as (Hvr & _)%(rc_slots _ _ _ HS). rewrite (proj2 (Z.ltb_ge v 0)) by lia. cbn [orb].
        destruct (Z.ltb_spec (stamp c k) (stamp c v)).
        -- right. split; [done|]. split; [done|]. intros j Hj Hjk. destruct (decide (j = k)) as [->|]; [lia|].
           specialize (H j Hj ltac:(lia)). lia.
        -- right. split; [done|]. split; [done|]. intros j Hj Hjk. destruct (decide (j = k)) as [->|]; [lia|].
           apply H; [done|lia].
    + assert (k ∉ S) as HkS by (rewrite Hin; done). destruct H as [[-> H]|(Hv & -> & H)].
      * left. split; [done|]. intros j Hj. specialize (H j Hj). assert (j ≠ k) by congruence. lia.
      * right. split; [done|]. split; [done|]. intros j Hj Hjk. apply H; [done|]. assert (j ≠ k) by congruence. lia.
  - rewrite obind_Some. f_equal. rewrite Z.add_0_l, Z2Nat.id in H by lia.
    destruct (last S) as [l|] eqn:El; cbn [default].
    + pose proof El as HlS%last_Some_elem_of. pose proof HlS as (Hlr & _)%(rc_slots _ _ _ HS).
      destruct H as [[-> H]|(Hv & -> & H)]; [specialize (H l HlS); lia|].
      destruct (last_oldest c S l v HS El Hv) as [|Hlt]; [done|]. specialize (H l HlS ltac:(lia)). lia.
    + apply last_None in El as ->. destruct H as [[-> _]|(Hv & _)]; [done|]. by apply not_elem_of_nil in Hv.
Qed.

(** ** Calls *)

Lemma entry_put c i e j :
  0 ≤ i < Z.of_nat (length (oc_entries c)) →
  default no_entry (aget (<[Z.to_nat i := e]> (oc_entries c)) j) = if decide (i = j) then e else entry c j.
Proof. intros Hi. rewrite aget_insert by done. unfold entry. by case_decide. Qed.

Lemma splice_lookup (l x : list Z) (a n : nat) :
  (a + length x ≤ length l)%nat →
  (take a l ++ x ++ drop (a + length x) l) !! n = if decide (a ≤ n < a + length x)%nat then x !! (n - a)%nat else l !! n.
Proof.
  intros Hl. case_decide as Hn.
  - rewrite lookup_app_r, length_take_le by (rewrite ?length_take; lia). by rewrite lookup_app_l by lia.
  - destruct (decide (n < a)%nat).
    + rewrite lookup_app_l by (rewrite length_take; lia). by rewrite lookup_take_lt by lia.
    + rewrite lookup_app_r, length_take_le by (rewrite ?length_take; lia).
      rewrite lookup_app_r, lookup_drop by lia. f_equal. lia.
Qed.

Lemma block_splice (buf x : list Z) (bs i j : Z) :
  0 < bs → 0 ≤ i → 0 ≤ j → Z.of_nat (length x) = bs → i * bs + bs ≤ Z.of_nat (length buf) →
  take (Z.to_nat bs) (drop (Z.to_nat (j * bs))
    (take (Z.to_nat (i * bs)) buf ++ x ++ drop (Z.to_nat (i * bs + bs)) buf)) =
  if decide (j = i) then x else take (Z.to_nat bs) (drop (Z.to_nat (j * bs)) buf).
Proof.
  intros Hbs Hi Hj Hx Hl. replace (Z.to_nat (i * bs + bs)) with (Z.to_nat (i * bs) + length x)%nat by lia.
  apply list_eq. intros n. rewrite lookup_take, lookup_drop, splice_lookup by lia.
  destruct (decide (j = i)) as [->|Hne].
  - destruct (decide (n < Z.to_nat bs)%nat).
    + rewrite decide_True by lia. f_equal. lia.
    + symmetry. apply lookup_ge_None_2. lia.
  - rewrite lookup_take, lookup_drop. destruct (decide (n < Z.to_nat bs)%nat); [|done].
    rewrite decide_False; [done|]. nia.
Qed.

Lemma slot_entries c i : cache_shape c → 0 ≤ i < oc_capacity c → 0 ≤ i < Z.of_nat (length (oc_entries c)).
Proof. intros Hs. pose proof (cs_entries _ Hs). lia. Qed.

Section ops.
Context (c : owcache_t) (S : list Z) (Hc : cache_rep c S) (Hclk : 0 ≤ oc_clock c ∧ oc_clock c + 1 < 2 ^ 64).

Lemma lookup_spec k :
  ∃ c' r S', owcache_lookup (Some c) k = Some (Some c', r) ∧ cache_rep c' S' ∧
    oc_clock c ≤ oc_clock c' ≤ oc_clock c + 1 ∧ oc_capacity c' = oc_capacity c ∧ oc_block_size c' = oc_block_size c ∧
    match pull k (line_at c <$> S) with
    | Some (l, R) => 0 ≤ r < oc_capacity c ∧ line_at c' <$> S' = l :: R ∧ block c' r = ln_data l
    | None => r = -1 ∧ line_at c' <$> S' = line_at c <$> S
    end.
Proof.
  pose proof (proj1 Hc) as Hs. unfold owcache_lookup. rewrite (cs_init _ Hs). cbn [negb].
  destruct (slot_of_key c Hs S k (proj2 Hc)) as [(i & S1 & S2 & -> & -> & Hi & Hk & HS & -> & Hkn)|(-> & -> & _)];
    rewrite obind_Some.
  - rewrite (proj2 (Z.ltb_ge i 0)) by lia. cbv zeta.
    change (oc_entries (c <| oc_clock := _ |>)) with (oc_entries c). rewrite (entry_at c Hs) by done. rewrite obind_Some.
    unfold put_entry. change (oc_entries (c <| oc_clock := _ |>)) with (oc_entries c).
    pose proof (slot_entries c i Hs Hi) as Hil. rewrite aset_in, !obind_Some by done.
    eexists _, i, (i :: S1 ++ S2). split; [done|]. match goal with |- cache_rep ?x _ ∧ _ => set (c' := x) end.
    assert (∀ j, entry c' j = if decide (i = j) then (entry c i) <| ce_last_used := oc_clock c + 1 |> else entry c j) as He.
    { intros j. unfold entry at 1. subst c'. cbn [oc_entries oc_clock set_field]. rewrite u64_small by lia.
      by rewrite entry_put. }
    assert (oc_clock c' = oc_clock c + 1) as Ecl by (subst c'; cbn; by rewrite u64_small by lia).
    assert (slot_change c c' i) as Hch.
    { constructor; try done; [subst c'; cbn; apply length_insert|lia|by rewrite He, decide_True|].
      intros j _ Hne. by rewrite He, decide_False. }
    destruct (change_front c c' i (S1 ++ S2) Hs HS Hch Hi) as [Hr HL].
    { rewrite He, decide_True by done. cbn. assert (i ∈ S1 ++ i :: S2) as Hin by set_solver.
      apply (rc_slots _ _ _ (proj2 Hc)) in Hin. tauto. }
    { unfold stamp. rewrite He, decide_True by done. by rewrite Ecl. }
    { lia. }
    { rewrite He, decide_True by done. cbn. by rewrite Hk. }
    split; [done|]. split; [lia|]. split; [done|]. split; [done|]. split; [lia|]. split; [|done].
    rewrite fmap_cons, HL. f_equal. unfold line_at. by rewrite He, decide_True.
  - change (-1 <? 0) with true. cbv iota. eexists _, (-1), S. split; [done|].
    split; [by destruct Hc as [[] []]|]. split; [cbn; lia|]. split; [done|]. split; [done|]. done.
Qed.

(** Storing in slot [i], which is free or holds the key already. *)
Lemma store_spec i S0 k data dirty :
  recency c (Some i) S0 → 0 ≤ i < oc_capacity c → k ∉ (ln_key ∘ line_at c <$> S0) →
  Z.of_nat (length data) = oc_block_size c →
  ∃ c', cache_store c i k data dirty = Some (Some c', i) ∧ cache_rep c' (i :: S0) ∧ oc_clock c' = oc_clock c + 1 ∧
    oc_capacity c' = oc_capacity c ∧ oc_block_size c' = oc_block_size c ∧
    line_at c' <$> (i :: S0) = mk_line k data dirty :: (line_at c <$> S0).
Proof.
  intros HS Hi Hk Hd. pose proof (proj1 Hc) as Hs. unfold cache_store. rewrite (entry_at c Hs) by done. rewrite obind_Some.
  rewrite (cs_data _ Hs) by done. unfold cache_copy. pose proof (cs_size _ Hs) as Hbs. pose proof (cs_buffer _ Hs) as Hbuf.
  set (bs := oc_block_size c) in *. assert (i * bs + bs ≤ Z.of_nat (length (oc_buffer c))) as Hib by nia.
  rewrite copy_at_Z, obind_Some by (lia || nia). change (Z.to_nat 0) with 0%nat. rewrite drop_0, (firstn_all2 (n := Z.to_nat bs) data) by lia. cbv zeta.
  set (buf := take _ _ ++ _ ++ _). unfold put_entry.
  pose proof (slot_entries c i Hs Hi) as Hil. cbn [oc_entries set_field]. rewrite aset_in, !obind_Some by done.
  eexists. split; [done|]. match goal with |- cache_rep ?x _ ∧ _ => set (c' := x) end.
  assert (∀ j, entry c' j = if decide (i = j)
      then mk_owcache_entry k true dirty (oc_clock c + 1) (ce_data (entry c i)) else entry c j) as He.
  { intros j. unfold entry at 1. subst c'. cbn [oc_entries oc_clock set_field]. rewrite u64_small by lia. by rewrite entry_put. }
  assert (oc_clock c' = oc_clock c + 1) as Ecl by (subst c'; cbn; by rewrite u64_small by lia).
  assert (∀ j, 0 ≤ j → block c' j = if decide (j = i) then data else block c j) as Hblk.
  { intros j Hj. unfold block. subst c'. cbn [oc_block_size oc_buffer set_field]. fold bs. subst buf.
    apply block_splice; (done || lia). }
  assert (slot_change c c' i) as Hch.
  { constructor; try done; [subst c'; cbn; apply length_insert| |lia|by rewrite He, decide_True|].
    - subst c'. cbn. subst buf. rewrite !length_app, length_take, length_drop. lia.
    - intros j Hj Hne. rewrite He, decide_False by done. rewrite Hblk by lia. by rewrite decide_False. }
  destruct (change_front c c' i S0 Hs HS Hch Hi) as [Hr HL].
  { by rewrite He, decide_True. }
  { unfold stamp. rewrite He, decide_True by done. by rewrite Ecl. }
  { lia. }
  { by rewrite He, decide_True. }
  split; [done|]. split; [done|]. split; [done|]. split; [done|]. rewrite fmap_cons, HL. f_equal.
  unfold line_at. rewrite He, decide_True by done. rewrite Hblk, decide_True by (done || lia). done.
Qed.
End ops.

(** ** Eviction and insertion *)

Lemma recency_le c S : recency c None S → (length S ≤ Z.to_nat (oc_capacity c))%nat.
Proof.
  intros [R1 R2 _ _ _]. rewrite <-(length_seqZ 0 (oc_capacity c)). apply submseteq_length, NoDup_submseteq; [done|].
  intros i (Hi & _)%R1. apply elem_of_seqZ. lia.
Qed.

Lemma recency_room c S i :
  recency c None S → 0 ≤ i < oc_capacity c → ce_valid (entry c i) = false → (length S < Z.to_nat (oc_capacity c))%nat.
Proof.
  intros [R1 R2 _ _ _] Hi Hv. assert (i ∉ S) as Hn by (rewrite R1; intros (_ & ? & _); congruence).
  rewrite <-(length_seqZ 0 (oc_capacity c)). change (length (i :: S) ≤ length (seqZ 0 (oc_capacity c)))%nat.
  apply submseteq_length, NoDup_submseteq; [by apply NoDup_cons|].
  intros j [->|(Hj & _)%R1]%elem_of_cons; apply elem_of_seqZ; lia.
Qed.

Lemma recency_full c S :
  recency c None S → (∀ i, 0 ≤ i < oc_capacity c → ce_valid (entry c i) = true) →
  (Z.to_nat (oc_capacity c) ≤ length S)%nat.
Proof.
  intros [R1 R2 _ _ _] Hv. rewrite <-(length_seqZ 0 (oc_capacity c)). apply submseteq_length, NoDup_submseteq;
    [apply NoDup_seqZ|]. intros i Hi%elem_of_seqZ. apply R1. split; [lia|]. split; [apply Hv; lia|done].
Qed.

Lemma evict_spec c S :
  cache_rep c S →
  ∃ c' r, owcache_evict (Some c) = Some (Some c', r) ∧ r = default (-1) (last S) ∧
    cache_rep c' (removelast S) ∧ line_at c' <$> removelast S = removelast (line_at c <$> S) ∧
    oc_clock c' = oc_clock c ∧ oc_capacity c' = oc_capacity c ∧ oc_block_size c' = oc_block_size c ∧
    ∀ l, last S = Some l → 0 ≤ l < oc_capacity c ∧ ce_block_index (entry c' l) = ce_block_index (entry c l) ∧
      ce_valid (entry c' l) = false.
Proof.
  intros [Hs HS]. unfold owcache_evict. rewrite (cs_init _ Hs). cbn [negb]. rewrite (lru_slot_spec c S Hs HS), obind_Some.
  destruct (last S) as [l|] eqn:El; cbn [from_option id].
  2:{ apply last_None in El as ->. exists c, (-1). by split_and!. }
  pose proof El as [S' ->]%last_Some. rewrite removelast_last.
  assert (l ∈ S' ++ [l]) as HlS by (apply elem_of_app; right; by apply list_elem_of_singleton).
  pose proof HlS as (Hlr & Hlv & _)%(rc_slots _ _ _ HS). rewrite (proj2 (Z.ltb_ge l 0)) by lia.
  rewrite (entry_at c Hs) by done. rewrite obind_Some. unfold put_entry.
  pose proof (slot_entries c l Hs Hlr) as Hll. rewrite aset_in, !obind_Some by done.
  eexists _, l. split; [done|]. split; [done|]. match goal with |- cache_rep ?x _ ∧ _ => set (c' := x) end.
  assert (∀ j, entry c' j = if decide (l = j)
    then (entry c l) <| ce_valid := false |> <| ce_dirty := false |> <| ce_last_used := 0 |> else entry c j) as He.
  { intros j. unfold entry at 1. subst c'. cbn [oc_entries set_field]. by rewrite entry_put. }
  assert (slot_change c c' l) as Hch.
  { constructor; try done; [subst c'; cbn; apply length_insert|by rewrite He, decide_True|].
    intros j _ Hne. by rewrite He, decide_False. }
  destruct HS as [R1 R2 R3 R4 R5]. apply NoDup_app in R2 as (N1 & N2 & _).
  assert (l ∉ S') as HlS' by (intros H; apply (N2 l H); by apply list_elem_of_singleton).
  assert (recency c (Some l) S') as HS'.
  { rewrite fmap_app in R5. apply NoDup_app in R5 as (K1 & _). apply StronglySorted_app in R3 as (_ & R3 & _).
    apply Forall_app in R4 as [R4 _]. constructor; try done. intros j.
    pose proof (R1 j) as Hj. rewrite elem_of_app, list_elem_of_singleton in Hj. split.
    - intros Hj'. assert (j ≠ l) by congruence. destruct Hj as [Hj _]. destruct Hj as (A1 & A2 & _); [by left|].
      split; [done|]. split; [done|congruence].
    - intros (A1 & A2 & A3). destruct Hj as [_ Hj]. destruct Hj as [|]; [done|done|congruence]. }
  destruct (change_others c c' l S' HS' Hch) as [[Q1 Q2 Q3 Q4 Q5] HL].
  split; [|split; [rewrite fmap_app; simpl; by rewrite removelast_last|split; [done|split; [done|split; [done|]]]]].
  - split; [by eapply change_shape|]. constructor; try done. intros j. rewrite Q1.
    split; intros (A1 & A2 & A3); (split; [done|]); (split; [done|]); [done|]. intros [= ->].
    by rewrite He, decide_True in A2.
  - intros l' [= <-]. rewrite He, decide_True by done. done.
Qed.

Lemma insert_spec c S k data dirty :
  cache_rep c S → 0 ≤ oc_clock c ∧ oc_clock c + 1 < 2 ^ 64 → Z.of_nat (length data) = oc_block_size c →
  ∃ c' r S', owcache_insert (Some c) k (Some data) dirty = Some (Some c', r) ∧ 0 ≤ r ∧ cache_rep c' S' ∧
    oc_clock c' = oc_clock c + 1 ∧ oc_capacity c' = oc_capacity c ∧ oc_block_size c' = oc_block_size c ∧
    line_at c' <$> S' = (lru_exec (Z.to_nat (oc_capacity c)) (CInsert k data dirty) (line_at c <$> S)).1.
Proof.
  intros Hc Hclk Hd. pose proof Hc as [Hs HS]. unfold owcache_insert, lru_exec. rewrite (cs_init _ Hs). cbn [negb].
  destruct (slot_of_key c Hs S k HS) as [(i & S1 & S2 & -> & -> & Hi & Hk & HS0 & -> & Hkn)|(-> & -> & Hkn)];
    rewrite obind_Some.
  { rewrite (proj2 (Z.ltb_ge i 0)) by lia.
    destruct (store_spec c _ Hc Hclk i (S1 ++ S2) k data dirty HS0 Hi Hkn Hd) as (c' & E & Hr & H1 & H2 & H3 & HL).
    exists c', i, (i :: S1 ++ S2). split; [done|]. split; [lia|]. done. }
  change (-1 <? 0) with true. cbv iota. unfold cache_free_slot.
  destruct (find_entry c Hs (λ e, negb (ce_valid e))) as ([i|] & -> & H); rewrite !obind_Some; unfold slot_or_none; cbn [from_option id].
  - destruct H as [Hi Hv%negb_true_iff]. rewrite (proj2 (Z.ltb_ge i 0)) by lia.
    rewrite length_fmap, (proj2 (Nat.ltb_lt _ _)) by (by eapply recency_room).
    destruct (store_spec c S Hc Hclk i S k data dirty) as (c' & E & Hr & H1 & H2 & H3 & HL);
      [by apply recency_free|done|done|done|]. exists c', i, (i :: S). split; [done|]. split; [lia|]. done.
  - change (-1 <? 0) with true. cbv iota. pose proof (cs_cap _ Hs) as Hcap.
    pose proof (recency_full c S HS ltac:(intros i Hi; by apply negb_false_iff, H)) as Hfull.
    rewrite length_fmap, (proj2 (Nat.ltb_ge _ _)) by lia.
    destruct (evict_spec c S Hc) as (c1 & r & -> & -> & Hc1 & HL1 & E1 & E2 & E3 & Hl). rewrite !obind_Some.
    destruct (last S) as [l|] eqn:El; [|apply last_None in El as ->; simpl in Hfull; lia]. cbn [from_option id].
    destruct (Hl l eq_refl) as (Hlr & _ & Hlv). rewrite (proj2 (Z.ltb_ge l 0)) by lia.
    assert (k ∉ (ln_key ∘ line_at c1 <$> removelast S)) as Hkn1.
    { rewrite list_fmap_compose, HL1. intros Hin. apply Hkn. rewrite list_fmap_compose.
      apply list_elem_of_fmap in Hin as (x & -> & Hx). apply list_elem_of_fmap. exists x. split; [done|].
      pose proof El as [S' ->]%last_Some. rewrite fmap_app in Hx |- *. simpl in Hx. rewrite removelast_last in Hx.
      apply elem_of_app. by left. }
    destruct (store_spec c1 (removelast S) Hc1 ltac:(by rewrite E1) l (removelast S) k data dirty)
      as (c' & E & Hr & H1 & H2 & H3 & HL);
      [by apply recency_free; [apply Hc1|]|by rewrite E2|done|by rewrite E3|].
    exists c', l, (l :: removelast S). split; [done|]. split; [lia|]. split; [done|]. rewrite HL, HL1. split_and!; (done || congruence).
Qed.

(** ** Flushing *)

Lemma length_filter_fmap {A B} (P : A → Prop) (Q : B → Prop) `{!∀ x, Decision (P x), !∀ y, Decision (Q y)}
    (f : A → B) (l : list A) :
  (∀ x, x ∈ l → P x ↔ Q (f x)) → length (filter P l) = length (filter Q (f <$> l)).
Proof.
  induction l as [|x l IH]; intros Hpq; [done|]. rewrite fmap_cons, !filter_cons.
  assert (P x ↔ Q (f x)) as Hx by (apply Hpq; by left).
  destruct (decide (P x)), (decide (Q (f x))); try tauto; simpl; rewrite IH; try done; intros y Hy; apply Hpq; by right.
Qed.

Lemma filter_none {A} (P : A → Prop) `{!∀ x, Decision (P x)} (l : list A) : (∀ x, x ∈ l → ¬ P x) → filter P l = [].
Proof.
  induction l as [|x l IH]; intros Hn; [done|]. rewrite filter_cons, decide_False by (apply Hn; by left).
  apply IH. intros y Hy. apply Hn. by right.
Qed.

(** The entries with the dirty flags below [k] cleared. *)
Definition clean_below (c : owcache_t) (k : Z) (c' : owcache_t) : Prop :=
  oc_capacity c' = oc_capacity c ∧ oc_block_size c' = oc_block_size c ∧ oc_initialized c' = oc_initialized c ∧
  oc_buffer c' = oc_buffer c ∧ oc_clock c' = oc_clock c ∧ length (oc_entries c') = length (oc_entries c) ∧
  ∀ i, 0 ≤ i < oc_capacity c →
    entry c' i = if decide (i < k) then (if ce_valid (entry c i) then (entry c i) <| ce_dirty := false |> else entry c i)
                 else entry c i.

Definition dirty_below (c : owcache_t) (S : list Z) (k : Z) : nat :=
  length (filter (λ i, i < k ∧ ce_dirty (entry c i) = true) S).

Lemma dirty_below_step c S k :
  NoDup S → dirty_below c S (k + 1) =
    (dirty_below c S k + if decide (k ∈ S ∧ ce_dirty (entry c k) = true) then 1 else 0)%nat.
Proof.
  unfold dirty_below. induction 1 as [|x S Hx _ IH].
  { rewrite decide_False; [done|]. by intros [?%not_elem_of_nil _]. }
  rewrite !filter_cons. destruct (decide (x = k)) as [->|Hne].
  - rewrite (decide_False (P := k < k ∧ _)) by lia.
    rewrite (decide_False (P := k ∈ S ∧ _)) in IH by tauto.
    destruct (ce_dirty (entry c k)).
    + rewrite decide_True by (split; [lia|done]). rewrite decide_True by (split; [by left|done]). simpl. lia.
    + rewrite decide_False by (by intros []). rewrite decide_False by (by intros []). lia.
  - assert ((k ∈ x :: S ∧ ce_dirty (entry c k) = true) ↔ (k ∈ S ∧ ce_dirty (entry c k) = true)) as Hiff
      by (rewrite elem_of_cons; naive_solver).
    rewrite (decide_ext _ _ _ _ Hiff).
    assert ((x < k + 1 ∧ ce_dirty (entry c x) = true) ↔ (x < k ∧ ce_dirty (entry c x) = true)) as Hiff2 by (intuition lia).
    destruct (decide (x < k + 1 ∧ _)), (decide (x < k ∧ _)); try tauto; simpl; lia.
Qed.

(** A cache with all dirty flags cleared holds the same lines, clean. *)
Lemma clean_rep c c' S :
  cache_rep c S → clean_below c (oc_capacity c) c' →
  cache_rep c' S ∧ line_at c' <$> S = (λ l, mk_line (ln_key l) (ln_data l) false) <$> (line_at c <$> S).
Proof.
  intros [Hs HS] (C1 & C2 & C3 & C4 & C5 & C6 & C7).
  assert (∀ i, 0 ≤ i < oc_capacity c → ce_valid (entry c' i) = ce_valid (entry c i) ∧ stamp c' i = stamp c i ∧
    ce_data (entry c' i) = ce_data (entry c i) ∧ ce_block_index (entry c' i) = ce_block_index (entry c i)) as Hsame.
  { intros i Hi. unfold stamp. rewrite C7, decide_True by lia. by destruct (ce_valid (entry c i)) eqn:E. }
  assert (∀ i, i ∈ S → line_at c' i = mk_line (ln_key (line_at c i)) (ln_data (line_at c i)) false) as HL.
  { intros i Hi. pose proof Hi as (Hir & Hv & _)%(rc_slots _ _ _ HS). unfold line_at, block.
    rewrite C7, decide_True, Hv, C2, C4 by lia. done. }
  destruct Hs as [H1 H2 H3 H4 H5 H6]. pose proof HS as [R1 R2 R3 R4 R5].
  split; [split|].
  + constructor; rewrite ?C1, ?C2, ?C3, ?C4, ?C6; try done. intros i Hi.
    destruct (Hsame i Hi) as (_ & _ & -> & _). by apply H6.
  + constructor; try done.
    * intros i. rewrite R1, C1. split; intros (A1 & A2 & A3); destruct (Hsame i A1) as (E & _); (split; [done|]);
        (split; [congruence|done]).
    * eapply StronglySorted_impl_elem; [|exact R3]. intros a b (Ha & _)%R1 (Hb & _)%R1.
      destruct (Hsame a Ha) as (_ & -> & _), (Hsame b Hb) as (_ & -> & _). done.
    * rewrite C5. rewrite Forall_forall in R4 |- *. intros i Hi. specialize (R4 i Hi). apply R1 in Hi as (Hi & _).
      destruct (Hsame i Hi) as (_ & -> & _). done.
    * assert (ln_key ∘ line_at c' <$> S = ln_key ∘ line_at c <$> S) as ->; [|done].
      apply list_fmap_ext. intros n i Hi%list_elem_of_lookup_2. cbn. apply R1 in Hi as (Hi & _).
      by destruct (Hsame i Hi) as (_ & _ & _ & ->).
  + rewrite <-list_fmap_compose. apply list_fmap_ext. intros n i Hi%list_elem_of_lookup_2. by apply HL.
Qed.

Lemma flush_spec c S :
  cache_rep c S →
  ∃ c' n, owcache_flush (Some c) = Some (Some c', n) ∧ cache_rep c' S ∧ oc_clock c' = oc_clock c ∧
    oc_capacity c' = oc_capacity c ∧ oc_block_size c' = oc_block_size c ∧
    line_at c' <$> S = (λ l, mk_line (ln_key l) (ln_data l) false) <$> (line_at c <$> S) ∧
    n = Z.of_nat (length (filter (λ l, ln_dirty l = true) (line_at c <$> S))).
Proof.
  intros [Hs HS]. unfold owcache_flush. rewrite (cs_init _ Hs). cbn [negb]. pose proof (cs_cap _ Hs) as Hcap.
  pose proof (rc_nodup _ _ _ HS) as Hnd. pose proof (recency_le c S HS) as Hle.
  loop_inv (λ k '(c', n), clean_below c k c' ∧ n = Z.of_nat (dirty_below c S k)) as ([c' n] & -> & Hcl & ->).
  - split.
    + repeat (split; [done|]). intros i Hi. by rewrite decide_False by lia.
    + unfold dirty_below. rewrite filter_none; [done|]. intros i Hi [Hlt _].
      apply (rc_slots _ _ _ HS) in Hi as (Hi & _). lia.
  - intros k [c1 n] Hk [(C1 & C2 & C3 & C4 & C5 & C6 & C7) ->].
    assert (0 ≤ k < oc_capacity c) as Hkr by lia.
    assert (aget (oc_entries c1) k = Some (entry c k)) as Hg.
    { destruct (aget_is_Some (oc_entries c1) k) as [e Ee]; [rewrite C6; pose proof (slot_entries c k Hs Hkr); lia|].
      specialize (C7 k Hkr). unfold entry at 1 in C7. rewrite Ee, decide_False in C7 by lia. simpl in C7. by subst e. }
    rewrite Hg, obind_Some, dirty_below_step by done.
    assert (k ∈ S ↔ ce_valid (entry c k) = true) as Hin by (rewrite (rc_slots _ _ _ HS); naive_solver).
    assert (dirty_below c S (k + 1) ≤ length S)%nat as Hdb by apply length_filter.
    rewrite dirty_below_step in Hdb by done.
    destruct (ce_valid (entry c k)) eqn:Ev, (ce_dirty (entry c k)) eqn:Ed; cbn [andb].
    1:{ rewrite decide_True in Hdb |- * by (split; [by apply Hin|done]). unfold put_entry.
        rewrite aset_in, !obind_Some by (rewrite C6; apply (slot_entries c k Hs Hkr)).
        eexists. split; [done|]. split; [|rewrite u32_small; lia].
        split; [done|]. split; [done|]. split; [done|]. split; [done|]. split; [done|].
        split; [cbn; by rewrite length_insert|]. intros i Hi. unfold entry at 1. cbn [oc_entries set_field].
        rewrite entry_put by (rewrite C6; apply (slot_entries c k Hs Hkr)). destruct (decide (k = i)) as [<-|Hne].
        - rewrite decide_True by lia. by rewrite Ev.
        - rewrite C7 by done. destruct (decide (i < k)), (decide (i < k + 1)); (done || lia). }
    all: rewrite decide_False by (rewrite Hin; by intros []); eexists; split; [done|]; split; [|lia].
    all: do 6 (split; [done|]); intros i Hi; rewrite C7 by done; destruct (decide (i = k)) as [->|Hne];
      [rewrite decide_False, decide_True by lia; rewrite Ev; (done || (destruct (entry c k); cbn in *; congruence))
      |destruct (decide (i < k)), (decide (i < k + 1)); (done || lia)].
  - rewrite obind_Some.
    eexists c', _. split; [done|]. rewrite Z.add_0_l, Z2Nat.id in * by lia.
    destruct (clean_rep c c' S (conj Hs HS) Hcl) as [Hr HL]. destruct Hcl as (C1 & C2 & _ & _ & C5 & _).
    split; [done|]. split; [done|]. split; [done|]. split; [done|]. split; [done|].
    f_equal. apply length_filter_fmap. intros i (Hi & _)%(rc_slots _ _ _ HS). cbn. intuition lia.
Qed.

(** ** Runs *)

Definition cache_exec (op : cache_op) (c : owcache_t) : option (owcache_t * cache_out) :=
  match op with
  | CLookup k =>
      '(c, r) ← owcache_lookup (Some c) k; c ← c;
      if r <? 0 then Some (c, OBlock None)
      else e ← aget (oc_entries c) r; d ← aslice (oc_buffer c) (ce_data e) (oc_block_size c);
           Some (c, OBlock (Some d))
  | CInsert k data dirty =>
      '(c, r) ← owcache_insert (Some c) k (Some data) dirty; c ← c;
      Some (c, if r <? 0 then OBlock None else OStored)
  | CEvict =>
      '(c, r) ← owcache_evict (Some c); c ← c;
      if r <? 0 then Some (c, OKey None)
      else e ← aget (oc_entries c) r; Some (c, OKey (Some (ce_block_index e)))
  | CFlush => '(c, n) ← owcache_flush (Some c); c ← c; Some (c, OCount n)
  end.

Definition cache_op_ok (bs : Z) (op : cache_op) : Prop :=
  match op with CInsert _ data _ => Z.of_nat (length data) = bs | _ => True end.

Lemma cache_exec_spec op c S :
  cache_rep c S → 0 ≤ oc_clock c ∧ oc_clock c + 1 < 2 ^ 64 → cache_op_ok (oc_block_size c) op →
  ∃ c' S', cache_exec op c = Some (c', (lru_exec (Z.to_nat (oc_capacity c)) op (line_at c <$> S)).2) ∧ cache_rep c' S' ∧
    line_at c' <$> S' = (lru_exec (Z.to_nat (oc_capacity c)) op (line_at c <$> S)).1 ∧
    oc_clock c ≤ oc_clock c' ≤ oc_clock c + 1 ∧ oc_capacity c' = oc_capacity c ∧ oc_block_size c' = oc_block_size c.
Proof.
  intros Hc Hclk Hop. destruct op as [k|k data dirty| |]; cbn [cache_exec cache_op_ok] in *.
  - destruct (lookup_spec c S Hc Hclk k) as (c' & r & S' & -> & Hc' & Hcl & Ec & Eb & H). rewrite !obind_Some.
    cbn [lru_exec]. exists c', S'. destruct (pull k (line_at c <$> S)) as [[l R]|].
    + destruct H as (Hr & HL & Hblk). rewrite (proj2 (Z.ltb_ge r 0)) by lia. rewrite <-Ec in Hr.
      pose proof (proj1 Hc') as Hs'. rewrite (entry_at c' Hs') by done. rewrite obind_Some, (cs_data _ Hs') by done.
      pose proof (cs_size _ Hs'). pose proof (cs_buffer _ Hs'). rewrite aslice_in, obind_Some by nia.
      fold (block c' r). rewrite Hblk. by split_and!; try lia.
    + destruct H as [-> HL]. by split_and!; try lia.
  - destruct (insert_spec c S k data dirty Hc Hclk Hop) as (c' & r & S' & -> & Hr & Hc' & Hcl & Ec & Eb & HL).
    rewrite !obind_Some. exists c', S'. rewrite (proj2 (Z.ltb_ge r 0)) by lia.
    split; [by cbn [lru_exec]; destruct (pull k (line_at c <$> S)) as [[l R]|]|]. by split_and!; try lia.
  - destruct (evict_spec c S Hc) as (c' & r & -> & -> & Hc' & HL & Hcl & Ec & Eb & Hl). rewrite !obind_Some.
    cbn [lru_exec]. exists c', (removelast S). split; [|by split_and!; try lia]. rewrite fmap_last.
    destruct (last S) as [l|]; [|done]. destruct (Hl l eq_refl) as (Hlr & Hk & _). cbn [from_option id].
    rewrite (proj2 (Z.ltb_ge l 0)), (entry_at c' (proj1 Hc')), obind_Some by lia. cbn. by rewrite Hk.
  - destruct (flush_spec c S Hc) as (c' & n & -> & Hc' & Hcl & Ec & Eb & HL & ->). rewrite !obind_Some.
    exists c', S. by split_and!; try lia.
Qed.

Fixpoint cache_run (ops : list cache_op) (c : owcache_t) : option (owcache_t * list cache_out) :=
  match ops with
  | [] => Some (c, [])
  | op :: ops => '(c, o) ← cache_exec op c; '(c, os) ← cache_run ops c; Some (c, o :: os)
  end.

Fixpoint lru_run (cap : nat) (ops : list cache_op) (R : list line) : list line * list cache_out :=
  match ops with
  | [] => (R, [])
  | op :: ops => let '(R, o) := lru_exec cap op R in let '(R, os) := lru_run cap ops R in (R, o :: os)
  end.

Lemma cache_run_spec ops c S :
  cache_rep c S → 0 ≤ oc_clock c → oc_clock c + Z.of_nat (length ops) < 2 ^ 64 → Forall (cache_op_ok (oc_block_size c)) ops →
  ∃ c' S', cache_run ops c = Some (c', (lru_run (Z.to_nat (oc_capacity c)) ops (line_at c <$> S)).2) ∧ cache_rep c' S' ∧
    line_at c' <$> S' = (lru_run (Z.to_nat (oc_capacity c)) ops (line_at c <$> S)).1.
Proof.
  revert c S. induction ops as [|op ops IH]; intros c S Hc H0 Hn Hops; [by exists c, S|].
  apply Forall_cons_1 in Hops as [Hop Hops]. cbn [length cache_run lru_run] in *.
  destruct (cache_exec_spec op c S Hc ltac:(lia) Hop) as (c1 & S1 & -> & Hc1 & HL & Hcl & Ec & Eb). rewrite obind_Some.
  destruct (lru_exec _ op _) as [R1 o]. cbn [fst snd] in *. subst R1. rewrite <-Eb in Hops.
  destruct (IH c1 S1 Hc1 ltac:(lia) ltac:(lia) Hops) as (c2 & S2 & -> & Hc2 & HL2). rewrite Ec in *.
  rewrite obind_Some. exists c2, S2. destruct (lru_run _ ops _) as [R os]. done.
Qed.

Lemma cache_init_spec c0 es cap buf bs :
  0 < cap < 2 ^ 32 → 0 < bs < 2 ^ 32 → cap ≤ Z.of_nat (length es) → cap * bs ≤ Z.of_nat (length buf) →
  ∃ c, owcache_init (Some c0) (Some es) cap (Some buf) bs = Some (Some c, true) ∧ cache_rep c [] ∧
    oc_clock c = 0 ∧ oc_capacity c = cap ∧ oc_block_size c = bs.
Proof.
  intros Hcap Hbs Hes Hbuf. unfold owcache_init. rewrite (proj2 (Z.eqb_neq cap 0)), (proj2 (Z.eqb_neq bs 0)) by lia. cbn [orb].
  loop_inv (λ k es', length es' = length es ∧ ∀ i, 0 ≤ i < k → aget es' i = Some (mk_owcache_entry 0 false false 0 (i * bs)))
    as (es' & -> & Hl & Hz).
  - split; [done|]. lia.
  - intros k es' Hk [Hl Hz]. rewrite aset_in by lia. eexists. split; [done|]. split; [by rewrite length_insert|].
    intros i Hi. rewrite aget_insert by lia. case_decide as E; [subst; rewrite u64_small by nia; done|]. apply Hz. lia.
  - rewrite obind_Some. eexists. split; [done|]. split; [|done].
    match goal with |- cache_rep ?x _ => set (c := x) end.
    assert (∀ i, 0 ≤ i < cap → entry c i = mk_owcache_entry 0 false false 0 (i * bs)) as He.
    { intros i Hi. unfold entry. cbn [c oc_entries]. rewrite Hz by lia. done. }
    split; [constructor; cbn [c oc_initialized oc_capacity oc_block_size oc_entries oc_buffer]; try done; try lia|].
    + intros i Hi. by rewrite He.
    + constructor; [|constructor..]. intros i. split; [by intros ?%not_elem_of_nil|]. intros (Hi & Hv & _).
      by rewrite He in Hv.
Qed.

(** ** Claim *)

(** [C16] The block cache is an LRU list: after [owcache_init], every sequence of
    lookups, insertions, evictions and flushes stays inside the table and the
    buffer, and gives the results of a list of lines in order of last use.  A
    lookup finds exactly the bytes last inserted under its key while the line is
    cached, and makes it the most recent; an insertion into a full cache drops
    the line whose last use is the longest ago, and no other; a flush counts and
    clears the dirty lines. *)
Theorem owcache_refines_lru c0 es cap buf bs ops :
  0 < cap < 2 ^ 32 → 0 < bs < 2 ^ 32 → cap ≤ Z.of_nat (length es) → cap * bs ≤ Z.of_nat (length buf) →
  Z.of_nat (length ops) < 2 ^ 64 → Forall (cache_op_ok bs) ops →
  ∃ c c' S', owcache_init (Some c0) (Some es) cap (Some buf) bs = Some (Some c, true) ∧
    cache_run ops c = Some (c', (lru_run (Z.to_nat cap) ops []).2) ∧
    cache_rep c' S' ∧ line_at c' <$> S' = (lru_run (Z.to_nat cap) ops []).1.
Proof.
  intros Hcap Hbs Hes Hbuf Hn Hops.
  destruct (cache_init_spec c0 es cap buf bs Hcap Hbs Hes Hbuf) as (c & E & Hc & E0 & Ec & Eb).
  destruct (cache_run_spec ops c [] Hc) as (c' & S' & Er & Hc' & HL); [lia|lia|by rewrite Eb|].
  rewrite Ec in *. by exists c, c', S'.
Qed.

Lemma owcache_refines_lru_witness :
  ∃ c c', owcache_init (Some (mk_owcache [] 0 [] 0 0 0 0 0 0 false)) (Some (replicate 2 no_entry)) 2
      (Some (replicate 2 0)) 1 = Some (Some c, true) ∧
    cache_run [CInsert 7 [70] false; CInsert 8 [80] true; CLookup 7; CInsert 9 [90] false; CLookup 8; CFlush; CEvict; CLookup 9] c =
      Some (c', [OStored; OStored; OBlock (Some [70]); OStored; OBlock None; OCount 0; OKey (Some 7); OBlock (Some [90])]).
Proof.
  destruct (owcache_refines_lru (mk_owcache [] 0 [] 0 0 0 0 0 0 false) (replicate 2 no_entry) 2 (replicate 2 0) 1
    [CInsert 7 [70] false; CInsert 8 [80] true; CLookup 7; CInsert 9 [90] false; CLookup 8; CFlush; CEvict; CLookup 9])
    as (c & c' & S' & E & Er & _); [lia|lia|simpl; lia|simpl; lia|simpl; lia|repeat constructor|].
  exists c, c'. split; [exact E|exact Er].
Defined.
