(* ===== verification/Dhcpcli.v ===== *)
(** The DHCP client (src/Drivers/dhcpcli/dhcpcli.c, dhcpcli.h): the state machine
    DISCOVER, OFFER, REQUEST, ACK and RELEASE over a UDP transmit hook.

    A message is bytes with the layout of [dhcp_message_t], a packed structure
    on a little-endian machine; [dhcp_put_ip] and [dhcp_get_ip] copy the bytes of
    an address, which keeps its network order.  The byte-order and field helpers
    are those of [Tcpcore], which dhcpcli.c defines again.  A pointer to a reply
    is the list of the bytes behind it, so that reading past the packet is
    undefined behaviour.  The hook is interpreted by a section variable on a
    world [W]; a hook that re-enters the client is outside the model. *)
From S2P Require Import Prelude Tcpcore.

(** ** Constants *)
Definition DHCP_OK : Z := 0x00000000.
Definition DHCP_ERR_PARAM : Z := 0x00000001.
Definition DHCP_ERR_NOT_READY : Z := 0x00000002.
Definition DHCP_ERR_STATE : Z := 0x00000003.
Definition DHCP_ERR_BAD_PACKET : Z := 0x00000004.
Definition DHCP_ERR_NAK : Z := 0x00000005.

Inductive dhcp_state_t :=
  | DHCP_STATE_IDLE
  | DHCP_STATE_SELECTING
  | DHCP_STATE_REQUESTING
  | DHCP_STATE_BOUND
  | DHCP_STATE_RENEWING
  | DHCP_STATE_RELEASING.
#[export] Instance dhcp_state_eq_dec : EqDecision dhcp_state_t.
Proof. solve_decision. Defined.

Definition DHCP_SERVER_PORT : Z := 67.
Definition DHCP_CLIENT_PORT : Z := 68.
Definition DHCP_MAX_MESSAGE : Z := 576.
Definition DHCP_MIN_MESSAGE : Z := 300.
Definition DHCP_MAGIC_COOKIE : Z := 0x63825363.
Definition DHCP_FLAG_BROADCAST : Z := 0x8000.
Definition DHCP_IP_ANY : Z := 0x00000000.
Definition DHCP_IP_BROADCAST : Z := 0xFFFFFFFF.

Definition DHCPDISCOVER : Z := 1.
Definition DHCPOFFER : Z := 2.
Definition DHCPREQUEST : Z := 3.
Definition DHCPACK : Z := 5.
Definition DHCPNAK : Z := 6.
Definition DHCPRELEASE : Z := 7.

Definition DHCP_OPT_PAD : Z := 0.
Definition DHCP_OPT_SUBNET : Z := 1.
Definition DHCP_OPT_ROUTER : Z := 3.
Definition DHCP_OPT_DNS : Z := 6.
Definition DHCP_OPT_REQUESTED : Z := 50.
Definition DHCP_OPT_LEASE_TIME : Z := 51.
Definition DHCP_OPT_MSG_TYPE : Z := 53.
Definition DHCP_OPT_SERVER_ID : Z := 54.
Definition DHCP_OPT_PARAM_LIST : Z := 55.
Definition DHCP_OPT_END : Z := 255.

(** Offsets in [dhcp_message_t], and [sizeof(m->options)]. *)
Definition off_xid : Z := 4.
Definition off_flags : Z := 10.
Definition off_ciaddr : Z := 12.
Definition off_yiaddr : Z := 16.
Definition off_siaddr : Z := 20.
Definition off_chaddr : Z := 28.
Definition off_magic : Z := 236.
Definition off_options : Z := 240.
Definition sizeof_options : Z := 312.

(** ** Data *)
Record dhcp_client_t := mk_dhcp {
  dc_state : dhcp_state_t;
  dc_initialized : bool;
  dc_mac : list Z;                       (* [6] *)
  dc_xid : Z;
  dc_client_ip : Z;
  dc_offered_ip : Z;
  dc_server_ip : Z;
  dc_netmask : Z;
  dc_router : Z;
  dc_dns : Z;
  dc_lease_seconds : Z;
  dc_lease_remaining : Z;
  dc_seed : Z;
  dc_udp_tx : Z;                         (* function pointer, 0 is NULL *)
  dc_udp_arg : Z;
  dc_scratch : list Z                    (* [DHCP_MAX_MESSAGE] *)
}.
#[export] Instance eta_dhcp : Eta dhcp_client_t := λ c,
  mk_dhcp (dc_state c) (dc_initialized c) (dc_mac c) (dc_xid c) (dc_client_ip c) (dc_offered_ip c)
    (dc_server_ip c) (dc_netmask c) (dc_router c) (dc_dns c) (dc_lease_seconds c)
    (dc_lease_remaining c) (dc_seed c) (dc_udp_tx c) (dc_udp_arg c) (dc_scratch c).

Definition zero_dhcp : dhcp_client_t :=
  mk_dhcp DHCP_STATE_IDLE false (replicate 6 0) 0 0 0 0 0 0 0 0 0 0 0 0
    (replicate (Z.to_nat DHCP_MAX_MESSAGE) 0).

(** ** Addresses in a message *)

Definition dhcp_put_ip (dst : list Z) (off ip : Z) : option (list Z) := put_field 4 dst off ip.
Definition dhcp_get_ip (src : list Z) (off : Z) : option Z := get_field 4 src off.

(** ** Transaction identifiers *)

(** The new seed and the identifier. *)
Definition dhcp_next_xid (cli : dhcp_client_t) : option (dhcp_client_t * Z) :=
  let seed := u32 (u32 (dc_seed cli * 1103515245) + 12345) in
  b ← aget (dc_mac cli) 5;
  Some (cli <| dc_seed := seed |>, Z.lxor (Z.shiftr seed 8) b).

(** ** Message construction *)

(** [m->options[opt++] = v] *)
Definition put_opt (so : list Z * Z) (v : Z) : option (list Z * Z) :=
  buf ← aset so.1 (off_options + so.2) v; Some (buf, so.2 + 1).

(** [dhcp_put_ip(&m->options[opt], ip); opt += 4] *)
Definition put_opt_ip (so : list Z * Z) (ip : Z) : option (list Z * Z) :=
  buf ← dhcp_put_ip so.1 (off_options + so.2) ip; Some (buf, so.2 + 4).

(** The fixed part of the message. *)
Definition put_bootp (cli : dhcp_client_t) (msg_type : Z) : option (list Z) :=
  let m := replicate (length (dc_scratch cli)) 0 in
  m ← aset m 0 1;
  m ← aset m 1 1;
  m ← aset m 2 6;
  m ← aset m 3 0;
  m ← put_field 4 m off_xid (ow_bswap32 (dc_xid cli));
  m ← put_field 2 m 8 0;
  m ← put_field 2 m off_flags (ow_bswap16 DHCP_FLAG_BROADCAST);
  m ← put_field 4 m off_ciaddr (if msg_type =? DHCPRELEASE then dc_client_ip cli else 0);
  m ← put_field 4 m off_yiaddr 0;
  m ← put_field 4 m off_siaddr 0;
  m ← put_field 4 m 24 0;
  m ← copy_at 6 (dc_mac cli) 0 m off_chaddr;
  put_field 4 m off_magic (ow_bswap32 DHCP_MAGIC_COOKIE).

(** An option that holds an address. *)
Definition put_ip_opt (so : list Z * Z) (code ip : Z) : option (list Z * Z) :=
  so ← put_opt so code; so ← put_opt so 4; put_opt_ip so ip.

Definition dhcp_build (cli : dhcp_client_t) (msg_type requested_ip server_id : Z)
    : option (dhcp_client_t * Z) :=
  m ← put_bootp cli msg_type;
  so ← put_opt (m, 0) DHCP_OPT_MSG_TYPE;
  so ← put_opt so 1;
  so ← put_opt so msg_type;
  so ← (if negb (requested_ip =? DHCP_IP_ANY) then put_ip_opt so DHCP_OPT_REQUESTED requested_ip
        else Some so);
  so ← (if negb (server_id =? DHCP_IP_ANY) then put_ip_opt so DHCP_OPT_SERVER_ID server_id
        else Some so);
  so ← (if negb (msg_type =? DHCPRELEASE) then
          so ← put_opt so DHCP_OPT_PARAM_LIST;
          so ← put_opt so 3;
          so ← put_opt so DHCP_OPT_SUBNET;
          so ← put_opt so DHCP_OPT_ROUTER;
          put_opt so DHCP_OPT_DNS
        else Some so);
  '(m, opt) ← put_opt so DHCP_OPT_END;
  let total := off_options + opt in
  Some (cli <| dc_scratch := m |>, if total <? DHCP_MIN_MESSAGE then DHCP_MIN_MESSAGE else total).

(** ** Reply parsing *)

(** The [switch] on the code of an option of [olen] bytes at [i]. *)
Definition dhcp_option (pkt : list Z) (code olen i : Z) (st : dhcp_client_t * Z * bool)
    : option (dhcp_client_t * Z * bool) :=
  let '(cli, type, has) := st in
  let get_ip := dhcp_get_ip pkt (off_options + i) in
  if code =? DHCP_OPT_MSG_TYPE then
    if 1 <=? olen then t ← aget pkt (off_options + i); Some (cli, t, has) else Some st
  else if code =? DHCP_OPT_SUBNET then
    if 4 <=? olen then ip ← get_ip; Some (cli <| dc_netmask := ip |>, type, has) else Some st
  else if code =? DHCP_OPT_ROUTER then
    if 4 <=? olen then ip ← get_ip; Some (cli <| dc_router := ip |>, type, has) else Some st
  else if code =? DHCP_OPT_DNS then
    if 4 <=? olen then ip ← get_ip; Some (cli <| dc_dns := ip |>, type, has) else Some st
  else if code =? DHCP_OPT_LEASE_TIME then
    if 4 <=? olen then ip ← get_ip; Some (cli <| dc_lease_seconds := ow_bswap32 ip |>, type, has)
    else Some st
  else if code =? DHCP_OPT_SERVER_ID then
    if 4 <=? olen then ip ← get_ip; Some (cli <| dc_server_ip := ip |>, type, true) else Some st
  else Some st.

(** The loop over the options from offset [i] on; every round moves on by at
    least one byte. *)
Fixpoint options_loop (fuel : nat) (pkt : list Z) (i : Z) (st : dhcp_client_t * Z * bool)
    : option (dhcp_client_t * Z * bool) :=
  match fuel with
  | O => None
  | S fuel =>
      if i <? sizeof_options then
        code ← aget pkt (off_options + i);
        let i := i + 1 in
        if code =? DHCP_OPT_PAD then options_loop fuel pkt i st
        else if code =? DHCP_OPT_END then Some st
        else if sizeof_options <=? i then Some st
        else
          olen ← aget pkt (off_options + i);
          let i := i + 1 in
          if sizeof_options <? i + olen then Some st
          else
            st ← dhcp_option pkt code olen i st;
            options_loop fuel pkt (i + olen) st
      else Some st
  end.

(** The client, the message type and [*has_server_id]. *)
Definition dhcp_parse_options (cli : dhcp_client_t) (pkt : list Z) : option (dhcp_client_t * Z * bool) :=
  options_loop (Z.to_nat (sizeof_options + 1)) pkt 0 (cli, 0, false).

(** ** Operations *)

Definition dhcp_init (cli : ptr dhcp_client_t) (mac : ptr (list Z)) (tx arg : Z)
    : option (ptr dhcp_client_t * Z) :=
  match cli, mac with
  | Some _, Some mac =>
      if tx =? 0 then Some (cli, DHCP_ERR_PARAM)
      else
        m ← copy_bytes 6 mac (dc_mac zero_dhcp);
        b ← aget mac 3;
        Some (Some (zero_dhcp <| dc_mac := m |> <| dc_udp_tx := tx |> <| dc_udp_arg := arg |>
                      <| dc_seed := Z.lxor 0x2545F491 b |> <| dc_state := DHCP_STATE_IDLE |>
                      <| dc_initialized := true |>), DHCP_OK)
  | _, _ => Some (cli, DHCP_ERR_PARAM)
  end.

(** No lease: the fields that a release and a refusal reset. *)
Definition drop_lease (cli : dhcp_client_t) : dhcp_client_t :=
  cli <| dc_state := DHCP_STATE_IDLE |> <| dc_client_ip := DHCP_IP_ANY |>
      <| dc_offered_ip := DHCP_IP_ANY |> <| dc_server_ip := DHCP_IP_ANY |>
      <| dc_netmask := DHCP_IP_ANY |> <| dc_router := DHCP_IP_ANY |> <| dc_dns := DHCP_IP_ANY |>
      <| dc_lease_seconds := 0 |> <| dc_lease_remaining := 0 |>.

Section dhcp.
Context {W : Type}.
(** [udp_tx(arg, src_ip, src_port, dst_ip, dst_port, payload)] *)
Context (call_udp_tx : Z → Z → Z → Z → Z → Z → list Z → W → W * Z).

Definition udp_tx (cli : dhcp_client_t) (src_ip dst_ip len : Z) (w : W) : option (W * Z) :=
  p ← aslice (dc_scratch cli) 0 len;
  Some (call_udp_tx (dc_udp_tx cli) (dc_udp_arg cli) src_ip DHCP_CLIENT_PORT dst_ip DHCP_SERVER_PORT p w).

Definition dhcp_discover (cli : ptr dhcp_client_t) (w : W) : option (W * ptr dhcp_client_t * Z) :=
  match cli with
  | None => Some (w, cli, DHCP_ERR_PARAM)
  | Some c =>
      if negb (dc_initialized c) then Some (w, cli, DHCP_ERR_NOT_READY)
      else
        '(c, xid) ← dhcp_next_xid c;
        let c := c <| dc_xid := xid |> <| dc_offered_ip := DHCP_IP_ANY |>
                   <| dc_server_ip := DHCP_IP_ANY |> in
        '(c, len) ← dhcp_build c DHCPDISCOVER DHCP_IP_ANY DHCP_IP_ANY;
        let c := c <| dc_state := DHCP_STATE_SELECTING |> in
        '(w, rc) ← udp_tx c DHCP_IP_ANY DHCP_IP_BROADCAST len w;
        Some (w, Some c, rc)
  end.

Definition dhcp_request (cli : ptr dhcp_client_t) (w : W) : option (W * ptr dhcp_client_t * Z) :=
  match cli with
  | None => Some (w, cli, DHCP_ERR_PARAM)
  | Some c =>
      if negb (dc_initialized c) then Some (w, cli, DHCP_ERR_NOT_READY)
      else if negb (bool_decide (dc_state c = DHCP_STATE_SELECTING)) ||
              (dc_offered_ip c =? DHCP_IP_ANY) || (dc_server_ip c =? DHCP_IP_ANY)
      then Some (w, cli, DHCP_ERR_STATE)
      else
        '(c, len) ← dhcp_build c DHCPREQUEST (dc_offered_ip c) (dc_server_ip c);
        let c := c <| dc_state := DHCP_STATE_REQUESTING |> in
        '(w, rc) ← udp_tx c DHCP_IP_ANY DHCP_IP_BROADCAST len w;
        Some (w, Some c, rc)
  end.

(** [cli->state == BOUND || cli->state == RENEWING] *)
Definition leased (c : dhcp_client_t) : bool :=
  bool_decide (dc_state c = DHCP_STATE_BOUND) || bool_decide (dc_state c = DHCP_STATE_RENEWING).

Definition dhcp_release (cli : ptr dhcp_client_t) (w : W) : option (W * ptr dhcp_client_t * Z) :=
  match cli with
  | None => Some (w, cli, DHCP_ERR_PARAM)
  | Some c =>
      if negb (dc_initialized c) then Some (w, cli, DHCP_ERR_NOT_READY)
      else if negb (leased c) then Some (w, cli, DHCP_ERR_STATE)
      else
        '(c, len) ← dhcp_build c DHCPRELEASE DHCP_IP_ANY (dc_server_ip c);
        let c := c <| dc_state := DHCP_STATE_RELEASING |> in
        '(w, rc) ← udp_tx c (dc_client_ip c) (dc_server_ip c) len w;
        Some (w, Some (drop_lease c), rc)
  end.
End dhcp.

(** The [switch] on the message type of a reply that was accepted. *)
Definition dhcp_reply (c : dhcp_client_t) (pkt : list Z) (type : Z) (has_server_id : bool)
    : option (dhcp_client_t * Z) :=
  if type =? DHCPOFFER then
    if negb (bool_decide (dc_state c = DHCP_STATE_SELECTING)) then Some (c, DHCP_ERR_STATE)
    else
      yiaddr ← get_field 4 pkt off_yiaddr;
      let c := c <| dc_offered_ip := yiaddr |> in
      if negb has_server_id then
        siaddr ← get_field 4 pkt off_siaddr; Some (c <| dc_server_ip := siaddr |>, DHCP_OK)
      else Some (c, DHCP_OK)
  else if type =? DHCPACK then
    if negb (bool_decide (dc_state c = DHCP_STATE_REQUESTING)) &&
       negb (bool_decide (dc_state c = DHCP_STATE_RENEWING))
    then Some (c, DHCP_ERR_STATE)
    else
      yiaddr ← get_field 4 pkt off_yiaddr;
      let c := c <| dc_client_ip := yiaddr |> in
      let c := if dc_lease_seconds c =? 0 then c <| dc_lease_seconds := 3600 |> else c in
      Some (c <| dc_lease_remaining := dc_lease_seconds c |> <| dc_state := DHCP_STATE_BOUND |>, DHCP_OK)
  else if type =? DHCPNAK then Some (drop_lease c, DHCP_ERR_NAK)
  else Some (c, DHCP_ERR_BAD_PACKET).

Definition dhcp_input (cli : ptr dhcp_client_t) (packet : ptr (list Z)) (len : Z)
    : option (ptr dhcp_client_t * Z) :=
  match cli, packet with
  | Some c, Some m =>
      if negb (dc_initialized c) then Some (cli, DHCP_ERR_NOT_READY)
      else if len <? DHCP_MIN_MESSAGE then Some (cli, DHCP_ERR_BAD_PACKET)
      else
        op ← aget m 0;
        if negb (op =? 2) then Some (cli, DHCP_ERR_BAD_PACKET)
        else
          magic ← get_field 4 m off_magic;
          if negb (ow_bswap32 magic =? DHCP_MAGIC_COOKIE) then Some (cli, DHCP_ERR_BAD_PACKET)
          else
            xid ← get_field 4 m off_xid;
            if negb (ow_bswap32 xid =? dc_xid c) then Some (cli, DHCP_ERR_BAD_PACKET)
            else
              h0 ← aget m off_chaddr; h1 ← aget m (off_chaddr + 1); h2 ← aget m (off_chaddr + 2);
              m0 ← aget (dc_mac c) 0; m1 ← aget (dc_mac c) 1; m2 ← aget (dc_mac c) 2;
              if negb (h0 =? m0) || negb (h1 =? m1) || negb (h2 =? m2)
              then Some (cli, DHCP_ERR_BAD_PACKET)
              else
                '(c, type, has_server_id) ← dhcp_parse_options c m;
                '(c, rc) ← dhcp_reply c m type has_server_id;
                Some (Some c, rc)
  | _, _ => Some (cli, DHCP_ERR_PARAM)
  end.

Definition dhcp_tick (cli : ptr dhcp_client_t) (elapsed_seconds : Z) : ptr dhcp_client_t * Z :=
  match cli with
  | None => (cli, DHCP_ERR_PARAM)
  | Some c =>
      if negb (dc_initialized c) then (cli, DHCP_ERR_NOT_READY)
      else if negb (leased c) then (cli, DHCP_OK)
      else if dc_lease_remaining c <=? elapsed_seconds then
        (Some (c <| dc_lease_remaining := 0 |> <| dc_client_ip := DHCP_IP_ANY |>
                 <| dc_netmask := DHCP_IP_ANY |> <| dc_router := DHCP_IP_ANY |>
                 <| dc_dns := DHCP_IP_ANY |> <| dc_state := DHCP_STATE_IDLE |>), DHCP_OK)
      else (Some (c <| dc_lease_remaining := u32 (dc_lease_remaining c - elapsed_seconds) |>), DHCP_OK)
  end.

Definition dhcp_state (cli : ptr dhcp_client_t) : dhcp_state_t :=
  match cli with None => DHCP_STATE_IDLE | Some c => dc_state c end.
