(* ===== verification/DhcpWire.v ===== *)
(** DHCP messages on the wire: options as a list of codes with data, the
    messages a client sends, and that [dhcp_build] and [dhcp_parse_options]
    write and read exactly these. *)
From S2P Require Import Prelude Tcpcore TcpSeg Dhcpcli.

(** ** Options *)

(** The options in a field of bytes: pads are skipped, the end mark and
    anything that does not fit in the field end the list. *)
Fixpoint dhcp_options (fuel : nat) (l : list Z) : list (Z * list Z) :=
  match fuel, l with
  | S n, code :: l =>
      if code =? DHCP_OPT_PAD then dhcp_options n l
      else if code =? DHCP_OPT_END then []
      else match l with
           | [] => []
           | olen :: l =>
               if Z.of_nat (length l) <? olen then []
               else (code, take (Z.to_nat olen) l) :: dhcp_options n (drop (Z.to_nat olen) l)
           end
  | _, _ => []
  end.

Definition option_bytes (o : Z * list Z) : list Z := o.1 :: Z.of_nat (length o.2) :: o.2.
Definition options_bytes (os : list (Z * list Z)) : list Z := concat (option_bytes <$> os) ++ [DHCP_OPT_END].

(** An option that can be put on the wire. *)
Definition option_ok (o : Z * list Z) : Prop :=
  0 < o.1 < 255 ∧ (length o.2 < 256)%nat ∧ octets o.2.

Lemma options_bytes_cons o os : options_bytes (o :: os) = option_bytes o ++ options_bytes os.
Proof. unfold options_bytes. cbn [fmap list_fmap concat]. by rewrite app_assoc. Qed.

Lemma options_roundtrip os rest n :
  Forall option_ok os → (length (options_bytes os) ≤ n)%nat →
  dhcp_options n (options_bytes os ++ rest) = os.
Proof.
  intros Hos. revert n. induction Hos as [|[c d] os (Hc & Hd & _) _ IH]; intros n Hn.
  - destruct n; [simpl in Hn; lia|done].
  - rewrite options_bytes_cons in *. unfold option_bytes in *. cbn [fst snd] in *.
    rewrite <-app_assoc in *. cbn [app length] in *. destruct n as [|n]; [lia|]. cbn [dhcp_options].
    rewrite (proj2 (Z.eqb_neq _ _)) by (unfold DHCP_OPT_PAD; lia).
    rewrite (proj2 (Z.eqb_neq _ _)) by (unfold DHCP_OPT_END; lia).
    rewrite length_app in Hn. rewrite (proj2 (Z.ltb_ge _ _)) by (rewrite !length_app; lia).
    rewrite Nat2Z.id, take_app_length, drop_app_length, IH by lia. done.
Qed.

(** ** What an option does to the client *)

Definition ip_of (d : list Z) : Z := le (take 4 d).

Definition apply_option (st : dhcp_client_t * Z * bool) (o : Z * list Z) : dhcp_client_t * Z * bool :=
  let '(cli, type, has) := st in
  let '(code, d) := o in
  if code =? DHCP_OPT_MSG_TYPE then match d with t :: _ => (cli, t, has) | [] => st end
  else if (length d <? 4)%nat then st
  else if code =? DHCP_OPT_SUBNET then (cli <| dc_netmask := ip_of d |>, type, has)
  else if code =? DHCP_OPT_ROUTER then (cli <| dc_router := ip_of d |>, type, has)
  else if code =? DHCP_OPT_DNS then (cli <| dc_dns := ip_of d |>, type, has)
  else if code =? DHCP_OPT_LEASE_TIME then (cli <| dc_lease_seconds := ow_bswap32 (ip_of d) |>, type, has)
  else if code =? DHCP_OPT_SERVER_ID then (cli <| dc_server_ip := ip_of d |>, type, true)
  else st.

(** The options field of a packet. *)
Definition options_field (pkt : list Z) : list Z := take 312 (drop 240 pkt).

Section parse.
Context (pkt : list Z).
Hypothesis Hlen : (552 ≤ length pkt)%nat.
Let field := options_field pkt.

Lemma field_length : length field = 312%nat.
Proof. unfold field, options_field. rewrite length_take, length_drop. lia. Qed.

Lemma field_get i : 0 ≤ i < 312 → ∃ b, aget pkt (off_options + i) = Some b ∧ drop (Z.to_nat i) field = b :: drop (Z.to_nat (i + 1)) field.
Proof.
  intros Hi. destruct (lookup_lt_is_Some_2 field (Z.to_nat i)) as [b Hb]; [rewrite field_length; lia|].
  exists b. split.
  - unfold off_options. rewrite aget_to_nat by lia. unfold field, options_field in Hb.
    rewrite lookup_take_lt, lookup_drop in Hb by lia. rewrite <-Hb. f_equal. lia.
  - rewrite (drop_lookup_cons _ _ _ Hb). by replace (Z.to_nat (i + 1)) with (S (Z.to_nat i)) by lia.
Qed.

Lemma field_ip i : 0 ≤ i → i + 4 ≤ 312 → get_field 4 pkt (off_options + i) = Some (le (take 4 (drop (Z.to_nat i) field))).
Proof.
  intros H0 H4. unfold get_field, off_options. rewrite aslice_in by lia. rewrite obind_Some. do 2 f_equal.
  unfold field, options_field. rewrite skipn_firstn_comm, take_take, drop_drop.
  replace (Z.to_nat (240 + i)) with (240 + Z.to_nat i)%nat by lia.
  by replace (4 `min` _)%nat with 4%nat by lia.
Qed.

Lemma dhcp_option_spec code olen i st :
  0 ≤ i → 0 ≤ olen → i + olen ≤ 312 →
  dhcp_option pkt code olen i st = Some (apply_option st (code, take (Z.to_nat olen) (drop (Z.to_nat i) field))).
Proof.
  intros Hi Ho Hio. destruct st as [[cli type] has]. set (d := take _ _).
  assert (length d = Z.to_nat olen) as Hd by (unfold d; rewrite length_take, length_drop, field_length; lia).
  unfold dhcp_option, dhcp_get_ip, apply_option. case_if.
  - destruct (Z.leb_spec 1 olen).
    + destruct (field_get i) as (b & -> & Hb); [lia|]. rewrite obind_Some. unfold d. rewrite Hb.
      by replace (Z.to_nat olen) with (S (Z.to_nat (olen - 1))) by lia.
    + destruct d; [done|]. simpl in Hd. lia.
  - destruct (Z.leb_spec 4 olen).
    + rewrite (proj2 (Nat.ltb_ge _ _)) by lia. rewrite field_ip by lia.
      assert (le (take 4 (drop (Z.to_nat i) field)) = ip_of d) as ->.
      { unfold ip_of, d. rewrite take_take. by replace (4 `min` _)%nat with 4%nat by lia. }
      rewrite !obind_Some. repeat case_if; done.
    + rewrite (proj2 (Nat.ltb_lt _ _)) by lia. by repeat case_if.
Qed.

(** The options loop applies the options of the field in order. *)
Lemma options_loop_spec fuel i st :
  octets pkt → 0 ≤ i ≤ 312 → 312 - i < Z.of_nat fuel →
  options_loop fuel pkt i st = Some (foldl apply_option st (dhcp_options fuel (drop (Z.to_nat i) field))).
Proof.
  intros Hoct. revert i st. induction fuel as [|fuel IH]; intros i st Hi Hf; [lia|].
  cbn [options_loop]. unfold sizeof_options. destruct (Z.ltb_spec i 312) as [Hlt|].
  - destruct (field_get i) as (code & -> & ->); [lia|]. rewrite obind_Some. cbn [dhcp_options].
    case_if; [by apply IH; lia|]. case_if; [done|].
    destruct (Z.leb_spec 312 (i + 1)) as [|Hlt2].
    + by rewrite (nil_length_inv (drop (Z.to_nat (i + 1)) field)) by (rewrite length_drop, field_length; lia).
    + destruct (field_get (i + 1)) as (olen & Eo & ->); [lia|]. rewrite Eo, obind_Some.
      assert (0 ≤ olen) as Ho by (apply aget_Some in Eo as [_ Eo]; eapply Forall_lookup_1 in Eo; [|exact Hoct]; simpl in Eo; lia).
      replace (i + 1 + 1) with (i + 2) by lia. rewrite length_drop, field_length.
      destruct (Z.ltb_spec 312 (i + 2 + olen)); [rewrite (proj2 (Z.ltb_lt _ _)) by lia; done|].
      rewrite (proj2 (Z.ltb_ge _ _)) by lia. rewrite dhcp_option_spec, obind_Some, IH by lia.
      cbn [foldl]. do 3 f_equal. rewrite drop_drop. f_equal. lia.
  - destruct (Z.to_nat i) eqn:Ei; [lia|]. rewrite drop_ge by (rewrite field_length; lia). by destruct fuel.
Qed.

Lemma parse_options_spec cli :
  octets pkt → dhcp_parse_options cli pkt = Some (foldl apply_option (cli, 0, false) (dhcp_options 313 field)).
Proof. intros Ho. unfold dhcp_parse_options, sizeof_options. rewrite options_loop_spec by (done || lia). done. Qed.
End parse.

(** ** What a client sends *)

(** The 240 bytes before the options, with the magic cookie. *)
Definition bootp_header (op xid ciaddr yiaddr siaddr : Z) (mac : list Z) : list Z :=
  [op; 1; 6; 0] ++ be_bytes 4 xid ++ [0; 0; 128; 0] ++ le_bytes 4 ciaddr ++ le_bytes 4 yiaddr ++
  le_bytes 4 siaddr ++ [0; 0; 0; 0] ++ mac ++ replicate 202 0 ++ [99; 130; 83; 99].

Lemma bootp_header_length op xid ci yi si mac :
  length mac = 6%nat → length (bootp_header op xid ci yi si mac) = 240%nat.
Proof. intros Hm. unfold bootp_header. rewrite !length_app, length_replicate, Hm. done. Qed.

Definition ip_option (code ip : Z) : list (Z * list Z) :=
  if ip =? DHCP_IP_ANY then [] else [(code, le_bytes 4 ip)].

Definition client_options (type requested server : Z) : list (Z * list Z) :=
  (DHCP_OPT_MSG_TYPE, [type]) :: ip_option DHCP_OPT_REQUESTED requested ++
  ip_option DHCP_OPT_SERVER_ID server ++
  (if type =? DHCPRELEASE then [] else [(DHCP_OPT_PARAM_LIST, [DHCP_OPT_SUBNET; DHCP_OPT_ROUTER; DHCP_OPT_DNS])]).

(** A message of a client: always the minimal size, filled up with pads. *)
Definition client_message (xid ciaddr : Z) (mac : list Z) (type requested server : Z) : list Z :=
  let os := options_bytes (client_options type requested server) in
  bootp_header 1 xid ciaddr 0 0 mac ++ os ++ replicate (60 - length os) 0.

Lemma put_opt_next p k o v :
  Z.of_nat (length p) = 240 + o →
  put_opt (p ++ replicate (S k) 0, o) v = Some ((p ++ [v]) ++ replicate k 0, o + 1).
Proof.
  intros Hp. unfold put_opt. cbn [fst snd replicate]. rewrite aset_next by (unfold off_options; lia).
  by rewrite obind_Some.
Qed.

Lemma put_ip_next p k o ip :
  Z.of_nat (length p) = 240 + o →
  put_opt_ip (p ++ replicate (4 + k) 0, o) ip = Some ((p ++ le_bytes 4 ip) ++ replicate k 0, o + 4).
Proof.
  intros Hp. unfold put_opt_ip, dhcp_put_ip. cbn [fst snd].
  rewrite put_next, obind_Some by (rewrite ?length_replicate; unfold off_options; lia).
  by rewrite drop_replicate, Nat.add_comm, Nat.add_sub.
Qed.

Lemma put_ip_opt_next p k o code ip :
  Z.of_nat (length p) = 240 + o →
  put_ip_opt (p ++ replicate (6 + k) 0, o) code ip =
    Some ((p ++ option_bytes (code, le_bytes 4 ip)) ++ replicate k 0, o + 6).
Proof.
  intros Hp. unfold put_ip_opt. cbn [Nat.add].
  rewrite put_opt_next, obind_Some by done.
  rewrite put_opt_next, obind_Some by (rewrite length_app; simpl; lia).
  change (S (S (S (S k)))) with (4 + k)%nat. rewrite put_ip_next by (rewrite !length_app; simpl; lia).
  unfold option_bytes. cbn [fst snd]. rewrite <-!app_assoc. do 2 f_equal. lia.
Qed.

Lemma put_bootp_spec c type :
  length (dc_scratch c) = 576%nat → length (dc_mac c) = 6%nat → is_u32 (dc_xid c) →
  put_bootp c type =
    Some (bootp_header 1 (dc_xid c) (if type =? DHCPRELEASE then dc_client_ip c else 0) 0 0 (dc_mac c) ++
          replicate 336 0).
Proof.
  intros Hs Hm Hx. unfold put_bootp. rewrite Hs. cbv zeta. change (replicate 576 0) with ([] ++ 0 :: replicate 575 0).
  rewrite aset_next, obind_Some by done. change (replicate 575 0) with (0 :: replicate 574 0).
  rewrite aset_next, obind_Some by done. change (replicate 574 0) with (0 :: replicate 573 0).
  rewrite aset_next, obind_Some by done. change (replicate 573 0) with (0 :: replicate 572 0).
  rewrite aset_next, obind_Some by done.
  unfold off_xid, off_flags, off_ciaddr, off_yiaddr, off_siaddr, off_chaddr, off_magic.
  set (ci := if type =? _ then _ else _).
  set (z := replicate 572 0). assert (length z = 572%nat) as Hz by done.
  do 7 fill_next. change 6 with (Z.of_nat 6) at 1.
  rewrite copy_next, obind_Some, (firstn_all2 (n := 6) (dc_mac c)), !drop_drop
    by (rewrite ?length_app, ?length_drop, ?le_bytes_length, ?Hz; simpl; lia).
  rewrite <-(take_drop 202 (drop _ z)), drop_drop, (app_assoc _ (take 202 _)).
  rewrite put_next by (rewrite ?length_app, ?length_take, ?length_drop, ?le_bytes_length, ?Hm, ?Hz; simpl; lia).
  subst z. rewrite drop_drop, !drop_replicate, take_replicate. unfold bootp_header. rewrite <-!app_assoc.
  rewrite !bswap32_be by done. reflexivity.
Qed.

(** The buffer and the offset after some options were written. *)
Definition data_bytes (os : list (Z * list Z)) : list Z := concat (option_bytes <$> os).
Definition filled (h : list Z) (os : list (Z * list Z)) : list Z * Z :=
  ((h ++ data_bytes os) ++ replicate (336 - length (data_bytes os)) 0, Z.of_nat (length (data_bytes os))).

Lemma data_bytes_app os os' : data_bytes (os ++ os') = data_bytes os ++ data_bytes os'.
Proof. unfold data_bytes. by rewrite fmap_app, concat_app. Qed.

Lemma data_ip_option code ip : (length (data_bytes (ip_option code ip)) ≤ 6)%nat.
Proof. unfold ip_option. case_if; simpl; lia. Qed.

Section fill.
Context (h : list Z).
Hypothesis Hh : length h = 240%nat.

Lemma fill_ip_option os code ip :
  (length (data_bytes os) + 6 ≤ 336)%nat →
  (if negb (ip =? DHCP_IP_ANY) then put_ip_opt (filled h os) code ip else Some (filled h os)) =
    Some (filled h (os ++ ip_option code ip)).
Proof.
  intros Hl. unfold ip_option. destruct (ip =? DHCP_IP_ANY); cbn [negb]; [by rewrite app_nil_r|].
  unfold filled. rewrite data_bytes_app. set (d := data_bytes os) in *.
  replace (336 - length d)%nat with (6 + (330 - length d))%nat by lia.
  rewrite put_ip_opt_next by (rewrite length_app; lia). rewrite length_app.
  change (data_bytes [_]) with (option_bytes (code, le_bytes 4 ip) ++ []). rewrite app_nil_r, !app_assoc.
  change (length (option_bytes (code, le_bytes 4 ip))) with 6%nat. do 3 f_equal; [f_equal; lia|lia].
Qed.

Lemma fill_bytes os b so k :
  (length (data_bytes os) + S k ≤ 336)%nat →
  so = (((h ++ data_bytes os) ++ b) ++ replicate (336 - length (data_bytes os) - k) 0,
        Z.of_nat (length (data_bytes os) + k)) → length b = k →
  ∀ v, put_opt so v =
    Some (((h ++ data_bytes os) ++ b ++ [v]) ++ replicate (336 - length (data_bytes os) - S k) 0,
          Z.of_nat (length (data_bytes os) + S k)).
Proof.
  intros Hl -> Hb v. set (d := data_bytes os) in *.
  replace (336 - length d - k)%nat with (S (336 - length d - S k)) by lia.
  rewrite put_opt_next by (rewrite !length_app; lia). rewrite !app_assoc. do 2 f_equal. lia.
Qed.

(** An option with data, byte by byte. *)
Fixpoint put_opts (so : list Z * Z) (bs : list Z) : option (list Z * Z) :=
  match bs with [] => Some so | b :: bs => so ← put_opt so b; put_opts so bs end.

Lemma fill_option os code data :
  (length (data_bytes os) + 2 + length data ≤ 336)%nat →
  put_opts (filled h os) (option_bytes (code, data)) = Some (filled h (os ++ [(code, data)])).
Proof.
  intros Hl. assert (∀ bs b so, (length (data_bytes os) + length b + length bs ≤ 336)%nat →
    so = (((h ++ data_bytes os) ++ b) ++ replicate (336 - length (data_bytes os) - length b) 0,
          Z.of_nat (length (data_bytes os) + length b)) →
    put_opts so bs = Some (((h ++ data_bytes os) ++ b ++ bs) ++
        replicate (336 - length (data_bytes os) - length (b ++ bs)) 0,
        Z.of_nat (length (data_bytes os) + length (b ++ bs)))) as Hgen.
  { induction bs as [|x bs IH]; intros b so Hb E; cbn [put_opts]; [by rewrite app_nil_r, E|].
    cbn [length] in Hb. rewrite (fill_bytes os b so (length b)), obind_Some by (done || lia).
    rewrite (IH (b ++ [x])); [by rewrite <-!app_assoc|rewrite length_app; simpl; lia|].
    rewrite (length_app b). cbn [length]. by rewrite Nat.add_1_r. }
  rewrite (Hgen _ []); [|simpl; lia|unfold filled; cbn [length]; by rewrite app_nil_r, Nat.sub_0_r, Nat.add_0_r].
  unfold filled. rewrite data_bytes_app. change (data_bytes [_]) with (option_bytes (code, data) ++ []).
  rewrite app_nil_r, app_nil_l, (length_app (data_bytes os)). by rewrite app_assoc, Nat.sub_add_distr.
Qed.

Lemma fill_end os :
  (length (data_bytes os) < 336)%nat →
  put_opt (filled h os) DHCP_OPT_END =
    Some (h ++ options_bytes os ++ replicate (336 - length (options_bytes os)) 0, Z.of_nat (length (options_bytes os))).
Proof.
  intros Hl. rewrite (fill_bytes os [] _ 0) by (done || lia || unfold filled; by rewrite app_nil_r, Nat.sub_0_r, Nat.add_0_r).
  unfold options_bytes. fold (data_bytes os). rewrite length_app. cbn [app length].
  by rewrite <-!app_assoc, Nat.sub_add_distr.
Qed.
End fill.

(** [dhcp_build] leaves the message in the buffer, and its size is 300. *)
Lemma dhcp_build_spec c type requested server :
  length (dc_scratch c) = 576%nat → length (dc_mac c) = 6%nat → is_u32 (dc_xid c) →
  ∃ rest, length rest = 276%nat ∧
    dhcp_build c type requested server =
      Some (c <| dc_scratch := client_message (dc_xid c) (if type =? DHCPRELEASE then dc_client_ip c else 0)
                                 (dc_mac c) type requested server ++ rest |>, 300).
Proof.
  intros Hs Hm Hx. unfold dhcp_build. rewrite (put_bootp_spec c type Hs Hm Hx), obind_Some.
  pose proof (bootp_header_length 1 (dc_xid c) (if type =? DHCPRELEASE then dc_client_ip c else 0) 0 0 _ Hm) as Hh.
  unfold client_message. set (h := bootp_header _ _ _ _ _ _) in *. clearbody h.
  pose proof (fill_option h Hh [] DHCP_OPT_MSG_TYPE [type] ltac:(simpl; lia)) as E1.
  unfold filled at 1 in E1. change (data_bytes []) with (@nil Z) in E1. rewrite app_nil_r in E1.
  change (336 - length [])%nat with 336%nat in E1. change (Z.of_nat (length [])) with 0 in E1.
  cbn [put_opts option_bytes fst snd length] in E1. change (Z.of_nat 1) with 1 in E1.
  set (o0 := (h ++ replicate 336 0, 0)) in *. destruct (put_opt o0 _) as [o1|]; [|done]. rewrite !obind_Some in *.
  destruct (put_opt o1 1) as [o2|]; [|done]. rewrite !obind_Some in *.
  destruct (put_opt o2 type) as [o3|]; [|done]. rewrite !obind_Some in *. injection E1 as ->. cbn [app].
  rewrite (fill_ip_option h Hh), obind_Some by (simpl; lia).
  pose proof (data_ip_option DHCP_OPT_REQUESTED requested) as L1.
  pose proof (data_ip_option DHCP_OPT_SERVER_ID server) as L2.
  rewrite (fill_ip_option h Hh), obind_Some by (rewrite data_bytes_app, length_app; simpl; lia).
  set (os := ([(DHCP_OPT_MSG_TYPE, [type])] ++ ip_option DHCP_OPT_REQUESTED requested) ++ ip_option DHCP_OPT_SERVER_ID server).
  assert (length (data_bytes os) ≤ 15)%nat as L3
    by (subst os; rewrite !data_bytes_app, !length_app; simpl; lia).
  set (so := if negb (type =? DHCPRELEASE) then _ else _).
  set (os' := client_options type requested server).
  assert (so = Some (filled h os') ∧ (length (data_bytes os') ≤ 20)%nat) as [-> L4].
  { assert (os' = os ++ if type =? DHCPRELEASE then [] else [(DHCP_OPT_PARAM_LIST, [DHCP_OPT_SUBNET; DHCP_OPT_ROUTER; DHCP_OPT_DNS])])
      as -> by (subst os os'; unfold client_options; by rewrite <-!app_assoc).
    subst so. clearbody os.
    destruct (type =? DHCPRELEASE); cbn [negb]; [by rewrite app_nil_r; split; [|lia]|]. split.
    - rewrite <-(fill_option h Hh) by (simpl; lia). cbn [option_bytes put_opts fst snd length].
      change (Z.of_nat 3) with 3. repeat (destruct (put_opt _ _); [|done]; rewrite !obind_Some). done.
    - rewrite data_bytes_app, length_app. simpl. lia. }
  rewrite obind_Some, (fill_end h Hh), obind_Some by lia. cbv zeta.
  assert (length (options_bytes os') ≤ 21)%nat as L5
    by (unfold options_bytes; fold (data_bytes os'); rewrite length_app; cbn [length]; lia).
  exists (replicate 276 0). split; [done|]. rewrite (proj2 (Z.ltb_lt _ _)) by (unfold off_options, DHCP_MIN_MESSAGE; lia).
  rewrite <-!app_assoc, <-replicate_add. by replace (60 - _ + 276)%nat with (336 - length (options_bytes os'))%nat by lia.
Qed.
