(* ===== verification/DhcpSpec.v ===== *)
(** The DHCP client as an automaton on messages: what a reply says, what the
    client learns from it, and that every call of dhcpcli.c does one step of
    the automaton. *)
From S2P Require Import Prelude Tcpcore TcpSeg Dhcpcli DhcpWire.

(** ** What a reply says *)

Definition option_ip (code : Z) (o : Z * list Z) : option Z :=
  if (o.1 =? code) && (4 <=? length o.2)%nat then Some (ip_of o.2) else None.
Definition option_type (o : Z * list Z) : option Z :=
  if o.1 =? DHCP_OPT_MSG_TYPE then head o.2 else None.

(** The last valid occurrence of an option counts. *)
Definition last_ip (code : Z) (os : list (Z * list Z)) : option Z := last (omap (option_ip code) os).
Definition message_type (os : list (Z * list Z)) : Z := default 0 (last (omap option_type os)).

Record reply := mk_reply { rp_yiaddr : Z; rp_siaddr : Z; rp_options : list (Z * list Z) }.

(** A packet is a reply to the transaction [xid] of the adapter [mac] if it is a
    BOOTREPLY with the magic cookie, the identifier and the manufacturer part
    of the hardware address. *)
Definition read_reply (xid : Z) (mac pkt : list Z) : option reply :=
  if decide (pkt !! 0%nat = Some 2 ∧ take 4 (drop 236 pkt) = [99; 130; 83; 99] ∧
             take 4 (drop 4 pkt) = be_bytes 4 xid ∧ take 3 (drop 28 pkt) = take 3 mac)
  then Some (mk_reply (le (take 4 (drop 16 pkt))) (le (take 4 (drop 20 pkt)))
               (dhcp_options 313 (options_field pkt)))
  else None.

(** ** The automaton *)

(** What the options of replies told. *)
Record dhcp_params := mk_params {
  pa_server : Z; pa_netmask : Z; pa_router : Z; pa_dns : Z; pa_lease : Z
}.
Definition no_params : dhcp_params := mk_params 0 0 0 0 0.

Record dhcp_abs := mk_da {
  da_phase : dhcp_state_t;
  da_seed : Z;
  da_xid : Z;
  da_ip : Z;
  da_offer : Z;
  da_left : Z;
  da_params : dhcp_params
}.

Definition learn (p : dhcp_params) (os : list (Z * list Z)) : dhcp_params :=
  mk_params (default (pa_server p) (last_ip DHCP_OPT_SERVER_ID os))
    (default (pa_netmask p) (last_ip DHCP_OPT_SUBNET os))
    (default (pa_router p) (last_ip DHCP_OPT_ROUTER os))
    (default (pa_dns p) (last_ip DHCP_OPT_DNS os))
    (default (pa_lease p) (ow_bswap32 <$> last_ip DHCP_OPT_LEASE_TIME os)).

Definition abs_reply (a : dhcp_abs) (r : reply) : dhcp_abs * Z :=
  let p := learn (da_params a) (rp_options r) in
  let type := message_type (rp_options r) in
  let stay := mk_da (da_phase a) (da_seed a) (da_xid a) (da_ip a) (da_offer a) (da_left a) p in
  if type =? DHCPOFFER then
    if decide (da_phase a = DHCP_STATE_SELECTING) then
      let server := default (rp_siaddr r) (last_ip DHCP_OPT_SERVER_ID (rp_options r)) in
      (mk_da DHCP_STATE_SELECTING (da_seed a) (da_xid a) (da_ip a) (rp_yiaddr r) (da_left a)
         (mk_params server (pa_netmask p) (pa_router p) (pa_dns p) (pa_lease p)), DHCP_OK)
    else (stay, DHCP_ERR_STATE)
  else if type =? DHCPACK then
    if decide (da_phase a = DHCP_STATE_REQUESTING) then
      let lease := if pa_lease p =? 0 then 3600 else pa_lease p in
      (mk_da DHCP_STATE_BOUND (da_seed a) (da_xid a) (rp_yiaddr r) (da_offer a) lease
         (mk_params (pa_server p) (pa_netmask p) (pa_router p) (pa_dns p) lease), DHCP_OK)
    else (stay, DHCP_ERR_STATE)
  else if type =? DHCPNAK then
    (mk_da DHCP_STATE_IDLE (da_seed a) (da_xid a) 0 0 0 no_params, DHCP_ERR_NAK)
  else (stay, DHCP_ERR_BAD_PACKET).

Inductive dhcp_op :=
  | DDiscover
  | DRequest
  | DRelease
  | DInput (pkt : list Z) (len : Z)
  | DTick (elapsed : Z).

Section abs.
Context {W : Type} (call_udp_tx : Z → Z → Z → Z → Z → Z → list Z → W → W * Z).
Context (mac : list Z) (tx arg : Z).

Definition send (src dst : Z) (msg : list Z) (w : W) : W * Z :=
  call_udp_tx tx arg src DHCP_CLIENT_PORT dst DHCP_SERVER_PORT msg w.

Definition abs_discover (w : W) (a : dhcp_abs) : W * dhcp_abs * Z :=
  let seed := u32 (u32 (da_seed a * 1103515245) + 12345) in
  let xid := Z.lxor (Z.shiftr seed 8) (default 0 (mac !! 5%nat)) in
  let p := da_params a in
  let '(w, rc) := send 0 DHCP_IP_BROADCAST (client_message xid 0 mac DHCPDISCOVER 0 0) w in
  (w, mk_da DHCP_STATE_SELECTING seed xid (da_ip a) 0 (da_left a)
        (mk_params 0 (pa_netmask p) (pa_router p) (pa_dns p) (pa_lease p)), rc).

Definition abs_request (w : W) (a : dhcp_abs) : W * dhcp_abs * Z :=
  if decide (da_phase a = DHCP_STATE_SELECTING ∧ da_offer a ≠ 0 ∧ pa_server (da_params a) ≠ 0) then
    let '(w, rc) := send 0 DHCP_IP_BROADCAST
      (client_message (da_xid a) 0 mac DHCPREQUEST (da_offer a) (pa_server (da_params a))) w in
    (w, mk_da DHCP_STATE_REQUESTING (da_seed a) (da_xid a) (da_ip a) (da_offer a) (da_left a) (da_params a), rc)
  else (w, a, DHCP_ERR_STATE).

Definition abs_release (w : W) (a : dhcp_abs) : W * dhcp_abs * Z :=
  if decide (da_phase a = DHCP_STATE_BOUND) then
    let server := pa_server (da_params a) in
    let '(w, rc) := send (da_ip a) server (client_message (da_xid a) (da_ip a) mac DHCPRELEASE 0 server) w in
    (w, mk_da DHCP_STATE_IDLE (da_seed a) (da_xid a) 0 0 0 no_params, rc)
  else (w, a, DHCP_ERR_STATE).

Definition abs_input (pkt : list Z) (len : Z) (a : dhcp_abs) : dhcp_abs * Z :=
  if len <? DHCP_MIN_MESSAGE then (a, DHCP_ERR_BAD_PACKET)
  else match read_reply (da_xid a) mac pkt with
       | Some r => abs_reply a r
       | None => (a, DHCP_ERR_BAD_PACKET)
       end.

(** A lease that runs out is forgotten; its server and its time are not. *)
Definition abs_tick (elapsed : Z) (a : dhcp_abs) : dhcp_abs :=
  if decide (da_phase a = DHCP_STATE_BOUND) then
    if da_left a <=? elapsed then
      mk_da DHCP_STATE_IDLE (da_seed a) (da_xid a) 0 (da_offer a) 0
        (mk_params (pa_server (da_params a)) 0 0 0 (pa_lease (da_params a)))
    else mk_da DHCP_STATE_BOUND (da_seed a) (da_xid a) (da_ip a) (da_offer a) (da_left a - elapsed) (da_params a)
  else a.

Definition dabs_exec (op : dhcp_op) (w : W) (a : dhcp_abs) : W * dhcp_abs * Z :=
  match op with
  | DDiscover => abs_discover w a
  | DRequest => abs_request w a
  | DRelease => abs_release w a
  | DInput pkt len => let '(a, rc) := abs_input pkt len a in (w, a, rc)
  | DTick n => (w, abs_tick n a, DHCP_OK)
  end.
End abs.

(** ** The invariant and the view *)

Record dhcp_ok (c : dhcp_client_t) : Prop := mk_dhcp_ok {
  do_init : dc_initialized c = true;
  do_mac : length (dc_mac c) = 6%nat;
  do_octets : octets (dc_mac c);
  do_scratch : length (dc_scratch c) = 576%nat;
  do_xid : is_u32 (dc_xid c);
  do_left : is_u32 (dc_lease_remaining c);
  do_lease : is_u32 (dc_lease_seconds c);
  do_phase : dc_state c ∈ [DHCP_STATE_IDLE; DHCP_STATE_SELECTING; DHCP_STATE_REQUESTING; DHCP_STATE_BOUND];
  do_bound : dc_state c = DHCP_STATE_BOUND → 0 < dc_lease_remaining c
}.

Definition dhcp_view (c : dhcp_client_t) : dhcp_abs :=
  mk_da (dc_state c) (dc_seed c) (dc_xid c) (dc_client_ip c) (dc_offered_ip c) (dc_lease_remaining c)
    (mk_params (dc_server_ip c) (dc_netmask c) (dc_router c) (dc_dns c) (dc_lease_seconds c)).

(** ** Options *)

Lemma last_ip_snoc code os o :
  last_ip code (os ++ [o]) = match option_ip code o with Some v => Some v | None => last_ip code os end.
Proof.
  unfold last_ip. rewrite omap_app. cbn [omap list_omap].
  destruct (option_ip code o); [by rewrite last_snoc|by rewrite app_nil_r].
Qed.

Lemma message_type_snoc os o :
  message_type (os ++ [o]) = match option_type o with Some v => v | None => message_type os end.
Proof.
  unfold message_type. rewrite omap_app. cbn [omap list_omap].
  destruct (option_type o); [by rewrite last_snoc|by rewrite app_nil_r].
Qed.

Definition with_params (c : dhcp_client_t) (p : dhcp_params) : dhcp_client_t :=
  c <| dc_server_ip := pa_server p |> <| dc_netmask := pa_netmask p |> <| dc_router := pa_router p |>
    <| dc_dns := pa_dns p |> <| dc_lease_seconds := pa_lease p |>.

Lemma apply_options_spec c os :
  foldl apply_option (c, 0, false) os =
    (with_params c (learn (da_params (dhcp_view c)) os), message_type os,
     bool_decide (is_Some (last_ip DHCP_OPT_SERVER_ID os))).
Proof.
  induction os as [|[code d] os IH] using rev_ind; [by destruct c|].
  rewrite foldl_app, IH. cbn [foldl]. unfold learn. rewrite !last_ip_snoc, message_type_snoc.
  unfold option_ip, option_type, apply_option. cbn [fst snd].
  destruct (Z.eqb_spec code DHCP_OPT_MSG_TYPE) as [->|Hne].
  { change (DHCP_OPT_MSG_TYPE =? _) with false. cbn [andb]. by destruct d. }
  rewrite Nat.leb_antisym. destruct (length d <? 4)%nat; cbn [negb]; [by rewrite !andb_false_r|].
  rewrite !andb_true_r.
  repeat match goal with |- context [code =? ?k] => destruct (Z.eqb_spec code k) as [->|]; [by destruct c|] end.
  done.
Qed.

(** ** Fields of a reply *)

Lemma get_field_le n pkt off :
  (Z.to_nat off + n ≤ length pkt)%nat → 0 ≤ off →
  get_field n pkt off = Some (le (take n (drop (Z.to_nat off) pkt))).
Proof. intros Hl Ho. unfold get_field. rewrite aslice_in by lia. by rewrite obind_Some, Nat2Z.id. Qed.

Lemma octets_field off pkt : octets pkt → octets (take 4 (drop off pkt)).
Proof. intros H. by apply Forall_take, Forall_drop. Qed.

(** A field in network order equals [v] exactly if its bytes are those of [v]. *)
Lemma bswap32_le_iff l v : octets l → length l = 4%nat → is_u32 v → ow_bswap32 (le l) = v ↔ l = be_bytes 4 v.
Proof.
  intros Hl H4 Hv. pose proof (le_range l Hl) as Hr. rewrite H4 in Hr. change (256 ^ Z.of_nat 4) with (2 ^ 32) in Hr.
  rewrite <-bswap32_be by done. split; [intros <-|intros ->].
  - rewrite bswap32_invol by done. apply le_inj; [done|apply le_bytes_octets|by rewrite H4|].
    by rewrite le_le_bytes.
  - rewrite le_le_bytes by (by apply bswap32_range). by apply bswap32_invol.
Qed.

Lemma ip_range l : octets l → length l = 4%nat → is_u32 (le l).
Proof. intros Hl H4. pose proof (le_range l Hl) as Hr. by rewrite H4 in Hr. Qed.

Lemma bytes3 (l : list Z) n :
  (n + 3 ≤ length l)%nat →
  ∃ a b c, aget l (Z.of_nat n) = Some a ∧ aget l (Z.of_nat n + 1) = Some b ∧ aget l (Z.of_nat n + 2) = Some c ∧
    take 3 (drop n l) = [a; b; c].
Proof.
  intros Hl. replace (Z.of_nat n + 1) with (Z.of_nat (S n)) by lia. replace (Z.of_nat n + 2) with (Z.of_nat (S (S n))) by lia.
  rewrite !aget_of_nat.
  destruct (lookup_lt_is_Some_2 l n) as [a Ha]; [lia|]. destruct (lookup_lt_is_Some_2 l (S n)) as [b Hb]; [lia|].
  destruct (lookup_lt_is_Some_2 l (S (S n))) as [c Hc]; [lia|]. exists a, b, c. split_and!; [done..|].
  by rewrite (drop_lookup_cons _ _ _ Ha), (drop_lookup_cons _ _ _ Hb), (drop_lookup_cons _ _ _ Hc).
Qed.

(** ** Calls *)

Lemma learn_lease_u32 c os :
  dhcp_ok c → Forall (λ o, octets o.2) os → is_u32 (pa_lease (learn (da_params (dhcp_view c)) os)).
Proof.
  intros Hc Hos. unfold learn. cbn [pa_lease da_params dhcp_view].
  destruct (last_ip _ os) as [v|] eqn:E; [|apply Hc]. simpl. apply bswap32_range.
  unfold last_ip in E. apply last_Some_elem_of, list_elem_of_omap in E as (o & Hin & Ho).
  unfold option_ip in Ho. destruct (_ && _) eqn:Heq; [|done]. injection Ho as <-.
  apply andb_true_iff in Heq as [_ Hl%Nat.leb_le].
  apply ip_range; [|rewrite length_take; lia]. apply Forall_take. by eapply Forall_forall in Hos.
Qed.

Lemma dhcp_options_octets n l : octets l → Forall (λ o, octets o.2) (dhcp_options n l).
Proof.
  revert l. induction n as [|n IH]; intros [|code l] Hl; cbn [dhcp_options]; try constructor.
  apply Forall_cons_1 in Hl as [_ Hl]. case_if; [by apply IH|]. case_if; [constructor|].
  destruct l as [|olen l]; [constructor|]. apply Forall_cons_1 in Hl as [_ Hl].
  case_if; [constructor|]. constructor; [by apply Forall_take|]. by apply IH, Forall_drop.
Qed.

(** The three comparisons with the hardware address. *)
Lemma chaddr_test (pkt mac : list Z) :
  (31 ≤ length pkt)%nat → length mac = 6%nat →
  ∃ h0 h1 h2 m0 m1 m2,
    aget pkt off_chaddr = Some h0 ∧ aget pkt (off_chaddr + 1) = Some h1 ∧ aget pkt (off_chaddr + 2) = Some h2 ∧
    aget mac 0 = Some m0 ∧ aget mac 1 = Some m1 ∧ aget mac 2 = Some m2 ∧
    (negb (h0 =? m0) || negb (h1 =? m1) || negb (h2 =? m2) = false ↔ take 3 (drop 28 pkt) = take 3 mac).
Proof.
  intros Hp Hm. destruct (bytes3 pkt 28) as (h0 & h1 & h2 & E0 & E1 & E2 & E); [lia|].
  destruct (bytes3 mac 0) as (m0 & m1 & m2 & F0 & F1 & F2 & F); [lia|]. rewrite drop_0 in F.
  exists h0, h1, h2, m0, m1, m2. split_and!; [done..|]. rewrite E, F, !orb_false_iff, !negb_false_iff, !Z.eqb_eq.
  split; [by intros [[-> ->] ->]|]. by intros [= -> -> ->].
Qed.

(** Accepting a reply is [read_reply]. *)
Lemma dhcp_input_read c pkt len :
  dhcp_ok c → octets pkt → (552 ≤ length pkt)%nat → DHCP_MIN_MESSAGE ≤ len →
  dhcp_input (Some c) (Some pkt) len =
    match read_reply (dc_xid c) (dc_mac c) pkt with
    | None => Some (Some c, DHCP_ERR_BAD_PACKET)
    | Some r =>
        '(c, rc) ← dhcp_reply (with_params c (learn (da_params (dhcp_view c)) (rp_options r))) pkt
                     (message_type (rp_options r)) (bool_decide (is_Some (last_ip DHCP_OPT_SERVER_ID (rp_options r))));
        Some (Some c, rc)
    end.
Proof.
  intros Hc Ho Hl Hlen. unfold dhcp_input. rewrite (do_init _ Hc). cbn [negb].
  rewrite (proj2 (Z.ltb_ge _ _)) by done. rewrite (aget_to_nat pkt 0) by lia. change (Z.to_nat 0) with 0%nat.
  destruct (lookup_lt_is_Some_2 pkt 0) as [op Hop]; [lia|]. rewrite Hop, obind_Some.
  rewrite !get_field_le by (unfold off_magic, off_xid; lia). rewrite !obind_Some.
  destruct (chaddr_test pkt (dc_mac c)) as (h0 & h1 & h2 & m0 & m1 & m2 & -> & -> & -> & -> & -> & -> & Hch); [lia|apply Hc|].
  rewrite !obind_Some. unfold read_reply. rewrite Hop.
  change (Z.to_nat off_magic) with 236%nat. change (Z.to_nat off_xid) with 4%nat.
  assert (∀ o, (o ≤ 548)%nat → length (take 4 (drop o pkt)) = 4%nat) as H4 by (intros; rewrite length_take, length_drop; lia).
  pose proof (bswap32_le_iff _ DHCP_MAGIC_COOKIE (octets_field 236 _ Ho) (H4 236%nat ltac:(lia)) ltac:(done)) as Hmagic.
  pose proof (bswap32_le_iff _ (dc_xid c) (octets_field 4 _ Ho) (H4 4%nat ltac:(lia)) (do_xid _ Hc)) as Hxid.
  change (be_bytes 4 DHCP_MAGIC_COOKIE) with [99; 130; 83; 99] in Hmagic.
  destruct (Z.eqb_spec op 2) as [->|]; cbn [negb]; [|by rewrite decide_False by naive_solver].
  destruct (Z.eqb_spec (ow_bswap32 (le (take 4 (drop 236 pkt)))) DHCP_MAGIC_COOKIE) as [Em|]; cbn [negb];
    [|by rewrite decide_False by naive_solver].
  destruct (Z.eqb_spec (ow_bswap32 (le (take 4 (drop 4 pkt)))) (dc_xid c)) as [Ex|]; cbn [negb];
    [|by rewrite decide_False by naive_solver].
  destruct (_ || _ || _) eqn:Eh; [by rewrite decide_False by naive_solver|]. rewrite decide_True by naive_solver.
  rewrite (parse_options_spec pkt Hl c Ho), obind_Some, apply_options_spec.
  cbn [rp_options]. reflexivity.
Qed.

(** Only the phase, the identifier and the lease times matter to the invariant. *)
Lemma ok_same c c' :
  dhcp_ok c → dc_initialized c' = dc_initialized c → dc_mac c' = dc_mac c →
  length (dc_scratch c') = length (dc_scratch c) →
  dc_xid c' = dc_xid c → dc_lease_remaining c' = dc_lease_remaining c → dc_lease_seconds c' = dc_lease_seconds c →
  dc_state c' = dc_state c → dhcp_ok c'.
Proof. intros [] Ei Em Eb Ex Er El Es. constructor; rewrite ?Ei, ?Eb, ?Em, ?Ex, ?Er, ?El, ?Es; done. Qed.

Lemma ok_lease c c' :
  dhcp_ok c → dc_initialized c' = dc_initialized c → dc_mac c' = dc_mac c →
  length (dc_scratch c') = length (dc_scratch c) → dc_xid c' = dc_xid c → dc_state c' = DHCP_STATE_BOUND →
  0 < dc_lease_remaining c' < 2 ^ 32 → is_u32 (dc_lease_seconds c') → dhcp_ok c'.
Proof.
  intros [] Ei Em Eb Ex Es Hr Hl. constructor; rewrite ?Ei, ?Eb, ?Em, ?Ex, ?Es; try done.
  - unfold is_u32. lia.
  - set_solver.
  - lia.
Qed.

Lemma ok_idle c c' :
  dhcp_ok c → dc_initialized c' = dc_initialized c → dc_mac c' = dc_mac c →
  length (dc_scratch c') = length (dc_scratch c) → dc_xid c' = dc_xid c →
  dc_state c' = DHCP_STATE_IDLE → is_u32 (dc_lease_remaining c') → is_u32 (dc_lease_seconds c') → dhcp_ok c'.
Proof. intros [] Ei Em Eb Ex Es Hr Hl. constructor; rewrite ?Ei, ?Eb, ?Em, ?Ex, ?Es; try done. set_solver. Qed.

Lemma dhcp_input_spec c pkt len :
  dhcp_ok c → octets pkt → len < DHCP_MIN_MESSAGE ∨ (552 ≤ length pkt)%nat →
  ∃ c' rc, dhcp_input (Some c) (Some pkt) len = Some (Some c', rc) ∧ dhcp_ok c' ∧ dc_mac c' = dc_mac c ∧
    dc_udp_tx c' = dc_udp_tx c ∧ dc_udp_arg c' = dc_udp_arg c ∧
    abs_input (dc_mac c) pkt len (dhcp_view c) = (dhcp_view c', rc).
Proof.
  intros Hc Ho Hl. unfold abs_input. destruct (Z.ltb_spec len DHCP_MIN_MESSAGE) as [Hlt|Hge].
  { exists c, DHCP_ERR_BAD_PACKET. unfold dhcp_input. rewrite (do_init _ Hc), (proj2 (Z.ltb_lt _ _)) by done. done. }
  destruct Hl as [|Hl]; [lia|]. rewrite dhcp_input_read by done. cbn [da_xid dhcp_view].
  destruct (read_reply _ _ pkt) as [r|] eqn:Er; [|by exists c, DHCP_ERR_BAD_PACKET].
  assert (get_field 4 pkt off_yiaddr = Some (rp_yiaddr r) ∧ get_field 4 pkt off_siaddr = Some (rp_siaddr r) ∧
    Forall (λ o, octets o.2) (rp_options r)) as (Ey & Es & Hos).
  { unfold read_reply in Er. destruct (decide _); [|done]. apply (inj Some) in Er as <-. cbn [rp_yiaddr rp_siaddr rp_options].
    rewrite !get_field_le by (unfold off_yiaddr, off_siaddr; lia). split_and!; [done..|].
    by apply dhcp_options_octets, Forall_take, Forall_drop. }
  clear Er. pose proof (learn_lease_u32 c _ Hc Hos) as Hlease.
  unfold abs_reply. set (p := learn (da_params (dhcp_view c)) (rp_options r)) in *.
  assert (is_Some (last_ip DHCP_OPT_SERVER_ID (rp_options r)) →
          default (rp_siaddr r) (last_ip DHCP_OPT_SERVER_ID (rp_options r)) = pa_server p) as Hsrv.
  { intros [v E]. unfold p, learn. cbn [pa_server]. by rewrite E. }
  clearbody p. destruct p as [srv mask rt dns lease]. cbn [pa_lease pa_server pa_netmask pa_router pa_dns] in *.
  set (c1 := with_params c _).
  assert (dhcp_ok c1) as Hc1 by (destruct Hc; constructor; done).
  unfold dhcp_reply. rewrite Ey, Es, !obind_Some. change (dc_state c1) with (dc_state c).
  cbn [dhcp_view da_phase da_seed da_xid da_ip da_offer da_left].
  destruct (_ =? DHCPOFFER); [|destruct (_ =? DHCPACK); [|destruct (_ =? DHCPNAK)]].
  - destruct (decide (dc_state c = DHCP_STATE_SELECTING)) as [E|E].
    + rewrite bool_decide_true by done. cbn [negb]. destruct (decide (is_Some (last_ip DHCP_OPT_SERVER_ID (rp_options r)))) as [Hs|Hs].
      * rewrite bool_decide_true by done. cbn [negb]. rewrite obind_Some, Hsrv by done. eexists _, _. split; [done|].
        split; [by apply (ok_same c1)|]. by rewrite <-E.
      * rewrite bool_decide_false by done. cbn [negb]. rewrite obind_Some.
        apply eq_None_not_Some in Hs as ->. eexists _, _. split; [done|].
        split; [by apply (ok_same c1)|]. by rewrite <-E.
    + rewrite bool_decide_false by done. by exists c1, DHCP_ERR_STATE.
  - destruct (decide (dc_state c = DHCP_STATE_REQUESTING)) as [E|E].
    + rewrite bool_decide_true by done. cbn [negb andb]. rewrite obind_Some.
      change (dc_lease_seconds (c1 <| dc_client_ip := rp_yiaddr r |>)) with lease.
      destruct (Z.eqb_spec lease 0); (eexists _, _; split; [done|]; split; [|done]).
      * by apply (ok_lease c1).
      * apply (ok_lease c1); try done. unfold is_u32 in *. cbn. lia.
    + assert (dc_state c ≠ DHCP_STATE_RENEWING) as Hn by (intros En; pose proof (do_phase _ Hc) as Hp; rewrite En in Hp; set_solver).
      rewrite !bool_decide_false by done. by exists c1, DHCP_ERR_STATE.
  - eexists _, _. split; [done|]. split; [|done]. by apply (ok_idle c1).
  - by exists c1, DHCP_ERR_BAD_PACKET.
Qed.
