(* ===== verification/DhcpClaims.v ===== *)
(** The DHCP client under every sequence of calls, a whole lease from discovery
    to expiry, and the replies that make it read past the packet. *)
From S2P Require Import Prelude Tcpcore TcpSeg Dhcpcli DhcpWire DhcpSpec.

(** ** Sending *)

Lemma client_message_length xid ci mac type req srv :
  length mac = 6%nat → length (client_message xid ci mac type req srv) = 300%nat.
Proof.
  intros Hm. unfold client_message. rewrite !length_app, bootp_header_length, length_replicate by done.
  assert (length (options_bytes (client_options type req srv)) ≤ 60)%nat; [|lia].
  unfold client_options, options_bytes, ip_option. repeat case_if; simpl; lia.
Qed.

Section calls.
Context {W : Type} (call_udp_tx : Z → Z → Z → Z → Z → Z → list Z → W → W * Z).

(** A message that is built and sent. *)
Lemma build_send c type req srv :
  dhcp_ok c → ∃ buf, length buf = 576%nat ∧ dhcp_build c type req srv = Some (c <| dc_scratch := buf |>, 300) ∧
    ∀ st src dst w, udp_tx call_udp_tx (c <| dc_scratch := buf |> <| dc_state := st |>) src dst 300 w =
      Some (send call_udp_tx (dc_udp_tx c) (dc_udp_arg c) src dst
              (client_message (dc_xid c) (if type =? DHCPRELEASE then dc_client_ip c else 0)
                 (dc_mac c) type req srv) w).
Proof.
  intros Hc. destruct (dhcp_build_spec c type req srv (do_scratch _ Hc) (do_mac _ Hc) (do_xid _ Hc)) as (rest & Hr & E).
  eexists. split; [|split; [exact E|]]; [by rewrite length_app, client_message_length, Hr by apply Hc|].
  intros st src dst w. unfold udp_tx. cbn [set_field dc_scratch].
  rewrite aslice_in by (rewrite ?length_app, ?client_message_length by apply Hc; lia).
  change (Z.to_nat 0) with 0%nat. change (Z.to_nat 300) with 300%nat.
  by rewrite drop_0, take_app_length' by (symmetry; apply client_message_length, Hc).
Qed.

(** ** Every call does a step of the automaton *)

Definition dhcp_exec (op : dhcp_op) (w : W) (c : dhcp_client_t) : option (W * dhcp_client_t * Z) :=
  match op with
  | DDiscover => '(w, c, rc) ← dhcp_discover call_udp_tx (Some c) w; c ← c; Some (w, c, rc)
  | DRequest => '(w, c, rc) ← dhcp_request call_udp_tx (Some c) w; c ← c; Some (w, c, rc)
  | DRelease => '(w, c, rc) ← dhcp_release call_udp_tx (Some c) w; c ← c; Some (w, c, rc)
  | DInput pkt len => '(c, rc) ← dhcp_input (Some c) (Some pkt) len; c ← c; Some (w, c, rc)
  | DTick n => let '(c, rc) := dhcp_tick (Some c) n in c ← c; Some (w, c, rc)
  end.

(** Packets are delivered in a buffer of the full message size. *)
Definition dhcp_op_ok (op : dhcp_op) : Prop :=
  match op with
  | DInput pkt len => octets pkt ∧ (len < DHCP_MIN_MESSAGE ∨ (552 ≤ length pkt)%nat)
  | DTick n => is_u32 n
  | _ => True
  end.

(** What every call keeps. *)
Definition same_device (c c' : dhcp_client_t) : Prop :=
  dhcp_ok c' ∧ dc_mac c' = dc_mac c ∧ dc_udp_tx c' = dc_udp_tx c ∧ dc_udp_arg c' = dc_udp_arg c.

Definition steps (op : dhcp_op) (w : W) (c : dhcp_client_t) : Prop :=
  ∃ w' c' rc, dhcp_exec op w c = Some (w', c', rc) ∧ same_device c c' ∧
    dabs_exec call_udp_tx (dc_mac c) (dc_udp_tx c) (dc_udp_arg c) op w (dhcp_view c) = (w', dhcp_view c', rc).

Lemma discover_step w c : dhcp_ok c → steps DDiscover w c.
Proof.
  intros Hc. unfold steps, dhcp_exec, dhcp_discover, dhcp_next_xid. rewrite (do_init _ Hc). cbn [negb].
  destruct (aget_is_Some (dc_mac c) 5) as [b Hb]; [rewrite (do_mac _ Hc); lia|]. rewrite Hb, !obind_Some. cbv zeta.
  set (seed := u32 _). set (xid := Z.lxor _ _). set (c1 := c <| dc_seed := seed |> <| dc_xid := xid |> <| dc_offered_ip := _ |> <| dc_server_ip := _ |>).
  assert (is_u32 xid) as Hx.
  { apply lxor_u32.
    - rewrite Z.shiftr_div_pow2 by lia. pose proof (u32_range (u32 (dc_seed c * 1103515245) + 12345)). unfold u32_ok. fold seed in H. zdm.
    - apply aget_Some in Hb as [_ Hb]. eapply Forall_lookup_1 in Hb; [|apply Hc]. unfold u32_ok. simpl in Hb. lia. }
  assert (dhcp_ok c1) as Hc1 by (destruct Hc; constructor; done).
  destruct (build_send c1 DHCPDISCOVER DHCP_IP_ANY DHCP_IP_ANY Hc1) as (buf & Hl & -> & Es).
  rewrite obind_Some, Es, obind_Some. destruct (send _ _ _ _ _ _ w) as [w' rc] eqn:Esend. rewrite !obind_Some.
  eexists _, _, _. split; [done|]. split.
  - split; [|done]. destruct Hc1. constructor; try done. set_solver.
  - unfold dabs_exec, abs_discover. cbn [da_seed dhcp_view]. fold seed.
    apply aget_Some in Hb as [_ Hb]. change (Z.to_nat 5) with 5%nat in Hb. rewrite Hb. cbn [default]. fold xid.
    change (send _ _ _ _ _ _ w) with (send call_udp_tx (dc_udp_tx c1) (dc_udp_arg c1) DHCP_IP_ANY DHCP_IP_BROADCAST
      (client_message (dc_xid c1) (if DHCPDISCOVER =? DHCPRELEASE then dc_client_ip c1 else 0) (dc_mac c1) DHCPDISCOVER DHCP_IP_ANY DHCP_IP_ANY) w).
    by rewrite Esend.
Qed.

Lemma request_step w c : dhcp_ok c → steps DRequest w c.
Proof.
  intros Hc. unfold steps, dhcp_exec, dhcp_request, dabs_exec, abs_request. rewrite (do_init _ Hc). cbn [negb].
  cbn [da_phase da_offer da_params pa_server dhcp_view].
  change DHCP_IP_ANY with 0. destruct (decide _) as [(Ep & Ho & Hs)|Hn].
  - rewrite bool_decide_true, (proj2 (Z.eqb_neq _ _) Ho), (proj2 (Z.eqb_neq _ _) Hs) by done. cbn [negb orb].
    destruct (build_send c DHCPREQUEST (dc_offered_ip c) (dc_server_ip c) Hc) as (buf & Hl & -> & Es).
    rewrite obind_Some, Es, obind_Some. change (DHCPREQUEST =? DHCPRELEASE) with false. cbv iota.
    cbn [da_xid dhcp_view]. destruct (send _ _ _ _ _ _ w) as [w' rc]. rewrite !obind_Some.
    eexists _, _, _. split; [done|]. split; [|done].
    split; [|done]. destruct Hc. constructor; try done. set_solver.
  - assert (negb (bool_decide (dc_state c = DHCP_STATE_SELECTING)) || (dc_offered_ip c =? 0)
      || (dc_server_ip c =? 0) = true) as ->.
    { destruct (bool_decide _) eqn:E1; [|done]. destruct (Z.eqb_spec (dc_offered_ip c) 0); [done|].
      destruct (Z.eqb_spec (dc_server_ip c) 0); [done|]. apply bool_decide_eq_true in E1. by destruct Hn. }
    rewrite !obind_Some. by exists w, c, DHCP_ERR_STATE.
Qed.

(** A reachable client has a lease exactly in the state BOUND. *)
Lemma leased_bound c : dhcp_ok c → leased c = bool_decide (dc_state c = DHCP_STATE_BOUND).
Proof.
  intros Hc. unfold leased. rewrite (bool_decide_false (_ = DHCP_STATE_RENEWING)); [by rewrite orb_false_r|].
  intros E. pose proof (do_phase _ Hc) as H. rewrite E in H. set_solver.
Qed.

Lemma release_step w c : dhcp_ok c → steps DRelease w c.
Proof.
  intros Hc. unfold steps, dhcp_exec, dhcp_release, dabs_exec, abs_release. rewrite (do_init _ Hc), leased_bound by done.
  cbn [negb da_phase dhcp_view]. destruct (decide _) as [Ep|Hn].
  - rewrite bool_decide_true by done. cbn [negb].
    destruct (build_send c DHCPRELEASE DHCP_IP_ANY (dc_server_ip c) Hc) as (buf & Hl & -> & Es).
    rewrite obind_Some. cbn [set_field dc_client_ip dc_server_ip].
    change (mk_dhcp _ _ _ _ _ _ _ _ _ _ _ _ _ _ _ _) with (c <| dc_scratch := buf |> <| dc_state := DHCP_STATE_RELEASING |>).
    rewrite Es, obind_Some. change (DHCPRELEASE =? DHCPRELEASE) with true. cbv iota.
    cbn [da_xid da_ip da_params pa_server dhcp_view]. change DHCP_IP_ANY with 0.
    destruct (send _ _ _ _ _ _ w) as [w' rc]. rewrite !obind_Some.
    eexists _, _, _. split; [done|]. split; [|done]. split; [|done].
    eapply ok_idle; [exact Hc|..]; try done. by rewrite (do_scratch _ Hc).
  - rewrite bool_decide_false by done. cbn [negb]. rewrite !obind_Some. by exists w, c, DHCP_ERR_STATE.
Qed.

Lemma tick_step n w c : dhcp_ok c → is_u32 n → steps (DTick n) w c.
Proof.
  intros Hc Hn. unfold steps, dhcp_exec, dhcp_tick, dabs_exec, abs_tick. rewrite (do_init _ Hc), leased_bound by done.
  cbn [negb da_phase da_left dhcp_view]. destruct (decide _) as [Ep|Hp].
  - rewrite bool_decide_true by done. cbn [negb]. destruct (Z.leb_spec (dc_lease_remaining c) n) as [Hle|Hlt].
    + rewrite obind_Some. eexists _, _, _. split; [done|]. split; [|done]. split; [|done].
      eapply ok_idle; [exact Hc|..]; try done. apply Hc.
    + rewrite obind_Some. pose proof (do_left _ Hc) as Hr. unfold is_u32 in *.
      rewrite u32_small by lia. eexists _, _, _. split; [done|]. rewrite <-Ep. split; [|done].
      split; [|done]. eapply ok_lease; [exact Hc|..]; try done; [cbn; lia|apply Hc].
  - rewrite bool_decide_false by done. cbn [negb]. rewrite obind_Some. by exists w, c, DHCP_OK.
Qed.

Lemma exec_step op w c : dhcp_ok c → dhcp_op_ok op → steps op w c.
Proof.
  intros Hc Hop. destruct op as [| | |pkt len|n].
  - by apply discover_step.
  - by apply request_step.
  - by apply release_step.
  - destruct Hop as [Ho Hl]. destruct (dhcp_input_spec c pkt len Hc Ho Hl) as (c' & rc & E & Hc' & H1 & H2 & H3 & Ea).
    exists w, c', rc. unfold dhcp_exec, dabs_exec. by rewrite E, Ea, !obind_Some.
  - by apply tick_step.
Qed.

(** ** Sequences of calls *)

Fixpoint dhcp_run (ops : list dhcp_op) (w : W) (c : dhcp_client_t) : option (W * dhcp_client_t * list Z) :=
  match ops with
  | [] => Some (w, c, [])
  | op :: ops =>
      '(w, c, rc) ← dhcp_exec op w c;
      '(w, c, rcs) ← dhcp_run ops w c;
      Some (w, c, rc :: rcs)
  end.

Fixpoint dabs_run (mac : list Z) (tx arg : Z) (ops : list dhcp_op) (w : W) (a : dhcp_abs) : W * dhcp_abs * list Z :=
  match ops with
  | [] => (w, a, [])
  | op :: ops =>
      let '(w, a, rc) := dabs_exec call_udp_tx mac tx arg op w a in
      let '(w, a, rcs) := dabs_run mac tx arg ops w a in
      (w, a, rc :: rcs)
  end.

Lemma dhcp_run_spec ops : ∀ w c, dhcp_ok c → Forall dhcp_op_ok ops →
  ∃ w' c' rcs, dhcp_run ops w c = Some (w', c', rcs) ∧ same_device c c' ∧
    dabs_run (dc_mac c) (dc_udp_tx c) (dc_udp_arg c) ops w (dhcp_view c) = (w', dhcp_view c', rcs).
Proof.
  induction ops as [|op ops IH]; intros w c Hc Hops; [by exists w, c, []|].
  apply Forall_cons_1 in Hops as [Hop Hops].
  destruct (exec_step op w c Hc Hop) as (w1 & c1 & rc & E1 & (Hc1 & M1 & T1 & A1) & Ea1).
  destruct (IH w1 c1 Hc1 Hops) as (w2 & c2 & rcs & E2 & (Hc2 & M2 & T2 & A2) & Ea2).
  exists w2, c2, (rc :: rcs). cbn [dhcp_run dabs_run]. rewrite E1, obind_Some, E2, obind_Some, Ea1.
  rewrite <-M1, <-T1, <-A1, Ea2. split; [done|]. split; [|done]. unfold same_device. by rewrite M2, T2, A2.
Qed.
End calls.

Lemma dhcp_init_spec c0 mac tx arg :
  tx ≠ 0 → length mac = 6%nat → octets mac →
  ∃ c, dhcp_init (Some c0) (Some mac) tx arg = Some (Some c, DHCP_OK) ∧ dhcp_ok c ∧ dc_mac c = mac ∧
    dc_udp_tx c = tx ∧ dc_udp_arg c = arg ∧
    dhcp_view c = mk_da DHCP_STATE_IDLE (Z.lxor 0x2545F491 (default 0 (mac !! 3%nat))) 0 0 0 0 no_params.
Proof.
  intros Ht Hm Ho. unfold dhcp_init. rewrite (proj2 (Z.eqb_neq _ _) Ht).
  change 6 with (Z.of_nat 6). rewrite copy_bytes_spec, obind_Some by (simpl; lia).
  destruct (lookup_lt_is_Some_2 mac 3) as [b Hb]; [lia|]. rewrite aget_to_nat by lia.
  change (Z.to_nat 3) with 3%nat. rewrite Hb, obind_Some. cbn [dc_mac zero_dhcp].
  rewrite (firstn_all2 (n := 6) mac) by lia. change (drop 6 (replicate 6 0)) with (@nil Z). rewrite app_nil_r.
  eexists. split; [done|]. split; [|done]. constructor; try done; set_solver.
Qed.

(** ** Replies of a server *)

Definition server_reply (xid : Z) (mac : list Z) (yiaddr siaddr : Z) (os : list (Z * list Z)) : list Z :=
  bootp_header 2 xid 0 yiaddr siaddr mac ++ options_bytes os ++ replicate (312 - length (options_bytes os)) 0.

(** Options that a server can send: valid ones that fit in the field. *)
Definition options_fit (os : list (Z * list Z)) : Prop :=
  Forall option_ok os ∧ (length (options_bytes os) ≤ 312)%nat.

Lemma bootp_header_octets op xid ci yi si mac :
  0 ≤ op < 256 → octets mac → octets (bootp_header op xid ci yi si mac).
Proof.
  intros Hop Hm. unfold bootp_header, octets.
  rewrite !Forall_app. split_and!; try apply be_bytes_octets; try apply le_bytes_octets; try done;
    try (apply Forall_replicate; lia); repeat constructor; lia.
Qed.

Lemma options_bytes_octets os : Forall option_ok os → octets (options_bytes os).
Proof.
  induction 1 as [|[code d] os (Hc & Hd & Ho) _ IH]; [by repeat constructor|]. rewrite options_bytes_cons.
  apply Forall_app_2; [|done]. cbn [fst snd] in *. constructor; [|constructor; [|done]]; cbn [fst snd]; lia.
Qed.

Lemma bootp_fields op xid ci yi si mac rest :
  length mac = 6%nat → is_u32 yi → is_u32 si →
  let pkt := bootp_header op xid ci yi si mac ++ rest in
  pkt !! 0%nat = Some op ∧ take 4 (drop 236 pkt) = [99; 130; 83; 99] ∧ take 4 (drop 4 pkt) = be_bytes 4 xid ∧
  take 3 (drop 28 pkt) = take 3 mac ∧ le (take 4 (drop 16 pkt)) = yi ∧ le (take 4 (drop 20 pkt)) = si ∧ drop 240 pkt = rest.
Proof.
  intros Hm Hy Hs pkt. do 7 (destruct mac as [|? mac]; try done).
  split_and!; try done; unfold pkt, bootp_header.
  - change (le (le_bytes 4 yi) = yi). by apply le_le_bytes.
  - change (le (le_bytes 4 si) = si). by apply le_le_bytes.
Qed.

Lemma read_server_reply xid mac yi si os :
  length mac = 6%nat → octets mac → is_u32 yi → is_u32 si → options_fit os →
  let pkt := server_reply xid mac yi si os in
  octets pkt ∧ length pkt = 552%nat ∧ read_reply xid mac pkt = Some (mk_reply yi si os).
Proof.
  intros Hm Hmo Hy Hs [Hos Hl] pkt. unfold pkt, server_reply. split_and!.
  - apply Forall_app_2; [by apply bootp_header_octets|]. apply Forall_app_2; [by apply options_bytes_octets|].
    apply Forall_replicate. lia.
  - rewrite !length_app, bootp_header_length, length_replicate by done. lia.
  - destruct (bootp_fields 2 xid 0 yi si mac (options_bytes os ++ replicate (312 - length (options_bytes os)) 0) Hm Hy Hs)
      as (H0 & H1 & H2 & H3 & H4 & H5 & H6).
    unfold read_reply, options_field. rewrite decide_True by done. rewrite H4, H5, H6.
    rewrite firstn_all2 by (rewrite length_app, length_replicate; lia).
    by rewrite options_roundtrip by (done || lia).
Qed.

(** ** A lease *)

(** The identifier of the next transaction. *)
Definition next_xid (c : dhcp_client_t) : Z :=
  Z.lxor (Z.shiftr (u32 (u32 (dc_seed c * 1103515245) + 12345)) 8) (default 0 (dc_mac c !! 5%nat)).

Definition bound_to (c : dhcp_client_t) (ip left : Z) : Prop :=
  dc_state c = DHCP_STATE_BOUND ∧ dc_client_ip c = ip ∧ dc_lease_remaining c = left.

(** The seconds of a list of ticks. *)
Definition elapsed (ts : list Z) : Z := foldr Z.add 0 ts.

Lemma idle_ticks mac tx arg {W} (call : Z → Z → Z → Z → Z → Z → list Z → W → W * Z) ts w a :
  da_phase a ≠ DHCP_STATE_BOUND → (dabs_run call mac tx arg (DTick <$> ts) w a).1 = (w, a).
Proof.
  intros Ha. induction ts as [|t ts IH]; [done|]. cbn [fmap list_fmap dabs_run dabs_exec].
  unfold abs_tick. rewrite decide_False by done. by destruct (dabs_run _ _ _ _ _ w a) as [[w' a'] rcs].
Qed.

Lemma bound_ticks mac tx arg {W} (call : Z → Z → Z → Z → Z → Z → list Z → W → W * Z) ts : ∀ w a,
  da_phase a = DHCP_STATE_BOUND → Forall is_u32 ts → 0 < da_left a →
  ∃ a', (dabs_run call mac tx arg (DTick <$> ts) w a).1 = (w, a') ∧
    if elapsed ts <? da_left a then da_phase a' = DHCP_STATE_BOUND ∧ da_ip a' = da_ip a ∧ da_left a' = da_left a - elapsed ts
    else da_phase a' = DHCP_STATE_IDLE ∧ da_ip a' = 0.
Proof.
  induction ts as [|t ts IH]; intros w a Hp Hts Hpos.
  { exists a. split; [done|]. cbn [elapsed foldr]. rewrite (proj2 (Z.ltb_lt _ _)) by done. split_and!; [done..|lia]. }
  apply Forall_cons_1 in Hts as [Ht Hts]. cbn [fmap list_fmap dabs_run dabs_exec elapsed foldr]. fold (elapsed ts).
  assert (0 ≤ elapsed ts) as He by (clear -Hts; induction Hts; cbn [elapsed foldr]; unfold is_u32, elapsed in *; lia).
  unfold is_u32 in Ht. unfold abs_tick. rewrite decide_True by done. destruct (Z.leb_spec (da_left a) t).
  - rewrite (proj2 (Z.ltb_ge _ _)) by lia. set (a1 := mk_da _ _ _ _ _ _ _).
    pose proof (idle_ticks mac tx arg call ts w a1 ltac:(done)) as E.
    destruct (dabs_run _ _ _ _ _ w a1) as [[w' a'] rcs]. injection E as -> ->. by exists a1.
  - set (a1 := mk_da _ _ _ _ _ _ _). destruct (IH w a1 eq_refl Hts) as (a' & E & H'); [cbn; lia|].
    destruct (dabs_run _ _ _ _ _ w a1) as [[w' a''] rcs]. injection E as -> ->. exists a'. split; [done|].
    cbn [da_left da_ip a1] in H'. destruct (Z.ltb_spec (elapsed ts) (da_left a - t)).
    + rewrite (proj2 (Z.ltb_lt _ _)) by lia. destruct H' as (H1 & H2 & H3). split_and!; [done..|lia].
    + by rewrite (proj2 (Z.ltb_ge _ _)) by lia.
Qed.

(** The DHCP client is a protocol automaton: after [dhcp_init], every
    sequence of discoveries, requests, releases, ticks and received packets of
    the full message size, with any bytes, returns without leaving an array;
    every status, every transmitted message and the resulting state, lease and
    parameters are those of the automaton that works on messages, in which the
    last occurrence of an option counts. *)
Theorem dhcp_refines_protocol {W} (call_udp_tx : Z → Z → Z → Z → Z → Z → list Z → W → W * Z) c0 mac tx arg ops w :
  tx ≠ 0 → length mac = 6%nat → octets mac → Forall dhcp_op_ok ops →
  ∃ c w' c' rcs, dhcp_init (Some c0) (Some mac) tx arg = Some (Some c, DHCP_OK) ∧
    dhcp_run call_udp_tx ops w c = Some (w', c', rcs) ∧ dhcp_ok c' ∧
    dabs_run call_udp_tx mac tx arg ops w
      (mk_da DHCP_STATE_IDLE (Z.lxor 0x2545F491 (default 0 (mac !! 3%nat))) 0 0 0 0 no_params) = (w', dhcp_view c', rcs).
Proof.
  intros Ht Hm Ho Hops. destruct (dhcp_init_spec c0 mac tx arg Ht Hm Ho) as (c & E & Hc & <- & <- & <- & <-).
  destruct (dhcp_run_spec call_udp_tx ops w c Hc Hops) as (w' & c' & rcs & Er & [Hc' _] & Ea). by exists c, w', c', rcs.
Qed.

(** The automaton on the four steps that acquire a lease. *)
Lemma dabs_lease {W} (call : Z → Z → Z → Z → Z → Z → list Z → W → W * Z) mac tx arg a p1 p2 offer ack ip1 ip2 si1 si2 server lease w w1 rc1 w2 rc2 :
  let xid := Z.lxor (Z.shiftr (u32 (u32 (da_seed a * 1103515245) + 12345)) 8) (default 0 (mac !! 5%nat)) in
  ip1 ≠ 0 → server ≠ 0 → 0 < lease < 2 ^ 32 →
  read_reply xid mac p1 = Some (mk_reply ip1 si1 offer) → read_reply xid mac p2 = Some (mk_reply ip2 si2 ack) →
  message_type offer = DHCPOFFER → message_type ack = DHCPACK →
  last_ip DHCP_OPT_SERVER_ID offer = Some server → last_ip DHCP_OPT_LEASE_TIME ack = Some (ow_bswap32 lease) →
  send call tx arg 0 DHCP_IP_BROADCAST (client_message xid 0 mac DHCPDISCOVER 0 0) w = (w1, rc1) →
  send call tx arg 0 DHCP_IP_BROADCAST (client_message xid 0 mac DHCPREQUEST ip1 server) w1 = (w2, rc2) →
  ∃ a', dabs_run call mac tx arg [DDiscover; DInput p1 552; DRequest; DInput p2 552] w a =
      (w2, a', [rc1; DHCP_OK; rc2; DHCP_OK]) ∧
    da_phase a' = DHCP_STATE_BOUND ∧ da_ip a' = ip2 ∧ da_left a' = lease.
Proof.
  intros xid Hip Hsrv Hl R1 R2 To Ta Es El E1 E2. cbn [dabs_run dabs_exec]. unfold abs_discover. fold xid. rewrite E1.
  unfold abs_input. change (552 <? DHCP_MIN_MESSAGE) with false. cbv iota. cbn [da_xid]. rewrite R1.
  unfold abs_reply at 1. cbn [rp_options rp_yiaddr rp_siaddr da_phase da_seed da_xid da_ip da_left]. rewrite To, Es.
  change (DHCPOFFER =? DHCPOFFER) with true. change (default si1 (Some server)) with server. rewrite decide_True by done.
  unfold abs_request. cbn [da_phase da_offer da_params pa_server da_seed da_xid da_ip da_left]. rewrite decide_True by done.
  rewrite E2. cbn [da_xid]. rewrite R2.
  unfold abs_reply. cbn [rp_options rp_yiaddr rp_siaddr da_phase da_seed da_xid da_ip da_left da_offer da_params]. rewrite Ta.
  change (DHCPACK =? DHCPOFFER) with false. change (DHCPACK =? DHCPACK) with true. cbv iota. rewrite decide_True by done.
  assert (∀ p, pa_lease (learn p ack) = lease) as Hle.
  { intros p. unfold learn. cbn [pa_lease]. rewrite El. change (ow_bswap32 (ow_bswap32 lease) = lease). apply bswap32_invol. lia. }
  rewrite !Hle, (proj2 (Z.eqb_neq _ _)) by lia. by eexists.
Qed.

(** [C26] A lease from discovery to expiry: a client in any reachable state that
    discovers, gets an offer, requests it and gets an acknowledgement (replies
    of the server to its transaction, as the specification lays them out)
    broadcasts exactly the DISCOVER and the REQUEST for the offered address, is
    then bound to the acknowledged address for the acknowledged time, whatever
    other options the replies carry, stays bound, with the rest of the time
    and without sending anything, while the ticks add up to less, and has no
    address and no lease any more once they do not. *)
Theorem dhcp_lease_acquired {W} (call_udp_tx : Z → Z → Z → Z → Z → Z → list Z → W → W * Z) c offer ack ip1 ip2 si1 si2 server lease w :
  dhcp_ok c → is_u32 ip1 → is_u32 ip2 → is_u32 si1 → is_u32 si2 → ip1 ≠ 0 → server ≠ 0 → 0 < lease < 2 ^ 32 →
  options_fit offer → options_fit ack → message_type offer = DHCPOFFER → message_type ack = DHCPACK →
  last_ip DHCP_OPT_SERVER_ID offer = Some server → last_ip DHCP_OPT_LEASE_TIME ack = Some (ow_bswap32 lease) →
  let xid := next_xid c in
  let mac := dc_mac c in
  let '(w1, rc1) := send call_udp_tx (dc_udp_tx c) (dc_udp_arg c) 0 DHCP_IP_BROADCAST
                      (client_message xid 0 mac DHCPDISCOVER 0 0) w in
  let '(w2, rc2) := send call_udp_tx (dc_udp_tx c) (dc_udp_arg c) 0 DHCP_IP_BROADCAST
                      (client_message xid 0 mac DHCPREQUEST ip1 server) w1 in
  ∃ c', dhcp_run call_udp_tx
          [DDiscover; DInput (server_reply xid mac ip1 si1 offer) 552; DRequest; DInput (server_reply xid mac ip2 si2 ack) 552] w c =
        Some (w2, c', [rc1; DHCP_OK; rc2; DHCP_OK]) ∧ bound_to c' ip2 lease ∧
    ∀ ts, Forall is_u32 ts → ∃ w3 c'' rcs, dhcp_run call_udp_tx (DTick <$> ts) w2 c' = Some (w3, c'', rcs) ∧
      if elapsed ts <? lease then w3 = w2 ∧ bound_to c'' ip2 (lease - elapsed ts)
      else dc_client_ip c'' = 0 ∧ leased c'' = false.
Proof.
  intros Hc H1 H2 Hs1 Hs2 Hip Hsrv Hl Hof Hac To Ta Es El xid mac.
  destruct (read_server_reply xid mac ip1 si1 offer (do_mac _ Hc) (do_octets _ Hc) H1 Hs1 Hof) as (Ho1 & Hl1 & R1).
  destruct (read_server_reply xid mac ip2 si2 ack (do_mac _ Hc) (do_octets _ Hc) H2 Hs2 Hac) as (Ho2 & Hl2 & R2).
  set (p1 := server_reply xid mac ip1 si1 offer) in *. set (p2 := server_reply xid mac ip2 si2 ack) in *. clearbody p1 p2.
  destruct (send _ _ _ _ _ _ w) as [w1 rc1] eqn:E1. destruct (send _ _ _ _ _ _ w1) as [w2 rc2] eqn:E2.
  assert (dhcp_op_ok (DInput p1 552) ∧ dhcp_op_ok (DInput p2 552)) as [Hop1 Hop2]
    by (split; (split; [done|right; lia])).
  destruct (dhcp_run_spec call_udp_tx [DDiscover; DInput p1 552; DRequest; DInput p2 552] w c Hc)
    as (w' & c' & rcs & Er & (Hc' & M & T & A) & Ea); [by repeat apply Forall_cons_2|].
  destruct (dabs_lease call_udp_tx mac (dc_udp_tx c) (dc_udp_arg c) (dhcp_view c) p1 p2 offer ack ip1 ip2 si1 si2 server
    lease w w1 rc1 w2 rc2) as (a' & Ea' & Hp & Hi & Hle); [done..|].
  unfold mac in Ea'. rewrite Ea in Ea'. injection Ea' as -> <- ->. exists c'. split; [done|]. split; [done|].
  intros ts Hts. destruct (dhcp_run_spec call_udp_tx (DTick <$> ts) w2 c' Hc') as (w3 & c3 & rcs3 & Er3 & _ & Ea3).
  { apply Forall_fmap. by eapply Forall_impl. }
  destruct (bound_ticks (dc_mac c') (dc_udp_tx c') (dc_udp_arg c') call_udp_tx ts w2 (dhcp_view c') Hp Hts) as (a3 & E3 & H3); [lia|].
  rewrite Ea3 in E3. injection E3 as -> <-. exists w2, c3, rcs3. split; [done|]. rewrite Hle, Hi in H3.
  destruct (elapsed ts <? lease); [done|]. destruct H3 as [Hst Hip0]. cbn in Hst, Hip0. unfold leased. by rewrite Hst.
Qed.

(** ** Where an address comes from *)

(** An acknowledgement of the transaction [xid] for the address [ip]: a
    BOOTREPLY with the magic cookie, the identifier, the address as yiaddr and
    the message type DHCPACK. *)
Definition ack_packet (xid : Z) (pkt : list Z) (ip : Z) : Prop :=
  pkt !! 0%nat = Some 2 ∧ take 4 (drop 236 pkt) = [99; 130; 83; 99] ∧ take 4 (drop 4 pkt) = be_bytes 4 xid ∧
  le (take 4 (drop 16 pkt)) = ip ∧ message_type (dhcp_options 313 (options_field pkt)) = DHCPACK.

(** The client holds an address or counts as bound. *)
Definition holds (ip : Z) (st : dhcp_state_t) : Prop := ip ≠ 0 ∨ st = DHCP_STATE_BOUND.

Lemma read_reply_fields xid mac pkt r :
  read_reply xid mac pkt = Some r → message_type (rp_options r) = DHCPACK → ack_packet xid pkt (rp_yiaddr r).
Proof.
  unfold read_reply, ack_packet. generalize (dhcp_options 313 (options_field pkt)). intros os.
  case_decide as Hd; [|done]. intros [= <-] Ht. destruct Hd as (H1 & H2 & H3 & _). done.
Qed.

Lemma abs_reply_held a r a' rc :
  abs_reply a r = (a', rc) → holds (da_ip a') (da_phase a') →
  (da_phase a = DHCP_STATE_REQUESTING ∧ message_type (rp_options r) = DHCPACK ∧ da_ip a' = rp_yiaddr r) ∨
  (holds (da_ip a) (da_phase a) ∧ da_ip a' = da_ip a).
Proof.
  unfold abs_reply. destruct (_ =? DHCPOFFER).
  { case_decide as Ep; intros [= <- _]; [|by right]. rewrite Ep. by right. }
  destruct (Z.eqb_spec (message_type (rp_options r)) DHCPACK).
  { case_decide; intros [= <- _]; [by left|by right]. }
  destruct (_ =? DHCPNAK); intros [= <- _]; [|by right]. by intros [|].
Qed.

Lemma abs_input_held mac pkt len a a' rc :
  abs_input mac pkt len a = (a', rc) → holds (da_ip a') (da_phase a') →
  (DHCP_MIN_MESSAGE ≤ len ∧ da_phase a = DHCP_STATE_REQUESTING ∧ ack_packet (da_xid a) pkt (da_ip a')) ∨
  (holds (da_ip a) (da_phase a) ∧ da_ip a' = da_ip a).
Proof.
  unfold abs_input. destruct (Z.ltb_spec len DHCP_MIN_MESSAGE) as [|Hl]; [intros [= <- _]; by right|].
  destruct (read_reply (da_xid a) mac pkt) as [r|] eqn:Er; [|intros [= <- _]; by right]. intros E Hh.
  destruct (abs_reply_held _ _ _ _ E Hh) as [(Hp & Ht & ->)|?]; [left|by right].
  split_and!; [done|done|]. by eapply read_reply_fields.
Qed.

Lemma dabs_exec_held {W} (call : Z → Z → Z → Z → Z → Z → list Z → W → W * Z) mac tx arg op w a w' a' rc :
  dabs_exec call mac tx arg op w a = (w', a', rc) → holds (da_ip a') (da_phase a') →
  (∃ pkt len, op = DInput pkt len ∧ DHCP_MIN_MESSAGE ≤ len ∧ da_phase a = DHCP_STATE_REQUESTING ∧
     ack_packet (da_xid a) pkt (da_ip a')) ∨
  (holds (da_ip a) (da_phase a) ∧ da_ip a' = da_ip a).
Proof.
  intros E Hh. destruct op as [| | |pkt len|n]; cbn [dabs_exec] in E.
  - right. unfold abs_discover in E. destruct (send _ _ _ _ _ _ w). injection E as _ <- _.
    cbn [da_ip da_phase] in *. split; [|done]. destruct Hh; [by left|done].
  - right. unfold abs_request in E. case_decide as Hp; [|by simplify_eq]. destruct (send _ _ _ _ _ _ w). injection E as _ <- _.
    cbn [da_ip da_phase] in *. split; [|done]. destruct Hh; [by left|done].
  - right. unfold abs_release in E. case_decide; [|by simplify_eq]. destruct (send _ _ _ _ _ _ w). injection E as _ <- _.
    by destruct Hh.
  - destruct (abs_input mac pkt len a) as [a1 rc1] eqn:Ei. injection E as _ <- _.
    destruct (abs_input_held _ _ _ _ _ _ Ei Hh) as [?|?]; [left; by exists pkt, len|by right].
  - right. injection E as _ <- _. unfold abs_tick in *. case_decide as Hp; [|done]. case_match; [by destruct Hh|].
    split; [by right|done].
Qed.

(** A run after which the client holds an address contains the packet that
    acknowledged it, received while the client was requesting. *)
Definition acknowledged {W} (call : Z → Z → Z → Z → Z → Z → list Z → W → W * Z) ops w c ip : Prop :=
  ∃ ops1 pkt len ops2 w1 c1 rcs1, ops = ops1 ++ DInput pkt len :: ops2 ∧
    dhcp_run call ops1 w c = Some (w1, c1, rcs1) ∧ DHCP_MIN_MESSAGE ≤ len ∧
    dc_state c1 = DHCP_STATE_REQUESTING ∧ ack_packet (dc_xid c1) pkt ip.

Lemma dhcp_run_held {W} (call : Z → Z → Z → Z → Z → Z → list Z → W → W * Z) ops : ∀ w c w' c' rcs,
  dhcp_ok c → Forall dhcp_op_ok ops → dhcp_run call ops w c = Some (w', c', rcs) →
  holds (dc_client_ip c') (dc_state c') →
  acknowledged call ops w c (dc_client_ip c') ∨
  (holds (dc_client_ip c) (dc_state c) ∧ dc_client_ip c' = dc_client_ip c).
Proof.
  induction ops as [|op ops IH]; intros w c w' c' rcs Hc Hops E Hh; [injection E as _ <- _; by right|].
  apply Forall_cons_1 in Hops as [Hop Hops].
  destruct (exec_step call op w c Hc Hop) as (w1 & c1 & rc & E1 & (Hc1 & _) & Ea).
  cbn [dhcp_run] in E. rewrite E1, obind_Some in E. apply bind_Some in E as ([[w2 c2] rcs2] & E2 & [= -> -> <-]).
  destruct (IH _ _ _ _ _ Hc1 Hops E2 Hh) as [(ops1 & pkt & len & ops2 & w3 & c3 & rcs3 & -> & E3 & Hk)|[Hh1 Eip]].
  - left. exists (op :: ops1), pkt, len, ops2, w3, c3, (rc :: rcs3). cbn [dhcp_run]. by rewrite E1, obind_Some, E3, obind_Some.
  - destruct (dabs_exec_held _ _ _ _ _ _ _ _ _ _ Ea Hh1) as [(pkt & len & -> & Hl & Hst & Hk)|[Hh0 Eip0]].
    + left. exists [], pkt, len, ops, w, c, []. rewrite Eip. by split_and!.
    + right. split; [done|]. rewrite Eip. exact Eip0.
Qed.

(** [C40] An address is held only on an acknowledgement: after [dhcp_init],
    every sequence of discoveries, requests, releases, ticks and received
    packets, with any bytes, in buffers of the full message size of 552 bytes,
    returns without leaving an array and leaves a well-formed client (a bound
    one with lease time left); and when the client then has an address or is
    bound, one of the packets, received while it was requesting, was a
    BOOTREPLY with the magic cookie and the identifier of its transaction at
    that moment, of type DHCPACK and with exactly that address. *)
Theorem dhcp_address_acknowledged {W} (call_udp_tx : Z → Z → Z → Z → Z → Z → list Z → W → W * Z) c0 mac tx arg ops w :
  tx ≠ 0 → length mac = 6%nat → octets mac → Forall dhcp_op_ok ops →
  ∃ c w' c' rcs, dhcp_init (Some c0) (Some mac) tx arg = Some (Some c, DHCP_OK) ∧
    dhcp_run call_udp_tx ops w c = Some (w', c', rcs) ∧ dhcp_ok c' ∧
    (holds (dc_client_ip c') (dc_state c') → acknowledged call_udp_tx ops w c (dc_client_ip c')).
Proof.
  intros Ht Hm Ho Hops. destruct (dhcp_init_spec c0 mac tx arg Ht Hm Ho) as (c & E & Hc & _ & _ & _ & Ev).
  destruct (dhcp_run_spec call_udp_tx ops w c Hc Hops) as (w' & c' & rcs & Er & [Hc' _] & _).
  exists c, w', c', rcs. split_and!; try done. intros Hh.
  destruct (dhcp_run_held call_udp_tx ops w c w' c' rcs Hc Hops Er Hh) as [?|[H0 _]]; [done|].
  exfalso. injection Ev as Es _ _ Ei _ _ _. rewrite Es, Ei in H0. by destruct H0.
Qed.

(** ** Reading past a reply *)

Lemma options_loop_overread pkt fuel i st :
  (length pkt < 552)%nat → 0 ≤ i → 240 + i ≤ Z.of_nat (length pkt) → (∀ j, 240 + i ≤ j < Z.of_nat (length pkt) → aget pkt j = Some 0) →
  Z.of_nat (length pkt) - 240 - i < Z.of_nat fuel → options_loop fuel pkt i st = None.
Proof.
  intros Hl. revert i. induction fuel as [|fuel IH]; intros i Hi Hb Hz Hf; [done|]. cbn [options_loop].
  rewrite (proj2 (Z.ltb_lt _ _)) by (unfold sizeof_options; lia). unfold off_options in *.
  destruct (decide (240 + i = Z.of_nat (length pkt))) as [->|Hne]; [by rewrite (aget_ge pkt (Z.of_nat (length pkt))) by lia|].
  rewrite (Hz (240 + i)), obind_Some by lia. change (0 =? DHCP_OPT_PAD) with true. cbv iota.
  apply IH; [lia|lia| |lia]. intros j Hj. apply Hz. lia.
Qed.

(** A reply may be shorter than the structure that [dhcp_input] reads: the
    length is checked against 300 bytes, but the options are read up to byte
    552.  A reply to the current transaction that is accepted by its length and
    whose options are all padding makes the client read past the packet. *)
Theorem dhcp_short_reply_overread c yiaddr siaddr n :
  dhcp_ok c → (60 ≤ n < 312)%nat → is_u32 yiaddr → is_u32 siaddr →
  let pkt := bootp_header 2 (dc_xid c) 0 yiaddr siaddr (dc_mac c) ++ replicate n 0 in
  DHCP_MIN_MESSAGE ≤ Z.of_nat (length pkt) ∧ dhcp_input (Some c) (Some pkt) (Z.of_nat (length pkt)) = None.
Proof.
  intros Hc Hn Hy Hs pkt.
  destruct (bootp_fields 2 (dc_xid c) 0 yiaddr siaddr (dc_mac c) (replicate n 0) (do_mac _ Hc) Hy Hs)
    as (H0 & Hm & Hx & Hch & _ & _ & Hd). fold pkt in H0, Hm, Hx, Hch, Hd.
  assert (length pkt = (240 + n)%nat) as Hl
    by (unfold pkt; rewrite length_app, bootp_header_length, length_replicate by apply Hc; done).
  unfold DHCP_MIN_MESSAGE. split; [lia|]. unfold dhcp_input. rewrite (do_init _ Hc). cbn [negb].
  rewrite (proj2 (Z.ltb_ge _ _)) by (unfold DHCP_MIN_MESSAGE; lia).
  rewrite (aget_to_nat pkt 0) by lia. change (Z.to_nat 0) with 0%nat. rewrite H0, obind_Some. cbn [Z.eqb Pos.eqb negb].
  rewrite !get_field_le by (unfold off_magic, off_xid; lia). rewrite !obind_Some.
  destruct (chaddr_test pkt (dc_mac c)) as (h0 & h1 & h2 & m0 & m1 & m2 & -> & -> & -> & -> & -> & -> & Ht); [lia|apply Hc|].
  rewrite !obind_Some, (proj2 Ht) by done.
  change (Z.to_nat off_magic) with 236%nat. change (Z.to_nat off_xid) with 4%nat. rewrite Hm, Hx.
  change (ow_bswap32 (le [99; 130; 83; 99]) =? DHCP_MAGIC_COOKIE) with true.
  rewrite (proj2 (bswap32_le_iff (be_bytes 4 (dc_xid c)) (dc_xid c) (be_bytes_octets _ _) eq_refl (do_xid _ Hc)) eq_refl).
  rewrite Z.eqb_refl. cbn [negb]. unfold dhcp_parse_options, sizeof_options. rewrite options_loop_overread; [done|lia..| |lia].
  intros j Hj. rewrite aget_to_nat by lia. replace (Z.to_nat j) with (240 + (Z.to_nat j - 240))%nat by lia.
  rewrite <-lookup_drop, Hd. apply lookup_replicate_2. lia.
Qed.

(** ** Witnesses *)
Module DhcpSample.
(** The world is the list of messages that were sent. *)
Definition world := list (Z * Z * list Z).
Definition on_tx (_ _ src _ dst _ : Z) (m : list Z) (w : world) : world * Z := (w ++ [(src, dst, m)], DHCP_OK).
Definition mac : list Z := [2; 0; 0; 0; 0; 1].
Definition blank : dhcp_client_t := zero_dhcp.
Definition fresh : dhcp_client_t := default zero_dhcp (r ← dhcp_init (Some blank) (Some mac) 7 0; r.1).
(** Server 10.0.0.1 offers 10.0.0.5 for 600 seconds. *)
Definition offer : list (Z * list Z) := [(53, [2]); (54, [10; 0; 0; 1])].
Definition ack : list (Z * list Z) := [(53, [5]); (1, [255; 0; 0; 0]); (51, [0; 0; 2; 88])].
Definition server : Z := 0x0100000A.
Definition addr : Z := 0x0500000A.

Lemma fresh_ok : dhcp_ok fresh.
Proof.
  destruct (dhcp_init_spec blank mac 7 0) as (c & E & Hc & _); [done..|repeat constructor; lia|].
  assert (fresh = c) as -> by (unfold fresh; rewrite E; done). done.
Qed.

Lemma offer_fits : options_fit offer.
Proof. split; [repeat constructor; by vm_compute|vm_compute; lia]. Qed.
Lemma ack_fits : options_fit ack.
Proof. split; [repeat constructor; by vm_compute|vm_compute; lia]. Qed.
End DhcpSample.
Import DhcpSample.

Lemma dhcp_refines_protocol_witness :
  ∃ c w' c' rcs, dhcp_init (Some blank) (Some mac) 7 0 = Some (Some c, DHCP_OK) ∧
    dhcp_run on_tx [DRequest; DDiscover; DTick 5; DRelease] [] c = Some (w', c', rcs) ∧ dhcp_ok c' ∧
    dabs_run on_tx mac 7 0 [DRequest; DDiscover; DTick 5; DRelease] []
      (mk_da DHCP_STATE_IDLE (Z.lxor 0x2545F491 (default 0 (mac !! 3%nat))) 0 0 0 0 no_params) = (w', dhcp_view c', rcs).
Proof.
  apply (dhcp_refines_protocol on_tx blank mac 7 0 [DRequest; DDiscover; DTick 5; DRelease] []).
  - lia.
  - reflexivity.
  - repeat constructor; lia.
  - repeat constructor; lia.
Defined.

Lemma dhcp_lease_acquired_witness :
  ∃ w c', dhcp_run on_tx
      [DDiscover; DInput (server_reply (next_xid fresh) (dc_mac fresh) addr 0 offer) 552; DRequest;
       DInput (server_reply (next_xid fresh) (dc_mac fresh) addr 0 ack) 552] [] fresh =
      Some (w, c', [DHCP_OK; DHCP_OK; DHCP_OK; DHCP_OK]) ∧ bound_to c' addr 600.
Proof.
  pose proof (dhcp_lease_acquired on_tx fresh offer ack addr addr 0 0 server 600 [] fresh_ok
    ltac:(by vm_compute) ltac:(by vm_compute) ltac:(by vm_compute) ltac:(by vm_compute) ltac:(by vm_compute)
    ltac:(by vm_compute) ltac:(by vm_compute) offer_fits ack_fits eq_refl eq_refl eq_refl eq_refl) as H.
  cbv zeta in H. unfold send, on_tx at 1 2 in H. cbv beta iota in H. destruct H as (c' & E & Hb & _).
  eexists _, c'. split; [exact E|exact Hb].
Defined.

Definition lease_ops : list dhcp_op :=
  [DDiscover; DInput (server_reply (next_xid fresh) mac addr 0 offer) 552; DRequest;
   DInput (server_reply (next_xid fresh) mac addr 0 ack) 552; DTick 5].

Lemma lease_ops_ok : Forall dhcp_op_ok lease_ops.
Proof.
  assert (∀ os, options_fit os → dhcp_op_ok (DInput (server_reply (next_xid fresh) mac addr 0 os) 552)) as H.
  { intros os Hos. destruct (read_server_reply (next_xid fresh) mac addr 0 os) as (Ho & Hl & _);
      [done|repeat constructor; lia|by vm_compute|by vm_compute|done|]. split; [done|]. right. by rewrite Hl. }
  pose proof (H offer offer_fits). pose proof (H ack ack_fits). by repeat apply Forall_cons_2.
Qed.

Lemma dhcp_address_acknowledged_witness :
  ∃ c w' c' rcs, dhcp_init (Some blank) (Some mac) 7 0 = Some (Some c, DHCP_OK) ∧
    dhcp_run on_tx lease_ops [] c = Some (w', c', rcs) ∧ bound_to c' addr 595 ∧
    acknowledged on_tx lease_ops [] c addr.
Proof.
  destruct (dhcp_address_acknowledged on_tx blank mac 7 0 lease_ops []) as (c & w' & c' & rcs & Ei & Er & Hc & Hk);
    [lia|reflexivity|repeat constructor; lia|exact lease_ops_ok|].
  exists c, w', c', rcs. split; [exact Ei|]. split; [exact Er|].
  assert (c = fresh) as Ef by (unfold fresh; rewrite Ei; reflexivity).
  assert ((λ r, (dc_state r.1.2, dc_client_ip r.1.2, dc_lease_remaining r.1.2)) <$> dhcp_run on_tx lease_ops [] fresh =
    Some (DHCP_STATE_BOUND, addr, 595)) as Ev by (vm_compute; reflexivity).
  rewrite <-Ef, Er in Ev. injection Ev as E1 E2 E3. rewrite E1, E2 in Hk.
  split; [exact (conj E1 (conj E2 E3))|]. apply Hk. right. reflexivity.
Defined.

Lemma dhcp_short_reply_overread_witness :
  let pkt := bootp_header 2 (dc_xid fresh) 0 addr 0 (dc_mac fresh) ++ replicate 60 0 in
  DHCP_MIN_MESSAGE ≤ Z.of_nat (length pkt) ∧ dhcp_input (Some fresh) (Some pkt) (Z.of_nat (length pkt)) = None.
Proof. apply (dhcp_short_reply_overread fresh addr 0 60 fresh_ok); [lia|vm_compute; done|vm_compute; done]. Defined.
