(* ===== verification/Dnscli.v ===== *)
(** The DNS resolver (src/Drivers/dnscli/dnscli.c, dnscli.h): builds queries for
    A records, sends them through a UDP hook, parses responses and keeps a cache
    of sixteen names.

    A pointer to a C string is the bytes of the buffer it points into, with the
    terminator somewhere in them; reading past the buffer is undefined
    behaviour, and so is a loop that does not find the terminator.  Bytes of
    names are compared as unsigned values, which agrees with the source because
    only letters are mapped.  The hook is interpreted by a section variable on a
    world [W]. *)
From S2P Require Import Prelude Tcpcore.

(** ** Constants *)
Definition DNS_OK : Z := 0x00000000.
Definition DNS_ERR_PARAM : Z := 0x00000001.
Definition DNS_ERR_NOT_READY : Z := 0x00000002.
Definition DNS_ERR_NO_SERVER : Z := 0x00000003.
Definition DNS_ERR_NAME : Z := 0x00000004.
Definition DNS_ERR_PENDING : Z := 0x00000005.
Definition DNS_ERR_TRUNCATED : Z := 0x00000006.
Definition DNS_ERR_RCODE : Z := 0x00000007.
Definition DNS_ERR_NXDOMAIN : Z := 0x00000008.
Definition DNS_ERR_NO_DATA : Z := 0x00000009.
Definition DNS_ERR_BAD_PACKET : Z := 0x0000000A.

Definition DNS_PORT : Z := 53.
Definition DNS_TYPE_A : Z := 1.
Definition DNS_CLASS_IN : Z := 1.
Definition DNS_HEADER_LEN : Z := 12.

Definition DNS_MAX_NAME : Z := 128.
Definition DNS_CACHE_MAX : Z := 16.
Definition DNS_MSG_MAX : Z := 512.

(** ** Data *)
Record dns_cache_entry_t := mk_dns_entry {
  de_name : list Z;                      (* [DNS_MAX_NAME] *)
  de_ip : Z;
  de_ttl : Z;
  de_age : Z;
  de_valid : bool
}.
#[export] Instance eta_dns_entry : Eta dns_cache_entry_t := λ e,
  mk_dns_entry (de_name e) (de_ip e) (de_ttl e) (de_age e) (de_valid e).

Record dns_resolver_t := mk_dns {
  dr_server_ip : Z;
  dr_server_port : Z;
  dr_next_id : Z;
  dr_id_seed : Z;
  dr_initialized : bool;
  dr_udp_tx : Z;                         (* function pointer, 0 is NULL *)
  dr_udp_ctx : Z;
  dr_pending_id : Z;
  dr_pending_name : list Z;              (* [DNS_MAX_NAME] *)
  dr_cache : list dns_cache_entry_t;     (* [DNS_CACHE_MAX] *)
  dr_scratch : list Z                    (* [DNS_MSG_MAX] *)
}.
#[export] Instance eta_dns : Eta dns_resolver_t := λ r,
  mk_dns (dr_server_ip r) (dr_server_port r) (dr_next_id r) (dr_id_seed r) (dr_initialized r)
    (dr_udp_tx r) (dr_udp_ctx r) (dr_pending_id r) (dr_pending_name r) (dr_cache r) (dr_scratch r).

Definition zero_dns_entry : dns_cache_entry_t :=
  mk_dns_entry (replicate (Z.to_nat DNS_MAX_NAME) 0) 0 0 0 false.
Definition zero_dns_cache : list dns_cache_entry_t := replicate (Z.to_nat DNS_CACHE_MAX) zero_dns_entry.
Definition zero_dns : dns_resolver_t :=
  mk_dns 0 0 0 0 false 0 0 0 (replicate (Z.to_nat DNS_MAX_NAME) 0) zero_dns_cache
    (replicate (Z.to_nat DNS_MSG_MAX) 0).

(** ** Strings *)

Fixpoint strlen_loop (fuel : nat) (s : list Z) (n : Z) : option Z :=
  match fuel with
  | O => None
  | S fuel => c ← aget s n; if nz c then strlen_loop fuel s (n + 1) else Some n
  end.
Definition ow_strlen (s : list Z) : option Z := strlen_loop (S (length s)) s 0.

(** [if (c >= 'A' && c <= 'Z') c = c - 'A' + 'a'] *)
Definition lower (c : Z) : Z := if (65 <=? c) && (c <=? 90) then c - 65 + 97 else c.

Fixpoint streq_loop (fuel : nat) (a b : list Z) (i : Z) : option bool :=
  match fuel with
  | O => None
  | S fuel =>
      ca ← aget a i; cb ← aget b i;
      let ca := lower ca in
      let cb := lower cb in
      if negb (ca =? cb) then Some false
      else if ca =? 0 then Some true
      else streq_loop fuel a b (i + 1)
  end.
Definition ow_streq_ci (a b : list Z) : option bool := streq_loop (S (length a)) a b 0.

(** ** Fields *)

Definition dns_rd16 (m : list Z) (p : Z) : option Z :=
  hi ← aget m p; lo ← aget m (p + 1); Some (u16 (Z.lor (Z.shiftl hi 8) lo)).

Definition dns_rd32 (m : list Z) (p : Z) : option Z :=
  b0 ← aget m p; b1 ← aget m (p + 1); b2 ← aget m (p + 2); b3 ← aget m (p + 3);
  Some (Z.lor (Z.lor (Z.lor (Z.shiftl b0 24) (Z.shiftl b1 16)) (Z.shiftl b2 8)) b3).

Definition dns_wr16 (m : list Z) (p v : Z) : option (list Z) :=
  m ← aset m p (u8 (Z.shiftr v 8)); aset m (p + 1) (u8 v).

Definition dns_get_ip (m : list Z) (p : Z) : option Z := get_field 4 m p.

(** ** Names on the wire *)

(** The inner loop: copies a label to [base + out]; the result of the inner
    option is [dst], [out], [label_len] and [i], and [None] for [return 0]. *)
Fixpoint label_loop (fuel : nat) (name dst : list Z) (base cap out label_len i : Z)
    : option (list Z * option (Z * Z * Z)) :=
  match fuel with
  | O => None
  | S fuel =>
      c ← aget name i;
      if nz c && negb (c =? 46) then
        if (63 <=? label_len) || (cap <=? out) then Some (dst, None)
        else
          dst ← aset dst (base + out) (u8 c);
          label_loop fuel name dst base cap (u32 (out + 1)) (u32 (label_len + 1)) (u32 (i + 1))
      else Some (dst, Some (out, label_len, i))
  end.

(** The outer loop, one label per round; the second component is the value of
    [dns_encode_name]. *)
Fixpoint encode_loop (fuel : nat) (name dst : list Z) (base cap out i : Z) : option (list Z * Z) :=
  match fuel with
  | O => None
  | S fuel =>
      if cap <=? out then Some (dst, 0)
      else
        let label_pos := out in
        '(dst, r) ← label_loop (S (length name)) name dst base cap (u32 (out + 1)) 0 i;
        match r with
        | None => Some (dst, 0)
        | Some (out, label_len, i) =>
            if label_len =? 0 then Some (dst, 0)
            else
              dst ← aset dst (base + label_pos) (u8 label_len);
              c ← aget name i;
              if c =? 0 then
                if cap <=? out then Some (dst, 0)
                else
                  dst ← aset dst (base + out) 0;
                  let out := u32 (out + 1) in
                  Some (dst, if 255 <? out then 0 else out)
              else
                let i := u32 (i + 1) in
                c ← aget name i;
                if c =? 0 then Some (dst, 0)
                else encode_loop fuel name dst base cap out i
        end
  end.

Definition dns_encode_name (name : ptr (list Z)) (dst : list Z) (base cap : Z) : option (list Z * Z) :=
  match name with
  | None => Some (dst, 0)
  | Some name =>
      c ← aget name 0;
      if c =? 0 then Some (dst, 0) else encode_loop (S (length name)) name dst base cap 0 0
  end.

(** The offset behind a name, if there is one. *)
Fixpoint skip_loop (fuel : nat) (msg : list Z) (len p : Z) : option (option Z) :=
  match fuel with
  | O => None
  | S fuel =>
      if p <? len then
        c ← aget msg p;
        if Z.land c 0xC0 =? 0xC0 then
          if len <=? u32 (p + 1) then Some None else Some (Some (u32 (p + 2)))
        else if nz (Z.land c 0xC0) then Some None
        else if c =? 0 then Some (Some (u32 (p + 1)))
        else skip_loop fuel msg len (u32 (p + (c + 1)))
      else Some None
  end.
Definition dns_skip_name (msg : list Z) (len off : Z) : option (option Z) :=
  skip_loop (S (Z.to_nat len)) msg len off.

(** ** Cache *)

(** The slot of a valid entry with the name. *)
Definition dns_cache_find (res : dns_resolver_t) (name : list Z) : option (option Z) :=
  for_up (Z.to_nat DNS_CACHE_MAX) 0
    (λ i found,
       match found with
       | Some _ => Some found
       | None =>
           e ← aget (dr_cache res) i;
           if de_valid e then eq ← ow_streq_ci (de_name e) name; Some (if (eq : bool) then Some i else None)
           else Some None
       end) None.

(** [oldest] and [victim] of the eviction scan. *)
Definition dns_victim (res : dns_resolver_t) : option (Z * Z) :=
  for_up (Z.to_nat DNS_CACHE_MAX) 0
    (λ i '(oldest, victim),
       e ← aget (dr_cache res) i;
       Some (if oldest <=? de_age e then (de_age e, i) else (oldest, victim))) (0, 0).

Definition dns_fill (res : dns_resolver_t) (victim : Z) (name : list Z) (ip ttl : Z) : option dns_resolver_t :=
  n ← ow_strlen name;
  let n := if DNS_MAX_NAME <=? n then DNS_MAX_NAME - 1 else n in
  e ← aget (dr_cache res) victim;
  nm ← copy_bytes n name (de_name e);
  nm ← aset nm n 0;
  es ← aset (dr_cache res) victim
         (e <| de_name := nm |> <| de_ip := ip |> <| de_ttl := ttl |> <| de_age := 0 |> <| de_valid := true |>);
  Some (res <| dr_cache := es |>).

Definition dns_cache_insert (res : dns_resolver_t) (name : list Z) (ip ttl : Z) : option dns_resolver_t :=
  found ← dns_cache_find res name;
  match found with
  | Some i =>
      e ← aget (dr_cache res) i;
      es ← aset (dr_cache res) i (e <| de_ip := ip |> <| de_ttl := ttl |> <| de_age := 0 |>);
      Some (res <| dr_cache := es |>)
  | None =>
      free ← find_up (Z.to_nat DNS_CACHE_MAX) 0 (dr_cache res) (λ e, negb (de_valid e));
      match free with
      | Some i => dns_fill res i name ip ttl
      | None => '(_, victim) ← dns_victim res; dns_fill res victim name ip ttl
      end
  end.

(** The status and [*out_ip]. *)
Definition dns_cache_lookup (res : ptr dns_resolver_t) (name : ptr (list Z)) (out_ip : ptr Z)
    : option (ptr Z * Z) :=
  match res, name, out_ip with
  | Some r, Some name, Some _ =>
      found ← dns_cache_find r name;
      match found with
      | Some i => e ← aget (dr_cache r) i; Some (Some (de_ip e), DNS_OK)
      | None => Some (out_ip, DNS_ERR_NO_DATA)
      end
  | _, _, _ => Some (out_ip, DNS_ERR_PARAM)
  end.

(** ** Operations *)

Definition dns_init (res : ptr dns_resolver_t) (server_ip tx tx_ctx : Z) : ptr dns_resolver_t * Z :=
  match res with
  | None => (res, DNS_ERR_PARAM)
  | Some _ =>
      if tx =? 0 then (res, DNS_ERR_PARAM)
      else
        (Some (zero_dns <| dr_server_ip := server_ip |> <| dr_server_port := DNS_PORT |>
                 <| dr_udp_tx := tx |> <| dr_udp_ctx := tx_ctx |> <| dr_id_seed := 0x4E21 |>
                 <| dr_next_id := 0x4E21 |> <| dr_initialized := true |>), DNS_OK)
  end.

Definition dns_set_server (res : ptr dns_resolver_t) (server_ip : Z) : ptr dns_resolver_t * Z :=
  match res with
  | None => (res, DNS_ERR_PARAM)
  | Some r => (Some (r <| dr_server_ip := server_ip |>), DNS_OK)
  end.

Definition dns_cache_flush (res : ptr dns_resolver_t) : ptr dns_resolver_t * Z :=
  match res with
  | None => (res, DNS_ERR_PARAM)
  | Some r => (Some (r <| dr_cache := zero_dns_cache |>), DNS_OK)
  end.

(** The header of a query in the first twelve bytes of the buffer. *)
Definition put_query_header (m : list Z) (id : Z) : option (list Z) :=
  m ← copy_bytes DNS_HEADER_LEN (replicate (Z.to_nat DNS_HEADER_LEN) 0) m;
  m ← dns_wr16 m 0 id;
  m ← dns_wr16 m 2 0x0100;
  dns_wr16 m 4 1.

Section dns.
Context {W : Type}.
(** [udp_tx(ctx, dst_ip, dst_port, payload)] *)
Context (call_udp_tx : Z → Z → Z → Z → list Z → W → W * Z).

Definition dns_resolve (res : ptr dns_resolver_t) (name : ptr (list Z)) (out_ip : ptr Z) (w : W)
    : option (W * ptr dns_resolver_t * ptr Z * Z) :=
  match res, name, out_ip with
  | Some r, Some nm, Some _ =>
      if negb (dr_initialized r) then Some (w, res, out_ip, DNS_ERR_NOT_READY)
      else if dr_server_ip r =? 0 then Some (w, res, out_ip, DNS_ERR_NO_SERVER)
      else
        '(cached, rc) ← dns_cache_lookup res name (Some 0);
        if rc =? DNS_OK then Some (w, res, cached, DNS_OK)
        else
          n ← ow_strlen nm;
          if DNS_MAX_NAME <=? n then Some (w, res, out_ip, DNS_ERR_NAME)
          else
            m ← put_query_header (dr_scratch r) (dr_next_id r);
            let r := r <| dr_pending_id := dr_next_id r |> <| dr_next_id := u16 (dr_next_id r + 1) |> in
            '(m, name_len) ← dns_encode_name name m DNS_HEADER_LEN (DNS_MSG_MAX - DNS_HEADER_LEN - 4);
            if name_len =? 0 then Some (w, Some (r <| dr_scratch := m |>), out_ip, DNS_ERR_NAME)
            else
              let off := u32 (DNS_HEADER_LEN + name_len) in
              m ← dns_wr16 m off DNS_TYPE_A;
              let off := u32 (off + 2) in
              m ← dns_wr16 m off DNS_CLASS_IN;
              let off := u32 (off + 2) in
              pn ← copy_bytes n nm (dr_pending_name r);
              pn ← aset pn n 0;
              let r := r <| dr_scratch := m |> <| dr_pending_name := pn |> in
              q ← aslice m 0 off;
              let '(w, rc) := call_udp_tx (dr_udp_tx r) (dr_udp_ctx r) (dr_server_ip r) (dr_server_port r) q w in
              Some (w, Some r, out_ip, if negb (rc =? DNS_OK) then rc else DNS_ERR_PENDING)
  | _, _, _ => Some (w, res, out_ip, DNS_ERR_PARAM)
  end.
End dns.

(** The loop over the questions: the offset behind them. *)
Fixpoint skip_questions (n : nat) (m : list Z) (len off : Z) : option (option Z) :=
  match n with
  | O => Some (Some off)
  | S n =>
      r ← dns_skip_name m len off;
      match r with
      | None => Some None
      | Some off =>
          if len <? u32 (off + 4) then Some None else skip_questions n m len (u32 (off + 4))
      end
  end.

(** The loop over the answers. *)
Fixpoint scan_answers (n : nat) (res : dns_resolver_t) (m : list Z) (len off : Z)
    : option (dns_resolver_t * Z) :=
  match n with
  | O => Some (res, DNS_ERR_NO_DATA)
  | S n =>
      r ← dns_skip_name m len off;
      match r with
      | None => Some (res, DNS_ERR_BAD_PACKET)
      | Some off =>
          if len <? u32 (off + 10) then Some (res, DNS_ERR_BAD_PACKET)
          else
            type ← dns_rd16 m off;
            cls ← dns_rd16 m (off + 2);
            ttl ← dns_rd32 m (off + 4);
            rdlen ← dns_rd16 m (off + 8);
            let off := u32 (off + 10) in
            if len <? u32 (off + rdlen) then Some (res, DNS_ERR_BAD_PACKET)
            else if (type =? DNS_TYPE_A) && (cls =? DNS_CLASS_IN) && (rdlen =? 4) then
              ip ← dns_get_ip m off;
              res ← dns_cache_insert res (dr_pending_name res) ip ttl;
              Some (res, DNS_OK)
            else scan_answers n res m len (u32 (off + rdlen))
      end
  end.

Definition dns_input (res : ptr dns_resolver_t) (msg : ptr (list Z)) (len : Z)
    : option (ptr dns_resolver_t * Z) :=
  match res, msg with
  | Some r, Some m =>
      if negb (dr_initialized r) then Some (res, DNS_ERR_NOT_READY)
      else if len <? DNS_HEADER_LEN then Some (res, DNS_ERR_BAD_PACKET)
      else
        id ← dns_rd16 m 0;
        flags ← dns_rd16 m 2;
        qdcount ← dns_rd16 m 4;
        ancount ← dns_rd16 m 6;
        if negb (id =? dr_pending_id r) then Some (res, DNS_ERR_BAD_PACKET)
        else if Z.land flags 0x8000 =? 0 then Some (res, DNS_ERR_BAD_PACKET)
        else if nz (Z.land flags 0x0200) then Some (res, DNS_ERR_TRUNCATED)
        else
          let rcode := Z.land flags 0x000F in
          if rcode =? 3 then Some (res, DNS_ERR_NXDOMAIN)
          else if nz rcode then Some (res, DNS_ERR_RCODE)
          else
            o ← skip_questions (Z.to_nat qdcount) m len DNS_HEADER_LEN;
            match o with
            | None => Some (res, DNS_ERR_BAD_PACKET)
            | Some off =>
                '(r, rc) ← scan_answers (Z.to_nat ancount) r m len off;
                Some (Some r, rc)
            end
  | _, _ => Some (res, DNS_ERR_PARAM)
  end.
