(* ===== verification/DnsWire.v ===== *)
(** Strings and names of the DNS resolver: what the string routines compute, the
    wire form of a dotted name, and a reference parser of responses that works
    on the rest of the message instead of on offsets.

    Responses: a reference parser on the rest of the message, that the offsets
    of dnscli.c compute the same, and that it reads back what a server writes. *)
From S2P Require Import Prelude Tcpcore TcpSeg Dnscli.

(** ** C strings in buffers *)

(** The string in a buffer: the bytes before the first NUL. *)
Fixpoint cname (buf : list Z) : list Z :=
  match buf with [] => [] | c :: l => if c =? 0 then [] else c :: cname l end.

Lemma cname_terminated s rest : Forall (λ c, c ≠ 0) s → cname (s ++ 0 :: rest) = s.
Proof. induction 1 as [|c s Hc _ IH]; [done|]. cbn [app cname]. by rewrite (proj2 (Z.eqb_neq _ _) Hc), IH. Qed.

Lemma cname_spec buf : 0 ∈ buf → ∃ rest, buf = cname buf ++ 0 :: rest.
Proof.
  induction buf as [|c buf IH]; intros H; [by apply elem_of_nil in H|]. cbn [cname].
  destruct (Z.eqb_spec c 0) as [->|Hc]; [by exists buf|].
  apply elem_of_cons in H as [|H]; [lia|]. destruct (IH H) as [rest E]. exists rest. cbn [app]. by rewrite <-E.
Qed.

Lemma cname_nonzero buf : Forall (λ c, c ≠ 0) (cname buf).
Proof. induction buf as [|c buf IH]; cbn [cname]; [constructor|]. destruct (Z.eqb_spec c 0); by constructor. Qed.

Lemma cname_length buf : 0 ∈ buf → (length (cname buf) < length buf)%nat.
Proof. intros [rest E]%cname_spec. rewrite E at 2. rewrite length_app. simpl. lia. Qed.

(** The byte at an offset, and the rest of the string from there on. *)
Lemma cstr_at buf i :
  0 ≤ i → 0 ∈ drop (Z.to_nat i) buf →
  ∃ c l, aget buf i = Some c ∧ drop (Z.to_nat i) buf = c :: l ∧ l = drop (Z.to_nat (i + 1)) buf.
Proof.
  intros Hi H0. destruct (lookup_lt_is_Some_2 buf (Z.to_nat i)) as [c Hc].
  { destruct (decide (Z.to_nat i < length buf)%nat); [done|]. rewrite drop_ge in H0 by lia. by apply elem_of_nil in H0. }
  exists c, (drop (S (Z.to_nat i)) buf). rewrite aget_to_nat by done. split; [done|].
  split; [by apply drop_lookup_cons|]. f_equal. lia.
Qed.

Lemma strlen_loop_spec fuel s : ∀ n, 0 ≤ n → 0 ∈ drop (Z.to_nat n) s → (length s < fuel + Z.to_nat n)%nat →
  strlen_loop fuel s n = Some (n + Z.of_nat (length (cname (drop (Z.to_nat n) s)))).
Proof.
  induction fuel as [|fuel IH]; intros n Hn H0 Hf; destruct (cstr_at s n Hn H0) as (c & l & Ec & Ed & El).
  { apply aget_lt in Ec. lia. }
  cbn [strlen_loop]. rewrite Ec, obind_Some. unfold nz. rewrite Ed. cbn [cname]. destruct (Z.eqb_spec c 0); cbn [negb length].
  - f_equal. lia.
  - rewrite IH, <-El; [f_equal; lia|lia| |lia]. rewrite <-El. rewrite Ed in H0. apply elem_of_cons in H0 as [|]; [lia|done].
Qed.

Lemma dns_strlen_spec s : 0 ∈ s → ow_strlen s = Some (Z.of_nat (length (cname s))).
Proof. intros H. unfold ow_strlen. by rewrite strlen_loop_spec by (done || lia). Qed.

(** ** Comparison without case *)

Lemma lower_zero c : lower c = 0 ↔ c = 0.
Proof. unfold lower. destruct (_ && _) eqn:E; [|done]. apply andb_true_iff in E as [E _]. apply Z.leb_le in E. lia. Qed.

(** Names are equal when their lower-case forms are. *)
Definition key (s : list Z) : list Z := lower <$> s.

Lemma streq_loop_spec fuel a b : ∀ i, 0 ≤ i → 0 ∈ drop (Z.to_nat i) a → 0 ∈ drop (Z.to_nat i) b → (length a < fuel + Z.to_nat i)%nat →
  streq_loop fuel a b i = Some (bool_decide (key (cname (drop (Z.to_nat i) a)) = key (cname (drop (Z.to_nat i) b)))).
Proof.
  induction fuel as [|fuel IH]; intros i Hi Ha Hb Hf; destruct (cstr_at a i Hi Ha) as (ca & la & Ea & Da & La).
  { apply aget_lt in Ea. lia. }
  destruct (cstr_at b i Hi Hb) as (cb & lb & Eb & Db & Lb).
  cbn [streq_loop]. rewrite Ea, Eb, !obind_Some, Da, Db. cbn [cname]. unfold key.
  pose proof (lower_zero ca) as Za. pose proof (lower_zero cb) as Zb.
  destruct (Z.eqb_spec (lower ca) (lower cb)) as [Heq|Hne]; cbn [negb].
  - destruct (Z.eqb_spec (lower ca) 0) as [H0|H0].
    + assert (ca = 0) as -> by tauto. assert (cb = 0) as -> by (apply Zb; lia). done.
    + assert (ca ≠ 0) as Ha0 by tauto. assert (cb ≠ 0) as Hb0 by (rewrite <-Zb; lia).
      rewrite (proj2 (Z.eqb_neq ca 0) Ha0), (proj2 (Z.eqb_neq cb 0) Hb0).
      rewrite IH, <-La, <-Lb; [|lia|..|lia].
      * f_equal. apply bool_decide_ext. unfold key. cbn [fmap list_fmap]. rewrite Heq.
        split; [by intros ->|by intros [= ?]].
      * rewrite <-La. rewrite Da in Ha. apply elem_of_cons in Ha as [|]; [lia|done].
      * rewrite <-Lb. rewrite Db in Hb. apply elem_of_cons in Hb as [|]; [lia|done].
  - symmetry. f_equal. apply bool_decide_eq_false. destruct (Z.eqb_spec ca 0), (Z.eqb_spec cb 0); [congruence|done..|by intros [= ?]].
Qed.

Lemma streq_spec a b : 0 ∈ a → 0 ∈ b → ow_streq_ci a b = Some (bool_decide (key (cname a) = key (cname b))).
Proof. intros Ha Hb. unfold ow_streq_ci. by rewrite streq_loop_spec by (done || lia). Qed.

(** ** Dotted names *)

Fixpoint split_dots (s : list Z) : list (list Z) :=
  match s with
  | [] => [[]]
  | c :: s =>
      if c =? 46 then [] :: split_dots s
      else match split_dots s with l :: ls => (c :: l) :: ls | [] => [[c]] end
  end.

Definition label_ok (l : list Z) : Prop := (1 ≤ length l ≤ 63)%nat.
#[export] Instance label_ok_dec l : Decision (label_ok l).
Proof. unfold label_ok. apply _. Defined.

(** Labels with their lengths, and the root. *)
Definition qlabels (ls : list (list Z)) : list Z := concat ((λ l, Z.of_nat (length l) :: l) <$> ls).
Definition qname (ls : list (list Z)) : list Z := qlabels ls ++ [0].

(** The first label and what follows it. *)
Lemma split_first s :
  ∃ l ls, split_dots s = l :: ls ∧ Forall (λ c, c ≠ 46) l ∧
    (s = l ∧ ls = [] ∨ ∃ s', s = l ++ 46 :: s' ∧ ls = split_dots s').
Proof.
  induction s as [|c s IH]; cbn [split_dots]; [exists [], []; naive_solver|].
  destruct (Z.eqb_spec c 46) as [->|Hc].
  - exists [], (split_dots s). split_and!; [done..|constructor|]. right. by exists s.
  - destruct IH as (l & ls & -> & Hl & H). exists (c :: l), ls. split; [done|]. split; [by constructor|].
    destruct H as [[-> ->]|(s' & -> & ->)]; [by left|right; by exists s'].
Qed.

(** The dots separate the labels again. *)
Fixpoint join_dots (ls : list (list Z)) : list Z :=
  match ls with [] => [] | [l] => l | l :: ls => l ++ 46 :: join_dots ls end.

Lemma split_dots_nonempty s : split_dots s ≠ [].
Proof. destruct (split_first s) as (l & ls & -> & _). done. Qed.

Lemma join_split s : join_dots (split_dots s) = s.
Proof.
  induction s as [|c s IH]; cbn [split_dots]; [done|]. pose proof (split_dots_nonempty s) as Hn.
  destruct (split_dots s) as [|l ls]; [done|]. destruct (Z.eqb_spec c 46) as [->|_].
  - change ([] ++ 46 :: join_dots (l :: ls) = 46 :: s). by rewrite IH.
  - destruct ls as [|l2 ls]; [by rewrite <-IH|]. change ((c :: l) ++ 46 :: join_dots (l2 :: ls) = c :: s). by rewrite <-IH.
Qed.

Lemma qlabels_length s : length (qlabels (split_dots s)) = S (length s).
Proof.
  induction s as [|c s IH]; cbn [split_dots]; [done|]. pose proof (split_dots_nonempty s) as Hn.
  destruct (split_dots s) as [|l ls]; [done|]. unfold qlabels in *. case_if; cbn in *; lia.
Qed.

Section encode.
(** A name of less than 128 bytes, [P] before and [base] its length. *)
Context (name P : list Z) (cap : Z).
Hypothesis Hname : 0 ∈ name.
Hypothesis Hoct : octets name.
Hypothesis Hlen : (length (cname name) < 128)%nat.
Hypothesis Hcap : 256 ≤ cap < 2 ^ 32.
Let base := Z.of_nat (length P).

(** The string at offset [i] is [s]. *)
Definition at_name (i : Z) (s : list Z) : Prop :=
  0 ≤ i ∧ i + Z.of_nat (length s) = Z.of_nat (length (cname name)) ∧ ∃ rest, drop (Z.to_nat i) name = s ++ 0 :: rest.

Lemma at_name_start : at_name 0 (cname name).
Proof. split; [lia|]. split; [lia|]. destruct (cname_spec name Hname) as [rest E]. exists rest. exact E. Qed.

Lemma at_name_next i c s : at_name i (c :: s) → aget name i = Some c ∧ at_name (i + 1) s ∧ 0 ≤ c < 256.
Proof.
  intros (Hi & Hl & rest & E). cbn [app length] in *.
  assert (name !! Z.to_nat i = Some c) as Hc.
  { replace (Z.to_nat i) with (Z.to_nat i + 0)%nat by lia. rewrite <-lookup_drop, E. done. }
  split; [by rewrite aget_to_nat|]. split; [|exact (Forall_lookup_1 _ _ _ _ Hoct Hc)]. split; [lia|]. split; [lia|]. exists rest.
  replace (Z.to_nat (i + 1)) with (Z.to_nat i + 1)%nat by lia. by rewrite <-drop_drop, E.
Qed.

Lemma at_name_end i : at_name i [] → aget name i = Some 0.
Proof.
  intros (Hi & _ & rest & E). rewrite aget_to_nat by done.
  replace (Z.to_nat i) with (Z.to_nat i + 0)%nat by lia. by rewrite <-lookup_drop, E.
Qed.

Lemma at_name_skip l : ∀ i t, at_name i (l ++ t) → at_name (i + Z.of_nat (length l)) t.
Proof.
  induction l as [|c l IH]; intros i t H; [by rewrite Z.add_0_r|]. cbn [length].
  destruct (at_name_next i c (l ++ t) H) as (_ & H' & _). apply IH in H'.
  by replace (i + Z.of_nat (S (length l))) with (i + 1 + Z.of_nat (length l)) by lia.
Qed.

(** One label: [out] is the offset behind [done]. *)
Lemma label_loop_spec fuel : ∀ l s (done R : list Z) k i,
  Forall (λ c, c ≠ 46) l → Forall (λ c, c ≠ 0) l → (s = [] ∨ ∃ s', s = 46 :: s') → at_name i (l ++ s) →
  (length l < fuel)%nat → 0 ≤ k ≤ 63 → Z.of_nat (length done) + Z.of_nat (length l) < 256 → (length l ≤ length R)%nat →
  ∃ dst r, label_loop fuel name (P ++ done ++ R) base cap (Z.of_nat (length done)) k i = Some (dst, r) ∧ length dst = length (P ++ done ++ R) ∧
    if decide (k + Z.of_nat (length l) ≤ 63)
    then dst = P ++ (done ++ l) ++ drop (length l) R ∧
         r = Some (Z.of_nat (length done) + Z.of_nat (length l), k + Z.of_nat (length l), i + Z.of_nat (length l))
    else r = None.
Proof.
  induction fuel as [|fuel IH]; intros l s dn R k i H46 H0 Hs Hat Hf Hk Ho HR; [lia|].
  cbn [label_loop]. destruct l as [|c l].
  - assert (∃ c, aget name i = Some c ∧ nz c && negb (c =? 46) = false) as (c & -> & Hc).
    { destruct Hs as [->|[s' ->]]; [exists 0; split; [by apply at_name_end|done]|].
      exists 46. split; [by apply (at_name_next i 46 s')|done]. }
    rewrite obind_Some, Hc. eexists _, _. split; [done|]. split; [done|]. rewrite decide_True by (simpl; lia).
    cbn [length drop]. rewrite app_nil_r, !Z.add_0_r. done.
  - apply Forall_cons_1 in H46 as [Hc46 H46], H0 as [Hc0 H0]. cbn [app] in Hat.
    destruct (at_name_next i c (l ++ s) Hat) as (-> & Hat' & Hc). rewrite obind_Some. unfold nz.
    rewrite (proj2 (Z.eqb_neq _ _) Hc0), (proj2 (Z.eqb_neq _ _) Hc46). cbn [negb andb length] in *.
    rewrite (proj2 (Z.leb_gt cap _)) by lia. rewrite orb_false_r. destruct (Z.leb_spec 63 k).
    { eexists _, _. split; [done|]. split; [done|]. by rewrite decide_False by lia. }
    destruct R as [|x R]; [simpl in HR; lia|]. rewrite app_assoc, aset_next, obind_Some by (rewrite length_app; lia).
    rewrite u8_small by done. destruct Hat as (Hi & Hl & _). cbn [length] in Hl. rewrite length_app in Hl.
    rewrite !u32_small by lia. rewrite <-!app_assoc, (app_assoc dn).
    destruct (IH l s (dn ++ [c]) R (k + 1) (i + 1)) as (dst & r & E & Hd & Hr); [done..|lia|lia|rewrite length_app; simpl; lia|simpl in HR; lia|].
    rewrite length_app in E. cbn [length] in E. replace (Z.of_nat (length dn + 1)) with (Z.of_nat (length dn) + 1) in E by lia.
    exists dst, r. rewrite <-app_assoc in E |- *. cbn [app] in E |- *. split; [exact E|]. split.
    + rewrite Hd, !length_app. simpl. lia.
    + destruct (decide (k + 1 + _ ≤ 63)).
      * rewrite decide_True by lia. destruct Hr as [-> ->]. cbn [drop]. rewrite <-!app_assoc. cbn [app].
        rewrite length_app. cbn [length]. split; [done|]. do 2 f_equal; [f_equal; lia|lia].
      * by rewrite decide_False by lia.
Qed.

Lemma qname_one s : qname [s] = Z.of_nat (length s) :: s ++ [0].
Proof. unfold qname, qlabels. cbn [fmap list_fmap concat]. by rewrite app_nil_r. Qed.

(** The root after the last label. *)
Lemma put_root dn s R :
  (length s < length R)%nat →
  aset (P ++ dn ++ Z.of_nat (length s) :: s ++ drop (length s) R)
    (base + (Z.of_nat (length dn + 1) + Z.of_nat (length s))) 0 =
  Some (P ++ (dn ++ qname [s]) ++ drop (S (length s)) R).
Proof.
  intros Hl. rewrite (app_comm_cons s), (app_assoc dn), (app_assoc P).
  destruct (drop (length s) R) as [|y R'] eqn:ER; [apply (f_equal length) in ER; rewrite length_drop in ER; simpl in ER; lia|].
  rewrite aset_next by (rewrite !length_app; cbn [length]; lia).
  assert (R' = drop (S (length s)) R) as -> by (by rewrite <-Nat.add_1_r, <-drop_drop, ER).
  rewrite qname_one, <-!app_assoc. cbn [app]. by rewrite <-app_assoc.
Qed.

(** The value of [dns_encode_name] and the bytes it leaves, for the string [s]
    at offset [i]. *)
Lemma encode_loop_spec fuel : ∀ s (done R : list Z) i,
  at_name i s → Forall (λ c, c ≠ 0) s → (length s < fuel)%nat → Z.of_nat (length done) ≤ i + 1 → (length s + 2 ≤ length R)%nat →
  ∃ dst v, encode_loop fuel name (P ++ done ++ R) base cap (Z.of_nat (length done)) i = Some (dst, v) ∧
    length dst = length (P ++ done ++ R) ∧
    if decide (Forall label_ok (split_dots s))
    then v = Z.of_nat (length (done ++ qname (split_dots s))) ∧
         dst = P ++ (done ++ qname (split_dots s)) ++ drop (length (qname (split_dots s))) R
    else v = 0.
Proof.
  induction fuel as [|fuel IH]; intros s dn R i Hat H0 Hf Ho HR; [lia|].
  cbn [encode_loop]. pose proof Hat as (Hi & Hl & _). rewrite (proj2 (Z.leb_gt _ _)) by lia. cbv zeta.
  destruct (split_first s) as (l & ls & Es & H46 & Hs). rewrite u32_small by lia.
  assert (∃ t, s = l ++ t ∧ (t = [] ∧ ls = [] ∨ ∃ s', t = 46 :: s' ∧ ls = split_dots s')) as (t & Et & Ht).
  { destruct Hs as [[-> ->]|(s' & -> & ->)]; [exists []; rewrite app_nil_r; naive_solver|exists (46 :: s'); naive_solver]. }
  assert (length s = length l + length t)%nat as Hlt by (by rewrite Et, length_app).
  assert (Forall (λ c, c ≠ 0) l) as H0l by (rewrite Et in H0; by apply Forall_app in H0 as [? _]).
  assert (length l < S (length name))%nat as Hlf by (pose proof (cname_length name Hname); lia).
  destruct R as [|x R]; [simpl in HR; lia|]. cbn [length] in HR.
  destruct (label_loop_spec (S (length name)) l t (dn ++ [x]) R 0 i) as (dst & r & E & Hd & Hr); [done..| |by rewrite <-Et|done|lia|
    rewrite length_app; simpl; lia|lia|].
  { destruct Ht as [[-> _]|(s' & -> & _)]; [by left|right; by exists s']. }
  rewrite length_app, Nat2Z.inj_add in E. rewrite <-app_assoc in E. change (Z.of_nat (length [x])) with 1 in E.
  cbn [app] in E. rewrite E, obind_Some, Es. rewrite <-app_assoc in Hd. cbn [app] in Hd.
  destruct (decide (0 + Z.of_nat (length l) ≤ 63)) as [H63|H63].
  2: { rewrite Hr. eexists _, _. split; [done|]. split; [done|]. rewrite decide_False; [done|].
       intros [Hc _]%Forall_cons_1. unfold label_ok in Hc. lia. }
  destruct Hr as [-> ->]. rewrite Z.add_0_l in *. destruct (Z.eqb_spec (Z.of_nat (length l)) 0) as [Hz|Hz].
  { eexists _, _. split; [done|]. split; [done|]. rewrite decide_False; [done|].
    intros [Hc _]%Forall_cons_1. unfold label_ok in Hc. lia. }
  rewrite <-!app_assoc. cbn [app]. rewrite (app_assoc P), aset_next, obind_Some by (rewrite length_app; lia).
  rewrite u8_small by lia. rewrite <-!app_assoc. cbn [app]. rewrite length_app. change (length [x]) with 1%nat.
  assert (at_name (i + Z.of_nat (length l)) t) as Hskip by (apply at_name_skip; by rewrite <-Et).
  destruct Ht as [[-> ->]|(s' & -> & ->)].
  - rewrite app_nil_r in Et. subst l. rewrite (at_name_end (i + Z.of_nat (length s))), obind_Some by done.
    change (0 =? 0) with true. cbv iota. rewrite (proj2 (Z.leb_gt cap _)) by lia.
    rewrite put_root, obind_Some by lia.
    rewrite u32_small by lia. rewrite (proj2 (Z.ltb_ge 255 _)) by lia. eexists _, _. split; [done|].
    rewrite decide_True by (constructor; [unfold label_ok; lia|constructor]). rewrite qname_one in *.
    split; [rewrite !length_app in *; cbn [length] in *; rewrite length_drop, length_app; cbn [length]; lia|].
    rewrite <-!app_assoc, length_app. cbn [app length drop]. rewrite !length_app. cbn [length]. split; [lia|]. by rewrite Nat.add_1_r.
  - destruct (at_name_next _ _ _ Hskip) as (-> & Hat' & _). rewrite obind_Some. change (46 =? 0) with false. cbv iota zeta.
    cbn [length] in Hlt. rewrite u32_small by lia.
    destruct s' as [|c s'].
    { rewrite (at_name_end _ Hat'), obind_Some. eexists _, _. split; [done|]. split.
      { rewrite !length_app in *. cbn [length] in *. rewrite ?length_app, ?length_drop in *. lia. }
      rewrite decide_False; [done|]. intros [_ [Hc _]%Forall_cons_1]%Forall_cons_1. unfold label_ok in Hc. simpl in Hc. lia. }
    destruct (at_name_next _ _ _ Hat') as (-> & _ & _). rewrite obind_Some.
    assert (Forall (λ c, c ≠ 0) (c :: s')) as H0s by (rewrite Et in H0; apply Forall_app in H0 as [_ H0]; by apply Forall_cons_1 in H0 as [_ ?]).
    rewrite (proj2 (Z.eqb_neq c 0)) by (by apply Forall_cons_1 in H0s as [? _]).
    rewrite (app_comm_cons l), (app_assoc dn).
    destruct (IH (c :: s') (dn ++ Z.of_nat (length l) :: l) (drop (length l) R) (i + Z.of_nat (length l) + 1))
      as (dst & v & E' & Hd' & Hv); [done..|cbn [length] in *; lia|rewrite length_app; cbn [length]; lia|rewrite length_drop; cbn [length] in *; lia|].
    rewrite length_app in E'. cbn [length] in E'.
    replace (Z.of_nat (length dn + 1) + Z.of_nat (length l)) with (Z.of_nat (length dn + S (length l))) by lia.
    exists dst, v. split; [exact E'|]. split.
    { rewrite Hd', !length_app. cbn [length]. rewrite length_drop. lia. }
    set (ls := split_dots (c :: s')) in *.
    destruct (decide (Forall label_ok ls)) as [Hok|Hok].
    + rewrite decide_True by (constructor; [unfold label_ok; lia|done]). destruct Hv as [-> ->].
      unfold qname, qlabels. cbn [fmap list_fmap concat]. fold (qlabels ls). fold (qname ls). rewrite <-!app_assoc. fold (qname ls).
      split; [done|]. cbn [app length drop]. rewrite drop_drop, length_app. unfold qname at 1. by rewrite <-app_assoc.
    + rewrite decide_False; [done|]. by intros [_ ?]%Forall_cons_1.
Qed.

Lemma encode_name_spec R :
  (130 ≤ length R)%nat →
  ∃ dst v, dns_encode_name (Some name) (P ++ R) base cap = Some (dst, v) ∧ length dst = length (P ++ R) ∧
    if decide (Forall label_ok (split_dots (cname name)))
    then v = Z.of_nat (length (qname (split_dots (cname name)))) ∧
         dst = P ++ qname (split_dots (cname name)) ++ drop (length (qname (split_dots (cname name)))) R
    else v = 0.
Proof.
  intros HR. unfold dns_encode_name.
  destruct (cstr_at name 0 ltac:(lia) Hname) as (c & l & -> & E & _). change (drop (Z.to_nat 0) name) with name in E.
  rewrite obind_Some. destruct (Z.eqb_spec c 0) as [->|Hc].
  - exists (P ++ R), 0. split; [done|]. split; [done|]. rewrite E. cbn [cname Z.eqb split_dots].
    rewrite decide_False; [done|]. intros [H _]%Forall_cons_1. unfold label_ok in H. simpl in H. lia.
  - destruct (encode_loop_spec (S (length name)) (cname name) [] R 0) as (dst & v & El & Hd & Hv);
      [apply at_name_start|apply cname_nonzero|pose proof (cname_length name Hname); lia|simpl; lia|lia|].
    by exists dst, v.
Qed.
End encode.

(** ** The reference parser *)

(** What follows a name, labels up to the root or a compression pointer. *)
Fixpoint name_rest (fuel : nat) (l : list Z) : option (list Z) :=
  match fuel, l with
  | S n, c :: l =>
      if Z.land c 0xC0 =? 0xC0 then match l with [] => None | _ :: l => Some l end
      else if nz (Z.land c 0xC0) then None
      else if c =? 0 then Some l
      else name_rest n (drop (Z.to_nat c) l)
  | _, _ => None
  end.


Fixpoint questions_rest (n : nat) (l : list Z) : option (list Z) :=
  match n with
  | O => Some l
  | S n =>
      l ← name_rest (S (length l)) l;
      if (length l <? 4)%nat then None else questions_rest n (drop 4 l)
  end.

Inductive answer := NoAddress | Malformed | Address (ip ttl : Z).

(** The first A record of the Internet class with four bytes of data. *)
Fixpoint first_address (n : nat) (l : list Z) : answer :=
  match n with
  | O => NoAddress
  | S n =>
      match name_rest (S (length l)) l with
      | None => Malformed
      | Some l =>
          if (length l <? 10)%nat then Malformed
          else
            let type := be_value (take 2 l) in
            let cls := be_value (take 2 (drop 2 l)) in
            let ttl := be_value (take 4 (drop 4 l)) in
            let rdlen := be_value (take 2 (drop 8 l)) in
            let l := drop 10 l in
            if Z.of_nat (length l) <? rdlen then Malformed
            else if (type =? DNS_TYPE_A) && (cls =? DNS_CLASS_IN) && (rdlen =? 4) then Address (le (take 4 l)) ttl
            else first_address n (drop (Z.to_nat rdlen) l)
      end
  end.

(** What a message says to the transaction [id]: a status, or an address. *)
Definition read_response (id : Z) (m : list Z) : Z + Z * Z :=
  let word i := be_value (take 2 (drop i m)) in
  if (length m <? 12)%nat then inl DNS_ERR_BAD_PACKET
  else if negb (word 0%nat =? id) then inl DNS_ERR_BAD_PACKET
  else if Z.land (word 2%nat) 0x8000 =? 0 then inl DNS_ERR_BAD_PACKET
  else if nz (Z.land (word 2%nat) 0x0200) then inl DNS_ERR_TRUNCATED
  else if Z.land (word 2%nat) 0x000F =? 3 then inl DNS_ERR_NXDOMAIN
  else if nz (Z.land (word 2%nat) 0x000F) then inl DNS_ERR_RCODE
  else
    match questions_rest (Z.to_nat (word 4%nat)) (drop 12 m) with
    | None => inl DNS_ERR_BAD_PACKET
    | Some l =>
        match first_address (Z.to_nat (word 6%nat)) l with
        | NoAddress => inl DNS_ERR_NO_DATA
        | Malformed => inl DNS_ERR_BAD_PACKET
        | Address ip ttl => inr (ip, ttl)
        end
    end.

(** ** Offsets and rests *)

Section msg.
Context (m : list Z).
Hypothesis Hoct : octets m.
Hypothesis Hlen : Z.of_nat (length m) ≤ 65535.
Let len := Z.of_nat (length m).

(** [l] is the message from offset [p] on. *)
Definition rest_at (p : Z) (l : list Z) : Prop :=
  0 ≤ p ∧ p + Z.of_nat (length l) = len ∧ l = drop (Z.to_nat p) m.

Lemma rest_at_drop p k l : rest_at p l → 0 ≤ k → (Z.to_nat k ≤ length l)%nat → rest_at (p + k) (drop (Z.to_nat k) l).
Proof.
  intros (Hp & Hl & ->) Hk Hkl. split; [lia|]. rewrite drop_drop, length_drop in *. split; [lia|]. f_equal. lia.
Qed.

Lemma rest_at_get p c l : rest_at p (c :: l) → aget m p = Some c ∧ rest_at (p + 1) l ∧ 0 ≤ c < 256.
Proof.
  intros H. pose proof (rest_at_drop p 1 _ H ltac:(lia) ltac:(simpl; lia)) as H'.
  destruct H as (Hp & Hl & E). assert (m !! Z.to_nat p = Some c) as Hc.
  { replace (Z.to_nat p) with (Z.to_nat p + 0)%nat by lia. by rewrite <-lookup_drop, <-E. }
  split; [by rewrite aget_to_nat|]. split; [exact H'|]. exact (Forall_lookup_1 _ _ _ _ Hoct Hc).
Qed.

(** The loop finds the end of the name at the offset of the rest. *)
Lemma skip_loop_spec fuel : ∀ fuel' p l, (length l < fuel)%nat → (length l < fuel')%nat → rest_at p l →
  match name_rest fuel' l with
  | None => skip_loop fuel m len p = Some None
  | Some r => ∃ q, skip_loop fuel m len p = Some (Some q) ∧ rest_at q r ∧ (length r < length l)%nat
  end.
Proof.
  induction fuel as [|fuel IH]; intros fuel' p l Hf Hf' Hat; [lia|]. destruct fuel' as [|fuel']; [lia|].
  cbn [skip_loop name_rest]. destruct l as [|c l].
  { destruct Hat as (Hp & Hl & _). rewrite (proj2 (Z.ltb_ge _ _)) by (simpl in Hl; lia). done. }
  pose proof Hat as (Hp & Hl & _). cbn [length] in *. unfold len in *. rewrite (proj2 (Z.ltb_lt _ _)) by lia.
  destruct (rest_at_get p c l Hat) as (-> & Hat1 & Hc). rewrite obind_Some.
  destruct (Z.land c 192 =? 192).
  { rewrite u32_small by lia. destruct l as [|d l]; cbn [length] in *.
    - by rewrite (proj2 (Z.leb_le _ _)) by lia.
    - rewrite (proj2 (Z.leb_gt _ _)) by lia. destruct (rest_at_get _ _ _ Hat1) as (_ & Hat2 & _).
      exists (p + 2). rewrite u32_small by lia. split; [done|]. split; [by replace (p + 2) with (p + 1 + 1) by lia|lia]. }
  destruct (nz (Z.land c 192)); [done|]. destruct (Z.eqb_spec c 0) as [->|Hc0].
  { exists (p + 1). rewrite u32_small by lia. split; [done|]. split; [done|lia]. }
  rewrite u32_small by lia. destruct (decide (Z.to_nat c ≤ length l)%nat) as [Hle|Hgt].
  - pose proof (rest_at_drop _ c _ Hat1 ltac:(lia) Hle) as Hat2. replace (p + 1 + c) with (p + (c + 1)) in Hat2 by lia.
    specialize (IH fuel' (p + (c + 1)) (drop (Z.to_nat c) l)). rewrite length_drop in IH.
    specialize (IH ltac:(lia) ltac:(lia) Hat2). destruct (name_rest fuel' _); [|done].
    destruct IH as (q & E & Hq & Hr). exists q. split; [done|]. split; [done|lia].
  - rewrite drop_ge by lia. destruct fuel; [lia|]. cbn [skip_loop]. rewrite (proj2 (Z.ltb_ge _ _)) by lia. by destruct fuel'.
Qed.

Lemma skip_name_spec p l :
  rest_at p l →
  match name_rest (S (length l)) l with
  | None => dns_skip_name m len p = Some None
  | Some r => ∃ q, dns_skip_name m len p = Some (Some q) ∧ rest_at q r ∧ (length r < length l)%nat
  end.
Proof.
  intros Hat. pose proof Hat as (Hp & Hl & _). unfold len in *. unfold dns_skip_name. rewrite Nat2Z.id.
  apply skip_loop_spec; [lia|lia|done].
Qed.

(** ** Fields *)

Lemma rest_at_2 p l :
  rest_at p l → (2 ≤ length l)%nat → ∃ a b l', l = a :: b :: l' ∧ aget m p = Some a ∧ aget m (p + 1) = Some b ∧
    0 ≤ a < 256 ∧ 0 ≤ b < 256 ∧ rest_at (p + 2) l'.
Proof.
  intros Hat Hl. destruct l as [|a [|b l']]; try (simpl in Hl; lia).
  destruct (rest_at_get p a _ Hat) as (Ea & Hat1 & Ha). destruct (rest_at_get _ b _ Hat1) as (Eb & Hat2 & Hb).
  exists a, b, l'. replace (p + 1 + 1) with (p + 2) in Hat2 by lia. done.
Qed.

Lemma rd16_spec p l : rest_at p l → (2 ≤ length l)%nat → dns_rd16 m p = Some (be_value (take 2 l)) ∧ 0 ≤ be_value (take 2 l) < 65536.
Proof.
  intros Hat Hl. destruct (rest_at_2 p l Hat Hl) as (a & b & l' & -> & Ea & Eb & Ha & Hb & _).
  unfold dns_rd16. rewrite Ea, Eb, !obind_Some. rewrite lor_shiftl_add by lia.
  unfold be_value. cbn [take]. rewrite take_0. cbn [foldl]. rewrite u16_small by lia. split; [f_equal; lia|lia].
Qed.

Lemma rd32_spec p l : rest_at p l → (4 ≤ length l)%nat → dns_rd32 m p = Some (be_value (take 4 l)).
Proof.
  intros Hat Hl. destruct (rest_at_2 p l Hat) as (a & b & l' & -> & Ea & Eb & Ha & Hb & Hat'); [lia|].
  destruct (rest_at_2 _ l' Hat') as (c & d & l'' & -> & Ec & Ed & Hc & Hd & _); [simpl in Hl; lia|].
  unfold dns_rd32. replace (p + 3) with (p + 2 + 1) by lia. rewrite Ea, Eb, Ec, Ed, !obind_Some.
  rewrite <-Z.lor_assoc, (lor_shiftl_add c d 8) by lia.
  rewrite <-Z.lor_assoc, (lor_shiftl_add b _ 16) by lia.
  rewrite (lor_shiftl_add a _ 24) by lia.
  unfold be_value. cbn [take]. rewrite take_0. cbn [foldl]. f_equal. lia.
Qed.

Lemma get_ip_spec p l : rest_at p l → (4 ≤ length l)%nat → dns_get_ip m p = Some (le (take 4 l)).
Proof.
  intros (Hp & Hl & ->) H4. unfold dns_get_ip, get_field. unfold len in *. rewrite aslice_in by lia. by rewrite obind_Some.
Qed.

(** ** The loops *)

Lemma skip_questions_spec n : ∀ p l, rest_at p l →
  match questions_rest n l with
  | None => skip_questions n m len p = Some None
  | Some r => ∃ q, skip_questions n m len p = Some (Some q) ∧ rest_at q r
  end.
Proof.
  induction n as [|n IH]; intros p l Hat; cbn [questions_rest skip_questions]; [by exists p|].
  pose proof (skip_name_spec p l Hat) as Hs. destruct (name_rest _ l) as [r|]; [|by rewrite Hs].
  destruct Hs as (q & -> & Hq & _). rewrite !obind_Some. pose proof Hq as (Hq0 & Hql & _). unfold len in *.
  rewrite u32_small by lia. destruct (Nat.ltb_spec (length r) 4).
  - by rewrite (proj2 (Z.ltb_lt _ _)) by lia.
  - rewrite (proj2 (Z.ltb_ge _ _)) by lia. apply IH. by apply (rest_at_drop q 4).
Qed.

Lemma scan_answers_spec res n : ∀ p l, rest_at p l →
  scan_answers n res m len p =
    match first_address n l with
    | NoAddress => Some (res, DNS_ERR_NO_DATA)
    | Malformed => Some (res, DNS_ERR_BAD_PACKET)
    | Address ip ttl => res ← dns_cache_insert res (dr_pending_name res) ip ttl; Some (res, DNS_OK)
    end.
Proof.
  induction n as [|n IH]; intros p l Hat; cbn [first_address scan_answers]; [done|].
  pose proof (skip_name_spec p l Hat) as Hs. destruct (name_rest _ l) as [r|]; [|by rewrite Hs].
  destruct Hs as (q & -> & Hq & _). rewrite obind_Some. pose proof Hq as (Hq0 & Hql & _). unfold len in Hql.
  rewrite u32_small by lia. destruct (Nat.ltb_spec (length r) 10) as [Hlt|Hge].
  { by rewrite (proj2 (Z.ltb_lt _ _)) by (unfold len; lia). }
  rewrite (proj2 (Z.ltb_ge _ _)) by (unfold len; lia).
  assert (∀ k : nat, (k ≤ 10)%nat → rest_at (q + Z.of_nat k) (drop k r)) as Hk.
  { intros k Hk. rewrite <-(Nat2Z.id k) at 2. apply rest_at_drop; [done|lia|lia]. }
  rewrite (proj1 (rd16_spec q r Hq ltac:(lia))), obind_Some.
  rewrite (proj1 (rd16_spec (q + 2) _ (Hk 2%nat ltac:(lia)) ltac:(rewrite length_drop; lia))), obind_Some.
  rewrite (rd32_spec (q + 4) _ (Hk 4%nat ltac:(lia)) ltac:(rewrite length_drop; lia)), obind_Some.
  destruct (rd16_spec (q + 8) _ (Hk 8%nat ltac:(lia)) ltac:(rewrite length_drop; lia)) as [-> Hrd]. rewrite obind_Some.
  pose proof (Hk 10%nat ltac:(lia)) as Hat10. change (q + Z.of_nat 10) with (q + 10) in Hat10.
  set (rdlen := be_value (take 2 (drop 8 r))) in *. set (l10 := drop 10 r) in *.
  assert (length l10 = length r - 10)%nat as H10 by (unfold l10; by rewrite length_drop).
  rewrite !u32_small by lia. destruct (Z.ltb_spec (Z.of_nat (length l10)) rdlen).
  { by rewrite (proj2 (Z.ltb_lt _ _)) by (unfold len; lia). }
  rewrite (proj2 (Z.ltb_ge _ _)) by (unfold len; lia).
  destruct (_ && _ && _) eqn:Ea.
  - apply andb_true_iff in Ea as [_ E4%Z.eqb_eq]. by rewrite (get_ip_spec (q + 10) l10 Hat10), obind_Some by lia.
  - apply IH. apply rest_at_drop; [done|lia|lia].
Qed.

(** [dns_input] does what the reference parser says. *)
Lemma dns_input_read res :
  dr_initialized res = true →
  dns_input (Some res) (Some m) len =
    match read_response (dr_pending_id res) m with
    | inl rc => Some (Some res, rc)
    | inr (ip, ttl) => res ← dns_cache_insert res (dr_pending_name res) ip ttl; Some (Some res, DNS_OK)
    end.
Proof.
  intros Hi. unfold dns_input, read_response. rewrite Hi. cbn [negb]. unfold DNS_HEADER_LEN.
  destruct (Nat.ltb_spec (length m) 12) as [Hlt|Hge]; [by rewrite (proj2 (Z.ltb_lt _ _)) by (unfold len; lia)|].
  rewrite (proj2 (Z.ltb_ge _ _)) by (unfold len; lia).
  assert (∀ k : nat, (k ≤ 12)%nat → rest_at (Z.of_nat k) (drop k m)) as Hk
    by (intros k Hk; split; [lia|]; split; [unfold len; rewrite length_drop; lia|by rewrite Nat2Z.id]).
  rewrite (proj1 (rd16_spec 0 _ (Hk 0%nat ltac:(lia)) ltac:(rewrite length_drop; lia))), obind_Some.
  rewrite (proj1 (rd16_spec 2 _ (Hk 2%nat ltac:(lia)) ltac:(rewrite length_drop; lia))), obind_Some.
  rewrite (proj1 (rd16_spec 4 _ (Hk 4%nat ltac:(lia)) ltac:(rewrite length_drop; lia))), obind_Some.
  rewrite (proj1 (rd16_spec 6 _ (Hk 6%nat ltac:(lia)) ltac:(rewrite length_drop; lia))), obind_Some.
  cbv zeta. repeat (match goal with |- context [if ?b then _ else _] => destruct b end; [done|]).
  pose proof (skip_questions_spec (Z.to_nat (be_value (take 2 (drop 4 m)))) 12 _ (Hk 12%nat ltac:(lia))) as Hq.
  destruct (questions_rest _ _) as [l|]; [|by rewrite Hq, obind_Some]. destruct Hq as (q & -> & Hat). rewrite obind_Some.
  rewrite (scan_answers_spec res _ q l Hat). destruct (first_address _ l) as [| |ip ttl]; [done..|].
  by destruct (dns_cache_insert _ _ _ _).
Qed.
End msg.
