(* ===== verification/DnsSpec.v ===== *)
(** The resolver as an abstract machine: the cache is a list of at most sixteen
    names without case, in order of insertion, with their addresses; every call
    of dnscli.c does one step of the machine. *)
From S2P Require Import Prelude Tcpcore TcpSeg Dnscli DnsWire.

(** ** The abstract cache *)

Abbreviation names := (list (list Z * Z)) (only parsing).

Fixpoint assoc (k : list Z) (L : names) : option Z :=
  match L with
  | [] => None
  | (k', v) :: L => if decide (k' = k) then Some v else assoc k L
  end.

Definition set_ip (k : list Z) (ip : Z) (L : names) : names :=
  (λ '(k', v), if decide (k' = k) then (k', ip) else (k', v)) <$> L.

(** A known name gets the new address; a new name is appended, in the place of
    the last one when the cache is full. *)
Definition cache_put (k : list Z) (ip : Z) (L : names) : names :=
  if decide (k ∈ L.*1) then set_ip k ip L
  else if decide (length L < 16)%nat then L ++ [(k, ip)]
  else take 15 L ++ [(k, ip)].

Lemma assoc_None k L : assoc k L = None ↔ k ∉ L.*1.
Proof.
  induction L as [|[k' v] L IH]; cbn [assoc fmap list_fmap]; [split; [intros _; apply not_elem_of_nil|done]|].
  rewrite not_elem_of_cons. destruct (decide (k' = k)) as [->|]; [|rewrite IH]; naive_solver.
Qed.

Lemma assoc_put k ip L : assoc k (cache_put k ip L) = Some ip.
Proof.
  unfold cache_put. destruct (decide (k ∈ L.*1)) as [Hin|Hout].
  - induction L as [|[k' v] L IH]; [by apply elem_of_nil in Hin|]. cbn [set_ip fmap list_fmap assoc].
    destruct (decide (k' = k)) as [->|Hne]; cbn [assoc]; [by rewrite decide_True|]. rewrite decide_False by done. apply IH.
    cbn [fmap list_fmap] in Hin. by apply elem_of_cons in Hin as [|].
  - assert (∀ L', k ∉ L'.*1 → assoc k (L' ++ [(k, ip)]) = Some ip) as Happ.
    { induction L' as [|[k' v] L' IH]; cbn [app assoc fmap list_fmap]; [by rewrite decide_True|].
      rewrite not_elem_of_cons. intros [H1 H2]. rewrite decide_False by done. by apply IH. }
    case_decide; apply Happ; [done|]. rewrite <-(take_drop 15 L), fmap_app, not_elem_of_app in Hout. by destruct Hout.
Qed.

Lemma set_ip_keys k ip L : (set_ip k ip L).*1 = L.*1.
Proof.
  unfold set_ip. rewrite <-list_fmap_compose. apply list_fmap_ext. intros i [k' v] _. cbn. by case_decide.
Qed.

(** ** The cache in memory *)

Record live (e : dns_cache_entry_t) : Prop := mk_live {
  lv_valid : de_valid e = true;
  lv_name : length (de_name e) = 128%nat;
  lv_nul : 0 ∈ de_name e;
  lv_age : de_age e = 0
}.
Record vacant (e : dns_cache_entry_t) : Prop := mk_vacant {
  vc_valid : de_valid e = false;
  vc_name : length (de_name e) = 128%nat;
  vc_age : de_age e = 0
}.

Definition line (e : dns_cache_entry_t) : list Z * Z := (key (cname (de_name e)), de_ip e).

Definition cache_rep (es : list dns_cache_entry_t) (L : names) : Prop :=
  ∃ us fs, es = us ++ fs ∧ length es = 16%nat ∧ Forall live us ∧ Forall vacant fs ∧ L = line <$> us ∧ NoDup L.*1.

(** A search through a whole array. *)
Lemma find_up_all {A} (l : list A) (p : A → bool) :
  (∃ l1 x l2, l = l1 ++ x :: l2 ∧ find_up (length l) 0 l p = Some (Some (Z.of_nat (length l1))) ∧ p x = true ∧ Forall (λ y, p y = false) l1) ∨
  find_up (length l) 0 l p = Some None ∧ Forall (λ y, p y = false) l.
Proof.
  destruct (find_up_spec (length l) 0 l p) as (r & E & H); [lia|lia|]. destruct r as [j|].
  - left. destruct H as (Hj & (x & Hx & Hp) & Hlt). apply aget_Some in Hx as [_ Hx].
    exists (take (Z.to_nat j) l), x, (drop (S (Z.to_nat j)) l). split; [by rewrite take_drop_middle|].
    rewrite length_take, Nat.min_l by lia. rewrite Z2Nat.id by lia. split; [done|]. split; [done|].
    apply Forall_lookup_2. intros k y Hk. apply lookup_take_Some in Hk as [Hk Hkj].
    apply (Hlt (Z.of_nat k)); [lia|]. by rewrite aget_of_nat.
  - right. split; [done|]. apply Forall_lookup_2. intros k y Hk. apply (H (Z.of_nat k)); [|by rewrite aget_of_nat].
    apply lookup_lt_Some in Hk. lia.
Qed.

Definition has_key (k : list Z) (e : dns_cache_entry_t) : bool := de_valid e && bool_decide (key (cname (de_name e)) = k).

(** The loop with the string comparison is a search. *)
Lemma cache_find_search r name :
  0 ∈ name → length (dr_cache r) = 16%nat → (∀ e, e ∈ dr_cache r → de_valid e = true → 0 ∈ de_name e) →
  dns_cache_find r name = find_up (length (dr_cache r)) 0 (dr_cache r) (has_key (key (cname name))).
Proof.
  intros Hn Hl He. unfold dns_cache_find. change (Z.to_nat DNS_CACHE_MAX) with 16%nat. rewrite Hl.
  set (body := λ (i : Z) (found : option Z), _).
  assert (∀ n i j, for_up n i body (Some j) = Some (Some j)) as Hdone.
  { induction n as [|n IH]; intros i j; [done|]. exact (IH (i + 1) j). }
  assert (∀ i, body i None = (e ← aget (dr_cache r) i;
    if de_valid e then eq ← ow_streq_ci (de_name e) name; Some (if (eq : bool) then Some i else None) else Some None)) as Hstep by done.
  clearbody body. generalize 16%nat at 1 2. intros n. generalize 0 at 1 2. intros i. revert i.
  induction n as [|n IH]; intros i; [done|]. cbn [for_up find_up]. rewrite Hstep.
  destruct (aget (dr_cache r) i) as [e|] eqn:Ee; [|done]. rewrite !obind_Some. unfold has_key at 1.
  apply aget_Some in Ee as [_ Ee]. apply list_elem_of_lookup_2 in Ee.
  destruct (de_valid e) eqn:Ev; cbn [andb]; [|rewrite obind_Some; apply IH].
  rewrite streq_spec, !obind_Some by (done || by apply He). destruct (bool_decide _); [apply Hdone|apply IH].
Qed.

Lemma key_unique (L : names) i j k v v' : NoDup L.*1 → L !! i = Some (k, v) → L !! j = Some (k, v') → i = j.
Proof. intros HN Hi Hj. eapply (NoDup_lookup L.*1); [done|by rewrite list_lookup_fmap, Hi|by rewrite list_lookup_fmap, Hj]. Qed.

Lemma assoc_lookup (L : names) j k v : NoDup L.*1 → L !! j = Some (k, v) → assoc k L = Some v.
Proof.
  revert j. induction L as [|[k' v'] L IH]; intros j HN Hj; [done|]. cbn [assoc fmap list_fmap] in *.
  apply NoDup_cons in HN as [Hk HN]. destruct j as [|j]; [injection Hj as -> ->; by rewrite decide_True|].
  rewrite decide_False; [by apply (IH j)|]. intros ->. apply Hk. apply list_elem_of_fmap. exists (k, v).
  split; [done|]. by eapply list_elem_of_lookup_2.
Qed.

Lemma set_ip_insert (L : names) j k v ip : NoDup L.*1 → L !! j = Some (k, v) → set_ip k ip L = <[j := (k, ip)]> L.
Proof.
  intros HN Hj. apply list_eq. intros i. unfold set_ip. rewrite list_lookup_fmap.
  destruct (decide (i = j)) as [->|Hne].
  - rewrite list_lookup_insert_eq by (by eapply lookup_lt_Some). rewrite Hj. cbn. by rewrite decide_True.
  - rewrite list_lookup_insert_ne by done. destruct (L !! i) as [[k' v']|] eqn:Hi; [|done]. cbn.
    rewrite decide_False; [done|]. intros ->. by eapply Hne, key_unique.
Qed.

(** The slot that a lookup finds. *)
Lemma dns_find_spec r name us fs :
  0 ∈ name → dr_cache r = us ++ fs → length (dr_cache r) = 16%nat → Forall live us → Forall vacant fs →
  (∃ j e, us !! j = Some e ∧ (line e).1 = key (cname name) ∧ dns_cache_find r name = Some (Some (Z.of_nat j))) ∨
  dns_cache_find r name = Some None ∧ key (cname name) ∉ (line <$> us).*1.
Proof.
  intros Hn Er Hl Hus Hfs. rewrite cache_find_search; [|done|done|].
  2: { intros e He Hv. rewrite Er in He. apply elem_of_app in He as [He|He].
       - by apply (proj1 (Forall_forall _ _) Hus e He).
       - pose proof (vc_valid _ (proj1 (Forall_forall _ _) Hfs e He)). congruence. }
  destruct (find_up_all (dr_cache r) (has_key (key (cname name)))) as [(l1 & e & l2 & El & -> & Hp & _)|[-> Hf]].
  - left. apply andb_true_iff in Hp as [Hv Hk%bool_decide_eq_true]. exists (length l1), e. split_and!; [|done|done].
    assert ((us ++ fs) !! length l1 = Some e) as He by (rewrite <-Er, El; by apply list_lookup_middle).
    destruct (decide (length l1 < length us)%nat) as [Hlt|Hge]; [by rewrite lookup_app_l in He|].
    rewrite lookup_app_r in He by lia. apply (Forall_lookup_1 _ _ _ _ Hfs) in He. pose proof (vc_valid _ He). congruence.
  - right. split; [done|]. rewrite Er in Hf. apply Forall_app in Hf as [Hf _]. intros Hin.
    rewrite <-list_fmap_compose in Hin. apply list_elem_of_fmap in Hin as (e & Ek & He).
    pose proof (proj1 (Forall_forall _ _) Hf e He) as Hh. cbn beta in Hh. unfold has_key in Hh.
    rewrite (lv_valid _ (proj1 (Forall_forall _ _) Hus e He)) in Hh. cbn [andb] in Hh.
    apply bool_decide_eq_false in Hh. apply Hh. by rewrite Ek.
Qed.

Lemma victim_spec r :
  length (dr_cache r) = 16%nat → Forall (λ e, de_age e = 0) (dr_cache r) → dns_victim r = Some (0, 15).
Proof.
  intros Hl Ha. unfold dns_victim. change (Z.to_nat DNS_CACHE_MAX) with 16%nat.
  loop_inv (λ (j : Z) (x : Z * Z), x = (0, Z.max 0 (j - 1))) as (x & -> & ->); [done| |done].
  intros j x Hj ->. destruct (aget_is_Some (dr_cache r) j) as [e He]; [lia|]. rewrite He, obind_Some.
  apply aget_Some in He as [_ He]. apply (Forall_lookup_1 _ _ _ _ Ha) in He. rewrite He. eexists. split; [done|].
  cbn. f_equal. lia.
Qed.

(** Filling a slot. *)
Lemma dns_fill_spec r i name ip ttl e :
  0 ∈ name → (length (cname name) < 128)%nat → dr_cache r !! i = Some e → length (de_name e) = 128%nat →
  ∃ e', dns_fill r (Z.of_nat i) name ip ttl = Some (r <| dr_cache := <[i := e']> (dr_cache r) |>) ∧
    live e' ∧ line e' = (key (cname name), ip).
Proof.
  intros Hn Hl He Hle. unfold dns_fill. rewrite dns_strlen_spec, obind_Some by done. cbv zeta.
  rewrite (proj2 (Z.leb_gt _ _)) by (unfold DNS_MAX_NAME; lia). rewrite aget_of_nat, He, obind_Some.
  destruct (cname_spec name Hn) as [rest En].
  pose proof (cname_length name Hn) as Hcl. rewrite copy_bytes_spec, obind_Some by lia.
  set (s := cname name) in *. replace (take (length s) name) with s by (by rewrite En, take_app_length).
  destruct (drop (length s) (de_name e)) as [|x d] eqn:Ed.
  { apply (f_equal length) in Ed. rewrite length_drop in Ed. simpl in Ed. lia. }
  rewrite aset_next, obind_Some by done. rewrite <-app_assoc. cbn [app].
  rewrite aset_in by (apply lookup_lt_Some in He; lia). rewrite Nat2Z.id, obind_Some. eexists. split; [done|].
  assert (length (s ++ 0 :: d) = 128%nat) as Hsd.
  { apply (f_equal length) in Ed. rewrite length_drop in Ed. rewrite length_app. simpl in *. lia. }
  split.
  - constructor; cbn; [done|done| |done]. set_solver.
  - unfold line. cbn [de_name de_ip set_field]. rewrite cname_terminated by apply cname_nonzero. done.
Qed.

Lemma vacant_first us fs (es : list dns_cache_entry_t) :
  es = us ++ fs → length es = 16%nat → Forall live us → Forall vacant fs →
  find_up (Z.to_nat DNS_CACHE_MAX) 0 es (λ e, negb (de_valid e)) =
    Some (if decide (fs = []) then None else Some (Z.of_nat (length us))).
Proof.
  intros -> Hl Hus Hfs. change (Z.to_nat DNS_CACHE_MAX) with 16%nat. rewrite <-Hl.
  destruct (find_up_all (us ++ fs) (λ e, negb (de_valid e))) as [(l1 & x & l2 & E & -> & Hp & Hf)|[-> Hf]].
  - assert (length l1 = length us) as ->.
    { destruct (Nat.lt_trichotomy (length l1) (length us)) as [H|[H|H]]; [|done|].
      - assert ((us ++ fs) !! length l1 = Some x) as Hx by (rewrite E; by apply list_lookup_middle).
        rewrite lookup_app_l in Hx by done. apply (Forall_lookup_1 _ _ _ _ Hus) in Hx. rewrite (lv_valid _ Hx) in Hp. done.
      - destruct (lookup_lt_is_Some_2 l1 (length us) H) as [y Hy].
        assert ((us ++ fs) !! length us = Some y) as Hy' by (rewrite E, lookup_app_l by done; done).
        rewrite lookup_app_r, Nat.sub_diag in Hy' by lia. apply (Forall_lookup_1 _ _ _ _ Hfs) in Hy'.
        apply (Forall_lookup_1 _ _ _ _ Hf) in Hy. cbn in Hy. rewrite (vc_valid _ Hy') in Hy. done. }
    destruct (decide (fs = [])) as [->|]; [|done]. exfalso. rewrite app_nil_r in E.
    assert (x ∈ us) as Hx by (rewrite E; set_solver). apply (proj1 (Forall_forall _ _) Hus) in Hx.
    rewrite (lv_valid _ Hx) in Hp. done.
  - destruct fs as [|f fs]; [done|]. apply Forall_app in Hf as [_ Hf]. apply Forall_cons_1 in Hf as [Hf _], Hfs as [Hv _].
    rewrite (vc_valid _ Hv) in Hf. done.
Qed.

(** What each way of storing an entry does to the list. *)
Lemma rep_set us fs j k v ip e' :
  length (us ++ fs) = 16%nat → Forall live us → Forall vacant fs → NoDup (line <$> us).*1 →
  (line <$> us) !! j = Some (k, v) → live e' → line e' = (k, ip) →
  cache_rep (<[j := e']> (us ++ fs)) (set_ip k ip (line <$> us)).
Proof.
  intros Hl Hus Hfs HN HL Hlive Hline. rewrite (set_ip_insert _ j k v) by done.
  pose proof (lookup_lt_Some _ _ _ HL) as Hj. rewrite length_fmap in Hj.
  exists (<[j := e']> us), fs. rewrite insert_app_l by done. split; [done|].
  split; [by rewrite length_app, length_insert, <-length_app|]. split; [by apply Forall_insert|]. split; [done|].
  split; [by rewrite list_fmap_insert, Hline|]. rewrite list_fmap_insert, list_insert_id; [done|]. by rewrite list_lookup_fmap, HL.
Qed.

Lemma rep_append us f fs k ip e' :
  length (us ++ f :: fs) = 16%nat → Forall live us → Forall vacant (f :: fs) → NoDup (line <$> us).*1 →
  k ∉ (line <$> us).*1 → live e' → line e' = (k, ip) →
  cache_rep (<[length us := e']> (us ++ f :: fs)) ((line <$> us) ++ [(k, ip)]).
Proof.
  intros Hl Hus Hfs HN Hk Hlive Hline. apply Forall_cons_1 in Hfs as [_ Hfs].
  exists (us ++ [e']), fs. replace (length us) with (length us + 0)%nat by lia. rewrite insert_app_r. cbn [insert list_insert].
  rewrite <-app_assoc. split; [done|]. split; [rewrite !length_app in *; simpl in *; lia|].
  split; [by apply Forall_app_2; [|constructor]|]. split; [done|]. rewrite fmap_app. cbn [fmap list_fmap]. rewrite Hline.
  split; [done|]. rewrite fmap_app. apply NoDup_app. split; [done|]. split; [|apply NoDup_singleton].
  intros x Hx Hx'. apply list_elem_of_singleton in Hx'. cbn in Hx'. by subst x.
Qed.

Lemma rep_replace us k ip e' :
  length us = 16%nat → Forall live us → NoDup (line <$> us).*1 → k ∉ (line <$> us).*1 → live e' → line e' = (k, ip) →
  cache_rep (<[15%nat := e']> us) (take 15 (line <$> us) ++ [(k, ip)]).
Proof.
  intros Hl Hus HN Hk Hlive Hline. rewrite <-(take_drop 15 us) in Hl, Hus, HN, Hk |- *.
  assert (length (take 15 us) = 15%nat) as H15 by (rewrite length_app, length_take, length_drop in Hl; rewrite length_take; lia).
  set (u := take 15 us) in *. destruct (drop 15 us) as [|f [|f2 fs]]; rewrite length_app in Hl; simpl in Hl; try lia.
  clearbody u. rewrite fmap_app, take_app_length' by (by rewrite length_fmap). rewrite !fmap_app in HN, Hk.
  apply NoDup_app in HN as (HN & _ & _). apply not_elem_of_app in Hk as [Hk _]. apply Forall_app in Hus as [Hus _].
  replace 15%nat with (length u + 0)%nat by lia. rewrite insert_app_r. cbn [insert list_insert].
  exists (u ++ [e']), []. rewrite app_nil_r, length_app. split; [done|]. split; [simpl; lia|].
  split; [by apply Forall_app_2; [|constructor]|]. split; [constructor|]. rewrite fmap_app. cbn [fmap list_fmap]. rewrite Hline.
  split; [done|]. rewrite fmap_app. apply NoDup_app. split; [done|]. split; [|apply NoDup_singleton].
  intros x Hx Hx'. apply list_elem_of_singleton in Hx'. cbn in Hx'. by subst x.
Qed.

Lemma dns_insert_spec r name ip ttl L :
  0 ∈ name → (length (cname name) < 128)%nat → cache_rep (dr_cache r) L →
  ∃ es, dns_cache_insert r name ip ttl = Some (r <| dr_cache := es |>) ∧ cache_rep es (cache_put (key (cname name)) ip L).
Proof.
  intros Hn Hlen (us & fs & Er & Hl & Hus & Hfs & -> & HN). unfold dns_cache_insert, cache_put. set (k := key (cname name)).
  destruct (dns_find_spec r name us fs Hn Er Hl Hus Hfs) as [(j & e & Hj & Hk & ->)|[-> Hout]]; rewrite obind_Some.
  - assert (dr_cache r !! j = Some e) as He by (rewrite Er; by apply lookup_app_l_Some).
    rewrite aget_of_nat, He, obind_Some, aset_in by (apply lookup_lt_Some in He; lia). rewrite Nat2Z.id, obind_Some.
    assert ((line <$> us) !! j = Some (k, de_ip e)) as HL.
    { rewrite list_lookup_fmap, Hj. change (Some ((line e).1, de_ip e) = Some (k, de_ip e)). by rewrite Hk. }
    rewrite decide_True by (apply list_elem_of_fmap; exists (k, de_ip e); split; [done|by eapply list_elem_of_lookup_2]).
    eexists. split; [done|]. rewrite Er in Hl |- *. eapply rep_set; try done.
    + apply (Forall_lookup_1 _ _ _ _ Hus) in Hj as []. by constructor.
    + change (((line e).1, ip) = (k, ip)). by rewrite Hk.
  - rewrite (vacant_first us fs) by done. rewrite obind_Some. rewrite (decide_False (P := k ∈ (line <$> us).*1)) by done. rewrite length_fmap.
    destruct fs as [|f fs].
    + rewrite app_nil_r in Er. rewrite decide_True by done. rewrite decide_False by (rewrite Er in Hl; lia).
      rewrite victim_spec, obind_Some; [|done|rewrite Er; eapply Forall_impl; [exact Hus|]; by intros ? []].
      destruct (lookup_lt_is_Some_2 (dr_cache r) 15) as [e He]; [lia|]. change 15 with (Z.of_nat 15) at 1.
      destruct (dns_fill_spec r 15 name ip ttl e) as (e' & -> & Hlive & Hline); [done..| |].
      { rewrite Er in He. apply (Forall_lookup_1 _ _ _ _ Hus) in He. by destruct He. }
      eexists. split; [done|]. rewrite Er in Hl |- *. by apply rep_replace.
    + rewrite decide_False by done. rewrite decide_True by (rewrite Er, length_app in Hl; simpl in Hl; lia).
      destruct (dns_fill_spec r (length us) name ip ttl f) as (e' & -> & Hlive & Hline); [done..| | |].
      { rewrite Er. by apply list_lookup_middle. }
      { by apply Forall_cons_1 in Hfs as [[] _]. }
      eexists. split; [done|]. rewrite Er in Hl |- *. by apply rep_append.
Qed.
