(* ===== verification/DnsClaims.v ===== *)
(** The resolver under every sequence of calls, and a resolution from the query
    to the cached answer. *)
From S2P Require Import Prelude Tcpcore TcpSeg Dnscli DnsWire DnsSpec.

(** ** Queries *)

(** Recursion desired, one question for an Internet address. *)
Definition query_header (id : Z) : list Z := be_bytes 2 id ++ [1; 0; 0; 1; 0; 0; 0; 0; 0; 0].
Definition query (id : Z) (s : list Z) : list Z := query_header id ++ qname (split_dots s) ++ [0; 1; 0; 1].

Lemma wr16_next p x y r off v :
  off = Z.of_nat (length p) → is_u16 v →
  dns_wr16 (p ++ x :: y :: r) off v = Some ((p ++ be_bytes 2 v) ++ r).
Proof.
  intros -> Hv. unfold dns_wr16. rewrite aset_next, obind_Some by done.
  rewrite aset_next by (rewrite length_app; simpl; lia). rewrite <-!app_assoc. do 2 f_equal.
  change (be_bytes 2 v) with [v / 256 mod 256; v mod 256]. rewrite Z.shiftr_div_pow2 by lia. done.
Qed.

Lemma query_header_spec m id :
  (12 ≤ length m)%nat → is_u16 id → put_query_header m id = Some (query_header id ++ drop 12 m).
Proof.
  intros Hl Hid. unfold put_query_header, DNS_HEADER_LEN. change (Z.to_nat 12) with 12%nat.
  change 12 with (Z.of_nat 12). rewrite copy_bytes_spec, obind_Some by (rewrite ?length_replicate; lia).
  set (d := drop 12 m). change (take 12 (replicate 12 0) ++ d) with ([] ++ 0 :: 0 :: replicate 10 0 ++ d).
  rewrite wr16_next, obind_Some by done. change (replicate 10 0 ++ d) with (0 :: 0 :: replicate 8 0 ++ d).
  rewrite wr16_next, obind_Some by done. change (replicate 8 0 ++ d) with (0 :: 0 :: replicate 6 0 ++ d).
  rewrite wr16_next by done. unfold query_header. by rewrite <-!app_assoc.
Qed.

(** ** The abstract resolver *)

Record dns_abs := mk_na {
  na_server : Z;
  na_next : Z;                           (* identifier of the next query *)
  na_pending : Z;                        (* identifier of the last query *)
  na_name : list Z;                      (* its name *)
  na_cache : names
}.

Section abs.
Context {W : Type} (call_udp_tx : Z → Z → Z → Z → list Z → W → W * Z) (tx ctx : Z).

(** The status and the address. *)
Definition nabs_resolve (name : list Z) (w : W) (a : dns_abs) : W * dns_abs * (Z * Z) :=
  if na_server a =? 0 then (w, a, (DNS_ERR_NO_SERVER, 0))
  else match assoc (key name) (na_cache a) with
  | Some ip => (w, a, (DNS_OK, ip))
  | None =>
      if (128 <=? length name)%nat then (w, a, (DNS_ERR_NAME, 0))
      else
        let next := u16 (na_next a + 1) in
        if decide (Forall label_ok (split_dots name)) then
          let '(w, rc) := call_udp_tx tx ctx (na_server a) DNS_PORT (query (na_next a) name) w in
          (w, mk_na (na_server a) next (na_next a) name (na_cache a), (if rc =? DNS_OK then DNS_ERR_PENDING else rc, 0))
        else (w, mk_na (na_server a) next (na_next a) (na_name a) (na_cache a), (DNS_ERR_NAME, 0))
  end.

Definition nabs_input (m : list Z) (a : dns_abs) : dns_abs * Z :=
  match read_response (na_pending a) m with
  | inl rc => (a, rc)
  | inr (ip, _) =>
      (mk_na (na_server a) (na_next a) (na_pending a) (na_name a) (cache_put (key (na_name a)) ip (na_cache a)), DNS_OK)
  end.

Inductive dns_op :=
  | NResolve (name : list Z)
  | NInput (msg : list Z)
  | NLookup (name : list Z)
  | NFlush
  | NSetServer (ip : Z).

(** Names are the strings in the callers' buffers. *)
Definition nabs_exec (op : dns_op) (w : W) (a : dns_abs) : W * dns_abs * (Z * Z) :=
  match op with
  | NResolve buf => nabs_resolve (cname buf) w a
  | NInput m => let '(a, rc) := nabs_input m a in (w, a, (rc, 0))
  | NLookup buf =>
      (w, a, match assoc (key (cname buf)) (na_cache a) with Some ip => (DNS_OK, ip) | None => (DNS_ERR_NO_DATA, 0) end)
  | NFlush => (w, mk_na (na_server a) (na_next a) (na_pending a) (na_name a) [], (DNS_OK, 0))
  | NSetServer ip => (w, mk_na ip (na_next a) (na_pending a) (na_name a) (na_cache a), (DNS_OK, 0))
  end.

Definition dns_exec (op : dns_op) (w : W) (r : dns_resolver_t) : option (W * dns_resolver_t * (Z * Z)) :=
  match op with
  | NResolve buf =>
      '(w, r, out, rc) ← dns_resolve call_udp_tx (Some r) (Some buf) (Some 0) w;
      r ← r; out ← out; Some (w, r, (rc, out))
  | NInput m =>
      '(r, rc) ← dns_input (Some r) (Some m) (Z.of_nat (length m)); r ← r; Some (w, r, (rc, 0))
  | NLookup buf =>
      '(out, rc) ← dns_cache_lookup (Some r) (Some buf) (Some 0); out ← out; Some (w, r, (rc, out))
  | NFlush => let '(r, rc) := dns_cache_flush (Some r) in r ← r; Some (w, r, (rc, 0))
  | NSetServer ip => let '(r, rc) := dns_set_server (Some r) ip in r ← r; Some (w, r, (rc, 0))
  end.

(** Names are terminated strings; messages have any bytes. *)
Definition dns_op_ok (op : dns_op) : Prop :=
  match op with
  | NResolve buf => 0 ∈ buf ∧ octets buf
  | NLookup buf => 0 ∈ buf
  | NInput m => octets m ∧ Z.of_nat (length m) ≤ 65535
  | _ => True
  end.

(** ** Representation *)

Record dns_rep (r : dns_resolver_t) (a : dns_abs) : Prop := mk_dns_rep {
  dp_init : dr_initialized r = true;
  dp_server : dr_server_ip r = na_server a;
  dp_port : dr_server_port r = DNS_PORT;
  dp_next : dr_next_id r = na_next a;
  dp_id : is_u16 (na_next a);
  dp_pending : dr_pending_id r = na_pending a;
  dp_plen : length (dr_pending_name r) = 128%nat;
  dp_nul : 0 ∈ dr_pending_name r;
  dp_name : cname (dr_pending_name r) = na_name a;
  dp_cache : cache_rep (dr_cache r) (na_cache a);
  dp_scratch : length (dr_scratch r) = 512%nat;
  dp_tx : dr_udp_tx r = tx;
  dp_ctx : dr_udp_ctx r = ctx
}.

Lemma dns_lookup_spec r a buf out :
  dns_rep r a → 0 ∈ buf →
  dns_cache_lookup (Some r) (Some buf) (Some out) =
    Some (match assoc (key (cname buf)) (na_cache a) with
          | Some ip => (Some ip, DNS_OK)
          | None => (Some out, DNS_ERR_NO_DATA)
          end).
Proof.
  intros Hr Hb. unfold dns_cache_lookup. destruct (dp_cache _ _ Hr) as (us & fs & Er & Hl & Hus & Hfs & -> & HN).
  destruct (dns_find_spec r buf us fs Hb Er Hl Hus Hfs) as [(j & e & Hj & Hk & ->)|[-> Hout]]; rewrite obind_Some.
  - rewrite aget_of_nat, Er, (lookup_app_l_Some _ _ _ _ Hj), obind_Some.
    rewrite (assoc_lookup _ j _ (de_ip e)); [done|done|]. rewrite list_lookup_fmap, Hj, <-Hk. done.
  - by rewrite (proj2 (assoc_None _ _) Hout).
Qed.

(** The question behind the name. *)
Lemma put_question P R :
  (4 ≤ length R)%nat →
  ∃ R', (m ← dns_wr16 (P ++ R) (Z.of_nat (length P)) DNS_TYPE_A;
         dns_wr16 m (Z.of_nat (length P) + 2) DNS_CLASS_IN) = Some ((P ++ [0; 1; 0; 1]) ++ R') ∧ R' = drop 4 R.
Proof.
  intros HR. do 4 (destruct R as [|? R]; [simpl in HR; lia|]). exists R. split; [|done].
  rewrite wr16_next, obind_Some by done. rewrite wr16_next by (done || rewrite length_app; simpl; lia).
  by rewrite <-!app_assoc.
Qed.

(** A string that is copied into a buffer of 128 bytes. *)
Lemma store_name buf d :
  0 ∈ buf → (length (cname buf) < 128)%nat → length d = 128%nat →
  ∃ d', (pn ← copy_bytes (Z.of_nat (length (cname buf))) buf d; aset pn (Z.of_nat (length (cname buf))) 0) = Some d' ∧
    length d' = 128%nat ∧ 0 ∈ d' ∧ cname d' = cname buf.
Proof.
  intros Hb Hl Hd. pose proof (cname_length buf Hb) as Hcl. rewrite copy_bytes_spec, obind_Some by lia.
  destruct (cname_spec buf Hb) as [rest E]. pose proof (cname_nonzero buf) as Hnz. set (s := cname buf) in *.
  replace (take (length s) buf) with s by (by rewrite E, take_app_length).
  destruct (drop (length s) d) as [|x d2] eqn:Ed; apply (f_equal length) in Ed; rewrite length_drop in Ed; simpl in Ed; [lia|].
  rewrite aset_next by done. eexists. split; [done|]. rewrite <-app_assoc. cbn [app].
  split; [rewrite length_app; simpl; lia|]. split; [set_solver|by apply cname_terminated].
Qed.

Lemma resolve_step buf w r a :
  dns_rep r a → 0 ∈ buf → octets buf →
  ∃ w' r' a' out, dns_exec (NResolve buf) w r = Some (w', r', out) ∧ nabs_resolve (cname buf) w a = (w', a', out) ∧ dns_rep r' a'.
Proof.
  intros Hr Hb Ho. unfold dns_exec, dns_resolve, nabs_resolve. rewrite (dp_init _ _ Hr), (dp_server _ _ Hr). cbn [negb].
  destruct (na_server a =? 0); [by exists w, r, a, (DNS_ERR_NO_SERVER, 0)|].
  rewrite (dns_lookup_spec r a buf 0 Hr Hb), obind_Some. destruct (assoc _ _) as [ip|]; [by exists w, r, a, (DNS_OK, ip)|].
  change (DNS_ERR_NO_DATA =? DNS_OK) with false. cbv iota. rewrite dns_strlen_spec, obind_Some by done. unfold DNS_MAX_NAME.
  destruct (Nat.leb_spec 128 (length (cname buf))) as [Hge|Hlt].
  { rewrite (proj2 (Z.leb_le _ _)) by lia. by exists w, r, a, (DNS_ERR_NAME, 0). }
  rewrite (proj2 (Z.leb_gt _ _)) by lia. pose proof (dp_scratch _ _ Hr) as Hs. pose proof (dp_id _ _ Hr) as Hid.
  rewrite (dp_next _ _ Hr), query_header_spec, obind_Some by (done || lia).
  set (P := query_header (na_next a)). set (R := drop 12 (dr_scratch r)).
  assert (length R = 500%nat) as HR by (unfold R; rewrite length_drop; lia).
  assert (Z.of_nat (length P) = DNS_HEADER_LEN) as HP by done.
  destruct (encode_name_spec buf P (DNS_MSG_MAX - DNS_HEADER_LEN - 4) Hb Ho Hlt ltac:(done) R ltac:(lia)) as (dst & v & Ee & Hd & Hv).
  rewrite HP in Ee. rewrite Ee, obind_Some. cbv zeta.
  set (r1 := r <| dr_pending_id := na_next a |> <| dr_next_id := u16 (na_next a + 1) |>).
  assert (length dst = 512%nat) as Hd' by (rewrite Hd, length_app, HR; done).
  destruct (decide (Forall label_ok (split_dots (cname buf)))) as [Hok|Hbad].
  2: { rewrite Hv. eexists _, _, _, _. split; [done|]. split; [done|].
       destruct Hr. constructor; cbn; try done. apply u16_range. }
  destruct Hv as [-> ->]. set (q := qname _) in *.
  assert (length q = S (S (length (cname buf)))) as Hq by (unfold q, qname; rewrite length_app, qlabels_length; simpl; lia).
  rewrite (proj2 (Z.eqb_neq _ _)) by lia. unfold DNS_HEADER_LEN.
  rewrite (u32_small (12 + _)) by lia. rewrite (u32_small (12 + _ + 2)) by lia. rewrite u32_small by lia.
  destruct (put_question (P ++ q) (drop (length q) R)) as (R' & E & ->); [rewrite length_drop; lia|].
  apply bind_Some in E as (m1 & E1 & E2).
  replace (Z.of_nat (length (P ++ q))) with (12 + Z.of_nat (length q)) in E1, E2 by (rewrite length_app, Nat2Z.inj_add, HP; done).
  rewrite <-app_assoc in E1. rewrite E1, obind_Some, E2, obind_Some.
  destruct (store_name buf (dr_pending_name r) Hb Hlt (dp_plen _ _ Hr)) as (d & Ed & Hdl & Hd0 & Hdn).
  apply bind_Some in Ed as (d1 & Ed1 & Ed2). change (dr_pending_name r1) with (dr_pending_name r).
  rewrite Ed1, obind_Some, Ed2, obind_Some.
  set (m2 := ((P ++ q) ++ _) ++ _) in *. assert (m2 = query (na_next a) (cname buf) ++ drop 4 (drop (length q) R)) as Em
    by (unfold m2, query; fold P q; by rewrite <-!app_assoc).
  assert (length (query (na_next a) (cname buf)) = (16 + length q)%nat) as Hql
    by (unfold query; fold P q; rewrite !length_app; simpl; lia).
  assert (length m2 = 512%nat) as Hm2 by (rewrite Em, length_app, Hql, !length_drop; lia).
  rewrite aslice_in, obind_Some by lia. replace (Z.to_nat (12 + Z.of_nat (length q) + 2 + 2)) with (16 + length q)%nat by lia.
  change (Z.to_nat 0) with 0%nat. rewrite drop_0, Em, take_app_length' by done.
  rewrite <-Em. set (r2 := r1 <| dr_scratch := m2 |> <| dr_pending_name := d |>).
  assert (dr_udp_tx r2 = tx ∧ dr_udp_ctx r2 = ctx ∧ dr_server_port r2 = DNS_PORT ∧ dr_server_ip r2 = na_server a)
    as (-> & -> & -> & ->) by (split_and!; apply Hr).
  destruct (call_udp_tx _ _ _ _ _ w) as [w' rc]. rewrite !obind_Some.
  eexists _, r2, _, _. split; [done|]. split; [by destruct (rc =? DNS_OK)|].
  destruct Hr. constructor; try done. apply u16_range.
Qed.

Lemma input_step m w r a :
  dns_rep r a → octets m → Z.of_nat (length m) ≤ 65535 →
  ∃ r' a' rc, dns_exec (NInput m) w r = Some (w, r', (rc, 0)) ∧ nabs_input m a = (a', rc) ∧ dns_rep r' a'.
Proof.
  intros Hr Ho Hl. unfold dns_exec, nabs_input. rewrite (dns_input_read m Ho Hl r (dp_init _ _ Hr)), (dp_pending _ _ Hr).
  destruct (read_response (na_pending a) m) as [rc|[ip ttl]].
  { rewrite !obind_Some. by exists r, a, rc. }
  destruct (dns_insert_spec r (dr_pending_name r) ip ttl (na_cache a) (dp_nul _ _ Hr)) as (es & -> & Hes).
  { pose proof (cname_length _ (dp_nul _ _ Hr)). rewrite (dp_plen _ _ Hr) in H. lia. }
  { apply Hr. }
  rewrite !obind_Some. eexists _, _, _. split; [done|]. split; [done|]. rewrite (dp_name _ _ Hr) in Hes.
  destruct Hr. by constructor.
Qed.

Lemma empty_cache_rep : cache_rep zero_dns_cache [].
Proof.
  exists [], zero_dns_cache. split; [done|]. split; [done|]. split; [constructor|].
  split; [by apply Forall_replicate; constructor|]. split; [done|constructor].
Qed.

(** Every call does a step of the abstract resolver. *)
Lemma dns_exec_step op w r a :
  dns_rep r a → dns_op_ok op →
  ∃ w' r' a' out, dns_exec op w r = Some (w', r', out) ∧ nabs_exec op w a = (w', a', out) ∧ dns_rep r' a'.
Proof.
  intros Hr Hop. destruct op as [buf|m|buf| |ip]; cbn [nabs_exec].
  - destruct Hop as [Hb Ho]. by apply resolve_step.
  - destruct Hop as [Ho Hl]. destruct (input_step m w r a Hr Ho Hl) as (r' & a' & rc & E & -> & Hr'). by exists w, r', a', (rc, 0).
  - unfold dns_exec. rewrite (dns_lookup_spec r a buf 0 Hr Hop), obind_Some.
    destruct (assoc _ _) as [ip|]; rewrite obind_Some; by eexists _, r, a, _.
  - cbn [dns_exec dns_cache_flush]. rewrite obind_Some. eexists _, _, _, _. split; [done|]. split; [done|].
    destruct Hr. constructor; try done. apply empty_cache_rep.
  - cbn [dns_exec dns_set_server]. rewrite obind_Some. eexists _, _, _, _. split; [done|]. split; [done|].
    destruct Hr. by constructor.
Qed.

(** ** Sequences of calls *)

Fixpoint dns_run (ops : list dns_op) (w : W) (r : dns_resolver_t) : option (W * dns_resolver_t * list (Z * Z)) :=
  match ops with
  | [] => Some (w, r, [])
  | op :: ops =>
      '(w, r, out) ← dns_exec op w r;
      '(w, r, outs) ← dns_run ops w r;
      Some (w, r, out :: outs)
  end.

Fixpoint nabs_run (ops : list dns_op) (w : W) (a : dns_abs) : W * dns_abs * list (Z * Z) :=
  match ops with
  | [] => (w, a, [])
  | op :: ops =>
      let '(w, a, out) := nabs_exec op w a in
      let '(w, a, outs) := nabs_run ops w a in
      (w, a, out :: outs)
  end.

Lemma dns_run_spec ops : ∀ w r a, dns_rep r a → Forall dns_op_ok ops →
  ∃ w' r' a' outs, dns_run ops w r = Some (w', r', outs) ∧ nabs_run ops w a = (w', a', outs) ∧ dns_rep r' a'.
Proof.
  induction ops as [|op ops IH]; intros w r a Hr Hops; [by exists w, r, a, []|].
  apply Forall_cons_1 in Hops as [Hop Hops].
  destruct (dns_exec_step op w r a Hr Hop) as (w1 & r1 & a1 & out & E1 & Ea1 & Hr1).
  destruct (IH w1 r1 a1 Hr1 Hops) as (w2 & r2 & a2 & outs & E2 & Ea2 & Hr2).
  exists w2, r2, a2, (out :: outs). cbn [dns_run nabs_run]. by rewrite E1, obind_Some, E2, obind_Some, Ea1, Ea2.
Qed.
End abs.

Lemma dns_init_spec r0 server tx ctx :
  tx ≠ 0 →
  ∃ r, dns_init (Some r0) server tx ctx = (Some r, DNS_OK) ∧ dns_rep tx ctx r (mk_na server 0x4E21 0 [] []).
Proof.
  intros Ht. unfold dns_init. rewrite (proj2 (Z.eqb_neq _ _) Ht). eexists. split; [done|].
  constructor; try done; [set_solver|apply empty_cache_rep].
Qed.

(** ** Answers of a server *)

(** A name on the wire: labels that end with the root or with a pointer. *)
Inductive wire_name : list Z → Prop :=
  | wn_root : wire_name [0]
  | wn_pointer h l : 192 ≤ h < 256 → wire_name [h; l]
  | wn_label l n : label_ok l → wire_name n → wire_name (Z.of_nat (length l) :: l ++ n).

Record rr := mk_rr { rr_name : list Z; rr_type : Z; rr_class : Z; rr_ttl : Z; rr_data : list Z }.

Definition rr_ok (x : rr) : Prop :=
  wire_name (rr_name x) ∧ octets (rr_name x) ∧ is_u16 (rr_type x) ∧ is_u16 (rr_class x) ∧ is_u32 (rr_ttl x) ∧
  Z.of_nat (length (rr_data x)) < 65536 ∧ octets (rr_data x).

Definition rr_bytes (x : rr) : list Z :=
  rr_name x ++ be_bytes 2 (rr_type x) ++ be_bytes 2 (rr_class x) ++ be_bytes 4 (rr_ttl x) ++
  be_bytes 2 (Z.of_nat (length (rr_data x))) ++ rr_data x.

(** An address record of the Internet. *)
Definition is_address (x : rr) : bool :=
  (rr_type x =? DNS_TYPE_A) && (rr_class x =? DNS_CLASS_IN) && (Z.of_nat (length (rr_data x)) =? 4).

(** A response without error that repeats the question and has records. *)
Definition response (id flags : Z) (q : list Z) (rs : list rr) (rest : list Z) : list Z :=
  be_bytes 2 id ++ be_bytes 2 flags ++ be_bytes 2 1 ++ be_bytes 2 (Z.of_nat (length rs)) ++ [0; 0; 0; 0] ++
  q ++ [0; 1; 0; 1] ++ concat (rr_bytes <$> rs) ++ rest.

Definition good_flags (flags : Z) : Prop :=
  is_u16 flags ∧ Z.land flags 0x8000 ≠ 0 ∧ Z.land flags 0x0200 = 0 ∧ Z.land flags 0x000F = 0.

Lemma label_bits c : 0 ≤ c < 64 → Z.land c 192 = 0.
Proof.
  intros Hc. assert (all_below 64 (λ c, Z.land c 192 =? 0) = true) as H by (vm_compute; done).
  apply Z.eqb_eq. exact (all_below_spec _ _ c H ltac:(lia)).
Qed.
Lemma pointer_bits h : 192 ≤ h < 256 → Z.land h 192 = 192.
Proof.
  intros Hh. assert (all_below 256 (λ h, implb (192 <=? h) (Z.land h 192 =? 192)) = true) as H by (vm_compute; done).
  pose proof (all_below_spec _ _ h H ltac:(lia)) as E. cbn beta in E. rewrite (proj2 (Z.leb_le _ _)) in E by lia.
  by apply Z.eqb_eq.
Qed.

Lemma name_rest_wire n rest fuel : wire_name n → (length n < fuel)%nat → name_rest fuel (n ++ rest) = Some rest.
Proof.
  intros Hn. revert fuel. induction Hn as [|h l Hh|l n Hl Hn IH]; intros fuel Hf; (destruct fuel as [|fuel]; [simpl in Hf; lia|]).
  - done.
  - cbn [app name_rest]. by rewrite pointer_bits.
  - cbn [app name_rest]. unfold label_ok in Hl. rewrite label_bits by lia. change (0 =? 192) with false. cbn [nz Z.eqb negb].
    rewrite (proj2 (Z.eqb_neq _ _)) by lia. rewrite Nat2Z.id, <-app_assoc, drop_app_length. apply IH.
    cbn [length] in Hf. rewrite length_app in Hf. lia.
Qed.

Lemma questions_one q l :
  wire_name q → questions_rest 1 (q ++ [0; 1; 0; 1] ++ l) = Some l.
Proof.
  intros Hq. cbn [questions_rest]. rewrite name_rest_wire, obind_Some by (done || rewrite length_app; lia).
  by rewrite (proj2 (Nat.ltb_ge _ _)) by (simpl; lia).
Qed.

(** One record of the parser. *)
Lemma first_address_step x l n :
  rr_ok x →
  first_address (S n) (rr_bytes x ++ l) =
    if is_address x then Address (le (rr_data x)) (rr_ttl x) else first_address n l.
Proof.
  intros (Hn & _ & Ht & Hc & Hl & Hd & _). cbn [first_address]. unfold rr_bytes, is_address. rewrite <-!app_assoc.
  rewrite name_rest_wire by (done || rewrite length_app; lia).
  rewrite (proj2 (Nat.ltb_ge _ _)) by (rewrite !length_app; unfold be_bytes; rewrite !length_rev, !le_bytes_length; lia).
  set (d := rr_data x) in *. set (L := Z.of_nat (length d)). assert (is_u16 L) as HL by (unfold is_u16, L; lia).
  change (take 2 (be_bytes 2 (rr_type x) ++ _)) with (be_bytes 2 (rr_type x)).
  change (take 2 (drop 2 (be_bytes 2 (rr_type x) ++ _))) with (be_bytes 2 (rr_class x)).
  change (take 4 (drop 4 (be_bytes 2 (rr_type x) ++ _))) with (be_bytes 4 (rr_ttl x)).
  change (take 2 (drop 8 (be_bytes 2 (rr_type x) ++ _))) with (be_bytes 2 L).
  change (drop 10 (be_bytes 2 (rr_type x) ++ _)) with (d ++ l).
  rewrite (be_value_bytes 2 _ Ht), (be_value_bytes 2 _ Hc), (be_value_bytes 4 _ Hl), (be_value_bytes 2 _ HL). rewrite (proj2 (Z.ltb_ge _ _)) by (rewrite length_app; lia).
  destruct (_ && _ && _) eqn:E.
  - apply andb_true_iff in E as [_ E%Z.eqb_eq]. f_equal. by rewrite take_app_length' by lia.
  - unfold L. by rewrite Nat2Z.id, drop_app_length.
Qed.

Lemma first_address_found pre x post rest n :
  Forall rr_ok (pre ++ x :: post) → Forall (λ y, is_address y = false) pre → is_address x = true → (length pre < n)%nat →
  first_address n (concat (rr_bytes <$> pre ++ x :: post) ++ rest) = Address (le (rr_data x)) (rr_ttl x).
Proof.
  intros Hok Hpre Hx. revert n. induction pre as [|y pre IH]; intros n Hn; (destruct n as [|n]; [simpl in Hn; lia|]);
    cbn [app fmap list_fmap concat]; rewrite <-app_assoc; apply Forall_cons_1 in Hok as [Hy Hok]; rewrite first_address_step by done.
  - by rewrite Hx.
  - apply Forall_cons_1 in Hpre as [-> Hpre]. apply IH; [done|done|simpl in Hn; lia].
Qed.

Lemma concat_octets rs : Forall rr_ok rs → octets (concat (rr_bytes <$> rs)).
Proof.
  induction 1 as [|x rs (_ & Hn & _ & _ & _ & _ & Hd) _ IH]; [constructor|]. cbn [fmap list_fmap concat].
  unfold octets, rr_bytes. rewrite !Forall_app. split_and!; try apply be_bytes_octets; done.
Qed.

Lemma read_answer id flags q pre x post rest :
  is_u16 id → good_flags flags → wire_name q → octets q → octets rest → Forall rr_ok (pre ++ x :: post) →
  Forall (λ y, is_address y = false) pre → is_address x = true → Z.of_nat (length (pre ++ x :: post)) < 65536 →
  let m := response id flags q (pre ++ x :: post) rest in
  octets m ∧ read_response id m = inr (le (rr_data x), rr_ttl x).
Proof.
  intros Hid (Hf & Hqr & Htc & Hrc) Hq Hqo Hro Hok Hpre Hx Hn m. split.
  { unfold m, response, octets. rewrite !Forall_app. split_and!; try apply be_bytes_octets; try done;
      [repeat constructor; lia..|by apply concat_octets]. }
  assert (is_u16 (Z.of_nat (length (pre ++ x :: post)))) as HN by (unfold is_u16; lia).
  unfold read_response. cbv zeta. rewrite (proj2 (Nat.ltb_ge _ _)).
  2: { unfold m, response. rewrite !length_app. unfold be_bytes. rewrite !length_rev, !le_bytes_length. simpl. lia. }
  assert (take 2 (drop 0 m) = be_bytes 2 id ∧ take 2 (drop 2 m) = be_bytes 2 flags ∧ take 2 (drop 4 m) = be_bytes 2 1 ∧
    take 2 (drop 6 m) = be_bytes 2 (Z.of_nat (length (pre ++ x :: post))) ∧
    drop 12 m = q ++ [0; 1; 0; 1] ++ concat (rr_bytes <$> pre ++ x :: post) ++ rest) as (-> & -> & -> & -> & ->) by done.
  rewrite (be_value_bytes 2 _ Hid), (be_value_bytes 2 _ Hf), (be_value_bytes 2 _ HN), Z.eqb_refl. cbn [negb].
  rewrite (proj2 (Z.eqb_neq _ _) Hqr), Htc, Hrc. cbn [nz Z.eqb negb]. change (be_value (be_bytes 2 1)) with 1.
  change (Z.to_nat 1) with 1%nat. rewrite questions_one by done.
  rewrite Nat2Z.id, first_address_found; [done..|]. rewrite length_app. simpl. lia.
Qed.

(** [C17] The resolver is a bounded table of names without case: after
    [dns_init], every sequence of resolutions, received messages of any bytes,
    lookups, flushes and server changes returns without leaving an array, and
    every status, address and transmitted query is the one of the abstract
    resolver, which splits names at their dots, refuses empty and overlong
    labels, and stores the first address record of an accepted response under
    the name of the last query. *)
Theorem dns_refines_resolver {W} (call_udp_tx : Z → Z → Z → Z → list Z → W → W * Z) r0 server tx ctx ops w :
  tx ≠ 0 → Forall dns_op_ok ops →
  ∃ r w' r' a' outs, dns_init (Some r0) server tx ctx = (Some r, DNS_OK) ∧
    dns_run call_udp_tx ops w r = Some (w', r', outs) ∧
    nabs_run call_udp_tx tx ctx ops w (mk_na server 0x4E21 0 [] []) = (w', a', outs) ∧
    cache_rep (dr_cache r') (na_cache a').
Proof.
  intros Ht Hops. destruct (dns_init_spec r0 server tx ctx Ht) as (r & E & Hr).
  destruct (dns_run_spec call_udp_tx tx ctx ops w r _ Hr Hops) as (w' & r' & a' & outs & Er & Ea & Hr').
  exists r, w', r', a', outs. split_and!; [done..|apply Hr'].
Qed.

(** [C28] A resolution: for a name that is not cached and has valid labels,
    [dns_resolve] sends exactly one query with the labels of the name; a
    response to it, with compressed or plain names, any records before the
    address and anything behind, is accepted; and from then on every name that
    is equal up to case resolves to that address without another query. *)
Theorem dns_resolution {W} (call_udp_tx : Z → Z → Z → Z → list Z → W → W * Z) tx ctx r a buf w :
  dns_rep tx ctx r a → 0 ∈ buf → octets buf → na_server a ≠ 0 → assoc (key (cname buf)) (na_cache a) = None →
  (length (cname buf) < 128)%nat → Forall label_ok (split_dots (cname buf)) →
  ∃ r1, dns_exec call_udp_tx (NResolve buf) w r =
      (let '(w', rc) := call_udp_tx tx ctx (na_server a) DNS_PORT (query (na_next a) (cname buf)) w in
       Some (w', r1, (if rc =? DNS_OK then DNS_ERR_PENDING else rc, 0))) ∧
    ∀ flags q pre x post rest w2, good_flags flags → wire_name q → octets q → octets rest → Forall rr_ok (pre ++ x :: post) →
      Forall (λ y, is_address y = false) pre → is_address x = true → Z.of_nat (length (pre ++ x :: post)) < 65536 →
      let m := response (na_next a) flags q (pre ++ x :: post) rest in
      Z.of_nat (length m) ≤ 65535 →
      ∃ r2, dns_exec call_udp_tx (NInput m) w2 r1 = Some (w2, r2, (DNS_OK, 0)) ∧
        ∀ buf2 w3, 0 ∈ buf2 → octets buf2 → key (cname buf2) = key (cname buf) →
          dns_exec call_udp_tx (NResolve buf2) w3 r2 = Some (w3, r2, (DNS_OK, le (rr_data x))).
Proof.
  intros Hr Hb Ho Hsrv Hno Hlen Hlab.
  destruct (resolve_step call_udp_tx tx ctx buf w r a Hr Hb Ho) as (w1 & r1 & a1 & out & E1 & Ea1 & Hr1).
  unfold nabs_resolve in Ea1. rewrite (proj2 (Z.eqb_neq _ _) Hsrv), Hno, (proj2 (Nat.leb_gt _ _)), decide_True in Ea1 by done.
  destruct (call_udp_tx _ _ _ _ _ w) as [w' rc]. injection Ea1 as -> <- <-. exists r1. split; [done|].
  intros flags q pre x post rest w2 Hf Hq Hqo Hro Hok Hpre Hx Hn m Hm.
  destruct (read_answer (na_next a) flags q pre x post rest (dp_id _ _ _ _ Hr) Hf Hq Hqo Hro Hok Hpre Hx Hn) as [Hmo Hread].
  fold m in Hmo, Hread.
  destruct (input_step call_udp_tx tx ctx m w2 r1 _ Hr1 Hmo Hm) as (r2 & a2 & rc2 & E2 & Ea2 & Hr2).
  unfold nabs_input in Ea2. cbn [na_pending] in Ea2. rewrite Hread in Ea2. injection Ea2 as <- <-. exists r2. split; [done|].
  intros buf2 w3 Hb2 Ho2 Hk. unfold dns_exec, dns_resolve.
  rewrite (dp_init _ _ _ _ Hr2), (dp_server _ _ _ _ Hr2). cbn [negb na_server]. rewrite (proj2 (Z.eqb_neq _ _) Hsrv).
  rewrite (dns_lookup_spec tx ctx r2 _ buf2 0 Hr2 Hb2), obind_Some. cbn [na_cache na_name]. by rewrite Hk, assoc_put.
Qed.

(** ** Limits *)

(** A resolver that has not sent a query takes a response with identifier 0. *)
Lemma dns_unsolicited_accepted {W} (call_udp_tx : Z → Z → Z → Z → list Z → W → W * Z) tx ctx r a flags q x rest w :
  dns_rep tx ctx r a → na_pending a = 0 → good_flags flags → wire_name q → octets q → octets rest → rr_ok x → is_address x = true →
  let m := response 0 flags q [x] rest in
  Z.of_nat (length m) ≤ 65535 →
  ∃ r' a', dns_exec call_udp_tx (NInput m) w r = Some (w, r', (DNS_OK, 0)) ∧ dns_rep tx ctx r' a' ∧
    assoc (key (na_name a)) (na_cache a') = Some (le (rr_data x)).
Proof.
  intros Hr Hp Hf Hq Hqo Hro Hok Hx m Hm.
  assert (Forall rr_ok ([] ++ [x])) as Hall by (apply Forall_cons_2; [done|apply Forall_nil_2]).
  destruct (read_answer 0 flags q [] x [] rest ltac:(done) Hf Hq Hqo Hro Hall (Forall_nil_2 _) Hx ltac:(done)) as [Hmo Hread].
  cbn [app] in Hmo, Hread. fold m in Hmo, Hread.
  destruct (input_step call_udp_tx tx ctx m w r a Hr Hmo Hm) as (r' & a' & rc & E & Ea & Hr').
  unfold nabs_input in Ea. rewrite Hp, Hread in Ea. injection Ea as <- <-. exists r'. eexists. split; [done|]. split; [done|].
  apply assoc_put.
Qed.

(** ** Witnesses *)
Module DnsSample.
(** The world is the list of queries that were sent. *)
Definition world := list (Z * Z * list Z).
Definition on_tx (_ _ dst port : Z) (m : list Z) (w : world) : world * Z := (w ++ [(dst, port, m)], DNS_OK).
Definition server : Z := 0x3500000A.
Definition fresh : dns_resolver_t := default zero_dns (dns_init (Some zero_dns) server 7 0).1.
(** "ow.io" and "OW.io". *)
Definition name : list Z := [111; 119; 46; 105; 111; 0].
Definition name2 : list Z := [79; 87; 46; 105; 111; 0].
Definition wire : list Z := [2; 111; 119; 2; 105; 111; 0].
(** An alias and the address 10.1.2.3. *)
Definition alias : rr := mk_rr [192; 12] 5 1 60 [192; 12].
Definition address : rr := mk_rr [192; 12] 1 1 60 [10; 1; 2; 3].
Definition reply : list Z := response 0x4E21 0x8180 wire [alias; address] [].
Definition start : dns_abs := mk_na server 0x4E21 0 [] [].

Lemma fresh_rep : dns_rep 7 0 fresh start.
Proof.
  destruct (dns_init_spec zero_dns server 7 0) as (r & E & Hr); [lia|]. assert (fresh = r) as -> by (unfold fresh; rewrite E; done). done.
Qed.

Lemma wire_ok : wire_name wire.
Proof.
  apply (wn_label [111; 119]); [unfold label_ok; simpl; lia|]. apply (wn_label [105; 111]); [unfold label_ok; simpl; lia|]. constructor.
Qed.

Lemma records_ok : Forall rr_ok [alias; address].
Proof.
  repeat apply Forall_cons_2; try apply Forall_nil_2;
    (split; [apply (wn_pointer 192 12); lia|]; split_and!; try (by vm_compute); repeat constructor; lia).
Qed.

Lemma flags_ok : good_flags 0x8180.
Proof. split_and!; by vm_compute. Qed.
End DnsSample.
Import DnsSample.

Lemma dns_refines_resolver_witness :
  ∃ r w' r' a' outs, dns_init (Some zero_dns) server 7 0 = (Some r, DNS_OK) ∧
    dns_run on_tx [NResolve name; NInput reply; NResolve name2; NFlush; NLookup name] [] r = Some (w', r', outs) ∧
    nabs_run on_tx 7 0 [NResolve name; NInput reply; NResolve name2; NFlush; NLookup name] [] (mk_na server 0x4E21 0 [] []) = (w', a', outs) ∧
    cache_rep (dr_cache r') (na_cache a').
Proof.
  apply (dns_refines_resolver on_tx zero_dns server 7 0 [NResolve name; NInput reply; NResolve name2; NFlush; NLookup name] []).
  - lia.
  - repeat apply Forall_cons_2; try apply Forall_nil_2; cbn [dns_op_ok].
    + split; [vm_compute; repeat constructor|repeat constructor; lia].
    + split; [vm_compute; repeat constructor; discriminate|vm_compute; discriminate].
    + split; [vm_compute; repeat constructor|repeat constructor; lia].
    + exact I.
    + vm_compute; repeat constructor.
Defined.

Lemma dns_resolution_witness :
  ∃ r1 r2 w1, dns_exec on_tx (NResolve name) [] fresh = Some (w1, r1, (DNS_ERR_PENDING, 0)) ∧
    dns_exec on_tx (NInput reply) w1 r1 = Some (w1, r2, (DNS_OK, 0)) ∧
    dns_exec on_tx (NResolve name2) w1 r2 = Some (w1, r2, (DNS_OK, 0x0302010A)).
Proof.
  destruct (dns_resolution on_tx 7 0 fresh start name [] fresh_rep) as (r1 & E1 & H).
  - vm_compute. repeat constructor.
  - repeat constructor; lia.
  - vm_compute. discriminate.
  - vm_compute. reflexivity.
  - vm_compute. lia.
  - repeat constructor; vm_compute; lia.
  - destruct (H 0x8180 wire [alias] address [] [] [(server, 53, query 0x4E21 (cname name))] flags_ok wire_ok) as (r2 & E2 & H2);
      [repeat constructor; lia|constructor|exact records_ok|repeat constructor|reflexivity|vm_compute; reflexivity|vm_compute; discriminate|].
    exists r1, r2, [(server, 53, query 0x4E21 (cname name))]. split; [exact E1|]. split; [exact E2|].
    apply (H2 name2); [vm_compute; repeat constructor|repeat constructor; lia|reflexivity].
Defined.
