(* ===== verification/Owhash.v ===== *)
(** * The hash functions library ([DLL/owhash64/owhash64.c])

    SHA-256 with its streaming context, the one-shot MD5 with its private
    context, and the CRC32C running checksum.  A context is a record; the
    message is an array of octets read by index, so that an access outside it
    is undefined.  The SHA-256 and MD5 routines that absorb and pad a message
    have the same text up to the block transform, the byte order of the length
    field and the names: they are written once, in [Section stream], and
    instantiated.  Loops on a remaining length carry fuel, one unit per byte of
    the message: each iteration consumes at least one byte. *)
From S2P Require Import Prelude.

(** ** Byte-order helpers *)

Definition ow_hash_rotr32 (x n : Z) : Z := Z.lor (Z.shiftr x n) (u32 (Z.shiftl x (32 - n))).
Definition ow_hash_rotl32 (x n : Z) : Z := Z.lor (u32 (Z.shiftl x n)) (Z.shiftr x (32 - n)).

(** A pointer into an array is the array and an offset. *)
Definition ow_hash_rd_be32 (p : list Z) (off : Z) : option Z :=
  p0 ← aget p off; p1 ← aget p (off + 1); p2 ← aget p (off + 2); p3 ← aget p (off + 3);
  Some (Z.lor (Z.lor (Z.lor (Z.shiftl p0 24) (Z.shiftl p1 16)) (Z.shiftl p2 8)) p3).

Definition ow_hash_wr_be32 (p : list Z) (off v : Z) : option (list Z) :=
  p ← aset p off (u8 (Z.shiftr v 24));
  p ← aset p (off + 1) (u8 (Z.shiftr v 16));
  p ← aset p (off + 2) (u8 (Z.shiftr v 8));
  aset p (off + 3) (u8 v).

Definition ow_hash_rd_le32 (p : list Z) (off : Z) : option Z :=
  p0 ← aget p off; p1 ← aget p (off + 1); p2 ← aget p (off + 2); p3 ← aget p (off + 3);
  Some (Z.lor (Z.lor (Z.lor p0 (Z.shiftl p1 8)) (Z.shiftl p2 16)) (Z.shiftl p3 24)).

Definition ow_hash_wr_le32 (p : list Z) (off v : Z) : option (list Z) :=
  p ← aset p off (u8 v);
  p ← aset p (off + 1) (u8 (Z.shiftr v 8));
  p ← aset p (off + 2) (u8 (Z.shiftr v 16));
  aset p (off + 3) (u8 (Z.shiftr v 24)).

Definition ow_hash_memcpy (dst : list Z) (doff : Z) (src : list Z) (soff n : Z)
    : option (list Z) :=
  copy_at n src soff dst doff.

Definition ow_hash_memset (dst : list Z) (val n : Z) : option (list Z) :=
  for_up (Z.to_nat n) 0 (λ i d, aset d i val) dst.

(** ** SHA-256 block compression *)

Definition ow_sha256_k : list Z :=
  [0x428A2F98; 0x71374491; 0xB5C0FBCF; 0xE9B5DBA5;
   0x3956C25B; 0x59F111F1; 0x923F82A4; 0xAB1C5ED5;
   0xD807AA98; 0x12835B01; 0x243185BE; 0x550C7DC3;
   0x72BE5D74; 0x80DEB1FE; 0x9BDC06A7; 0xC19BF174;
   0xE49B69C1; 0xEFBE4786; 0x0FC19DC6; 0x240CA1CC;
   0x2DE92C6F; 0x4A7484AA; 0x5CB0A9DC; 0x76F988DA;
   0x983E5152; 0xA831C66D; 0xB00327C8; 0xBF597FC7;
   0xC6E00BF3; 0xD5A79147; 0x06CA6351; 0x14292967;
   0x27B70A85; 0x2E1B2138; 0x4D2C6DFC; 0x53380D13;
   0x650A7354; 0x766A0ABB; 0x81C2C92E; 0x92722C85;
   0xA2BFE8A1; 0xA81A664B; 0xC24B8B70; 0xC76C51A3;
   0xD192E819; 0xD6990624; 0xF40E3585; 0x106AA070;
   0x19A4C116; 0x1E376C08; 0x2748774C; 0x34B0BCB5;
   0x391C0CB3; 0x4ED8AA4A; 0x5B9CCA4F; 0x682E6FF3;
   0x748F82EE; 0x78A5636F; 0x84C87814; 0x8CC70208;
   0x90BEFFFA; 0xA4506CEB; 0xBEF9A3F7; 0xC67178F2].

(** The round body: the eight working variables after one round. *)
Abbreviation sha_vars := (Z * Z * Z * Z * Z * Z * Z * Z)%type.

Definition ow_sha256_round (k w : Z) (v : sha_vars) : sha_vars :=
  let '(a, b, c, d, e, f, g, h) := v in
  let s1 := Z.lxor (Z.lxor (ow_hash_rotr32 e 6) (ow_hash_rotr32 e 11)) (ow_hash_rotr32 e 25) in
  let ch := Z.lxor (Z.land e f) (Z.land (u32 (Z.lnot e)) g) in
  let t1 := u32 (h + s1 + ch + k + w) in
  let s0 := Z.lxor (Z.lxor (ow_hash_rotr32 a 2) (ow_hash_rotr32 a 13)) (ow_hash_rotr32 a 22) in
  let maj := Z.lxor (Z.lxor (Z.land a b) (Z.land a c)) (Z.land b c) in
  let t2 := u32 (s0 + maj) in
  (u32 (t1 + t2), a, b, c, u32 (d + t1), e, f, g).

(** The loop that fills [w[16..63]]. *)
Definition ow_sha256_extend (i : Z) (w : list Z) : option (list Z) :=
  w15 ← aget w (i - 15); w2 ← aget w (i - 2);
  w16 ← aget w (i - 16); w7 ← aget w (i - 7);
  let s0 := Z.lxor (Z.lxor (ow_hash_rotr32 w15 7) (ow_hash_rotr32 w15 18)) (Z.shiftr w15 3) in
  let s1 := Z.lxor (Z.lxor (ow_hash_rotr32 w2 17) (ow_hash_rotr32 w2 19)) (Z.shiftr w2 10) in
  aset w i (u32 (w16 + s0 + w7 + s1)).

(** [state[i] += v] *)
Definition ow_hash_add (i v : Z) (st : list Z) : option (list Z) :=
  x ← aget st i; aset st i (u32 (x + v)).

(** The local array [w] starts indeterminate; every element is written before
    it is read. *)
Definition ow_sha256_transform (st block : list Z) : option (list Z) :=
  w ← for_up 16 0 (λ i w, x ← ow_hash_rd_be32 block (i * 4); aset w i x) (replicate 64 0);
  w ← for_up 48 16 ow_sha256_extend w;
  a ← aget st 0; b ← aget st 1; c ← aget st 2; d ← aget st 3;
  e ← aget st 4; f ← aget st 5; g ← aget st 6; h ← aget st 7;
  v ← for_up 64 0 (λ i v, k ← aget ow_sha256_k i; wi ← aget w i; Some (ow_sha256_round k wi v))
        (a, b, c, d, e, f, g, h);
  let '(a, b, c, d, e, f, g, h) := v in
  st ← ow_hash_add 0 a st; st ← ow_hash_add 1 b st;
  st ← ow_hash_add 2 c st; st ← ow_hash_add 3 d st;
  st ← ow_hash_add 4 e st; st ← ow_hash_add 5 f st;
  st ← ow_hash_add 6 g st; ow_hash_add 7 h st.

(** ** MD5 block compression *)

Definition ow_md5_s : list Z :=
  [7; 12; 17; 22; 7; 12; 17; 22; 7; 12; 17; 22; 7; 12; 17; 22;
   5; 9; 14; 20; 5; 9; 14; 20; 5; 9; 14; 20; 5; 9; 14; 20;
   4; 11; 16; 23; 4; 11; 16; 23; 4; 11; 16; 23; 4; 11; 16; 23;
   6; 10; 15; 21; 6; 10; 15; 21; 6; 10; 15; 21; 6; 10; 15; 21].

Definition ow_md5_k : list Z :=
  [0xD76AA478; 0xE8C7B756; 0x242070DB; 0xC1BDCEEE;
   0xF57C0FAF; 0x4787C62A; 0xA8304613; 0xFD469501;
   0x698098D8; 0x8B44F7AF; 0xFFFF5BB1; 0x895CD7BE;
   0x6B901122; 0xFD987193; 0xA679438E; 0x49B40821;
   0xF61E2562; 0xC040B340; 0x265E5A51; 0xE9B6C7AA;
   0xD62F105D; 0x02441453; 0xD8A1E681; 0xE7D3FBC8;
   0x21E1CDE6; 0xC33707D6; 0xF4D50D87; 0x455A14ED;
   0xA9E3E905; 0xFCEFA3F8; 0x676F02D9; 0x8D2A4C8A;
   0xFFFA3942; 0x8771F681; 0x6D9D6122; 0xFDE5380C;
   0xA4BEEA44; 0x4BDECFA9; 0xF6BB4B60; 0xBEBFBC70;
   0x289B7EC6; 0xEAA127FA; 0xD4EF3085; 0x04881D05;
   0xD9D4D039; 0xE6DB99E5; 0x1FA27CF8; 0xC4AC5665;
   0xF4292244; 0x432AFF97; 0xAB9423A7; 0xFC93A039;
   0x655B59C3; 0x8F0CCC92; 0xFFEFF47D; 0x85845DD1;
   0x6FA87E4F; 0xFE2CE6E0; 0xA3014314; 0x4E0811A1;
   0xF7537E82; 0xBD3AF235; 0x2AD7D2BB; 0xEB86D391].

Abbreviation md5_vars := (Z * Z * Z * Z)%type.

(** The mixing function and the message index of round [i]. *)
Definition ow_md5_select (i b c d : Z) : Z * Z :=
  if i <? 16 then (Z.lor (Z.land b c) (Z.land (u32 (Z.lnot b)) d), i)
  else if i <? 32 then (Z.lor (Z.land d b) (Z.land (u32 (Z.lnot d)) c), Z.land (u32 (5 * i + 1)) 15)
  else if i <? 48 then (Z.lxor (Z.lxor b c) d, Z.land (u32 (3 * i + 5)) 15)
  else (Z.lxor c (Z.lor b (u32 (Z.lnot d))), Z.land (u32 (7 * i)) 15).

Definition ow_md5_round (m : list Z) (i : Z) (v : md5_vars) : option md5_vars :=
  let '(a, b, c, d) := v in
  let '(f, g) := ow_md5_select i b c d in
  k ← aget ow_md5_k i; mg ← aget m g; s ← aget ow_md5_s i;
  let f := u32 (f + a + k + mg) in
  Some (d, u32 (b + ow_hash_rotl32 f s), b, c).

Definition ow_md5_transform (st block : list Z) : option (list Z) :=
  m ← for_up 16 0 (λ i m, x ← ow_hash_rd_le32 block (i * 4); aset m i x) (replicate 16 0);
  a ← aget st 0; b ← aget st 1; c ← aget st 2; d ← aget st 3;
  v ← for_up 64 0 (ow_md5_round m) (a, b, c, d);
  let '(a, b, c, d) := v in
  st ← ow_hash_add 0 a st; st ← ow_hash_add 1 b st;
  st ← ow_hash_add 2 c st; ow_hash_add 3 d st.

(** ** The streaming context *)

(** [owhash_sha256_ctx_t] and [ow_md5_ctx_t] have the same fields. *)
Record owhash_ctx := OwhashCtx {
  hc_state : list Z;     (** [state], 8 words (MD5: 4) *)
  hc_bitlen : Z;         (** [bitlen], 64 bits *)
  hc_buffer : list Z;    (** [buffer], 64 bytes *)
  hc_buflen : Z;         (** [buflen], 32 bits *)
}.
#[export] Instance owhash_ctx_eta : Eta owhash_ctx :=
  λ c, OwhashCtx (hc_state c) (hc_bitlen c) (hc_buffer c) (hc_buflen c).

Definition OWHASH_SHA256_BLOCK_SIZE : Z := 64.

Section stream.
Variable transform : list Z → list Z → option (list Z).
(** The shift that selects byte [i] of the length field. *)
Variable len_shift : Z → Z.

(** [transform(ctx, ctx->buffer); ctx->buflen = 0;] *)
Definition stream_block (c : owhash_ctx) : option owhash_ctx :=
  st ← transform (hc_state c) (hc_buffer c);
  Some (c <| hc_state := st |> <| hc_buflen := 0 |>).

Fixpoint stream_loop (fuel : nat) (c : owhash_ctx) (p : list Z) (off len : Z)
    : option owhash_ctx :=
  if len =? 0 then Some c else
  match fuel with
  | O => None
  | S fuel =>
      let space := u32 (OWHASH_SHA256_BLOCK_SIZE - hc_buflen c) in
      '(c, space) ← (if space =? 0
                     then c ← stream_block c; Some (c, OWHASH_SHA256_BLOCK_SIZE)
                     else Some (c, space));
      let take := if len <? space then u32 len else space in
      buf ← ow_hash_memcpy (hc_buffer c) (hc_buflen c) p off take;
      let c := c <| hc_buffer := buf |> <| hc_buflen := u32 (hc_buflen c + take) |> in
      c ← (if hc_buflen c =? OWHASH_SHA256_BLOCK_SIZE then stream_block c else Some c);
      stream_loop fuel c p (off + take) (len - take)
  end.

Definition stream_update (c : owhash_ctx) (p : list Z) (len : Z) : option owhash_ctx :=
  stream_loop (Z.to_nat len) (c <| hc_bitlen := u64 (hc_bitlen c + u64 (len * 8)) |>) p 0 len.

(** [while (ctx->buflen < limit) ctx->buffer[ctx->buflen++] = 0;] *)
Definition stream_zeros (limit : Z) (c : owhash_ctx) : option owhash_ctx :=
  buf ← for_up (Z.to_nat (limit - hc_buflen c)) (hc_buflen c) (λ i b, aset b i 0) (hc_buffer c);
  Some (c <| hc_buffer := buf |> <| hc_buflen := Z.max limit (hc_buflen c) |>).

(** Padding, the length field and the last block. *)
Definition stream_finish (c : owhash_ctx) : option owhash_ctx :=
  let bits := hc_bitlen c in
  buf ← aset (hc_buffer c) (hc_buflen c) 128;
  let c := c <| hc_buffer := buf |> <| hc_buflen := u32 (hc_buflen c + 1) |> in
  c ← (if 56 <? hc_buflen c
       then c ← stream_zeros OWHASH_SHA256_BLOCK_SIZE c; stream_block c
       else Some c);
  c ← stream_zeros 56 c;
  buf ← for_up 8 0 (λ i b, aset b (56 + i) (u8 (Z.shiftr bits (len_shift i)))) (hc_buffer c);
  let c := c <| hc_buffer := buf |> in
  st ← transform (hc_state c) (hc_buffer c);
  Some (c <| hc_state := st |>).
End stream.

(** ** SHA-256 public API *)

(** A [NULL] context or output leaves everything as it was. *)
Definition owhash_sha256_init (ctx : ptr owhash_ctx) : option (ptr owhash_ctx) :=
  match ctx with
  | NULL => Some NULL
  | Some c =>
      buf ← ow_hash_memset (hc_buffer c) 0 64;
      Some (Some (OwhashCtx
        [0x6A09E667; 0xBB67AE85; 0x3C6EF372; 0xA54FF53A;
         0x510E527F; 0x9B05688C; 0x1F83D9AB; 0x5BE0CD19] 0 buf 0))
  end.

Definition owhash_sha256_update (ctx : ptr owhash_ctx) (data : ptr (list Z)) (len : Z)
    : option (ptr owhash_ctx) :=
  match ctx, data with
  | NULL, _ => Some ctx
  | Some c, NULL => if nz len then Some ctx else Some <$> stream_update ow_sha256_transform c [] len
  | Some c, Some p => Some <$> stream_update ow_sha256_transform c p len
  end.

(** Big-endian length: byte [i] is [bits >> (56 - i * 8)]. *)
Definition owhash_sha256_final (ctx : ptr owhash_ctx) (out : ptr (list Z))
    : option (ptr owhash_ctx * ptr (list Z)) :=
  match ctx, out with
  | Some c, Some o =>
      c ← stream_finish ow_sha256_transform (λ i, 56 - i * 8) c;
      o ← for_up 8 0 (λ i o, s ← aget (hc_state c) i; ow_hash_wr_be32 o (i * 4) s) o;
      Some (Some c, Some o)
  | _, _ => Some (ctx, out)
  end.

(** ** MD5 *)

(** The context is a local of [owhash_md5]: its buffer starts with whatever
    the stack held. *)
Definition ow_md5_init (c : owhash_ctx) : owhash_ctx :=
  OwhashCtx [0x67452301; 0xEFCDAB89; 0x98BADCFE; 0x10325476] 0 (hc_buffer c) 0.

Definition ow_md5_update (c : owhash_ctx) (p : ptr (list Z)) (len : Z) : option owhash_ctx :=
  match p with
  | NULL => if nz len then UB else stream_update ow_md5_transform c [] len
  | Some p => stream_update ow_md5_transform c p len
  end.

(** Little-endian length: byte [i] is [bits >> (i * 8)]. *)
Definition ow_md5_final (c : owhash_ctx) (out : list Z) : option (owhash_ctx * list Z) :=
  c ← stream_finish ow_md5_transform (λ i, i * 8) c;
  o ← for_up 4 0 (λ i o, s ← aget (hc_state c) i; ow_hash_wr_le32 o (i * 4) s) out;
  Some (c, o).

Definition owhash_md5 (stack : owhash_ctx) (data : ptr (list Z)) (len : Z) (out : ptr (list Z))
    : option (ptr (list Z)) :=
  match out with
  | NULL => Some NULL
  | Some out =>
      c ← ow_md5_update (ow_md5_init stack) data len;
      '(_, o) ← ow_md5_final c out;
      Some (Some o)
  end.

(** ** CRC32C *)

Definition owhash_crc32c_bit (c : Z) : Z :=
  if nz (Z.land c 1) then Z.lxor (Z.shiftr c 1) 0x82F63B78 else Z.shiftr c 1.

Definition owhash_crc32c (crc : Z) (data : ptr (list Z)) (len : Z) : option Z :=
  let c := Z.lxor crc UINT32_MAX in
  match data with
  | NULL => if nz len then Some crc else Some (Z.lxor c UINT32_MAX)
  | Some p =>
      c ← for_up (Z.to_nat len) 0
            (λ i c, b ← aget p i; Some (Nat.iter 8 owhash_crc32c_bit (Z.lxor c b))) c;
      Some (Z.lxor c UINT32_MAX)
  end.
