(* ===== verification/HashSpec.v ===== *)
(** * Block hashes: the reference construction and the streaming contexts

    A Merkle-Damgaard hash pads the message, cuts it into blocks of [B] octets
    and folds a compression function over them.  This file defines that
    construction once ([md_hash]), the interface [BlockHash] between a block
    transform of the code and its compression function, and proves that the
    buffering of [owhash64.c] ([Owhash.stream_update], [Owhash.stream_finish])
    computes it for every way of cutting the message into calls. *)
From S2P Require Import Prelude Owhash.

(** ** Messages in blocks *)

(** The complete blocks of a message and the octets after them. *)
Definition blocks (B : nat) (m : list Z) : list (list Z) :=
  (λ i, take B (drop (i * B) m)) <$> seq 0 (length m / B).
Definition rest (B : nat) (m : list Z) : list Z := drop (length m / B * B) m.

Section blocks.
Context (B : nat) (HB : (0 < B)%nat).
Implicit Types m d : list Z.

Lemma rest_length m : length (rest B m) = (length m mod B)%nat.
Proof.
  unfold rest. rewrite length_drop. pose proof (Nat.div_mod_eq (length m) B). lia.
Qed.

Lemma rest_lt m : (length (rest B m) < B)%nat.
Proof. rewrite rest_length. by apply Nat.mod_upper_bound; lia. Qed.

(** Octets that do not complete a block only lengthen the rest. *)
Lemma blocks_grow m d :
  (length (rest B m) + length d < B)%nat →
  blocks B (m ++ d) = blocks B m ∧ rest B (m ++ d) = rest B m ++ d.
Proof.
  rewrite rest_length. intros Hd. pose proof (Nat.div_mod_eq (length m) B) as Hq.
  assert (length (m ++ d) / B = length m / B)%nat as E.
  { rewrite length_app. symmetry. apply (Nat.div_unique _ _ _ (length m mod B + length d)); lia. }
  unfold blocks, rest. rewrite E. split.
  - apply list_fmap_ext. intros k i [-> Hi]%lookup_seq. cbn [Nat.add].
    rewrite drop_app_le by nia. rewrite take_app_le; [done|]. rewrite length_drop. nia.
  - by rewrite drop_app_le by nia.
Qed.

(** Octets that complete the block add it and leave nothing pending. *)
Lemma blocks_complete m d :
  (length (rest B m) + length d = B)%nat →
  blocks B (m ++ d) = blocks B m ++ [rest B m ++ d] ∧ rest B (m ++ d) = [].
Proof.
  rewrite rest_length. intros Hd. pose proof (Nat.div_mod_eq (length m) B) as Hq.
  assert (length (m ++ d) / B = S (length m / B))%nat as E.
  { rewrite length_app. symmetry. apply (Nat.div_unique _ _ _ 0); nia. }
  unfold blocks, rest. rewrite E. split.
  - rewrite seq_S, fmap_app. f_equal.
    + apply list_fmap_ext. intros k i [-> Hi]%lookup_seq. cbn [Nat.add].
      rewrite drop_app_le by nia. rewrite take_app_le; [done|]. rewrite length_drop. nia.
    + cbn. f_equal. rewrite drop_app_le by nia. apply take_ge.
      rewrite length_app, length_drop. nia.
  - apply drop_ge. rewrite length_app. nia.
Qed.

Lemma blocks_nil : blocks B [] = [] ∧ rest B [] = [].
Proof. unfold blocks, rest. cbn [length]. rewrite Nat.Div0.div_0_l. by rewrite drop_nil. Qed.
End blocks.

(** ** The construction *)

(** Padding: one 0x80 octet, zeros, and the length field [lf] of the message at
    the end of the last block. *)
Definition md_pad (B : nat) (lf : nat → list Z) (m : list Z) : list Z :=
  let l := lf (length m) in
  m ++ [128] ++
  replicate (Z.to_nat ((Z.of_nat B - Z.of_nat (length l) - 1 - Z.of_nat (length m)) mod Z.of_nat B)) 0
  ++ l.

Definition md_hash {S} (B : nat) (lf : nat → list Z) (comp : S → list Z → S) (iv : S)
    (m : list Z) : S :=
  foldl comp iv (blocks B (md_pad B lf m)).

(** What a block transform of the code promises: on any well-formed chaining
    value it is defined, and on the values it stands for it is the
    compression function. *)
Class BlockHash {S} (B : nat) (transform : list Z → list Z → option (list Z))
    (st_ok : list Z → Prop) (val : list Z → S) (comp : S → list Z → S) := {
  bh_pos : (0 < B)%nat;
  bh_step : ∀ st blk, st_ok st → octets blk → length blk = B →
    ∃ st', transform st blk = Some st' ∧ st_ok st' ∧ val st' = comp (val st) blk;
}.

(** The padded message, block by block: the pending octets, the 0x80 octet and
    the length field share the last block or are spread over two. *)
Section padding.
Context (B : nat) (HB : (0 < B)%nat) (lf : nat → list Z) (m : list Z).
Context (Hlf : (length (lf (length m)) < B)%nat).

Lemma md_pad_one :
  (length (rest B m) + 1 + length (lf (length m)) ≤ B)%nat →
  blocks B (md_pad B lf m) =
    blocks B m ++ [rest B m ++ [128] ++
      replicate (B - length (lf (length m)) - (length (rest B m) + 1)) 0 ++ lf (length m)].
Proof.
  intros Hr. set (l := lf (length m)) in *. pose proof (rest_length B HB m) as Hl.
  unfold md_pad. fold l.
  replace (Z.to_nat _) with (B - length l - (length (rest B m) + 1))%nat.
  2:{ rewrite Hl in *. pose proof (Nat.div_mod_eq (length m) B) as Hq.
      apply Nat2Z.inj. rewrite Z2Nat.id by (apply Z.mod_pos_bound; lia).
      apply (Zmod_unique _ _ (- Z.of_nat (length m / B))); [lia|]. nia. }
  apply blocks_complete; [done|]. rewrite !length_app, length_replicate. simpl. lia.
Qed.

Lemma md_pad_two :
  (B < length (rest B m) + 1 + length (lf (length m)))%nat →
  blocks B (md_pad B lf m) =
    blocks B m ++ [rest B m ++ [128] ++ replicate (B - (length (rest B m) + 1)) 0]
      ++ [replicate (B - length (lf (length m))) 0 ++ lf (length m)].
Proof.
  intros Hr. set (l := lf (length m)) in *. pose proof (rest_length B HB m) as Hl.
  pose proof (rest_lt B HB m) as Hlt. unfold md_pad. fold l.
  replace (Z.to_nat _) with (B - (length (rest B m) + 1) + (B - length l))%nat.
  2:{ rewrite Hl in *. pose proof (Nat.div_mod_eq (length m) B) as Hq.
      apply Nat2Z.inj. rewrite Z2Nat.id by (apply Z.mod_pos_bound; lia).
      apply (Zmod_unique _ _ (- Z.of_nat (length m / B) - 1)); [lia|]. nia. }
  rewrite replicate_add, <-app_assoc, (app_assoc [128]), app_assoc.
  set (d := [128] ++ _).
  destruct (blocks_complete B HB m d) as [E1 E2].
  { unfold d. rewrite length_app, length_replicate. simpl. lia. }
  destruct (blocks_complete B HB (m ++ d) (replicate (B - length l) 0 ++ l)) as [E3 _].
  { rewrite E2, length_app, length_replicate. simpl. lia. }
  by rewrite E3, E1, E2, <-app_assoc.
Qed.
End padding.

(** ** The streaming contexts of [owhash64.c] *)

Lemma octets_app l k : octets (l ++ k) ↔ octets l ∧ octets k.
Proof. apply Forall_app. Qed.

Lemma octets_zeros n : octets (replicate n 0).
Proof. by apply Forall_replicate. Qed.

#[export] Hint Resolve be_bytes_octets le_bytes_octets octets_zeros : cmodel.

(** The zero-filling loop. *)
Lemma zeros_at (b : list Z) (lo n : nat) :
  (lo + n ≤ length b)%nat →
  for_up n (Z.of_nat lo) (λ i b, aset b i 0) b =
    Some (take lo b ++ replicate n 0 ++ drop (lo + n) b).
Proof.
  intros Hn.
  destruct (for_up_inv (λ j d, ∃ k : nat, j = Z.of_nat lo + Z.of_nat k ∧
    d = take lo b ++ replicate k 0 ++ drop (lo + k) b) n (Z.of_nat lo) (λ i b, aset b i 0) b)
    as (d & -> & k & Hk & ->).
  - exists 0%nat. split; [lia|]. simpl. by rewrite Nat.add_0_r, take_drop.
  - intros j d Hj (k & -> & ->).
    destruct (lookup_lt_is_Some_2 b (lo + k)) as [x Hx]; [lia|].
    rewrite (drop_lookup_cons _ _ _ Hx), app_assoc.
    rewrite aset_app_at by (rewrite length_app, length_take, length_replicate; lia).
    eexists. split; [done|]. exists (S k). split; [lia|].
    rewrite replicate_S_end, <-!app_assoc. simpl. do 3 f_equal. by rewrite Nat.add_succ_r.
  - by replace k with n by lia.
Qed.

(** A block of stores [b[base + i] = f i]. *)
Lemma stores_at (b : list Z) (f : Z → Z) (base n : nat) :
  (base + n ≤ length b)%nat →
  for_up n 0 (λ i b, aset b (Z.of_nat base + i) (f i)) b =
    Some (take base b ++ ((λ i, f (Z.of_nat i)) <$> seq 0 n) ++ drop (base + n) b).
Proof.
  intros Hn.
  destruct (for_up_inv (λ j d, ∃ k : nat, j = Z.of_nat k ∧
    d = take base b ++ ((λ i, f (Z.of_nat i)) <$> seq 0 k) ++ drop (base + k) b) n 0
    (λ i b, aset b (Z.of_nat base + i) (f i)) b) as (d & -> & k & Hk & ->).
  - exists 0%nat. split; [lia|]. simpl. by rewrite Nat.add_0_r, take_drop.
  - intros j d Hj (k & -> & ->).
    destruct (lookup_lt_is_Some_2 b (base + k)) as [x Hx]; [lia|].
    rewrite (drop_lookup_cons _ _ _ Hx), app_assoc.
    rewrite aset_app_at by (rewrite length_app, length_take, length_fmap, length_seq; lia).
    eexists. split; [done|]. exists (S k). split; [lia|].
    rewrite seq_S, fmap_app, <-!app_assoc. simpl. do 3 f_equal. by rewrite Nat.add_succ_r.
  - by replace k with n by lia.
Qed.

Section stream_spec.
Context {S : Type} {transform : list Z → list Z → option (list Z)}.
Context {st_ok : list Z → Prop} {val : list Z → S} {comp : S → list Z → S}.
Context `{BH : !BlockHash 64 transform st_ok val comp} (iv : S).
Implicit Types (c : owhash_ctx) (m d p : list Z).

(** The context holds message [m]: the chaining value covers the complete
    blocks, the buffer starts with the octets after them. *)
Record holds c m : Prop := Holds {
  h_ok : st_ok (hc_state c);
  h_state : val (hc_state c) = foldl comp iv (blocks 64 m);
  h_buffer : length (hc_buffer c) = 64%nat;
  h_buflen : hc_buflen c = Z.of_nat (length (rest 64 m));
  h_rest : take (length (rest 64 m)) (hc_buffer c) = rest 64 m;
  h_octets : octets m;
}.

Local Lemma block_pos : (0 < 64)%nat.
Proof. lia. Qed.

Lemma octets_rest m : octets m → octets (rest 64 m).
Proof. apply Forall_drop. Qed.

(** A full buffer is compressed into the chaining value. *)
Lemma stream_block_spec c m d :
  st_ok (hc_state c) → val (hc_state c) = foldl comp iv (blocks 64 m) →
  octets m → octets d → (length (rest 64 m) + length d = 64)%nat →
  hc_buffer c = rest 64 m ++ d →
  ∃ st, transform (hc_state c) (hc_buffer c) = Some st ∧ st_ok st ∧
        val st = foldl comp iv (blocks 64 (m ++ d)) ∧ rest 64 (m ++ d) = [].
Proof.
  intros Hok Hv Hm Hd Hl Hb.
  destruct (bh_step (hc_state c) (hc_buffer c)) as (st & E & Hok' & Hv'); [done|..].
  { rewrite Hb. apply octets_app. split; [by apply octets_rest|done]. }
  { by rewrite Hb, length_app. }
  destruct (blocks_complete 64 block_pos m d Hl) as [E1 E2].
  exists st. split_and!; [done..| |done]. by rewrite Hv', Hv, E1, foldl_snoc, Hb.
Qed.

(** One round of the absorbing loop: the buffer takes [d]. *)
Lemma absorb_step c m d :
  holds c m → octets d → (length (rest 64 m) + length d ≤ 64)%nat →
  let c1 := c <| hc_buffer := take (length (rest 64 m)) (hc_buffer c) ++ d ++
                   drop (length (rest 64 m) + length d) (hc_buffer c) |>
              <| hc_buflen := Z.of_nat (length (rest 64 m) + length d) |> in
  ∃ c2, (if hc_buflen c1 =? 64 then stream_block transform c1 else Some c1) = Some c2 ∧
    holds c2 (m ++ d) ∧ hc_bitlen c2 = hc_bitlen c.
Proof.
  intros [Hok Hv Hb Hl Hr Ho] Hd Hle c1. cbn [hc_buflen c1 set_field].
  assert (octets (m ++ d)) by (by apply octets_app).
  destruct (Z.eqb_spec (Z.of_nat (length (rest 64 m) + length d)) 64) as [E|E].
  - destruct (stream_block_spec c1 m d) as (st & Est & Hok' & Hv' & Er); [done|done|done|done|lia|..].
    { cbn [c1 set_field hc_buffer]. rewrite Hr, drop_ge by lia. by rewrite app_nil_r. }
    unfold stream_block. rewrite Est, obind_Some. eexists. split; [done|]. split; [|done].
    constructor; cbn [set_field hc_state hc_buffer hc_buflen c1]; rewrite ?Er; try done.
    rewrite !length_app, length_take, length_drop. lia.
  - destruct (blocks_grow 64 block_pos m d) as [E1 E2]; [lia|].
    eexists. split; [done|]. split; [|done].
    constructor; cbn [set_field hc_state hc_buffer hc_buflen c1]; rewrite ?E1, ?E2; try done.
    + rewrite !length_app, length_take, length_drop. lia.
    + by rewrite length_app.
    + rewrite Hr, app_assoc, take_app_length'; done.
Qed.

Lemma stream_loop_spec fuel c m p off len :
  holds c m → octets p → 0 ≤ off → 0 ≤ len → off + len ≤ Z.of_nat (length p) →
  len ≤ Z.of_nat fuel →
  ∃ c', stream_loop transform fuel c p off len = Some c' ∧
    holds c' (m ++ take (Z.to_nat len) (drop (Z.to_nat off) p)) ∧ hc_bitlen c' = hc_bitlen c.
Proof.
  intros H Hp. revert c m off len H.
  induction fuel as [|fuel IH]; intros c m off len H Hoff Hlen Hin Hf.
  { replace len with 0 by lia. exists c. split; [done|]. by rewrite take_0, app_nil_r. }
  cbn [stream_loop]. destruct (Z.eqb_spec len 0) as [->|Hnz].
  { exists c. split; [done|]. by rewrite take_0, app_nil_r. }
  pose proof (rest_lt 64 block_pos m) as Hlt. pose proof (h_buflen _ _ H) as Hbl.
  unfold OWHASH_SHA256_BLOCK_SIZE. rewrite Hbl, (u32_small (64 - _)) by lia.
  rewrite (proj2 (Z.eqb_neq (64 - _) 0)) by lia. rewrite obind_Some. cbn beta iota.
  set (take_ := if len <? 64 - Z.of_nat (length (rest 64 m)) then _ else _).
  assert (1 ≤ take_ ≤ len ∧ take_ ≤ 64 - Z.of_nat (length (rest 64 m))) as Ht.
  { unfold take_. case_if; [rewrite u32_small|]; lia. }
  clearbody take_. unfold ow_hash_memcpy.
  rewrite Hbl, copy_at_Z by (rewrite ?(h_buffer _ _ H); lia). rewrite obind_Some.
  set (d := take (Z.to_nat take_) (drop (Z.to_nat off) p)).
  assert (length d = Z.to_nat take_) as Hd by (unfold d; rewrite length_take, length_drop; lia).
  destruct (absorb_step c m d) as (c2 & E2 & H2 & Hb2); [done|by apply Forall_take, Forall_drop|lia|].
  cbv zeta in E2. rewrite Nat2Z.id, u32_small by lia.
  replace (Z.to_nat (Z.of_nat (length (rest 64 m)) + take_)) with (length (rest 64 m) + length d)%nat by lia.
  replace (Z.of_nat (length (rest 64 m)) + take_) with (Z.of_nat (length (rest 64 m) + length d)) by lia.
  rewrite E2, obind_Some.
  destruct (IH c2 (m ++ d) (off + take_) (len - take_)) as (c' & E' & H' & Hb'); [done|lia..|].
  exists c'. split; [done|]. split; [|congruence].
  replace (take (Z.to_nat len) _) with (d ++ take (Z.to_nat (len - take_)) (drop (Z.to_nat (off + take_)) p)).
  { by rewrite app_assoc. }
  unfold d. rewrite Z2Nat.inj_add, <-drop_drop, take_take_drop by lia. f_equal. lia.
Qed.

(** The length field the code writes for [bits] bits. *)
Definition len_field (len_shift : Z → Z) (bits : Z) : list Z :=
  (λ i : nat, u8 (Z.shiftr bits (len_shift (Z.of_nat i)))) <$> seq 0 8.

Lemma len_field_length ls bits : length (len_field ls bits) = 8%nat.
Proof. done. Qed.

Lemma len_field_octets ls bits : octets (len_field ls bits).
Proof. apply Forall_fmap, Forall_true. intros i. apply u8_range. Qed.

Lemma stream_zeros_spec c (lo limit : nat) :
  hc_buflen c = Z.of_nat lo → (lo ≤ limit)%nat → (limit ≤ length (hc_buffer c))%nat →
  stream_zeros (Z.of_nat limit) c =
    Some (c <| hc_buffer := take lo (hc_buffer c) ++ replicate (limit - lo) 0 ++ drop limit (hc_buffer c) |>
            <| hc_buflen := Z.of_nat limit |>).
Proof.
  intros Hl Hle Hlim. unfold stream_zeros. rewrite Hl.
  replace (Z.to_nat (Z.of_nat limit - Z.of_nat lo)) with (limit - lo)%nat by lia.
  rewrite zeros_at by lia. rewrite obind_Some, Z.max_l by lia.
  by replace (lo + (limit - lo))%nat with limit by lia.
Qed.

(** The last block: the pending octets [q], zeros up to the length field, the
    field. *)
Lemma stream_last_spec c (q : list Z) ls bits :
  length (hc_buffer c) = 64%nat → hc_buflen c = Z.of_nat (length q) → (length q ≤ 56)%nat →
  take (length q) (hc_buffer c) = q →
  ∃ c1 buf, stream_zeros 56 c = Some c1 ∧ hc_state c1 = hc_state c ∧
    for_up 8 0 (λ i b, aset b (56 + i) (u8 (Z.shiftr bits (ls i)))) (hc_buffer c1) = Some buf ∧
    buf = q ++ replicate (56 - length q) 0 ++ len_field ls bits.
Proof.
  intros Hb Hl Hq Ht. eexists _, _. split.
  { apply (stream_zeros_spec c (length q) 56); lia || done. }
  split; [done|]. cbn [set_field hc_buffer]. rewrite Ht.
  assert (length (q ++ replicate (56 - length q) 0) = 56%nat) as Hlen.
  { rewrite length_app, length_replicate. lia. }
  split.
  { apply (stores_at _ (λ i, u8 (Z.shiftr bits (ls i))) 56 8).
    rewrite app_assoc, length_app, Hlen, length_drop. lia. }
  rewrite !app_assoc, <-app_assoc, take_app_length' by done.
  rewrite (drop_ge (_ ++ _)), app_nil_r; [done|]. rewrite length_app, Hlen, length_drop. lia.
Qed.

Lemma stream_finish_spec ls c m :
  holds c m →
  ∃ c', stream_finish transform ls c = Some c' ∧ st_ok (hc_state c') ∧
    val (hc_state c') = md_hash 64 (λ _, len_field ls (hc_bitlen c)) comp iv m.
Proof.
  intros [Hok Hv Hb Hl Hr Ho]. pose proof (rest_lt 64 block_pos m) as Hlt.
  set (r := rest 64 m) in *. set (lfd := len_field ls (hc_bitlen c)) in *.
  assert (length lfd = 8%nat) as Hlf by apply len_field_length.
  assert (octets r) as Hor by by apply octets_rest.
  unfold stream_finish, md_hash. rewrite Hl.
  rewrite aset_in, obind_Some by lia. cbn [set_field hc_buflen hc_buffer hc_state hc_bitlen].
  rewrite u32_small, Nat2Z.id by lia.
  assert (take (length r + 1) (<[length r := 128]> (hc_buffer c)) = r ++ [128]) as Hq.
  { rewrite Nat.add_1_r, (take_S_r _ _ 128) by (apply list_lookup_insert_eq; lia).
    by rewrite take_insert_ge, Hr by lia. }
  assert (length (r ++ [128]) = (length r + 1)%nat) as Hql by apply length_app.
  set (q := r ++ [128]) in *.
  set (b1 := <[length r := 128]> (hc_buffer c)) in *.
  assert (length b1 = 64)%nat as Hb1 by (unfold b1; by rewrite length_insert).
  destruct (decide (length r < 56)%nat) as [Hs|Hs].
  - rewrite (proj2 (Z.ltb_ge 56 _)) by lia. rewrite obind_Some.
    set (c1 := OwhashCtx _ _ b1 _).
    destruct (stream_last_spec c1 q ls (hc_bitlen c)) as (c2 & buf & E2 & Est & Ebuf & ->);
      [done|unfold c1; cbn [hc_buflen]; lia|lia|by rewrite Hql|].
    rewrite E2, obind_Some, Ebuf, obind_Some. cbn [set_field hc_state hc_buffer]. fold lfd.
    destruct (bh_step (hc_state c2) (q ++ replicate (56 - length q) 0 ++ lfd)) as (st & E & Hok' & Hv').
    { by rewrite Est. }
    { unfold q. rewrite !octets_app. split_and!; auto with cmodel; [by repeat constructor|apply len_field_octets]. }
    { rewrite !length_app, length_replicate, Hlf. lia. }
    rewrite E, obind_Some. eexists. split; [done|]. split; [done|]. cbn [set_field hc_state].
    rewrite md_pad_one by (fold r lfd; lia). fold r lfd. rewrite Hlf.
    rewrite foldl_snoc, Hv', Est. unfold c1, q. cbn [hc_state]. rewrite Hv, <-app_assoc, length_app.
    done.

  - rewrite (proj2 (Z.ltb_lt 56 _)) by lia.
    change OWHASH_SHA256_BLOCK_SIZE with (Z.of_nat 64).
    rewrite (stream_zeros_spec _ (length q) 64) by (cbn [set_field hc_buflen hc_buffer]; lia).
    rewrite obind_Some. cbn [set_field hc_buflen hc_buffer hc_state hc_bitlen].
    rewrite Hql, Hq, (drop_ge b1) by lia. rewrite app_nil_r. unfold q. rewrite <-app_assoc.
    set (d := [128] ++ replicate (64 - (length r + 1)) 0).
    destruct (stream_block_spec (c <| hc_buffer := r ++ d |>) m d) as (st & Est & Hok' & Hv' & _); try done.
    { unfold d. apply octets_app. split; [by repeat constructor|apply octets_zeros]. }
    { unfold d. fold r. rewrite length_app, length_replicate. simpl. lia. }
    cbn [set_field hc_state hc_buffer] in Est. unfold stream_block. cbn [set_field hc_state hc_buffer].
    rewrite Est, !obind_Some.
    edestruct (stream_last_spec (OwhashCtx st (hc_bitlen c) (r ++ d) 0) [] ls (hc_bitlen c))
      as (c2 & buf & E2 & Est2 & Ebuf & ->); [|done|simpl; lia|done|].
    { cbn [hc_buffer]. unfold d. rewrite !length_app, length_replicate. simpl. lia. }
    cbn [set_field hc_bitlen hc_buffer hc_state hc_buflen]. rewrite E2, obind_Some, Ebuf, obind_Some.
    cbn [set_field hc_state hc_buffer]. fold lfd.
    destruct (bh_step (hc_state c2) (replicate 56 0 ++ lfd)) as (st2 & E & Hok2 & Hv2).
    { by rewrite Est2. }
    { rewrite !octets_app. split; auto with cmodel. apply len_field_octets. }
    { rewrite !length_app, length_replicate, Hlf. lia. }
    rewrite app_nil_l, Nat.sub_0_r, E, obind_Some. eexists. split; [done|]. split; [done|]. cbn [set_field hc_state].
    rewrite md_pad_two by (fold r lfd; lia). fold r lfd. rewrite Hlf.
    rewrite app_assoc, foldl_snoc, Hv2, Est2. cbn [hc_state]. rewrite Hv'.
    destruct (blocks_complete 64 block_pos m d) as [Ebl _].
    { unfold d. fold r. rewrite length_app, length_replicate. simpl. lia. }
    by rewrite Ebl.
Qed.
End stream_spec.
