(* ===== verification/HashSha2.v ===== *)
(** * SHA-256, SHA-512 and MD5 against their standards

    Reference definitions of the SHA-2 family (FIPS 180-4), parameterised by
    the word size, and of MD5 (RFC 1321): message schedule and rounds as folds
    over lists, the SHA-2 constants computed from the roots of the first
    primes.  The block transforms of [owhash64.c] refine them
    ([BlockHash] instances), and so do its digests. *)
From Stdlib Require Import Btauto.
From S2P Require Import Prelude Owhash HashSpec.

(** ** The SHA-2 family *)

Definition rotr (w x n : Z) : Z := Z.lor (Z.shiftr x n) (wrap w (Z.shiftl x (w - n))).

Record sha2 := Sha2 {
  s_word : Z;                 (** word size in bits *)
  s_k : list Z;               (** round constants, one per round *)
  s_S0 : Z → Z; s_S1 : Z → Z; (** the functions on the working variables *)
  s_s0 : Z → Z; s_s1 : Z → Z; (** the functions of the message schedule *)
}.

(** The constants: the first [w] bits of the fractional parts of the cube
    roots (rounds) and square roots (initial value) of the first primes. *)
Fixpoint root_bits (pow : Z → Z) (n : nat) (target acc : Z) : Z :=
  match n with
  | O => acc
  | S n => let acc' := acc + 2 ^ Z.of_nat n in
           root_bits pow n target (if pow acc' <=? target then acc' else acc)
  end.

Definition prime_b (n : Z) : bool :=
  (2 <=? n) && forallb (λ d, nz (n mod d)) (seqZ 2 (n - 2)).
Definition primes (n : Z) : list Z := List.filter prime_b (seqZ 0 n).

Definition cube_root_frac (w : Z) (p : Z) : Z :=
  wrap w (root_bits (λ x, x * x * x) (Z.to_nat w + 4) (p * 2 ^ (3 * w)) 0).
Definition square_root_frac (w : Z) (p : Z) : Z :=
  wrap w (root_bits (λ x, x * x) (Z.to_nat w + 4) (p * 2 ^ (2 * w)) 0).

Definition sha256_alg : sha2 :=
  {| s_word := 32;
     s_k := take 64 (cube_root_frac 32 <$> primes 410);
     s_S0 x := Z.lxor (Z.lxor (rotr 32 x 2) (rotr 32 x 13)) (rotr 32 x 22);
     s_S1 x := Z.lxor (Z.lxor (rotr 32 x 6) (rotr 32 x 11)) (rotr 32 x 25);
     s_s0 x := Z.lxor (Z.lxor (rotr 32 x 7) (rotr 32 x 18)) (Z.shiftr x 3);
     s_s1 x := Z.lxor (Z.lxor (rotr 32 x 17) (rotr 32 x 19)) (Z.shiftr x 10) |}.

Definition sha512_alg : sha2 :=
  {| s_word := 64;
     s_k := take 80 (cube_root_frac 64 <$> primes 410);
     s_S0 x := Z.lxor (Z.lxor (rotr 64 x 28) (rotr 64 x 34)) (rotr 64 x 39);
     s_S1 x := Z.lxor (Z.lxor (rotr 64 x 14) (rotr 64 x 18)) (rotr 64 x 41);
     s_s0 x := Z.lxor (Z.lxor (rotr 64 x 1) (rotr 64 x 8)) (Z.shiftr x 7);
     s_s1 x := Z.lxor (Z.lxor (rotr 64 x 19) (rotr 64 x 61)) (Z.shiftr x 6) |}.

Definition sha256_iv : list Z := take 8 (square_root_frac 32 <$> primes 410).
Definition sha512_iv : list Z := take 8 (square_root_frac 64 <$> primes 410).

Section sha2.
Context (A : sha2).

(** The schedule: sixteen words of the block, then the recurrence. *)
Definition sha2_next (w : list Z) : Z :=
  let t := length w in
  wrap (s_word A) (s_s1 A (w !!! (t - 2)%nat) + w !!! (t - 7)%nat +
                   s_s0 A (w !!! (t - 15)%nat) + w !!! (t - 16)%nat).
Fixpoint sha2_schedule (n : nat) (w : list Z) : list Z :=
  match n with O => w | S n => let l := sha2_schedule n w in l ++ [sha2_next l] end.

Definition sha2_ch (x y z : Z) : Z := Z.lxor (Z.land x y) (Z.land (wrap (s_word A) (Z.lnot x)) z).
Definition sha2_maj (x y z : Z) : Z := Z.lxor (Z.lxor (Z.land x y) (Z.land x z)) (Z.land y z).

Definition sha2_round (v : sha_vars) (kw : Z * Z) : sha_vars :=
  let '(a, b, c, d, e, f, g, h) := v in
  let t1 := h + s_S1 A e + sha2_ch e f g + kw.1 + kw.2 in
  let t2 := s_S0 A a + sha2_maj a b c in
  (wrap (s_word A) (t1 + t2), a, b, c, wrap (s_word A) (d + t1), e, f, g).

Definition vars_of (l : list Z) : sha_vars :=
  (l !!! 0%nat, l !!! 1%nat, l !!! 2%nat, l !!! 3%nat,
   l !!! 4%nat, l !!! 5%nat, l !!! 6%nat, l !!! 7%nat).
Definition list_of (v : sha_vars) : list Z :=
  let '(a, b, c, d, e, f, g, h) := v in [a; b; c; d; e; f; g; h].

(** The sixteen big-endian words of a block of words of [n] octets. *)
Definition be_words (n : nat) (blk : list Z) : list Z :=
  (λ i, be_value (take n (drop (i * n) blk))) <$> seq 0 16.

Definition sha2_compress (n : nat) (H blk : list Z) : list Z :=
  let w := sha2_schedule (length (s_k A) - 16) (be_words n blk) in
  zip_with (λ x y, wrap (s_word A) (x + y)) H
    (list_of (foldl sha2_round (vars_of H) (zip (s_k A) w))).
End sha2.

(** The digests. *)
Definition sha256 (m : list Z) : list Z :=
  mjoin (be_bytes 4 <$>
    md_hash 64 (λ n, be_bytes 8 (8 * Z.of_nat n)) (sha2_compress sha256_alg 4) sha256_iv m).
Definition sha512 (m : list Z) : list Z :=
  mjoin (be_bytes 8 <$>
    md_hash 128 (λ n, be_bytes 16 (8 * Z.of_nat n)) (sha2_compress sha512_alg 8) sha512_iv m).

(** ** Loops over words *)

(** A loop that stores [f i] into slot [i]. *)
Lemma load_loop (n : nat) (body : Z → list Z → option (list Z)) (f : nat → Z) w :
  (∀ (i : nat) w, (i < n)%nat → body (Z.of_nat i) w = aset w (Z.of_nat i) (f i)) →
  (n ≤ length w)%nat →
  for_up n 0 body w = Some ((f <$> seq 0 n) ++ drop n w).
Proof.
  intros Hb Hn.
  destruct (for_up_inv (λ j d, ∃ k : nat, j = Z.of_nat k ∧ d = (f <$> seq 0 k) ++ drop k w)
    n 0 body w) as (d & -> & k & Hk & ->).
  - by exists 0%nat.
  - intros j d Hj (k & -> & ->). rewrite Hb by lia.
    destruct (lookup_lt_is_Some_2 w k) as [x Hx]; [lia|].
    rewrite (drop_lookup_cons _ _ _ Hx).
    rewrite aset_app_at by (rewrite length_fmap, length_seq; lia).
    eexists. split; [done|]. exists (S k). split; [lia|].
    by rewrite seq_S, fmap_app, <-app_assoc.
  - by replace k with n by lia.
Qed.

Lemma aget_total (w : list Z) (i : nat) : (i < length w)%nat → aget w (Z.of_nat i) = Some (w !!! i).
Proof. intros Hi. rewrite aget_of_nat. by apply list_lookup_lookup_total_lt. Qed.

Lemma sha2_schedule_length A n w : length (sha2_schedule A n w) = (n + length w)%nat.
Proof. induction n as [|n IH]; [done|]. cbn [sha2_schedule]. rewrite length_app, IH. simpl. lia. Qed.

(** The loop that extends the schedule in place. *)
Lemma schedule_loop A (n : nat) (ext : Z → list Z → option (list Z)) (w tail : list Z) :
  (∀ i w, ext i w =
    (w15 ← aget w (i - 15); w2 ← aget w (i - 2); w16 ← aget w (i - 16); w7 ← aget w (i - 7);
     aset w i (wrap (s_word A) (w16 + s_s0 A w15 + w7 + s_s1 A w2)))) →
  length w = 16%nat → length tail = n →
  for_up n 16 ext (w ++ tail) = Some (sha2_schedule A n w).
Proof.
  intros He Hw Ht.
  destruct (for_up_inv (λ j d, ∃ k : nat, j = 16 + Z.of_nat k ∧
      d = sha2_schedule A k w ++ drop k tail) n 16 ext (w ++ tail)) as (d & -> & k & Hk & ->).
  - by exists 0%nat.
  - intros j d Hj (k & -> & ->). rewrite He.
    destruct (lookup_lt_is_Some_2 tail k) as [x Hx]; [lia|].
    rewrite (drop_lookup_cons _ _ _ Hx).
    pose proof (sha2_schedule_length A k w) as Hl. set (l := sha2_schedule A k w) in *.
    assert (∀ o : Z, 1 ≤ o ≤ 16 →
      aget (l ++ x :: drop (S k) tail) (16 + Z.of_nat k - o) = Some (l !!! (length l - Z.to_nat o)%nat)) as Hg.
    { intros o Ho. replace (16 + Z.of_nat k - o) with (Z.of_nat (length l - Z.to_nat o)) by lia.
      rewrite aget_total by (rewrite length_app; simpl; lia).
      by rewrite lookup_total_app_l by lia. }
    rewrite (Hg 15), (Hg 2), (Hg 16), (Hg 7), !obind_Some by lia.
    rewrite aset_app_at by lia. eexists. split; [done|]. exists (S k). split; [lia|].
    cbn [sha2_schedule]. fold l. rewrite <-app_assoc. cbn [app]. do 2 f_equal.
    unfold sha2_next. change (Z.to_nat 15) with 15%nat. change (Z.to_nat 2) with 2%nat.
    change (Z.to_nat 16) with 16%nat. change (Z.to_nat 7) with 7%nat. f_equal. lia.
  - replace k with n by lia. by rewrite drop_ge, app_nil_r by lia.
Qed.

(** The round loop. *)
Lemma round_loop {V} (round : V → Z * Z → V) (ks ws : list Z) (body : Z → V → option V) v :
  length ws = length ks →
  (∀ i k w v, aget ks i = Some k → aget ws i = Some w → body i v = Some (round v (k, w))) →
  for_up (length ks) 0 body v = Some (foldl round v (zip ks ws)).
Proof.
  intros Hl Hb.
  destruct (for_up_inv (λ j x, ∃ k : nat, j = Z.of_nat k ∧
      x = foldl round v (zip (take k ks) (take k ws))) (length ks) 0 body v) as (d & -> & k & Hk & ->).
  - by exists 0%nat.
  - intros j x Hj (k & -> & ->). rewrite (Hb _ (ks !!! k) (ws !!! k)) by (apply aget_total; lia).
    eexists. split; [done|]. exists (S k). split; [lia|].
    rewrite (take_S_r ks k (ks !!! k)), (take_S_r ws k (ws !!! k))
      by (apply list_lookup_lookup_total_lt; lia).
    rewrite zip_with_app by (rewrite !length_take; lia). cbn [zip_with]. by rewrite foldl_snoc.
  - by rewrite !take_ge by lia.
Qed.

(** ** Bytes and words *)

Lemma shiftr_div v n : 0 ≤ n → Z.shiftr v n = v / 2 ^ n.
Proof. apply Z.shiftr_div_pow2. Qed.

Lemma le_bytes_map n x :
  le_bytes n x = (λ i : nat, u8 (Z.shiftr x (8 * Z.of_nat i))) <$> seq 0 n.
Proof.
  revert x. induction n as [|n IH]; intros x; [done|]. cbn [le_bytes seq fmap list_fmap].
  f_equal. rewrite IH, <-fmap_S_seq, <-list_fmap_compose.
  apply list_fmap_ext. intros _ i _. unfold compose. f_equal.
  change 256 with (2 ^ 8). rewrite <-shiftr_div, Z.shiftr_shiftr by lia. f_equal. lia.
Qed.

Lemma le_bytes_4 v :
  le_bytes 4 v = [u8 v; u8 (Z.shiftr v 8); u8 (Z.shiftr v 16); u8 (Z.shiftr v 24)].
Proof. by rewrite le_bytes_map. Qed.

Lemma le_bytes_8 v :
  le_bytes 8 v = [u8 v; u8 (Z.shiftr v 8); u8 (Z.shiftr v 16); u8 (Z.shiftr v 24);
                  u8 (Z.shiftr v 32); u8 (Z.shiftr v 40); u8 (Z.shiftr v 48); u8 (Z.shiftr v 56)].
Proof. by rewrite le_bytes_map. Qed.

Lemma be_bytes_4 v :
  be_bytes 4 v = [u8 (Z.shiftr v 24); u8 (Z.shiftr v 16); u8 (Z.shiftr v 8); u8 v].
Proof. unfold be_bytes. by rewrite le_bytes_4. Qed.

Lemma be_bytes_8 v :
  be_bytes 8 v = [u8 (Z.shiftr v 56); u8 (Z.shiftr v 48); u8 (Z.shiftr v 40); u8 (Z.shiftr v 32);
                  u8 (Z.shiftr v 24); u8 (Z.shiftr v 16); u8 (Z.shiftr v 8); u8 v].
Proof. unfold be_bytes. by rewrite le_bytes_8. Qed.

(** Octets put together by shifts spell the number. *)
Fixpoint lor_bytes (acc : Z) (l : list Z) : Z :=
  match l with [] => acc | b :: l => lor_bytes (Z.lor (Z.shiftl acc 8) b) l end.

Lemma lor_bytes_be l acc : octets l → lor_bytes acc l = foldl (λ a b, 256 * a + b) acc l.
Proof.
  intros H. revert acc. induction H as [|b l Hb _ IH]; intros acc; [done|].
  cbn [lor_bytes foldl]. rewrite lor_shiftl_add by lia. change (2 ^ 8) with 256.
  by rewrite Z.mul_comm, IH.
Qed.

Lemma be_value_rev l : be_value (rev l) = le l.
Proof.
  unfold be_value in *. induction l as [|b l IH]; [done|].
  cbn [rev le foldr]. rewrite foldl_app. cbn [foldl]. rewrite IH. unfold le. lia.
Qed.

Lemma lor_be b0 b1 b2 b3 :
  octets [b0; b1; b2; b3] →
  Z.lor (Z.lor (Z.lor (Z.shiftl b0 24) (Z.shiftl b1 16)) (Z.shiftl b2 8)) b3 =
    be_value [b0; b1; b2; b3].
Proof.
  intros H. unfold be_value. rewrite <-lor_bytes_be by done. cbn [lor_bytes].
  rewrite Z.shiftl_0_l, Z.lor_0_l. by rewrite !Z.shiftl_lor, !Z.shiftl_shiftl by lia.
Qed.

Lemma lor_be8 b0 b1 b2 b3 b4 b5 b6 b7 :
  octets [b0; b1; b2; b3; b4; b5; b6; b7] →
  Z.lor (Z.lor (Z.lor (Z.lor (Z.lor (Z.lor (Z.lor (Z.shiftl b0 56) (Z.shiftl b1 48))
    (Z.shiftl b2 40)) (Z.shiftl b3 32)) (Z.shiftl b4 24)) (Z.shiftl b5 16)) (Z.shiftl b6 8)) b7 =
    be_value [b0; b1; b2; b3; b4; b5; b6; b7].
Proof.
  intros H. unfold be_value. rewrite <-lor_bytes_be by done. cbn [lor_bytes].
  rewrite Z.shiftl_0_l, Z.lor_0_l. by rewrite !Z.shiftl_lor, !Z.shiftl_shiftl by lia.
Qed.

Lemma lor_le_octets b0 b1 b2 b3 :
  octets [b0; b1; b2; b3] →
  Z.lor (Z.lor (Z.lor b0 (Z.shiftl b1 8)) (Z.shiftl b2 16)) (Z.shiftl b3 24) =
    le [b0; b1; b2; b3].
Proof.
  intros H. rewrite <-be_value_rev. cbn [rev app].
  rewrite <-(lor_be b3 b2 b1 b0) by (by apply (Forall_rev H)).
  apply Z.bits_inj. intros n. rewrite !Z.lor_spec. btauto.
Qed.

Lemma lor_le8 b0 b1 b2 b3 b4 b5 b6 b7 :
  octets [b0; b1; b2; b3; b4; b5; b6; b7] →
  Z.lor (Z.lor (Z.lor (Z.lor (Z.lor (Z.lor (Z.lor b0 (Z.shiftl b1 8)) (Z.shiftl b2 16))
    (Z.shiftl b3 24)) (Z.shiftl b4 32)) (Z.shiftl b5 40)) (Z.shiftl b6 48)) (Z.shiftl b7 56) =
    le [b0; b1; b2; b3; b4; b5; b6; b7].
Proof.
  intros H. rewrite <-be_value_rev. cbn [rev app].
  rewrite <-(lor_be8 b7 b6 b5 b4 b3 b2 b1 b0) by (by apply (Forall_rev H)).
  apply Z.bits_inj. intros n. rewrite !Z.lor_spec. btauto.
Qed.

(** Consecutive octets of an array. *)
Lemma aget_run (p : list Z) (i n : nat) l :
  take n (drop i p) = l → ∀ k, (k < length l)%nat → aget p (Z.of_nat i + Z.of_nat k) = l !! k.
Proof.
  intros <- k Hk. rewrite length_take in Hk. rewrite <-Nat2Z.inj_add, aget_of_nat.
  by rewrite lookup_take_lt, lookup_drop by lia.
Qed.

Lemma aget_four (p : list Z) (i : nat) :
  octets p → (i + 4 ≤ length p)%nat →
  ∃ b0 b1 b2 b3, take 4 (drop i p) = [b0; b1; b2; b3] ∧ octets [b0; b1; b2; b3] ∧
    aget p (Z.of_nat i) = Some b0 ∧ aget p (Z.of_nat i + 1) = Some b1 ∧
    aget p (Z.of_nat i + 2) = Some b2 ∧ aget p (Z.of_nat i + 3) = Some b3.
Proof.
  intros Hp Hi. assert (octets (take 4 (drop i p))) as Ho by by apply Forall_take, Forall_drop.
  assert (length (take 4 (drop i p)) = 4%nat) as Hl by (rewrite length_take, length_drop; lia).
  pose proof (aget_run p i 4 _ eq_refl) as H. destruct (take 4 (drop i p)) as [|b0 [|b1 [|b2 [|b3 [|]]]]]; try done.
  exists b0, b1, b2, b3. split_and!; try done; [rewrite <-(Z.add_0_r (Z.of_nat i)); apply (H 0%nat)
    |apply (H 1%nat)|apply (H 2%nat)|apply (H 3%nat)]; simpl; lia.
Qed.

Lemma aget_eight (p : list Z) (i : nat) :
  octets p → (i + 8 ≤ length p)%nat →
  ∃ b0 b1 b2 b3 b4 b5 b6 b7, take 8 (drop i p) = [b0; b1; b2; b3; b4; b5; b6; b7] ∧
    octets [b0; b1; b2; b3; b4; b5; b6; b7] ∧
    aget p (Z.of_nat i) = Some b0 ∧ aget p (Z.of_nat i + 1) = Some b1 ∧
    aget p (Z.of_nat i + 2) = Some b2 ∧ aget p (Z.of_nat i + 3) = Some b3 ∧
    aget p (Z.of_nat i + 4) = Some b4 ∧ aget p (Z.of_nat i + 5) = Some b5 ∧
    aget p (Z.of_nat i + 6) = Some b6 ∧ aget p (Z.of_nat i + 7) = Some b7.
Proof.
  intros Hp Hi. assert (octets (take 8 (drop i p))) as Ho by by apply Forall_take, Forall_drop.
  assert (length (take 8 (drop i p)) = 8%nat) as Hl by (rewrite length_take, length_drop; lia).
  pose proof (aget_run p i 8 _ eq_refl) as H.
  destruct (take 8 (drop i p)) as [|b0 [|b1 [|b2 [|b3 [|b4 [|b5 [|b6 [|b7 [|]]]]]]]]]; try done.
  exists b0, b1, b2, b3, b4, b5, b6, b7.
  split_and!; try done; [rewrite <-(Z.add_0_r (Z.of_nat i)); apply (H 0%nat)
    |apply (H 1%nat)|apply (H 2%nat)|apply (H 3%nat)|apply (H 4%nat)|apply (H 5%nat)
    |apply (H 6%nat)|apply (H 7%nat)]; simpl; lia.
Qed.

Lemma rd_be32_spec p (i : nat) :
  octets p → (i + 4 ≤ length p)%nat →
  ow_hash_rd_be32 p (Z.of_nat i) = Some (be_value (take 4 (drop i p))).
Proof.
  intros Hp Hi. destruct (aget_four p i Hp Hi) as (b0 & b1 & b2 & b3 & E & Ho & E0 & E1 & E2 & E3).
  unfold ow_hash_rd_be32. rewrite E0, E1, E2, E3, E, !obind_Some. by rewrite lor_be.
Qed.

Lemma rd_le32_spec p (i : nat) :
  octets p → (i + 4 ≤ length p)%nat →
  ow_hash_rd_le32 p (Z.of_nat i) = Some (le (take 4 (drop i p))).
Proof.
  intros Hp Hi. destruct (aget_four p i Hp Hi) as (b0 & b1 & b2 & b3 & E & Ho & E0 & E1 & E2 & E3).
  unfold ow_hash_rd_le32. rewrite E0, E1, E2, E3, E, !obind_Some. by rewrite lor_le_octets.
Qed.

(** ** The SHA-256 transform *)

Lemma sha256_k_roots : s_k sha256_alg = ow_sha256_k.
Proof. vm_compute. reflexivity. Qed.

Lemma wrap_add w x y : 0 ≤ w → wrap w (wrap w x + wrap w y) = wrap w (x + y).
Proof. intros. unfold wrap. symmetry. apply Zplus_mod. Qed.

Lemma wrap_add_l w x y : 0 ≤ w → wrap w (wrap w x + y) = wrap w (x + y).
Proof. intros. unfold wrap. apply Zplus_mod_idemp_l. Qed.

Lemma wrap_add_r w x y : 0 ≤ w → wrap w (x + wrap w y) = wrap w (x + y).
Proof. intros. unfold wrap. apply Zplus_mod_idemp_r. Qed.

Lemma sha256_round_spec k w v : ow_sha256_round k w v = sha2_round sha256_alg v (k, w).
Proof.
  destruct v as [[[[[[[a b] c] d] e] f] g] h].
  cbv [ow_sha256_round sha2_round sha256_alg fst snd s_word s_S0 s_S1 sha2_ch sha2_maj
       ow_hash_rotr32 rotr u32].
  by rewrite wrap_add, wrap_add_r by lia.
Qed.

Lemma list_8 (l : list Z) : length l = 8%nat → ∃ a b c d e f g h, l = [a; b; c; d; e; f; g; h].
Proof. do 9 (destruct l as [|? l]; try done). intros _. by do 8 eexists. Qed.

Lemma sha256_transform_spec st blk :
  length st = 8%nat → octets blk → length blk = 64%nat →
  ow_sha256_transform st blk = Some (sha2_compress sha256_alg 4 st blk).
Proof.
  intros Hst Hb Hl. unfold ow_sha256_transform, sha2_compress.
  rewrite (load_loop 16 _ (λ i, be_value (take 4 (drop (i * 4) blk)))); [|intros i w Hi|simpl; lia].
  2:{ replace (Z.of_nat i * 4) with (Z.of_nat (i * 4)) by lia.
      by rewrite rd_be32_spec by (done || lia). }
  rewrite obind_Some, (schedule_loop sha256_alg 48 ow_sha256_extend) by done.
  rewrite obind_Some. fold (be_words 4 blk). set (w := sha2_schedule _ _ _).
  rewrite sha256_k_roots. change (length ow_sha256_k - 16)%nat with 48%nat. fold w.
  assert (length w = length ow_sha256_k) as Hw by (unfold w; rewrite sha2_schedule_length; done).
  destruct (list_8 st Hst) as (a & b & c & d & e & f & g & h & ->).
  set (st := [a; b; c; d; e; f; g; h]).
  assert (aget st 0 = Some a) as -> by done. assert (aget st 1 = Some b) as -> by done.
  assert (aget st 2 = Some c) as -> by done. assert (aget st 3 = Some d) as -> by done.
  assert (aget st 4 = Some e) as -> by done. assert (aget st 5 = Some f) as -> by done.
  assert (aget st 6 = Some g) as -> by done. assert (aget st 7 = Some h) as -> by done.
  rewrite !obind_Some, (round_loop (sha2_round sha256_alg) ow_sha256_k w), obind_Some; [|done|].
  2:{ intros i k x v -> ->. rewrite !obind_Some. by rewrite sha256_round_spec. }
  change (vars_of st) with (a, b, c, d, e, f, g, h).
  destruct (foldl _ _ _) as [[[[[[[a' b'] c'] d'] e'] f'] g'] h']. unfold st.
  reflexivity.
Qed.

Lemma sha2_compress_length A n H blk : length H = 8%nat → length (sha2_compress A n H blk) = 8%nat.
Proof.
  intros Hl. unfold sha2_compress. destruct (foldl _ _ _) as [[[[[[[? ?] ?] ?] ?] ?] ?] ?].
  rewrite length_zip_with. simpl. lia.
Qed.

#[export] Instance sha256_block_hash :
  BlockHash 64 ow_sha256_transform (λ st, length st = 8%nat) id (sha2_compress sha256_alg 4).
Proof.
  constructor; [lia|]. intros st blk Hst Hb Hl. rewrite sha256_transform_spec by done.
  eexists. split; [done|]. split; [by apply sha2_compress_length|done].
Qed.

(** ** MD5 *)

Definition rotl (w x n : Z) : Z := Z.lor (wrap w (Z.shiftl x n)) (Z.shiftr x (w - n)).

(** RFC 1321: in each of the four rounds of sixteen steps, the auxiliary
    function and the index of the message word. *)
Definition md5_step (m : list Z) (v : md5_vars) (i : nat) : md5_vars :=
  let '(a, b, c, d) := v in
  let not x := wrap 32 (Z.lnot x) in
  let '(f, k) :=
    match (i / 16)%nat with
    | 0%nat => (Z.lor (Z.land b c) (Z.land (not b) d), i)
    | 1%nat => (Z.lor (Z.land d b) (Z.land (not d) c), (5 * i + 1) mod 16)%nat
    | 2%nat => (Z.lxor (Z.lxor b c) d, (3 * i + 5) mod 16)%nat
    | _ => (Z.lxor c (Z.lor b (not d)), (7 * i) mod 16)%nat
    end in
  let t := wrap 32 (f + a + ow_md5_k !!! i + m !!! k) in
  (d, wrap 32 (b + rotl 32 t (ow_md5_s !!! i)), b, c).

Definition md5_compress (H blk : list Z) : list Z :=
  let m := (λ i, le (take 4 (drop (i * 4) blk))) <$> seq 0 16 in
  let '(a, b, c, d) :=
    foldl (md5_step m) (H !!! 0%nat, H !!! 1%nat, H !!! 2%nat, H !!! 3%nat) (seq 0 64) in
  zip_with (λ x y, wrap 32 (x + y)) H [a; b; c; d].

Definition md5 (m : list Z) : list Z :=
  mjoin (le_bytes 4 <$>
    md_hash 64 (λ n, le_bytes 8 (8 * Z.of_nat n)) md5_compress
      [0x67452301; 0xEFCDAB89; 0x98BADCFE; 0x10325476] m).

Lemma md5_round_spec m v i :
  length m = 16%nat → (i < 64)%nat → ow_md5_round m (Z.of_nat i) v = Some (md5_step m v i).
Proof.
  intros Hm Hi. destruct v as [[[a b] c] d]. unfold ow_md5_round, md5_step, ow_md5_select.
  rewrite (aget_total ow_md5_k i), (aget_total ow_md5_s i) by (simpl; lia).
  assert (∀ x : nat, (x < 1000)%nat → Z.land (u32 (Z.of_nat x)) 15 = Z.of_nat (x mod 16)) as Hland.
  { intros x Hx. rewrite u32_small by lia. change 15 with (Z.ones 4). rewrite Z.land_ones by lia.
    by rewrite Nat2Z.inj_mod. }
  assert (∀ x : nat, aget m (Z.of_nat (x mod 16)) = Some (m !!! (x mod 16)%nat)) as Hget.
  { intros x. apply aget_total. rewrite Hm. apply Nat.mod_upper_bound. lia. }
  replace (5 * Z.of_nat i + 1) with (Z.of_nat (5 * i + 1)) by lia.
  replace (3 * Z.of_nat i + 5) with (Z.of_nat (3 * i + 5)) by lia.
  replace (7 * Z.of_nat i) with (Z.of_nat (7 * i)) by lia.
  destruct (decide (i < 16)%nat).
  { rewrite (proj2 (Z.ltb_lt _ _)), Nat.div_small by lia. by rewrite aget_total by lia. }
  destruct (decide (i < 32)%nat).
  { rewrite (proj2 (Z.ltb_ge _ 16)), (proj2 (Z.ltb_lt _ 32)) by lia.
    replace (i / 16)%nat with 1%nat by (apply (Nat.div_unique _ _ _ (i - 16)); lia).
    by rewrite Hland, Hget by lia. }
  destruct (decide (i < 48)%nat).
  { rewrite (proj2 (Z.ltb_ge _ 16)), (proj2 (Z.ltb_ge _ 32)), (proj2 (Z.ltb_lt _ 48)) by lia.
    replace (i / 16)%nat with 2%nat by (apply (Nat.div_unique _ _ _ (i - 32)); lia).
    by rewrite Hland, Hget by lia. }
  rewrite (proj2 (Z.ltb_ge _ 16)), (proj2 (Z.ltb_ge _ 32)), (proj2 (Z.ltb_ge _ 48)) by lia.
  replace (i / 16)%nat with 3%nat by (apply (Nat.div_unique _ _ _ (i - 48)); lia).
  rewrite Hland by lia. by rewrite Hget.
Qed.

Lemma md5_transform_spec st blk :
  length st = 4%nat → octets blk → length blk = 64%nat →
  ow_md5_transform st blk = Some (md5_compress st blk).
Proof.
  intros Hst Hb Hl. unfold ow_md5_transform, md5_compress.
  rewrite (load_loop 16 _ (λ i, le (take 4 (drop (i * 4) blk)))); [|intros i w Hi|simpl; lia].
  2:{ replace (Z.of_nat i * 4) with (Z.of_nat (i * 4)) by lia.
      by rewrite rd_le32_spec by (done || lia). }
  rewrite obind_Some, drop_ge, app_nil_r by (simpl; lia). set (m := _ <$> seq 0 16).
  assert (length m = 16%nat) as Hm by done. clearbody m.
  do 5 (destruct st as [|? st]; try done). set (st := [_; _; _; _]).
  assert (aget st 0 = Some z) as -> by done. assert (aget st 1 = Some z0) as -> by done.
  assert (aget st 2 = Some z1) as -> by done. assert (aget st 3 = Some z2) as -> by done.
  rewrite !obind_Some.
  change (st !!! 0%nat) with z. change (st !!! 1%nat) with z0.
  change (st !!! 2%nat) with z1. change (st !!! 3%nat) with z2.
  destruct (for_up_inv (λ j v, ∃ k : nat, j = Z.of_nat k ∧
      v = foldl (md5_step m) (z, z0, z1, z2) (seq 0 k)) 64 0 (ow_md5_round m) (z, z0, z1, z2))
    as (v & -> & k & Hk & ->).
  - by exists 0%nat.
  - intros j v Hj (k & -> & ->). rewrite md5_round_spec by lia. eexists. split; [done|].
    exists (S k). split; [lia|]. by rewrite seq_S, foldl_snoc.
  - replace k with 64%nat by lia. rewrite obind_Some.
    destruct (foldl _ _ _) as [[[a b] c] d]. reflexivity.
Qed.

#[export] Instance md5_block_hash :
  BlockHash 64 ow_md5_transform (λ st, length st = 4%nat) id md5_compress.
Proof.
  constructor; [lia|]. intros st blk Hst Hb Hl. rewrite md5_transform_spec by done.
  eexists. split; [done|]. split; [|done]. unfold md5_compress.
  destruct (foldl _ _ _) as [[[a b] c] d]. cbn [id]. rewrite length_zip_with. simpl. lia.
Qed.

(** ** The digests of the library *)

(** The loop that stores the words of the chaining value into the output,
    [W] octets each. *)
Lemma wr_words (W : nat) (wr : list Z → Z → Z → option (list Z)) (enc : Z → list Z) (st out : list Z) :
  (∀ p t (q : list Z) (k : nat) v, length p = (k * W)%nat → length t = W →
     wr (p ++ t ++ q) (Z.of_nat k) v = Some (p ++ enc v ++ q)) →
  (∀ v, length (enc v) = W) →
  (length st * W ≤ length out)%nat →
  for_up (length st) 0 (λ i o, s ← aget st i; wr o i s) out =
    Some (mjoin (enc <$> st) ++ drop (length st * W) out).
Proof.
  intros Hwr Henc Hl.
  assert (∀ l : list Z, length (mjoin (enc <$> l)) = (length l * W)%nat) as Hj.
  { induction l as [|x l IH]; [done|]. change (mjoin (enc <$> x :: l)) with (enc x ++ mjoin (enc <$> l)).
    rewrite length_app, Henc, IH. done. }
  destruct (for_up_inv (λ j o, ∃ k : nat, j = Z.of_nat k ∧
      o = mjoin (enc <$> take k st) ++ drop (k * W) out) (length st) 0
    (λ i o, s ← aget st i; wr o i s) out) as (o & -> & k & Hk & ->).
  - by exists 0%nat.
  - intros j o Hj' (k & -> & ->). rewrite aget_total, obind_Some by lia.
    assert (k * W + W ≤ length out)%nat by nia.
    rewrite <-(take_drop W (drop (k * W) out)), drop_drop, Hwr.
    2:{ rewrite Hj, length_take_le by lia. done. }
    2:{ rewrite length_take, length_drop. lia. }
    eexists. split; [done|]. exists (S k). split; [lia|].
    rewrite (take_S_r st k (st !!! k)) by (apply list_lookup_lookup_total_lt; lia).
    rewrite fmap_app, join_app, <-app_assoc.
    change (mjoin (enc <$> [st !!! k])) with (enc (st !!! k) ++ []). rewrite app_nil_r.
    do 3 f_equal. lia.
  - replace k with (length st) by lia. by rewrite take_ge by lia.
Qed.

(** Replacing a run of octets one by one: [stores off vs] is the sequence of
    stores of [vs] from [off] on. *)
Fixpoint stores (p : list Z) (off : Z) (vs : list Z) : option (list Z) :=
  match vs with [] => Some p | v :: vs => p ← aset p off v; stores p (off + 1) vs end.

Lemma stores_spec (vs p t q : list Z) off :
  length t = length vs → off = Z.of_nat (length p) → stores (p ++ t ++ q) off vs = Some (p ++ vs ++ q).
Proof.
  revert p t off. induction vs as [|v vs IH]; intros p [|x t] off Hl Hoff; try done.
  cbn [stores app]. rewrite aset_app_at by done. rewrite obind_Some.
  change (v :: t ++ q) with ([v] ++ t ++ q). rewrite (app_assoc p).
  rewrite (IH (p ++ [v]) t) by (simpl in Hl; rewrite ?length_app; simpl; lia). by rewrite <-app_assoc.
Qed.

Lemma wr_be32_stores p off v : ow_hash_wr_be32 p off v = stores p off (be_bytes 4 v).
Proof.
  rewrite be_bytes_4. unfold ow_hash_wr_be32. cbn [stores].
  rewrite <-!Z.add_assoc. repeat (apply option_bind_ext_fun; intros ?). by destruct aset.
Qed.

Lemma wr_le32_stores p off v : ow_hash_wr_le32 p off v = stores p off (le_bytes 4 v).
Proof.
  rewrite le_bytes_4. unfold ow_hash_wr_le32. cbn [stores].
  rewrite <-!Z.add_assoc. repeat (apply option_bind_ext_fun; intros ?). by destruct aset.
Qed.

(** Low bits survive a wider wrap-around. *)
Lemma mod_div_low x w k n :
  0 ≤ k → 0 ≤ n → k + n ≤ w → (x mod 2 ^ w / 2 ^ k) mod 2 ^ n = (x / 2 ^ k) mod 2 ^ n.
Proof.
  intros Hk Hn Hw. apply Z.bits_inj'. intros i Hi.
  destruct (decide (i < n)).
  - rewrite !Z.mod_pow2_bits_low, !Z.div_pow2_bits, Z.mod_pow2_bits_low by lia. done.
  - by rewrite !Z.mod_pow2_bits_high by lia.
Qed.

Lemma len_field_le x : len_field (λ i, i * 8) (u64 x) = le_bytes 8 x.
Proof.
  rewrite le_bytes_map. unfold len_field. apply list_fmap_ext. intros k i [-> Hi]%lookup_seq.
  rewrite !shiftr_div by lia. unfold u8, u64, wrap. rewrite mod_div_low by lia.
  by rewrite (Z.mul_comm _ 8).
Qed.

Lemma len_field_be x : len_field (λ i, 56 - i * 8) (u64 x) = be_bytes 8 x.
Proof. unfold be_bytes. rewrite <-len_field_le. done. Qed.

Lemma md_hash_ext {S} B lf lf' (comp : S → list Z → S) iv m :
  lf (length m) = lf' (length m) → md_hash B lf comp iv m = md_hash B lf' comp iv m.
Proof. intros E. unfold md_hash, md_pad. by rewrite E. Qed.

Section absorb.
Context {S : Type} {transform : list Z → list Z → option (list Z)}.
Context {st_ok : list Z → Prop} {val : list Z → S} {comp : S → list Z → S}.
Context `{BH : !BlockHash 64 transform st_ok val comp} (iv : S).

(** The context after message [m], its length counter included. *)
Definition hashing (c : owhash_ctx) (m : list Z) : Prop :=
  holds (st_ok := st_ok) (val := val) (comp := comp) iv c m ∧
  hc_bitlen c = u64 (8 * Z.of_nat (length m)).

Lemma hashing_init c :
  st_ok (hc_state c) → val (hc_state c) = iv → length (hc_buffer c) = 64%nat →
  hc_buflen c = 0 → hc_bitlen c = 0 → hashing c [].
Proof.
  intros. destruct (blocks_nil 64) as [E1 E2].
  split; [constructor|]; rewrite ?E1, ?E2; try done. by constructor.
Qed.

Lemma hashing_update c m p len :
  hashing c m → octets p → 0 ≤ len ≤ Z.of_nat (length p) →
  ∃ c', stream_update transform c p len = Some c' ∧ hashing c' (m ++ take (Z.to_nat len) p).
Proof.
  intros [[Hok Hv Hb Hl Hr Ho] Hbits] Hp Hlen. unfold stream_update.
  destruct (stream_loop_spec (val := val) (comp := comp) iv (Z.to_nat len)
    (c <| hc_bitlen := u64 (hc_bitlen c + u64 (len * 8)) |>) m p 0 len)
    as (c' & E & Hh & Eb); [done|done|lia..|].
  exists c'. split; [done|]. change (Z.to_nat 0) with 0%nat in Hh. rewrite drop_0 in Hh. split; [done|].
  rewrite Eb. cbn [set_field hc_bitlen]. rewrite Hbits, length_app, length_take. unfold u64.
  rewrite wrap_add by lia. f_equal. lia.
Qed.
End absorb.

(** A call of [owhash_sha256_update] and the octets it passes: [NULL] passes none. *)
Definition call_ok (call : ptr (list Z) * Z) : Prop :=
  match call.1 with
  | NULL => True
  | Some p => octets p ∧ 0 ≤ call.2 ≤ Z.of_nat (length p)
  end.
Definition call_bytes (call : ptr (list Z) * Z) : list Z :=
  match call.1 with NULL => [] | Some p => take (Z.to_nat call.2) p end.

(** A client: initialise, any sequence of updates, finish. *)
Definition sha256_calls (stack : owhash_ctx) (calls : list (ptr (list Z) * Z)) (out : list Z)
    : option (ptr owhash_ctx * ptr (list Z)) :=
  c ← owhash_sha256_init (Some stack);
  c ← foldl (λ c call, c ← c; owhash_sha256_update c call.1 call.2) (Some c) calls;
  owhash_sha256_final c (Some out).

Definition sha256_hashing := hashing (st_ok := λ st, length st = 8%nat) (val := id)
  (comp := sha2_compress sha256_alg 4) sha256_iv.

Lemma sha256_init_spec stack :
  length (hc_buffer stack) = 64%nat →
  ∃ c, owhash_sha256_init (Some stack) = Some (Some c) ∧ sha256_hashing c [].
Proof.
  intros Hb. cbn [owhash_sha256_init]. unfold ow_hash_memset.
  change (for_up _ _ _ _) with (for_up 64 (Z.of_nat 0) (λ i d, aset d i 0) (hc_buffer stack)).
  rewrite zeros_at, obind_Some by lia. eexists. split; [done|]. apply hashing_init; [done|..|done|done].
  - vm_compute. reflexivity.
  - cbn [hc_buffer]. rewrite !length_app, length_take, length_replicate, length_drop. lia.
Qed.

Lemma sha256_update_spec c m call :
  sha256_hashing c m → call_ok call →
  ∃ c', owhash_sha256_update (Some c) call.1 call.2 = Some (Some c') ∧
    sha256_hashing c' (m ++ call_bytes call).
Proof.
  intros H Hc. destruct call as [[p|] len]; unfold call_ok, call_bytes in *; cbn [fst snd] in *.
  - destruct (hashing_update _ c m p len H) as (c' & E & H'); [apply Hc..|].
    exists c'. cbn [owhash_sha256_update]. by rewrite E.
  - cbn [owhash_sha256_update]. rewrite app_nil_r. unfold nz.
    destruct (Z.eqb_spec len 0) as [->|]; [|by exists c].
    destruct (hashing_update _ c m [] 0 H) as (c' & E & H'); [constructor|done|].
    exists c'. cbn [negb]. rewrite E. split; [done|]. by rewrite take_nil, app_nil_r in H'.
Qed.

Lemma sha256_updates_spec calls c m :
  sha256_hashing c m → Forall call_ok calls →
  ∃ c', foldl (λ c call, c ← c; owhash_sha256_update c call.1 call.2) (Some (Some c)) calls =
      Some (Some c') ∧ sha256_hashing c' (m ++ mjoin (call_bytes <$> calls)).
Proof.
  revert c m. induction calls as [|call calls IH]; intros c m H Hc.
  { exists c. by rewrite app_nil_r. }
  apply Forall_cons in Hc as [Hc Hcs].
  destruct (sha256_update_spec c m call H Hc) as (c1 & E1 & H1).
  destruct (IH _ _ H1 Hcs) as (c' & E & H'). exists c'. cbn [foldl]. rewrite obind_Some, E1, E.
  split; [done|]. by rewrite <-app_assoc in H'.
Qed.

Lemma sha256_final_spec c m out :
  sha256_hashing c m → (32 ≤ length out)%nat →
  ∃ c', owhash_sha256_final (Some c) (Some out) = Some (Some c', Some (sha256 m ++ drop 32 out)).
Proof.
  intros [H Hbits] Ho. cbn [owhash_sha256_final].
  destruct (stream_finish_spec _ (λ i, 56 - i * 8) c m H) as (c' & E & Hl & Hv).
  exists c'. rewrite E, obind_Some. rewrite <-Hl at 1.
  rewrite (wr_words 4 (λ o i v, ow_hash_wr_be32 o (i * 4) v) (be_bytes 4)), obind_Some;
    [|intros; rewrite wr_be32_stores; by apply stores_spec; [done|lia]|done|lia].
  do 2 f_equal. rewrite Hl. unfold sha256. cbn [id] in Hv. rewrite Hv, Hbits.
  by rewrite (md_hash_ext _ _ (λ n, be_bytes 8 (8 * Z.of_nat n))) by apply len_field_be.
Qed.

(** [C18] For every sequence of update calls ([NULL] data and lengths below the
    array's included), SHA-256 of [owhash64.c] is defined, writes the 32 octets of the FIPS
    180-4 digest of the concatenation of the octets passed, whatever the cuts,
    and nothing else of the output array. *)
Theorem owhash_sha256_stream stack calls out :
  length (hc_buffer stack) = 64%nat → Forall call_ok calls → (32 ≤ length out)%nat →
  ∃ c, sha256_calls stack calls out =
    Some (Some c, Some (sha256 (mjoin (call_bytes <$> calls)) ++ drop 32 out)).
Proof.
  intros Hb Hc Ho. unfold sha256_calls.
  destruct (sha256_init_spec stack Hb) as (c0 & -> & H0). rewrite obind_Some.
  destruct (sha256_updates_spec calls c0 [] H0 Hc) as (c1 & -> & H1). rewrite obind_Some.
  by apply sha256_final_spec.
Qed.

Lemma owhash_sha256_stream_witness :
  ∃ c, sha256_calls (OwhashCtx [] 5 (replicate 64 7) 9)
         [(Some [97; 98; 0], 2); (NULL, 7); (Some [99], 1)] (replicate 33 1) =
    Some (Some c, Some (
      [0xba; 0x78; 0x16; 0xbf; 0x8f; 0x01; 0xcf; 0xea; 0x41; 0x41; 0x40; 0xde; 0x5d; 0xae; 0x22; 0x23;
       0xb0; 0x03; 0x61; 0xa3; 0x96; 0x17; 0x7a; 0x9c; 0xb4; 0x10; 0xff; 0x61; 0xf2; 0x00; 0x15; 0xad]
      ++ [1])).
Proof.
  destruct (owhash_sha256_stream (OwhashCtx [] 5 (replicate 64 7) 9)
    [(Some [97; 98; 0], 2); (NULL, 7); (Some [99], 1)] (replicate 33 1)) as [c E].
  - done.
  - repeat constructor; simpl; lia.
  - simpl; lia.
  - exists c. rewrite E. vm_compute. reflexivity.
Defined.

Definition md5_hashing := hashing (st_ok := λ st, length st = 4%nat) (val := id)
  (comp := md5_compress) [0x67452301; 0xEFCDAB89; 0x98BADCFE; 0x10325476].

(** [owhash_md5] computes the RFC 1321 digest of the first [len] octets
    whatever its uninitialised local context held, and changes only the first
    16 octets of the output array. *)
Theorem owhash_md5_digest stack p len out :
  length (hc_buffer stack) = 64%nat → octets p → 0 ≤ len ≤ Z.of_nat (length p) →
  (16 ≤ length out)%nat →
  owhash_md5 stack (Some p) len (Some out) = Some (Some (md5 (take (Z.to_nat len) p) ++ drop 16 out)).
Proof.
  intros Hb Hp Hlen Ho. cbn [owhash_md5 ow_md5_update].
  assert (md5_hashing (ow_md5_init stack) []) as H0 by by apply hashing_init.
  destruct (hashing_update _ _ [] p len H0 Hp Hlen) as (c1 & -> & H1 & Hbits). rewrite obind_Some.
  unfold ow_md5_final. destruct (stream_finish_spec _ (λ i, i * 8) c1 _ H1) as (c' & -> & Hl & Hv).
  rewrite obind_Some. rewrite <-Hl at 1.
  rewrite (wr_words 4 (λ o i v, ow_hash_wr_le32 o (i * 4) v) (le_bytes 4)), !obind_Some;
    [|intros; rewrite wr_le32_stores; by apply stores_spec; [done|lia]|done|lia].
  do 2 f_equal. rewrite Hl. unfold md5. cbn [id] in Hv. rewrite Hv, Hbits.
  by rewrite (md_hash_ext _ _ (λ n, le_bytes 8 (8 * Z.of_nat n))) by apply len_field_le.
Qed.

Lemma owhash_md5_digest_witness :
  owhash_md5 (OwhashCtx [] 5 (replicate 64 7) 9) (Some [97; 98; 99; 100]) 3 (Some (replicate 17 1)) =
    Some (Some ([0x90; 0x01; 0x50; 0x98; 0x3c; 0xd2; 0x4f; 0xb0;
                 0xd6; 0x96; 0x3f; 0x7d; 0x28; 0xe1; 0x7f; 0x72] ++ [1])).
Proof.
  rewrite (owhash_md5_digest (OwhashCtx [] 5 (replicate 64 7) 9) [97; 98; 99; 100] 3 (replicate 17 1)).
  - vm_compute. reflexivity.
  - done.
  - repeat constructor; lia.
  - simpl; lia.
  - simpl; lia.
Defined.

(** ** CRC32C *)

Definition crc32c_byte (c b : Z) : Z := Nat.iter 8 owhash_crc32c_bit (Z.lxor c b).

(** CRC32C of a split buffer: continuing with the returned checksum
    gives the checksum of the whole buffer, at every split. *)
Theorem owhash_crc32c_continues crc (a b : list Z) :
  (c ← owhash_crc32c crc (Some a) (Z.of_nat (length a));
   owhash_crc32c c (Some b) (Z.of_nat (length b))) =
  owhash_crc32c crc (Some (a ++ b)) (Z.of_nat (length (a ++ b))).
Proof.
  cbn [owhash_crc32c]. rewrite !(bytes_loop crc32c_byte), !obind_Some by lia.
  rewrite (bytes_loop crc32c_byte), !obind_Some by lia.
  by rewrite !Nat2Z.id, !firstn_all, foldl_app, (Z.lxor_assoc _ UINT32_MAX), Z.lxor_nilpotent, Z.lxor_0_r.
Qed.
