(* ===== verification/Owcrypt.v ===== *)
(** * The encryption engine: hashes ([DLL/owcrypt/owcrypt.c], lines 42-105 and 180-580)

    Byte helpers, SHA-256 and SHA-512 with their common streaming context,
    HMAC over both, and BLAKE2b.  The update, final and HMAC routines of the
    two SHA functions have the same text up to sizes and names; they are
    written once over those parameters and instantiated.  Pointers into an array are
    the array and an offset; a routine that receives a pointer and a length
    reads the corresponding slice ([aslice]).  Local arrays that C leaves
    indeterminate are arguments ([stack]) where their contents could be read. *)
From S2P Require Import Prelude.

(** ** Byte helpers *)

Definition owc_put32 (p : list Z) (off v : Z) : option (list Z) :=
  p ← aset p off (u8 (Z.shiftr v 24)); p ← aset p (off + 1) (u8 (Z.shiftr v 16));
  p ← aset p (off + 2) (u8 (Z.shiftr v 8)); aset p (off + 3) (u8 v).

Definition owc_put32le (p : list Z) (off v : Z) : option (list Z) :=
  p ← aset p off (u8 v); p ← aset p (off + 1) (u8 (Z.shiftr v 8));
  p ← aset p (off + 2) (u8 (Z.shiftr v 16)); aset p (off + 3) (u8 (Z.shiftr v 24)).

Definition owc_get32 (p : list Z) (off : Z) : option Z :=
  p0 ← aget p off; p1 ← aget p (off + 1); p2 ← aget p (off + 2); p3 ← aget p (off + 3);
  Some (Z.lor (Z.lor (Z.lor (Z.shiftl p0 24) (Z.shiftl p1 16)) (Z.shiftl p2 8)) p3).

Definition owc_get32le (p : list Z) (off : Z) : option Z :=
  p0 ← aget p off; p1 ← aget p (off + 1); p2 ← aget p (off + 2); p3 ← aget p (off + 3);
  Some (Z.lor (Z.lor (Z.lor p0 (Z.shiftl p1 8)) (Z.shiftl p2 16)) (Z.shiftl p3 24)).

Definition owc_put64 (p : list Z) (off v : Z) : option (list Z) :=
  p ← aset p off (u8 (Z.shiftr v 56)); p ← aset p (off + 1) (u8 (Z.shiftr v 48));
  p ← aset p (off + 2) (u8 (Z.shiftr v 40)); p ← aset p (off + 3) (u8 (Z.shiftr v 32));
  p ← aset p (off + 4) (u8 (Z.shiftr v 24)); p ← aset p (off + 5) (u8 (Z.shiftr v 16));
  p ← aset p (off + 6) (u8 (Z.shiftr v 8)); aset p (off + 7) (u8 v).

Definition owc_get64 (p : list Z) (off : Z) : option Z :=
  p0 ← aget p off; p1 ← aget p (off + 1); p2 ← aget p (off + 2); p3 ← aget p (off + 3);
  p4 ← aget p (off + 4); p5 ← aget p (off + 5); p6 ← aget p (off + 6); p7 ← aget p (off + 7);
  Some (Z.lor (Z.lor (Z.lor (Z.lor (Z.lor (Z.lor (Z.lor (Z.shiftl p0 56) (Z.shiftl p1 48))
         (Z.shiftl p2 40)) (Z.shiftl p3 32)) (Z.shiftl p4 24)) (Z.shiftl p5 16)) (Z.shiftl p6 8)) p7).

Definition owc_put64le (p : list Z) (off v : Z) : option (list Z) :=
  p ← aset p off (u8 v); p ← aset p (off + 1) (u8 (Z.shiftr v 8));
  p ← aset p (off + 2) (u8 (Z.shiftr v 16)); p ← aset p (off + 3) (u8 (Z.shiftr v 24));
  p ← aset p (off + 4) (u8 (Z.shiftr v 32)); p ← aset p (off + 5) (u8 (Z.shiftr v 40));
  p ← aset p (off + 6) (u8 (Z.shiftr v 48)); aset p (off + 7) (u8 (Z.shiftr v 56)).

Definition owc_get64le (p : list Z) (off : Z) : option Z :=
  p0 ← aget p off; p1 ← aget p (off + 1); p2 ← aget p (off + 2); p3 ← aget p (off + 3);
  p4 ← aget p (off + 4); p5 ← aget p (off + 5); p6 ← aget p (off + 6); p7 ← aget p (off + 7);
  Some (Z.lor (Z.lor (Z.lor (Z.lor (Z.lor (Z.lor (Z.lor p0 (Z.shiftl p1 8))
         (Z.shiftl p2 16)) (Z.shiftl p3 24)) (Z.shiftl p4 32)) (Z.shiftl p5 40)) (Z.shiftl p6 48))
         (Z.shiftl p7 56)).

Definition owc_rotl32 (x n : Z) : Z := Z.lor (u32 (Z.shiftl x n)) (Z.shiftr x (32 - n)).
Definition owc_rotr32 (x n : Z) : Z := Z.lor (Z.shiftr x n) (u32 (Z.shiftl x (32 - n))).
Definition owc_rotr64 (x n : Z) : Z := Z.lor (Z.shiftr x n) (u64 (Z.shiftl x (64 - n))).

(** ** SHA-256 and SHA-512 block compression *)

(** Row by row, as the table stands in the source. *)
Definition owc_sha256_k : list Z := Eval cbv in concat [
  [0x428a2f98; 0x71374491; 0xb5c0fbcf; 0xe9b5dba5; 0x3956c25b; 0x59f111f1];
  [0x923f82a4; 0xab1c5ed5; 0xd807aa98; 0x12835b01; 0x243185be; 0x550c7dc3];
  [0x72be5d74; 0x80deb1fe; 0x9bdc06a7; 0xc19bf174; 0xe49b69c1; 0xefbe4786];
  [0x0fc19dc6; 0x240ca1cc; 0x2de92c6f; 0x4a7484aa; 0x5cb0a9dc; 0x76f988da];
  [0x983e5152; 0xa831c66d; 0xb00327c8; 0xbf597fc7; 0xc6e00bf3; 0xd5a79147];
  [0x06ca6351; 0x14292967; 0x27b70a85; 0x2e1b2138; 0x4d2c6dfc; 0x53380d13];
  [0x650a7354; 0x766a0abb; 0x81c2c92e; 0x92722c85; 0xa2bfe8a1; 0xa81a664b];
  [0xc24b8b70; 0xc76c51a3; 0xd192e819; 0xd6990624; 0xf40e3585; 0x106aa070];
  [0x19a4c116; 0x1e376c08; 0x2748774c; 0x34b0bcb5; 0x391c0cb3; 0x4ed8aa4a];
  [0x5b9cca4f; 0x682e6ff3; 0x748f82ee; 0x78a5636f; 0x84c87814; 0x8cc70208];
  [0x90befffa; 0xa4506ceb; 0xbef9a3f7; 0xc67178f2]].

Definition owc_sha512_k : list Z :=
  [0x428a2f98d728ae22; 0x7137449123ef65cd; 0xb5c0fbcfec4d3b2f; 0xe9b5dba58189dbbc;
   0x3956c25bf348b538; 0x59f111f1b605d019; 0x923f82a4af194f9b; 0xab1c5ed5da6d8118;
   0xd807aa98a3030242; 0x12835b0145706fbe; 0x243185be4ee4b28c; 0x550c7dc3d5ffb4e2;
   0x72be5d74f27b896f; 0x80deb1fe3b1696b1; 0x9bdc06a725c71235; 0xc19bf174cf692694;
   0xe49b69c19ef14ad2; 0xefbe4786384f25e3; 0x0fc19dc68b8cd5b5; 0x240ca1cc77ac9c65;
   0x2de92c6f592b0275; 0x4a7484aa6ea6e483; 0x5cb0a9dcbd41fbd4; 0x76f988da831153b5;
   0x983e5152ee66dfab; 0xa831c66d2db43210; 0xb00327c898fb213f; 0xbf597fc7beef0ee4;
   0xc6e00bf33da88fc2; 0xd5a79147930aa725; 0x06ca6351e003826f; 0x142929670a0e6e70;
   0x27b70a8546d22ffc; 0x2e1b21385c26c926; 0x4d2c6dfc5ac42aed; 0x53380d139d95b3df;
   0x650a73548baf63de; 0x766a0abb3c77b2a8; 0x81c2c92e47edaee6; 0x92722c851482353b;
   0xa2bfe8a14cf10364; 0xa81a664bbc423001; 0xc24b8b70d0f89791; 0xc76c51a30654be30;
   0xd192e819d6ef5218; 0xd69906245565a910; 0xf40e35855771202a; 0x106aa07032bbd1b8;
   0x19a4c116b8d2d0c8; 0x1e376c085141ab53; 0x2748774cdf8eeb99; 0x34b0bcb5e19b48a8;
   0x391c0cb3c5c95a63; 0x4ed8aa4ae3418acb; 0x5b9cca4f7763e373; 0x682e6ff3d6b2b8a3;
   0x748f82ee5defb2fc; 0x78a5636f43172f60; 0x84c87814a1f0ab72; 0x8cc702081a6439ec;
   0x90befffa23631e28; 0xa4506cebde82bde9; 0xbef9a3f7b2c67915; 0xc67178f2e372532b;
   0xca273eceea26619c; 0xd186b8c721c0c207; 0xeada7dd6cde0eb1e; 0xf57d4f7fee6ed178;
   0x06f067aa72176fba; 0x0a637dc5a2c898a6; 0x113f9804bef90dae; 0x1b710b35131c471b;
   0x28db77f523047d84; 0x32caab7b40c72493; 0x3c9ebe0a15c9bebc; 0x431d67c49c100d4c;
   0x4cc5d4becb3e42b6; 0x597f299cfc657e2a; 0x5fcb6fab3ad6faec; 0x6c44198c4a475817].

Abbreviation owc_vars := (Z * Z * Z * Z * Z * Z * Z * Z)%type.

Definition owc_sha256_extend (i : Z) (w : list Z) : option (list Z) :=
  w15 ← aget w (i - 15); w2 ← aget w (i - 2); w16 ← aget w (i - 16); w7 ← aget w (i - 7);
  let s0 := Z.lxor (Z.lxor (owc_rotr32 w15 7) (owc_rotr32 w15 18)) (Z.shiftr w15 3) in
  let s1 := Z.lxor (Z.lxor (owc_rotr32 w2 17) (owc_rotr32 w2 19)) (Z.shiftr w2 10) in
  aset w i (u32 (w16 + s0 + w7 + s1)).

Definition owc_sha256_round (k w : Z) (v : owc_vars) : owc_vars :=
  let '(a, b, cc, d, e, f, g, h) := v in
  let s1 := Z.lxor (Z.lxor (owc_rotr32 e 6) (owc_rotr32 e 11)) (owc_rotr32 e 25) in
  let ch := Z.lxor (Z.land e f) (Z.land (u32 (Z.lnot e)) g) in
  let t1 := u32 (h + s1 + ch + k + w) in
  let s0 := Z.lxor (Z.lxor (owc_rotr32 a 2) (owc_rotr32 a 13)) (owc_rotr32 a 22) in
  let maj := Z.lxor (Z.lxor (Z.land a b) (Z.land a cc)) (Z.land b cc) in
  let t2 := u32 (s0 + maj) in
  (u32 (t1 + t2), a, b, cc, u32 (d + t1), e, f, g).

(** [c->h[i] += v]: the chaining words are 64 bits wide in both functions. *)
Definition owc_h_add (i v : Z) (h : list Z) : option (list Z) :=
  x ← aget h i; aset h i (u64 (x + v)).

Definition owc_sha256_compress (h blk : list Z) : option (list Z) :=
  w ← for_up 16 0 (λ i w, x ← owc_get32 blk (4 * i); aset w i x) (replicate 64 0);
  w ← for_up 48 16 owc_sha256_extend w;
  h0 ← aget h 0; h1 ← aget h 1; h2 ← aget h 2; h3 ← aget h 3;
  h4 ← aget h 4; h5 ← aget h 5; h6 ← aget h 6; h7 ← aget h 7;
  v ← for_up 64 0 (λ i v, k ← aget owc_sha256_k i; wi ← aget w i; Some (owc_sha256_round k wi v))
        (u32 h0, u32 h1, u32 h2, u32 h3, u32 h4, u32 h5, u32 h6, u32 h7);
  let '(a, b, cc, d, e, f, g, hh) := v in
  h ← owc_h_add 0 a h; h ← owc_h_add 1 b h; h ← owc_h_add 2 cc h; h ← owc_h_add 3 d h;
  h ← owc_h_add 4 e h; h ← owc_h_add 5 f h; h ← owc_h_add 6 g h; owc_h_add 7 hh h.

Definition owc_sha512_extend (i : Z) (w : list Z) : option (list Z) :=
  w15 ← aget w (i - 15); w2 ← aget w (i - 2); w16 ← aget w (i - 16); w7 ← aget w (i - 7);
  let s0 := Z.lxor (Z.lxor (owc_rotr64 w15 1) (owc_rotr64 w15 8)) (Z.shiftr w15 7) in
  let s1 := Z.lxor (Z.lxor (owc_rotr64 w2 19) (owc_rotr64 w2 61)) (Z.shiftr w2 6) in
  aset w i (u64 (w16 + s0 + w7 + s1)).

Definition owc_sha512_round (k w : Z) (v : owc_vars) : owc_vars :=
  let '(a, b, cc, d, e, f, g, h) := v in
  let s1 := Z.lxor (Z.lxor (owc_rotr64 e 14) (owc_rotr64 e 18)) (owc_rotr64 e 41) in
  let ch := Z.lxor (Z.land e f) (Z.land (u64 (Z.lnot e)) g) in
  let t1 := u64 (h + s1 + ch + k + w) in
  let s0 := Z.lxor (Z.lxor (owc_rotr64 a 28) (owc_rotr64 a 34)) (owc_rotr64 a 39) in
  let maj := Z.lxor (Z.lxor (Z.land a b) (Z.land a cc)) (Z.land b cc) in
  let t2 := u64 (s0 + maj) in
  (u64 (t1 + t2), a, b, cc, u64 (d + t1), e, f, g).

Definition owc_sha512_compress (h blk : list Z) : option (list Z) :=
  w ← for_up 16 0 (λ i w, x ← owc_get64 blk (8 * i); aset w i x) (replicate 80 0);
  w ← for_up 64 16 owc_sha512_extend w;
  h0 ← aget h 0; h1 ← aget h 1; h2 ← aget h 2; h3 ← aget h 3;
  h4 ← aget h 4; h5 ← aget h 5; h6 ← aget h 6; h7 ← aget h 7;
  v ← for_up 80 0 (λ i v, k ← aget owc_sha512_k i; wi ← aget w i; Some (owc_sha512_round k wi v))
        (h0, h1, h2, h3, h4, h5, h6, h7);
  let '(a, b, cc, d, e, f, g, hh) := v in
  h ← owc_h_add 0 a h; h ← owc_h_add 1 b h; h ← owc_h_add 2 cc h; h ← owc_h_add 3 d h;
  h ← owc_h_add 4 e h; h ← owc_h_add 5 f h; h ← owc_h_add 6 g h; owc_h_add 7 hh h.

(** ** The streaming context *)

Record owcrypt_sha_ctx_t := OwcShaCtx {
  sc_h : list Z;        (** [h], 8 words of 64 bits *)
  sc_total0 : Z;        (** [total[0]]: octets so far *)
  sc_total1 : Z;        (** [total[1]] *)
  sc_buf : list Z;      (** [buf], 128 octets *)
  sc_buflen : Z;        (** [buflen] *)
}.
#[export] Instance owcrypt_sha_ctx_eta : Eta owcrypt_sha_ctx_t :=
  λ c, OwcShaCtx (sc_h c) (sc_total0 c) (sc_total1 c) (sc_buf c) (sc_buflen c).

Section sha.
(** Block size, start of the length field, block compression, the stores of
    the length field, the store of one output word at its index. *)
Variables (B F : Z) (compress : list Z → list Z → option (list Z)).
Variable put_len : list Z → Z → option (list Z).
Variable put_word : list Z → Z → Z → option (list Z).

(** [compress(c, p + off)] *)
Definition sha_block (c : owcrypt_sha_ctx_t) (p : list Z) (off : Z) : option owcrypt_sha_ctx_t :=
  blk ← aslice p off B; h ← compress (sc_h c) blk; Some (c <| sc_h := h |>).

(** [while (n >= B) { compress(c, p); p += B; n -= B; }]: at most [n] rounds. *)
Fixpoint sha_blocks (fuel : nat) (c : owcrypt_sha_ctx_t) (p : list Z) (off n : Z)
    : option (owcrypt_sha_ctx_t * Z * Z) :=
  if n <? B then Some (c, off, n) else
  match fuel with
  | O => None
  | S fuel => c ← sha_block c p off; sha_blocks fuel c p (off + B) (n - B)
  end.

Definition sha_update (c : owcrypt_sha_ctx_t) (p : list Z) (n : Z) : option owcrypt_sha_ctx_t :=
  let c := c <| sc_total0 := u64 (sc_total0 c + n) |> in
  '(c, off, n) ←
    (if nz (sc_buflen c) then
       let need := u64 (B - sc_buflen c) in
       let take := if n <? need then n else need in
       buf ← copy_at take p 0 (sc_buf c) (sc_buflen c);
       let c := c <| sc_buf := buf |> <| sc_buflen := u64 (sc_buflen c + take) |> in
       c ← (if sc_buflen c =? B
            then c ← sha_block c (sc_buf c) 0; Some (c <| sc_buflen := 0 |>) else Some c);
       Some (c, take, n - take)
     else Some (c, 0, n));
  '(c, off, n) ← sha_blocks (Z.to_nat n) c p off n;
  buf ← copy_at n p off (sc_buf c) (sc_buflen c);
  Some (c <| sc_buf := buf |> <| sc_buflen := u64 (sc_buflen c + n) |>).

(** [while (c->buflen < limit) c->buf[c->buflen++] = 0;] *)
Definition sha_zeros (limit : Z) (c : owcrypt_sha_ctx_t) : option owcrypt_sha_ctx_t :=
  buf ← for_up (Z.to_nat (limit - sc_buflen c)) (sc_buflen c) (λ i b, aset b i 0) (sc_buf c);
  Some (c <| sc_buf := buf |> <| sc_buflen := Z.max limit (sc_buflen c) |>).

Definition sha_final (c : owcrypt_sha_ctx_t) (out : list Z)
    : option (owcrypt_sha_ctx_t * list Z) :=
  let bits := u64 (sc_total0 c * 8) in
  buf ← aset (sc_buf c) (sc_buflen c) 128;
  let c := c <| sc_buf := buf |> <| sc_buflen := u64 (sc_buflen c + 1) |> in
  c ← (if F <? sc_buflen c
       then c ← sha_zeros B c; c ← sha_block c (sc_buf c) 0; Some (c <| sc_buflen := 0 |>)
       else Some c);
  c ← sha_zeros F c;
  buf ← put_len (sc_buf c) bits;
  let c := c <| sc_buf := buf |> in
  c ← sha_block c (sc_buf c) 0;
  out ← for_up 8 0 (λ i out, x ← aget (sc_h c) i; put_word out i x) out;
  Some (c, out).
End sha.

Definition owcrypt_sha256_init (c : owcrypt_sha_ctx_t) : owcrypt_sha_ctx_t :=
  OwcShaCtx [0x6a09e667; 0xbb67ae85; 0x3c6ef372; 0xa54ff53a;
             0x510e527f; 0x9b05688c; 0x1f83d9ab; 0x5be0cd19] 0 0 (sc_buf c) 0.
Definition owcrypt_sha256_update := sha_update 64 owc_sha256_compress.
Definition owcrypt_sha256_final :=
  sha_final 64 56 owc_sha256_compress (λ buf bits, owc_put64 buf 56 bits)
    (λ out i x, owc_put32 out (4 * i) (u32 x)).

(** [stack] is the uninitialised local context. *)
Definition owcrypt_sha256 (stack : owcrypt_sha_ctx_t) (data : list Z) (n : Z) (out : list Z)
    : option (list Z) :=
  c ← owcrypt_sha256_update (owcrypt_sha256_init stack) data n;
  '(_, out) ← owcrypt_sha256_final c out; Some out.

Definition owcrypt_sha512_init (c : owcrypt_sha_ctx_t) : owcrypt_sha_ctx_t :=
  OwcShaCtx [0x6a09e667f3bcc908; 0xbb67ae8584caa73b; 0x3c6ef372fe94f82b; 0xa54ff53a5f1d36f1;
             0x510e527fade682d1; 0x9b05688c2b3e6c1f; 0x1f83d9abfb41bd6b; 0x5be0cd19137e2179]
    0 0 (sc_buf c) 0.
Definition owcrypt_sha512_update := sha_update 128 owc_sha512_compress.
Definition owcrypt_sha512_final :=
  sha_final 128 112 owc_sha512_compress
    (λ buf bits, buf ← owc_put64 buf 112 0; owc_put64 buf 120 bits)
    (λ out i x, owc_put64 out (8 * i) x).

Definition owcrypt_sha512 (stack : owcrypt_sha_ctx_t) (data : list Z) (n : Z) (out : list Z)
    : option (list Z) :=
  c ← owcrypt_sha512_update (owcrypt_sha512_init stack) data n;
  '(_, out) ← owcrypt_sha512_final c out; Some out.

(** ** HMAC *)

Section hmac.
(** Block and digest sizes and the hash. *)
Variables (B D : Z).
Variable init : owcrypt_sha_ctx_t → owcrypt_sha_ctx_t.
Variable update : owcrypt_sha_ctx_t → list Z → Z → option owcrypt_sha_ctx_t.
Variable final : owcrypt_sha_ctx_t → list Z → option (owcrypt_sha_ctx_t * list Z).
Variable hash : owcrypt_sha_ctx_t → list Z → Z → list Z → option (list Z).

Definition hmac (stack : owcrypt_sha_ctx_t) (key : list Z) (keylen : Z) (msg : list Z) (msglen : Z)
    (out : list Z) : option (list Z) :=
  let local n := replicate (Z.to_nat n) 0 in
  k ← (if B <? keylen then
         k ← hash stack key keylen (local B);
         for_up (Z.to_nat (B - D)) D (λ i k, aset k i 0) k
       else
         k ← copy_bytes keylen key (local B);
         for_up (Z.to_nat (B - keylen)) keylen (λ i k, aset k i 0) k);
  ipad ← for_up (Z.to_nat B) 0 (λ i a, x ← aget k i; aset a i (u8 (Z.lxor x 0x36))) (local B);
  opad ← for_up (Z.to_nat B) 0 (λ i a, x ← aget k i; aset a i (u8 (Z.lxor x 0x5C))) (local B);
  c ← update (init stack) ipad B;
  c ← update c msg msglen;
  '(c, inner) ← final c (local D);
  c ← update (init c) opad B;
  c ← update c inner D;
  '(_, out) ← final c out;
  Some out.
End hmac.

Definition owcrypt_hmac_sha256 :=
  hmac 64 32 owcrypt_sha256_init owcrypt_sha256_update owcrypt_sha256_final owcrypt_sha256.
Definition owcrypt_hmac_sha512 :=
  hmac 128 64 owcrypt_sha512_init owcrypt_sha512_update owcrypt_sha512_final owcrypt_sha512.

(** ** BLAKE2b *)

Definition owc_blake2b_iv : list Z :=
  [0x6a09e667f3bcc908; 0xbb67ae8584caa73b; 0x3c6ef372fe94f82b;
   0xa54ff53a5f1d36f1; 0x510e527fade682d1; 0x9b05688c2b3e6c1f;
   0x1f83d9abfb41bd6b; 0x5be0cd19137e2179].

Definition owc_blake2b_sigma : list (list Z) :=
  [[0; 1; 2; 3; 4; 5; 6; 7; 8; 9; 10; 11; 12; 13; 14; 15];
   [14; 10; 4; 8; 9; 15; 13; 6; 1; 12; 0; 2; 11; 7; 5; 3];
   [11; 8; 12; 0; 5; 2; 15; 13; 10; 14; 3; 6; 7; 1; 9; 4];
   [7; 9; 3; 1; 13; 12; 11; 14; 2; 6; 5; 10; 4; 0; 15; 8];
   [9; 0; 5; 7; 2; 4; 10; 15; 14; 1; 11; 12; 6; 8; 3; 13];
   [2; 12; 6; 10; 0; 11; 8; 3; 4; 13; 7; 5; 15; 14; 1; 9];
   [12; 5; 1; 15; 14; 13; 4; 10; 0; 7; 6; 3; 9; 2; 8; 11];
   [13; 11; 7; 14; 12; 1; 3; 9; 5; 0; 15; 4; 8; 6; 2; 10];
   [6; 15; 14; 9; 11; 3; 0; 8; 12; 2; 13; 7; 1; 4; 10; 5];
   [10; 2; 8; 4; 7; 6; 1; 5; 15; 11; 9; 14; 3; 12; 13; 0];
   [0; 1; 2; 3; 4; 5; 6; 7; 8; 9; 10; 11; 12; 13; 14; 15];
   [14; 10; 4; 8; 9; 15; 13; 6; 1; 12; 0; 2; 11; 7; 5; 3]].

Definition owc_b2_g (v : list Z) (a b c dd x y : Z) : option (list Z) :=
  va ← aget v a; vb ← aget v b; vc ← aget v c; vd ← aget v dd;
  let va := u64 (va + vb + x) in
  let vd := owc_rotr64 (Z.lxor vd va) 32 in
  let vc := u64 (vc + vd) in
  let vb := owc_rotr64 (Z.lxor vb vc) 24 in
  let va := u64 (va + vb + y) in
  let vd := owc_rotr64 (Z.lxor vd va) 16 in
  let vc := u64 (vc + vd) in
  let vb := owc_rotr64 (Z.lxor vb vc) 63 in
  v ← aset v a va; v ← aset v dd vd; v ← aset v c vc; aset v b vb.

(** [owc_b2_g(v, a, b, c, d, m[s[i]], m[s[i + 1]])] *)
Definition owc_b2_gs (m s : list Z) (v : list Z) (a b c dd i : Z) : option (list Z) :=
  si ← aget s i; sj ← aget s (i + 1); x ← aget m si; y ← aget m sj; owc_b2_g v a b c dd x y.

Definition owc_b2_round (m : list Z) (r : Z) (v : list Z) : option (list Z) :=
  s ← aget owc_blake2b_sigma r;
  v ← owc_b2_gs m s v 0 4 8 12 0; v ← owc_b2_gs m s v 1 5 9 13 2;
  v ← owc_b2_gs m s v 2 6 10 14 4; v ← owc_b2_gs m s v 3 7 11 15 6;
  v ← owc_b2_gs m s v 0 5 10 15 8; v ← owc_b2_gs m s v 1 6 11 12 10;
  v ← owc_b2_gs m s v 2 7 8 13 12; owc_b2_gs m s v 3 4 9 14 14.

(** The body of the loop on the remaining input: one block of [n] octets. *)
Definition owc_b2_block (h : list Z) (t0 fin : Z) (p : list Z) (off n : Z) : option (list Z) :=
  m ← for_up (Z.to_nat n) 0
        (λ i m, x ← aget m (i / 8); b ← aget p (off + i);
                aset m (i / 8) (Z.lor x (u64 (Z.shiftl b (8 * (i mod 8)))))) (replicate 16 0);
  v ← for_up 8 0 (λ i v, x ← aget h i; v ← aset v i x; y ← aget owc_blake2b_iv i; aset v (i + 8) y)
        (replicate 16 0);
  v12 ← aget v 12; v ← aset v 12 (Z.lxor v12 t0);
  v13 ← aget v 13; v ← aset v 13 (Z.lxor v13 0);
  v14 ← aget v 14; v ← aset v 14 (Z.lxor v14 fin);
  v ← for_up 12 0 (owc_b2_round m) v;
  for_up 8 0 (λ i h, x ← aget h i; y ← aget v i; z ← aget v (i + 8);
                     aset h i (Z.lxor x (Z.lxor y z))) h.

Fixpoint owc_b2_loop (fuel : nat) (h : list Z) (t0 : Z) (p : list Z) (off remaining : Z)
    : option (list Z) :=
  if remaining =? 0 then Some h else
  match fuel with
  | O => None
  | S fuel =>
      let n := if 128 <? remaining then 128 else remaining in
      let t0 := u64 (t0 + n) in
      let fin := if remaining <=? 128 then UINT64_MAX else 0 in
      h ← owc_b2_block h t0 fin p off n;
      owc_b2_loop fuel h t0 p (off + n) (remaining - n)
  end.

Definition owcrypt_blake2b (out : list Z) (outlen : Z) (inp : list Z) (inlen : Z)
    : option (list Z) :=
  h0 ← aget owc_blake2b_iv 0;
  h ← aset owc_blake2b_iv 0 (Z.lxor h0 (Z.lxor 0x01010000 (Z.land outlen 0xFF)));
  h ← owc_b2_loop (Z.to_nat inlen) h 0 inp 0 inlen;
  for_up (Z.to_nat outlen) 0
    (λ i out, x ← aget h (i / 8); aset out i (u8 (Z.shiftr x (8 * (i mod 8))))) out.
