(* ===== verification/OwcryptSha.v ===== *)
(** * SHA-256, SHA-512 and HMAC of the encryption engine

    The streaming code of [owcrypt.c] computes the reference digests of
    [HashSha2] for every cut of the message, so its SHA-256 and the one of
    [owhash64.c] are the same function although the two buffer differently
    and keep chaining words of different widths; HMAC is RFC 2104 over them. *)
From S2P Require Import Prelude Owhash HashSpec HashSha2 Owcrypt.

Section sha_spec.
Context {S : Type} (B : nat) (compress : list Z → list Z → option (list Z)).
Context {st_ok : list Z → Prop} {val : list Z → S} {comp : S → list Z → S}.
Context `{BH : !BlockHash B compress st_ok val comp} (iv : S) (HB : (0 < B ≤ 128)%nat).
Implicit Types (c : owcrypt_sha_ctx_t) (m d p : list Z).
Local Abbreviation ZB := (Z.of_nat B).

Local Lemma B_pos : (0 < B)%nat.
Proof. lia. Qed.

(** The chaining value covers the complete blocks of [m]. *)
Definition chained c m : Prop :=
  st_ok (sc_h c) ∧ val (sc_h c) = foldl comp iv (blocks B m) ∧ octets m ∧ length (sc_buf c) = 128%nat.

(** The buffer starts with the octets after them. *)
Definition pending c m : Prop :=
  sc_buflen c = Z.of_nat (length (rest B m)) ∧ take (length (rest B m)) (sc_buf c) = rest B m.

Lemma sha_block_spec c m p off d :
  chained c m → octets d → (length (rest B m) + length d = B)%nat →
  aslice p off ZB = Some (rest B m ++ d) →
  ∃ h, sha_block ZB compress c p off = Some (c <| sc_h := h |>) ∧
    chained (c <| sc_h := h |>) (m ++ d) ∧ rest B (m ++ d) = [].
Proof.
  intros (Hok & Hv & Hm & Hb) Hd Hl Hs. unfold sha_block. rewrite Hs, obind_Some.
  destruct (bh_step (sc_h c) (rest B m ++ d)) as (h & E & Hok' & Hv'); [done|..].
  { apply octets_app. split; [by apply Forall_drop|done]. }
  { by rewrite length_app. }
  destruct (blocks_complete B B_pos m d Hl) as [E1 E2].
  exists h. rewrite E, obind_Some. split; [done|]. split; [|done].
  split; [done|]. cbn [set_field sc_h sc_buf]. split; [by rewrite Hv', Hv, E1, foldl_snoc|].
  split; [by apply octets_app|done].
Qed.

(** The loop over complete blocks, entered with nothing pending. *)
Lemma sha_blocks_spec fuel c m p off n :
  chained c m → rest B m = [] → octets p → 0 ≤ off → 0 ≤ n ≤ Z.of_nat fuel →
  off + n ≤ Z.of_nat (length p) →
  ∃ h off' n', sha_blocks ZB compress fuel c p off n = Some (c <| sc_h := h |>, off', n') ∧
    let m' := m ++ take (Z.to_nat (off' - off)) (drop (Z.to_nat off) p) in
    chained (c <| sc_h := h |>) m' ∧ rest B m' = [] ∧
    off ≤ off' ∧ 0 ≤ n' < ZB ∧ off' + n' = off + n.
Proof.
  intros Hc Hr Hp. revert c m off n Hc Hr. induction fuel as [|fuel IH]; intros c m off n Hc Hr Hoff Hn Hin.
  { exists (sc_h c), off, n. cbn [sha_blocks]. rewrite (proj2 (Z.ltb_lt _ _)) by lia.
    split; [by destruct c|]. cbv zeta. rewrite Z.sub_diag, take_0, app_nil_r.
    split_and!; try lia; [by destruct c|done]. }
  cbn [sha_blocks]. destruct (Z.ltb_spec n ZB) as [Hlt|Hge].
  { exists (sc_h c), off, n. split; [by destruct c|]. cbv zeta. rewrite Z.sub_diag, take_0, app_nil_r.
    split_and!; try lia; [by destruct c|done]. }
  set (d := take B (drop (Z.to_nat off) p)).
  assert (length d = B) as Hd by (unfold d; rewrite length_take, length_drop; lia).
  destruct (sha_block_spec c m p off d) as (h & E & Hc' & Hr'); [done|by apply Forall_take, Forall_drop|by rewrite Hr|..].
  { rewrite Hr, aslice_in by lia. by rewrite Nat2Z.id. }
  rewrite E, obind_Some.
  destruct (IH _ _ (off + ZB) (n - ZB) Hc' Hr') as (h' & off' & n' & E' & H1 & H2 & H3 & H4 & H5); [lia..|].
  exists h', off', n'. rewrite E'. cbn [set_field sc_h sc_total0 sc_total1 sc_buf sc_buflen] in *.
  split; [done|]. cbv zeta in *.
  replace (take (Z.to_nat (off' - off)) (drop (Z.to_nat off) p)) with
    (d ++ take (Z.to_nat (off' - (off + ZB))) (drop (Z.to_nat (off + ZB)) p)).
  { rewrite app_assoc. split_and!; done || lia. }
  unfold d. rewrite Z2Nat.inj_add, Nat2Z.id, <-drop_drop, take_take_drop by lia. f_equal. lia.
Qed.

(** What is left over goes into the buffer. *)
Lemma sha_rest_spec c m p off n :
  chained c m → pending c m → octets p → 0 ≤ off → 0 ≤ n →
  off + n ≤ Z.of_nat (length p) → Z.of_nat (length (rest B m)) + n < ZB →
  ∃ buf, copy_at n p off (sc_buf c) (sc_buflen c) = Some buf ∧
    let c' := c <| sc_buf := buf |> <| sc_buflen := u64 (sc_buflen c + n) |> in
    let m' := m ++ take (Z.to_nat n) (drop (Z.to_nat off) p) in
    chained c' m' ∧ pending c' m'.
Proof.
  intros (Hok & Hv & Hm & Hb) [Hl Ht] Hp Hoff Hn Hin Hlt.
  set (d := take (Z.to_nat n) (drop (Z.to_nat off) p)).
  assert (length d = Z.to_nat n) as Hd by (unfold d; rewrite length_take, length_drop; lia).
  destruct (blocks_grow B B_pos m d) as [E1 E2]; [lia|].
  rewrite copy_at_Z by lia. eexists. split; [done|]. cbv zeta. rewrite Hl, u64_small by lia.
  rewrite Nat2Z.id. fold d. unfold chained, pending. cbn [set_field sc_h sc_buf sc_buflen].
  rewrite E1, E2, Ht. split_and!; try done.
  - apply octets_app. split; [done|by apply Forall_take, Forall_drop].
  - rewrite !length_app, length_drop. lia.
  - rewrite length_app. lia.
  - rewrite app_assoc. by rewrite take_app_length'.
Qed.

(** Both together, after the buffered block has been dealt with. *)
Lemma sha_tail_spec c m p off n :
  chained c m → pending c m → rest B m = [] ∨ n = 0 → octets p → 0 ≤ off → 0 ≤ n →
  off + n ≤ Z.of_nat (length p) →
  ∃ c', ('(c, off, n) ← sha_blocks ZB compress (Z.to_nat n) c p off n;
         buf ← copy_at n p off (sc_buf c) (sc_buflen c);
         Some (c <| sc_buf := buf |> <| sc_buflen := u64 (sc_buflen c + n) |>)) = Some c' ∧
    let m' := m ++ take (Z.to_nat n) (drop (Z.to_nat off) p) in
    chained c' m' ∧ pending c' m' ∧ sc_total0 c' = sc_total0 c.
Proof.
  intros Hc Hp Hcase Ho Hoff Hn Hin.
  assert (∃ h off' n', sha_blocks ZB compress (Z.to_nat n) c p off n = Some (c <| sc_h := h |>, off', n') ∧
    let m' := m ++ take (Z.to_nat (off' - off)) (drop (Z.to_nat off) p) in
    chained (c <| sc_h := h |>) m' ∧ pending (c <| sc_h := h |>) m' ∧
    off ≤ off' ∧ 0 ≤ n' ∧ Z.of_nat (length (rest B m')) + n' < ZB ∧ off' + n' = off + n)
    as (h & off' & n' & E & H1 & H2 & H3 & H4 & H5 & H6).
  { destruct Hcase as [Hr| ->].
    - destruct (sha_blocks_spec (Z.to_nat n) c m p off n) as (h & off' & n' & E & H1 & H2 & H3 & H4 & H5);
        [done..|lia|lia|lia|].
      exists h, off', n'. cbv zeta in *. split; [done|]. rewrite H2. unfold pending. rewrite H2.
      destruct Hp as [Hl _]. rewrite Hr in Hl. split_and!; try done; simpl; lia.
    - exists (sc_h c), off, 0. change (Z.to_nat 0) with 0%nat. cbn [sha_blocks].
      pose proof (rest_lt B B_pos m). rewrite (proj2 (Z.ltb_lt _ _)) by lia.
      replace (c <| sc_h := sc_h c |>) with c by by destruct c.
      cbv zeta. rewrite Z.sub_diag, take_0, app_nil_r. split_and!; done || lia. }
  rewrite E, obind_Some. cbn beta iota. cbv zeta in *.
  destruct (sha_rest_spec _ _ p off' n' H1 H2) as (buf & Eb & H7 & H8); [done|lia..|].
  rewrite Eb, obind_Some. eexists. split; [done|]. cbv zeta in *.
  replace (take (Z.to_nat n) (drop (Z.to_nat off) p)) with
    (take (Z.to_nat (off' - off)) (drop (Z.to_nat off) p) ++ take (Z.to_nat n') (drop (Z.to_nat off') p)).
  { rewrite app_assoc. split_and!; done. }
  replace (Z.to_nat off') with (Z.to_nat off + Z.to_nat (off' - off))%nat by lia.
  rewrite <-drop_drop, take_take_drop. f_equal. lia.
Qed.

(** The context after message [m]. *)
Definition sha_hashing c m : Prop :=
  chained c m ∧ pending c m ∧ sc_total0 c = u64 (Z.of_nat (length m)).

Lemma sha_update_total c m n :
  sc_total0 c = u64 (Z.of_nat (length m)) → 0 ≤ n →
  u64 (sc_total0 c + n) = u64 (Z.of_nat (length m + Z.to_nat n)).
Proof. intros -> Hn. unfold u64. rewrite wrap_add_l by lia. f_equal. lia. Qed.

Lemma sha_update_spec c m p n :
  sha_hashing c m → octets p → 0 ≤ n ≤ Z.of_nat (length p) →
  ∃ c', sha_update ZB compress c p n = Some c' ∧ sha_hashing c' (m ++ take (Z.to_nat n) p).
Proof.
  intros (Hc & Hp & Ht) Ho Hn. pose proof (rest_lt B B_pos m) as Hlt. unfold sha_update.
  set (c1 := c <| sc_total0 := _ |>).
  assert (chained c1 m) as Hc1 by done. assert (pending c1 m) as Hp1 by done.
  pose proof Hp1 as [Hl Hr]. pose proof Hc1 as (_ & _ & _ & Hbl). rewrite Hl. unfold nz.
  assert (∀ c' d, sc_total0 c' = sc_total0 c1 → chained c' (m ++ d) → pending c' (m ++ d) →
    length d = Z.to_nat n → sha_hashing c' (m ++ d)) as Hdone.
  { intros c' d Et H1 H2 Hd. split_and!; [done|done|]. rewrite Et. unfold c1. cbn [set_field sc_total0].
    rewrite length_app, Hd. apply sha_update_total; [done|lia]. }
  assert (∀ k : nat, (k ≤ length p)%nat → length (take k p) = k) as Hlen by (intros; by apply length_take_le).
  destruct (Z.eqb_spec (Z.of_nat (length (rest B m))) 0) as [E|E]; cbn [negb].
  { rewrite obind_Some. cbn beta iota.
    destruct (sha_tail_spec c1 m p 0 n) as (c' & Ec' & H1 & H2 & H3); try done || lia.
    { left. apply nil_length_inv. lia. }
    rewrite Ec'. exists c'. split; [done|]. apply Hdone; [done..|apply Hlen; lia]. }
  rewrite (u64_small (ZB - _)) by lia.
  set (need := ZB - Z.of_nat (length (rest B m))) in *.
  destruct (Z.ltb_spec n need) as [Hs|Hs].
  - destruct (sha_rest_spec c1 m p 0 n) as (buf & Eb & H1 & H2); try done || lia.
    cbv zeta in H1, H2. rewrite Hl in Eb, H1, H2. rewrite Eb, obind_Some.
    cbn [set_field sc_buflen]. rewrite (proj2 (Z.eqb_neq (u64 _) ZB)) by (rewrite u64_small; lia).
    rewrite !obind_Some. cbn beta iota. rewrite Z.sub_diag.
    set (c2 := c1 <| sc_buf := buf |> <| sc_buflen := _ |>) in *.
    destruct (sha_tail_spec c2 (m ++ take (Z.to_nat n) p) p n 0) as (c' & Ec' & H3 & H4 & H5);
      try done || lia.
    unfold c2 in Ec' at 1. cbn [set_field] in Ec'.
    rewrite Ec'. exists c'. split; [done|]. rewrite take_0, app_nil_r in H3, H4.
    apply Hdone; [done..|apply Hlen; lia].
  - rewrite copy_at_Z by (destruct Hc1 as (_ & _ & _ & ?); lia). rewrite obind_Some.
    cbn [set_field sc_buflen]. change (Z.to_nat 0) with 0%nat. rewrite drop_0, Nat2Z.id.
    replace (Z.of_nat (length (rest B m)) + need) with ZB by lia.
    rewrite (u64_small ZB), Z.eqb_refl by lia. cbn [set_field sc_buf].
    set (d := take (Z.to_nat need) p).
    assert (length d = Z.to_nat need) as Hd by (apply Hlen; lia).
    set (c2 := OwcShaCtx _ _ _ _ _).
    destruct (sha_block_spec c2 m (sc_buf c2) 0 d) as (h & Eh & H1 & H2).
    { destruct Hc1 as (? & ? & ? & ?). split_and!; try done. unfold c2. cbn [sc_buf].
      rewrite !length_app, length_take, length_drop. lia. }
    { by apply Forall_take. }
    { lia. }
    { rewrite aslice_in; [|lia|lia|]; unfold c2; cbn [sc_buf].
      - change (Z.to_nat 0) with 0%nat. rewrite drop_0, Nat2Z.id, Hr, app_assoc.
        by rewrite take_app_length' by (rewrite length_app; lia).
      - rewrite !length_app, length_take, length_drop. lia. }
    cbn [sc_buf c2] in Eh. rewrite Eh, !obind_Some. cbn beta iota.
    destruct (sha_tail_spec (c2 <| sc_h := h |> <| sc_buflen := 0 |>) (m ++ d) p need (n - need))
      as (c' & Ec' & H3 & H4 & H5); try done || lia.
    { split; cbn [set_field sc_buflen]; by rewrite H2. }
    { by left. }
    cbn [set_field c2 sc_h sc_total0 sc_total1 sc_buf sc_buflen] in Ec' |- *. rewrite Ec'.
    exists c'. split; [done|]. cbv zeta in H3, H4. rewrite <-app_assoc in H3, H4.
    replace (take (Z.to_nat n) p) with (d ++ take (Z.to_nat (n - need)) (drop (Z.to_nat need) p)).
    2:{ unfold d. rewrite take_take_drop. f_equal. lia. }
    apply Hdone; [done..|]. rewrite length_app, Hd, length_take, length_drop. lia.
Qed.

(** Padding and the length field. *)
Section final.
Context (F : nat) (HF : (0 < F < B)%nat).
Context (put_len : list Z → Z → option (list Z)) (field : Z → list Z).
Context (Hfield : ∀ bits, length (field bits) = (B - F)%nat ∧ octets (field bits)).
Context (Hput : ∀ p t q bits, length p = F → length t = (B - F)%nat →
  put_len (p ++ t ++ q) bits = Some (p ++ field bits ++ q)).

Lemma sha_zeros_spec c (lo limit : nat) :
  sc_buflen c = Z.of_nat lo → (lo ≤ limit)%nat → (limit ≤ length (sc_buf c))%nat →
  sha_zeros (Z.of_nat limit) c =
    Some (c <| sc_buf := take lo (sc_buf c) ++ replicate (limit - lo) 0 ++ drop limit (sc_buf c) |>
            <| sc_buflen := Z.of_nat limit |>).
Proof.
  intros Hl Hle Hlim. unfold sha_zeros. rewrite Hl.
  replace (Z.to_nat (Z.of_nat limit - Z.of_nat lo)) with (limit - lo)%nat by lia.
  rewrite zeros_at by lia. rewrite obind_Some, Z.max_l by lia.
  by replace (lo + (limit - lo))%nat with limit by lia.
Qed.

(** The last block, from the octets [q] already in the buffer. *)
Lemma sha_last_spec c (q : list Z) bits :
  length (sc_buf c) = 128%nat → sc_buflen c = Z.of_nat (length q) → (length q ≤ F)%nat →
  take (length q) (sc_buf c) = q → octets q → st_ok (sc_h c) →
  ∃ c1 buf c', sha_zeros (Z.of_nat F) c = Some c1 ∧ put_len (sc_buf c1) bits = Some buf ∧
    sha_block ZB compress (c1 <| sc_buf := buf |>) buf 0 = Some c' ∧
    st_ok (sc_h c') ∧ length (sc_buf c') = 128%nat ∧
    val (sc_h c') = comp (val (sc_h c)) (q ++ replicate (F - length q) 0 ++ field bits).
Proof.
  intros Hb Hl Hq Ht Ho Hok. destruct (Hfield bits) as [Hfl Hfo].
  set (blk := (q ++ replicate (F - length q) 0) ++ field bits).
  assert (length blk = B) as Hbl by (unfold blk; rewrite !length_app, length_replicate; lia).
  destruct (bh_step (sc_h c) blk) as (h & E & Hok' & Hv'); [done| |done|].
  { unfold blk. rewrite !octets_app. split_and!; auto with cmodel. }
  eexists _, _, _. split; [apply (sha_zeros_spec c (length q) F); done || lia|].
  cbn [set_field sc_buf sc_h]. rewrite Ht, (app_assoc q).
  split.
  { rewrite <-(take_drop (B - F) (drop F (sc_buf c))), drop_drop.
    apply Hput; rewrite ?length_app, ?length_replicate, ?length_take, ?length_drop; lia. }
  rewrite (app_assoc _ (field bits)). fold blk.
  split.
  { unfold sha_block. rewrite aslice_in by (rewrite ?length_app, ?length_drop; lia).
    change (Z.to_nat 0) with 0%nat. rewrite drop_0, Nat2Z.id, take_app_length' by done.
    rewrite obind_Some. cbn [sc_h]. rewrite E, obind_Some. done. }
  split; [done|]. cbn [set_field sc_h sc_buf]. rewrite length_app, length_drop.
  split; [lia|]. rewrite Hv'. unfold blk. by rewrite <-app_assoc.
Qed.

Lemma sha_final_spec put_word c m out :
  sha_hashing c m →
  let bits := u64 (u64 (Z.of_nat (length m)) * 8) in
  ∃ c', sha_final ZB (Z.of_nat F) compress put_len put_word c out =
      (out ← for_up 8 0 (λ i out, x ← aget (sc_h c') i; put_word out i x) out; Some (c', out)) ∧
    st_ok (sc_h c') ∧ length (sc_buf c') = 128%nat ∧
    val (sc_h c') = md_hash B (λ _, field bits) comp iv m.
Proof.
  intros ((Hok & Hv & Ho & Hb) & [Hl Hr] & Ht) bits. pose proof (rest_lt B B_pos m) as Hlt.
  destruct (Hfield bits) as [Hfl Hfo].
  set (r := rest B m) in *. assert (octets r) as Hor by by apply Forall_drop.
  unfold sha_final, md_hash. rewrite Ht. fold bits. rewrite Hl.
  rewrite aset_in, obind_Some by lia. cbn [set_field sc_buflen sc_buf sc_h].
  rewrite u64_small, Nat2Z.id by lia.
  assert (take (length r + 1) (<[length r := 128]> (sc_buf c)) = r ++ [128]) as Hq.
  { rewrite Nat.add_1_r, (take_S_r _ _ 128) by (apply list_lookup_insert_eq; lia).
    by rewrite take_insert_ge, Hr by lia. }
  assert (length (r ++ [128]) = (length r + 1)%nat) as Hql by apply length_app.
  assert (octets (r ++ [128])) as Hqo by (apply octets_app; split; [done|by repeat constructor]).
  set (q := r ++ [128]) in *. set (b1 := <[length r := 128]> (sc_buf c)) in *.
  assert (length b1 = 128%nat) as Hb1 by (unfold b1; by rewrite length_insert).
  set (c1 := OwcShaCtx _ _ _ b1 _).
  destruct (decide (length r < F)%nat) as [Hs|Hs].
  - rewrite (proj2 (Z.ltb_ge _ _)) by lia. rewrite obind_Some.
    destruct (sha_last_spec c1 q bits) as (z & buf & c2 & Ez & Ebuf & E2 & Hok2 & Hbl2 & Hv2);
      [done|unfold c1; cbn [sc_buflen]; lia|lia|by rewrite Hql|done|done|].
    exists c2. split_and!; [|done|done|].
    + rewrite Ez, obind_Some, Ebuf, obind_Some. cbn [set_field sc_buf] in E2 |- *.
      by rewrite E2, obind_Some.
    + rewrite md_pad_one by (fold r; lia). fold r. rewrite foldl_snoc, Hv2, Hfl.
      unfold c1, q. cbn [sc_h]. rewrite Hv, <-app_assoc, length_app.
      replace (B - (B - F) - (length r + 1))%nat with (F - (length r + length [128]))%nat by (simpl; lia).
      done.
  - rewrite (proj2 (Z.ltb_lt _ _)) by lia.
    rewrite (sha_zeros_spec c1 (length q) B) by (unfold c1; cbn [sc_buflen sc_buf]; lia).
    rewrite obind_Some. unfold c1. cbn [set_field sc_buflen sc_buf sc_h sc_total0 sc_total1].
    rewrite Hql, Hq. unfold q. rewrite <-app_assoc.
    set (d := [128] ++ replicate (B - (length r + 1)) 0).
    assert (length r + length d = B)%nat as Hd.
    { unfold d. rewrite length_app, length_replicate. simpl. lia. }
    set (c2 := OwcShaCtx _ _ _ _ _). set (b2 := sc_buf c2).
    assert (b2 = (r ++ d) ++ drop B b1) as Hb2 by (unfold b2, c2; cbn [sc_buf]; by rewrite <-app_assoc).
    assert (length b2 = 128%nat) as Hb2l by (rewrite Hb2, !length_app, length_drop; lia).
    destruct (sha_block_spec c2 m b2 0 d) as (h & Eh & (Hok' & Hv' & _) & _); try done.
    { unfold d. apply octets_app. split; [by repeat constructor|apply octets_zeros]. }
    { rewrite aslice_in by lia. change (Z.to_nat 0) with 0%nat. rewrite drop_0, Nat2Z.id, Hb2.
      by rewrite take_app_length' by (rewrite length_app; lia). }
    cbn [sc_buf] in Eh. fold b2. unfold b2 in Eh |- *. cbn [c2 sc_buf] in Eh |- *.
    rewrite Eh, !obind_Some. cbn [set_field sc_h] in Hok', Hv'.
    edestruct (sha_last_spec (c2 <| sc_h := h |> <| sc_buflen := 0 |>) [] bits)
      as (z & buf & c3 & Ez & Ebuf & E3 & Hok3 & Hbl3 & Hv3); [done|done|simpl; lia|done|constructor|done|].
    cbn [set_field c2 sc_h sc_total0 sc_total1 sc_buf sc_buflen] in Ez, E3, Hv3 |- *.
    exists c3. split_and!; [|done|done|].
    + rewrite Ez, obind_Some, Ebuf, obind_Some. by rewrite E3, obind_Some.
    + rewrite md_pad_two by (fold r; lia). fold r. rewrite app_assoc, foldl_snoc, Hv3, Hv', Hfl.
      destruct (blocks_complete B B_pos m d) as [Ebl _]; [done|]. rewrite Ebl.
      cbn [app length]. rewrite Nat.sub_0_r. by replace (B - (B - F))%nat with F by lia.
Qed.
End final.
End sha_spec.

(** ** Reads and stores *)

Lemma get32_spec p (i : nat) :
  octets p → (i + 4 ≤ length p)%nat →
  owc_get32 p (Z.of_nat i) = Some (be_value (take 4 (drop i p))).
Proof. exact (rd_be32_spec p i). Qed.

Lemma get64_spec p (i : nat) :
  octets p → (i + 8 ≤ length p)%nat →
  owc_get64 p (Z.of_nat i) = Some (be_value (take 8 (drop i p))).
Proof.
  intros Hp Hi. destruct (aget_eight p i Hp Hi) as
    (b0 & b1 & b2 & b3 & b4 & b5 & b6 & b7 & E & Ho & E0 & E1 & E2 & E3 & E4 & E5 & E6 & E7).
  unfold owc_get64. rewrite E0, E1, E2, E3, E4, E5, E6, E7, E, !obind_Some. by rewrite lor_be8.
Qed.

Lemma put32_stores p off v : owc_put32 p off v = stores p off (be_bytes 4 v).
Proof. exact (wr_be32_stores p off v). Qed.

Lemma put64_stores p off v : owc_put64 p off v = stores p off (be_bytes 8 v).
Proof.
  rewrite be_bytes_8. unfold owc_put64. cbn [stores].
  rewrite <-!Z.add_assoc. repeat (apply option_bind_ext_fun; intros ?). by destruct aset.
Qed.

(** ** The block compressions *)

Lemma u32_u64_add x y : u32 (u64 (x + y)) = u32 (u32 x + y).
Proof.
  unfold u32, u64. rewrite wrap_add_l by lia. unfold wrap.
  apply Z.mod_mod_divide. by exists (2 ^ 32).
Qed.

Lemma owc_sha256_round_spec k w v : owc_sha256_round k w v = sha2_round sha256_alg v (k, w).
Proof. exact (sha256_round_spec k w v). Qed.

Lemma owc_sha512_round_spec k w v : owc_sha512_round k w v = sha2_round sha512_alg v (k, w).
Proof.
  destruct v as [[[[[[[a b] c] d] e] f] g] h].
  cbv [owc_sha512_round sha2_round sha512_alg fst snd s_word s_S0 s_S1 sha2_ch sha2_maj
       owc_rotr64 rotr u64].
  by rewrite wrap_add, wrap_add_r by lia.
Qed.

Lemma sha512_k_roots : s_k sha512_alg = owc_sha512_k.
Proof. vm_compute. reflexivity. Qed.

Lemma owc_sha256_compress_spec h blk :
  length h = 8%nat → octets blk → length blk = 64%nat →
  ∃ h', owc_sha256_compress h blk = Some h' ∧ length h' = 8%nat ∧
    u32 <$> h' = sha2_compress sha256_alg 4 (u32 <$> h) blk.
Proof.
  intros Hst Hb Hl. unfold owc_sha256_compress, sha2_compress.
  rewrite (load_loop 16 _ (λ i, be_value (take 4 (drop (i * 4) blk)))); [|intros i w Hi|simpl; lia].
  2:{ replace (4 * Z.of_nat i) with (Z.of_nat (i * 4)) by lia. by rewrite get32_spec by (done || lia). }
  rewrite obind_Some, (schedule_loop sha256_alg 48 owc_sha256_extend) by done.
  rewrite obind_Some. fold (be_words 4 blk). set (w := sha2_schedule _ _ _).
  rewrite sha256_k_roots. change (length ow_sha256_k - 16)%nat with 48%nat. fold w.
  assert (length w = length ow_sha256_k) as Hw by (unfold w; rewrite sha2_schedule_length; done).
  destruct (list_8 h Hst) as (a & b & c & d & e & f & g & i & ->). set (st := [a; b; c; d; e; f; g; i]).
  assert (aget st 0 = Some a) as -> by done. assert (aget st 1 = Some b) as -> by done.
  assert (aget st 2 = Some c) as -> by done. assert (aget st 3 = Some d) as -> by done.
  assert (aget st 4 = Some e) as -> by done. assert (aget st 5 = Some f) as -> by done.
  assert (aget st 6 = Some g) as -> by done. assert (aget st 7 = Some i) as -> by done.
  rewrite !obind_Some, (round_loop (sha2_round sha256_alg) ow_sha256_k w), obind_Some; [|done|].
  2:{ change owc_sha256_k with ow_sha256_k. intros j k x v -> ->. rewrite !obind_Some.
      by rewrite owc_sha256_round_spec. }
  change (vars_of (u32 <$> st)) with (u32 a, u32 b, u32 c, u32 d, u32 e, u32 f, u32 g, u32 i).
  destruct (foldl _ _ _) as [[[[[[[a' b'] c'] d'] e'] f'] g'] h'].
  exists (zip_with (λ x y, u64 (x + y)) st [a'; b'; c'; d'; e'; f'; g'; h']).
  split; [reflexivity|]. split; [done|].
  cbn [fmap list_fmap st zip_with list_of]. by rewrite !u32_u64_add.
Qed.

Lemma owc_sha512_compress_spec h blk :
  length h = 8%nat → octets blk → length blk = 128%nat →
  owc_sha512_compress h blk = Some (sha2_compress sha512_alg 8 h blk).
Proof.
  intros Hst Hb Hl. unfold owc_sha512_compress, sha2_compress.
  rewrite (load_loop 16 _ (λ i, be_value (take 8 (drop (i * 8) blk)))); [|intros i w Hi|simpl; lia].
  2:{ replace (8 * Z.of_nat i) with (Z.of_nat (i * 8)) by lia. by rewrite get64_spec by (done || lia). }
  rewrite obind_Some, (schedule_loop sha512_alg 64 owc_sha512_extend) by done.
  rewrite obind_Some. fold (be_words 8 blk). set (w := sha2_schedule _ _ _).
  rewrite sha512_k_roots. change (length owc_sha512_k - 16)%nat with 64%nat. fold w.
  assert (length w = length owc_sha512_k) as Hw by (unfold w; rewrite sha2_schedule_length; done).
  destruct (list_8 h Hst) as (a & b & c & d & e & f & g & i & ->). set (st := [a; b; c; d; e; f; g; i]).
  assert (aget st 0 = Some a) as -> by done. assert (aget st 1 = Some b) as -> by done.
  assert (aget st 2 = Some c) as -> by done. assert (aget st 3 = Some d) as -> by done.
  assert (aget st 4 = Some e) as -> by done. assert (aget st 5 = Some f) as -> by done.
  assert (aget st 6 = Some g) as -> by done. assert (aget st 7 = Some i) as -> by done.
  rewrite !obind_Some, (round_loop (sha2_round sha512_alg) owc_sha512_k w), obind_Some; [|done|].
  2:{ intros j k x v -> ->. rewrite !obind_Some. by rewrite owc_sha512_round_spec. }
  change (vars_of st) with (a, b, c, d, e, f, g, i).
  destruct (foldl _ _ _) as [[[[[[[a' b'] c'] d'] e'] f'] g'] h']. reflexivity.
Qed.

#[export] Instance owc_sha256_block_hash :
  BlockHash 64 owc_sha256_compress (λ h, length h = 8%nat) (fmap u32) (sha2_compress sha256_alg 4).
Proof. constructor; [lia|]. intros. by apply owc_sha256_compress_spec. Qed.

#[export] Instance owc_sha512_block_hash :
  BlockHash 128 owc_sha512_compress (λ h, length h = 8%nat) id (sha2_compress sha512_alg 8).
Proof.
  constructor; [lia|]. intros st blk Hst Hb Hl. rewrite owc_sha512_compress_spec by done.
  eexists. split; [done|]. split; [by apply sha2_compress_length|done].
Qed.

(** ** Digests *)

(** What a streaming hash promises: a representation of the message so far
    that [init] starts, [update] extends and [final] turns into the digest of
    [D] octets, for messages within the limit [lim]. *)
Class StreamHash (D : nat) (H : list Z → list Z) (lim : list Z → Prop)
    (init : owcrypt_sha_ctx_t → owcrypt_sha_ctx_t)
    (update : owcrypt_sha_ctx_t → list Z → Z → option owcrypt_sha_ctx_t)
    (final : owcrypt_sha_ctx_t → list Z → option (owcrypt_sha_ctx_t * list Z)) := {
  sh_rep : owcrypt_sha_ctx_t → list Z → Prop;
  sh_init c : length (sc_buf c) = 128%nat → sh_rep (init c) [];
  sh_update c m p n : sh_rep c m → octets p → 0 ≤ n ≤ Z.of_nat (length p) →
    ∃ c', update c p n = Some c' ∧ sh_rep c' (m ++ take (Z.to_nat n) p);
  sh_final c m out : sh_rep c m → lim m → (D ≤ length out)%nat →
    ∃ c', final c out = Some (c', H m ++ drop D out) ∧ length (sc_buf c') = 128%nat;
  sh_digest m : length (H m) = D ∧ octets (H m);
}.

Lemma sha_init_hashing {S} B (st_ok : list Z → Prop) (val : list Z → S) comp iv c :
  (0 < B)%nat → st_ok (sc_h c) → val (sc_h c) = iv → length (sc_buf c) = 128%nat →
  sc_buflen c = 0 → sc_total0 c = 0 →
  sha_hashing B (st_ok := st_ok) (val := val) (comp := comp) iv c [].
Proof.
  intros HB Hok Hv Hb Hl Ht. destruct (blocks_nil B) as [E1 E2].
  unfold sha_hashing, chained, pending. rewrite E1, E2, Ht. split_and!; try done. constructor.
Qed.

Lemma digest_words (W : nat) (enc : Z → list Z) (st : list Z) :
  (∀ v, length (enc v) = W ∧ octets (enc v)) →
  length (mjoin (enc <$> st)) = (length st * W)%nat ∧ octets (mjoin (enc <$> st)).
Proof.
  intros Henc. induction st as [|x st [IH1 IH2]]; [split; [done|constructor]|].
  change (mjoin (enc <$> x :: st)) with (enc x ++ mjoin (enc <$> st)). destruct (Henc x).
  split; [rewrite length_app; simpl; lia|by apply octets_app].
Qed.

Lemma md_hash_length n A iv B lf m :
  length iv = 8%nat → length (md_hash B lf (sha2_compress A n) iv m) = 8%nat.
Proof.
  intros Hl. unfold md_hash. revert iv Hl. induction (blocks B _) as [|b bs IH]; intros iv Hl; [done|].
  cbn [foldl]. by apply IH, sha2_compress_length.
Qed.

(** The length fields the code writes. *)
Lemma sha_bits n : u64 (u64 n * 8) = u64 (8 * n).
Proof. unfold u64, wrap. rewrite Zmult_mod_idemp_l. f_equal. lia. Qed.

Lemma be_bytes_u64 x : be_bytes 8 (u64 x) = be_bytes 8 x.
Proof.
  unfold be_bytes. rewrite <-!len_field_le. unfold u64, wrap. by rewrite Zmod_mod.
Qed.

Lemma be_bytes_bits n : be_bytes 8 (u64 (u64 n * 8)) = be_bytes 8 (8 * n).
Proof. by rewrite sha_bits, be_bytes_u64. Qed.

Lemma le_bytes_add n k x : le_bytes (n + k) x = le_bytes n x ++ le_bytes k (x / 256 ^ Z.of_nat n).
Proof.
  revert x. induction n as [|n IH]; intros x.
  - cbn [Nat.add le_bytes app]. by rewrite Z.div_1_r.
  - cbn [Nat.add le_bytes app]. rewrite IH, Z.div_div, <-Z.pow_succ_r by (try apply Z.pow_pos_nonneg; lia).
    by rewrite <-Nat2Z.inj_succ.
Qed.

Lemma be_bytes_16 (n : nat) :
  8 * Z.of_nat n < 2 ^ 64 →
  be_bytes 8 0 ++ be_bytes 8 (u64 (u64 (Z.of_nat n) * 8)) = be_bytes 16 (8 * Z.of_nat n).
Proof.
  intros Hn. rewrite be_bytes_bits. unfold be_bytes. rewrite (le_bytes_add 8 8), rev_app_distr.
  by rewrite (Z.div_small (8 * _)) by (change (256 ^ Z.of_nat 8) with (2 ^ 64); lia).
Qed.

#[export] Program Instance owc_sha256_stream_hash :
    StreamHash 32 sha256 (λ _, True) owcrypt_sha256_init owcrypt_sha256_update owcrypt_sha256_final :=
  {| sh_rep := sha_hashing 64 (st_ok := λ h, length h = 8%nat) (val := fmap u32)
                 (comp := sha2_compress sha256_alg 4) sha256_iv |}.
Next Obligation. intros c Hb. apply sha_init_hashing; [lia|done|vm_compute; reflexivity|done..]. Qed.
Next Obligation. intros c m p n. exact (sha_update_spec 64 owc_sha256_compress sha256_iv ltac:(lia) c m p n). Qed.
Next Obligation.
  intros c m out H _ Ho. unfold owcrypt_sha256_final.
  destruct (sha_final_spec 64 owc_sha256_compress sha256_iv ltac:(lia) 56 ltac:(lia)
    (λ buf bits, owc_put64 buf 56 bits) (be_bytes 8)) with
    (put_word := λ out i x, owc_put32 out (4 * i) (u32 x)) (c := c) (m := m) (out := out)
    as (c' & E & Hl & Hb & Hv); [..|done|].
  { intros bits. split; [apply be_bytes_length|apply be_bytes_octets]. }
  { intros p t q bits Hp Ht. rewrite put64_stores. apply stores_spec; [by rewrite be_bytes_length|by rewrite Hp]. }
  exists c'. split; [|done]. etransitivity; [exact E|]. rewrite <-Hl at 1.
  rewrite (wr_words 4 (λ o i v, owc_put32 o (4 * i) (u32 v)) (λ v, be_bytes 4 (u32 v))), obind_Some.
  - rewrite Hl. do 3 f_equal. unfold sha256.
    rewrite (md_hash_ext _ _ (λ n, be_bytes 8 (8 * Z.of_nat n))) in Hv by apply be_bytes_bits.
    by rewrite <-Hv, <-list_fmap_compose.
  - intros p t q k v Hp Ht. rewrite put32_stores. apply stores_spec; [by rewrite be_bytes_length|lia].
  - intros v. apply be_bytes_length.
  - lia.
Qed.
Next Obligation.
  intros m. unfold sha256.
  destruct (digest_words 4 (be_bytes 4) (md_hash 64 (λ n, be_bytes 8 (8 * Z.of_nat n)) (sha2_compress sha256_alg 4) sha256_iv m))
    as [H1 H2]; [intros v; split; [apply be_bytes_length|apply be_bytes_octets]|].
  rewrite H1, md_hash_length by done. done.
Qed.

Definition sha512_limit (m : list Z) : Prop := 8 * Z.of_nat (length m) < 2 ^ 64.

#[export] Program Instance owc_sha512_stream_hash :
    StreamHash 64 sha512 sha512_limit owcrypt_sha512_init owcrypt_sha512_update owcrypt_sha512_final :=
  {| sh_rep := sha_hashing 128 (st_ok := λ h, length h = 8%nat) (val := id)
                 (comp := sha2_compress sha512_alg 8) sha512_iv |}.
Next Obligation. intros c Hb. apply sha_init_hashing; [lia|done|vm_compute; reflexivity|done..]. Qed.
Next Obligation. intros c m p n. exact (sha_update_spec 128 owc_sha512_compress sha512_iv ltac:(lia) c m p n). Qed.
Next Obligation.
  intros c m out H Hlim Ho. unfold owcrypt_sha512_final.
  destruct (sha_final_spec 128 owc_sha512_compress sha512_iv ltac:(lia) 112 ltac:(lia)
    (λ buf bits, buf ← owc_put64 buf 112 0; owc_put64 buf 120 bits) (λ bits, be_bytes 8 0 ++ be_bytes 8 bits)) with
    (put_word := λ out i x, owc_put64 out (8 * i) x) (c := c) (m := m) (out := out)
    as (c' & E & Hl & Hb & Hv); [..|done|].
  { intros bits. split; [done|]. apply octets_app. split; apply be_bytes_octets. }
  { intros p t q bits Hp Ht. rewrite <-(take_drop 8 t), <-(app_assoc _ _ q), put64_stores.
    rewrite stores_spec, obind_Some, put64_stores by (rewrite ?length_take, ?be_bytes_length; lia).
    rewrite (app_assoc p), stores_spec, <-!app_assoc; [done|..];
      rewrite ?length_app, ?length_drop, ?be_bytes_length; lia. }
  exists c'. split; [|done]. etransitivity; [exact E|]. rewrite <-Hl at 1.
  rewrite (wr_words 8 (λ o i v, owc_put64 o (8 * i) v) (be_bytes 8)), obind_Some.
  - rewrite Hl. do 3 f_equal. unfold sha512.
    rewrite (md_hash_ext _ _ (λ n, be_bytes 16 (8 * Z.of_nat n))) in Hv by by apply be_bytes_16.
    cbn [id] in Hv. by rewrite <-Hv.
  - intros p t q k v Hp Ht. rewrite put64_stores. apply stores_spec; [by rewrite be_bytes_length|lia].
  - intros v. apply be_bytes_length.
  - lia.
Qed.
Next Obligation.
  intros m. unfold sha512.
  destruct (digest_words 8 (be_bytes 8) (md_hash 128 (λ n, be_bytes 16 (8 * Z.of_nat n)) (sha2_compress sha512_alg 8) sha512_iv m))
    as [H1 H2]; [intros v; split; [apply be_bytes_length|apply be_bytes_octets]|].
  rewrite H1, md_hash_length by done. done.
Qed.

(** ** HMAC *)

(** RFC 2104 over a hash with blocks of [B] octets. *)
Definition hmac_key (H : list Z → list Z) (B : nat) (key : list Z) : list Z :=
  let k := if bool_decide (B < length key)%nat then H key else key in
  k ++ replicate (B - length k) 0.
Definition hmac_ref (H : list Z → list Z) (B : nat) (key msg : list Z) : list Z :=
  let k := hmac_key H B key in
  H (((λ x, Z.lxor x 0x5C) <$> k) ++ H (((λ x, Z.lxor x 0x36) <$> k) ++ msg)).

Section one_shot.
Context {D : nat} {H : list Z → list Z} {lim : list Z → Prop}.
Context {init : owcrypt_sha_ctx_t → owcrypt_sha_ctx_t}.
Context {update : owcrypt_sha_ctx_t → list Z → Z → option owcrypt_sha_ctx_t}.
Context {final : owcrypt_sha_ctx_t → list Z → option (owcrypt_sha_ctx_t * list Z)}.
Context `{SH : !StreamHash D H lim init update final}.

Lemma one_shot_spec stack p n out :
  length (sc_buf stack) = 128%nat → octets p → 0 ≤ n ≤ Z.of_nat (length p) →
  lim (take (Z.to_nat n) p) → (D ≤ length out)%nat →
  (c ← update (init stack) p n; '(_, out) ← final c out; Some out) =
    Some (H (take (Z.to_nat n) p) ++ drop D out).
Proof.
  intros Hb Hp Hn Hlim Ho.
  destruct (sh_update (init stack) [] p n (sh_init _ Hb) Hp Hn) as (c & -> & Hc). rewrite obind_Some.
  destruct (sh_final c _ out Hc Hlim Ho) as (c' & -> & _). by rewrite obind_Some.
Qed.

(** Two updates and the digest, as the inner and the outer hash of HMAC. *)
Lemma two_updates_spec c p q n out :
  length (sc_buf c) = 128%nat → octets p → octets q → 0 ≤ n ≤ Z.of_nat (length q) →
  lim (p ++ take (Z.to_nat n) q) → (D ≤ length out)%nat →
  ∃ c1 c2 c3, update (init c) p (Z.of_nat (length p)) = Some c1 ∧ update c1 q n = Some c2 ∧
    final c2 out = Some (c3, H (p ++ take (Z.to_nat n) q) ++ drop D out) ∧
    length (sc_buf c3) = 128%nat.
Proof.
  intros Hb Hp Hq Hn Hlim Ho.
  destruct (sh_update (init c) [] p (Z.of_nat (length p)) (sh_init _ Hb) Hp) as (c1 & E1 & H1); [lia|].
  rewrite Nat2Z.id, firstn_all in H1.
  destruct (sh_update c1 _ q n H1 Hq Hn) as (c2 & E2 & H2).
  destruct (sh_final c2 _ out H2 Hlim Ho) as (c3 & E3 & H3).
  by exists c1, c2, c3.
Qed.

Lemma octet_xor x k : 0 ≤ x < 256 → 0 ≤ k < 256 → 0 ≤ Z.lxor x k < 256.
Proof.
  intros Hx Hk. assert (0 ≤ Z.lxor x k) by (apply Z.lxor_nonneg; lia). split; [done|].
  destruct (decide (Z.lxor x k = 0)) as [->|]; [lia|].
  apply (Z.log2_lt_pow2 _ 8); [lia|]. pose proof (Z.log2_lxor x k ltac:(lia) ltac:(lia)).
  assert (∀ z, 0 ≤ z < 256 → Z.log2 z < 8) as Hlog.
  { intros z Hz. destruct (decide (z = 0)) as [->|]; [done|]. apply Z.log2_lt_pow2; lia. }
  pose proof (Hlog x Hx). pose proof (Hlog k Hk). lia.
Qed.

Lemma pad_loop (k : list Z) x b (loc : list Z) :
  octets k → 0 ≤ x < 256 → length loc = length k → b = length k →
  for_up b 0 (λ i a, y ← aget k i; aset a i (u8 (Z.lxor y x))) loc = Some ((λ y, Z.lxor y x) <$> k).
Proof.
  intros Hk Hx Hl ->.
  rewrite (load_loop (length k) _ (λ i, Z.lxor (k !!! i) x)); [| |lia].
  - rewrite drop_ge, app_nil_r by lia. f_equal. apply list_eq. intros i.
    rewrite !list_lookup_fmap. destruct (decide (i < length k)%nat) as [Hi|Hi].
    + rewrite lookup_seq_lt by done. cbn. by rewrite list_lookup_lookup_total_lt.
    + rewrite lookup_seq_ge, lookup_ge_None_2 by lia. done.
  - intros i w Hi. rewrite aget_total, obind_Some by done. rewrite u8_small; [done|].
    apply octet_xor; [|done]. apply (Forall_lookup_1 _ _ i _ Hk). by apply list_lookup_lookup_total_lt.
Qed.

(** The key block. *)
Definition local_of (n : nat) : list Z := replicate (Z.to_nat (Z.of_nat n)) 0.

Lemma hmac_key_spec (B : nat) (hash : owcrypt_sha_ctx_t → list Z → Z → list Z → option (list Z)) stack key n :
  (D ≤ B)%nat → octets key → 0 ≤ n ≤ Z.of_nat (length key) →
  (∀ out, (D ≤ length out)%nat → hash stack key n out = Some (H (take (Z.to_nat n) key) ++ drop D out)) →
  (if Z.of_nat B <? n then
     k ← hash stack key n (local_of B);
     for_up (Z.to_nat (Z.of_nat B - Z.of_nat D)) (Z.of_nat D) (λ i k, aset k i 0) k
   else
     k ← copy_bytes n key (local_of B);
     for_up (Z.to_nat (Z.of_nat B - n)) n (λ i k, aset k i 0) k) = Some (hmac_key H B (take (Z.to_nat n) key)) ∧
  octets (hmac_key H B (take (Z.to_nat n) key)) ∧ length (hmac_key H B (take (Z.to_nat n) key)) = B.
Proof.
  intros HD Hk Hn Hh. unfold hmac_key. set (key' := take (Z.to_nat n) key).
  assert (length key' = Z.to_nat n) as Hl by (unfold key'; rewrite length_take; lia).
  assert (length (local_of B) = B) as Hloc by (unfold local_of; by rewrite length_replicate, Nat2Z.id).
  destruct (sh_digest key') as [Hd1 Hd2].
  destruct (Z.ltb_spec (Z.of_nat B) n) as [Hlt|Hge].
  - rewrite bool_decide_true by lia. rewrite Hh, obind_Some by lia. fold key'.
    rewrite zeros_at by (rewrite length_app, length_drop; lia).
    rewrite take_app_length', (drop_ge (_ ++ _)), app_nil_r by (rewrite ?length_app, ?length_drop; lia).
    replace (Z.to_nat (Z.of_nat B - Z.of_nat D)) with (B - length (H key'))%nat by lia.
    split; [done|]. rewrite octets_app, length_app, length_replicate. split_and!; [done|apply octets_zeros|lia].
  - rewrite bool_decide_false by lia. rewrite copy_bytes_Z, obind_Some by lia. fold key'.
    replace n with (Z.of_nat (length key')) by lia.
    rewrite zeros_at by (rewrite length_app, length_drop; lia).
    rewrite take_app_length', (drop_ge (_ ++ _)), app_nil_r by (rewrite ?length_app, ?length_drop; lia).
    replace (Z.to_nat (Z.of_nat B - Z.of_nat (length key'))) with (B - length key')%nat by lia.
    split; [done|]. rewrite octets_app, length_app, length_replicate.
    split_and!; [by apply Forall_take|apply octets_zeros|lia].
Qed.

Lemma hmac_spec (B : nat) hash stack key n msg k out :
  (D ≤ B)%nat → length (sc_buf stack) = 128%nat →
  octets key → 0 ≤ n ≤ Z.of_nat (length key) → octets msg → 0 ≤ k ≤ Z.of_nat (length msg) →
  (∀ out, (D ≤ length out)%nat → hash stack key n out = Some (H (take (Z.to_nat n) key) ++ drop D out)) →
  (∀ p, length p = B → lim (p ++ take (Z.to_nat k) msg)) →
  (∀ p, length p = (B + D)%nat → lim p) → (D ≤ length out)%nat →
  hmac (Z.of_nat B) (Z.of_nat D) init update final hash stack key n msg k out =
    Some (hmac_ref H B (take (Z.to_nat n) key) (take (Z.to_nat k) msg) ++ drop D out).
Proof.
  intros HD Hb Hk Hn Hm Hkm Hh Hlim1 Hlim2 Ho. unfold hmac, hmac_ref.
  destruct (hmac_key_spec B hash stack key n) as (E & Hko & Hkl); try done. unfold local_of in E.
  rewrite E, obind_Some. set (kb := hmac_key H B _) in *.
  assert (∀ x, 0 ≤ x < 256 → octets ((λ y, Z.lxor y x) <$> kb)) as Hpad.
  { intros x Hx. apply Forall_fmap. eapply Forall_impl; [exact Hko|]. intros y Hy. by apply octet_xor. }
  rewrite !(pad_loop kb), !obind_Some by (done || rewrite ?length_replicate; lia).
  set (ip := (λ y, Z.lxor y 0x36) <$> kb). set (op := (λ y, Z.lxor y 0x5C) <$> kb).
  assert (length ip = B) as Hip by (unfold ip; by rewrite length_fmap).
  assert (length op = B) as Hop by (unfold op; by rewrite length_fmap).
  assert (D ≤ length (replicate (Z.to_nat (Z.of_nat D)) 0%Z))%nat as HlD by (rewrite length_replicate; lia).
  destruct (two_updates_spec stack ip msg k (replicate (Z.to_nat (Z.of_nat D)) 0))
    as (c1 & c2 & c3 & E1 & E2 & E3 & Hb3); try done; [by apply Hpad|by apply Hlim1|].
  rewrite <-Hip, E1, obind_Some, E2, obind_Some, E3, obind_Some. cbn beta iota.
  rewrite (drop_ge (replicate _ _)), app_nil_r by (rewrite length_replicate; lia).
  set (inner := H (ip ++ take (Z.to_nat k) msg)). destruct (sh_digest (ip ++ take (Z.to_nat k) msg)) as [Hd1 Hd2].
  fold inner in Hd1, Hd2.
  assert (take (Z.to_nat (Z.of_nat D)) inner = inner) as Ht by (rewrite Nat2Z.id; apply take_ge; lia).
  destruct (two_updates_spec c3 op inner (Z.of_nat D) out)
    as (c4 & c5 & c6 & E4 & E5 & E6 & _); try done; [by apply Hpad|lia| |].
  { rewrite Ht. apply Hlim2. rewrite length_app. lia. }
  rewrite Hip, <-Hop, E4, obind_Some, E5, obind_Some, E6, obind_Some. by rewrite Ht.
Qed.
End one_shot.

(** ** Claims *)

(** [C24] The two SHA-256 implementations of the system are one function:
    the one-shot digest of [owcrypt.c] (whole blocks compressed from the
    input, 64-bit chaining words) and the streaming one of [owhash64.c] (every block
    through the buffer, 32-bit words) write the same octets for every message and every
    contents of their uninitialised contexts, and both are the FIPS digest. *)
Theorem owcrypt_sha256_equals_owhash stack stack' p n out :
  length (sc_buf stack) = 128%nat → length (hc_buffer stack') = 64%nat →
  octets p → 0 ≤ n ≤ Z.of_nat (length p) → (32 ≤ length out)%nat →
  owcrypt_sha256 stack p n out = Some (sha256 (take (Z.to_nat n) p) ++ drop 32 out) ∧
  owcrypt_sha256 stack p n out = ('(_, o) ← sha256_calls stack' [(Some p, n)] out; o).
Proof.
  intros Hb Hb' Hp Hn Ho.
  assert (owcrypt_sha256 stack p n out = Some (sha256 (take (Z.to_nat n) p) ++ drop 32 out)) as E
    by exact (one_shot_spec (SH := owc_sha256_stream_hash) stack p n out Hb Hp Hn I Ho).
  split; [done|]. rewrite E. unfold sha256_calls.
  destruct (sha256_init_spec stack' Hb') as (c0 & -> & H0). rewrite obind_Some.
  destruct (sha256_updates_spec [(Some p, n)] c0 [] H0) as (c1 & -> & H1); [constructor; [by split|constructor]|].
  rewrite obind_Some. destruct (sha256_final_spec c1 _ out H1 Ho) as (c2 & ->). rewrite obind_Some.
  change (mjoin (call_bytes <$> [(Some p, n)])) with (take (Z.to_nat n) p ++ []).
  by rewrite app_nil_r.
Qed.

Lemma owcrypt_sha256_equals_owhash_witness :
  owcrypt_sha256 (OwcShaCtx [] 5 5 (replicate 128 7) 3) (replicate 200 97) 130 (replicate 32 0) =
    ('(_, o) ← sha256_calls (OwhashCtx [] 0 (replicate 64 1) 0) [(Some (replicate 200 97), 130)]
       (replicate 32 0); o).
Proof.
  apply (owcrypt_sha256_equals_owhash (OwcShaCtx [] 5 5 (replicate 128 7) 3) (OwhashCtx [] 0 (replicate 64 1) 0)).
  - done.
  - done.
  - apply Forall_replicate. lia.
  - rewrite length_replicate. lia.
  - rewrite length_replicate. lia.
Defined.

(** [C32] HMAC: for keys of any length (hashed when longer than a block) and
    any message, [owcrypt_hmac_sha256] and [owcrypt_hmac_sha512] write the
    RFC 2104 authenticator over the FIPS digests; SHA-512 counts the message
    length in 64 bits, so its message stays below 2^61 octets. *)
Theorem owcrypt_hmac_rfc2104 stack key n msg k out :
  length (sc_buf stack) = 128%nat → octets key → 0 ≤ n ≤ Z.of_nat (length key) →
  octets msg → 0 ≤ k ≤ Z.of_nat (length msg) → (64 ≤ length out)%nat →
  n < 2 ^ 61 → k < 2 ^ 61 - 128 →
  let key' := take (Z.to_nat n) key in let msg' := take (Z.to_nat k) msg in
  owcrypt_hmac_sha256 stack key n msg k out = Some (hmac_ref sha256 64 key' msg' ++ drop 32 out) ∧
  owcrypt_hmac_sha512 stack key n msg k out = Some (hmac_ref sha512 128 key' msg' ++ drop 64 out).
Proof.
  intros Hb Hk Hn Hm Hkm Ho Hn2 Hk2 key' msg'. split.
  - apply (hmac_spec (SH := owc_sha256_stream_hash) 64); try assumption; try (intros; exact I); try lia.
    intros o Ho'. exact (one_shot_spec (SH := owc_sha256_stream_hash) stack key n o Hb Hk Hn I Ho').
  - apply (hmac_spec (SH := owc_sha512_stream_hash) 128); try assumption; try lia.
    + intros o Ho'. refine (one_shot_spec (SH := owc_sha512_stream_hash) stack key n o Hb Hk Hn _ Ho').
      unfold sha512_limit. rewrite length_take. lia.
    + intros p Hp. unfold sha512_limit. rewrite length_app, length_take. lia.
    + intros p Hp. unfold sha512_limit. lia.
Qed.

Lemma owcrypt_hmac_rfc2104_witness :
  owcrypt_hmac_sha256 (OwcShaCtx [] 5 5 (replicate 128 7) 3) (replicate 20 11) 20
    [72; 105; 32; 84; 104; 101; 114; 101] 8 (replicate 64 0) =
    Some ([0xb0; 0x34; 0x4c; 0x61; 0xd8; 0xdb; 0x38; 0x53; 0x5c; 0xa8; 0xaf; 0xce; 0xaf; 0x0b; 0xf1; 0x2b;
           0x88; 0x1d; 0xc2; 0x00; 0xc9; 0x83; 0x3d; 0xa7; 0x26; 0xe9; 0x37; 0x6c; 0x2e; 0x32; 0xcf; 0xf7]
          ++ replicate 32 0).
Proof.
  destruct (owcrypt_hmac_rfc2104 (OwcShaCtx [] 5 5 (replicate 128 7) 3) (replicate 20 11) 20
    [72; 105; 32; 84; 104; 101; 114; 101] 8 (replicate 64 0)) as [E _].
  - done.
  - apply Forall_replicate. lia.
  - rewrite length_replicate. lia.
  - repeat constructor; lia.
  - simpl. lia.
  - rewrite length_replicate. lia.
  - lia.
  - lia.
  - rewrite E. vm_compute. reflexivity.
Defined.
