(* ===== verification/OwcryptAead.v ===== *)
(** * The encryption engine: ChaCha20-Poly1305 and frames
      ([DLL/owcrypt/owcrypt.c], lines 582-911, 2315-2343 and 2505-2642)

    The ChaCha20 stream, the 26-bit-limb Poly1305 authenticator, the AEAD
    built from them, the constant-time comparison, the BANcode scan and the SUTF
    security frames.  A destination is an
    array and an offset; the input of the cipher may be [NULL], another array
    or the destination array itself ([in_ptr]), as callers alias them.
    Read-only inputs (key, nonce, associated data, tag) are the octets they
    point to. *)
From S2P Require Import Prelude Owcrypt.

Definition OWCRYPT_OK : Z := 0.
Definition OWCRYPT_BAN_AUTH_FAIL : Z := 0x0011A322.
Definition OWCRYPT_BAN_BANCODE : Z := 0x0011A324.
Definition OWCRYPT_ERR_UNINITIALIZED : Z := 0x0011AEC0.
Definition OWCRYPT_ERR_BAD_ARG : Z := 0x0011AEC1.
Definition OWCRYPT_ERR_SHORT_OUT : Z := 0x0011AEC2.

(** ** ChaCha20 *)

(** The quarter round on the words at four different indices. *)
Definition owc_qr (x : list Z) (ia ib ic id : Z) : option (list Z) :=
  a ← aget x ia; b ← aget x ib; c ← aget x ic; d ← aget x id;
  let a := u32 (a + b) in let d := owc_rotl32 (Z.lxor d a) 16 in
  let c := u32 (c + d) in let b := owc_rotl32 (Z.lxor b c) 12 in
  let a := u32 (a + b) in let d := owc_rotl32 (Z.lxor d a) 8 in
  let c := u32 (c + d) in let b := owc_rotl32 (Z.lxor b c) 7 in
  x ← aset x ia a; x ← aset x ib b; x ← aset x ic c; aset x id d.

Definition owc_double_round (x : list Z) : option (list Z) :=
  x ← owc_qr x 0 4 8 12; x ← owc_qr x 1 5 9 13; x ← owc_qr x 2 6 10 14; x ← owc_qr x 3 7 11 15;
  x ← owc_qr x 0 5 10 15; x ← owc_qr x 1 6 11 12; x ← owc_qr x 2 7 8 13; owc_qr x 3 4 9 14.

Definition owc_chacha_block (key nonce : list Z) (counter : Z) (out : list Z) : option (list Z) :=
  s ← aset (replicate 16 0) 0 0x61707865; s ← aset s 1 0x3320646e;
  s ← aset s 2 0x79622d32; s ← aset s 3 0x6b206574;
  s ← for_up 8 0 (λ i s, x ← owc_get32le key (4 * i); aset s (4 + i) x) s;
  s ← aset s 12 counter;
  s ← for_up 3 0 (λ i s, x ← owc_get32le nonce (4 * i); aset s (13 + i) x) s;
  x ← for_up 16 0 (λ i x, v ← aget s i; aset x i v) (replicate 16 0);
  x ← for_up 10 0 (λ _ x, owc_double_round x) x;
  for_up 16 0 (λ i out, a ← aget x i; b ← aget s i; owc_put32le out (4 * i) (u32 (a + b))) out.

(** Where the cipher reads its input. *)
Inductive in_ptr :=
  | InNull                             (** [in == NULL] *)
  | InArray (l : list Z) (off : Z)     (** another array *)
  | InPlace (off : Z).                 (** the destination array *)

Definition in_get (inp : in_ptr) (out : list Z) (i : Z) : option Z :=
  match inp with
  | InNull => UB
  | InArray l off => aget l (off + i)
  | InPlace off => aget out (off + i)
  end.

(** One key stream block over the next [n] octets. *)
Definition owc_xor_block (ks : list Z) (inp : in_ptr) (out : list Z) (ooff off n : Z) : option (list Z) :=
  for_up (Z.to_nat n) 0
    (λ i out, k ← aget ks i;
              match inp with
              | InNull => aset out (ooff + (off + i)) k
              | _ => x ← in_get inp out (off + i); aset out (ooff + (off + i)) (Z.lxor x k)
              end) out.

Fixpoint owc_xor_loop (fuel : nat) (key nonce : list Z) (counter : Z) (inp : in_ptr)
    (len : Z) (out : list Z) (ooff off : Z) : option (list Z) :=
  if len <=? off then Some out else
  match fuel with
  | O => None
  | S fuel =>
      ks ← owc_chacha_block key nonce counter (replicate 64 0);
      let n := len - off in
      let n := if 64 <? n then 64 else n in
      out ← owc_xor_block ks inp out ooff off n;
      owc_xor_loop fuel key nonce (u32 (counter + 1)) inp len out ooff (off + n)
  end.

Definition owcrypt_chacha20_xor (key nonce : list Z) (counter : Z) (inp : in_ptr) (len : Z)
    (out : list Z) (ooff : Z) : option (list Z) :=
  owc_xor_loop (Z.to_nat len) key nonce counter inp len out ooff 0.

(** ** Poly1305 *)

Definition OWC_P26M : Z := 0x3FFFFFF.

Record owc_p1305_t := P1305 {
  p_h : list Z;         (** [h[5]] *)
  p_r : list Z;         (** [r[5]] *)
  p_s : list Z;         (** [s[4]] *)
  p_pad0 : Z; p_pad1 : Z;
  p_block : list Z;     (** [block[16]] *)
  p_blocklen : Z;
}.
#[export] Instance owc_p1305_eta : Eta owc_p1305_t :=
  λ c, P1305 (p_h c) (p_r c) (p_s c) (p_pad0 c) (p_pad1 c) (p_block c) (p_blocklen c).

(** Two 64-bit halves cut into five lanes of 26 bits. *)
Definition owc_lanes (x0 x1 : Z) : list Z :=
  [Z.land x0 OWC_P26M; Z.land (Z.shiftr x0 26) OWC_P26M;
   Z.lor (Z.shiftr x0 52) (u64 (Z.shiftl (Z.land x1 0x3FFF) 12));
   Z.land (Z.shiftr x1 14) OWC_P26M; Z.land (Z.shiftr x1 40) OWC_P26M].

Definition owc_p1305_init (c : owc_p1305_t) (key : list Z) : option owc_p1305_t :=
  r0 ← owc_get64le key 0; r1 ← owc_get64le key 8;
  let r0 := Z.land r0 0x0FFFFFFC0FFFFFFF in
  let r1 := Z.land r1 0x0FFFFFFC0FFFFFFC in
  let r := owc_lanes r0 r1 in
  pad0 ← owc_get64le key 16; pad1 ← owc_get64le key 24;
  Some (P1305 (replicate 5 0) r ((λ x, u64 (x * 5)) <$> drop 1 r) pad0 pad1 (p_block c) 0).

(** The carry chain after the column sums, the lanes left in [h]. *)
Definition owc_p1305_carry (d0 d1 d2 d3 d4 : Z) : list Z :=
  let h0 := Z.land d0 OWC_P26M in let c1 := Z.shiftr d0 26 in let d1 := u64 (d1 + c1) in
  let h1 := Z.land d1 OWC_P26M in let c1 := Z.shiftr d1 26 in let d2 := u64 (d2 + c1) in
  let h2 := Z.land d2 OWC_P26M in let c1 := Z.shiftr d2 26 in let d3 := u64 (d3 + c1) in
  let h3 := Z.land d3 OWC_P26M in let c1 := Z.shiftr d3 26 in let d4 := u64 (d4 + c1) in
  let h4 := Z.land d4 OWC_P26M in let c1 := Z.shiftr d4 26 in
  let h0 := u64 (h0 + u64 (c1 * 5)) in
  let c1 := Z.shiftr h0 26 in let h0 := Z.land h0 OWC_P26M in let h1 := u64 (h1 + c1) in
  let c1 := Z.shiftr h1 26 in let h1 := Z.land h1 OWC_P26M in let h2 := u64 (h2 + c1) in
  let c1 := Z.shiftr h2 26 in let h2 := Z.land h2 OWC_P26M in let h3 := u64 (h3 + c1) in
  let c1 := Z.shiftr h3 26 in let h3 := Z.land h3 OWC_P26M in let h4 := u64 (h4 + c1) in
  let h4 := Z.land h4 OWC_P26M in
  [h0; h1; h2; h3; h4].

Definition owc_p1305_mul (c : owc_p1305_t) : option owc_p1305_t :=
  match p_h c, p_r c, p_s c with
  | [h0; h1; h2; h3; h4], [r0; r1; r2; r3; r4], [s0; s1; s2; s3] =>
      let d0 := u64 (h0 * r0 + h1 * s3 + h2 * s2 + h3 * s1 + h4 * s0) in
      let d1 := u64 (h0 * r1 + h1 * r0 + h2 * s3 + h3 * s2 + h4 * s1) in
      let d2 := u64 (h0 * r2 + h1 * r1 + h2 * r0 + h3 * s3 + h4 * s2) in
      let d3 := u64 (h0 * r3 + h1 * r2 + h2 * r1 + h3 * r0 + h4 * s3) in
      let d4 := u64 (h0 * r4 + h1 * r3 + h2 * r2 + h3 * r1 + h4 * r0) in
      Some (c <| p_h := owc_p1305_carry d0 d1 d2 d3 d4 |>)
  | _, _, _ => UB
  end.

(** [blk] is 16 octets, of which [tlen] belong to the message. *)
Definition owc_p1305_block (c : owc_p1305_t) (blk : list Z) (tlen : Z) : option owc_p1305_t :=
  m0 ← owc_get64le blk 0; m1 ← owc_get64le blk 8;
  let m0 := if (tlen <? 16) && (tlen <? 8) then Z.lor m0 (u64 (Z.shiftl 1 (8 * tlen))) else m0 in
  let m1 := if (tlen <? 16) && negb (tlen <? 8) then Z.lor m1 (u64 (Z.shiftl 1 (8 * (tlen - 8)))) else m1 in
  let md := owc_lanes m0 m1 in
  md4 ← aget md 4;
  md ← (if tlen =? 16 then aset md 4 (Z.lor md4 (u64 (Z.shiftl 1 24))) else Some md);
  '(h, carry) ← for_up 5 0
      (λ i '(h, carry), hi ← aget h i; mi ← aget md i;
         let hi := u64 (hi + u64 (mi + carry)) in
         h ← aset h i (Z.land hi OWC_P26M); Some (h, Z.shiftr hi 26)) (p_h c, 0);
  h ← (if nz carry then
         h0 ← aget h 0;
         let h0 := u64 (h0 + u64 (carry * 5)) in
         h ← aset h 0 (Z.land h0 OWC_P26M);
         '(h, _) ← for_up 4 1
             (λ i '(h, carry), if nz carry then
                hi ← aget h i;
                let hi := u64 (hi + carry) in
                h ← aset h i (Z.land hi OWC_P26M); Some (h, Z.shiftr hi 26)
              else Some (h, carry)) (h, Z.shiftr h0 26);
         Some h
       else Some h);
  owc_p1305_mul (c <| p_h := h |>).

Fixpoint owc_p1305_loop (fuel : nat) (c : owc_p1305_t) (data : list Z) (off n : Z)
    : option owc_p1305_t :=
  if n =? 0 then Some c else
  match fuel with
  | O => None
  | S fuel =>
      let space := u64 (16 - p_blocklen c) in
      let take := if space <? n then space else n in
      blk ← copy_at take data off (p_block c) (p_blocklen c);
      let c := c <| p_block := blk |> <| p_blocklen := u64 (p_blocklen c + take) |> in
      c ← (if p_blocklen c =? 16
           then c ← owc_p1305_block c (p_block c) 16; Some (c <| p_blocklen := 0 |>) else Some c);
      owc_p1305_loop fuel c data (off + take) (n - take)
  end.

Definition owc_p1305_update (c : owc_p1305_t) (data : list Z) (off n : Z) : option owc_p1305_t :=
  owc_p1305_loop (Z.to_nat n) c data off n.

Definition owc_p1305_final (c : owc_p1305_t) (tag : list Z) : option (list Z) :=
  c ← (if nz (p_blocklen c) then
         blk ← for_up (Z.to_nat (16 - p_blocklen c)) (p_blocklen c) (λ i b, aset b i 0) (p_block c);
         c ← owc_p1305_block (c <| p_block := blk |>) blk (u32 (p_blocklen c));
         Some (c <| p_blocklen := 0 |>)
       else Some c);
  match p_h c with
  | [h0; h1; h2; h3; h4] =>
      let g0 := u64 (h0 + 5) in
      let borrow := Z.b2z (g0 <? h0) in
      let g1 := u64 (h1 + borrow) in let borrow := Z.b2z (g1 <? borrow) in
      let g2 := u64 (h2 + borrow) in let borrow := Z.b2z (g2 <? borrow) in
      let g3 := u64 (h3 + borrow) in let borrow := Z.b2z (g3 <? borrow) in
      let g4 := u64 (h4 + borrow) in let borrow := Z.b2z (g4 <? borrow) in
      let '(h0, h1, h2, h3, h4) :=
        if nz borrow then (g0, g1, g2, g3, g4) else (h0, h1, h2, h3, h4) in
      let e0 := Z.lor (Z.lor h0 (u64 (Z.shiftl h1 26))) (u64 (Z.shiftl (Z.land h2 0xFFF) 52)) in
      let e1 := Z.lor (Z.lor (Z.lor (Z.shiftr h2 12) (u64 (Z.shiftl h3 14)))
                  (u64 (Z.shiftl (Z.land h4 0xFFFF) 40))) (u64 (Z.shiftl (Z.shiftr h4 16) 56)) in
      let s := u64 (e0 + p_pad0 c) in
      let hi := u64 (e1 + p_pad1 c + Z.b2z (s <? e0)) in
      tag ← owc_put64le tag 0 s;
      owc_put64le tag 8 hi
  | _ => UB
  end.

(** [stack] is the uninitialised local state. *)
Definition owcrypt_poly1305 (stack : owc_p1305_t) (key msg : list Z) (len : Z) (tag : list Z)
    : option (list Z) :=
  c ← owc_p1305_init stack key;
  c ← owc_p1305_update c msg 0 len;
  owc_p1305_final c tag.

(** ** Constant-time helpers *)

Definition owcrypt_cleanse (p : list Z) (off n : Z) : option (list Z) :=
  for_up (Z.to_nat n) off (λ i p, aset p i 0) p.

Definition owcrypt_ct_memcmp (a b : ptr (list Z)) (n : Z) : option bool :=
  match a, b with
  | Some x, Some y =>
      diff ← for_up (Z.to_nat n) 0
        (λ i diff, xi ← aget x i; yi ← aget y i; Some (Z.lor diff (u8 (Z.lxor xi yi)))) 0;
      Some (diff =? 0)
  | _, _ => Some false
  end.

(** ** ChaCha20-Poly1305 *)

(** [aad] is the array, which a zero length does not read; [ct] and [coff] the
    ciphertext. *)
Definition owc_aead_mac (stack : owc_p1305_t) (key nonce : list Z) (aad : ptr (list Z)) (aadlen : Z)
    (ct : list Z) (coff clen : Z) (mac : list Z) : option (list Z) :=
  let pa := (16 - aadlen mod 16) mod 16 in
  let pc := (16 - clen mod 16) mod 16 in
  let zeros := replicate 16 0 in
  polykey ← owc_chacha_block key nonce 0 (replicate 64 0);
  m ← owc_p1305_init stack polykey;
  m ← owc_p1305_update m (default [] aad) 0 aadlen;
  m ← owc_p1305_update m zeros 0 pa;
  m ← owc_p1305_update m ct coff clen;
  m ← owc_p1305_update m zeros 0 pc;
  lenblk ← owc_put64le (replicate 16 0) 0 aadlen;
  lenblk ← owc_put64le lenblk 8 clen;
  m ← owc_p1305_update m lenblk 0 16;
  owc_p1305_final m mac.

Definition is_in_null (p : in_ptr) : bool := match p with InNull => true | _ => false end.
Definition is_null {A} (p : ptr A) : bool := match p with NULL => true | Some _ => false end.

(** The array and offset the ciphertext is read from. *)
Definition in_array (inp : in_ptr) (out : list Z) : list Z * Z :=
  match inp with InNull => ([], 0) | InArray l off => (l, off) | InPlace off => (out, off) end.

Definition owcrypt_chacha_poly_seal (initialized : bool) (stack : owc_p1305_t)
    (key nonce aad : ptr (list Z)) (aadlen : Z) (plain : in_ptr) (plen : Z)
    (out : ptr (list Z)) (ooff : Z) (tag : ptr (list Z)) : option (Z * ptr (list Z) * ptr (list Z)) :=
  if negb initialized then Some (OWCRYPT_ERR_UNINITIALIZED, out, tag) else
  match key, nonce, out, tag with
  | Some k, Some nn, Some o, Some t =>
      if (0 <? plen) && is_in_null plain then Some (OWCRYPT_ERR_BAD_ARG, out, tag) else
      o ← owcrypt_chacha20_xor k nn 1 plain plen o ooff;
      t ← owc_aead_mac stack k nn aad aadlen o ooff plen t;
      Some (OWCRYPT_OK, Some o, Some t)
  | _, _, _, _ => Some (OWCRYPT_ERR_BAD_ARG, out, tag)
  end.

(** [expect] is the local 16-octet array. *)
Definition owcrypt_chacha_poly_open (initialized : bool) (stack : owc_p1305_t)
    (key nonce aad : ptr (list Z)) (aadlen : Z) (cipher : in_ptr) (clen : Z)
    (tag : ptr (list Z)) (out : ptr (list Z)) (ooff : Z) : option (Z * ptr (list Z)) :=
  if negb initialized then Some (OWCRYPT_ERR_UNINITIALIZED, out) else
  match key, nonce, tag with
  | Some k, Some nn, Some t =>
      if (0 <? clen) && is_in_null cipher then Some (OWCRYPT_ERR_BAD_ARG, out) else
      let '(ct, coff) := in_array cipher (default [] out) in
      expect ← owc_aead_mac stack k nn aad aadlen ct coff clen (replicate 16 0);
      same ← owcrypt_ct_memcmp (Some expect) (Some t) 16;
      if negb same then Some (OWCRYPT_BAN_AUTH_FAIL, out) else
      if 0 <? clen then
        match out with
        | NULL => UB
        | Some o => o ← owcrypt_chacha20_xor k nn 1 cipher clen o ooff; Some (OWCRYPT_OK, Some o)
        end
      else Some (OWCRYPT_OK, out)
  | _, _, _ => Some (OWCRYPT_ERR_BAD_ARG, out)
  end.

(** ** BANcode pre-scan *)

Definition ban_code (v : Z) : bool := (0x0011A000 <=? v) && (v <=? 0x0011AEFF).

(** The loop from [i] on, [fuel] positions at most. *)
Fixpoint owc_scan_loop (fuel : nat) (data : list Z) (i n : Z) : option Z :=
  match fuel with
  | O => Some 0
  | S fuel =>
      if i + 4 <=? n then
        v ← owc_get32le data i;
        if ban_code v then Some v else owc_scan_loop fuel data (i + 1) n
      else Some 0
  end.

Definition owcrypt_scan_ban_stream (data : ptr (list Z)) (off n : Z) : option Z :=
  match data with
  | NULL => Some 0
  | Some l => if n <? 4 then Some 0 else owc_scan_loop (Z.to_nat n) (drop (Z.to_nat off) l) 0 n
  end.

(** ** SUTF security frames *)

Definition OWCRYPT_FRAME_MAGIC : Z := 0x4653574F.
Definition OWCRYPT_FRAME_OVERHEAD : Z := 12.

Definition owcrypt_seal_frame (initialized : bool) (stack : owc_p1305_t)
    (key nonce aad : ptr (list Z)) (aadlen : Z) (plain : in_ptr) (plen : Z)
    (frame : ptr (list Z)) (frame_len : ptr Z) : option (Z * ptr (list Z) * ptr Z) :=
  if negb initialized then Some (OWCRYPT_ERR_UNINITIALIZED, frame, frame_len) else
  match key, nonce, frame, frame_len with
  | Some _, Some _, Some f, Some cap =>
      if ((0 <? plen) && is_in_null plain) || ((0 <? aadlen) && is_null aad)
      then Some (OWCRYPT_ERR_BAD_ARG, frame, frame_len) else
      let need := u64 (OWCRYPT_FRAME_OVERHEAD + aadlen + plen + 16) in
      if cap <? need then Some (OWCRYPT_ERR_SHORT_OUT, frame, frame_len) else
      f ← owc_put32le f 0 OWCRYPT_FRAME_MAGIC;
      f ← owc_put32le f 4 (u32 aadlen);
      f ← owc_put32le f 8 (u32 plen);
      f ← (if 0 <? aadlen then copy_at aadlen (default [] aad) 0 f 12 else Some f);
      let p := 12 + (if 0 <? aadlen then aadlen else 0) in
      '(st, f, tag) ← owcrypt_chacha_poly_seal initialized stack key nonce aad aadlen plain plen
                        (Some f) p (Some (replicate 16 0));
      if negb (st =? OWCRYPT_OK) then Some (st, f, Some need) else
      f ← copy_at 16 (default [] tag) 0 (default [] f) (p + plen);
      Some (OWCRYPT_OK, Some f, Some need)
  | _, _, _, _ => Some (OWCRYPT_ERR_BAD_ARG, frame, frame_len)
  end.

(** What the caller finds afterwards: the status, the frame (decrypted in place when there is
    no [plain_out]), the output array, the three output parameters ([aad_out] as an offset into
    the frame) and the codes passed to the hook. *)
Record open_result := OpenResult {
  or_status : Z;
  or_frame : list Z;
  or_plain : ptr (list Z);
  or_plain_len : Z;
  or_aad : ptr Z;
  or_aad_len : Z;
  or_signals : list Z;
}.

(** The output parameters are non-[NULL] when [outs] is true; [plain_len],
    [aad_out] and [aad_len_out] start with the contents [pl0], [ad0], [al0]. *)
Definition owcrypt_open_frame (initialized : bool) (stack : owc_p1305_t)
    (key nonce : ptr (list Z)) (frame : ptr (list Z)) (frame_len : Z)
    (plain_out : ptr (list Z)) (outs : bool) (pl0 : Z) (ad0 : ptr Z) (al0 : Z)
    (scan_ban hook : bool) : option open_result :=
  let fail st f po := Some (OpenResult st f po pl0 ad0 al0 []) in
  if negb initialized then fail OWCRYPT_ERR_UNINITIALIZED (default [] frame) plain_out else
  match key, nonce, frame with
  | Some _, Some _, Some f =>
      if negb outs then fail OWCRYPT_ERR_BAD_ARG f plain_out else
      if frame_len <? OWCRYPT_FRAME_OVERHEAD + 16 then fail OWCRYPT_ERR_BAD_ARG f plain_out else
      magic ← owc_get32le f 0;
      if negb (magic =? OWCRYPT_FRAME_MAGIC) then fail OWCRYPT_ERR_BAD_ARG f plain_out else
      aadlen ← owc_get32le f 4;
      clen ← owc_get32le f 8;
      if frame_len <? u64 (OWCRYPT_FRAME_OVERHEAD + aadlen + clen + 16)
      then fail OWCRYPT_ERR_BAD_ARG f plain_out else
      let coff := OWCRYPT_FRAME_OVERHEAD + aadlen in
      aad ← aslice f OWCRYPT_FRAME_OVERHEAD aadlen;
      tag ← aslice f (coff + clen) 16;
      '(st, f', po) ←
        match plain_out with
        | NULL =>
            '(st, o) ← owcrypt_chacha_poly_open initialized stack key nonce (Some aad) aadlen
                         (InPlace coff) clen (Some tag) (Some f) coff;
            Some (st, default [] o, NULL)
        | Some out =>
            '(st, o) ← owcrypt_chacha_poly_open initialized stack key nonce (Some aad) aadlen
                         (InArray f coff) clen (Some tag) (Some out) 0;
            Some (st, f, o)
        end;
      if negb (st =? OWCRYPT_OK) then fail st f' po else
      let aad_out := if 0 <? aadlen then Some OWCRYPT_FRAME_OVERHEAD else NULL in
      if scan_ban && (0 <? clen) then
        let '(out, off) := match po with NULL => (f', coff) | Some o => (o, 0) end in
        bancode ← owcrypt_scan_ban_stream (Some out) off clen;
        if nz bancode
        then Some (OpenResult OWCRYPT_BAN_BANCODE f' po clen aad_out aadlen (if hook then [bancode] else []))
        else Some (OpenResult OWCRYPT_OK f' po clen aad_out aadlen [])
      else Some (OpenResult OWCRYPT_OK f' po clen aad_out aadlen [])
  | _, _, _ => fail OWCRYPT_ERR_BAD_ARG (default [] frame) plain_out
  end.
