(* ===== verification/OwcryptPoly.v ===== *)
(** * Poly1305: the limb arithmetic against RFC 8439

    The reference evaluates a polynomial modulo [2^130 - 5].  The code keeps
    the accumulator in five lanes of 26 bits and reduces by folding the bits
    above 2^130 back multiplied by 5, dropping the last carry.  The exact
    value of every accumulator is given ([poly_acc]); it agrees with the
    reference whenever no folding overflows 2^130 and the final value is below
    the prime. *)
From S2P Require Import Prelude Owhash HashSpec HashSha2 Owcrypt OwcryptSha OwcryptAead.

(** ** Reference *)

Definition P130 : Z := 2 ^ 130 - 5.

(** A block of at most 16 octets with its marker bit. *)
Definition poly_block (q : list Z) : Z := le q + 2 ^ (8 * Z.of_nat (length q)).

Definition poly_chunks (m : list Z) : list (list Z) :=
  blocks 16 m ++ match rest 16 m with [] => [] | q => [q] end.

Definition rfc_acc (r : Z) (m : list Z) : Z :=
  foldl (λ a q, ((a + poly_block q) * r) mod P130) 0 (poly_chunks m).

Definition poly_r (key : list Z) : Z :=
  Z.land (le (take 16 key)) 0x0ffffffc0ffffffc0ffffffc0fffffff.
Definition poly_s (key : list Z) : Z := le (take 16 (drop 16 key)).

Definition rfc_poly1305 (key m : list Z) : list Z :=
  le_bytes 16 (rfc_acc (poly_r key) m + poly_s key).

(** ** What the lanes compute *)

Definition limb (i x : Z) : Z := (x / 2 ^ (26 * i)) mod 2 ^ 26.
Definition limbs (x : Z) : list Z := [limb 0 x; limb 1 x; limb 2 x; limb 3 x; limb 4 x].

(** Folding: congruent to [x], below 2^130 except for a few values; the code
    keeps it modulo 2^130. *)
Definition fold_carry (x : Z) : Z := x mod 2 ^ 130 + 5 * (x / 2 ^ 130).
Definition fold130 (x : Z) : Z := fold_carry x mod 2 ^ 130.

(** The lane product: the schoolbook product with the columns above 2^130
    folded. *)
Definition lane_mul (h r : Z) : Z :=
  let h0 := limb 0 h in let h1 := limb 1 h in let h2 := limb 2 h in let h3 := limb 3 h in let h4 := limb 4 h in
  let r0 := limb 0 r in let r1 := limb 1 r in let r2 := limb 2 r in let r3 := limb 3 r in let r4 := limb 4 r in
  (h0 * r0 + 5 * (h1 * r4 + h2 * r3 + h3 * r2 + h4 * r1)) +
  (h0 * r1 + h1 * r0 + 5 * (h2 * r4 + h3 * r3 + h4 * r2)) * 2 ^ 26 +
  (h0 * r2 + h1 * r1 + h2 * r0 + 5 * (h3 * r4 + h4 * r3)) * 2 ^ 52 +
  (h0 * r3 + h1 * r2 + h2 * r1 + h3 * r0 + 5 * (h4 * r4)) * 2 ^ 78 +
  (h0 * r4 + h1 * r3 + h2 * r2 + h3 * r1 + h4 * r0) * 2 ^ 104.

Definition poly_step (r a : Z) (q : list Z) : Z :=
  fold130 (lane_mul (fold130 (a + poly_block q)) r).
Definition poly_acc (r : Z) (m : list Z) : Z := foldl (poly_step r) 0 (poly_chunks m).

(** No folding of the run loses its top carry. *)
Definition step_lossless (r a : Z) (q : list Z) : Prop :=
  fold_carry (a + poly_block q) < 2 ^ 130 ∧
  fold_carry (lane_mul (fold130 (a + poly_block q)) r) < 2 ^ 130.
Definition lossless (r : Z) (qs : list (list Z)) : Prop :=
  ∀ k q, qs !! k = Some q → step_lossless r (foldl (poly_step r) 0 (take k qs)) q.

(** ** Limbs *)

Lemma limb_range i x : 0 ≤ limb i x < 2 ^ 26.
Proof. by apply Z.mod_pos_bound. Qed.

Lemma limbs_value x :
  0 ≤ x < 2 ^ 130 →
  x = limb 0 x + limb 1 x * 2 ^ 26 + limb 2 x * 2 ^ 52 + limb 3 x * 2 ^ 78 + limb 4 x * 2 ^ 104.
Proof.
  intros Hx. unfold limb. change (2 ^ (26 * 0)) with 1. change (2 ^ (26 * 1)) with (2 ^ 26).
  change (2 ^ (26 * 2)) with (2 ^ 52). change (2 ^ (26 * 3)) with (2 ^ 78).
  change (2 ^ (26 * 4)) with (2 ^ 104). zdm.
Qed.

(** Five lanes in range are the limbs of the number they spell. *)
Lemma limbs_of h0 h1 h2 h3 h4 x :
  0 ≤ h0 < 2 ^ 26 → 0 ≤ h1 < 2 ^ 26 → 0 ≤ h2 < 2 ^ 26 → 0 ≤ h3 < 2 ^ 26 → 0 ≤ h4 < 2 ^ 26 →
  x = h0 + h1 * 2 ^ 26 + h2 * 2 ^ 52 + h3 * 2 ^ 78 + h4 * 2 ^ 104 →
  [h0; h1; h2; h3; h4] = limbs x ∧ 0 ≤ x < 2 ^ 130.
Proof.
  intros H0 H1 H2 H3 H4 ->. split; [|lia]. unfold limbs, limb.
  change (2 ^ (26 * 0)) with 1. change (2 ^ (26 * 1)) with (2 ^ 26).
  change (2 ^ (26 * 2)) with (2 ^ 52). change (2 ^ (26 * 3)) with (2 ^ 78).
  change (2 ^ (26 * 4)) with (2 ^ 104). repeat f_equal; zdm.
Qed.

Lemma lane_mul_mod h r :
  0 ≤ h < 2 ^ 130 → 0 ≤ r < 2 ^ 130 → lane_mul h r mod P130 = (h * r) mod P130.
Proof.
  intros Hh Hr. rewrite (limbs_value h Hh) at 2. rewrite (limbs_value r Hr) at 2.
  unfold lane_mul. cbv zeta.
  set (h0 := limb 0 h). set (h1 := limb 1 h). set (h2 := limb 2 h). set (h3 := limb 3 h). set (h4 := limb 4 h).
  set (r0 := limb 0 r). set (r1 := limb 1 r). set (r2 := limb 2 r). set (r3 := limb 3 r). set (r4 := limb 4 r).
  symmetry. rewrite <-(Z_mod_plus_full _ (- ((h1 * r4 + h2 * r3 + h3 * r2 + h4 * r1) +
    (h2 * r4 + h3 * r3 + h4 * r2) * 2 ^ 26 + (h3 * r4 + h4 * r3) * 2 ^ 52 + h4 * r4 * 2 ^ 78))).
  f_equal. unfold P130.
  change (2 ^ 130) with (2 ^ 26 * 2 ^ 26 * 2 ^ 26 * 2 ^ 26 * 2 ^ 26). change (2 ^ 104) with (2 ^ 26 * 2 ^ 26 * 2 ^ 26 * 2 ^ 26).
  change (2 ^ 78) with (2 ^ 26 * 2 ^ 26 * 2 ^ 26). change (2 ^ 52) with (2 ^ 26 * 2 ^ 26).
  generalize (2 ^ 26). intros b. ring.
Qed.

Lemma lane_mul_nonneg h r : 0 ≤ lane_mul h r.
Proof.
  unfold lane_mul. cbv zeta.
  repeat first [apply Z.add_nonneg_nonneg|apply Z.mul_nonneg_nonneg]; first [apply limb_range|done].
Qed.

Lemma fold_carry_mod x : fold_carry x mod P130 = x mod P130.
Proof.
  unfold fold_carry, P130. rewrite (Z_div_mod_eq_full x (2 ^ 130)) at 3.
  rewrite <-(Z_mod_plus_full (x mod 2 ^ 130 + 5 * (x / 2 ^ 130)) (x / 2 ^ 130)). f_equal. lia.
Qed.

Lemma fold130_range x : 0 ≤ fold130 x < 2 ^ 130.
Proof. by apply Z.mod_pos_bound. Qed.

Lemma land_p26 x : Z.land x OWC_P26M = x mod 2 ^ 26.
Proof. change OWC_P26M with (Z.ones 26). by rewrite Z.land_ones. Qed.

(** A pass of carries over five columns: the lanes and the carry out. *)
Lemma carry_pass d0 d1 d2 d3 d4 :
  0 ≤ d0 → 0 ≤ d1 → 0 ≤ d2 → 0 ≤ d3 → 0 ≤ d4 →
  let e1 := d1 + d0 / 2 ^ 26 in let e2 := d2 + e1 / 2 ^ 26 in
  let e3 := d3 + e2 / 2 ^ 26 in let e4 := d4 + e3 / 2 ^ 26 in
  let v := d0 + d1 * 2 ^ 26 + d2 * 2 ^ 52 + d3 * 2 ^ 78 + d4 * 2 ^ 104 in
  [d0 mod 2 ^ 26; e1 mod 2 ^ 26; e2 mod 2 ^ 26; e3 mod 2 ^ 26; e4 mod 2 ^ 26] = limbs (v mod 2 ^ 130) ∧
  e4 / 2 ^ 26 = v / 2 ^ 130.
Proof.
  intros H0 H1 H2 H3 H4 e1 e2 e3 e4 v.
  assert (e1 = d1 + d0 / 2 ^ 26) as E1 by done. assert (e2 = d2 + e1 / 2 ^ 26) as E2 by done.
  assert (e3 = d3 + e2 / 2 ^ 26) as E3 by done. assert (e4 = d4 + e3 / 2 ^ 26) as E4 by done.
  clearbody e4 e3 e2 e1.
  pose proof (Z_div_mod_eq_full d0 (2 ^ 26)). pose proof (Z_div_mod_eq_full e1 (2 ^ 26)).
  pose proof (Z_div_mod_eq_full e2 (2 ^ 26)). pose proof (Z_div_mod_eq_full e3 (2 ^ 26)).
  pose proof (Z_div_mod_eq_full e4 (2 ^ 26)).
  pose proof (Z.mod_pos_bound d0 (2 ^ 26) eq_refl). pose proof (Z.mod_pos_bound e1 (2 ^ 26) eq_refl).
  pose proof (Z.mod_pos_bound e2 (2 ^ 26) eq_refl). pose proof (Z.mod_pos_bound e3 (2 ^ 26) eq_refl).
  pose proof (Z.mod_pos_bound e4 (2 ^ 26) eq_refl).
  set (w := d0 mod 2 ^ 26 + e1 mod 2 ^ 26 * 2 ^ 26 + e2 mod 2 ^ 26 * 2 ^ 52 +
            e3 mod 2 ^ 26 * 2 ^ 78 + e4 mod 2 ^ 26 * 2 ^ 104).
  assert (0 ≤ w < 2 ^ 130) as Hw by (unfold w; lia).
  assert (v = 2 ^ 130 * (e4 / 2 ^ 26) + w) as Hv by (unfold v, w; lia).
  split.
  - rewrite <-(Zmod_unique v (2 ^ 130) (e4 / 2 ^ 26) w) by lia.
    by apply limbs_of.
  - by apply (Zdiv_unique v (2 ^ 130) (e4 / 2 ^ 26) w).
Qed.

(** The same from the limbs of a number and a first column with an added
    carry: the second pass of the code. *)
Lemma carry_pass_add x c :
  0 ≤ x < 2 ^ 130 → 0 ≤ c →
  let e0 := limb 0 x + c in let e1 := limb 1 x + e0 / 2 ^ 26 in let e2 := limb 2 x + e1 / 2 ^ 26 in
  let e3 := limb 3 x + e2 / 2 ^ 26 in let e4 := limb 4 x + e3 / 2 ^ 26 in
  [e0 mod 2 ^ 26; e1 mod 2 ^ 26; e2 mod 2 ^ 26; e3 mod 2 ^ 26; e4 mod 2 ^ 26] = limbs ((x + c) mod 2 ^ 130).
Proof.
  intros Hx Hc e0 e1 e2 e3 e4. pose proof (limb_range 0 x). pose proof (limb_range 1 x).
  pose proof (limb_range 2 x). pose proof (limb_range 3 x). pose proof (limb_range 4 x).
  destruct (carry_pass e0 (limb 1 x) (limb 2 x) (limb 3 x) (limb 4 x)) as [E _]; [unfold e0; lia|lia..|].
  unfold e4, e3, e2, e1. rewrite E. f_equal. f_equal. unfold e0. rewrite (limbs_value x Hx) at 6. lia.
Qed.

(** The state of the code for key number [r] and accumulator [a]. *)
Record poly_state (r a : Z) (c : owc_p1305_t) : Prop := PolyState {
  ps_h : p_h c = limbs a;
  ps_r : p_r c = limbs r;
  ps_s : p_s c = [5 * limb 1 r; 5 * limb 2 r; 5 * limb 3 r; 5 * limb 4 r];
  ps_a : 0 ≤ a < 2 ^ 130;
}.

Lemma prod_bound x y : 0 ≤ x < 2 ^ 26 → 0 ≤ y < 2 ^ 26 → 0 ≤ x * y < 2 ^ 52.
Proof. intros Hx Hy. nia. Qed.

Lemma carry_chain d0 d1 d2 d3 d4 :
  0 ≤ d0 < 2 ^ 60 → 0 ≤ d1 < 2 ^ 60 → 0 ≤ d2 < 2 ^ 60 → 0 ≤ d3 < 2 ^ 60 → 0 ≤ d4 < 2 ^ 60 →
  owc_p1305_carry d0 d1 d2 d3 d4 =
    limbs (fold130 (d0 + d1 * 2 ^ 26 + d2 * 2 ^ 52 + d3 * 2 ^ 78 + d4 * 2 ^ 104)).
Proof.
  intros H0 H1 H2 H3 H4. unfold owc_p1305_carry. rewrite !land_p26, !shiftr_div by lia.
  set (q0 := d0 / 2 ^ 26). assert (0 ≤ q0 < 2 ^ 34) by (unfold q0; zdm). rewrite (u64_small (d1 + q0)) by lia.
  set (q1 := (d1 + q0) / 2 ^ 26). assert (0 ≤ q1 < 2 ^ 35) by (unfold q1; zdm). rewrite (u64_small (d2 + q1)) by lia.
  set (q2 := (d2 + q1) / 2 ^ 26). assert (0 ≤ q2 < 2 ^ 35) by (unfold q2; zdm). rewrite (u64_small (d3 + q2)) by lia.
  set (q3 := (d3 + q2) / 2 ^ 26). assert (0 ≤ q3 < 2 ^ 35) by (unfold q3; zdm). rewrite (u64_small (d4 + q3)) by lia.
  destruct (carry_pass d0 d1 d2 d3 d4) as [El Ec]; [lia..|]. cbv zeta in El, Ec. fold q0 q1 q2 q3 in El, Ec.
  set (v := d0 + _ + _ + _ + _) in *. rewrite Ec. injection El as E0 E1 E2 E3 E4. rewrite E0, E1, E2, E3, E4.
  assert (0 ≤ v / 2 ^ 130 < 2 ^ 35) as Hc by (rewrite <-Ec; zdm).
  set (x := v mod 2 ^ 130) in *. assert (0 ≤ x < 2 ^ 130) as Hx by by apply Z.mod_pos_bound.
  set (c := v / 2 ^ 130) in *. rewrite (u64_small (c * 5)) by lia.
  pose proof (limb_range 0 x). pose proof (limb_range 1 x). pose proof (limb_range 2 x).
  pose proof (limb_range 3 x). pose proof (limb_range 4 x).
  rewrite (u64_small (limb 0 x + _)) by lia.
  set (e0 := (limb 0 x + c * 5) / 2 ^ 26). assert (0 ≤ e0 < 2 ^ 35) by (unfold e0; zdm).
  rewrite (u64_small (limb 1 x + _)) by lia.
  set (e1 := (limb 1 x + e0) / 2 ^ 26). assert (0 ≤ e1 < 2 ^ 35) by (unfold e1; zdm).
  rewrite (u64_small (limb 2 x + _)) by lia.
  set (e2 := (limb 2 x + e1) / 2 ^ 26). assert (0 ≤ e2 < 2 ^ 35) by (unfold e2; zdm).
  rewrite (u64_small (limb 3 x + _)) by lia.
  set (e3 := (limb 3 x + e2) / 2 ^ 26). assert (0 ≤ e3 < 2 ^ 35) by (unfold e3; zdm).
  rewrite (u64_small (limb 4 x + _)) by lia.
  pose proof (carry_pass_add x (c * 5) Hx ltac:(lia)) as E. cbv zeta in E. fold e0 e1 e2 e3 in E. rewrite E.
  unfold fold130, fold_carry. fold x c. by rewrite (Z.mul_comm 5).
Qed.

(** A term of a column, and a column: no 64-bit overflow. *)
Lemma term_bound x y : 0 ≤ x < 2 ^ 26 → 0 ≤ y < 5 * 2 ^ 26 → 0 ≤ x * y < 5 * 2 ^ 52.
Proof. intros Hx Hy. nia. Qed.

Lemma column_bound x0 x1 x2 x3 x4 :
  0 ≤ x0 < 5 * 2 ^ 52 → 0 ≤ x1 < 5 * 2 ^ 52 → 0 ≤ x2 < 5 * 2 ^ 52 → 0 ≤ x3 < 5 * 2 ^ 52 →
  0 ≤ x4 < 5 * 2 ^ 52 →
  u64 (x0 + x1 + x2 + x3 + x4) = x0 + x1 + x2 + x3 + x4 ∧ 0 ≤ x0 + x1 + x2 + x3 + x4 < 2 ^ 60.
Proof. intros. rewrite u64_small; lia. Qed.

Lemma poly_mul_spec r a c :
  poly_state r a c →
  owc_p1305_mul c = Some (c <| p_h := limbs (fold130 (lane_mul a r)) |>).
Proof.
  intros [Eh Er Es Ha]. unfold owc_p1305_mul. rewrite Eh, Er, Es. unfold limbs at 1 2. cbn beta iota.
  unfold lane_mul. cbv zeta.
  assert (∀ i, 0 ≤ limb i r < 5 * 2 ^ 26) as Hr by (intros i; pose proof (limb_range i r); lia).
  assert (∀ i, 0 ≤ 5 * limb i r < 5 * 2 ^ 26) as Hs by (intros i; pose proof (limb_range i r); lia).
  pose proof (λ i, limb_range i a) as Hh.
  do 5 match goal with
  | |- context [u64 (?x0 + ?x1 + ?x2 + ?x3 + ?x4)] =>
      destruct (column_bound x0 x1 x2 x3 x4) as [E ?]; [apply term_bound; auto..|rewrite E; clear E]
  end.
  rewrite carry_chain by assumption. do 4 f_equal. ring.
Qed.

(** ** One block *)

(** The two halves of a block. *)
Lemma get64le_spec p (i : nat) :
  octets p → (i + 8 ≤ length p)%nat →
  owc_get64le p (Z.of_nat i) = Some (le (take 8 (drop i p))).
Proof.
  intros Hp Hi. destruct (aget_eight p i Hp Hi) as
    (b0 & b1 & b2 & b3 & b4 & b5 & b6 & b7 & E & Ho & E0 & E1 & E2 & E3 & E4 & E5 & E6 & E7).
  unfold owc_get64le. rewrite E0, E1, E2, E3, E4, E5, E6, E7, E, !obind_Some. by rewrite lor_le8.
Qed.

Lemma le_app l k : le (l ++ k) = le l + 2 ^ (8 * Z.of_nat (length l)) * le k.
Proof.
  induction l as [|b l IH]; [simpl; lia|]. cbn [app le foldr length]. fold (le (l ++ k)) (le l).
  rewrite IH, Nat2Z.inj_succ, Z.mul_succ_r, (Z.pow_add_r 2 _ 8) by lia. change (2 ^ 8) with 256. lia.
Qed.

Lemma le_zeros n : le (replicate n 0) = 0.
Proof. induction n as [|n IH]; [done|]. cbn [replicate le foldr]. fold (le (replicate n 0)). by rewrite IH. Qed.

Lemma le_bound l : octets l → 0 ≤ le l < 2 ^ (8 * Z.of_nat (length l)).
Proof. intros H. pose proof (le_range l H) as Hl. by rewrite Z.pow_mul_r by lia. Qed.

Lemma lanes_limbs x0 x1 :
  0 ≤ x0 < 2 ^ 64 → 0 ≤ x1 < 2 ^ 64 → owc_lanes x0 x1 = limbs (x0 + 2 ^ 64 * x1).
Proof.
  intros H0 H1. unfold owc_lanes. rewrite !land_p26, !shiftr_div by lia.
  change 0x3FFF with (Z.ones 14). rewrite Z.land_ones by lia.
  assert (Z.lor (x0 / 2 ^ 52) (u64 (Z.shiftl (x1 mod 2 ^ 14) 12)) = x0 / 2 ^ 52 + (x1 mod 2 ^ 14) * 2 ^ 12) as ->.
  { rewrite u64_small by (rewrite Z.shiftl_mul_pow2 by lia; zdm). rewrite Z.lor_comm, lor_shiftl_add; zdm. }
  apply limbs_of; zdm.
Qed.

Lemma poly_block_bound q : octets q → (1 ≤ length q ≤ 16)%nat → 0 ≤ poly_block q < 2 ^ 129.
Proof.
  intros Ho Hl. unfold poly_block. pose proof (le_bound q Ho).
  assert (2 ^ (8 * Z.of_nat (length q)) ≤ 2 ^ 128) by (apply Z.pow_le_mono_r; lia). lia.
Qed.

(** The marker bit above the octets of a short block. *)
Lemma mark_lor x n : 0 ≤ n < 64 → 0 ≤ x < 2 ^ n → Z.lor x (u64 (Z.shiftl 1 n)) = x + 2 ^ n.
Proof.
  intros Hn Hx. assert (2 ^ n < 2 ^ 64) by (apply Z.pow_lt_mono_r; lia).
  rewrite u64_small by (rewrite Z.shiftl_mul_pow2 by lia; lia).
  rewrite Z.lor_comm, lor_shiftl_add by lia. lia.
Qed.

(** The lanes of the zero-filled block with its marker. *)
Lemma block_lanes q (z : list Z) :
  octets q → (1 ≤ length q ≤ 16)%nat → z = replicate (16 - length q) 0 →
  ∃ m0 m1, owc_get64le (q ++ z) 0 = Some m0 ∧ owc_get64le (q ++ z) 8 = Some m1 ∧
    let tlen := Z.of_nat (length q) in
    let m0' := if (tlen <? 16) && (tlen <? 8) then Z.lor m0 (u64 (Z.shiftl 1 (8 * tlen))) else m0 in
    let m1' := if (tlen <? 16) && negb (tlen <? 8) then Z.lor m1 (u64 (Z.shiftl 1 (8 * (tlen - 8)))) else m1 in
    (md4 ← aget (owc_lanes m0' m1') 4;
     if tlen =? 16 then aset (owc_lanes m0' m1') 4 (Z.lor md4 (u64 (Z.shiftl 1 24)))
     else Some (owc_lanes m0' m1')) = Some (limbs (poly_block q)).
Proof.
  intros Ho Hl ->. set (blk := q ++ _).
  assert (length blk = 16%nat) as Hbl by (unfold blk; rewrite length_app, length_replicate; lia).
  assert (octets blk) as Hbo by (apply octets_app; split; [done|apply octets_zeros]).
  exists (le (take 8 blk)), (le (drop 8 blk)).
  pose proof (get64le_spec blk 0 Hbo ltac:(lia)) as E0. pose proof (get64le_spec blk 8 Hbo ltac:(lia)) as E1.
  rewrite take_ge in E1 by (rewrite length_drop; lia).
  split; [exact E0|]. split; [exact E1|].
  assert (le blk = le q) as Hle.
  { unfold blk. rewrite le_app, le_zeros. lia. }
  assert (le blk = le (take 8 blk) + 2 ^ 64 * le (drop 8 blk)) as Hsplit.
  { rewrite <-(take_drop 8 blk) at 1. rewrite le_app, length_take, Hbl. done. }
  pose proof (le_bound q Ho) as Hq.
  pose proof (le_bound (take 8 blk) (Forall_take _ _ _ Hbo)) as Hb0.
  pose proof (le_bound (drop 8 blk) (Forall_drop _ _ _ Hbo)) as Hb1.
  rewrite length_take, Hbl in Hb0. rewrite length_drop, Hbl in Hb1.
  change (2 ^ (8 * Z.of_nat (8 `min` 16))) with (2 ^ 64) in Hb0.
  change (2 ^ (8 * Z.of_nat (16 - 8))) with (2 ^ 64) in Hb1.
  set (m0 := le (take 8 blk)) in *. set (m1 := le (drop 8 blk)) in *. cbv zeta. unfold poly_block.
  destruct (decide (length q = 16)%nat) as [E|E]; [|destruct (decide (length q < 8)%nat) as [E8|E8]].
  - rewrite E. change (Z.of_nat 16 <? 16) with false. change (Z.of_nat 16 =? 16) with true. cbn [andb].
    rewrite lanes_limbs by done. rewrite <-Hsplit, Hle.
    assert (2 ^ (8 * Z.of_nat (length q)) = 2 ^ 128) as Hp by by rewrite E.
    change (aget (limbs (le q)) 4) with (Some (limb 4 (le q))). rewrite obind_Some.
    assert (0 ≤ limb 4 (le q) < 2 ^ 24) as H4.
    { unfold limb. change (2 ^ (26 * 4)) with (2 ^ 104). zdm. }
    rewrite mark_lor by lia.
    change (aset (limbs (le q)) 4 ?x) with (Some [limb 0 (le q); limb 1 (le q); limb 2 (le q); limb 3 (le q); x]).
    f_equal. change (2 ^ (8 * Z.of_nat 16)) with (2 ^ 128).
    pose proof (limbs_value (le q) ltac:(lia)) as Hv.
    pose proof (limb_range 0 (le q)). pose proof (limb_range 1 (le q)). pose proof (limb_range 2 (le q)).
    pose proof (limb_range 3 (le q)).
    apply limbs_of; try assumption; lia.
  - rewrite !(proj2 (Z.ltb_lt _ _)), (proj2 (Z.eqb_neq _ _)) by lia. cbn [andb negb].
    assert (2 ^ (8 * Z.of_nat (length q)) ≤ 2 ^ 56) by (apply Z.pow_le_mono_r; lia).
    assert (m1 = 0) as Hm1 by lia.
    rewrite mark_lor by lia. rewrite lanes_limbs by lia.
    match goal with |- context [limbs ?x] => change (aget (limbs x) 4) with (Some (limb 4 x)) end.
    rewrite obind_Some. do 2 f_equal. lia.
  - rewrite (proj2 (Z.ltb_lt _ 16)), (proj2 (Z.ltb_ge _ 8)), (proj2 (Z.eqb_neq _ _)) by lia. cbn [andb negb].
    assert (2 ^ (8 * Z.of_nat (length q)) = 2 ^ 64 * 2 ^ (8 * (Z.of_nat (length q) - 8))) as Hp.
    { rewrite <-Z.pow_add_r by lia. f_equal. lia. }
    assert (0 < 2 ^ (8 * (Z.of_nat (length q) - 8)) ≤ 2 ^ 56).
    { split; [apply Z.pow_pos_nonneg; lia|apply Z.pow_le_mono_r; lia]. }
    assert (m1 < 2 ^ (8 * (Z.of_nat (length q) - 8))) by nia.
    rewrite mark_lor by lia. rewrite lanes_limbs by lia.
    match goal with |- context [limbs ?x] => change (aget (limbs x) 4) with (Some (limb 4 x)) end.
    rewrite obind_Some. do 2 f_equal. lia.
Qed.

(** The two carry loops of the block routine. *)
Definition add_lane (md : list Z) (i : Z) (s : list Z * Z) : option (list Z * Z) :=
  let '(h, carry) := s in
  hi ← aget h i; mi ← aget md i;
  let hi := u64 (hi + u64 (mi + carry)) in
  h ← aset h i (Z.land hi OWC_P26M); Some (h, Z.shiftr hi 26).

Definition ripple_lane (i : Z) (s : list Z * Z) : option (list Z * Z) :=
  let '(h, carry) := s in
  if nz carry then
    hi ← aget h i;
    let hi := u64 (hi + carry) in
    h ← aset h i (Z.land hi OWC_P26M); Some (h, Z.shiftr hi 26)
  else Some (h, carry).

Lemma add_lanes_run h0 h1 h2 h3 h4 m0 m1 m2 m3 m4 :
  for_up 5 0 (add_lane [m0; m1; m2; m3; m4]) ([h0; h1; h2; h3; h4], 0) =
  (let e0 := u64 (h0 + u64 (m0 + 0)) in let e1 := u64 (h1 + u64 (m1 + Z.shiftr e0 26)) in
   let e2 := u64 (h2 + u64 (m2 + Z.shiftr e1 26)) in let e3 := u64 (h3 + u64 (m3 + Z.shiftr e2 26)) in
   let e4 := u64 (h4 + u64 (m4 + Z.shiftr e3 26)) in
   Some ([Z.land e0 OWC_P26M; Z.land e1 OWC_P26M; Z.land e2 OWC_P26M; Z.land e3 OWC_P26M;
          Z.land e4 OWC_P26M], Z.shiftr e4 26)).
Proof. reflexivity. Qed.

Lemma ripple_lane_spec i h carry hi :
  aget h i = Some hi → 0 ≤ hi < 2 ^ 26 → 0 ≤ carry < 2 ^ 26 →
  ripple_lane i (h, carry) = (h ← aset h i ((hi + carry) mod 2 ^ 26); Some (h, (hi + carry) / 2 ^ 26)).
Proof.
  intros E1 H1 H2. unfold ripple_lane, nz. destruct (Z.eqb_spec carry 0) as [->|]; cbn [negb].
  - rewrite Z.add_0_r, Z.mod_small, Z.div_small by lia.
    pose proof (aget_lt _ _ _ E1). rewrite aset_in by done.
    rewrite obind_Some, list_insert_id; [done|]. by apply aget_Some in E1 as [_ E1].
  - rewrite E1, obind_Some, u64_small, land_p26, shiftr_div by lia. done.
Qed.

Lemma carry_small x y c : 0 ≤ x < 2 ^ 26 → 0 ≤ y < 2 ^ 26 → 0 ≤ c ≤ 2 → 0 ≤ (x + y + c) / 2 ^ 26 ≤ 2.
Proof. intros. zdm. Qed.

(** Adding the block: the sum's low 130 bits in the lanes, the carry out. *)
Lemma add_lanes_spec a m :
  0 ≤ a < 2 ^ 130 → 0 ≤ m < 2 ^ 130 →
  for_up 5 0 (add_lane (limbs m)) (limbs a, 0) = Some (limbs ((a + m) mod 2 ^ 130), (a + m) / 2 ^ 130).
Proof.
  intros Ha Hm. unfold limbs at 1 2. rewrite add_lanes_run. cbv zeta. rewrite !land_p26, !shiftr_div by lia.
  pose proof (limbs_value a Ha) as Va. pose proof (limbs_value m Hm) as Vm.
  pose proof (limb_range 0 a). pose proof (limb_range 1 a). pose proof (limb_range 2 a).
  pose proof (limb_range 3 a). pose proof (limb_range 4 a).
  pose proof (limb_range 0 m). pose proof (limb_range 1 m). pose proof (limb_range 2 m).
  pose proof (limb_range 3 m). pose proof (limb_range 4 m).
  assert (∀ x y c, 0 ≤ x < 2 ^ 26 → 0 ≤ y < 2 ^ 26 → 0 ≤ c ≤ 2 →
    u64 (x + u64 (y + c)) = x + y + c ∧ 0 ≤ (x + y + c) / 2 ^ 26 ≤ 2) as Hs.
  { intros x y c Hx Hy Hc. split; [|by apply carry_small]. rewrite (u64_small (y + c)), u64_small by lia. lia. }
  destruct (Hs (limb 0 a) (limb 0 m) 0) as [-> ?]; [done|done|lia|].
  destruct (Hs (limb 1 a) (limb 1 m) ((limb 0 a + limb 0 m + 0) / 2 ^ 26)) as [-> ?]; [done..|].
  set (c0 := (limb 0 a + limb 0 m + 0) / 2 ^ 26) in *.
  destruct (Hs (limb 2 a) (limb 2 m) ((limb 1 a + limb 1 m + c0) / 2 ^ 26)) as [-> ?]; [done..|].
  set (c1 := (limb 1 a + limb 1 m + c0) / 2 ^ 26) in *.
  destruct (Hs (limb 3 a) (limb 3 m) ((limb 2 a + limb 2 m + c1) / 2 ^ 26)) as [-> ?]; [done..|].
  set (c2 := (limb 2 a + limb 2 m + c1) / 2 ^ 26) in *.
  destruct (Hs (limb 4 a) (limb 4 m) ((limb 3 a + limb 3 m + c2) / 2 ^ 26)) as [-> ?]; [done..|].
  set (c3 := (limb 3 a + limb 3 m + c2) / 2 ^ 26) in *.
  destruct (carry_pass (limb 0 a + limb 0 m + 0) (limb 1 a + limb 1 m) (limb 2 a + limb 2 m)
    (limb 3 a + limb 3 m) (limb 4 a + limb 4 m)) as [E1 E2]; [lia..|].
  cbv zeta in E1, E2. fold c0 c1 c2 c3 in E1, E2. rewrite E1, E2. clear -Va Vm.
  replace (a + m) with (limb 0 a + limb 0 m + 0 + (limb 1 a + limb 1 m) * 2 ^ 26 + (limb 2 a + limb 2 m) * 2 ^ 52 +
    (limb 3 a + limb 3 m) * 2 ^ 78 + (limb 4 a + limb 4 m) * 2 ^ 104); [done|].
  rewrite Va at 6. rewrite Vm at 6. lia.
Qed.

Lemma ripple_lanes_spec x0 h1 h2 h3 h4 c :
  0 ≤ h1 < 2 ^ 26 → 0 ≤ h2 < 2 ^ 26 → 0 ≤ h3 < 2 ^ 26 → 0 ≤ h4 < 2 ^ 26 → 0 ≤ c ≤ 2 →
  let e1 := h1 + c in let e2 := h2 + e1 / 2 ^ 26 in
  let e3 := h3 + e2 / 2 ^ 26 in let e4 := h4 + e3 / 2 ^ 26 in
  for_up 4 1 ripple_lane ([x0; h1; h2; h3; h4], c) =
    Some ([x0; e1 mod 2 ^ 26; e2 mod 2 ^ 26; e3 mod 2 ^ 26; e4 mod 2 ^ 26], e4 / 2 ^ 26).
Proof.
  intros H1 H2 H3 H4 Hc e1 e2 e3 e4. cbn [for_up].
  change (1 + 1) with 2. change (2 + 1) with 3. change (3 + 1) with 4.
  assert (∀ x c, 0 ≤ x < 2 ^ 26 → 0 ≤ c ≤ 2 → 0 ≤ (x + c) / 2 ^ 26 ≤ 2) as Hs by (intros; zdm).
  rewrite (ripple_lane_spec 1 _ _ h1) by (done || lia). fold e1.
  change (aset [x0; h1; h2; h3; h4] 1 ?v) with (Some [x0; v; h2; h3; h4]). rewrite !obind_Some.
  pose proof (Hs h1 c H1 Hc) as B1. fold e1 in B1. rewrite (ripple_lane_spec 2 _ _ h2) by (done || lia). fold e2.
  match goal with |- context [aset [x0; ?y; h2; h3; h4] 2 ?v] =>
    change (aset [x0; y; h2; h3; h4] 2 v) with (Some [x0; y; v; h3; h4]) end. rewrite !obind_Some.
  pose proof (Hs h2 _ H2 B1) as B2. fold e2 in B2. rewrite (ripple_lane_spec 3 _ _ h3) by (done || lia). fold e3.
  match goal with |- context [aset [x0; ?y; ?z; h3; h4] 3 ?v] =>
    change (aset [x0; y; z; h3; h4] 3 v) with (Some [x0; y; z; v; h4]) end. rewrite !obind_Some.
  pose proof (Hs h3 _ H3 B2) as B3. fold e3 in B3. rewrite (ripple_lane_spec 4 _ _ h4) by (done || lia). fold e4.
  match goal with |- context [aset [x0; ?y; ?z; ?w; h4] 4 ?v] =>
    change (aset [x0; y; z; w; h4] 4 v) with (Some [x0; y; z; w; v]) end. by rewrite !obind_Some.
Qed.

(** The whole routine on a block [q] of the message. *)
Lemma poly_block_spec r a c q :
  poly_state r a c → octets q → (1 ≤ length q ≤ 16)%nat →
  owc_p1305_block c (q ++ replicate (16 - length q) 0) (Z.of_nat (length q)) =
    Some (c <| p_h := limbs (poly_step r a q) |>).
Proof.
  intros [Eh Er Es Ha] Ho Hl. unfold owc_p1305_block.
  destruct (block_lanes q _ Ho Hl eq_refl) as (m0 & m1 & E0 & E1 & E2).
  rewrite E0, E1, !obind_Some. cbv zeta in E2.
  set (lanes := owc_lanes _ _) in *.
  destruct (aget lanes 4) as [md4|]; [|done]. rewrite (obind_Some md4). etransitivity; [apply (f_equal (λ x, x ≫= _) E2)|]. rewrite obind_Some.
  pose proof (poly_block_bound q Ho Hl) as Hm. set (m := poly_block q) in *.
  change (for_up 5 0 _ ?s) with (for_up 5 0 (add_lane (limbs m)) s).
  rewrite Eh, add_lanes_spec, obind_Some by lia. cbn beta iota. unfold poly_step. fold m.
  set (x := (a + m) mod 2 ^ 130). set (k := (a + m) / 2 ^ 130).
  assert (0 ≤ x < 2 ^ 130) as Hx by by apply Z.mod_pos_bound.
  assert (0 ≤ k ≤ 1) as Hk by (unfold k; zdm).
  assert ((if nz k then
      h0 ← aget (limbs x) 0;
      h ← aset (limbs x) 0 (Z.land (u64 (h0 + u64 (k * 5))) OWC_P26M);
      '(h, _) ← for_up 4 1 ripple_lane (h, Z.shiftr (u64 (h0 + u64 (k * 5))) 26); Some h
    else Some (limbs x)) = Some (limbs (fold130 (a + m)))) as E.
  { unfold fold130, fold_carry. fold x k. unfold nz. destruct (Z.eqb_spec k 0) as [->|Hnz]; cbn [negb].
    - by rewrite Z.mul_0_r, Z.add_0_r, Z.mod_small by done.
    - change (aget (limbs x) 0) with (Some (limb 0 x)). rewrite obind_Some.
      pose proof (limb_range 0 x). pose proof (limb_range 1 x). pose proof (limb_range 2 x).
      pose proof (limb_range 3 x). pose proof (limb_range 4 x).
      rewrite (u64_small (k * 5)), u64_small, land_p26, shiftr_div by lia.
      change (aset (limbs x) 0 ?v) with (Some [v; limb 1 x; limb 2 x; limb 3 x; limb 4 x]).
      rewrite obind_Some, ripple_lanes_spec, obind_Some by (done || zdm).
      pose proof (carry_pass_add x (k * 5) Hx ltac:(lia)) as E. cbv zeta in E. rewrite E.
      by rewrite (Z.mul_comm 5). }
  etransitivity; [apply (f_equal (λ x, x ≫= _) E)|]. rewrite obind_Some.
  rewrite (poly_mul_spec r (fold130 (a + m))); [done|].
  constructor; try done. apply fold130_range.
Qed.

(** ** Streaming *)

(** The state after absorbing [m] with key numbers [r] and [s]. *)
Record poly_holds (r s : Z) (c : owc_p1305_t) (m : list Z) : Prop := PolyHolds {
  ph_state : poly_state r (foldl (poly_step r) 0 (blocks 16 m)) c;
  ph_pad : s = p_pad0 c + 2 ^ 64 * p_pad1 c;
  ph_pad0 : 0 ≤ p_pad0 c < 2 ^ 64;
  ph_pad1 : 0 ≤ p_pad1 c < 2 ^ 64;
  ph_block : length (p_block c) = 16%nat;
  ph_len : p_blocklen c = Z.of_nat (length (rest 16 m));
  ph_rest : take (length (rest 16 m)) (p_block c) = rest 16 m;
  ph_octets : octets m;
}.

Local Lemma pos16 : (0 < 16)%nat.
Proof. lia. Qed.

Lemma poly_step_range r a q : 0 ≤ poly_step r a q < 2 ^ 130.
Proof. apply fold130_range. Qed.

Lemma acc_range r qs : 0 ≤ foldl (poly_step r) 0 qs < 2 ^ 130.
Proof. induction qs as [|q qs _] using rev_ind; [done|]. rewrite foldl_snoc. apply poly_step_range. Qed.

Lemma poly_absorb_step r s c m d :
  poly_holds r s c m → octets d → (1 ≤ length d)%nat → (length (rest 16 m) + length d ≤ 16)%nat →
  let c1 := c <| p_block := take (length (rest 16 m)) (p_block c) ++ d ++
                   drop (length (rest 16 m) + length d) (p_block c) |>
              <| p_blocklen := Z.of_nat (length (rest 16 m) + length d) |> in
  ∃ c2, (if p_blocklen c1 =? 16
         then c ← owc_p1305_block c1 (p_block c1) 16; Some (c <| p_blocklen := 0 |>) else Some c1) = Some c2 ∧
    poly_holds r s c2 (m ++ d).
Proof.
  intros [Hs Hp Hp0 Hp1 Hb Hl Hr Ho] Hd Hd1 Hle c1. cbn [p_blocklen c1 set_field].
  assert (octets (m ++ d)) by (by apply octets_app).
  destruct (Z.eqb_spec (Z.of_nat (length (rest 16 m) + length d)) 16) as [E|E].
  - assert (length (rest 16 m ++ d) = 16%nat) as H16 by (rewrite length_app; lia).
    assert (p_block c1 = (rest 16 m ++ d) ++ replicate (16 - length (rest 16 m ++ d)) 0) as Hblk.
    { rewrite H16. cbn [Nat.sub replicate]. rewrite app_nil_r. unfold c1. cbn [set_field p_block].
      rewrite Hr, drop_ge by lia. by rewrite app_nil_r. }
    destruct (blocks_complete 16 pos16 m d ltac:(lia)) as [E1 E2].
    assert (poly_state r (foldl (poly_step r) 0 (blocks 16 m)) c1) as Hs1 by by destruct Hs.
    pose proof (poly_block_spec r _ c1 (rest 16 m ++ d) Hs1) as Eb.
    rewrite <-Hblk, H16 in Eb. change (Z.of_nat 16) with 16 in Eb.
    rewrite Eb, obind_Some by (lia || (apply octets_app; split; [by apply Forall_drop|done])).
    eexists. split; [done|]. destruct Hs1 as [Sh Sr Ss Sa].
    constructor; cbn [set_field p_h p_r p_s p_pad0 p_pad1 p_block p_blocklen c1]; rewrite ?E1, ?E2; try done.
    + constructor; cbn [set_field p_h p_r p_s]; rewrite ?foldl_snoc; try done. apply poly_step_range.
    + rewrite !length_app, length_take, length_drop. lia.
  - destruct (blocks_grow 16 pos16 m d) as [E1 E2]; [lia|].
    eexists. split; [done|].
    constructor; cbn [set_field p_h p_r p_s p_pad0 p_pad1 p_block p_blocklen c1]; rewrite ?E1, ?E2; try done.
    + by destruct Hs.
    + rewrite !length_app, length_take, length_drop. lia.
    + by rewrite length_app.
    + rewrite Hr, app_assoc, take_app_length'; done.
Qed.

Lemma poly_update_spec r s c m p off n :
  poly_holds r s c m → octets p → 0 ≤ off → 0 ≤ n → off + n ≤ Z.of_nat (length p) →
  ∃ c', owc_p1305_update c p off n = Some c' ∧
    poly_holds r s c' (m ++ take (Z.to_nat n) (drop (Z.to_nat off) p)).
Proof.
  intros H Hp. unfold owc_p1305_update. assert (n ≤ Z.of_nat (Z.to_nat n)) as Hf by lia.
  revert Hf. generalize (Z.to_nat n) at 1 2 as fuel. intros fuel. revert c m off n H.
  induction fuel as [|fuel IH]; intros c m off n H Hf Hoff Hn Hin.
  { replace n with 0 by lia. exists c. split; [done|]. by rewrite take_0, app_nil_r. }
  cbn [owc_p1305_loop]. destruct (Z.eqb_spec n 0) as [->|Hnz].
  { exists c. split; [done|]. by rewrite take_0, app_nil_r. }
  pose proof (rest_lt 16 pos16 m) as Hlt. pose proof (ph_len _ _ _ _ H) as Hbl.
  rewrite Hbl, (u64_small (16 - _)) by lia.
  set (t := if 16 - Z.of_nat (length (rest 16 m)) <? n then _ else _).
  assert (1 ≤ t ≤ n ∧ t ≤ 16 - Z.of_nat (length (rest 16 m))) as Ht by (unfold t; case_if; lia).
  clearbody t. rewrite copy_at_Z, obind_Some by (rewrite ?(ph_block _ _ _ _ H); lia).
  set (d := take (Z.to_nat t) (drop (Z.to_nat off) p)).
  assert (length d = Z.to_nat t) as Hd by (unfold d; rewrite length_take, length_drop; lia).
  destruct (poly_absorb_step r s c m d) as (c2 & E2 & H2); [done|by apply Forall_take, Forall_drop|lia|lia|].
  cbv zeta in E2. rewrite Nat2Z.id, u64_small by lia.
  replace (Z.to_nat (Z.of_nat (length (rest 16 m)) + t)) with (length (rest 16 m) + length d)%nat by lia.
  replace (Z.of_nat (length (rest 16 m)) + t) with (Z.of_nat (length (rest 16 m) + length d)) by lia.
  rewrite E2, obind_Some.
  destruct (IH c2 (m ++ d) (off + t) (n - t)) as (c' & E' & H'); [done|lia..|].
  exists c'. split; [done|].
  replace (take (Z.to_nat n) _) with (d ++ take (Z.to_nat (n - t)) (drop (Z.to_nat (off + t)) p)).
  { by rewrite app_assoc. }
  unfold d. rewrite Z2Nat.inj_add, <-drop_drop, take_take_drop by lia. f_equal. lia.
Qed.

(** ** Key set-up *)

Lemma testbit_split x0 x1 n i :
  0 ≤ n → 0 ≤ x0 < 2 ^ n → 0 ≤ i →
  Z.testbit (x0 + 2 ^ n * x1) i = if i <? n then Z.testbit x0 i else Z.testbit x1 (i - n).
Proof.
  intros Hn Hx Hi. rewrite Z.add_comm, (Z.mul_comm (2 ^ n)), <-lor_shiftl_add by done.
  rewrite Z.lor_spec, Z.shiftl_spec by done. destruct (Z.ltb_spec i n).
  - by rewrite (Z.testbit_neg_r x1) by lia.
  - rewrite <-(Z.mod_small x0 (2 ^ n)), Z.mod_pow2_bits_high by lia. by rewrite orb_false_r.
Qed.

Lemma land_range x m n : 0 ≤ n → 0 ≤ x < 2 ^ n → 0 ≤ m → 0 ≤ Z.land x m < 2 ^ n.
Proof.
  intros Hn Hx Hm. split; [apply Z.land_nonneg; lia|].
  destruct (decide (Z.land x m = 0)) as [->|Hz]; [lia|].
  assert (0 ≤ Z.land x m) by (apply Z.land_nonneg; lia).
  apply Z.log2_lt_pow2; [lia|]. pose proof (Z.log2_land x m ltac:(lia) ltac:(lia)).
  assert (x ≠ 0) by (intros ->; by rewrite Z.land_0_l in Hz).
  assert (Z.log2 x < n) by (apply Z.log2_lt_pow2; lia). lia.
Qed.

Lemma land_split x0 x1 c0 c1 n :
  0 ≤ n → 0 ≤ x0 < 2 ^ n → 0 ≤ c0 < 2 ^ n →
  Z.land (x0 + 2 ^ n * x1) (c0 + 2 ^ n * c1) = Z.land x0 c0 + 2 ^ n * Z.land x1 c1.
Proof.
  intros Hn Hx Hc. apply Z.bits_inj'. intros i Hi. rewrite Z.land_spec, !testbit_split;
    try done; [|apply land_range; lia]. case_if; by rewrite Z.land_spec.
Qed.

Lemma poly_init_spec stack key :
  octets key → (32 ≤ length key)%nat → length (p_block stack) = 16%nat →
  ∃ c, owc_p1305_init stack key = Some c ∧ poly_holds (poly_r key) (poly_s key) c [].
Proof.
  intros Ho Hl Hb. unfold owc_p1305_init.
  assert (∀ i : nat, (i + 8 ≤ length key)%nat →
    owc_get64le key (Z.of_nat i) = Some (le (take 8 (drop i key))) ∧ 0 ≤ le (take 8 (drop i key)) < 2 ^ 64) as Hg.
  { intros i Hi. split; [by apply get64le_spec|].
    pose proof (le_bound (take 8 (drop i key)) (Forall_take _ _ _ (Forall_drop _ _ _ Ho))) as H.
    rewrite length_take, length_drop, Nat.min_l in H by lia. done. }
  destruct (Hg 0%nat ltac:(lia)) as [E0 B0], (Hg 8%nat ltac:(lia)) as [E8 B8],
    (Hg 16%nat ltac:(lia)) as [E16 B16], (Hg 24%nat ltac:(lia)) as [E24 B24].
  change (Z.of_nat 0) with 0 in E0. change (Z.of_nat 8) with 8 in E8.
  change (Z.of_nat 16) with 16 in E16. change (Z.of_nat 24) with 24 in E24.
  rewrite E0, E8, E16, E24, !obind_Some.
  assert (∀ i : nat, (i + 16 ≤ length key)%nat → le (take 16 (drop i key)) =
    le (take 8 (drop i key)) + 2 ^ 64 * le (take 8 (drop (i + 8) key))) as Hs.
  { intros i Hi. change 16%nat with (8 + 8)%nat. rewrite <-take_take_drop, le_app, drop_drop.
    by rewrite length_take, length_drop, Nat.min_l by lia. }
  set (r0 := Z.land (le (take 8 (drop 0 key))) _). set (r1 := Z.land (le (take 8 (drop 8 key))) _).
  assert (0 ≤ r0 < 2 ^ 64) as Hr0 by by apply land_range.
  assert (0 ≤ r1 < 2 ^ 64) as Hr1 by by apply land_range.
  assert (poly_r key = r0 + 2 ^ 64 * r1) as Er.
  { unfold poly_r. pose proof (Hs 0%nat ltac:(lia)) as H. rewrite drop_0 in H at 1. rewrite H.
    change 0x0ffffffc0ffffffc0ffffffc0fffffff with (0x0FFFFFFC0FFFFFFF + 2 ^ 64 * 0x0FFFFFFC0FFFFFFC).
    by rewrite land_split. }
  eexists. split; [done|]. destruct (blocks_nil 16) as [N1 N2].
  constructor; cbn [p_h p_r p_s p_pad0 p_pad1 p_block p_blocklen]; rewrite ?N1, ?N2; try done.
  - constructor; cbn [p_h p_r p_s]; [done|by rewrite lanes_limbs, Er by done| |done].
    rewrite lanes_limbs, <-Er by done. cbn [limbs drop fmap list_fmap].
    pose proof (limb_range 1 (poly_r key)). pose proof (limb_range 2 (poly_r key)).
    pose proof (limb_range 3 (poly_r key)). pose proof (limb_range 4 (poly_r key)).
    rewrite !u64_small by lia. by rewrite !(Z.mul_comm 5).
  - unfold poly_s. apply (Hs 16%nat). lia.
  - constructor.
Qed.

(** ** The tag *)

Lemma le_bytes_u64 x : le_bytes 8 (u64 x) = le_bytes 8 x.
Proof. rewrite <-!len_field_le. unfold u64, wrap. by rewrite Zmod_mod. Qed.

Lemma lor_add x y n : 0 ≤ n → 0 ≤ x < 2 ^ n → 0 ≤ y → y mod 2 ^ n = 0 → Z.lor x y = x + y.
Proof.
  intros Hn Hx Hy E. rewrite (Z_div_mod_eq_full y (2 ^ n)), E, Z.add_0_r.
  rewrite (Z.mul_comm (2 ^ n)), <-Z.shiftl_mul_pow2, Z.lor_comm, lor_shiftl_add by done.
  rewrite Z.shiftl_mul_pow2 by done. lia.
Qed.

Lemma stores_front (t q vs : list Z) : length t = length vs → stores (t ++ q) 0 vs = Some (vs ++ q).
Proof. intros. by apply (stores_spec vs []). Qed.

Lemma put64le_stores p off v : owc_put64le p off v = stores p off (le_bytes 8 v).
Proof.
  rewrite le_bytes_8. unfold owc_put64le. cbn [stores].
  rewrite <-!Z.add_assoc. repeat (apply option_bind_ext_fun; intros ?). by destruct aset.
Qed.

(** The lanes packed into two 64-bit halves. *)
Lemma pack_lanes a :
  0 ≤ a < 2 ^ 130 →
  Z.lor (Z.lor (limb 0 a) (u64 (Z.shiftl (limb 1 a) 26))) (u64 (Z.shiftl (Z.land (limb 2 a) 0xFFF) 52)) =
    a mod 2 ^ 64 ∧
  Z.lor (Z.lor (Z.lor (Z.shiftr (limb 2 a) 12) (u64 (Z.shiftl (limb 3 a) 14)))
    (u64 (Z.shiftl (Z.land (limb 4 a) 0xFFFF) 40))) (u64 (Z.shiftl (Z.shiftr (limb 4 a) 16) 56)) =
    (a / 2 ^ 64) mod 2 ^ 64.
Proof.
  intros Ha. pose proof (limbs_value a Ha) as Hv.
  pose proof (limb_range 0 a) as H0. pose proof (limb_range 1 a) as H1. pose proof (limb_range 2 a) as H2.
  pose proof (limb_range 3 a) as H3. pose proof (limb_range 4 a) as H4.
  generalize dependent (limb 0 a). generalize dependent (limb 1 a). generalize dependent (limb 2 a).
  generalize dependent (limb 3 a). generalize dependent (limb 4 a).
  intros h4 H4 h3 H3 h2 H2 h1 H1 h0 Hv H0.
  change 0xFFF with (Z.ones 12). change 0xFFFF with (Z.ones 16). rewrite !Z.land_ones by lia.
  rewrite !Z.shiftl_mul_pow2, !shiftr_div by lia. unfold u64, wrap.
  pose proof (Z_div_mod_eq_full h2 (2 ^ 12)). pose proof (Z.mod_pos_bound h2 (2 ^ 12) eq_refl).
  set (l2 := h2 mod 2 ^ 12) in *. set (u2 := h2 / 2 ^ 12) in *.
  assert (0 ≤ u2 < 2 ^ 14) by lia.
  pose proof (Z_div_mod_eq_full h4 (2 ^ 16)). pose proof (Z.mod_pos_bound h4 (2 ^ 16) eq_refl).
  set (l4 := h4 mod 2 ^ 16) in *. set (u4 := h4 / 2 ^ 16) in *. assert (0 ≤ u4 < 2 ^ 10) by lia.
  rewrite (Z.mod_small (h1 * _)), (Z.mod_small (l2 * _)), (Z.mod_small (h3 * _)), (Z.mod_small (l4 * _)) by lia.
  assert ((u4 * 2 ^ 56) mod 2 ^ 64 = (u4 mod 2 ^ 8) * 2 ^ 56) as -> by zdm.
  pose proof (Z_div_mod_eq_full u4 (2 ^ 8)). pose proof (Z.mod_pos_bound u4 (2 ^ 8) eq_refl).
  set (k4 := u4 mod 2 ^ 8) in *. set (v4 := u4 / 2 ^ 8) in *.
  split.
  - rewrite (lor_add h0 _ 26), (lor_add _ (l2 * _) 52) by (lia || zdm).
    apply (Zmod_unique a (2 ^ 64) (u2 + h3 * 2 ^ 14 + h4 * 2 ^ 40)); lia.
  - rewrite (lor_add u2 _ 14), (lor_add _ (l4 * _) 40), (lor_add _ (k4 * _) 56) by (lia || zdm).
    apply (Zmod_unique (a / 2 ^ 64) (2 ^ 64) v4); [lia|].
    symmetry. apply (Zdiv_unique a (2 ^ 64) _ (h0 + h1 * 2 ^ 26 + l2 * 2 ^ 52)); lia.
Qed.

(** The conditional subtraction never happens: no lane is within 5 of 2^64. *)
Lemma poly_final_spec r s c m tag :
  poly_holds r s c m → (16 ≤ length tag)%nat →
  owc_p1305_final c tag = Some (le_bytes 16 (poly_acc r m + s) ++ drop 16 tag).
Proof.
  intros [Hs Hp Hp0 Hp1 Hb Hl Hr Ho] Ht. unfold owc_p1305_final.
  assert (∃ c1, (if nz (p_blocklen c) then
         blk ← for_up (Z.to_nat (16 - p_blocklen c)) (p_blocklen c) (λ i b, aset b i 0) (p_block c);
         c ← owc_p1305_block (c <| p_block := blk |>) blk (u32 (p_blocklen c));
         Some (c <| p_blocklen := 0 |>)
       else Some c) = Some c1 ∧ p_h c1 = limbs (poly_acc r m) ∧ p_pad0 c1 = p_pad0 c ∧ p_pad1 c1 = p_pad1 c)
    as (c1 & E1 & Eh & Ep0 & Ep1).
  { pose proof (rest_lt 16 pos16 m) as Hlt. unfold poly_acc, poly_chunks. rewrite Hl. unfold nz.
    destruct (rest 16 m) as [|b q] eqn:Er.
    { cbn [length Z.of_nat Z.eqb negb]. exists c. rewrite app_nil_r. by destruct Hs. }
    set (l := b :: q) in *. rewrite (proj2 (Z.eqb_neq _ _)) by (simpl; lia). cbn [negb].
    replace (Z.to_nat (16 - Z.of_nat (length l))) with (16 - length l)%nat by lia.
    rewrite zeros_at by lia. rewrite Hr, drop_ge, app_nil_r, obind_Some by lia.
    rewrite u32_small by lia.
    rewrite (poly_block_spec r (foldl (poly_step r) 0 (blocks 16 m))), obind_Some.
    - eexists. split; [done|]. cbn [set_field p_h]. by rewrite foldl_snoc.
    - by destruct Hs.
    - rewrite <-Er. by apply Forall_drop.
    - simpl in *. lia. }
  rewrite E1, obind_Some, Eh. unfold limbs. cbn beta iota.
  set (a := poly_acc r m). pose proof (limb_range 0 a). pose proof (limb_range 1 a).
  pose proof (limb_range 2 a). pose proof (limb_range 3 a). pose proof (limb_range 4 a).
  rewrite (u64_small (limb 0 a + 5)), (proj2 (Z.ltb_ge _ (limb 0 a))) by lia. cbn [Z.b2z].
  assert (∀ i, u64 (limb i a + 0) = limb i a ∧ Z.b2z (limb i a <? 0) = 0) as Hi.
  { intros i. pose proof (limb_range i a). rewrite Z.add_0_r, u64_small, (proj2 (Z.ltb_ge _ _)) by lia. done. }
  destruct (Hi 1) as [-> ->], (Hi 2) as [-> ->], (Hi 3) as [-> ->], (Hi 4) as [-> ->].
  cbn [nz Z.eqb negb]. assert (0 ≤ a < 2 ^ 130) as Ha by apply acc_range.
  destruct (pack_lanes a Ha) as [-> ->]. rewrite Ep0, Ep1.
  set (e0 := a mod 2 ^ 64). set (e1 := (a / 2 ^ 64) mod 2 ^ 64).
  assert (0 ≤ e0 < 2 ^ 64) by by apply Z.mod_pos_bound.
  rewrite <-(take_drop 8 tag), put64le_stores.
  rewrite stores_front, obind_Some by (rewrite ?length_take, ?le_bytes_length; lia).
  rewrite <-(take_drop 8 (drop 8 tag)), drop_drop, put64le_stores.
  rewrite stores_spec by (rewrite ?length_take, ?length_drop, ?le_bytes_length; lia).
  rewrite <-drop_drop, !take_drop, drop_drop, app_assoc. f_equal. f_equal. rewrite (le_bytes_add 8 8), !le_bytes_u64.
  change (256 ^ Z.of_nat 8) with (2 ^ 64).
  assert (∀ x y, x mod 2 ^ 64 = y mod 2 ^ 64 → le_bytes 8 x = le_bytes 8 y) as Hm.
  { intros x y E. rewrite <-(le_bytes_u64 x), <-(le_bytes_u64 y). unfold u64, wrap. by rewrite E. }
  pose proof (Z_div_mod_eq_full a (2 ^ 64)) as Hd. fold e0 in Hd. set (a1 := a / 2 ^ 64) in *.
  pose proof (Z_div_mod_eq_full (e0 + p_pad0 c) (2 ^ 64)) as Hk.
  assert (0 ≤ (e0 + p_pad0 c) / 2 ^ 64 ≤ 1) as Hk1 by zdm.
  assert (Z.b2z (u64 (e0 + p_pad0 c) <? e0) = (e0 + p_pad0 c) / 2 ^ 64) as ->.
  { pose proof (u64_range (e0 + p_pad0 c)). unfold u64, wrap in *.
    destruct (Z.ltb_spec ((e0 + p_pad0 c) mod 2 ^ 64) e0); cbn [Z.b2z]; lia. }
  f_equal; apply Hm.
  - rewrite Hd, Hp. replace (2 ^ 64 * a1 + e0 + (p_pad0 c + 2 ^ 64 * p_pad1 c)) with
      (e0 + p_pad0 c + (a1 + p_pad1 c) * 2 ^ 64) by lia. by rewrite Z_mod_plus_full.
  - assert ((a + s) / 2 ^ 64 = a1 + p_pad1 c + (e0 + p_pad0 c) / 2 ^ 64) as ->.
    { symmetry. apply (Zdiv_unique _ _ _ ((e0 + p_pad0 c) mod 2 ^ 64)); [by apply Z.mod_pos_bound|]. lia. }
    unfold e1. rewrite <-Z.add_assoc, Zplus_mod_idemp_l. f_equal. lia.
Qed.

(** ** Claims *)

Lemma lossless_snoc r qs q :
  lossless r (qs ++ [q]) → lossless r qs ∧ step_lossless r (foldl (poly_step r) 0 qs) q.
Proof.
  intros H. split.
  - intros k x Hk. pose proof (lookup_lt_Some _ _ _ Hk). specialize (H k x).
    rewrite lookup_app_l in H by done. rewrite take_app_le in H by lia. by apply H.
  - specialize (H (length qs) q). rewrite take_app_length in H. apply H. by apply list_lookup_middle.
Qed.

Lemma lossless_acc r qs :
  0 ≤ r < 2 ^ 130 → lossless r qs → Forall (λ q, 0 ≤ poly_block q) qs →
  foldl (poly_step r) 0 qs mod P130 = foldl (λ a q, ((a + poly_block q) * r) mod P130) 0 qs mod P130.
Proof.
  intros Hr. induction qs as [|q qs IH] using rev_ind; [done|]. intros Hl Hq.
  apply lossless_snoc in Hl as [Hl [H1 H2]]. apply Forall_app in Hq as [Hq Hq1].
  apply Forall_cons in Hq1 as [Hb _]. specialize (IH Hl Hq).
  rewrite !foldl_snoc. set (a := foldl (poly_step r) 0 qs) in *.
  assert (0 ≤ a) as Ha by apply acc_range.
  assert (∀ x, 0 ≤ x → fold_carry x < 2 ^ 130 → fold130 x mod P130 = x mod P130) as Hf.
  { intros x Hx Hc. unfold fold130. rewrite (Z.mod_small (fold_carry x)); [apply fold_carry_mod|].
    split; [|done]. unfold fold_carry. pose proof (Z.mod_pos_bound x (2 ^ 130) eq_refl).
    assert (0 ≤ x / 2 ^ 130) by by apply Z.div_pos. lia. }
  unfold poly_step. rewrite Hf; [| |done].
  - rewrite lane_mul_mod by (done || apply fold130_range). rewrite Zmod_mod, Zmult_mod, Hf by (done || lia).
    rewrite (Zplus_mod a), IH, <-Zplus_mod, <-Zmult_mod. done.
  - apply lane_mul_nonneg.
Qed.

Lemma poly_r_range key : octets key → 0 ≤ poly_r key < 2 ^ 130.
Proof.
  intros Ho. unfold poly_r.
  pose proof (le_bound (take 16 key) (Forall_take _ _ _ Ho)) as H.
  assert (2 ^ (8 * Z.of_nat (length (take 16 key))) ≤ 2 ^ 128).
  { apply Z.pow_le_mono_r; [lia|]. rewrite length_take. lia. }
  pose proof (land_range (le (take 16 key)) 0x0ffffffc0ffffffc0ffffffc0fffffff 128 ltac:(lia) ltac:(lia) ltac:(lia)).
  lia.
Qed.

Lemma poly_chunks_nonneg m : octets m → Forall (λ q, 0 ≤ poly_block q) (poly_chunks m).
Proof.
  intros Ho. apply Forall_forall. intros q Hq.
  assert (octets q) as Hqo.
  { unfold poly_chunks in Hq. apply elem_of_app in Hq as [Hq|Hq].
    - apply list_elem_of_fmap in Hq as (i & -> & _). by apply Forall_take, Forall_drop.
    - destruct (rest 16 m) eqn:E; [by apply elem_of_nil in Hq|].
      apply list_elem_of_singleton in Hq as ->. rewrite <-E. by apply Forall_drop. }
  unfold poly_block. pose proof (le_bound q Hqo). pose proof (Z.pow_nonneg 2 (8 * Z.of_nat (length q)) ltac:(lia)). lia.
Qed.

(** [C30] For every key and message [owcrypt_poly1305] is defined and writes
    the 16 octets of the final accumulator plus the pad; when no folding of
    the run overflows 2^130 and the final accumulator is below 2^130 - 5, that
    tag is the one of RFC 8439. *)
Theorem owcrypt_poly1305_tag stack key msg len tag :
  octets key → (32 ≤ length key)%nat → octets msg → 0 ≤ len ≤ Z.of_nat (length msg) →
  length (p_block stack) = 16%nat → (16 ≤ length tag)%nat →
  let m := take (Z.to_nat len) msg in
  owcrypt_poly1305 stack key msg len tag =
    Some (le_bytes 16 (poly_acc (poly_r key) m + poly_s key) ++ drop 16 tag) ∧
  (lossless (poly_r key) (poly_chunks m) → poly_acc (poly_r key) m < P130 →
   owcrypt_poly1305 stack key msg len tag = Some (rfc_poly1305 key m ++ drop 16 tag)).
Proof.
  intros Hk Hkl Hm Hlen Hb Ht m.
  assert (owcrypt_poly1305 stack key msg len tag =
    Some (le_bytes 16 (poly_acc (poly_r key) m + poly_s key) ++ drop 16 tag)) as E.
  { unfold owcrypt_poly1305. destruct (poly_init_spec stack key Hk Hkl Hb) as (c0 & -> & H0). rewrite obind_Some.
    destruct (poly_update_spec _ _ c0 [] msg 0 len H0 Hm) as (c1 & -> & H1); [lia..|]. rewrite obind_Some.
    by apply poly_final_spec. }
  split; [done|]. intros Hl Hp. rewrite E. unfold rfc_poly1305. do 4 f_equal.
  pose proof (lossless_acc _ _ (poly_r_range key Hk) Hl (poly_chunks_nonneg m (Forall_take _ _ _ Hm))) as Ha.
  fold (poly_acc (poly_r key) m) (rfc_acc (poly_r key) m) in Ha.
  assert (∀ qs r, 0 ≤ foldl (λ a q, ((a + poly_block q) * r) mod P130) 0 qs < P130) as Hrange.
  { intros qs r. induction qs as [|q qs _] using rev_ind; [done|]. rewrite foldl_snoc. by apply Z.mod_pos_bound. }
  assert (0 ≤ poly_acc (poly_r key) m) as Hn by apply acc_range.
  rewrite (Z.mod_small (rfc_acc _ _)), Z.mod_small in Ha by (done || apply Hrange). done.
Qed.

(** The example of RFC 8439, section 2.5.2. *)
Definition rfc_key : list Z :=
  [0x85; 0xd6; 0xbe; 0x78; 0x57; 0x55; 0x6d; 0x33; 0x7f; 0x44; 0x52; 0xfe; 0x42; 0xd5; 0x06; 0xa8;
   0x01; 0x03; 0x80; 0x8a; 0xfb; 0x0d; 0xb2; 0xfd; 0x4a; 0xbf; 0xf6; 0xaf; 0x41; 0x49; 0xf5; 0x1b].
Definition rfc_msg : list Z :=
  [67; 114; 121; 112; 116; 111; 103; 114; 97; 112; 104; 105; 99; 32; 70; 111; 114; 117; 109; 32;
   82; 101; 115; 101; 97; 114; 99; 104; 32; 71; 114; 111; 117; 112].

Lemma owcrypt_poly1305_tag_witness :
  owcrypt_poly1305 (P1305 [] [] [] 0 0 (replicate 16 9) 3) rfc_key rfc_msg 34 (replicate 16 0) =
    Some (rfc_poly1305 rfc_key rfc_msg ++ []).
Proof.
  destruct (owcrypt_poly1305_tag (P1305 [] [] [] 0 0 (replicate 16 9) 3) rfc_key rfc_msg 34 (replicate 16 0))
    as [_ E].
  - repeat constructor; lia.
  - simpl. lia.
  - repeat constructor; lia.
  - simpl. lia.
  - done.
  - simpl. lia.
  - change (take (Z.to_nat 34) rfc_msg) with rfc_msg in E. apply E.
    + intros k q Hk. assert (k < 3)%nat as Hlt by (apply lookup_lt_Some in Hk; vm_compute in Hk; lia).
      destruct k as [|[|[|k]]]; [| | |lia]; vm_compute in Hk; apply (inj Some) in Hk; subst q; vm_compute; split; reflexivity.
    + vm_compute. reflexivity.
Defined.

(** The conditions matter: the code's final subtraction never happens
    and its last carry is dropped.  With [r = 2] and a block of 0xFF octets
    (test vector 7 of RFC 8439, A.3, tag 03 00...) the code writes FE FF...; with
    [r = 5] and two blocks whose sum reaches 2^130 - 1 it writes 15 instead of
    20. *)
Theorem owcrypt_poly1305_misses_reduction stack :
  length (p_block stack) = 16%nat →
  let run r msg := owcrypt_poly1305 stack (r :: replicate 31 0) msg (Z.of_nat (length msg)) (replicate 16 0) in
  let carry_msg := replicate 15 0 ++ [64; 250] ++ replicate 14 255 ++ [191] in
  run 2 (replicate 16 255) = Some (254 :: replicate 15 255) ∧
  rfc_poly1305 (2 :: replicate 31 0) (replicate 16 255) = 3 :: replicate 15 0 ∧
  run 5 carry_msg = Some (15 :: replicate 15 0) ∧
  rfc_poly1305 (5 :: replicate 31 0) carry_msg = 20 :: replicate 15 0.
Proof.
  intros Hb run carry_msg. destruct stack as [h r s p0 p1 blk bl]. cbn [p_block] in Hb.
  assert (∀ r (m : list Z) out, 0 ≤ r < 256 → octets m → le_bytes 16 (poly_acc (poly_r (r :: replicate 31 0)) m +
    poly_s (r :: replicate 31 0)) = out → run r m = Some out) as H.
  { intros r' m out Hr Hm <-. unfold run, owcrypt_poly1305.
    assert (octets (r' :: replicate 31 0)) as Hk by (constructor; [done|apply octets_zeros]).
    destruct (poly_init_spec (P1305 h r s p0 p1 blk bl) _ Hk ltac:(simpl; lia) Hb) as (c0 & -> & H0). rewrite obind_Some.
    destruct (poly_update_spec _ _ c0 [] m 0 (Z.of_nat (length m)) H0 Hm) as (c1 & -> & H1); [lia..|].
    rewrite obind_Some, (poly_final_spec _ _ _ _ _ H1) by (simpl; lia).
    change (Z.to_nat 0) with 0%nat. rewrite drop_0, Nat2Z.id, firstn_all. by rewrite app_nil_r. }
  split; [apply H; [lia|by apply Forall_replicate|vm_compute; reflexivity]|].
  split; [vm_compute; reflexivity|].
  split; [apply H; [lia|repeat constructor; lia|vm_compute; reflexivity]|vm_compute; reflexivity].
Qed.

Lemma owcrypt_poly1305_misses_reduction_witness :
  owcrypt_poly1305 (P1305 [] [] [] 0 0 (replicate 16 9) 3) (2 :: replicate 31 0) (replicate 16 255) 16
    (replicate 16 0) = Some (254 :: replicate 15 255) ∧
  rfc_poly1305 (2 :: replicate 31 0) (replicate 16 255) = 3 :: replicate 15 0.
Proof.
  destruct (owcrypt_poly1305_misses_reduction (P1305 [] [] [] 0 0 (replicate 16 9) 3)) as (E1 & E2 & _).
  - done.
  - split; [exact E1|exact E2].
Defined.
