(* ===== verification/OwcryptSeal.v ===== *)
(** * ChaCha20-Poly1305 and the security frames

    The cipher is the exclusive or with a key stream, whether it works from
    another array or in place; sealing and opening are inverse; a tag, a
    ciphertext or associated data whose authenticator does not match is
    refused with the output untouched; a sealed frame opens to its plaintext and associated data. *)
From S2P Require Import Prelude Owhash HashSpec HashSha2 Owcrypt OwcryptSha OwcryptAead OwcryptPoly.

(** ** The key stream *)

Lemma get32le_spec p (i : nat) :
  octets p → (i + 4 ≤ length p)%nat →
  owc_get32le p (Z.of_nat i) = Some (le (take 4 (drop i p))).
Proof. exact (rd_le32_spec p i). Qed.

Lemma put32le_stores p off v : owc_put32le p off v = stores p off (le_bytes 4 v).
Proof. exact (wr_le32_stores p off v). Qed.

(** RFC 8439, sections 2.1 to 2.3: the quarter round on four words of the
    state, the column rounds, the diagonal rounds and the block. *)
Definition quarter (x : list Z) (ia ib ic id : nat) : list Z :=
  let '(a, b, c, d) := (x !!! ia, x !!! ib, x !!! ic, x !!! id) in
  let a := (a + b) mod 2 ^ 32 in let d := owc_rotl32 (Z.lxor d a) 16 in
  let c := (c + d) mod 2 ^ 32 in let b := owc_rotl32 (Z.lxor b c) 12 in
  let a := (a + b) mod 2 ^ 32 in let d := owc_rotl32 (Z.lxor d a) 8 in
  let c := (c + d) mod 2 ^ 32 in let b := owc_rotl32 (Z.lxor b c) 7 in
  <[id := d]> (<[ic := c]> (<[ib := b]> (<[ia := a]> x))).

(** A quarter round on each column, the columns of diagonal round [k] taken
    with the rows shifted by [k], [2k] and [3k]. *)
Definition quarters (k : nat) (x : list Z) : list Z :=
  foldl (λ x i, quarter x i (4 + (i + k) mod 4)%nat (8 + (i + 2 * k) mod 4)%nat (12 + (i + 3 * k) mod 4)%nat)
    x (seq 0 4).
Definition inner_block (x : list Z) : list Z := quarters 1 (quarters 0 x).

Definition le_words (n : nat) (l : list Z) : list Z := (λ i, le (take 4 (drop (4 * i) l))) <$> seq 0 n.
Definition chacha_state (key nonce : list Z) (counter : Z) : list Z :=
  [0x61707865; 0x3320646e; 0x79622d32; 0x6b206574] ++ le_words 8 key ++ [counter] ++ le_words 3 nonce.
Definition ks_block (key nonce : list Z) (counter : Z) : list Z :=
  let s := chacha_state key nonce counter in
  mjoin (le_bytes 4 <$> zip_with (λ a b, (a + b) mod 2 ^ 32) (Nat.iter 10 inner_block s) s).

Lemma quarter_length x a b c d : length (quarter x a b c d) = length x.
Proof. unfold quarter. by rewrite !length_insert. Qed.

Lemma qr_quarter x (a b c d : nat) :
  (a < length x)%nat → (b < length x)%nat → (c < length x)%nat → (d < length x)%nat →
  owc_qr x (Z.of_nat a) (Z.of_nat b) (Z.of_nat c) (Z.of_nat d) = Some (quarter x a b c d).
Proof.
  intros Ha Hb Hc Hd. unfold owc_qr.
  assert (∀ i : nat, (i < length x)%nat → aget x (Z.of_nat i) = Some (x !!! i)) as Hg.
  { intros i Hi. rewrite aget_of_nat. by apply list_lookup_lookup_total_lt. }
  rewrite !Hg, !obind_Some by done.
  do 3 (rewrite aset_in, obind_Some by (rewrite ?length_insert; lia)).
  rewrite aset_in by (rewrite ?length_insert; lia). by rewrite !Nat2Z.id.
Qed.

#[local] Opaque quarter owc_qr.
Lemma double_round_spec x :
  length x = 16%nat → owc_double_round x = Some (inner_block x) ∧ length (inner_block x) = 16%nat.
Proof.
  intros Hl. split; [|unfold inner_block, quarters; cbn [seq foldl]; by rewrite !quarter_length].
  unfold owc_double_round.
  do 7 (match goal with |- (owc_qr ?x ?a ?b ?c ?d ≫= _) = _ =>
          etransitivity; [apply (f_equal (λ y, y ≫= _)),
            (qr_quarter x (Z.to_nat a) (Z.to_nat b) (Z.to_nat c) (Z.to_nat d));
            rewrite ?quarter_length, Hl; simpl; lia|] end; rewrite obind_Some).
  match goal with |- owc_qr ?x _ _ _ _ = _ => transitivity (Some (quarter x 3 4 9 14)); [apply (qr_quarter x 3 4 9 14)|reflexivity] end;
    rewrite !quarter_length, Hl; lia.
Qed.

Lemma double_rounds n x i :
  length x = 16%nat →
  for_up n i (λ _ x, owc_double_round x) x = Some (Nat.iter n inner_block x) ∧
  length (Nat.iter n inner_block x) = 16%nat.
Proof.
  revert x i. induction n as [|n IH]; intros x i Hl; [done|].
  destruct (double_round_spec x Hl) as [E H1]. rewrite Nat.iter_succ_r.
  destruct (IH (inner_block x) (i + 1) H1) as [E' H']. split; [|done].
  cbn [for_up]. by rewrite E.
Qed.

(** A loop of stores at consecutive indices. *)
Lemma fill_loop (n : nat) (body : Z → list Z → option (list Z)) (f : nat → Z) (p t q : list Z) :
  (∀ (i : nat) s, (i < n)%nat → take (length p) s = p →
     body (Z.of_nat i) s = aset s (Z.of_nat (length p + i)) (f i)) →
  length t = n → for_up n 0 body (p ++ t ++ q) = Some (p ++ (f <$> seq 0 n) ++ q).
Proof.
  intros Hb Ht.
  destruct (for_up_inv (λ j s, ∃ k : nat, j = Z.of_nat k ∧ s = p ++ (f <$> seq 0 k) ++ drop k t ++ q)
    n 0 body (p ++ t ++ q)) as (s & -> & k & Hk & ->).
  - by exists 0%nat.
  - intros j s Hj (k & -> & ->). rewrite Hb by (lia || by rewrite take_app_length).
    destruct (lookup_lt_is_Some_2 t k) as [y Hy]; [lia|]. rewrite (drop_lookup_cons _ _ _ Hy).
    rewrite app_assoc. cbn [app].
    replace (length p + k)%nat with (length (p ++ (f <$> seq 0 k))) by (rewrite length_app, length_fmap, length_seq; lia).
    rewrite aset_app_here. eexists. split; [done|]. exists (S k). split; [lia|].
    rewrite seq_S, fmap_app. cbn [fmap list_fmap Nat.add]. by rewrite <-!app_assoc.
  - replace k with n by lia. by rewrite drop_ge, app_nil_l by lia.
Qed.

Lemma seq_lookup_total (s : list Z) : (λ i, s !!! i) <$> seq 0 (length s) = s.
Proof.
  induction s as [|x s IH]; [done|]. cbn [length seq fmap list_fmap]. f_equal.
  rewrite <-fmap_S_seq, <-list_fmap_compose. exact IH.
Qed.

Definition chacha_args (key nonce : list Z) : Prop :=
  octets key ∧ (32 ≤ length key)%nat ∧ octets nonce ∧ (12 ≤ length nonce)%nat.

Lemma ks_block_props key nonce counter :
  length (ks_block key nonce counter) = 64%nat ∧ octets (ks_block key nonce counter).
Proof.
  unfold ks_block. set (s := chacha_state _ _ _). assert (length s = 16%nat) as Hs by done.
  destruct (double_rounds 10 s 0 Hs) as [_ Hx]. set (st := zip_with _ _ _).
  assert (length st = 16%nat) as Hst by (unfold st; rewrite length_zip_with; lia).
  destruct (digest_words 4 (le_bytes 4) st) as [Hw1 Hw2].
  { intros v. split; [apply le_bytes_length|apply le_bytes_octets]. }
  rewrite Hst in Hw1. split; [exact Hw1|exact Hw2].
Qed.

(** The block function is the one of RFC 8439. *)
Lemma chacha_block_spec key nonce counter out :
  chacha_args key nonce → (64 ≤ length out)%nat →
  owc_chacha_block key nonce counter out = Some (ks_block key nonce counter ++ drop 64 out).
Proof.
  intros (Hk & Hkl & Hn & Hnl) Ho. unfold owc_chacha_block.
  change (aset (replicate 16 0) 0 0x61707865) with (Some (0x61707865 :: replicate 15 0)). rewrite obind_Some.
  change (aset (0x61707865 :: replicate 15 0) 1 0x3320646e) with
    (Some (0x61707865 :: 0x3320646e :: replicate 14 0)). rewrite obind_Some.
  change (aset _ 2 0x79622d32) with (Some (0x61707865 :: 0x3320646e :: 0x79622d32 :: replicate 13 0)).
  rewrite obind_Some. set (sigma := [0x61707865; 0x3320646e; 0x79622d32; 0x6b206574]).
  change (aset _ 3 0x6b206574) with (Some (sigma ++ replicate 8 0 ++ replicate 4 0)). rewrite obind_Some.
  rewrite (fill_loop 8 _ (λ i, le (take 4 (drop (4 * i) key)))); [|intros i s Hi _|done].
  2:{ replace (4 * Z.of_nat i) with (Z.of_nat (4 * i)) by lia. rewrite get32le_spec, obind_Some by (done || lia).
      f_equal. simpl. lia. }
  rewrite obind_Some. fold (le_words 8 key). set (kw := le_words 8 key).
  change (aset (sigma ++ kw ++ replicate 4 0) 12 counter) with (Some ((sigma ++ kw ++ [counter]) ++ replicate 3 0 ++ [])).
  rewrite obind_Some.
  rewrite (fill_loop 3 _ (λ i, le (take 4 (drop (4 * i) nonce)))); [|intros i s Hi _|done].
  2:{ replace (4 * Z.of_nat i) with (Z.of_nat (4 * i)) by lia. rewrite get32le_spec, obind_Some by (done || lia).
      f_equal. simpl. lia. }
  rewrite obind_Some, app_nil_r. fold (le_words 3 nonce).
  replace ((sigma ++ kw ++ [counter]) ++ le_words 3 nonce) with (chacha_state key nonce counter) by done.
  unfold ks_block. set (s := chacha_state key nonce counter). assert (length s = 16%nat) as Ls by done. clearbody s.
  rewrite (load_loop 16 _ (λ i, s !!! i)); [|intros i w Hi|simpl; lia].
  2:{ rewrite aget_of_nat, list_lookup_lookup_total_lt by lia. done. }
  rewrite obind_Some, (drop_ge (replicate 16 0)), app_nil_r by (simpl; lia).
  rewrite <-Ls, seq_lookup_total, Ls.
  destruct (double_rounds 10 s 0 Ls) as [E Lx]. rewrite E, obind_Some. set (x := Nat.iter 10 inner_block s) in *.
  set (st := zip_with _ x s). assert (length st = 16%nat) as Lst by (unfold st; rewrite length_zip_with; lia).
  rewrite (for_up_ext _ _ _ (λ i o, v ← aget st i; owc_put32le o (4 * i) v)).
  - rewrite <-Lst at 1. rewrite (wr_words 4 (λ o i v, owc_put32le o (4 * i) v) (le_bytes 4)).
    + by rewrite Lst.
    + intros p t q k v Hp Ht. rewrite put32le_stores. apply stores_spec; [by rewrite le_bytes_length|lia].
    + intros v. apply le_bytes_length.
    + lia.
  - intros j o Hj. replace j with (Z.of_nat (Z.to_nat j)) by lia.
    rewrite !aget_of_nat. unfold st. rewrite lookup_zip_with.
    destruct (lookup_lt_is_Some_2 x (Z.to_nat j)) as [a ->]; [lia|].
    destruct (lookup_lt_is_Some_2 s (Z.to_nat j)) as [b ->]; [lia|]. done.
Qed.

#[local] Opaque ks_block.

(** ** The cipher *)

(** Exclusive or with successive key stream blocks, the counter in 32 bits. *)
Fixpoint crypt_blocks (fuel : nat) (key nonce : list Z) (counter : Z) (data : list Z) : list Z :=
  match fuel with
  | O => []
  | S fuel => zip_with Z.lxor (take 64 data) (ks_block key nonce counter) ++
              crypt_blocks fuel key nonce (u32 (counter + 1)) (drop 64 data)
  end.
Definition crypt (key nonce : list Z) (counter : Z) (data : list Z) : list Z :=
  crypt_blocks (length data) key nonce counter data.

Section cipher.
Context (key nonce : list Z) (Hargs : chacha_args key nonce).

Lemma ks_block_spec counter :
  owc_chacha_block key nonce counter (replicate 64 0) = Some (ks_block key nonce counter) ∧
  length (ks_block key nonce counter) = 64%nat ∧ octets (ks_block key nonce counter).
Proof.
  rewrite chacha_block_spec by (done || (simpl; lia)).
  rewrite (drop_ge (replicate 64 0)), app_nil_r by (simpl; lia). split; [done|apply ks_block_props].
Qed.

Lemma crypt_nil fuel counter : crypt_blocks fuel key nonce counter [] = [].
Proof. revert counter. induction fuel as [|fuel IH]; intros counter; [done|]. cbn [crypt_blocks]. by rewrite take_nil, drop_nil, IH. Qed.

Lemma crypt_blocks_length fuel counter data :
  (length data ≤ fuel)%nat → length (crypt_blocks fuel key nonce counter data) = length data.
Proof.
  revert counter data. induction fuel as [|fuel IH]; intros counter data Hf; [simpl in *; lia|].
  destruct data as [|b data']; [by rewrite crypt_nil|]. set (data := b :: data') in *.
  cbn [crypt_blocks]. destruct (ks_block_spec counter) as (_ & Hl & _).
  rewrite length_app, length_zip_with, length_take, IH by (rewrite length_drop; simpl in *; lia).
  rewrite length_drop. lia.
Qed.

Lemma crypt_length counter data : length (crypt key nonce counter data) = length data.
Proof. by apply crypt_blocks_length. Qed.

Lemma zip_lxor_twice (l k : list Z) :
  (length l ≤ length k)%nat → zip_with Z.lxor (zip_with Z.lxor l k) k = l.
Proof.
  revert k. induction l as [|x l IH]; intros [|y k] H; simpl in *; try done; [lia|].
  rewrite Z.lxor_assoc, Z.lxor_nilpotent, Z.lxor_0_r. f_equal. apply IH. lia.
Qed.

Lemma zip_lxor_octets (l k : list Z) : octets l → octets k → octets (zip_with Z.lxor l k).
Proof.
  intros Hl. revert k. induction Hl as [|x l Hx Hl IH]; intros [|y k] Hk; try constructor.
  - apply Forall_cons in Hk as [Hy _]. by apply octet_xor.
  - apply Forall_cons in Hk as [_ Hk]. by apply IH.
Qed.

Lemma crypt_octets counter data : octets data → octets (crypt key nonce counter data).
Proof.
  unfold crypt. generalize (length data) as fuel. intros fuel. revert counter data.
  induction fuel as [|fuel IH]; intros counter data Hd; [constructor|]. cbn [crypt_blocks].
  apply octets_app. split; [|by apply IH, Forall_drop].
  apply zip_lxor_octets; [by apply Forall_take|]. apply ks_block_spec.
Qed.

Lemma crypt_twice counter data : crypt key nonce counter (crypt key nonce counter data) = data.
Proof.
  unfold crypt at 1. rewrite crypt_length. unfold crypt.
  assert (length data ≤ length data)%nat as Hf by lia. revert Hf. generalize (length data) at 2 3 4 as fuel.
  intros fuel. revert counter data.
  induction fuel as [|fuel IH]; intros counter data Hf.
  { destruct data; [done|simpl in Hf; lia]. }
  destruct data as [|b data']; [by rewrite !crypt_nil|]. set (data := b :: data') in *.
  cbn [crypt_blocks]. destruct (ks_block_spec counter) as (_ & Hl & _).
  set (z := zip_with Z.lxor (take 64 data) (ks_block key nonce counter)).
  assert (length z = Nat.min 64 (length data)) as Hz by (unfold z; rewrite length_zip_with, length_take; lia).
  destruct (decide (length data ≤ 64)%nat) as [Hs|Hs].
  - rewrite (drop_ge data), crypt_nil, app_nil_r by lia.
    rewrite (take_ge z), (drop_ge z), crypt_nil, app_nil_r by lia.
    unfold z. rewrite (take_ge data) by lia. apply zip_lxor_twice. lia.
  - rewrite take_app_length', drop_app_length', IH by (rewrite ?length_drop; lia).
    unfold z. rewrite zip_lxor_twice by (rewrite length_take; lia). apply take_drop.
Qed.

(** [D] is what the cipher will read from [off] on. *)
Definition reads (inp : in_ptr) (D out : list Z) (ooff : Z) (off : nat) : Prop :=
  match inp with
  | InNull => D = replicate (length D) 0
  | InArray l ioff => 0 ≤ ioff ≤ Z.of_nat (length l) ∧ take (length D) (drop (Z.to_nat ioff) l) = D
  | InPlace ioff => ioff = ooff ∧ take (length D - off) (drop (Z.to_nat ooff + off) out) = drop off D
  end.

(** One block over the octets [off] to [off + n]. *)
Lemma xor_block_spec ks inp D out ooff (off n : nat) :
  reads inp D out ooff off → (n ≤ length ks)%nat → (off + n ≤ length D)%nat → 0 ≤ ooff →
  (Z.to_nat ooff + length D ≤ length out)%nat →
  owc_xor_block ks inp out ooff (Z.of_nat off) (Z.of_nat n) =
    Some (take (Z.to_nat ooff + off) out ++ zip_with Z.lxor (take n (drop off D)) ks ++
          drop (Z.to_nat ooff + off + n) out).
Proof.
  intros HD Hks Hn Hoo Hout. unfold owc_xor_block. rewrite Nat2Z.id.
  set (O := (Z.to_nat ooff + off)%nat).
  match goal with |- for_up n 0 ?b out = _ =>
    destruct (for_up_inv (λ j o, ∃ k : nat, j = Z.of_nat k ∧
      o = take O out ++ zip_with Z.lxor (take k (drop off D)) ks ++ drop (O + k) out) n 0 b out)
      as (o & -> & k & Hk & ->) end.
  - exists 0%nat. split; [done|]. rewrite take_0. cbn [zip_with app]. by rewrite Nat.add_0_r, take_drop.
  - intros j o Hj (k & -> & ->).
    destruct (lookup_lt_is_Some_2 ks k) as [y Hy]; [lia|].
    destruct (lookup_lt_is_Some_2 D (off + k)) as [x Hx]; [lia|].
    destruct (lookup_lt_is_Some_2 out (O + k)) as [w Hw]; [unfold O; lia|].
    set (pre := take O out ++ zip_with Z.lxor (take k (drop off D)) ks).
    assert (length pre = (O + k)%nat) as Hpre.
    { unfold pre. rewrite length_app, length_zip_with, !length_take, length_drop. unfold O. lia. }
    rewrite (app_assoc (take O out)). fold pre. rewrite (drop_lookup_cons _ _ _ Hw).
    rewrite aget_of_nat, Hy, obind_Some.
    replace (ooff + (Z.of_nat off + Z.of_nat k)) with (Z.of_nat (length pre)) by (rewrite Hpre; unfold O; lia).
    assert (pre ++ Z.lxor x y :: drop (S (O + k)) out =
      take O out ++ zip_with Z.lxor (take (S k) (drop off D)) ks ++ drop (O + S k) out) as Hnext.
    { unfold pre. rewrite (take_S_r (drop off D) k x) by by rewrite lookup_drop.
      rewrite (zip_with_app_l Z.lxor (take k _)), length_take, length_drop, Nat.min_l by lia.
      rewrite zip_with_take_r' by (rewrite length_take; lia).
      rewrite (drop_lookup_cons _ _ _ Hy). cbn [zip_with]. rewrite <-!app_assoc, Nat.add_succ_r. done. }
    assert (inp = InNull ∧ x = 0 ∨ in_get inp (pre ++ w :: drop (S (O + k)) out) (Z.of_nat off + Z.of_nat k) = Some x ∧ inp ≠ InNull)
      as [[-> ->]|[Eg Hnn]].
    { destruct inp as [|l ioff|ioff]; cbn [reads in_get] in *.
      - left. split; [done|]. rewrite HD in Hx. by apply lookup_replicate in Hx as [<- _].
      - right. split; [|done]. destruct HD as [Hio HD]. rewrite aget_to_nat by lia.
        rewrite <-HD in Hx. apply lookup_take_Some in Hx as [Hx _]. rewrite lookup_drop in Hx. rewrite <-Hx. f_equal. lia.
      - right. split; [|done]. destruct HD as [-> HD].
        replace (ooff + (Z.of_nat off + Z.of_nat k)) with (Z.of_nat (length pre)) by (rewrite Hpre; unfold O; lia).
        rewrite aget_app_here. rewrite <-Hw. assert (drop off D !! k = Some x) as Hx' by by rewrite lookup_drop.
        rewrite <-HD in Hx'. apply lookup_take_Some in Hx' as [Hx' _]. rewrite lookup_drop in Hx'. exact Hx'. }
    + rewrite aset_app_here. rewrite Z.lxor_0_l in Hnext. rewrite Hnext.
      eexists. split; [done|]. exists (S k). split; [lia|done].
    + destruct inp as [|l ioff|ioff]; [done|..]; rewrite Eg, obind_Some, aset_app_here, Hnext;
        (eexists; split; [done|]; exists (S k); split; [lia|done]).
  - by replace k with n by lia.
Qed.

(** The whole stream. *)
Lemma xor_loop_spec fuel inp D out ooff (off : nat) counter :
  reads inp D out ooff off → 0 ≤ ooff → (Z.to_nat ooff + length D ≤ length out)%nat →
  (off ≤ length D ≤ off + fuel)%nat →
  owc_xor_loop fuel key nonce counter inp (Z.of_nat (length D)) out ooff (Z.of_nat off) =
    Some (take (Z.to_nat ooff + off) out ++ crypt_blocks fuel key nonce counter (drop off D) ++
          drop (Z.to_nat ooff + length D) out).
Proof.
  intros HD Hoo. revert out off counter HD. induction fuel as [|fuel IH]; intros out off counter HD Hout Hoff.
  { cbn [owc_xor_loop crypt_blocks]. rewrite (proj2 (Z.leb_le _ _)) by lia.
    replace (length D) with off by lia. by rewrite app_nil_l, take_drop. }
  cbn [owc_xor_loop]. destruct (Z.leb_spec (Z.of_nat (length D)) (Z.of_nat off)) as [Hle|Hgt].
  { rewrite (drop_ge D) by lia. rewrite crypt_nil. replace (length D) with off by lia. by rewrite app_nil_l, take_drop. }
  destruct (ks_block_spec counter) as (Eks & Hks & _). rewrite Eks, obind_Some.
  set (n := Nat.min 64 (length D - off)).
  assert ((if 64 <? Z.of_nat (length D) - Z.of_nat off then 64 else Z.of_nat (length D) - Z.of_nat off) = Z.of_nat n)
    as -> by (unfold n; case_if; lia).
  rewrite (xor_block_spec _ inp D out ooff off n) by first [exact HD|unfold n; lia]. rewrite obind_Some.
  set (z := zip_with Z.lxor (take n (drop off D)) (ks_block key nonce counter)).
  set (O := (Z.to_nat ooff + off)%nat).
  assert (length z = n) as Hz by (unfold z; rewrite length_zip_with, length_take, length_drop; lia).
  rewrite <-Nat2Z.inj_add. rewrite IH.
  - assert (length (take O out) = O) as HO by (rewrite length_take; unfold O; lia).
    replace (take (Z.to_nat ooff + (off + n)) (take O out ++ z ++ drop (O + n) out)) with (take O out ++ z).
    2:{ rewrite app_assoc, take_app_length'; [done|]. rewrite length_app. unfold O in *. lia. }
    replace (drop (Z.to_nat ooff + length D) (take O out ++ z ++ drop (O + n) out)) with
      (drop (Z.to_nat ooff + length D) out).
    2:{ rewrite app_assoc, drop_app_ge by (rewrite length_app; unfold O in *; lia).
        rewrite drop_drop, length_app. f_equal. unfold O in *. lia. }
    cbn [crypt_blocks]. rewrite <-!app_assoc. do 3 f_equal.
    + unfold z, n. f_equal. destruct (decide (64 ≤ length D - off)%nat).
      * by rewrite Nat.min_l.
      * by rewrite !(take_ge (drop off D)) by (rewrite length_drop; lia).
    + f_equal. destruct (decide (64 ≤ length D - off)%nat).
      * rewrite drop_drop. do 2 f_equal. unfold n. lia.
      * rewrite (drop_ge (drop off D)), (drop_ge D), !crypt_nil by (rewrite ?length_drop; unfold n; lia). done.
  - destruct inp as [|l ioff|ioff]; [done|done|]. destruct HD as [-> HD]. split; [done|].
    rewrite app_assoc, drop_app_ge by (rewrite length_app, length_take; unfold O; lia).
    rewrite drop_drop, length_app, length_take, Hz.
    replace (O + n + (Z.to_nat ooff + (off + n) - (O `min` length out + n)))%nat with (Z.to_nat ooff + off + n)%nat by (unfold O; lia).
    rewrite <-drop_drop, <-(drop_drop D), <-HD, skipn_firstn_comm. f_equal. lia.
  - rewrite !length_app, length_take, length_drop. unfold O. lia.
  - unfold n. lia.
Qed.
End cipher.

(** The octets [l] stored at [off]. *)
Definition put_at (out : list Z) (off : Z) (l : list Z) : list Z :=
  take (Z.to_nat off) out ++ l ++ drop (Z.to_nat off + length l) out.

Lemma put_at_length out off l :
  0 ≤ off → (Z.to_nat off + length l ≤ length out)%nat → length (put_at out off l) = length out.
Proof. intros. unfold put_at. rewrite !length_app, length_take, length_drop. lia. Qed.

Lemma put_at_octets out off l : octets out → octets l → octets (put_at out off l).
Proof.
  intros Ho Hl. unfold put_at. apply octets_app. split; [by apply Forall_take|].
  apply octets_app. split; [done|by apply Forall_drop].
Qed.

Lemma put_at_read out off l :
  0 ≤ off → (Z.to_nat off + length l ≤ length out)%nat →
  take (length l) (drop (Z.to_nat off) (put_at out off l)) = l.
Proof.
  intros. unfold put_at. rewrite drop_app_length' by (rewrite length_take; lia). by apply take_app_length'.
Qed.

Lemma put_at_twice out off l k :
  0 ≤ off → (Z.to_nat off + length l ≤ length out)%nat → length l = length k →
  put_at (put_at out off l) off k = put_at out off k.
Proof.
  intros Ho Hl E. unfold put_at. rewrite take_app_length' by (rewrite length_take; lia).
  rewrite <-E. do 2 f_equal. rewrite app_assoc, drop_app_length'; [done|]. rewrite length_app, length_take. lia.
Qed.

Lemma chacha20_spec key nonce counter inp D out ooff :
  chacha_args key nonce → reads inp D out ooff 0 → 0 ≤ ooff → (Z.to_nat ooff + length D ≤ length out)%nat →
  owcrypt_chacha20_xor key nonce counter inp (Z.of_nat (length D)) out ooff =
    Some (put_at out ooff (crypt key nonce counter D)).
Proof.
  intros Ha HD Ho Hl. unfold owcrypt_chacha20_xor, put_at. rewrite Nat2Z.id.
  change 0 with (Z.of_nat 0). rewrite (xor_loop_spec key nonce Ha _ inp D out ooff 0) by first [exact HD|lia].
  rewrite Nat.add_0_r, drop_0. by rewrite crypt_length.
Qed.

(** ** The authenticator *)

Definition pad16 (l : list Z) : list Z := replicate ((16 - length l mod 16) mod 16) 0.
Definition mac_data (aad ct : list Z) : list Z :=
  aad ++ pad16 aad ++ ct ++ pad16 ct ++
  le_bytes 8 (Z.of_nat (length aad)) ++ le_bytes 8 (Z.of_nat (length ct)).
Definition aead_tag (key nonce aad ct : list Z) : list Z :=
  let polykey := ks_block key nonce 0 in
  le_bytes 16 (poly_acc (poly_r polykey) (mac_data aad ct) + poly_s polykey).

Lemma aead_tag_length key nonce aad ct : length (aead_tag key nonce aad ct) = 16%nat.
Proof. apply le_bytes_length. Qed.

Lemma pad16_len n : 0 ≤ n → Z.to_nat ((16 - n mod 16) mod 16) = ((16 - Z.to_nat n mod 16) mod 16)%nat.
Proof.
  intros. apply Nat2Z.inj. pose proof (Z.mod_pos_bound n 16 eq_refl).
  rewrite Z2Nat.id by (apply Z.mod_pos_bound; lia). pose proof (Nat.mod_upper_bound (Z.to_nat n) 16 ltac:(lia)).
  rewrite Nat2Z.inj_mod, Nat2Z.inj_sub, Nat2Z.inj_mod, Z2Nat.id by lia. done.
Qed.

Lemma zeros_prefix n : (n ≤ 16)%nat → take n (drop (Z.to_nat 0) (replicate 16 0)) = replicate n 0.
Proof. intros. change (Z.to_nat 0) with 0%nat. rewrite drop_0, take_replicate. f_equal. lia. Qed.

Lemma aead_mac_spec stack key nonce aad aadlen ct coff clen mac :
  chacha_args key nonce → octets (default [] aad) → octets ct → length (p_block stack) = 16%nat →
  0 ≤ aadlen ≤ Z.of_nat (length (default [] aad)) →
  0 ≤ coff → 0 ≤ clen → coff + clen ≤ Z.of_nat (length ct) → (16 ≤ length mac)%nat →
  owc_aead_mac stack key nonce aad aadlen ct coff clen mac =
    Some (aead_tag key nonce (take (Z.to_nat aadlen) (default [] aad))
            (take (Z.to_nat clen) (drop (Z.to_nat coff) ct)) ++ drop 16 mac).
Proof.
  intros Ha Hao Hco Hst Hal Hcf Hcl Hin Hm. unfold owc_aead_mac, aead_tag.
  destruct (ks_block_spec key nonce Ha 0) as (-> & Hl & Ho). rewrite obind_Some.
  set (pk := ks_block key nonce 0) in *. clearbody pk.
  set (A := take (Z.to_nat aadlen) (default [] aad)). set (C := take (Z.to_nat clen) (drop (Z.to_nat coff) ct)).
  assert (length A = Z.to_nat aadlen) as HA by (unfold A; rewrite length_take; lia).
  assert (length C = Z.to_nat clen) as HC by (unfold C; rewrite length_take, length_drop; lia).
  destruct (poly_init_spec stack pk Ho ltac:(lia) Hst) as (c & -> & H). rewrite obind_Some.
  assert (octets (replicate 16 0)) as Hz by apply octets_zeros.
  pose proof (Z.mod_pos_bound (16 - aadlen mod 16) 16 eq_refl) as Hpa.
  pose proof (Z.mod_pos_bound (16 - clen mod 16) 16 eq_refl) as Hpc.
  edestruct (poly_update_spec _ _ c _ (default [] aad) 0 aadlen H) as (c1 & -> & H1); [done|lia..|].
  rewrite obind_Some. cbn [Z.to_nat drop] in H1. fold A in H1.
  edestruct (poly_update_spec _ _ c1 _ (replicate 16 0) 0 ((16 - aadlen mod 16) mod 16) H1) as (c2 & -> & H2);
    [done|lia|lia|rewrite length_replicate; lia|]. rewrite obind_Some.
  rewrite zeros_prefix in H2 by lia. rewrite pad16_len, <-HA in H2 by lia. fold (pad16 A) in H2.
  edestruct (poly_update_spec _ _ c2 _ ct coff clen H2) as (c3 & -> & H3); [done|lia..|]. rewrite obind_Some. fold C in H3.
  edestruct (poly_update_spec _ _ c3 _ (replicate 16 0) 0 ((16 - clen mod 16) mod 16) H3) as (c4 & -> & H4);
    [done|lia|lia|rewrite length_replicate; lia|]. rewrite obind_Some.
  rewrite zeros_prefix in H4 by lia. rewrite pad16_len, <-HC in H4 by lia. fold (pad16 C) in H4.
  rewrite put64le_stores. change (replicate 16 0) with (replicate 8 0 ++ replicate 8 0) at 1.
  rewrite stores_front, obind_Some by (by rewrite le_bytes_length).
  rewrite put64le_stores, <-(app_nil_r (replicate 8 0)).
  rewrite (stores_spec _ (le_bytes 8 aadlen) (replicate 8 0) []) by (rewrite ?le_bytes_length; done).
  rewrite obind_Some, app_nil_r.
  edestruct (poly_update_spec _ _ c4 _ (le_bytes 8 aadlen ++ le_bytes 8 clen) 0 16 H4) as (c5 & -> & H5).
  { apply octets_app. split; apply le_bytes_octets. }
  { lia. } { lia. } { rewrite length_app, !le_bytes_length. lia. }
  rewrite obind_Some. change (drop (Z.to_nat 0) ?l) with l in H5. rewrite (take_ge (le_bytes 8 _ ++ _)) in H5 by (rewrite length_app, !le_bytes_length; lia).
  rewrite (poly_final_spec _ _ c5 _ mac H5) by done.
  do 5 f_equal. unfold mac_data. rewrite HA, HC, !Z2Nat.id by lia. by rewrite <-!app_assoc.
Qed.

Lemma ct_memcmp_spec (x y : list Z) (n : nat) :
  octets x → octets y → (n ≤ length x)%nat → (n ≤ length y)%nat →
  owcrypt_ct_memcmp (Some x) (Some y) (Z.of_nat n) = Some (bool_decide (take n x = take n y)).
Proof.
  intros Hx Hy Hlx Hly. unfold owcrypt_ct_memcmp. rewrite Nat2Z.id.
  match goal with |- (for_up n 0 ?b 0 ≫= _) = _ =>
    destruct (for_up_inv (λ j d, ∃ k : nat, j = Z.of_nat k ∧ 0 ≤ d ∧ (d = 0 ↔ take k x = take k y)) n 0 b 0)
      as (d & -> & k & Hk & Hd & E) end.
  - by exists 0%nat.
  - intros j d Hj (k & -> & Hd & E).
    destruct (lookup_lt_is_Some_2 x k) as [a Ha]; [lia|]. destruct (lookup_lt_is_Some_2 y k) as [b Hb]; [lia|].
    rewrite !aget_of_nat, Ha, Hb, !obind_Some. eexists. split; [done|]. exists (S k). split; [lia|].
    pose proof (octet_xor a b (Forall_lookup_1 _ x k a Hx Ha) (Forall_lookup_1 _ y k b Hy Hb)) as Hab.
    rewrite u8_small by exact Hab. rewrite (take_S_r x k a Ha), (take_S_r y k b Hb). split.
    { apply Z.lor_nonneg. split; [done|]. by destruct Hab. }
    rewrite Z.lor_eq_0_iff, Z.lxor_eq_0_iff, E. split; [by intros [-> ->]|]. intros Et. by apply app_inj_tail in Et.
  - rewrite obind_Some. f_equal. replace k with n in E by lia.
    destruct (Z.eqb_spec d 0) as [H0|H0]; symmetry; [apply bool_decide_eq_true|apply bool_decide_eq_false]; tauto.
Qed.

(** ** Sealing and opening *)

(** The array that holds the ciphertext, when it is not the output. *)
Definition in_octets (inp : in_ptr) : Prop := match inp with InArray l _ => octets l | _ => True end.

Lemma reads_array inp D out ooff :
  inp ≠ InNull → reads inp D out ooff 0 → in_octets inp → octets out → 0 ≤ ooff →
  (Z.to_nat ooff + length D ≤ length out)%nat →
  ∃ l off, in_array inp out = (l, off) ∧ octets l ∧ 0 ≤ off ∧
    off + Z.of_nat (length D) ≤ Z.of_nat (length l) ∧ take (length D) (drop (Z.to_nat off) l) = D.
Proof.
  intros Hn HD Hi Ho Hoo Hl. destruct inp as [|l off|off]; [done|..]; cbn [reads in_array in_octets] in *.
  - destruct HD as [Hoff HD]. exists l, off. do 3 (split; [done || lia|]). split; [|done].
    apply (f_equal length) in HD. rewrite length_take, length_drop in HD. lia.
  - destruct HD as [-> HD]. exists out, ooff. rewrite Nat.sub_0_r, Nat.add_0_r, drop_0 in HD.
    repeat split; first [done|lia].
Qed.

Section aead.
Context (key nonce : list Z) (aad : ptr (list Z)) (aadlen : Z) (stack : owc_p1305_t).
Context (Hargs : chacha_args key nonce) (Haad : octets (default [] aad))
        (Hlen : 0 ≤ aadlen ≤ Z.of_nat (length (default [] aad)))
        (Hstack : length (p_block stack) = 16%nat).
Notation A := (take (Z.to_nat aadlen) (default [] aad)).

Lemma put_at_nil out off : put_at out off [] = out.
Proof. unfold put_at. by rewrite app_nil_l, Nat.add_0_r, take_drop. Qed.

Lemma seal_spec plain D out ooff tag :
  plain ≠ InNull → reads plain D out ooff 0 → octets D → octets out → 0 ≤ ooff →
  (Z.to_nat ooff + length D ≤ length out)%nat → (16 ≤ length tag)%nat →
  owcrypt_chacha_poly_seal true stack (Some key) (Some nonce) aad aadlen plain (Z.of_nat (length D))
    (Some out) ooff (Some tag) =
  Some (OWCRYPT_OK, Some (put_at out ooff (crypt key nonce 1 D)),
        Some (aead_tag key nonce A (crypt key nonce 1 D) ++ drop 16 tag)).
Proof.
  intros Hn HD HDo Ho Hoo Hl Ht. unfold owcrypt_chacha_poly_seal. cbn [negb].
  assert (is_in_null plain = false) as -> by by destruct plain. rewrite andb_false_r.
  rewrite (chacha20_spec key nonce 1 plain D out ooff Hargs HD Hoo Hl), obind_Some.
  set (C := crypt key nonce 1 D). assert (length C = length D) as HC by apply crypt_length, Hargs.
  rewrite aead_mac_spec, obind_Some; try first [assumption|lia].
  - rewrite Nat2Z.id. rewrite <-HC at 1. by rewrite put_at_read by lia.
  - apply put_at_octets; [done|]. by apply crypt_octets.
  - rewrite put_at_length; lia.
Qed.

Lemma open_spec cipher C out ooff t :
  cipher ≠ InNull → reads cipher C out ooff 0 → in_octets cipher → octets out → 0 ≤ ooff →
  (Z.to_nat ooff + length C ≤ length out)%nat → octets t → (16 ≤ length t)%nat →
  owcrypt_chacha_poly_open true stack (Some key) (Some nonce) aad aadlen cipher (Z.of_nat (length C))
    (Some t) (Some out) ooff =
  Some (if decide (take 16 t = aead_tag key nonce A C)
        then (OWCRYPT_OK, Some (put_at out ooff (crypt key nonce 1 C)))
        else (OWCRYPT_BAN_AUTH_FAIL, Some out)).
Proof.
  intros Hn HC Hi Ho Hoo Hl Hto Ht. unfold owcrypt_chacha_poly_open. cbn [negb].
  assert (is_in_null cipher = false) as -> by by destruct cipher. rewrite andb_false_r.
  destruct (reads_array cipher C out ooff Hn HC Hi Ho Hoo Hl) as (l & off & E & Hlo & Hoff & Hin & HCl).
  change (default [] (Some out)) with out. rewrite E.
  rewrite aead_mac_spec, obind_Some; try first [assumption|lia|simpl; lia].
  rewrite Nat2Z.id, HCl. rewrite (drop_ge (replicate 16 0)), app_nil_r by (simpl; lia).
  set (tag := aead_tag key nonce A C). assert (length tag = 16%nat) as Htag by apply aead_tag_length.
  change 16 with (Z.of_nat 16). rewrite ct_memcmp_spec by first [done|lia|apply le_bytes_octets].
  rewrite obind_Some, (take_ge tag) by lia.
  destruct (decide (take 16 t = tag)) as [Et|Et].
  - rewrite bool_decide_eq_true_2 by done. cbn [negb].
    destruct (Z.ltb_spec 0 (Z.of_nat (length C))).
    + by rewrite (chacha20_spec key nonce 1 cipher C out ooff Hargs HC Hoo Hl), obind_Some.
    + destruct C; [|simpl in *; lia]. by rewrite put_at_nil.
  - rewrite bool_decide_eq_false_2 by (intros E'; by apply Et). done.
Qed.

(** [C21] Sealing any plaintext, from another array or in place, succeeds with
    the RFC 8439 key stream over it and the tag of the ciphertext.  Opening
    that ciphertext again in place succeeds exactly for that tag and restores
    the plaintext; with any other tag it reports the failed authentication and
    the buffer is untouched. *)
Theorem owcrypt_aead_roundtrip plain D out ooff t :
  plain ≠ InNull → reads plain D out ooff 0 → octets D → octets out → 0 ≤ ooff →
  (Z.to_nat ooff + length D ≤ length out)%nat → octets t → length t = 16%nat →
  ∃ ct tag,
    owcrypt_chacha_poly_seal true stack (Some key) (Some nonce) aad aadlen plain (Z.of_nat (length D))
      (Some out) ooff (Some (replicate 16 0)) = Some (OWCRYPT_OK, Some ct, Some tag) ∧
    ct = put_at out ooff (crypt key nonce 1 D) ∧
    tag = aead_tag key nonce A (crypt key nonce 1 D) ∧
    owcrypt_chacha_poly_open true stack (Some key) (Some nonce) aad aadlen (InPlace ooff)
      (Z.of_nat (length D)) (Some t) (Some ct) ooff =
    Some (if decide (t = tag) then (OWCRYPT_OK, Some (put_at out ooff D))
          else (OWCRYPT_BAN_AUTH_FAIL, Some ct)).
Proof.
  intros Hn HD HDo Ho Hoo Hl Hto Ht. eexists _, _.
  rewrite seal_spec by first [done|simpl; lia]. split; [done|]. split; [done|].
  rewrite (drop_ge (replicate 16 0)), app_nil_r by (simpl; lia). split; [done|].
  set (C := crypt key nonce 1 D). assert (length C = length D) as HC by apply crypt_length, Hargs.
  rewrite <-HC. rewrite open_spec.
  - rewrite (take_ge t) by lia. unfold C. rewrite crypt_twice by done. fold C.
    by rewrite put_at_twice by lia.
  - done.
  - split; [done|]. rewrite Nat.sub_0_r, Nat.add_0_r, drop_0. apply put_at_read; lia.
  - done.
  - apply put_at_octets; [done|]. by apply crypt_octets.
  - done.
  - rewrite put_at_length; lia.
  - done.
  - lia.
Qed.
End aead.

(** A key, a nonce and a stack content for the examples. *)
Definition ex_key : list Z := Z.of_nat <$> seq 128 32.
Definition ex_nonce : list Z := [7; 0; 0; 0; 64; 65; 66; 67; 68; 69; 70; 71].
Definition ex_stack : owc_p1305_t := P1305 [] [] [] 0 0 (replicate 16 9) 3.

Lemma ex_args : chacha_args ex_key ex_nonce.
Proof. repeat split; try (repeat constructor; lia); simpl; lia. Qed.

Lemma owcrypt_aead_roundtrip_witness :
  ∃ ct tag,
    owcrypt_chacha_poly_seal true ex_stack (Some ex_key) (Some ex_nonce) (Some [1; 2; 3]) 3 (InPlace 1) 4
      (Some [0; 10; 20; 30; 40; 0]) 1 (Some (replicate 16 0)) = Some (OWCRYPT_OK, Some ct, Some tag) ∧
    owcrypt_chacha_poly_open true ex_stack (Some ex_key) (Some ex_nonce) (Some [1; 2; 3]) 3 (InPlace 1) 4
      (Some (replicate 16 0)) (Some ct) 1 =
    Some (if decide (replicate 16 0 = tag) then (OWCRYPT_OK, Some [0; 10; 20; 30; 40; 0])
          else (OWCRYPT_BAN_AUTH_FAIL, Some ct)).
Proof.
  destruct (owcrypt_aead_roundtrip ex_key ex_nonce (Some [1; 2; 3]) 3 ex_stack ex_args
    ltac:(repeat constructor; lia) ltac:(simpl; lia) eq_refl (InPlace 1) [10; 20; 30; 40] [0; 10; 20; 30; 40; 0] 1
    (replicate 16 0)) as (ct & tag & E1 & _ & _ & E2).
  - discriminate.
  - split; reflexivity.
  - repeat constructor; lia.
  - repeat constructor; lia.
  - lia.
  - simpl. lia.
  - repeat constructor; lia.
  - reflexivity.
  - exists ct, tag. split; [exact E1|exact E2].
Defined.
