(* ===== verification/OwcryptFrame.v ===== *)
(** * Security frames: the wire format and the BANcode scan

    A frame is its magic, the two lengths, the associated data, the ciphertext
    and the tag.  [owcrypt_seal_frame] writes exactly that, and
    [owcrypt_open_frame] is a parser of that format followed by the
    authenticated decryption and the scan of the plaintext. *)
From S2P Require Import Prelude Owhash HashSpec HashSha2 Owcrypt OwcryptSha OwcryptAead OwcryptPoly OwcryptSeal.

(** ** Format *)

Definition frame_bytes (key nonce aad data : list Z) : list Z :=
  le_bytes 4 OWCRYPT_FRAME_MAGIC ++ le_bytes 4 (Z.of_nat (length aad)) ++
  le_bytes 4 (Z.of_nat (length data)) ++ aad ++ crypt key nonce 1 data ++
  aead_tag key nonce aad (crypt key nonce 1 data).

(** Associated data, ciphertext and tag of the frame [f]. *)
Definition parse_frame (f : list Z) : option (list Z * list Z * list Z) :=
  let al := Z.to_nat (le (take 4 (drop 4 f))) in
  let cl := Z.to_nat (le (take 4 (drop 8 f))) in
  if decide (28 ≤ length f ∧ le (take 4 f) = OWCRYPT_FRAME_MAGIC ∧ 28 + al + cl ≤ length f)%nat
  then Some (take al (drop 12 f), take cl (drop (12 + al) f), take 16 (drop (12 + al + cl) f))
  else None.

(** The first BANcode of the data, at any alignment. *)
Fixpoint first_ban (l : list Z) : option Z :=
  match l with
  | [] => None
  | _ :: t => if (4 <=? length l)%nat && ban_code (le (take 4 l)) then Some (le (take 4 l)) else first_ban t
  end.

Definition opened (key nonce : list Z) (f : list Z) (po : ptr (list Z)) (pl0 : Z) (ad0 : ptr Z) (al0 : Z)
    (scan hook : bool) (view : option (list Z * list Z * list Z)) : open_result :=
  match view with
  | None => OpenResult OWCRYPT_ERR_BAD_ARG f po pl0 ad0 al0 []
  | Some (aad, ct, tag) =>
      if decide (tag = aead_tag key nonce aad ct) then
        let data := crypt key nonce 1 ct in
        let ban := if scan then first_ban data else None in
        OpenResult (if ban then OWCRYPT_BAN_BANCODE else OWCRYPT_OK)
          (if po then f else put_at f (12 + Z.of_nat (length aad)) data)
          ((λ o, put_at o 0 data) <$> po)
          (Z.of_nat (length ct)) (if aad then NULL else Some OWCRYPT_FRAME_OVERHEAD) (Z.of_nat (length aad))
          (match ban with Some code => if hook then [code] else [] | None => [] end)
      else OpenResult OWCRYPT_BAN_AUTH_FAIL f po pl0 ad0 al0 []
  end.

(** ** The scan *)

Lemma first_ban_short l : (length l < 4)%nat → first_ban l = None.
Proof.
  induction l as [|x l IH]; intros Hl; [done|]. cbn [first_ban]. rewrite (proj2 (Nat.leb_gt _ _)) by done.
  apply IH. simpl in Hl. lia.
Qed.

Lemma scan_loop_spec fuel (l : list Z) (i n : nat) :
  octets l → (i ≤ n ≤ length l)%nat → (n ≤ i + fuel)%nat →
  owc_scan_loop fuel l (Z.of_nat i) (Z.of_nat n) = Some (default 0 (first_ban (take (n - i) (drop i l)))).
Proof.
  intros Ho. revert i. induction fuel as [|fuel IH]; intros i Hi Hf.
  { replace (n - i)%nat with 0%nat by lia. done. }
  cbn [owc_scan_loop]. destruct (Z.leb_spec (Z.of_nat i + 4) (Z.of_nat n)) as [H4|H4].
  - rewrite get32le_spec, obind_Some by (done || lia).
    destruct (lookup_lt_is_Some_2 l i) as [x Hx]; [lia|].
    replace (Z.of_nat i + 1) with (Z.of_nat (S i)) by lia. rewrite IH by lia.
    replace (take 4 (drop i l)) with (take 4 (take (n - i) (drop i l))) by (rewrite take_take; f_equal; lia).
    replace (take (n - i) (drop i l)) with (x :: take (n - S i) (drop (S i) l)).
    2:{ rewrite (drop_lookup_cons _ _ _ Hx). by replace (n - i)%nat with (S (n - S i)) by lia. }
    cbn [first_ban]. rewrite (proj2 (Nat.leb_le 4 _)) by (cbn [length]; rewrite length_take, length_drop; lia).
    cbn [andb]. by destruct (ban_code _).
  - rewrite first_ban_short; [done|]. rewrite length_take, length_drop. lia.
Qed.

Lemma ban_scan_spec (l : list Z) off (D : list Z) :
  octets l → 0 ≤ off → (Z.to_nat off + length D ≤ length l)%nat →
  take (length D) (drop (Z.to_nat off) l) = D →
  owcrypt_scan_ban_stream (Some l) off (Z.of_nat (length D)) = Some (default 0 (first_ban D)).
Proof.
  intros Ho Hoff Hl HD. unfold owcrypt_scan_ban_stream. destruct (Z.ltb_spec (Z.of_nat (length D)) 4).
  { by rewrite first_ban_short by lia. }
  change 0 with (Z.of_nat 0) at 1. rewrite scan_loop_spec.
  - by rewrite Nat.sub_0_r, drop_0, HD.
  - by apply Forall_drop.
  - rewrite length_drop. lia.
  - lia.
Qed.

Lemma first_ban_code l code : first_ban l = Some code → ban_code code = true.
Proof.
  induction l as [|x l IH]; [done|]. cbn [first_ban].
  destruct (andb _ _) eqn:E; [|done]. intros [= <-]. by apply andb_true_iff in E as [_ E].
Qed.

Lemma ban_nonzero l : nz (default 0 (first_ban l)) = bool_decide (is_Some (first_ban l)).
Proof.
  destruct (first_ban l) as [code|] eqn:E; [|done]. apply first_ban_code in E. cbn [default].
  destruct (Z.eqb_spec code 0) as [->|Hn]; [done|]. unfold nz. by rewrite (proj2 (Z.eqb_neq _ _)).
Qed.

(** ** Opening *)

Section frames.
Context (key nonce : list Z) (stack : owc_p1305_t).
Context (Hargs : chacha_args key nonce) (Hstack : length (p_block stack) = 16%nat).

Lemma take_head (f : list Z) (k i n : nat) : (i + k ≤ n)%nat → take k (drop i (take n f)) = take k (drop i f).
Proof. intros. rewrite skipn_firstn_comm, take_take. f_equal. lia. Qed.

(** The authenticated decryption of a parsed frame, in place or not. *)
Definition open_payload (f aad tag : list Z) (po : ptr (list Z)) (aadlen coff clen : Z)
    : option (Z * list Z * ptr (list Z)) :=
  match po with
  | NULL =>
      '(st, o) ← owcrypt_chacha_poly_open true stack (Some key) (Some nonce) (Some aad) aadlen
                   (InPlace coff) clen (Some tag) (Some f) coff;
      Some (st, default [] o, NULL)
  | Some out =>
      '(st, o) ← owcrypt_chacha_poly_open true stack (Some key) (Some nonce) (Some aad) aadlen
                   (InArray f coff) clen (Some tag) (Some out) 0;
      Some (st, f, o)
  end.

Definition po_ok (po : ptr (list Z)) (n : nat) : Prop :=
  match po with NULL => True | Some out => octets out ∧ (n ≤ length out)%nat end.

Lemma open_payload_spec f aad ct tag po coff :
  octets f → octets aad → octets tag → length tag = 16%nat → 0 ≤ coff →
  (Z.to_nat coff + length ct ≤ length f)%nat → take (length ct) (drop (Z.to_nat coff) f) = ct →
  po_ok po (length ct) →
  open_payload f aad tag po (Z.of_nat (length aad)) coff (Z.of_nat (length ct)) =
  Some (if decide (tag = aead_tag key nonce aad ct)
        then let data := crypt key nonce 1 ct in
             (OWCRYPT_OK, if po then f else put_at f coff data, (λ o, put_at o 0 data) <$> po)
        else (OWCRYPT_BAN_AUTH_FAIL, f, po)).
Proof.
  intros Hf Ha Ht Htl Hc Hl Hct Hpo. unfold open_payload.
  assert (0 ≤ Z.of_nat (length aad) ≤ Z.of_nat (length (default [] (Some aad)))) as Hal by (simpl; lia).
  assert (take (Z.to_nat (Z.of_nat (length aad))) (default [] (Some aad)) = aad) as HA
    by (rewrite Nat2Z.id; by apply firstn_all).
  destruct po as [out|].
  - destruct Hpo as [Ho Hol].
    rewrite (open_spec key nonce (Some aad) _ stack Hargs Ha Hal Hstack (InArray f coff) ct out 0 tag);
      [|done|split; [lia|exact Hct]|exact Hf|exact Ho|lia|lia|exact Ht|lia].
    rewrite HA, (take_ge tag) by lia. by destruct (decide _).
  - rewrite (open_spec key nonce (Some aad) _ stack Hargs Ha Hal Hstack (InPlace coff) ct f coff tag);
      [|done| |done|exact Hf|lia|lia|exact Ht|lia].
    + rewrite HA, (take_ge tag) by lia. by destruct (decide _).
    + split; [done|]. by rewrite Nat.sub_0_r, Nat.add_0_r, drop_0.
Qed.

(** The scan of the plaintext that was just written. *)
Lemma scan_payload f ct po coff :
  octets f → octets ct → 0 ≤ coff → (Z.to_nat coff + length ct ≤ length f)%nat → po_ok po (length ct) →
  let data := crypt key nonce 1 ct in
  let '(out, off) := match (λ o, put_at o 0 data) <$> po with
                     | NULL => (if po then f else put_at f coff data, coff) | Some o => (o, 0) end in
  owcrypt_scan_ban_stream (Some out) off (Z.of_nat (length ct)) = Some (default 0 (first_ban data)).
Proof.
  intros Hf Hc Hoff Hl Hpo data. assert (length data = length ct) as HC by apply crypt_length, Hargs.
  assert (octets data) by by apply crypt_octets. rewrite <-HC.
  destruct po as [out|]; cbn [fmap option_fmap option_map po_ok] in *.
  - destruct Hpo as [Ho Hol].
    apply ban_scan_spec; [by apply put_at_octets|lia|rewrite put_at_length; simpl; lia|apply put_at_read; simpl; lia].
  - apply ban_scan_spec; [by apply put_at_octets|lia|rewrite put_at_length; lia|apply put_at_read; lia].
Qed.

Lemma open_frame_spec f frame_len po pl0 ad0 al0 scan hook :
  octets f → 0 ≤ frame_len ≤ Z.of_nat (length f) →
  po_ok po (match parse_frame (take (Z.to_nat frame_len) f) with Some (_, ct, _) => length ct | None => 0%nat end) →
  owcrypt_open_frame true stack (Some key) (Some nonce) (Some f) frame_len po true pl0 ad0 al0 scan hook =
  Some (opened key nonce f po pl0 ad0 al0 scan hook (parse_frame (take (Z.to_nat frame_len) f))).
Proof.
  intros Hf Hfl Hpo. unfold owcrypt_open_frame, OWCRYPT_FRAME_OVERHEAD. cbn [negb].
  set (L := Z.to_nat frame_len) in *. unfold parse_frame in *. rewrite (length_take f L), Nat.min_l in * by lia.
  destruct (Z.ltb_spec frame_len (12 + 16)) as [H28|H28].
  { rewrite decide_False by lia. done. }
  rewrite (take_head f 4 4 L), (take_head f 4 8 L) in * by lia.
  replace (take 4 (take L f)) with (take 4 (drop 0 f)) in * by (rewrite take_take; f_equal; lia).
  assert (∀ i : nat, (i ≤ 8)%nat → owc_get32le f (Z.of_nat i) = Some (le (take 4 (drop i f))) ∧
    0 ≤ le (take 4 (drop i f)) < 2 ^ 32) as Hg.
  { intros i Hi. split; [apply get32le_spec; [done|lia]|].
    pose proof (le_bound (take 4 (drop i f)) (Forall_take _ _ _ (Forall_drop _ _ _ Hf))) as Hb.
    rewrite length_take, length_drop in Hb. by replace (4 `min` (length f - i))%nat with 4%nat in Hb by lia. }
  change (owc_get32le f 0) with (owc_get32le f (Z.of_nat 0)).
  change (owc_get32le f 4) with (owc_get32le f (Z.of_nat 4)).
  change (owc_get32le f 8) with (owc_get32le f (Z.of_nat 8)).
  destruct (Hg 0%nat ltac:(lia)) as [-> _]. rewrite obind_Some.
  destruct (Z.eqb_spec (le (take 4 (drop 0 f))) OWCRYPT_FRAME_MAGIC) as [Em|Em]; cbn [negb].
  2:{ rewrite decide_False by tauto. done. }
  destruct (Hg 4%nat ltac:(lia)) as [-> Hal]. destruct (Hg 8%nat ltac:(lia)) as [-> Hcl]. rewrite !obind_Some.
  set (al := le (take 4 (drop 4 f))) in *. set (cl := le (take 4 (drop 8 f))) in *.
  rewrite u64_small by lia. destruct (Z.ltb_spec frame_len (12 + al + cl + 16)) as [Hs|Hs].
  { rewrite decide_False by lia. done. }
  rewrite decide_True in * by lia. rewrite !aslice_in, !obind_Some by lia.
  rewrite !take_head in * by lia.
  replace (Z.to_nat (12 + al + cl)) with (12 + Z.to_nat al + Z.to_nat cl)%nat by lia.
  change (Z.to_nat 12) with 12%nat. change (Z.to_nat 16) with 16%nat.
  set (aad := take (Z.to_nat al) (drop 12 f)) in *. set (ct := take (Z.to_nat cl) (drop (12 + Z.to_nat al) f)) in *.
  set (tag := take 16 (drop (12 + Z.to_nat al + Z.to_nat cl) f)) in *.
  assert (length aad = Z.to_nat al) as La by (unfold aad; rewrite length_take, length_drop; lia).
  assert (length ct = Z.to_nat cl) as Lc by (unfold ct; rewrite length_take, length_drop; lia).
  assert (length tag = 16%nat) as Lt by (unfold tag; rewrite length_take, length_drop; lia).
  assert (octets aad ∧ octets ct ∧ octets tag) as (Oa & Oc & Ot) by (repeat split; by apply Forall_take, Forall_drop).
  assert (Z.of_nat (length aad) = al) as Ea by lia. assert (Z.of_nat (length ct) = cl) as Ec by lia.
  pose proof (open_payload_spec f aad ct tag po (12 + al) Hf Oa Ot Lt ltac:(lia) ltac:(lia)) as Hopen.
  rewrite Ea, Ec in Hopen.
  etransitivity; [apply (f_equal (λ y, y ≫= _)), Hopen; [|done]|].
  { rewrite Lc. unfold ct. do 2 f_equal. lia. }
  pose proof (scan_payload f ct po (12 + al) Hf Oc ltac:(lia) ltac:(lia) Hpo) as Hscan.
  rewrite obind_Some. unfold opened. destruct (decide (tag = _)) as [Et|Et]; [|done].
  rewrite Ea, Ec. rewrite Ec in Hscan. cbv zeta in Hscan |- *.
  set (data := crypt key nonce 1 ct) in *. assert (length data = length ct) as Ld by apply crypt_length, Hargs.
  change (negb (OWCRYPT_OK =? OWCRYPT_OK)) with false. cbn iota.
  assert ((if 0 <? al then Some 12 else NULL) = (if aad then NULL else Some 12)) as ->.
  { destruct aad; simpl in La; [rewrite (proj2 (Z.ltb_ge _ _)) by lia|rewrite (proj2 (Z.ltb_lt _ _)) by lia]; done. }
  destruct scan; cbn [andb]; [|done].
  destruct (Z.ltb_spec 0 cl) as [Hc0|Hc0].
  - destruct (match _ <$> po with NULL => _ | Some o => (o, 0) end) as [out off]. rewrite Hscan, obind_Some, ban_nonzero.
    by destruct (first_ban data).
  - destruct data; [done|simpl in Ld; lia].
Qed.
(** [C14] Opening any frame is parsing the wire format, checking the tag of
    the ciphertext and decrypting, with every branch: a malformed frame and
    a failed authentication change nothing but the status, an authentic one
    gives the plaintext (in the frame itself when there is no output buffer),
    the position and length of the associated data, and the first BANcode of
    the plaintext when it is scanned. *)
Theorem owcrypt_open_frame_refines f frame_len po pl0 ad0 al0 scan hook :
  octets f → 0 ≤ frame_len ≤ Z.of_nat (length f) →
  po_ok po (match parse_frame (take (Z.to_nat frame_len) f) with Some (_, ct, _) => length ct | None => 0%nat end) →
  owcrypt_open_frame true stack (Some key) (Some nonce) (Some f) frame_len po true pl0 ad0 al0 scan hook =
  Some (opened key nonce f po pl0 ad0 al0 scan hook (parse_frame (take (Z.to_nat frame_len) f))).
Proof. apply open_frame_spec. Qed.

(** ** Sealing *)

Lemma frame_bytes_length aad data :
  length (frame_bytes key nonce aad data) = (28 + length aad + length data)%nat.
Proof.
  unfold frame_bytes. rewrite !length_app, !le_bytes_length, aead_tag_length, (crypt_length key nonce Hargs). lia.
Qed.

Lemma le_le_bytes4 x : 0 ≤ x < 2 ^ 32 → le (le_bytes 4 x) = x.
Proof. intros H. apply (le_le_bytes 4). exact H. Qed.

(** What is written parses back. *)
Lemma parse_frame_bytes aad data :
  Z.of_nat (length aad) < 2 ^ 32 → Z.of_nat (length data) < 2 ^ 32 →
  let ct := crypt key nonce 1 data in
  parse_frame (frame_bytes key nonce aad data) = Some (aad, ct, aead_tag key nonce aad ct).
Proof.
  intros Ha Hd ct. assert (length ct = length data) as Hc by apply crypt_length, Hargs.
  pose proof (frame_bytes_length aad data) as Hl. unfold parse_frame. rewrite Hl. unfold frame_bytes. fold ct.
  set (tag := aead_tag _ _ _ _). assert (length tag = 16%nat) as Ht by apply aead_tag_length. clearbody tag ct. clear Hl.
  rewrite take_app_length' by (by rewrite le_bytes_length).
  rewrite (drop_app_length' (le_bytes 4 _)), take_app_length' by (by rewrite le_bytes_length).
  rewrite (app_assoc (le_bytes 4 _) (le_bytes 4 (Z.of_nat (length aad)))).
  rewrite (drop_app_length' (_ ++ _)), take_app_length' by (rewrite ?length_app, ?le_bytes_length; done).
  rewrite !le_le_bytes4, !Nat2Z.id by (unfold OWCRYPT_FRAME_MAGIC; lia).
  rewrite decide_True by lia. rewrite (app_assoc (_ ++ _)).
  set (h := (le_bytes 4 _ ++ le_bytes 4 _) ++ le_bytes 4 _). assert (length h = 12%nat) as Hh by (unfold h; rewrite !length_app, !le_bytes_length; done).
  rewrite (drop_app_length' h), take_app_length' by done.
  rewrite (app_assoc h). rewrite (drop_app_length' (h ++ aad)), take_app_length' by (rewrite ?length_app; lia).
  rewrite (app_assoc (h ++ aad)), (drop_app_length' (_ ++ ct)), take_ge by (rewrite ?length_app; lia). done.
Qed.

Lemma copy_into (n : nat) src (p t q : list Z) doff :
  (n ≤ length src)%nat → length t = n → doff = Z.of_nat (length p) →
  copy_at (Z.of_nat n) src 0 (p ++ t ++ q) doff = Some (p ++ take n src ++ q).
Proof.
  intros Hs Ht ->. change 0 with (Z.of_nat 0). rewrite copy_at_spec by (rewrite ?length_app; lia).
  rewrite take_app_length, drop_0. do 3 f_equal.
  rewrite app_assoc, drop_app_length'; [done|]. rewrite length_app. lia.
Qed.

Lemma seal_frame_spec aad aadlen l ioff data f cap :
  octets (default [] aad) → 0 ≤ aadlen < 2 ^ 32 → aadlen ≤ Z.of_nat (length (default [] aad)) →
  octets l → octets f → 0 ≤ ioff ≤ Z.of_nat (length l) → take (length data) (drop (Z.to_nat ioff) l) = data →
  Z.of_nat (length data) < 2 ^ 32 → 0 ≤ cap ≤ Z.of_nat (length f) →
  let need := 28 + aadlen + Z.of_nat (length data) in
  owcrypt_seal_frame true stack (Some key) (Some nonce) aad aadlen (InArray l ioff)
    (Z.of_nat (length data)) (Some f) (Some cap) =
  Some (if decide (need ≤ cap)
        then (OWCRYPT_OK, Some (frame_bytes key nonce (take (Z.to_nat aadlen) (default [] aad)) data ++
                                drop (Z.to_nat need) f), Some need)
        else (OWCRYPT_ERR_SHORT_OUT, Some f, Some cap)).
Proof.
  intros Ha Hal Haa Hl Hf Hio Hdata Hd Hcap need. unfold owcrypt_seal_frame, OWCRYPT_FRAME_OVERHEAD. cbn [negb is_in_null].
  rewrite andb_false_r. cbn [orb].
  assert ((0 <? aadlen) && is_null aad = false) as ->.
  { destruct aad; [by rewrite andb_false_r|]. cbn [default from_option length] in Haa.
    by rewrite (proj2 (Z.ltb_ge _ _)) by (simpl in Haa; lia). }
  rewrite u64_small by lia. replace (12 + aadlen + Z.of_nat (length data) + 16) with need by (unfold need; lia).
  destruct (Z.ltb_spec cap need) as [Hs|Hs]; [by rewrite decide_False by lia|]. rewrite decide_True by lia.
  set (A := take (Z.to_nat aadlen) (default [] aad)). assert (length A = Z.to_nat aadlen) as LA by (unfold A; rewrite length_take; lia).
  set (tail := drop (Z.to_nat need) f).
  set (n := length data) in *. set (al := Z.to_nat aadlen) in *.
  rewrite <-(take_drop 4 f). rewrite put32le_stores, stores_front, obind_Some by (rewrite length_take, le_bytes_length; lia).
  rewrite <-(take_drop 4 (drop 4 f)), drop_drop. rewrite put32le_stores, stores_spec, obind_Some
    by (rewrite ?length_take, ?length_drop, ?le_bytes_length; lia).
  rewrite <-(take_drop 4 (drop (4 + 4) f)), drop_drop. rewrite (app_assoc (le_bytes 4 _)).
  rewrite put32le_stores, stores_spec, obind_Some
    by (rewrite ?length_app, ?length_take, ?length_drop, ?le_bytes_length; lia).
  rewrite (app_assoc (_ ++ _) (le_bytes 4 _)). rewrite (u32_small aadlen), (u32_small (Z.of_nat n)) by lia.
  set (h := (le_bytes 4 _ ++ le_bytes 4 _) ++ le_bytes 4 _). assert (length h = 12%nat) as Hh by (unfold h; rewrite !length_app, !le_bytes_length; done).
  assert (octets h) as Oh by (unfold h; repeat (apply octets_app; split); apply le_bytes_octets).
  change (4 + 4 + 4)%nat with 12%nat.
  assert ((if 0 <? aadlen then copy_at aadlen (default [] aad) 0 (h ++ drop 12 f) 12 else Some (h ++ drop 12 f)) =
    Some (h ++ A ++ drop (12 + al) f)) as ->.
  { destruct (Z.ltb_spec 0 aadlen).
    - rewrite <-(take_drop al (drop 12 f)), drop_drop. replace aadlen with (Z.of_nat al) by lia.
      rewrite copy_into; [done|lia|rewrite length_take, length_drop; lia|lia].
    - replace al with 0%nat in * by lia. destruct A; [done|simpl in LA; lia]. }
  rewrite obind_Some. replace (if 0 <? aadlen then aadlen else 0) with aadlen by (case_if; lia).
  assert (octets A) as OA by by apply Forall_take. rewrite (app_assoc h).
  set (g := (h ++ A) ++ drop (12 + al) f).
  assert (length g = length f) as Lg by (unfold g; rewrite !length_app, length_drop; lia).
  assert (octets data) as Od by (rewrite <-Hdata; by apply Forall_take, Forall_drop).
  change n with (length data). rewrite (seal_spec key nonce aad aadlen stack Hargs Ha ltac:(lia) Hstack (InArray l ioff) data g (12 + aadlen) (replicate 16 0));
    [|done|split; [lia|exact Hdata]|exact Od| |lia|fold n; lia|simpl; lia].
  2:{ apply octets_app. split; [by apply octets_app|by apply Forall_drop]. }
  rewrite obind_Some. change (negb (OWCRYPT_OK =? OWCRYPT_OK)) with false. cbn iota. fold A.
  set (ct := crypt key nonce 1 data). assert (length ct = n) as Lc by apply crypt_length, Hargs.
  rewrite (drop_ge (replicate 16 0)), app_nil_r by (simpl; lia).
  set (tag := aead_tag key nonce A ct). assert (length tag = 16%nat) as Lt by apply aead_tag_length.
  change (default [] (Some tag)) with tag. change (default [] (Some (put_at g (12 + aadlen) ct))) with (put_at g (12 + aadlen) ct).
  assert (put_at g (12 + aadlen) ct = ((h ++ A) ++ ct) ++ take 16 (drop (12 + al + n) f) ++ drop (28 + al + n) f) as ->.
  { unfold put_at, g. rewrite take_app_length', drop_app_ge by (rewrite length_app; lia).
    rewrite drop_drop, (app_assoc (h ++ A)). f_equal.
    replace (12 + al + _)%nat with (12 + al + n)%nat by (rewrite length_app; lia).
    replace (28 + al + n)%nat with (12 + al + n + 16)%nat by lia. by rewrite <-(drop_drop f 16 (12 + al + n)), take_drop. }
  change 16 with (Z.of_nat 16). rewrite copy_into.
  - rewrite obind_Some, (take_ge tag) by lia. do 4 f_equal. unfold frame_bytes. fold ct tag. rewrite LA.
    subst need h. replace (Z.of_nat al) with aadlen by lia. rewrite <-!app_assoc. do 6 f_equal. unfold tail. f_equal. lia.
  - change (16 ≤ length tag)%nat. lia.
  - rewrite length_take, length_drop. lia.
  - rewrite !length_app. fold n. lia.
Qed.
(** What the caller reads through the output parameters. *)
Definition got_plain (r : open_result) : list Z :=
  let '(l, off) := match or_plain r with Some o => (o, 0) | NULL => (or_frame r, 12 + or_aad_len r) end in
  take (Z.to_nat (or_plain_len r)) (drop (Z.to_nat off) l).
Definition got_aad (r : open_result) : list Z :=
  match or_aad r with
  | Some off => take (Z.to_nat (or_aad_len r)) (drop (Z.to_nat off) (or_frame r))
  | NULL => []
  end.

Lemma frame_bytes_octets aad data : octets aad → octets data → octets (frame_bytes key nonce aad data).
Proof.
  intros. unfold frame_bytes.
  repeat (apply octets_app; split); try first [apply le_bytes_octets|done|by apply crypt_octets].
Qed.

Lemma frame_bytes_aad aad data tail :
  take (length aad) (drop 12 (frame_bytes key nonce aad data ++ tail)) = aad.
Proof.
  unfold frame_bytes. rewrite <-!app_assoc, (app_assoc (le_bytes 4 OWCRYPT_FRAME_MAGIC)).
  rewrite (app_assoc (le_bytes 4 _ ++ le_bytes 4 _)).
  rewrite (drop_app_length' (_ ++ le_bytes 4 _)) by (rewrite !length_app, !le_bytes_length; done).
  by apply take_app_length'.
Qed.

(** [C7] A frame sealed into a large enough buffer opens, with the same key
    and nonce, to the plaintext and the associated data it was sealed from,
    in place or into another buffer; when the plaintext is scanned the status
    is the BANcode refusal exactly when it contains a code. *)
Theorem owcrypt_frame_roundtrip aad aadlen l ioff data f cap po pl0 ad0 al0 scan hook :
  octets (default [] aad) → 0 ≤ aadlen < 2 ^ 32 → aadlen ≤ Z.of_nat (length (default [] aad)) →
  octets l → octets f → 0 ≤ ioff ≤ Z.of_nat (length l) → take (length data) (drop (Z.to_nat ioff) l) = data →
  Z.of_nat (length data) < 2 ^ 32 → 28 + aadlen + Z.of_nat (length data) ≤ cap ≤ Z.of_nat (length f) →
  po_ok po (length data) →
  ∃ frame need r,
    owcrypt_seal_frame true stack (Some key) (Some nonce) aad aadlen (InArray l ioff)
      (Z.of_nat (length data)) (Some f) (Some cap) = Some (OWCRYPT_OK, Some frame, Some need) ∧
    owcrypt_open_frame true stack (Some key) (Some nonce) (Some frame) need po true pl0 ad0 al0 scan hook = Some r ∧
    or_status r = (if scan then if first_ban data then OWCRYPT_BAN_BANCODE else OWCRYPT_OK else OWCRYPT_OK) ∧
    got_plain r = data ∧ got_aad r = take (Z.to_nat aadlen) (default [] aad).
Proof.
  intros Ha Hal Haa Hl Hf Hio Hdata Hd Hcap Hpo. set (need := 28 + aadlen + Z.of_nat (length data)) in *.
  set (A := take (Z.to_nat aadlen) (default [] aad)).
  assert (length A = Z.to_nat aadlen) as LA by (unfold A; rewrite length_take; lia).
  assert (octets A) as OA by by apply Forall_take.
  assert (octets data) as Od by (rewrite <-Hdata; by apply Forall_take, Forall_drop).
  set (frame := frame_bytes key nonce A data ++ drop (Z.to_nat need) f).
  pose proof (frame_bytes_length A data) as Lf.
  assert (length (frame_bytes key nonce A data) = Z.to_nat need) as Ln by (rewrite Lf; unfold need; lia).
  assert (parse_frame (take (Z.to_nat need) frame) = Some (A, crypt key nonce 1 data, aead_tag key nonce A (crypt key nonce 1 data)))
    as Hp by (unfold frame; rewrite take_app_length' by done; apply parse_frame_bytes; lia).
  set (ct := crypt key nonce 1 data) in *. assert (length ct = length data) as Lc by apply crypt_length, Hargs.
  exists frame, need, (opened key nonce frame po pl0 ad0 al0 scan hook (Some (A, ct, aead_tag key nonce A ct))).
  split; [|split].
  - rewrite seal_frame_spec by first [assumption|lia]. fold need A. by rewrite decide_True by lia.
  - rewrite open_frame_spec; [by rewrite Hp| | |by rewrite Hp, Lc].
    + apply octets_app. split; [by apply frame_bytes_octets|by apply Forall_drop].
    + unfold frame. rewrite length_app. unfold need in *. lia.
  - unfold opened. rewrite decide_True by done. unfold ct. rewrite crypt_twice by done. fold ct.
    cbn [or_status]. split; [by destruct scan|].
    assert (length data ≤ length frame - (12 + length A))%nat as Hroom by (unfold frame; rewrite length_app; lia).
    assert (length frame = (length (frame_bytes key nonce A data) + length (drop (Z.to_nat need) f))%nat) as Lfr
      by apply length_app.
    pose proof (frame_bytes_aad A data (drop (Z.to_nat need) f)) as Haad. fold frame in Haad.
    unfold got_plain, got_aad. cbn [or_plain or_plain_len or_aad or_aad_len or_frame]. rewrite Lc, !Nat2Z.id.
    split.
    + destruct po as [o|]; cbn [fmap option_fmap option_map po_ok] in *.
      * destruct Hpo. apply put_at_read; simpl; lia.
      * apply put_at_read; lia.
    + destruct A as [|a A'] eqn:EA; [done|]. rewrite <-EA in *. unfold OWCRYPT_FRAME_OVERHEAD. change (Z.to_nat 12) with 12%nat.
      destruct po as [o|]; [done|]. unfold put_at.
      rewrite drop_app_le, take_app_le by (rewrite ?length_drop, ?length_take; lia).
      rewrite take_head by lia. exact Haad.
Qed.
End frames.

Lemma owcrypt_open_frame_refines_witness :
  owcrypt_open_frame true ex_stack (Some ex_key) (Some ex_nonce) (Some (replicate 40 0)) 40 NULL true 5 NULL 6 true true =
  Some (OpenResult OWCRYPT_ERR_BAD_ARG (replicate 40 0) NULL 5 NULL 6 []).
Proof.
  etransitivity; [apply (owcrypt_open_frame_refines ex_key ex_nonce ex_stack ex_args eq_refl)|reflexivity].
  - apply octets_zeros.
  - simpl. lia.
  - exact I.
Defined.

(** A plaintext with the code 0x0011A123 at an odd offset. *)
Lemma owcrypt_frame_roundtrip_witness :
  ∃ frame need r,
    owcrypt_seal_frame true ex_stack (Some ex_key) (Some ex_nonce) (Some [1; 2; 3]) 3 (InArray [9; 0x23; 0xA1; 0x11; 0] 0)
      5 (Some (replicate 40 0)) (Some 40) = Some (OWCRYPT_OK, Some frame, Some need) ∧
    owcrypt_open_frame true ex_stack (Some ex_key) (Some ex_nonce) (Some frame) need NULL true 0 NULL 0 true true = Some r ∧
    or_status r = OWCRYPT_BAN_BANCODE ∧ got_plain r = [9; 0x23; 0xA1; 0x11; 0] ∧ got_aad r = [1; 2; 3].
Proof.
  destruct (owcrypt_frame_roundtrip ex_key ex_nonce ex_stack ex_args eq_refl (Some [1; 2; 3]) 3 [9; 0x23; 0xA1; 0x11; 0] 0
    [9; 0x23; 0xA1; 0x11; 0] (replicate 40 0) 40 NULL 0 NULL 0 true true) as (frame & need & r & E1 & E2 & E3 & E4 & E5).
  - repeat constructor; lia.
  - lia.
  - simpl. lia.
  - repeat constructor; lia.
  - apply octets_zeros.
  - simpl. lia.
  - reflexivity.
  - simpl. lia.
  - simpl. lia.
  - exact I.
  - exists frame, need, r. split; [exact E1|]. split; [exact E2|]. split; [exact E3|]. split; [exact E4|exact E5].
Defined.
