(* ===== verification/OwcryptAes.v ===== *)
(** * The encryption engine: AES, GCM, the module and the random generator
      ([DLL/owcrypt/owcrypt.c], lines 113-168, 1830-2313 and 2346-2503)

    The S-box tables are computed by [owcrypt_module_init] and live in the
    module state; AES expands a key into the 240-octet schedule and works on
    16-octet states.  As in the ChaCha20 part a destination is an array with
    an offset and the input of the counter mode may be the destination
    itself ([in_ptr]).  The answer of the kernel64 library at module start
    and the time-stamp counter are parameters: [k64_ok], and the sequence [tsc]
    of the values its successive readings return; [addr_x] is the address of
    the local the generator mixes in. *)
From S2P Require Import Prelude Owcrypt OwcryptAead.

Definition OWCRYPT_BAN_K64_BOOT : Z := 0x0011A320.

(** ** Lifecycle *)

Record owc_module := OwcModule {
  owcrypt_initialized : bool;
  owc_sbox : list Z;
  owc_inv_sbox : list Z;
}.

(** The powers of 0x03 and their logarithms. *)
Definition owc_log_step (i : Z) (st : list Z * list Z * Z) : option (list Z * list Z * Z) :=
  let '(e, l, x) := st in
  e ← aset e i (u8 x);
  l ← aset l (u8 x) (u8 i);
  let o := x in
  let x := u16 (Z.shiftl x 1) in
  let x := if nz (Z.land x 0x100) then Z.lxor x 0x11B else x in
  Some (e, l, Z.lxor x o).

(** The affine transform of an inverse. *)
Definition owc_affine (inv : Z) : Z :=
  let '(_, s) := Nat.iter 4 (λ '(t, s),
    let t := u8 (Z.land (Z.lor (Z.shiftl t 1) (Z.shiftr t 7)) 0xFF) in (t, Z.lxor s t)) (inv, inv) in
  u8 (Z.lxor s 0x63).

Definition owcrypt_module_init (k64_ok : bool) (m : owc_module) : option (Z * owc_module) :=
  if owcrypt_initialized m then Some (OWCRYPT_OK, m) else
  if negb k64_ok then Some (OWCRYPT_BAN_K64_BOOT, m) else
  '(e, l, _) ← for_up 256 0 owc_log_step (replicate 256 0, replicate 256 0, 1);
  sbox ← for_up 256 0
    (λ i sbox, inv ← (if i =? 0 then Some 0 else li ← aget l i; aget e (255 - li));
               aset sbox i (owc_affine inv)) (owc_sbox m);
  inv_sbox ← for_up 256 0 (λ i inv_sbox, s ← aget sbox i; aset inv_sbox s (u8 i)) (owc_inv_sbox m);
  s53 ← aget sbox 0x53;
  if negb (s53 =? 0xED) then Some (OWCRYPT_ERR_BAD_ARG, OwcModule false sbox inv_sbox) else
  Some (OWCRYPT_OK, OwcModule true sbox inv_sbox).

Definition owcrypt_module_shutdown (m : owc_module) : option (Z * owc_module) :=
  if negb (owcrypt_initialized m) then Some (OWCRYPT_ERR_UNINITIALIZED, m) else
  sbox ← owcrypt_cleanse (owc_sbox m) 0 256;
  inv_sbox ← owcrypt_cleanse (owc_inv_sbox m) 0 256;
  Some (OWCRYPT_OK, OwcModule false sbox inv_sbox).

(** ** AES *)

Definition owc_gmul_step (st : Z * Z * Z) : Z * Z * Z :=
  let '(p, a, b) := st in
  let p := if nz (Z.land b 1) then Z.lxor p a else p in
  let hi := u8 (Z.land a 0x80) in
  let a := u8 (Z.shiftl a 1) in
  let a := if nz hi then Z.lxor a 0x1B else a in
  (p, a, Z.shiftr b 1).
Definition owc_gmul (a b : Z) : Z := let '(p, _, _) := Nat.iter 8 owc_gmul_step (0, a, b) in p.

Definition owc_rcon : list Z := [0x01; 0x02; 0x04; 0x08; 0x10; 0x20; 0x40; 0x80; 0x1B; 0x36].

Definition owc_sub_word (sbox t : list Z) : option (list Z) :=
  for_up 4 0 (λ j t, x ← aget t j; y ← aget sbox x; aset t j y) t.

(** What becomes of the previous word before it is combined. *)
Definition owc_expand_temp (sbox : list Z) (nk i : Z) (t : list Z) : option (list Z) :=
  if i mod nk =? 0 then
    tmp ← aget t 0;
    t1 ← aget t 1; t ← aset t 0 t1; t2 ← aget t 2; t ← aset t 1 t2;
    t3 ← aget t 3; t ← aset t 2 t3; t ← aset t 3 tmp;
    t ← owc_sub_word sbox t;
    t0 ← aget t 0; rc ← aget owc_rcon (i / nk - 1);
    aset t 0 (Z.lxor t0 rc)
  else if (nk =? 8) && (i mod nk =? 4) then owc_sub_word sbox t
  else Some t.

(** One word of the schedule. *)
Definition owc_expand_word (sbox : list Z) (nk i : Z) (rk : list Z) : option (list Z) :=
  t ← for_up 4 0 (λ j t, x ← aget rk (4 * (i - 1) + j); aset t j x) (replicate 4 0);
  t ← owc_expand_temp sbox nk i t;
  for_up 4 0 (λ j rk, x ← aget rk (4 * (i - nk) + j); y ← aget t j; aset rk (4 * i + j) (Z.lxor x y)) rk.

Definition owc_aes_expand (sbox rk key : list Z) (keybits : Z) : option (list Z) :=
  let nk := keybits / 32 in
  let nr := nk + 6 in
  let nw := 4 * (nr + 1) in
  rk ← for_up (Z.to_nat nk) 0
    (λ i rk, for_up 4 0 (λ j rk, x ← aget key (4 * i + j); aset rk (4 * i + j) x) rk) rk;
  for_up (Z.to_nat (nw - nk)) nk (owc_expand_word sbox nk) rk.

(** SubBytes and ShiftRows of column [c] into [t]. *)
Definition owc_sub_shift (sbox s : list Z) (c : Z) (t : list Z) : option (list Z) :=
  s0 ← aget s (4 * c + 0); a0 ← aget sbox s0; s1 ← aget s (4 * c + 1); a1 ← aget sbox s1;
  s2 ← aget s (4 * c + 2); a2 ← aget sbox s2; s3 ← aget s (4 * c + 3); a3 ← aget sbox s3;
  t ← aset t (4 * ((c + 0) mod 4) + 0) a0; t ← aset t (4 * ((c + 3) mod 4) + 1) a1;
  t ← aset t (4 * ((c + 2) mod 4) + 2) a2; aset t (4 * ((c + 1) mod 4) + 3) a3.

Definition owc_mix (t : list Z) (c : Z) (s : list Z) : option (list Z) :=
  a0 ← aget t (4 * c + 0); a1 ← aget t (4 * c + 1); a2 ← aget t (4 * c + 2); a3 ← aget t (4 * c + 3);
  s ← aset s (4 * c + 0) (Z.lxor (Z.lxor (Z.lxor (owc_gmul a0 2) (owc_gmul a1 3)) a2) a3);
  s ← aset s (4 * c + 1) (Z.lxor (Z.lxor (Z.lxor a0 (owc_gmul a1 2)) (owc_gmul a2 3)) a3);
  s ← aset s (4 * c + 2) (Z.lxor (Z.lxor (Z.lxor a0 a1) (owc_gmul a2 2)) (owc_gmul a3 3));
  aset s (4 * c + 3) (Z.lxor (Z.lxor (Z.lxor (owc_gmul a0 3) a1) a2) (owc_gmul a3 2)).

(** [s[i] = t[i] ^ rk[off + i]] *)
Definition owc_add_key (t rk : list Z) (off : Z) (s : list Z) : option (list Z) :=
  for_up 16 0 (λ i s, x ← aget t i; k ← aget rk (off + i); aset s i (Z.lxor x k)) s.

Definition owc_aes_round (sbox rk : list Z) (r : Z) (s : list Z) : option (list Z) :=
  t ← for_up 4 0 (owc_sub_shift sbox s) (replicate 16 0);
  s ← for_up 4 0 (owc_mix t) s;
  for_up 16 0 (λ i s, x ← aget s i; k ← aget rk (16 * r + i); aset s i (Z.lxor x k)) s.

Definition owc_aes_encrypt_block (sbox out inb rk : list Z) (nr : Z) : option (list Z) :=
  s ← copy_bytes 16 inb (replicate 16 0);
  s ← for_up 16 0 (λ i s, x ← aget s i; k ← aget rk i; aset s i (Z.lxor x k)) s;
  s ← for_up (Z.to_nat (nr - 1)) 1 (owc_aes_round sbox rk) s;
  t ← for_up 4 0 (owc_sub_shift sbox s) (replicate 16 0);
  s ← owc_add_key t rk (16 * nr) s;
  copy_bytes 16 s out.

Definition owc_inv_sub_shift (inv_sbox s : list Z) (c : Z) (t : list Z) : option (list Z) :=
  s0 ← aget s (4 * c + 0); a0 ← aget inv_sbox s0; s1 ← aget s (4 * c + 1); a1 ← aget inv_sbox s1;
  s2 ← aget s (4 * c + 2); a2 ← aget inv_sbox s2; s3 ← aget s (4 * c + 3); a3 ← aget inv_sbox s3;
  t ← aset t (4 * c + 0) a0; t ← aset t (4 * ((c + 1) mod 4) + 1) a1;
  t ← aset t (4 * ((c + 2) mod 4) + 2) a2; aset t (4 * ((c + 3) mod 4) + 3) a3.

Definition owc_inv_mix (t rk : list Z) (r c : Z) (s : list Z) : option (list Z) :=
  t0 ← aget t (4 * c + 0); k0 ← aget rk (16 * (r - 1) + 4 * c + 0); let a0 := Z.lxor t0 k0 in
  t1 ← aget t (4 * c + 1); k1 ← aget rk (16 * (r - 1) + 4 * c + 1); let a1 := Z.lxor t1 k1 in
  t2 ← aget t (4 * c + 2); k2 ← aget rk (16 * (r - 1) + 4 * c + 2); let a2 := Z.lxor t2 k2 in
  t3 ← aget t (4 * c + 3); k3 ← aget rk (16 * (r - 1) + 4 * c + 3); let a3 := Z.lxor t3 k3 in
  s ← aset s (4 * c + 0) (Z.lxor (Z.lxor (Z.lxor (owc_gmul a0 14) (owc_gmul a1 11)) (owc_gmul a2 13)) (owc_gmul a3 9));
  s ← aset s (4 * c + 1) (Z.lxor (Z.lxor (Z.lxor (owc_gmul a0 9) (owc_gmul a1 14)) (owc_gmul a2 11)) (owc_gmul a3 13));
  s ← aset s (4 * c + 2) (Z.lxor (Z.lxor (Z.lxor (owc_gmul a0 13) (owc_gmul a1 9)) (owc_gmul a2 14)) (owc_gmul a3 11));
  aset s (4 * c + 3) (Z.lxor (Z.lxor (Z.lxor (owc_gmul a0 11) (owc_gmul a1 13)) (owc_gmul a2 9)) (owc_gmul a3 14)).

Definition owc_aes_inv_round (inv_sbox rk : list Z) (r : Z) (s : list Z) : option (list Z) :=
  t ← for_up 4 0 (owc_inv_sub_shift inv_sbox s) (replicate 16 0);
  for_up 4 0 (owc_inv_mix t rk r) s.

(** InvShiftRows of column [c] for the last round. *)
Definition owc_inv_shift (s : list Z) (c : Z) (t : list Z) : option (list Z) :=
  s0 ← aget s (4 * c + 0); t ← aset t (4 * c + 0) s0;
  s1 ← aget s (4 * c + 1); t ← aset t (4 * ((c + 1) mod 4) + 1) s1;
  s2 ← aget s (4 * c + 2); t ← aset t (4 * ((c + 2) mod 4) + 2) s2;
  s3 ← aget s (4 * c + 3); aset t (4 * ((c + 3) mod 4) + 3) s3.

Definition owc_aes_decrypt_block (inv_sbox out inb rk : list Z) (nr : Z) : option (list Z) :=
  s ← copy_bytes 16 inb (replicate 16 0);
  s ← for_up 16 0 (λ i s, x ← aget s i; k ← aget rk (16 * nr + i); aset s i (Z.lxor x k)) s;
  s ← for_up (Z.to_nat (nr - 1)) 0 (λ n s, owc_aes_inv_round inv_sbox rk (nr - n) s) s;
  t ← for_up 4 0 (owc_inv_shift s) (replicate 16 0);
  s ← for_up 16 0 (λ i s, x ← aget t i; y ← aget inv_sbox x; k ← aget rk i; aset s i (Z.lxor y k)) s;
  copy_bytes 16 s out.

Definition key_size_ok (keybits : Z) : bool := (keybits =? 128) || (keybits =? 256).

Definition owcrypt_aes_ecb_encrypt (m : owc_module) (key : ptr (list Z)) (keybits : Z)
    (pt ct : ptr (list Z)) : option (Z * ptr (list Z)) :=
  if negb (owcrypt_initialized m) then Some (OWCRYPT_ERR_UNINITIALIZED, ct) else
  match key, pt, ct with
  | Some k, Some p, Some c =>
      if negb (key_size_ok keybits) then Some (OWCRYPT_ERR_BAD_ARG, ct) else
      rk ← owc_aes_expand (owc_sbox m) (replicate 240 0) k keybits;
      c ← owc_aes_encrypt_block (owc_sbox m) c p rk (keybits / 32 + 6);
      Some (OWCRYPT_OK, Some c)
  | _, _, _ => Some (OWCRYPT_ERR_BAD_ARG, ct)
  end.

Definition owcrypt_aes_ecb_decrypt (m : owc_module) (key : ptr (list Z)) (keybits : Z)
    (ct pt : ptr (list Z)) : option (Z * ptr (list Z)) :=
  if negb (owcrypt_initialized m) then Some (OWCRYPT_ERR_UNINITIALIZED, pt) else
  match key, ct, pt with
  | Some k, Some c, Some p =>
      if negb (key_size_ok keybits) then Some (OWCRYPT_ERR_BAD_ARG, pt) else
      rk ← owc_aes_expand (owc_sbox m) (replicate 240 0) k keybits;
      p ← owc_aes_decrypt_block (owc_inv_sbox m) p c rk (keybits / 32 + 6);
      Some (OWCRYPT_OK, Some p)
  | _, _, _ => Some (OWCRYPT_ERR_BAD_ARG, pt)
  end.

(** ** GHASH *)

Record owc_gh_t := Gh { gh_hi : Z; gh_lo : Z }.

Definition owc_gh_load (b : list Z) (off : Z) : option owc_gh_t :=
  hi ← owc_get64 b off; lo ← owc_get64 b (off + 8); Some (Gh hi lo).
Definition owc_gh_store (b : list Z) (g : owc_gh_t) : option (list Z) :=
  b ← owc_put64 b 0 (gh_hi g); owc_put64 b 8 (gh_lo g).

Definition owc_gh_bit (xb : list Z) (i : Z) (st : list Z * list Z) : option (list Z * list Z) :=
  let '(z, v) := st in
  x ← aget xb (Z.shiftr i 3);
  z ← (if nz (Z.land x (Z.shiftr 0x80 (Z.land i 7))) then
         for_up 16 0 (λ j z, zj ← aget z j; vj ← aget v j; aset z j (Z.lxor zj vj)) z
       else Some z);
  v15 ← aget v 15;
  let lsb := Z.land v15 1 in
  v ← for_up 15 0 (λ n v, let j := 15 - n in
                          vj ← aget v j; vp ← aget v (j - 1);
                          aset v j (u8 (Z.lor (Z.shiftr vj 1) (Z.shiftl vp 7)))) v;
  v0 ← aget v 0;
  v ← aset v 0 (Z.shiftr v0 1);
  v ← (if nz lsb then v0 ← aget v 0; aset v 0 (Z.lxor v0 0xE1) else Some v);
  Some (z, v).

Definition owc_gh_mul (x y : owc_gh_t) : option owc_gh_t :=
  v ← owc_gh_store (replicate 16 0) y;
  xb ← owc_gh_store (replicate 16 0) x;
  '(z, _) ← for_up 128 0 (owc_gh_bit xb) (replicate 16 0, v);
  owc_gh_load z 0.

Definition owc_gh_step (s h : owc_gh_t) (blk : list Z) (off : Z) : option owc_gh_t :=
  t ← owc_gh_load blk off;
  owc_gh_mul (Gh (Z.lxor (gh_hi s) (gh_hi t)) (Z.lxor (gh_lo s) (gh_lo t))) h.

(** The data of one argument: whole blocks, then the rest padded. *)
Definition owc_gh_data (s h : owc_gh_t) (data : list Z) (off len : Z) : option owc_gh_t :=
  s ← for_up (Z.to_nat (len / 16)) 0 (λ q s, owc_gh_step s h data (off + 16 * q)) s;
  if nz (len mod 16) then
    let rem := len mod 16 in
    pad ← for_up 16 0
      (λ i pad, if i <? rem then x ← aget data (off + (len - rem + i)); aset pad i x else aset pad i 0)
      (replicate 16 0);
    owc_gh_step s h pad 0
  else Some s.

Definition owc_ghash (h : list Z) (aad : ptr (list Z)) (aadlen : Z) (ct : list Z) (coff clen : Z)
    : option owc_gh_t :=
  hh ← owc_gh_load h 0;
  s ← owc_gh_data (Gh 0 0) hh (default [] aad) 0 aadlen;
  s ← owc_gh_data s hh ct coff clen;
  pad ← owc_put64 (replicate 16 0) 0 (u64 (aadlen * 8));
  pad ← owc_put64 pad 8 (u64 (clen * 8));
  owc_gh_step s hh pad 0.

(** ** Counter mode *)

Definition owc_gcm_inc32 (j0 : list Z) : option (list Z) :=
  c ← owc_get32 j0 12;
  owc_put32 j0 12 (Z.land (u32 (c + 1)) 0xFFFFFFFF).

(** One block of [inp] at [ioff] to [out] at [ooff]; returns the counter too. *)
Definition owc_gcm_keystream (sbox : list Z) (inp : in_ptr) (ioff : Z) (rk : list Z) (nr : Z)
    (ooff : Z) (st : list Z * list Z) : option (list Z * list Z) :=
  let '(out, ctr) := st in
  ctr ← owc_gcm_inc32 ctr;
  enc ← owc_aes_encrypt_block sbox (replicate 16 0) ctr rk nr;
  out ← for_up 16 0 (λ i out, e ← aget enc i; x ← in_get inp out (ioff + i);
                              aset out (ooff + i) (u8 (Z.lxor e x))) out;
  Some (out, ctr).

(** The whole stream, as written in both [owcrypt_aes_gcm_seal] and
    [owcrypt_aes_gcm_open]. *)
Definition owc_gcm_stream (sbox : list Z) (inp : in_ptr) (len : Z) (rk : list Z) (nr : Z)
    (out : list Z) (ooff : Z) (ctr : list Z) : option (list Z) :=
  '(out, ctr) ← for_up (Z.to_nat (len / 16)) 0
    (λ q st, owc_gcm_keystream sbox inp (16 * q) rk nr (ooff + 16 * q) st) (out, ctr);
  if nz (len mod 16) then
    let rem := len mod 16 in
    blk ← for_up 16 0
      (λ i blk, if i <? rem then x ← in_get inp out (len - rem + i); aset blk i x else aset blk i 0)
      (replicate 16 0);
    '(blk, _) ← owc_gcm_keystream sbox (InPlace 0) 0 rk nr 0 (blk, ctr);
    for_up (Z.to_nat rem) 0 (λ i out, b ← aget blk i; aset out (ooff + (len - rem + i)) b) out
  else Some out.

(** The hash key and the initial counter block. *)
Definition owc_gcm_setup (sbox rk : list Z) (nr : Z) (nonce : list Z) : option (list Z * list Z) :=
  h ← owc_aes_encrypt_block sbox (replicate 16 0) (replicate 16 0) rk nr;
  j0 ← copy_bytes 12 nonce (replicate 16 0);
  j0 ← owc_put32 j0 12 1;
  Some (h, j0).

Definition owc_gcm_tag (sbox rk : list Z) (nr : Z) (h j0 : list Z) (aad : ptr (list Z)) (aadlen : Z)
    (ct : list Z) (coff clen : Z) (tag : list Z) : option (list Z) :=
  s ← owc_ghash h aad aadlen ct coff clen;
  enc ← owc_gh_store (replicate 16 0) s;
  e0 ← owc_aes_encrypt_block sbox j0 j0 rk nr;
  for_up 16 0 (λ i tag, a ← aget e0 i; b ← aget enc i; aset tag i (u8 (Z.lxor a b))) tag.

Definition owcrypt_aes_gcm_seal (m : owc_module) (key : ptr (list Z)) (keybits : Z)
    (nonce aad : ptr (list Z)) (aadlen : Z) (plain : in_ptr) (plen : Z)
    (out : ptr (list Z)) (ooff : Z) (tag : ptr (list Z)) : option (Z * ptr (list Z) * ptr (list Z)) :=
  if negb (owcrypt_initialized m) then Some (OWCRYPT_ERR_UNINITIALIZED, out, tag) else
  match key, nonce, tag, out with
  | Some k, Some nn, Some t, Some o =>
      if ((0 <? plen) && is_in_null plain) || ((0 <? aadlen) && is_null aad)
      then Some (OWCRYPT_ERR_BAD_ARG, out, tag) else
      if negb (key_size_ok keybits) then Some (OWCRYPT_ERR_BAD_ARG, out, tag) else
      let nr := keybits / 32 + 6 in
      rk ← owc_aes_expand (owc_sbox m) (replicate 240 0) k keybits;
      '(h, j0) ← owc_gcm_setup (owc_sbox m) rk nr nn;
      o ← owc_gcm_stream (owc_sbox m) plain plen rk nr o ooff j0;
      t ← owc_gcm_tag (owc_sbox m) rk nr h j0 aad aadlen o ooff plen t;
      Some (OWCRYPT_OK, Some o, Some t)
  | _, _, _, _ => Some (OWCRYPT_ERR_BAD_ARG, out, tag)
  end.

Definition owcrypt_aes_gcm_open (m : owc_module) (key : ptr (list Z)) (keybits : Z)
    (nonce aad : ptr (list Z)) (aadlen : Z) (cipher : in_ptr) (clen : Z)
    (tag : ptr (list Z)) (out : ptr (list Z)) (ooff : Z) : option (Z * ptr (list Z)) :=
  if negb (owcrypt_initialized m) then Some (OWCRYPT_ERR_UNINITIALIZED, out) else
  match key, nonce, tag with
  | Some k, Some nn, Some t =>
      if ((0 <? clen) && is_in_null cipher) || ((0 <? aadlen) && is_null aad)
      then Some (OWCRYPT_ERR_BAD_ARG, out) else
      if negb (key_size_ok keybits) then Some (OWCRYPT_ERR_BAD_ARG, out) else
      let nr := keybits / 32 + 6 in
      rk ← owc_aes_expand (owc_sbox m) (replicate 240 0) k keybits;
      '(h, j0) ← owc_gcm_setup (owc_sbox m) rk nr nn;
      let '(ct, coff) := in_array cipher (default [] out) in
      expect ← owc_gcm_tag (owc_sbox m) rk nr h j0 aad aadlen ct coff clen (replicate 16 0);
      same ← owcrypt_ct_memcmp (Some expect) (Some t) 16;
      if negb same then Some (OWCRYPT_BAN_AUTH_FAIL, out) else
      match out with
      | NULL => if 0 <? clen then UB else Some (OWCRYPT_OK, NULL)
      | Some o => o ← owc_gcm_stream (owc_sbox m) cipher clen rk nr o ooff j0; Some (OWCRYPT_OK, Some o)
      end
  | _, _, _ => Some (OWCRYPT_ERR_BAD_ARG, out)
  end.

(** ** The random generator *)

Definition OWC_RNG_RESEED : Z := 8192.

Record owc_rng := OwcRng {
  rng_key : list Z;         (** [owc_rng_key[32]] *)
  rng_nonce : list Z;       (** [owc_rng_nonce[12]] *)
  rng_block : list Z;       (** [owc_rng_block[64]] *)
  rng_consumed : Z;
  rng_generated : Z;
  rng_ready : bool;
}.
#[export] Instance owc_rng_eta : Eta owc_rng :=
  λ c, OwcRng (rng_key c) (rng_nonce c) (rng_block c) (rng_consumed c) (rng_generated c) (rng_ready c).

Section rng.
Context (tsc : nat → Z) (addr_x : Z).

(** The next reading of the counter; [n] counts the readings made so far. *)
Definition owc_rdtsc64 (n : nat) : Z * nat := (tsc n, S n).

Definition owc_rng_jitter (i : Z) (st : Z * Z * nat) : option (Z * Z * nat) :=
  let '(x, j, n) := st in
  let x := u64 (u64 (x * 0x9E3779B97F4A7C15) + i) in
  let '(t, n) := owc_rdtsc64 n in
  Some (x, Z.lxor (u64 (j * 31)) t, n).

Definition owc_rng_entropy_u64 (n : nat) : option (Z * nat) :=
  let '(x, n) := owc_rdtsc64 n in
  '(x, j, n) ← for_up 64 0 owc_rng_jitter (x, 0, n);
  let '(t, n) := owc_rdtsc64 n in
  Some (Z.lxor (Z.lxor (Z.lxor x j) t) addr_x, n).

Definition owc_rng_gather (out : list Z) (n : nat) : option (list Z * nat) :=
  for_up 8 0
    (λ i '(out, n), '(e, n) ← owc_rng_entropy_u64 n;
       out ← for_up 8 0 (λ k out, aset out (8 * i + k) (u8 (Z.shiftr e (8 * k)))) out;
       Some (out, n)) (out, n).

(** The loop stops at the first octet that does not wrap. *)
Fixpoint owc_rng_advance_nonce (fuel : nat) (i : Z) (nonce : list Z) : option (list Z) :=
  match fuel with
  | O => Some nonce
  | S fuel =>
      x ← aget nonce i;
      let x := u8 (x + 1) in
      nonce ← aset nonce i x;
      if nz x then Some nonce else owc_rng_advance_nonce fuel (i + 1) nonce
  end.

Definition owc_rng_rekey (g : owc_rng) (n : nat) : option (owc_rng * nat) :=
  '(ent, n) ← owc_rng_gather (replicate 64 0) n;
  km ← for_up 32 0
    (λ i km, k ← aget (rng_key g) i; km ← aset km i k; e ← aget ent i; aset km (32 + i) e) (replicate 64 0);
  mix ← owcrypt_blake2b (replicate 32 0) 32 km 64;
  key ← for_up 32 0 (λ i key, x ← aget mix i; aset key i x) (rng_key g);
  Some (g <| rng_key := key |>, n).

Definition owc_rng_next_block (g : owc_rng) (n : nat) : option (owc_rng * nat) :=
  blk ← owcrypt_chacha20_xor (rng_key g) (rng_nonce g) 0 (InArray (replicate 64 0) 0) 64 (rng_block g) 0;
  nonce ← owc_rng_advance_nonce 8 0 (rng_nonce g);
  let g := g <| rng_block := blk |> <| rng_nonce := nonce |> <| rng_consumed := 0 |>
             <| rng_generated := u64 (rng_generated g + 64) |> in
  if OWC_RNG_RESEED <=? rng_generated g
  then owc_rng_rekey (g <| rng_generated := 0 |>) n
  else Some (g, n).

Definition owcrypt_csprng_init (initialized : bool) (g : owc_rng) (n : nat) : option (Z * owc_rng * nat) :=
  if negb initialized then Some (OWCRYPT_ERR_UNINITIALIZED, g, n) else
  '(ent, n) ← owc_rng_gather (replicate 64 0) n;
  key ← owcrypt_blake2b (rng_key g) 32 ent 64;
  '(c, n) ← owc_rng_entropy_u64 n;
  nc ← for_up 8 0 (λ i nc, aset nc i (u8 (Z.shiftr c (8 * i)))) (replicate 8 0);
  nonce ← copy_bytes 8 nc (rng_nonce g);
  nonce ← aset nonce 9 0; nonce ← aset nonce 8 0; nonce ← aset nonce 11 0; nonce ← aset nonce 10 0;
  blk ← for_up 64 0 (λ k b, aset b k 0) (rng_block g);
  Some (OWCRYPT_OK, OwcRng key nonce blk 64 0 true, n).

(** The loop of [owcrypt_csprng_generate] from [p = out + off] on. *)
Fixpoint owc_rng_loop (fuel : nat) (g : owc_rng) (n : nat) (out : list Z) (off len : Z)
    : option (owc_rng * nat * list Z) :=
  if len <=? 0 then Some (g, n, out) else
  match fuel with
  | O => None
  | S fuel =>
      '(g, n) ← (if 64 <=? rng_consumed g then owc_rng_next_block g n else Some (g, n));
      let c := u64 (64 - rng_consumed g) in
      let c := if len <? c then len else c in
      out ← copy_at c (rng_block g) (rng_consumed g) out off;
      owc_rng_loop fuel (g <| rng_consumed := u64 (rng_consumed g + c) |>) n out (off + c) (len - c)
  end.

Definition owcrypt_csprng_generate (initialized : bool) (g : owc_rng) (n : nat)
    (out : ptr (list Z)) (len : Z) : option (Z * owc_rng * nat * ptr (list Z)) :=
  if negb initialized then Some (OWCRYPT_ERR_UNINITIALIZED, g, n, out) else
  if negb (rng_ready g) then Some (OWCRYPT_ERR_UNINITIALIZED, g, n, out) else
  if is_null out && (0 <? len) then Some (OWCRYPT_ERR_BAD_ARG, g, n, out) else
  '(g, n, o) ← owc_rng_loop (Z.to_nat len) g n (default [] out) 0 len;
  Some (OWCRYPT_OK, g, n, match out with NULL => NULL | Some _ => Some o end).
End rng.
