(* ===== verification/AesSpec.v ===== *)
(** * AES: the block cipher against FIPS-197

    The reference works in GF(2^8) with polynomials modulo
    [x^8 + x^4 + x^3 + x + 1]; the S-box is the affine image of the inverse.
    The tables that [owcrypt_module_init] computes are that S-box and its
    inverse, the schedule and the rounds are the ones of the standard, and
    decryption inverts encryption for every key and block. *)
From Stdlib Require Import Btauto.
From S2P Require Import Prelude Owhash HashSpec HashSha2 Owcrypt OwcryptSha OwcryptAead OwcryptPoly OwcryptSeal OwcryptAes.

(** ** GF(2^8) *)

(** Product of polynomials over GF(2) and remainder modulo 0x11B. *)
Definition gf_prod (a b : Z) : Z :=
  foldr (λ i p, if Z.testbit b i then Z.lxor p (Z.shiftl a i) else p) 0 (seqZ 0 8).
Definition gf_rem (x : Z) : Z :=
  foldr (λ i x, if Z.testbit x (8 + i) then Z.lxor x (Z.shiftl 0x11B i) else x) x (seqZ 0 7).
Definition gf_mul (a b : Z) : Z := gf_rem (gf_prod a b).

(** The inverse, zero for zero, by search. *)
Definition gf_inv (a : Z) : Z := default 0 (list_find (λ y, gf_mul a y = 1) (seqZ 0 256) ≫= λ '(_, y), Some y).

(** Bit [i] of the S-box is [b_i + b_(i+4) + b_(i+5) + b_(i+6) + b_(i+7) + c_i],
    indices modulo 8. *)
Definition fips_affine (b : Z) : Z :=
  foldr (λ i s, Z.lxor s (Z.shiftl (Z.b2z
    (xorb (xorb (xorb (xorb (xorb (Z.testbit b i) (Z.testbit b ((i + 4) mod 8))) (Z.testbit b ((i + 5) mod 8)))
       (Z.testbit b ((i + 6) mod 8))) (Z.testbit b ((i + 7) mod 8))) (Z.testbit 0x63 i))) i)) 0 (seqZ 0 8).
Definition fips_sbox : list Z := (λ a, fips_affine (gf_inv a)) <$> seqZ 0 256.

Definition index_of (x : Z) (l : list Z) : Z := Z.of_nat (default 0%nat (list_find (x =.) l ≫= λ '(i, _), Some i)).
Definition fips_inv_sbox : list Z := (λ x, index_of x fips_sbox) <$> seqZ 0 256.

Definition the_module : owc_module := OwcModule true fips_sbox fips_inv_sbox.

(** The inverses read from the power and logarithm tables. *)
Definition log_inverse (e l : list Z) (i : Z) : option Z :=
  if i =? 0 then Some 0 else li ← aget l i; aget e (255 - li).

Lemma log_tables :
  ∃ e l x, for_up 256 0 owc_log_step (replicate 256 0, replicate 256 0, 1) = Some (e, l, x) ∧
    ∀ i, 0 ≤ i < 256 → log_inverse e l i = Some (gf_inv i).
Proof.
  assert (match for_up 256 0 owc_log_step (replicate 256 0, replicate 256 0, 1) with
    | Some (e, l, _) => all_below 256 (λ i, bool_decide (log_inverse e l i = Some (gf_inv i)))
    | None => false end = true) as H by (vm_compute; reflexivity).
  destruct (for_up 256 0 owc_log_step _) as [[[e l] x]|]; [|discriminate]. exists e, l, x. split; [reflexivity|].
  intros i Hi. by apply (all_below_spec 256 _ i H), bool_decide_eq_true in Hi.
Qed.

Lemma affine_fips i : 0 ≤ i < 256 → owc_affine i = fips_affine i.
Proof.
  intros Hi. apply Z.eqb_eq, (all_below_spec 256 (λ i, owc_affine i =? fips_affine i)); [|exact Hi].
  vm_compute. reflexivity.
Qed.

Lemma sbox_octets : octets fips_sbox ∧ octets fips_inv_sbox.
Proof.
  split; apply Forall_forall; intros x Hx;
    [assert (forallb (λ x, (0 <=? x) && (x <? 256)) fips_sbox = true) as H by (vm_compute; reflexivity)
    |assert (forallb (λ x, (0 <=? x) && (x <? 256)) fips_inv_sbox = true) as H by (vm_compute; reflexivity)];
    rewrite forallb_forall in H; specialize (H x (proj1 (list_elem_of_In _ _) Hx)); zbool; lia.
Qed.

Lemma sbox_length : length fips_sbox = 256%nat ∧ length fips_inv_sbox = 256%nat.
Proof. split; vm_compute; reflexivity. Qed.

(** [sbox] at an octet. *)
Definition look (t : list Z) (x : Z) : Z := default 0 (t !! Z.to_nat x).

Lemma aget_table t x : length t = 256%nat → 0 ≤ x < 256 → aget t x = Some (look t x).
Proof.
  intros Ht Hx. rewrite aget_to_nat by lia. unfold look.
  destruct (lookup_lt_is_Some_2 t (Z.to_nat x)) as [y ->]; [lia|done].
Qed.

Lemma look_octet t x : length t = 256%nat → octets t → 0 ≤ x < 256 → 0 ≤ look t x < 256.
Proof.
  intros Ht Ho Hx. pose proof (aget_table t x Ht Hx) as E. rewrite aget_to_nat in E by lia.
  exact (Forall_lookup_1 _ _ _ _ Ho E).
Qed.

Lemma gf_inv_octet a : 0 ≤ gf_inv a < 256.
Proof.
  unfold gf_inv. destruct (list_find _ _) as [[i y]|] eqn:E; cbn [mbind option_bind default]; [|lia].
  apply list_find_Some in E as (E & _). apply list_elem_of_lookup_2, elem_of_seqZ in E. simpl. lia.
Qed.

Lemma sbox_inverse x : 0 ≤ x < 256 → look fips_inv_sbox (look fips_sbox x) = x ∧ look fips_sbox (look fips_inv_sbox x) = x.
Proof.
  intros Hx. assert (all_below 256 (λ x, (look fips_inv_sbox (look fips_sbox x) =? x) &&
    (look fips_sbox (look fips_inv_sbox x) =? x)) = true) as H by (vm_compute; reflexivity).
  pose proof (all_below_spec 256 _ x H Hx) as E. cbv beta in E. apply andb_true_iff in E as [E1 E2].
  split; [by apply Z.eqb_eq in E1|by apply Z.eqb_eq in E2].
Qed.

(** The loop that inverts the table. *)
Lemma invert_loop w :
  length w = 256%nat →
  for_up 256 0 (λ i inv_sbox, s ← aget fips_sbox i; aset inv_sbox s (u8 i)) w = Some fips_inv_sbox.
Proof.
  intros Hw.
  destruct (for_up_inv (λ j d, length d = 256%nat ∧
    ∀ i, 0 ≤ i < j → aget d (look fips_sbox i) = Some i) 256 0
    (λ i inv_sbox, s ← aget fips_sbox i; aset inv_sbox s (u8 i)) w) as (d & -> & Hd & Hi).
  - split; [done|lia].
  - intros j d Hj [Hd Hi]. pose proof (look_octet fips_sbox j (proj1 sbox_length) (proj1 sbox_octets) ltac:(lia)) as Hlj.
    rewrite aget_table, obind_Some by (exact (proj1 sbox_length) || lia). rewrite aset_in by lia. eexists. split; [done|].
    split; [by rewrite length_insert|]. intros i Hij.
    rewrite (aget_aset d (look fips_sbox j) (u8 j)) by (apply aset_in; lia).
    case_decide as E; [|apply Hi; destruct (decide (i = j)) as [->|]; [done|lia]].
    apply (f_equal (look fips_inv_sbox)) in E. rewrite (proj1 (sbox_inverse i ltac:(lia))), (proj1 (sbox_inverse j ltac:(lia))) in E.
    subst i. by rewrite u8_small by lia.
  - f_equal. apply list_eq_same_length with 256%nat; [done..|]. intros n x y Hn Hx Hy.
    pose proof (look_octet fips_inv_sbox (Z.of_nat n) (proj2 sbox_length) (proj2 sbox_octets) ltac:(lia)) as Hl.
    specialize (Hi _ Hl). rewrite (proj2 (sbox_inverse (Z.of_nat n) ltac:(lia))), aget_of_nat in Hi.
    unfold look in Hi. rewrite Nat2Z.id, Hy in Hi. change (default 0 (Some y)) with y in Hi. congruence.
Qed.

(** The module starts with the tables of the standard, whatever was there. *)
Lemma module_init_spec b m :
  owcrypt_initialized m = false → length (owc_sbox m) = 256%nat → length (owc_inv_sbox m) = 256%nat →
  owcrypt_module_init b m = Some (if b then (OWCRYPT_OK, the_module) else (OWCRYPT_BAN_K64_BOOT, m)).
Proof.
  intros Hi Hs Hv. unfold owcrypt_module_init. rewrite Hi. destruct b; [|done]. cbn [negb].
  destruct log_tables as (e & l & x & E & Hl). rewrite E, obind_Some. cbn beta iota.
  rewrite (load_loop 256 _ (λ i, fips_affine (gf_inv (Z.of_nat i)))); [|intros i w Hb|lia].
  2:{ fold (log_inverse e l (Z.of_nat i)). rewrite Hl, obind_Some by lia.
      rewrite affine_fips; [done|]. apply gf_inv_octet. }
  rewrite obind_Some, drop_ge, app_nil_r by lia.
  replace (_ <$> seq 0 256) with fips_sbox by reflexivity.
  rewrite invert_loop, obind_Some by done. reflexivity.
Qed.

#[local] Opaque fips_sbox fips_inv_sbox.

(** ** The rounds *)

Definition add_round_key (s k : list Z) : list Z := zip_with Z.lxor s k.
Definition shift_rows (s : list Z) : list Z :=
  (λ i, s !!! i) <$> [0; 5; 10; 15; 4; 9; 14; 3; 8; 13; 2; 7; 12; 1; 6; 11]%nat.
Definition inv_shift_rows (s : list Z) : list Z :=
  (λ i, s !!! i) <$> [0; 13; 10; 7; 4; 1; 14; 11; 8; 5; 2; 15; 12; 9; 6; 3]%nat.

(** A column times the circulant matrix whose first row is [m0; m1; m2; m3]. *)
Definition mix_column (m0 m1 m2 m3 : Z) (c : list Z) : list Z :=
  match c with
  | [a0; a1; a2; a3] =>
      let sum x y z w := Z.lxor (Z.lxor (Z.lxor x y) z) w in
      [sum (gf_mul a0 m0) (gf_mul a1 m1) (gf_mul a2 m2) (gf_mul a3 m3);
       sum (gf_mul a0 m3) (gf_mul a1 m0) (gf_mul a2 m1) (gf_mul a3 m2);
       sum (gf_mul a0 m2) (gf_mul a1 m3) (gf_mul a2 m0) (gf_mul a3 m1);
       sum (gf_mul a0 m1) (gf_mul a1 m2) (gf_mul a2 m3) (gf_mul a3 m0)]
  | _ => c
  end.
Definition on_columns (f : list Z → list Z) (s : list Z) : list Z :=
  f (take 4 s) ++ f (take 4 (drop 4 s)) ++ f (take 4 (drop 8 s)) ++ f (take 4 (drop 12 s)).
Definition mix_columns : list Z → list Z := on_columns (mix_column 2 3 1 1).
Definition inv_mix_columns : list Z → list Z := on_columns (mix_column 14 11 13 9).

Definition round_key (rk : list Z) (r : nat) : list Z := take 16 (drop (16 * r) rk).
Definition sub_shift (t s : list Z) : list Z := shift_rows (look t <$> s).
Definition inv_sub_shift (t s : list Z) : list Z := look t <$> inv_shift_rows s.

Definition cipher (rk : list Z) (nr : nat) (s : list Z) : list Z :=
  let s := add_round_key s (round_key rk 0) in
  let s := foldl (λ s r, add_round_key (mix_columns (sub_shift fips_sbox s)) (round_key rk r)) s (seq 1 (nr - 1)) in
  add_round_key (sub_shift fips_sbox s) (round_key rk nr).
Definition inv_cipher (rk : list Z) (nr : nat) (s : list Z) : list Z :=
  let s := add_round_key s (round_key rk nr) in
  let s := foldr (λ r s, inv_mix_columns (add_round_key (inv_sub_shift fips_inv_sbox s) (round_key rk r))) s (seq 1 (nr - 1)) in
  add_round_key (inv_sub_shift fips_inv_sbox s) (round_key rk 0).

(** *** Multiplication *)

(** The coefficients of the two matrices. *)
Definition coefficients : list Z := [1; 2; 3; 9; 11; 13; 14].

Lemma gmul_gf a b : 0 ≤ a < 256 → b ∈ coefficients → owc_gmul a b = gf_mul a b ∧ 0 ≤ gf_mul a b < 256.
Proof.
  intros Ha Hb.
  assert (all_below 256 (λ a, forallb (λ b, (owc_gmul a b =? gf_mul a b) && (0 <=? gf_mul a b) && (gf_mul a b <? 256))
    coefficients) = true) as H by (vm_compute; reflexivity).
  pose proof (all_below_spec 256 _ a H Ha) as H'. rewrite forallb_forall in H'.
  specialize (H' b (proj1 (list_elem_of_In _ _) Hb)). cbv beta in H'. clear H.
  apply andb_true_iff in H' as [H1 H3]. apply andb_true_iff in H1 as [H1 H2].
  apply Z.eqb_eq in H1. apply Z.leb_le in H2. apply Z.ltb_lt in H3. done.
Qed.

Lemma gf_prod_lxor a a' b : gf_prod (Z.lxor a a') b = Z.lxor (gf_prod a b) (gf_prod a' b).
Proof.
  unfold gf_prod. generalize (seqZ 0 8). intros l. induction l as [|i l IH]; [done|]. cbn [foldr]. rewrite IH.
  destruct (Z.testbit b i); [|done]. rewrite Z.shiftl_lxor. apply Z.bits_inj. intros n. rewrite !Z.lxor_spec. btauto.
Qed.

Lemma gf_rem_lxor x y : gf_rem (Z.lxor x y) = Z.lxor (gf_rem x) (gf_rem y).
Proof.
  unfold gf_rem. generalize (seqZ 0 7). intros l. induction l as [|i l IH]; [done|]. cbn [foldr]. rewrite IH, Z.lxor_spec.
  set (p := foldr _ x l). set (q := foldr _ y l). clearbody p q. apply Z.bits_inj. intros n.
  destruct (Z.testbit p (8 + i)), (Z.testbit q (8 + i)); cbn [xorb]; rewrite !Z.lxor_spec; btauto.
Qed.

Lemma gf_mul_lxor a a' b : gf_mul (Z.lxor a a') b = Z.lxor (gf_mul a b) (gf_mul a' b).
Proof. unfold gf_mul. by rewrite gf_prod_lxor, gf_rem_lxor. Qed.

Lemma gf_mul_1 a : 0 ≤ a < 256 → gf_mul a 1 = a.
Proof.
  intros Ha. apply Z.eqb_eq, (all_below_spec 256 (λ a, gf_mul a 1 =? a)); [vm_compute; reflexivity|exact Ha].
Qed.

(** The two matrices are inverse: the four different entries of their product. *)
Lemma matrix_entries a :
  0 ≤ a < 256 →
  let g x y := gf_mul (gf_mul a x) y in let sum x y z w := Z.lxor (Z.lxor (Z.lxor x y) z) w in
  sum (g 2 14) (g 1 11) (g 1 13) (g 3 9) = a ∧ sum (g 3 14) (g 2 11) (g 1 13) (g 1 9) = 0 ∧
  sum (g 1 14) (g 3 11) (g 2 13) (g 1 9) = 0 ∧ sum (g 1 14) (g 1 11) (g 3 13) (g 2 9) = 0.
Proof.
  intros Ha g sum.
  assert (all_below 256 (λ a, let g x y := gf_mul (gf_mul a x) y in let sum x y z w := Z.lxor (Z.lxor (Z.lxor x y) z) w in
    (sum (g 2 14) (g 1 11) (g 1 13) (g 3 9) =? a) && (sum (g 3 14) (g 2 11) (g 1 13) (g 1 9) =? 0) &&
    (sum (g 1 14) (g 3 11) (g 2 13) (g 1 9) =? 0) && (sum (g 1 14) (g 1 11) (g 3 13) (g 2 9) =? 0)) = true) as H
    by (vm_compute; reflexivity).
  pose proof (all_below_spec 256 _ a H Ha) as E. cbv beta zeta in E. fold g in E. fold sum in E. clear H.
  apply andb_true_iff in E as [E E4]. apply andb_true_iff in E as [E E3]. apply andb_true_iff in E as [E1 E2].
  apply Z.eqb_eq in E1, E2, E3, E4. done.
Qed.

(** Four sums of four terms, added up by columns. *)
Lemma lxor_transpose a0 a1 a2 a3 b0 b1 b2 b3 c0 c1 c2 c3 d0 d1 d2 d3 :
  let sum x y z w := Z.lxor (Z.lxor (Z.lxor x y) z) w in
  sum (sum a0 a1 a2 a3) (sum b0 b1 b2 b3) (sum c0 c1 c2 c3) (sum d0 d1 d2 d3) =
  sum (sum a0 b0 c0 d0) (sum a1 b1 c1 d1) (sum a2 b2 c2 d2) (sum a3 b3 c3 d3).
Proof. intros sum. unfold sum. apply Z.bits_inj. intros n. rewrite !Z.lxor_spec. btauto. Qed.

Lemma lxor_rotate x y z w : Z.lxor (Z.lxor (Z.lxor x y) z) w = Z.lxor (Z.lxor (Z.lxor w x) y) z.
Proof. apply Z.bits_inj. intros n. rewrite !Z.lxor_spec. btauto. Qed.

Lemma mix_column_inverse c :
  octets c → length c = 4%nat → mix_column 14 11 13 9 (mix_column 2 3 1 1 c) = c.
Proof.
  intros Ho Hl. do 5 (destruct c as [|? c]; try done). rename z into a0, z0 into a1, z1 into a2, z2 into a3.
  apply Forall_cons in Ho as [H0 Ho]. apply Forall_cons in Ho as [H1 Ho].
  apply Forall_cons in Ho as [H2 Ho]. apply Forall_cons in Ho as [H3 _].
  destruct (matrix_entries a0 H0) as (A1 & A2 & A3 & A4), (matrix_entries a1 H1) as (B1 & B2 & B3 & B4),
    (matrix_entries a2 H2) as (C1 & C2 & C3 & C4), (matrix_entries a3 H3) as (D1 & D2 & D3 & D4).
  cbn [mix_column]. rewrite !gf_mul_lxor.
  f_equal; [|f_equal; [|f_equal; [|f_equal]]]; rewrite lxor_transpose.
  - rewrite A1, B2, C3, D4. by rewrite !Z.lxor_0_r.
  - rewrite lxor_rotate in A4, B1, C2, D3. rewrite A4, B1, C2, D3. by rewrite !Z.lxor_0_r, Z.lxor_0_l.
  - do 2 rewrite lxor_rotate in A3, B4, C1, D2. rewrite A3, B4, C1, D2. by rewrite !Z.lxor_0_r, Z.lxor_0_l.
  - do 3 rewrite lxor_rotate in A2, B3, C4, D1. rewrite A2, B3, C4, D1. by rewrite !Z.lxor_0_l.
Qed.

(** *** States *)

Definition aes_state (s : list Z) : Prop := length s = 16%nat ∧ octets s.

Lemma list_16 (s : list Z) : length s = 16%nat →
  ∃ a b c d e f g h i j k l m n o p, s = [a; b; c; d; e; f; g; h; i; j; k; l; m; n; o; p].
Proof. intros Hl. do 17 (destruct s as [|? s]; try done). by repeat eexists. Qed.

(** A state as its sixteen octets. *)
Ltac state_cases s H :=
  let Hlen := fresh "Hlen" in let Hoct := fresh "Hoct" in
  destruct H as [Hlen Hoct]; destruct (list_16 s Hlen) as (?a & ?b & ?c & ?d & ?e & ?f & ?g & ?h & ?i & ?j & ?k & ?l & ?m & ?n & ?o & ?p & ->);
  clear Hlen; unfold octets in Hoct;
  repeat match goal with H : Forall _ (_ :: _) |- _ => apply Forall_cons in H as [? H] end.

Lemma add_round_key_state s k : aes_state s → aes_state k → aes_state (add_round_key s k).
Proof.
  intros [Hs Ho] [Hk Hko]. split; [unfold add_round_key; rewrite length_zip_with; lia|by apply zip_lxor_octets].
Qed.

Lemma add_round_key_twice s k : aes_state s → aes_state k → add_round_key (add_round_key s k) k = s.
Proof. intros [Hs _] [Hk _]. apply zip_lxor_twice. lia. Qed.

Lemma look_state s : aes_state s → aes_state (look fips_sbox <$> s).
Proof.
  intros [Hl Ho]. split; [by rewrite length_fmap|]. apply Forall_fmap. apply (Forall_impl _ _ _ Ho).
  intros x Hx. apply look_octet; [exact (proj1 sbox_length)|exact (proj1 sbox_octets)|exact Hx].
Qed.

Lemma shift_rows_state s : aes_state s → aes_state (shift_rows s).
Proof. intros H. state_cases s H. split; [reflexivity|]. repeat (constructor; [assumption|]). constructor. Qed.

Lemma sub_shift_state s : aes_state s → aes_state (sub_shift fips_sbox s).
Proof. intros H. by apply shift_rows_state, look_state. Qed.

Lemma inv_shift_shift s : length s = 16%nat → inv_shift_rows (shift_rows s) = s.
Proof. intros H. destruct (list_16 s H) as (? & ? & ? & ? & ? & ? & ? & ? & ? & ? & ? & ? & ? & ? & ? & ? & ->). reflexivity. Qed.

Lemma inv_sub_shift_sub_shift s : aes_state s → inv_sub_shift fips_inv_sbox (sub_shift fips_sbox s) = s.
Proof.
  intros [Hl Ho]. unfold inv_sub_shift, sub_shift. rewrite inv_shift_shift by by rewrite length_fmap.
  rewrite <-list_fmap_compose. rewrite <-(list_fmap_id s) at 2. apply list_fmap_ext.
  intros n x Hx. exact (proj1 (sbox_inverse x (Forall_lookup_1 _ _ _ _ Ho Hx))).
Qed.

Lemma mix_column_state c : octets c → length c = 4%nat → octets (mix_column 2 3 1 1 c) ∧ length (mix_column 2 3 1 1 c) = 4%nat.
Proof.
  intros Ho Hl. do 5 (destruct c as [|? c]; try done). split; [|done]. unfold octets in Ho.
  repeat match goal with H : Forall _ (_ :: _) |- _ => apply Forall_cons in H as [? H] end.
  assert (∀ a b, 0 ≤ a < 256 → b ∈ [1; 2; 3] → 0 ≤ gf_mul a b < 256) as Hg.
  { intros a b Ha Hb. apply gmul_gf; [done|]. apply list_elem_of_In in Hb as [<-|[<-|[<-|[]]]]; repeat constructor. }
  cbn [mix_column]. do 4 (apply Forall_cons; split; [do 3 (refine (octet_xor _ _ _ _); [|apply Hg; [assumption|repeat constructor]]); (apply Hg; [assumption|repeat constructor])|]).
  constructor.
Qed.

Lemma columns_state f s :
  (∀ c, octets c → length c = 4%nat → octets (f c) ∧ length (f c) = 4%nat) → aes_state s → aes_state (on_columns f s).
Proof.
  intros Hf [Hl Ho]. unfold on_columns, aes_state.
  assert (∀ i, (i ≤ 12)%nat → octets (f (take 4 (drop i s))) ∧ length (f (take 4 (drop i s))) = 4%nat) as H.
  { intros i Hi. apply Hf; [by apply Forall_take, Forall_drop|]. rewrite length_take, length_drop. lia. }
  destruct (H 0%nat ltac:(lia)) as [? ?], (H 4%nat ltac:(lia)), (H 8%nat ltac:(lia)), (H 12%nat ltac:(lia)).
  rewrite drop_0 in *. rewrite !length_app. split; [lia|]. by repeat (apply octets_app; split).
Qed.

Lemma inv_mix_mix s : aes_state s → inv_mix_columns (mix_columns s) = s.
Proof.
  intros [Hl Ho]. unfold inv_mix_columns, mix_columns.
  set (col i := take 4 (drop i s)).
  assert (∀ i, (i ≤ 12)%nat → octets (col i) ∧ length (col i) = 4%nat) as H.
  { intros i Hi. split; [by apply Forall_take, Forall_drop|]. unfold col. rewrite length_take, length_drop. lia. }
  assert (∀ i, (i ≤ 12)%nat → length (mix_column 2 3 1 1 (col i)) = 4%nat) as Hm.
  { intros i Hi. destruct (H i Hi). by apply mix_column_state. }
  assert (on_columns (mix_column 2 3 1 1) s = mix_column 2 3 1 1 (col 0%nat) ++ mix_column 2 3 1 1 (col 4%nat) ++
    mix_column 2 3 1 1 (col 8%nat) ++ mix_column 2 3 1 1 (col 12%nat)) as -> by done.
  set (c0 := mix_column 2 3 1 1 (col 0%nat)). set (c1 := mix_column 2 3 1 1 (col 4%nat)).
  set (c2 := mix_column 2 3 1 1 (col 8%nat)). set (c3 := mix_column 2 3 1 1 (col 12%nat)).
  assert (length c0 = 4%nat ∧ length c1 = 4%nat ∧ length c2 = 4%nat ∧ length c3 = 4%nat) as (L0 & L1 & L2 & L3)
    by (repeat split; apply Hm; lia).
  unfold on_columns. rewrite take_app_length' by done. rewrite (drop_app_length' c0), take_app_length' by done.
  rewrite (app_assoc c0), (drop_app_length' (c0 ++ c1)), take_app_length' by (rewrite ?length_app; lia).
  rewrite (app_assoc (c0 ++ c1)), (drop_app_length' (_ ++ c2)), take_ge by (rewrite ?length_app; lia).
  unfold c0, c1, c2, c3. rewrite !mix_column_inverse by (apply H; lia).
  destruct (list_16 s Hl) as (? & ? & ? & ? & ? & ? & ? & ? & ? & ? & ? & ? & ? & ? & ? & ? & ->). reflexivity.
Qed.

Section key.
Context (rk : list Z) (nr : nat) (Hrk : octets rk) (Hlen : (16 * S nr ≤ length rk)%nat).

Lemma round_key_state r : (r ≤ nr)%nat → aes_state (round_key rk r).
Proof.
  intros Hr. split; [unfold round_key; rewrite length_take, length_drop; lia|by apply Forall_take, Forall_drop].
Qed.

Lemma enc_round_state s r :
  aes_state s → (r ≤ nr)%nat → aes_state (add_round_key (mix_columns (sub_shift fips_sbox s)) (round_key rk r)).
Proof.
  intros Hs Hr. apply add_round_key_state; [|by apply round_key_state].
  apply columns_state; [apply mix_column_state|by apply sub_shift_state].
Qed.

Lemma enc_rounds_state s k n :
  aes_state s → (k + n ≤ S nr)%nat →
  aes_state (foldl (λ s r, add_round_key (mix_columns (sub_shift fips_sbox s)) (round_key rk r)) s (seq k n)).
Proof.
  revert s k. induction n as [|n IH]; intros s k Hs Hr; [done|]. cbn [seq foldl].
  apply IH; [|lia]. apply enc_round_state; [done|lia].
Qed.

Lemma cipher_state s : aes_state s → aes_state (cipher rk nr s).
Proof.
  intros Hs. unfold cipher. apply add_round_key_state; [|apply round_key_state; lia].
  apply sub_shift_state.
  apply enc_rounds_state; [apply add_round_key_state; [done|apply round_key_state; lia]|lia].
Qed.

Lemma rounds_inverse s k n :
  aes_state s → (k + n ≤ S nr)%nat →
  foldr (λ r s, inv_mix_columns (add_round_key (inv_sub_shift fips_inv_sbox s) (round_key rk r)))
    (sub_shift fips_sbox (foldl (λ s r, add_round_key (mix_columns (sub_shift fips_sbox s)) (round_key rk r)) s (seq k n)))
    (seq k n) = sub_shift fips_sbox s.
Proof.
  revert s k. induction n as [|n IH]; intros s k Hs Hr; [done|]. cbn [seq foldl foldr].
  set (s1 := add_round_key (mix_columns (sub_shift fips_sbox s)) (round_key rk k)).
  assert (aes_state s1) as Hs1 by (apply enc_round_state; [done|lia]).
  rewrite IH by (done || lia). rewrite inv_sub_shift_sub_shift by done. unfold s1.
  pose proof (sub_shift_state s Hs).
  rewrite add_round_key_twice; [by apply inv_mix_mix|by apply columns_state, sub_shift_state, Hs; apply mix_column_state|
    apply round_key_state; lia].
Qed.

Lemma inv_cipher_cipher s : aes_state s → inv_cipher rk nr (cipher rk nr s) = s.
Proof.
  intros Hs. unfold inv_cipher, cipher. set (s0 := add_round_key s (round_key rk 0)).
  assert (aes_state s0) as H0 by (apply add_round_key_state; [done|apply round_key_state; lia]).
  assert (aes_state (foldl (λ s r, add_round_key (mix_columns (sub_shift fips_sbox s)) (round_key rk r)) s0 (seq 1 (nr - 1)))) as H1.
  { apply enc_rounds_state; [done|lia]. }
  rewrite add_round_key_twice by (by apply sub_shift_state || (apply round_key_state; lia)).
  rewrite rounds_inverse by (done || lia). rewrite inv_sub_shift_sub_shift by done.
  apply add_round_key_twice; [done|apply round_key_state; lia].
Qed.
End key.

(** ** The code computes it *)

(** A loop that changes element [i] in step [i]. *)
Lemma update_loop (n : nat) (body : Z → list Z → option (list Z)) (f : nat → Z) s :
  (∀ (i : nat) w, (i < n)%nat → w !! i = s !! i → body (Z.of_nat i) w = aset w (Z.of_nat i) (f i)) →
  (n ≤ length s)%nat → for_up n 0 body s = Some ((f <$> seq 0 n) ++ drop n s).
Proof.
  intros Hb Hn.
  destruct (for_up_inv (λ j d, ∃ k : nat, j = Z.of_nat k ∧ d = (f <$> seq 0 k) ++ drop k s)
    n 0 body s) as (d & -> & k & Hk & ->).
  - by exists 0%nat.
  - intros j d Hj (k & -> & ->). destruct (lookup_lt_is_Some_2 s k) as [x Hx]; [lia|].
    assert (length (f <$> seq 0 k) = k) as Hl by by rewrite length_fmap, length_seq.
    rewrite Hb; [|lia|rewrite lookup_app_r, Hl, lookup_drop by lia; f_equal; lia].
    rewrite (drop_lookup_cons _ _ _ Hx). replace (Z.of_nat k) with (Z.of_nat (length (f <$> seq 0 k))) by by rewrite Hl.
    rewrite aset_app_here.
    eexists. split; [done|]. exists (S k). split; [lia|]. rewrite seq_S, fmap_app. by rewrite <-app_assoc.
  - by replace k with n by lia.
Qed.

Lemma zip_key s rk (r : nat) :
  length s = 16%nat → (16 * S r ≤ length rk)%nat →
  (λ i, Z.lxor (s !!! i) (rk !!! (16 * r + i)%nat)) <$> seq 0 16 = add_round_key s (round_key rk r).
Proof.
  intros Hs Hr. apply list_eq_same_length with 16%nat.
  - unfold add_round_key, round_key. rewrite length_zip_with, length_take, length_drop. lia.
  - by rewrite length_fmap, length_seq.
  - intros i x y Hi Hx Hy. unfold add_round_key, round_key in Hy. rewrite lookup_zip_with in Hy.
    rewrite lookup_take, lookup_drop in Hy. rewrite list_lookup_fmap, lookup_seq_lt in Hx by lia.
    change (Some (Z.lxor (s !!! i) (rk !!! (16 * r + i)%nat)) = Some x) in Hx.
    rewrite (list_lookup_lookup_total_lt s i), (list_lookup_lookup_total_lt rk (16 * r + i)) in Hy by lia.
    rewrite decide_True in Hy by done. apply (inj Some) in Hx, Hy. by rewrite <-Hx, <-Hy.
Qed.

Lemma add_key_loop t rk (r : nat) off s :
  length t = 16%nat → length s = 16%nat → (16 * S r ≤ length rk)%nat → off = Z.of_nat (16 * r) →
  owc_add_key t rk off s = Some (add_round_key t (round_key rk r)).
Proof.
  intros Ht Hs Hr ->. unfold owc_add_key.
  rewrite (update_loop 16 _ (λ i, Z.lxor (t !!! i) (rk !!! (16 * r + i)%nat))); [|intros i w Hi Hw|lia].
  - by rewrite zip_key, drop_ge, app_nil_r by lia.
  - rewrite <-Nat2Z.inj_add, !aget_of_nat.
    by rewrite (list_lookup_lookup_total_lt t i), (list_lookup_lookup_total_lt rk (16 * r + i)) by lia.
Qed.

Lemma xor_key_loop s rk (r : nat) off :
  length s = 16%nat → (16 * S r ≤ length rk)%nat → off = Z.of_nat (16 * r) →
  for_up 16 0 (λ i s, x ← aget s i; k ← aget rk (off + i); aset s i (Z.lxor x k)) s =
    Some (add_round_key s (round_key rk r)).
Proof.
  intros Hs Hr ->.
  rewrite (update_loop 16 _ (λ i, Z.lxor (s !!! i) (rk !!! (16 * r + i)%nat))); [|intros i w Hi Hw|lia].
  - by rewrite zip_key, drop_ge, app_nil_r by lia.
  - rewrite <-Nat2Z.inj_add, !aget_of_nat, Hw.
    by rewrite (list_lookup_lookup_total_lt s i), (list_lookup_lookup_total_lt rk (16 * r + i)) by lia.
Qed.

(** Reads and writes at computed positions of a state. *)
Lemma state_get (s : list Z) i : length s = 16%nat → 0 ≤ i < 16 → aget s i = Some (s !!! Z.to_nat i).
Proof. intros Hs Hi. rewrite aget_to_nat by lia. apply list_lookup_lookup_total_lt. lia. Qed.

Lemma state_octet (s : list Z) i : aes_state s → 0 ≤ i < 16 → 0 ≤ s !!! Z.to_nat i < 256.
Proof.
  intros [Hl Ho] Hi. apply (Forall_lookup_1 _ s (Z.to_nat i) _ Ho). apply list_lookup_lookup_total_lt. lia.
Qed.

Lemma table_get (t s : list Z) i :
  length t = 256%nat → aes_state s → 0 ≤ i < 16 → aget t (s !!! Z.to_nat i) = Some (look t (s !!! Z.to_nat i)).
Proof. intros Ht Hs Hi. apply aget_table; [done|]. by apply state_octet. Qed.

Lemma state_set (s : list Z) i x : length s = 16%nat → 0 ≤ i < 16 → aset s i x = Some (<[Z.to_nat i := x]> s).
Proof. intros Hs Hi. apply aset_in. lia. Qed.

Ltac state_run :=
  repeat (rewrite ?state_get, ?table_get, ?state_set, ?obind_Some by
    (first [assumption|lia|rewrite !length_insert; assumption|(try split; Z.to_euclidean_division_equations; lia)])).

#[local] Opaque look owc_gmul gf_mul.

(** The four columns in turn. *)
Lemma four_columns (body : Z → list Z → option (list Z)) (f : Z → list Z → list Z) t :
  (∀ c t, 0 ≤ c < 4 → length t = 16%nat → body c t = Some (f c t) ∧ length (f c t) = 16%nat) →
  length t = 16%nat → for_up 4 0 body t = Some (f 3 (f 2 (f 1 (f 0 t)))).
Proof.
  intros Hb H0. destruct (Hb 0 t) as [E0 H1]; [lia|done|]. destruct (Hb 1 _ ltac:(lia) H1) as [E1 H2].
  destruct (Hb 2 _ ltac:(lia) H2) as [E2 H3]. destruct (Hb 3 _ ltac:(lia) H3) as [E3 _].
  cbn [for_up]. rewrite E0, obind_Some. change (0 + 1) with 1. rewrite E1, obind_Some. change (1 + 1) with 2.
  rewrite E2, obind_Some. change (2 + 1) with 3. by rewrite E3.
Qed.

Lemma sub_shift_loop s :
  aes_state s → for_up 4 0 (owc_sub_shift fips_sbox s) (replicate 16 0) = Some (sub_shift fips_sbox s).
Proof.
  intros H. pose proof (proj1 H) as Hl.
  rewrite (four_columns _ (λ c t,
    <[Z.to_nat (4 * ((c + 1) mod 4) + 3) := look fips_sbox (s !!! Z.to_nat (4 * c + 3))]>
    (<[Z.to_nat (4 * ((c + 2) mod 4) + 2) := look fips_sbox (s !!! Z.to_nat (4 * c + 2))]>
    (<[Z.to_nat (4 * ((c + 3) mod 4) + 1) := look fips_sbox (s !!! Z.to_nat (4 * c + 1))]>
    (<[Z.to_nat (4 * ((c + 0) mod 4) + 0) := look fips_sbox (s !!! Z.to_nat (4 * c + 0))]> t))))); [|intros c t Hc Ht|done].
  - destruct (list_16 s Hl) as (? & ? & ? & ? & ? & ? & ? & ? & ? & ? & ? & ? & ? & ? & ? & ? & ->). reflexivity.
  - split; [|by rewrite !length_insert]. unfold owc_sub_shift. pose proof (proj1 sbox_length). state_run. reflexivity.
Qed.

Lemma gmul_coefficient (s : list Z) i b : aes_state s → 0 ≤ i < 16 → b ∈ coefficients →
  owc_gmul (s !!! Z.to_nat i) b = gf_mul (s !!! Z.to_nat i) b.
Proof. intros Hs Hi Hb. apply gmul_gf; [by apply state_octet|done]. Qed.

Lemma mix_loop t s :
  aes_state t → length s = 16%nat → for_up 4 0 (owc_mix t) s = Some (mix_columns t).
Proof.
  intros H Hs. pose proof (proj1 H) as Hl.
  rewrite (four_columns _ (λ c s,
    let a k := t !!! Z.to_nat (4 * c + k) in let sum x y z w := Z.lxor (Z.lxor (Z.lxor x y) z) w in
    <[Z.to_nat (4 * c + 3) := sum (gf_mul (a 0) 3) (gf_mul (a 1) 1) (gf_mul (a 2) 1) (gf_mul (a 3) 2)]>
    (<[Z.to_nat (4 * c + 2) := sum (gf_mul (a 0) 1) (gf_mul (a 1) 1) (gf_mul (a 2) 2) (gf_mul (a 3) 3)]>
    (<[Z.to_nat (4 * c + 1) := sum (gf_mul (a 0) 1) (gf_mul (a 1) 2) (gf_mul (a 2) 3) (gf_mul (a 3) 1)]>
    (<[Z.to_nat (4 * c + 0) := sum (gf_mul (a 0) 2) (gf_mul (a 1) 3) (gf_mul (a 2) 1) (gf_mul (a 3) 1)]> s))))); [|intros c u Hc Hu|done].
  - destruct (list_16 t Hl) as (? & ? & ? & ? & ? & ? & ? & ? & ? & ? & ? & ? & ? & ? & ? & ? & ->).
    destruct (list_16 s Hs) as (? & ? & ? & ? & ? & ? & ? & ? & ? & ? & ? & ? & ? & ? & ? & ? & ->). reflexivity.
  - split; [|by rewrite !length_insert]. unfold owc_mix. state_run.
    rewrite !gmul_coefficient by first [assumption|lia|repeat constructor].
    rewrite !gf_mul_1 by (apply state_octet; [assumption|lia]). reflexivity.
Qed.

Lemma inv_sub_shift_loop s :
  aes_state s → for_up 4 0 (owc_inv_sub_shift fips_inv_sbox s) (replicate 16 0) = Some (inv_sub_shift fips_inv_sbox s).
Proof.
  intros H. pose proof (proj1 H) as Hl.
  rewrite (four_columns _ (λ c t,
    <[Z.to_nat (4 * ((c + 3) mod 4) + 3) := look fips_inv_sbox (s !!! Z.to_nat (4 * c + 3))]>
    (<[Z.to_nat (4 * ((c + 2) mod 4) + 2) := look fips_inv_sbox (s !!! Z.to_nat (4 * c + 2))]>
    (<[Z.to_nat (4 * ((c + 1) mod 4) + 1) := look fips_inv_sbox (s !!! Z.to_nat (4 * c + 1))]>
    (<[Z.to_nat (4 * c + 0) := look fips_inv_sbox (s !!! Z.to_nat (4 * c + 0))]> t))))); [|intros c t Hc Ht|done].
  - destruct (list_16 s Hl) as (? & ? & ? & ? & ? & ? & ? & ? & ? & ? & ? & ? & ? & ? & ? & ? & ->). reflexivity.
  - split; [|by rewrite !length_insert]. unfold owc_inv_sub_shift. pose proof (proj2 sbox_length). state_run. reflexivity.
Qed.

Lemma inv_shift_loop s :
  length s = 16%nat → for_up 4 0 (owc_inv_shift s) (replicate 16 0) = Some (inv_shift_rows s).
Proof.
  intros Hl. rewrite (four_columns _ (λ c t,
    <[Z.to_nat (4 * ((c + 3) mod 4) + 3) := s !!! Z.to_nat (4 * c + 3)]>
    (<[Z.to_nat (4 * ((c + 2) mod 4) + 2) := s !!! Z.to_nat (4 * c + 2)]>
    (<[Z.to_nat (4 * ((c + 1) mod 4) + 1) := s !!! Z.to_nat (4 * c + 1)]>
    (<[Z.to_nat (4 * c + 0) := s !!! Z.to_nat (4 * c + 0)]> t))))); [|intros c t Hc Ht|done].
  - destruct (list_16 s Hl) as (? & ? & ? & ? & ? & ? & ? & ? & ? & ? & ? & ? & ? & ? & ? & ? & ->). reflexivity.
  - split; [|by rewrite !length_insert]. unfold owc_inv_shift. state_run. reflexivity.
Qed.

Lemma inv_mix_loop t rk (r : nat) s :
  aes_state t → length s = 16%nat → octets rk → (16 * S r ≤ length rk)%nat →
  for_up 4 0 (owc_inv_mix t rk (Z.of_nat r + 1)) s = Some (inv_mix_columns (add_round_key t (round_key rk r))).
Proof.
  intros H Hs Hr Hrl. pose proof (proj1 H) as Hl. set (k := round_key rk r).
  assert (aes_state k) as Hk by (split; [unfold k, round_key; rewrite length_take, length_drop; lia|by apply Forall_take, Forall_drop]).
  set (u := add_round_key t k). assert (aes_state u) as Hu by by apply add_round_key_state.
  assert (∀ i, 0 ≤ i < 16 → aget rk (16 * (Z.of_nat r + 1 - 1) + i) = Some (k !!! Z.to_nat i)) as Hg.
  { intros i Hi. rewrite aget_to_nat by lia. rewrite <-(list_lookup_lookup_total_lt k) by (rewrite (proj1 Hk); lia).
    unfold k, round_key. rewrite lookup_take, decide_True, lookup_drop by lia. f_equal. lia. }
  assert (∀ i, 0 ≤ i < 16 → Z.lxor (t !!! Z.to_nat i) (k !!! Z.to_nat i) = u !!! Z.to_nat i) as Hx.
  { intros i Hi. unfold u, add_round_key. symmetry. apply list_lookup_total_correct. rewrite lookup_zip_with.
    rewrite (list_lookup_lookup_total_lt t), (list_lookup_lookup_total_lt k) by (rewrite ?Hl, ?(proj1 Hk); lia). done. }
  rewrite (four_columns _ (λ c s,
    let a k := u !!! Z.to_nat (4 * c + k) in let sum x y z w := Z.lxor (Z.lxor (Z.lxor x y) z) w in
    <[Z.to_nat (4 * c + 3) := sum (gf_mul (a 0) 11) (gf_mul (a 1) 13) (gf_mul (a 2) 9) (gf_mul (a 3) 14)]>
    (<[Z.to_nat (4 * c + 2) := sum (gf_mul (a 0) 13) (gf_mul (a 1) 9) (gf_mul (a 2) 14) (gf_mul (a 3) 11)]>
    (<[Z.to_nat (4 * c + 1) := sum (gf_mul (a 0) 9) (gf_mul (a 1) 14) (gf_mul (a 2) 11) (gf_mul (a 3) 13)]>
    (<[Z.to_nat (4 * c + 0) := sum (gf_mul (a 0) 14) (gf_mul (a 1) 11) (gf_mul (a 2) 13) (gf_mul (a 3) 9)]> s))))); [|intros c w Hc Hw|done].
  - destruct (list_16 u (proj1 Hu)) as (? & ? & ? & ? & ? & ? & ? & ? & ? & ? & ? & ? & ? & ? & ? & ? & ->).
    destruct (list_16 s Hs) as (? & ? & ? & ? & ? & ? & ? & ? & ? & ? & ? & ? & ? & ? & ? & ? & ->). reflexivity.
  - split; [|by rewrite !length_insert]. unfold owc_inv_mix. rewrite <-!Z.add_assoc. rewrite !Hg by lia. state_run.
    rewrite !Hx by lia. rewrite !gmul_coefficient by first [assumption|lia|repeat constructor]. reflexivity.
Qed.

(** ** Blocks *)

Lemma inv_shift_rows_state s : aes_state s → aes_state (inv_shift_rows s).
Proof. intros H. state_cases s H. split; [reflexivity|]. repeat (constructor; [assumption|]). constructor. Qed.

Lemma inv_state t : aes_state t → aes_state (inv_sub_shift fips_inv_sbox t).
Proof.
  intros H. unfold inv_sub_shift. destruct (inv_shift_rows_state t H) as [Hl Ho].
  split; [by rewrite length_fmap|]. apply Forall_fmap.
  apply (Forall_impl _ _ _ Ho). intros x Hx. apply look_octet; [exact (proj2 sbox_length)|exact (proj2 sbox_octets)|exact Hx].
Qed.

Lemma inv_mix_column_state c : octets c → length c = 4%nat → octets (mix_column 14 11 13 9 c) ∧ length (mix_column 14 11 13 9 c) = 4%nat.
Proof.
  intros Ho Hl. do 5 (destruct c as [|? c]; try done). split; [|done]. unfold octets in Ho.
  repeat match goal with H : Forall _ (_ :: _) |- _ => apply Forall_cons in H as [? H] end.
  assert (∀ a b, 0 ≤ a < 256 → b ∈ coefficients → 0 ≤ gf_mul a b < 256) as Hg by (intros a b Ha Hb; by apply gmul_gf).
  cbn [mix_column].
  do 4 (apply Forall_cons; split; [do 3 (refine (octet_xor _ _ _ _); [|apply Hg; [assumption|repeat constructor]]);
    (apply Hg; [assumption|repeat constructor])|]).
  constructor.
Qed.

Section block.
Context (rk : list Z) (nr : nat) (Hrk : octets rk) (Hlen : (16 * S nr ≤ length rk)%nat).

Lemma enc_round_spec s (r : nat) :
  aes_state s → (r ≤ nr)%nat →
  owc_aes_round fips_sbox rk (Z.of_nat r) s =
    Some (add_round_key (mix_columns (sub_shift fips_sbox s)) (round_key rk r)).
Proof.
  intros Hs Hr. unfold owc_aes_round. rewrite sub_shift_loop, obind_Some by done.
  pose proof (sub_shift_state s Hs) as H1. rewrite mix_loop, obind_Some by (done || apply Hs).
  apply xor_key_loop; [|lia|lia]. apply columns_state; [apply mix_column_state|done].
Qed.

Lemma enc_rounds_spec s (k n : nat) :
  aes_state s → (k + n ≤ S nr)%nat →
  for_up n (Z.of_nat k) (owc_aes_round fips_sbox rk) s =
    Some (foldl (λ s r, add_round_key (mix_columns (sub_shift fips_sbox s)) (round_key rk r)) s (seq k n)).
Proof.
  revert s k. induction n as [|n IH]; intros s k Hs Hr; [done|]. cbn [for_up seq foldl].
  rewrite enc_round_spec, obind_Some by (done || lia). replace (Z.of_nat k + 1) with (Z.of_nat (S k)) by lia.
  apply IH; [|lia]. apply (enc_round_state rk nr Hrk Hlen); [done|lia].
Qed.

(** The block at the head of [inb] and the result at the head of [out]. *)
Lemma encrypt_block_spec out inb :
  octets (take 16 inb) → (16 ≤ length inb)%nat → (16 ≤ length out)%nat →
  owc_aes_encrypt_block fips_sbox out inb rk (Z.of_nat nr) = Some (cipher rk nr (take 16 inb) ++ drop 16 out).
Proof.
  intros Hi Hil Hol. unfold owc_aes_encrypt_block.
  change 16 with (Z.of_nat 16). rewrite copy_bytes_spec, obind_Some by (simpl; lia).
  rewrite (drop_ge (replicate 16 0)), app_nil_r by (simpl; lia). change (Z.of_nat 16) with 16.
  set (s := take 16 inb). assert (aes_state s) as Hs by (split; [unfold s; rewrite length_take; lia|done]).
  assert (aes_state (round_key rk 0)) as Hk0 by (apply (round_key_state rk nr Hrk Hlen); lia).
  etransitivity; [apply (f_equal (λ y, y ≫= _)), (xor_key_loop s rk 0 0); [apply Hs|lia|done]|].
  rewrite obind_Some. set (s0 := add_round_key s (round_key rk 0)).
  assert (aes_state s0) as H0 by by apply add_round_key_state.
  replace (Z.to_nat (Z.of_nat nr - 1)) with (nr - 1)%nat by lia. change 1 with (Z.of_nat 1).
  rewrite enc_rounds_spec, obind_Some by (done || lia).
  unfold cipher. fold s0. set (s1 := foldl _ s0 _).
  assert (aes_state s1) as H1 by (apply (enc_rounds_state rk nr Hrk Hlen); [done|lia]).
  rewrite sub_shift_loop, obind_Some by done.
  rewrite (add_key_loop _ rk nr), obind_Some by first [apply (sub_shift_state s1 H1)|apply H1|lia].
  set (s2 := add_round_key _ _).
  assert (aes_state s2) as H2 by (apply add_round_key_state; [by apply sub_shift_state|apply (round_key_state rk nr Hrk Hlen); lia]).
  change 16 with (Z.of_nat 16). rewrite copy_bytes_spec by (rewrite ?(proj1 H2); lia).
  by rewrite take_ge by (rewrite (proj1 H2); lia).
Qed.

Lemma dec_rounds_spec s (n : nat) :
  aes_state s → (n < nr)%nat →
  for_up n 0 (λ n s, owc_aes_inv_round fips_inv_sbox rk (Z.of_nat nr - n) s) s =
    Some (foldr (λ r s, inv_mix_columns (add_round_key (inv_sub_shift fips_inv_sbox s) (round_key rk r))) s
            (seq (nr - n) n)) ∧
  aes_state (foldr (λ r s, inv_mix_columns (add_round_key (inv_sub_shift fips_inv_sbox s) (round_key rk r))) s
            (seq (nr - n) n)).
Proof.
  intros Hs Hn.
  destruct (for_up_inv (λ j d, ∃ k : nat, j = Z.of_nat k ∧
    d = foldr (λ r s, inv_mix_columns (add_round_key (inv_sub_shift fips_inv_sbox s) (round_key rk r))) s (seq (nr - k) k)
    ∧ aes_state d) n 0 (λ n s, owc_aes_inv_round fips_inv_sbox rk (Z.of_nat nr - n) s) s)
    as (d & -> & k & Hk & -> & Hd).
  - by exists 0%nat.
  - intros j d Hj (k & -> & -> & Hd). set (d := foldr _ s _) in *.
    unfold owc_aes_inv_round. rewrite inv_sub_shift_loop, obind_Some by done.
    replace (Z.of_nat nr - Z.of_nat k) with (Z.of_nat (nr - S k) + 1) by lia.
    pose proof (inv_state d Hd) as H1. assert (aes_state (round_key rk (nr - S k))) as H2
      by (apply (round_key_state rk nr Hrk Hlen); lia).
    rewrite inv_mix_loop by (done || apply Hd || lia). eexists. split; [done|]. exists (S k). split; [lia|].
    split.
    + replace (seq (nr - S k) (S k)) with ((nr - S k)%nat :: seq (nr - k) k); [done|].
      cbn [seq]. do 2 f_equal. lia.
    + apply columns_state; [apply inv_mix_column_state|by apply add_round_key_state].
  - by replace k with n in * by lia.
Qed.

Lemma decrypt_block_spec out inb :
  (1 ≤ nr)%nat → octets (take 16 inb) → (16 ≤ length inb)%nat → (16 ≤ length out)%nat →
  owc_aes_decrypt_block fips_inv_sbox out inb rk (Z.of_nat nr) = Some (inv_cipher rk nr (take 16 inb) ++ drop 16 out).
Proof.
  intros Hnr Hi Hil Hol. unfold owc_aes_decrypt_block.
  change 16 with (Z.of_nat 16). rewrite copy_bytes_spec, obind_Some by (simpl; lia).
  rewrite (drop_ge (replicate 16 0)), app_nil_r by (simpl; lia). change (Z.of_nat 16) with 16.
  set (s := take 16 inb). assert (aes_state s) as Hs by (split; [unfold s; rewrite length_take; lia|done]).
  assert (∀ r, (r ≤ nr)%nat → aes_state (round_key rk r)) as Hk by (intros r; apply (round_key_state rk nr Hrk Hlen)).
  etransitivity; [apply (f_equal (λ y, y ≫= _)), (xor_key_loop s rk nr); [apply Hs|lia|lia]|].
  rewrite obind_Some. set (s0 := add_round_key s (round_key rk nr)).
  assert (aes_state s0) as H0 by (apply add_round_key_state; [done|apply Hk; lia]).
  replace (Z.to_nat (Z.of_nat nr - 1)) with (nr - 1)%nat by lia.
  destruct (dec_rounds_spec s0 (nr - 1) H0 ltac:(lia)) as [-> H1]. rewrite obind_Some.
  unfold inv_cipher. fold s0. replace (nr - (nr - 1))%nat with 1%nat in * by lia. set (s1 := foldr _ s0 _) in *.
  rewrite inv_shift_loop, obind_Some by apply H1.
  pose proof (inv_shift_rows_state s1 H1) as Ht.
  set (t := inv_shift_rows s1) in *.
  rewrite (load_loop 16 _ (λ i, Z.lxor (look fips_inv_sbox (t !!! i)) (rk !!! i))); [|intros i w Hb|rewrite (proj1 H1); lia].
  2:{ rewrite !aget_of_nat, (list_lookup_lookup_total_lt t) by (rewrite (proj1 Ht); lia). rewrite obind_Some.
      rewrite aget_table; [|exact (proj2 sbox_length)|rewrite <-(Nat2Z.id i); apply state_octet; [done|lia]].
      rewrite obind_Some, (list_lookup_lookup_total_lt rk) by lia. done. }
  rewrite obind_Some, drop_ge, app_nil_r by (rewrite (proj1 H1); lia).
  assert ((λ i, Z.lxor (look fips_inv_sbox (t !!! i)) (rk !!! i)) <$> seq 0 16 =
    add_round_key (inv_sub_shift fips_inv_sbox s1) (round_key rk 0)) as ->.
  { rewrite <-zip_key by (apply inv_state, H1 || lia). apply list_fmap_ext. intros i x Hx.
    apply lookup_seq in Hx as [-> Hx]. f_equal. unfold inv_sub_shift. fold t.
    symmetry. apply list_lookup_total_correct. rewrite list_lookup_fmap.
    by rewrite (list_lookup_lookup_total_lt t) by (rewrite (proj1 Ht); lia). }
  set (s2 := add_round_key _ _). assert (aes_state s2) as H2 by (apply add_round_key_state; [by apply inv_state|apply Hk; lia]).
  change 16 with (Z.of_nat 16). rewrite copy_bytes_spec by (rewrite ?(proj1 H2); lia).
  by rewrite take_ge by (rewrite (proj1 H2); lia).
Qed.
End block.

(** ** The key schedule *)

Definition rot_word (w : list Z) : list Z := drop 1 w ++ take 1 w.
Definition sub_word (w : list Z) : list Z := look fips_sbox <$> w.
(** [Rcon[j]] is the power [x^(j-1)] of the field. *)
Definition rcon (j : nat) : list Z := [Nat.iter (j - 1) (gf_mul 2) 1; 0; 0; 0].

Definition next_word (nk : nat) (ws : list (list Z)) : list Z :=
  let i := length ws in
  let t := ws !!! (i - 1)%nat in
  let t := if decide (i mod nk = 0)%nat then zip_with Z.lxor (sub_word (rot_word t)) (rcon (i / nk))
           else if decide (6 < nk ∧ i mod nk = 4)%nat then sub_word t else t in
  zip_with Z.lxor (ws !!! (i - nk)%nat) t.
Definition key_expansion (key : list Z) (nk : nat) : list (list Z) :=
  Nat.iter (4 * (nk + 7) - nk) (λ ws, ws ++ [next_word nk ws]) ((λ i, take 4 (drop (4 * i) key)) <$> seq 0 nk).

Definition words_ok (ws : list (list Z)) : Prop := Forall (λ w, length w = 4%nat ∧ octets w) ws.

Lemma join_length ws : words_ok ws → length (mjoin ws) = (4 * length ws)%nat.
Proof. induction 1 as [|w ws [Hw _] _ IH]; [done|]. change (mjoin (w :: ws)) with (w ++ mjoin ws). rewrite length_app, IH. simpl. lia. Qed.

Lemma join_lookup ws (k j : nat) w :
  words_ok ws → ws !! k = Some w → (j < 4)%nat → mjoin ws !! (4 * k + j)%nat = w !! j.
Proof.
  intros H. revert k. induction H as [|v ws [Hv _] _ IH]; intros k Hk Hj; [done|]. change (mjoin (v :: ws)) with (v ++ mjoin ws).
  destruct k as [|k]; cbn in Hk.
  - apply (inj Some) in Hk as ->. rewrite lookup_app_l by lia. done.
  - rewrite lookup_app_r by lia. rewrite <-(IH k Hk Hj). f_equal. lia.
Qed.

Lemma word_cases (w : list Z) : length w = 4%nat → ∃ a b c d, w = [a; b; c; d].
Proof. intros Hl. do 5 (destruct w as [|? w]; try done). by repeat eexists. Qed.

Lemma sub_word_spec t : octets t → length t = 4%nat → owc_sub_word fips_sbox t = Some (sub_word t).
Proof.
  intros Ho Hl. unfold owc_sub_word.
  rewrite (update_loop 4 _ (λ i, look fips_sbox (t !!! i))); [|intros i w Hi Hw|lia].
  - rewrite drop_ge, app_nil_r by lia. f_equal. destruct (word_cases t Hl) as (a & b & c & d & ->). reflexivity.
  - rewrite aget_of_nat, Hw, (list_lookup_lookup_total_lt t), obind_Some by lia.
    rewrite aget_table; [done|exact (proj1 sbox_length)|].
    apply (Forall_lookup_1 _ t i _ Ho). apply list_lookup_lookup_total_lt. lia.
Qed.

Lemma sub_word_ok t : octets t → length t = 4%nat → length (sub_word t) = 4%nat ∧ octets (sub_word t).
Proof.
  intros Ho Hl. split; [by unfold sub_word; rewrite length_fmap|]. apply Forall_fmap, (Forall_impl _ _ _ Ho). intros x Hx.
  apply look_octet; [exact (proj1 sbox_length)|exact (proj1 sbox_octets)|exact Hx].
Qed.

Lemma rcon_table (j : nat) :
  (1 ≤ j ≤ 10)%nat → aget owc_rcon (Z.of_nat j - 1) = Some (Nat.iter (j - 1) (gf_mul 2) 1) ∧ octets (rcon j).
Proof.
  intros Hj. destruct j as [|j]; [lia|]. do 10 (destruct j as [|j]; [split; [vm_compute; reflexivity|
    repeat (constructor; [vm_compute; split; [discriminate|reflexivity]|]); constructor]|]). lia.
Qed.

(** The word that is combined with the one [nk] before. *)
Definition mixed_word (nk i : nat) (t : list Z) : list Z :=
  if decide (i mod nk = 0)%nat then zip_with Z.lxor (sub_word (rot_word t)) (rcon (i / nk))
  else if decide (6 < nk ∧ i mod nk = 4)%nat then sub_word t else t.

Lemma quot_bounds nk i : nk = 4%nat ∨ nk = 8%nat → (nk ≤ i < 4 * (nk + 7))%nat → (1 ≤ i / nk ≤ 10)%nat.
Proof.
  intros Hnk Hi. assert (i / nk < 11)%nat by (apply Nat.Div0.div_lt_upper_bound; destruct Hnk as [-> | ->]; lia).
  assert (1 ≤ i / nk)%nat by (apply Nat.div_le_lower_bound; destruct Hnk as [-> | ->]; lia). lia.
Qed.

Lemma mixed_word_ok nk i t :
  nk = 4%nat ∨ nk = 8%nat → (nk ≤ i < 4 * (nk + 7))%nat → octets t → length t = 4%nat →
  length (mixed_word nk i t) = 4%nat ∧ octets (mixed_word nk i t).
Proof.
  intros Hnk Hi Ho Hl. unfold mixed_word. destruct (decide _) as [Hm|Hm].
  - assert (octets (rot_word t) ∧ length (rot_word t) = 4%nat) as [Hro Hrl].
    { destruct (word_cases t Hl) as (a & b & c & d & ->). split; [|done]. unfold octets in *.
      repeat match goal with H : Forall _ (_ :: _) |- _ => apply Forall_cons in H as [? H] end.
      repeat (constructor; [assumption|]). constructor. }
    destruct (sub_word_ok _ Hro Hrl) as [Hsl Hso].
    destruct (rcon_table (i / nk)) as [_ Hr]; [by apply quot_bounds|].
    split; [rewrite length_zip_with, Hsl; reflexivity|by apply zip_lxor_octets].
  - destruct (decide _); [by apply sub_word_ok|done].
Qed.

Lemma expand_temp_spec (nk i : nat) t :
  nk = 4%nat ∨ nk = 8%nat → (nk ≤ i < 4 * (nk + 7))%nat → octets t → length t = 4%nat →
  owc_expand_temp fips_sbox (Z.of_nat nk) (Z.of_nat i) t = Some (mixed_word nk i t).
Proof.
  intros Hnk Hi Ho Hl. unfold owc_expand_temp, mixed_word. rewrite <-Nat2Z.inj_mod, <-Nat2Z.inj_div.
  destruct (word_cases t Hl) as (a & b & c & d & ->). set (t := [a; b; c; d]) in *.
  destruct (decide (i mod nk = 0)%nat) as [E|E].
  - rewrite E. change (Z.of_nat 0 =? 0) with true. cbn iota.
    assert (octets (rot_word t)) as Hr.
    { unfold octets in *. repeat match goal with H : Forall _ _ |- _ => apply Forall_cons in H as [? H] end.
      repeat (constructor; [assumption|]). constructor. }
    transitivity (t ← owc_sub_word fips_sbox (rot_word t); t0 ← aget t 0;
      rc ← aget owc_rcon (Z.of_nat (i / nk) - 1); aset t 0 (Z.lxor t0 rc)); [reflexivity|].
    rewrite sub_word_spec, obind_Some by done.
    destruct (rcon_table (i / nk) (quot_bounds nk i Hnk Hi)) as [-> _].
    unfold rcon. generalize (Nat.iter (i / nk - 1) (gf_mul 2) 1). intros r.
    transitivity (Some [Z.lxor (look fips_sbox b) r; look fips_sbox c; look fips_sbox d; look fips_sbox a]); [reflexivity|].
    cbn. by rewrite !Z.lxor_0_r.
  - rewrite (proj2 (Z.eqb_neq _ _)) by lia.
    assert ((Z.of_nat nk =? 8) && (Z.of_nat (i mod nk) =? 4) = bool_decide (6 < nk ∧ i mod nk = 4)%nat) as ->.
    { destruct Hnk as [-> | ->]; [done|]. cbn [Z.of_nat Z.eqb andb]. symmetry.
      destruct (Z.eqb_spec (Z.of_nat (i mod 8)) 4) as [E4|E4]; [apply bool_decide_eq_true|apply bool_decide_eq_false]; lia. }
    case_bool_decide; [rewrite decide_True by done; by apply sub_word_spec|by rewrite decide_False].
Qed.

Lemma octets_word ws (k : nat) :
  words_ok ws → (k < length ws)%nat → ∃ w, ws !! k = Some w ∧ ws !!! k = w ∧ length w = 4%nat ∧ octets w.
Proof.
  intros H Hk. destruct (lookup_lt_is_Some_2 ws k Hk) as [w Hw]. exists w.
  split; [done|]. split; [by apply list_lookup_total_correct|]. exact (Forall_lookup_1 _ _ _ _ H Hw).
Qed.

(** One step appends one word. *)
Lemma expand_word_spec (nk : nat) ws (q tail : list Z) :
  nk = 4%nat ∨ nk = 8%nat → words_ok ws → (nk ≤ length ws < 4 * (nk + 7))%nat → length q = 4%nat →
  words_ok (ws ++ [next_word nk ws]) ∧
  owc_expand_word fips_sbox (Z.of_nat nk) (Z.of_nat (length ws)) (mjoin ws ++ q ++ tail) =
    Some (mjoin (ws ++ [next_word nk ws]) ++ tail).
Proof.
  intros Hnk Hws Hi Hq. set (i := length ws) in *.
  destruct (octets_word ws (i - 1) Hws ltac:(lia)) as (t & Ht & Ett & Htl & Hto).
  destruct (octets_word ws (i - nk) Hws ltac:(lia)) as (u & Hu & Euu & Hul & Huo).
  assert (next_word nk ws = zip_with Z.lxor u (mixed_word nk i t)) as En by (unfold next_word; fold i; by rewrite Ett, Euu).
  destruct (mixed_word_ok nk i t Hnk Hi Hto Htl) as [Hml Hmo].
  pose proof (join_length ws Hws) as Hjl. fold i in Hjl. split.
  { apply Forall_app. split; [done|]. constructor; [|done]. rewrite En. split; [|by apply zip_lxor_octets].
    rewrite length_zip_with. lia. }
  unfold owc_expand_word.
  rewrite (load_loop 4 _ (λ j, t !!! j)); [|intros j w Hj|simpl; lia].
  2:{ replace (4 * (Z.of_nat i - 1) + Z.of_nat j) with (Z.of_nat (4 * (i - 1) + j)) by lia.
      rewrite aget_of_nat, lookup_app_l by lia. rewrite (join_lookup ws (i - 1) j t) by done.
      by rewrite (list_lookup_lookup_total_lt t) by lia. }
  rewrite obind_Some, (drop_ge (replicate 4 0)), app_nil_r by (simpl; lia).
  rewrite <-Htl at 1. rewrite seq_lookup_total.
  rewrite expand_temp_spec, obind_Some by done. set (m := mixed_word nk i t) in *. clearbody m.
  rewrite (fill_loop 4 _ (λ j, Z.lxor (u !!! j) (m !!! j))); [|intros j w Hj Hw|done].
  - f_equal. rewrite join_app. change (mjoin [next_word nk ws]) with (next_word nk ws ++ []). rewrite app_nil_r, <-app_assoc, En.
    do 2 f_equal. destruct (word_cases u Hul) as (? & ? & ? & ? & ->), (word_cases m Hml) as (? & ? & ? & ? & ->). reflexivity.
  - replace (4 * (Z.of_nat i - Z.of_nat nk) + Z.of_nat j) with (Z.of_nat (4 * (i - nk) + j)) by lia.
    rewrite !aget_of_nat. replace (w !! (4 * (i - nk) + j)%nat) with (mjoin ws !! (4 * (i - nk) + j)%nat)
      by (rewrite <-Hw at 1; rewrite lookup_take, decide_True by lia; done).
    rewrite (join_lookup ws (i - nk) j u) by done. rewrite (list_lookup_lookup_total_lt u), (list_lookup_lookup_total_lt m) by lia.
    rewrite !obind_Some. f_equal. lia.
Qed.

Lemma chunks_join (key : list Z) (n : nat) :
  mjoin ((λ i, take 4 (drop (4 * i) key)) <$> seq 0 n) = take (4 * n) key.
Proof.
  induction n as [|n IH]; [done|]. rewrite seq_S, fmap_app, join_app, IH. cbn [fmap list_fmap mjoin list_join].
  rewrite app_nil_r. change (0 + n)%nat with n. rewrite take_take_drop. f_equal. lia.
Qed.

Lemma key_copy (nk : nat) (key rk0 : list Z) :
  (4 * nk ≤ length key)%nat → (4 * nk ≤ length rk0)%nat →
  for_up nk 0 (λ i rk, for_up 4 0 (λ j rk, x ← aget key (4 * i + j); aset rk (4 * i + j) x) rk) rk0 =
    Some (take (4 * nk) key ++ drop (4 * nk) rk0).
Proof.
  intros Hk Hr.
  destruct (for_up_inv (λ j d, ∃ k : nat, j = Z.of_nat k ∧ d = take (4 * k) key ++ drop (4 * k) rk0) nk 0
    (λ i rk, for_up 4 0 (λ j rk, x ← aget key (4 * i + j); aset rk (4 * i + j) x) rk) rk0) as (d & -> & k & Hk' & ->).
  - by exists 0%nat.
  - intros j d Hj (k & -> & ->).
    change (for_up 4 0 _ ?r) with (copy_at (Z.of_nat 4) key (4 * Z.of_nat k) r (4 * Z.of_nat k)).
    replace (4 * Z.of_nat k) with (Z.of_nat (4 * k)) by lia.
    assert (length (take (4 * k) key) = (4 * k)%nat) as Ht by (rewrite length_take; lia).
    rewrite copy_at_spec by (rewrite ?length_app, ?length_drop; lia). eexists. split; [done|]. exists (S k). split; [lia|].
    rewrite take_app_length' by done. rewrite drop_app_ge, Ht, drop_drop by lia.
    rewrite app_assoc, take_take_drop. f_equal; f_equal; lia.
  - by replace k with nk by lia.
Qed.

(** The schedule fills the first [16 * (nk + 7)] octets. *)
Lemma expand_spec (nk : nat) key rk0 :
  nk = 4%nat ∨ nk = 8%nat → octets key → (4 * nk ≤ length key)%nat → length rk0 = 240%nat →
  words_ok (key_expansion key nk) ∧ length (key_expansion key nk) = (4 * (nk + 7))%nat ∧
  owc_aes_expand fips_sbox rk0 key (32 * Z.of_nat nk) =
    Some (mjoin (key_expansion key nk) ++ drop (16 * (nk + 7)) rk0).
Proof.
  intros Hnk Ho Hl Hr. unfold key_expansion. set (ws0 := (λ i, take 4 (drop (4 * i) key)) <$> seq 0 nk).
  assert (words_ok ws0 ∧ length ws0 = nk) as [Hw0 Hl0].
  { split; [|unfold ws0; by rewrite length_fmap, length_seq]. apply Forall_fmap, Forall_forall. intros i Hi.
    apply elem_of_seq in Hi. split; [cbn; rewrite length_take, length_drop; lia|by apply Forall_take, Forall_drop]. }
  unfold owc_aes_expand. replace (32 * Z.of_nat nk / 32) with (Z.of_nat nk) by (rewrite Z.mul_comm, Z.div_mul; lia).
  rewrite Nat2Z.id.
  assert (for_up nk 0 (λ i rk, for_up 4 0 (λ j rk, x ← aget key (4 * i + j); aset rk (4 * i + j) x) rk) rk0 =
    Some (mjoin ws0 ++ drop (4 * nk) rk0)) as ->.
  { unfold ws0. rewrite chunks_join. apply key_copy; [done|destruct Hnk; lia]. }
  rewrite obind_Some. replace (Z.to_nat (4 * (Z.of_nat nk + 6 + 1) - Z.of_nat nk)) with (4 * (nk + 7) - nk)%nat by lia.
  set (grow := λ ws, ws ++ [next_word nk ws]).
  destruct (for_up_inv (λ j d, ∃ k : nat, j = Z.of_nat (nk + k) ∧ words_ok (Nat.iter k grow ws0) ∧
    length (Nat.iter k grow ws0) = (nk + k)%nat ∧ d = mjoin (Nat.iter k grow ws0) ++ drop (4 * (nk + k)) rk0)
    (4 * (nk + 7) - nk) (Z.of_nat nk) (owc_expand_word fips_sbox (Z.of_nat nk)) (mjoin ws0 ++ drop (4 * nk) rk0))
    as (d & -> & k & Hk & Hok & Hlen & ->).
  - exists 0%nat. rewrite Nat.add_0_r. done.
  - intros j d Hj (k & -> & Hok & Hlen & ->). set (ws := Nat.iter k grow ws0) in *.
    destruct (expand_word_spec nk ws (take 4 (drop (4 * (nk + k)) rk0)) (drop (4 + 4 * (nk + k)) rk0)) as [Hok' E];
      [done|done|lia|rewrite length_take, length_drop; lia|].
    rewrite Hlen in E. rewrite <-(take_drop 4 (drop (4 * (nk + k)) rk0)), drop_drop, (Nat.add_comm (4 * (nk + k))), E.
    eexists. split; [done|]. exists (S k). split; [lia|]. change (Nat.iter (S k) grow ws0) with (ws ++ [next_word nk ws]). split; [done|].
    split; [rewrite length_app; simpl; lia|]. do 2 f_equal. lia.
  - replace k with (4 * (nk + 7) - nk)%nat in * by lia. split; [done|]. split; [lia|]. do 2 f_equal. f_equal. lia.
Qed.

(** ** Claims *)

(** The cipher of the standard with the expanded key. *)
Definition aes (key : list Z) (nk : nat) (s : list Z) : list Z :=
  cipher (mjoin (key_expansion key nk)) (nk + 6) s.

Lemma round_key_app w z r : (16 * S r ≤ length w)%nat → round_key (w ++ z) r = round_key w r.
Proof. intros H. unfold round_key. by rewrite drop_app_le, take_app_le by (rewrite ?length_drop; lia). Qed.

Lemma cipher_app w z nr s : (16 * S nr ≤ length w)%nat → cipher (w ++ z) nr s = cipher w nr s.
Proof.
  intros H. unfold cipher. rewrite !round_key_app by lia. do 2 f_equal.
  assert (∀ n k s, (k + n ≤ S nr)%nat →
    foldl (λ s r, add_round_key (mix_columns (sub_shift fips_sbox s)) (round_key (w ++ z) r)) s (seq k n) =
    foldl (λ s r, add_round_key (mix_columns (sub_shift fips_sbox s)) (round_key w r)) s (seq k n)) as Hf.
  { intros n. induction n as [|n IH]; intros k s' Hk; [done|]. cbn [seq foldl]. rewrite round_key_app by lia. apply IH. lia. }
  apply Hf. lia.
Qed.

Lemma words_octets ws : words_ok ws → octets (mjoin ws).
Proof.
  induction 1 as [|w ws [_ Hw] _ IH]; [constructor|]. change (mjoin (w :: ws)) with (w ++ mjoin ws). by apply octets_app.
Qed.

Definition key_ok (nk : nat) (key : list Z) : Prop :=
  (nk = 4%nat ∨ nk = 8%nat) ∧ octets key ∧ (4 * nk ≤ length key)%nat.

(** The expanded key as both block routines use it. *)
Lemma schedule_spec (nk : nat) key :
  key_ok nk key →
  ∃ rk, owc_aes_expand fips_sbox (replicate 240 0) key (32 * Z.of_nat nk) = Some rk ∧ octets rk ∧
    (16 * S (nk + 6) ≤ length rk)%nat ∧ (∀ s, cipher rk (nk + 6) s = aes key nk s).
Proof.
  intros (Hnk & Ho & Hl). destruct (expand_spec nk key (replicate 240 0) Hnk Ho Hl eq_refl) as (Hw & Hwl & E).
  pose proof (join_length _ Hw) as Hj. eexists. split; [exact E|]. split; [|split].
  - apply octets_app. split; [by apply words_octets|]. apply Forall_drop, octets_zeros.
  - rewrite length_app. lia.
  - intros s. apply cipher_app. lia.
Qed.

Lemma key_bits nk key : key_ok nk key → key_size_ok (32 * Z.of_nat nk) = true ∧ 32 * Z.of_nat nk / 32 + 6 = Z.of_nat (nk + 6).
Proof. intros [[-> | ->] _]; done. Qed.

(** [C10] After [owcrypt_module_init], AES with a 128- or 256-bit key is the
    cipher of FIPS-197 - S-box, schedule and rounds - on every block, and
    decryption restores the block. *)
Theorem owcrypt_aes_fips197 m nk key pt ct out :
  owcrypt_initialized m = false → length (owc_sbox m) = 256%nat → length (owc_inv_sbox m) = 256%nat →
  key_ok nk key → octets pt → length pt = 16%nat → length ct = 16%nat → length out = 16%nat →
  ∃ m', owcrypt_module_init true m = Some (OWCRYPT_OK, m') ∧
    owcrypt_aes_ecb_encrypt m' (Some key) (32 * Z.of_nat nk) (Some pt) (Some ct) =
      Some (OWCRYPT_OK, Some (aes key nk pt)) ∧
    owcrypt_aes_ecb_decrypt m' (Some key) (32 * Z.of_nat nk) (Some (aes key nk pt)) (Some out) =
      Some (OWCRYPT_OK, Some pt).
Proof.
  intros Hi Hs Hv Hk Hp Hpl Hcl Hol. exists the_module. split; [by apply module_init_spec|].
  destruct (schedule_spec nk key Hk) as (rk & E & Hr & Hrl & Hc). destruct (key_bits nk key Hk) as [Hkb Hnr].
  assert (aes_state pt) as Hst by done. pose proof (cipher_state rk (nk + 6) Hr Hrl pt Hst) as [Hcs Hco]. rewrite Hc in Hcs, Hco.
  unfold owcrypt_aes_ecb_encrypt, owcrypt_aes_ecb_decrypt, the_module. cbn [owcrypt_initialized owc_sbox owc_inv_sbox negb].
  rewrite Hkb, E. cbn [negb]. rewrite !obind_Some, Hnr. split.
  - rewrite encrypt_block_spec by (done || lia || by apply Forall_take).
    rewrite obind_Some, (take_ge pt), (drop_ge ct), app_nil_r, Hc by lia. done.
  - rewrite decrypt_block_spec by (done || lia || by apply Forall_take).
    rewrite obind_Some, (take_ge (aes _ _ _)), (drop_ge out), app_nil_r by lia.
    by rewrite <-Hc, inv_cipher_cipher by done.
Qed.

(** The example of FIPS-197, appendix C.1. *)
Lemma owcrypt_aes_fips197_witness :
  ∃ m', owcrypt_module_init true (OwcModule false (replicate 256 7) (replicate 256 7)) = Some (OWCRYPT_OK, m') ∧
    owcrypt_aes_ecb_encrypt m' (Some (Z.of_nat <$> seq 0 16)) 128 (Some ((λ i, 17 * Z.of_nat i) <$> seq 0 16))
      (Some (replicate 16 0)) =
    Some (OWCRYPT_OK, Some [0x69; 0xc4; 0xe0; 0xd8; 0x6a; 0x7b; 0x04; 0x30; 0xd8; 0xcd; 0xb7; 0x80; 0x70; 0xb4; 0xc5; 0x5a]).
Proof.
  destruct (owcrypt_aes_fips197 (OwcModule false (replicate 256 7) (replicate 256 7)) 4 (Z.of_nat <$> seq 0 16)
    ((λ i, 17 * Z.of_nat i) <$> seq 0 16) (replicate 16 0) (replicate 16 0)) as (m' & E1 & E2 & _).
  - reflexivity.
  - reflexivity.
  - reflexivity.
  - split; [left; reflexivity|]. split; [repeat constructor; lia|simpl; lia].
  - repeat constructor; lia.
  - reflexivity.
  - reflexivity.
  - reflexivity.
  - exists m'. split; [exact E1|]. refine (eq_trans E2 _). vm_compute. reflexivity.
Defined.
