(* ===== verification/AesGcm.v ===== *)
(** * AES-GCM against SP 800-38D

    The reference has the block product of GF(2^128) on 128-bit numbers,
    GHASH as its fold over the padded data and counter mode as the exclusive
    or with the enciphered counters.  The code's octet arrays compute those
    functions; sealing and opening are inverse, and a wrong tag is refused
    with the output untouched. *)
From Stdlib Require Import Btauto.
From S2P Require Import Prelude Owhash HashSpec HashSha2 Owcrypt OwcryptSha OwcryptAead OwcryptPoly OwcryptSeal OwcryptAes AesSpec.

(** ** Reference *)

(** Algorithm 1 of the standard: bit 127 is the first bit of the block. *)
Definition gf128_half (v : Z) : Z := if Z.odd v then Z.lxor (v / 2) (0xE1 * 2 ^ 120) else v / 2.
Definition gf128_step (x : Z) (st : Z * Z) (i : Z) : Z * Z :=
  let '(z, v) := st in (if Z.testbit x (127 - i) then Z.lxor z v else z, gf128_half v).
Definition gf128_mul (x y : Z) : Z := fst (foldl (gf128_step x) (0, y) (seqZ 0 128)).

Definition ghash_blocks (h : Z) (s : Z) (qs : list (list Z)) : Z :=
  foldl (λ s q, gf128_mul (Z.lxor s (be_value q)) h) s qs.

(** The data in blocks of 16, the last one padded with zeros. *)
Definition padded (l : list Z) : list (list Z) :=
  blocks 16 l ++ match rest 16 l with [] => [] | q => [q ++ replicate (16 - length q) 0] end.
Definition ghash (h : Z) (aad ct : list Z) : Z :=
  ghash_blocks h 0 (padded aad ++ padded ct ++
    [be_bytes 8 (8 * Z.of_nat (length aad)) ++ be_bytes 8 (8 * Z.of_nat (length ct))]).

(** Counter mode: the blocks are enciphered counters, the first of them 2; the
    block with the counter 1 masks the tag. *)
Definition counter_block (nonce : list Z) (c : Z) : list Z := take 12 nonce ++ be_bytes 4 c.
Definition gcm_keys (key : list Z) (nk : nat) (nonce : list Z) (n : nat) : list Z :=
  mjoin ((λ q, aes key nk (counter_block nonce (2 + Z.of_nat q))) <$> seq 0 n).
Definition gcm_crypt (key : list Z) (nk : nat) (nonce data : list Z) : list Z :=
  zip_with Z.lxor data (gcm_keys key nk nonce (S (length data / 16))).
Definition gcm_tag (key : list Z) (nk : nat) (nonce aad ct : list Z) : list Z :=
  zip_with Z.lxor (aes key nk (counter_block nonce 1))
    (be_bytes 16 (ghash (be_value (aes key nk (replicate 16 0))) aad ct)).

(** ** Octets and numbers *)

Lemma be_value_cons x l : be_value (x :: l) = x * 2 ^ (8 * Z.of_nat (length l)) + be_value l.
Proof.
  unfold be_value. cbn [foldl]. replace (256 * 0 + x) with x by lia. generalize x. clear x.
  induction l as [|y l IH] using rev_ind; intros x; [change (x = x * 2 ^ 0 + 0); lia|].
  rewrite !foldl_snoc, IH, length_app. replace (8 * Z.of_nat (length l + length [y])) with (8 * Z.of_nat (length l) + 8) by (simpl; lia).
  rewrite Z.pow_add_r by lia. change (2 ^ 8) with 256. lia.
Qed.

Lemma be_value_range l : octets l → 0 ≤ be_value l < 2 ^ (8 * Z.of_nat (length l)).
Proof.
  induction 1 as [|x l Hx _ IH]; [done|]. rewrite be_value_cons.
  replace (8 * Z.of_nat (length (x :: l))) with (8 * Z.of_nat (length l) + 8) by (simpl; lia).
  rewrite Z.pow_add_r by lia. change (2 ^ 8) with 256. nia.
Qed.

Lemma be_bytes_value l : octets l → be_bytes (length l) (be_value l) = l.
Proof.
  induction l as [|x l IH] using rev_ind; intros Ho; [done|]. apply octets_app in Ho as [Ho Hx].
  apply Forall_cons in Hx as [Hx _]. unfold be_bytes, be_value in *. rewrite length_app, foldl_snoc, Nat.add_comm. cbn [Nat.add length le_bytes rev].
  replace ((256 * foldl (λ a b, 256 * a + b) 0 l + x) mod 256) with x by (Z.to_euclidean_division_equations; lia).
  replace ((256 * foldl (λ a b, 256 * a + b) 0 l + x) / 256) with (foldl (λ a b, 256 * a + b) 0 l)
    by (Z.to_euclidean_division_equations; lia).
  by rewrite IH.
Qed.

Lemma be_value_app l k : be_value (l ++ k) = be_value l * 2 ^ (8 * Z.of_nat (length k)) + be_value k.
Proof.
  induction l as [|x l IH]; [done|]. cbn [app]. rewrite !be_value_cons, IH, length_app, Nat2Z.inj_add.
  rewrite Z.mul_add_distr_l, Z.pow_add_r by lia. lia.
Qed.

Lemma lxor_range n b c : 0 ≤ n → 0 ≤ b < 2 ^ n → 0 ≤ c < 2 ^ n → 0 ≤ Z.lxor b c < 2 ^ n.
Proof.
  intros Hn Hb Hc. split; [apply Z.lxor_nonneg; lia|]. destruct (decide (Z.lxor b c = 0)) as [->|Hz]; [lia|].
  apply Z.log2_lt_cancel. rewrite Z.log2_pow2 by done.
  pose proof (Z.log2_lxor b c ltac:(lia) ltac:(lia)) as Hlog.
  destruct (decide (n = 0)) as [->|]; [simpl in *; replace b with 0 in * by lia; replace c with 0 in * by lia; done|].
  assert (∀ z, 0 ≤ z < 2 ^ n → Z.log2 z < n) as Hl.
  { intros z Hzr. destruct (decide (z = 0)) as [->|]; [simpl; lia|]. apply Z.log2_lt_pow2; lia. }
  pose proof (Hl b Hb). pose proof (Hl c Hc). lia.
Qed.

(** The low part of a number does not meet the high part. *)
Lemma lxor_parts x y b c n :
  0 ≤ n → 0 ≤ b < 2 ^ n → 0 ≤ c < 2 ^ n →
  Z.lxor (x * 2 ^ n + b) (y * 2 ^ n + c) = Z.lxor x y * 2 ^ n + Z.lxor b c.
Proof.
  intros Hn Hb Hc. pose proof (lxor_range n b c Hn Hb Hc) as Hbc.
  apply Z.bits_inj'. intros i Hi. rewrite !(Z.add_comm (_ * 2 ^ n)), !(Z.mul_comm _ (2 ^ n)).
  rewrite Z.lxor_spec, !testbit_split by done. rewrite !Z.lxor_spec. by destruct (i <? n).
Qed.

Lemma be_value_lxor l k : octets l → octets k → length l = length k →
  be_value (zip_with Z.lxor l k) = Z.lxor (be_value l) (be_value k).
Proof.
  intros Hl. revert k. induction Hl as [|x l Hx Hl IH]; intros [|y k] Hk Hlen; try done.
  apply Forall_cons in Hk as [Hy Hk]. cbn [zip_with]. rewrite !be_value_cons, length_zip_with.
  simpl in Hlen. rewrite IH by (done || lia). replace (length l `min` length k)%nat with (length l) by lia.
  replace (length k) with (length l) by lia. symmetry.
  apply lxor_parts; [lia|by apply be_value_range|]. replace (length l) with (length k) by lia. by apply be_value_range.
Qed.

(** ** Shifting by one bit *)

Definition shr_octet (x y : Z) : Z := u8 (Z.lor (Z.shiftr x 1) (Z.shiftl y 7)).
Fixpoint shr_octets (c : Z) (l : list Z) : list Z :=
  match l with [] => [] | x :: l => shr_octet x c :: shr_octets x l end.

Lemma shr_octet_value x y : 0 ≤ x < 256 → 0 ≤ y < 256 → shr_octet x y = x / 2 + 128 * (y mod 2).
Proof.
  intros Hx Hy. unfold shr_octet. rewrite Z.shiftr_div_pow2, Z.shiftl_mul_pow2 by lia.
  rewrite (lor_add _ _ 7); [|lia|change (2 ^ 1) with 2; change (2 ^ 7) with 128; zdm|change (2 ^ 7) with 128; zdm|].
  - unfold u8, wrap. change (2 ^ 8) with 256. change (2 ^ 1) with 2. change (2 ^ 7) with 128. zdm.
  - change (2 ^ 7) with 128. zdm.
Qed.

Lemma shr_octets_value c l :
  0 ≤ c < 256 → octets l →
  be_value (shr_octets c l) = (c mod 2 * 2 ^ (8 * Z.of_nat (length l)) + be_value l) / 2 ∧
  octets (shr_octets c l) ∧ length (shr_octets c l) = length l.
Proof.
  intros Hc Hl. revert c Hc. induction Hl as [|x l Hx Hl IH]; intros c Hc.
  { repeat split; [|constructor]. change (be_value (shr_octets c [])) with 0. change (be_value []) with 0. simpl. zdm. }
  destruct (IH x Hx) as (E & Ho & Hlen). cbn [shr_octets]. rewrite shr_octet_value by done.
  rewrite !be_value_cons, Hlen, E. split; [|split; [constructor; [zdm|done]|simpl; lia]].
  set (n := 8 * Z.of_nat (length l)) in *.
  replace (8 * Z.of_nat (length (x :: l))) with (n + 8) by (unfold n; simpl; lia). rewrite Z.pow_add_r by (unfold n; lia).
  change (2 ^ 8) with 256.
  replace (c mod 2 * (2 ^ n * 256) + (x * 2 ^ n + be_value l)) with
    ((x mod 2 * 2 ^ n + be_value l) + ((x / 2 + 128 * (c mod 2)) * 2 ^ n) * 2).
  - rewrite Z.div_add by lia. lia.
  - pose proof (Z_div_mod_eq_full x 2). nia.
Qed.

(** ** The block product *)

Lemma be_testbit l (k r : nat) x :
  octets l → l !! k = Some x → (r < 8)%nat →
  Z.testbit (be_value l) (8 * Z.of_nat (length l - 1 - k) + Z.of_nat r) = Z.testbit x (Z.of_nat r).
Proof.
  intros Ho. revert k. induction Ho as [|y l Hy Ho IH]; intros k Hk Hr; [done|].
  rewrite be_value_cons, Z.add_comm, Z.mul_comm, testbit_split by (lia || by apply be_value_range).
  destruct k as [|k].
  - apply (inj Some) in Hk as ->. cbn [length]. rewrite Nat.sub_0_r, Nat.sub_succ, Nat.sub_0_r.
    rewrite (proj2 (Z.ltb_ge _ _)) by lia. f_equal. lia.
  - apply lookup_lt_Some in Hk as Hlt. cbn [lookup list_lookup length] in *.
    replace (S (length l) - 1 - S k)%nat with (length l - 1 - k)%nat by lia.
    rewrite (proj2 (Z.ltb_lt _ _)) by lia. by apply IH.
Qed.

Lemma mask_test x s : 0 ≤ s < 8 → nz (Z.land x (Z.shiftr 0x80 s)) = Z.testbit x (7 - s).
Proof.
  intros Hs. assert (Z.shiftr 0x80 s = 2 ^ (7 - s)) as ->.
  { rewrite Z.shiftr_div_pow2 by lia. change 0x80 with (2 ^ 7). by rewrite <-Z.pow_sub_r by lia. }
  rewrite (Z.land_comm x). unfold nz.
  destruct (Z.testbit x (7 - s)) eqn:E.
  - rewrite (proj2 (Z.eqb_neq _ _)); [done|]. intros H0. apply (f_equal (λ z, Z.testbit z (7 - s))) in H0.
    rewrite Z.land_spec, Z.pow2_bits_true, E, Z.bits_0 in H0 by lia. done.
  - rewrite (proj2 (Z.eqb_eq _ _)); [done|]. apply Z.bits_inj'. intros i Hi. rewrite Z.land_spec, Z.bits_0.
    destruct (decide (i = 7 - s)) as [->|Hne]; [by rewrite E, andb_false_r|]. by rewrite Z.pow2_bits_false.
Qed.

Lemma bit_of_block xb i :
  aes_state xb → 0 ≤ i < 128 →
  ∃ x, aget xb (Z.shiftr i 3) = Some x ∧
       nz (Z.land x (Z.shiftr 0x80 (Z.land i 7))) = Z.testbit (be_value xb) (127 - i).
Proof.
  intros [Hl Ho] Hi. rewrite Z.shiftr_div_pow2 by lia. change (2 ^ 3) with 8.
  assert (0 ≤ i / 8 < 16) as Hk by zdm. rewrite aget_to_nat by lia.
  destruct (lookup_lt_is_Some_2 xb (Z.to_nat (i / 8))) as [x Hx]; [lia|]. exists x. split; [done|].
  change 7 with (Z.ones 3). rewrite Z.land_ones by lia. change (2 ^ 3) with 8.
  rewrite mask_test by zdm.
  replace (7 - i mod 8) with (Z.of_nat (Z.to_nat (7 - i mod 8))) by zdm.
  rewrite <-(be_testbit xb (Z.to_nat (i / 8)) (Z.to_nat (7 - i mod 8)) x Ho Hx) by zdm.
  rewrite Hl. f_equal. rewrite Z2Nat.id by zdm. zdm.
Qed.

Lemma xor_octets_loop z v :
  aes_state z → aes_state v →
  for_up 16 0 (λ j z, zj ← aget z j; vj ← aget v j; aset z j (Z.lxor zj vj)) z = Some (zip_with Z.lxor z v).
Proof.
  intros [Hz _] [Hv _].
  rewrite (update_loop 16 _ (λ i, Z.lxor (z !!! i) (v !!! i))); [|intros i w Hi Hw|lia].
  - rewrite drop_ge, app_nil_r by lia. f_equal.
    destruct (list_16 z Hz) as (? & ? & ? & ? & ? & ? & ? & ? & ? & ? & ? & ? & ? & ? & ? & ? & ->).
    destruct (list_16 v Hv) as (? & ? & ? & ? & ? & ? & ? & ? & ? & ? & ? & ? & ? & ? & ? & ? & ->). reflexivity.
  - rewrite !aget_of_nat, Hw. by rewrite (list_lookup_lookup_total_lt z), (list_lookup_lookup_total_lt v) by lia.
Qed.

Lemma shift_loop v :
  length v = 16%nat → octets v →
  (v ← for_up 15 0 (λ n v, let j := 15 - n in
                          vj ← aget v j; vp ← aget v (j - 1);
                          aset v j (u8 (Z.lor (Z.shiftr vj 1) (Z.shiftl vp 7)))) v;
   v0 ← aget v 0; aset v 0 (Z.shiftr v0 1)) = Some (shr_octets 0 v).
Proof.
  intros Hl Ho. destruct (list_16 v Hl) as (a & b & c & d & e & f & g & h & i & j & k & l & m & n & o & p & ->).
  transitivity (Some (Z.shiftr a 1 :: shr_octets a [b; c; d; e; f; g; h; i; j; k; l; m; n; o; p])); [reflexivity|].
  cbn [shr_octets]. do 2 f_equal. apply Forall_cons in Ho as [Ha _].
  rewrite shr_octet_value, Z.shiftr_div_pow2 by lia. change (0 mod 2) with 0. change (2 ^ 1) with 2. lia.
Qed.

Lemma first_octet_xor x (l : list Z) c :
  (v0 ← aget (x :: l) 0; aset (x :: l) 0 (Z.lxor v0 c)) = Some (Z.lxor x c :: l).
Proof. reflexivity. Qed.

(** One of the 128 steps. *)
Lemma gh_bit_spec xb i z v :
  aes_state xb → aes_state z → aes_state v → 0 ≤ i < 128 →
  ∃ z' v', owc_gh_bit xb i (z, v) = Some (z', v') ∧ aes_state z' ∧ aes_state v' ∧
    (be_value z', be_value v') = gf128_step (be_value xb) (be_value z, be_value v) i.
Proof.
  intros Hx Hz Hv Hi. unfold owc_gh_bit, gf128_step.
  destruct (bit_of_block xb i Hx Hi) as (x & Ex & Eb). rewrite Ex, obind_Some, Eb.
  set (z' := if Z.testbit (be_value xb) (127 - i) then zip_with Z.lxor z v else z).
  assert ((if Z.testbit (be_value xb) (127 - i)
    then for_up 16 0 (λ j z, zj ← aget z j; vj ← aget v j; aset z j (Z.lxor zj vj)) z else Some z) = Some z') as ->.
  { unfold z'. destruct (Z.testbit _ _); [by apply xor_octets_loop|done]. }
  rewrite obind_Some.
  assert (aes_state z') as Hz' by (unfold z'; destruct (Z.testbit _ _); [by apply add_round_key_state|done]).
  assert (be_value z' = if Z.testbit (be_value xb) (127 - i) then Z.lxor (be_value z) (be_value v) else be_value z) as <-.
  { unfold z'. destruct (Z.testbit _ _); [|done]. destruct Hz, Hv. apply be_value_lxor; [done..|lia]. }
  destruct Hv as [Hvl Hvo]. pose proof (shift_loop v Hvl Hvo) as Es.
  destruct (shr_octets_value 0 v ltac:(lia) Hvo) as (Eval & Hso & Hsl). change (0 mod 2) with 0 in Eval. rewrite Z.mul_0_l, Z.add_0_l in Eval.
  destruct (lookup_lt_is_Some_2 v 15) as [last Hlast]; [lia|].
  change (aget v 15) with (v !! 15%nat). rewrite Hlast, obind_Some.
  assert (Z.odd (be_value v) = nz (Z.land last 1)) as Hodd.
  { rewrite <-Z.bit0_odd. pose proof (be_testbit v 15 0 last Hvo Hlast ltac:(lia)) as Hb. rewrite Hvl in Hb. change (8 * Z.of_nat (16 - 1 - 15) + Z.of_nat 0) with 0 in Hb.
    rewrite Hb. change 1 with (Z.ones 1). rewrite Z.land_ones by lia. change (2 ^ 1) with 2. rewrite Z.bit0_odd. unfold nz.
    rewrite Zmod_odd. by destruct (Z.odd last). }
  apply bind_Some in Es as (v1 & E1 & E2). cbv zeta in E1 |- *. rewrite E1, obind_Some. apply bind_Some in E2 as (v0 & E2 & E3).
  rewrite E2, obind_Some, E3, obind_Some. unfold gf128_half. rewrite Hodd.
  destruct (nz (Z.land last 1)).
  - destruct (shr_octets 0 v) as [|y l] eqn:Ey; [simpl in Hsl; lia|]. rewrite first_octet_xor, obind_Some.
    eexists _, _. split; [done|]. split; [done|].
    assert (Z.lxor y 0xE1 :: l = zip_with Z.lxor (y :: l) (0xE1 :: replicate 15 0)) as ->.
    { cbn [zip_with]. f_equal. simpl in Hsl. assert (length l = 15%nat) as Hll by lia. clear -Hll.
      replace 15%nat with (length l) by done. clear. induction l as [|x l IH]; [done|]. cbn. by rewrite Z.lxor_0_r, <-IH. }
    assert (octets (0xE1 :: replicate 15 0)) as He by (constructor; [lia|apply octets_zeros]). split.
    + apply (add_round_key_state (y :: l) (0xE1 :: replicate 15 0)); split; (done || lia).
    + f_equal. rewrite be_value_lxor, Eval by (done || (simpl in *; lia)). reflexivity.
  - rewrite obind_Some. eexists _, _. split; [done|]. split; [done|]. split; [split; [lia|done]|]. by rewrite Eval.
Qed.

Definition gh_val (g : owc_gh_t) : Z := gh_hi g * 2 ^ 64 + gh_lo g.
Definition gh_ok (g : owc_gh_t) : Prop := 0 ≤ gh_hi g < 2 ^ 64 ∧ 0 ≤ gh_lo g < 2 ^ 64.

Lemma gh_store_spec g (b : list Z) :
  gh_ok g → length b = 16%nat → ∃ b', owc_gh_store b g = Some b' ∧ aes_state b' ∧ be_value b' = gh_val g.
Proof.
  intros [Hh Hl] Hb. unfold owc_gh_store. exists (be_bytes 8 (gh_hi g) ++ be_bytes 8 (gh_lo g)). split.
  - rewrite <-(take_drop 8 b), put64_stores.
    rewrite stores_front, obind_Some by (rewrite length_take, be_bytes_length; lia).
    rewrite put64_stores, <-(app_nil_r (drop 8 b)).
    rewrite stores_spec by (rewrite ?length_drop, ?be_bytes_length; lia). by rewrite app_nil_r.
  - split; [split; [by rewrite length_app, !be_bytes_length|apply octets_app; split; apply be_bytes_octets]|].
    rewrite be_value_app, be_bytes_length, !be_value_bytes by done. reflexivity.
Qed.

Lemma gh_load_spec b (off : nat) :
  octets b → (off + 16 ≤ length b)%nat →
  ∃ g, owc_gh_load b (Z.of_nat off) = Some g ∧ gh_ok g ∧ gh_val g = be_value (take 16 (drop off b)).
Proof.
  intros Ho Hl. unfold owc_gh_load. rewrite get64_spec, obind_Some by (done || lia).
  replace (Z.of_nat off + 8) with (Z.of_nat (off + 8)) by lia. rewrite get64_spec, obind_Some by (done || lia).
  eexists. split; [done|].
  assert (∀ i, (i ≤ off + 8)%nat → 0 ≤ be_value (take 8 (drop i b)) < 2 ^ 64) as Hr.
  { intros i Hi. pose proof (be_value_range (take 8 (drop i b)) (Forall_take _ _ _ (Forall_drop _ _ _ Ho))) as H.
    rewrite length_take, length_drop in H. by replace (8 `min` (length b - i))%nat with 8%nat in H by lia. }
  split; [split; apply Hr; lia|]. unfold gh_val. cbn [gh_hi gh_lo].
  replace (take 16 (drop off b)) with (take 8 (drop off b) ++ take 8 (drop (off + 8) b)).
  - rewrite be_value_app, length_take, length_drop. by replace (8 `min` (length b - (off + 8)))%nat with 8%nat by lia.
  - rewrite <-drop_drop. by rewrite take_take_drop.
Qed.

Lemma gh_mul_spec x y :
  gh_ok x → gh_ok y → ∃ g, owc_gh_mul x y = Some g ∧ gh_ok g ∧ gh_val g = gf128_mul (gh_val x) (gh_val y).
Proof.
  intros Hx Hy. unfold owc_gh_mul.
  destruct (gh_store_spec y (replicate 16 0) Hy eq_refl) as (v & -> & Hv & <-). rewrite obind_Some.
  destruct (gh_store_spec x (replicate 16 0) Hx eq_refl) as (xb & -> & Hxb & <-). rewrite obind_Some.
  destruct (for_up_inv (λ j st, ∃ k : nat, j = Z.of_nat k ∧ aes_state (fst st) ∧ aes_state (snd st) ∧
    (be_value (fst st), be_value (snd st)) = foldl (gf128_step (be_value xb)) (0, be_value v) (seqZ 0 (Z.of_nat k)))
    128 0 (owc_gh_bit xb) (replicate 16 0, v)) as ([z w] & -> & k & Hk & Hz & _ & E).
  - exists 0%nat. split; [done|]. split; [split; [done|apply octets_zeros]|]. split; [done|]. reflexivity.
  - intros j [z w] Hj (k & -> & Hz & Hw & E). cbn [fst snd] in *.
    destruct (gh_bit_spec xb (Z.of_nat k) z w Hxb Hz Hw ltac:(lia)) as (z' & w' & -> & Hz' & Hw' & E').
    eexists. split; [done|]. exists (S k). split; [lia|]. split; [done|]. split; [done|]. cbn [fst snd].
    rewrite E', E. replace (Z.of_nat (S k)) with (Z.of_nat k + 1) by lia. rewrite seqZ_app, foldl_app by lia. reflexivity.
  - rewrite obind_Some. cbn [fst snd] in *. destruct Hz as [Hzl Hzo].
    destruct (gh_load_spec z 0 Hzo ltac:(lia)) as (g & Eg & Hg & Ev). change (Z.of_nat 0) with 0 in Eg. rewrite Eg.
    exists g. split; [done|]. split; [done|]. rewrite Ev, drop_0, take_ge by lia.
    unfold gf128_mul. replace (Z.of_nat k) with 128 in E by lia. by rewrite <-E.
Qed.

Lemma gh_step_spec s h blk (off : nat) :
  gh_ok s → gh_ok h → octets blk → (off + 16 ≤ length blk)%nat →
  ∃ g, owc_gh_step s h blk (Z.of_nat off) = Some g ∧ gh_ok g ∧
    gh_val g = gf128_mul (Z.lxor (gh_val s) (be_value (take 16 (drop off blk)))) (gh_val h).
Proof.
  intros Hs Hh Ho Hl. unfold owc_gh_step.
  destruct (gh_load_spec blk off Ho Hl) as (t & -> & Ht & <-). rewrite obind_Some.
  destruct Hs as [Hs1 Hs2], Ht as [Ht1 Ht2].
  destruct (gh_mul_spec (Gh (Z.lxor (gh_hi s) (gh_hi t)) (Z.lxor (gh_lo s) (gh_lo t))) h) as (g & -> & Hg & Ev);
    [split; by apply (lxor_range 64)|done|].
  exists g. split; [done|]. split; [done|]. rewrite Ev. f_equal. unfold gh_val. cbn [gh_hi gh_lo].
  symmetry. by apply lxor_parts.
Qed.

(** Copying the rest of the data into a block of zeros. *)
Lemma zero_pad_loop (g : Z → option Z) (R : list Z) :
  (length R ≤ 16)%nat → (∀ i : nat, (i < length R)%nat → g (Z.of_nat i) = R !! i) →
  for_up 16 0 (λ i pad, if i <? Z.of_nat (length R) then x ← g i; aset pad i x else aset pad i 0)
    (replicate 16 0) = Some (R ++ replicate (16 - length R) 0).
Proof.
  intros HR Hg. set (l := R ++ _).
  assert (length l = 16%nat) as Hl by (unfold l; rewrite length_app, length_replicate; lia).
  rewrite (load_loop 16 _ (λ i, l !!! i)); [|intros i w Hi|simpl; lia].
  - rewrite (drop_ge (replicate 16 0)), app_nil_r by (simpl; lia). f_equal. rewrite <-Hl. apply seq_lookup_total.
  - unfold l. destruct (Z.ltb_spec (Z.of_nat i) (Z.of_nat (length R))) as [Hlt|Hge].
    + rewrite Hg by lia. rewrite lookup_total_app_l by lia. by rewrite list_lookup_lookup_total_lt by lia.
    + rewrite lookup_total_app_r by lia. by rewrite lookup_total_replicate_2 by lia.
Qed.

(** The data of one argument. *)
Lemma gh_data_spec s h data off len :
  gh_ok s → gh_ok h → octets data → 0 ≤ off → 0 ≤ len → off + len ≤ Z.of_nat (length data) →
  ∃ g, owc_gh_data s h data off len = Some g ∧ gh_ok g ∧
    gh_val g = ghash_blocks (gh_val h) (gh_val s) (padded (take (Z.to_nat len) (drop (Z.to_nat off) data))).
Proof.
  intros Hs Hh Ho Hoff Hlen Hin. unfold owc_gh_data, padded. set (D := take (Z.to_nat len) _).
  assert (length D = Z.to_nat len) as HD by (unfold D; rewrite length_take, length_drop; lia).
  assert (octets D) as HDo by by apply Forall_take, Forall_drop.
  pose proof (Z_div_mod_eq_full len 16) as Hdm. pose proof (Z.mod_pos_bound len 16 eq_refl) as Hm.
  assert (Z.to_nat (len / 16) = (length D / 16)%nat) as Hq.
  { rewrite HD. rewrite Z2Nat.inj_div by lia. done. }
  destruct (for_up_inv (λ j g, ∃ k : nat, j = Z.of_nat k ∧ gh_ok g ∧
    gh_val g = ghash_blocks (gh_val h) (gh_val s) ((λ i, take 16 (drop (i * 16) D)) <$> seq 0 k))
    (Z.to_nat (len / 16)) 0 (λ q s, owc_gh_step s h data (off + 16 * q)) s) as (g & -> & k & Hk & Hg & Ev).
  - exists 0%nat. done.
  - intros j g Hj (k & -> & Hg & Ev).
    replace (off + 16 * Z.of_nat k) with (Z.of_nat (Z.to_nat off + 16 * k)) by lia.
    destruct (gh_step_spec g h data (Z.to_nat off + 16 * k) Hg Hh Ho ltac:(lia)) as (g' & -> & Hg' & Ev').
    exists g'. split; [done|]. exists (S k). split; [lia|]. split; [done|].
    rewrite seq_S, fmap_app. unfold ghash_blocks in *. rewrite foldl_app. cbn [fmap list_fmap foldl]. rewrite <-Ev, Ev'.
    do 3 f_equal. cbn [Nat.add]. unfold D. rewrite skipn_firstn_comm, take_take, drop_drop. f_equal; [lia|f_equal; lia].
  - rewrite obind_Some. replace k with (length D / 16)%nat in Ev by lia. fold (blocks 16 D) in Ev.
    pose proof (rest_length 16 ltac:(lia) D) as Hrl. unfold nz.
    destruct (Z.eqb_spec (len mod 16) 0) as [E0|E0]; cbn [negb].
    + exists g. split; [done|]. split; [done|]. rewrite Ev.
      assert (length (rest 16 D) = 0%nat) as H0.
      { rewrite Hrl, HD. apply Nat2Z.inj. rewrite Nat2Z.inj_mod, Z2Nat.id by lia. done. }
      destruct (rest 16 D); [by rewrite app_nil_r|simpl in H0; lia].
    + assert (len mod 16 = Z.of_nat (length (rest 16 D))) as Er
        by (rewrite Hrl, HD, Nat2Z.inj_mod, Z2Nat.id by lia; done).
      rewrite Er, (zero_pad_loop (λ i, aget data (off + (len - Z.of_nat (length (rest 16 D)) + i))) (rest 16 D)), obind_Some.
      2:{ rewrite Hrl. pose proof (Nat.mod_upper_bound (length D) 16). lia. }
      2:{ intros i Hi. rewrite <-Er, aget_to_nat by lia. unfold rest. rewrite lookup_drop. unfold D at 2.
          rewrite lookup_take, lookup_drop. fold D. pose proof (Nat.div_mod_eq (length D) 16).
          rewrite decide_True by lia. f_equal. lia. }
      pose proof (rest_lt 16 ltac:(lia) D) as Hlt. set (pad := rest 16 D ++ _).
      assert (octets pad) as Hpo by (apply octets_app; split; [by apply Forall_drop|apply octets_zeros]).
      assert (length pad = 16%nat) as Hpl by (unfold pad; rewrite length_app, length_replicate; lia).
      destruct (gh_step_spec g h pad 0 Hg Hh Hpo ltac:(lia)) as (g' & E' & Hg' & Ev'). change (Z.of_nat 0) with 0 in E'.
      exists g'. split; [done|]. split; [done|]. rewrite Ev', drop_0, take_ge, Ev by lia.
      assert (rest 16 D ≠ []) as Hne by (intros Hne; rewrite Hne in Er; simpl in Er; lia).
      unfold ghash_blocks. rewrite foldl_app. unfold pad. clear -Hne. destruct (rest 16 D) as [|x R]; [done|].
      cbn [foldl]. exact eq_refl.
Qed.

#[local] Opaque gf128_mul.

Lemma ghash_spec h aad aadlen ct coff clen :
  octets h → length h = 16%nat → octets (default [] aad) → octets ct →
  0 ≤ aadlen ≤ Z.of_nat (length (default [] aad)) →
  0 ≤ coff → 0 ≤ clen → coff + clen ≤ Z.of_nat (length ct) →
  ∃ g, owc_ghash h aad aadlen ct coff clen = Some g ∧ gh_ok g ∧
    gh_val g = ghash (be_value h) (take (Z.to_nat aadlen) (default [] aad))
                 (take (Z.to_nat clen) (drop (Z.to_nat coff) ct)).
Proof.
  intros Hh Hhl Hao Hco Hal Hcf Hcl Hin. unfold owc_ghash, ghash.
  destruct (gh_load_spec h 0 Hh ltac:(lia)) as (hh & E & Hhh & Eh). change (Z.of_nat 0) with 0 in E.
  rewrite E, obind_Some. rewrite drop_0, take_ge in Eh by lia. rewrite <-Eh.
  destruct (gh_data_spec (Gh 0 0) hh (default [] aad) 0 aadlen) as (s1 & -> & Hs1 & E1);
    [split; simpl; lia|done|done|lia|lia|lia|]. rewrite obind_Some.
  change (Z.to_nat 0) with 0%nat in E1. rewrite drop_0 in E1. change (gh_val (Gh 0 0)) with 0 in E1.
  destruct (gh_data_spec s1 hh ct coff clen Hs1 Hhh Hco Hcf Hcl Hin) as (s2 & -> & Hs2 & E2). rewrite obind_Some.
  set (A := take (Z.to_nat aadlen) _) in *. set (C := take (Z.to_nat clen) _) in *.
  assert (Z.of_nat (length A) = aadlen) as -> by (unfold A; rewrite length_take; lia).
  assert (Z.of_nat (length C) = clen) as -> by (unfold C; rewrite length_take, length_drop; lia).
  rewrite !put64_stores. change (replicate 16 0) with (replicate 8 0 ++ replicate 8 0) at 1.
  rewrite stores_front, obind_Some by (by rewrite be_bytes_length).
  rewrite put64_stores, <-(app_nil_r (replicate 8 0)).
  rewrite (stores_spec _ (be_bytes 8 _) (replicate 8 0) []) by (rewrite ?be_bytes_length; done).
  rewrite obind_Some, app_nil_r, !be_bytes_u64, !(Z.mul_comm _ 8).
  set (last := be_bytes 8 (8 * aadlen) ++ _).
  assert (octets last) as Ho by (apply octets_app; split; apply be_bytes_octets).
  assert (length last = 16%nat) as Hl by (unfold last; by rewrite length_app, !be_bytes_length).
  destruct (gh_step_spec s2 hh last 0 Hs2 Hhh Ho ltac:(lia)) as (g & Eg & Hg & Ev). change (Z.of_nat 0) with 0 in Eg.
  exists g. split; [done|]. split; [done|]. rewrite Ev, drop_0, take_ge, E2, E1 by lia.
  unfold ghash_blocks. by rewrite !foldl_app.
Qed.

(** ** Counter mode *)

Lemma be_bytes_mod n v : be_bytes n (v mod 256 ^ Z.of_nat n) = be_bytes n v.
Proof.
  unfold be_bytes. f_equal. revert v. induction n as [|n IH]; intros v; [done|]. cbn [le_bytes].
  rewrite <-(IH (v / 256)). replace (256 ^ Z.of_nat (S n)) with (256 * 256 ^ Z.of_nat n)
    by (rewrite Nat2Z.inj_succ, Z.pow_succ_r by lia; done).
  pose proof (Z.pow_pos_nonneg 256 (Z.of_nat n) ltac:(lia) ltac:(lia)).
  rewrite Z.rem_mul_r by lia. f_equal.
  - rewrite Z.mul_comm, Z.mod_add, Zmod_mod by lia. done.
  - f_equal. rewrite (Z.mul_comm 256), Z.div_add, (Z.div_small (v mod 256)) by (try apply Z.mod_pos_bound; lia). done.
Qed.

(** Two loops that agree as long as an invariant holds. *)
Lemma for_up_ext_inv {S} (I : S → Prop) n i (body body' : Z → S → option S) s :
  I s → (∀ j s, I s → body j s = body' j s ∧ ∀ s', body j s = Some s' → I s') →
  for_up n i body s = for_up n i body' s.
Proof.
  intros HI H. revert i s HI. induction n as [|n IH]; intros i s HI; [done|]. simpl.
  destruct (H i s HI) as [<- HI']. destruct (body i s) as [s'|] eqn:E; [|done]. by apply IH, HI'.
Qed.

Lemma in_get_octet inp out i x : in_octets inp → octets out → in_get inp out i = Some x → 0 ≤ x < 256.
Proof.
  intros Hi Ho. destruct inp as [|l off|off]; cbn [in_get in_octets] in *; [done|..];
    (intros E; apply aget_Some in E as [_ E]; first [exact (Forall_lookup_1 _ _ _ _ Hi E)|exact (Forall_lookup_1 _ _ _ _ Ho E)]).
Qed.

(** The exclusive or of the counter mode is that of the stream cipher. *)
Lemma gcm_xor_block ks inp out ooff off :
  octets ks → inp ≠ InNull → in_octets inp → octets out →
  for_up 16 0 (λ i out, e ← aget ks i; x ← in_get inp out (off + i);
                        aset out (ooff + off + i) (u8 (Z.lxor e x))) out =
  owc_xor_block ks inp out ooff off 16.
Proof.
  intros Hk Hn Hi Ho. unfold owc_xor_block. change (Z.to_nat 16) with 16%nat.
  apply (for_up_ext_inv octets); [done|]. intros j o Hoo.
  destruct (aget ks j) as [e|] eqn:Ee; [|done]. rewrite !obind_Some.
  destruct (in_get inp o (off + j)) as [x|] eqn:Ex.
  2:{ split; [by destruct inp|done]. }
  pose proof (in_get_octet _ _ _ _ Hi Hoo Ex) as Hx.
  assert (0 ≤ e < 256) as He by (apply aget_Some in Ee as [_ Ee]; exact (Forall_lookup_1 _ _ _ _ Hk Ee)).
  pose proof (octet_xor e x He Hx) as Hex. rewrite obind_Some, u8_small, Z.lxor_comm, Z.add_assoc by exact Hex. split.
  - destruct inp; [done|by rewrite obind_Some..].
  - intros o' E. rewrite Z.lxor_comm in E. apply aset_Some in E as [_ ->]. by apply Forall_insert.
Qed.

Section gcm.
Context (key nonce : list Z) (nk : nat) (rk : list Z).
Context (Hrk : octets rk) (Hrl : (16 * S (nk + 6) ≤ length rk)%nat)
        (Hcipher : ∀ s, cipher rk (nk + 6) s = aes key nk s)
        (Hnonce : octets nonce) (Hnl : (12 ≤ length nonce)%nat).

Lemma counter_block_state c : aes_state (counter_block nonce c).
Proof.
  unfold counter_block. split; [rewrite length_app, length_take, be_bytes_length; lia|].
  apply octets_app. split; [by apply Forall_take|apply be_bytes_octets].
Qed.

Lemma aes_block_state s : aes_state s → aes_state (aes key nk s).
Proof. rewrite <-Hcipher. by apply cipher_state. Qed.

Lemma encrypt_state out s :
  aes_state s → length out = 16%nat →
  owc_aes_encrypt_block fips_sbox out s rk (Z.of_nat (nk + 6)) = Some (aes key nk s).
Proof.
  intros [Hs Ho] Hl. rewrite encrypt_block_spec by (done || lia || by apply Forall_take).
  by rewrite (take_ge s), (drop_ge out), app_nil_r, Hcipher by lia.
Qed.

Lemma inc32_spec c : owc_gcm_inc32 (counter_block nonce c) = Some (counter_block nonce (c + 1)).
Proof.
  unfold owc_gcm_inc32. destruct (counter_block_state c) as [Hl Ho].
  assert (length (take 12 nonce) = 12%nat) as H12 by (rewrite length_take; lia).
  change 12 with (Z.of_nat 12). rewrite get32_spec, obind_Some by (done || lia).
  assert (take 4 (drop 12 (counter_block nonce c)) = be_bytes 4 c) as ->.
  { unfold counter_block. rewrite drop_app_length' by done. apply take_ge. by rewrite be_bytes_length. }
  unfold counter_block. rewrite put32_stores, <-(app_nil_r (be_bytes 4 c)) at 1.
  rewrite (stores_spec _ (take 12 nonce) (be_bytes 4 c) []) by (rewrite ?be_bytes_length, ?H12; done).
  rewrite app_nil_r. do 2 f_equal. change 0xFFFFFFFF with (Z.ones 32). rewrite Z.land_ones by lia.
  rewrite <-(be_bytes_mod 4 c), <-(be_bytes_mod 4 (c + 1)), <-(be_bytes_mod 4 (_ mod _)).
  change (256 ^ Z.of_nat 4) with (2 ^ 32).
  rewrite be_value_bytes by (apply Z.mod_pos_bound; done). unfold u32, wrap.
  by rewrite !Zmod_mod, Zplus_mod_idemp_l.
Qed.

#[local] Notation K := (gcm_keys key nk nonce).
#[local] Notation E q := (aes key nk (counter_block nonce (2 + Z.of_nat q))).

Lemma keystream_spec inp D out ooff (off : nat) c :
  reads inp D out ooff off → inp ≠ InNull → in_octets inp → octets out →
  (off + 16 ≤ length D)%nat → 0 ≤ ooff → (Z.to_nat ooff + length D ≤ length out)%nat →
  owc_gcm_keystream fips_sbox inp (Z.of_nat off) rk (Z.of_nat (nk + 6)) (ooff + Z.of_nat off)
    (out, counter_block nonce c) =
  Some (take (Z.to_nat ooff + off) out ++
          zip_with Z.lxor (take 16 (drop off D)) (aes key nk (counter_block nonce (c + 1))) ++
          drop (Z.to_nat ooff + off + 16) out, counter_block nonce (c + 1)).
Proof.
  intros HD Hn Hi Ho Hlen Hoo Hl. unfold owc_gcm_keystream. rewrite inc32_spec, obind_Some.
  rewrite encrypt_state, obind_Some by (apply counter_block_state || done).
  destruct (aes_block_state _ (counter_block_state (c + 1))) as [Hel Heo].
  etransitivity; [apply (f_equal (λ y, y ≫= _)), gcm_xor_block; assumption|].
  change 16 with (Z.of_nat 16) at 1.
  by rewrite (xor_block_spec _ inp D out ooff off 16), obind_Some by first [exact HD|lia].
Qed.

Lemma gcm_keys_S n : K (S n) = K n ++ E n.
Proof. unfold gcm_keys. rewrite seq_S, fmap_app, join_app. cbn [Nat.add fmap list_fmap]. cbn [mjoin list_join]. by rewrite app_nil_r. Qed.

Lemma gcm_keys_length n : length (K n) = (16 * n)%nat.
Proof.
  induction n as [|n IH]; [done|]. rewrite gcm_keys_S, length_app, IH.
  destruct (aes_block_state _ (counter_block_state (2 + Z.of_nat n))) as [-> _]. lia.
Qed.

Lemma gcm_keys_octets n : octets (K n).
Proof.
  induction n as [|n IH]; [constructor|]. rewrite gcm_keys_S. apply octets_app. split; [done|].
  apply aes_block_state, counter_block_state.
Qed.

(** The data enciphered with whole blocks, and what it grows by. *)
Lemma zip_keys_S n (D : list Z) :
  (16 * n ≤ length D)%nat →
  zip_with Z.lxor (take (16 * S n) D) (K (S n)) =
    zip_with Z.lxor (take (16 * n) D) (K n) ++ zip_with Z.lxor (take 16 (drop (16 * n) D)) (E n).
Proof.
  intros Hl. rewrite gcm_keys_S. replace (16 * S n)%nat with (16 * n + 16)%nat by lia.
  rewrite <-take_take_drop. apply zip_with_app. rewrite length_take, gcm_keys_length. lia.
Qed.

Lemma put_at_grow (out : list Z) off l z :
  0 ≤ off → (Z.to_nat off + length l + length z ≤ length out)%nat →
  take (Z.to_nat off + length l) (put_at out off l) ++ z ++ drop (Z.to_nat off + length l + length z) (put_at out off l) =
  put_at out off (l ++ z).
Proof.
  intros Ho Hl. unfold put_at. assert (length (take (Z.to_nat off) out) = Z.to_nat off) as Ht by (rewrite length_take; lia).
  rewrite (app_assoc (take _ out)), take_app_length' by (rewrite length_app, Ht; lia).
  rewrite drop_app_ge, drop_drop, !length_app, Ht by (rewrite length_app, Ht; lia).
  rewrite <-!app_assoc. do 4 f_equal. lia.
Qed.

(** What is still to be read does not change while blocks are written. *)
Lemma reads_grow inp D out ooff l :
  reads inp D out ooff 0 → 0 ≤ ooff → (Z.to_nat ooff + length D ≤ length out)%nat → (length l ≤ length D)%nat →
  reads inp D (put_at out ooff l) ooff (length l).
Proof.
  intros HD Hoo Hl Hle. destruct inp as [|a ioff|ioff]; [done|done|]. destruct HD as [-> HD]. split; [done|].
  rewrite Nat.sub_0_r, Nat.add_0_r, drop_0 in HD. unfold put_at.
  rewrite (app_assoc (take _ out)), drop_app_length' by (rewrite length_app, length_take; lia).
  transitivity (drop (length l) (take (length D) (drop (Z.to_nat ooff) out))); [|by rewrite HD].
  by rewrite skipn_firstn_comm, drop_drop.
Qed.

Lemma reads_get inp D out ooff (off j : nat) :
  reads inp D out ooff off → inp ≠ InNull → 0 ≤ ooff → (off ≤ j < length D)%nat →
  in_get inp out (Z.of_nat j) = D !! j.
Proof.
  intros HD Hn Hoo Hj. destruct inp as [|l ioff|ioff]; [done|..]; cbn [reads in_get] in *.
  - destruct HD as [Hio HD]. rewrite aget_to_nat by lia. rewrite <-HD, lookup_take, lookup_drop, decide_True by lia. f_equal. lia.
  - destruct HD as [-> HD]. rewrite aget_to_nat by lia. replace j with (off + (j - off))%nat at 2 by lia.
    rewrite <-lookup_drop, <-HD, lookup_take, lookup_drop, decide_True by lia. f_equal. lia.
Qed.

(** The whole blocks. *)
Lemma gcm_blocks_spec inp D out ooff (n : nat) :
  reads inp D out ooff 0 → inp ≠ InNull → in_octets inp → octets out → octets D → 0 ≤ ooff →
  (Z.to_nat ooff + length D ≤ length out)%nat → (16 * n ≤ length D)%nat →
  for_up n 0 (λ q st, owc_gcm_keystream fips_sbox inp (16 * q) rk (Z.of_nat (nk + 6)) (ooff + 16 * q) st)
    (out, counter_block nonce 1) =
  Some (put_at out ooff (zip_with Z.lxor (take (16 * n) D) (K n)), counter_block nonce (1 + Z.of_nat n)).
Proof.
  intros HD Hn Hi Ho HDo Hoo Hl Hle.
  match goal with |- for_up n 0 ?b ?s = _ =>
    destruct (for_up_inv (λ j st, ∃ k : nat, j = Z.of_nat k ∧
      st = (put_at out ooff (zip_with Z.lxor (take (16 * k) D) (K k)), counter_block nonce (1 + Z.of_nat k))) n 0 b s)
      as (st & -> & k & Hk & ->) end.
  - exists 0%nat. split; [done|]. by rewrite put_at_nil.
  - intros j st Hj (k & -> & ->). set (z := zip_with Z.lxor (take (16 * k) D) (K k)).
    assert (length z = (16 * k)%nat) as Hz by (unfold z; rewrite length_zip_with, length_take, gcm_keys_length; lia).
    pose proof (reads_grow inp D out ooff z HD Hoo Hl ltac:(lia)) as Hr. rewrite Hz in Hr.
    replace (16 * Z.of_nat k) with (Z.of_nat (16 * k)) by lia.
    rewrite (keystream_spec inp D _ ooff (16 * k) _ Hr Hn Hi).
    + eexists. split; [done|]. exists (S k). split; [lia|].
      replace (1 + Z.of_nat k + 1) with (2 + Z.of_nat k) by lia. replace (1 + Z.of_nat (S k)) with (2 + Z.of_nat k) by lia.
      f_equal. rewrite zip_keys_S by lia. fold z.
      destruct (aes_block_state _ (counter_block_state (2 + Z.of_nat k))) as [Hel _].
      set (y := zip_with Z.lxor (take 16 _) _).
      assert (length y = 16%nat) as Hy by (unfold y; rewrite length_zip_with, length_take, length_drop; lia).
      rewrite <-(put_at_grow out ooff z y) by lia. by rewrite Hz, Hy.
    + apply put_at_octets; [done|]. apply zip_lxor_octets; [by apply Forall_take|apply gcm_keys_octets].
    + lia.
    + done.
    + rewrite put_at_length; lia.
  - by replace k with n by lia.
Qed.

Lemma gcm_crypt_split D :
  let n := (length D / 16)%nat in
  gcm_crypt key nk nonce D =
    zip_with Z.lxor (take (16 * n) D) (K n) ++ zip_with Z.lxor (rest 16 D) (E n).
Proof.
  intros n. unfold gcm_crypt. fold n. pose proof (Nat.div_mod_eq (length D) 16). fold n in H.
  pose proof (Nat.mod_upper_bound (length D) 16 ltac:(lia)).
  transitivity (zip_with Z.lxor (take (16 * S n) D) (K (S n))); [by rewrite (take_ge D) by lia|].
  rewrite zip_keys_S by lia. do 2 f_equal. unfold rest. fold n. rewrite (Nat.mul_comm n).
  apply take_ge. rewrite length_drop. lia.
Qed.

Lemma gcm_crypt_length D : length (gcm_crypt key nk nonce D) = length D.
Proof.
  unfold gcm_crypt. rewrite length_zip_with, gcm_keys_length.
  pose proof (Nat.div_mod_eq (length D) 16). pose proof (Nat.mod_upper_bound (length D) 16 ltac:(lia)). lia.
Qed.

Lemma gcm_crypt_octets D : octets D → octets (gcm_crypt key nk nonce D).
Proof. intros. apply zip_lxor_octets; [done|apply gcm_keys_octets]. Qed.

Lemma gcm_crypt_twice D : gcm_crypt key nk nonce (gcm_crypt key nk nonce D) = D.
Proof.
  unfold gcm_crypt at 1. rewrite gcm_crypt_length. apply zip_lxor_twice. rewrite gcm_keys_length.
  pose proof (Nat.div_mod_eq (length D) 16). pose proof (Nat.mod_upper_bound (length D) 16 ltac:(lia)). lia.
Qed.

(** The octets of the last, incomplete block written back. *)
Lemma store_rest (blk out : list Z) (n : nat) ooff base :
  (n ≤ length blk)%nat → 0 ≤ ooff + base → (Z.to_nat (ooff + base) + n ≤ length out)%nat →
  for_up n 0 (λ i out, b ← aget blk i; aset out (ooff + (base + i)) b) out =
    Some (take (Z.to_nat (ooff + base)) out ++ take n blk ++ drop (Z.to_nat (ooff + base) + n) out).
Proof.
  intros Hb Hp Hl. rewrite (for_up_ext _ _ _ (λ i b, aset b (Z.of_nat (Z.to_nat (ooff + base)) + i) (blk !!! Z.to_nat i))).
  - rewrite (stores_at _ (λ i, blk !!! Z.to_nat i)) by done. do 3 f_equal.
    apply list_eq. intros i. rewrite lookup_take, list_lookup_fmap. case_decide.
    + rewrite lookup_seq_lt by done. cbn. rewrite Nat2Z.id. symmetry. apply list_lookup_lookup_total_lt. lia.
    + by rewrite lookup_seq_ge by lia.
  - intros j s Hj. rewrite aget_to_nat by lia. rewrite list_lookup_lookup_total_lt, obind_Some by lia. f_equal. lia.
Qed.

(** One block enciphered where it is. *)
Lemma keystream_pad (R : list Z) c :
  octets R → length R = 16%nat →
  owc_gcm_keystream fips_sbox (InPlace 0) 0 rk (Z.of_nat (nk + 6)) 0 (R, counter_block nonce c) =
    Some (zip_with Z.lxor R (aes key nk (counter_block nonce (c + 1))), counter_block nonce (c + 1)).
Proof.
  intros HRo HR.
  etransitivity; [apply (keystream_spec (InPlace 0) R R 0 0 c); first [done|split; [done|]|simpl; lia]|].
  - rewrite Nat.sub_0_r. exact (firstn_all R).
  - cbn [Z.to_nat Nat.add]. by rewrite drop_0, take_0, app_nil_l, (drop_ge R), app_nil_r, take_ge by lia.
Qed.

(** The whole stream. *)
Lemma gcm_stream_spec inp D out ooff :
  reads inp D out ooff 0 → inp ≠ InNull → in_octets inp → octets out → octets D → 0 ≤ ooff →
  (Z.to_nat ooff + length D ≤ length out)%nat →
  owc_gcm_stream fips_sbox inp (Z.of_nat (length D)) rk (Z.of_nat (nk + 6)) out ooff (counter_block nonce 1) =
    Some (put_at out ooff (gcm_crypt key nk nonce D)).
Proof.
  intros HD Hn Hi Ho HDo Hoo Hl. unfold owc_gcm_stream. set (n := (length D / 16)%nat).
  pose proof (Nat.div_mod_eq (length D) 16) as Hdm. fold n in Hdm.
  pose proof (rest_length 16 ltac:(lia) D) as Hrest. pose proof (rest_lt 16 ltac:(lia) D) as Hrlt.
  assert (Z.to_nat (Z.of_nat (length D) / 16) = n) as ->
    by (unfold n; rewrite <-(Nat2Z.inj_div _ 16), Nat2Z.id; done).
  rewrite (gcm_blocks_spec inp D) by first [assumption|lia]. rewrite obind_Some.
  assert (Z.of_nat (length D) mod 16 = Z.of_nat (length (rest 16 D))) as ->
    by (rewrite Hrest, Nat2Z.inj_mod; done).
  rewrite gcm_crypt_split. fold n. set (z := zip_with Z.lxor (take (16 * n) D) (K n)).
  assert (length z = (16 * n)%nat) as Hz by (unfold z; rewrite length_zip_with, length_take, gcm_keys_length; lia).
  unfold nz. destruct (Z.eqb_spec (Z.of_nat (length (rest 16 D))) 0) as [E0|E0]; cbn [negb].
  { destruct (rest 16 D); [|simpl in E0; lia]. cbn [zip_with]. by rewrite app_nil_r. }
  pose proof (reads_grow inp D out ooff z HD Hoo Hl ltac:(lia)) as Hr. rewrite Hz in Hr.
  set (o1 := put_at out ooff z) in *. assert (length o1 = length out) as Ho1 by (unfold o1; rewrite put_at_length; lia).
  rewrite (zero_pad_loop (λ i, in_get inp o1 (Z.of_nat (length D) - Z.of_nat (length (rest 16 D)) + i)) (rest 16 D)), obind_Some.
  2:{ lia. }
  2:{ intros i Hilt. replace (Z.of_nat (length D) - Z.of_nat (length (rest 16 D)) + Z.of_nat i) with (Z.of_nat (16 * n + i)) by lia.
      rewrite (reads_get inp D o1 ooff (16 * n)) by first [exact Hr|done|lia].
      unfold rest. fold n. rewrite lookup_drop. f_equal. lia. }
  set (R := rest 16 D ++ _).
  assert (length R = 16%nat) as HR by (unfold R; rewrite length_app, length_replicate; lia).
  assert (octets R) as HRo by (apply octets_app; split; [by apply Forall_drop|apply octets_zeros]).
  set (y := zip_with Z.lxor R (E n)).
  rewrite keystream_pad by done. replace (1 + Z.of_nat n + 1) with (2 + Z.of_nat n) by lia. fold y.
  rewrite obind_Some, Nat2Z.id.
  destruct (aes_block_state _ (counter_block_state (2 + Z.of_nat n))) as [Hel _].
  assert (length y = 16%nat) as Hy by (unfold y; rewrite length_zip_with; lia).
  rewrite store_rest by lia.
  replace (Z.to_nat (ooff + (Z.of_nat (length D) - Z.of_nat (length (rest 16 D))))) with (Z.to_nat ooff + length z)%nat by lia.
  assert (take (length (rest 16 D)) y = zip_with Z.lxor (rest 16 D) (E n)) as Ey.
  { unfold y, R. rewrite zip_with_app_l, take_app_length'; [|rewrite length_zip_with, length_take; lia].
    by rewrite zip_with_take_r' by lia. }
  rewrite Ey. f_equal. replace (length (rest 16 D)) with (length (zip_with Z.lxor (rest 16 D) (E n))) at 1
    by (rewrite length_zip_with; lia).
  apply put_at_grow; [done|]. rewrite length_zip_with. lia.
Qed.

Lemma gcm_setup_spec :
  owc_gcm_setup fips_sbox rk (Z.of_nat (nk + 6)) nonce =
    Some (aes key nk (replicate 16 0), counter_block nonce 1).
Proof.
  unfold owc_gcm_setup. rewrite encrypt_state, obind_Some by (split; done || apply octets_zeros).
  change 12 with (Z.of_nat 12). rewrite copy_bytes_spec, obind_Some by (simpl; lia).
  change (drop 12 (replicate 16 0)) with (replicate 4 0). rewrite put32_stores, <-(app_nil_r (replicate 4 0)).
  rewrite (stores_spec _ (take 12 nonce) (replicate 4 0) []) by (rewrite ?be_bytes_length, ?length_take; done || lia).
  by rewrite obind_Some, app_nil_r.
Qed.

Lemma gcm_tag_length aad ct : length (gcm_tag key nk nonce aad ct) = 16%nat.
Proof.
  unfold gcm_tag. rewrite length_zip_with, be_bytes_length.
  by destruct (aes_block_state _ (counter_block_state 1)) as [-> _].
Qed.

Lemma gcm_tag_octets aad ct : octets (gcm_tag key nk nonce aad ct).
Proof. apply zip_lxor_octets; [apply aes_block_state, counter_block_state|apply be_bytes_octets]. Qed.

Lemma gcm_tag_spec aad aadlen ct coff clen tag :
  octets (default [] aad) → octets ct → 0 ≤ aadlen ≤ Z.of_nat (length (default [] aad)) →
  0 ≤ coff → 0 ≤ clen → coff + clen ≤ Z.of_nat (length ct) → length tag = 16%nat →
  owc_gcm_tag fips_sbox rk (Z.of_nat (nk + 6)) (aes key nk (replicate 16 0)) (counter_block nonce 1)
    aad aadlen ct coff clen tag =
  Some (gcm_tag key nk nonce (take (Z.to_nat aadlen) (default [] aad))
          (take (Z.to_nat clen) (drop (Z.to_nat coff) ct))).
Proof.
  intros Hao Hco Hal Hcf Hcl Hin Ht. unfold owc_gcm_tag, gcm_tag.
  assert (aes_state (replicate 16 0)) as Hz by (split; [done|apply octets_zeros]).
  destruct (aes_block_state _ Hz) as [Hhl Hho].
  destruct (ghash_spec (aes key nk (replicate 16 0)) aad aadlen ct coff clen Hho Hhl Hao Hco Hal Hcf Hcl Hin)
    as (g & -> & Hg & <-). rewrite obind_Some.
  destruct (gh_store_spec g (replicate 16 0) Hg eq_refl) as (b & -> & [Hbl Hbo] & <-). rewrite obind_Some.
  rewrite encrypt_state, obind_Some by (apply counter_block_state || apply (counter_block_state 1)).
  destruct (aes_block_state _ (counter_block_state 1)) as [Hel Heo].
  rewrite <-Hbl at 2. rewrite be_bytes_value by done. set (e := aes key nk (counter_block nonce 1)) in *. clearbody e.
  assert (length (zip_with Z.lxor e b) = 16%nat) as Hzl by (rewrite length_zip_with; lia).
  rewrite (load_loop 16 _ (λ i, zip_with Z.lxor e b !!! i)); [|intros i w Hi|lia].
  - rewrite (drop_ge tag), app_nil_r by lia. f_equal. rewrite <-Hzl. apply seq_lookup_total.
  - destruct (lookup_lt_is_Some_2 e i) as [x Hx]; [lia|]. destruct (lookup_lt_is_Some_2 b i) as [y Hy]; [lia|].
    rewrite !aget_of_nat, Hx, Hy, !obind_Some. f_equal.
    rewrite u8_small by exact (octet_xor x y (Forall_lookup_1 _ _ _ _ Heo Hx) (Forall_lookup_1 _ _ _ _ Hbo Hy)).
    symmetry. apply list_lookup_total_correct. rewrite lookup_zip_with, Hx. cbn. by rewrite Hy.
Qed.
End gcm.

(** ** Claims *)

Section claims.
Context (key nonce : list Z) (nk : nat) (aad : ptr (list Z)) (aadlen : Z).
Context (Hkey : key_ok nk key) (Hnonce : octets nonce) (Hnl : (12 ≤ length nonce)%nat)
        (Haad : octets (default [] aad)) (Hlen : 0 ≤ aadlen ≤ Z.of_nat (length (default [] aad))).
#[local] Notation A := (take (Z.to_nat aadlen) (default [] aad)).
#[local] Notation bits := (32 * Z.of_nat nk).

Lemma aad_given : (0 <? aadlen) && is_null aad = false.
Proof. destruct aad; [by rewrite andb_false_r|]. cbn in Hlen. by rewrite (proj2 (Z.ltb_ge 0 aadlen)) by lia. Qed.

Lemma gcm_seal_spec plain D out ooff tag :
  plain ≠ InNull → reads plain D out ooff 0 → in_octets plain → octets D → octets out → 0 ≤ ooff →
  (Z.to_nat ooff + length D ≤ length out)%nat → length tag = 16%nat →
  owcrypt_aes_gcm_seal the_module (Some key) bits (Some nonce) aad aadlen plain (Z.of_nat (length D))
    (Some out) ooff (Some tag) =
  Some (OWCRYPT_OK, Some (put_at out ooff (gcm_crypt key nk nonce D)),
        Some (gcm_tag key nk nonce A (gcm_crypt key nk nonce D))).
Proof.
  intros Hn HD Hi HDo Ho Hoo Hl Ht. destruct (schedule_spec nk key Hkey) as (rk & E & Hrk & Hrl & Hc).
  destruct (key_bits nk key Hkey) as [Hkb Hnr]. unfold owcrypt_aes_gcm_seal, the_module.
  cbn [owcrypt_initialized owc_sbox negb]. assert (is_in_null plain = false) as -> by by destruct plain.
  rewrite andb_false_r, aad_given, Hkb, E, obind_Some, Hnr. cbn [negb orb].
  rewrite (gcm_setup_spec key nonce nk rk Hrk Hrl Hc Hnl), obind_Some.
  rewrite (gcm_stream_spec key nonce nk rk Hrk Hrl Hc Hnonce Hnl plain D out ooff), obind_Some by assumption.
  pose proof (gcm_crypt_length key nonce nk rk Hrk Hrl Hc Hnonce Hnl D) as HC.
  set (C := gcm_crypt key nk nonce D) in *.
  rewrite (gcm_tag_spec key nonce nk rk Hrk Hrl Hc Hnonce Hnl), obind_Some; try first [assumption|lia].
  - rewrite Nat2Z.id. rewrite <-HC at 1. by rewrite put_at_read by lia.
  - apply put_at_octets; [done|]. by apply (gcm_crypt_octets key nonce nk rk).
  - rewrite put_at_length; lia.
Qed.

Lemma gcm_open_spec inp C out ooff t :
  inp ≠ InNull → reads inp C out ooff 0 → in_octets inp → octets C → octets out → 0 ≤ ooff →
  (Z.to_nat ooff + length C ≤ length out)%nat → octets t → length t = 16%nat →
  owcrypt_aes_gcm_open the_module (Some key) bits (Some nonce) aad aadlen inp (Z.of_nat (length C))
    (Some t) (Some out) ooff =
  Some (if decide (t = gcm_tag key nk nonce A C)
        then (OWCRYPT_OK, Some (put_at out ooff (gcm_crypt key nk nonce C)))
        else (OWCRYPT_BAN_AUTH_FAIL, Some out)).
Proof.
  intros Hn HC Hi HCo Ho Hoo Hl Hto Ht. destruct (schedule_spec nk key Hkey) as (rk & E & Hrk & Hrl & Hc).
  destruct (key_bits nk key Hkey) as [Hkb Hnr]. unfold owcrypt_aes_gcm_open, the_module.
  cbn [owcrypt_initialized owc_sbox negb]. assert (is_in_null inp = false) as -> by by destruct inp.
  rewrite andb_false_r, aad_given, Hkb, E, obind_Some, Hnr. cbn [negb orb].
  rewrite (gcm_setup_spec key nonce nk rk Hrk Hrl Hc Hnl), obind_Some.
  destruct (reads_array inp C out ooff Hn HC Hi Ho Hoo Hl) as (l & off & Ea & Hlo & Hoff & Hin & HCl).
  change (default [] (Some out)) with out. rewrite Ea.
  rewrite (gcm_tag_spec key nonce nk rk Hrk Hrl Hc Hnonce Hnl), obind_Some; try first [assumption|lia|reflexivity].
  rewrite Nat2Z.id, HCl.
  pose proof (gcm_tag_length key nonce nk rk Hrk Hrl Hc Hnonce Hnl A C) as Htl.
  pose proof (gcm_tag_octets key nonce nk rk Hrk Hrl Hc Hnonce Hnl A C) as Hta.
  set (tag := gcm_tag key nk nonce A C) in *.
  change 16 with (Z.of_nat 16). rewrite ct_memcmp_spec by first [done|lia].
  rewrite obind_Some, (take_ge tag), (take_ge t) by lia. destruct (decide (t = tag)) as [Et|Et].
  - rewrite bool_decide_eq_true_2 by done. cbn [negb].
    by rewrite (gcm_stream_spec key nonce nk rk Hrk Hrl Hc Hnonce Hnl inp C out ooff), obind_Some by assumption.
  - by rewrite bool_decide_eq_false_2 by (intros E'; by apply Et).
Qed.

(** [C11] After [owcrypt_module_init], sealing any plaintext with AES-GCM, from
    another array or in place, writes the counter mode ciphertext and the
    GHASH tag of SP 800-38D for the 96-bit nonce.  Opening that ciphertext in
    place restores the plaintext exactly for that tag; any other tag is
    refused and the buffer is untouched. *)
Theorem owcrypt_gcm_roundtrip m plain D out ooff tag t :
  owcrypt_initialized m = false → length (owc_sbox m) = 256%nat → length (owc_inv_sbox m) = 256%nat →
  plain ≠ InNull → reads plain D out ooff 0 → in_octets plain → octets D → octets out → 0 ≤ ooff →
  (Z.to_nat ooff + length D ≤ length out)%nat → length tag = 16%nat → octets t → length t = 16%nat →
  ∃ m' ct good,
    owcrypt_module_init true m = Some (OWCRYPT_OK, m') ∧
    owcrypt_aes_gcm_seal m' (Some key) bits (Some nonce) aad aadlen plain (Z.of_nat (length D))
      (Some out) ooff (Some tag) = Some (OWCRYPT_OK, Some ct, Some good) ∧
    ct = put_at out ooff (gcm_crypt key nk nonce D) ∧
    good = gcm_tag key nk nonce A (gcm_crypt key nk nonce D) ∧
    owcrypt_aes_gcm_open m' (Some key) bits (Some nonce) aad aadlen (InPlace ooff)
      (Z.of_nat (length D)) (Some t) (Some ct) ooff =
    Some (if decide (t = good) then (OWCRYPT_OK, Some (put_at out ooff D))
          else (OWCRYPT_BAN_AUTH_FAIL, Some ct)).
Proof.
  intros Hi Hs Hv Hn HD Hin HDo Ho Hoo Hl Htag Hto Ht. exists the_module. eexists _, _.
  split; [by apply module_init_spec|]. rewrite gcm_seal_spec by assumption. split; [done|]. split; [done|]. split; [done|].
  destruct (schedule_spec nk key Hkey) as (rk & E & Hrk & Hrl & Hc).
  pose proof (gcm_crypt_length key nonce nk rk Hrk Hrl Hc Hnonce Hnl D) as HC.
  pose proof (gcm_crypt_octets key nonce nk rk Hrk Hrl Hc Hnonce Hnl D HDo) as HCo.
  pose proof (gcm_crypt_twice key nonce nk rk Hrk Hrl Hc Hnonce Hnl D) as Htw.
  set (C := gcm_crypt key nk nonce D) in *. rewrite <-HC. rewrite gcm_open_spec; try first [assumption|done|lia].
  - by rewrite Htw, put_at_twice by lia.
  - split; [done|]. rewrite Nat.sub_0_r, Nat.add_0_r, drop_0. apply put_at_read; lia.
  - by apply put_at_octets.
  - rewrite put_at_length; lia.
Qed.
End claims.

(** Test case 2 of the GCM specification: the zero key, nonce and block. *)
Definition gcm_case2_ct : list Z :=
  [0x03; 0x88; 0xda; 0xce; 0x60; 0xb6; 0xa3; 0x92; 0xf3; 0x28; 0xc2; 0xb9; 0x71; 0xb2; 0xfe; 0x78].
Definition gcm_case2_tag : list Z :=
  [0xab; 0x6e; 0x47; 0xd4; 0x2c; 0xec; 0x13; 0xbd; 0xf5; 0x3a; 0x67; 0xb2; 0x12; 0x57; 0xbd; 0xdf].

Lemma owcrypt_gcm_roundtrip_witness :
  ∃ m',
    owcrypt_module_init true (OwcModule false (replicate 256 7) (replicate 256 7)) = Some (OWCRYPT_OK, m') ∧
    owcrypt_aes_gcm_seal m' (Some (replicate 16 0)) 128 (Some (replicate 12 0)) None 0 (InArray (replicate 16 0) 0) 16
      (Some (replicate 16 9)) 0 (Some (replicate 16 0)) = Some (OWCRYPT_OK, Some gcm_case2_ct, Some gcm_case2_tag) ∧
    owcrypt_aes_gcm_open m' (Some (replicate 16 0)) 128 (Some (replicate 12 0)) None 0 (InPlace 0) 16
      (Some gcm_case2_tag) (Some gcm_case2_ct) 0 = Some (OWCRYPT_OK, Some (replicate 16 0)).
Proof.
  destruct (owcrypt_gcm_roundtrip (replicate 16 0) (replicate 12 0) 4 None 0
    ltac:(split; [left; reflexivity|]; split; [repeat constructor; lia|simpl; lia])
    ltac:(repeat constructor; lia) ltac:(simpl; lia) ltac:(constructor) ltac:(simpl; lia)
    (OwcModule false (replicate 256 7) (replicate 256 7)) (InArray (replicate 16 0) 0) (replicate 16 0)
    (replicate 16 9) 0 (replicate 16 0) gcm_case2_tag) as (m' & ct & good & E1 & E2 & Ec & Et & E3).
  - reflexivity.
  - reflexivity.
  - reflexivity.
  - discriminate.
  - split; [simpl; lia|reflexivity].
  - repeat constructor; lia.
  - repeat constructor; lia.
  - repeat constructor; lia.
  - lia.
  - simpl; lia.
  - reflexivity.
  - repeat constructor; lia.
  - reflexivity.
  - assert (ct = gcm_case2_ct) as -> by (rewrite Ec; vm_compute; reflexivity).
    assert (good = gcm_case2_tag) as -> by (rewrite Et; vm_compute; reflexivity).
    rewrite decide_True in E3 by reflexivity. exists m'. split; [exact E1|]. split; [exact E2|exact E3].
Defined.
